(* ===== verification/_CoqProject ===== *)
-Q . S2P
Prelude.v
Arch.v
Builtins.v
CString.v
Printf.v
Csr.v
Fields.v
Pmp.v
PmpHw.v
Memregion.v
Bitstring.v
Domain.v
PmpLayout.v
PmpIsolation.v
Hart.v
Heap.v
Isa.v
Sse.v
SseProps.v
SseRoundtrip.v
SseExample.v
Hsm.v
HsmProps.v
HsmTheorems.v
Rfence.v
RfenceProps.v
DomainContext.v
DomainContextProps.v
DomainMoves.v
ContextRoundtrip.v
DomainInit.v
DomainInitProps.v
DomainExample.v
Irqchip.v
Imsic.v
Drivers.v
Htif.v
Trap.v
Unpriv.v
Misaligned.v
MisalignedProps.v
IllegalInsn.v
IllegalInsnProps.v
HartInit.v
TrapHandler.v
TrapExample.v
Fwft.v
FwftProps.v
Dbtr.v
DbtrProps.v
DbtrInvariant.v
DbtrTheorems.v
Pmu.v
PmuProps.v
Rpmi.v
RpmiProps.v
RpmiShmem.v
RpmiShmemProps.v
RpmiShmemClient.v
RpmiDoorbell.v
RpmiCppc.v
Mpxy.v
MpxyProps.v
MpxyExample.v
MpxyRpmi.v
RpmiPower.v
Devices.v
MpxyRpmiEvents.v
MpxyRpmiProps.v
MpxyRpmiExample.v
Reqfwd.v
ReqfwdProps.v
MpxyFw.v
MpxyFwProps.v
MpxyFwExample.v
Ipi.v
IpiProps.v
Timer.v
Sbi.v
SbiProps.v
