(* ===== verification/Prelude.v ===== *)
(** * RISC-V Trusted Firmware: the machine-mode monitor

    The program is a monitor that runs in M-mode on every hart of a machine
    and serves S-mode software through the SBI.  It partitions the machine
    into _domains_ (sets of harts and of memory ranges), fences itself and
    the domains off with the PMP, moves harts between domains, starts and
    stops harts, sends fences and events between them, and emulates what the
    hardware leaves to M-mode.  Paths below are under [src/].

    ** The parts and how they fit together

    A hart enters the monitor by a trap.  [trap_from_below] dispatches it:
    exceptions are emulated ([Misaligned], [IllegalInsn])
    or handed to S-mode ([trap_redirect]); an SBI call goes to its service,
    which works on the components: hart states ([Hsm]), remote fences
    ([Rfence]), software events ([Sse]), domains and their contexts
    ([Domain], [DomainContext]).  Each call that names memory asks
    [domain_range_ok] first, and [smode_access_begin] opens the window under
    Smepmp.  What a hart may touch is in its PMP ([Pmp], [PmpLayout]), which
    a move to another domain rewrites.  On the way out the hart delivers an
    event, if one is due ([sse_process]).

    ** Files

    - [Prelude] (this file): outcomes ([panic()] is one), notations, the
      tactics and the hint databases, lemmas on lists, words and bits.
    - [Arch], [Csr], [Fields]: [unsigned long] as [Z] modulo [2 ^ XLEN] with
      XLEN 32 or 64 (the class [Arch]), the options of Kconfig ([Kconfig])
      and what a hart has ([Features]) as classes; the CSR file and its
      macros ([arch/csr.h]); bits and fields of registers.
    - [Pmp], [PmpHw], [Memregion], [PmpLayout], [PmpIsolation]:
      [arch/riscv/runtime/pmp.c] and the protection part of [hart.c].
      [PmpHw] is the reference: the matching rules of the privileged
      architecture, with Smepmp.
    - [Bitstring]: [bitstring.h] and [hartmask.h].
    - [Domain]: [domain.c], [include/domain.h].
    - [Hart]: [boot_harts.c] and the table lookups of [hart.c], with the
      interface [HartTable] the others are proved against.
    - [Heap]: [lib/utils/heap.c].
    - [Sse], [SseProps], [SseRoundtrip], [SseExample]: [sse.c],
      [ras.c].  One operation, under [sse_lock], is one step.
    - [Hsm], [HsmProps], [HsmTheorems]: [hsm.c], [images/monitor/main.c]
      (the secondary entry).  All harts at once; one access to a shared word
      is one step.
    - [Rfence], [RfenceProps]: [rfence.c], the same way; a section under a
      queue's lock is one step.
    - [DomainContext], [DomainContextProps], [DomainMoves],
      [ContextRoundtrip], [DomainExample]: [domain_context.c].
    - [Trap], [Unpriv], [Misaligned], [MisalignedProps],
      [IllegalInsn], [IllegalInsnProps], [TrapHandler],
      [TrapExample]: [trap.c], [unpriv.c], [misaligned.c],
      [misaligned_vector.c], [illegal_insn.c].
    - [Fwft], [FwftProps]: [fwft.c], over what menvcfg takes ([EnvcfgHw]).
    - [Dbtr], [DbtrProps], [DbtrInvariant], [DbtrTheorems]: [dbtr.c], over
      what the trigger registers take ([TriggerHw]) and the debug
      specification's rules for it ([TriggerLaws]).
    - [Pmu], [PmuProps]: [pmu.c], over what the counter registers take
      ([PmuHw]); the device tree's tables are lists ([PmuTables]).
    - [Rpmi], [RpmiProps]: [drivers/rpmi/rpmi.c], over the interface of a
      transport ([Transport]) and the rest of the machine ([Machine]).
      [RpmiDoorbell]: its lock and doorbell on all harts at once.
    - [RpmiShmem], [RpmiShmemProps], [RpmiShmemClient]:
      [drivers/rpmi/rpmi_shmem.c], a transport ([AckQueue]).
    - [Mpxy], [MpxyProps], [MpxyExample]: [services/mpxy/mpxy.c], over the
      interface of the message protocols ([MpxyOps]).
    - [Reqfwd], [ReqfwdProps]: [services/mpxy/reqfwd.c], its frames linked by
      pointers; one critical section is one step.
    - [MpxyRpmi], [MpxyRpmiEvents], [MpxyRpmiProps], [MpxyRpmiExample]:
      [services/mpxy/mpxy_rpmi.c] and [mpxy_rpmi_groups.c], over the RPMI
      client ([PucAnswers]) and a pool the harts share ([PoolAccess]).
    - [MpxyFw], [MpxyFwProps], [MpxyFwExample]: [mpxy_rpmi_fw.c], over
      [DomainContext] and [Reqfwd].
    - [Ipi], [IpiProps]: [drivers/ipi/ipi.c] and [aclint_mswi.c]; one access
      to a shared word or register is one step.
    - [HartInit]: what a hart has, and its registers before S-mode runs on it
      ([hart.c], [ras.c]).
    - [Timer]: [drivers/timer/timer.c] and [aclint_mtimer.c].
    - [Sbi], [SbiProps]: [services/core/service.c] and
      [services/sbi/*.c].  A service is a tree of calls of the components
      ([prog]); the interface is the type of calls ([call]).
    - [DomainInit], [DomainInitProps]: the domains of the device tree and
      their start ([domain.c]).
    - [RpmiCppc]: [drivers/cppc]; [RpmiPower]: [drivers/hsm],
      [drivers/suspend] and the core and RPMI backend of [drivers/reset].
      Both over the answers of the PuC ([CppcEnv], [PowerEnv]).
    - [Devices]: the UARTs and how the console is found ([drivers/serial]),
      reset devices and GPIO ([drivers/reset], [drivers/gpio]), and
      [drivers/ipi/andes_plicsw.c]; loads, stores and waits are a log.
    - [Htif]: [drivers/serial/htif.c], with the host, one access a step.
    - [Irqchip], [Imsic]: [drivers/irqchip].  What a driver stores is a list;
      an interrupt file is the one of the AIA.
    - [Drivers]: [lib/utils/fdt_util.c], [drivers/core].
    - [Isa]: [isa.c]; [Builtins], [CString], [Printf]: [lib/builtins] and
      [lib/libc], on memory.

    ** What the theorems show

    - _Isolation_ ([PmpIsolation], [Memregion], [Domain]): S/U-mode never
      reaches a byte of the monitor, whatever the domain; for every other
      access the PMP and the software check agree; the layout is there after
      the init of a hart, and after every move, and after a window.
    - _Placement_ ([DomainMoves]): a hart is in exactly one domain, and it
      gets where a domain lets another in; what it had is there when it is
      back ([ContextRoundtrip]).
    - _Hart states_ ([HsmTheorems]): the states follow the SBI's diagram for
      every interleaving, a hart is entered with the arguments of one granted
      start, a start is carried out in at most seven steps of the hart.
    - _Fences_ ([RfenceProps]): a request returns only after every target has
      fenced, and someone can always go on.
    - _Events_ ([SseProps], [SseRoundtrip]): a due event is delivered at the
      next trap exit, domains do not touch one another's events, and handler
      entry and completion are inverse.
    - _Emulation_ ([MisalignedProps], [IllegalInsnProps], [Trap],
      [TrapHandler]): what is emulated has the effect of the instruction,
      what is handed on returns by SRET to where it was, and no exception of
      S- or U-mode ends in a panic.
    - _Calls_ ([SbiProps]): no ecall does what its domain has no right to, or
      leaves a window on S-mode memory open, whatever the components answer;
      it returns by the SBI's convention; masks of harts mean what the SBI
      says, and no IPI is lost on a hart that is away.
    - _Interrupts_ ([IpiProps], [Timer]): no event between harts is lost, and
      each is acted on in five steps of its hart; the timer of S-mode is
      neither early nor lost.
    - _Features_ ([FwftProps]): a set is what a get finds, and a lock holds.
    - _Debug triggers_ ([DbtrTheorems]): a trigger that is on is the running
      domain's, and cannot fire in M-mode; an installation is all or nothing;
      a domain that comes back finds its triggers as it left them.
    - _Counters_ ([PmuProps]): a domain's counters stand still while it is
      away; a firmware counter counts its own events, each once.
    - _RPMI_ ([RpmiProps], [RpmiShmemClient], [RpmiDoorbell]): a request gets
      its own acknowledgment and ends; the transport implements queues, and no
      PuC can lead it out of them; no doorbell is lost or waited for for ever.
    - _MPXY_ ([MpxyProps]): a domain sees and changes its own channels only;
      the monitor writes to the shared memory and to checked MSI targets only;
      attributes are written all or nothing.
    - _Forwarding_ ([ReqfwdProps]): a response goes to the sender of its
      message; no sender's stack is touched after it has returned.
    - _Channels of RPMI_ ([MpxyRpmiProps], [MpxyRpmiEvents]): only requests
      the service group allows reach the PuC, with the MSIs of the monitor
      and targets that were not checked kept out; events are a queue.
    - _Bridges_ ([MpxyFwProps]): a domain is handed a message only while its
      sender waits for it, with the words of that sender.
    - _Entry_ ([HartInit]): finding out what a hart has leaves its registers as
      they were; no trap or interrupt that is the monitor's is delegated; and
      S-mode is entered in a defined state, whatever ran before.
    - _Boot_ ([DomainInitProps], [Drivers]): whatever the device tree says,
      every hart starts in one domain that may have it, a domain is entered
      from where the tree lists only, and the harts that are told to boot are
      the ones that can; drivers are probed stage by stage for the nodes they
      match.
    - _Power_ ([RpmiPower], [RpmiCppc]): the suspend types are the
      PuC's list, fetched in a bounded number of messages; a reset goes to the
      best backend; the stores of the CPPC driver stay off the monitor's
      memory, whatever the PuC answers.
    - _Interrupt controllers_ ([Irqchip], [Imsic]): a PLIC is left quiet
      and an APLIC delegated as the tree says, by stores inside them; an MSI
      of the monitor reaches its handler on the hart that asked for it.
    - _Devices_ ([Devices], [Htif]): a character is sent once, when the UART
      can take it; a 16550 is left set up; a GPIO line is driven and no other;
      a reset goes to a device that was found; a software interrupt reaches
      one hart; requests reach the host of a simulator in order.
    - _Library_ ([Builtins], [CString], [Printf], [Isa], [Drivers]): divisions
      and shifts are those of the integers; strings are compared, searched and
      moved as the standard says; formatted output is cut off at the buffer
      and nowhere else; an extension is found exactly if it is listed.

    Some theorems record that the code departs from what it means to do: a
    start lost at the entry, a hart left SUSPENDED, the last page of an
    unaligned fence, whole-register vector accesses, an MSI target torn while
    it is replaced, a wait without its timeout, fast channels that stop the
    machine ([boot_channels_stop]) or reach too far
    ([small_region_unconfined]), a list of suspend types that is too long
    ([many_types_no_suspend]).

    ** Bounds

    The loops of the source have a bound there (regions, entries, harts,
    events, bytes of an access, the 64 tries of an AMO), and recurse on a list
    or on that count; where a round takes one entry or more
    ([install_place]) the rounds are as many as the entries.  The loops without one
    (waiting for a start, for a queue, for an answer) are step relations, and
    the theorems say which steps end them.  The loops of the RPMI client,
    which wait for the other side, take a number of rounds ([fuel]);
    [rpmi_request_ends] says how many are enough, and two levels of requests
    inside one another are ([rpmi_request]), since the doorbell is tried once.
    The loops over a string take a round more than its length, that over a
    format a round for each of its characters, a fetch of suspend types a
    round for each entry of the table and one more
    ([suspend_types_fetch_ends]), the claims of a file as many as a register
    has bits.

    ** Parameters

    What the hardware or the platform decides is an argument: XLEN and
    Kconfig options ([Arch], [Kconfig]), the extensions of a hart
    ([Features]), the translation and protection of an access ([Mmu]), the
    answers of platform calls ([HsmEnv], [SseEnv], [CtxEnv]), what is at
    the other end of a transport ([Machine], [PucAnswers], [CppcEnv],
    [PowerEnv]).  Laws a theorem
    needs of them are hypotheses by name; the [*Example] files and modules
    have concrete machines where they hold, and apply the theorems there.

    ** Not modelled

    The device-tree library (vendored): what the components read of a tree
    are records and lists of cells, and its edits for the next stage are not
    modelled, but for those of the driver core and the interrupt controllers.
    Semihosting, platforms and the loader: input and output.  Assembly: what it
    does to the registers is part of the definitions that call it.  The test
    image runs in S-mode and is not part of the monitor.
*)

From stdpp Require Export base tactics list numbers option gmap.
From Stdlib Require Export ZArith Lia.

#[local] Open Scope Z_scope.

(** * Outcomes

    A call of the monitor either returns, or ends in [panic()], which stops
    every hart and is modelled as its own outcome. *)

Inductive outcome (A : Type) : Type :=
| Ret (a : A)
| Panic.
Arguments Ret {A} a.
Arguments Panic {A}.

#[export] Instance outcome_ret : MRet outcome := fun A a => Ret a.
#[export] Instance outcome_bind : MBind outcome :=
  fun A B f m => match m with Ret a => f a | Panic => Panic end.

Definition returns {A : Type} (m : outcome A) : Prop := exists a, m = Ret a.

(** * Record updates

    [Settable R] gives the eta-expansion of a record; the setter of each of
    its fields is derived from it. *)

Class Settable (R : Type) := eta_of : R -> R.
Class Setter {R E : Type} (getter : R -> E) := field_update : (E -> E) -> R -> R.
Arguments field_update {R E} getter {Setter} f r : rename.

Ltac derive_setter R getter :=
  let e := constr:(eta_of (R := R)) in
  let e' := eval hnf in e in
  lazymatch eval pattern getter in e' with
  | ?upd _ =>
      let u := eval cbv beta in (fun f => upd (fun r => f (getter r))) in
      exact u
  end.

#[export] Hint Extern 1 (@Setter ?R ?E ?getter) =>
  derive_setter R getter : typeclass_instances.

Declare Scope record_scope.
Delimit Scope record_scope with rec.
Notation "x <| proj := v |>" := (field_update proj (fun _ => v) x)
  (at level 1, left associativity, only parsing) : record_scope.
Notation "x <| proj ::= f |>" := (field_update proj f x)
  (at level 1, left associativity, only parsing) : record_scope.
#[global] Open Scope record_scope.

(** * Bits

    [bitwise] proves an equation between integers bit by bit: the database
    [bits] computes [Z.testbit] through the operations the code uses. *)

Create HintDb bits.
Create Rewrite HintDb bits.

Lemma testbit_high (p n i : Z) :
  0 <= n < 2 ^ p -> p <= i -> Z.testbit n i = false.
Proof.
  intros Hn Hi. destruct (Z.eq_dec n 0) as [->|Hz]; [apply Z.bits_0|].
  apply Z.bits_above_log2; [lia|].
  apply Z.log2_lt_pow2; [lia|].
  destruct (Z.lt_ge_cases p 0) as [Hp|Hp]; [rewrite Z.pow_neg_r in Hn by lia; lia|].
  eapply Z.lt_le_trans; [apply Hn|]. apply Z.pow_le_mono_r; lia.
Qed.

Lemma testbit_ones (n i : Z) :
  0 <= n -> 0 <= i -> Z.testbit (2 ^ n - 1) i = (i <? n).
Proof.
  intros Hn Hi. replace (2 ^ n - 1) with (Z.ones n) by (rewrite Z.ones_equiv; lia).
  rewrite Z.testbit_ones by lia. destruct (Z.leb_spec 0 i); [done|lia].
Qed.

Lemma testbit_mod_pow2 (a n i : Z) :
  0 <= n -> 0 <= i -> Z.testbit (a mod 2 ^ n) i = (i <? n) && Z.testbit a i.
Proof.
  intros Hn Hi. destruct (Z.ltb_spec i n) as [H|H]; cbn.
  - apply Z.mod_pow2_bits_low; lia.
  - apply Z.mod_pow2_bits_high; lia.
Qed.

#[export] Hint Rewrite Z.land_spec Z.lor_spec Z.lxor_spec Z.ldiff_spec Z.bits_0 : bits.
#[export] Hint Rewrite Z.lnot_spec Z.shiftl_spec Z.shiftr_spec testbit_mod_pow2 testbit_ones
  using lia : bits.
#[export] Hint Rewrite andb_true_r andb_true_l andb_false_r andb_false_l
  orb_true_r orb_true_l orb_false_r orb_false_l : bits.

Ltac bitwise :=
  let i := fresh "i" in
  let Hi := fresh "Hi" in
  apply Z.bits_inj'; intros i Hi; autorewrite with bits.

(** A number below [2 ^ n], of which all bits from [n] on are clear. *)
Lemma bounded_iff_bits (a n : Z) :
  0 <= n -> (0 <= a < 2 ^ n <-> (forall i, n <= i -> Z.testbit a i = false) /\ 0 <= a).
Proof.
  intros Hn; split.
  - intros Ha; split; [intros; by eapply testbit_high|lia].
  - intros [Hb H0]. split; [done|].
    replace a with (a mod 2 ^ n); [apply Z.mod_pos_bound; lia|].
    bitwise. destruct (Z.ltb_spec i n); cbn; [done|]. symmetry; apply Hb; lia.
Qed.

Lemma land_bound (a b n : Z) : 0 <= n -> 0 <= a < 2 ^ n -> 0 <= b -> 0 <= Z.land a b < 2 ^ n.
Proof.
  intros Hn Ha Hb. apply bounded_iff_bits; [done|split].
  - intros i Hi. rewrite Z.land_spec, (testbit_high n a i) by lia. done.
  - apply Z.land_nonneg; lia.
Qed.

Lemma lor_bound (a b n : Z) :
  0 <= n -> 0 <= a < 2 ^ n -> 0 <= b < 2 ^ n -> 0 <= Z.lor a b < 2 ^ n.
Proof.
  intros Hn Ha Hb. apply bounded_iff_bits; [done|split].
  - intros i Hi. rewrite Z.lor_spec, (testbit_high n a i), (testbit_high n b i) by lia. done.
  - apply Z.lor_nonneg; lia.
Qed.

(** Masking with the low [n] bits set is a remainder; clearing them rounds
    down. *)
Lemma land_low (a n : Z) : 0 <= n -> Z.land a (2 ^ n - 1) = a mod 2 ^ n.
Proof. intros Hn. bitwise. apply andb_comm. Qed.

Lemma ldiff_low (a n : Z) : 0 <= n -> Z.ldiff a (2 ^ n - 1) = a - a mod 2 ^ n.
Proof.
  intros Hn. replace (2 ^ n - 1) with (Z.ones n) by (rewrite Z.ones_equiv; lia).
  rewrite Z.ldiff_ones_r, Z.shiftr_div_pow2, Z.shiftl_mul_pow2 by lia.
  pose proof (Z.div_mod a (2 ^ n)). lia.
Qed.

(** Disjoint bits add up. *)
Lemma lor_disjoint_add (a b : Z) : Z.land a b = 0 -> Z.lor a b = a + b.
Proof. intros H. pose proof (Z.add_lor_land a b). lia. Qed.

Lemma pow2_pos (n : Z) : 0 <= n -> 0 < 2 ^ n.
Proof. intros; apply Z.pow_pos_nonneg; lia. Qed.
#[export] Hint Resolve pow2_pos : bits.

Lemma pow2_le (m n : Z) : 0 <= m <= n -> 2 ^ m <= 2 ^ n.
Proof. intros; apply Z.pow_le_mono_r; lia. Qed.

Lemma pow2_divide (m n : Z) : 0 <= m <= n -> (2 ^ m | 2 ^ n).
Proof.
  intros. exists (2 ^ (n - m)). rewrite <- Z.pow_add_r by lia. f_equal; lia.
Qed.

Lemma mod0_divide (a m n : Z) : 0 <= m <= n -> a mod 2 ^ n = 0 -> a mod 2 ^ m = 0.
Proof.
  intros Hmn Ha. apply Z.mod_divide; [pose proof (pow2_pos m); lia|].
  etrans; [apply (pow2_divide m n); lia|]. apply Z.mod_divide; [pose proof (pow2_pos n); lia|done].
Qed.

Lemma pow2_split (a b : Z) : 0 <= b <= a -> 2 ^ a = 2 ^ (a - b) * 2 ^ b.
Proof. intros. rewrite <- Z.pow_add_r by lia. f_equal. lia. Qed.

(** The next multiple. *)
Lemma multiple_lt (d m n : Z) : 0 < d -> m * d < n * d -> m * d + d <= n * d.
Proof. intros Hd Hlt. apply Z.mul_lt_mono_pos_r in Hlt; [|done]. nia. Qed.

(** * Booleans and comparisons *)

(** A C condition on an integer. *)
Definition truth (z : Z) : bool := negb (z =? 0).

Lemma truth_true (z : Z) : truth z = true <-> z <> 0.
Proof. unfold truth. rewrite negb_true_iff. apply Z.eqb_neq. Qed.

(** [v & BIT(n)] as a condition. *)
Lemma truth_bit (a n : Z) : 0 <= n -> truth (Z.land a (2 ^ n)) = Z.testbit a n.
Proof.
  intros Hn. unfold truth. destruct (Z.testbit a n) eqn:E.
  - apply negb_true_iff, Z.eqb_neq. intros H0.
    apply (f_equal (fun z => Z.testbit z n)) in H0.
    rewrite Z.land_spec, E, Z.pow2_bits_true, Z.bits_0 in H0 by lia. done.
  - apply negb_false_iff, Z.eqb_eq. bitwise. rewrite Z.pow2_bits_eqb by lia.
    destruct (Z.eqb_spec n i) as [<-|]; [by rewrite E|by rewrite andb_false_r].
Qed.

(** A condition on two words at once. *)
Lemma truth_lor (a b m : Z) : truth (Z.land (Z.lor a b) m) = truth (Z.land a m) || truth (Z.land b m).
Proof.
  unfold truth. rewrite Z.land_lor_distr_l.
  destruct (Z.eqb_spec (Z.land a m) 0) as [Ea|Ea], (Z.eqb_spec (Z.land b m) 0) as [Eb|Eb]; cbn;
    apply Bool.eq_iff_eq_true; rewrite negb_true_iff, Z.eqb_neq, Z.lor_eq_0_iff; naive_solver.
Qed.

(** One bit set, one bit cleared. *)
Lemma testbit_set (v n i : Z) : 0 <= n -> 0 <= i -> Z.testbit (Z.lor v (2 ^ n)) i = (i =? n) || Z.testbit v i.
Proof. intros. rewrite Z.lor_spec, Z.pow2_bits_eqb, Z.eqb_sym by lia. apply orb_comm. Qed.

Lemma testbit_clear (v n i : Z) : 0 <= n -> 0 <= i -> Z.testbit (Z.ldiff v (2 ^ n)) i = negb (i =? n) && Z.testbit v i.
Proof. intros. rewrite Z.ldiff_spec, Z.pow2_bits_eqb, Z.eqb_sym by lia. apply andb_comm. Qed.

(** Turn boolean comparisons in the context and the goal into propositions. *)
Ltac bool_prop :=
  repeat match goal with
  | H : _ && _ = true |- _ => apply andb_prop in H; destruct H
  | H : _ || _ = false |- _ => apply orb_false_elim in H; destruct H
  | H : negb _ = true |- _ => apply negb_true_iff in H
  | H : negb _ = false |- _ => apply negb_false_iff in H
  | H : (_ <? _) = true |- _ => apply Z.ltb_lt in H
  | H : (_ <? _) = false |- _ => apply Z.ltb_ge in H
  | H : (_ <=? _) = true |- _ => apply Z.leb_le in H
  | H : (_ <=? _) = false |- _ => apply Z.leb_gt in H
  | H : (_ =? _) = true |- _ => apply Z.eqb_eq in H
  | H : (_ =? _) = false |- _ => apply Z.eqb_neq in H
  end.

(** Case analysis on every comparison of integers in the goal. *)
Ltac case_cmp :=
  repeat match goal with
  | |- context [?a <? ?b] => destruct (Z.ltb_spec a b)
  | |- context [?a <=? ?b] => destruct (Z.leb_spec a b)
  | |- context [?a =? ?b] => destruct (Z.eqb_spec a b)
  end.

(** * Half-open ranges [[lo, hi)] *)

Definition overlaps (lo hi lo' hi' : Z) : bool := (lo <? hi') && (lo' <? hi).
Definition within (lo hi lo' hi' : Z) : bool := (lo' <=? lo) && (hi <=? hi').

Lemma overlaps_spec (lo hi lo' hi' : Z) :
  lo < hi -> lo' < hi' ->
  overlaps lo hi lo' hi' = true <-> exists x, lo <= x < hi /\ lo' <= x < hi'.
Proof.
  intros H H'. unfold overlaps. rewrite andb_true_iff, !Z.ltb_lt. split.
  - intros [? ?]. exists (Z.max lo lo'). lia.
  - intros (x & ? & ?). lia.
Qed.

(** * Loops over the indices of an array *)

(** [for (i = 0; i < n; i++) s = body(i, s)] *)
Definition for_upto {S : Type} (n : nat) (body : Z -> S -> S) (s : S) : S :=
  foldl (fun s i => body (Z.of_nat i) s) s (seq 0 n).

Lemma for_upto_0 {S} (body : Z -> S -> S) (s : S) : for_upto 0 body s = s.
Proof. done. Qed.

Lemma for_upto_S {S} (n : nat) (body : Z -> S -> S) (s : S) :
  for_upto (Datatypes.S n) body s = body (Z.of_nat n) (for_upto n body s).
Proof. unfold for_upto. rewrite seq_S, foldl_app. done. Qed.

Lemma for_upto_ind {S} (P : nat -> S -> Prop) (n : nat) (body : Z -> S -> S) (s : S) :
  P 0%nat s ->
  (forall i s', (i < n)%nat -> P i s' -> P (Datatypes.S i) (body (Z.of_nat i) s')) ->
  P n (for_upto n body s).
Proof.
  intros H0 HS. assert (forall k, (k <= n)%nat -> P k (for_upto k body s)) as H; [|by apply H].
  induction k as [|k IH]; intros Hk; [done|].
  rewrite for_upto_S. apply HS; [lia|]. apply IH; lia.
Qed.

Lemma foldl_seq_ind {S} (P : nat -> S -> Prop) (n : nat) (body : S -> nat -> S) (s : S) :
  P 0%nat s ->
  (forall i s', (i < n)%nat -> P i s' -> P (Datatypes.S i) (body s' i)) ->
  P n (foldl body s (seq 0 n)).
Proof.
  intros H0 HS. assert (forall k, (k <= n)%nat -> P k (foldl body s (seq 0 k))) as H; [|by apply H].
  induction k as [|k IH]; intros Hk; [done|].
  rewrite seq_S, foldl_app. apply HS; [lia|]. apply IH; lia.
Qed.
