(* ===== verification/Arch.v ===== *)
(** The machine the monitor is compiled for: registers of [XLEN] bits, the
    C [unsigned long] with its wrap-around, the helpers of
    [lib/libutils/include/util.h] and the constants of [<sbi/sbi.h>] and
    [<arch/csr.h>] the components share. *)

From S2P Require Import Prelude.

#[local] Open Scope Z_scope.

(** * Register width *)

(** [__RISCV_XLEN__]: the two targets the monitor is built for. *)
Inductive xlen : Set := RV32 | RV64.
Class Arch := arch_xlen : xlen.

#[export] Instance xlen_eq_dec : EqDecision xlen.
Proof. solve_decision. Defined.

Section Words.
Context {AR : Arch}.

Definition XLEN : Z := match arch_xlen with RV32 => 32 | RV64 => 64 end.

(** [sizeof(long)] *)
Definition REGBYTES : Z := XLEN / 8.

Lemma XLEN_cases : XLEN = 32 \/ XLEN = 64.
Proof. unfold XLEN. destruct arch_xlen; auto. Qed.

Lemma XLEN_bounds : 32 <= XLEN <= 64.
Proof. destruct XLEN_cases; lia. Qed.

(** * Unsigned long *)

Definition is_ulong (z : Z) : Prop := 0 <= z < 2 ^ XLEN.
Definition wrap (z : Z) : Z := z mod 2 ^ XLEN.

Definition uadd (a b : Z) : Z := wrap (a + b).
Definition usub (a b : Z) : Z := wrap (a - b).
Definition umul (a b : Z) : Z := wrap (a * b).
Definition unot (a : Z) : Z := wrap (Z.lnot a).
(** Shifts of an [unsigned long] by an amount below its width. *)
Definition ushl (a n : Z) : Z := wrap (Z.shiftl a n).
Definition ushr (a n : Z) : Z := Z.shiftr a n.

(** [BIT(nr)] *)
Definition BIT (nr : Z) : Z := ushl 1 nr.

Lemma pow_XLEN_pos : 0 < 2 ^ XLEN.
Proof. apply pow2_pos. pose proof XLEN_bounds; lia. Qed.

Lemma wrap_range (z : Z) : is_ulong (wrap z).
Proof. apply Z.mod_pos_bound, pow_XLEN_pos. Qed.

Lemma wrap_small (z : Z) : is_ulong z -> wrap z = z.
Proof. apply Z.mod_small. Qed.

Lemma wrap_over (z : Z) : 2 ^ XLEN <= z < 2 * 2 ^ XLEN -> wrap z = z - 2 ^ XLEN.
Proof.
  intros. unfold wrap. rewrite <- (Z.mod_small (z - 2 ^ XLEN) (2 ^ XLEN)) by lia.
  rewrite <- (Z_mod_plus_full (z - 2 ^ XLEN) 1). f_equal. lia.
Qed.

Lemma wrap_neg (z : Z) : - 2 ^ XLEN <= z < 0 -> wrap z = z + 2 ^ XLEN.
Proof.
  intros. unfold wrap. rewrite <- (Z.mod_small (z + 2 ^ XLEN) (2 ^ XLEN)) by lia.
  rewrite <- (Z_mod_plus_full z 1). f_equal. lia.
Qed.

(** The overflow test of the code: a sum of two words that came out smaller
    than an addend has wrapped, and only then. *)
Lemma uadd_carry (a b : Z) :
  is_ulong a -> is_ulong b -> (uadd a b <? a) = true <-> 2 ^ XLEN <= a + b.
Proof.
  unfold is_ulong, uadd. intros Ha Hb. rewrite Z.ltb_lt. split; intros Hc.
  - destruct (Z.le_gt_cases (2 ^ XLEN) (a + b)) as [|Hlt]; [done|].
    rewrite wrap_small in Hc by (split; lia). lia.
  - rewrite wrap_over by lia. lia.
Qed.

Lemma uadd_no_carry (a b : Z) : is_ulong a -> is_ulong b -> (uadd a b <? a) = false -> uadd a b = a + b.
Proof.
  intros Ha Hb Hc. apply not_true_iff_false in Hc. rewrite uadd_carry in Hc by done. unfold is_ulong in *.
  apply wrap_small. unfold is_ulong. lia.
Qed.

(** The index of a bit is a word. *)
Lemma index_ulong (i : nat) : (i <= Z.to_nat XLEN)%nat -> is_ulong (Z.of_nat i).
Proof.
  intros Hi. pose proof XLEN_bounds. assert (XLEN < 2 ^ XLEN) by (apply Z.pow_gt_lin_r; lia). unfold is_ulong. lia.
Qed.

Lemma unot_eq (a : Z) : is_ulong a -> unot a = 2 ^ XLEN - 1 - a.
Proof.
  unfold is_ulong, unot. intros Ha. unfold Z.lnot. rewrite wrap_neg by lia. lia.
Qed.

(** [a & ~m] on words clears the bits of [m]. *)
Lemma land_unot (a m : Z) : is_ulong a -> Z.land a (unot m) = Z.ldiff a m.
Proof.
  intros Ha. unfold unot, wrap. pose proof XLEN_bounds. bitwise.
  destruct (Z.ltb_spec i XLEN); cbn; [done|].
  rewrite (testbit_high XLEN a i) by (unfold is_ulong in Ha; lia). done.
Qed.

Lemma BIT_small (n : Z) : 0 <= n < XLEN -> BIT n = 2 ^ n.
Proof.
  intros. unfold BIT, ushl. rewrite Z.shiftl_1_l. apply wrap_small.
  split; [pose proof (pow2_pos n); lia|]. apply Z.pow_lt_mono_r; lia.
Qed.

Lemma ushr_range (a n : Z) : 0 <= n -> is_ulong a -> is_ulong (ushr a n).
Proof.
  unfold is_ulong, ushr. intros Hn Ha. rewrite Z.shiftr_div_pow2 by lia.
  pose proof (pow2_pos n Hn). split; [apply Z.div_pos; lia|].
  apply Z.div_lt_upper_bound; [lia|]. nia.
Qed.

Lemma is_ulong_land (a b : Z) : is_ulong a -> 0 <= b -> is_ulong (Z.land a b).
Proof. intros. apply land_bound; [pose proof XLEN_bounds; lia|done..]. Qed.

Lemma is_ulong_lor (a b : Z) : is_ulong a -> is_ulong b -> is_ulong (Z.lor a b).
Proof. intros. apply lor_bound; [pose proof XLEN_bounds; lia|done..]. Qed.

(** * Powers of two, alignment and rounding ([util.h]) *)

(** [((x) != 0) && (((x) & (~(x) + 1)) == (x))] *)
Definition IS_POWER_OF_TWO (x : Z) : bool :=
  negb (x =? 0) && (Z.land x (uadd (unot x) 1) =? x).

(** [((x) & ((a) - 1)) == 0] *)
Definition IS_ALIGNED (x a : Z) : bool := Z.land x (usub a 1) =? 0.

(** [((x) + (y) - 1) & ~((y) - 1)], in the type of [x] *)
Definition ROUNDUP2 (x y : Z) : Z := Z.land (usub (uadd x y) 1) (unot (usub y 1)).

(** [(x) & ~((y) - 1)] *)
Definition ROUNDDOWN2 (x y : Z) : Z := Z.land x (unot (usub y 1)).

(** Every positive number has a lowest set bit. *)
Lemma lowest_bit (x : Z) : 0 < x -> exists k q, 0 <= k /\ 0 <= q /\ x = (2 * q + 1) * 2 ^ k.
Proof.
  intros Hx. induction (Z.lt_wf 0 x) as [x _ IH]. destruct (Z.Even_or_Odd x) as [[y Hy]|[y Hy]].
  - destruct (IH y) as (k & q & Hk & Hq & Hyq); [lia..|].
    exists (k + 1), q. rewrite Z.pow_add_r by lia. split_and!; [lia|lia|]. rewrite Hy, Hyq. ring.
  - exists 0, y. rewrite Z.pow_0_r. lia.
Qed.

Lemma ldiff_pred (q k : Z) :
  0 <= k -> 0 <= q -> Z.ldiff ((2 * q + 1) * 2 ^ k) ((2 * q + 1) * 2 ^ k - 1) = 2 ^ k.
Proof.
  intros Hk Hq.
  replace ((2 * q + 1) * 2 ^ k - 1) with (Z.lor (2 * q * 2 ^ k) (2 ^ k - 1)).
  2:{ rewrite lor_disjoint_add; [ring|].
      rewrite land_low by lia. apply Z_mod_mult. }
  bitwise. rewrite Z.pow2_bits_eqb, !Z.mul_pow2_bits by lia.
  destruct (Z.ltb_spec i k) as [Hi'|Hi']; cbn.
  - rewrite Z.testbit_neg_r by lia. cbn. destruct (Z.eqb_spec k i); [lia|done].
  - destruct (Z.eqb_spec k i) as [->|Hne].
    + rewrite Z.sub_diag, Z.testbit_odd_0, Z.testbit_even_0. done.
    + replace (i - k) with (Z.succ (i - k - 1)) by lia.
      rewrite Z.testbit_odd_succ, Z.testbit_even_succ by lia.
      destruct (Z.testbit q _); done.
Qed.

(** The mask test of [IS_POWER_OF_TWO] is exact on words. *)
Lemma IS_POWER_OF_TWO_spec (x : Z) :
  is_ulong x -> IS_POWER_OF_TWO x = true <-> exists n, 0 <= n < XLEN /\ x = 2 ^ n.
Proof.
  intros Hx. unfold IS_POWER_OF_TWO. rewrite andb_true_iff, negb_true_iff, Z.eqb_neq, Z.eqb_eq.
  assert (0 < x -> Z.land x (uadd (unot x) 1) = Z.ldiff x (x - 1)) as Hl.
  { intros Hp. unfold uadd. rewrite unot_eq by done. unfold is_ulong in Hx.
    rewrite wrap_small by (split; lia). rewrite <- (land_unot x (x - 1)) by done. f_equal.
    rewrite unot_eq by (split; lia). lia. }
  split.
  - intros [Hnz He]. rewrite Hl in He by (unfold is_ulong in Hx; lia).
    destruct (lowest_bit x) as (k & q & Hk & Hq & Heq); [unfold is_ulong in Hx; lia|].
    rewrite Heq, ldiff_pred in He by done. pose proof (pow2_pos k Hk).
    assert (q = 0) as -> by nia. exists k. split; [|lia].
    split; [done|]. destruct (Z.lt_ge_cases k XLEN); [done|].
    pose proof (pow2_le XLEN k ltac:(pose proof XLEN_bounds; lia)). unfold is_ulong in Hx. lia.
  - intros (n & Hn & ->). pose proof (pow2_pos n ltac:(lia)). split; [lia|].
    rewrite Hl by done. pose proof (ldiff_pred 0 n ltac:(lia) ltac:(lia)) as Hd.
    rewrite !Z.mul_0_r, !Z.add_0_l, !Z.mul_1_l in Hd. done.
Qed.

(** Alignment to a power of two is divisibility. *)
Lemma IS_ALIGNED_spec (x n : Z) :
  0 <= n < XLEN -> IS_ALIGNED x (2 ^ n) = true <-> x mod 2 ^ n = 0.
Proof.
  intros Hn. unfold IS_ALIGNED, usub. rewrite wrap_small.
  - rewrite land_low, Z.eqb_eq by lia. done.
  - split; [pose proof (pow2_pos n); lia|].
    pose proof (pow2_le n XLEN); pose proof (pow2_pos n); lia.
Qed.

(** Rounding up to a power of two, when the sum does not wrap: the least
    multiple that is not below. *)
Lemma ROUNDUP2_spec (x n : Z) :
  0 <= n < XLEN -> 0 <= x -> x + 2 ^ n <= 2 ^ XLEN ->
  ROUNDUP2 x (2 ^ n) mod 2 ^ n = 0 /\ x <= ROUNDUP2 x (2 ^ n) < x + 2 ^ n.
Proof.
  intros Hn Hx Hov. pose proof (pow2_pos n ltac:(lia)) as Hp.
  assert (usub (uadd x (2 ^ n)) 1 = x + 2 ^ n - 1) as Hs.
  { unfold usub, uadd. destruct (Z.eq_dec (x + 2 ^ n) (2 ^ XLEN)) as [He|He].
    - rewrite (wrap_over (x + 2 ^ n)) by lia. rewrite wrap_neg by lia. lia.
    - rewrite (wrap_small (x + 2 ^ n)) by (split; lia). apply wrap_small; split; lia. }
  unfold ROUNDUP2. rewrite Hs.
  replace (usub (2 ^ n) 1) with (2 ^ n - 1) by (symmetry; apply wrap_small; split; lia).
  rewrite land_unot by (split; lia). rewrite ldiff_low by lia.
  pose proof (Z.mod_pos_bound (x + 2 ^ n - 1) (2 ^ n) Hp). split; [|lia].
  rewrite Zminus_mod, Zmod_mod, Z.sub_diag. apply Zmod_0_l.
Qed.
End Words.

Infix "+!" := uadd (at level 50, left associativity) : Z_scope.
Infix "-!" := usub (at level 50, left associativity) : Z_scope.
Infix "*!" := umul (at level 40, left associativity) : Z_scope.

(** [reg_pair_to_64], [high32_from_64] and the cast to [uint32_t] *)
Definition reg_pair_to_64 (hi lo : Z) : Z := Z.lor (Z.shiftl hi 32) lo.
Definition high32_from_64 (v : Z) : Z := Z.shiftr v 32.
Definition low32 (v : Z) : Z := v mod 2 ^ 32.

Definition is_u64 (z : Z) : Prop := 0 <= z < 2 ^ 64.

Lemma lohi_bound (lo hi : Z) : 0 <= lo < 2 ^ 32 -> 0 <= hi < 2 ^ 32 ->
  is_u64 (Z.lor lo (Z.shiftl hi 32)) /\ Z.lor lo (Z.shiftl hi 32) mod 2 ^ 32 = lo /\
  Z.lor lo (Z.shiftl hi 32) / 2 ^ 32 = hi.
Proof.
  intros Hlo Hhi. rewrite Z.shiftl_mul_pow2 by lia. rewrite lor_disjoint_add.
  - split_and!.
    + unfold is_u64. lia.
    + rewrite Z_mod_plus_full. by apply Z.mod_small.
    + rewrite Z.div_add by lia. rewrite Z.div_small; lia.
  - rewrite <- Z.shiftl_mul_pow2 by lia. bitwise. destruct (Z.ltb_spec i 32).
    + rewrite (Z.testbit_neg_r hi) by lia. apply andb_false_r.
    + rewrite (testbit_high 32 lo i) by lia. done.
Qed.

(** * Build configuration

    The Kconfig values the modelled code reads, and what Kconfig and the
    platforms guarantee of them. *)

Class Kconfig := {
  CONFIG_MONITOR_SIZE : Z;
  CONFIG_RISCV_PMP_COUNT : Z;
  CONFIG_PLATFORM_HART_COUNT : Z;
  CONFIG_MPXY_SSE_EVENTS : Z;
  CONFIG_INSECURE_NO_PMP : bool;
}.

Class KconfigOk `{!Kconfig} : Prop := {
  config_monitor_size : 0 < CONFIG_MONITOR_SIZE;
  (* "range 0 16" in arch/riscv/Kconfig *)
  config_pmp_count : 0 <= CONFIG_RISCV_PMP_COUNT <= 16;
  config_hart_count : 0 < CONFIG_PLATFORM_HART_COUNT;
  (* "range 0 64" in services/mpxy/Kconfig *)
  config_mpxy_events : 0 <= CONFIG_MPXY_SSE_EVENTS <= 64;
}.

(** A configuration for the examples: the QEMU virt platform's. *)
Definition qemu_virt : Kconfig := {|
  CONFIG_MONITOR_SIZE := 0x200000;
  CONFIG_RISCV_PMP_COUNT := 16;
  CONFIG_PLATFORM_HART_COUNT := 8;
  CONFIG_MPXY_SSE_EVENTS := 8;
  CONFIG_INSECURE_NO_PMP := false;
|}.

Lemma qemu_virt_ok : @KconfigOk qemu_virt.
Proof. constructor; cbn; lia. Qed.

(** * SBI error codes and HSM states ([include/sbi/sbi.h]) *)

Definition SBI_SUCCESS : Z := 0.
Definition SBI_ERR_FAILED : Z := -1.
Definition SBI_ERR_NOT_SUPPORTED : Z := -2.
Definition SBI_ERR_INVALID_PARAM : Z := -3.
Definition SBI_ERR_DENIED : Z := -4.
Definition SBI_ERR_INVALID_ADDRESS : Z := -5.
Definition SBI_ERR_ALREADY_AVAILABLE : Z := -6.
Definition SBI_ERR_ALREADY_STARTED : Z := -7.
Definition SBI_ERR_ALREADY_STOPPED : Z := -8.
Definition SBI_ERR_NO_SHMEM : Z := -9.
Definition SBI_ERR_INVALID_STATE : Z := -10.
Definition SBI_ERR_BAD_RANGE : Z := -11.
Definition SBI_ERR_TIMEOUT : Z := -12.
Definition SBI_ERR_IO : Z := -13.
Definition SBI_ERR_DENIED_LOCKED : Z := -14.

(** [PRV_U], [PRV_S] ([csr.h]) *)
Definition PRV_U : Z := 0.
Definition PRV_S : Z := 1.

(** * What a hart can do ([enum hart_feature], [<arch/hart.h>])

    Probed on the boot hart and taken for all; [hart_has()] reads the
    table. *)

Inductive hart_feature : Set :=
| HART_FEAT_PMP | HART_FEAT_SMEPMP | HART_FEAT_TIME_CSR | HART_FEAT_MENVCFG
| HART_FEAT_SSTC | HART_FEAT_SSCOFPMF | HART_FEAT_SMSTATEEN | HART_FEAT_SDTRIG
| HART_FEAT_SSDBLTRP | HART_FEAT_H | HART_FEAT_SMCNTRPMF | HART_FEAT_SMCDELEG
| HART_FEAT_ZKR | HART_FEAT_AIA | HART_FEAT_RAS_IRQ.

Class Features := hart_has : hart_feature -> bool.
