(* ===== verification/Builtins.v ===== *)
(** The arithmetic of 64 bits a compiler leaves to a library on RV32:
    [lib/builtins/divdi3.c] (a shift and a subtraction per bit) and
    [lib/builtins/shdi3.c] (shifts on halves of 32 bits).  Signed arithmetic
    wraps around ([-fwrapv] in [mk/flags.mk]). *)

From S2P Require Import Prelude Arch.

#[local] Open Scope Z_scope.

(** * Integers of [n] bits *)

(** The conversion of a value to an unsigned type of [n] bits, and to a
    signed one. *)
Definition uint (n z : Z) : Z := z mod 2 ^ n.
Definition sint (n z : Z) : Z := if uint n z <? 2 ^ (n - 1) then uint n z else uint n z - 2 ^ n.

Definition is_uint (n z : Z) : Prop := 0 <= z < 2 ^ n.
Definition is_sint (n z : Z) : Prop := - 2 ^ (n - 1) <= z < 2 ^ (n - 1).

(** * [lib/builtins/divdi3.c] *)

(** One round of the loop of [__udivmoddi4]: bit [i] of the dividend joins
    the remainder. *)
Definition udivmod_round (n d i : Z) (qr : Z * Z) : Z * Z :=
  let '(q, r) := qr in
  let r := Z.lor (uint 64 (Z.shiftl r 1)) (Z.land (Z.shiftr n i) 1) in
  if d <=? r then (Z.lor q (uint 64 (Z.shiftl 1 i)), uint 64 (r - d)) else (q, r).

(** [for (int i = k - 1; i >= 0; i--)] *)
Fixpoint udivmod_rounds (n d : Z) (k : nat) (qr : Z * Z) : Z * Z :=
  match k with
  | 0%nat => qr
  | S k => udivmod_rounds n d k (udivmod_round n d (Z.of_nat k) qr)
  end.

(** The quotient, and what is stored to [*rem]. *)
Definition __udivmoddi4 (n d : Z) : Z * Z :=
  if d =? 0 then (uint 64 (Z.lnot 0), n) else udivmod_rounds n d 64 (0, 0).

Definition __udivdi3 (n d : Z) : Z := (__udivmoddi4 n d).1.
Definition __umoddi3 (n d : Z) : Z := (__udivmoddi4 n d).2.

(** [n < 0 ? -(uint64_t)n : (uint64_t)n] *)
Definition magnitude64 (n : Z) : Z := if n <? 0 then uint 64 (- uint 64 n) else uint 64 n.

Definition __divdi3 (n d : Z) : Z :=
  let neg := negb (Bool.eqb (n <? 0) (d <? 0)) in
  let q := (__udivmoddi4 (magnitude64 n) (magnitude64 d)).1 in
  if neg then sint 64 (- sint 64 q) else sint 64 q.

Definition __moddi3 (n d : Z) : Z :=
  let r := (__udivmoddi4 (magnitude64 n) (magnitude64 d)).2 in
  if n <? 0 then sint 64 (- sint 64 r) else sint 64 r.

(** * [lib/builtins/shdi3.c] *)

(** [union halves] *)
Record halves := mk_halves { lo : Z; hi : Z }.
Definition halves_of (whole : Z) : halves := mk_halves (uint 32 whole) (uint 32 (Z.shiftr whole 32)).
Definition whole (h : halves) : Z := Z.lor (Z.shiftl (hi h) 32) (lo h).

Definition __ashldi3 (v n : Z) : Z :=
  let inp := halves_of v in
  if n =? 0 then v
  else if 32 <=? n then whole (mk_halves 0 (uint 32 (Z.shiftl (lo inp) (n - 32))))
  else whole (mk_halves (uint 32 (Z.shiftl (lo inp) n))
                (Z.lor (uint 32 (Z.shiftl (hi inp) n)) (Z.shiftr (lo inp) (32 - n)))).

Definition __lshrdi3 (v n : Z) : Z :=
  let inp := halves_of v in
  if n =? 0 then v
  else if 32 <=? n then whole (mk_halves (Z.shiftr (hi inp) (n - 32)) 0)
  else whole (mk_halves (Z.lor (Z.shiftr (lo inp) n) (uint 32 (Z.shiftl (hi inp) (32 - n))))
                (Z.shiftr (hi inp) n)).

(** [>>] of an [int32_t] keeps the sign. *)
Definition __ashrdi3 (v n : Z) : Z :=
  let inp := halves_of (uint 64 v) in
  if n =? 0 then v
  else if 32 <=? n then
    sint 64 (whole (mk_halves (uint 32 (Z.shiftr (sint 32 (hi inp)) (n - 32)))
                      (uint 32 (Z.shiftr (sint 32 (hi inp)) 31))))
  else
    sint 64 (whole (mk_halves (Z.lor (Z.shiftr (lo inp) n) (uint 32 (Z.shiftl (hi inp) (32 - n))))
                      (uint 32 (Z.shiftr (sint 32 (hi inp)) n)))).

(** * Conversions *)

Lemma uint_range (n z : Z) : 0 <= n -> is_uint n (uint n z).
Proof. intros. apply Z.mod_pos_bound, pow2_pos. lia. Qed.

Lemma uint_small (n z : Z) : is_uint n z -> uint n z = z.
Proof. apply Z.mod_small. Qed.

Lemma pow2_half (n : Z) : 1 <= n -> 2 ^ n = 2 * 2 ^ (n - 1).
Proof. intros. rewrite <- Z.pow_succ_r by lia. f_equal. lia. Qed.

Lemma uint_neg (n z : Z) : - 2 ^ n <= z < 0 -> uint n z = z + 2 ^ n.
Proof.
  intros. unfold uint. rewrite <- (Z.mod_small (z + 2 ^ n) (2 ^ n)) by lia.
  rewrite <- (Z_mod_plus_full z 1). f_equal. lia.
Qed.

(** A signed conversion depends on the bits only, and keeps a value that
    fits. *)
Lemma sint_uint (n z : Z) : sint n (uint n z) = sint n z.
Proof. unfold sint, uint. rewrite Zmod_mod. done. Qed.

Lemma uint_sint (n z : Z) : 1 <= n -> uint n (sint n z) = uint n z.
Proof.
  intros Hn. unfold sint. pose proof (uint_range n z ltac:(lia)) as Hu. unfold is_uint in Hu.
  case_cmp; [by apply uint_small|]. rewrite uint_neg by (pose proof (pow2_half n); lia). lia.
Qed.

Lemma sint_small (n z : Z) : 1 <= n -> is_sint n z -> sint n z = z.
Proof.
  intros Hn [Hl Hh]. pose proof (pow2_half n Hn). unfold sint. destruct (Z.lt_ge_cases z 0).
  - rewrite uint_neg by lia. case_cmp; lia.
  - rewrite uint_small by (unfold is_uint; lia). case_cmp; lia.
Qed.

Lemma sint_congr (n a b : Z) : uint n a = uint n b -> sint n a = sint n b.
Proof. unfold sint. by intros ->. Qed.

Lemma uint_opp (n a b : Z) : uint n a = uint n b -> uint n (- a) = uint n (- b).
Proof.
  unfold uint. intros E. rewrite <- (Z.sub_0_l a), <- (Z.sub_0_l b), Zminus_mod, E, <- Zminus_mod. done.
Qed.

Lemma sint_opp_sint (n z : Z) : 1 <= n -> sint n (- sint n z) = sint n (- z).
Proof. intros. apply sint_congr, uint_opp, uint_sint. lia. Qed.

(** * Division *)

(** What the loop keeps once the bits from [k] on are done: quotient and
    remainder of the dividend's upper part.  The remainder is no more than
    that part, so the shift of the next round has room for it. *)
Definition udivmod_inv (n d : Z) (k : nat) (qr : Z * Z) : Prop :=
  let m := Z.shiftr n (Z.of_nat k) in
  qr = (Z.shiftl (m / d) (Z.of_nat k), m mod d).

Lemma shiftr_bit (n k : Z) : 0 <= k -> Z.shiftr n k = 2 * Z.shiftr n (k + 1) + Z.land (Z.shiftr n k) 1.
Proof.
  intros. rewrite (land_low _ 1) by lia. rewrite <- (Z.shiftr_shiftr n k 1), (Z.shiftr_div_pow2 _ 1) by lia.
  change (2 ^ 1) with 2. pose proof (Z.div_mod (Z.shiftr n k) 2). lia.
Qed.

Lemma div_mod_pair (a d q r : Z) : 0 <= r < d -> a = d * q + r -> (a / d, a mod d) = (q, r).
Proof.
  intros Hr Ha. f_equal; symmetry; [by apply (Z.div_unique _ _ _ r); [left|]|].
  by apply (Z.mod_unique _ _ q); [left|].
Qed.

(** Long division, one digit of base two. *)
Lemma div_mod_bit (m b d : Z) :
  0 < d -> 0 <= b < 2 -> 
  ((2 * m + b) / d, (2 * m + b) mod d) =
  if d <=? 2 * (m mod d) + b then (2 * (m / d) + 1, 2 * (m mod d) + b - d) else (2 * (m / d), 2 * (m mod d) + b).
Proof.
  intros Hd Hb. pose proof (Z.div_mod m d). pose proof (Z.mod_pos_bound m d). case_cmp.
  - apply (div_mod_pair _ _ (2 * (m / d) + 1)); lia.
  - apply (div_mod_pair _ _ (2 * (m / d))); lia.
Qed.

Lemma lor_bit0 (a b : Z) : 0 <= b < 2 -> Z.lor (2 * a) b = 2 * a + b.
Proof.
  intros. apply lor_disjoint_add. bitwise.
  destruct (Z.eq_dec i 0) as [->|Hi0]; [by rewrite Z.testbit_even_0|].
  rewrite (testbit_high 1 b i) by lia. apply andb_false_r.
Qed.

(** Setting bit [i] of a multiple of its double. *)
Lemma lor_next_bit (q i : Z) : 0 <= i -> Z.lor (Z.shiftl q (i + 1)) (Z.shiftl 1 i) = Z.shiftl (2 * q + 1) i.
Proof.
  intros. rewrite <- (lor_bit0 q 1) by lia. rewrite Z.shiftl_lor.
  f_equal. replace (2 * q) with (Z.shiftl q 1) by (rewrite Z.shiftl_mul_pow2; lia).
  rewrite Z.shiftl_shiftl by lia. f_equal. lia.
Qed.

Lemma shiftr_bound (n k w : Z) : 0 <= k <= w -> 0 <= n < 2 ^ w -> 0 <= Z.shiftr n k < 2 ^ (w - k).
Proof.
  intros Hk Hn. rewrite Z.shiftr_div_pow2 by lia. pose proof (pow2_pos k). split; [apply Z.div_pos; lia|].
  apply Z.div_lt_upper_bound; [lia|]. rewrite <- Z.pow_add_r by lia. replace (k + (w - k)) with w by lia. lia.
Qed.

Lemma udivmod_round_inv (n d : Z) (k : nat) (qr : Z * Z) :
  is_uint 64 n -> 0 < d < 2 ^ 64 -> (k < 64)%nat ->
  udivmod_inv n d (S k) qr -> udivmod_inv n d k (udivmod_round n d (Z.of_nat k) qr).
Proof.
  unfold udivmod_inv, udivmod_round. intros Hn Hd Hk ->.
  set (i := Z.of_nat k) in *. replace (Z.of_nat (S k)) with (i + 1) by lia.
  set (b := Z.land (Z.shiftr n i) 1). set (m := Z.shiftr n (i + 1)).
  assert (0 <= b < 2) as Hb.
  { unfold b. change 1 with (2 ^ 1 - 1). rewrite land_low by lia. apply Z.mod_pos_bound. lia. }
  assert (0 <= m < 2 ^ 63) as Hm.
  { pose proof (shiftr_bound n (i + 1) 64). pose proof (pow2_le (64 - (i + 1)) 63). unfold is_uint in Hn. lia. }
  assert (m mod d <= m) by (apply Z.mod_le; lia). pose proof (Z.mod_pos_bound m d).
  assert (Z.lor (uint 64 (Z.shiftl (m mod d) 1)) b = 2 * (m mod d) + b) as ->.
  { rewrite Z.shiftl_mul_pow2, Z.mul_comm, uint_small, lor_bit0 by (unfold is_uint; lia). done. }
  rewrite (shiftr_bit n i) by lia. fold m b.
  pose proof (div_mod_bit m b d ltac:(lia) Hb) as E. symmetry in E.
  destruct (d <=? 2 * (m mod d) + b) eqn:Hc; bool_prop; injection E as Eq Er; rewrite <- Eq, <- Er; f_equal.
  - rewrite uint_small, lor_next_bit; [done|lia|].
    rewrite Z.shiftl_1_l. split; [pose proof (pow2_pos i); lia|]. apply Z.pow_lt_mono_r; lia.
  - apply uint_small. unfold is_uint. lia.
  - replace (2 * (m / d)) with (Z.shiftl (m / d) 1) by (rewrite Z.shiftl_mul_pow2; lia).
    rewrite Z.shiftl_shiftl by lia. f_equal. lia.
Qed.

Lemma udivmod_rounds_inv (n d : Z) (k : nat) (qr : Z * Z) :
  is_uint 64 n -> 0 < d < 2 ^ 64 -> (k <= 64)%nat ->
  udivmod_inv n d k qr -> udivmod_rounds n d k qr = (n / d, n mod d).
Proof.
  intros Hn Hd. revert qr. induction k as [|k IH]; intros qr Hk Hinv.
  - cbn. rewrite Hinv. by rewrite Z.shiftr_0_r, Z.shiftl_0_r.
  - cbn. apply IH; [lia|]. apply udivmod_round_inv; [done..|lia|done].
Qed.

Lemma udivmoddi4_eq (n d : Z) :
  is_uint 64 n -> 0 < d < 2 ^ 64 -> __udivmoddi4 n d = (n / d, n mod d).
Proof.
  intros Hn Hd. unfold __udivmoddi4. destruct (Z.eqb_spec d 0); [lia|].
  apply udivmod_rounds_inv; [done..|]. unfold udivmod_inv.
  change (Z.of_nat 64) with 64. rewrite Z.shiftr_div_pow2, (Z.div_small n) by (unfold is_uint in Hn; lia).
  by rewrite Z.div_0_l, Z.mod_0_l by lia.
Qed.

Lemma magnitude64_abs (n : Z) : is_sint 64 n -> magnitude64 n = Z.abs n.
Proof.
  unfold is_sint, magnitude64. intros Hn. case_cmp.
  - rewrite (uint_neg 64 n), uint_neg by lia. lia.
  - rewrite uint_small by (unfold is_uint; lia). lia.
Qed.

Lemma divmod_magnitudes (n d : Z) :
  is_sint 64 n -> is_sint 64 d -> d <> 0 ->
  __udivmoddi4 (magnitude64 n) (magnitude64 d) = (Z.abs n / Z.abs d, Z.abs n mod Z.abs d).
Proof.
  intros Hn Hd Hd0. rewrite !magnitude64_abs by done.
  unfold is_sint in *. apply udivmoddi4_eq; unfold is_uint; lia.
Qed.

(** The library's division is the division: quotients towards zero,
    remainders with the sign of the dividend; the one quotient that does not
    fit wraps, as the instruction does. *)
Theorem division_correct (n d : Z) :
  (is_uint 64 n -> is_uint 64 d -> d <> 0 -> __udivdi3 n d = n / d /\ __umoddi3 n d = n mod d) /\
  (is_sint 64 n -> is_sint 64 d -> d <> 0 ->
   __divdi3 n d = sint 64 (Z.quot n d) /\ __moddi3 n d = Z.rem n d).
Proof.
  split; intros Hn Hd Hd0.
  - unfold __udivdi3, __umoddi3. rewrite udivmoddi4_eq by (unfold is_uint in *; lia). done.
  - unfold __divdi3, __moddi3. rewrite divmod_magnitudes by done. cbn [fst snd].
    unfold is_sint in *. rewrite !sint_opp_sint by lia.
    rewrite Z.quot_div, Z.rem_mod by done. split.
    + assert (n = 0 -> Z.abs n / Z.abs d = 0) by (intros ->; apply Z.div_0_l; lia).
      set (q := Z.abs n / Z.abs d) in *.
      destruct (Z.sgn_spec n) as [[? ->]|[[? ->]|[? ->]]], (Z.sgn_spec d) as [[? ->]|[[? ->]|[? ->]]];
        case_cmp; cbn [Bool.eqb negb]; first [lia|f_equal; lia].
    + assert (0 <= Z.abs n mod Z.abs d < Z.abs d) by (apply Z.mod_pos_bound; lia).
      case_cmp; rewrite sint_small by (unfold is_sint; lia); [lia|].
      assert (n = 0 -> Z.abs n mod Z.abs d = 0) by (intros ->; apply Z.mod_0_l; lia). lia.
Qed.

(** * Shifts *)

(** Bit [i] of the whole is a bit of one of the halves. *)
Lemma whole_spec (h : halves) (i : Z) :
  is_uint 32 (lo h) -> 0 <= i -> Z.testbit (whole h) i = if i <? 32 then Z.testbit (lo h) i else Z.testbit (hi h) (i - 32).
Proof.
  intros Hl Hi. unfold whole. autorewrite with bits. case_cmp.
  - rewrite (Z.testbit_neg_r (hi h)) by lia. done.
  - rewrite (testbit_high 32 (lo h)) by done. apply orb_false_r.
Qed.

Lemma testbit_uint (n z i : Z) : 0 <= n -> Z.testbit (uint n z) i = (i <? n) && Z.testbit z i.
Proof.
  intros Hn. destruct (Z.lt_ge_cases i 0); [|by apply testbit_mod_pow2].
  rewrite !Z.testbit_neg_r by done. symmetry. apply andb_false_r.
Qed.
#[local] Hint Rewrite testbit_uint using lia : bits.

Lemma testbit_top (u n : Z) : 1 <= n -> is_uint n u -> Z.testbit u (n - 1) = (2 ^ (n - 1) <=? u).
Proof.
  unfold is_uint. intros Hn Hu. pose proof (pow2_half n Hn). destruct (Z.leb_spec (2 ^ (n - 1)) u) as [Hle|Hlt].
  - replace u with (2 ^ (n - 1) + (u - 2 ^ (n - 1))) by lia. rewrite <- lor_disjoint_add.
    + rewrite Z.lor_spec, Z.pow2_bits_true by lia. done.
    + bitwise. rewrite Z.pow2_bits_eqb by lia.
      destruct (Z.eqb_spec (n - 1) i) as [<-|]; [apply (testbit_high (n - 1)); lia|done].
  - apply (testbit_high (n - 1)); lia.
Qed.

(** The bits of a signed conversion: those of the value, the top one
    repeated. *)
Lemma testbit_sint (n z i : Z) :
  1 <= n -> 0 <= i -> Z.testbit (sint n z) i = Z.testbit z (Z.min i (n - 1)).
Proof.
  intros Hn Hi. pose proof (uint_range n z ltac:(lia)) as Hu.
  destruct (Z.lt_ge_cases i n) as [Hlt|Hge].
  - rewrite Z.min_l by lia. pose proof (testbit_uint n (sint n z) i ltac:(lia)) as E.
    rewrite uint_sint, testbit_uint in E by lia. rewrite (proj2 (Z.ltb_lt i n)) in E by lia. done.
  - rewrite Z.min_r by lia. pose proof (testbit_top _ _ Hn Hu) as Htop. rewrite testbit_uint in Htop by lia.
    rewrite (proj2 (Z.ltb_lt (n - 1) n)) in Htop by lia. cbn in Htop. rewrite Htop. unfold is_uint in Hu.
    unfold sint. case_cmp; try lia; [apply (testbit_high n); lia|].
    replace (uint n z - 2 ^ n) with (Z.lnot (2 ^ n - 1 - uint n z)) by (unfold Z.lnot; lia).
    rewrite Z.lnot_spec, (testbit_high n) by lia. done.
Qed.
#[local] Hint Rewrite testbit_sint using lia : bits.

Lemma is_uint_shift (v n : Z) : 0 <= n -> is_uint 32 v -> is_uint 32 (Z.shiftr v n).
Proof.
  unfold is_uint. intros Hn Hv. rewrite Z.shiftr_div_pow2 by lia. pose proof (pow2_pos n Hn).
  split; [apply Z.div_pos; lia|]. apply Z.div_lt_upper_bound; [lia|]. nia.
Qed.

Lemma is_uint_lor (a b : Z) : is_uint 32 a -> is_uint 32 b -> is_uint 32 (Z.lor a b).
Proof. apply lor_bound. lia. Qed.

Create HintDb uint.
#[local] Hint Resolve is_uint_shift is_uint_lor : uint.
#[local] Hint Extern 1 (is_uint _ (uint _ _)) => apply uint_range; lia : uint.
#[local] Hint Extern 1 (is_uint _ 0) => unfold is_uint; lia : uint.
#[local] Hint Extern 1 (0 <= _) => lia : uint.

(** Bit by bit: which half a bit is in, and where it came from. *)
Ltac cmp_bits :=
  repeat match goal with
  | |- context [?a <? ?b] => destruct (Z.ltb_spec a b); try lia
  | |- _ => progress autorewrite with bits
  | |- context [Z.testbit (Z.shiftr _ _) ?j] => destruct (Z.lt_ge_cases j 0); [rewrite (Z.testbit_neg_r _ j) by lia|]
  end.
Ltac same_bit :=
  first [ done | lia | f_equal; lia | rewrite Z.testbit_neg_r by lia; done
        | symmetry; apply (testbit_high 64); lia ].
Ltac halves_bits :=
  rewrite whole_spec by (cbn [lo hi halves_of]; auto 6 with uint; lia);
  cbn [lo hi halves_of].

(** The three ways of a shift: none, by a half or more, by less. *)
Ltac by_amount n :=
  destruct (Z.eqb_spec n 0) as [->|]; [|destruct (Z.leb_spec 32 n); apply Z.bits_inj'; intros i Hi].

Lemma ashldi3_eq (v n : Z) : is_uint 64 v -> 0 <= n < 64 -> __ashldi3 v n = uint 64 (Z.shiftl v n).
Proof.
  intros Hv Hn. unfold __ashldi3. by_amount n; [by rewrite Z.shiftl_0_r, uint_small|..];
    (halves_bits; cmp_bits; try same_bit).
Qed.

Lemma lshrdi3_eq (v n : Z) : is_uint 64 v -> 0 <= n < 64 -> __lshrdi3 v n = Z.shiftr v n.
Proof.
  unfold is_uint. intros Hv Hn. unfold __lshrdi3. by_amount n; [by rewrite Z.shiftr_0_r|..];
    (halves_bits; cmp_bits; try same_bit).
Qed.

Lemma ashrdi3_eq (v n : Z) : is_sint 64 v -> 0 <= n < 64 -> __ashrdi3 v n = Z.shiftr v n.
Proof.
  intros Hv Hn. unfold __ashrdi3. by_amount n; [by rewrite Z.shiftr_0_r|..];
    (transitivity (Z.testbit (Z.shiftr (sint 64 v) n) i); [|by rewrite sint_small];
     autorewrite with bits; halves_bits; cmp_bits; try same_bit).
Qed.

(** The library's shifts are the shifts, for every amount below the width:
    no bit of a half is lost on its way to the other one. *)
Theorem shifts_correct (v n : Z) :
  0 <= n < 64 ->
  (is_uint 64 v -> __ashldi3 v n = uint 64 (v * 2 ^ n) /\ __lshrdi3 v n = v / 2 ^ n) /\
  (is_sint 64 v -> __ashrdi3 v n = v / 2 ^ n).
Proof.
  intros Hn. rewrite <- Z.shiftl_mul_pow2, <- Z.shiftr_div_pow2 by lia.
  auto using ashldi3_eq, lshrdi3_eq, ashrdi3_eq.
Qed.

(** The two at the edges: the smallest dividend by -1, and a shift over the
    border of the halves. *)
Lemma division_correct_witness :
  __divdi3 (- 2 ^ 63) (-1) = - 2 ^ 63 /\ __moddi3 (- 7) 2 = -1 /\ __udivdi3 (2 ^ 64 - 1) (2 ^ 63 + 1) = 1.
Proof.
  destruct (division_correct (- 2 ^ 63) (-1)) as [_ H1]. destruct (division_correct (- 7) 2) as [_ H2].
  destruct (division_correct (2 ^ 64 - 1) (2 ^ 63 + 1)) as [H3 _].
  unfold is_uint, is_sint in *.
  destruct H1 as [-> _]; [lia..|]. destruct H2 as [_ ->]; [lia..|]. destruct H3 as [-> _]; [lia..|]. done.
Defined.

Lemma shifts_correct_witness : __ashrdi3 (- 2 ^ 40 - 1) 33 = -129 /\ __ashldi3 (2 ^ 31 + 1) 31 = 2 ^ 62 + 2 ^ 31.
Proof.
  destruct (shifts_correct (- 2 ^ 40 - 1) 33 ltac:(lia)) as [_ H1].
  destruct (shifts_correct (2 ^ 31 + 1) 31 ltac:(lia)) as [H2 _].
  rewrite H1 by (unfold is_sint; lia). destruct H2 as [-> _]; [unfold is_uint; lia|]. done.
Defined.
