(* ===== verification/CString.v ===== *)
(** [lib/libc/string.c].  Memory is a function from addresses to bytes; a
    pointer is an address.  The loops that end at a NUL take a number of
    rounds; one more than the length of the string is enough. *)

From S2P Require Import Prelude Arch Builtins.

#[local] Open Scope Z_scope.

(** A byte is stored. *)
Definition store (m : Z -> Z) (a v : Z) : Z -> Z := fun x => if x =? a then v else m x.

(** * Blocks of memory *)

(** [while (n--) *d++ = *s++;] *)
Fixpoint copy_up (m : Z -> Z) (d s : Z) (n : nat) : Z -> Z :=
  match n with
  | 0%nat => m
  | S n => copy_up (store m d (m s)) (d + 1) (s + 1) n
  end.

(** [while (n--) *--d = *--s;] *)
Fixpoint copy_down (m : Z -> Z) (d s : Z) (n : nat) : Z -> Z :=
  match n with
  | 0%nat => m
  | S n => copy_down (store m (d - 1) (m (s - 1))) (d - 1) (s - 1) n
  end.

Definition memcpy (m : Z -> Z) (dst src n : Z) : Z -> Z := copy_up m dst src (Z.to_nat n).

Definition memmove (m : Z -> Z) (dst src n : Z) : Z -> Z :=
  if (dst <? src) || (src + n <=? dst) then memcpy m dst src n
  else copy_down m (dst + n) (src + n) (Z.to_nat n).

Fixpoint memset_loop (m : Z -> Z) (p c : Z) (n : nat) : Z -> Z :=
  match n with
  | 0%nat => m
  | S n => memset_loop (store m p (uint 8 c)) (p + 1) c n
  end.
Definition memset (m : Z -> Z) (s c n : Z) : Z -> Z := memset_loop m s c (Z.to_nat n).

Fixpoint memcmp_loop (m : Z -> Z) (pa pb : Z) (n : nat) : Z :=
  match n with
  | 0%nat => 0
  | S n => if m pa =? m pb then memcmp_loop m (pa + 1) (pb + 1) n else m pa - m pb
  end.
Definition memcmp (m : Z -> Z) (a b n : Z) : Z := memcmp_loop m a b (Z.to_nat n).

Fixpoint memchr_loop (m : Z -> Z) (p c : Z) (n : nat) : option Z :=
  match n with
  | 0%nat => None
  | S n => if m p =? uint 8 c then Some p else memchr_loop m (p + 1) c n
  end.
Definition memchr (m : Z -> Z) (s c n : Z) : option Z := memchr_loop m s c (Z.to_nat n).

(** * Strings *)

(** [while ( *p) p++;] *)
Fixpoint strlen_loop (fuel : nat) (m : Z -> Z) (p : Z) : option Z :=
  match fuel with
  | 0%nat => None
  | S fuel => if m p =? 0 then Some p else strlen_loop fuel m (p + 1)
  end.
Definition strlen (fuel : nat) (m : Z -> Z) (s : Z) : option Z :=
  p ← strlen_loop fuel m s; Some (p - s).

Fixpoint strnlen_loop (m : Z -> Z) (s n : Z) (rounds : nat) : Z :=
  match rounds with
  | 0%nat => n
  | S rounds => if m (s + n) =? 0 then n else strnlen_loop m s (n + 1) rounds
  end.
Definition strnlen (m : Z -> Z) (s max : Z) : Z := strnlen_loop m s 0 (Z.to_nat max).

Fixpoint strcmp (fuel : nat) (m : Z -> Z) (a b : Z) : option Z :=
  match fuel with
  | 0%nat => None
  | S fuel =>
      if negb (m a =? 0) && (m a =? m b) then strcmp fuel m (a + 1) (b + 1)
      else Some (m a - m b)
  end.

Fixpoint strncmp_loop (m : Z -> Z) (a b : Z) (n : nat) : Z :=
  match n with
  | 0%nat => 0
  | S n =>
      if negb (m a =? m b) then m a - m b
      else if m a =? 0 then 0
      else strncmp_loop m (a + 1) (b + 1) n
  end.
Definition strncmp (m : Z -> Z) (a b n : Z) : Z := strncmp_loop m a b (Z.to_nat n).

(** A pointer that is returned is an [option]: NULL is [None]. *)
Fixpoint strchr (fuel : nat) (m : Z -> Z) (s c : Z) : option (option Z) :=
  match fuel with
  | 0%nat => None
  | S fuel =>
      if m s =? uint 8 c then Some (Some s)
      else if m s =? 0 then Some None
      else strchr fuel m (s + 1) c
  end.

Fixpoint strrchr_loop (fuel : nat) (m : Z -> Z) (last : option Z) (s c : Z) : option (option Z) :=
  match fuel with
  | 0%nat => None
  | S fuel =>
      let last := if m s =? uint 8 c then Some s else last in
      if m s =? 0 then Some last
      else strrchr_loop fuel m last (s + 1) c
  end.
Definition strrchr (fuel : nat) (m : Z -> Z) (s c : Z) : option (option Z) := strrchr_loop fuel m None s c.

Fixpoint strstr_loop (fuel : nat) (m : Z -> Z) (haystack needle n : Z) : option (option Z) :=
  match fuel with
  | 0%nat => None
  | S fuel =>
      if m haystack =? 0 then Some (if truth n then None else Some haystack)
      else if strncmp m haystack needle n =? 0 then Some (Some haystack)
      else strstr_loop fuel m (haystack + 1) needle n
  end.
Definition strstr (fuel : nat) (m : Z -> Z) (haystack needle : Z) : option (option Z) :=
  n ← strlen fuel m needle; strstr_loop fuel m haystack needle n.

(** * What they mean *)

Lemma store_eq (m : Z -> Z) (a v : Z) : store m a v a = v.
Proof. unfold store. by rewrite Z.eqb_refl. Qed.
Lemma store_ne (m : Z -> Z) (a v x : Z) : x <> a -> store m a v x = m x.
Proof. intros. unfold store. by destruct (Z.eqb_spec x a). Qed.

(** Where a byte is, among ranges that are told apart by comparisons. *)
Ltac which_byte := case_cmp; subst; cbn; first [lia|done|f_equal; lia].

Lemma copy_up_spec (n : nat) (m : Z -> Z) (d s a : Z) :
  d <= s \/ s + Z.of_nat n <= d ->
  copy_up m d s n a = if (d <=? a) && (a <? d + Z.of_nat n) then m (s + (a - d)) else m a.
Proof.
  revert m d s. induction n as [|n IH]; intros m d s Hd; cbn [copy_up].
  - which_byte.
  - rewrite IH by lia. unfold store. which_byte.
Qed.

Lemma copy_down_spec (n : nat) (m : Z -> Z) (d s a : Z) :
  s <= d ->
  copy_down m d s n a = if (d - Z.of_nat n <=? a) && (a <? d) then m (s + (a - d)) else m a.
Proof.
  revert m d s. induction n as [|n IH]; intros m d s Hd; cbn [copy_down].
  - which_byte.
  - rewrite IH by lia. unfold store. which_byte.
Qed.

(** [memmove] leaves at the destination what was at the source before,
    however the two overlap, and nothing else changes; [memcpy] does where
    the destination does not begin inside the source. *)
Theorem memmove_exact (m : Z -> Z) (dst src n a : Z) :
  0 <= n ->
  let moved := if (dst <=? a) && (a <? dst + n) then m (src + (a - dst)) else m a in
  memmove m dst src n a = moved /\ (dst <= src \/ src + n <= dst -> memcpy m dst src n a = moved).
Proof.
  intros Hn moved. assert (dst <= src \/ src + n <= dst -> memcpy m dst src n a = moved) as Hcpy.
  { intros. unfold memcpy. rewrite copy_up_spec, Z2Nat.id by lia. done. }
  split; [|done]. unfold memmove. destruct ((dst <? src) || (src + n <=? dst)) eqn:E.
  - apply Hcpy. apply orb_true_iff in E. rewrite Z.ltb_lt, Z.leb_le in E. lia.
  - bool_prop. rewrite copy_down_spec, Z2Nat.id by lia. unfold moved.
    replace (dst + n - n) with dst by lia. destruct (_ && _); [|done]. f_equal. lia.
Qed.

Lemma memset_spec (n : nat) (m : Z -> Z) (p c a : Z) :
  memset_loop m p c n a = if (p <=? a) && (a <? p + Z.of_nat n) then uint 8 c else m a.
Proof.
  revert m p. induction n as [|n IH]; intros m p; cbn [memset_loop].
  - which_byte.
  - rewrite IH. unfold store. which_byte.
Qed.

(** ** Strings

    The bytes of a string and its NUL, at an address. *)
Fixpoint cstring (m : Z -> Z) (p : Z) (s : list Z) : Prop :=
  match s with
  | [] => m p = 0
  | c :: s => m p = c /\ 0 < c < 256 /\ cstring m (p + 1) s
  end.

Lemma cstring_tail (m : Z -> Z) (p : Z) (s : list Z) (i : nat) :
  (i <= length s)%nat -> cstring m p s -> cstring m (p + Z.of_nat i) (drop i s).
Proof.
  revert p s. induction i as [|i IH]; intros p s Hi Hs; [by rewrite Z.add_0_r|].
  destruct s as [|c s]; [cbn in Hi; lia|]. destruct Hs as (_ & _ & Hs). cbn in Hi.
  replace (p + Z.of_nat (S i)) with (p + 1 + Z.of_nat i) by lia. apply IH; [lia|done].
Qed.

Lemma strlen_loop_spec (fuel : nat) (m : Z -> Z) (p : Z) (s : list Z) :
  cstring m p s -> (length s < fuel)%nat -> strlen_loop fuel m p = Some (p + Z.of_nat (length s)).
Proof.
  revert p s. induction fuel as [|fuel IH]; intros p s Hs Hf; [lia|]. cbn [strlen_loop].
  destruct s as [|c s]; cbn in Hs, Hf.
  - rewrite Hs. cbn. f_equal. lia.
  - destruct Hs as (-> & Hc & Hs). destruct (Z.eqb_spec c 0); [lia|].
    rewrite (IH _ _ Hs) by lia. f_equal. cbn [length]. lia.
Qed.

Lemma strlen_spec (fuel : nat) (m : Z -> Z) (p : Z) (s : list Z) :
  cstring m p s -> (length s < fuel)%nat -> strlen fuel m p = Some (Z.of_nat (length s)).
Proof. intros Hs Hf. unfold strlen. rewrite (strlen_loop_spec _ _ _ _ Hs Hf). cbn. f_equal. lia. Qed.

(** The order of strings. *)
Fixpoint lex (s t : list Z) : comparison :=
  match s, t with
  | [], [] => Eq
  | [], _ :: _ => Lt
  | _ :: _, [] => Gt
  | c :: s, d :: t => match c ?= d with Eq => lex s t | r => r end
  end.

Lemma lex_eq (s t : list Z) : lex s t = Eq <-> s = t.
Proof.
  revert t. induction s as [|c s IH]; intros [|d t]; cbn; try done.
  destruct (Z.compare_spec c d) as [->| |]; [rewrite IH; split; congruence|..]; (split; [done|intros [= ->]; lia]).
Qed.

Lemma compare_sub_0 (a b : Z) : (a - b ?= 0) = (a ?= b).
Proof. symmetry. apply Z.compare_sub. Qed.

Lemma strcmp_spec (fuel : nat) (m : Z -> Z) (a b : Z) (s t : list Z) :
  cstring m a s -> cstring m b t -> (length s < fuel)%nat ->
  exists r, strcmp fuel m a b = Some r /\ (r ?= 0) = lex s t.
Proof.
  revert a b s t. induction fuel as [|fuel IH]; intros a b s t Hs Ht Hf; [lia|]. cbn [strcmp].
  destruct s as [|c s], t as [|d t]; cbn in Hs, Ht, Hf |- *; try destruct Hs as (-> & Hc & Hs);
    try destruct Ht as (-> & Hd & Ht); rewrite ?Hs, ?Ht; cbn.
  - eauto.
  - eexists; split; [done|]. apply Z.compare_lt_iff. lia.
  - destruct (Z.eqb_spec c 0); [lia|]. cbn. eexists; split; [done|]. apply Z.compare_gt_iff. lia.
  - destruct (Z.eqb_spec c 0); [lia|]. destruct (Z.eqb_spec c d) as [->|Hne]; cbn.
    + rewrite Z.compare_refl. apply IH; [done..|lia].
    + eexists; split; [done|]. rewrite compare_sub_0. destruct (Z.compare_spec c d); [lia|done..].
Qed.

Lemma strncmp_spec (n : nat) (m : Z -> Z) (a b : Z) (s t : list Z) :
  cstring m a s -> cstring m b t -> (strncmp m a b (Z.of_nat n) ?= 0) = lex (take n s) (take n t).
Proof.
  unfold strncmp. rewrite Nat2Z.id. revert a b s t. induction n as [|n IH]; intros a b s t Hs Ht; [done|].
  cbn [strncmp_loop].
  destruct s as [|c s], t as [|d t]; cbn in Hs, Ht |- *; try destruct Hs as (-> & Hc & Hs);
    try destruct Ht as (-> & Hd & Ht); rewrite ?Hs, ?Ht; cbn.
  - done.
  - destruct d; cbn; done || lia.
  - destruct (Z.eqb_spec c 0); [lia|]. cbn. apply Z.compare_gt_iff. lia.
  - destruct (Z.eqb_spec c d) as [->|Hne]; cbn.
    + destruct (Z.eqb_spec d 0); [lia|]. rewrite Z.compare_refl. by apply IH.
    + rewrite compare_sub_0. destruct (Z.compare_spec c d); [lia|done..].
Qed.

(** The needle, of which all is compared, is at the head of the string. *)
Lemma strncmp_prefix (m : Z -> Z) (a b : Z) (s t : list Z) :
  cstring m a s -> cstring m b t ->
  (strncmp m a b (Z.of_nat (length t)) =? 0) = true <-> take (length t) s = t.
Proof.
  intros Hs Ht. pose proof (strncmp_spec (length t) _ _ _ _ _ Hs Ht) as E.
  rewrite (take_ge t) in E by lia. rewrite Z.eqb_eq, <- Z.compare_eq_iff, E. apply lex_eq.
Qed.

Definition occurs (t s : list Z) (i : nat) : Prop := (i <= length s)%nat /\ take (length t) (drop i s) = t.

(** The first place where the needle is, if there is one. *)
Definition first_occurrence (t s : list Z) (p : Z) (r : option Z) : Prop :=
  match r with
  | Some q => exists i, q = p + Z.of_nat i /\ occurs t s i /\ forall j, (j < i)%nat -> ~ occurs t s j
  | None => forall i, ~ occurs t s i
  end.

Lemma first_occurrence_cons (t : list Z) (c : Z) (s : list Z) (p : Z) (r : option Z) :
  take (length t) (c :: s) <> t -> first_occurrence t s (p + 1) r -> first_occurrence t (c :: s) p r.
Proof.
  intros Hne. assert (~ occurs t (c :: s) 0) as H0 by (intros [_ H]; done).
  assert (forall i, occurs t (c :: s) (S i) <-> occurs t s i) as HS.
  { intros i. unfold occurs. cbn. split; intros [? ?]; (split; [lia|done]). }
  destruct r as [q|]; cbn.
  - intros (i & -> & Hi & Hmin). exists (S i). split_and!; [lia|by apply HS|].
    intros [|j] Hj; [done|]. rewrite HS. apply Hmin. lia.
  - intros Hno [|i]; [done|]. rewrite HS. apply Hno.
Qed.

Lemma strstr_loop_spec (fuel : nat) (m : Z -> Z) (h n : Z) (s t : list Z) :
  cstring m h s -> cstring m n t -> (length s < fuel)%nat ->
  exists r, strstr_loop fuel m h n (Z.of_nat (length t)) = Some r /\ first_occurrence t s h r.
Proof.
  revert h s. induction fuel as [|fuel IH]; intros h s Hs Ht Hf; [lia|]. cbn [strstr_loop].
  pose proof (strncmp_prefix _ _ _ _ _ Hs Ht) as Hp. destruct s as [|c s].
  - cbn in Hs. rewrite Hs. cbn. eexists; split; [done|]. destruct t as [|d t]; cbn.
    + exists 0%nat. split_and!; [lia|done|lia].
    + intros i [_ Hi]. by rewrite drop_nil in Hi.
  - cbn in Hf. pose proof Hs as (Hc & Hr & Hs'). destruct (Z.eqb_spec (m h) 0); [lia|].
    destruct (strncmp m h n (Z.of_nat (length t)) =? 0).
    + eexists; split; [done|]. exists 0%nat. split_and!; [lia| |lia]. split; [cbn; lia|]. by apply Hp.
    + destruct (IH _ _ Hs' Ht ltac:(lia)) as (r & -> & Hfirst). eexists; split; [done|].
      apply first_occurrence_cons; [|done]. intros E. by apply Hp in E.
Qed.

(** [strstr] returns, and what it returns is the first place of the needle. *)
Lemma strstr_spec (fuel : nat) (m : Z -> Z) (h n : Z) (s t : list Z) :
  cstring m h s -> cstring m n t -> (length s < fuel)%nat -> (length t < fuel)%nat ->
  exists r, strstr fuel m h n = Some r /\ first_occurrence t s h r.
Proof.
  intros Hs Ht Hf Hf'. unfold strstr. rewrite (strlen_spec _ _ _ _ Ht Hf'). cbn. by apply strstr_loop_spec.
Qed.

(** ** A byte in a string *)

Lemma strchr_spec (fuel : nat) (m : Z -> Z) (p c : Z) (s : list Z) :
  cstring m p s -> (length s < fuel)%nat ->
  strchr fuel m p c = Some ((fun '(i, _) => p + Z.of_nat i) <$> list_find (fun b => b = uint 8 c) (s ++ [0])).
Proof.
  revert p s. induction fuel as [|fuel IH]; intros p s Hs Hf; [lia|]. cbn [strchr].
  destruct s as [|d s]; cbn in Hs, Hf |- *.
  - rewrite Hs. case_decide as Hd; [rewrite <- Hd; cbn; by rewrite Z.add_0_r|].
    destruct (Z.eqb_spec 0 (uint 8 c)); [done|]. done.
  - destruct Hs as (-> & Hd & Hs). destruct (Z.eqb_spec d (uint 8 c)) as [E|E].
    + rewrite decide_True by done. cbn. by rewrite Z.add_0_r.
    + rewrite decide_False by done. destruct (Z.eqb_spec d 0); [lia|]. rewrite (IH _ _ Hs) by lia.
      destruct (list_find _ (s ++ [0])) as [[i b]|]; cbn; [|done]. do 2 f_equal. lia.
Qed.

(** The last place of a byte, the NUL among them. *)
Lemma strrchr_loop_spec (fuel : nat) (m : Z -> Z) (last : option Z) (p c : Z) (s : list Z) :
  cstring m p s -> (length s < fuel)%nat ->
  exists r, strrchr_loop fuel m last p c = Some r /\
    match r with
    | Some q => (exists i, q = p + Z.of_nat i /\ (s ++ [0]) !! i = Some (uint 8 c) /\
                   forall j, (i < j)%nat -> (s ++ [0]) !! j <> Some (uint 8 c)) \/
                (last = Some q /\ uint 8 c ∉ s ++ [0])
    | None => last = None /\ uint 8 c ∉ s ++ [0]
    end.
Proof.
  revert last p s. induction fuel as [|fuel IH]; intros last p s Hs Hf; [lia|]. cbn [strrchr_loop].
  destruct s as [|d s]; cbn in Hs, Hf |- *.
  - rewrite Hs. change (0 =? 0) with true. cbv beta iota zeta. eexists; split; [done|].
    destruct (Z.eqb_spec 0 (uint 8 c)) as [E|E].
    + left. exists 0%nat. split_and!; [lia|by rewrite <- E|]. intros [|[|j]] Hj; [lia|done..].
    + assert (uint 8 c ∉ [0]) by (rewrite list_elem_of_singleton; congruence). destruct last; naive_solver.
  - destruct Hs as (-> & Hd & Hs). destruct (Z.eqb_spec d 0); [lia|].
    destruct (IH (if d =? uint 8 c then Some p else last) _ _ Hs ltac:(lia)) as (r & -> & Hr).
    eexists; split; [done|]. destruct r as [q|]; [destruct Hr as [(i & -> & Hi & Hl)|[Hq Hno]]|destruct Hr as [Hq Hno]].
    + left. exists (S i). split_and!; [lia|done|]. intros [|j] Hj; [lia|]. apply Hl. lia.
    + destruct (Z.eqb_spec d (uint 8 c)) as [E|E].
      * left. injection Hq as <-. exists 0%nat. split_and!; [lia|by rewrite E|].
        intros [|j] Hj; [lia|]. cbn. intros Hj'. apply Hno. by eapply list_elem_of_lookup_2.
      * right. split; [done|]. rewrite not_elem_of_cons. split; congruence.
    + destruct (Z.eqb_spec d (uint 8 c)) as [E|E]; [done|]. split; [done|].
      rewrite not_elem_of_cons. split; congruence.
Qed.

(** What is at the two addresses, byte for byte. *)
Definition bytes_at (m : Z -> Z) (a : Z) (n : nat) : list Z := (fun i => m (a + Z.of_nat i)) <$> seq 0 n.

Lemma bytes_at_S (m : Z -> Z) (a : Z) (n : nat) : bytes_at m a (S n) = m a :: bytes_at m (a + 1) n.
Proof.
  unfold bytes_at. rewrite <- cons_seq, fmap_cons, <- fmap_S_seq, <- list_fmap_compose.
  f_equal; [f_equal; lia|].
  apply list_fmap_ext. intros i x _. cbn. f_equal. lia.
Qed.

Lemma memcmp_spec (n : nat) (m : Z -> Z) (a b : Z) :
  (memcmp m a b (Z.of_nat n) ?= 0) = lex (bytes_at m a n) (bytes_at m b n).
Proof.
  unfold memcmp. rewrite Nat2Z.id. revert a b. induction n as [|n IH]; intros a b; [done|].
  rewrite !bytes_at_S. cbn. destruct (Z.eqb_spec (m a) (m b)) as [->|Hne].
  - rewrite Z.compare_refl. apply IH.
  - rewrite compare_sub_0. destruct (Z.compare_spec (m a) (m b)); [lia|done..].
Qed.

Lemma strnlen_loop_spec (rounds : nat) (m : Z -> Z) (p : Z) (s : list Z) (n : nat) :
  cstring m p s -> (n <= length s)%nat ->
  strnlen_loop m p (Z.of_nat n) rounds = Z.of_nat (Nat.min (n + rounds) (length s)).
Proof.
  intros Hs. revert n. induction rounds as [|rounds IH]; intros n Hn; cbn [strnlen_loop]; [lia|].
  pose proof (cstring_tail _ _ _ _ Hn Hs) as Ht. destruct (drop n s) as [|c t] eqn:E; cbn in Ht.
  - rewrite Ht. cbn. apply (f_equal length) in E. rewrite length_drop in E. cbn in E. lia.
  - destruct Ht as (-> & Hc & _). destruct (Z.eqb_spec c 0); [lia|].
    apply (f_equal length) in E. rewrite length_drop in E. cbn in E.
    replace (Z.of_nat n + 1) with (Z.of_nat (S n)) by lia. rewrite IH by lia. lia.
Qed.

Lemma strnlen_spec (m : Z -> Z) (p max : Z) (s : list Z) :
  0 <= max -> cstring m p s -> strnlen m p max = Z.min max (Z.of_nat (length s)).
Proof. intros Hm Hs. unfold strnlen. rewrite (strnlen_loop_spec _ _ _ s 0) by (done || lia). lia. Qed.

Lemma memchr_spec (n : nat) (m : Z -> Z) (p c : Z) :
  memchr m p c (Z.of_nat n) = (fun '(i, _) => p + Z.of_nat i) <$> list_find (fun b => b = uint 8 c) (bytes_at m p n).
Proof.
  unfold memchr. rewrite Nat2Z.id. revert p. induction n as [|n IH]; intros p; [done|].
  rewrite bytes_at_S. cbn. destruct (Z.eqb_spec (m p) (uint 8 c)) as [E|E].
  - rewrite decide_True by done. cbn. by rewrite Z.add_0_r.
  - rewrite decide_False, IH by done. destruct (list_find _ _) as [[i b]|]; cbn; [|done]. f_equal. lia.
Qed.

(** A region moved onto its own tail. *)
Lemma memmove_exact_witness : bytes_at (memmove (fun a => a) 12 10 4) 10 6 = [10; 11; 10; 11; 12; 13].
Proof.
  unfold bytes_at. cbn [seq fmap list_fmap].
  do 6 (rewrite (proj1 (memmove_exact (fun a => a) 12 10 4 _ ltac:(lia)))). reflexivity.
Defined.
