(* ===== verification/Printf.v ===== *)
(** [lib/libc/printf.c].  The format is the list of its characters; what is
    passed for it is a list of typed arguments, and a [va_arg] of another
    width than the argument's is undefined ([None]), as is a store past the
    end of [tmp].  The buffer is in memory ([CString]). *)

From S2P Require Import Prelude Arch Builtins CString.

#[local] Open Scope Z_scope.

Section Printf.
Context {AR : Arch}.

(** * Output *)

(** [struct out], with the memory the buffer is in. *)
Record out := Out { o_mem : Z -> Z; o_buf : Z; o_size : Z; o_pos : Z }.

Definition out_char (o : out) (c : Z) : out :=
  Out (if uadd (o_pos o) 1 <? o_size o then store (o_mem o) (o_buf o + o_pos o) c else o_mem o)
    (o_buf o) (o_size o) (uadd (o_pos o) 1).

(** [while (n-- > 0) out_char(o, pad);] *)
Definition out_pad (o : out) (n pad : Z) : out := Nat.iter (Z.to_nat n) (fun o => out_char o pad) o.

(** [s] has [len] characters, and [len] is its length. *)
Definition out_str (o : out) (s : list Z) (width : Z) (ljust : bool) : out :=
  let pad := sint 32 (width - sint 32 (Z.of_nat (length s))) in
  let o := if ljust then o else out_pad o pad 32 in
  let o := foldl out_char o s in
  if ljust then out_pad o pad 32 else o.

(** "0123456789ABCDEF" and "0123456789abcdef" *)
Definition digits (upper : bool) : list Z :=
  [48; 49; 50; 51; 52; 53; 54; 55; 56; 57] ++ if upper then [65; 66; 67; 68; 69; 70] else [97; 98; 99; 100; 101; 102].

(** [do { tmp[n++] = digits[v % base]; v /= base; } while (v);], with [room]
    bytes left in [tmp]. *)
Fixpoint digits_loop (room : nat) (table : list Z) (v base : Z) : option (list Z) :=
  match room with
  | 0%nat => None
  | S room =>
      d ← table !! Z.to_nat (v mod base);
      if truth (v / base) then tmp ← digits_loop room table (v / base) base; Some (d :: tmp)
      else Some [d]
  end.

Definition TMP : nat := 24.

(** [tmp] when it is complete. *)
Definition num_tmp (v base : Z) (neg upper : bool) : option (list Z) :=
  tmp ← digits_loop TMP (digits upper) v base;
  if neg then (if (length tmp <? TMP)%nat then Some (tmp ++ [45]) else None) else Some tmp.

Definition out_num (o : out) (v base : Z) (neg upper : bool) (width : Z) (ljust zero : bool) : option out :=
  tmp ← num_tmp v base neg upper;
  let pad := sint 32 (width - Z.of_nat (length tmp)) in
  let o := if ljust then o else out_pad o pad (if zero then 48 else 32) in
  let o := foldl out_char o (rev tmp) in
  Some (if ljust then out_pad o pad 32 else o).

(** * The format *)

(** One turn of the loop: a character, a conversion, or a '%' the format ends
    with. *)
Inductive directive :=
| Lit (c : Z)
| Conv (ljust zero : bool) (width lmod conv : Z)
| Stop.

Fixpoint parse_flags (ljust zero : bool) (fmt : list Z) : bool * bool * list Z :=
  match fmt with
  | c :: rest =>
      if c =? 45 then parse_flags true zero rest
      else if c =? 48 then parse_flags ljust true rest
      else (ljust, zero, fmt)
  | [] => (ljust, zero, [])
  end.

Fixpoint parse_width (width : Z) (fmt : list Z) : Z * list Z :=
  match fmt with
  | c :: rest =>
      if (48 <=? c) && (c <=? 57) then parse_width (sint 32 (width * 10 + (c - 48))) rest
      else (width, fmt)
  | [] => (width, [])
  end.

Fixpoint parse_lmod (lmod : Z) (fmt : list Z) : Z * list Z :=
  match fmt with
  | c :: rest =>
      if (c =? 108) || (c =? 122) then parse_lmod (sint 32 (lmod + if c =? 122 then 2 else 1)) rest
      else (lmod, fmt)
  | [] => (lmod, [])
  end.

Definition parse_directive (c : Z) (fmt : list Z) : directive * list Z :=
  if negb (c =? 37) then (Lit c, fmt)
  else
    let '(ljust, zero, fmt) := parse_flags false false fmt in
    let '(width, fmt) := parse_width 0 fmt in
    let '(lmod, fmt) := parse_lmod 0 fmt in
    match fmt with
    | [] => (Stop, [])
    | conv :: rest => (Conv ljust zero width lmod conv, rest)
    end.

(** * Arguments *)

(** An integer of a width, a string or NULL, a pointer. *)
Inductive arg :=
| Num (bits v : Z)
| Str (s : option (list Z))
| Ptr (v : Z).

Definition va_num (bits : Z) (args : list arg) : option (Z * list arg) :=
  match args with
  | Num b v :: args => if b =? bits then Some (v, args) else None
  | _ => None
  end.
Definition va_str (args : list arg) : option (option (list Z) * list arg) :=
  match args with Str s :: args => Some (s, args) | _ => None end.
Definition va_ptr (args : list arg) : option (Z * list arg) :=
  match args with Ptr v :: args => Some (v, args) | _ => None end.

(** The width a length modifier stands for. *)
Definition lmod_bits (lmod : Z) : Z := if 2 <=? lmod then 64 else if lmod =? 1 then XLEN else 32.

(** "(null)" *)
Definition null_text : list Z := [40; 110; 117; 108; 108; 41].

(** The [switch], and what is before it for a plain character. *)
Definition out_directive (o : out) (d : directive) (args : list arg) : option (out * list arg) :=
  match d with
  | Lit c => Some (out_char o c, args)
  | Stop => Some (o, args)
  | Conv ljust zero width lmod conv =>
      if conv =? 99 then
        '(c, args) ← va_num 32 args; Some (out_str o [uint 8 c] width ljust, args)
      else if conv =? 115 then
        '(s, args) ← va_str args; Some (out_str o (default null_text s) width ljust, args)
      else if (conv =? 100) || (conv =? 105) then
        '(v, args) ← va_num (lmod_bits lmod) args;
        let v := sint (lmod_bits lmod) v in
        let neg := v <? 0 in
        o ← out_num o (if neg then uint 64 (- uint 64 v) else uint 64 v) 10 neg false width ljust zero;
        Some (o, args)
      else if (conv =? 117) || (conv =? 120) || (conv =? 88) then
        '(v, args) ← va_num (lmod_bits lmod) args;
        o ← out_num o (uint (lmod_bits lmod) v) (if conv =? 117 then 10 else 16) false (conv =? 88) width ljust zero;
        Some (o, args)
      else if conv =? 112 then
        '(v, args) ← va_ptr args;
        let o := out_char (out_char o 48) 120 in
        o ← out_num o (wrap v) 16 false false (2 * REGBYTES) false true;
        Some (o, args)
      else if conv =? 37 then Some (out_char o 37, args)
      else Some (out_char (out_char o 37) conv, args)
  end.

(** [for (; *fmt; fmt++)] *)
Fixpoint vsnprintf_loop (rounds : nat) (o : out) (fmt : list Z) (args : list arg) : option out :=
  match rounds, fmt with
  | _, [] => Some o
  | 0%nat, _ => None
  | S rounds, c :: fmt =>
      let '(d, fmt) := parse_directive c fmt in
      '(o, args) ← out_directive o d args;
      vsnprintf_loop rounds o fmt args
  end.

(** The value that is returned, and the memory. *)
Definition vsnprintf (m : Z -> Z) (buf size : Z) (fmt : list Z) (args : list arg) : option (Z * (Z -> Z)) :=
  o ← vsnprintf_loop (length fmt) (Out m buf size 0) fmt args;
  let m := if truth size then store (o_mem o) (buf + Z.min (o_pos o) (usub size 1)) 0 else o_mem o in
  Some (sint 32 (o_pos o), m).

(** [char buf[CONFIG_LIBC_PRINTF_BUF]] is at [buf]; the console gets its
    string. *)
Definition vprintf (PRINTF_BUF : Z) (m : Z -> Z) (buf : Z) (fmt : list Z) (args : list arg) : option (Z * (Z -> Z)) :=
  vsnprintf (memset m buf 0 PRINTF_BUF) buf PRINTF_BUF fmt args.

(** * What is written

    The text of a format, without a buffer. *)
Definition padded (ljust : bool) (fill pad : Z) (s : list Z) : list Z :=
  if ljust then s ++ replicate (Z.to_nat pad) 32 else replicate (Z.to_nat pad) fill ++ s.

Definition str_text (s : list Z) (width : Z) (ljust : bool) : list Z :=
  padded ljust 32 (sint 32 (width - sint 32 (Z.of_nat (length s)))) s.

Definition num_text (v base : Z) (neg upper : bool) (width : Z) (ljust zero : bool) : option (list Z) :=
  tmp ← num_tmp v base neg upper;
  Some (padded ljust (if zero then 48 else 32) (sint 32 (width - Z.of_nat (length tmp))) (rev tmp)).

Definition directive_text (d : directive) (args : list arg) : option (list Z * list arg) :=
  match d with
  | Lit c => Some ([c], args)
  | Stop => Some ([], args)
  | Conv ljust zero width lmod conv =>
      if conv =? 99 then
        '(c, args) ← va_num 32 args; Some (str_text [uint 8 c] width ljust, args)
      else if conv =? 115 then
        '(s, args) ← va_str args; Some (str_text (default null_text s) width ljust, args)
      else if (conv =? 100) || (conv =? 105) then
        '(v, args) ← va_num (lmod_bits lmod) args;
        let v := sint (lmod_bits lmod) v in
        t ← num_text (Z.abs v) 10 (v <? 0) false width ljust zero;
        Some (t, args)
      else if (conv =? 117) || (conv =? 120) || (conv =? 88) then
        '(v, args) ← va_num (lmod_bits lmod) args;
        t ← num_text (uint (lmod_bits lmod) v) (if conv =? 117 then 10 else 16) false (conv =? 88) width ljust zero;
        Some (t, args)
      else if conv =? 112 then
        '(v, args) ← va_ptr args;
        t ← num_text (wrap v) 16 false false (2 * REGBYTES) false true;
        Some (48 :: 120 :: t, args)
      else if conv =? 37 then Some ([37], args)
      else Some ([37; conv], args)
  end.

Fixpoint directives (rounds : nat) (fmt : list Z) : list directive :=
  match rounds, fmt with
  | S rounds, c :: fmt => let '(d, fmt) := parse_directive c fmt in d :: directives rounds fmt
  | _, _ => []
  end.

Fixpoint directives_text (ds : list directive) (args : list arg) : option (list Z) :=
  match ds with
  | [] => Some []
  | d :: ds => '(t, args) ← directive_text d args; t' ← directives_text ds args; Some (t ++ t')
  end.

Definition printf_text (fmt : list Z) (args : list arg) : option (list Z) :=
  directives_text (directives (length fmt) fmt) args.

(** ** The code writes that text *)

Definition emit (o : out) (t : list Z) : out := foldl out_char o t.

Lemma out_pad_emit (o : out) (n pad : Z) : out_pad o n pad = emit o (replicate (Z.to_nat n) pad).
Proof.
  unfold out_pad, emit. generalize (Z.to_nat n) as k. intros k. revert o. induction k as [|k IH]; intros o; [done|].
  rewrite Nat.iter_succ_r. cbn. apply IH.
Qed.

Lemma emit_app (o : out) (t t' : list Z) : emit (emit o t) t' = emit o (t ++ t').
Proof. symmetry. apply foldl_app. Qed.

Lemma out_str_emit (o : out) (s : list Z) (width : Z) (ljust : bool) :
  out_str o s width ljust = emit o (str_text s width ljust).
Proof.
  unfold out_str, str_text, padded. rewrite !out_pad_emit. destruct ljust; rewrite <- emit_app; done.
Qed.

Lemma out_num_emit (o : out) (v base : Z) (neg upper : bool) (width : Z) (ljust zero : bool) :
  out_num o v base neg upper width ljust zero = emit o <$> num_text v base neg upper width ljust zero.
Proof.
  unfold out_num, num_text, padded. destruct (num_tmp v base neg upper) as [tmp|]; cbn; [|done].
  rewrite !out_pad_emit. destruct ljust; rewrite <- emit_app; done.
Qed.

Lemma lmod_bits_cases (lmod : Z) : lmod_bits lmod = 64 \/ lmod_bits lmod = 32.
Proof. unfold lmod_bits. case_cmp; auto. destruct XLEN_cases; auto. Qed.

Lemma sint_range (n z : Z) : 1 <= n -> is_sint n (sint n z).
Proof.
  intros Hn. unfold is_sint, sint. pose proof (uint_range n z ltac:(lia)) as Hu. unfold is_uint in Hu.
  pose proof (pow2_half n Hn). case_cmp; lia.
Qed.

(** The magnitude of a number, the smallest one included. *)
Lemma magnitude_lmod (lmod v : Z) :
  let v := sint (lmod_bits lmod) v in (if v <? 0 then uint 64 (- uint 64 v) else uint 64 v) = Z.abs v.
Proof.
  cbv zeta. assert (is_sint 64 (sint (lmod_bits lmod) v)) as Hs.
  { pose proof (sint_range (lmod_bits lmod) v) as Hr. unfold is_sint in *.
    destruct (lmod_bits_cases lmod) as [E|E]; rewrite E in *; lia. }
  apply (magnitude64_abs _ Hs).
Qed.

Lemma out_directive_emit (o : out) (d : directive) (args : list arg) :
  out_directive o d args = (fun '(t, args') => (emit o t, args')) <$> directive_text d args.
Proof.
  destruct d as [c|ljust zero width lmod conv|]; [done| |done]. unfold out_directive, directive_text.
  destruct (conv =? 99); [destruct (va_num 32 args) as [[c ?]|]; cbn -[out_str str_text]; rewrite ?out_str_emit; done|].
  destruct (conv =? 115); [destruct (va_str args) as [[s ?]|]; cbn -[out_str str_text]; rewrite ?out_str_emit; done|].
  destruct (_ || _).
  { destruct (va_num _ args) as [[v ?]|]; cbn -[out_num num_text]; [|done].
    rewrite magnitude_lmod, out_num_emit. by destruct (num_text _ _ _ _ _ _ _). }
  destruct (_ || _).
  { destruct (va_num _ args) as [[v ?]|]; cbn -[out_num num_text]; [|done].
    rewrite out_num_emit. by destruct (num_text _ _ _ _ _ _ _). }
  destruct (conv =? 112).
  { destruct (va_ptr args) as [[v ?]|]; cbn -[out_num num_text]; [|done].
    rewrite out_num_emit. by destruct (num_text _ _ _ _ _ _ _). }
  by destruct (conv =? 37).
Qed.

(** A turn takes at least one character. *)
Lemma parse_directive_shorter (c : Z) (fmt : list Z) : (length (parse_directive c fmt).2 <= length fmt)%nat.
Proof.
  assert (forall l ljust zero, (length (parse_flags ljust zero l).2 <= length l)%nat) as Hf.
  { induction l as [|d l IH]; intros; cbn; [lia|]. destruct (d =? 45); [|destruct (d =? 48)]; cbn; [specialize (IH true zero)|specialize (IH ljust true)|]; lia. }
  assert (forall l w, (length (parse_width w l).2 <= length l)%nat) as Hw.
  { induction l as [|d l IH]; intros; cbn; [lia|]. destruct (_ && _); cbn; [specialize (IH (sint 32 (w * 10 + (d - 48))))|]; lia. }
  assert (forall l w, (length (parse_lmod w l).2 <= length l)%nat) as Hl.
  { induction l as [|d l IH]; intros; cbn; [lia|]. destruct (_ || _); [etrans; [apply IH|lia]|cbn; lia]. }
  unfold parse_directive. destruct (negb _); [done|]. specialize (Hf fmt false false).
  destruct (parse_flags false false fmt) as [[ljust zero] l1]. specialize (Hw l1 0).
  destruct (parse_width 0 l1) as [w l2]. specialize (Hl l2 0). destruct (parse_lmod 0 l2) as [lm [|conv l3]]; cbn in *; lia.
Qed.

Lemma vsnprintf_loop_emit (rounds : nat) (o : out) (fmt : list Z) (args : list arg) (t : list Z) :
  directives_text (directives rounds fmt) args = Some t -> (length fmt <= rounds)%nat ->
  vsnprintf_loop rounds o fmt args = Some (emit o t).
Proof.
  revert o fmt args t. induction rounds as [|rounds IH]; intros o [|c fmt] args t; cbn; try (by intros [= <-]); try lia.
  pose proof (parse_directive_shorter c fmt) as Hlen. destruct (parse_directive c fmt) as [d rest]. cbn in Hlen |- *.
  rewrite out_directive_emit. destruct (directive_text d args) as [[t1 args']|]; cbn; [|done].
  destruct (directives_text (directives rounds rest) args') as [t2|] eqn:E; cbn; [|done]. intros [= <-] Hl.
  rewrite (IH _ _ _ _ E) by lia. by rewrite emit_app.
Qed.

(** What the characters do to the buffer: those that leave room for the NUL
    are stored, all are counted. *)
Lemma emit_spec (t : list Z) (o : out) :
  0 <= o_pos o -> o_pos o + Z.of_nat (length t) < 2 ^ XLEN ->
  o_pos (emit o t) = o_pos o + Z.of_nat (length t) /\
  forall a, o_mem (emit o t) a =
    if (o_buf o + o_pos o <=? a) && (a <? o_buf o + Z.min (o_pos o + Z.of_nat (length t)) (o_size o - 1))
    then default 0 (t !! Z.to_nat (a - (o_buf o + o_pos o))) else o_mem o a.
Proof.
  revert o. induction t as [|c t IH]; intros o H0 Hlen.
  - cbn. split; [lia|]. intros a. case_cmp; cbn; try done. lia.
  - cbn [length] in Hlen. assert (uadd (o_pos o) 1 = o_pos o + 1) as E by (apply wrap_small; split; lia).
    destruct (IH (out_char o c)) as [Hp Hm]; [cbn; rewrite E; lia|cbn; rewrite E; lia|].
    change (emit o (c :: t)) with (emit (out_char o c) t). split.
    + rewrite Hp. cbn [out_char o_pos length]. rewrite E. lia.
    + intros a. rewrite Hm. cbn [out_char o_mem o_pos o_buf o_size length]. rewrite E. unfold store.
      destruct (Z.leb_spec (o_buf o + (o_pos o + 1)) a) as [Hge|Hlt]; cbn [andb].
      * replace (Z.to_nat (a - (o_buf o + o_pos o))) with (S (Z.to_nat (a - (o_buf o + (o_pos o + 1))))) by lia.
        change ((c :: t) !! S ?n) with (t !! n). case_cmp; cbn; try lia; done.
      * destruct (Z.eqb_spec a (o_buf o + o_pos o)) as [->|Hne].
        -- rewrite Z.sub_diag. case_cmp; cbn; try lia; done.
        -- case_cmp; cbn; try lia; done.
Qed.

(** ** Numbers *)

Lemma digits_loop_total (table : list Z) (base : Z) (room k : nat) (v : Z) :
  2 <= base -> base <= Z.of_nat (length table) -> 0 <= v < base ^ Z.of_nat k -> (1 <= k <= room)%nat ->
  exists tmp, digits_loop room table v base = Some tmp /\ (length tmp <= k)%nat.
Proof.
  intros Hb Ht. revert k v. induction room as [|room IH]; intros k v Hv Hk; [lia|]. cbn.
  assert (0 <= v mod base < base) by (apply Z.mod_pos_bound; lia).
  destruct (lookup_lt_is_Some_2 table (Z.to_nat (v mod base))) as [d ->]; [lia|]. cbn.
  destruct (truth (v / base)) eqn:E; [|exists [d]; split; [done|cbn; lia]].
  apply truth_true in E. destruct k as [|[|k]]; [lia| |].
  - change (Z.of_nat 1) with 1 in Hv. rewrite Z.pow_1_r in Hv. by rewrite Z.div_small in E.
  - destruct (IH (S k) (v / base)) as (tmp & -> & Hlen); [|lia|].
    + split; [apply Z.div_pos; lia|]. apply Z.div_lt_upper_bound; [lia|].
      rewrite <- Z.pow_succ_r by lia. replace (Z.succ (Z.of_nat (S k))) with (Z.of_nat (S (S k))) by lia. apply Hv.
    + exists (d :: tmp). cbn. split; [done|lia].
Qed.

(** [tmp] has room for every number of 64 bits and its sign. *)
Lemma num_tmp_total (v base : Z) (neg upper : bool) :
  base = 10 \/ base = 16 -> is_uint 64 v ->
  exists tmp, num_tmp v base neg upper = Some tmp /\ (length tmp <= 21)%nat.
Proof.
  intros Hb Hv. unfold is_uint in Hv. unfold num_tmp.
  destruct (digits_loop_total (digits upper) base TMP 20 v) as (tmp & -> & Hlen).
  - lia.
  - destruct Hb as [->| ->], upper; done.
  - split; [lia|]. eapply Z.lt_le_trans; [apply Hv|]. apply Z.leb_le. destruct Hb as [->| ->]; reflexivity.
  - unfold TMP. lia.
  - cbn [mbind option_bind]. destruct neg; [|exists tmp; split; [done|lia]].
    destruct (Nat.ltb_spec (length tmp) TMP) as [_|Hge]; [|unfold TMP in Hge; lia].
    eexists; split; [done|]. rewrite length_app. cbn. lia.
Qed.

Lemma uint_lmod (lmod v : Z) : is_uint 64 (uint (lmod_bits lmod) v).
Proof.
  pose proof (uint_range (lmod_bits lmod) v) as Hr. unfold is_uint in *.
  destruct (lmod_bits_cases lmod) as [E|E]; rewrite E in *; lia.
Qed.

(** The buffer gets what fits of the text, and a NUL; no other byte changes,
    those of the buffer behind the NUL included. *)
Lemma vsnprintf_buffer (m : Z -> Z) (buf size : Z) (fmt : list Z) (args : list arg) (t : list Z) :
  is_ulong size -> printf_text fmt args = Some t -> Z.of_nat (length t) < 2 ^ XLEN ->
  exists m', vsnprintf m buf size fmt args = Some (sint 32 (Z.of_nat (length t)), m') /\
    let n := Z.min (Z.of_nat (length t)) (size - 1) in
    (0 < size -> bytes_at m' buf (Z.to_nat n) = take (Z.to_nat n) t /\ m' (buf + n) = 0) /\
    (forall a, a < buf \/ buf + n < a -> m' a = m a).
Proof.
  unfold is_ulong. intros Hsize Ht Hlen. unfold vsnprintf. rewrite (vsnprintf_loop_emit _ _ _ _ _ Ht) by lia. cbn -[emit].
  destruct (emit_spec t (Out m buf size 0)) as [Hp Hm]; [cbn; lia|cbn; lia|].
  set (o := emit (Out m buf size 0) t) in *. clearbody o. cbn in Hp, Hm. rewrite Hp.
  eexists; split; [done|]. cbv zeta. set (n := Z.min (Z.of_nat (length t)) (size - 1)) in *. split.
  - intros Hs. assert (truth size = true) as -> by (apply truth_true; lia).
    assert (usub size 1 = size - 1) as -> by (apply wrap_small; split; lia). fold n.
    split; [|apply store_eq]. apply list_eq. intros i. unfold bytes_at. rewrite list_lookup_fmap.
    destruct (decide (i < Z.to_nat n)%nat) as [Hi|Hi].
    + rewrite lookup_seq_lt by done. cbn. rewrite lookup_take_lt, store_ne, Hm by lia. unfold n in *.
      rewrite (proj2 (Z.leb_le _ _)), (proj2 (Z.ltb_lt _ _)) by lia. cbn.
      replace (Z.to_nat (buf + Z.of_nat i - (buf + 0))) with i by lia.
      destruct (lookup_lt_is_Some_2 t i) as [c ->]; [lia|done].
    + rewrite lookup_seq_ge by lia. cbn. symmetry. apply lookup_take_ge. lia.
  - intros a Ha. assert (o_mem o a = m a) as Hma.
    { rewrite Hm. unfold n in *. case_cmp; cbn; first [done|lia]. }
    destruct (truth size) eqn:E; [|done]. apply truth_true in E.
    assert (usub size 1 = size - 1) as -> by (apply wrap_small; split; lia). fold n. rewrite store_ne; [done|lia].
Qed.

(** ** Reading a number back *)

Definition digit_value (c : Z) : option Z :=
  if (48 <=? c) && (c <=? 57) then Some (c - 48)
  else if (65 <=? c) && (c <=? 70) then Some (c - 55)
  else if (97 <=? c) && (c <=? 102) then Some (c - 87)
  else None.

Fixpoint read_digits (base acc : Z) (t : list Z) : option Z :=
  match t with
  | [] => Some acc
  | c :: t => d ← digit_value c; if d <? base then read_digits base (acc * base + d) t else None
  end.

Definition read_number (base : Z) (t : list Z) : option Z :=
  match t with
  | [] => None
  | c :: t' => if c =? 45 then Z.opp <$> read_digits base 0 t' else read_digits base 0 t
  end.

Fixpoint skip_spaces (t : list Z) : list Z :=
  match t with
  | c :: t' => if c =? 32 then skip_spaces t' else t
  | [] => []
  end.
Definition strip (t : list Z) : list Z := rev (skip_spaces (rev (skip_spaces t))).

Lemma read_digits_app (base acc : Z) (t t' : list Z) :
  read_digits base acc (t ++ t') = read_digits base acc t ≫= fun a => read_digits base a t'.
Proof.
  revert acc. induction t as [|c t IH]; intros acc; [done|]. cbn. destruct (digit_value c) as [d|]; cbn; [|done].
  by destruct (d <? base).
Qed.

Lemma digits_value (upper : bool) (k : nat) (d : Z) :
  digits upper !! k = Some d -> digit_value d = Some (Z.of_nat k) /\ d <> 32 /\ d <> 45.
Proof. destruct upper; do 16 (destruct k as [|k]; [by intros [= <-]|]); done. Qed.

Lemma digits_loop_read (room : nat) (upper : bool) (v base : Z) (tmp : list Z) :
  2 <= base -> 0 <= v -> digits_loop room (digits upper) v base = Some tmp ->
  read_digits base 0 (rev tmp) = Some v /\ Forall (fun c => c <> 32 /\ c <> 45) tmp /\ tmp <> [].
Proof.
  intros Hb. revert v tmp. induction room as [|room IH]; intros v tmp Hv; cbn [digits_loop]; [done|].
  assert (0 <= v mod base < base) by (apply Z.mod_pos_bound; lia). pose proof (Z.div_mod v base).
  destruct (digits upper !! Z.to_nat (v mod base)) as [d|] eqn:Ed; cbn; [|done].
  apply digits_value in Ed as [Ed Hd]. rewrite Z2Nat.id in Ed by lia.
  destruct (truth (v / base)) eqn:Et.
  - destruct (digits_loop room _ (v / base) base) as [tmp'|] eqn:El; cbn; [|done]. intros [= <-].
    destruct (IH (v / base) tmp' ltac:(apply Z.div_pos; lia) El) as (Hr & Hc & _). split_and!; [|by constructor|done].
    cbn. rewrite read_digits_app, Hr. cbn. rewrite Ed. cbn. rewrite (proj2 (Z.ltb_lt _ _)) by lia. f_equal. lia.
  - intros [= <-]. split_and!; [|by apply Forall_singleton|done]. cbn. rewrite Ed. cbn.
    rewrite (proj2 (Z.ltb_lt _ _)) by lia. unfold truth in Et. apply negb_false_iff, Z.eqb_eq in Et. f_equal. lia.
Qed.

Lemma skip_spaces_replicate (k : nat) (t : list Z) : skip_spaces (replicate k 32 ++ t) = skip_spaces t.
Proof. induction k as [|k IH]; cbn; done. Qed.

Lemma skip_spaces_none (t : list Z) : Forall (fun c => c <> 32) t -> skip_spaces t = t.
Proof. intros [|c t' Hc _]; cbn [skip_spaces]; [done|]. by destruct (Z.eqb_spec c 32). Qed.

Lemma strip_none (t : list Z) : Forall (fun c => c <> 32) t -> strip t = t.
Proof.
  intros Ht. unfold strip. rewrite (skip_spaces_none t) by done.
  rewrite skip_spaces_none by (by apply Forall_rev). apply rev_involutive.
Qed.

(** Padding is what [strip] takes away; zeros stay. *)
Lemma strip_padded (ljust : bool) (fill pad : Z) (s : list Z) :
  Forall (fun c => c <> 32) s ->
  strip (padded ljust fill pad s) =
  if ljust || (fill =? 32) then s else replicate (Z.to_nat pad) fill ++ s.
Proof.
  intros Hs. unfold padded. generalize (Z.to_nat pad) as k. intros k. destruct ljust; cbn [orb].
  - unfold strip. destruct s as [|c s]; cbn [app skip_spaces].
    { assert (skip_spaces (replicate k 32) = []) as ->; [|done].
      rewrite <- (app_nil_r (replicate k 32)). apply skip_spaces_replicate. }
    inversion_clear Hs as [|? ? Hc Hs']. destruct (Z.eqb_spec c 32); [done|].
    change (c :: s ++ replicate k 32) with ((c :: s) ++ replicate k 32). rewrite rev_app_distr.
    assert (rev (replicate k 32) = replicate k 32) as -> by (rewrite rev_alt; apply reverse_replicate).
    rewrite skip_spaces_replicate, skip_spaces_none, rev_involutive; [done|]. apply Forall_rev. by constructor.
  - destruct (Z.eqb_spec fill 32) as [->|Hf].
    + unfold strip. rewrite skip_spaces_replicate. by apply strip_none.
    + apply strip_none, Forall_app. split; [by apply Forall_replicate|done].
Qed.

Lemma read_digits_zeros (base : Z) (k : nat) (t : list Z) :
  2 <= base -> read_digits base 0 (replicate k 48 ++ t) = read_digits base 0 t.
Proof.
  intros Hb. induction k as [|k IH]; [done|]. cbn [replicate app read_digits].
  change (digit_value 48) with (Some 0). cbn [mbind option_bind]. rewrite (proj2 (Z.ltb_lt 0 base)) by lia. done.
Qed.

Lemma read_number_digits (base : Z) (t : list Z) :
  t <> [] -> Forall (fun c => c <> 32 /\ c <> 45) t -> read_number base t = read_digits base 0 t.
Proof.
  destruct t as [|c t]; [done|]. intros _ Ht. inversion_clear Ht as [|? ? [_ Hc] _]. cbn [read_number].
  by destruct (Z.eqb_spec c 45).
Qed.

Lemma num_text_read (v base : Z) (neg upper : bool) (width : Z) (ljust zero : bool) :
  base = 10 \/ base = 16 -> is_uint 64 v -> neg && zero && negb ljust = false ->
  exists t, num_text v base neg upper width ljust zero = Some t /\
    read_number base (strip t) = Some (if neg then - v else v).
Proof.
  intros Hb Hv Hnz. destruct (num_tmp_total v base neg upper Hb Hv) as (tmp & E & _). unfold num_text. rewrite E.
  cbn [mbind option_bind]. eexists; split; [done|].
  unfold num_tmp in E. destruct (digits_loop TMP (digits upper) v base) as [ds|] eqn:El; [|done].
  cbn [mbind option_bind] in E. unfold is_uint in Hv.
  destruct (digits_loop_read TMP upper v base ds ltac:(lia) ltac:(lia) El) as (Hr & Hc & Hne).
  assert (Forall (fun c => c <> 32 /\ c <> 45) (rev ds)) as Hrc by (by apply Forall_rev).
  assert (rev ds <> []) as Hrne by (intros Hz; apply Hne; by rewrite <- (rev_involutive ds), Hz).
  rewrite strip_padded.
  2: { apply Forall_rev. destruct neg; [case_match; [|done]|]; injection E as <-.
       - apply Forall_app. split; [eapply Forall_impl; [exact Hc|]; by intros c [? _]|by apply Forall_singleton].
       - eapply Forall_impl; [exact Hc|]. by intros c [? _]. }
  destruct neg.
  - case_match; [|done]. injection E as <-. rewrite rev_app_distr. cbn [rev app].
    assert (ljust || ((if zero then 48 else 32) =? 32) = true) as -> by (destruct ljust, zero; done).
    cbn [read_number]. rewrite Z.eqb_refl, Hr. done.
  - injection E as <-. destruct (ljust || _) eqn:Ez.
    + by rewrite read_number_digits.
    + destruct zero; [|by destruct ljust]. rewrite read_number_digits.
      * rewrite read_digits_zeros by lia. done.
      * intros Hz. apply app_eq_nil in Hz as [_ Hz]. done.
      * apply Forall_app. split; [by apply Forall_replicate|done].
Qed.

(** A number that is printed reads back as what it was: for every width of
    the argument, field width, padding and base, the smallest integer
    included.  Of a negative number this needs that the field is not filled
    with zeros. *)
Theorem printf_number_roundtrip (ljust zero : bool) (width lmod v : Z) :
  let bits := lmod_bits lmod in
  (sint bits v < 0 -> zero && negb ljust = false) ->
  (exists t, directive_text (Conv ljust zero width lmod 100) [Num bits v] = Some (t, []) /\
     read_number 10 (strip t) = Some (sint bits v)) /\
  (exists t, directive_text (Conv ljust zero width lmod 117) [Num bits v] = Some (t, []) /\
     read_number 10 (strip t) = Some (uint bits v)) /\
  (forall conv, conv = 120 \/ conv = 88 ->
     exists t, directive_text (Conv ljust zero width lmod conv) [Num bits v] = Some (t, []) /\
       read_number 16 (strip t) = Some (uint bits v)).
Proof.
  cbv zeta. intros Hz. split_and!.
  - cbn -[num_text lmod_bits]. rewrite Z.eqb_refl. cbn -[num_text lmod_bits].
    destruct (num_text_read (Z.abs (sint (lmod_bits lmod) v)) 10 (sint (lmod_bits lmod) v <? 0) false width ljust zero)
      as (t & -> & Hr); [auto| | |].
    + rewrite <- magnitude_lmod. case_match; apply uint_range; lia.
    + destruct (Z.ltb_spec (sint (lmod_bits lmod) v) 0); [by apply Hz|done].
    + eexists; split; [done|]. rewrite Hr. f_equal. case_cmp; lia.
  - cbn -[num_text lmod_bits]. rewrite Z.eqb_refl. cbn -[num_text lmod_bits].
    destruct (num_text_read (uint (lmod_bits lmod) v) 10 false false width ljust zero)
      as (t & -> & Hr); [auto|apply uint_lmod|done|eauto].
  - intros conv Hc. unfold directive_text, va_num.
    assert (forall c, c = 99 \/ c = 115 \/ c = 100 \/ c = 105 \/ c = 117 -> (conv =? c) = false) as Hne by (intros; lia).
    rewrite !Hne by auto 6. rewrite Z.eqb_refl. cbn -[num_text lmod_bits].
    assert ((conv =? 120) || (conv =? 88) = true) as -> by lia.
    destruct (num_text_read (uint (lmod_bits lmod) v) 16 false (conv =? 88) width ljust zero)
      as (t & -> & Hr); [auto|apply uint_lmod|done|cbn; eauto].
Qed.
(** * What a format asks for

    The formats of the header comment as the C standard describes them: which
    items there are, how each is written in a format, and which text it asks
    for of which argument.  Nothing here is taken from the code above; a
    number is described by what it reads as. *)
Inductive length_modifier := LenNone | LenLong | LenLongLong | LenSize.
Inductive conversion := CChar | CStr | CDec (i : bool) | CUdec | CHex (upper : bool) | CPtr | CPercent.
Inductive item :=
| Plain (c : Z)
| Field (flags width : list Z) (len : length_modifier) (conv : conversion).

(** "", "l", "ll", "z" *)
Definition len_fmt (len : length_modifier) : list Z :=
  match len with LenNone => [] | LenLong => [108] | LenLongLong => [108; 108] | LenSize => [122] end.
(** c s i d u X x p % *)
Definition conv_char (conv : conversion) : Z :=
  match conv with
  | CChar => 99 | CStr => 115 | CDec i => if i then 105 else 100 | CUdec => 117
  | CHex upper => if upper then 88 else 120 | CPtr => 112 | CPercent => 37
  end.
Definition item_fmt (it : item) : list Z :=
  match it with
  | Plain c => [c]
  | Field flags width len conv => 37 :: flags ++ width ++ len_fmt len ++ [conv_char conv]
  end.

(** The bits of an int, a long, a long long and a [size_t]. *)
Definition len_bits (len : length_modifier) : Z :=
  match len with LenNone => 32 | LenLong | LenSize => XLEN | LenLongLong => 64 end.
Definition width_of (width : list Z) : Z := default 0 (read_digits 10 0 width).
Definition minus (flags : list Z) : bool := bool_decide (45 ∈ flags).
Definition zero_fill (flags : list Z) : Z := if bool_decide (48 ∈ flags) then 48 else 32.

(** The flags are '-' and '0', a width is a decimal number an int holds that
    does not start with a flag, and a [size_t] is as wide as the code has it. *)
Definition item_ok (it : item) : Prop :=
  match it with
  | Plain c => c <> 37
  | Field flags width len _ =>
      Forall (fun c => c = 45 \/ c = 48) flags /\ head width <> Some 48 /\
      (exists n, read_digits 10 0 width = Some n /\ n < 2 ^ 31) /\ (len = LenSize -> XLEN = 64)
  end.

Definition field (ljust : bool) (fill width : Z) (s : list Z) : list Z :=
  let pad := replicate (Z.to_nat width - length s) in if ljust then s ++ pad 32 else pad fill ++ s.

(** The digits of [v] without leading zeros, with letters of one case. *)
Definition numeral (base : Z) (upper : bool) (v : Z) (ds : list Z) : Prop :=
  read_digits base 0 ds = Some v /\ ds <> [] /\ (head ds = Some 48 -> ds = [48]) /\
  Forall (fun c => c <= 57 \/ if upper then c <= 70 else 97 <= c) ds.

(** A negative number is not filled with zeros: where the sign then goes is
    [zeros_before_sign]. *)
Inductive item_says : item -> list arg -> list Z -> list arg -> Prop :=
| SayPlain c args : item_says (Plain c) args [c] args
| SayChar flags width len c args :
    item_says (Field flags width len CChar) (Num 32 c :: args) (field (minus flags) 32 (width_of width) [uint 8 c]) args
| SayStr flags width len s args :
    item_says (Field flags width len CStr) (Str s :: args) (field (minus flags) 32 (width_of width) (default null_text s)) args
| SayDec flags width len i v ds args :
    numeral 10 false (Z.abs (sint (len_bits len) v)) ds ->
    (sint (len_bits len) v < 0 -> 48 ∈ flags -> 45 ∈ flags) ->
    item_says (Field flags width len (CDec i)) (Num (len_bits len) v :: args)
      (field (minus flags) (zero_fill flags) (width_of width) ((if sint (len_bits len) v <? 0 then [45] else []) ++ ds)) args
| SayUdec flags width len v ds args :
    numeral 10 false (uint (len_bits len) v) ds ->
    item_says (Field flags width len CUdec) (Num (len_bits len) v :: args)
      (field (minus flags) (zero_fill flags) (width_of width) ds) args
| SayHex flags width len upper v ds args :
    numeral 16 upper (uint (len_bits len) v) ds ->
    item_says (Field flags width len (CHex upper)) (Num (len_bits len) v :: args)
      (field (minus flags) (zero_fill flags) (width_of width) ds) args
| SayPtr flags width len v ds args :
    numeral 16 false (wrap v) ds ->
    item_says (Field flags width len CPtr) (Ptr v :: args) (48 :: 120 :: field false 48 (2 * REGBYTES) ds) args
| SayPercent flags width len args : item_says (Field flags width len CPercent) args [37] args.

Inductive items_say : list item -> list arg -> list Z -> Prop :=
| SayEnd args : items_say [] args []
| SayMore it items args args' t t' :
    item_says it args t args' -> items_say items args' t' -> items_say (it :: items) args (t ++ t').

(** The arguments are those the format asks for. *)
Definition arg_fits (it : item) (args args' : list arg) : Prop :=
  match it with
  | Plain _ | Field _ _ _ CPercent => args' = args
  | Field _ _ _ CChar => exists c, args = Num 32 c :: args'
  | Field _ _ _ CStr => exists s, args = Str s :: args'
  | Field _ _ _ CPtr => exists v, args = Ptr v :: args'
  | Field flags _ len (CDec _) =>
      exists v, args = Num (len_bits len) v :: args' /\ (sint (len_bits len) v < 0 -> 48 ∈ flags -> 45 ∈ flags)
  | Field _ _ len _ => exists v, args = Num (len_bits len) v :: args'
  end.
Fixpoint args_fit (items : list item) (args : list arg) : Prop :=
  match items with
  | [] => True
  | it :: items => exists args', arg_fits it args args' /\ args_fit items args'
  end.

(** ** Its directives *)

Definition lmod_of (len : length_modifier) : Z :=
  match len with LenNone => 0 | LenLong => 1 | LenLongLong | LenSize => 2 end.
Definition item_directive (it : item) : directive :=
  match it with
  | Plain c => Lit c
  | Field flags width len conv =>
      Conv (minus flags) (bool_decide (48 ∈ flags)) (width_of width) (lmod_of len) (conv_char conv)
  end.

Lemma digit_value_range (c d : Z) : digit_value c = Some d -> 0 <= d /\ (d < 10 -> c = 48 + d).
Proof. unfold digit_value. case_cmp; cbn; intros [= <-]; lia. Qed.

Lemma read_digits_le (base acc n : Z) (t : list Z) :
  1 <= base -> 0 <= acc -> read_digits base acc t = Some n -> acc <= n.
Proof.
  intros Hb. revert acc. induction t as [|c t IH]; intros acc Ha; cbn; [intros [= ->]; lia|].
  destruct (digit_value c) as [d|] eqn:Ed; cbn; [|done]. apply digit_value_range in Ed as [Hd _].
  destruct (d <? base); [|done]. intros Hr. apply IH in Hr; nia.
Qed.

Lemma parse_flags_app (flags rest : list Z) (ljust zero : bool) :
  Forall (fun c => c = 45 \/ c = 48) flags -> (forall c, head rest = Some c -> c <> 45 /\ c <> 48) ->
  parse_flags ljust zero (flags ++ rest) =
  (ljust || minus flags, zero || bool_decide (48 ∈ flags), rest).
Proof.
  intros Hf Hr. unfold minus. revert ljust zero. induction Hf as [|c flags Hc Hf IH]; intros ljust zero; cbn [app].
  - rewrite !bool_decide_eq_false_2, !orb_false_r by apply not_elem_of_nil.
    destruct rest as [|c rest]; [done|]. destruct (Hr c eq_refl) as [H1 H2]. cbn [parse_flags].
    by rewrite (proj2 (Z.eqb_neq _ _) H1), (proj2 (Z.eqb_neq _ _) H2).
  - cbn [parse_flags]. destruct Hc as [->| ->]; cbn [Z.eqb Pos.eqb]; rewrite IH; f_equal; f_equal.
    + rewrite (bool_decide_eq_true_2 (45 ∈ 45 :: flags)) by apply list_elem_of_here. by rewrite orb_true_r.
    + f_equal. apply bool_decide_ext. rewrite elem_of_cons. intuition done.
    + f_equal. apply bool_decide_ext. rewrite elem_of_cons. intuition done.
    + rewrite (bool_decide_eq_true_2 (48 ∈ 48 :: flags)) by apply list_elem_of_here. by rewrite orb_true_r.
Qed.

Lemma parse_width_app (width rest : list Z) (acc n : Z) :
  read_digits 10 acc width = Some n -> 0 <= acc -> n < 2 ^ 31 -> (forall c, head rest = Some c -> ~ 48 <= c <= 57) ->
  parse_width acc (width ++ rest) = (n, rest).
Proof.
  intros Hn Ha Hlt Hr. revert acc Hn Ha. induction width as [|c width IH]; intros acc Hn Ha; cbn [app].
  - injection Hn as <-. destruct rest as [|c rest]; [done|]. specialize (Hr c eq_refl). cbn. case_cmp; cbn; first [done|lia].
  - cbn in Hn. destruct (digit_value c) as [d|] eqn:Ed; cbn in Hn; [|done].
    apply digit_value_range in Ed as [Hd Hc]. destruct (Z.ltb_spec d 10); [|done]. rewrite Hc by done. cbn [parse_width].
    rewrite (proj2 (Z.leb_le 48 (48 + d))), (proj2 (Z.leb_le (48 + d) 57)) by lia. cbn [andb].
    pose proof (read_digits_le 10 (acc * 10 + d) n width ltac:(lia) ltac:(lia) Hn) as Hle.
    replace (acc * 10 + (48 + d - 48)) with (acc * 10 + d) by lia. rewrite sint_small; [by apply IH; try lia|lia|].
    unfold is_sint. lia.
Qed.

Lemma parse_lmod_app (len : length_modifier) (conv : conversion) (rest : list Z) :
  parse_lmod 0 (len_fmt len ++ conv_char conv :: rest) = (lmod_of len, conv_char conv :: rest).
Proof. destruct len, conv as [| |[]| |[]| |]; reflexivity. Qed.

Lemma parse_item (it : item) (rest : list Z) :
  item_ok it -> exists c tl, item_fmt it = c :: tl /\ parse_directive c (tl ++ rest) = (item_directive it, rest).
Proof.
  destruct it as [c|flags width len conv]; cbn [item_ok item_fmt item_directive].
  - intros Hc. exists c, []. split; [done|]. unfold parse_directive. by rewrite (proj2 (Z.eqb_neq _ _) Hc).
  - intros (Hf & Hh & (n & Hn & Hlt) & _). eexists _, _. split; [done|]. unfold parse_directive. cbn [Z.eqb Pos.eqb negb].
    rewrite <- !app_assoc. cbn [app].
    assert (forall c, head (len_fmt len ++ conv_char conv :: rest) = Some c -> ~ 48 <= c <= 57 /\ c <> 45) as Hl.
    { intros c. destruct len, conv as [| |[]| |[]| |]; cbn; intros [= <-]; lia. }
    rewrite parse_flags_app; [|done|].
    2: { intros c. destruct width as [|d width]; cbn [app]; [intros Hc; apply Hl in Hc; lia|]. cbn [head] in *. intros [= <-].
         split; [|congruence]. cbn in Hn. destruct (digit_value d) as [e|] eqn:Ed; [|done].
         intros ->. vm_compute in Ed. done. }
    rewrite (parse_width_app _ _ _ n); [|done|lia|done|intros c Hc; by apply Hl in Hc as [? _]].
    rewrite parse_lmod_app. unfold width_of. by rewrite Hn.
Qed.

Lemma items_directives (items : list item) (rounds : nat) :
  Forall item_ok items -> (length (items ≫= item_fmt) <= rounds)%nat ->
  directives rounds (items ≫= item_fmt) = item_directive <$> items.
Proof.
  intros Hok. revert rounds. induction Hok as [|it items Hi _ IH]; intros rounds Hr; [by destruct rounds|].
  rewrite bind_cons in *. destruct (parse_item it (items ≫= item_fmt) Hi) as (c & tl & Ef & Hp).
  rewrite Ef in *. cbn [app length] in *. destruct rounds as [|rounds]; [lia|]. cbn [directives]. rewrite Hp.
  rewrite fmap_cons, IH; [done|]. rewrite length_app in Hr. lia.
Qed.

(** ** Its text *)

Lemma digit_of_value (upper : bool) (c d : Z) :
  digit_value c = Some d -> c <= 57 \/ (if upper then c <= 70 else 97 <= c) -> digits upper !! Z.to_nat d = Some c.
Proof.
  unfold digit_value. intros Hd Hc.
  assert (0 <= d < 16 /\ c = d + if d <? 10 then 48 else if upper then 55 else 87) as [Hr ->].
  { destruct upper; repeat case_match; simplify_eq; case_cmp; lia. }
  clear Hd Hc. destruct (Z_of_nat_complete d) as [k ->]; [lia|]. rewrite Nat2Z.id.
  destruct upper; do 16 (destruct k as [|k]; [done|]); lia.
Qed.

Lemma digits_loop_numeral (room : nat) (upper : bool) (base v : Z) (ds tmp : list Z) :
  2 <= base -> numeral base upper v ds -> digits_loop room (digits upper) v base = Some tmp -> rev tmp = ds.
Proof.
  intros Hb. revert room v tmp. induction ds as [|c ds IH] using rev_ind; intros room v tmp (Hr & Hne & Hh & Hc); [done|].
  destruct room as [|room]; [done|]. cbn [digits_loop]. rewrite read_digits_app in Hr.
  destruct (read_digits base 0 ds) as [v'|] eqn:Ev; [|done]. cbn in Hr.
  destruct (digit_value c) as [d|] eqn:Ed; cbn in Hr; [|done]. destruct (Z.ltb_spec d base); [|done]. injection Hr as <-.
  apply Forall_app in Hc as [Hc Hcc]. inversion_clear Hcc as [|? ? Hcc' _].
  pose proof (digit_value_range _ _ Ed) as [Hd _]. pose proof (read_digits_le base 0 v' ds ltac:(lia) ltac:(lia) Ev) as Hv'.
  rewrite Z.div_add_l, (Z.div_small d), Z.add_0_r by lia.
  rewrite (Z.add_comm (v' * base) d), Z.mod_add, Z.mod_small by lia.
  rewrite (digit_of_value upper c d Ed Hcc'). cbn [mbind option_bind].
  destruct (decide (ds = [])) as [->|Hds]; [by injection Ev as <-; intros [= <-]|].
  assert (v' <> 0 /\ numeral base upper v' ds) as [Hn Hnum].
  { destruct ds as [|e ds]; [done|]. cbn in Hh. assert (e <> 48) as He by (intros ->; specialize (Hh eq_refl); by destruct ds).
    split; [|split_and!; [done|done|intros [= ?]; done|done]].
    cbn in Ev. destruct (digit_value e) as [x|] eqn:Ex; [|done]. cbn in Ev. destruct (Z.ltb_spec x base); [|done].
    apply digit_value_range in Ex as [Hx Hxe]. apply read_digits_le in Ev; lia. }
  rewrite (proj2 (truth_true v')) by done. destruct (digits_loop room _ v' base) as [tmp'|] eqn:El; cbn; [|done].
  intros [= <-]. cbn. f_equal. eapply IH; eauto.
Qed.

Lemma num_text_says (v base : Z) (neg upper : bool) (width : Z) (ljust zero : bool) (ds : list Z) :
  base = 10 \/ base = 16 -> is_uint 64 v -> 0 <= width < 2 ^ 31 -> numeral base upper v ds ->
  num_text v base neg upper width ljust zero =
  Some (field ljust (if zero then 48 else 32) width ((if neg then [45] else []) ++ ds)).
Proof.
  intros Hb Hv Hw Hn. destruct (num_tmp_total v base neg upper Hb Hv) as (tmp & E & Hlen). unfold num_text. rewrite E.
  cbn [mbind option_bind]. f_equal.
  assert (rev tmp = (if neg then [45] else []) ++ ds) as <-.
  { unfold num_tmp in E. destruct (digits_loop TMP (digits upper) v base) as [tmp'|] eqn:El; [|done]. cbn [mbind option_bind] in E.
    apply (digits_loop_numeral _ _ _ _ ds) in El; [|lia|done]. destruct neg; [case_match; [|done]|]; injection E as <-.
    - by rewrite rev_app_distr, El.
    - done. }
  unfold padded, field. rewrite length_rev, sint_small by (unfold is_sint; lia).
  replace (Z.to_nat (width - Z.of_nat (length tmp))) with (Z.to_nat width - length tmp)%nat by lia. done.
Qed.

Lemma str_text_says (s : list Z) (width : Z) (ljust : bool) :
  0 <= width < 2 ^ 31 -> Z.of_nat (length s) < 2 ^ 31 -> str_text s width ljust = field ljust 32 width s.
Proof.
  intros Hw Hs. unfold str_text, padded, field. rewrite (sint_small 32 (Z.of_nat (length s))), sint_small by (unfold is_sint; lia).
  by replace (Z.to_nat (width - Z.of_nat (length s))) with (Z.to_nat width - length s)%nat by lia.
Qed.

Lemma length_field (ljust : bool) (fill width : Z) (s : list Z) : (length s <= length (field ljust fill width s))%nat.
Proof. unfold field. destruct ljust; rewrite length_app; lia. Qed.

Lemma lmod_bits_of (len : length_modifier) : (len = LenSize -> XLEN = 64) -> lmod_bits (lmod_of len) = len_bits len.
Proof. intros H. destruct len; try done. cbn [len_bits]. by rewrite H. Qed.

Lemma item_directive_text (it : item) (args args' : list arg) (t : list Z) :
  item_ok it -> item_says it args t args' -> Z.of_nat (length t) < 2 ^ 31 ->
  directive_text (item_directive it) args = Some (t, args').
Proof.
  intros Hok Hs Hlen. destruct it as [c|flags width len conv]; [by inversion Hs|].
  destruct Hok as (_ & _ & (n & Hn & Hlt) & Hz).
  assert (0 <= width_of width < 2 ^ 31) as Hw.
  { unfold width_of. rewrite Hn. cbn. split; [|done]. eapply read_digits_le; [|done|done]; lia. }
  pose proof (lmod_bits_of len Hz) as Hb. pose proof (fun v => uint_lmod (lmod_of len) v) as Hu.
  pose proof (fun v => magnitude_lmod (lmod_of len) v) as Hm. cbv zeta in Hm. rewrite Hb in Hu, Hm.
  pose proof XLEN_bounds as Hx. pose proof (pow2_le XLEN 64) as Hp.
  inversion Hs; subst; unfold directive_text, item_directive; cbn [conv_char];
    try destruct i; try destruct upper; cbn [Z.eqb Pos.eqb orb va_num va_str va_ptr mbind option_bind];
    rewrite ?Hb, ?Z.eqb_refl; cbn [mbind option_bind].
  all: try (rewrite str_text_says; [done|done|]; match goal with H : context [field ?l ?f ?w ?s] |- _ => pose proof (length_field l f w s) end; lia).
  all: try (erewrite num_text_says; [done|auto| |done|eassumption]; first [apply Hu|rewrite <- Hm; case_match; apply uint_range; lia]).
  2: done.
  erewrite num_text_says; [done|auto| | |eassumption].
  - pose proof (wrap_range v) as Hwr. unfold is_ulong, is_uint in *. lia.
  - unfold REGBYTES. destruct XLEN_cases as [E|E]; rewrite E; done.
Qed.

Lemma digits_loop_shape (room : nat) (upper : bool) (base v : Z) (tmp : list Z) :
  2 <= base -> 0 <= v -> digits_loop room (digits upper) v base = Some tmp ->
  (last tmp = Some 48 -> tmp = [48] /\ v = 0) /\ Forall (fun c => c <= 57 \/ if upper then c <= 70 else 97 <= c) tmp.
Proof.
  intros Hb. revert v tmp. induction room as [|room IH]; intros v tmp Hv; cbn [digits_loop]; [done|].
  assert (0 <= v mod base < base) by (apply Z.mod_pos_bound; lia). pose proof (Z.div_mod v base) as Hdm.
  destruct (digits upper !! Z.to_nat (v mod base)) as [d|] eqn:Ed; cbn [mbind option_bind]; [|done].
  assert (d <= 57 \/ if upper then d <= 70 else 97 <= d) as Hd.
  { revert Ed. generalize (Z.to_nat (v mod base)) as k. intros k.
    destruct upper; do 16 (destruct k as [|k]; [intros [= <-]; lia|]); done. }
  destruct (truth (v / base)) eqn:Et.
  - destruct (digits_loop room _ (v / base) base) as [tmp'|] eqn:El; cbn [mbind option_bind]; [|done]. intros [= <-].
    destruct (IH (v / base) tmp' ltac:(apply Z.div_pos; lia) El) as [Hl Hf]. split; [|by constructor].
    apply truth_true in Et. destruct tmp' as [|e tmp'].
    + destruct (digits_loop_read room upper (v / base) base [] Hb ltac:(apply Z.div_pos; lia) El) as (_ & _ & ?). done.
    + intros HL. rewrite last_cons_cons in HL. by destruct (Hl HL) as [_ ?].
  - intros [= <-]. split; [|by apply Forall_singleton]. intros [= ->]. split; [done|].
    apply digits_value in Ed as [Ed _]. change (digit_value 48) with (Some 0) in Ed. injection Ed as Ed.
    unfold truth in Et. apply negb_false_iff, Z.eqb_eq in Et. specialize (Hdm ltac:(lia)). rewrite Et in Hdm. lia.
Qed.

Lemma numeral_exists (upper : bool) (base v : Z) : base = 10 \/ base = 16 -> is_uint 64 v -> exists ds, numeral base upper v ds.
Proof.
  intros Hb Hv. destruct (num_tmp_total v base false upper Hb Hv) as (tmp & E & _). unfold num_tmp in E.
  destruct (digits_loop TMP (digits upper) v base) as [ds|] eqn:El; [|done]. unfold is_uint in Hv. exists (rev ds).
  destruct (digits_loop_read TMP upper v base ds ltac:(lia) ltac:(lia) El) as (Hr & _ & Hne).
  destruct (digits_loop_shape TMP upper base v ds ltac:(lia) ltac:(lia) El) as [Hl Hf]. split_and!; [done| | |by apply Forall_rev].
  - intros Hz. apply Hne. by rewrite <- (rev_involutive ds), Hz.
  - intros Hh. destruct ds as [|e ds _] using rev_ind; [done|]. rewrite rev_app_distr in Hh. injection Hh as ->.
    rewrite last_snoc in Hl. by destruct (Hl eq_refl) as [-> _].
Qed.

Lemma item_says_exists (it : item) (args args' : list arg) :
  item_ok it -> arg_fits it args args' -> exists t, item_says it args t args'.
Proof.
  destruct it as [c|flags width len conv]; cbn [arg_fits]; [intros _ ->; eexists; constructor|]. intros (_ & _ & _ & Hz).
  pose proof (lmod_bits_of len Hz) as Hb. pose proof (fun v => uint_lmod (lmod_of len) v) as Hu.
  pose proof (fun v => magnitude_lmod (lmod_of len) v) as Hm. cbv zeta in Hm. rewrite Hb in Hu, Hm. destruct conv.
  - intros [c ->]. eexists; constructor.
  - intros [s ->]. eexists; constructor.
  - intros (v & -> & Hv). destruct (numeral_exists false 10 (Z.abs (sint (len_bits len) v))) as [ds Hds]; [auto| |eexists; by constructor].
    rewrite <- Hm. case_match; apply uint_range; lia.
  - intros (v & ->). destruct (numeral_exists false 10 (uint (len_bits len) v)) as [ds Hds]; [auto|apply Hu|eexists; by constructor].
  - intros (v & ->). destruct (numeral_exists upper 16 (uint (len_bits len) v)) as [ds Hds]; [auto|apply Hu|eexists; by constructor].
  - intros (v & ->). destruct (numeral_exists false 16 (wrap v)) as [ds Hds]; [auto| |eexists; by constructor].
    pose proof (wrap_range v) as Hw. unfold is_ulong, is_uint in *. pose proof XLEN_bounds. pose proof (pow2_le XLEN 64). lia.
  - intros ->. eexists; constructor.
Qed.

Lemma items_say_exists (items : list item) (args : list arg) :
  Forall item_ok items -> args_fit items args -> exists t, items_say items args t.
Proof.
  intros Hok. revert args. induction Hok as [|it items Hi _ IH]; intros args; [eexists; constructor|]. intros (args' & Hf & Hfs).
  destruct (item_says_exists it args args' Hi Hf) as [t Ht]. destruct (IH args' Hfs) as [t' Ht']. eexists. by econstructor.
Qed.

Lemma items_text (items : list item) (args : list arg) (t : list Z) :
  Forall item_ok items -> items_say items args t -> Z.of_nat (length t) < 2 ^ 31 ->
  printf_text (items ≫= item_fmt) args = Some t.
Proof.
  intros Hok Hs Hlen. unfold printf_text. rewrite items_directives by done. revert Hok Hlen.
  induction Hs as [|it items args args' t t' Hi _ IH]; intros Hok Hlen; [done|]. inversion_clear Hok as [|? ? Ho Hos].
  rewrite length_app in Hlen. rewrite fmap_cons. cbn [directives_text].
  rewrite (item_directive_text _ _ _ _ Ho Hi) by lia. cbn [mbind option_bind]. rewrite IH by (done || lia). done.
Qed.

End Printf.

(** "%05d" of -5 is "000-5": the sign is behind the zeros it is filled with. *)
Theorem zeros_before_sign : @printf_text RV64 [37; 48; 53; 100] [Num 32 (-5)] = Some [48; 48; 48; 45; 53].
Proof. reflexivity. Qed.

(** "%zu" takes 64 bits; a [size_t] has 32 on RV32. *)
Theorem size_t_not_taken : @printf_text RV32 [37; 122; 117] [Num 32 7] = None /\ @printf_text RV64 [37; 122; 117] [Num 64 7] = Some [55].
Proof. split; reflexivity. Qed.


(** "%-4s=%d" into six bytes: five characters and a NUL of the eight. *)
Definition example_items : list item :=
  [Field [45] [52] LenNone CStr; Plain 61; Field [] [] LenNone (CDec false)].
Definition example_args : list arg := [Str (Some [120; 121]); Num 32 (-12)].

Lemma example_items_ok : Forall (@item_ok RV64) example_items.
Proof.
  repeat apply Forall_cons_2; [| | |apply Forall_nil_2]; [split_and!|done|split_and!]; try done.
  - apply Forall_singleton. by left.
  - by exists 4.
  - by exists 0.
Qed.

Lemma example_args_fit : @args_fit RV64 example_items example_args.
Proof.
  exists [Num 32 (-12)]. split; [by eexists|]. exists [Num 32 (-12)]. split; [done|].
  exists []. split; [exists (-12); split; [done|]|done]. intros _ H. by apply not_elem_of_nil in H.
Qed.

Lemma example_items_say : @items_say RV64 example_items example_args [120; 121; 32; 32; 61; 45; 49; 50].
Proof.
  change [120; 121; 32; 32; 61; 45; 49; 50] with ([120; 121; 32; 32] ++ [61] ++ [45; 49; 50] ++ []).
  eapply SayMore; [apply (SayStr [45] [52])|]. eapply SayMore; [apply SayPlain|]. eapply SayMore; [|apply SayEnd].
  apply (SayDec [] [] LenNone false (-12) [49; 50] []); [|intros _ H; by apply not_elem_of_nil in H].
  split_and!; [done|done|done|]. repeat apply Forall_cons_2; [lia|lia|apply Forall_nil_2].
Qed.


(** "%-6ld" of the smallest long of RV32. *)
Lemma printf_number_roundtrip_witness :
  exists t, @directive_text RV32 (Conv true false 6 1 100) [Num 32 (2 ^ 31)] = Some (t, []) /\
    read_number 10 (strip t) = Some (- 2 ^ 31).
Proof.
  destruct (@printf_number_roundtrip RV32 true false 6 1 (2 ^ 31) ltac:(done)) as ((t & Ht & Hr) & _).
  exists t. split; [exact Ht|exact Hr].
Defined.
