(* ===== verification/Csr.v ===== *)
(** Control and status registers: the access macros of
    [arch/riscv/include/arch/csr.h] over a register file that maps CSR
    numbers to their values.  A register that was never written reads as
    zero, its value out of reset. *)

From S2P Require Import Prelude Arch.

#[local] Open Scope Z_scope.

Abbreviation csr_file := (gmap Z Z).

Section Csr.
Context {AR : Arch}.

Definition csr_read (c : csr_file) (csr : Z) : Z := default 0 (c !! csr).
Definition csr_write (c : csr_file) (csr val : Z) : csr_file := <[csr := wrap val]> c.
Definition csr_set (c : csr_file) (csr val : Z) : csr_file :=
  csr_write c csr (Z.lor (csr_read c csr) val).
Definition csr_clear (c : csr_file) (csr val : Z) : csr_file :=
  csr_write c csr (Z.land (csr_read c csr) (unot val)).

(** Every register holds a word. *)
Definition csr_wf (c : csr_file) : Prop := map_Forall (fun _ v => is_ulong v) c.

Lemma csr_read_write (c : csr_file) (csr val csr' : Z) :
  csr_read (csr_write c csr val) csr' =
  if decide (csr = csr') then wrap val else csr_read c csr'.
Proof.
  unfold csr_read, csr_write. rewrite lookup_insert. case_decide; done.
Qed.

Lemma csr_read_wf (c : csr_file) (csr : Z) : csr_wf c -> is_ulong (csr_read c csr).
Proof.
  intros Hwf. unfold csr_read. destruct (c !! csr) as [v|] eqn:E; cbn.
  - by apply (Hwf csr).
  - split; [lia|apply pow_XLEN_pos].
Qed.

Lemma csr_write_wf (c : csr_file) (csr val : Z) : csr_wf c -> csr_wf (csr_write c csr val).
Proof. intros Hwf. apply map_Forall_insert_2; [apply wrap_range|done]. Qed.

Lemma csr_set_wf (c : csr_file) (csr val : Z) : csr_wf c -> csr_wf (csr_set c csr val).
Proof. apply csr_write_wf. Qed.

Lemma csr_clear_wf (c : csr_file) (csr val : Z) : csr_wf c -> csr_wf (csr_clear c csr val).
Proof. apply csr_write_wf. Qed.

Lemma csr_wf_empty : csr_wf ∅.
Proof. apply map_Forall_empty. Qed.
End Csr.

Create HintDb csr.
#[export] Hint Resolve csr_write_wf csr_set_wf csr_clear_wf csr_wf_empty : csr.

(** ** Numbers and fields ([csr.h]) *)

Definition MSTATUS_SIE_BIT : Z := 1.
Definition MSTATUS_SPIE_BIT : Z := 5.
Definition MSTATUS_MPIE_BIT : Z := 7.
Definition MSTATUS_SPP_BIT : Z := 8.
Definition MSTATUS_MPP_SHIFT : Z := 11.
Definition MSTATUS_MPRV_BIT : Z := 17.
Definition MSTATUS_SDT_BIT : Z := 24.
Definition MSTATUS_MPV_BIT : Z := 39. (* RV64 *)
Definition MSTATUSH_MPV_BIT : Z := 7. (* RV32 *)
Definition HSTATUS_SPV_BIT : Z := 7.
Definition HSTATUS_SPVP_BIT : Z := 8.
Definition ENVCFG_DTE_BIT : Z := 59.

Definition CSR_SIE : Z := 0x104.
Definition CSR_STVEC : Z := 0x105.
Definition CSR_SCOUNTEREN : Z := 0x106.
Definition CSR_SSCRATCH : Z := 0x140.
Definition CSR_SEPC : Z := 0x141.
Definition CSR_SCAUSE : Z := 0x142.
Definition CSR_STVAL : Z := 0x143.
Definition CSR_SATP : Z := 0x180.
Definition CSR_MSTATUS : Z := 0x300.
Definition CSR_MEDELEG : Z := 0x302.
Definition CSR_MIDELEG : Z := 0x303.
Definition CSR_MIE : Z := 0x304.
Definition CSR_MCOUNTEREN : Z := 0x306.
Definition CSR_MENVCFG : Z := 0x30a.
Definition CSR_MSTATUSH : Z := 0x310.
Definition CSR_MIEH : Z := 0x314.
Definition CSR_MENVCFGH : Z := 0x31a.
Definition CSR_MIP : Z := 0x344.
Definition CSR_HSTATUS : Z := 0x600.

(** [(reg & mask) / (mask & ~(mask - 1))] ([util.h]) *)
Definition get_field_ul {AR : Arch} (reg mask : Z) : Z :=
  Z.land reg mask / Z.land mask (unot (mask -! 1)).
Definition set_field_ul {AR : Arch} (reg mask val : Z) : Z :=
  Z.lor (Z.land reg (unot mask)) (Z.land (val *! Z.land mask (unot (mask -! 1))) mask).

(** ** The counter overflow interrupt as an event ([pmu.c]) *)

Definition IRQ_LCOF : Z := 13. (* IRQ_PMU_OVF *)

(** The part of [struct pmu_hart] that says where the interrupt goes:
    [sse_enabled] and [sse_saved_ie]. *)
Record overflow_route : Set := OverflowRoute { or_enabled : bool; or_saved_ie : bool }.

(** [pmu_sse_enable] and [pmu_sse_complete], on the registers of the hart and
    that part of its [struct pmu_hart]. *)
Definition overflow_enable {AR : Arch} (c : csr_file) (o : overflow_route) (enable : bool) : csr_file * overflow_route :=
  let ovf := BIT IRQ_LCOF in
  if Bool.eqb enable (or_enabled o) then (c, o)
  else if enable
  then (csr_set (csr_clear c CSR_MIDELEG ovf) CSR_MIE ovf, OverflowRoute true (truth (Z.land (csr_read c CSR_MIE) ovf)))
  else
    let c := csr_set (csr_clear c CSR_MIE ovf) CSR_MIDELEG ovf in
    (if or_saved_ie o then csr_set c CSR_MIE ovf else c, OverflowRoute false (or_saved_ie o)).

Definition overflow_complete {AR : Arch} (c : csr_file) (o : overflow_route) : csr_file :=
  if or_enabled o then csr_set c CSR_MIE (BIT IRQ_LCOF) else c.
