(* ===== verification/Fields.v ===== *)
(** Fields of a register: single bits and the two-bit MPP, as the code sets,
    clears and tests them, with the tactics that compute a field after any
    sequence of such updates; and the register file of a trap. *)

From S2P Require Import Prelude Arch Csr.
From Stdlib Require Import Btauto.

#[local] Open Scope Z_scope.

(** * Fields of a register *)

Section Bits.
Context {AR : Arch}.

Definition bit (v n : Z) : bool := truth (Z.land v (BIT n)).
Definition bit_on (v n : Z) : Z := Z.lor v (BIT n).
Definition bit_off (v n : Z) : Z := Z.land v (unot (BIT n)).
Definition MSTATUS_MPP : Z := 3 * 2 ^ 11.


Lemma bit_testbit (v k : Z) : 0 <= k < XLEN -> bit v k = Z.testbit v k.
Proof. intros Hk. unfold bit. rewrite BIT_small by done. apply truth_bit. lia. Qed.

Lemma bit_on_ulong (v k : Z) : is_ulong v -> is_ulong (bit_on v k).
Proof. intros Hv. apply is_ulong_lor; [done|apply wrap_range]. Qed.

Lemma bit_off_ulong (v k : Z) : is_ulong v -> is_ulong (bit_off v k).
Proof. intros Hv. apply is_ulong_land; [done|apply wrap_range]. Qed.

Lemma testbit_on (v k i : Z) : 0 <= k < XLEN -> 0 <= i -> Z.testbit (bit_on v k) i = (i =? k) || Z.testbit v i.
Proof. intros Hk Hi. unfold bit_on. rewrite BIT_small by done. apply testbit_set; lia. Qed.

Lemma testbit_off (v k i : Z) : is_ulong v -> 0 <= k < XLEN -> 0 <= i ->
  Z.testbit (bit_off v k) i = negb (i =? k) && Z.testbit v i.
Proof. intros Hv Hk Hi. unfold bit_off. rewrite land_unot, BIT_small by done. apply testbit_clear; lia. Qed.

Lemma off_two (v j k : Z) : is_ulong v -> Z.land v (unot (Z.lor (BIT j) (BIT k))) = bit_off (bit_off v j) k.
Proof.
  intros Hv. pose proof (bit_off_ulong v j Hv) as Hj. unfold bit_off in *.
  rewrite (land_unot v (Z.lor _ _)), (land_unot (Z.land v _)), land_unot by done.
  bitwise. destruct (Z.testbit v i), (Z.testbit (BIT j) i), (Z.testbit (BIT k) i); done.
Qed.

Lemma MPP_bits : MSTATUS_MPP = Z.lor (BIT 11) (BIT 12).
Proof. unfold MSTATUS_MPP. pose proof XLEN_bounds. rewrite !BIT_small by lia. done. Qed.

Lemma off_MPP (v : Z) : is_ulong v -> Z.land v (unot MSTATUS_MPP) = bit_off (bit_off v 11) 12.
Proof. intros Hv. rewrite MPP_bits. by apply off_two. Qed.

Lemma on_PRV_S (v : Z) : Z.lor v (ushl PRV_S MSTATUS_MPP_SHIFT) = bit_on v 11.
Proof. done. Qed.

Lemma off_three (v a b : Z) : is_ulong v ->
  Z.land v (unot (Z.lor (Z.lor (BIT a) (BIT b)) MSTATUS_MPP)) = bit_off (bit_off (bit_off (bit_off v a) b) 11) 12.
Proof.
  intros Hv. rewrite <- off_MPP by (by apply bit_off_ulong, bit_off_ulong). rewrite <- off_two by done.
  assert (is_ulong (Z.land v (unot (Z.lor (BIT a) (BIT b))))) as Hab by (apply is_ulong_land; [done|apply wrap_range]).
  rewrite (land_unot v (Z.lor (Z.lor _ _) _)), (land_unot (Z.land v _)), land_unot by done.
  bitwise. destruct (Z.testbit v i); cbn; [|done]. destruct (Z.testbit (BIT a) i), (Z.testbit (BIT b) i); done.
Qed.

Lemma MPP_value (v : Z) : is_ulong v -> Z.testbit v 12 = false ->
  get_field_ul v MSTATUS_MPP = if Z.testbit v 11 then PRV_S else PRV_U.
Proof.
  intros Hv H12. unfold get_field_ul.
  assert (Z.land MSTATUS_MPP (unot (MSTATUS_MPP -! 1)) = 2 ^ 11) as ->.
  { destruct XLEN_cases as [E|E]; unfold unot, usub, wrap; rewrite E; reflexivity. }
  assert (Z.land v MSTATUS_MPP = if Z.testbit v 11 then 2 ^ 11 else 0) as ->; [|by destruct (Z.testbit v 11)].
  rewrite MPP_bits. pose proof XLEN_bounds. rewrite !BIT_small by lia. bitwise. rewrite !Z.pow2_bits_eqb by lia.
  destruct (Z.eqb_spec 11 i) as [E1|], (Z.eqb_spec 12 i) as [E2|]; try lia; cbn [orb].
  - rewrite <- E1. destruct (Z.testbit v 11); done.
  - rewrite <- E2, H12. destruct (Z.testbit v 11); done.
  - rewrite andb_false_r. destruct (Z.testbit v 11); [|by rewrite Z.bits_0].
    rewrite Z.pow2_bits_eqb by lia. destruct (Z.eqb_spec 11 i); [lia|done].
Qed.

Lemma MPP_is_S (v : Z) : is_ulong v -> Z.testbit v 12 = false -> (get_field_ul v MSTATUS_MPP =? PRV_S) = Z.testbit v 11.
Proof. intros Hv H12. rewrite MPP_value by done. by destruct (Z.testbit v 11). Qed.
End Bits.

(** Words in fields, and the bits they have. *)
Create HintDb fields.
#[export] Hint Resolve bit_on_ulong bit_off_ulong : fields.

Ltac ulong :=
  repeat match goal with
  | |- is_ulong (bit_on _ _) => apply bit_on_ulong
  | |- is_ulong (bit_off _ _) => apply bit_off_ulong
  | |- is_ulong (if ?b then _ else _) => destruct b
  end; try done.

Ltac fields :=
  repeat match goal with
  | |- context [Z.testbit (if ?b then ?x else ?y) ?i] =>
      replace (Z.testbit (if b then x else y) i) with (if b then Z.testbit x i else Z.testbit y i) by (by destruct b)
  | |- context [Z.testbit (bit_on ?v ?k) ?i] => rewrite (testbit_on v k i) by lia
  | |- context [Z.testbit (bit_off ?v ?k) ?i] => rewrite (testbit_off v k i) by (lia || ulong)
  end.

(** Decide the comparisons of numerals, and what is left over booleans. *)
Ltac bools :=
  repeat match goal with
  | |- context [?a =? ?b] =>
      let r := eval vm_compute in (a =? b) in
      lazymatch r with true => idtac | false => idtac end; change (a =? b) with r
  end; try btauto.

(** Whether S-mode has trapped traps in S-mode ([hart.c]). *)
Definition hart_smode_double_trap_enabled {AR : Arch} {F : Features} (c : csr_file) : bool :=
  hart_has HART_FEAT_SSDBLTRP &&
  match arch_xlen with
  | RV64 => bit (csr_read c CSR_MENVCFG) ENVCFG_DTE_BIT
  | RV32 => bit (csr_read c CSR_MENVCFGH) (ENVCFG_DTE_BIT - 32)
  end.

(** * The registers of a trap *)

(** [struct trap_regs] of [arch/riscv/include/arch/trap.h]: x0 to x31 by
    number, mepc and mstatus. *)
Record trap_regs : Set := TrapRegs { tr_x : list Z; tr_mepc : Z; tr_mstatus : Z }.

#[export] Instance trap_regs_eta : Settable trap_regs :=
  fun r => TrapRegs (tr_x r) (tr_mepc r) (tr_mstatus r).

(** Register numbers *)
Definition A0 : Z := 10.
Definition A1 : Z := 11.
Definition A2 : Z := 12.
Definition A3 : Z := 13.
Definition A4 : Z := 14.
Definition A5 : Z := 15.
Definition A6 : Z := 16.
Definition A7 : Z := 17.

(** [*trap_reg(regs, n)] *)
Definition trap_reg (regs : trap_regs) (n : Z) : Z := default 0 (tr_x regs !! Z.to_nat n).
Definition trap_reg_set (regs : trap_regs) (n v : Z) : trap_regs :=
  regs <| tr_x := <[Z.to_nat n := v]> (tr_x regs) |>.

(** 32 registers, all words. *)
Definition trap_regs_wf {AR : Arch} (regs : trap_regs) : Prop :=
  length (tr_x regs) = 32%nat /\ Forall is_ulong (tr_x regs) /\
  is_ulong (tr_mepc regs) /\ is_ulong (tr_mstatus regs).

Lemma trap_reg_set_get (regs : trap_regs) (n m v : Z) :
  length (tr_x regs) = 32%nat -> 0 <= n < 32 -> 0 <= m ->
  trap_reg (trap_reg_set regs n v) m = if decide (n = m) then v else trap_reg regs m.
Proof.
  intros Hl Hn Hm. unfold trap_reg, trap_reg_set, field_update. cbn [tr_x]. case_decide as E.
  - subst m. rewrite list_lookup_insert_eq by lia. done.
  - rewrite list_lookup_insert_ne by lia. done.
Qed.

(** A register written with the value it had. *)
Lemma trap_reg_set_id (regs : trap_regs) (n v : Z) :
  length (tr_x regs) = 32%nat -> 0 <= n < 32 -> trap_reg regs n = v -> trap_reg_set regs n v = regs.
Proof.
  intros Hl Hn <-. destruct regs as [x pc ms]. unfold trap_reg_set, trap_reg, field_update. cbn [tr_x tr_mepc tr_mstatus] in *.
  f_equal. destruct (lookup_lt_is_Some_2 x (Z.to_nat n)) as [w Hw]; [lia|]. rewrite Hw. cbn. by apply list_insert_id.
Qed.

Lemma trap_reg_set_set (regs : trap_regs) (n v w : Z) :
  trap_reg_set (trap_reg_set regs n v) n w = trap_reg_set regs n w.
Proof. unfold trap_reg_set, field_update. cbn. f_equal. by rewrite list_insert_insert_eq. Qed.
