(* ===== verification/Pmp.v ===== *)
(** Physical memory protection, [arch/riscv/runtime/pmp.c]: the PMP CSRs
    as the monitor writes them; how a hart reads them when it checks an
    access is in [PmpHw.v].

    - [pmpaddr_write], [pmpcfg_update], [pmp_entry_cfg], [pmp_entry_set]:
      raw access to one entry, through the packed pmpcfg registers;
    - [pmp_grain_set]: the granularity from a probe of pmpaddr;
    - [pmp_range_set], [pmp_all_set]: a range as a NAPOT entry or an
      OFF + TOR pair. *)

From S2P Require Import Prelude Arch Csr.

#[local] Open Scope Z_scope.

(** pmpcfg fields and CSR numbers ([csr.h]) *)
Definition PMP_R : Z := 0x01.
Definition PMP_W : Z := 0x02.
Definition PMP_X : Z := 0x04.
Definition PMP_A_TOR : Z := 0x08.
Definition PMP_A_NA4 : Z := 0x10.
Definition PMP_A_NAPOT : Z := 0x18.
Definition PMP_L : Z := 0x80.
Definition CSR_PMPCFG0 : Z := 0x3a0.
Definition CSR_PMPADDR0 : Z := 0x3b0.

Section Pmp.
Context {AR : Arch}.

Definition PMP_CFG_PER_REG : Z := XLEN / 8.

(** The [switch] over the entry index: CSRs are selected by number. *)
Definition pmpaddr_write (c : csr_file) (idx val : Z) : csr_file :=
  if idx <? 16 then csr_write c (CSR_PMPADDR0 + idx) val else c.

Definition pmpcfg_update (c : csr_file) (idx cfg : Z) : csr_file :=
  let shift := 8 * (idx mod PMP_CFG_PER_REG) in
  let mask := ushl 0xff shift in
  let val := ushl cfg shift in
  let reg := idx / PMP_CFG_PER_REG * (PMP_CFG_PER_REG / 4) in
  if reg <? 4
  then csr_set (csr_clear c (CSR_PMPCFG0 + reg) mask) (CSR_PMPCFG0 + reg) val
  else c.

Definition pmp_entry_cfg (c : csr_file) (idx cfg : Z) : csr_file :=
  if idx <? 16 then pmpcfg_update c idx cfg else c.

Definition pmp_entry_set (c : csr_file) (idx pmpaddr cfg : Z) : csr_file :=
  if 16 <=? idx then c
  else pmpcfg_update (pmpaddr_write (pmpcfg_update c idx 0) idx pmpaddr) idx cfg.

(** The loop halves [pmpaddr_ones] until its lowest bit is set: at most
    [XLEN] rounds. *)
Fixpoint grain_loop (fuel : nat) (pmpaddr_ones grain : Z) : Z :=
  match fuel with
  | O => grain
  | S fuel =>
      if truth pmpaddr_ones && (Z.land pmpaddr_ones 1 =? 0)
      then grain_loop fuel (ushr pmpaddr_ones 1) (ushl grain 1)
      else grain
  end.

Definition pmp_grain_set (pmpaddr_ones : Z) : Z :=
  grain_loop (Z.to_nat XLEN) pmpaddr_ones 4.

(** The number of entries used comes with the new register file. *)
Definition pmp_range_set (grain : Z) (c : csr_file) (idx base size perm : Z) : csr_file * Z :=
  if (8 <=? size) && IS_POWER_OF_TWO size && IS_ALIGNED base size
  then (pmp_entry_set c idx (Z.lor (ushr base 2) (ushr size 3 -! 1)) (Z.lor PMP_A_NAPOT perm), 1)
  else
    let c := pmp_entry_set c idx (ushr base 2) 0 in
    let c := pmp_entry_set c (idx + 1) (ushr (ROUNDUP2 (base +! size) grain) 2)
               (Z.lor PMP_A_TOR perm) in
    (c, 2).

Definition pmp_all_set (c : csr_file) (idx perm : Z) : csr_file :=
  pmp_entry_set c idx (unot 0) (Z.lor PMP_A_NAPOT perm).

(** ** Reading the entries back *)

Definition pmpaddr_of (c : csr_file) (idx : Z) : Z := csr_read c (CSR_PMPADDR0 + idx).

Definition pmpcfg_of (c : csr_file) (idx : Z) : Z :=
  let reg := idx / PMP_CFG_PER_REG * (PMP_CFG_PER_REG / 4) in
  Z.land (Z.shiftr (csr_read c (CSR_PMPCFG0 + reg)) (8 * (idx mod PMP_CFG_PER_REG))) 0xff.

Definition pmp_entry (c : csr_file) (idx : Z) : Z * Z := (pmpaddr_of c idx, pmpcfg_of c idx).

Lemma PMP_CFG_PER_REG_cases : PMP_CFG_PER_REG = 4 \/ PMP_CFG_PER_REG = 8.
Proof. unfold PMP_CFG_PER_REG. destruct XLEN_cases as [-> | ->]; auto. Qed.

(** The shift of an entry's byte stays inside the register. *)
Lemma cfg_shift_bounds (idx : Z) :
  0 <= 8 * (idx mod PMP_CFG_PER_REG) /\ 8 * (idx mod PMP_CFG_PER_REG) + 8 <= XLEN.
Proof.
  unfold PMP_CFG_PER_REG.
  destruct XLEN_cases as [-> | ->]; [change (32 / 8) with 4|change (64 / 8) with 8];
    Z.div_mod_to_equations; lia.
Qed.

Lemma pmpcfg_update_wf (c : csr_file) (idx cfg : Z) : csr_wf c -> csr_wf (pmpcfg_update c idx cfg).
Proof. intros. unfold pmpcfg_update. case_match; auto with csr. Qed.

Lemma pmp_entry_set_wf (c : csr_file) (idx a cfg : Z) :
  csr_wf c -> csr_wf (pmp_entry_set c idx a cfg).
Proof.
  intros. unfold pmp_entry_set, pmpaddr_write. repeat case_match; eauto using pmpcfg_update_wf, csr_write_wf.
Qed.

(** The byte that is put in a register, and the bytes around it. *)
Lemma byte_update (v cfg s t : Z) :
  is_ulong v -> 0 <= cfg < 2 ^ 8 -> 0 <= s -> s + 8 <= XLEN -> 0 <= t -> t + 8 <= XLEN ->
  s = t \/ s + 8 <= t \/ t + 8 <= s ->
  Z.land (Z.shiftr (wrap (Z.lor (wrap (Z.land v (unot (ushl 0xff s)))) (ushl cfg s))) t) 0xff =
  if decide (s = t) then cfg else Z.land (Z.shiftr v t) 0xff.
Proof.
  intros Hv Hc Hs Hs8 Ht Ht8 Hst. pose proof XLEN_bounds.
  unfold ushl, unot, wrap. change 0xff with (2 ^ 8 - 1). bitwise.
  destruct (Z.ltb_spec i 8) as [Hi8|Hi8]; autorewrite with bits.
  - destruct (Z.ltb_spec (i + t) XLEN); [|lia]. cbn.
    case_decide as Hd.
    + subst t. replace (i + s - s) with i by lia.
      rewrite testbit_ones by lia. destruct (Z.ltb_spec i 8); [|lia].
      cbn. by rewrite andb_false_r.
    + autorewrite with bits. rewrite (testbit_ones 8 i) by lia.
      destruct (Z.ltb_spec i 8); [|lia].
      destruct Hst as [->|[Hlt|Hlt]]; [done| |].
      * rewrite (testbit_high 8 cfg), testbit_ones by lia.
        destruct (Z.ltb_spec (i + t - s) 8); [lia|]. cbn. by rewrite !andb_true_r, orb_false_r.
      * rewrite !(Z.testbit_neg_r _ (i + t - s)) by lia. cbn. by rewrite !andb_true_r, orb_false_r.
  - case_decide; autorewrite with bits.
    + symmetry. apply (testbit_high 8); lia.
    + destruct (Z.ltb_spec i 8); [lia|]. by rewrite andb_false_r.
Qed.

Lemma pmpcfg_of_update (c : csr_file) (idx cfg j : Z) :
  csr_wf c -> 0 <= idx < 16 -> 0 <= j < 16 -> 0 <= cfg < 2 ^ 8 ->
  pmpcfg_of (pmpcfg_update c idx cfg) j = if decide (idx = j) then cfg else pmpcfg_of c j.
Proof.
  intros Hc Hi Hj Hcfg. unfold pmpcfg_of, pmpcfg_update.
  pose proof (cfg_shift_bounds idx) as [Hs1 Hs2]. pose proof (cfg_shift_bounds j) as [Ht1 Ht2].
  set (s := 8 * (idx mod _)) in *. set (t := 8 * (j mod _)) in *.
  assert (idx / PMP_CFG_PER_REG * (PMP_CFG_PER_REG / 4) < 4) as Hr.
  { destruct PMP_CFG_PER_REG_cases as [-> | ->]; [change (4 / 4) with 1|change (8 / 4) with 2];
    Z.div_mod_to_equations; lia. }
  apply Z.ltb_lt in Hr as ->. unfold csr_set, csr_clear.
  set (r := CSR_PMPCFG0 + idx / _ * _). set (r' := CSR_PMPCFG0 + j / _ * _).
  destruct (decide (r = r')) as [Hreg|Hreg].
  - rewrite <- Hreg, !csr_read_write, !decide_True by done.
    subst r r' s t. rewrite byte_update; [|by apply csr_read_wf|done..|lia].
    repeat case_decide; try done; exfalso;
      destruct PMP_CFG_PER_REG_cases as [E|E]; rewrite E in *;
      [change (4 / 4) with 1 in *|change (8 / 4) with 2 in *|change (4 / 4) with 1 in *|change (8 / 4) with 2 in *];
      Z.div_mod_to_equations; lia.
  - rewrite csr_read_write, decide_False by done. rewrite csr_read_write, decide_False by done.
    rewrite decide_False; [done|]. intros ->. by apply Hreg.
Qed.

(** pmpaddr and pmpcfg are different registers. *)
Lemma pmpaddr_of_cfg_update (c : csr_file) (idx cfg j : Z) :
  0 <= j -> pmpaddr_of (pmpcfg_update c idx cfg) j = pmpaddr_of c j.
Proof.
  intros Hj. unfold pmpaddr_of, pmpcfg_update. destruct (Z.ltb_spec (idx / PMP_CFG_PER_REG * (PMP_CFG_PER_REG / 4)) 4) as [Hr|]; [|done].
  unfold csr_set, csr_clear.
  rewrite !csr_read_write, !decide_False by (unfold CSR_PMPCFG0, CSR_PMPADDR0; lia). done.
Qed.

Lemma pmpcfg_of_addr_write (c : csr_file) (idx val j : Z) :
  0 <= idx -> 0 <= j < 16 -> pmpcfg_of (pmpaddr_write c idx val) j = pmpcfg_of c j.
Proof.
  intros Hi Hj. unfold pmpcfg_of, pmpaddr_write. destruct (Z.ltb_spec idx 16); [|done].
  rewrite csr_read_write, decide_False; [done|].
  unfold CSR_PMPCFG0, CSR_PMPADDR0.
  destruct PMP_CFG_PER_REG_cases as [-> | ->]; [change (4 / 4) with 1|change (8 / 4) with 2];
    Z.div_mod_to_equations; lia.
Qed.

(** What [pmp_entry_set] does to the entries: the one it names, whole, and
    no other. *)
Lemma pmp_entry_set_view (c : csr_file) (idx a cfg j : Z) :
  csr_wf c -> 0 <= idx < 16 -> 0 <= j < 16 -> 0 <= cfg < 2 ^ 8 ->
  pmp_entry (pmp_entry_set c idx a cfg) j =
  if decide (idx = j) then (wrap a, cfg) else pmp_entry c j.
Proof.
  intros Hc Hi Hj Hcfg. unfold pmp_entry, pmp_entry_set.
  destruct (Z.leb_spec 16 idx); [lia|].
  assert (csr_wf (pmpaddr_write (pmpcfg_update c idx 0) idx a)).
  { unfold pmpaddr_write. case_match; eauto using pmpcfg_update_wf, csr_write_wf. }
  rewrite pmpaddr_of_cfg_update, pmpcfg_of_update, pmpcfg_of_addr_write, pmpcfg_of_update by (done || lia).
  unfold pmpaddr_of at 1, pmpaddr_write. destruct (Z.ltb_spec idx 16); [|lia].
  rewrite csr_read_write. repeat case_decide; try lia; try done.
  f_equal. by apply pmpaddr_of_cfg_update; lia.
Qed.

(** A run of entries, from [idx] on. *)
Fixpoint pmp_entries_set (c : csr_file) (idx : Z) (es : list (Z * Z)) : csr_file :=
  match es with
  | [] => c
  | (a, cfg) :: es => pmp_entries_set (pmp_entry_set c idx a cfg) (idx + 1) es
  end.

(** The pairs (pmpaddr, cfg) that are words and bytes. *)
Definition entry_wf (e : Z * Z) : Prop := is_ulong (fst e) /\ 0 <= snd e < 2 ^ 8.

Lemma pmp_entries_set_app (c : csr_file) (idx : Z) (es es' : list (Z * Z)) :
  pmp_entries_set c idx (es ++ es') =
  pmp_entries_set (pmp_entries_set c idx es) (idx + Z.of_nat (length es)) es'.
Proof.
  revert c idx. induction es as [|[a cfg] es IH]; intros c idx; cbn.
  - f_equal; lia.
  - rewrite IH. f_equal. lia.
Qed.

Lemma pmp_entries_set_wf (c : csr_file) (idx : Z) (es : list (Z * Z)) :
  csr_wf c -> csr_wf (pmp_entries_set c idx es).
Proof.
  revert c idx. induction es as [|[a cfg] es IH]; intros c idx Hc; cbn; [done|].
  apply IH, pmp_entry_set_wf, Hc.
Qed.

Lemma pmp_entries_set_view (c : csr_file) (idx : Z) (es : list (Z * Z)) (j : Z) :
  csr_wf c -> 0 <= idx -> idx + Z.of_nat (length es) <= 16 -> 0 <= j < 16 -> Forall entry_wf es ->
  pmp_entry (pmp_entries_set c idx es) j =
  if decide (idx <= j < idx + Z.of_nat (length es))
  then default (0, 0) (es !! Z.to_nat (j - idx)) else pmp_entry c j.
Proof.
  intros Hc Hi Hl Hj Hes. revert c idx Hc Hi Hl. induction Hes as [|[a cfg] es [Ha Hcfg] Hes IH];
    intros c idx Hc Hi Hl; cbn in *.
  - rewrite decide_False by lia. done.
  - rewrite IH by (try lia; by apply pmp_entry_set_wf).
    rewrite pmp_entry_set_view by (done || lia). repeat case_decide; try lia; try done.
    + replace (Z.to_nat (j - idx)) with (S (Z.to_nat (j - (idx + 1)))) by lia. done.
    + subst j. replace (Z.to_nat (idx - idx)) with 0%nat by lia. cbn. by rewrite wrap_small.
Qed.

(** [pmp_range_set] and [pmp_all_set] as the entries they write. *)
Definition range_entries (grain base size perm : Z) : list (Z * Z) :=
  if (8 <=? size) && IS_POWER_OF_TWO size && IS_ALIGNED base size
  then [(Z.lor (ushr base 2) (ushr size 3 -! 1), Z.lor PMP_A_NAPOT perm)]
  else [(ushr base 2, 0); (ushr (ROUNDUP2 (base +! size) grain) 2, Z.lor PMP_A_TOR perm)].

Lemma pmp_range_set_entries (grain : Z) (c : csr_file) (idx base size perm : Z) :
  pmp_range_set grain c idx base size perm =
  (pmp_entries_set c idx (range_entries grain base size perm),
   Z.of_nat (length (range_entries grain base size perm))).
Proof. unfold pmp_range_set, range_entries. case_match; done. Qed.

Lemma ushr_roundup_range (x g : Z) : is_ulong (ushr (ROUNDUP2 x g) 2).
Proof.
  apply ushr_range; [lia|]. unfold ROUNDUP2. apply is_ulong_land; [apply wrap_range|].
  apply wrap_range.
Qed.

Lemma range_entries_wf (grain base size perm : Z) :
  is_ulong base -> is_ulong size -> 0 <= perm < 2 ^ 8 ->
  Forall entry_wf (range_entries grain base size perm).
Proof.
  intros Hb Hs Hp. assert (forall m, 0 <= m < 2 ^ 8 -> 0 <= Z.lor m perm < 2 ^ 8) as Hcfg.
  { intros. apply lor_bound; lia. }
  assert (is_ulong (ushr base 2)) as Hb2 by (apply ushr_range; [lia|exact Hb]).
  unfold range_entries. case_match.
  - apply Forall_singleton. split; cbn [fst snd].
    + apply is_ulong_lor; [exact Hb2|apply wrap_range].
    + apply Hcfg. unfold PMP_A_NAPOT; lia.
  - apply Forall_cons; split; [split; cbn [fst snd]; [exact Hb2|lia]|].
    apply Forall_singleton. split; cbn [fst snd]; [apply ushr_roundup_range|].
    apply Hcfg. unfold PMP_A_TOR; lia.
Qed.

(** ** The grain *)

Lemma grain_loop_odd (q : Z) (fuel : nat) (grain : Z) :
  0 <= q -> grain_loop fuel (2 * q + 1) grain = grain.
Proof.
  intros Hq. destruct fuel as [|fuel]; cbn [grain_loop]; [done|].
  replace (Z.land (2 * q + 1) 1) with 1; [by rewrite andb_false_r|].
  rewrite (land_low _ 1) by lia. change (2 ^ 1) with 2. rewrite Z.add_comm, Z.mul_comm, Z_mod_plus_full. done.
Qed.

Lemma grain_loop_spec (n : nat) (q k : Z) (fuel : nat) :
  0 <= q -> 0 <= k -> (n <= fuel)%nat -> k + Z.of_nat n < XLEN ->
  grain_loop fuel ((2 * q + 1) * 2 ^ Z.of_nat n) (2 ^ k) = 2 ^ (k + Z.of_nat n).
Proof.
  intros Hq. revert k fuel. induction n as [|n IH]; intros k fuel Hk Hf Hx.
  { rewrite Z.pow_0_r, Z.mul_1_r, Z.add_0_r. by apply grain_loop_odd. }
  destruct fuel as [|fuel]; [lia|]. cbn [grain_loop].
  rewrite Nat2Z.inj_succ, Z.pow_succ_r by lia. pose proof (pow2_pos (Z.of_nat n) ltac:(lia)) as Hp.
  replace ((2 * q + 1) * (2 * 2 ^ Z.of_nat n)) with (((2 * q + 1) * 2 ^ Z.of_nat n) * 2) by ring.
  set (v := (2 * q + 1) * 2 ^ Z.of_nat n). assert (0 < v) by (subst v; nia).
  assert (truth (v * 2) = true) as -> by (apply truth_true; lia).
  rewrite (land_low _ 1) by lia. change (2 ^ 1) with 2. rewrite Z_mod_mult. cbn [andb Z.eqb].
  unfold ushr, ushl. rewrite Z.shiftr_div_pow2, Z.shiftl_mul_pow2 by lia. change (2 ^ 1) with 2.
  rewrite Z.div_mul by lia. replace (2 ^ k * 2) with (2 ^ (k + 1)) by (rewrite Z.pow_add_r by lia; done).
  rewrite wrap_small.
  - subst v. rewrite IH by lia. f_equal. lia.
  - split; [pose proof (pow2_pos (k + 1)); lia|]. apply Z.pow_lt_mono_r; lia.
Qed.

(** the grain. When the lowest bit of pmpaddr that sticks is bit [G], the
    probe finds a grain of [2 ^ (G + 2)] bytes, the one the hardware
    matches by. *)
Theorem pmp_grain_set_spec (pmpaddr_ones G q : Z) :
  0 <= G -> G + 2 < XLEN -> 0 <= q -> pmpaddr_ones = (2 * q + 1) * 2 ^ G ->
  pmp_grain_set pmpaddr_ones = 2 ^ (G + 2).
Proof.
  intros HG Hx Hq ->. unfold pmp_grain_set. change 4 with (2 ^ 2).
  replace G with (Z.of_nat (Z.to_nat G)) at 1 by lia. rewrite grain_loop_spec by lia. f_equal. lia.
Qed.
End Pmp.

(** A 4 KiB grain: the low ten bits of pmpaddr read as zero. *)
Lemma pmp_grain_set_spec_witness : @pmp_grain_set RV64 (2 ^ 54 - 2 ^ 10) = 2 ^ 12.
Proof. apply (@pmp_grain_set_spec RV64 _ 10 (2 ^ 43 - 1)); vm_compute; congruence. Defined.
