(* ===== verification/PmpHw.v ===== *)
(** How a hart checks an access against its PMP entries (the RISC-V
    privileged architecture, "Physical Memory Protection", and the Smepmp
    extension): address matching with the grain of the implementation, the
    priority of the lowest-numbered entry, and the permissions an entry
    gives S/U-mode with and without [mseccfg.MML].

    This is the reference the programming of [Pmp.v] is measured against:
    [scan_range_entries] says which addresses the entries written by
    [pmp_range_set] match. *)

From S2P Require Import Prelude Arch Csr Pmp.

#[local] Open Scope Z_scope.

Inductive access : Set := Read | Write | Exec.

(** What the entries say of an access: no entry has any byte of it; the
    first that has some does not have all; or that entry's configuration. *)
Inductive verdict : Set := NoMatch | Partial | Match (cfg : Z).

Section Hw.
Context {AR : Arch}.
(** The grain is [2 ^ (G + 2)] bytes. *)
Context (G : Z).

(** pmpaddr holds bits 33:2 of an address on RV32, 55:2 on RV64. *)
Definition pmpaddr_bits : Z := match arch_xlen with RV32 => 32 | RV64 => 54 end.

(** Addresses the monitor can name: an [unsigned long], of which the
    hardware has 56 bits on RV64. *)
Definition phys_bits : Z := match arch_xlen with RV32 => 32 | RV64 => 56 end.

(** Bits of pmpaddr below the grain read as zero in a TOR entry... *)
Definition tor_bound (y : Z) : Z := Z.ldiff (y mod 2 ^ pmpaddr_bits) (2 ^ G - 1) * 4.

(** ... and as ones in a NAPOT entry, whose trailing ones give its size. *)
Definition napot_range (y : Z) : Z * Z :=
  let y := Z.lor (y mod 2 ^ pmpaddr_bits) (2 ^ Z.max 0 (G - 1) - 1) in
  let mask := Z.lxor y (y + 1) in
  let lo := Z.ldiff y mask * 4 in
  (lo, lo + (mask + 1) * 4).

Definition entry_range (prev : Z) (e : Z * Z) : option (Z * Z) :=
  let a := Z.land (snd e) PMP_A_NAPOT in
  if a =? 0 then None
  else if a =? PMP_A_TOR then
    if tor_bound prev <? tor_bound (fst e) then Some (tor_bound prev, tor_bound (fst e)) else None
  else if a =? PMP_A_NA4 then
    Some (fst e mod 2 ^ pmpaddr_bits * 4, fst e mod 2 ^ pmpaddr_bits * 4 + 4)
  else Some (napot_range (fst e)).

(** The lowest-numbered entry that matches any byte decides. *)
Fixpoint scan (prev : Z) (es : list (Z * Z)) (lo hi : Z) : verdict :=
  match es with
  | [] => NoMatch
  | e :: es =>
      match entry_range prev e with
      | Some (a, b) =>
          if overlaps lo hi a b
          then if within lo hi a b then Match (snd e) else Partial
          else scan (fst e) es lo hi
      | None => scan (fst e) es lo hi
      end
  end.

Definition cfg_bit (cfg m : Z) : bool := truth (Z.land cfg m).

(** S/U-mode's part of an entry. Without MML: its R, W, X bits. With MML:
    Smepmp's table; a locked rule is M-mode's but for the shared-region
    encodings. *)
Definition su_allows (mml : bool) (cfg : Z) (acc : access) : bool :=
  let r := cfg_bit cfg PMP_R in
  let w := cfg_bit cfg PMP_W in
  let x := cfg_bit cfg PMP_X in
  let plain := match acc with Read => r | Write => w | Exec => x end in
  if negb mml then plain
  else if cfg_bit cfg PMP_L then
    if negb r && w then match acc with Exec => true | _ => false end
    else if r && w && x then match acc with Read => true | _ => false end
    else false
  else
    if negb r && w then
      match acc with Read => true | Write => x | Exec => false end
    else plain.

(** An S/U-mode access to [[lo, hi)] is granted. Without a match it is not:
    there are entries. *)
Definition su_scan (mml : bool) (prev : Z) (es : list (Z * Z)) (lo hi : Z) (acc : access) : bool :=
  match scan prev es lo hi with
  | Match cfg => su_allows mml cfg acc
  | _ => false
  end.
Definition su_check (mml : bool) (es : list (Z * Z)) (lo hi : Z) (acc : access) : bool :=
  su_scan mml 0 es lo hi acc.

(** ** Trailing ones *)

Lemma phys_bits_bounds : phys_bits <= pmpaddr_bits + 2 /\ phys_bits <= XLEN /\ 32 <= phys_bits.
Proof. unfold phys_bits, pmpaddr_bits, XLEN. destruct arch_xlen; lia. Qed.

Lemma trailing_ones (y : Z) :
  0 <= y -> exists q t, 0 <= q /\ 0 <= t /\ y = q * 2 ^ (t + 1) + (2 ^ t - 1).
Proof.
  intros Hy. destruct (lowest_bit (y + 1)) as (t & q & Ht & Hq & E); [lia|].
  exists q, t. split_and!; [done..|]. rewrite Z.pow_add_r, Z.pow_1_r by lia. lia.
Qed.

Lemma trailing_ones_bits (q t i : Z) :
  0 <= q -> 0 <= t -> 0 <= i ->
  Z.testbit (q * 2 ^ (t + 1) + (2 ^ t - 1)) i = (i <? t) || (t <? i) && Z.testbit q (i - (t + 1)).
Proof.
  intros Hq Ht Hi. rewrite <- lor_disjoint_add.
  - autorewrite with bits. rewrite Z.mul_pow2_bits by lia.
    destruct (Z.ltb_spec i t), (Z.ltb_spec t i); cbn; try lia; rewrite ?orb_true_r, ?orb_false_r; try done.
    rewrite Z.testbit_neg_r by lia. done.
  - rewrite land_low by lia. rewrite Z.pow_add_r, Z.pow_1_r by lia.
    replace (q * (2 ^ t * 2)) with (q * 2 * 2 ^ t) by ring. apply Z_mod_mult.
Qed.

Lemma napot_decode (q t : Z) :
  0 <= q -> 0 <= t ->
  let y := q * 2 ^ (t + 1) + (2 ^ t - 1) in
  Z.lxor y (y + 1) = 2 ^ (t + 1) - 1 /\ Z.ldiff y (2 ^ (t + 1) - 1) = q * 2 ^ (t + 1).
Proof.
  intros Hq Ht y. split.
  - replace (y + 1) with (Z.lor (q * 2 ^ (t + 1)) (2 ^ t)).
    2:{ rewrite lor_disjoint_add; [subst y; lia|]. bitwise.
        rewrite Z.mul_pow2_bits, Z.pow2_bits_eqb by lia.
        destruct (Z.eqb_spec t i); cbn; [|by rewrite andb_false_r].
        rewrite Z.testbit_neg_r by lia. done. }
    subst y. bitwise. rewrite trailing_ones_bits, Z.mul_pow2_bits, Z.pow2_bits_eqb by lia.
    destruct (Z.ltb_spec i t), (Z.ltb_spec t i), (Z.eqb_spec t i), (Z.ltb_spec i (t + 1)); cbn; try lia;
      try done; rewrite ?(Z.testbit_neg_r _ (i - (t + 1))) by lia; try done.
    destruct (Z.testbit q _); done.
  - subst y. rewrite ldiff_low by lia.
    rewrite Z.add_comm, Z_mod_plus_full, Z.mod_small.
    + lia.
    + rewrite Z.pow_add_r, Z.pow_1_r by lia. pose proof (pow2_pos t Ht). lia.
Qed.

Lemma lor_ones (m n : Z) :
  0 <= m -> 0 <= n -> Z.lor (2 ^ m - 1) (2 ^ n - 1) = 2 ^ Z.max m n - 1.
Proof. intros Hm Hn. bitwise. case_cmp; cbn; try done; lia. Qed.

Lemma lor_low_bounds (b n : Z) : 0 <= n -> 0 <= b -> b <= Z.lor b (2 ^ n - 1) <= b + (2 ^ n - 1).
Proof.
  intros Hn Hb. pose proof (Z.add_lor_land b (2 ^ n - 1)) as E. rewrite land_low in E by done.
  pose proof (Z.mod_pos_bound b (2 ^ n) (pow2_pos n Hn)). lia.
Qed.

Lemma lor_low_multiple (m k n : Z) : 0 <= n <= k -> Z.lor (m * 2 ^ k) (2 ^ n - 1) = m * 2 ^ k + (2 ^ n - 1).
Proof.
  intros Hn. apply lor_disjoint_add. rewrite land_low by lia.
  replace (m * 2 ^ k) with (m * 2 ^ (k - n) * 2 ^ n); [apply Z_mod_mult|].
  rewrite <- Z.mul_assoc, <- Z.pow_add_r by lia. do 2 f_equal. lia.
Qed.

(** The address field of a NAPOT entry for [2 ^ k] bytes at [m * 2 ^ k]. *)
Lemma napot_field (m k : Z) :
  3 <= k -> k < XLEN -> 0 <= m ->
  Z.lor (ushr (m * 2 ^ k) 2) (ushr (2 ^ k) 3 -! 1) = m * 2 ^ (k - 2) + (2 ^ (k - 3) - 1).
Proof.
  intros Hk Hx Hm. unfold ushr. rewrite !Z.shiftr_div_pow2 by lia.
  replace (2 ^ k / 2 ^ 3) with (2 ^ (k - 3)) by (rewrite Z.pow_sub_r by lia; done).
  replace (m * 2 ^ k / 2 ^ 2) with (m * 2 ^ (k - 2)).
  2:{ replace (2 ^ k) with (2 ^ (k - 2) * 2 ^ 2) by (rewrite <- Z.pow_add_r by lia; f_equal; lia).
      rewrite Z.mul_assoc, Z.div_mul by lia. done. }
  unfold usub. rewrite wrap_small.
  - apply lor_low_multiple. lia.
  - pose proof (pow2_pos (k - 3) ltac:(lia)). split; [lia|].
    pose proof (Z.pow_lt_mono_r 2 (k - 3) XLEN). lia.
Qed.

(** A NAPOT field with at least [n] trailing ones: the naturally aligned
    block around the address. *)
Lemma napot_block (b n : Z) :
  0 <= b -> 0 <= n -> exists q t, 0 <= q /\ n <= t /\
    Z.lxor (Z.lor b (2 ^ n - 1)) (Z.lor b (2 ^ n - 1) + 1) = 2 ^ (t + 1) - 1 /\
    Z.ldiff (Z.lor b (2 ^ n - 1)) (2 ^ (t + 1) - 1) = q * 2 ^ (t + 1) /\
    q * 2 ^ (t + 1) <= b < (q + 1) * 2 ^ (t + 1).
Proof.
  intros Hb Hn. pose proof (lor_low_bounds b n Hn Hb) as Hlb.
  destruct (trailing_ones (Z.lor b (2 ^ n - 1))) as (q & t & Hq & Ht & Ey); [lia|].
  assert (n <= t) as Hnt.
  { destruct (Z.le_gt_cases n t); [done|]. exfalso.
    assert (Z.testbit (Z.lor b (2 ^ n - 1)) t = true) as E.
    { autorewrite with bits. destruct (Z.ltb_spec t n); [|lia]. by rewrite orb_true_r. }
    rewrite Ey, trailing_ones_bits, Z.ltb_irrefl in E by lia. done. }
  pose proof (napot_decode q t Hq Ht) as [Emask Elo].
  exists q, t. rewrite Ey. split_and!; try done.
  - pose proof (pow2_le n t ltac:(lia)). lia.
  - rewrite Z.pow_add_r, Z.pow_1_r in Ey by lia. rewrite Z.pow_add_r, Z.pow_1_r by lia.
    pose proof (pow2_pos t Ht). lia.
Qed.

(** The range of a NAPOT entry has the region in it, and is the region when
    that is no smaller than the grain. *)
Lemma napot_range_region (m k : Z) :
  0 <= G -> 3 <= k -> 0 <= m -> m * 2 ^ k + 2 ^ k <= 2 ^ phys_bits ->
  let r := napot_range (m * 2 ^ (k - 2) + (2 ^ (k - 3) - 1)) in
  fst r <= m * 2 ^ k /\ m * 2 ^ k + 2 ^ k <= snd r /\
  (G + 2 <= k -> r = (m * 2 ^ k, m * 2 ^ k + 2 ^ k)).
Proof.
  intros HG Hk Hm Hfit. unfold napot_range.
  pose proof phys_bits_bounds as (Hp1 & _ & Hp3).
  assert (2 ^ phys_bits <= 2 ^ pmpaddr_bits * 4) as Hpb.
  { change 4 with (2 ^ 2). rewrite <- Z.pow_add_r by lia. apply pow2_le; lia. }
  pose proof (pow2_split k 2 ltac:(lia)) as Ek. change (2 ^ 2) with 4 in Ek.
  pose proof (pow2_pos (k - 3) ltac:(lia)) as Hpos3.
  assert (2 ^ (k - 2) = 2 * 2 ^ (k - 3)) as Ek2.
  { rewrite (pow2_split (k - 2) 1) by lia. replace (k - 2 - 1) with (k - 3) by lia. lia. }
  rewrite Ek in *. set (d := 2 ^ (k - 2)) in *. assert (0 <= m * d) as Hmd by nia.
  rewrite (Z.mod_small (_ + _)) by lia.
  pose proof (lor_low_multiple m (k - 2) (k - 3) ltac:(lia)) as El. fold d in El.
  rewrite <- El, <- Z.lor_assoc, lor_ones by lia.
  set (n := Z.max (k - 3) _).
  destruct (napot_block (m * d) n Hmd ltac:(lia)) as (q & t & Hq & Hnt & Emask & Elo & Hb).
  rewrite Emask, Elo. cbn [fst snd].
  assert (m * d + d <= (q + 1) * 2 ^ (t + 1)) as Hend.
  { rewrite (pow2_split (t + 1) (k - 2)), Z.mul_assoc by lia. fold d. apply multiple_lt; [lia|].
    rewrite <- Z.mul_assoc. unfold d. rewrite <- (pow2_split (t + 1) (k - 2)) by lia. fold d. lia. }
  split_and!; [lia..|]. intros Hgk. assert (n = k - 3) as En by lia.
  pose proof (napot_decode m (k - 3) Hm ltac:(lia)) as [Em Ed].
  replace (k - 3 + 1) with (k - 2) in * by lia. fold d in Em, Ed.
  rewrite En, El, Em in Emask. rewrite En, El, <- Emask, Ed in Elo.
  f_equal; lia.
Qed.

(** ** TOR pairs *)

(** A region the entries can describe: a non-empty range of physical
    addresses whose top, rounded up to the grain, is one too. *)
Definition region_fits (base size : Z) : Prop :=
  0 <= base /\ 0 < size /\ base + size + 2 ^ (G + 2) <= 2 ^ phys_bits.

Definition grain_aligned (base size : Z) : Prop :=
  base mod 2 ^ (G + 2) = 0 /\ (base + size) mod 2 ^ (G + 2) = 0.

Lemma region_fits_ulong (base size : Z) :
  0 <= G -> region_fits base size -> is_ulong base /\ is_ulong size /\ is_ulong (base + size) /\
  base + size + 2 ^ (G + 2) <= 2 ^ XLEN /\ G + 2 < XLEN.
Proof.
  intros HG (Hb & Hs & Hf). pose proof phys_bits_bounds as (_ & Hx & Hp).
  assert (2 ^ phys_bits <= 2 ^ XLEN) by (apply pow2_le; lia).
  pose proof (pow2_pos (G + 2) ltac:(lia)). unfold is_ulong. split_and!; try lia.
  apply (Z.pow_lt_mono_r_iff 2); lia.
Qed.

Lemma tor_bound_eq (x : Z) :
  0 <= G -> 0 <= x < 2 ^ phys_bits -> tor_bound (ushr x 2) = (x / 4 - (x / 4) mod 2 ^ G) * 4.
Proof.
  intros HG Hx. unfold tor_bound, ushr. rewrite Z.shiftr_div_pow2 by lia. change (2 ^ 2) with 4.
  rewrite ldiff_low by lia. rewrite (Z.mod_small (x / 4) (2 ^ pmpaddr_bits)); [done|].
  pose proof phys_bits_bounds as (Hp & _). assert (2 ^ phys_bits <= 2 ^ pmpaddr_bits * 4).
  { change 4 with (2 ^ 2). rewrite <- Z.pow_add_r by (unfold pmpaddr_bits; destruct arch_xlen; lia).
    apply pow2_le. unfold phys_bits, pmpaddr_bits; destruct arch_xlen; lia. }
  split; [apply Z.div_pos; lia|]. apply Z.div_lt_upper_bound; lia.
Qed.

Lemma tor_bound_multiple (x : Z) :
  0 <= G -> 0 <= x < 2 ^ phys_bits -> x mod 2 ^ (G + 2) = 0 -> tor_bound (ushr x 2) = x.
Proof.
  intros HG Hx Hm. rewrite tor_bound_eq by done.
  apply Z.mod_divide in Hm as [z ->]; [|pose proof (pow2_pos (G + 2)); lia].
  rewrite Z.pow_add_r by lia. change (2 ^ 2) with 4. rewrite Z.mul_assoc, Z.div_mul by lia.
  rewrite Z_mod_mult. lia.
Qed.

Lemma tor_bound_le (x : Z) : 0 <= G -> 0 <= x < 2 ^ phys_bits -> tor_bound (ushr x 2) <= x.
Proof.
  intros HG Hx. rewrite tor_bound_eq by done. pose proof (Z.mod_pos_bound (x / 4) (2 ^ G) (pow2_pos G HG)).
  pose proof (Z.mul_div_le x 4). lia.
Qed.

Lemma tor_range_region (base size : Z) :
  0 <= G -> region_fits base size ->
  let lo := tor_bound (ushr base 2) in
  let hi := tor_bound (ushr (ROUNDUP2 (base +! size) (2 ^ (G + 2))) 2) in
  lo <= base /\ base + size <= hi /\ (grain_aligned base size -> lo = base /\ hi = base + size).
Proof.
  intros HG Hfit lo hi. pose proof (region_fits_ulong base size HG Hfit) as (Hb & Hs & Hbs & Hov & HGX).
  destruct Hfit as (Hb0 & Hs0 & Hf). pose proof (pow2_pos (G + 2) ltac:(lia)) as Hpg.
  subst lo hi. replace (base +! size) with (base + size) by (symmetry; by apply wrap_small).
  destruct (ROUNDUP2_spec (base + size) (G + 2)) as [Hm Hr]; [lia..|].
  rewrite (tor_bound_multiple (ROUNDUP2 _ _)) by (done || lia).
  split_and!; [apply tor_bound_le; lia|lia|].
  intros [Hab Habs]. rewrite tor_bound_multiple by (done || lia). split; [done|].
  apply Z.mod_divide in Hm as [z Hz]; [|lia]. apply Z.mod_divide in Habs as [z' Hz']; [|lia].
  assert (z = z') as ->; [|lia]. set (g := 2 ^ (G + 2)) in *.
  assert (z' <= z) by (apply (Z.mul_le_mono_pos_r _ _ g); lia).
  assert (z < z' + 1) by (apply (Z.mul_lt_mono_pos_r g); lia). lia.
Qed.

(** ** The rule a region becomes *)

Definition range_rule (base size : Z) : Z * Z :=
  if (8 <=? size) && IS_POWER_OF_TWO size && IS_ALIGNED base size
  then napot_range (Z.lor (ushr base 2) (ushr size 3 -! 1))
  else (tor_bound (ushr base 2), tor_bound (ushr (ROUNDUP2 (base +! size) (2 ^ (G + 2))) 2)).

(** The NAPOT test of [pmp_range_set], in numbers. *)
Lemma napot_test (base size : Z) :
  is_ulong size -> 0 <= base ->
  (8 <=? size) && IS_POWER_OF_TWO size && IS_ALIGNED base size = true ->
  exists m k, 3 <= k < XLEN /\ 0 <= m /\ size = 2 ^ k /\ base = m * 2 ^ k.
Proof.
  intros Hs Hb Ht. apply andb_prop in Ht as [[H8 H2]%andb_prop Ha].
  apply IS_POWER_OF_TWO_spec in H2 as (k & Hk & ->); [|done].
  apply IS_ALIGNED_spec in Ha; [|done]. bool_prop.
  apply Z.mod_divide in Ha as [m Hm]; [|pose proof (pow2_pos k); lia].
  exists m, k. pose proof (pow2_pos k ltac:(lia)).
  split_and!; try done; try lia.
  apply (Z.pow_le_mono_r_iff 2); [lia..|]. change (2 ^ 3) with 8. lia.
Qed.

Lemma range_rule_region (base size : Z) :
  0 <= G -> region_fits base size ->
  fst (range_rule base size) <= base /\ base + size <= snd (range_rule base size) /\
  (grain_aligned base size -> range_rule base size = (base, base + size)).
Proof.
  intros HG Hfit. pose proof (region_fits_ulong base size HG Hfit) as (Hb & Hs & Hbs & Hov & HGX).
  unfold range_rule. destruct (_ && _ && _) eqn:Ht.
  - pose proof Hfit as (Hb0 & Hs0 & Hf). pose proof (pow2_pos (G + 2) ltac:(lia)).
    apply napot_test in Ht as (m & k & Hk & Hm & -> & ->); [|done..].
    rewrite napot_field by lia.
    destruct (napot_range_region m k HG) as (H1 & H2 & H3); [lia..|].
    split_and!; [done..|]. intros [Hg1 Hg2]. apply H3.
    destruct (Z.le_gt_cases (G + 2) k); [done|].
    rewrite Z.add_mod, Hg1, Z.add_0_l, Zmod_mod, Z.mod_small in Hg2 by (try split; try lia; apply Z.pow_lt_mono_r; lia).
    lia.
  - pose proof (tor_range_region base size HG Hfit) as (H1 & H2 & H3). cbn.
    split_and!; [done..|]. intros Hg. destruct (H3 Hg) as [-> ->]. done.
Qed.

(** ** Scanning the entries of a region *)

(** A permission byte: no bits of the address-matching field. *)
Definition perm_wf (perm : Z) : Prop := 0 <= perm < 2 ^ 8 /\ Z.land perm PMP_A_NAPOT = 0.

Lemma su_allows_field (mml : bool) (a perm : Z) (acc : access) :
  a = PMP_A_TOR \/ a = PMP_A_NAPOT -> su_allows mml (Z.lor a perm) acc = su_allows mml perm acc.
Proof.
  intros Ha. assert (forall m, m = PMP_R \/ m = PMP_W \/ m = PMP_X \/ m = PMP_L ->
    cfg_bit (Z.lor a perm) m = cfg_bit perm m) as E.
  { intros m Hm. unfold cfg_bit. rewrite Z.land_lor_distr_l.
    replace (Z.land a m) with 0; [done|]. destruct Ha as [-> | ->], Hm as [-> | [-> | [-> | ->]]]; done. }
  unfold su_allows. rewrite !E by auto. done.
Qed.

(** Only a TOR entry looks at the one before it. *)
Definition entry_free (es : list (Z * Z)) : Prop :=
  match es with [] => True | e :: _ => Z.land (snd e) PMP_A_NAPOT <> PMP_A_TOR end.

Lemma su_scan_free (mml : bool) (prev prev' : Z) (es : list (Z * Z)) (lo hi : Z) (acc : access) :
  entry_free es -> su_scan mml prev es lo hi acc = su_scan mml prev' es lo hi acc.
Proof.
  intros Hf. unfold su_scan. destruct es as [|e es]; cbn in *; [done|].
  unfold entry_range. destruct (Z.eqb_spec (Z.land (snd e) PMP_A_NAPOT) PMP_A_TOR); [done|].
  repeat case_match; done.
Qed.

(** An entry that is off. *)
Lemma su_scan_off (mml : bool) (prev y : Z) (es : list (Z * Z)) (lo hi : Z) (acc : access) :
  su_scan mml prev ((y, 0) :: es) lo hi acc = su_scan mml y es lo hi acc.
Proof. done. Qed.

(** The first entries are a region's: they decide for what they overlap. *)
Lemma su_scan_range (mml : bool) (prev base size perm lo hi : Z) (es : list (Z * Z)) (acc : access) :
  0 <= G -> region_fits base size -> perm_wf perm -> entry_free es ->
  su_scan mml prev (range_entries (2 ^ (G + 2)) base size perm ++ es) lo hi acc =
  let r := range_rule base size in
  if overlaps lo hi (fst r) (snd r)
  then within lo hi (fst r) (snd r) && su_allows mml perm acc
  else su_scan mml 0 es lo hi acc.
Proof.
  intros HG Hfit [Hp1 Hp2] Hfree.
  assert (forall a, a = PMP_A_TOR \/ a = PMP_A_NAPOT -> Z.land (Z.lor a perm) PMP_A_NAPOT = a) as Ea.
  { intros a Ha. rewrite Z.land_lor_distr_l, Hp2, Z.lor_0_r. destruct Ha as [-> | ->]; done. }
  pose proof (range_rule_region base size HG Hfit) as (Hlo & Hhi & _).
  destruct Hfit as (_ & Hs & _). revert Hlo Hhi. unfold range_rule, range_entries.
  destruct (_ && _ && _); intros Hlo Hhi; cbn [app].
  - unfold su_scan at 1. cbn [scan]. unfold entry_range. cbn [fst snd]. rewrite Ea by auto. cbn.
    destruct (overlaps _ _ _ _) eqn:Eo; [destruct (within _ _ _ _)|].
    + rewrite su_allows_field by auto. done.
    + done.
    + fold (su_scan mml (Z.lor (ushr base 2) (ushr size 3 -! 1)) es lo hi acc). by apply su_scan_free.
  - rewrite su_scan_off. unfold su_scan at 1. cbn [scan]. unfold entry_range.
    cbn [fst snd] in *. rewrite Ea by auto. cbn.
    destruct (Z.ltb_spec (tor_bound (ushr base 2))
      (tor_bound (ushr (ROUNDUP2 (base +! size) (2 ^ (G + 2))) 2))) as [Hlt|]; [|lia].
    destruct (overlaps _ _ _ _) eqn:Eo; [destruct (within _ _ _ _)|].
    + rewrite su_allows_field by auto. done.
    + done.
    + fold (su_scan mml (ushr (ROUNDUP2 (base +! size) (2 ^ (G + 2))) 2) es lo hi acc).
      by apply su_scan_free.
Qed.

Lemma range_entries_free (grain base size perm : Z) (es : list (Z * Z)) :
  perm_wf perm -> entry_free (range_entries grain base size perm ++ es).
Proof.
  intros [_ Hp]. unfold range_entries. case_match; cbn; [|done].
  rewrite Z.land_lor_distr_l, Hp. done.
Qed.
End Hw.
