(* ===== verification/Memregion.v ===== *)
(** The address map as far as protection goes, [arch/riscv/runtime/hart.c]
    and [include/memregion.h]: the list of the monitor's regions, how
    drivers add to it, and the check that keeps S-mode's addresses clear
    of it. *)

From S2P Require Import Prelude Arch.

#[local] Open Scope Z_scope.

Inductive memregion_kind : Set :=
| MEMREGION_MMODE_RX
| MEMREGION_MMODE_RW
| MEMREGION_SHARED_RW.

#[export] Instance memregion_kind_eq_dec : EqDecision memregion_kind.
Proof. solve_decision. Defined.

Record memregion : Set := Memregion { mr_base : Z; mr_size : Z; mr_kind : memregion_kind }.

#[export] Instance memregion_eta : Settable memregion :=
  fun r => Memregion (mr_base r) (mr_size r) (mr_kind r).

Definition MAX_MEMREGIONS : Z := 12.

Section Memregion.
Context {AR : Arch} {KC : Kconfig}.

(** The neighbour of a kind that takes the new range in, if there is one:
    the first in the list. *)
Fixpoint memregion_merge (rs : list memregion) (base size : Z) (kind : memregion_kind)
    : option (list memregion) :=
  match rs with
  | [] => None
  | r :: rs =>
      if negb (bool_decide (mr_kind r = kind)) || (mr_base r +! mr_size r <? base) ||
         (base +! size <? mr_base r)
      then cons r <$> memregion_merge rs base size kind
      else
        let r := if mr_base r +! mr_size r <? base +! size
                 then r <| mr_size := base +! size -! mr_base r |> else r in
        let r := if base <? mr_base r
                 then r <| mr_size := mr_size r +! (mr_base r -! base) |> <| mr_base := base |>
                 else r in
        Some (r :: rs)
  end.

(** [image] is [monitor_base()]. *)
Definition memregion_add (image : Z) (rs : list memregion) (base size : Z) (kind : memregion_kind)
    : outcome (list memregion) :=
  if bool_decide (kind = MEMREGION_SHARED_RW) &&
     ((base +! size <? base) ||
      (base <? image +! CONFIG_MONITOR_SIZE) && (image <? base +! size))
  then Panic
  else
    match memregion_merge rs base size kind with
    | Some rs => Ret rs
    | None =>
        if Z.of_nat (length rs) =? MAX_MEMREGIONS then Panic
        else Ret (rs ++ [Memregion base size kind])
    end.

(** [monitor_regions_init()]: the image as one region, or split at the end
    of its read-only part where M-mode is to be confined as well. *)
Definition monitor_regions_init (smepmp : bool) (image split : Z) (rs : list memregion)
    : outcome (list memregion) :=
  if negb smepmp then memregion_add image rs image CONFIG_MONITOR_SIZE MEMREGION_MMODE_RW
  else
    rs ← memregion_add image rs image (split -! image) MEMREGION_MMODE_RX;
    memregion_add image rs split (image +! CONFIG_MONITOR_SIZE -! split) MEMREGION_MMODE_RW.

Definition memregion_get (rs : list memregion) (i : Z) : option memregion :=
  if Z.of_nat (length rs) <=? i then None else rs !! Z.to_nat i.

Definition monitor_range_clear (rs : list memregion) (addr size : Z) : bool :=
  let last := addr +! size in
  if last <? addr then false
  else forallb (fun r => negb (negb (bool_decide (mr_kind r = MEMREGION_SHARED_RW)) &&
                               (mr_base r <? last) && (addr <? mr_base r +! mr_size r))) rs.

(** ** Well-formed regions and the bytes they hold *)

(** Non-empty and below the top of the address space. *)
Definition memregion_wf (r : memregion) : Prop :=
  0 <= mr_base r /\ 0 < mr_size r /\ mr_base r + mr_size r < 2 ^ XLEN.

Definition in_memregion (r : memregion) (x : Z) : Prop :=
  mr_base r <= x < mr_base r + mr_size r.

(** Byte [x] belongs to a region of kind [k]. *)
Definition held (rs : list memregion) (k : memregion_kind) (x : Z) : Prop :=
  exists r, r ∈ rs /\ mr_kind r = k /\ in_memregion r x.

Lemma memregion_end (r : memregion) : memregion_wf r -> mr_base r +! mr_size r = mr_base r + mr_size r.
Proof. intros (? & ? & ?). apply wrap_small. split; lia. Qed.

Lemma held_cons (r : memregion) (rs : list memregion) (k : memregion_kind) (x : Z) :
  held (r :: rs) k x <-> (mr_kind r = k /\ in_memregion r x) \/ held rs k x.
Proof.
  unfold held. setoid_rewrite elem_of_cons. split.
  - intros (r' & [-> | Hr] & ? & ?); [by left|right; by exists r'].
  - intros [[? ?]|(r' & ? & ? & ?)]; eauto.
Qed.

Lemma held_app (rs rs' : list memregion) (k : memregion_kind) (x : Z) :
  held (rs ++ rs') k x <-> held rs k x \/ held rs' k x.
Proof.
  unfold held. setoid_rewrite elem_of_app. split.
  - intros (r & [?|?] & ? & ?); eauto.
  - intros [(r & ? & ? & ?)|(r & ? & ? & ?)]; eauto.
Qed.

(** The region that takes the range in: from the lower base to the higher
    end. *)
Lemma merge_hull (r : memregion) (base size : Z) (kind : memregion_kind) :
  memregion_wf r -> memregion_wf (Memregion base size kind) ->
  (let r := if mr_base r + mr_size r <? base + size
            then r <| mr_size := base + size -! mr_base r |> else r in
   if base <? mr_base r
   then r <| mr_size := mr_size r +! (mr_base r -! base) |> <| mr_base := base |>
   else r) =
  Memregion (Z.min (mr_base r) base)
    (Z.max (mr_base r + mr_size r) (base + size) - Z.min (mr_base r) base) (mr_kind r).
Proof.
  destruct r as [rb rs rk]. unfold memregion_wf. cbn. intros (? & ? & ?) (? & ? & ?).
  unfold usub, uadd.
  assert (rb <= base + size -> wrap (base + size - rb) = base + size - rb) as E1
    by (intros; apply wrap_small; split; lia).
  assert (base < rb -> wrap (rb - base) = rb - base) as E2 by (intros; apply wrap_small; split; lia).
  unfold field_update. destruct (Z.ltb_spec (rb + rs) (base + size)); cbn; destruct (Z.ltb_spec base rb); cbn;
    rewrite ?E1, ?E2 by lia; try (rewrite wrap_small by (split; lia)); f_equal; lia.
Qed.

(** Merging loses nothing, adds nothing else, and keeps the regions
    well-formed. *)
Lemma memregion_merge_spec (rs rs' : list memregion) (base size : Z) (kind : memregion_kind) :
  Forall memregion_wf rs -> memregion_wf (Memregion base size kind) ->
  memregion_merge rs base size kind = Some rs' ->
  Forall memregion_wf rs' /\ length rs' = length rs /\
  forall k x, held rs' k x <-> held rs k x \/ (k = kind /\ base <= x < base + size).
Proof.
  intros Hrs Hnew. pose proof (memregion_end _ Hnew) as Ebs. cbn in Ebs.
  revert rs'. induction Hrs as [|r rs Hr Hrs IH]; intros rs' Hm; cbn [memregion_merge] in Hm; [done|].
  rewrite Ebs, (memregion_end r Hr) in Hm.
  destruct (_ || _ || _) eqn:Hc in Hm.
  - apply fmap_Some in Hm as (rs1 & Hm1 & ->). destruct (IH rs1 Hm1) as (IH1 & IH2 & IH3).
    split_and!; [by constructor|cbn; congruence|]. intros k x. rewrite !held_cons, IH3. tauto.
  - pose proof (merge_hull r base size kind Hr Hnew) as Eh. cbv zeta in Eh, Hm. rewrite Eh in Hm.
    apply orb_false_elim in Hc as [[Hk%negb_false_iff%bool_decide_eq_true Hc1]%orb_false_elim Hc2].
    bool_prop. injection Hm as <-. destruct Hr as (? & ? & ?), Hnew as (? & ? & ?). cbn in *.
    split_and!; [|done|].
    + constructor; [unfold memregion_wf; cbn; lia|done].
    + intros k x. rewrite !held_cons. unfold in_memregion. cbn. subst kind.
      split; [intros [[<- ?]|?]|intros [[[<- ?]|?]|[-> ?]]]; try tauto.
      * destruct (Z.le_gt_cases (mr_base r) x), (Z.le_gt_cases (mr_base r + mr_size r) x); [right|left|right|right]; try (split; [done|lia]); left; split; [done|lia].
      * left; split; [done|lia].
      * left; split; [done|lia].
Qed.

(** *** The list after [memregion_add] *)

Lemma memregion_add_inv (image : Z) (rs rs' : list memregion) (base size : Z) (kind : memregion_kind) :
  Forall memregion_wf rs -> memregion_wf (Memregion base size kind) ->
  Z.of_nat (length rs) <= MAX_MEMREGIONS ->
  memregion_add image rs base size kind = Ret rs' ->
  Forall memregion_wf rs' /\ Z.of_nat (length rs') <= MAX_MEMREGIONS /\
  forall k x, held rs' k x <-> held rs k x \/ (k = kind /\ base <= x < base + size).
Proof.
  intros Hrs Hnew Hlen. unfold memregion_add. destruct (_ && _); [done|].
  destruct (memregion_merge rs base size kind) as [rs1|] eqn:Em.
  - intros [= <-]. pose proof (memregion_merge_spec _ _ _ _ _ Hrs Hnew Em) as (? & E & ?).
    rewrite E. done.
  - destruct (Z.eqb_spec (Z.of_nat (length rs)) MAX_MEMREGIONS); [done|]. intros [= <-].
    split_and!.
    + apply Forall_app; split; [done|]. by apply Forall_singleton.
    + rewrite length_app. cbn. lia.
    + intros k x. rewrite held_app, held_cons. cbn. unfold in_memregion; cbn.
      split; [intros [?|[[<- ?]|(?&E&_)]]|intros [?|[-> ?]]]; auto.
      by apply elem_of_nil in E.
Qed.

(** *** The software check *)

Lemma monitor_range_clear_spec (rs : list memregion) (addr size : Z) :
  Forall memregion_wf rs -> is_ulong addr -> is_ulong size -> 0 < size ->
  monitor_range_clear rs addr size = true <->
  addr + size < 2 ^ XLEN /\
  forall k x, k <> MEMREGION_SHARED_RW -> addr <= x < addr + size -> ~ held rs k x.
Proof.
  intros Hrs Ha Hs Hpos. unfold monitor_range_clear.
  destruct (addr +! size <? addr) eqn:Hc.
  { apply uadd_carry in Hc; [|done..]. split; [done|]. intros [? _]. lia. }
  assert (addr + size < 2 ^ XLEN) as Hfit.
  { destruct (Z.le_gt_cases (2 ^ XLEN) (addr + size)); [|done].
    assert ((addr +! size <? addr) = true) by (apply uadd_carry; done). congruence. }
  replace (addr +! size) with (addr + size) by (symmetry; apply wrap_small; unfold is_ulong in *; lia).
  rewrite forallb_forall. split.
  - intros Hall. split; [done|]. intros k x Hk Hx (r & Hr & Ek & Hin).
    pose proof (Hall r ltac:(by apply list_elem_of_In)) as Hneg.
    rewrite Forall_forall in Hrs. pose proof (Hrs r Hr) as Hwf.
    rewrite memregion_end in Hneg by done. unfold in_memregion in Hin.
    rewrite bool_decide_eq_false_2 in Hneg by congruence. cbn in Hneg.
    apply negb_true_iff, andb_false_iff in Hneg as [?|?]; bool_prop; lia.
  - intros [_ Hno] r Hr%list_elem_of_In. rewrite Forall_forall in Hrs. pose proof (Hrs r Hr) as Hwf.
    rewrite memregion_end by done. apply negb_true_iff.
    destruct (bool_decide_reflect (mr_kind r = MEMREGION_SHARED_RW)) as [|Hk]; [done|]. cbn.
    apply not_true_iff_false. intros Ht. bool_prop. destruct Hwf as (? & ? & ?).
    apply (Hno (mr_kind r) (Z.max addr (mr_base r)) Hk); [lia|].
    exists r. split_and!; [done..|unfold in_memregion; lia].
Qed.

(** ** The list as it grows

    The image first, then what the drivers add. [Memregion base size kind]
    well-formed is what their device trees have: a non-empty range below
    the top of the address space. *)
Section Growth.
Context (smepmp : bool) (image split : Z).

Inductive memregions_reach : list memregion -> Prop :=
| reach_init rs :
    monitor_regions_init smepmp image split [] = Ret rs -> memregions_reach rs
| reach_add rs rs' base size kind :
    memregions_reach rs -> memregion_wf (Memregion base size kind) ->
    memregion_add image rs base size kind = Ret rs' -> memregions_reach rs'.

(** The image in the address space, with both parts of it non-empty. *)
Definition image_ok : Prop :=
  0 <= image /\ image < split /\ split < image + CONFIG_MONITOR_SIZE /\
  image + CONFIG_MONITOR_SIZE < 2 ^ XLEN.

Definition image_kept (rs : list memregion) : Prop :=
  forall x, image <= x < image + CONFIG_MONITOR_SIZE ->
    ~ held rs MEMREGION_SHARED_RW x /\
    (held rs MEMREGION_MMODE_RX x \/ held rs MEMREGION_MMODE_RW x).

Lemma image_span : image_ok ->
  split -! image = split - image /\ image +! CONFIG_MONITOR_SIZE = image + CONFIG_MONITOR_SIZE /\
  image + CONFIG_MONITOR_SIZE -! split = image + CONFIG_MONITOR_SIZE - split.
Proof. intros (? & ? & ? & ?). split_and!; apply wrap_small; split; lia. Qed.

Lemma memregion_add_keeps (rs rs' : list memregion) (base size : Z) (kind : memregion_kind) :
  image_ok -> Forall memregion_wf rs -> memregion_wf (Memregion base size kind) ->
  Z.of_nat (length rs) <= MAX_MEMREGIONS -> image_kept rs ->
  memregion_add image rs base size kind = Ret rs' -> image_kept rs'.
Proof.
  intros Hi Hrs Hnew Hlen Hk Ha x Hx.
  destruct (memregion_add_inv image rs rs' base size kind Hrs Hnew Hlen Ha) as (_ & _ & Hheld).
  rewrite !Hheld. destruct (Hk x Hx) as [Hno Hyes]. split; [|tauto]. intros [?|[Ekind Hin]]; [done|].
  revert Ha. unfold memregion_add. rewrite (bool_decide_eq_true_2 (kind = _)) by done. cbn [andb].
  destruct (image_span Hi) as (_ & -> & _). pose proof (memregion_end _ Hnew) as E. cbn in E. rewrite E.
  destruct (base + size <? base) eqn:E1; [done|]. cbn [orb].
  destruct (Z.ltb_spec base (image + CONFIG_MONITOR_SIZE)), (Z.ltb_spec image (base + size)); try lia. done.
Qed.

(** whatever the drivers add, the regions stay well-formed and few enough
    for their table, every byte of the monitor's image stays in a region
    of M-mode's, and none is ever in a region shared with S-mode. *)
Theorem memregions_image_kept (rs : list memregion) :
  image_ok -> memregions_reach rs ->
  Forall memregion_wf rs /\ Z.of_nat (length rs) <= MAX_MEMREGIONS /\ image_kept rs.
Proof.
  intros Hi Hr. destruct (image_span Hi) as (E1 & E2 & E3). pose proof Hi as (H0 & H1 & H2 & H3).
  induction Hr as [rs Hinit|rs rs' base size kind _ (IH1 & IH2 & IH3) Hwf Ha].
  - unfold monitor_regions_init in Hinit. rewrite E1, E2, E3 in Hinit.
    destruct smepmp; cbn [negb] in Hinit.
    + destruct (memregion_add image [] image (split - image) MEMREGION_MMODE_RX) as [rs1|] eqn:Ea; [|done].
      cbn in Hinit.
      destruct (memregion_add_inv image [] rs1 image (split - image) MEMREGION_MMODE_RX) as (W1 & L1 & K1);
        [done|unfold memregion_wf; cbn; lia|done..|].
      destruct (memregion_add_inv image rs1 rs split (image + CONFIG_MONITOR_SIZE - split) MEMREGION_MMODE_RW)
        as (W2 & L2 & K2); [done|unfold memregion_wf; cbn; lia|done..|].
      split_and!; [done..|]. intros x Hx. rewrite !K2, !K1.
      assert (forall k, ~ held [] k x) as Hn by (intros k (r & Hr & _); by apply elem_of_nil in Hr).
      pose proof (Hn MEMREGION_SHARED_RW). split; [intros [[?|[? _]]|[? _]]; done|].
      destruct (Z.lt_ge_cases x split); [left; left; right|right; right]; split; done || lia.
    + destruct (memregion_add_inv image [] rs image CONFIG_MONITOR_SIZE MEMREGION_MMODE_RW) as (W1 & L1 & K1);
        [done|unfold memregion_wf; cbn; lia|done..|].
      split_and!; [done..|]. intros x Hx. rewrite !K1.
      split; [intros [(r & Hr & _)|[? _]]; [by apply elem_of_nil in Hr|done]|].
      right. right. done.
  - destruct (memregion_add_inv image rs rs' base size kind IH1 Hwf IH2 Ha) as (W & L & _).
    split_and!; [done..|]. exact (memregion_add_keeps rs rs' base size kind Hi IH1 Hwf IH2 IH3 Ha).
Qed.
End Growth.
End Memregion.

(** The image split for Smepmp, with the console beside it. *)
Lemma memregions_image_kept_witness :
  let rs := [Memregion 0x80000000 0x40000 MEMREGION_MMODE_RX;
             Memregion 0x80040000 0x1c0000 MEMREGION_MMODE_RW;
             Memregion 0x10000000 0x1000 MEMREGION_SHARED_RW] in
  @image_kept qemu_virt 0x80000000 rs.
Proof.
  intros rs. apply (@memregions_image_kept RV64 qemu_virt true 0x80000000 0x80040000 rs).
  - unfold image_ok. cbn. lia.
  - eapply (@reach_add RV64 qemu_virt _ _ _ _ rs 0x10000000 0x1000 MEMREGION_SHARED_RW).
    + apply reach_init. vm_compute. reflexivity.
    + unfold memregion_wf. cbn. lia.
    + vm_compute. reflexivity.
Defined.
