(* ===== verification/Bitstring.v ===== *)
(** Strings of bits, [lib/libutils/include/bitstring.h], and the hart masks
    made of them, [include/hartmask.h].

    A bit string is an array of [unsigned long]; the operations work on the
    word a bit is in.  The lemmas relate them to the set of bit numbers the
    string stands for, which is what every client reasons with. *)

From S2P Require Import Prelude Arch.

#[local] Open Scope Z_scope.

Abbreviation bitstr := (list Z).

Section Bitstring.
Context {AR : Arch}.

Definition BITSTR_BITS : Z := XLEN.
Definition bit_word (bit : Z) : Z := bit / BITSTR_BITS.
Definition bit_mask (bit : Z) : Z := ushl 1 (bit mod BITSTR_BITS).
Definition bitstr_size (nbits : Z) : Z := (nbits + BITSTR_BITS - 1) / BITSTR_BITS.

(** [name[i]]; the clients stay within the string. *)
Definition bitstr_get (name : bitstr) (i : Z) : Z := default 0 (name !! Z.to_nat i).
Definition bitstr_put (name : bitstr) (i v : Z) : bitstr := <[Z.to_nat i := v]> name.

Definition bit_test (name : bitstr) (bit : Z) : bool :=
  truth (Z.land (bitstr_get name (bit_word bit)) (bit_mask bit)).
Definition bit_set (name : bitstr) (bit : Z) : bitstr :=
  bitstr_put name (bit_word bit) (Z.lor (bitstr_get name (bit_word bit)) (bit_mask bit)).
Definition bit_clear (name : bitstr) (bit : Z) : bitstr :=
  bitstr_put name (bit_word bit) (Z.land (bitstr_get name (bit_word bit)) (unot (bit_mask bit))).

(** Bits [start] to [stop], both included. *)
Definition bit_nset (name : bitstr) (start stop : Z) : bitstr :=
  for_upto (Z.to_nat (stop - start + 1)) (fun i name => bit_set name (start + i)) name.
Definition bit_nclear (name : bitstr) (start stop : Z) : bitstr :=
  for_upto (Z.to_nat (stop - start + 1)) (fun i name => bit_clear name (start + i)) name.

(** The first bit set from [bit] on, [-1] if there is none. A word without a
    bit in it is skipped whole; every round advances by a bit at least, so
    [nbits - bit] rounds are enough. *)
Fixpoint bit_ffs_loop (fuel : nat) (name : bitstr) (nbits bit : Z) : Z :=
  match fuel with
  | O => -1
  | S fuel =>
      if negb (bit <? nbits) then -1
      else if (bit mod BITSTR_BITS =? 0) && (bitstr_get name (bit_word bit) =? 0)
      then bit_ffs_loop fuel name nbits (bit + (BITSTR_BITS - 1) + 1)
      else if bit_test name bit then bit
      else bit_ffs_loop fuel name nbits (bit + 1)
  end.
Definition bit_ffs_from (name : bitstr) (nbits startbit : Z) : Z :=
  bit_ffs_loop (Z.to_nat (nbits - startbit)) name nbits startbit.
Definition bit_ffs (name : bitstr) (nbits : Z) : Z := bit_ffs_from name nbits 0.

(** The first bit clear. *)
Fixpoint bit_ffc_loop (fuel : nat) (name : bitstr) (nbits bit : Z) : Z :=
  match fuel with
  | O => -1
  | S fuel =>
      if negb (bit <? nbits) then -1
      else if negb (bit_test name bit) then bit
      else bit_ffc_loop fuel name nbits (bit + 1)
  end.
Definition bit_ffc (name : bitstr) (nbits : Z) : Z := bit_ffc_loop (Z.to_nat nbits) name nbits 0.

(** The bits a [bit_foreach] loop visits, in order. *)
Definition bit_foreach (name : bitstr) (nbits : Z) : list Z :=
  filter (fun bit => bit_test name bit = true) (seqZ 0 nbits).

(** ** Bit strings as sets of bit numbers *)

(** A string with room for [nbits] bits. *)
Definition bitstr_wf (nbits : Z) (name : bitstr) : Prop :=
  Z.of_nat (length name) = bitstr_size nbits /\ Forall is_ulong name.

Lemma BITSTR_BITS_pos : 0 < BITSTR_BITS.
Proof. unfold BITSTR_BITS. pose proof XLEN_bounds. lia. Qed.

Lemma bit_mask_eq (bit : Z) : bit_mask bit = 2 ^ (bit mod BITSTR_BITS).
Proof.
  unfold bit_mask. pose proof (Z.mod_pos_bound bit _ BITSTR_BITS_pos) as Hm.
  apply BIT_small. exact Hm.
Qed.

Lemma bit_word_bound (nbits bit : Z) :
  0 <= bit < nbits -> 0 <= bit_word bit < bitstr_size nbits.
Proof.
  intros Hb. unfold bit_word, bitstr_size. pose proof BITSTR_BITS_pos.
  split; [apply Z.div_pos; lia|]. apply Z.div_lt_upper_bound; [lia|].
  pose proof (Z.div_mod (nbits + BITSTR_BITS - 1) BITSTR_BITS ltac:(lia)).
  pose proof (Z.mod_pos_bound (nbits + BITSTR_BITS - 1) BITSTR_BITS ltac:(lia)). lia.
Qed.

Lemma bitstr_get_ulong (name : bitstr) (i : Z) : Forall is_ulong name -> is_ulong (bitstr_get name i).
Proof.
  intros Hf. unfold bitstr_get. destruct (name !! Z.to_nat i) eqn:E; cbn.
  - by eapply Forall_lookup_1.
  - split; [lia|apply pow_XLEN_pos].
Qed.

Lemma bitstr_get_put (name : bitstr) (i j v : Z) :
  0 <= i < Z.of_nat (length name) -> 0 <= j ->
  bitstr_get (bitstr_put name i v) j = if decide (i = j) then v else bitstr_get name j.
Proof.
  intros Hi Hj. unfold bitstr_get, bitstr_put. case_decide as E.
  - subst j. rewrite list_lookup_insert_eq by lia. done.
  - rewrite list_lookup_insert_ne by lia. done.
Qed.

(** A test reads one bit of one word. *)
Lemma bit_test_testbit (name : bitstr) (bit : Z) :
  bit_test name bit = Z.testbit (bitstr_get name (bit_word bit)) (bit mod BITSTR_BITS).
Proof.
  unfold bit_test, truth. rewrite bit_mask_eq.
  pose proof (Z.mod_pos_bound bit _ BITSTR_BITS_pos) as Hm.
  destruct (Z.testbit _ _) eqn:E.
  - apply negb_true_iff, Z.eqb_neq. intros H0.
    apply (f_equal (fun z => Z.testbit z (bit mod BITSTR_BITS))) in H0.
    rewrite Z.land_spec, E, Z.pow2_bits_true, Z.bits_0 in H0 by lia. done.
  - apply negb_false_iff, Z.eqb_eq. bitwise. rewrite Z.pow2_bits_eqb by lia.
    destruct (Z.eqb_spec (bit mod BITSTR_BITS) i) as [<-|]; [by rewrite E|by rewrite andb_false_r].
Qed.

Lemma bit_eq_word_mod (a b : Z) :
  bit_word a = bit_word b -> a mod BITSTR_BITS = b mod BITSTR_BITS -> a = b.
Proof.
  unfold bit_word. intros Hw Hm. pose proof BITSTR_BITS_pos.
  rewrite (Z.div_mod a BITSTR_BITS), (Z.div_mod b BITSTR_BITS) by lia. congruence.
Qed.

Section Bits.
Context (nbits : Z) (name : bitstr).
Context (Hwf : bitstr_wf nbits name).

(** Setting and clearing a bit changes that bit and no other. *)
Lemma bit_test_set (bit b : Z) :
  0 <= bit < nbits -> 0 <= b -> bit_test (bit_set name bit) b = (bit =? b) || bit_test name b.
Proof using Hwf.
  destruct Hwf as [Hlen Hf]. intros Hb Hb'. pose proof (bit_word_bound nbits bit Hb) as Hw.
  rewrite !bit_test_testbit. unfold bit_set.
  rewrite bitstr_get_put; [|lia|apply Z.div_pos; [lia|apply BITSTR_BITS_pos]].
  pose proof (Z.mod_pos_bound bit _ BITSTR_BITS_pos). pose proof (Z.mod_pos_bound b _ BITSTR_BITS_pos).
  case_decide as E.
  - rewrite <- E, Z.lor_spec, bit_mask_eq, Z.pow2_bits_eqb, orb_comm by lia.
    destruct (Z.eqb_spec bit b) as [->|Hne]; [by rewrite Z.eqb_refl|].
    destruct (Z.eqb_spec (bit mod BITSTR_BITS) (b mod BITSTR_BITS)); [|done].
    exfalso. by apply Hne, bit_eq_word_mod.
  - destruct (Z.eqb_spec bit b) as [->|Hne]; done.
Qed.

Lemma bit_test_clear (bit b : Z) :
  0 <= bit < nbits -> 0 <= b -> bit_test (bit_clear name bit) b = negb (bit =? b) && bit_test name b.
Proof using Hwf.
  destruct Hwf as [Hlen Hf]. intros Hb Hb'. pose proof (bit_word_bound nbits bit Hb) as Hw.
  rewrite !bit_test_testbit. unfold bit_clear.
  rewrite bitstr_get_put; [|lia|apply Z.div_pos; [lia|apply BITSTR_BITS_pos]].
  pose proof (Z.mod_pos_bound bit _ BITSTR_BITS_pos). pose proof (Z.mod_pos_bound b _ BITSTR_BITS_pos).
  case_decide as E.
  - rewrite <- E, land_unot by (by apply bitstr_get_ulong).
    rewrite Z.ldiff_spec, bit_mask_eq, Z.pow2_bits_eqb, andb_comm by lia.
    destruct (Z.eqb_spec bit b) as [->|Hne]; [by rewrite Z.eqb_refl|].
    destruct (Z.eqb_spec (bit mod BITSTR_BITS) (b mod BITSTR_BITS)); [|done].
    exfalso. by apply Hne, bit_eq_word_mod.
  - destruct (Z.eqb_spec bit b) as [->|Hne]; done.
Qed.

Lemma bit_set_wf (bit : Z) : 0 <= bit < nbits -> bitstr_wf nbits (bit_set name bit).
Proof using Hwf.
  destruct Hwf as [Hlen Hf]. intros Hb. split.
  - unfold bit_set, bitstr_put. rewrite length_insert. done.
  - apply Forall_insert; [done|]. apply is_ulong_lor; [by apply bitstr_get_ulong|apply wrap_range].
Qed.

Lemma bit_clear_wf (bit : Z) : 0 <= bit < nbits -> bitstr_wf nbits (bit_clear name bit).
Proof using Hwf.
  destruct Hwf as [Hlen Hf]. intros Hb. split.
  - unfold bit_clear, bitstr_put. rewrite length_insert. done.
  - apply Forall_insert; [done|]. apply is_ulong_land; [by apply bitstr_get_ulong|apply wrap_range].
Qed.
End Bits.

(** ** The searches *)

(** [r] is the first number of [[start, nbits)] that satisfies [p], [-1]
    when there is none. *)
Definition first_from (p : Z -> bool) (start nbits r : Z) : Prop :=
  (r = -1 /\ forall i, start <= i < nbits -> p i = false) \/
  (start <= r < nbits /\ p r = true /\ forall i, start <= i < r -> p i = false).

Lemma first_from_skip (p : Z -> bool) (start next nbits r : Z) :
  start <= next -> (forall i, start <= i < next -> p i = false) ->
  first_from p next nbits r -> first_from p start nbits r.
Proof.
  intros Hn Hskip [[-> Hno]|(Hr & Hp & Hmin)]; [left|right]; split_and!; try done; try lia.
  - intros i Hi. destruct (Z.lt_ge_cases i next); [apply Hskip|apply Hno]; lia.
  - intros i Hi. destruct (Z.lt_ge_cases i next); [apply Hskip|apply Hmin]; lia.
Qed.

(** A word that is zero has no bit of the string set. *)
Lemma zero_word_clear (name : bitstr) (bit i : Z) :
  0 <= bit -> bit mod BITSTR_BITS = 0 -> bitstr_get name (bit_word bit) = 0 ->
  bit <= i < bit + BITSTR_BITS -> bit_test name i = false.
Proof.
  intros Hb Hm Hz Hi. rewrite bit_test_testbit.
  replace (bit_word i) with (bit_word bit); [rewrite Hz; apply Z.bits_0|].
  unfold bit_word. pose proof BITSTR_BITS_pos.
  apply (Z.div_unique_pos _ _ _ (i - bit)); [lia|].
  pose proof (Z.div_mod bit BITSTR_BITS ltac:(lia)). lia.
Qed.

Lemma bit_ffs_loop_spec (fuel : nat) (name : bitstr) (nbits bit : Z) :
  0 <= bit -> nbits - bit <= Z.of_nat fuel ->
  first_from (bit_test name) bit nbits (bit_ffs_loop fuel name nbits bit).
Proof.
  revert bit. induction fuel as [|fuel IH]; intros bit Hb Hf; cbn [bit_ffs_loop].
  { left. split; [done|]. lia. }
  pose proof BITSTR_BITS_pos.
  destruct (Z.ltb_spec bit nbits); cbn [negb]; [|left; split; [done|lia]].
  destruct (Z.eqb_spec (bit mod BITSTR_BITS) 0) as [Hm|]; cbn [andb].
  1: destruct (Z.eqb_spec (bitstr_get name (bit_word bit)) 0) as [Hz|].
  1: { apply (first_from_skip _ bit (bit + (BITSTR_BITS - 1) + 1)); [lia| |apply IH; lia].
       intros i Hi. apply (zero_word_clear name bit); [done..|lia]. }
  all: destruct (bit_test name bit) eqn:Ht;
    [right; split_and!; [lia|lia|done|lia]|
     apply (first_from_skip _ bit (bit + 1)); [lia| |apply IH; lia];
     intros i Hi; by replace i with bit by lia].
Qed.

Lemma bit_ffc_loop_spec (fuel : nat) (name : bitstr) (nbits bit : Z) :
  nbits - bit <= Z.of_nat fuel ->
  first_from (fun i => negb (bit_test name i)) bit nbits (bit_ffc_loop fuel name nbits bit).
Proof.
  revert bit. induction fuel as [|fuel IH]; intros bit Hf; cbn [bit_ffc_loop].
  { left. split; [done|]. lia. }
  destruct (Z.ltb_spec bit nbits); cbn [negb]; [|left; split; [done|lia]].
  destruct (negb (bit_test name bit)) eqn:Ht; [right; split_and!; [lia|lia|done|lia]|].
  apply (first_from_skip _ bit (bit + 1)); [lia| |apply IH; lia].
  intros i Hi. by replace i with bit by lia.
Qed.

Lemma bit_nset_spec (nbits : Z) (name : bitstr) (start stop : Z) :
  bitstr_wf nbits name -> 0 <= start -> stop < nbits ->
  bitstr_wf nbits (bit_nset name start stop) /\
  forall b, 0 <= b -> bit_test (bit_nset name start stop) b =
                     (start <=? b) && (b <=? stop) || bit_test name b.
Proof.
  intros Hwf Hs Hn. unfold bit_nset.
  set (P := fun (k : nat) (m : bitstr) => bitstr_wf nbits m /\
    forall b, 0 <= b -> bit_test m b = (start <=? b) && (b <? start + Z.of_nat k) || bit_test name b).
  assert (P (Z.to_nat (stop - start + 1))
            (for_upto (Z.to_nat (stop - start + 1)) (fun i m => bit_set m (start + i)) name)) as [H1 H2].
  { apply for_upto_ind.
    - split; [done|]. intros b Hb. replace ((start <=? b) && _) with false; [done|].
      case_cmp; cbn; lia.
    - intros i m Hi [Hm Hb]. split; [apply bit_set_wf; [done|lia]|].
      intros b Hb0. rewrite (bit_test_set nbits), Hb by (done || lia).
      rewrite orb_assoc. f_equal. case_cmp; cbn; lia. }
  split; [done|]. intros b Hb. rewrite H2 by done. f_equal. case_cmp; cbn; lia.
Qed.

Lemma bit_nclear_spec (nbits : Z) (name : bitstr) (start stop : Z) :
  bitstr_wf nbits name -> 0 <= start -> stop < nbits ->
  bitstr_wf nbits (bit_nclear name start stop) /\
  forall b, 0 <= b -> bit_test (bit_nclear name start stop) b =
                     negb ((start <=? b) && (b <=? stop)) && bit_test name b.
Proof.
  intros Hwf Hs Hn. unfold bit_nclear.
  set (P := fun (k : nat) (m : bitstr) => bitstr_wf nbits m /\
    forall b, 0 <= b -> bit_test m b = negb ((start <=? b) && (b <? start + Z.of_nat k)) && bit_test name b).
  assert (P (Z.to_nat (stop - start + 1))
            (for_upto (Z.to_nat (stop - start + 1)) (fun i m => bit_clear m (start + i)) name)) as [H1 H2].
  { apply for_upto_ind.
    - split; [done|]. intros b Hb. replace ((start <=? b) && _) with false; [done|].
      case_cmp; cbn; lia.
    - intros i m Hi [Hm Hb]. split; [apply bit_clear_wf; [done|lia]|].
      intros b Hb0. rewrite (bit_test_clear nbits), Hb by (done || lia).
      rewrite andb_assoc. f_equal. case_cmp; cbn; lia. }
  split; [done|]. intros b Hb. rewrite H2 by done. f_equal. case_cmp; cbn; lia.
Qed.

(** the search. [bit_ffs_from], which skips a word without a bit in it
    whole, finds the first bit set from [startbit] on, and [-1] exactly
    when there is none. *)
Theorem bit_ffs_from_first (name : bitstr) (nbits startbit : Z) :
  0 <= startbit ->
  first_from (bit_test name) startbit nbits (bit_ffs_from name nbits startbit).
Proof. intros Hs. apply bit_ffs_loop_spec; lia. Qed.

Lemma bit_ffc_first (name : bitstr) (nbits : Z) :
  first_from (fun i => negb (bit_test name i)) 0 nbits (bit_ffc name nbits).
Proof. apply bit_ffc_loop_spec. lia. Qed.

(** ** Hart masks *)

Section Hartmask.
Context {KC : Kconfig}.

Abbreviation hartmask := bitstr.

(** Every word set to zero. *)
Definition hartmask_clear_all (m : hartmask) : hartmask :=
  for_upto (Z.to_nat (bitstr_size CONFIG_PLATFORM_HART_COUNT)) (fun i m => bitstr_put m i 0) m.
Definition hartmask_set (m : hartmask) (index : Z) : hartmask := bit_set m index.
Definition hartmask_clear (m : hartmask) (index : Z) : hartmask := bit_clear m index.
Definition hartmask_test (m : hartmask) (index : Z) : bool := bit_test m index.

(** The atomic variants: one read-modify-write of the word. *)
Definition hartmask_set_atomic (m : hartmask) (index : Z) : hartmask :=
  bitstr_put m (bit_word index) (Z.lor (bitstr_get m (bit_word index)) (bit_mask index)).
Definition hartmask_clear_atomic (m : hartmask) (index : Z) : hartmask :=
  bitstr_put m (bit_word index) (Z.land (bitstr_get m (bit_word index)) (unot (bit_mask index))).
Definition hartmask_empty_atomic (m : hartmask) : bool :=
  forallb (fun i => bitstr_get m i =? 0) (seqZ 0 (bitstr_size CONFIG_PLATFORM_HART_COUNT)).

Definition hartmask_wf (m : hartmask) : Prop := bitstr_wf CONFIG_PLATFORM_HART_COUNT m.

(** A mask as it comes out of [heap_alloc()]: no bits. *)
Definition hartmask_none : hartmask := replicate (Z.to_nat (bitstr_size CONFIG_PLATFORM_HART_COUNT)) 0.

Lemma bitstr_size_nonneg (nbits : Z) : 0 <= nbits -> 0 <= bitstr_size nbits.
Proof. intros. unfold bitstr_size. pose proof BITSTR_BITS_pos. apply Z.div_pos; lia. Qed.

Lemma hartmask_none_wf : 0 <= CONFIG_PLATFORM_HART_COUNT -> hartmask_wf hartmask_none.
Proof.
  intros Hc. split.
  - unfold hartmask_none. rewrite length_replicate.
    pose proof (bitstr_size_nonneg _ Hc). lia.
  - apply Forall_replicate. split; [lia|apply pow_XLEN_pos].
Qed.

Lemma hartmask_test_none (i : Z) : hartmask_test hartmask_none i = false.
Proof.
  unfold hartmask_test, bit_test, bitstr_get, hartmask_none.
  destruct (replicate _ 0 !! _) as [v|] eqn:E; cbn; [|done].
  apply lookup_replicate in E as [-> _]. done.
Qed.

(** An empty mask, and only an empty mask, has no hart of the machine. *)
Lemma hartmask_empty_test (m : hartmask) (i : Z) :
  hartmask_empty_atomic m = true -> 0 <= i < CONFIG_PLATFORM_HART_COUNT -> hartmask_test m i = false.
Proof.
  unfold hartmask_empty_atomic. intros He Hi. rewrite forallb_forall in He.
  unfold hartmask_test. rewrite bit_test_testbit.
  pose proof (bit_word_bound CONFIG_PLATFORM_HART_COUNT i Hi) as Hw.
  assert (bitstr_get m (bit_word i) = 0) as ->; [|apply Z.bits_0].
  apply Z.eqb_eq, He, list_elem_of_In, elem_of_seqZ. lia.
Qed.

(** [hartmask_clear_all] empties a mask of any contents. *)
Lemma hartmask_clear_all_none (m : hartmask) :
  0 <= CONFIG_PLATFORM_HART_COUNT -> hartmask_wf m -> hartmask_clear_all m = hartmask_none.
Proof.
  intros Hc [Hlen _]. unfold hartmask_clear_all, hartmask_none.
  set (n := Z.to_nat (bitstr_size CONFIG_PLATFORM_HART_COUNT)).
  assert (length m = n) as Hn by lia.
  set (P := fun (k : nat) (l : hartmask) => length l = n /\
     forall j, (j < k)%nat -> l !! j = Some 0).
  assert (P n (for_upto n (fun i m => bitstr_put m i 0) m)) as [H1 H2].
  { apply for_upto_ind; [split; [done|lia]|].
    intros i l Hi [Hl Hj]. unfold bitstr_put. split; [by rewrite length_insert|].
    intros j Hj'. rewrite Nat2Z.id. destruct (decide (i = j)) as [->|].
    - apply list_lookup_insert_eq. lia.
    - rewrite list_lookup_insert_ne by done. apply Hj. lia. }
  apply list_eq. intros j. destruct (decide (j < n)%nat).
  - rewrite H2, lookup_replicate_2 by done. done.
  - rewrite !lookup_ge_None_2; [done|rewrite length_replicate; lia|lia].
Qed.
End Hartmask.
End Bitstring.
Abbreviation hartmask := bitstr.

(** Bit 70 of a string of two 64-bit words, found past an empty first word. *)
Lemma bit_ffs_from_first_witness :
  @bit_ffs_from RV64 [0; 2 ^ 6] 128 0 = 70 /\
  first_from (@bit_test RV64 [0; 2 ^ 6]) 0 128 (@bit_ffs_from RV64 [0; 2 ^ 6] 128 0).
Proof. split; [reflexivity|]. apply (@bit_ffs_from_first RV64). lia. Defined.
