(* ===== verification/Domain.v ===== *)
(** Domains, [arch/riscv/runtime/domain.c] and [include/domain.h]: the
    model of a domain, the list of its memory regions, the address check
    every SBI call that names memory goes through, and the lookups of the
    domain table.

    The domain table is the list of the domains, the root domain first; a
    [struct domain *] is the position in it. *)

From S2P Require Import Prelude Arch Bitstring Memregion.
From stdpp Require Import strings sorting.
#[local] Open Scope Z_scope.

(** Region permissions ([domain.h]) *)
Definition DOMAIN_PERM_SU_R : Z := Z.shiftl 1 3.
Definition DOMAIN_PERM_SU_W : Z := Z.shiftl 1 4.
Definition DOMAIN_PERM_SU_X : Z := Z.shiftl 1 5.
Definition DOMAIN_PERM_SU_SHIFT : Z := 3.
Definition DOMAIN_PERM_SU_RWX : Z :=
  Z.lor (Z.lor DOMAIN_PERM_SU_R DOMAIN_PERM_SU_W) DOMAIN_PERM_SU_X.

Record domain_region : Set := DomainRegion {
  dr_base : Z;
  dr_order : Z; (* size = 2^order; XLEN: everything *)
  dr_perm : Z;
  dr_mmio : bool;
}.

Record domain : Set := Domain {
  d_name : string;
  d_index : Z; (* 0 is the root domain *)
  d_phandle : Z;
  d_possible : hartmask; (* harts that may run it, by index *)
  d_assigned : hartmask; (* harts that run it now *)
  d_parked : hartmask; (* harts away in another domain, to come back *)
  d_stopping : Z; (* domain_stop() is at work *)
  d_regions : list domain_region; (* sorted, smallest first; nr_regions of them *)
  d_max_regions : Z;
  d_boot_hart : Z; (* hart index, -1: none *)
  d_next_addr : Z;
  d_next_arg1 : Z;
  d_next_mode : Z;
  d_next_arg1_given : bool;
  d_reset_allowed : bool;
  d_suspend_allowed : bool;
  d_entry_from : option bitstr; (* bit per domain that may enter this one *)
}.

#[export] Instance domain_eta : Settable domain := fun d =>
  Domain (d_name d) (d_index d) (d_phandle d) (d_possible d) (d_assigned d) (d_parked d)
    (d_stopping d) (d_regions d) (d_max_regions d) (d_boot_hart d) (d_next_addr d)
    (d_next_arg1 d) (d_next_mode d) (d_next_arg1_given d) (d_reset_allowed d)
    (d_suspend_allowed d) (d_entry_from d).

Section Domain.
Context {AR : Arch} {KC : Kconfig}.

(** ** Lookups *)

Definition domain_count (domains : list domain) : Z := Z.of_nat (length domains).

Definition domain_by_index (domains : list domain) (index : Z) : option domain :=
  if index <? domain_count domains then domains !! Z.to_nat index else None.

(** Who may have a hart enter [target]: the domains its node lists, and
    nobody the root domain. *)
Definition domain_may_enter (from target : domain) : bool :=
  truth (d_index target) &&
  match d_entry_from target with
  | Some l => bit_test l (d_index from)
  | None => false
  end.

(** From domain 1 on: the root domain has no node. *)
Definition domain_by_phandle (domains : list domain) (phandle : Z) : option domain :=
  if phandle =? 0 then None
  else List.find (fun d => d_phandle d =? phandle) (drop 1 domains).

(** ** Members ([domain.h]) *)

Definition domain_hart_assigned (dom : domain) (index : Z) : bool :=
  hartmask_test (d_assigned dom) index.
Definition domain_hart_member (dom : domain) (index : Z) : bool :=
  hartmask_test (d_assigned dom) index || hartmask_test (d_parked dom) index.
Definition domain_has_parked (dom : domain) : bool := negb (hartmask_empty_atomic (d_parked dom)).

(** ** The address check *)

(** Inclusive, so that the top of the address space fits. *)
Definition region_last (r : domain_region) : Z :=
  if XLEN <=? dr_order r then unot 0 else dr_base r +! BIT (dr_order r) -! 1.

(** The loop: the first region that has anything of the range decides, and
    it has to have all of it. *)
Fixpoint regions_range_ok (regions : list domain_region) (addr last perm : Z) : bool :=
  match regions with
  | [] => false
  | r :: regions =>
      if (region_last r <? addr) || (last <? dr_base r)
      then regions_range_ok regions addr last perm
      else (dr_base r <=? addr) && (last <=? region_last r) && (Z.land (dr_perm r) perm =? perm)
  end.

(** [memregions] is the monitor's list; [None] stands for the null pointer
    of the early boot. *)
Definition domain_range_ok (memregions : list memregion) (dom : option domain)
    (addr size perm : Z) : bool :=
  let last := addr +! size -! 1 in
  if size =? 0 then true
  else if (last <? addr) || negb (monitor_range_clear memregions addr size) then false
  else match dom with
       | None => true
       | Some dom => regions_range_ok (d_regions dom) addr last perm
       end.

(** The three uses of [hart.c], on the calling hart's domain. *)
Definition smode_range_ok (memregions : list memregion) (dom : option domain) (addr size : Z) : bool :=
  domain_range_ok memregions dom addr size (Z.lor DOMAIN_PERM_SU_R DOMAIN_PERM_SU_W).
Definition smode_range_readable (memregions : list memregion) (dom : option domain) (addr size : Z) : bool :=
  domain_range_ok memregions dom addr size DOMAIN_PERM_SU_R.
Definition smode_entry_ok (memregions : list memregion) (dom : option domain) (addr : Z) : bool :=
  domain_range_ok memregions dom addr 4 DOMAIN_PERM_SU_X.

(** ** Adding a region *)

(** [regions[i]] of an array with room for one more: what has a larger order
    moves up one place, from the end down. *)
Fixpoint region_shift (regions : list domain_region) (i : nat) (new : domain_region)
    : list domain_region :=
  match i with
  | O => <[O := new]> regions
  | S i' =>
      match regions !! i' with
      | Some r =>
          if dr_order new <? dr_order r
          then region_shift (<[i := r]> regions) i' new
          else <[i := new]> regions
      | None => regions
      end
  end.

(** [-1] when the array is full. *)
Definition add_region (dom : domain) (base order perm : Z) (mmio : bool) : domain * Z :=
  let nr_regions := length (d_regions dom) in
  if Z.of_nat nr_regions =? d_max_regions dom then (dom, -1)
  else
    let new := DomainRegion base order perm mmio in
    let slot := DomainRegion 0 0 0 false in
    (dom <| d_regions := region_shift (d_regions dom ++ [slot]) nr_regions new |>, 0).

Definition regions_alloc (dom : domain) (max : Z) : domain :=
  dom <| d_regions := [] |> <| d_max_regions := max |>.

(** ** The root domain *)

Definition domain_zero : domain :=
  Domain "" 0 0 hartmask_none hartmask_none hartmask_none 0 [] 0 0 0 0 0 false false false None.

(** [nr_harts] harts in the hart table, all of them the root domain's. *)
Definition root_domain_init (nr_harts boot_hart next_addr next_mode : Z) : domain :=
  let root := domain_zero <| d_name := "root"%string |> <| d_boot_hart := boot_hart |>
    <| d_next_addr := next_addr |> <| d_next_mode := next_mode |>
    <| d_reset_allowed := true |> <| d_suspend_allowed := true |> in
  let root := fst (add_region (regions_alloc root 1) 0 XLEN DOMAIN_PERM_SU_RWX false) in
  for_upto (Z.to_nat nr_harts)
    (fun i root => root <| d_possible := hartmask_set (d_possible root) i |>
                        <| d_assigned := hartmask_set (d_assigned root) i |>) root.

(** ** Well-formed regions *)

(** What [instance_parse] lets through: a naturally aligned power of two
    below the top of the address space, or everything. *)
Definition region_wf (r : domain_region) : Prop :=
  3 <= dr_order r <= XLEN /\ 0 <= dr_perm r /\
  (dr_order r < XLEN -> is_ulong (dr_base r) /\ dr_base r mod 2 ^ dr_order r = 0) /\
  (dr_order r = XLEN -> dr_base r = 0).

(** The end of a region, exclusive. *)
Definition region_end (r : domain_region) : Z := dr_base r + 2 ^ dr_order r.

Lemma region_end_bound (r : domain_region) : region_wf r -> 0 <= dr_base r /\ region_end r <= 2 ^ XLEN.
Proof.
  intros (Ho & _ & Ha & Hx). unfold region_end.
  destruct (decide (dr_order r = XLEN)) as [E|].
  { rewrite (Hx E), E. lia. }
  destruct Ha as [[Hb0 Hb1] Hm]; [lia|]. split; [done|].
  apply Z.mod_divide in Hm as [m Hm]; [|pose proof (pow2_pos (dr_order r)); lia].
  rewrite Hm in *. rewrite (pow2_split XLEN (dr_order r)) in * by lia.
  apply multiple_lt; [apply pow2_pos; lia|lia].
Qed.

Lemma region_last_eq (r : domain_region) : region_wf r -> region_last r = region_end r - 1.
Proof.
  intros Hwf. pose proof (region_end_bound r Hwf) as [H0 He].
  destruct Hwf as (Ho & _ & Ha & Hx). unfold region_last.
  destruct (Z.leb_spec XLEN (dr_order r)).
  - assert (dr_order r = XLEN) as E by lia. unfold region_end.
    rewrite (Hx E), E, unot_eq by (split; [lia|apply pow_XLEN_pos]). lia.
  - rewrite BIT_small by lia. unfold region_end in *. pose proof (pow2_pos (dr_order r) ltac:(lia)).
    unfold usub, uadd. destruct (Z.eq_dec (dr_base r + 2 ^ dr_order r) (2 ^ XLEN)) as [E|E].
    + rewrite E, (wrap_over (2 ^ XLEN)) by lia. rewrite wrap_neg by lia. lia.
    + rewrite (wrap_small (_ + _)) by (split; lia). apply wrap_small. split; lia.
Qed.

(** The permissions asked for are among the region's. *)
Definition perm_granted (r : domain_region) (perm : Z) : Prop := Z.land (dr_perm r) perm = perm.

(** What the loop decides, in terms of ranges of bytes: some region has all
    of the range with the permissions, and no region before it has any. *)
Lemma regions_range_ok_spec (regions : list domain_region) (addr size perm : Z) :
  Forall region_wf regions -> 0 <= addr -> 0 < size ->
  regions_range_ok regions addr (addr + size - 1) perm = true <->
  exists before r after, regions = before ++ r :: after /\
    dr_base r <= addr /\ addr + size <= region_end r /\ perm_granted r perm /\
    Forall (fun r' => overlaps addr (addr + size) (dr_base r') (region_end r') = false) before.
Proof.
  intros Hwf Ha Hs. induction Hwf as [|r regions Hr Hrs IH]; cbn [regions_range_ok].
  { split; [done|]. intros (before & r & after & E & _). by destruct before. }
  rewrite (region_last_eq r Hr).
  assert ((region_end r - 1 <? addr) || (addr + size - 1 <? dr_base r) =
          negb (overlaps addr (addr + size) (dr_base r) (region_end r))) as ->.
  { unfold overlaps. case_cmp; cbn; lia. }
  destruct (overlaps _ _ _ _) eqn:Eo; cbn [negb].
  - split.
    + intros Ht. bool_prop. exists [], r, regions. split_and!; try done; lia.
    + intros (before & r' & after & E & H1 & H2 & H3 & Hb). destruct before as [|r0 before].
      * injection E as <- <-. rewrite !andb_true_iff, !Z.leb_le, Z.eqb_eq. split_and!; try done; lia.
      * injection E as <- ->. apply Forall_cons in Hb as [Hb _]. congruence.
  - rewrite IH. split.
    + intros (before & r' & after & -> & ? & ? & ? & ?). exists (r :: before), r', after.
      split_and!; try done. by constructor.
    + intros (before & r' & after & E & H1 & H2 & H3 & Hb). destruct before as [|r0 before].
      * injection E as <- <-. exfalso. unfold overlaps in Eo. apply andb_false_iff in Eo as [?|?]; bool_prop; lia.
      * injection E as <- ->. apply Forall_cons in Hb as [_ Hb]. by exists before, r', after.
Qed.

Lemma range_last (addr size : Z) :
  is_ulong addr -> is_ulong size -> 0 < size -> addr + size <= 2 ^ XLEN ->
  addr +! size -! 1 = addr + size - 1.
Proof.
  unfold is_ulong. intros Ha Hs Hp Hf. unfold usub, uadd.
  destruct (Z.eq_dec (addr + size) (2 ^ XLEN)) as [E|E].
  - rewrite E, (wrap_over (2 ^ XLEN)) by lia. rewrite wrap_neg by lia. lia.
  - rewrite (wrap_small (_ + _)) by (split; lia). apply wrap_small. split; lia.
Qed.

(** The whole check: what is not rejected is in memory of the domain's with
    the permissions asked for, and clear of the monitor's. *)
Lemma domain_range_ok_iff (memregions : list memregion) (dom : domain) (addr size perm : Z) :
  Forall region_wf (d_regions dom) -> is_ulong addr -> is_ulong size -> 0 < size ->
  domain_range_ok memregions (Some dom) addr size perm = true <->
  monitor_range_clear memregions addr size = true /\
  exists before r after, d_regions dom = before ++ r :: after /\
    dr_base r <= addr /\ addr + size <= region_end r /\ perm_granted r perm /\
    Forall (fun r' => overlaps addr (addr + size) (dr_base r') (region_end r') = false) before.
Proof.
  intros Hwf Ha Hs Hp. unfold domain_range_ok. destruct (Z.eqb_spec size 0); [lia|].
  destruct (monitor_range_clear memregions addr size) eqn:Ec.
  2:{ rewrite orb_true_r. split; [done|]. by intros [? _]. }
  assert (addr + size < 2 ^ XLEN) as Hfit.
  { revert Ec. unfold monitor_range_clear. destruct (addr +! size <? addr) eqn:E; [done|].
    intros _. destruct (Z.le_gt_cases (2 ^ XLEN) (addr + size)); [|done].
    assert ((addr +! size <? addr) = true) by (apply uadd_carry; done). congruence. }
  rewrite range_last by (done || lia).
  destruct (Z.ltb_spec (addr + size - 1) addr); [lia|]. cbn [orb negb].
  rewrite regions_range_ok_spec by (done || unfold is_ulong in *; lia). tauto.
Qed.

(** ** Insertion by size *)

Definition by_order (a b : domain_region) : Prop := dr_order a <= dr_order b.

(** The shifting loop puts the new region behind the last one that is not
    larger. *)
Lemma region_shift_split (l tl : list domain_region) (x new : domain_region) :
  exists l1 l2, l = l1 ++ l2 /\
    region_shift (l ++ x :: tl) (length l) new = l1 ++ new :: l2 ++ tl /\
    Forall (fun r => dr_order new < dr_order r) l2 /\
    (forall r, last l1 = Some r -> dr_order r <= dr_order new).
Proof.
  revert x tl. induction l as [|r l IH] using rev_ind; intros x tl.
  { exists [], []. split_and!; try done. }
  rewrite length_app, Nat.add_1_r. cbn [region_shift].
  rewrite <- app_assoc. cbn [app]. rewrite lookup_app_r, Nat.sub_diag by lia. cbn.
  destruct (Z.ltb_spec (dr_order new) (dr_order r)).
  - replace (<[S (length l):=r]> (l ++ r :: x :: tl)) with (l ++ r :: r :: tl).
    2:{ rewrite insert_app_r_alt by lia. replace (S (length l) - length l)%nat with 1%nat by lia. done. }
    destruct (IH r (r :: tl)) as (l1 & l2 & -> & E & H2 & H1).
    exists l1, (l2 ++ [r]). split_and!.
    + by rewrite app_assoc.
    + rewrite E, <- app_assoc. done.
    + apply Forall_app; split; [done|]. by apply Forall_singleton.
    + done.
  - exists (l ++ [r]), []. split_and!.
    + by rewrite app_nil_r.
    + rewrite insert_app_r_alt by lia. replace (S (length l) - length l)%nat with 1%nat by lia.
      cbn. by rewrite <- app_assoc.
    + constructor.
    + intros r'. rewrite last_snoc. by intros [= <-].
Qed.

Lemma sorted_last_le (l : list domain_region) (r : domain_region) :
  StronglySorted by_order l -> last l = Some r -> Forall (fun a => dr_order a <= dr_order r) l.
Proof.
  intros Hs Hl. apply last_Some in Hl as [l' ->].
  induction l' as [|a l' IH]; cbn in *.
  - apply Forall_singleton. lia.
  - apply StronglySorted_inv in Hs as [Hs Ha]. constructor; [|by apply IH].
    apply Forall_app in Ha as [_ Ha]. apply Forall_cons in Ha as [Ha _]. exact Ha.
Qed.

Lemma sorted_insert (l1 l2 : list domain_region) (new : domain_region) :
  StronglySorted by_order (l1 ++ l2) ->
  Forall (fun r => dr_order new < dr_order r) l2 ->
  Forall (fun r => dr_order r <= dr_order new) l1 ->
  StronglySorted by_order (l1 ++ new :: l2).
Proof.
  induction l1 as [|a l1 IH]; cbn; intros Hs H2 H1.
  - constructor; [done|]. eapply Forall_impl; [done|]. unfold by_order. cbn. lia.
  - apply StronglySorted_inv in Hs as [Hs Ha]. apply Forall_cons in H1 as [Ha1 H1].
    constructor; [by apply IH|]. apply Forall_app in Ha as [Ha Ha2].
    apply Forall_app; split; [done|]. by constructor.
Qed.

(** [add_region] as a whole. *)
Lemma add_region_insert (dom : domain) (base order perm : Z) (mmio : bool) :
  StronglySorted by_order (d_regions dom) ->
  Z.of_nat (length (d_regions dom)) <> d_max_regions dom ->
  exists l1 l2, d_regions dom = l1 ++ l2 /\
    add_region dom base order perm mmio =
      (dom <| d_regions := l1 ++ DomainRegion base order perm mmio :: l2 |>, 0) /\
    StronglySorted by_order (l1 ++ DomainRegion base order perm mmio :: l2).
Proof.
  intros Hs Hn. unfold add_region. apply Z.eqb_neq in Hn as ->.
  destruct (region_shift_split (d_regions dom) [] (DomainRegion 0 0 0 false)
              (DomainRegion base order perm mmio)) as (l1 & l2 & E & Esh & H2 & H1).
  exists l1, l2. rewrite Esh, app_nil_r. split_and!; [done..|].
  rewrite E in Hs. apply sorted_insert; [done..|].
  destruct (last l1) as [r|] eqn:El.
  - eapply Forall_impl; [by eapply sorted_last_le; [eapply StronglySorted_app_1_l|]|].
    cbn. intros a Ha. specialize (H1 r eq_refl). cbn in H1. lia.
  - apply last_None in El as ->. constructor.
Qed.

(** ** The check, byte by byte *)

(** the address check. [domain_range_ok] accepts a range exactly when it
    ends below the top of the address space, no byte of it is the
    monitor's alone, and the first of the domain's regions that has any of
    it has all of it, with the permissions asked for. *)
Theorem domain_range_ok_spec (memregions : list memregion) (dom : domain) (addr size perm : Z) :
  Forall memregion_wf memregions -> Forall region_wf (d_regions dom) ->
  is_ulong addr -> is_ulong size -> 0 < size ->
  domain_range_ok memregions (Some dom) addr size perm = true <->
  addr + size < 2 ^ XLEN /\
  (forall k x, k <> MEMREGION_SHARED_RW -> addr <= x < addr + size -> ~ held memregions k x) /\
  exists before r after, d_regions dom = before ++ r :: after /\
    dr_base r <= addr /\ addr + size <= region_end r /\ perm_granted r perm /\
    Forall (fun r' => overlaps addr (addr + size) (dr_base r') (region_end r') = false) before.
Proof.
  intros Hm Hwf Ha Hs Hp. rewrite domain_range_ok_iff, monitor_range_clear_spec by done. tauto.
Qed.

(** the top of the address space is out of every domain's reach. A range
    whose last byte is the last address is turned down whatever the
    regions, the root domain's everything included, although [region_last]
    is kept inclusive for its sake. *)
Theorem domain_range_top_rejected (memregions : list memregion) (dom : option domain) (addr size perm : Z) :
  is_ulong addr -> is_ulong size -> 0 < size -> addr + size = 2 ^ XLEN ->
  domain_range_ok memregions dom addr size perm = false.
Proof.
  intros Ha Hs Hp E. unfold domain_range_ok. destruct (Z.eqb_spec size 0); [lia|].
  assert (monitor_range_clear memregions addr size = false) as ->.
  { unfold monitor_range_clear. assert ((addr +! size <? addr) = true) as -> by (apply uadd_carry; [done..|lia]).
    done. }
  by rewrite orb_true_r.
Qed.

(** ** The root domain *)

Lemma root_domain_init_regions (nr_harts boot_hart next_addr next_mode : Z) :
  d_regions (root_domain_init nr_harts boot_hart next_addr next_mode) =
    [DomainRegion 0 XLEN DOMAIN_PERM_SU_RWX false].
Proof.
  unfold root_domain_init. apply (for_upto_ind (fun _ d => d_regions d = [DomainRegion 0 XLEN DOMAIN_PERM_SU_RWX false])).
  - reflexivity.
  - intros i d _ E. exact E.
Qed.

Lemma root_domain_init_masks (nr_harts boot_hart next_addr next_mode : Z) :
  0 < CONFIG_PLATFORM_HART_COUNT -> 0 <= nr_harts <= CONFIG_PLATFORM_HART_COUNT ->
  let root := root_domain_init nr_harts boot_hart next_addr next_mode in
  hartmask_wf (d_assigned root) /\
  forall i, 0 <= i -> hartmask_test (d_assigned root) i = (i <? nr_harts).
Proof.
  intros Hc Hn root. assert (hartmask_wf hartmask_none) as Hnone by (apply hartmask_none_wf; lia).
  set (P := fun (k : nat) d => hartmask_wf (d_assigned d) /\
    forall i, 0 <= i -> hartmask_test (d_assigned d) i = (i <? Z.of_nat k)).
  assert (P (Z.to_nat nr_harts) root) as [HP1 HP2].
  { subst root. unfold root_domain_init. apply for_upto_ind.
    - split; [exact Hnone|]. intros i Hi.
      change (hartmask_test hartmask_none i = (i <? Z.of_nat 0)). rewrite hartmask_test_none. case_cmp; lia || done.
    - intros k d Hk [Hwf Ht]. unfold field_update, P. cbn [d_assigned]. split.
      + apply bit_set_wf; [done|lia].
      + intros i Hi. unfold hartmask_test, hartmask_set.
        rewrite (bit_test_set CONFIG_PLATFORM_HART_COUNT) by (done || lia).
        unfold hartmask_test in Ht. rewrite Ht by done. case_cmp; cbn; lia || done. }
  split; [done|]. intros i Hi. rewrite HP2 by done. case_cmp; lia || done.
Qed.

(** the root domain has every hart of the table, and all memory that is not
    the monitor's: of the ranges that end below the top of the address
    space its check turns down only those that touch a region of the
    monitor's alone. *)
Theorem root_domain_has_everything (memregions : list memregion)
    (nr_harts boot_hart next_addr next_mode addr size perm : Z) :
  KconfigOk -> 0 <= nr_harts <= CONFIG_PLATFORM_HART_COUNT -> Forall memregion_wf memregions ->
  is_ulong addr -> is_ulong size -> 0 < size -> addr + size < 2 ^ XLEN ->
  Z.land DOMAIN_PERM_SU_RWX perm = perm ->
  let root := root_domain_init nr_harts boot_hart next_addr next_mode in
  (forall i, 0 <= i -> domain_hart_assigned root i = (i <? nr_harts)) /\
  domain_range_ok memregions (Some root) addr size perm = monitor_range_clear memregions addr size.
Proof.
  intros Hk Hn Hm Ha Hs Hp Hx Hperm root. pose proof config_hart_count. split.
  { apply root_domain_init_masks; lia. }
  assert (Forall region_wf (d_regions root)) as Hwf.
  { unfold root. rewrite root_domain_init_regions. apply Forall_singleton. pose proof XLEN_bounds.
    split_and!; cbn; done || lia. }
  apply eq_true_iff_eq. rewrite domain_range_ok_iff by done. split; [tauto|]. intros Hc. split; [done|].
  unfold root. rewrite root_domain_init_regions. exists [], (DomainRegion 0 XLEN DOMAIN_PERM_SU_RWX false), [].
  unfold region_end, is_ulong in *. cbn. split_and!; try done; lia.
Qed.
End Domain.

(** Two harts; a page of RAM, and a page of the monitor's. *)
Lemma root_domain_has_everything_witness :
  let regions := [Memregion 0x80000000 0x200000 MEMREGION_MMODE_RW] in
  let root := @root_domain_init RV64 qemu_virt 2 0 0x80200000 1 in
  @domain_range_ok RV64 regions (Some root) 0x80200000 0x1000 DOMAIN_PERM_SU_R =
    @monitor_range_clear RV64 regions 0x80200000 0x1000.
Proof.
  apply (@root_domain_has_everything RV64 qemu_virt [Memregion 0x80000000 0x200000 MEMREGION_MMODE_RW]
           2 0 0x80200000 1 0x80200000 0x1000 DOMAIN_PERM_SU_R qemu_virt_ok);
    unfold is_ulong, memregion_wf; cbn; try lia; [|done].
  apply Forall_singleton. cbn. lia.
Defined.

Lemma domain_range_ok_spec_witness :
  @domain_range_ok RV32 [] (Some ((@domain_zero RV32 qemu_virt) <| d_regions := [DomainRegion 0x80000000 28 0x38 false] |>))
    0x80001000 8 DOMAIN_PERM_SU_RWX = true.
Proof.
  apply (@domain_range_ok_spec RV32 []
           ((@domain_zero RV32 qemu_virt) <| d_regions := [DomainRegion 0x80000000 28 0x38 false] |>)).
  - constructor.
  - apply Forall_singleton. unfold region_wf, is_ulong. cbn. done.
  - split; done.
  - split; done.
  - lia.
  - split; [done|]. split.
    + intros k x _ _ (r & Hr & _). by apply elem_of_nil in Hr.
    + exists [], (DomainRegion 0x80000000 28 0x38 false), []. unfold region_end, perm_granted. cbn. done.
Defined.

Lemma domain_range_top_rejected_witness :
  @domain_range_ok RV32 [] (Some (@root_domain_init RV32 qemu_virt 1 0 0 1)) 0xfffff000 0x1000 DOMAIN_PERM_SU_R = false.
Proof. apply (@domain_range_top_rejected RV32); unfold is_ulong; cbn; lia. Defined.
