(* ===== verification/PmpLayout.v ===== *)
(** What goes into the PMP entries, [arch/riscv/runtime/hart.c]: the
    monitor's regions, the rules of the domain a hart runs, and the window
    M-mode opens on S-mode memory under Smepmp.

    [pmp_layout] is the list of entries a hart ends up with, and
    [pmp_domain_set_layout] that the code writes exactly that. *)

From S2P Require Import Prelude Arch Csr Pmp PmpHw Bitstring Memregion Domain.

#[local] Open Scope Z_scope.

(** mseccfg ([pmp.h]) *)
Definition CSR_MSECCFG : Z := 0x747.
Definition MSECCFG_MML : Z := 0x1.
Definition MSECCFG_MMWP : Z := 0x2.
Definition MSECCFG_RLB : Z := 0x4.

Definition SMEPMP_WINDOW_ENTRIES : Z := 2.

Section PmpLayout.
Context {AR : Arch} {KC : Kconfig} {F : Features}.
(** The granularity [pmp_grain_set] found, and the monitor's regions. *)
Context (grain : Z) (memregions : list memregion).

Definition region_is_napot (r : memregion) : bool :=
  (8 <=? mr_size r) && IS_POWER_OF_TWO (mr_size r) && IS_ALIGNED (mr_base r) (mr_size r).

(** The first entry past the monitor's own. *)
Definition pmp_monitor_entries : Z :=
  foldl (fun n r =>
           if negb (bool_decide (mr_kind r = MEMREGION_SHARED_RW)) || hart_has HART_FEAT_SMEPMP
           then n + (if region_is_napot r then 1 else 2) else n)
    (if hart_has HART_FEAT_SMEPMP then SMEPMP_WINDOW_ENTRIES else 0) memregions.

Definition region_cfg (kind : memregion_kind) : Z :=
  if negb (hart_has HART_FEAT_SMEPMP) then 0
  else match kind with
       | MEMREGION_MMODE_RX => Z.lor (Z.lor PMP_L PMP_R) PMP_X
       | MEMREGION_MMODE_RW => Z.lor (Z.lor PMP_L PMP_R) PMP_W
       | MEMREGION_SHARED_RW => Z.lor PMP_W PMP_X
       end.

(** The loop of [pmp_hart_init]: the monitor's own regions from entry [at]
    on, the places of the shared ones left free. *)
Fixpoint monitor_regions_set (rs : list memregion) (at_ : Z) (c : csr_file) : outcome csr_file :=
  match rs with
  | [] => Ret c
  | r :: rs =>
      if bool_decide (mr_kind r = MEMREGION_SHARED_RW) && negb (hart_has HART_FEAT_SMEPMP)
      then monitor_regions_set rs at_ c
      else if CONFIG_RISCV_PMP_COUNT <? at_ + 3 then Panic
      else
        let c := if negb (bool_decide (mr_kind r = MEMREGION_SHARED_RW))
                 then fst (pmp_range_set grain c at_ (mr_base r) (mr_size r) (region_cfg (mr_kind r)))
                 else c in
        monitor_regions_set rs (at_ + (if region_is_napot r then 1 else 2)) c
  end.

(** A device the monitor uses as well is S-mode's only where the running
    domain's regions give it the device. *)
Fixpoint shared_regions_loop (dom : domain) (rs : list memregion) (at_ : Z) (c : csr_file) : csr_file :=
  match rs with
  | [] => c
  | r :: rs =>
      let c := if bool_decide (mr_kind r = MEMREGION_SHARED_RW)
               then fst (pmp_range_set grain c at_ (mr_base r) (mr_size r)
                           (if smode_range_ok memregions (Some dom) (mr_base r) (mr_size r)
                            then region_cfg MEMREGION_SHARED_RW
                            else region_cfg MEMREGION_MMODE_RW))
               else c in
      shared_regions_loop dom rs (at_ + (if region_is_napot r then 1 else 2)) c
  end.

Definition shared_regions_set (dom : domain) (c : csr_file) : csr_file :=
  if negb (hart_has HART_FEAT_SMEPMP) then c
  else shared_regions_loop dom memregions SMEPMP_WINDOW_ENTRIES c.

Definition pmp_domain_entries : Z :=
  if pmp_monitor_entries <? CONFIG_RISCV_PMP_COUNT
  then CONFIG_RISCV_PMP_COUNT - pmp_monitor_entries else 0.

(** A region's S/U-mode permissions as a pmpcfg byte; W without R is
    reserved, or another thing altogether (MML). *)
Definition domain_region_cfg (r : domain_region) : Z :=
  let su := Z.shiftr (dr_perm r) DOMAIN_PERM_SU_SHIFT in
  let cfg := Z.lor (Z.lor (if truth (Z.land su 1) then PMP_R else 0)
                          (if truth (Z.land su 2) then PMP_W else 0))
                   (if truth (Z.land su 4) then PMP_X else 0) in
  if truth (Z.land cfg PMP_W) && negb (truth (Z.land cfg PMP_R))
  then Z.ldiff cfg PMP_W else cfg.

(** The domain's regions from entry [at] on; the next free entry comes with
    the register file. *)
Fixpoint domain_regions_set (rs : list domain_region) (at_ : Z) (c : csr_file) : csr_file * Z :=
  match rs with
  | [] => (c, at_)
  | r :: rs =>
      if at_ =? CONFIG_RISCV_PMP_COUNT then (c, at_)
      else
        let cfg := domain_region_cfg r in
        if XLEN <=? dr_order r
        then domain_regions_set rs (at_ + 1) (pmp_all_set c at_ cfg)
        else
          let '(c, n) := pmp_range_set grain c at_ (dr_base r) (BIT (dr_order r)) cfg in
          domain_regions_set rs (at_ + n) c
  end.

(** [while (at < CONFIG_RISCV_PMP_COUNT) pmp_entry_set(at++, 0, 0)] *)
Definition pmp_rest_clear (c : csr_file) (at_ : Z) : csr_file :=
  foldl (fun c i => pmp_entry_set c i 0 0) c (seqZ at_ (CONFIG_RISCV_PMP_COUNT - at_)).

Definition pmp_domain_set (dom : domain) (c : csr_file) : csr_file :=
  if negb (hart_has HART_FEAT_PMP) then c
  else
    let c := shared_regions_set dom c in
    let '(c, at_) := domain_regions_set (d_regions dom) pmp_monitor_entries c in
    pmp_rest_clear c at_.

Definition pmp_hart_init (dom : domain) (c : csr_file) : outcome csr_file :=
  if negb (hart_has HART_FEAT_PMP) then
    if CONFIG_INSECURE_NO_PMP then Ret c else Panic
  else if hart_has HART_FEAT_SMEPMP && truth (Z.land (csr_read c CSR_MSECCFG) MSECCFG_MML)
  then Ret (pmp_domain_set dom c)
  else
    let '(c, idx) :=
      if hart_has HART_FEAT_SMEPMP
      then (pmp_entry_set (pmp_entry_set (csr_set c CSR_MSECCFG MSECCFG_RLB) 0 0 0) 1 0 0,
            SMEPMP_WINDOW_ENTRIES)
      else (c, 0) in
    c ← monitor_regions_set memregions idx c;
    let c := if hart_has HART_FEAT_SMEPMP
             then csr_set c CSR_MSECCFG (Z.lor MSECCFG_MML MSECCFG_MMWP) else c in
    Ret (pmp_domain_set dom c).

(** ** The window on S-mode memory *)

Record window : Set := Window { w_addr : Z; w_size : Z }.

(** The calling hart's window and PMP; the address comes back unchanged. *)
Definition smode_access_begin (w : window) (c : csr_file) (addr size : Z)
    : outcome (window * csr_file * Z) :=
  if truth size && negb (monitor_range_clear memregions addr size) then Panic
  else
    let c := if hart_has HART_FEAT_SMEPMP && truth size
             then pmp_entry_set (pmp_entry_set c 0 (ushr addr 2) 0) 1
                    (ushr (ROUNDUP2 (addr +! size) grain) 2) (Z.lor (Z.lor PMP_A_TOR PMP_W) PMP_X)
             else c in
    Ret (Window addr size, c, addr).

Definition smode_access_end (w : window) (c : csr_file) : window * csr_file :=
  (Window (w_addr w) 0, if hart_has HART_FEAT_SMEPMP then pmp_entry_cfg c 1 0 else c).

(** [store] writes the word to the memory [m]. *)
Definition smode_poke32 {M : Type} (store : Z -> Z -> M -> M) (w : window) (c : csr_file) (m : M)
    (addr val : Z) : outcome (window * csr_file * M) :=
  let outer := w in
  '(w, c, a) ← smode_access_begin w c addr 4;
  let m := store a val m in
  let '(w, c) := smode_access_end w c in
  if truth (w_size outer)
  then '(w, c, _) ← smode_access_begin w c (w_addr outer) (w_size outer); Ret (w, c, m)
  else Ret (w, c, m).
End PmpLayout.

(** * The entries a hart ends up with *)

Section Slots.
Context {AR : Arch}.

(** Entries from [idx] on, [None] where one is passed over. *)
Fixpoint slots_set (c : csr_file) (idx : Z) (os : list (option (Z * Z))) : csr_file :=
  match os with
  | [] => c
  | Some (a, cfg) :: os => slots_set (pmp_entry_set c idx a cfg) (idx + 1) os
  | None :: os => slots_set c (idx + 1) os
  end.

Definition slot_wf (o : option (Z * Z)) : Prop :=
  match o with Some e => entry_wf e | None => True end.

Lemma slots_set_app (c : csr_file) (idx : Z) (os os' : list (option (Z * Z))) :
  slots_set c idx (os ++ os') = slots_set (slots_set c idx os) (idx + Z.of_nat (length os)) os'.
Proof.
  revert c idx. induction os as [|[[a cfg]|] os IH]; intros c idx; cbn.
  - f_equal; lia.
  - rewrite IH. f_equal. lia.
  - rewrite IH. f_equal. lia.
Qed.

Lemma slots_set_entries (c : csr_file) (idx : Z) (es : list (Z * Z)) :
  pmp_entries_set c idx es = slots_set c idx (Some <$> es).
Proof. revert c idx. induction es as [|[a cfg] es IH]; intros c idx; cbn; [done|]. apply IH. Qed.

Lemma slots_set_none (c : csr_file) (idx : Z) (n : nat) : slots_set c idx (replicate n None) = c.
Proof. revert idx. induction n as [|n IH]; intros idx; cbn; [done|]. apply IH. Qed.

Lemma slots_set_wf (c : csr_file) (idx : Z) (os : list (option (Z * Z))) :
  csr_wf c -> csr_wf (slots_set c idx os).
Proof.
  revert c idx. induction os as [|[[a cfg]|] os IH]; intros c idx Hc; cbn; auto.
  apply IH, pmp_entry_set_wf, Hc.
Qed.

Lemma slots_set_view (c : csr_file) (idx : Z) (os : list (option (Z * Z))) (j : Z) :
  csr_wf c -> 0 <= idx -> idx + Z.of_nat (length os) <= 16 -> 0 <= j < 16 -> Forall slot_wf os ->
  pmp_entry (slots_set c idx os) j =
  if decide (idx <= j)
  then match os !! Z.to_nat (j - idx) with Some (Some e) => e | _ => pmp_entry c j end
  else pmp_entry c j.
Proof.
  intros Hc Hi Hl Hj Hes. revert c idx Hc Hi Hl.
  induction Hes as [|o os Ho Hes IH]; intros c idx Hc Hi Hl; cbn [slots_set length] in *.
  { case_decide; done. }
  assert (forall c', csr_wf c' -> pmp_entry (slots_set c' (idx + 1) os) j =
    if decide (idx + 1 <= j)
    then match os !! Z.to_nat (j - (idx + 1)) with Some (Some e) => e | _ => pmp_entry c' j end
    else pmp_entry c' j) as IH' by (intros; apply IH; [done|lia..]).
  destruct (decide (idx + 1 <= j)) as [Hij|Hij].
  - rewrite decide_True by lia. replace (Z.to_nat (j - idx)) with (S (Z.to_nat (j - (idx + 1)))) by lia.
    cbn. destruct o as [[a cfg]|]; rewrite IH' by (done || by apply pmp_entry_set_wf); [|done].
    rewrite pmp_entry_set_view by (destruct Ho; cbn in *; done || lia). rewrite decide_False by lia. done.
  - destruct o as [[a cfg]|]; rewrite IH' by (done || by apply pmp_entry_set_wf).
    + destruct Ho as [Ha Hcfg]; cbn in *. rewrite pmp_entry_set_view by (done || lia).
      repeat case_decide; try lia; try done. subst j.
      replace (Z.to_nat (idx - idx)) with 0%nat by lia. cbn. by rewrite wrap_small.
    + case_decide; [|done]. replace (Z.to_nat (j - idx)) with 0%nat by lia. done.
Qed.

(** Writing mseccfg leaves the entries alone. *)
Lemma pmp_entry_mseccfg (c : csr_file) (v j : Z) :
  0 <= j < 16 -> pmp_entry (csr_set c CSR_MSECCFG v) j = pmp_entry c j.
Proof.
  intros Hj. unfold pmp_entry, pmpaddr_of, pmpcfg_of, csr_set. rewrite !csr_read_write.
  rewrite !decide_False; [done|..]; unfold CSR_MSECCFG, CSR_PMPCFG0, CSR_PMPADDR0; [|lia].
  destruct PMP_CFG_PER_REG_cases as [-> | ->]; [change (4 / 4) with 1|change (8 / 4) with 2];
    Z.div_mod_to_equations; lia.
Qed.

(** And the entries' registers are not mseccfg. *)
Lemma pmpcfg_update_mseccfg (c : csr_file) (idx cfg : Z) :
  0 <= idx -> csr_read (pmpcfg_update c idx cfg) CSR_MSECCFG = csr_read c CSR_MSECCFG.
Proof.
  intros Hi. unfold pmpcfg_update. case_match eqn:Er; [|done]. apply Z.ltb_lt in Er.
  unfold csr_set, csr_clear. rewrite !csr_read_write, !decide_False; [done|..];
    unfold CSR_MSECCFG, CSR_PMPCFG0; lia.
Qed.

Lemma pmp_entry_set_mseccfg (c : csr_file) (idx a cfg : Z) :
  0 <= idx -> csr_read (pmp_entry_set c idx a cfg) CSR_MSECCFG = csr_read c CSR_MSECCFG.
Proof.
  intros Hi. unfold pmp_entry_set. case_match eqn:E; [done|]. rewrite pmpcfg_update_mseccfg by done.
  unfold pmpaddr_write. case_match; [|by apply pmpcfg_update_mseccfg].
  rewrite csr_read_write, decide_False by (apply Z.leb_gt in E; unfold CSR_MSECCFG, CSR_PMPADDR0; lia).
  by apply pmpcfg_update_mseccfg.
Qed.

Lemma slots_set_mseccfg (c : csr_file) (idx : Z) (os : list (option (Z * Z))) :
  0 <= idx -> csr_read (slots_set c idx os) CSR_MSECCFG = csr_read c CSR_MSECCFG.
Proof.
  revert c idx. induction os as [|[[a cfg]|] os IH]; intros c idx Hi; cbn; [done|..].
  - rewrite IH by lia. by apply pmp_entry_set_mseccfg.
  - apply IH. lia.
Qed.

(** The first [n] entries. *)
Definition pmp_entries (c : csr_file) (n : Z) : list (Z * Z) := pmp_entry c <$> seqZ 0 n.

Lemma pmp_entries_lookup (c : csr_file) (n : Z) (j : nat) :
  pmp_entries c n !! j = if decide (Z.of_nat j < n) then Some (pmp_entry c (Z.of_nat j)) else None.
Proof.
  unfold pmp_entries. rewrite list_lookup_fmap. case_decide.
  - rewrite lookup_seqZ_lt by lia. cbn. do 2 f_equal.
  - rewrite lookup_seqZ_ge by lia. done.
Qed.
End Slots.

Section Layout.
Context {AR : Arch} {KC : Kconfig} {F : Features}.
Context (grain : Z) (memregions : list memregion).

Abbreviation smepmp := (hart_has HART_FEAT_SMEPMP).
Definition is_shared (r : memregion) : bool := bool_decide (mr_kind r = MEMREGION_SHARED_RW).

(** A region's entries, for the domain that runs. *)
Definition region_rule_cfg (dom : domain) (r : memregion) : Z :=
  if is_shared r
  then if smode_range_ok memregions (Some dom) (mr_base r) (mr_size r)
       then region_cfg MEMREGION_SHARED_RW else region_cfg MEMREGION_MMODE_RW
  else region_cfg (mr_kind r).
Definition region_entries (dom : domain) (r : memregion) : list (Z * Z) :=
  if is_shared r && negb smepmp then []
  else range_entries grain (mr_base r) (mr_size r) (region_rule_cfg dom r).
Definition regions_layout (dom : domain) : list (Z * Z) := concat (region_entries dom <$> memregions).

(** A domain region's. *)
Definition domain_region_entries (r : domain_region) : list (Z * Z) :=
  if XLEN <=? dr_order r then [(unot 0, Z.lor PMP_A_NAPOT (domain_region_cfg r))]
  else range_entries grain (dr_base r) (BIT (dr_order r)) (domain_region_cfg r).
Definition domain_layout (dom : domain) : list (Z * Z) :=
  concat (domain_region_entries <$> d_regions dom).

(** The whole: window (closed, whatever addresses it was last open on),
    monitor, domain, and nothing. *)
Definition pmp_layout (wa : Z * Z) (dom : domain) : list (Z * Z) :=
  let l := (if smepmp then [(fst wa, 0); (snd wa, 0)] else []) ++
           regions_layout dom ++ domain_layout dom in
  l ++ replicate (Z.to_nat CONFIG_RISCV_PMP_COUNT - length l) (0, 0).

(** The two passes over the regions, as slots. *)
Definition pass (p : memregion -> bool) (f : memregion -> list (Z * Z)) (r : memregion)
    : list (option (Z * Z)) := (fun e => if p r then Some e else None) <$> f r.

Lemma region_entries_length (dom : domain) (r : memregion) :
  is_shared r && negb smepmp = false ->
  Z.of_nat (length (region_entries dom r)) = if region_is_napot r then 1 else 2.
Proof.
  intros Hk. unfold region_entries. rewrite Hk. unfold range_entries, region_is_napot.
  destruct (_ && _ && _); done.
Qed.

Lemma pass_true (p : memregion -> bool) (f : memregion -> list (Z * Z)) (r : memregion) :
  p r = true -> pass p f r = Some <$> f r.
Proof. intros E. unfold pass. rewrite E. done. Qed.

Lemma pass_false (p : memregion -> bool) (f : memregion -> list (Z * Z)) (r : memregion) :
  p r = false -> pass p f r = replicate (length (f r)) None.
Proof. intros E. unfold pass. rewrite E. induction (f r); cbn; [done|]. by f_equal. Qed.

Lemma monitor_regions_set_slots (dom : domain) (rs : list memregion) (at_ : Z) (c c' : csr_file) :
  at_ <= CONFIG_RISCV_PMP_COUNT ->
  monitor_regions_set grain rs at_ c = Ret c' ->
  c' = slots_set c at_ (concat (pass (fun r => negb (is_shared r)) (region_entries dom) <$> rs)) /\
  at_ + Z.of_nat (length (concat (region_entries dom <$> rs))) <= CONFIG_RISCV_PMP_COUNT.
Proof.
  revert at_ c. induction rs as [|r rs IH]; intros at_ c Hat Hs; cbn in Hs |- *.
  { injection Hs as <-. split; [done|lia]. }
  rewrite length_app.
  destruct (bool_decide (mr_kind r = MEMREGION_SHARED_RW) && negb smepmp) eqn:Hskip.
  - assert (region_entries dom r = []) as E by (unfold region_entries, is_shared; by rewrite Hskip).
    unfold pass at 1. rewrite E. cbn. by apply IH.
  - destruct (Z.ltb_spec CONFIG_RISCV_PMP_COUNT (at_ + 3)) as [|Hroom]; [done|].
    pose proof (region_entries_length dom r Hskip) as Hlen.
    assert (at_ + Z.of_nat (length (region_entries dom r)) <= CONFIG_RISCV_PMP_COUNT) as Hfit
      by (rewrite Hlen; destruct (region_is_napot r); lia).
    rewrite <- Hlen in Hs. apply IH in Hs as [-> Hend]; [|done].
    split; [|lia]. rewrite slots_set_app. f_equal; [|unfold pass; rewrite length_fmap; done].
    fold (is_shared r) in *. destruct (is_shared r) eqn:Esh; cbn [negb].
    + rewrite pass_false by (by rewrite Esh). by rewrite slots_set_none.
    + rewrite pass_true by (by rewrite Esh). unfold region_entries, region_rule_cfg.
      rewrite Esh, pmp_range_set_entries, slots_set_entries. done.
Qed.

Lemma shared_regions_loop_slots (dom : domain) (rs : list memregion) (at_ : Z) (c : csr_file) :
  smepmp = true ->
  shared_regions_loop grain memregions dom rs at_ c =
  slots_set c at_ (concat (pass is_shared (region_entries dom) <$> rs)).
Proof.
  intros Hsm. revert at_ c. induction rs as [|r rs IH]; intros at_ c; cbn; [done|].
  assert (is_shared r && negb smepmp = false) as Hk by (rewrite Hsm; apply andb_false_r).
  rewrite <- (region_entries_length dom r Hk), IH, slots_set_app.
  f_equal; [|unfold pass; by rewrite length_fmap].
  fold (is_shared r). destruct (is_shared r) eqn:Esh.
  - rewrite pass_true by done. unfold region_entries, region_rule_cfg.
    rewrite Esh, Hsm. cbn [negb andb]. rewrite pmp_range_set_entries, slots_set_entries. done.
  - rewrite pass_false by done. by rewrite slots_set_none.
Qed.

Lemma domain_region_entries_length (r : domain_region) :
  region_wf r -> length (domain_region_entries r) = 1%nat.
Proof.
  intros (Ho & _ & Ha & _). unfold domain_region_entries.
  destruct (Z.leb_spec XLEN (dr_order r)); [done|]. destruct Ha as [Hb Hm]; [lia|].
  unfold range_entries. rewrite BIT_small by lia.
  assert (is_ulong (2 ^ dr_order r)) as Hu.
  { split; [pose proof (pow2_pos (dr_order r)); lia|]. apply Z.pow_lt_mono_r; lia. }
  assert (IS_POWER_OF_TWO (2 ^ dr_order r) = true) as ->
    by (apply IS_POWER_OF_TWO_spec; [done|exists (dr_order r); split; [lia|done]]).
  assert (IS_ALIGNED (dr_base r) (2 ^ dr_order r) = true) as ->
    by (apply IS_ALIGNED_spec; [lia|done]).
  pose proof (pow2_le 3 (dr_order r) ltac:(lia)) as H8. change (2 ^ 3) with 8 in H8.
  apply Z.leb_le in H8 as ->. done.
Qed.

Lemma domain_layout_length (rs : list domain_region) :
  Forall region_wf rs -> length (concat (domain_region_entries <$> rs)) = length rs.
Proof.
  induction 1 as [|r rs Hr _ IH]; cbn; [done|].
  rewrite length_app, IH, domain_region_entries_length by done. done.
Qed.

Lemma domain_regions_set_slots (rs : list domain_region) (at_ : Z) (c : csr_file) :
  Forall region_wf rs -> at_ + Z.of_nat (length rs) <= CONFIG_RISCV_PMP_COUNT ->
  domain_regions_set grain rs at_ c =
  (slots_set c at_ (Some <$> concat (domain_region_entries <$> rs)), at_ + Z.of_nat (length rs)).
Proof.
  intros Hwf. revert at_ c. induction Hwf as [|r rs Hr Hrs IH]; intros at_ c Hroom; cbn in *.
  { f_equal; lia. }
  destruct (Z.eqb_spec at_ CONFIG_RISCV_PMP_COUNT); [lia|].
  pose proof (domain_region_entries_length r Hr) as Hlen.
  rewrite fmap_app, slots_set_app, length_fmap, Hlen.
  assert (domain_region_entries r = if XLEN <=? dr_order r
    then [(unot 0, Z.lor PMP_A_NAPOT (domain_region_cfg r))]
    else range_entries grain (dr_base r) (BIT (dr_order r)) (domain_region_cfg r)) as E by done.
  destruct (Z.leb_spec XLEN (dr_order r)).
  - rewrite IH by lia. rewrite E. cbn. f_equal. lia.
  - rewrite pmp_range_set_entries, <- E, Hlen, slots_set_entries, IH by lia. f_equal. lia.
Qed.

Lemma pmp_rest_clear_slots (c : csr_file) (at_ : Z) :
  at_ <= CONFIG_RISCV_PMP_COUNT ->
  pmp_rest_clear c at_ = slots_set c at_ (replicate (Z.to_nat (CONFIG_RISCV_PMP_COUNT - at_)) (Some (0, 0))).
Proof.
  intros Hat. unfold pmp_rest_clear. set (n := CONFIG_RISCV_PMP_COUNT - at_) in *.
  assert (0 <= n) as Hn by lia. clearbody n. clear Hat. revert c at_.
  replace n with (Z.of_nat (Z.to_nat n)) by lia. rewrite Nat2Z.id.
  induction (Z.to_nat n) as [|k IH]; intros c at_; [done|].
  rewrite seqZ_cons by lia. replace (Z.pred (Z.of_nat (S k))) with (Z.of_nat k) by lia.
  cbn. rewrite <- IH. done.
Qed.

(** ** Both passes together *)

Lemma pass_length (p : memregion -> bool) (f : memregion -> list (Z * Z)) (rs : list memregion) :
  length (concat (pass p f <$> rs)) = length (concat (f <$> rs)).
Proof.
  induction rs as [|r rs IH]; cbn; [done|]. rewrite !length_app, IH. unfold pass. by rewrite length_fmap.
Qed.

(** Every place is written by the pass its region belongs to. *)
Lemma pass_split (p : memregion -> bool) (f : memregion -> list (Z * Z)) (rs : list memregion)
    (k : nat) (e : Z * Z) :
  concat (f <$> rs) !! k = Some e ->
  (concat (pass p f <$> rs) !! k = Some (Some e)) \/
  (concat (pass p f <$> rs) !! k = Some None /\
   concat (pass (fun r => negb (p r)) f <$> rs) !! k = Some (Some e)).
Proof.
  revert k. induction rs as [|r rs IH]; intros k; cbn; [done|].
  destruct (decide (k < length (f r))%nat) as [Hk|Hk].
  - rewrite !lookup_app_l by (unfold pass; rewrite ?length_fmap; done).
    intros E. unfold pass. rewrite !list_lookup_fmap, E. cbn. destruct (p r); cbn; auto.
  - rewrite !lookup_app_r by (unfold pass; rewrite ?length_fmap; lia).
    unfold pass at 1 3 5. rewrite !length_fmap. apply IH.
Qed.

(** The monitor's own entries do not depend on the domain. *)
Lemma fixed_pass_indep (dom dom' : domain) (rs : list memregion) :
  concat (pass (fun r => negb (is_shared r)) (region_entries dom) <$> rs) =
  concat (pass (fun r => negb (is_shared r)) (region_entries dom') <$> rs).
Proof.
  induction rs as [|r rs IH]; cbn; [done|]. rewrite IH. f_equal.
  destruct (is_shared r) eqn:Esh.
  - rewrite !pass_false by (by rewrite Esh). f_equal.
    unfold region_entries, region_rule_cfg. rewrite Esh. destruct (negb smepmp); cbn; [done|].
    unfold range_entries. case_match; done.
  - rewrite !pass_true by (by rewrite Esh). unfold region_entries, region_rule_cfg. by rewrite Esh.
Qed.

Definition window_entries : Z := if smepmp then SMEPMP_WINDOW_ENTRIES else 0.

Lemma pmp_monitor_entries_eq (dom : domain) :
  pmp_monitor_entries memregions = window_entries + Z.of_nat (length (regions_layout dom)).
Proof.
  unfold pmp_monitor_entries, regions_layout, window_entries. generalize (if smepmp then SMEPMP_WINDOW_ENTRIES else 0).
  induction memregions as [|r rs IH]; intros n; cbn [foldl fmap list_fmap concat length].
  { cbn. lia. }
  rewrite IH, length_app, Nat2Z.inj_add.
  destruct (is_shared r && negb smepmp) eqn:Hk.
  - assert (region_entries dom r = []) as -> by (unfold region_entries; by rewrite Hk).
    apply andb_prop in Hk as [Hs%bool_decide_eq_true Hm]. rewrite (bool_decide_eq_true_2 _ Hs).
    apply negb_true_iff in Hm. rewrite Hm. cbn. lia.
  - rewrite (region_entries_length dom r Hk).
    assert (negb (bool_decide (mr_kind r = MEMREGION_SHARED_RW)) || smepmp = true) as ->.
    { fold (is_shared r). destruct (is_shared r), smepmp; done. }
    lia.
Qed.

(** What a hart's PMP holds whatever domain it runs: a closed window and
    the monitor's own rules. *)
Definition monitor_ruled (c : csr_file) : Prop :=
  csr_wf c /\
  (smepmp = true -> pmpcfg_of c 0 = 0 /\ pmpcfg_of c 1 = 0) /\
  forall dom (k : nat) e,
    concat (pass (fun r => negb (is_shared r)) (region_entries dom) <$> memregions) !! k = Some (Some e) ->
    window_entries + Z.of_nat k < 16 -> pmp_entry c (window_entries + Z.of_nat k) = e.

(** The regions' bounds are words. *)
Definition memregions_words : Prop :=
  Forall (fun r => is_ulong (mr_base r) /\ is_ulong (mr_size r)) memregions.

Lemma region_cfg_byte (kind : memregion_kind) : 0 <= region_cfg kind < 2 ^ 8.
Proof. unfold region_cfg. destruct (negb _); [split; done|]. destruct kind; split; done. Qed.

Lemma region_entries_wf (dom : domain) (r : memregion) :
  is_ulong (mr_base r) -> is_ulong (mr_size r) -> Forall entry_wf (region_entries dom r).
Proof.
  intros Hb Hs. unfold region_entries. case_match; [constructor|].
  apply range_entries_wf; [done..|]. unfold region_rule_cfg. repeat case_match; apply region_cfg_byte.
Qed.

Lemma regions_slots_wf (p : memregion -> bool) (dom : domain) (rs : list memregion) :
  Forall (fun r => is_ulong (mr_base r) /\ is_ulong (mr_size r)) rs ->
  Forall slot_wf (concat (pass p (region_entries dom) <$> rs)).
Proof.
  induction 1 as [|r rs [Hb Hs] _ IH]; cbn; [constructor|].
  apply Forall_app; split; [|done]. unfold pass. apply Forall_fmap.
  eapply Forall_impl; [apply (region_entries_wf dom r Hb Hs)|]. intros e He. cbn. destruct (p r); done.
Qed.

Lemma domain_region_cfg_byte (r : domain_region) : 0 <= domain_region_cfg r < 2 ^ 3.
Proof.
  unfold domain_region_cfg. set (su := Z.shiftr _ _).
  destruct (truth (Z.land su 1)), (truth (Z.land su 2)), (truth (Z.land su 4)); split; done.
Qed.

Lemma domain_region_entries_wf (r : domain_region) :
  region_wf r -> Forall entry_wf (domain_region_entries r).
Proof.
  intros (Ho & _ & Ha & _). pose proof (domain_region_cfg_byte r).
  unfold domain_region_entries. destruct (Z.leb_spec XLEN (dr_order r)).
  - apply Forall_singleton. split; cbn [fst snd].
    + apply wrap_range.
    + apply lor_bound; unfold PMP_A_NAPOT; lia.
  - apply range_entries_wf; [apply Ha; lia|apply wrap_range|lia].
Qed.

Lemma domain_layout_wf (dom : domain) :
  Forall region_wf (d_regions dom) -> Forall entry_wf (domain_layout dom).
Proof.
  unfold domain_layout. induction 1 as [|r rs Hr _ IH]; cbn; [constructor|].
  apply Forall_app; split; [by apply domain_region_entries_wf|done].
Qed.

(** ** The layout, from any state that has the monitor's rules *)

Lemma domain_set_slots (dom : domain) (c : csr_file) :
  hart_has HART_FEAT_PMP = true -> Forall region_wf (d_regions dom) ->
  pmp_monitor_entries memregions + Z.of_nat (length (d_regions dom)) <= CONFIG_RISCV_PMP_COUNT ->
  let rest := Z.to_nat (CONFIG_RISCV_PMP_COUNT -
    (pmp_monitor_entries memregions + Z.of_nat (length (d_regions dom)))) in
  pmp_domain_set grain memregions dom c =
  slots_set c window_entries
    (concat (pass is_shared (region_entries dom) <$> memregions) ++
     (Some <$> (domain_layout dom ++ replicate rest (0, 0)))).
Proof.
  intros Hpmp Hwf Hroom rest. unfold pmp_domain_set. rewrite Hpmp. cbn [negb].
  assert (shared_regions_set grain memregions dom c =
          slots_set c window_entries (concat (pass is_shared (region_entries dom) <$> memregions))) as ->.
  { unfold shared_regions_set, window_entries. destruct smepmp eqn:Hsm; cbn [negb].
    - by apply shared_regions_loop_slots.
    - assert (forall rs, concat (pass is_shared (region_entries dom) <$> rs) =
                replicate (length (concat (region_entries dom <$> rs))) None) as E.
      { induction rs as [|r rs IH]; cbn; [done|]. rewrite length_app, replicate_add, IH. f_equal.
        destruct (is_shared r) eqn:Esh; [|by rewrite pass_false].
        unfold pass, region_entries. rewrite Esh, Hsm. done. }
      rewrite E, slots_set_none. done. }
  rewrite domain_regions_set_slots by done. rewrite pmp_rest_clear_slots by done.
  rewrite fmap_app, fmap_replicate, !slots_set_app, pass_length, !length_fmap.
  rewrite (pmp_monitor_entries_eq dom). unfold domain_layout. rewrite domain_layout_length by done.
  subst rest. rewrite (pmp_monitor_entries_eq dom). unfold regions_layout. done.
Qed.

Lemma pmp_domain_set_wf (dom : domain) (c : csr_file) :
  hart_has HART_FEAT_PMP = true -> Forall region_wf (d_regions dom) ->
  pmp_monitor_entries memregions + Z.of_nat (length (d_regions dom)) <= CONFIG_RISCV_PMP_COUNT ->
  csr_wf c -> csr_wf (pmp_domain_set grain memregions dom c).
Proof. intros. rewrite domain_set_slots by done. by apply slots_set_wf. Qed.

Lemma fmap_some_lookup {A} (l : list A) (k : nat) : (Some <$> l) !! k = Some <$> l !! k.
Proof. apply list_lookup_fmap. Qed.

(** The layout with its free entries counted from the monitor's. *)
Definition free_entries (dom : domain) : nat :=
  Z.to_nat (CONFIG_RISCV_PMP_COUNT -
    (pmp_monitor_entries memregions + Z.of_nat (length (d_regions dom)))).
Definition domain_part (dom : domain) : list (Z * Z) :=
  domain_layout dom ++ replicate (free_entries dom) (0, 0).
Definition window_part (wa : Z * Z) : list (Z * Z) :=
  if smepmp then [(fst wa, 0); (snd wa, 0)] else [].

Lemma window_part_length (wa : Z * Z) : length (window_part wa) = Z.to_nat window_entries.
Proof. unfold window_part, window_entries. destruct smepmp; done. Qed.

Lemma window_entries_bounds : 0 <= window_entries <= 2.
Proof. unfold window_entries, SMEPMP_WINDOW_ENTRIES. destruct smepmp; lia. Qed.

Lemma pmp_layout_parts (wa : Z * Z) (dom : domain) :
  Forall region_wf (d_regions dom) ->
  pmp_layout wa dom = window_part wa ++ regions_layout dom ++ domain_part dom.
Proof.
  intros Hwf. unfold pmp_layout, domain_part. fold (window_part wa).
  rewrite <- !app_assoc. do 4 f_equal. rewrite !length_app, window_part_length.
  unfold domain_layout, free_entries. rewrite domain_layout_length by done.
  rewrite (pmp_monitor_entries_eq dom). pose proof window_entries_bounds. lia.
Qed.

Lemma domain_part_length (dom : domain) :
  Forall region_wf (d_regions dom) ->
  pmp_monitor_entries memregions + Z.of_nat (length (d_regions dom)) <= CONFIG_RISCV_PMP_COUNT ->
  Z.of_nat (length (domain_part dom)) =
  CONFIG_RISCV_PMP_COUNT - window_entries - Z.of_nat (length (regions_layout dom)).
Proof.
  intros Hwf Hroom. unfold domain_part, domain_layout, free_entries.
  rewrite length_app, length_replicate, domain_layout_length by done.
  rewrite (pmp_monitor_entries_eq dom) in *. lia.
Qed.

Lemma domain_slots_wf (dom : domain) :
  memregions_words -> Forall region_wf (d_regions dom) ->
  Forall slot_wf (concat (pass is_shared (region_entries dom) <$> memregions) ++ (Some <$> domain_part dom)).
Proof.
  intros Hwords Hwf. apply Forall_app; split; [by apply regions_slots_wf|]. apply Forall_fmap.
  apply Forall_app; split; [by apply domain_layout_wf|]. apply Forall_replicate.
  split; cbn; [split; [lia|apply pow_XLEN_pos]|lia].
Qed.

(** An entry past the window after the domain's rules were written. *)
Lemma domain_set_entry (dom : domain) (c : csr_file) (k : nat) :
  monitor_ruled c -> window_entries + Z.of_nat k < 16 ->
  (k < length (regions_layout dom ++ domain_part dom))%nat ->
  match (concat (pass is_shared (region_entries dom) <$> memregions) ++ (Some <$> domain_part dom)) !! k with
  | Some (Some e) => e
  | _ => pmp_entry c (window_entries + Z.of_nat k)
  end = default (0, 0) ((regions_layout dom ++ domain_part dom) !! k).
Proof.
  intros (_ & _ & Hfix) Hj Hk. rewrite length_app in Hk.
  set (S1 := concat (pass is_shared _ <$> _)).
  assert (length S1 = length (regions_layout dom)) as HS1 by apply pass_length.
  destruct (decide (k < length (regions_layout dom))%nat) as [Hk1|Hk1].
  - rewrite !lookup_app_l by lia. destruct (lookup_lt_is_Some_2 _ _ Hk1) as [e He]. rewrite He.
    destruct (pass_split is_shared _ _ _ _ He) as [E1|[E1 E]]; fold S1 in E1; rewrite E1; [done|].
    by apply (Hfix dom k e E).
  - rewrite !lookup_app_r by lia. rewrite HS1, fmap_some_lookup.
    destruct (lookup_lt_is_Some_2 (domain_part dom) (k - length (regions_layout dom))) as [e ->]; [lia|done].
Qed.

Lemma pmp_domain_set_layout (dom : domain) (c : csr_file) :
  KconfigOk -> memregions_words ->
  hart_has HART_FEAT_PMP = true -> Forall region_wf (d_regions dom) ->
  pmp_monitor_entries memregions + Z.of_nat (length (d_regions dom)) <= CONFIG_RISCV_PMP_COUNT ->
  monitor_ruled c ->
  pmp_entries (pmp_domain_set grain memregions dom c) CONFIG_RISCV_PMP_COUNT =
  pmp_layout (pmpaddr_of c 0, pmpaddr_of c 1) dom.
Proof.
  intros Hk Hwords Hpmp Hwf Hroom Hruled. pose proof config_pmp_count as Hcount.
  rewrite domain_set_slots by done. fold (free_entries dom). fold (domain_part dom).
  rewrite pmp_layout_parts by done. pose proof window_entries_bounds as Hw.
  pose proof (domain_part_length dom Hwf Hroom) as HL.
  pose proof (pass_length is_shared (region_entries dom) memregions) as HS1. fold (regions_layout dom) in HS1.
  apply list_eq. intros j. rewrite pmp_entries_lookup. case_decide as Hj.
  2:{ symmetry. apply lookup_ge_None_2. rewrite !length_app, window_part_length. lia. }
  rewrite slots_set_view;
    [|apply Hruled|lia|rewrite length_app, length_fmap; lia|lia|by apply domain_slots_wf].
  destruct (decide (window_entries <= Z.of_nat j)) as [Hge|Hlt].
  - rewrite (lookup_app_r (window_part _)), window_part_length by (rewrite window_part_length; lia).
    replace (Z.to_nat (Z.of_nat j - window_entries)) with (j - Z.to_nat window_entries)%nat by lia.
    set (k := (j - Z.to_nat window_entries)%nat).
    assert (Z.of_nat j = window_entries + Z.of_nat k) as -> by (subst k; lia).
    assert (k < length (regions_layout dom ++ domain_part dom))%nat as Hkl
      by (rewrite length_app; subst k; lia).
    rewrite domain_set_entry by (done || subst k; lia).
    destruct (lookup_lt_is_Some_2 _ _ Hkl) as [e ->]. done.
  - destruct Hruled as (_ & Hwin & _). unfold window_part, window_entries, SMEPMP_WINDOW_ENTRIES in *.
    destruct smepmp; [|lia]. destruct (Hwin eq_refl) as [E0 E1]. unfold pmp_entry.
    destruct j as [|[|j]]; [change (Z.of_nat 0) with 0; by rewrite E0|change (Z.of_nat 1) with 1; by rewrite E1|lia].
Qed.

(** ** Keeping the monitor's rules *)

Lemma pass_sub (p : memregion -> bool) (f : memregion -> list (Z * Z)) (rs : list memregion) (k : nat) (e : Z * Z) :
  concat (pass p f <$> rs) !! k = Some (Some e) -> concat (f <$> rs) !! k = Some e.
Proof.
  revert k. induction rs as [|r rs IH]; intros k; cbn; [done|].
  destruct (decide (k < length (f r))%nat) as [Hk|Hk].
  - rewrite !lookup_app_l by (unfold pass; rewrite ?length_fmap; done).
    unfold pass. rewrite !list_lookup_fmap. destruct (f r !! k); cbn; [|done]. destruct (p r); congruence.
  - rewrite !lookup_app_r by (unfold pass; rewrite ?length_fmap; lia).
    unfold pass at 1. rewrite length_fmap. apply IH.
Qed.

Lemma layout_ruled (wa : Z * Z) (dom : domain) (c : csr_file) :
  KconfigOk -> csr_wf c -> Forall region_wf (d_regions dom) ->
  pmp_entries c CONFIG_RISCV_PMP_COUNT = pmp_layout wa dom -> 
  pmp_monitor_entries memregions <= CONFIG_RISCV_PMP_COUNT -> monitor_ruled c.
Proof.
  intros Hk Hc Hwf El Hroom. rewrite pmp_layout_parts in El by done.
  pose proof config_pmp_count. pose proof window_entries_bounds as Hw.
  assert (forall j e, Z.of_nat j < CONFIG_RISCV_PMP_COUNT ->
    (window_part wa ++ regions_layout dom ++ domain_part dom) !! j = Some e -> pmp_entry c (Z.of_nat j) = e) as Hlk.
  { intros j e Hj. rewrite <- El, pmp_entries_lookup. rewrite decide_True by done. congruence. }
  pose proof (pmp_monitor_entries_eq dom) as Hme.
  split_and!; [done|..].
  - intros Hsm. unfold window_part, window_entries in *. rewrite Hsm in *. unfold SMEPMP_WINDOW_ENTRIES in *.
    pose proof (Hlk 0%nat _ ltac:(lia) eq_refl) as E0. pose proof (Hlk 1%nat _ ltac:(lia) eq_refl) as E1.
    unfold pmp_entry in E0, E1. change (Z.of_nat 0) with 0 in E0. change (Z.of_nat 1) with 1 in E1.
    split; congruence.
  - intros dom' k e. rewrite (fixed_pass_indep dom' dom). intros He%pass_sub Hlt. fold (regions_layout dom) in He.
    replace (window_entries + Z.of_nat k) with (Z.of_nat (Z.to_nat window_entries + k)) by lia.
    pose proof (lookup_lt_Some _ _ _ He) as Hkl.
    apply Hlk; [lia|]. rewrite lookup_app_r, window_part_length by (rewrite window_part_length; lia).
    replace (Z.to_nat window_entries + k - Z.to_nat window_entries)%nat with k by lia.
    rewrite lookup_app_l by done. done.
Qed.

(** The state [pmp_hart_init] has before the domain's part: out of reset, or
    as a hart that is started again has it. *)
Definition pmp_prepared (c : csr_file) : outcome csr_file :=
  let '(c, idx) :=
    if smepmp
    then (pmp_entry_set (pmp_entry_set (csr_set c CSR_MSECCFG MSECCFG_RLB) 0 0 0) 1 0 0,
          SMEPMP_WINDOW_ENTRIES)
    else (c, 0) in
  c ← monitor_regions_set grain memregions idx c;
  Ret (if smepmp then csr_set c CSR_MSECCFG (Z.lor MSECCFG_MML MSECCFG_MMWP) else c).

Lemma pmp_prepared_ruled (c c' : csr_file) :
  KconfigOk -> memregions_words -> csr_wf c -> 2 <= CONFIG_RISCV_PMP_COUNT ->
  pmp_prepared c = Ret c' -> monitor_ruled c'.
Proof.
  intros Hk Hwords Hc H2. pose proof config_pmp_count. unfold pmp_prepared.
  set (c0 := if smepmp then pmp_entry_set (pmp_entry_set (csr_set c CSR_MSECCFG MSECCFG_RLB) 0 0 0) 1 0 0 else c).
  assert (csr_wf c0) as Hc0.
  { subst c0. destruct smepmp; [|done]. auto using pmp_entry_set_wf, csr_set_wf. }
  assert ((if smepmp then (pmp_entry_set (pmp_entry_set (csr_set c CSR_MSECCFG MSECCFG_RLB) 0 0 0) 1 0 0,
          SMEPMP_WINDOW_ENTRIES) else (c, 0)) = (c0, window_entries)) as ->.
  { subst c0. unfold window_entries. destruct smepmp; done. }
  pose proof window_entries_bounds as Hw.
  destruct (monitor_regions_set grain memregions window_entries c0) as [c1|] eqn:E; [|done].
  apply (monitor_regions_set_slots domain_zero) in E as [-> Hend]; [|lia]. intros [= <-].
  set (S0 := concat (pass _ _ <$> _)).
  assert (length S0 = length (concat (region_entries domain_zero <$> memregions))) as HS by apply pass_length.
  set (c1 := slots_set c0 window_entries S0).
  assert (csr_wf c1) as Hc1 by (by apply slots_set_wf).
  assert (forall j, 0 <= j < 16 -> pmp_entry (if smepmp then csr_set c1 CSR_MSECCFG (Z.lor MSECCFG_MML MSECCFG_MMWP) else c1) j
          = pmp_entry c1 j) as Hm.
  { intros j Hj. destruct smepmp; [|done]. by apply pmp_entry_mseccfg. }
  assert (forall j, 0 <= j < 16 -> pmp_entry c1 j =
    if decide (window_entries <= j) then match S0 !! Z.to_nat (j - window_entries) with
      Some (Some e) => e | _ => pmp_entry c0 j end else pmp_entry c0 j) as Hview.
  { intros j Hj. apply slots_set_view; [done|lia|lia|done|]. by apply regions_slots_wf. }
  split_and!.
  - destruct smepmp; [by apply csr_set_wf|done].
  - intros Hsm. enough (forall j, j = 0 \/ j = 1 ->
      pmp_entry (if smepmp then csr_set c1 CSR_MSECCFG (Z.lor MSECCFG_MML MSECCFG_MMWP) else c1) j = (wrap 0, 0)) as E.
    { pose proof (E 0 ltac:(auto)) as E0. pose proof (E 1 ltac:(auto)) as E1. unfold pmp_entry in E0, E1.
      injection E0 as _ E0. injection E1 as _ E1. done. }
    intros j Hj. rewrite Hm, Hview by lia. unfold window_entries, SMEPMP_WINDOW_ENTRIES. rewrite Hsm.
    rewrite decide_False by lia. subst c0. rewrite Hsm.
    rewrite pmp_entry_set_view by (auto using pmp_entry_set_wf, csr_set_wf || lia).
    rewrite pmp_entry_set_view by (auto using csr_set_wf || lia). destruct Hj as [-> | ->]; done.
  - intros dom k e. rewrite (fixed_pass_indep dom domain_zero). fold S0. intros He Hlt.
    rewrite Hm, Hview by lia. rewrite decide_True by lia.
    replace (Z.to_nat (window_entries + Z.of_nat k - window_entries)) with k by lia. rewrite He. done.
Qed.
Lemma pmp_prepared_mml (c c' : csr_file) :
  2 <= CONFIG_RISCV_PMP_COUNT -> pmp_prepared c = Ret c' ->
  truth (Z.land (csr_read c' CSR_MSECCFG) MSECCFG_MML) =
  smepmp || truth (Z.land (csr_read c CSR_MSECCFG) MSECCFG_MML).
Proof.
  intros H2. unfold pmp_prepared. pose proof window_entries_bounds as Hw. unfold window_entries in Hw.
  destruct smepmp eqn:Hsm; cbn [orb].
  - destruct (monitor_regions_set _ _ _ _) as [c1|]; cbn [mbind outcome_bind]; [|done]. intros [= <-].
    unfold csr_set. rewrite csr_read_write, decide_True by done. unfold wrap. pose proof XLEN_bounds.
    set (v := csr_read c1 CSR_MSECCFG). clearbody v. change MSECCFG_MML with (2 ^ 0).
    unfold truth. apply negb_true_iff, Z.eqb_neq. intros E.
    apply (f_equal (fun z => Z.testbit z 0)) in E. rewrite Z.land_spec, testbit_mod_pow2, Z.lor_spec in E by lia.
    destruct (Z.ltb_spec 0 XLEN); [|lia]. cbn in E. rewrite andb_true_r in E.
    by rewrite orb_true_r in E.
  - destruct (monitor_regions_set _ _ _ _) as [c1|] eqn:E; cbn; [|done]. intros [= <-].
    apply (monitor_regions_set_slots domain_zero) in E as [-> _]; [|lia].
    rewrite slots_set_mseccfg by lia. done.
Qed.

(** It gets there when the monitor's entries and one more fit. *)
Lemma monitor_regions_set_returns (rs : list memregion) (at_ : Z) (c : csr_file) :
  at_ + Z.of_nat (length (concat (region_entries domain_zero <$> rs))) + 2 <= CONFIG_RISCV_PMP_COUNT ->
  returns (monitor_regions_set grain rs at_ c).
Proof.
  revert at_ c. induction rs as [|r rs IH]; intros at_ c; cbn; [by eexists|]. rewrite length_app.
  destruct (bool_decide (mr_kind r = MEMREGION_SHARED_RW) && negb smepmp) eqn:Hskip; intros Hroom.
  - apply IH. unfold region_entries in Hroom at 1. unfold is_shared in Hroom. rewrite Hskip in Hroom. done.
  - pose proof (region_entries_length domain_zero r Hskip) as Hlen.
    destruct (Z.ltb_spec CONFIG_RISCV_PMP_COUNT (at_ + 3)) as [|_].
    + destruct (region_is_napot r); lia.
    + apply IH. destruct (region_is_napot r); lia.
Qed.

Lemma pmp_prepared_returns (c : csr_file) :
  pmp_monitor_entries memregions + 2 <= CONFIG_RISCV_PMP_COUNT -> returns (pmp_prepared c).
Proof.
  rewrite (pmp_monitor_entries_eq domain_zero). unfold pmp_prepared, window_entries. intros Hroom.
  destruct smepmp.
  - destruct (monitor_regions_set_returns memregions SMEPMP_WINDOW_ENTRIES
      (pmp_entry_set (pmp_entry_set (csr_set c CSR_MSECCFG MSECCFG_RLB) 0 0 0) 1 0 0) Hroom) as [c1 ->].
    by eexists.
  - destruct (monitor_regions_set_returns memregions 0 c Hroom) as [c1 ->]. by eexists.
Qed.

(** [pmp_hart_init] in two steps. *)
Lemma pmp_hart_init_steps (dom : domain) (c : csr_file) :
  hart_has HART_FEAT_PMP = true ->
  pmp_hart_init grain memregions dom c =
  if smepmp && truth (Z.land (csr_read c CSR_MSECCFG) MSECCFG_MML)
  then Ret (pmp_domain_set grain memregions dom c)
  else c ← pmp_prepared c; Ret (pmp_domain_set grain memregions dom c).
Proof.
  intros Hp. unfold pmp_hart_init, pmp_prepared. rewrite Hp. cbn [negb].
  destruct (_ && _); [done|]. destruct smepmp; cbn; destruct (monitor_regions_set _ _ _ _); done.
Qed.
End Layout.
