(* ===== verification/PmpIsolation.v ===== *)
(** What the layout of [PmpLayout.v] means to S/U-mode, by the matching
    rules of [PmpHw.v]: the monitor's regions are out of reach of every
    domain, and for everything else the hardware and the software check of
    [Domain.v] agree, access for access.

    [pmp_runs] is what the rest of the development uses of it: a hart whose
    PMP carries the layout of the domain it runs. [pmp_hart_init] brings a
    hart there, [pmp_domain_set] moves it to another domain, and a window
    that was opened on S-mode memory and closed again leaves it there. *)

From S2P Require Import Prelude Arch Csr Pmp PmpHw Bitstring Memregion Domain PmpLayout.
From stdpp Require Import strings.

#[local] Open Scope Z_scope.

Section Rules.
Context {AR : Arch}.
Context (G : Z).

Lemma perm_wf_small (perm : Z) : 0 <= perm < 2 ^ 3 -> perm_wf perm.
Proof.
  intros Hp. split; [lia|]. bitwise.
  destruct (Z.lt_ge_cases i 3); [|by rewrite (testbit_high 3 perm i) by lia].
  assert (i = 0 \/ i = 1 \/ i = 2) as [-> |[-> | ->]] by lia; cbn; by rewrite andb_false_r.
Qed.

(** A NAPOT entry in front. *)
Lemma su_scan_napot (mml : bool) (prev y perm lo hi : Z) (es : list (Z * Z)) (acc : access) :
  perm_wf perm -> entry_free es ->
  su_scan G mml prev ((y, Z.lor PMP_A_NAPOT perm) :: es) lo hi acc =
  let r := napot_range G y in
  if overlaps lo hi (fst r) (snd r)
  then within lo hi (fst r) (snd r) && su_allows mml perm acc
  else su_scan G mml 0 es lo hi acc.
Proof.
  intros [_ Hp] Hfree. unfold su_scan at 1. cbn [scan]. unfold entry_range. cbn [fst snd].
  replace (Z.land (Z.lor PMP_A_NAPOT perm) PMP_A_NAPOT) with PMP_A_NAPOT
    by (rewrite Z.land_lor_distr_l, Hp; done).
  change (PMP_A_NAPOT =? 0) with false. change (PMP_A_NAPOT =? PMP_A_TOR) with false.
  change (PMP_A_NAPOT =? PMP_A_NA4) with false. cbv iota zeta. destruct (napot_range G y) as [a b]. cbn [fst snd].
  destruct (overlaps lo hi a b); [destruct (within lo hi a b)|].
  - rewrite su_allows_field by auto. done.
  - done.
  - fold (su_scan G mml y es lo hi acc). by apply su_scan_free.
Qed.

(** The entry of [pmp_all_set] matches every physical address. *)
Lemma napot_all (G_ok : 0 <= G <= pmpaddr_bits) :
  fst (napot_range G (unot 0)) = 0 /\ 2 ^ phys_bits <= snd (napot_range G (unot 0)).
Proof.
  assert (unot 0 mod 2 ^ pmpaddr_bits = 2 ^ pmpaddr_bits - 1) as E.
  { rewrite unot_eq by (split; [lia|apply pow_XLEN_pos]).
    unfold pmpaddr_bits, XLEN. destruct arch_xlen; done. }
  assert (0 <= pmpaddr_bits) as Hb by (unfold pmpaddr_bits; destruct arch_xlen; lia).
  unfold napot_range. rewrite E, lor_ones by lia.
  replace (Z.max pmpaddr_bits _) with pmpaddr_bits by lia.
  pose proof (napot_decode 0 pmpaddr_bits ltac:(lia) Hb) as [Em El].
  rewrite Z.mul_0_l, Z.add_0_l in Em, El. rewrite Em, El. cbn [fst snd]. split; [lia|].
  pose proof phys_bits_bounds as (Hp & _ & H32).
  rewrite Z.mul_0_l, Z.add_0_l, Z.sub_add. change 4 with (2 ^ 2).
  rewrite <- Z.pow_add_r by lia. apply pow2_le. lia.
Qed.

(** S/U-mode's permissions in a domain's region, as the PMP has them:
    writing takes reading too. *)
Definition region_allows (r : domain_region) (acc : access) : bool :=
  match acc with
  | Read => Z.testbit (dr_perm r) 3
  | Write => Z.testbit (dr_perm r) 3 && Z.testbit (dr_perm r) 4
  | Exec => Z.testbit (dr_perm r) 5
  end.

Lemma domain_region_cfg_allows (mml : bool) (r : domain_region) (acc : access) :
  su_allows mml (domain_region_cfg r) acc = region_allows r acc.
Proof.
  unfold domain_region_cfg, region_allows. set (su := Z.shiftr _ _).
  assert (truth (Z.land su 1) = Z.testbit (dr_perm r) 3) as ->
    by (change 1 with (2 ^ 0); rewrite truth_bit by lia; subst su; by rewrite Z.shiftr_spec by lia).
  assert (truth (Z.land su 2) = Z.testbit (dr_perm r) 4) as ->
    by (change 2 with (2 ^ 1); rewrite truth_bit by lia; subst su; by rewrite Z.shiftr_spec by lia).
  assert (truth (Z.land su 4) = Z.testbit (dr_perm r) 5) as ->
    by (change 4 with (2 ^ 2); rewrite truth_bit by lia; subst su; by rewrite Z.shiftr_spec by lia).
  destruct mml, acc, (Z.testbit (dr_perm r) 3), (Z.testbit (dr_perm r) 4), (Z.testbit (dr_perm r) 5);
    done.
Qed.

(** The permission bits each software check asks for. *)
Definition access_perm (acc : access) : Z :=
  match acc with
  | Read => DOMAIN_PERM_SU_R
  | Write => Z.lor DOMAIN_PERM_SU_R DOMAIN_PERM_SU_W
  | Exec => DOMAIN_PERM_SU_X
  end.

Lemma perm_granted_allows (r : domain_region) (acc : access) :
  perm_granted r (access_perm acc) <-> region_allows r acc = true.
Proof.
  unfold perm_granted. split.
  - intros E. assert (forall i, Z.testbit (access_perm acc) i = true -> Z.testbit (dr_perm r) i = true) as Hb.
    { intros i Hi. rewrite <- E, Z.land_spec in Hi. by apply andb_prop in Hi as [? _]. }
    unfold region_allows. destruct acc; rewrite ?andb_true_iff; [|split|]; apply Hb; done.
  - intros Ha. bitwise. destruct (Z.testbit (access_perm acc) i) eqn:Ei; [|by rewrite andb_false_r].
    rewrite andb_true_r. destruct (Z.lt_ge_cases i 6).
    2:{ rewrite (testbit_high 6 (access_perm acc)) in Ei by (done || lia || (destruct acc; split; done)). done. }
    assert (i = 0 \/ i = 1 \/ i = 2 \/ i = 3 \/ i = 4 \/ i = 5) as Hi' by lia.
    unfold region_allows in Ha. destruct acc; rewrite ?andb_true_iff in Ha;
      destruct Hi' as [-> |[-> |[-> |[-> |[-> | ->]]]]]; vm_compute in Ei; try discriminate; first [apply Ha|exact Ha].
Qed.
End Rules.

Section Isolation.
Context {AR : Arch} {KC : Kconfig} {F : Features}.
Context (G : Z) (HG : 0 <= G <= pmpaddr_bits).
Context (memregions : list memregion).

Abbreviation grain := (2 ^ (G + 2)).
Abbreviation smepmp := (hart_has HART_FEAT_SMEPMP).

(** The monitor's regions are ranges the PMP can express. *)
Definition memregions_fit : Prop :=
  Forall (fun r => region_fits G (mr_base r) (mr_size r)) memregions.

(** A domain's regions are well-formed, and in the physical address space
    unless they are everything. *)
Definition domain_fits (dom : domain) : Prop :=
  Forall (fun r => region_wf r /\ (dr_order r < XLEN -> region_end r <= 2 ^ phys_bits)) (d_regions dom).

Lemma domain_fits_wf (dom : domain) : domain_fits dom -> Forall region_wf (d_regions dom).
Proof. intros Hd. eapply Forall_impl; [exact Hd|]. cbn. tauto. Qed.

Lemma memregions_fit_words : memregions_fit -> memregions_words memregions.
Proof.
  intros Hm. eapply Forall_impl; [exact Hm|]. intros r Hr.
  destruct (region_fits_ulong G _ _ (proj1 HG) Hr) as (? & ? & _). done.
Qed.

Lemma region_cfg_perm_wf (kind : memregion_kind) : perm_wf (region_cfg kind).
Proof.
  unfold perm_wf, region_cfg. destruct (negb _); [split; [split|]; done|].
  destruct kind; split; [split| |split| |split|]; done.
Qed.

Lemma region_rule_cfg_wf (dom : domain) (r : memregion) : perm_wf (region_rule_cfg memregions dom r).
Proof. unfold region_rule_cfg. repeat case_match; apply region_cfg_perm_wf. Qed.

(** *** The monitor's part of a scan *)

(** Do the monitor's rules leave the access to what follows them ([rest])? *)
Fixpoint regions_verdict (dom : domain) (rs : list memregion) (lo hi : Z) (acc : access) (rest : bool) : bool :=
  match rs with
  | [] => rest
  | r :: rs =>
      let rr := range_rule G (mr_base r) (mr_size r) in
      if is_shared r && negb smepmp then regions_verdict dom rs lo hi acc rest
      else if overlaps lo hi (fst rr) (snd rr)
      then within lo hi (fst rr) (snd rr) && su_allows smepmp (region_rule_cfg memregions dom r) acc
      else regions_verdict dom rs lo hi acc rest
  end.

Lemma regions_free (dom : domain) (rs : list memregion) (es : list (Z * Z)) :
  entry_free es -> entry_free (concat (region_entries grain memregions dom <$> rs) ++ es).
Proof.
  intros Hes. induction rs as [|r rs IH]; cbn; [done|]. unfold region_entries at 1.
  case_match; cbn; [done|]. rewrite <- app_assoc. apply range_entries_free, region_rule_cfg_wf.
Qed.

Lemma scan_regions (dom : domain) (rs : list memregion) (es : list (Z * Z)) (lo hi : Z) (acc : access) :
  Forall (fun r => region_fits G (mr_base r) (mr_size r)) rs -> entry_free es ->
  su_scan G smepmp 0 (concat (region_entries grain memregions dom <$> rs) ++ es) lo hi acc =
  regions_verdict dom rs lo hi acc (su_scan G smepmp 0 es lo hi acc).
Proof.
  intros Hrs Hes. induction Hrs as [|r rs Hr Hrs IH]; cbn; [done|].
  rewrite <- app_assoc. unfold region_entries at 1. destruct (is_shared r && negb smepmp); [done|].
  rewrite su_scan_range by (lia || done || apply region_rule_cfg_wf || by apply regions_free).
  cbv zeta. rewrite IH. done.
Qed.

(** *** The domain's part *)

Definition domain_region_rule (r : domain_region) : Z * Z :=
  if XLEN <=? dr_order r then napot_range G (unot 0)
  else napot_range G (Z.lor (ushr (dr_base r) 2) (ushr (BIT (dr_order r)) 3 -! 1)).

Fixpoint domain_verdict (rs : list domain_region) (lo hi : Z) (acc : access) : bool :=
  match rs with
  | [] => false
  | r :: rs =>
      let rr := domain_region_rule r in
      if overlaps lo hi (fst rr) (snd rr)
      then within lo hi (fst rr) (snd rr) && region_allows r acc
      else domain_verdict rs lo hi acc
  end.

Lemma domain_entry (r : domain_region) :
  region_wf r -> domain_region_entries grain r =
  [(if XLEN <=? dr_order r then unot 0
    else Z.lor (ushr (dr_base r) 2) (ushr (BIT (dr_order r)) 3 -! 1),
    Z.lor PMP_A_NAPOT (domain_region_cfg r))].
Proof.
  intros Hr. pose proof (domain_region_entries_length grain r Hr) as Hlen. revert Hlen.
  unfold domain_region_entries. destruct (XLEN <=? dr_order r); [done|].
  unfold range_entries. destruct (_ && _ && _); done.
Qed.

Lemma zeros_free (n : nat) : entry_free (replicate n (0, 0)).
Proof. destruct n; done. Qed.

Lemma zeros_scan (prev : Z) (n : nat) (lo hi : Z) (acc : access) :
  su_scan G smepmp prev (replicate n (0, 0)) lo hi acc = false.
Proof. revert prev. induction n as [|n IH]; intros prev; [done|]. cbn [replicate]. rewrite su_scan_off. apply IH. Qed.

Lemma domain_free (rs : list domain_region) (n : nat) :
  Forall region_wf rs -> entry_free (concat (domain_region_entries grain <$> rs) ++ replicate n (0, 0)).
Proof.
  intros Hrs. destruct Hrs as [|r rs Hr _]; cbn; [apply zeros_free|].
  rewrite domain_entry by done. cbn. rewrite Z.land_lor_distr_l.
  destruct (perm_wf_small (domain_region_cfg r) (domain_region_cfg_byte r)) as [_ ->]. done.
Qed.

Lemma scan_domain (rs : list domain_region) (n : nat) (lo hi : Z) (acc : access) :
  Forall region_wf rs ->
  su_scan G smepmp 0 (concat (domain_region_entries grain <$> rs) ++ replicate n (0, 0)) lo hi acc =
  domain_verdict rs lo hi acc.
Proof.
  intros Hrs. induction Hrs as [|r rs Hr Hrs IH]; cbn [domain_verdict fmap list_fmap concat app].
  { apply zeros_scan. }
  rewrite (domain_entry r Hr). cbn [app].
  rewrite su_scan_napot by (apply perm_wf_small, domain_region_cfg_byte || by apply domain_free).
  cbv zeta. rewrite IH, domain_region_cfg_allows. unfold domain_region_rule.
  destruct (XLEN <=? dr_order r); done.
Qed.

(** *** The whole layout *)

Lemma su_check_layout (wa : Z * Z) (dom : domain) (lo hi : Z) (acc : access) :
  memregions_fit -> Forall region_wf (d_regions dom) ->
  su_check G smepmp (pmp_layout grain memregions wa dom) lo hi acc =
  regions_verdict dom memregions lo hi acc (domain_verdict (d_regions dom) lo hi acc).
Proof.
  intros Hfit Hwf. unfold pmp_layout. cbv zeta. rewrite <- !app_assoc. set (n := (_ - _)%nat).
  unfold su_check. transitivity (su_scan G smepmp 0 (regions_layout grain memregions dom ++
    domain_layout grain dom ++ replicate n (0, 0)) lo hi acc).
  - destruct smepmp; [|done]. cbn [app]. rewrite !su_scan_off. apply su_scan_free.
    by apply regions_free, domain_free.
  - unfold regions_layout. rewrite scan_regions by (done || by apply domain_free).
    f_equal. by apply scan_domain.
Qed.

(** ** Isolation of the monitor *)

(** Under Smepmp a device the monitor shares with S-mode has a rule of its
    own, among the monitor's: it keeps clear of the regions that are the
    monitor's alone. *)
Definition shared_apart : Prop :=
  forall r r', r ∈ memregions -> r' ∈ memregions -> is_shared r = true -> is_shared r' = false ->
    let rr := range_rule G (mr_base r) (mr_size r) in
    overlaps (fst rr) (snd rr) (mr_base r') (mr_base r' + mr_size r') = false.

(** A rule of the monitor's own gives S/U-mode nothing. *)
Lemma monitor_cfg_denies (kind : memregion_kind) (acc : access) :
  kind <> MEMREGION_SHARED_RW -> su_allows smepmp (region_cfg kind) acc = false.
Proof.
  intros Hk. unfold region_cfg. destruct smepmp; cbn [negb]; [|by destruct acc].
  destruct kind; [..|done]; by destruct acc.
Qed.

Lemma regions_verdict_held (dom : domain) (rs : list memregion) (lo hi x : Z) (acc : access)
    (rest : bool) (k : memregion_kind) :
  memregions_fit -> (smepmp = true -> shared_apart) -> rs ⊆ memregions ->
  lo <= x < hi -> k <> MEMREGION_SHARED_RW -> held rs k x ->
  regions_verdict dom rs lo hi acc rest = false.
Proof using HG.
  intros Hfit Hapart Hsub Hx Hk (r' & Hr' & Ek & Hin).
  induction rs as [|r rs IH]; [by apply elem_of_nil in Hr'|]. cbn [regions_verdict].
  assert (r ∈ memregions) as Hr by (apply Hsub; left).
  assert (r' ∈ memregions) as Hr'm by (by apply Hsub).
  assert (is_shared r' = false) as Hns by (apply bool_decide_eq_false_2; congruence).
  assert (r' ∈ rs -> regions_verdict dom rs lo hi acc rest = false) as IH'.
  { intros H'. apply IH; [|done]. intros y Hy. apply Hsub. by right. }
  apply elem_of_cons in Hr'. unfold memregions_fit in Hfit. rewrite Forall_forall in Hfit.
  pose proof (range_rule_region G _ _ (proj1 HG) (Hfit r Hr)) as (Hlo & Hhi & _).
  unfold in_memregion in Hin.
  destruct (is_shared r && negb smepmp) eqn:Hskip.
  { apply IH'. destruct Hr' as [-> |]; [|done]. rewrite Hns in Hskip. done. }
  destruct (overlaps lo hi _ _) eqn:Ho.
  - destruct (is_shared r) eqn:Esh.
    + destruct smepmp eqn:Hsm; [|done]. specialize (Hapart eq_refl r r' Hr Hr'm Esh Hns). cbv zeta in Hapart.
      destruct (within lo hi _ _) eqn:Hw; [|done]. exfalso.
      unfold within in Hw. unfold overlaps in Hapart. bool_prop.
      apply andb_false_iff in Hapart as [?|?]; bool_prop; lia.
    + unfold region_rule_cfg. rewrite Esh.
      rewrite monitor_cfg_denies by (by apply bool_decide_eq_false in Esh). apply andb_false_r.
  - apply IH'. destruct Hr' as [-> |]; [|done]. exfalso.
    unfold overlaps in Ho. apply andb_false_iff in Ho as [?|?]; bool_prop; lia.
Qed.

(** ** Agreement with the software check *)

(** Rules and regions are the same ranges. *)
Definition grain_exact (dom : domain) : Prop :=
  Forall (fun r => grain_aligned G (mr_base r) (mr_size r)) memregions /\
  Forall (fun r => G + 2 <= dr_order r) (d_regions dom).

Definition clear_of_shared (addr size : Z) : Prop :=
  forall r, r ∈ memregions -> is_shared r = true ->
    overlaps addr (addr + size) (mr_base r) (mr_base r + mr_size r) = false.

Lemma regions_verdict_clear (dom : domain) (rs : list memregion) (addr size : Z) (acc : access) (rest : bool) :
  memregions_fit -> Forall (fun r => grain_aligned G (mr_base r) (mr_size r)) rs -> rs ⊆ memregions ->
  (smepmp = true -> clear_of_shared addr size) -> 0 < size ->
  (forall k x, k <> MEMREGION_SHARED_RW -> addr <= x < addr + size -> ~ held rs k x) ->
  regions_verdict dom rs addr (addr + size) acc rest = rest.
Proof using HG.
  intros Hfit Hal. induction Hal as [|r rs Hr Hrs IH]; intros Hsub Hsh Hs Hno; cbn [regions_verdict]; [done|].
  assert (r ∈ memregions) as Hin by (apply Hsub; left).
  assert (regions_verdict dom rs addr (addr + size) acc rest = rest) as IH'.
  { apply IH; try done. - intros y Hy. apply Hsub. by right.
    - intros k x Hk Hx Hh. apply (Hno k x Hk Hx). apply held_cons. by right. }
  unfold memregions_fit in Hfit. rewrite Forall_forall in Hfit. pose proof (Hfit r Hin) as Hfr.
  pose proof (range_rule_region G _ _ (proj1 HG) Hfr) as (_ & _ & ->); [|done]. cbn [fst snd].
  destruct (is_shared r && negb smepmp) eqn:Hskip; [done|].
  assert (overlaps addr (addr + size) (mr_base r) (mr_base r + mr_size r) = false) as ->; [|done].
  destruct (is_shared r) eqn:Esh.
  - destruct smepmp; [|done]. by apply Hsh.
  - apply not_true_iff_false. intros Ho. destruct Hfr as (Hb & Hsz & _).
    apply overlaps_spec in Ho as (x & Hx1 & Hx2); [|lia..].
    apply (Hno (mr_kind r) x); [by apply bool_decide_eq_false in Esh|lia|].
    apply held_cons. left. done.
Qed.

Lemma domain_region_rule_exact (r : domain_region) :
  region_wf r -> (dr_order r < XLEN -> region_end r <= 2 ^ phys_bits) -> G + 2 <= dr_order r ->
  dr_order r < XLEN -> domain_region_rule r = (dr_base r, region_end r).
Proof using HG.
  intros Hwf Hend Hgr Hx. pose proof Hwf as (Ho & _ & Ha & _). destruct Ha as [Hb Hm]; [done|].
  unfold domain_region_rule. destruct (Z.leb_spec XLEN (dr_order r)); [lia|].
  apply Z.mod_divide in Hm as [m Hm]; [|pose proof (pow2_pos (dr_order r)); lia].
  assert (0 <= m) by (pose proof (pow2_pos (dr_order r) ltac:(lia)); destruct Hb; nia).
  unfold region_end in *. rewrite BIT_small, Hm in * by lia. rewrite napot_field by lia.
  destruct (napot_range_region G m (dr_order r)) as (_ & _ & E); [lia|lia|done|by apply Hend|]. by apply E.
Qed.

Lemma domain_verdict_regions (rs : list domain_region) (addr size : Z) (acc : access) :
  Forall (fun r => region_wf r /\ (dr_order r < XLEN -> region_end r <= 2 ^ phys_bits)) rs ->
  Forall (fun r => G + 2 <= dr_order r) rs ->
  0 <= addr -> 0 < size -> addr + size <= 2 ^ phys_bits ->
  domain_verdict rs addr (addr + size) acc =
  regions_range_ok rs addr (addr + size - 1) (access_perm acc).
Proof using HG.
  intros Hrs Hgr Ha Hs Hp. induction Hrs as [|r rs [Hr Hend] Hrs IH]; [done|].
  apply Forall_cons in Hgr as [Hg Hgr]. cbn [domain_verdict regions_range_ok]. rewrite IH by done.
  rewrite (region_last_eq r Hr).
  assert ((Z.land (dr_perm r) (access_perm acc) =? access_perm acc) = region_allows r acc) as ->.
  { apply eq_true_iff_eq. rewrite Z.eqb_eq. apply perm_granted_allows. }
  pose proof phys_bits_bounds as (_ & Hpx & _). pose proof Hr as (Ho & _ & _ & Hx0).
  assert (exists b, domain_region_rule r = (dr_base r, b) /\
            ((region_end r - 1 <? addr) || (addr + size - 1 <? dr_base r) = negb (overlaps addr (addr + size) (dr_base r) b)) /\
            (addr + size - 1 <=? region_end r - 1) = (addr + size <=? b)) as (b & Er & Eo & Ew).
  { destruct (Z.le_gt_cases XLEN (dr_order r)) as [Hge|Hlt].
    - assert (dr_order r = XLEN) as E by lia. destruct (napot_all G HG) as [E0 E1].
      unfold domain_region_rule. destruct (Z.leb_spec XLEN (dr_order r)); [|lia].
      exists (snd (napot_range G (unot 0))). destruct (napot_range G (unot 0)) as [a b]. cbn [fst snd] in *.
      unfold region_end, overlaps. rewrite (Hx0 E), E. assert (2 ^ phys_bits <= 2 ^ XLEN) by (apply pow2_le; split; [unfold phys_bits; destruct arch_xlen; lia|done]).
      split_and!; [by rewrite E0|case_cmp; cbn; lia|case_cmp; lia].
    - exists (region_end r). rewrite domain_region_rule_exact by done.
      unfold overlaps. split_and!; [done|case_cmp; cbn; lia|case_cmp; lia]. }
  rewrite Er, Eo, Ew. cbn [fst snd]. destruct (overlaps _ _ _ _); cbn [negb]; [|done].
  unfold within. done.
Qed.

(** ** A hart's PMP *)

(** What a hart lets S/U-mode do, by the registers it has. *)
Definition mml (c : csr_file) : bool := truth (Z.land (csr_read c CSR_MSECCFG) MSECCFG_MML).
Definition hart_grants (c : csr_file) (lo hi : Z) (acc : access) : bool :=
  su_check G (mml c) (pmp_entries c CONFIG_RISCV_PMP_COUNT) lo hi acc.

(** The hart lives by the rules of [dom]. *)
Definition pmp_runs (c : csr_file) (dom : domain) : Prop :=
  csr_wf c /\ mml c = smepmp /\
  exists wa, pmp_entries c CONFIG_RISCV_PMP_COUNT = pmp_layout grain memregions wa dom.

(** Out of reset, or started again: with MML set, the monitor's rules are
    there; without Smepmp there is no MML. *)
Definition pmp_startable (c : csr_file) : Prop :=
  csr_wf c /\ (mml c = true -> smepmp = true /\ monitor_ruled grain memregions c).

(** The regions of the monitor and of the domain are ranges the PMP has
    entries for. *)
Record layout_ok (dom : domain) : Prop := {
  lo_fit : memregions_fit;
  lo_dom : domain_fits dom;
  lo_room : pmp_monitor_entries memregions + Z.of_nat (length (d_regions dom)) <= CONFIG_RISCV_PMP_COUNT;
  lo_two : 2 <= CONFIG_RISCV_PMP_COUNT;
}.

Lemma domain_set_runs (dom : domain) (c : csr_file) :
  KconfigOk -> hart_has HART_FEAT_PMP = true -> layout_ok dom ->
  monitor_ruled grain memregions c -> mml c = smepmp ->
  pmp_runs (pmp_domain_set grain memregions dom c) dom.
Proof using HG.
  intros Hk Hp [Hfit Hdom Hroom H2] Hruled Hm. pose proof (domain_fits_wf dom Hdom) as Hwf.
  split_and!.
  - apply pmp_domain_set_wf; [done..|apply Hruled].
  - unfold mml in *. rewrite domain_set_slots, slots_set_mseccfg by (done || apply window_entries_bounds). done.
  - eexists. apply pmp_domain_set_layout; try done. by apply memregions_fit_words.
Qed.

Lemma runs_ruled (dom : domain) (c : csr_file) :
  KconfigOk -> layout_ok dom -> pmp_runs c dom -> monitor_ruled grain memregions c.
Proof.
  intros Hk [Hfit Hdom Hroom H2] (Hc & _ & wa & Ewa). eapply layout_ruled; try done.
  - by apply domain_fits_wf.
  - lia.
Qed.

Lemma runs_grants (c : csr_file) (dom : domain) (lo hi : Z) (acc : access) :
  layout_ok dom -> pmp_runs c dom ->
  hart_grants c lo hi acc =
  regions_verdict dom memregions lo hi acc (domain_verdict (d_regions dom) lo hi acc).
Proof using HG.
  intros [Hfit Hdom _ _] (_ & Hm & wa & Ewa). unfold hart_grants. rewrite Hm, Ewa.
  apply su_check_layout; [done|by apply domain_fits_wf].
Qed.

Lemma memregions_fit_wf : memregions_fit -> Forall memregion_wf memregions.
Proof using HG.
  intros Hm. eapply Forall_impl; [exact Hm|]. intros r Hr.
  pose proof (region_fits_ulong G _ _ (proj1 HG) Hr) as (_ & _ & _ & Hx & _).
  destruct Hr as (? & ? & _). pose proof (pow2_pos (G + 2) ltac:(lia)). unfold memregion_wf. lia.
Qed.

(** What [monitor_range_clear] turns down has a byte of the monitor's. *)
Lemma not_clear_held (addr size : Z) :
  memregions_fit -> is_ulong addr -> is_ulong size -> 0 < size -> addr + size < 2 ^ XLEN ->
  monitor_range_clear memregions addr size = false ->
  exists k x, k <> MEMREGION_SHARED_RW /\ addr <= x < addr + size /\ held memregions k x.
Proof using HG.
  intros Hfit Ha Hs Hp Hf. unfold monitor_range_clear.
  replace (addr +! size) with (addr + size) by (symmetry; apply wrap_small; unfold is_ulong in *; lia).
  destruct (Z.ltb_spec (addr + size) addr); [lia|]. intros Hfalse.
  apply not_true_iff_false in Hfalse. rewrite forallb_forall in Hfalse.
  pose proof (memregions_fit_wf Hfit) as Hwf. rewrite Forall_forall in Hwf.
  destruct (decide (Exists (fun r => mr_kind r <> MEMREGION_SHARED_RW /\ mr_base r < addr + size /\
              addr < mr_base r + mr_size r) memregions)) as [He|He].
  - apply Exists_exists in He as (r & Hr & Hk & H1 & H2). pose proof (Hwf r Hr) as (? & ? & ?).
    exists (mr_kind r), (Z.max addr (mr_base r)). split_and!; [done|lia|lia|].
    exists r. split_and!; [done..|unfold in_memregion; lia].
  - exfalso. apply Hfalse. intros r Hr%list_elem_of_In. apply negb_true_iff, not_true_iff_false. intros Ht.
    apply He. apply Exists_exists. exists r. bool_prop. rewrite memregion_end in * by auto.
    apply bool_decide_eq_false in H0. done.
Qed.

(** ** The properties *)



(** initialisation. [pmp_hart_init] returns on a hart with enough entries,
    out of reset or started again, and leaves it living by its domain's
    rules. *)
Theorem pmp_hart_init_runs (c : csr_file) (dom : domain) :
  KconfigOk -> hart_has HART_FEAT_PMP = true -> layout_ok dom ->
  pmp_monitor_entries memregions + 2 <= CONFIG_RISCV_PMP_COUNT -> pmp_startable c ->
  exists c', pmp_hart_init grain memregions dom c = Ret c' /\ pmp_runs c' dom.
Proof using HG.
  intros Hk Hp Hok Hroom [Hc Hst]. rewrite pmp_hart_init_steps by done. fold (mml c).
  pose proof (lo_two dom Hok) as H2. pose proof (memregions_fit_words (lo_fit dom Hok)) as Hw.
  destruct (smepmp && mml c) eqn:E.
  - apply andb_prop in E as [Esm Em]. destruct (Hst Em) as [_ Hruled].
    eexists; split; [done|]. apply domain_set_runs; try done. congruence.
  - destruct (pmp_prepared_returns grain memregions c Hroom) as [c1 Ec1]. rewrite Ec1.
    eexists; split; [done|]. apply domain_set_runs; try done.
    + by eapply pmp_prepared_ruled.
    + unfold mml at 1. rewrite (pmp_prepared_mml grain memregions c) by done. fold (mml c).
      destruct smepmp, (mml c) eqn:Em; try done. destruct (Hst eq_refl). done.
Qed.

(** the switch. [pmp_domain_set] takes a hart from the rules of one domain
    to those of another, whatever the first were. *)
Theorem pmp_domain_switch (c : csr_file) (dom dom' : domain) :
  KconfigOk -> hart_has HART_FEAT_PMP = true -> layout_ok dom -> layout_ok dom' ->
  pmp_runs c dom -> pmp_runs (pmp_domain_set grain memregions dom' c) dom'.
Proof using HG.
  intros Hk Hp Hok Hok' Hr. apply domain_set_runs; try done.
  - exact (runs_ruled dom c Hk Hok Hr).
  - apply Hr.
Qed.

(** ** The window on S-mode memory *)

Lemma runs_window (c c' : csr_file) (dom : domain) :
  KconfigOk -> layout_ok dom -> pmp_runs c dom -> csr_wf c' -> mml c' = mml c ->
  (smepmp = true -> pmpcfg_of c' 0 = 0 /\ pmpcfg_of c' 1 = 0) ->
  (forall j, window_entries <= j < 16 -> pmp_entry c' j = pmp_entry c j) ->
  pmp_runs c' dom.
Proof.
  intros Hk Hok (Hc & Hm & wa & Ewa) Hc' Hmm Hcfg Hsame. split_and!; [done|congruence|].
  exists (pmpaddr_of c' 0, pmpaddr_of c' 1). pose proof (domain_fits_wf dom (lo_dom dom Hok)) as Hwf.
  rewrite pmp_layout_parts in * by done. pose proof config_pmp_count as Hcount. pose proof window_entries_bounds as Hw.
  pose proof (lo_two dom Hok) as H2.
  apply list_eq. intros j. pose proof (f_equal (fun l => l !! j) Ewa) as Ej. cbv beta in Ej.
  rewrite pmp_entries_lookup in *. unfold window_part, window_entries, SMEPMP_WINDOW_ENTRIES in *.
  destruct smepmp.
  - destruct (Hcfg eq_refl) as [E0 E1].
    destruct j as [|[|j]]; cbn [app lookup list_lookup] in *; [rewrite decide_True by lia; unfold pmp_entry..|];
      [change (Z.of_nat 0) with 0; by rewrite E0|change (Z.of_nat 1) with 1; by rewrite E1|].
    rewrite <- Ej. case_decide; [|done]. f_equal. apply Hsame. lia.
  - cbn [app] in *. rewrite <- Ej. case_decide; [|done]. f_equal. apply Hsame. lia.
Qed.

(** Closing a window, whatever it was open on. *)
Lemma window_close (c c1 : csr_file) (dom : domain) (a0 a1 cfg : Z) :
  KconfigOk -> layout_ok dom -> pmp_runs c dom -> smepmp = true -> 0 <= cfg < 2 ^ 8 ->
  c1 = pmp_entry_set (pmp_entry_set c 0 a0 0) 1 a1 cfg \/ c1 = c ->
  pmp_runs (pmp_entry_cfg c1 1 0) dom.
Proof.
  intros Hk Hok Hr Hsm Hcfg Hc1. pose proof Hr as (Hc & _).
  pose proof (runs_ruled dom c Hk Hok Hr) as (_ & Hwin & _). destruct (Hwin Hsm) as [Hw0 Hw1].
  assert (csr_wf c1) as Hcw by (destruct Hc1 as [-> | ->]; auto using pmp_entry_set_wf).
  assert (forall j, 0 <= j < 16 -> j <> 1 -> pmp_entry (pmp_entry_cfg c1 1 0) j = pmp_entry c1 j) as Hother.
  { intros j Hj Hj1. unfold pmp_entry_cfg. cbn. unfold pmp_entry.
    rewrite pmpcfg_of_update, pmpaddr_of_cfg_update, decide_False by (done || lia). done. }
  apply (runs_window c); try done.
  - by apply pmpcfg_update_wf.
  - unfold mml, pmp_entry_cfg. cbn. rewrite pmpcfg_update_mseccfg by lia.
    destruct Hc1 as [-> | ->]; [by rewrite !pmp_entry_set_mseccfg|done].
  - intros _. split.
    + pose proof (Hother 0 ltac:(lia) ltac:(lia)) as E. unfold pmp_entry in E. injection E as _ ->.
      destruct Hc1 as [-> | ->]; [|done].
      assert (pmp_entry (pmp_entry_set (pmp_entry_set c 0 a0 0) 1 a1 cfg) 0 = (wrap a0, 0)) as E
        by (rewrite !pmp_entry_set_view by (auto using pmp_entry_set_wf || lia); done).
      unfold pmp_entry in E. by injection E.
    + unfold pmp_entry_cfg. cbn. rewrite pmpcfg_of_update by (done || lia). done.
  - intros j Hj. unfold window_entries, SMEPMP_WINDOW_ENTRIES in Hj. rewrite Hsm in Hj. rewrite Hother by lia.
    destruct Hc1 as [-> | ->]; [|done].
    rewrite !pmp_entry_set_view by (auto using pmp_entry_set_wf || lia). by rewrite !decide_False by lia.
Qed.

(** a window closed is a window gone. When [smode_access_begin] returns, the
    range it was asked for is clear of the monitor's regions, and after
    [smode_access_end] the hart lives by its domain's rules as before. *)
Theorem smode_access_roundtrip (c c1 : csr_file) (w w1 : window) (dom : domain) (addr size a : Z) :
  KconfigOk -> layout_ok dom -> pmp_runs c dom ->
  smode_access_begin grain memregions w c addr size = Ret (w1, c1, a) ->
  a = addr /\ (size <> 0 -> monitor_range_clear memregions addr size = true) /\
  w_size (fst (smode_access_end w1 c1)) = 0 /\ pmp_runs (snd (smode_access_end w1 c1)) dom.
Proof.
  intros Hk Hok Hr. unfold smode_access_begin, smode_access_end. cbn [fst snd w_size].
  destruct (truth size && negb _) eqn:Et; [done|]. intros [= <- <- <-].
  split_and!; [done| |done|].
  - intros Hs%truth_true. rewrite Hs in Et. by apply negb_false_iff in Et.
  - destruct smepmp eqn:Hsm; cbn [andb]; [|done].
    eapply window_close; [done..|exact Hsm| |]; [|destruct (truth size); [by left|by right]].
    split; done.
Qed.

(** an open window is what M-mode needs. Under Smepmp, between
    [smode_access_begin] and [smode_access_end] the first entry that has
    any byte of the range has all of it, and its permissions are those of a
    region shared for reading and writing: M-mode's accesses pass. *)
Theorem smode_access_window (c c1 : csr_file) (w w1 : window) (addr size a : Z) :
  KconfigOk -> 2 <= CONFIG_RISCV_PMP_COUNT -> csr_wf c -> smepmp = true -> region_fits G addr size ->
  smode_access_begin grain memregions w c addr size = Ret (w1, c1, a) ->
  scan G 0 (pmp_entries c1 CONFIG_RISCV_PMP_COUNT) addr (addr + size) =
  Match (Z.lor PMP_A_TOR (region_cfg MEMREGION_SHARED_RW)).
Proof using HG.
  intros Hk H2 Hc Hsm Hfit. unfold smode_access_begin. destruct (_ && negb _); [done|].
  pose proof Hfit as (Ha & Hs & _). assert (truth size = true) as -> by (apply truth_true; lia).
  rewrite Hsm. cbn [andb]. intros [= _ <- _]. pose proof config_pmp_count as Hcount.
  set (c1 := pmp_entry_set _ 1 _ _).
  assert (pmp_entry c1 0 = (wrap (ushr addr 2), 0) /\
          pmp_entry c1 1 = (wrap (ushr (ROUNDUP2 (addr +! size) grain) 2), Z.lor (Z.lor PMP_A_TOR PMP_W) PMP_X)) as [E0 E1].
  { subst c1. split; rewrite !pmp_entry_set_view by (auto using pmp_entry_set_wf || lia || (split; done)); done. }
  pose proof (region_fits_ulong G addr size (proj1 HG) Hfit) as (Hau & _).
  rewrite wrap_small in E0 by (apply ushr_range; [lia|done]).
  rewrite wrap_small in E1 by apply ushr_roundup_range.
  unfold pmp_entries. rewrite (seqZ_cons 0) by lia.
  rewrite (seqZ_cons (Z.succ 0)) by lia. cbn [fmap list_fmap]. change (Z.succ 0) with 1. rewrite E0, E1.
  cbn [scan fst]. unfold entry_range at 1. cbn [fst snd]. change (Z.land 0 PMP_A_NAPOT =? 0) with true. cbv iota.
  pose proof (tor_range_region G addr size (proj1 HG) Hfit) as (Hlo & Hhi & _). cbv zeta in Hlo, Hhi.
  unfold entry_range. cbn [fst snd].
  change (Z.land (Z.lor (Z.lor PMP_A_TOR PMP_W) PMP_X) PMP_A_NAPOT) with PMP_A_TOR.
  change (PMP_A_TOR =? 0) with false. change (PMP_A_TOR =? PMP_A_TOR) with true. cbv iota.
  set (lo := tor_bound _ (ushr addr 2)) in *. set (hi := tor_bound G (ushr (ROUNDUP2 _ _) 2)) in *.
  destruct (Z.ltb_spec lo hi); [|lia]. unfold overlaps, within.
  destruct (Z.ltb_spec addr hi), (Z.ltb_spec lo (addr + size)), (Z.leb_spec lo addr), (Z.leb_spec (addr + size) hi); try lia.
  cbn. unfold region_cfg. rewrite Hsm. done.
Qed.
End Isolation.

(** ** The QEMU virt machine with Smepmp, as an instance

    The monitor's image split at its read-only part, the console shared
    with S-mode, and a domain with its RAM and the console. *)
Module VirtExample.
#[local] Instance rv64 : Arch := RV64.
#[local] Instance virt : Kconfig := qemu_virt.
#[local] Instance smepmp_hart : Features := fun _ => true.

Definition virt_memregions : list memregion := [
  Memregion 0x80000000 0x40000 MEMREGION_MMODE_RX;
  Memregion 0x80040000 0x1c0000 MEMREGION_MMODE_RW;
  Memregion 0x10000000 0x1000 MEMREGION_SHARED_RW ].

Definition guest : domain := domain_zero <| d_name := "guest"%string |> <| d_index := 1 |>
  <| d_regions := [ DomainRegion 0x10000000 12 0x18 true;
                    DomainRegion 0x80000000 28 0x38 false ] |>.

(** The registers [pmp_hart_init] leaves, from reset. *)
Definition guest_csrs : csr_file :=
  Eval vm_compute in match pmp_hart_init 4 virt_memregions guest ∅ with Ret c => c | Panic => ∅ end.

Lemma guest_csrs_wf : csr_wf guest_csrs.
Proof. unfold csr_wf, is_ulong. apply (bool_decide_unpack _). vm_compute. exact I. Defined.

Lemma guest_runs : pmp_runs 0 virt_memregions guest_csrs guest.
Proof.
  split; [apply guest_csrs_wf|]. split; [reflexivity|]. exists (0, 0). vm_compute. reflexivity.
Defined.

Lemma virt_grain : 0 <= 0 <= pmpaddr_bits.
Proof. split; done. Defined.

Lemma virt_fit : memregions_fit 0 virt_memregions.
Proof. unfold memregions_fit, region_fits. repeat constructor; cbn; done. Defined.

Lemma guest_layout_ok : layout_ok 0 virt_memregions guest.
Proof.
  constructor.
  - exact virt_fit.
  - unfold domain_fits, region_wf, is_ulong. repeat constructor; cbn; done.
  - done.
  - done.
Defined.

Lemma virt_apart : shared_apart 0 virt_memregions.
Proof.
  intros r r' Hr Hr' Hs Hs'.
  repeat (apply elem_of_cons in Hr as [-> |Hr]; [try discriminate|]); [|by apply elem_of_nil in Hr].
  repeat (apply elem_of_cons in Hr' as [-> |Hr']; [try discriminate; reflexivity|]). by apply elem_of_nil in Hr'.
Defined.

Lemma guest_exact : grain_exact 0 virt_memregions guest.
Proof. split; repeat constructor; cbn; done. Defined.



Lemma pmp_hart_init_runs_witness :
  exists c', pmp_hart_init 4 virt_memregions guest ∅ = Ret c' /\ pmp_runs 0 virt_memregions c' guest.
Proof.
  apply (pmp_hart_init_runs 0 virt_grain virt_memregions).
  - exact qemu_virt_ok.
  - done.
  - exact guest_layout_ok.
  - done.
  - split; [apply csr_wf_empty|]. intros Hm. discriminate Hm.
Defined.

(** From the guest to a domain that has no memory at all. *)
Lemma pmp_domain_switch_witness :
  pmp_runs 0 virt_memregions (pmp_domain_set 4 virt_memregions domain_zero guest_csrs) domain_zero.
Proof.
  apply (pmp_domain_switch 0 virt_grain virt_memregions guest_csrs guest domain_zero).
  - exact qemu_virt_ok.
  - done.
  - exact guest_layout_ok.
  - constructor; [exact virt_fit|constructor|done|done].
  - exact guest_runs.
Defined.
Lemma smode_access_roundtrip_witness :
  exists w1 c1, smode_access_begin 4 virt_memregions (Window 0 0) guest_csrs 0x81000000 64 = Ret (w1, c1, 0x81000000) /\
    pmp_runs 0 virt_memregions (snd (smode_access_end w1 c1)) guest.
Proof.
  destruct (smode_access_begin 4 virt_memregions (Window 0 0) guest_csrs 0x81000000 64) as [[[w1 c1] a]|] eqn:E;
    [|vm_compute in E; discriminate E].
  pose proof (smode_access_roundtrip 0 virt_grain virt_memregions guest_csrs c1 (Window 0 0) w1 guest 0x81000000 64 a
                qemu_virt_ok guest_layout_ok guest_runs E) as (-> & _ & _ & Hr).
  exists w1, c1. split; [done|exact Hr].
Defined.

Lemma smode_access_window_witness :
  match smode_access_begin 4 virt_memregions (Window 0 0) guest_csrs 0x81000002 7 with
  | Ret (_, c1, _) => scan 0 0 (pmp_entries c1 CONFIG_RISCV_PMP_COUNT) 0x81000002 (0x81000002 + 7) =
      Match (Z.lor PMP_A_TOR (region_cfg MEMREGION_SHARED_RW))
  | Panic => False
  end.
Proof.
  destruct (smode_access_begin 4 virt_memregions (Window 0 0) guest_csrs 0x81000002 7) as [[[w1 c1] a]|] eqn:E;
    [|vm_compute in E; discriminate E].
  apply (smode_access_window 0 virt_grain virt_memregions guest_csrs c1 (Window 0 0) w1 0x81000002 7 a).
  - exact qemu_virt_ok.
  - done.
  - exact guest_csrs_wf.
  - reflexivity.
  - unfold region_fits; cbn; lia.
  - exact E.
Defined.
End VirtExample.
