(* ===== verification/Hart.v ===== *)
(** The hart table and the per-hart state: [arch/riscv/boot_harts.c] and the
    lookups of [arch/riscv/runtime/hart.c].

    Hart ids are what the hardware and S-mode use, and can be anything;
    inside the monitor a hart goes by its index, its id's position in the
    table. [HartTable] is the interface the other components rely on: the
    translations are each other's inverses on the table. *)

From S2P Require Import Prelude Arch.

#[local] Open Scope Z_scope.

(** ** The table *)

Section Table.
Context {AR : Arch} {KC : Kconfig}.

(** [_boot_hart_ids[0 .. _boot_hart_nr)] *)
Implicit Types ids : list Z.

Fixpoint hart_index_from (ids : list Z) (hartid i : Z) : Z :=
  match ids with
  | [] => -1
  | id :: ids => if id =? hartid then i else hart_index_from ids hartid (i + 1)
  end.
Definition boot_hart_index (ids : list Z) (hartid : Z) : Z := hart_index_from ids hartid 0.

Definition add_hart (ids : list Z) (hartid : Z) : list Z :=
  if (Z.of_nat (length ids) <? CONFIG_PLATFORM_HART_COUNT) && (boot_hart_index ids hartid <? 0)
  then ids ++ [hartid] else ids.

(** A subnode of /cpus, as [boot_harts_init] looks at it: whether its
    device_type is "cpu", whether it is enabled, and its first reg entry,
    64 bits wide, if it has one. *)
Record cpu_node : Set := CpuNode { cpu_type : bool; cpu_enabled : bool; cpu_reg : option Z }.

(** [cpus] are the subnodes; [None] when there is no tree, or no /cpus. *)
Definition boot_harts_init (cpus : option (list cpu_node)) (boot_hartid : Z) : list Z :=
  let ids := add_hart [] boot_hartid in
  match cpus with
  | None => for_upto (Z.to_nat CONFIG_PLATFORM_HART_COUNT) (fun id ids => add_hart ids id) ids
  | Some nodes =>
      foldl (fun ids cpu =>
               if cpu_type cpu && cpu_enabled cpu
               then match cpu_reg cpu with Some hartid => add_hart ids (wrap hartid) | None => ids end
               else ids) ids nodes
  end.

(** ** Finding a hart *)

Lemma hart_index_from_spec ids (hartid i : Z) :
  (hart_index_from ids hartid i = -1 /\ hartid ∉ ids) \/
  exists k : nat, hart_index_from ids hartid i = i + Z.of_nat k /\ ids !! k = Some hartid /\
    forall j, (j < k)%nat -> ids !! j <> Some hartid.
Proof.
  revert i. induction ids as [|id ids IH]; intros i; cbn.
  { left. split; [done|]. apply not_elem_of_nil. }
  destruct (Z.eqb_spec id hartid) as [->|Hne].
  - right. exists 0%nat. split_and!; [lia|done|lia].
  - destruct (IH (i + 1)) as [[-> Hno]|(k & -> & Hk & Hmin)].
    + left. split; [done|]. rewrite elem_of_cons. intros [?|?]; congruence.
    + right. exists (S k). split_and!; [lia|done|]. intros [|j] Hj; cbn; [congruence|]. apply Hmin. lia.
Qed.

Lemma boot_hart_index_none ids (hartid : Z) : boot_hart_index ids hartid < 0 <-> hartid ∉ ids.
Proof.
  unfold boot_hart_index. destruct (hart_index_from_spec ids hartid 0) as [[-> Hno]|(k & -> & Hk & _)].
  - split; [done|lia].
  - split; [lia|]. intros Hno. exfalso. apply Hno. by eapply list_elem_of_lookup_2.
Qed.

Lemma boot_hart_index_lookup ids (hartid : Z) (k : nat) :
  NoDup ids -> ids !! k = Some hartid -> boot_hart_index ids hartid = Z.of_nat k.
Proof.
  intros Hnd Hk. unfold boot_hart_index.
  destruct (hart_index_from_spec ids hartid 0) as [[_ Hno]|(j & -> & Hj & _)].
  - exfalso. apply Hno. by eapply list_elem_of_lookup_2.
  - rewrite (NoDup_lookup ids j k hartid) by done. lia.
Qed.

Lemma boot_hart_index_found ids (hartid : Z) :
  0 <= boot_hart_index ids hartid -> ids !! Z.to_nat (boot_hart_index ids hartid) = Some hartid.
Proof.
  unfold boot_hart_index. destruct (hart_index_from_spec ids hartid 0) as [[-> _]|(j & -> & Hj & _)]; [lia|].
  intros _. by replace (Z.to_nat (0 + Z.of_nat j)) with j by lia.
Qed.

(** ** Building the table *)

Definition table_wf ids : Prop := NoDup ids /\ Z.of_nat (length ids) <= CONFIG_PLATFORM_HART_COUNT.

Lemma add_hart_wf ids (hartid : Z) : table_wf ids -> table_wf (add_hart ids hartid).
Proof.
  intros [Hnd Hlen]. unfold add_hart. destruct (_ && _) eqn:E; [|done]. bool_prop.
  apply boot_hart_index_none in H0. split.
  - apply NoDup_app. split_and!; [done| |apply NoDup_singleton].
    intros x Hx ->%list_elem_of_singleton. done.
  - rewrite length_app. cbn. lia.
Qed.

Lemma add_hart_prefix ids (hartid : Z) : ids `prefix_of` add_hart ids hartid.
Proof. unfold add_hart. case_match; [by eexists|done]. Qed.

(** C40: the hart table. Whatever the device tree says, [boot_harts_init] builds a
    table without duplicates that fits [CONFIG_PLATFORM_HART_COUNT], with
    the boot hart at index 0, in which a hart's index is the position its
    id has. *)
Theorem boot_harts_init_table (cpus : option (list cpu_node)) (boot_hartid : Z) :
  KconfigOk ->
  let ids := boot_harts_init cpus boot_hartid in
  NoDup ids /\ Z.of_nat (length ids) <= CONFIG_PLATFORM_HART_COUNT /\ ids !! 0%nat = Some boot_hartid /\
  forall k hartid, 0 <= k ->
    boot_hart_index ids hartid = k <-> ids !! Z.to_nat k = Some hartid.
Proof.
  intros Hk ids. pose proof config_hart_count as Hc.
  set (I := fun l => table_wf l /\ [boot_hartid] `prefix_of` l).
  assert (forall l id, I l -> I (add_hart l id)) as Hadd.
  { intros l id [Hw Hp]. split; [by apply add_hart_wf|]. etrans; [done|apply add_hart_prefix]. }
  assert (I (add_hart [] boot_hartid)) as H0.
  { unfold add_hart. cbn. rewrite andb_true_r. destruct (Z.ltb_spec (Z.of_nat 0) CONFIG_PLATFORM_HART_COUNT); [|lia].
    split; [|done]. split; [apply NoDup_singleton|cbn; lia]. }
  assert (I ids) as [[Hnd Hlen] [l Hl]].
  { unfold ids, boot_harts_init. destruct cpus as [nodes|].
    - revert H0. generalize (add_hart [] boot_hartid). induction nodes as [|n nodes IH]; intros l Hl; cbn; [done|].
      apply IH. repeat case_match; auto.
    - apply (for_upto_ind (fun _ l => I l)); auto. }
  split_and!; [done|done|by rewrite Hl|]. intros k hartid Hk0. split.
  - intros <-. by apply boot_hart_index_found.
  - intros Hlk. rewrite (boot_hart_index_lookup ids hartid _ Hnd Hlk). lia.
Qed.
End Table.

(** Two cpus and one that is disabled; hart 5 boots. *)
Lemma boot_harts_init_table_witness :
  @boot_harts_init RV64 qemu_virt (Some [CpuNode true true (Some 4); CpuNode true false (Some 9); CpuNode true true (Some 5)]) 5
    = [5; 4] /\ NoDup [5; 4].
Proof.
  split; [reflexivity|].
  apply (@boot_harts_init_table RV64 qemu_virt
    (Some [CpuNode true true (Some 4); CpuNode true false (Some 9); CpuNode true true (Some 5)]) 5 qemu_virt_ok).
Defined.

(** ** Per-hart state ([struct hart]) *)

Record hart : Set := Hart {
  h_hartid : Z;
  h_index : Z;
  h_domain : Z; (* index of the domain it runs *)
  h_present : Z; (* reached the monitor *)
  h_no_smode : bool;
  h_m_sp : Z;
  h_hsm_state : Z; (* an SBI HSM state *)
  h_start_addr : Z;
  h_start_arg : Z;
  h_start_mode : Z;
  h_ipi_pending : Z; (* a bit per IPI event *)
}.

#[export] Instance hart_eta : Settable hart := fun h =>
  Hart (h_hartid h) (h_index h) (h_domain h) (h_present h) (h_no_smode h) (h_m_sp h)
    (h_hsm_state h) (h_start_addr h) (h_start_arg h) (h_start_mode h) (h_ipi_pending h).

(** As the heap gives it out. *)
Definition hart_zero : hart := Hart 0 0 0 0 false 0 0 0 0 0 0.

(** HSM states ([sbi.h]) *)
Definition SBI_HSM_STATE_STARTED : Z := 0.
Definition SBI_HSM_STATE_STOPPED : Z := 1.
Definition SBI_HSM_STATE_START_PENDING : Z := 2.
Definition SBI_HSM_STATE_STOP_PENDING : Z := 3.
Definition SBI_HSM_STATE_SUSPENDED : Z := 4.
Definition SBI_HSM_STATE_SUSPEND_PENDING : Z := 5.
Definition SBI_HSM_STATE_RESUME_PENDING : Z := 6.

Section Harts.
Context {AR : Arch} {KC : Kconfig}.
(** [_boot_hart_ids] and [harts]. *)
Context (ids : list Z) (harts : list hart).

Definition hart_by_index (index : Z) : option hart :=
  if index <? Z.of_nat (length ids) then harts !! Z.to_nat index else None.

Definition hart_index (hartid : Z) : Z := boot_hart_index ids hartid.

Definition hart_get (hartid : Z) : option hart :=
  let index := boot_hart_index ids hartid in
  if index <? 0 then None else harts !! Z.to_nat index.

Definition hart_id_of (index : Z) : Z :=
  if index <? Z.of_nat (length ids) then default (unot 0) (ids !! Z.to_nat index) else unot 0.

Definition hart_usable (h : hart) : bool := truth (h_present h) && negb (h_no_smode h).

Definition hart_index_valid (index : Z) : bool :=
  (index <? Z.of_nat (length ids)) &&
  match harts !! Z.to_nat index with Some h => hart_usable h | None => false end.

Definition hart_valid (hartid : Z) : bool :=
  match hart_get hartid with Some h => hart_usable h | None => false end.

Definition hart_table_size : Z := Z.of_nat (length ids).

Definition hart_count : Z :=
  foldl (fun n h => n + (if truth (h_present h) then 1 else 0)) 0 (take (length ids) harts).

(** The slot of a domain and hart in per-domain, per-hart storage. *)
Definition domain_hart_slot (key hart : Z) : Z := key * Z.of_nat (length ids) + hart.

(** [misa]'s S bit *)
Definition MISA_EXT_S : Z := 2 ^ 18.

(** [hart_init] on the hart with id [hartid]; [stack_top] and [stack_size]
    place the M-mode stacks below the end of the image. *)
Definition hart_init (stack_top stack_size misa hartid : Z) : list hart :=
  let index := boot_hart_index ids hartid in
  match harts !! Z.to_nat index with
  | None => harts
  | Some h =>
      let h := h <| h_hartid := hartid |> <| h_index := index |>
                 <| h_no_smode := truth misa && negb (truth (Z.land misa MISA_EXT_S)) |>
                 <| h_m_sp := stack_top -! index *! stack_size |> in
      let h := if negb (truth (h_present h))
               then h <| h_hsm_state := SBI_HSM_STATE_STOPPED |> else h in
      <[Z.to_nat index := h <| h_present := 1 |>]> harts
  end.
End Harts.

(** ** The interface *)

Class HartTable := {
  ht_ids : list Z;
  ht_nodup : NoDup ht_ids;
}.

(** Two harts, for the examples. *)
Lemma two_harts_nodup : NoDup [0; 1].
Proof. apply (bool_decide_unpack _). exact I. Defined.

Section Interface.
Context {AR : Arch} {HT : HartTable}.

Lemma hart_id_of_index (k : Z) :
  0 <= k < hart_table_size ht_ids -> hart_index ht_ids (hart_id_of ht_ids k) = k.
Proof.
  unfold hart_table_size. intros Hk. unfold hart_id_of. destruct (Z.ltb_spec k (Z.of_nat (length ht_ids))); [|lia].
  destruct (lookup_lt_is_Some_2 ht_ids (Z.to_nat k)) as [id Hid]; [lia|]. rewrite Hid. cbn.
  unfold hart_index. rewrite (boot_hart_index_lookup _ _ _ ht_nodup Hid). lia.
Qed.

Lemma hart_index_id_of (hartid : Z) :
  0 <= hart_index ht_ids hartid -> hart_id_of ht_ids (hart_index ht_ids hartid) = hartid.
Proof.
  intros Hi. pose proof (boot_hart_index_found _ _ Hi) as Hl. unfold hart_id_of, hart_index in *.
  pose proof (lookup_lt_Some _ _ _ Hl). destruct (Z.ltb_spec (boot_hart_index ht_ids hartid) (Z.of_nat (length ht_ids))); [|lia].
  by rewrite Hl.
Qed.

Lemma hart_index_bound (hartid : Z) : hart_index ht_ids hartid < hart_table_size ht_ids.
Proof.
  destruct (Z.lt_ge_cases (hart_index ht_ids hartid) 0) as [Hn|Hn].
  - unfold hart_table_size. lia.
  - pose proof (boot_hart_index_found _ _ Hn) as Hl%lookup_lt_Some. unfold hart_table_size, hart_index in *. lia.
Qed.

(** Two slots are the same only for the same domain and hart. *)
Lemma domain_hart_slot_inj (key hart key' hart' : Z) :
  0 <= hart < hart_table_size ht_ids -> 0 <= hart' < hart_table_size ht_ids ->
  domain_hart_slot ht_ids key hart = domain_hart_slot ht_ids key' hart' -> key = key' /\ hart = hart'.
Proof.
  unfold domain_hart_slot, hart_table_size. intros Hh Hh' E.
  set (n := Z.of_nat (length ht_ids)) in *.
  pose proof (f_equal (fun z => z mod n) E) as Em. cbv beta in Em.
  rewrite !(Z.add_comm (_ * n)), !Z_mod_plus_full, !Z.mod_small in Em by lia. split; [|done].
  subst hart'. apply (Z.mul_reg_r _ _ n); lia.
Qed.
End Interface.
