(* ===== verification/Heap.v ===== *)
(** The boot heap, [lib/utils/heap.c]: memory between the end of the image
    and the harts' stacks, handed out at boot and never given back. *)

From S2P Require Import Prelude Arch.

#[local] Open Scope Z_scope.

Section Heap.
Context {AR : Arch} {KC : Kconfig}.

(** [next] and [limit], and the memory the blocks are in, byte by byte. *)
Record heap : Type := Heap { hp_next : Z; hp_limit : Z; hp_mem : Z -> Z }.

(** [image_start] and [heap_start] are linker symbols, [stack_size] is
    CONFIG_STACK_SIZE. *)
Definition heap_init (image_start heap_start stack_size : Z) (mem : Z -> Z) (harts : Z) : outcome heap :=
  let top := image_start +! CONFIG_MONITOR_SIZE in
  let limit := top -! harts *! stack_size in
  if (limit <? heap_start) || (top <? limit) then Panic
  else Ret (Heap heap_start limit mem).

Definition heap_free_bytes (h : heap) : Z := hp_limit h -! hp_next h.

(** [memset(p, c, n)] *)
Definition memset_at (mem : Z -> Z) (p c n : Z) : Z -> Z :=
  fun a => if (p <=? a) && (a <? p + n) then c else mem a.

(** The address of the block comes with the heap. *)
Definition heap_alloc (h : heap) (size : Z) : outcome (Z * heap) :=
  let p := hp_next h in
  let size := ROUNDUP2 size 16 in
  if (hp_next h =? 0) || (hp_limit h -! hp_next h <? size) then Panic
  else Ret (p, Heap (hp_next h +! size) (hp_limit h) (memset_at (hp_mem h) p 0 size)).

Definition heap_alloc_array (h : heap) (count size : Z) : outcome (Z * heap) :=
  if truth size && (unot 0 / size <? count) then Panic
  else heap_alloc h (count *! size).

(** ** What is handed out *)

Definition heap_wf (h : heap) : Prop :=
  0 < hp_next h <= hp_limit h /\ hp_limit h < 2 ^ XLEN /\ hp_next h mod 16 = 0.

(** A block of [size] bytes, as asked for: not in reach of rounding up past
    the top of the address space. *)
Definition size_sane (size : Z) : Prop := 0 <= size /\ size + 16 <= 2 ^ XLEN.

Lemma heap_alloc_block (h : heap) (size p : Z) (h' : heap) :
  heap_wf h -> size_sane size -> heap_alloc h size = Ret (p, h') ->
  p = hp_next h /\ p mod 16 = 0 /\ p + size <= hp_next h' /\ hp_next h' <= hp_limit h /\
  hp_limit h' = hp_limit h /\ heap_wf h' /\
  (forall a, p <= a < p + size -> hp_mem h' a = 0) /\
  (forall a, a < p \/ hp_limit h <= a -> hp_mem h' a = hp_mem h a).
Proof.
  intros ((Hn0 & Hnl) & Hl & Hal) [Hs Hsm]. unfold heap_alloc. pose proof XLEN_bounds.
  change 16 with (2 ^ 4) in *. destruct (ROUNDUP2_spec size 4) as [Hm Hr]; [lia..|].
  set (sz := ROUNDUP2 size (2 ^ 4)) in *. clearbody sz.
  destruct (Z.eqb_spec (hp_next h) 0); [lia|]. cbn [orb].
  replace (hp_limit h -! hp_next h) with (hp_limit h - hp_next h) by (symmetry; apply wrap_small; split; lia).
  destruct (Z.ltb_spec (hp_limit h - hp_next h) sz); [done|]. intros [= <- <-]. cbn.
  replace (hp_next h +! sz) with (hp_next h + sz) by (symmetry; apply wrap_small; split; lia).
  split_and!; try done; try lia.
  - unfold heap_wf. cbn. split_and!; [lia..|]. change 16 with (2 ^ 4).
    rewrite Z.add_mod, Hal, Hm by lia. done.
  - intros a Ha. unfold memset_at. destruct (Z.leb_spec (hp_next h) a), (Z.ltb_spec a (hp_next h + sz)); done || lia.
  - intros a Ha. unfold memset_at. destruct (Z.leb_spec (hp_next h) a), (Z.ltb_spec a (hp_next h + sz)); done || lia.
Qed.

(** A run of allocations: the blocks' addresses, and the heap after them. *)
Fixpoint heap_allocs (h : heap) (sizes : list Z) : outcome (list Z * heap) :=
  match sizes with
  | [] => Ret ([], h)
  | size :: sizes =>
      '(p, h) ← heap_alloc h size;
      '(ps, h) ← heap_allocs h sizes;
      Ret (p :: ps, h)
  end.

Lemma heap_allocs_blocks (sizes : list Z) : forall (h h' : heap) (ps : list Z),
  heap_wf h -> Forall size_sane sizes -> heap_allocs h sizes = Ret (ps, h') ->
  heap_wf h' /\ length ps = length sizes /\ hp_limit h' = hp_limit h /\ hp_next h <= hp_next h' /\
  (forall i p s, ps !! i = Some p -> sizes !! i = Some s ->
     p mod 16 = 0 /\ hp_next h <= p /\ p + s <= hp_next h' /\ forall a, p <= a < p + s -> hp_mem h' a = 0) /\
  (forall i j p q s, (i < j)%nat -> ps !! i = Some p -> ps !! j = Some q -> sizes !! i = Some s -> p + s <= q) /\
  (forall a, a < hp_next h -> hp_mem h' a = hp_mem h a).
Proof.
  induction sizes as [|size sizes IH]; intros h h' ps Hwf Hs; cbn.
  { intros [= <- <-]. split_and!; try done; try lia; intros; done. }
  apply Forall_cons in Hs as [Hsz Hs].
  destruct (heap_alloc h size) as [[p h1]|] eqn:Ea; cbn; [|done].
  destruct (heap_allocs h1 sizes) as [[ps1 h2]|] eqn:Eas; cbn; [|done]. intros [= <- <-].
  pose proof (heap_alloc_block h size p h1 Hwf Hsz Ea) as (-> & Hal & Hend & Hlim & El & Hwf1 & Hz & Hkeep).
  destruct (IH h1 h2 ps1 Hwf1 Hs Eas) as (Hwf2 & Hlen & El2 & Hle & Hin & Hdis & Hk2). destruct Hsz.
  split_and!; [done|cbn; congruence|congruence|lia|..].
  - intros [|i] q s; cbn; [intros [= <-] [= <-]|intros Hq Hsq].
    + split_and!; [done|lia|lia|]. intros a Ha. rewrite Hk2 by lia. by apply Hz.
    + destruct (Hin i q s Hq Hsq) as (? & ? & ? & ?). split_and!; [done|lia|done|done].
  - intros [|i] [|j] p q s Hij; cbn; try lia.
    + intros [= <-] Hq [= <-]. destruct (lookup_lt_is_Some_2 sizes j) as [s' Hs'].
      { rewrite <- Hlen. by apply lookup_lt_Some in Hq. }
      destruct (Hin j q s' Hq Hs') as (_ & ? & _). lia.
    + intros. eapply (Hdis i j); [lia|done..].
  - intros a Ha. rewrite Hk2 by lia. apply Hkeep. lia.
Qed.

(** the heap's blocks. The blocks of any run of allocations are aligned,
    zeroed, within the heap, below the stacks, and apart from one
    another. *)
Theorem heap_blocks_apart (h h' : heap) (sizes ps : list Z) :
  heap_wf h -> Forall size_sane sizes -> heap_allocs h sizes = Ret (ps, h') ->
  length ps = length sizes /\
  (forall i p s, ps !! i = Some p -> sizes !! i = Some s ->
     p mod 16 = 0 /\ hp_next h <= p /\ p + s <= hp_limit h /\ forall a, p <= a < p + s -> hp_mem h' a = 0) /\
  (forall i j p q s t, i <> j -> ps !! i = Some p -> ps !! j = Some q -> sizes !! i = Some s -> sizes !! j = Some t ->
     p + s <= q \/ q + t <= p).
Proof.
  intros Hwf Hs Ha. destruct (heap_allocs_blocks sizes h h' ps Hwf Hs Ha) as (((_ & Hnl) & _) & Hlen & El & _ & Hin & Hdis & _).
  split_and!; [done|..].
  - intros i p s Hp Hsz. destruct (Hin i p s Hp Hsz) as (? & ? & ? & ?). split_and!; try done; lia.
  - intros i j p q s t Hij Hp Hq Hsi Hsj. destruct (decide (i < j)%nat); [left|right].
    + by eapply (Hdis i j).
    + eapply (Hdis j i); [lia|done..].
Qed.

(** an array whose size is not a number of bytes at all is turned down, but
    one within 16 bytes of the top of the address space is not: rounded up
    it is nothing, and the block has no memory behind it. *)
Theorem heap_alloc_rounds_to_nothing (h : heap) (count size : Z) :
  heap_wf h -> 0 < size -> 2 ^ XLEN - 15 <= count * size < 2 ^ XLEN ->
  heap_alloc_array h count size = Ret (hp_next h, Heap (hp_next h) (hp_limit h) (memset_at (hp_mem h) (hp_next h) 0 0)).
Proof.
  intros ((Hn0 & Hnl) & Hl & Hal) Hs Hc. unfold heap_alloc_array. pose proof XLEN_bounds.
  assert (2 ^ 32 <= 2 ^ XLEN) as H32 by (apply pow2_le; lia). change (2 ^ 32) with 4294967296 in H32.
  assert (truth size = true) as -> by (apply truth_true; lia).
  assert ((unot 0 / size <? count) = false) as ->.
  { apply Z.ltb_ge. rewrite unot_eq by (split; lia). apply Z.div_le_lower_bound; lia. }
  replace (count *! size) with (count * size) by (symmetry; apply wrap_small; split; lia).
  cbn [andb]. unfold heap_alloc. assert (ROUNDUP2 (count * size) 16 = 0) as ->.
  { unfold ROUNDUP2, uadd. rewrite wrap_over by lia. unfold usub.
    rewrite (wrap_small (_ - 1)) by (split; lia). rewrite (wrap_small (16 - 1)) by (split; lia).
    rewrite land_unot by (split; lia). change (16 - 1) with (2 ^ 4 - 1). rewrite ldiff_low by lia.
    rewrite Z.mod_small; [lia|]. change (2 ^ 4) with 16. lia. }
  destruct (Z.eqb_spec (hp_next h) 0); [lia|]. cbn [orb].
  destruct (Z.ltb_spec (hp_limit h -! hp_next h) 0) as [Hlt|].
  - pose proof (wrap_range (hp_limit h - hp_next h)) as [? _]. unfold usub in Hlt. lia.
  - unfold uadd. rewrite Z.add_0_r, wrap_small by (split; lia). done.
Qed.
End Heap.

Definition small_heap : heap := Heap 0x80050000 0x801f0000 (fun _ => 7).

Definition small_heap_after : heap :=
  match @heap_allocs RV64 small_heap [24; 40] with Ret (_, h) => h | Panic => small_heap end.

Lemma heap_blocks_apart_witness :
  @heap_allocs RV64 small_heap [24; 40] = Ret ([0x80050000; 0x80050020], small_heap_after) /\
  forall a, 0x80050020 <= a < 0x80050020 + 40 -> hp_mem small_heap_after a = 0.
Proof.
  assert (@heap_allocs RV64 small_heap [24; 40] = Ret ([0x80050000; 0x80050020], small_heap_after)) as E by reflexivity.
  split; [exact E|].
  destruct (@heap_blocks_apart RV64 small_heap small_heap_after [24; 40] [0x80050000; 0x80050020]) as (_ & Hin & _).
  - unfold heap_wf. split_and!; done.
  - repeat constructor; done.
  - exact E.
  - apply (Hin 1%nat 0x80050020 40 eq_refl eq_refl).
Defined.

Lemma heap_alloc_rounds_to_nothing_witness :
  exists h', @heap_alloc_array RV64 small_heap (2 ^ 63 - 1) 2 = Ret (0x80050000, h') /\
    hp_next h' = 0x80050000.
Proof.
  eexists. split; [apply (@heap_alloc_rounds_to_nothing RV64 small_heap)|reflexivity].
  - unfold heap_wf. split_and!; done.
  - done.
  - split; done.
Defined.
