(* ===== verification/Isa.v ===== *)
(** The extensions the device tree lists, [arch/riscv/runtime/isa.c]: one
    string on the heap, and the search in it.  The properties of the boot
    hart's cpu node are lists of bytes; reading past the end of one is
    [None]. *)

From S2P Require Import Prelude Arch Builtins CString Heap.

#[local] Open Scope Z_scope.

(** ' ', '_' *)
Abbreviation SPACE := 32.
Abbreviation UNDERSCORE := 95.

Section Isa.
Context {AR : Arch}.

(** "riscv,isa-extensions" and "riscv,isa". *)
Record cpu_node := CpuNode { isa_extensions : option (list Z); isa_prop : option (list Z) }.

Definition lower (c : Z) : Z := if (65 <=? c) && (c <=? 90) then uint 8 (c + (97 - 65)) else c.

(** [for (int i = 0; i < len; i++) *out++ = prop[i] ? lower(prop[i]) : ' ';] *)
Fixpoint extensions_loop (m : Z -> Z) (out : Z) (prop : list Z) : Z -> Z :=
  match prop with
  | [] => m
  | c :: prop => extensions_loop (store m out (if truth c then lower c else SPACE)) (out + 1) prop
  end.

(** The single letters; where they end, with what is left. *)
Fixpoint letters_loop (m : Z -> Z) (out : Z) (prop : list Z) : option ((Z -> Z) * Z * list Z) :=
  match prop with
  | [] => None
  | c :: rest =>
      if negb (truth c) || (c =? UNDERSCORE) then Some (m, out, prop)
      else if bool_decide (lower c ∈ [115; 120; 122]) then Some (m, out, prop)
      else letters_loop (store (store m out (lower c)) (out + 1) SPACE) (out + 2) rest
  end.

(** The names. *)
Fixpoint names_loop (m : Z -> Z) (out : Z) (prop : list Z) : option ((Z -> Z) * Z) :=
  match prop with
  | [] => None
  | c :: rest =>
      if truth c then names_loop (store m out (if c =? UNDERSCORE then SPACE else lower c)) (out + 1) rest
      else Some (m, out)
  end.

(** A string "rv..." and the list that is made of it, from [out] on. *)
Definition isa_parse (m : Z -> Z) (out : Z) (prop : list Z) : option (Z -> Z) :=
  let m := store m out SPACE in
  '(m, out, rest) ← letters_loop m (out + 1) (drop 4 prop);
  '(m, out) ← names_loop m out rest;
  Some (store m out SPACE).

Definition isa_rv (prop : list Z) : bool :=
  match prop with
  | r :: v :: _ => (5 <=? Z.of_nat (length prop)) && (lower r =? 114) && (lower v =? 118)
  | _ => false
  end.

(** [list] is NULL before; the heap's memory has what it points to. *)
Definition isa_init (h : heap) (cpu : option cpu_node) : option (outcome (option Z * heap)) :=
  match cpu with
  | None => Some (Ret (None, h))
  | Some cpu =>
      match isa_extensions cpu with
      | Some ((_ :: _) as prop) =>
          match heap_alloc h (Z.of_nat (length prop) + 2) with
          | Panic => Some Panic
          | Ret (p, h) =>
              let m := extensions_loop (store (hp_mem h) p SPACE) (p + 1) prop in
              Some (Ret (Some p, Heap (hp_next h) (hp_limit h) m))
          end
      | _ =>
          match isa_prop cpu with
          | Some prop =>
              if negb (isa_rv prop) then Some (Ret (None, h))
              else match heap_alloc h (2 * Z.of_nat (length prop) + 2) with
              | Panic => Some Panic
              | Ret (p, h) =>
                  m ← isa_parse (hp_mem h) p prop;
                  Some (Ret (Some p, Heap (hp_next h) (hp_limit h) m))
              end
          | None => Some (Ret (None, h))
          end
      end
  end.

Definition isa_known (lst : option Z) : bool := bool_decide (is_Some lst).

(** The loop over the places of the name; [fuel] bounds what it reads. *)
Fixpoint isa_has_loop (rounds fuel : nat) (m : Z -> Z) (p ext n : Z) : option bool :=
  match rounds with
  | 0%nat => None
  | S rounds =>
      found ← strstr fuel m p ext;
      match found with
      | None => Some false
      | Some q =>
          if (m (q - 1) =? SPACE) && ((m (q + n) =? SPACE) || (m (q + n) =? 0)) then Some true
          else isa_has_loop rounds fuel m (q + n) ext n
      end
  end.

Definition isa_has (fuel : nat) (m : Z -> Z) (lst : option Z) (ext : Z) : option bool :=
  n ← strlen fuel m ext;
  match lst with
  | None => Some false
  | Some p => isa_has_loop fuel fuel m p ext n
  end.

Definition isa_allows (fuel : nat) (m : Z -> Z) (lst : option Z) (ext : Z) : option bool :=
  if isa_known lst then isa_has fuel m lst ext else Some true.

Definition isa_string (lst : option Z) : option Z := (fun p => p + 1) <$> lst.

(** * Words

    What a list of names means: what is between its spaces. *)
Fixpoint words_from (cur s : list Z) : list (list Z) :=
  match s with
  | [] => [cur]
  | c :: s => if c =? SPACE then cur :: words_from [] s else words_from (cur ++ [c]) s
  end.
Definition words (s : list Z) : list (list Z) := words_from [] s.

(** [t] is one of the words: after a space, up to one or to the end. *)
Definition is_word (t s : list Z) : Prop :=
  exists a b, s = a ++ SPACE :: t ++ b /\ (b = [] \/ exists b', b = SPACE :: b').

Definition spaceless (t : list Z) : Prop := SPACE ∉ t.

(** The first space of a list is where it is. *)
Lemma first_space (cur t s b : list Z) :
  spaceless cur -> spaceless t -> cur ++ SPACE :: s = t ++ SPACE :: b -> cur = t /\ s = b.
Proof.
  unfold spaceless. revert t. induction cur as [|c cur IH]; intros [|d t]; rewrite ?not_elem_of_cons; cbn.
  - by intros _ _ [= ->].
  - intros _ [Hd _] [= E _]. done.
  - intros [Hc _] _ [= E _]. congruence.
  - intros [_ Hc] [_ Ht] [= -> E]. destruct (IH _ Hc Ht E) as [-> ->]. done.
Qed.

(** A space further on is beyond the words before it. *)
Lemma later_space (cur s a x : list Z) :
  spaceless cur -> cur ++ SPACE :: s = a ++ SPACE :: x ->
  (a = cur /\ s = x) \/ exists a', a = cur ++ SPACE :: a' /\ s = a' ++ SPACE :: x.
Proof.
  unfold spaceless. revert a. induction cur as [|c cur IH]; intros a; rewrite ?not_elem_of_cons; cbn.
  - destruct a as [|c a]; cbn; intros _ E; [injection E as ->; by left|]. injection E as <- ->. right. eauto.
  - intros [Hc Hcur] E. destruct a as [|d a]; cbn in E; [by injection E|]. injection E as <- E.
    destruct (IH a Hcur E) as [[-> ->]|(a' & -> & ->)]; eauto.
Qed.

Lemma words_from_spec (cur s t : list Z) :
  spaceless cur -> spaceless t -> t ∈ words_from cur s <-> is_word t (SPACE :: cur ++ s).
Proof.
  intros Hcur Ht. revert cur Hcur. induction s as [|c s IH]; intros cur Hcur; cbn.
  - rewrite app_nil_r, list_elem_of_singleton. split.
    + intros ->. exists [], []. rewrite app_nil_r. auto.
    + intros (a & b & E & Hb). destruct a as [|c a]; cbn in E; [injection E as E|injection E as _ E].
      * destruct Hb as [->|[b' ->]]; [by rewrite app_nil_r in E|].
        destruct Hcur. rewrite E. rewrite elem_of_app, elem_of_cons. auto.
      * destruct Hcur. rewrite E. rewrite elem_of_app, elem_of_cons. auto.
  - destruct (Z.eqb_spec c SPACE) as [->|Hc].
    + rewrite elem_of_cons, (IH []) by apply not_elem_of_nil. split.
      * intros [->|(a & b & E & Hb)].
        -- exists [], (SPACE :: s). eauto.
        -- exists (SPACE :: cur ++ a), b. cbn in E |- *. by rewrite E, <- app_assoc.
      * intros (a & b & E & Hb). destruct a as [|c a]; cbn in E; [injection E as E|injection E as _ E].
        -- left. destruct Hb as [->|[b' ->]].
           { destruct Ht. rewrite app_nil_r in E. rewrite <- E, elem_of_app, elem_of_cons. auto. }
           symmetry. by apply (first_space cur t s b').
        -- right. destruct (later_space _ _ _ _ Hcur E) as [[-> ->]|(a' & -> & ->)].
           ++ exists [], b. done.
           ++ exists (SPACE :: a'), b. done.
    + rewrite IH; [by rewrite <- app_assoc|]. unfold spaceless. rewrite not_elem_of_app, list_elem_of_singleton. auto.
Qed.

Lemma words_spec (s t : list Z) : spaceless t -> t ∈ words s <-> is_word t (SPACE :: s).
Proof. apply words_from_spec, not_elem_of_nil. Qed.

(** * The search *)

Lemma cstring_lookup (m : Z -> Z) (p : Z) (s : list Z) (i : nat) :
  cstring m p s -> (i <= length s)%nat -> m (p + Z.of_nat i) = default 0 (s !! i).
Proof.
  intros Hs Hi. pose proof (cstring_tail _ _ _ _ Hi Hs) as Ht.
  replace (s !! i) with (drop i s !! 0%nat) by (rewrite lookup_drop; f_equal; lia).
  destruct (drop i s); cbn in Ht; [done|]. by destruct Ht as [-> _].
Qed.

Lemma occurs_lookup (t s : list Z) (i j : nat) :
  occurs t s i -> (j < length t)%nat -> s !! (i + j)%nat = t !! j.
Proof. intros [_ E] Hj. rewrite <- E, lookup_take_lt, lookup_drop by done. done. Qed.

Lemma occurs_length (t s : list Z) (i : nat) : occurs t s i -> (i + length t <= length s)%nat.
Proof. intros [Hi E]. apply (f_equal length) in E. rewrite length_take, length_drop in E. lia. Qed.

Lemma occurs_drop (t s : list Z) (k i : nat) :
  (k <= i)%nat -> (k <= length s)%nat -> occurs t s i <-> occurs t (drop k s) (i - k).
Proof.
  intros Hk Hl. unfold occurs. rewrite length_drop, drop_drop. replace (k + (i - k))%nat with i by lia.
  split; intros [Hi E]; (split; [lia|done]).
Qed.

(** A word, by its place. *)
Definition word_at (t s : list Z) (i : nat) : Prop :=
  (1 <= i)%nat /\ occurs t s i /\ s !! (i - 1)%nat = Some SPACE /\
  (s !! (i + length t)%nat = Some SPACE \/ (i + length t)%nat = length s).

Lemma word_at_is_word (t s : list Z) : is_word t s <-> exists i, word_at t s i.
Proof.
  split.
  - intros (a & b & -> & Hb). exists (S (length a)). unfold word_at, occurs. split_and!.
    + lia.
    + rewrite length_app. cbn. lia.
    + replace (a ++ SPACE :: t ++ b) with ((a ++ [SPACE]) ++ t ++ b) by by rewrite <- app_assoc.
      rewrite drop_app_length' by (rewrite length_app; cbn; lia). by rewrite take_app_length.
    + replace (S (length a) - 1)%nat with (length a) by lia. by apply list_lookup_middle.
    + destruct Hb as [->|[b' ->]]; [right; rewrite length_app; cbn; rewrite length_app; cbn; lia|left].
      replace (a ++ SPACE :: t ++ SPACE :: b') with ((a ++ SPACE :: t) ++ SPACE :: b') by by rewrite <- app_assoc.
      apply list_lookup_middle. rewrite length_app. cbn. lia.
  - intros (i & Hi & Ho & Hb & He). pose proof (occurs_length _ _ _ Ho) as Hlen. destruct Ho as [_ Ho].
    exists (take (i - 1) s), (drop (i + length t) s). split.
    + rewrite <- (take_drop (i - 1) s) at 1. f_equal. rewrite (drop_S s SPACE) by done.
      replace (S (i - 1)) with i by lia. f_equal. rewrite <- (take_drop (length t) (drop i s)), Ho, drop_drop. done.
    + destruct He as [He|He]; [|left; apply drop_ge; lia]. right. rewrite (drop_S _ _ _ He). eauto.
Qed.

Section Search.
Context (m : Z -> Z) (p ext : Z) (s t : list Z).
Hypothesis Hlist : cstring m p s.
Hypothesis Hext : cstring m ext t.
Hypothesis Hne : t <> [].
Hypothesis Hsp : spaceless t.

Lemma length_ext : (0 < length t)%nat.
Proof. destruct t; [done|cbn; lia]. Qed.

(** A place of the name that is not a word has none before its end: a word
    there would have the space before it inside the name. *)
Lemma no_word_inside (i j : nat) :
  occurs t s i -> (i < j < i + length t)%nat -> ~ word_at t s j.
Proof.
  intros Ho Hj (_ & _ & Hb & _). pose proof (occurs_lookup _ _ _ (j - 1 - i) Ho ltac:(lia)) as E.
  replace (i + (j - 1 - i))%nat with (j - 1)%nat in E by lia. rewrite Hb in E. symmetry in E.
  apply list_elem_of_lookup_2 in E. done.
Qed.

(** The test of the code, at a place of the name. *)
Lemma word_test (i : nat) :
  s !! 0%nat = Some SPACE -> occurs t s i ->
  (m (p + Z.of_nat i - 1) =? SPACE) &&
    ((m (p + Z.of_nat i + Z.of_nat (length t)) =? SPACE) || (m (p + Z.of_nat i + Z.of_nat (length t)) =? 0)) = true <->
  word_at t s i.
Proof.
  intros H0 Ho. pose proof (occurs_length _ _ _ Ho) as Hlen. pose proof length_ext.
  assert (1 <= i)%nat as Hi.
  { destruct i; [|lia]. pose proof (occurs_lookup _ _ _ 0 Ho ltac:(lia)) as E. cbn in E. rewrite H0 in E.
    symmetry in E. apply list_elem_of_lookup_2 in E. done. }
  replace (p + Z.of_nat i - 1) with (p + Z.of_nat (i - 1)) by lia.
  replace (p + Z.of_nat i + Z.of_nat (length t)) with (p + Z.of_nat (i + length t)) by lia.
  rewrite !(cstring_lookup m p s) by (done || lia). rewrite andb_true_iff, orb_true_iff, !Z.eqb_eq.
  unfold word_at. destruct (s !! (i - 1)%nat) as [c|] eqn:Eb; [|apply lookup_ge_None in Eb; lia].
  destruct (s !! (i + length t)%nat) as [d|] eqn:Ee; cbn.
  - assert (0 < d < 256).
    { pose proof (cstring_tail m p s _ Hlen Hlist) as Hd. rewrite (drop_S _ _ _ Ee) in Hd. apply Hd. }
    apply lookup_lt_Some in Ee. split; [intros [-> [-> | ->]]; [split_and!; auto|lia]|]. intros (_ & _ & [= ->] & [[= ->]|?]); [auto|lia].
  - apply lookup_ge_None in Ee. split; [intros [-> _]|intros (_ & _ & [= ->] & _); auto]. split_and!; [done..|right; lia].
Qed.

Lemma isa_has_loop_spec (rounds fuel k : nat) :
  s !! 0%nat = Some SPACE -> (k <= length s)%nat -> (forall i, (i < k)%nat -> ~ word_at t s i) ->
  (length s - k < rounds)%nat -> (length s < fuel)%nat -> (length t < fuel)%nat ->
  exists r, isa_has_loop rounds fuel m (p + Z.of_nat k) ext (Z.of_nat (length t)) = Some r /\
    (r = true <-> exists i, word_at t s i).
Proof.
  intros H0 Hk Hinv Hr Hf Hf'. revert k Hk Hinv Hr. induction rounds as [|rounds IH]; intros k Hk Hinv Hr; [lia|].
  cbn [isa_has_loop].
  destruct (strstr_spec fuel m (p + Z.of_nat k) ext (drop k s) t) as (found & -> & Hfirst);
    [by apply cstring_tail|done|rewrite length_drop; lia|done|]. cbn.
  destruct found as [q|]; cbn in Hfirst.
  - destruct Hfirst as (j & -> & Ho & Hmin). pose proof length_ext.
    replace (p + Z.of_nat k + Z.of_nat j) with (p + Z.of_nat (k + j)) by lia.
    assert (occurs t s (k + j)) as Ho'.
    { apply (occurs_drop _ _ k); [lia|done|]. replace (k + j - k)%nat with j by lia. done. }
    assert (forall i, (i < k + j)%nat -> ~ word_at t s i) as Hbefore.
    { intros i Hi. destruct (decide (i < k)%nat); [by apply Hinv|]. intros (_ & Hoi & _).
      apply (occurs_drop _ _ k) in Hoi; [|lia|done]. apply (Hmin (i - k)%nat); [lia|done]. }
    pose proof (word_test (k + j) H0 Ho') as Htest. destruct (_ && _) eqn:Ht.
    + exists true. split; [done|]. split; [|done]. intros _. exists (k + j)%nat. by apply Htest.
    + pose proof (occurs_length _ _ _ Ho').
      replace (p + Z.of_nat (k + j) + Z.of_nat (length t)) with (p + Z.of_nat (k + j + length t)) by lia.
      apply IH; [lia| |lia]. intros i Hi. destruct (decide (i < k + j)%nat); [by apply Hbefore|].
      destruct (decide (i = k + j)%nat) as [->|]; [intros Hw; by apply Htest in Hw|].
      apply (no_word_inside (k + j)); [done|lia].
  - exists false. split; [done|]. split; [done|]. intros (i & Hw).
    destruct (decide (i < k)%nat) as [Hi|Hi]; [by destruct (Hinv i Hi)|]. destruct Hw as (_ & Ho & _).
    apply (occurs_drop _ _ k) in Ho; [|lia|done]. by destruct (Hfirst _ Ho).
Qed.
End Search.

(** [isa_has] ends, and finds exactly the words of the list. *)
Lemma isa_has_spec (fuel : nat) (m : Z -> Z) (p ext : Z) (s t : list Z) :
  cstring m p (SPACE :: s) -> cstring m ext t -> t <> [] -> spaceless t ->
  (S (length s) < fuel)%nat -> (length t < fuel)%nat ->
  isa_has fuel m (Some p) ext = Some (bool_decide (t ∈ words s)).
Proof.
  intros Hs Ht Hne Hsp Hf Hf'. unfold isa_has. rewrite (strlen_spec _ _ _ _ Ht Hf'). cbn.
  destruct (isa_has_loop_spec m p ext (SPACE :: s) t Hs Ht Hne Hsp fuel fuel 0) as (r & E & Hr);
    [done|cbn; lia|lia|cbn; lia|cbn; lia|done|].
  rewrite Z.add_0_r in E. rewrite E. f_equal. apply Bool.eq_iff_eq_true.
  rewrite Hr, bool_decide_eq_true, words_spec by done. symmetry. apply word_at_is_word.
Qed.

(** * The list *)

(** Memory with the bytes of a list from an address on. *)
Definition overlay (m : Z -> Z) (out : Z) (l : list Z) (x : Z) : Z :=
  if out <=? x then default (m x) (l !! Z.to_nat (x - out)) else m x.

Lemma overlay_nil (m : Z -> Z) (out x : Z) : overlay m out [] x = m x.
Proof. unfold overlay. case_cmp; done. Qed.

Lemma overlay_cons (m : Z -> Z) (out c : Z) (l : list Z) (x : Z) :
  overlay (store m out c) (out + 1) l x = overlay m out (c :: l) x.
Proof.
  unfold overlay, store. case_cmp; subst; try lia.
  - replace (Z.to_nat (x - out)) with (S (Z.to_nat (x - (out + 1)))) by lia. done.
  - by rewrite Z.sub_diag.
Qed.

Lemma overlay_app (m : Z -> Z) (out : Z) (l l' : list Z) (x : Z) :
  overlay (overlay m out l) (out + Z.of_nat (length l)) l' x = overlay m out (l ++ l') x.
Proof.
  unfold overlay. destruct (Z.leb_spec out x), (Z.leb_spec (out + Z.of_nat (length l)) x); try lia.
  - rewrite lookup_app_r, (lookup_ge_None_2 l) by lia. cbn. do 2 f_equal. lia.
  - by rewrite lookup_app_l by lia.
Qed.

Lemma overlay_ext (m m' : Z -> Z) (out : Z) (l : list Z) (x : Z) : m x = m' x -> overlay m out l x = overlay m' out l x.
Proof. unfold overlay. by intros ->. Qed.

Lemma cstring_overlay (m m' : Z -> Z) (p : Z) (l : list Z) :
  (forall x, m' x = overlay m p l x) -> Forall (fun c => 0 < c < 256) l -> m (p + Z.of_nat (length l)) = 0 ->
  cstring m' p l.
Proof.
  intros Hm Hl Hz. revert m p Hm Hz. induction Hl as [|c l Hc Hl IH]; intros m p Hm Hz; cbn.
  - rewrite Hm, overlay_nil. rewrite Z.add_0_r in Hz. done.
  - split_and!; [|lia|lia|].
    + rewrite Hm. unfold overlay. by rewrite Z.leb_refl, Z.sub_diag.
    + apply (IH (store m p c)); [intros x; by rewrite overlay_cons|].
      rewrite store_ne by lia. rewrite <- Hz. f_equal. cbn. lia.
Qed.

Lemma cstring_same (m m' : Z -> Z) (p : Z) (l : list Z) :
  (forall x, p <= x <= p + Z.of_nat (length l) -> m' x = m x) -> cstring m p l -> cstring m' p l.
Proof.
  revert p. induction l as [|c l IH]; intros p Hm; cbn; [intros <-; apply Hm; cbn; lia|].
  intros (E & Hc & Hl). split_and!; [rewrite <- E; apply Hm; cbn; lia|lia|lia|]. apply IH; [|done].
  intros x Hx. apply Hm. cbn. lia.
Qed.

Lemma extensions_loop_spec (prop : list Z) (m : Z -> Z) (out x : Z) :
  extensions_loop m out prop x = overlay m out ((fun c => if truth c then lower c else SPACE) <$> prop) x.
Proof.
  revert m out. induction prop as [|c prop IH]; intros m out; cbn; [by rewrite overlay_nil|].
  rewrite IH. apply overlay_cons.
Qed.

(** What ends the single letters. *)
Definition is_letter (c : Z) : Prop := c <> 0 /\ c <> UNDERSCORE /\ lower c ∉ [115; 120; 122].
Definition no_letters (rest : list Z) : Prop :=
  exists c rest', rest = c :: rest' /\ ~ is_letter c.

Lemma letters_loop_spec (letters rest : list Z) (m : Z -> Z) (out : Z) :
  Forall is_letter letters -> no_letters rest ->
  exists m', letters_loop m out (letters ++ rest) = Some (m', out + 2 * Z.of_nat (length letters), rest) /\
    forall x, m' x = overlay m out (letters ≫= fun c => [lower c; SPACE]) x.
Proof.
  intros Hl (c & rest' & -> & Hc). revert m out. induction Hl as [|d letters Hd Hl IH]; intros m out; cbn.
  - exists m. split; [|intros; by rewrite overlay_nil]. rewrite Z.add_0_r. unfold truth, is_letter in *.
    destruct (Z.eqb_spec c 0) as [->|]; [done|]. destruct (Z.eqb_spec c UNDERSCORE) as [->|]; [done|]. cbn [negb orb].
    case_bool_decide as Hin; [done|]. destruct Hc. done.
  - destruct Hd as (Hd0 & Hd1 & Hd2). unfold truth. destruct (Z.eqb_spec d 0); [done|].
    destruct (Z.eqb_spec d UNDERSCORE); [done|]. cbn [negb orb]. rewrite bool_decide_eq_false_2 by done.
    destruct (IH (store (store m out (lower d)) (out + 1) SPACE) (out + 2)) as (m' & -> & Hm').
    exists m'. split; [do 2 f_equal; f_equal; lia|]. intros x. rewrite Hm'.
    replace (out + 2) with (out + 1 + 1) by lia. by rewrite !overlay_cons.
Qed.

Lemma names_loop_spec (names : list Z) (m : Z -> Z) (out : Z) :
  0 ∉ names ->
  exists m', names_loop m out (names ++ [0]) = Some (m', out + Z.of_nat (length names)) /\
    forall x, m' x = overlay m out ((fun c => if c =? UNDERSCORE then SPACE else lower c) <$> names) x.
Proof.
  revert m out. induction names as [|c names IH]; intros m out; cbn.
  - intros _. exists m. rewrite Z.add_0_r. split; [done|]. intros. by rewrite overlay_nil.
  - rewrite not_elem_of_cons. intros [Hc Hn]. assert (truth c = true) as -> by (apply truth_true; congruence).
    destruct (IH (store m out (if c =? UNDERSCORE then SPACE else lower c)) (out + 1) Hn) as (m' & -> & Hm').
    exists m'. split; [do 2 f_equal; lia|]. intros x. rewrite Hm'. apply overlay_cons.
Qed.

(** ** The words of the list *)

Lemma words_from_app (cur e s : list Z) :
  spaceless e -> words_from cur (e ++ SPACE :: s) = (cur ++ e) :: words_from [] s.
Proof.
  revert cur. induction e as [|c e IH]; intros cur; cbn [app words_from].
  - by rewrite app_nil_r.
  - unfold spaceless. rewrite not_elem_of_cons. intros [Hc He]. destruct (Z.eqb_spec c SPACE); [congruence|].
    rewrite IH by done. by rewrite <- app_assoc.
Qed.

Lemma words_concat (es : list (list Z)) (s : list Z) :
  Forall spaceless es -> words ((es ≫= fun e => e ++ [SPACE]) ++ s) = es ++ words s.
Proof.
  intros Hes. induction Hes as [|e es He Hes IH]; [done|]. unfold words in *. cbn [mbind list_bind app].
  rewrite <- !app_assoc. cbn [app]. rewrite words_from_app, IH by done. done.
Qed.

(** The characters of a name. *)
Definition name_char (c : Z) : Prop := 0 < c < 256 /\ c <> SPACE.

Lemma lower_char (c : Z) : name_char c -> name_char (lower c).
Proof.
  unfold name_char, lower. intros [Hc Hs]. destruct ((65 <=? c) && (c <=? 90)) eqn:E; [|done].
  bool_prop. rewrite uint_small by (unfold is_uint; lia). lia.
Qed.

Definition lowers (e : list Z) : list Z := lower <$> e.

Lemma lower_chars (e : list Z) : Forall name_char e -> Forall name_char (lowers e).
Proof. intros He. apply Forall_fmap. eapply Forall_impl; [exact He|]. apply lower_char. Qed.

Lemma chars_spaceless (e : list Z) : Forall name_char e -> spaceless e.
Proof. intros He Hin. rewrite Forall_forall in He. by destruct (He _ Hin). Qed.

(** ** What a node lists *)

Inductive lists : cpu_node -> list (list Z) -> Prop :=
| lists_extensions (es : list (list Z)) (isa : option (list Z)) :
    es <> [] -> Forall (Forall name_char) es ->
    lists (CpuNode (Some (es ≫= fun e => e ++ [0])) isa) (lowers <$> es)
| lists_isa (r v x y : Z) (letters first : list Z) (names : list (list Z)) :
    lower r = 114 -> lower v = 118 ->
    Forall (fun c => is_letter c /\ name_char c) letters ->
    Forall (Forall (fun c => c <> UNDERSCORE /\ name_char c)) (first :: names) ->
    match first with [] => True | c :: _ => lower c ∈ [115; 120; 122] end ->
    lists (CpuNode None (Some (r :: v :: x :: y :: letters ++ (first ++ (names ≫= cons UNDERSCORE)) ++ [0])))
      (((fun c => [lower c]) <$> letters) ++ (lowers <$> first :: names)).

(** The text a node is turned into, after its first space. *)
Definition isa_text (cpu : cpu_node) (s : list Z) : Prop :=
  match isa_extensions cpu with
  | Some prop => s = (fun c => if truth c then lower c else SPACE) <$> prop
  | None => exists r v x y letters rest,
      isa_prop cpu = Some (r :: v :: x :: y :: letters ++ rest ++ [0]) /\ lower r = 114 /\ lower v = 118 /\
      Forall is_letter letters /\ no_letters (rest ++ [0]) /\ (0 ∉ rest) /\
      s = (letters ≫= fun c => [lower c; SPACE]) ++
          ((fun c => if c =? UNDERSCORE then SPACE else lower c) <$> rest) ++ [SPACE]
  end.

Lemma fmap_lower_names (e : list Z) :
  Forall (fun c => c <> UNDERSCORE /\ name_char c) e ->
  (fun c => if c =? UNDERSCORE then SPACE else lower c) <$> e = lowers e.
Proof.
  intros He. apply list_fmap_ext. intros i c Hc. rewrite Forall_lookup in He.
  destruct (He _ _ Hc) as [Hu _]. by destruct (Z.eqb_spec c UNDERSCORE).
Qed.

Lemma fmap_lower_string (e : list Z) :
  Forall name_char e -> (fun c => if truth c then lower c else SPACE) <$> e = lowers e.
Proof.
  intros He. apply list_fmap_ext. intros i c Hc. rewrite Forall_lookup in He.
  destruct (He _ _ Hc) as [[Hu _] _]. unfold truth. by destruct (Z.eqb_spec c 0); [lia|].
Qed.

Lemma names_spaceless (e : list Z) : Forall (fun c => c <> UNDERSCORE /\ name_char c) e -> spaceless (lowers e).
Proof. intros He. apply chars_spaceless, lower_chars. eapply Forall_impl; [exact He|]. by intros c [_ Hc]. Qed.

(** The names after the letters, each behind its underscore; the last one is
    closed by the final space. *)
Lemma words_names (first : list Z) (names : list (list Z)) :
  Forall (Forall (fun c => c <> UNDERSCORE /\ name_char c)) (first :: names) ->
  words (((fun c => if c =? UNDERSCORE then SPACE else lower c) <$> (first ++ (names ≫= cons UNDERSCORE))) ++ [SPACE]) =
  (lowers <$> first :: names) ++ [[]].
Proof.
  unfold words. revert first. induction names as [|e names IH]; intros first Hall; inversion_clear Hall as [|? ? Hf Hn].
  - cbn [mbind list_bind]. rewrite app_nil_r, fmap_lower_names by done.
    rewrite words_from_app by (by apply names_spaceless). done.
  - rewrite bind_cons, fmap_app, fmap_lower_names, <- app_assoc by done. cbn [app].
    rewrite fmap_cons, Z.eqb_refl. cbn [app]. rewrite words_from_app, IH by (done || by apply names_spaceless). done.
Qed.

Lemma extensions_text (es : list (list Z)) :
  Forall (Forall name_char) es ->
  (fun c => if truth c then lower c else SPACE) <$> (es ≫= fun e => e ++ [0]) =
  (lowers <$> es) ≫= fun e => e ++ [SPACE].
Proof.
  intros Hes. induction Hes as [|e es He Hes IH]; [done|].
  rewrite fmap_cons, !bind_cons, !fmap_app, fmap_lower_string, IH by done. done.
Qed.

Lemma closed_word (t l : list Z) (ws : list (list Z)) :
  t <> [] -> words l = ws ++ [[]] -> t ∈ words l <-> t ∈ ws.
Proof. intros Ht ->. rewrite elem_of_app, list_elem_of_singleton. split; [intros [?|?]; done|auto]. Qed.

Lemma name_bytes (e : list Z) : Forall name_char e -> Forall (fun c => 0 < c < 256) (lowers e).
Proof. intros He%lower_chars. eapply Forall_impl; [exact He|]. by intros c [Hc _]. Qed.

Lemma space_byte : Forall (fun c => 0 < c < 256) [SPACE].
Proof. repeat constructor; lia. Qed.

Lemma isa_names_chars (first : list Z) (names : list (list Z)) :
  Forall (Forall (fun c => c <> UNDERSCORE /\ name_char c)) (first :: names) ->
  Forall name_char (first ++ (names ≫= cons UNDERSCORE)).
Proof.
  intros Hall. assert (forall e, Forall (fun c => c <> UNDERSCORE /\ name_char c) e -> Forall name_char e) as Himp.
  { intros e He. eapply Forall_impl; [exact He|]. by intros c [_ Hc]. }
  inversion_clear Hall as [|? ? Hf Hn]. apply Forall_app. split; [by apply Himp|]. apply Forall_bind.
  eapply Forall_impl; [exact Hn|]. intros e He. constructor; [unfold name_char; lia|by apply Himp].
Qed.

Lemma isa_names_end (first : list Z) (names : list (list Z)) :
  match first with [] => True | c :: _ => lower c ∈ [115; 120; 122] end ->
  no_letters ((first ++ (names ≫= cons UNDERSCORE)) ++ [0]).
Proof.
  unfold no_letters, is_letter. destruct first as [|c first]; intros Hc; [|eexists _, _; split; [done|]; by intros (_ & _ & [])].
  destruct names as [|e names]; eexists _, _; (split; [done|]); [by intros ([] & _)|by intros (_ & [] & _)].
Qed.

(** The text a node is turned into is of bytes, and has the names as words. *)
Lemma lists_text (cpu : cpu_node) (names : list (list Z)) :
  lists cpu names -> exists s, isa_text cpu s /\ Forall (fun c => 0 < c < 256) s /\
    forall t, t <> [] -> t ∈ words s <-> t ∈ names.
Proof.
  intros [es isa Hne Hes|r v x y letters first names' Hr Hv Hlet Hns Hfirst].
  - exists ((lowers <$> es) ≫= fun e => e ++ [SPACE]). split_and!.
    + by rewrite <- extensions_text.
    + apply Forall_bind, Forall_fmap. eapply Forall_impl; [exact Hes|]. intros e He.
      apply Forall_app. split; [by apply name_bytes|apply space_byte].
    + intros t Ht. apply closed_word; [done|]. rewrite <- (app_nil_r (_ ≫= _)), words_concat; [done|].
      apply Forall_fmap. eapply Forall_impl; [exact Hes|]. intros e He. by apply chars_spaceless, lower_chars.
  - pose proof (words_names _ _ Hns) as Hwords.
    exists ((letters ≫= fun c => [lower c; SPACE]) ++
            ((fun c => if c =? UNDERSCORE then SPACE else lower c) <$> (first ++ (names' ≫= cons UNDERSCORE))) ++ [SPACE]).
    split_and!.
    + exists r, v, x, y, letters, (first ++ (names' ≫= cons UNDERSCORE)). split_and!; try done.
      * eapply Forall_impl; [exact Hlet|]. by intros c [Hc _].
      * by apply isa_names_end.
      * intros Hin. pose proof (isa_names_chars _ _ Hns) as Hc. rewrite Forall_forall in Hc. apply Hc in Hin as [? _]. lia.
    + apply Forall_app. split; [|apply Forall_app; split; [|apply space_byte]].
      * apply Forall_bind. eapply Forall_impl; [exact Hlet|]. intros c [_ [Hc _]%lower_char]. repeat constructor; lia.
      * apply Forall_fmap. eapply Forall_impl; [exact (isa_names_chars _ _ Hns)|]. intros c [Hc _]%lower_char. cbn.
        by destruct (c =? UNDERSCORE).
    + intros t Ht. apply closed_word; [done|].
      replace (letters ≫= fun c => [lower c; SPACE]) with (((fun c => [lower c]) <$> letters) ≫= fun e => e ++ [SPACE]).
      2: { clear. induction letters as [|c letters IH]; [done|]. rewrite fmap_cons, !bind_cons, IH. done. }
      rewrite words_concat, Hwords, app_assoc; [done|].
      apply Forall_fmap. eapply Forall_impl; [exact Hlet|]. intros c [_ [_ Hc]%lower_char]. 
      intros Hin. apply list_elem_of_singleton in Hin. congruence.
Qed.

(** ** From the tree to the answer *)

Lemma isa_parse_spec (m : Z -> Z) (p r v x y : Z) (letters rest : list Z) :
  Forall is_letter letters -> no_letters (rest ++ [0]) -> 0 ∉ rest ->
  exists m', isa_parse m p (r :: v :: x :: y :: letters ++ rest ++ [0]) = Some m' /\
    forall a, m' a = overlay m p (SPACE :: (letters ≫= fun c => [lower c; SPACE]) ++
      ((fun c => if c =? UNDERSCORE then SPACE else lower c) <$> rest) ++ [SPACE]) a.
Proof.
  intros Hl Hno H0. unfold isa_parse. change (drop 4 (r :: v :: x :: y :: ?l)) with l.
  destruct (letters_loop_spec letters (rest ++ [0]) (store m p SPACE) (p + 1) Hl Hno) as (m1 & -> & Hm1). cbn.
  destruct (names_loop_spec rest m1 (p + 1 + 2 * Z.of_nat (length letters)) H0) as (m2 & -> & Hm2). cbn.
  eexists; split; [done|]. intros a.
  set (l1 := letters ≫= fun c => [lower c; SPACE]) in *.
  assert (length l1 = 2 * length letters)%nat as E1.
  { unfold l1. clear. induction letters as [|c letters IH]; [done|]. rewrite bind_cons. cbn. lia. }
  set (l2 := (fun c => if c =? UNDERSCORE then SPACE else lower c) <$> rest) in *.
  assert (length l2 = length rest) as E2 by apply length_fmap.
  rewrite <- (overlay_cons m p SPACE), <- overlay_app, <- overlay_app.
  replace (p + 1 + 2 * Z.of_nat (length letters) + Z.of_nat (length rest))
    with (p + 1 + Z.of_nat (length l1) + Z.of_nat (length l2)) by lia.
  match goal with |- store _ ?o _ _ = _ => rewrite <- (overlay_nil (store m2 o SPACE) (o + 1) a), overlay_cons end.
  apply overlay_ext. rewrite Hm2. replace (p + 1 + 2 * Z.of_nat (length letters)) with (p + 1 + Z.of_nat (length l1)) by lia.
  apply overlay_ext. apply Hm1.
Qed.

(** The bytes a node is given for its text. *)
Definition isa_room (cpu : cpu_node) : Z :=
  match isa_extensions cpu, isa_prop cpu with
  | Some prop, _ => Z.of_nat (length prop) + 2
  | None, Some prop => 2 * Z.of_nat (length prop) + 2
  | None, None => 0
  end.

Lemma isa_block (h h1 : heap) (size p : Z) (s : list Z) (m' : Z -> Z) :
  heap_wf h -> size_sane size -> heap_alloc h size = Ret (p, h1) -> Z.of_nat (length s) + 1 < size ->
  Forall (fun c => 0 < c < 256) s -> (forall a, m' a = overlay (hp_mem h1) p (SPACE :: s) a) ->
  p = hp_next h /\ cstring m' p (SPACE :: s) /\ (forall a, a < hp_next h \/ hp_limit h <= a -> m' a = hp_mem h a).
Proof.
  intros Hwf Hsize Ha Hlen Hs Hm. destruct (heap_alloc_block h size p h1 Hwf Hsize Ha) as (-> & _ & Hfit & Hnext & _ & _ & Hz & Hout).
  split_and!; [done|..].
  - apply (cstring_overlay (hp_mem h1)); [done|constructor; [lia|done]|]. apply Hz. cbn. lia.
  - intros a Hin. rewrite Hm, <- Hout by lia. unfold overlay. case_cmp; [|done].
    rewrite lookup_ge_None_2; [done|]. cbn. lia.
Qed.

(** The text and its NUL fit, and nothing else is written. *)
Lemma isa_init_text (h : heap) (cpu : cpu_node) (s : list Z) :
  heap_wf h -> isa_text cpu s -> isa_extensions cpu <> Some [] -> Forall (fun c => 0 < c < 256) s ->
  size_sane (isa_room cpu) ->
  isa_init h (Some cpu) <> None /\
  (forall lst h', isa_init h (Some cpu) = Some (Ret (lst, h')) ->
     lst = Some (hp_next h) /\ cstring (hp_mem h') (hp_next h) (SPACE :: s) /\
     (forall a, a < hp_next h \/ hp_limit h <= a -> hp_mem h' a = hp_mem h a)).
Proof.
  intros Hwf Htext Hne Hbytes Hroom. unfold isa_init, isa_text, isa_room in *.
  destruct (isa_extensions cpu) as [prop|].
  - destruct prop as [|c prop]; [done|].
    destruct (heap_alloc h _) as [[p h1]|] eqn:Ha; (split; [done|]); [|done]. intros lst h' [= <- <-].
    destruct (isa_block h h1 _ p s (extensions_loop (store (hp_mem h1) p SPACE) (p + 1) (c :: prop)) Hwf Hroom Ha)
      as (-> & Hs & Hout); [|done| |by split_and!].
    + subst s. rewrite length_fmap. lia.
    + intros a. rewrite extensions_loop_spec, overlay_cons. by subst s.
  - destruct Htext as (r & v & x & y & letters & rest & Hprop & Hr & Hv & Hlet & Hend & H0 & Hs).
    rewrite Hprop in *. set (prop := r :: v :: _) in *.
    assert (isa_rv prop = true) as ->.
    { unfold isa_rv, prop. rewrite Hr, Hv, !Z.eqb_refl, !andb_true_r. apply Z.leb_le. cbn [length]. rewrite !length_app. cbn. lia. }
    cbn [negb]. destruct (heap_alloc h _) as [[p h1]|] eqn:Ha; [|done].
    destruct (isa_parse_spec (hp_mem h1) p r v x y letters rest Hlet Hend H0) as (m' & Em & Hm). fold prop in Em. rewrite Em. cbn.
    split; [done|]. intros lst h' [= <- <-].
    destruct (isa_block h h1 _ p s m' Hwf Hroom Ha) as (-> & Hcs & Hout); [|done| |exact (conj eq_refl (conj Hcs Hout))].
    + subst s prop. cbn [length]. rewrite !length_app, length_fmap. cbn.
      assert (length (letters ≫= fun c => [lower c; SPACE]) = 2 * length letters)%nat as ->; [|lia].
      clear. induction letters as [|c letters IH]; [done|]. rewrite bind_cons. cbn. lia.
    + subst s. done.
Qed.

(** What the tree lists is what [isa_has] finds, for either property: the
    list is built inside the block it is given, whatever the length of the
    names, and a name is found if and only if it is one of the names, not a
    part of one. *)
Theorem isa_has_exact (h : heap) (cpu : cpu_node) (names : list (list Z)) :
  heap_wf h -> lists cpu names -> size_sane (isa_room cpu) ->
  isa_init h (Some cpu) <> None /\
  (forall lst h', isa_init h (Some cpu) = Some (Ret (lst, h')) ->
     isa_known lst = true /\
     (forall a, a < hp_next h \/ hp_limit h <= a -> hp_mem h' a = hp_mem h a) /\
     exists enough, forall fuel ext t,
       cstring (hp_mem h) ext t -> ext + Z.of_nat (length t) < hp_next h \/ hp_limit h <= ext ->
       t <> [] -> spaceless t -> (enough < fuel)%nat -> (length t < fuel)%nat ->
       isa_has fuel (hp_mem h') lst ext = Some (bool_decide (t ∈ names)) /\
       isa_allows fuel (hp_mem h') lst ext = Some (bool_decide (t ∈ names))).
Proof.
  intros Hwf Hl Hroom. destruct (lists_text cpu names Hl) as (s & Htext & Hbytes & Hwords).
  destruct (isa_init_text h cpu s Hwf Htext) as [Hdef Hinit]; [|done..|].
  { destruct Hl as [es isa Hne _|]; [|done]. cbn. destruct es as [|e es]; [done|]. destruct e; done. }
  split; [done|]. intros lst h' E. destruct (Hinit lst h' E) as (-> & Hlist & Hout). split_and!; [done..|].
  exists (S (length s)). intros fuel ext t Ht Hwhere Hne Hsp Hf Hf'. unfold isa_allows. cbn [isa_known].
  assert (isa_has fuel (hp_mem h') (Some (hp_next h)) ext = Some (bool_decide (t ∈ names))) as Hhas; [|by rewrite Hhas].
  rewrite (isa_has_spec fuel _ _ _ s t Hlist); [|apply (cstring_same (hp_mem h)); [|done]|done..].
  - f_equal. apply bool_decide_ext. by apply Hwords.
  - intros a Ha. apply Hout. lia.
Qed.
End Isa.

(** "rv64im_zbam_zba", asked for "zba". *)
Definition zba_node : cpu_node :=
  CpuNode None (Some (114 :: 118 :: 54 :: 52 :: [105; 109] ++ ([] ++ ([[122; 98; 97; 109]; [122; 98; 97]] ≫= cons UNDERSCORE)) ++ [0])).
Definition zba_heap : heap := Heap 0x80050000 0x801f0000 (overlay (fun _ => 0) 0x1000 [122; 98; 97]).

Lemma zba_lists : lists zba_node [[105]; [109]; []; [122; 98; 97; 109]; [122; 98; 97]].
Proof.
  apply (lists_isa 114 118 54 52 [105; 109] [] [[122; 98; 97; 109]; [122; 98; 97]]); [done..| | |done].
  - repeat constructor; try done; apply (bool_decide_unpack _); reflexivity.
  - repeat constructor; done.
Qed.

Lemma isa_has_exact_witness :
  match @isa_init RV64 zba_heap (Some zba_node) with
  | Some (Ret (lst, h')) => exists fuel, isa_has fuel (hp_mem h') lst 0x1000 = Some true
  | _ => False
  end.
Proof.
  destruct (@isa_has_exact RV64 zba_heap zba_node [[105]; [109]; []; [122; 98; 97; 109]; [122; 98; 97]])
    as [_ H]; [unfold heap_wf; split_and!; done|exact zba_lists|split; done|].
  assert (exists r, @isa_init RV64 zba_heap (Some zba_node) = Some (Ret r)) as [[lst h'] E] by (eexists; reflexivity).
  rewrite E. destruct (H lst h' E) as (_ & _ & enough & Hhas). exists (S (Nat.max enough 3)).
  destruct (Hhas (S (Nat.max enough 3)) 0x1000 [122; 98; 97]) as [Hr _]; [|left; done|done| |lia|cbn [length]; lia|].
  - cbn. split_and!; done.
  - apply (bool_decide_unpack _). reflexivity.
  - exact Hr.
Defined.
