(* ===== verification/Sse.v ===== *)
(** Supervisor software events, [arch/riscv/runtime/sse.c], and the sources
    of the RAS events among them, [arch/riscv/runtime/ras.c].

    - [sse_event], [sse_hart], [sse_domain]: the events, per domain and
      hart and (the global ones) per domain; an [sse_event *] is an
      [event_ptr];
    - [sse]: the whole state, with the calling hart's CSRs and the calls
      made to other components, in order;
    - [SseEnv]: who calls, and what the rest of the monitor answers.

    Every operation runs under [sse_lock], or touches a word of the calling
    hart's: one operation is one step. [SseProps.v] has the theorems. *)

From S2P Require Import Prelude Arch Csr Fields Bitstring Hart.

#[local] Open Scope Z_scope.

(** ** Events and attributes ([sse.h], [ras.h]) *)

Definition SSE_EVENT_LOCAL_HIGH_RAS : Z := 0x00000000.
Definition SSE_EVENT_LOCAL_DOUBLE_TRAP : Z := 0x00000001.
Definition SSE_EVENT_LOCAL_PMU_OVERFLOW : Z := 0x00010000.
Definition SSE_EVENT_LOCAL_LOW_RAS : Z := 0x00100000.
Definition SSE_EVENT_LOCAL_SOFTWARE : Z := 0xffff0000.
Definition SSE_EVENT_GLOBAL_HIGH_RAS : Z := 0x00008000.
Definition SSE_EVENT_GLOBAL_LOW_RAS : Z := 0x00108000.
Definition SSE_EVENT_GLOBAL_SOFTWARE : Z := 0xffff8000.
Definition SSE_EVENT_MPXY (n : Z) : Z := 0x0010c000 + n.

Definition SSE_ATTR_STATUS : Z := 0.
Definition SSE_ATTR_PRIORITY : Z := 1.
Definition SSE_ATTR_CONFIG : Z := 2.
Definition SSE_ATTR_PREFERRED_HART : Z := 3.
Definition SSE_ATTR_ENTRY_PC : Z := 4.
Definition SSE_ATTR_ENTRY_ARG : Z := 5.
Definition SSE_ATTR_INTERRUPTED_SEPC : Z := 6.
Definition SSE_ATTR_INTERRUPTED_FLAGS : Z := 7.
Definition SSE_ATTR_INTERRUPTED_A6 : Z := 8.
Definition SSE_ATTR_INTERRUPTED_A7 : Z := 9.
Definition SSE_ATTR_COUNT : Z := 10.

Definition SSE_STATE_UNUSED : Z := 0.
Definition SSE_STATE_REGISTERED : Z := 1.
Definition SSE_STATE_ENABLED : Z := 2.
Definition SSE_STATE_RUNNING : Z := 3.
Definition SSE_STATUS_PENDING : Z := 4.
Definition SSE_STATUS_INJECTABLE : Z := 8.
Definition SSE_CONFIG_ONESHOT : Z := 1.

Definition INT_FLAGS_SPP : Z := 2 ^ 0.
Definition INT_FLAGS_SPIE : Z := 2 ^ 1.
Definition INT_FLAGS_SPV : Z := 2 ^ 2.
Definition INT_FLAGS_SPVP : Z := 2 ^ 3.
Definition INT_FLAGS_SDT : Z := 2 ^ 5.
Definition INT_FLAGS_VALID : Z := 0x2f.

Record sse_event : Set := SseEvent {
  ev_id : Z;
  ev_pending : bool;
  ev_hart : Z; (* index of the hart that handles it, or is to *)
  ev_attr : list Z; (* [SSE_ATTR_STATUS] is the state alone *)
}.
#[export] Instance sse_event_eta : Settable sse_event :=
  fun e => SseEvent (ev_id e) (ev_pending e) (ev_hart e) (ev_attr e).

Definition event_zero : sse_event := SseEvent 0 false 0 (replicate 10 0).

Definition attr (e : sse_event) (i : Z) : Z := default 0 (ev_attr e !! Z.to_nat i).
Definition set_attr (e : sse_event) (i v : Z) : sse_event :=
  e <| ev_attr := <[Z.to_nat i := v]> (ev_attr e) |>.

Record sse_hart : Set := SseHart { sh_local : list sse_event; sh_unmasked : bool }.
#[export] Instance sse_hart_eta : Settable sse_hart := fun h => SseHart (sh_local h) (sh_unmasked h).
Definition sse_hart_zero : sse_hart := SseHart (replicate 5 event_zero) false.

Record sse_domain : Set := SseDomain { sd_global : list sse_event; sd_globals_ready : bool }.
#[export] Instance sse_domain_eta : Settable sse_domain :=
  fun d => SseDomain (sd_global d) (sd_globals_ready d).

(** Calls to the other components. *)
Inductive sse_call : Set :=
| IpiSendSse (hart : Z)
| SmodeAccessBegin (addr size : Z)
| SmodeAccessEnd.

Record sse : Set := Sse {
  ss_domains : list sse_domain; (* by domain key *)
  ss_harts : list sse_hart; (* by domain and hart: [domain_hart_slot] *)
  ss_kick : list Z; (* by hart index *)
  ss_csrs : csr_file; (* the calling hart's *)
  ss_route : overflow_route; (* of its PMU, in the domain it runs *)
  ss_calls : list sse_call; (* made so far, the last one first *)
}.
#[export] Instance sse_eta : Settable sse :=
  fun s => Sse (ss_domains s) (ss_harts s) (ss_kick s) (ss_csrs s) (ss_route s) (ss_calls s).

(** Where an event is. *)
Inductive event_ptr : Set :=
| EvLocal (key hart i : Z)
| EvGlobal (key i : Z).

#[export] Instance event_ptr_eq_dec : EqDecision event_ptr.
Proof. solve_decision. Defined.

(** The calling hart and what the rest of the monitor tells it. *)
Class SseEnv := {
  this_hart_index : Z;
  this_domain_key : Z;
  env_hart_valid : Z -> bool; (* hart_valid(), by id *)
  env_member : Z -> bool; (* domain_hart_member(this_domain(), index) *)
  env_interruptible : Z -> Z -> bool; (* hsm_interruptible_mask_of(), by key and index *)
  env_entry_ok : Z -> bool; (* smode_entry_ok() *)
  env_range_ok : Z -> Z -> bool; (* smode_range_ok() *)
  env_pmu_sse_supported : bool;
  env_ras_sources : Z;
}.

Section Sse.
Context {AR : Arch} {KC : Kconfig} {F : Features} {HT : HartTable} {E : SseEnv}.

Definition this_hartid : Z := hart_id_of ht_ids this_hart_index.

Definition local_ids : list Z :=
  [SSE_EVENT_LOCAL_HIGH_RAS; SSE_EVENT_LOCAL_DOUBLE_TRAP; SSE_EVENT_LOCAL_PMU_OVERFLOW;
   SSE_EVENT_LOCAL_LOW_RAS; SSE_EVENT_LOCAL_SOFTWARE].
Definition global_ids : list Z :=
  [SSE_EVENT_GLOBAL_HIGH_RAS; SSE_EVENT_GLOBAL_LOW_RAS; SSE_EVENT_GLOBAL_SOFTWARE].
Definition NR_LOCAL : Z := 5.
Definition NR_GLOBAL : Z := 3 + CONFIG_MPXY_SSE_EVENTS.

Definition global_id (i : Z) : Z :=
  if i <? 3 then default 0 (global_ids !! Z.to_nat i) else SSE_EVENT_MPXY (i - 3).
Definition local_id (i : Z) : Z := default 0 (local_ids !! Z.to_nat i).

(** ** Access to the state *)

Definition sse_hart_at (s : sse) (key hart : Z) : sse_hart :=
  default sse_hart_zero (ss_harts s !! Z.to_nat (domain_hart_slot ht_ids key hart)).
Definition sse_hart_update (s : sse) (key hart : Z) (f : sse_hart -> sse_hart) : sse :=
  s <| ss_harts := alter f (Z.to_nat (domain_hart_slot ht_ids key hart)) (ss_harts s) |>.
Definition sse_domain_update (s : sse) (key : Z) (f : sse_domain -> sse_domain) : sse :=
  s <| ss_domains := alter f (Z.to_nat key) (ss_domains s) |>.

Definition event_at (s : sse) (p : event_ptr) : sse_event :=
  match p with
  | EvLocal key hart i => default event_zero (sh_local (sse_hart_at s key hart) !! Z.to_nat i)
  | EvGlobal key i =>
      default event_zero (d ← ss_domains s !! Z.to_nat key; sd_global d !! Z.to_nat i)
  end.
Definition event_update (s : sse) (p : event_ptr) (f : sse_event -> sse_event) : sse :=
  match p with
  | EvLocal key hart i =>
      sse_hart_update s key hart (fun h => h <| sh_local := alter f (Z.to_nat i) (sh_local h) |>)
  | EvGlobal key i =>
      sse_domain_update s key (fun d => d <| sd_global := alter f (Z.to_nat i) (sd_global d) |>)
  end.

Definition kick_at (s : sse) (hart : Z) : Z := default 0 (ss_kick s !! Z.to_nat hart).
Definition kick_set (s : sse) (hart v : Z) : sse := s <| ss_kick := <[Z.to_nat hart := v]> (ss_kick s) |>.
Definition call (s : sse) (c : sse_call) : sse := s <| ss_calls := c :: ss_calls s |>.
Definition csrs (s : sse) (c : csr_file) : sse := s <| ss_csrs := c |>.
(** [pmu_sse_enable] and [pmu_sse_complete], of the calling hart. *)
Definition route_enable (s : sse) (enable : bool) : sse :=
  let '(c, o) := overflow_enable (ss_csrs s) (ss_route s) enable in
  (csrs s c) <| ss_route := o |>.
Definition route_complete (s : sse) : sse := csrs s (overflow_complete (ss_csrs s) (ss_route s)).

(** As the heap gives it out, for [nr_keys] domains. *)
Definition sse_init (nr_keys : Z) : sse := {|
  ss_domains := replicate (Z.to_nat nr_keys) (SseDomain (replicate (Z.to_nat NR_GLOBAL) event_zero) false);
  ss_harts := replicate (Z.to_nat (nr_keys * hart_table_size ht_ids)) sse_hart_zero;
  ss_kick := replicate (Z.to_nat (hart_table_size ht_ids)) 0;
  ss_csrs := ∅;
  ss_route := OverflowRoute false false;
  ss_calls := [];
|}.

(** ** RAS sources *)

(** By [enum ras_kind]: local high, global high, local low, global low. *)
Definition ras_event_ids : list Z :=
  [SSE_EVENT_LOCAL_HIGH_RAS; SSE_EVENT_GLOBAL_HIGH_RAS; SSE_EVENT_LOCAL_LOW_RAS; SSE_EVENT_GLOBAL_LOW_RAS].
Definition kind_of (event_id : Z) : Z := hart_index_from ras_event_ids event_id 0.

Definition IRQ_RAS_LOW : Z := 35.
Definition IRQ_RAS_HIGH : Z := 43.
Definition irq_of (event_id : Z) : Z :=
  if event_id =? SSE_EVENT_LOCAL_HIGH_RAS then IRQ_RAS_HIGH
  else if event_id =? SSE_EVENT_LOCAL_LOW_RAS then IRQ_RAS_LOW else 0.

Definition RAS_IE_CSR : Z := match arch_xlen with RV32 => CSR_MIEH | RV64 => CSR_MIE end.
Definition RAS_IE_BIT (irq : Z) : Z := match arch_xlen with RV32 => BIT (irq - 32) | RV64 => BIT irq end.

Definition ras_is_event (event_id : Z) : bool := 0 <=? kind_of event_id.
Definition ras_event_available (event_id : Z) : bool :=
  let kind := kind_of event_id in
  if kind <? 0 then false
  else if truth (Z.land env_ras_sources (BIT kind)) then true
  else truth (irq_of event_id) && hart_has HART_FEAT_RAS_IRQ.
Definition ras_event_arm (c : csr_file) (event_id : Z) (armed : bool) : csr_file :=
  let irq := irq_of event_id in
  if (irq =? 0) || negb (hart_has HART_FEAT_RAS_IRQ) then c
  else if armed then csr_set c RAS_IE_CSR (RAS_IE_BIT irq)
  else csr_clear c RAS_IE_CSR (RAS_IE_BIT irq).

(** ** Finding events *)

Definition is_global (id : Z) : bool := truth (Z.land id 0x8000).

Definition event_available (id : Z) : bool :=
  if id =? SSE_EVENT_LOCAL_PMU_OVERFLOW then env_pmu_sse_supported
  else if id =? SSE_EVENT_LOCAL_DOUBLE_TRAP then hart_has HART_FEAT_SSDBLTRP
  else if ras_is_event id then ras_event_available id
  else true.

Definition event_injectable (id : Z) : bool :=
  (id =? SSE_EVENT_LOCAL_SOFTWARE) || (id =? SSE_EVENT_GLOBAL_SOFTWARE).

Definition event_source_update (s : sse) (p : event_ptr) : sse :=
  let e := event_at s p in
  if ev_id e =? SSE_EVENT_LOCAL_PMU_OVERFLOW
  then route_enable s (SSE_STATE_ENABLED <=? attr e SSE_ATTR_STATUS)
  else if ras_is_event (ev_id e)
  then csrs s (ras_event_arm (ss_csrs s) (ev_id e)
                 ((attr e SSE_ATTR_STATUS =? SSE_STATE_ENABLED) && negb (ev_pending e)))
  else s.

(** The first [i < n] with [id i = event_id]. *)
Definition id_search (id : Z -> Z) (n event_id : Z) : option Z :=
  List.find (fun i => event_id =? id i) (seqZ 0 n).

(** The error code, or the event. *)
Definition event_find (event_id hart : Z) : Z + event_ptr :=
  match id_search local_id NR_LOCAL event_id with
  | Some i =>
      if negb (event_available (local_id i)) then inl SBI_ERR_NOT_SUPPORTED
      else inr (EvLocal this_domain_key hart i)
  | None =>
      match id_search global_id NR_GLOBAL event_id with
      | Some i =>
          if negb (event_available (global_id i)) then inl SBI_ERR_NOT_SUPPORTED
          else inr (EvGlobal this_domain_key i)
      | None =>
          inl (if (event_id <=? 0xffffffff) && truth (Z.land event_id 0x4000)
               then SBI_ERR_NOT_SUPPORTED else SBI_ERR_INVALID_PARAM)
      end
  end.

Definition event_new (id hart : Z) : sse_event :=
  set_attr (event_zero <| ev_id := id |> <| ev_hart := hart |>)
    SSE_ATTR_PREFERRED_HART (hart_id_of ht_ids hart).
Definition event_reset (s : sse) (p : event_ptr) (id hart : Z) : sse :=
  event_update s p (fun _ => event_new id hart).

Definition ras_sources_update (s : sse) (self : Z) : sse :=
  foldl (fun s i => if ras_is_event (local_id i)
                    then event_source_update s (EvLocal this_domain_key self i) else s)
    s (seqZ 0 NR_LOCAL).

Definition sse_hart_init (s : sse) : sse :=
  let self := this_hart_index in
  let key := this_domain_key in
  let s := sse_hart_update s key self (fun h => h <| sh_unmasked := false |>) in
  let s := foldl (fun s i => event_reset s (EvLocal key self i) (local_id i) self) s (seqZ 0 NR_LOCAL) in
  let ready := match ss_domains s !! Z.to_nat key with Some d => sd_globals_ready d | None => true end in
  let s := if ready then s
           else foldl (fun s i => event_reset s (EvGlobal key i) (global_id i) self) s (seqZ 0 NR_GLOBAL) in
  let s := sse_domain_update s key (fun d => d <| sd_globals_ready := true |>) in
  ras_sources_update s self.

Definition sse_hart_switch_in (s : sse) (fresh : bool) : sse :=
  let s := if fresh then sse_hart_init s else ras_sources_update s this_hart_index in
  kick_set s this_hart_index 1.

Definition sse_domain_reset (s : sse) (key : Z) : sse :=
  sse_domain_update s key (fun d => d <| sd_globals_ready := false |>).

(** ** Order *)

Definition outranks (a b : sse_event) : bool :=
  if negb (attr a SSE_ATTR_PRIORITY =? attr b SSE_ATTR_PRIORITY)
  then attr a SSE_ATTR_PRIORITY <? attr b SSE_ATTR_PRIORITY
  else ev_id a <? ev_id b.

(** The events a hart looks at: its own, then the domain's. *)
Definition own_events (self : Z) : list event_ptr :=
  (EvLocal this_domain_key self <$> seqZ 0 NR_LOCAL) ++ (EvGlobal this_domain_key <$> seqZ 0 NR_GLOBAL).

Definition eligible (e : sse_event) (self state : Z) : bool :=
  negb (negb (attr e SSE_ATTR_STATUS =? state) || negb (ev_hart e =? self) ||
        (state =? SSE_STATE_ENABLED) && negb (ev_pending e)).

Fixpoint top_loop (s : sse) (ps : list event_ptr) (self state : Z) (best : option event_ptr) : option event_ptr :=
  match ps with
  | [] => best
  | p :: ps =>
      if negb (eligible (event_at s p) self state) then top_loop s ps self state best
      else match best with
           | Some b => if outranks (event_at s p) (event_at s b)
                       then top_loop s ps self state (Some p) else top_loop s ps self state best
           | None => top_loop s ps self state (Some p)
           end
  end.
Definition top_event (s : sse) (self state : Z) : option event_ptr :=
  top_loop s (own_events self) self state None.

(** ** Into a handler and back *)

(** mstatus.MPV, which RV32 has in mstatush. *)
Definition mpv_take (c : csr_file) (mstatus : Z) : bool * csr_file * Z :=
  match arch_xlen with
  | RV64 => (bit mstatus MSTATUS_MPV_BIT, c, bit_off mstatus MSTATUS_MPV_BIT)
  | RV32 => (bit (csr_read c CSR_MSTATUSH) MSTATUSH_MPV_BIT,
             csr_clear c CSR_MSTATUSH (BIT MSTATUSH_MPV_BIT), mstatus)
  end.
Definition mpv_set (c : csr_file) (mstatus : Z) : csr_file * Z :=
  match arch_xlen with
  | RV64 => (c, bit_on mstatus MSTATUS_MPV_BIT)
  | RV32 => (csr_set c CSR_MSTATUSH (BIT MSTATUSH_MPV_BIT), mstatus)
  end.

(** The hypervisor's part of [inject]: the flags it adds, the CSRs, mstatus. *)
Definition inject_h (c : csr_file) (mstatus flags : Z) (from_s : bool) : csr_file * Z * Z :=
  if hart_has HART_FEAT_H then
    let hstatus := csr_read c CSR_HSTATUS in
    let flags := if bit hstatus HSTATUS_SPV_BIT then Z.lor flags INT_FLAGS_SPV else flags in
    let flags := if bit hstatus HSTATUS_SPVP_BIT then Z.lor flags INT_FLAGS_SPVP else flags in
    let hstatus := bit_off hstatus HSTATUS_SPV_BIT in
    let '(virt, c, mstatus) := mpv_take c mstatus in
    let hstatus :=
      if virt then
        let hstatus := bit_off (bit_on hstatus HSTATUS_SPV_BIT) HSTATUS_SPVP_BIT in
        if from_s then bit_on hstatus HSTATUS_SPVP_BIT else hstatus
      else hstatus in
    (csr_write c CSR_HSTATUS hstatus, mstatus, flags)
  else (c, mstatus, flags).

(** mstatus on the way into the handler, as if S-mode had trapped there. *)
Definition inject_mstatus (mstatus : Z) (from_s : bool) : Z :=
  let mstatus := Z.land mstatus (unot (Z.lor (Z.lor (BIT MSTATUS_SPP_BIT) (BIT MSTATUS_SPIE_BIT)) MSTATUS_MPP)) in
  let mstatus := if from_s then bit_on mstatus MSTATUS_SPP_BIT else mstatus in
  let mstatus := if bit mstatus MSTATUS_SIE_BIT then bit_on mstatus MSTATUS_SPIE_BIT else mstatus in
  let mstatus := bit_off mstatus MSTATUS_SIE_BIT in
  Z.lor mstatus (ushl PRV_S MSTATUS_MPP_SHIFT).

Definition inject_regs (c : csr_file) (e : sse_event) (regs : trap_regs) : csr_file * sse_event * trap_regs :=
  let mstatus := tr_mstatus regs in
  let from_s := get_field_ul mstatus MSTATUS_MPP =? PRV_S in
  let flags := if bit mstatus MSTATUS_SPP_BIT then INT_FLAGS_SPP else 0 in
  let flags := if bit mstatus MSTATUS_SPIE_BIT then Z.lor flags INT_FLAGS_SPIE else flags in
  let '(c, mstatus, flags) := inject_h c mstatus flags from_s in
  let '(mstatus, flags) :=
    if hart_smode_double_trap_enabled c
    then (bit_on mstatus MSTATUS_SDT_BIT,
          if bit mstatus MSTATUS_SDT_BIT then Z.lor flags INT_FLAGS_SDT else flags)
    else (mstatus, flags) in
  let e := set_attr e SSE_ATTR_INTERRUPTED_FLAGS flags in
  let e := set_attr e SSE_ATTR_INTERRUPTED_SEPC (csr_read c CSR_SEPC) in
  let e := set_attr e SSE_ATTR_INTERRUPTED_A6 (trap_reg regs A6) in
  let e := set_attr e SSE_ATTR_INTERRUPTED_A7 (trap_reg regs A7) in
  let c := csr_write c CSR_SEPC (tr_mepc regs) in
  let regs := regs <| tr_mstatus := inject_mstatus mstatus from_s |>
                   <| tr_mepc := attr e SSE_ATTR_ENTRY_PC |> in
  let regs := trap_reg_set (trap_reg_set regs A6 this_hartid) A7 (attr e SSE_ATTR_ENTRY_ARG) in
  (c, set_attr (e <| ev_pending := false |>) SSE_ATTR_STATUS SSE_STATE_RUNNING, regs).

Definition inject (s : sse) (p : event_ptr) (regs : trap_regs) : sse * trap_regs :=
  let '(c, e, regs) := inject_regs (ss_csrs s) (event_at s p) regs in
  (event_update (csrs s c) p (fun _ => e), regs).

Definition sse_process (s : sse) (regs : trap_regs) : sse * trap_regs :=
  let self := this_hart_index in
  if kick_at s self =? 0 then (s, regs)
  else
    let next := top_event s self SSE_STATE_ENABLED in
    let s := match next with None => kick_set s self 0 | Some _ => s end in
    let running := top_event s self SSE_STATE_RUNNING in
    match next with
    | Some n =>
        if sh_unmasked (sse_hart_at s this_domain_key self) &&
           match running with None => true | Some r => outranks (event_at s n) (event_at s r) end
        then inject s n regs else (s, regs)
    | None => (s, regs)
    end.

Definition sse_pending (s : sse) : bool := truth (kick_at s this_hart_index).

(** The hypervisor's part of [sse_complete]. *)
Definition complete_h (c : csr_file) (mstatus flags : Z) : csr_file * Z :=
  if hart_has HART_FEAT_H then
    let hstatus := csr_read c CSR_HSTATUS in
    let '(c, mstatus) := if bit hstatus HSTATUS_SPV_BIT then mpv_set c mstatus else (c, mstatus) in
    let hstatus := Z.land hstatus (unot (Z.lor (BIT HSTATUS_SPV_BIT) (BIT HSTATUS_SPVP_BIT))) in
    let hstatus := if truth (Z.land flags INT_FLAGS_SPV) then bit_on hstatus HSTATUS_SPV_BIT else hstatus in
    let hstatus := if truth (Z.land flags INT_FLAGS_SPVP) then bit_on hstatus HSTATUS_SPVP_BIT else hstatus in
    (csr_write c CSR_HSTATUS hstatus, mstatus)
  else (c, mstatus).

(** The S-mode fields on the way back. *)
Definition complete_mstatus (mstatus flags : Z) : Z :=
  let mstatus := Z.land mstatus (unot (Z.lor (BIT MSTATUS_SIE_BIT) (BIT MSTATUS_SPP_BIT))) in
  let mstatus := if bit mstatus MSTATUS_SPIE_BIT && negb (bit mstatus MSTATUS_SDT_BIT)
                 then bit_on mstatus MSTATUS_SIE_BIT else mstatus in
  let mstatus := bit_off mstatus MSTATUS_SPIE_BIT in
  let mstatus := if truth (Z.land flags INT_FLAGS_SPIE) then bit_on mstatus MSTATUS_SPIE_BIT else mstatus in
  if truth (Z.land flags INT_FLAGS_SPP) then bit_on mstatus MSTATUS_SPP_BIT else mstatus.

Definition complete_regs (c : csr_file) (e : sse_event) (regs : trap_regs) : csr_file * trap_regs :=
  let flags := attr e SSE_ATTR_INTERRUPTED_FLAGS in
  let regs := regs <| tr_mepc := csr_read c CSR_SEPC |> in
  let mstatus := Z.land (tr_mstatus regs) (unot MSTATUS_MPP) in
  let mstatus := if bit mstatus MSTATUS_SPP_BIT then Z.lor mstatus (ushl PRV_S MSTATUS_MPP_SHIFT) else mstatus in
  let '(c, mstatus) := complete_h c mstatus flags in
  let mstatus :=
    if hart_smode_double_trap_enabled c
    then let mstatus := bit_off mstatus MSTATUS_SDT_BIT in
         if truth (Z.land flags INT_FLAGS_SDT) then bit_on mstatus MSTATUS_SDT_BIT else mstatus
    else mstatus in
  let regs := regs <| tr_mstatus := complete_mstatus mstatus flags |> in
  let regs := trap_reg_set (trap_reg_set regs A6 (attr e SSE_ATTR_INTERRUPTED_A6)) A7
                (attr e SSE_ATTR_INTERRUPTED_A7) in
  (csr_write c CSR_SEPC (attr e SSE_ATTR_INTERRUPTED_SEPC), regs).

(** [false]: no event runs on the hart. *)
Definition sse_complete (s : sse) (regs : trap_regs) : bool * sse * trap_regs :=
  let self := this_hart_index in
  match top_event s self SSE_STATE_RUNNING with
  | None => (false, s, regs)
  | Some p =>
      let e := event_at s p in
      let '(c, regs) := complete_regs (ss_csrs s) e regs in
      let s := csrs s c in
      let s := event_update s p (fun e => set_attr e SSE_ATTR_STATUS
                 (if truth (Z.land (attr e SSE_ATTR_CONFIG) SSE_CONFIG_ONESHOT)
                  then SSE_STATE_REGISTERED else SSE_STATE_ENABLED)) in
      let s := event_source_update s p in
      let s := if ev_id e =? SSE_EVENT_LOCAL_PMU_OVERFLOW then route_complete s else s in
      (true, kick_set s self 1, regs)
  end.

(** ** Raising events *)

(** Where a global event of domain [key] goes. *)
Definition takes_events (s : sse) (key hart : Z) : bool :=
  sh_unmasked (sse_hart_at s key hart) && env_interruptible key hart.

Definition global_target (s : sse) (e : sse_event) (key : Z) : Z :=
  let pref := hart_index ht_ids (attr e SSE_ATTR_PREFERRED_HART) in
  let self := this_hart_index in
  if (0 <=? pref) && takes_events s key pref then pref
  else if takes_events s key self then self
  else match List.find (takes_events s key) (seqZ 0 (hart_table_size ht_ids)) with
       | Some h => h
       | None => if 0 <=? pref then pref
                 else if key =? this_domain_key then self else ev_hart e
       end.

Definition make_pending (s : sse) (p : event_ptr) (key : Z) : sse :=
  let s := event_update s p (fun e => e <| ev_pending := true |>) in
  let e := event_at s p in
  let s := if is_global (ev_id e) && negb (attr e SSE_ATTR_STATUS =? SSE_STATE_RUNNING)
           then event_update s p (fun e => e <| ev_hart := global_target s e key |>) else s in
  let hart := ev_hart (event_at s p) in
  let s := kick_set s hart 1 in
  if negb (hart =? this_hart_index) then call s (IpiSendSse hart) else s.

Definition sse_raise_global (s : sse) (event_id key : Z) : sse :=
  let ready := match ss_domains s !! Z.to_nat key with Some d => sd_globals_ready d | None => false end in
  if negb ready then s
  else foldl (fun s i => if (global_id i =? event_id) &&
                            negb (attr (event_at s (EvGlobal key i)) SSE_ATTR_STATUS =? SSE_STATE_UNUSED)
                         then make_pending s (EvGlobal key i) key else s)
         s (seqZ 0 NR_GLOBAL).

Definition sse_raise_local (s : sse) (event_id : Z) : bool * sse :=
  let self := this_hart_index in
  match event_find event_id self with
  | inl _ => (false, s)
  | inr p =>
      let e := event_at s p in
      let taken := sh_unmasked (sse_hart_at s this_domain_key self) &&
                   (SSE_STATE_ENABLED <=? attr e SSE_ATTR_STATUS) in
      (taken, if negb (attr e SSE_ATTR_STATUS =? SSE_STATE_UNUSED)
              then make_pending s p this_domain_key else s)
  end.

Definition sse_inject (s : sse) (event_id hartid : Z) : Z * sse :=
  if 0xffffffff <? event_id then (SBI_ERR_INVALID_PARAM, s)
  else if negb (is_global event_id) &&
          (negb (env_hart_valid hartid) || negb (env_member (hart_index ht_ids hartid)))
  then (SBI_ERR_INVALID_PARAM, s)
  else
    let hartid := if is_global event_id then this_hartid else hartid in
    match event_find event_id (hart_index ht_ids hartid) with
    | inl rc => (rc, s)
    | inr p =>
        if negb (event_injectable (ev_id (event_at s p))) then (SBI_ERR_INVALID_PARAM, s)
        else (SBI_SUCCESS, make_pending s p this_domain_key)
    end.

(** The sources' part of [ras.c]. *)
Definition ras_irq (s : sse) (irq : Z) : bool * sse :=
  let raise event_id :=
    let s := csrs s (csr_clear (ss_csrs s) RAS_IE_CSR (RAS_IE_BIT irq)) in
    (true, snd (sse_raise_local s event_id)) in
  if irq =? IRQ_RAS_HIGH then raise SSE_EVENT_LOCAL_HIGH_RAS
  else if irq =? IRQ_RAS_LOW then raise SSE_EVENT_LOCAL_LOW_RAS
  else (false, s).

(** [nr_keys] is [domain_keys()]. *)
Definition ras_report (s : sse) (nr_keys kind : Z) : sse :=
  if negb (truth (Z.land env_ras_sources (BIT kind))) then s
  else
    let id := default 0 (ras_event_ids !! Z.to_nat kind) in
    if (kind =? 0) || (kind =? 2) then snd (sse_raise_local s id)
    else foldl (fun s key => sse_raise_global s id key) s (seqZ 0 nr_keys).

(** ** S-mode's calls *)

Definition transition (s : sse) (event_id from to : Z) : Z * sse :=
  match event_find event_id this_hart_index with
  | inl rc => (rc, s)
  | inr p =>
      if negb (attr (event_at s p) SSE_ATTR_STATUS =? from) then (SBI_ERR_INVALID_STATE, s)
      else
        let s := event_update s p (fun e => set_attr e SSE_ATTR_STATUS to) in
        let s := event_source_update s p in
        let s := if (to =? SSE_STATE_ENABLED) && ev_pending (event_at s p)
                 then make_pending s p this_domain_key else s in
        let s := if to =? SSE_STATE_UNUSED
                 then event_reset s p (ev_id (event_at s p)) (ev_hart (event_at s p)) else s in
        (SBI_SUCCESS, s)
  end.

Definition sse_register (s : sse) (event_id entry_pc entry_arg : Z) : Z * sse :=
  match event_find event_id this_hart_index with
  | inl rc => (rc, s)
  | inr p =>
      if truth (Z.land entry_pc 1) || negb (env_entry_ok entry_pc) then (SBI_ERR_INVALID_PARAM, s)
      else if negb (attr (event_at s p) SSE_ATTR_STATUS =? SSE_STATE_UNUSED)
      then (SBI_ERR_INVALID_STATE, s)
      else (SBI_SUCCESS, event_update s p (fun e =>
              set_attr (set_attr (set_attr e SSE_ATTR_ENTRY_PC entry_pc) SSE_ATTR_ENTRY_ARG entry_arg)
                SSE_ATTR_STATUS SSE_STATE_REGISTERED))
  end.

Definition sse_unregister (s : sse) (event_id : Z) : Z * sse :=
  transition s event_id SSE_STATE_REGISTERED SSE_STATE_UNUSED.
Definition sse_enable (s : sse) (event_id : Z) : Z * sse :=
  transition s event_id SSE_STATE_REGISTERED SSE_STATE_ENABLED.
Definition sse_disable (s : sse) (event_id : Z) : Z * sse :=
  transition s event_id SSE_STATE_ENABLED SSE_STATE_REGISTERED.

Definition sse_hart_unmask (s : sse) : Z * sse :=
  let self := this_hart_index in
  if sh_unmasked (sse_hart_at s this_domain_key self) then (SBI_ERR_ALREADY_STARTED, s)
  else (SBI_SUCCESS,
        kick_set (sse_hart_update s this_domain_key self (fun h => h <| sh_unmasked := true |>)) self 1).

Definition sse_hart_mask (s : sse) : Z * sse :=
  let self := this_hart_index in
  if negb (sh_unmasked (sse_hart_at s this_domain_key self)) then (SBI_ERR_ALREADY_STOPPED, s)
  else (SBI_SUCCESS, sse_hart_update s this_domain_key self (fun h => h <| sh_unmasked := false |>)).

(** ** Attributes, in S-mode memory *)

Definition attrs_check (event_id base count addr : Z) : Z + event_ptr :=
  match event_find event_id this_hart_index with
  | inl rc => inl rc
  | inr p =>
      if count =? 0 then inl SBI_ERR_INVALID_PARAM
      else if (SSE_ATTR_COUNT <=? base) || (SSE_ATTR_COUNT - base <? count) then inl SBI_ERR_BAD_RANGE
      else if negb (IS_ALIGNED addr REGBYTES) || negb (env_range_ok addr (count *! REGBYTES))
      then inl SBI_ERR_INVALID_ADDRESS
      else inr p
  end.

(** What [sse_read_attrs] tells S-mode of attribute [i]. *)
Definition attr_shown (e : sse_event) (i : Z) : Z :=
  if i =? SSE_ATTR_STATUS
  then Z.lor (attr e i) (Z.lor (if ev_pending e then SSE_STATUS_PENDING else 0)
                               (if event_injectable (ev_id e) then SSE_STATUS_INJECTABLE else 0))
  else attr e i.

(** Words of S-mode memory, by address. *)
Definition word_at (mem : gmap Z Z) (a : Z) : Z := default 0 (mem !! a).

Definition sse_read_attrs (s : sse) (mem : gmap Z Z) (event_id base count addr : Z) : Z * sse * gmap Z Z :=
  match attrs_check event_id base count addr with
  | inl rc => (rc, s, mem)
  | inr p =>
      let s := call s (SmodeAccessBegin addr (count *! REGBYTES)) in
      let mem := for_upto (Z.to_nat count)
                   (fun i mem => <[addr + i * REGBYTES := attr_shown (event_at s p) (base + i)]> mem) mem in
      (SBI_SUCCESS, call s SmodeAccessEnd, mem)
  end.

Definition attr_write_check (e : sse_event) (id val : Z) : Z :=
  let state := attr e SSE_ATTR_STATUS in
  let idle := (state =? SSE_STATE_UNUSED) || (state =? SSE_STATE_REGISTERED) in
  let if_idle := if idle then SBI_SUCCESS else SBI_ERR_INVALID_STATE in
  let if_running := if (state =? SSE_STATE_RUNNING) && (ev_hart e =? this_hart_index)
                    then SBI_SUCCESS else SBI_ERR_INVALID_STATE in
  if id =? SSE_ATTR_PRIORITY then
    if 0xffffffff <? val then SBI_ERR_INVALID_PARAM else if_idle
  else if id =? SSE_ATTR_CONFIG then
    if truth (Z.land val (unot SSE_CONFIG_ONESHOT)) then SBI_ERR_INVALID_PARAM else if_idle
  else if id =? SSE_ATTR_PREFERRED_HART then
    if negb (is_global (ev_id e)) then SBI_ERR_DENIED
    else if negb (env_hart_valid val) then SBI_ERR_INVALID_PARAM
    else if_idle
  else if id =? SSE_ATTR_INTERRUPTED_FLAGS then
    if truth (Z.land val (unot INT_FLAGS_VALID)) then SBI_ERR_INVALID_PARAM else if_running
  else if (id =? SSE_ATTR_INTERRUPTED_SEPC) || (id =? SSE_ATTR_INTERRUPTED_A6) || (id =? SSE_ATTR_INTERRUPTED_A7)
  then if_running
  else SBI_ERR_DENIED.

(** The first loop: the code of the first value that is turned down. *)
Fixpoint attr_writes_check (e : sse_event) (id : Z) (vals : list Z) : Z :=
  match vals with
  | [] => SBI_SUCCESS
  | v :: vals =>
      let rc := attr_write_check e id v in
      if rc =? 0 then attr_writes_check e (id + 1) vals else rc
  end.
(** The second. *)
Fixpoint attr_writes (e : sse_event) (id : Z) (vals : list Z) : sse_event :=
  match vals with
  | [] => e
  | v :: vals => attr_writes (set_attr e id v) (id + 1) vals
  end.

Definition sse_write_attrs (s : sse) (mem : gmap Z Z) (event_id base count addr : Z) : Z * sse :=
  match attrs_check event_id base count addr with
  | inl rc => (rc, s)
  | inr p =>
      let s := call s (SmodeAccessBegin addr (count *! REGBYTES)) in
      let vals := (fun i => word_at mem (addr + i * REGBYTES)) <$> seqZ 0 count in
      let s := call s SmodeAccessEnd in
      let rc := attr_writes_check (event_at s p) base vals in
      if rc =? 0 then (rc, event_update s p (fun e => attr_writes e base vals)) else (rc, s)
  end.
End Sse.
