(* ===== verification/SseProps.v ===== *)
(** Theorems on supervisor software events ([Sse.v]).

    - no event is lost: [moves] relates the state before and after an
      operation, and every operation's is proved from those of its steps;
    - an event injected and completed leaves the interrupted context as it
      was, events within events included;
    - the calls of one domain leave the events of the others alone. *)

From S2P Require Import Prelude Arch Csr Fields Bitstring Hart Sse.

#[local] Open Scope Z_scope.

(** Event [e] is to be delivered. *)
Definition due (e : sse_event) : bool := (attr e SSE_ATTR_STATUS =? SSE_STATE_ENABLED) && ev_pending e.

Definition ptr_key (p : event_ptr) : Z := match p with EvLocal key _ _ => key | EvGlobal key _ => key end.

Section Frame.
Context {AR : Arch} {KC : Kconfig} {F : Features} {HT : HartTable}.
(** [domain_keys()] *)
Context (n : Z).

Abbreviation table := (hart_table_size ht_ids).
Abbreviation nr_global := (3 + CONFIG_MPXY_SSE_EVENTS).

(** ** Well-formed states *)

Definition ev_ok (e : sse_event) : Prop := length (ev_attr e) = 10%nat /\ 0 <= ev_hart e < table.

Record sse_ok (s : sse) : Prop := {
  ok_domains : Z.of_nat (length (ss_domains s)) = n;
  ok_global : Forall (fun d => Z.of_nat (length (sd_global d)) = nr_global /\ Forall ev_ok (sd_global d)) (ss_domains s);
  ok_harts : Z.of_nat (length (ss_harts s)) = n * table;
  ok_local : Forall (fun h => length (sh_local h) = 5%nat /\ Forall ev_ok (sh_local h)) (ss_harts s);
  ok_kick : Z.of_nat (length (ss_kick s)) = table;
}.

Definition ptr_ok (p : event_ptr) : Prop :=
  match p with
  | EvLocal key hart i => 0 <= key < n /\ 0 <= hart < table /\ 0 <= i < 5
  | EvGlobal key i => 0 <= key < n /\ 0 <= i < nr_global
  end.

Lemma slot_bound (key hart : Z) : 0 <= key < n -> 0 <= hart < table -> 0 <= domain_hart_slot ht_ids key hart < n * table.
Proof. unfold domain_hart_slot, hart_table_size. nia. Qed.

Lemma ev_ok_zero : 0 < table -> ev_ok event_zero.
Proof. intros. split; [done|]. cbn. lia. Qed.

Lemma sse_hart_lookup (s : sse) (key hart : Z) :
  sse_ok s -> 0 <= key < n -> 0 <= hart < table ->
  ss_harts s !! Z.to_nat (domain_hart_slot ht_ids key hart) = Some (sse_hart_at s key hart) /\
  length (sh_local (sse_hart_at s key hart)) = 5%nat /\ Forall ev_ok (sh_local (sse_hart_at s key hart)).
Proof.
  intros Hok Hk Hh. pose proof (slot_bound key hart Hk Hh). unfold sse_hart_at.
  destruct (lookup_lt_is_Some_2 (ss_harts s) (Z.to_nat (domain_hart_slot ht_ids key hart))) as [x Hx].
  { pose proof (ok_harts s Hok). lia. }
  rewrite Hx. cbn. split; [done|]. pose proof (ok_local s Hok) as Hl. eapply Forall_lookup_1 in Hl; done.
Qed.

Lemma sse_domain_lookup (s : sse) (key : Z) :
  sse_ok s -> 0 <= key < n -> exists d, ss_domains s !! Z.to_nat key = Some d /\
    Z.of_nat (length (sd_global d)) = nr_global /\ Forall ev_ok (sd_global d).
Proof.
  intros Hok Hk. destruct (lookup_lt_is_Some_2 (ss_domains s) (Z.to_nat key)) as [d Hd].
  { pose proof (ok_domains s Hok). lia. }
  exists d. split; [done|]. pose proof (ok_global s Hok) as Hg. eapply Forall_lookup_1 in Hg; done.
Qed.

Lemma event_at_ok (s : sse) (p : event_ptr) : sse_ok s -> ptr_ok p -> ev_ok (event_at s p).
Proof.
  intros Hok. destruct p as [key hart i|key i]; cbn; intros [Hk Hi].
  - destruct Hi as [Hh Hi]. destruct (sse_hart_lookup s key hart Hok Hk Hh) as (_ & Hlen & Hev).
    destruct (lookup_lt_is_Some_2 (sh_local (sse_hart_at s key hart)) (Z.to_nat i)) as [e He]; [lia|].
    rewrite He. cbn. eapply Forall_lookup_1 in Hev; done.
  - destruct (sse_domain_lookup s key Hok Hk) as (d & -> & Hlen & Hev). cbn.
    destruct (lookup_lt_is_Some_2 (sd_global d) (Z.to_nat i)) as [e He]; [lia|].
    rewrite He. cbn. eapply Forall_lookup_1 in Hev; done.
Qed.

(** ** Updates *)

Lemma Forall_alter {A} (P : A -> Prop) (f : A -> A) (l : list A) (i : nat) :
  Forall P l -> (forall x, P x -> P (f x)) -> Forall P (alter f i l).
Proof.
  intros Hl Hf. apply Forall_lookup. intros j x Hx. destruct (decide (i = j)) as [->|Hne].
  - rewrite list_lookup_alter_eq in Hx. apply fmap_Some in Hx as (y & Hy & ->). apply Hf. by eapply Forall_lookup_1.
  - rewrite list_lookup_alter_ne in Hx by done. by eapply Forall_lookup_1.
Qed.

Lemma sse_hart_update_ok (s : sse) (key hart : Z) (f : sse_hart -> sse_hart) :
  sse_ok s -> (forall h, length (sh_local h) = 5%nat /\ Forall ev_ok (sh_local h) ->
                         length (sh_local (f h)) = 5%nat /\ Forall ev_ok (sh_local (f h))) ->
  sse_ok (sse_hart_update s key hart f).
Proof.
  intros [? ? ? ? ?] Hf. split; unfold sse_hart_update, field_update; cbn; try done.
  - by rewrite length_alter.
  - by apply Forall_alter.
Qed.

Lemma sse_domain_update_ok (s : sse) (key : Z) (f : sse_domain -> sse_domain) :
  sse_ok s -> (forall d, Z.of_nat (length (sd_global d)) = nr_global /\ Forall ev_ok (sd_global d) ->
                         Z.of_nat (length (sd_global (f d))) = nr_global /\ Forall ev_ok (sd_global (f d))) ->
  sse_ok (sse_domain_update s key f).
Proof.
  intros [? ? ? ? ?] Hf. split; unfold sse_domain_update, field_update; cbn; try done.
  - by rewrite length_alter.
  - by apply Forall_alter.
Qed.

Lemma event_update_ok (s : sse) (p : event_ptr) (f : sse_event -> sse_event) :
  sse_ok s -> (forall e, ev_ok e -> ev_ok (f e)) -> sse_ok (event_update s p f).
Proof.
  intros Hok Hf. destruct p; cbn.
  - apply sse_hart_update_ok; [done|]. intros h [? ?]. unfold field_update; cbn.
    rewrite length_alter. split; [done|]. by apply Forall_alter.
  - apply sse_domain_update_ok; [done|]. intros d [? ?]. unfold field_update; cbn.
    rewrite length_alter. split; [done|]. by apply Forall_alter.
Qed.

Lemma sse_hart_at_update (s : sse) (key hart key' hart' : Z) (f : sse_hart -> sse_hart) :
  sse_ok s -> 0 <= key < n -> 0 <= hart < table -> 0 <= key' < n -> 0 <= hart' < table ->
  sse_hart_at (sse_hart_update s key hart f) key' hart' =
  if decide (key = key' /\ hart = hart') then f (sse_hart_at s key' hart') else sse_hart_at s key' hart'.
Proof.
  intros Hok Hk Hh Hk' Hh'. unfold sse_hart_at at 1, sse_hart_update, field_update. cbn.
  case_decide as Hd.
  - destruct Hd as [-> ->]. rewrite list_lookup_alter_eq.
    by destruct (sse_hart_lookup s key' hart' Hok Hk' Hh') as (-> & _).
  - rewrite list_lookup_alter_ne; [done|]. pose proof (slot_bound key hart Hk Hh). pose proof (slot_bound key' hart' Hk' Hh').
    intros E. apply Hd. apply domain_hart_slot_inj; [done..|]. lia.
Qed.

Lemma event_at_update (s : sse) (p q : event_ptr) (f : sse_event -> sse_event) :
  sse_ok s -> ptr_ok p -> ptr_ok q ->
  event_at (event_update s p f) q = if decide (p = q) then f (event_at s q) else event_at s q.
Proof.
  intros Hok Hp Hq. destruct p as [key hart i|key i], q as [key' hart' j|key' j]; cbn in Hp, Hq.
  - destruct Hp as (Hk & Hh & Hi), Hq as (Hk' & Hh' & Hj). unfold event_at, event_update.
    rewrite sse_hart_at_update by done. destruct (sse_hart_lookup s key' hart' Hok Hk' Hh') as (_ & Hlen & _).
    destruct (decide (key = key' /\ hart = hart')) as [[-> ->]|Hne].
    + unfold field_update; cbn. case_decide as Hd.
      * injection Hd as ->. rewrite list_lookup_alter_eq.
        destruct (lookup_lt_is_Some_2 (sh_local (sse_hart_at s key' hart')) (Z.to_nat j)) as [e ->]; [lia|done].
      * rewrite list_lookup_alter_ne; [done|]. intros ?. apply Hd. f_equal. lia.
    + case_decide as Hd; [|done]. injection Hd as -> ->. tauto.
  - rewrite decide_False by done. done.
  - rewrite decide_False by done. done.
  - destruct Hp as (Hk & Hi), Hq as (Hk' & Hj). unfold event_at, event_update, sse_domain_update, field_update. cbn.
    destruct (sse_domain_lookup s key' Hok Hk') as (d & Hd & Hlen & _).
    destruct (decide (key = key')) as [->|Hne].
    + rewrite list_lookup_alter_eq, Hd. cbn. case_decide as Hd'.
      * injection Hd' as ->. rewrite list_lookup_alter_eq.
        destruct (lookup_lt_is_Some_2 (sd_global d) (Z.to_nat j)) as [e ->]; [lia|done].
      * rewrite list_lookup_alter_ne; [done|]. intros ?. apply Hd'. f_equal. lia.
    + rewrite list_lookup_alter_ne by lia. rewrite decide_False; [done|]. congruence.
Qed.

Lemma kick_at_set (s : sse) (h v h' : Z) :
  sse_ok s -> 0 <= h < table -> 0 <= h' < table ->
  kick_at (kick_set s h v) h' = if decide (h = h') then v else kick_at s h'.
Proof.
  intros Hok Hh Hh'. unfold kick_at, kick_set, field_update. cbn. pose proof (ok_kick s Hok). case_decide as Hd.
  - subst h'. rewrite list_lookup_insert_eq by lia. done.
  - rewrite list_lookup_insert_ne by lia. done.
Qed.

(** ** Moves *)

(** From [s] to [s'] by steps of an operation of domain [key]: the state
    stays well-formed; no hart's kick is taken back; an event that is due
    was due on the same hart before, or that hart has been kicked (but for
    the event [x] the operation is at work on, which has yet to be); and
    the events and masks of the other domains are as they were. *)
Definition moves (x : option event_ptr) (key : Z) (s s' : sse) : Prop :=
  sse_ok s ->
  sse_ok s' /\
  (forall h, 0 <= h < table -> kick_at s h <> 0 -> kick_at s' h <> 0) /\
  (forall p, ptr_ok p -> x <> Some p -> due (event_at s' p) = true ->
     (due (event_at s p) = true /\ ev_hart (event_at s p) = ev_hart (event_at s' p)) \/
     kick_at s' (ev_hart (event_at s' p)) <> 0) /\
  (forall p, ptr_ok p -> ptr_key p <> key -> event_at s' p = event_at s p) /\
  (forall key' h, 0 <= key' < n -> 0 <= h < table -> key' <> key ->
     sh_unmasked (sse_hart_at s' key' h) = sh_unmasked (sse_hart_at s key' h)).

Lemma moves_refl (x : option event_ptr) (key : Z) (s : sse) : moves x key s s.
Proof. intros Hok. split_and!; auto. Qed.

Lemma moves_trans (x : option event_ptr) (key : Z) (s s1 s2 : sse) :
  moves x key s s1 -> moves x key s1 s2 -> moves x key s s2.
Proof.
  intros H1 H2 Hok. destruct (H1 Hok) as (Hok1 & Hk1 & Hd1 & Ho1 & Hm1).
  destruct (H2 Hok1) as (Hok2 & Hk2 & Hd2 & Ho2 & Hm2). split_and!; auto.
  - intros p Hp Hx Hdue. destruct (Hd2 p Hp Hx Hdue) as [[Hdue1 Eh]|Hk]; [|by right].
    destruct (Hd1 p Hp Hx Hdue1) as [[Hdue0 Eh0]|Hk].
    + left. split; [done|congruence].
    + right. rewrite <- Eh. apply Hk2; [|done]. apply (event_at_ok s1 p Hok1 Hp).
  - intros p Hp Hkey. rewrite Ho2 by done. by apply Ho1.
  - intros key' h ? ? ?. rewrite Hm2 by done. by apply Hm1.
Qed.

Lemma moves_weaken (x : option event_ptr) (key : Z) (s s' : sse) : moves None key s s' -> moves x key s s'.
Proof. intros H Hok. destruct (H Hok) as (? & ? & Hd & ? & ?). split_and!; auto. Qed.

(** The event at work, kicked at last. *)
Lemma moves_close (p : event_ptr) (key : Z) (s s' : sse) :
  moves (Some p) key s s' -> (sse_ok s -> kick_at s' (ev_hart (event_at s' p)) <> 0) -> moves None key s s'.
Proof.
  intros H Hk Hok. destruct (H Hok) as (? & ? & Hd & ? & ?). split_and!; auto.
  intros q Hq _. destruct (decide (q = p)) as [-> |Hne]; [by right; apply Hk|]. apply Hd; [done|congruence].
Qed.

Lemma moves_foldl {A} (key : Z) (f : sse -> A -> sse) (l : list A) (s : sse) :
  (forall s a, a ∈ l -> moves None key s (f s a)) -> moves None key s (foldl f s l).
Proof.
  revert s. induction l as [|a l IH]; intros s Hf; cbn; [apply moves_refl|].
  eapply moves_trans; [apply Hf; left|]. apply IH. intros. apply Hf. by right.
Qed.

(** Nothing the events or the kicks are part of. *)
Lemma moves_same (x : option event_ptr) (key : Z) (s s' : sse) :
  ss_domains s' = ss_domains s -> ss_harts s' = ss_harts s -> ss_kick s' = ss_kick s -> moves x key s s'.
Proof.
  intros Ed Eh Ek Hok. destruct s as [d h k c o l], s' as [d' h' k' c' o' l']. cbn in *. subst d' h' k'.
  split; [destruct Hok; by split|]. split_and!; auto.
Qed.

Lemma moves_call (x : option event_ptr) (key : Z) (s : sse) (c : sse_call) : moves x key s (call s c).
Proof. by apply moves_same. Qed.

Lemma moves_csrs (x : option event_ptr) (key : Z) (s : sse) (c : csr_file) : moves x key s (csrs s c).
Proof. by apply moves_same. Qed.

Lemma kick_set_ok (s : sse) (h v : Z) : sse_ok s -> sse_ok (kick_set s h v).
Proof. intros [? ? ? ? ?]. split; unfold kick_set, field_update; cbn; try done. by rewrite length_insert. Qed.

Lemma moves_kick (x : option event_ptr) (key : Z) (s : sse) (h : Z) :
  (sse_ok s -> 0 <= h < table) -> moves x key s (kick_set s h 1).
Proof.
  intros Hh Hok. split_and!; auto; [by apply kick_set_ok|].
  intros h' Hh' Hk. rewrite kick_at_set by auto. case_decide; done.
Qed.

(** An update that makes nothing due, or only the event at work. *)
Lemma moves_update (x : option event_ptr) (s : sse) (p : event_ptr) (f : sse_event -> sse_event) :
  ptr_ok p -> (sse_ok s -> forall e, ev_ok e -> ev_ok (f e)) ->
  x = Some p \/ (forall e, ev_ok e -> due (f e) = true -> due e = true /\ ev_hart (f e) = ev_hart e) ->
  moves x (ptr_key p) s (event_update s p f).
Proof.
  intros Hp Hf Hdue Hok. split_and!; auto.
  - apply event_update_ok; auto.
  - intros h Hh. by destruct p.
  - intros q Hq Hx. rewrite event_at_update by done. case_decide as E; [|tauto].
    destruct Hdue as [-> |Hdue]; [congruence|]. intros Hd.
    destruct (Hdue _ (event_at_ok s q Hok Hq) Hd). left. split; [done|congruence].
  - intros q Hq Hkey. rewrite event_at_update by done. rewrite decide_False by congruence. done.
  - intros key' h Hk' Hh Hne. destruct p as [k ph i|k i]; [|done]. cbn in *. destruct Hp as (? & ? & ?).
    rewrite sse_hart_at_update by done. rewrite decide_False; [done|]. intros [? _]. congruence.
Qed.

Lemma moves_unmasked (x : option event_ptr) (s : sse) (key hart : Z) (b : bool) :
  0 <= key < n -> 0 <= hart < table ->
  moves x key s (sse_hart_update s key hart (fun h => h <| sh_unmasked := b |>)).
Proof.
  intros Hk Hh Hok.
  assert (forall key' h, 0 <= key' < n -> 0 <= h < table ->
    sh_local (sse_hart_at (sse_hart_update s key hart (fun h => h <| sh_unmasked := b |>)) key' h) =
    sh_local (sse_hart_at s key' h)) as El.
  { intros. rewrite sse_hart_at_update by done. case_decide; done. }
  assert (forall p, ptr_ok p -> event_at (sse_hart_update s key hart (fun h => h <| sh_unmasked := b |>)) p = event_at s p) as Ee.
  { intros [k h i|k i]; cbn; [|done]. intros (? & ? & ?). by rewrite El. }
  split_and!; auto.
  - by apply sse_hart_update_ok.
  - intros p Hp _. rewrite Ee by done. tauto.
  - intros key' h ? ? ?. rewrite sse_hart_at_update by done. rewrite decide_False; [done|]. intros [? _]. congruence.
Qed.

Lemma moves_ready (x : option event_ptr) (s : sse) (key : Z) (b : bool) :
  moves x key s (sse_domain_update s key (fun d => d <| sd_globals_ready := b |>)).
Proof.
  intros Hok.
  assert (forall p, event_at (sse_domain_update s key (fun d => d <| sd_globals_ready := b |>)) p = event_at s p) as Ee.
  { intros [k h i|k i]; [done|]. cbn. unfold sse_domain_update, field_update. cbn. f_equal.
    destruct (decide (Z.to_nat key = Z.to_nat k)) as [->|].
    - rewrite list_lookup_alter_eq. destruct (ss_domains s !! Z.to_nat k); done.
    - by rewrite list_lookup_alter_ne. }
  split_and!; auto.
  - by apply sse_domain_update_ok.
  - intros p Hp _. rewrite Ee. tauto.
Qed.

(** ** Attributes *)

Lemma attr_set (e : sse_event) (i j v : Z) :
  length (ev_attr e) = 10%nat -> 0 <= i < 10 -> 0 <= j ->
  attr (set_attr e i v) j = if decide (i = j) then v else attr e j.
Proof.
  intros Hl Hi Hj. unfold attr, set_attr, field_update. cbn. case_decide as E.
  - subst j. rewrite list_lookup_insert_eq by lia. done.
  - rewrite list_lookup_insert_ne by lia. done.
Qed.

Lemma length_set_attr (e : sse_event) (i v : Z) : length (ev_attr (set_attr e i v)) = length (ev_attr e).
Proof. unfold set_attr, field_update. cbn. apply length_insert. Qed.

Lemma ev_ok_set_attr (e : sse_event) (i v : Z) : ev_ok e -> ev_ok (set_attr e i v).
Proof. intros [? ?]. split; [unfold set_attr, field_update; cbn; by rewrite length_insert|done]. Qed.

(** Writing another attribute than the state. *)
Lemma due_set_attr (e : sse_event) (i v : Z) :
  ev_ok e -> 0 < i < 10 -> due (set_attr e i v) = due e.
Proof. intros [Hl _] Hi. unfold due, SSE_ATTR_STATUS. rewrite attr_set by (done || lia). rewrite decide_False by lia. done. Qed.

Lemma due_set_status (e : sse_event) (v : Z) :
  ev_ok e -> due (set_attr e SSE_ATTR_STATUS v) = (v =? SSE_STATE_ENABLED) && ev_pending e.
Proof. intros [Hl _]. unfold due, SSE_ATTR_STATUS. rewrite attr_set by (done || lia). rewrite decide_True by done. done. Qed.
End Frame.

(** * The operations move *)

Section Ops.
Context {AR : Arch} {KC : Kconfig} {F : Features} {HT : HartTable} {E : SseEnv}.
Context (n : Z).
Abbreviation table := (hart_table_size ht_ids).
Abbreviation self := this_hart_index.
Abbreviation key := this_domain_key.

(** The caller is a hart of the table, in a domain that exists. *)
Record env_ok : Prop := {
  eo_self : 0 <= self < table;
  eo_key : 0 <= key < n;
  eo_config : KconfigOk;
}.
Context (HE : env_ok).

Lemma nr_global_nonneg : 3 <= NR_GLOBAL.
Proof. pose proof (@config_mpxy_events _ (eo_config HE)). unfold NR_GLOBAL. lia. Qed.

Lemma event_at_same (s s' : sse) (p : event_ptr) :
  ss_domains s' = ss_domains s -> ss_harts s' = ss_harts s -> event_at s' p = event_at s p.
Proof. destruct s, s'. cbn. intros -> ->. done. Qed.

Lemma source_update_moves (x : option event_ptr) (k : Z) (s : sse) (p : event_ptr) :
  moves n x k s (event_source_update s p).
Proof.
  unfold event_source_update, route_enable. repeat case_match;
    first [by apply moves_same|apply moves_refl].
Qed.

Lemma event_at_source (s : sse) (p q : event_ptr) : event_at (event_source_update s p) q = event_at s q.
Proof. unfold event_source_update, route_enable. repeat case_match; done. Qed.

Lemma kick_at_source (s : sse) (p : event_ptr) (h : Z) : kick_at (event_source_update s p) h = kick_at s h.
Proof. unfold event_source_update, route_enable. repeat case_match; done. Qed.

Lemma event_new_ok (id hart : Z) : 0 <= hart < table -> ev_ok (event_new id hart).
Proof. intros Hh. unfold event_new. apply ev_ok_set_attr. split; done. Qed.

Lemma event_reset_moves (s : sse) (p : event_ptr) (id hart : Z) :
  ptr_ok n p -> (sse_ok n s -> 0 <= hart < table) -> moves n None (ptr_key p) s (event_reset s p id hart).
Proof.
  intros Hp Hh. apply moves_update; [done|intros; apply event_new_ok; auto|]. right. intros e _. done.
Qed.

Lemma local_ptr_ok (k h i : Z) : 0 <= k < n -> 0 <= h < table -> i ∈ seqZ 0 NR_LOCAL -> ptr_ok n (EvLocal k h i).
Proof. intros ? ? Hi%elem_of_seqZ. cbn. unfold NR_LOCAL in Hi. lia. Qed.

Lemma global_ptr_ok (k i : Z) : 0 <= k < n -> i ∈ seqZ 0 NR_GLOBAL -> ptr_ok n (EvGlobal k i).
Proof. intros ? Hi%elem_of_seqZ. cbn. unfold NR_GLOBAL in Hi. lia. Qed.

Lemma ras_update_moves (s : sse) : moves n None key s (ras_sources_update s self).
Proof. apply moves_foldl. intros s' i _. case_match; [apply source_update_moves|apply moves_refl]. Qed.

Lemma hart_init_moves (s : sse) : moves n None key s (sse_hart_init s).
Proof using HE.
  destruct HE as [Hs Hk _]. unfold sse_hart_init.
  eapply moves_trans; [by apply (moves_unmasked n None s key self false)|].
  set (s1 := sse_hart_update _ _ _ _).
  eapply moves_trans; [apply (moves_foldl n key (fun s i => event_reset s (EvLocal key self i) (local_id i) self) (seqZ 0 NR_LOCAL) s1)|].
  { intros s' i Hi. apply (event_reset_moves s' (EvLocal key self i)); [by apply local_ptr_ok|done]. }
  set (s2 := foldl _ s1 _). set (ready := match ss_domains s2 !! _ with Some d => _ | None => _ end).
  eapply moves_trans; [|eapply moves_trans; [apply moves_ready|apply ras_update_moves]].
  destruct ready; [apply moves_refl|]. apply moves_foldl.
  intros s' i Hi. apply (event_reset_moves s' (EvGlobal key i)); [by apply global_ptr_ok|done].
Qed.

Lemma switch_in_moves (s : sse) (fresh : bool) : moves n None key s (sse_hart_switch_in s fresh).
Proof using HE.
  unfold sse_hart_switch_in. eapply moves_trans; [|apply moves_kick; intros _; apply HE].
  destruct fresh; [apply hart_init_moves|apply ras_update_moves].
Qed.

(** ** Making an event pending *)

Lemma find_seqZ (f : Z -> bool) (m h : Z) : List.find f (seqZ 0 m) = Some h -> 0 <= h < m /\ f h = true.
Proof. intros [Hin Hf]%List.find_some. apply list_elem_of_In, elem_of_seqZ in Hin. split; [lia|done]. Qed.

Lemma global_target_range (s : sse) (e : sse_event) (k : Z) : ev_ok e -> 0 <= global_target s e k < table.
Proof using HE.
  intros [_ He]. destruct HE as [Hs _ _]. unfold global_target.
  pose proof (hart_index_bound (attr e SSE_ATTR_PREFERRED_HART)) as Hb. set (pref := hart_index _ _) in *.
  destruct (Z.leb_spec 0 pref); cbn [andb]; [case_match; [lia|]|];
    (case_match; [lia|]); (case_match eqn:Ef; [apply find_seqZ in Ef; lia|]).
  - lia.
  - case_match; lia.
Qed.

(** The event itself, pending and perhaps on another hart. *)
Definition pended (s : sse) (p : event_ptr) (k : Z) : sse :=
  let s1 := event_update s p (fun e => e <| ev_pending := true |>) in
  if is_global (ev_id (event_at s1 p)) && negb (attr (event_at s1 p) SSE_ATTR_STATUS =? SSE_STATE_RUNNING)
  then event_update s1 p (fun e => e <| ev_hart := global_target s1 e k |>) else s1.

Lemma pended_moves (s : sse) (p : event_ptr) (k : Z) : ptr_ok n p -> moves n (Some p) (ptr_key p) s (pended s p k).
Proof using HE.
  intros Hp. unfold pended. set (s1 := event_update s p (fun e => e <| ev_pending := true |>)).
  apply (moves_trans n (Some p) (ptr_key p) s s1).
  { apply moves_update; [done| |by left]. intros _ e [? ?]. split; done. }
  case_match; [|apply moves_refl]. apply moves_update; [done| |by left].
  intros _ e He. split; [apply He|]. by apply global_target_range.
Qed.

(** And its hart is kicked. *)
Lemma make_pending_kicks (s : sse) (p : event_ptr) (k : Z) :
  sse_ok n s -> ptr_ok n p ->
  event_at (make_pending s p k) p = event_at (pended s p k) p /\
  kick_at (make_pending s p k) (ev_hart (event_at (pended s p k) p)) = 1.
Proof using HE.
  intros Hok Hp. assert (sse_ok n (pended s p k)) as Hok' by (by apply (pended_moves s p k Hp)).
  pose proof (event_at_ok n _ p Hok' Hp) as [_ Hh].
  unfold make_pending. fold (pended s p k). set (h := ev_hart (event_at (pended s p k) p)) in *.
  assert (kick_at (kick_set (pended s p k) h 1) h = 1) as Ek by (rewrite (kick_at_set n) by done; by rewrite decide_True).
  destruct (negb (h =? self)); split; done.
Qed.

Lemma make_pending_moves (s : sse) (p : event_ptr) : ptr_ok n p -> moves n None (ptr_key p) s (make_pending s p (ptr_key p)).
Proof using HE.
  intros Hp. apply (moves_close n p).
  - eapply moves_trans; [by apply (pended_moves s p (ptr_key p))|]. unfold make_pending. fold (pended s p (ptr_key p)).
    case_match; [eapply moves_trans; [|apply moves_call]|]; apply moves_kick;
      intros Hok'; apply (event_at_ok n _ p Hok' Hp).
  - intros Hok. destruct (make_pending_kicks s p (ptr_key p) Hok Hp) as [-> ->]. done.
Qed.

Lemma event_find_ptr (event_id hart : Z) (p : event_ptr) :
  event_find event_id hart = inr p -> 0 <= hart < table -> ptr_ok n p /\ ptr_key p = key.
Proof using HE.
  destruct HE as [_ Hk _]. unfold event_find, id_search.
  destruct (List.find _ (seqZ 0 NR_LOCAL)) as [i|] eqn:El.
  - apply find_seqZ in El as [Hi _]. case_match; [done|]. intros [= <-] Hh. split; [cbn; unfold NR_LOCAL in Hi; lia|done].
  - destruct (List.find _ (seqZ 0 NR_GLOBAL)) as [i|] eqn:Eg; [|done].
    apply find_seqZ in Eg as [Hi _]. case_match; [done|]. intros [= <-] Hh. split; [cbn; unfold NR_GLOBAL in Hi; lia|done].
Qed.

Lemma make_pending_key (s : sse) (p : event_ptr) (k : Z) :
  ptr_ok n p -> ptr_key p = k -> moves n None k s (make_pending s p k).
Proof using HE. intros Hp <-. by apply make_pending_moves. Qed.

Lemma raise_global_moves (s : sse) (event_id k : Z) : 0 <= k < n -> moves n None k s (sse_raise_global s event_id k).
Proof using HE.
  intros Hk. unfold sse_raise_global. destruct (negb _); [apply moves_refl|]. apply moves_foldl.
  intros s' i Hi. destruct (_ && _); [|apply moves_refl]. apply make_pending_key; [by apply global_ptr_ok|done].
Qed.

Lemma raise_local_moves (s : sse) (event_id : Z) : moves n None key s (snd (sse_raise_local s event_id)).
Proof using HE.
  unfold sse_raise_local. destruct (event_find event_id self) as [|p] eqn:Ef; [apply moves_refl|].
  apply event_find_ptr in Ef as [Hp Ek]; [|apply HE]. cbn [snd]. case_match; [|apply moves_refl].
  by apply make_pending_key.
Qed.

Lemma sse_inject_moves (s : sse) (event_id hartid : Z) :
  (env_hart_valid hartid = true -> 0 <= hart_index ht_ids hartid) ->
  moves n None key s (snd (sse_inject s event_id hartid)).
Proof using HE.
  intros Hv. unfold sse_inject. case_match; [apply moves_refl|].
  destruct (negb (is_global event_id) && _) eqn:Ec; [apply moves_refl|].
  set (hid := if is_global event_id then this_hartid else hartid).
  destruct (event_find event_id (hart_index ht_ids hid)) as [|p] eqn:Ef; [apply moves_refl|].
  assert (0 <= hart_index ht_ids hid < table) as Hr.
  { split; [|apply hart_index_bound]. subst hid. destruct (is_global event_id).
    - unfold this_hartid. rewrite hart_id_of_index; apply HE.
    - cbn in Ec. apply orb_false_elim in Ec as [Ev _]. apply Hv. by apply negb_false_iff. }
  apply event_find_ptr in Ef as [Hp Ek]; [|done]. case_match; [apply moves_refl|]. by apply make_pending_key.
Qed.

(** ** S-mode's calls *)

Lemma transition_moves (s : sse) (event_id from to : Z) : moves n None key s (snd (transition s event_id from to)).
Proof using HE.
  unfold transition. destruct (event_find event_id self) as [|p] eqn:Ef; [apply moves_refl|].
  apply event_find_ptr in Ef as [Hp Ek]; [|apply HE]. case_match; [apply moves_refl|]. cbn [snd].
  set (s1 := event_update s p (fun e => set_attr e SSE_ATTR_STATUS to)). set (s2 := event_source_update s1 p).
  assert (moves n (Some p) key s s2) as M2.
  { eapply moves_trans; [|apply source_update_moves]. rewrite <- Ek.
    apply moves_update; [done|intros _ e; apply ev_ok_set_attr|by left]. }
  assert (sse_ok n s -> event_at s2 p = set_attr (event_at s p) SSE_ATTR_STATUS to) as Ev.
  { intros Hok. unfold s2. rewrite event_at_source. unfold s1. rewrite (event_at_update n) by done.
    by rewrite decide_True. }
  set (s3 := if (to =? SSE_STATE_ENABLED) && ev_pending (event_at s2 p) then make_pending s2 p key else s2).
  assert (moves n None key s s3) as M3.
  { unfold s3. destruct ((to =? SSE_STATE_ENABLED) && ev_pending (event_at s2 p)) eqn:Ed.
    - apply (moves_close n p).
      + eapply moves_trans; [exact M2|]. apply moves_weaken. by apply make_pending_key.
      + intros Hok. destruct (M2 Hok) as (Hok2 & _).
        destruct (make_pending_kicks s2 p key Hok2 Hp) as [-> ->]. done.
    - intros Hok. destruct (M2 Hok) as (Hok2 & Hk2 & Hd2 & Ho2 & Hm2). split_and!; auto.
      intros q Hq _ Hdue. destruct (decide (q = p)) as [-> |Hne]; [|apply Hd2; [done|congruence|done]].
      exfalso. rewrite Ev in Hdue, Ed by done. rewrite due_set_status in Hdue by (by apply (event_at_ok n)).
      cbn in Ed. congruence. }
  case_match; [|exact M3]. eapply moves_trans; [exact M3|]. rewrite <- Ek. apply event_reset_moves; [done|].
  intros Hok3. apply (event_at_ok n s3 p Hok3 Hp).
Qed.

Lemma register_moves (s : sse) (event_id pc arg : Z) : moves n None key s (snd (sse_register s event_id pc arg)).
Proof using HE.
  unfold sse_register. destruct (event_find event_id self) as [|p] eqn:Ef; [apply moves_refl|].
  apply event_find_ptr in Ef as [Hp Ek]; [|apply HE]. repeat (case_match; [apply moves_refl|]). cbn [snd].
  rewrite <- Ek. apply moves_update; [done|intros _ e He; by repeat apply ev_ok_set_attr|].
  right. intros e He. rewrite due_set_status by (by repeat apply ev_ok_set_attr). done.
Qed.

Lemma unmask_moves (s : sse) : moves n None key s (snd (sse_hart_unmask s)).
Proof using HE.
  destruct HE as [Hs Hk _]. unfold sse_hart_unmask. case_match; [apply moves_refl|]. cbn [snd].
  eapply moves_trans; [by apply moves_unmasked|by apply moves_kick].
Qed.

Lemma mask_moves (s : sse) : moves n None key s (snd (sse_hart_mask s)).
Proof using HE.
  destruct HE as [Hs Hk _]. unfold sse_hart_mask. case_match; [apply moves_refl|]. by apply moves_unmasked.
Qed.

(** ** Attributes *)

Lemma attr_write_status (e : sse_event) (val : Z) : attr_write_check e SSE_ATTR_STATUS val = SBI_ERR_DENIED.
Proof. done. Qed.

Lemma attr_writes_keep (vals : list Z) : forall (e : sse_event) (id : Z),
  ev_ok e -> 0 < id -> id + Z.of_nat (length vals) <= 10 ->
  ev_ok (attr_writes e id vals) /\ due (attr_writes e id vals) = due e /\
  ev_hart (attr_writes e id vals) = ev_hart e /\ ev_id (attr_writes e id vals) = ev_id e /\
  ev_pending (attr_writes e id vals) = ev_pending e /\
  forall j, 0 <= j < 10 -> attr (attr_writes e id vals) j =
    if decide (id <= j < id + Z.of_nat (length vals)) then default 0 (vals !! Z.to_nat (j - id)) else attr e j.
Proof.
  induction vals as [|v vals IH]; intros e id He Hid Hl; cbn in *.
  { split_and!; try done. intros j Hj. rewrite decide_False by lia. done. }
  destruct (IH (set_attr e id v) (id + 1)) as (H1 & H2 & H3 & H4 & H5 & H6); [by apply ev_ok_set_attr|lia..|].
  split_and!; [done| |done..|].
  - rewrite H2. apply due_set_attr; [done|lia].
  - intros j Hj. rewrite H6 by done. destruct (decide (id = j)) as [->|Hne].
    + rewrite decide_False, decide_True by lia. rewrite attr_set by (lia || apply He). rewrite decide_True by done.
      replace (Z.to_nat (j - j)) with 0%nat by lia. done.
    + destruct (decide (id + 1 <= j < id + 1 + Z.of_nat (length vals))).
      * rewrite decide_True by lia. by replace (Z.to_nat (j - id)) with (S (Z.to_nat (j - (id + 1)))) by lia.
      * rewrite decide_False by lia. rewrite attr_set by (lia || apply He). by rewrite decide_False.
Qed.

Lemma attr_writes_check_pos (e : sse_event) (id : Z) (vals : list Z) :
  0 <= id -> vals <> [] -> attr_writes_check e id vals = 0 -> 0 < id.
Proof.
  intros Hid Hv. destruct vals as [|v vals]; [done|]. cbn. destruct (Z.eqb_spec (attr_write_check e id v) 0) as [E0|]; [|done].
  intros _. destruct (Z.eq_dec id 0) as [->|]; [done|lia].
Qed.

Lemma attrs_check_ptr (event_id base count addr : Z) (p : event_ptr) :
  attrs_check event_id base count addr = inr p -> 0 <= base -> 0 <= count ->
  ptr_ok n p /\ ptr_key p = key /\ 0 < count /\ base + count <= 10 /\
  env_range_ok addr (count *! REGBYTES) = true.
Proof using HE.
  unfold attrs_check. destruct (event_find event_id self) as [|q] eqn:Ef; [done|].
  destruct (Z.eqb_spec count 0); [done|]. unfold SSE_ATTR_COUNT.
  destruct (Z.leb_spec 10 base); [done|]. cbn [orb]. destruct (Z.ltb_spec (10 - base) count); [done|].
  destruct (negb (IS_ALIGNED addr REGBYTES) || _) eqn:Ea; [done|]. intros [= ->] ? ?.
  apply event_find_ptr in Ef as [? ?]; [|apply HE]. apply orb_false_elim in Ea as [_ Er%negb_false_iff].
  split_and!; done || lia.
Qed.

Lemma write_attrs_moves (s : sse) (mem : gmap Z Z) (event_id base count addr : Z) :
  0 <= base -> 0 <= count -> moves n None key s (snd (sse_write_attrs s mem event_id base count addr)).
Proof using HE.
  intros Hb Hc. unfold sse_write_attrs. destruct (attrs_check event_id base count addr) as [|p] eqn:Ef; [apply moves_refl|].
  apply attrs_check_ptr in Ef as (Hp & Ek & Hc0 & Hbc & _); [|done..].
  set (vals := (fun i => _) <$> seqZ 0 count).
  assert (Z.of_nat (length vals) = count) as Hlen by (subst vals; rewrite length_fmap, length_seqZ; lia).
  cbv zeta. set (s1 := call (call s _) _).
  apply (moves_trans n None key s s1); [eapply moves_trans; apply moves_call|].
  destruct (Z.eqb_spec (attr_writes_check (event_at s1 p) base vals) 0) as [E0|]; [|apply moves_refl].
  assert (0 < base) as Hpos by (eapply attr_writes_check_pos; [done| |exact E0]; intros ->; cbn in Hlen; lia).
  cbn [snd]. rewrite <- Ek. apply moves_update; [done| |right]; intros.
  - by apply attr_writes_keep; [|lia..].
  - destruct (attr_writes_keep vals e base) as (_ & Ed & Eh & _); [done|lia..|]. by rewrite Ed in *.
Qed.

Lemma read_attrs_moves (s : sse) (mem : gmap Z Z) (event_id base count addr : Z) :
  moves n None key s (snd (fst (sse_read_attrs s mem event_id base count addr))).
Proof.
  unfold sse_read_attrs. destruct (attrs_check event_id base count addr); [apply moves_refl|].
  eapply moves_trans; apply moves_call.
Qed.

(** ** The order of events *)

Lemma outranks_spec (a b : sse_event) :
  outranks a b = true <->
  attr a SSE_ATTR_PRIORITY < attr b SSE_ATTR_PRIORITY \/
  (attr a SSE_ATTR_PRIORITY = attr b SSE_ATTR_PRIORITY /\ ev_id a < ev_id b).
Proof.
  unfold outranks. destruct (Z.eqb_spec (attr a SSE_ATTR_PRIORITY) (attr b SSE_ATTR_PRIORITY)); cbn [negb];
    rewrite Z.ltb_lt; lia.
Qed.

Lemma outranks_trans (a b c : sse_event) : outranks a b = true -> outranks b c = true -> outranks a c = true.
Proof. rewrite !outranks_spec. lia. Qed.

Lemma outranks_not_trans (a b c : sse_event) : outranks a b = false -> outranks c b = true -> outranks a c = false.
Proof. rewrite <- !not_true_iff_false, !outranks_spec. lia. Qed.

Lemma outranks_irrefl (a : sse_event) : outranks a a = false.
Proof. apply not_true_iff_false. rewrite outranks_spec. lia. Qed.

Lemma top_loop_spec (s : sse) (state hart : Z) (ps : list event_ptr) (best : option event_ptr) :
  match top_loop s ps hart state best with
  | None => best = None /\ forall p, p ∈ ps -> eligible (event_at s p) hart state = false
  | Some t =>
      (best = Some t \/ (t ∈ ps /\ eligible (event_at s t) hart state = true)) /\
      forall p, best = Some p \/ (p ∈ ps /\ eligible (event_at s p) hart state = true) ->
        outranks (event_at s p) (event_at s t) = false
  end.
Proof.
  revert best. induction ps as [|q ps IH]; intros best; cbn [top_loop].
  { destruct best as [b|].
    - split; [by left|]. intros p [[= ->]|[[]%elem_of_nil _]]. apply outranks_irrefl.
    - split; [done|]. by intros p ?%elem_of_nil. }
  destruct (eligible (event_at s q) hart state) eqn:Eq; cbn [negb].
  2:{ specialize (IH best). destruct (top_loop s ps hart state best) as [t|].
      - destruct IH as [IH1 IH2]. split.
        + destruct IH1 as [?|[? ?]]; [by left|right]. split; [by right|done].
        + intros p [?|[[-> |?]%elem_of_cons ?]]; [apply IH2; by left|congruence|apply IH2; by right].
      - destruct IH as [-> IH2]. split; [done|]. intros p [-> |?]%elem_of_cons; auto. }
  assert (forall b', (b' = Some q \/ b' = best) ->
    (b' = Some q -> forall b, best = Some b -> outranks (event_at s b) (event_at s q) = false) ->
    (b' = best -> best <> None /\ forall b, best = Some b -> outranks (event_at s q) (event_at s b) = false) ->
    match top_loop s ps hart state b' with
    | None => best = None /\ forall p, p ∈ q :: ps -> eligible (event_at s p) hart state = false
    | Some t =>
        (best = Some t \/ (t ∈ q :: ps /\ eligible (event_at s t) hart state = true)) /\
        forall p, best = Some p \/ (p ∈ q :: ps /\ eligible (event_at s p) hart state = true) ->
          outranks (event_at s p) (event_at s t) = false
    end) as Hgo.
  { intros b' Hb' Hnew Hold. specialize (IH b'). destruct (top_loop s ps hart state b') as [t|].
    - destruct IH as [IH1 IH2].
      assert (forall p, best = Some p \/ p = q -> exists b, b' = Some b /\ outranks (event_at s p) (event_at s b) = false) as Hle.
      { intros p Hp. destruct Hb' as [E1|E1].
        - exists q. split; [done|]. destruct Hp as [Hp| ->]; [by apply Hnew|apply outranks_irrefl].
        - destruct (Hold E1) as [Hnn Hq]. destruct best as [b|]; [|done]. exists b. split; [done|].
          destruct Hp as [[= ->]| ->]; [apply outranks_irrefl|by apply Hq]. }
      split.
      + destruct IH1 as [E1|[? ?]]; [|right; split; [by right|done]].
        destruct Hb' as [E2|E2]; [|left; congruence]. right. rewrite E2 in E1. injection E1 as <-.
        split; [by left|done].
      + intros p Hp. assert ((best = Some p \/ p = q) \/ (p ∈ ps /\ eligible (event_at s p) hart state = true)) as [Hp'|Hp'].
        { destruct Hp as [?|[[-> |?]%elem_of_cons ?]]; auto. }
        * destruct (Hle p Hp') as (b & Eb & Ho). destruct (outranks (event_at s p) (event_at s t)) eqn:Ept; [|done].
          exfalso. pose proof (IH2 b (or_introl Eb)) as Hbt.
          pose proof (outranks_not_trans _ _ _ Hbt Ept) as Hbp.
          revert Ept Ho Hbt Hbp. rewrite <- !not_true_iff_false, !outranks_spec. lia.
        * apply IH2. by right.
    - destruct IH as [Eb _]. destruct Hb' as [?|E1]; [congruence|]. destruct (Hold E1) as [? _]. congruence. }
  destruct best as [b|].
  - destruct (outranks (event_at s q) (event_at s b)) eqn:Eo.
    + apply Hgo; [by left|..].
      * intros _ b0 [= <-]. apply not_true_iff_false. intros Ho. apply outranks_spec in Eo, Ho. lia.
      * intros [= ->]. rewrite outranks_irrefl in Eo. done.
    + apply Hgo; [by right|..].
      * intros [= ->]. intros b0 [= <-]. apply outranks_irrefl.
      * intros _. split; [done|]. by intros b0 [= <-].
  - apply Hgo; [by left|done|done].
Qed.

(** the top event. [top_event] finds an event of the calling hart in the
    state asked for (and pending, if that is ENABLED) whenever there is
    one, and none of the others it could have found outranks it: by
    priority first, then by the lower id. *)
Theorem top_event_spec (s : sse) (hart state : Z) :
  match top_event s hart state with
  | None => forall p, p ∈ own_events hart -> eligible (event_at s p) hart state = false
  | Some t =>
      t ∈ own_events hart /\ eligible (event_at s t) hart state = true /\
      forall p, p ∈ own_events hart -> eligible (event_at s p) hart state = true ->
        ~ (attr (event_at s p) SSE_ATTR_PRIORITY < attr (event_at s t) SSE_ATTR_PRIORITY \/
           (attr (event_at s p) SSE_ATTR_PRIORITY = attr (event_at s t) SSE_ATTR_PRIORITY /\
            ev_id (event_at s p) < ev_id (event_at s t)))
  end.
Proof.
  pose proof (top_loop_spec s state hart (own_events hart) None) as H. unfold top_event.
  destruct (top_loop _ _ _ _ _) as [t|]; [|apply H]. destruct H as [[?|[? ?]] Hmin]; [done|].
  split_and!; [done..|]. intros p Hp He. rewrite <- outranks_spec. apply not_true_iff_false, Hmin. by right.
Qed.

Lemma top_event_in (s : sse) (hart state : Z) (t : event_ptr) :
  top_event s hart state = Some t ->
  t ∈ own_events hart /\ eligible (event_at s t) hart state = true /\
  forall p, p ∈ own_events hart -> eligible (event_at s p) hart state = true ->
    outranks (event_at s p) (event_at s t) = false.
Proof.
  intros Et. pose proof (top_loop_spec s state hart (own_events hart) None) as H. unfold top_event in Et.
  rewrite Et in H. destruct H as [[?|[? ?]] Hmin]; [done|]. split_and!; [done..|]. intros. apply Hmin. by right.
Qed.

Lemma top_event_none (s : sse) (hart state : Z) :
  top_event s hart state = None -> forall p, p ∈ own_events hart -> eligible (event_at s p) hart state = false.
Proof.
  intros Et. pose proof (top_loop_spec s state hart (own_events hart) None) as H. unfold top_event in Et.
  rewrite Et in H. apply H.
Qed.

Lemma own_events_ok (hart : Z) (p : event_ptr) :
  0 <= hart < table -> p ∈ own_events hart -> ptr_ok n p /\ ptr_key p = key.
Proof using HE.
  intros Hh [Hp|Hp]%elem_of_app; apply list_elem_of_fmap in Hp as (i & -> & Hi); split; try done.
  - apply local_ptr_ok; [apply HE|done|done].
  - apply global_ptr_ok; [apply HE|done].
Qed.

Lemma eligible_spec (e : sse_event) (hart state : Z) :
  eligible e hart state = true <->
  attr e SSE_ATTR_STATUS = state /\ ev_hart e = hart /\ (state = SSE_STATE_ENABLED -> ev_pending e = true).
Proof.
  unfold eligible. destruct (Z.eqb_spec (attr e SSE_ATTR_STATUS) state), (Z.eqb_spec (ev_hart e) hart),
    (Z.eqb_spec state SSE_STATE_ENABLED), (ev_pending e); cbn; split; try done; intros; try tauto; naive_solver.
Qed.

(** ** Delivery *)

Lemma inject_regs_event (c : csr_file) (e : sse_event) (regs : trap_regs) :
  ev_ok e ->
  let '(_, e', regs') := inject_regs c e regs in
  ev_ok e' /\ attr e' SSE_ATTR_STATUS = SSE_STATE_RUNNING /\ ev_pending e' = false /\
  ev_hart e' = ev_hart e /\ ev_id e' = ev_id e /\
  attr e' SSE_ATTR_PRIORITY = attr e SSE_ATTR_PRIORITY /\ attr e' SSE_ATTR_CONFIG = attr e SSE_ATTR_CONFIG /\
  tr_mepc regs' = attr e SSE_ATTR_ENTRY_PC.
Proof.
  intros He. unfold inject_regs. destruct (inject_h _ _ _ _) as [[c1 ms] fl].
  destruct (if hart_smode_double_trap_enabled c1 then _ else _) as [ms' fl'].
  set (e1 := set_attr (set_attr (set_attr (set_attr e _ _) _ _) _ _) _ _).
  assert (ev_ok e1) as He1 by (by repeat apply ev_ok_set_attr).
  assert (forall j, 0 <= j < 6 -> attr e1 j = attr e j) as Ea.
  { intros j Hj. subst e1. unfold SSE_ATTR_INTERRUPTED_FLAGS, SSE_ATTR_INTERRUPTED_SEPC, SSE_ATTR_INTERRUPTED_A6, SSE_ATTR_INTERRUPTED_A7.
    rewrite !attr_set by (lia || rewrite ?length_set_attr; apply He). rewrite !decide_False by lia. done. }
  set (e2 := e1 <| ev_pending := false |>). assert (ev_ok e2) as He2 by (destruct He1; split; done).
  unfold SSE_ATTR_STATUS, SSE_ATTR_PRIORITY, SSE_ATTR_CONFIG, SSE_ATTR_ENTRY_PC in *.
  rewrite !attr_set by (lia || apply He2). rewrite decide_True, !decide_False by lia.
  change (attr e2) with (attr e1). rewrite !Ea by lia.
  split_and!; try done. by apply ev_ok_set_attr.
Qed.

Lemma inject_moves (s : sse) (p : event_ptr) (regs : trap_regs) :
  ptr_ok n p -> moves n None (ptr_key p) s (fst (inject s p regs)).
Proof.
  intros Hp Hok. unfold inject.
  pose proof (inject_regs_event (ss_csrs s) (event_at s p) regs (event_at_ok n s p Hok Hp)) as H.
  destruct (inject_regs _ _ _) as [[c e'] regs']. destruct H as (He & Hst & Hpe & Hha & _). cbn [fst].
  revert Hok. eapply moves_trans; [apply moves_csrs|]. apply moves_update; [done|done|]. right. intros e _.
  unfold due. rewrite Hst. done.
Qed.

Lemma complete_moves (s : sse) (regs : trap_regs) : moves n None key s (snd (fst (sse_complete s regs))).
Proof using HE.
  unfold sse_complete. destruct (top_event s self SSE_STATE_RUNNING) as [p|] eqn:Et; [|apply moves_refl].
  apply top_event_in in Et as (Hin & Hel & _).
  destruct (own_events_ok self p (eo_self HE) Hin) as [Hp Ek]. apply eligible_spec in Hel as (_ & Eh & _).
  destruct (complete_regs _ _ _) as [c regs']. cbn [fst snd].
  set (s1 := event_update (csrs s c) p _). set (s2 := event_source_update s1 p).
  set (s3 := if ev_id _ =? _ then route_complete s2 else s2).
  assert (moves n (Some p) key s s3) as M3.
  { apply (moves_trans n (Some p) key s s1).
    - eapply moves_trans; [apply moves_csrs|]. rewrite <- Ek. apply moves_update; [done|intros _ e; apply ev_ok_set_attr|by left].
    - eapply moves_trans; [apply source_update_moves|]. unfold s3. case_match; [apply moves_csrs|apply moves_refl]. }
  assert (sse_ok n s -> event_at s3 p = event_at s1 p /\ ev_hart (event_at s1 p) = self) as Hev.
  { intros Hok. split.
    - transitivity (event_at s2 p); [unfold s3; case_match; done|apply event_at_source].
    - unfold s1. rewrite (event_at_update n) by (by destruct Hok || done). by rewrite decide_True. }
  apply (moves_close n p).
  - eapply moves_trans; [exact M3|]. apply moves_kick. intros _. apply HE.
  - intros Hok. change (event_at (kick_set s3 self 1) p) with (event_at s3 p).
    destruct (Hev Hok) as [-> ->]. rewrite (kick_at_set n) by (apply HE || apply M3, Hok). by rewrite decide_True.
Qed.
End Ops.

(** * Attributes, and who gets a global event *)

Section Attrs.
Context {AR : Arch} {KC : Kconfig} {F : Features} {HT : HartTable} {E : SseEnv}.
Context (n : Z) (HE : env_ok n).

Lemma REGBYTES_pos : 0 < REGBYTES.
Proof. unfold REGBYTES. destruct XLEN_cases as [-> | ->]; done. Qed.

Lemma words_loop (f : Z -> Z) (m : nat) (mem : gmap Z Z) (addr j : Z) :
  0 <= j < Z.of_nat m ->
  word_at (for_upto m (fun i mem => <[addr + i * REGBYTES := f i]> mem) mem) (addr + j * REGBYTES) = f j.
Proof.
  intros Hj. pose proof REGBYTES_pos.
  assert (forall j', 0 <= j' < Z.of_nat m ->
    word_at (for_upto m (fun i mem => <[addr + i * REGBYTES := f i]> mem) mem) (addr + j' * REGBYTES) = f j') as H0; [|by apply H0].
  apply (for_upto_ind (fun k mem => forall j', 0 <= j' < Z.of_nat k -> word_at mem (addr + j' * REGBYTES) = f j')); [lia|].
  intros k mem' Hk IH j' Hj'. unfold word_at. destruct (decide (j' = Z.of_nat k)) as [->|Hne].
  - by rewrite lookup_insert_eq.
  - rewrite lookup_insert_ne; [apply IH; lia|]. intros E0. apply Hne. nia.
Qed.

Lemma event_find_err (event_id hart rc : Z) : event_find event_id hart = inl rc -> rc <> SBI_SUCCESS.
Proof.
  unfold event_find. destruct (id_search _ _ _); [destruct (negb _); intros [= <-]; done|].
  destruct (id_search _ _ _); [destruct (negb _); intros [= <-]; done|]. intros [= <-]. by destruct (_ && _).
Qed.

Lemma attrs_check_err (event_id base count addr rc : Z) : attrs_check event_id base count addr = inl rc -> rc <> SBI_SUCCESS.
Proof.
  unfold attrs_check. destruct (event_find _ _) as [rc'|p] eqn:Ef.
  - intros [= <-]. by eapply event_find_err.
  - destruct (count =? 0); [by intros [= <-]|]. destruct (_ || _); [by intros [= <-]|].
    destruct (_ || _); [by intros [= <-]|done].
Qed.

(** The values a write takes from memory. *)
Lemma write_vals (mem : gmap Z Z) (addr count j : Z) :
  0 <= j < count -> ((fun i => word_at mem (addr + i * REGBYTES)) <$> seqZ 0 count) !! Z.to_nat j =
  Some (word_at mem (addr + j * REGBYTES)).
Proof.
  intros Hj. rewrite list_lookup_fmap, lookup_seqZ_lt by lia. cbn [fmap option_fmap option_map]. do 4 f_equal. lia.
Qed.

(** attributes, all or nothing. A write that is turned down for any of its
    values changes no event; one that succeeds is what a read of the same
    attributes gives back, word for word. *)
Theorem sse_attrs_write_read (s : sse) (mem : gmap Z Z) (event_id base count addr addr' : Z) :
  sse_ok n s -> 0 <= base -> 0 <= count ->
  let '(rc, s') := sse_write_attrs s mem event_id base count addr in
  (rc <> SBI_SUCCESS -> forall p, event_at s' p = event_at s p) /\
  (rc = SBI_SUCCESS -> IS_ALIGNED addr' REGBYTES = true -> env_range_ok addr' (count *! REGBYTES) = true ->
   forall mem0, let '(rc', _, mem') := sse_read_attrs s' mem0 event_id base count addr' in
   rc' = SBI_SUCCESS /\
   forall i, 0 <= i < count -> word_at mem' (addr' + i * REGBYTES) = word_at mem (addr + i * REGBYTES)).
Proof using HE.
  intros Hok Hb Hc. unfold sse_write_attrs. destruct (attrs_check event_id base count addr) as [rc|p] eqn:Ef.
  { split; [done|]. intros E0. by apply attrs_check_err in Ef. }
  pose proof Ef as (Hp & Ek & Hc0 & Hbc & _)%(attrs_check_ptr n HE); [|done..].
  set (vals := (fun i => _) <$> seqZ 0 count). cbv zeta. set (s1 := call (call s _) _).
  assert (Z.of_nat (length vals) = count) as Hlen by (subst vals; rewrite length_fmap, length_seqZ; lia).
  change (event_at s1 p) with (event_at s p).
  destruct (Z.eqb_spec (attr_writes_check (event_at s p) base vals) 0) as [E0|]; [|split; done].
  rewrite E0. split; [done|]. intros _ Hal Hro mem0.
  assert (0 < base) as Hpos by (eapply attr_writes_check_pos; [done| |exact E0]; intros E1; rewrite E1 in Hlen; cbn in Hlen; lia).
  assert (attrs_check event_id base count addr' = inr p) as Ef'.
  { revert Ef. unfold attrs_check. destruct (event_find _ _); [done|]. destruct (count =? 0); [done|].
    destruct (_ || _); [done|]. rewrite Hal, Hro. destruct (_ || _); [done|]. by intros [= ->]. }
  unfold sse_read_attrs. rewrite Ef'. split; [done|]. intros i Hi. rewrite words_loop by lia.
  set (s2 := event_update s1 p _). change (event_at (call s2 _) p) with (event_at s2 p).
  assert (sse_ok n s1) as Hok1 by (destruct Hok; by split).
  assert (event_at s2 p = attr_writes (event_at s p) base vals) as ->.
  { unfold s2. rewrite (event_at_update n) by done. by rewrite decide_True. }
  destruct (attr_writes_keep vals (event_at s p) base) as (_ & _ & _ & _ & _ & Hat); [by apply (event_at_ok n)|lia..|].
  unfold attr_shown, SSE_ATTR_STATUS. destruct (Z.eqb_spec (base + i) 0); [lia|].
  rewrite Hat by lia. rewrite decide_True by lia. replace (base + i - base) with i by lia.
  unfold vals. by rewrite write_vals.
Qed.

(** a global event finds a listener. If any hart of the domain takes events,
    the hart a global event of that domain is sent to takes them; and it is
    the preferred hart, if that one does. *)
Theorem global_target_listens (s : sse) (e : sse_event) (k h : Z) :
  0 <= h < hart_table_size ht_ids -> takes_events s k h = true ->
  takes_events s k (global_target s e k) = true /\
  let pref := hart_index ht_ids (attr e SSE_ATTR_PREFERRED_HART) in
  (0 <= pref -> takes_events s k pref = true -> global_target s e k = pref).
Proof.
  intros Hh Ht. cbv zeta. unfold global_target. set (pref := hart_index _ _). split.
  - destruct ((0 <=? pref) && takes_events s k pref) eqn:Ep; [apply andb_prop in Ep as [_ Ep]; exact Ep|].
    destruct (takes_events s k this_hart_index) eqn:Es; [done|].
    destruct (List.find (takes_events s k) (seqZ 0 (hart_table_size ht_ids))) as [h'|] eqn:Ef.
    { apply find_seqZ in Ef as [_ Hf]. exact Hf. }
    exfalso. pose proof (List.find_none _ _ Ef h) as Hn. rewrite Hn in Ht; [done|].
    apply list_elem_of_In, elem_of_seqZ. lia.
  - intros Hp0 Hp. apply Z.leb_le in Hp0. by rewrite Hp0, Hp.
Qed.
End Attrs.

(** * No event is lost *)

Section Runs.
Context {AR : Arch} {KC : Kconfig} {F : Features} {HT : HartTable}.
Context (n : Z).
Abbreviation table := (hart_table_size ht_ids).

(** Hart [h], in domain [k], looks at event [p]. *)
Definition visible (k h : Z) (p : event_ptr) : Prop :=
  match p with EvLocal k' h' _ => k' = k /\ h' = h | EvGlobal k' _ => k' = k end.

(** A hart with an event to be delivered in the domain it runs has been
    told to look. *)
Definition kicked (key_of : Z -> Z) (s : sse) : Prop :=
  forall h p, 0 <= h < table -> ptr_ok n p -> visible (key_of h) h p ->
    due (event_at s p) = true -> ev_hart (event_at s p) = h -> kick_at s h <> 0.

(** One operation, by a hart of the table, on the events of a domain: its
    own, but for the events the monitor raises. *)
Inductive sse_op {E : SseEnv} (s : sse) : Z -> sse -> Prop :=
| op_process regs : sse_op s this_domain_key (fst (sse_process s regs))
| op_complete regs : sse_op s this_domain_key (snd (fst (sse_complete s regs)))
| op_raise_local id : sse_op s this_domain_key (snd (sse_raise_local s id))
| op_raise_global id k : 0 <= k < n -> sse_op s k (sse_raise_global s id k)
| op_inject id hartid :
    (env_hart_valid hartid = true -> 0 <= hart_index ht_ids hartid) -> sse_op s this_domain_key (snd (sse_inject s id hartid))
| op_register id pc arg : sse_op s this_domain_key (snd (sse_register s id pc arg))
| op_unregister id : sse_op s this_domain_key (snd (sse_unregister s id))
| op_enable id : sse_op s this_domain_key (snd (sse_enable s id))
| op_disable id : sse_op s this_domain_key (snd (sse_disable s id))
| op_unmask : sse_op s this_domain_key (snd (sse_hart_unmask s))
| op_mask : sse_op s this_domain_key (snd (sse_hart_mask s))
| op_read mem id base count addr : sse_op s this_domain_key (snd (fst (sse_read_attrs s mem id base count addr)))
| op_write mem id base count addr :
    0 <= base -> 0 <= count -> sse_op s this_domain_key (snd (sse_write_attrs s mem id base count addr))
| op_hart_init : sse_op s this_domain_key (sse_hart_init s)
| op_domain_reset k : sse_op s k (sse_domain_reset s k).

(** The machine from boot on: operations of any harts in any order, harts
    that change domain, and another hart's registers in view. [key_of] is
    the domain each hart runs. *)
Inductive sse_runs : (Z -> Z) -> sse -> Prop :=
| runs_init key_of : sse_runs key_of (sse_init n)
| runs_op {E : SseEnv} key_of s k s' :
    sse_runs key_of s -> env_ok n -> key_of this_hart_index = this_domain_key -> sse_op s k s' ->
    sse_runs key_of s'
| runs_switch {E : SseEnv} key_of s fresh :
    sse_runs key_of s -> env_ok n ->
    sse_runs (fun h => if decide (h = this_hart_index) then this_domain_key else key_of h)
      (sse_hart_switch_in s fresh)
| runs_csrs key_of s c o : sse_runs key_of s -> sse_runs key_of ((csrs s c) <| ss_route := o |>).

Lemma kicked_moves (key_of : Z -> Z) (k : Z) (s s' : sse) :
  sse_ok n s -> moves n None k s s' -> kicked key_of s -> sse_ok n s' /\ kicked key_of s'.
Proof.
  intros Hok HM Hk. destruct (HM Hok) as (Hok' & Hkick & Hdue & _). split; [done|].
  intros h p Hh Hp Hv Hd Eh. destruct (Hdue p Hp ltac:(done) Hd) as [[Hd0 Eh0]|Hk'].
  - apply Hkick; [done|]. apply (Hk h p); try done. congruence.
  - congruence.
Qed.

Lemma visible_own {E : SseEnv} (h : Z) (p : event_ptr) :
  ptr_ok n p -> visible this_domain_key h p -> p ∈ own_events h.
Proof.
  intros Hp Hv. apply elem_of_app. destruct p as [k h' i|k i]; cbn in *.
  - destruct Hv as [-> ->], Hp as (? & ? & ?). left. apply list_elem_of_fmap. exists i. split; [done|].
    apply elem_of_seqZ. unfold NR_LOCAL. lia.
  - subst k. destruct Hp as (? & ?). right. apply list_elem_of_fmap. exists i. split; [done|].
    apply elem_of_seqZ. unfold NR_GLOBAL. lia.
Qed.

Lemma due_eligible (e : sse_event) : due e = true <-> eligible e (ev_hart e) SSE_STATE_ENABLED = true.
Proof.
  unfold due. rewrite eligible_spec, andb_true_iff, Z.eqb_eq. split; [intros [? ?]; done|].
  intros (? & _ & ?). split; auto.
Qed.

Lemma process_kicked {E : SseEnv} (key_of : Z -> Z) (s : sse) (regs : trap_regs) :
  env_ok n -> key_of this_hart_index = this_domain_key -> sse_ok n s -> kicked key_of s ->
  sse_ok n (fst (sse_process s regs)) /\ kicked key_of (fst (sse_process s regs)).
Proof.
  intros HE Ekey Hok Hk. unfold sse_process. destruct (kick_at s this_hart_index =? 0); [done|].
  destruct (top_event s this_hart_index SSE_STATE_ENABLED) as [t|] eqn:Et.
  - destruct (_ && _); [|done].
    apply top_event_in in Et as (Hin & _). destruct (own_events_ok n HE _ t (eo_self n HE) Hin) as [Ht _].
    apply (kicked_moves key_of (ptr_key t) s); [done| |done]. by apply inject_moves.
  - cbn [fst]. split; [by apply kick_set_ok|]. intros h p Hh Hp Hv Hd Eh.
    change (event_at (kick_set s this_hart_index 0) p) with (event_at s p) in *.
    rewrite (kick_at_set n) by (done || apply HE). case_decide as E0; [|by apply (Hk h p)].
    exfalso. rewrite <- E0, Ekey in Hv.
    pose proof (top_event_none s _ _ Et p (visible_own _ p Hp Hv)) as Hn.
    apply due_eligible in Hd. rewrite Eh, <- E0 in Hd. congruence.
Qed.

Lemma op_kicked {E : SseEnv} (key_of : Z -> Z) (k : Z) (s s' : sse) :
  env_ok n -> key_of this_hart_index = this_domain_key -> sse_op s k s' -> sse_ok n s -> kicked key_of s ->
  sse_ok n s' /\ kicked key_of s'.
Proof.
  intros HE Ekey Hop Hok Hk. destruct Hop; [by apply process_kicked|..];
    (eapply kicked_moves; [exact Hok| |exact Hk]).
  - by apply complete_moves.
  - by apply raise_local_moves.
  - by apply raise_global_moves.
  - by apply sse_inject_moves.
  - by apply register_moves.
  - by apply transition_moves.
  - by apply transition_moves.
  - by apply transition_moves.
  - by apply unmask_moves.
  - by apply mask_moves.
  - by apply read_attrs_moves.
  - by apply write_attrs_moves.
  - by apply hart_init_moves.
  - apply moves_ready.
Qed.

Lemma sse_init_ok : 0 <= n -> 0 < table -> KconfigOk -> sse_ok n (sse_init n).
Proof.
  intros Hn Ht Hk. pose proof config_mpxy_events as Hm. pose proof (ev_ok_zero Ht) as Hz. split; cbn.
  - rewrite length_replicate. lia.
  - apply Forall_replicate. cbn. rewrite length_replicate. unfold NR_GLOBAL. split; [lia|by apply Forall_replicate].
  - rewrite length_replicate. nia.
  - apply Forall_replicate. cbn. split; [done|]. apply (Forall_replicate _ 5%nat event_zero). done.
  - rewrite length_replicate. unfold hart_table_size in *. lia.
Qed.

Lemma sse_init_event (p : event_ptr) : event_at (sse_init n) p = event_zero.
Proof.
  assert (forall (k i : nat), default event_zero (replicate k event_zero !! i) = event_zero) as Hz.
  { intros k i. destruct (replicate k event_zero !! i) eqn:E; [|done]. apply lookup_replicate in E as [-> _]. done. }
  destruct p as [k h i|k i]; cbn [event_at].
  - unfold sse_hart_at. cbn. destruct (replicate _ sse_hart_zero !! _) eqn:E; cbn.
    + apply lookup_replicate in E as [-> _]. apply (Hz 5%nat).
    + apply (Hz 5%nat).
  - cbn. destruct (replicate _ (SseDomain _ _) !! _) eqn:E; cbn; [|done].
    apply lookup_replicate in E as [-> _]. apply Hz.
Qed.

Lemma sse_runs_kicked (key_of : Z -> Z) (s : sse) :
  0 <= n -> 0 < table -> KconfigOk -> sse_runs key_of s -> sse_ok n s /\ kicked key_of s.
Proof.
  intros Hn Ht Hk Hr. induction Hr as [key_of|E key_of s k s' _ [IH1 IH2] HE Ekey Hop|E key_of s fresh _ [IH1 IH2] HE|key_of s c o _ [IH1 IH2]].
  - split; [by apply sse_init_ok|]. intros h p _ _ _. by rewrite sse_init_event.
  - by apply (op_kicked key_of k s).
  - pose proof (switch_in_moves n HE s fresh) as HM. destruct (HM IH1) as (Hok' & Hkick & Hdue & _).
    split; [done|]. intros h p Hh Hp Hv Hd Eh. destruct (decide (h = this_hart_index)) as [->|Hne].
    + unfold sse_hart_switch_in. rewrite (kick_at_set n).
      * by rewrite decide_True.
      * destruct fresh; [by apply (hart_init_moves n HE s)|by apply (ras_update_moves n s)].
      * apply HE.
      * done.
    + destruct (Hdue p Hp ltac:(done) Hd) as [[Hd0 Eh0]|Hk'].
      * apply Hkick; [done|]. apply (IH2 h p); try done. congruence.
      * congruence.
  - apply (kicked_moves key_of 0 s); [done|by apply moves_same|done].
Qed.

(** C8: no event is lost. Whatever the harts have called, in whatever order, and
    however they changed domains: when the calling hart takes events and runs
    none, and some event [p] is to be delivered to it in the domain it runs
    (enabled, pending, aimed at it), its next trap exit goes to the handler of
    the first of those events, [t]: one of the lowest priority number, and of
    those the one of the lowest id. [t] runs from then on; every other of
    them, [p] where it is not [t], stays as it is, and the hart looks again
    at its next trap exit. *)
Theorem sse_due_is_delivered {E : SseEnv} (key_of : Z -> Z) (s : sse) (regs : trap_regs) (p : event_ptr) :
  0 <= n -> KconfigOk -> env_ok n -> sse_runs key_of s -> key_of this_hart_index = this_domain_key ->
  p ∈ own_events this_hart_index -> eligible (event_at s p) this_hart_index SSE_STATE_ENABLED = true ->
  sh_unmasked (sse_hart_at s this_domain_key this_hart_index) = true ->
  (forall q, q ∈ own_events this_hart_index -> eligible (event_at s q) this_hart_index SSE_STATE_RUNNING = false) ->
  exists t, t ∈ own_events this_hart_index /\
    eligible (event_at s t) this_hart_index SSE_STATE_ENABLED = true /\
    sse_process s regs = inject s t regs /\
    tr_mepc (snd (sse_process s regs)) = attr (event_at s t) SSE_ATTR_ENTRY_PC /\
    attr (event_at (fst (sse_process s regs)) t) SSE_ATTR_STATUS = SSE_STATE_RUNNING /\
    kick_at (fst (sse_process s regs)) this_hart_index <> 0 /\
    forall q, q ∈ own_events this_hart_index -> eligible (event_at s q) this_hart_index SSE_STATE_ENABLED = true -> q <> t ->
      event_at (fst (sse_process s regs)) q = event_at s q /\
      (attr (event_at s t) SSE_ATTR_PRIORITY < attr (event_at s q) SSE_ATTR_PRIORITY \/
       attr (event_at s t) SSE_ATTR_PRIORITY = attr (event_at s q) SSE_ATTR_PRIORITY /\
       ev_id (event_at s t) <= ev_id (event_at s q)).
Proof.
  intros Hn Hk HE Hr Ekey Hin Hel Hun Hno. pose proof (eo_self n HE) as Hs.
  destruct (sse_runs_kicked key_of s Hn ltac:(lia) Hk Hr) as [Hok Hkick].
  destruct (own_events_ok n HE _ p Hs Hin) as [Hp Epk].
  assert (visible this_domain_key this_hart_index p) as Hv.
  { apply elem_of_app in Hin as [Hi|Hi]; apply list_elem_of_fmap in Hi as (i & -> & _); done. }
  pose proof Hel as (Hst & Hha & Hpe)%eligible_spec.
  assert (kick_at s this_hart_index <> 0) as Hk0.
  { apply (Hkick _ p); try done; [by rewrite Ekey|]. apply due_eligible. by rewrite Hha. }
  assert (top_event s this_hart_index SSE_STATE_RUNNING = None) as Erun.
  { destruct (top_event s this_hart_index SSE_STATE_RUNNING) as [r|] eqn:Er; [|done].
    apply top_event_in in Er as (Hri & Hre & _). rewrite Hno in Hre by done. done. }
  pose proof (top_event_spec s this_hart_index SSE_STATE_ENABLED) as Htop.
  destruct (top_event s this_hart_index SSE_STATE_ENABLED) as [t|] eqn:Et.
  2:{ rewrite (Htop p Hin) in Hel. done. }
  destruct Htop as (Hti & Hte & Hfirst). exists t. destruct (own_events_ok n HE _ t Hs Hti) as [Ht _].
  assert (sse_process s regs = inject s t regs) as Ep.
  { unfold sse_process. pose proof Hk0 as Hk0'. apply Z.eqb_neq in Hk0' as ->. rewrite Et, Erun, Hun. done. }
  rewrite Ep. unfold inject.
  pose proof (inject_regs_event (ss_csrs s) (event_at s t) regs (event_at_ok n s t Hok Ht)) as H.
  destruct (inject_regs _ _ _) as [[c e'] regs']. destruct H as (He' & Hst' & _ & _ & _ & _ & _ & Hpc). cbn [fst snd].
  split_and!; [done..| | |].
  - rewrite (event_at_update n) by (done || by destruct Hok). by rewrite decide_True.
  - destruct t; exact Hk0.
  - intros q Hq Hqe Hne. destruct (own_events_ok n HE _ q Hs Hq) as [Hqok _]. split.
    + rewrite (event_at_update n) by (done || by destruct Hok). rewrite decide_False by congruence. by destruct q.
    + pose proof (Hfirst q Hq Hqe). lia.
Qed.

(** domains are apart. Whatever a hart calls for its domain, and whatever
    the monitor raises for one, the events of every other domain, and which
    of its harts take events, stay as they were. *)
Theorem sse_op_isolated {E : SseEnv} (s s' : sse) (key : Z) :
  env_ok n -> sse_ok n s -> sse_op s key s' ->
  (forall p, ptr_ok n p -> ptr_key p <> key -> event_at s' p = event_at s p) /\
  (forall k h, 0 <= k < n -> 0 <= h < table -> k <> key ->
     sh_unmasked (sse_hart_at s' k h) = sh_unmasked (sse_hart_at s k h)).
Proof.
  intros HE Hok Hop.
  enough (moves n None key s s' \/ exists h, s' = kick_set s h 0) as [HM|[h ->]]; [|done|].
  { destruct (HM Hok) as (_ & _ & _ & H1 & H2). split; done. }
  destruct Hop; [|left..].
  - unfold sse_process. destruct (_ =? 0); [left; apply moves_refl|].
    destruct (top_event s this_hart_index SSE_STATE_ENABLED) as [t|] eqn:Et; [|right; by eexists].
    left. destruct (_ && _); [|apply moves_refl]. apply top_event_in in Et as (Hti & _).
    destruct (own_events_ok n HE _ t (eo_self n HE) Hti) as [Ht <-]. by apply inject_moves.
  - by apply complete_moves.
  - by apply raise_local_moves.
  - by apply raise_global_moves.
  - by apply sse_inject_moves.
  - by apply register_moves.
  - by apply transition_moves.
  - by apply transition_moves.
  - by apply transition_moves.
  - by apply unmask_moves.
  - by apply mask_moves.
  - by apply read_attrs_moves.
  - by apply write_attrs_moves.
  - by apply hart_init_moves.
  - apply moves_ready.
Qed.
End Runs.
