(* ===== verification/SseRoundtrip.v ===== *)
(** Into an event handler and back ([Sse.v]): [sse_complete] undoes what
    [sse_process] did to the interrupted context. The registers' part comes
    first, bit by bit; then the whole, with the events around it. *)

From S2P Require Import Prelude Arch Csr Fields Bitstring Hart Sse SseProps.
From Stdlib Require Import Btauto.

#[local] Open Scope Z_scope.

Section Roundtrip.
Context {AR : Arch} {KC : Kconfig} {F : Features} {HT : HartTable} {E : SseEnv}.

(** The interrupted context is S- or U-mode's, and S-mode that may not take
    a trap has its interrupts off. *)
Definition context_ok (mstatus : Z) : Prop :=
  is_ulong mstatus /\ Z.testbit mstatus 12 = false /\
  (Z.testbit mstatus MSTATUS_SDT_BIT = true -> Z.testbit mstatus MSTATUS_SIE_BIT = false).

(** mstatus in, without MPV and SDT, which the steps around see to. *)
Lemma mstatus_roundtrip (ms flags : Z) :
  context_ok ms ->
  truth (Z.land flags INT_FLAGS_SPP) = Z.testbit ms 8 ->
  truth (Z.land flags INT_FLAGS_SPIE) = Z.testbit ms 5 ->
  forall sdt mpv, 
  let m1 := if mpv : bool then bit_off ms MSTATUS_MPV_BIT else ms in
  let m2 := if sdt : bool then bit_on m1 MSTATUS_SDT_BIT else m1 in
  let m3 := inject_mstatus m2 (Z.testbit ms 11) in
  let m4 := Z.land m3 (unot MSTATUS_MPP) in
  let m5 := if bit m4 MSTATUS_SPP_BIT then Z.lor m4 (ushl PRV_S MSTATUS_MPP_SHIFT) else m4 in
  let m6 := if mpv && Z.testbit ms MSTATUS_MPV_BIT then bit_on m5 MSTATUS_MPV_BIT else m5 in
  let m7 := if sdt then (if Z.testbit ms MSTATUS_SDT_BIT then bit_on (bit_off m6 MSTATUS_SDT_BIT) MSTATUS_SDT_BIT
                         else bit_off m6 MSTATUS_SDT_BIT) else m6 in
  (mpv = true -> XLEN = 64) -> complete_mstatus m7 flags = ms.
Proof.
  intros (Hms & H12 & Hsdt) Hspp Hspie sdt mpv m1 m2 m3 m4 m5 m6 m7 Hx. pose proof XLEN_bounds as HX.
  unfold MSTATUS_SDT_BIT, MSTATUS_SIE_BIT in *.
  assert (is_ulong m1) as U1 by (unfold m1; ulong). assert (is_ulong m2) as U2 by (unfold m2; ulong).
  assert (m3 = bit_on (bit_off (let a := bit_off (bit_off (bit_off (bit_off m2 8) 5) 11) 12 in
     let b := if Z.testbit ms 11 then bit_on a 8 else a in if bit b 1 then bit_on b 5 else b) 1) 11) as E3.
  { unfold m3, inject_mstatus. rewrite off_three by done. done. }
  cbv zeta in E3. assert (is_ulong m3) as U3 by (rewrite E3; ulong).
  assert (m4 = bit_off (bit_off m3 11) 12) as E4 by (unfold m4; by apply off_MPP).
  assert (is_ulong m4) as U4 by (rewrite E4; ulong).
  assert (is_ulong m5) as U5 by (unfold m5; rewrite on_PRV_S; ulong).
  assert (is_ulong m6) as U6 by (unfold m6; ulong). assert (is_ulong m7) as U7 by (unfold m7; ulong).
  (* the bits, step by step *)
  assert (forall i, 0 <= i -> Z.testbit m1 i = negb (mpv && (i =? 39)) && Z.testbit ms i) as B1.
  { intros i Hi. unfold m1, MSTATUS_MPV_BIT. destruct mpv; [|done]. rewrite testbit_off by (done || lia). done. }
  assert (forall i, 0 <= i -> Z.testbit m2 i = sdt && (i =? 24) || Z.testbit m1 i) as B2.
  { intros i Hi. unfold m2, MSTATUS_SDT_BIT. destruct sdt; [|done]. rewrite testbit_on by lia. done. }
  set (a := bit_off (bit_off (bit_off (bit_off m2 8) 5) 11) 12) in *.
  assert (is_ulong a) as Ua by (unfold a; ulong).
  set (b := if Z.testbit ms 11 then bit_on a 8 else a) in *. assert (is_ulong b) as Ub by (unfold b; ulong).
  assert (forall i, 0 <= i -> Z.testbit b i = Z.testbit ms 11 && (i =? 8) ||
            negb ((i =? 8) || (i =? 5) || (i =? 11) || (i =? 12)) && Z.testbit m2 i) as Bb.
  { intros i Hi. unfold b, a. destruct (Z.testbit ms 11); fields; case_cmp; done. }
  assert (bit b 1 = Z.testbit ms 1) as Eb1 by (rewrite bit_testbit, Bb, B2, B1 by lia; bools).
  rewrite Eb1 in E3.
  assert (forall i, 0 <= i -> Z.testbit m3 i = (i =? 11) || negb (i =? 1) && (Z.testbit ms 1 && (i =? 5) || Z.testbit b i)) as B3.
  { intros i Hi. rewrite E3. destruct (Z.testbit ms 1); fields; case_cmp; done. }
  assert (forall i, 0 <= i -> Z.testbit m4 i = negb ((i =? 11) || (i =? 12)) && Z.testbit m3 i) as B4.
  { intros i Hi. rewrite E4. fields. case_cmp; done. }
  assert (bit m4 MSTATUS_SPP_BIT = Z.testbit ms 11) as E5.
  { unfold MSTATUS_SPP_BIT. rewrite bit_testbit, B4, B3, Bb by lia. bools. }
  assert (forall i, 0 <= i -> Z.testbit m5 i = Z.testbit ms 11 && (i =? 11) || Z.testbit m4 i) as B5.
  { intros i Hi. unfold m5. rewrite E5, on_PRV_S. destruct (Z.testbit ms 11); [fields|]; done. }
  assert (forall i, 0 <= i -> Z.testbit m6 i = mpv && Z.testbit ms 39 && (i =? 39) || Z.testbit m5 i) as B6.
  { intros i Hi. unfold m6, MSTATUS_MPV_BIT. destruct (mpv && Z.testbit ms 39) eqn:Em; [|done].
    apply andb_prop in Em as [-> _]. fields. done. }
  assert (forall i, 0 <= i -> Z.testbit m7 i = if sdt && (i =? 24) then Z.testbit ms 24 else Z.testbit m6 i) as B7.
  { intros i Hi. unfold m7, MSTATUS_SDT_BIT. destruct sdt; [|done]. destruct (Z.testbit ms 24); fields; case_cmp; done. }
  unfold complete_mstatus, MSTATUS_SIE_BIT, MSTATUS_SPP_BIT, MSTATUS_SPIE_BIT, MSTATUS_SDT_BIT.
  rewrite off_two, Hspp, Hspie by done. set (d := bit_off (bit_off m7 1) 8).
  assert (is_ulong d) as Ud by (unfold d; ulong).
  assert (forall i, 0 <= i -> Z.testbit d i = negb ((i =? 1) || (i =? 8)) && Z.testbit m7 i) as Bd.
  { intros i Hi. unfold d. fields. case_cmp; done. }
  assert (bit d 5 && negb (bit d 24) = Z.testbit ms 1) as Esie.
  { rewrite !bit_testbit, !Bd, !B7, !B6, !B5, !B4, !B3, !Bb, !B2, !B1 by lia. bools.
    destruct (Z.testbit ms 24) eqn:E24; [rewrite Hsdt by done|]; bools. }
  rewrite Esie. apply Z.bits_inj'. intros i Hi.
  transitivity ((Z.testbit ms 8 && (i =? 8)) || (Z.testbit ms 5 && (i =? 5)) || negb (i =? 5) && (Z.testbit ms 1 && (i =? 1) || Z.testbit d i)).
  { destruct (Z.testbit ms 8), (Z.testbit ms 5), (Z.testbit ms 1); fields; case_cmp; done. }
  rewrite Bd, B7, B6, B5, B4, B3, Bb, B2, B1 by lia.
  destruct (Z.eqb_spec i 8) as [->|]; [bools|]. destruct (Z.eqb_spec i 5) as [->|]; [bools|].
  destruct (Z.eqb_spec i 1) as [->|]; [bools|]. destruct (Z.eqb_spec i 11) as [->|]; [bools|].
  destruct (Z.eqb_spec i 12) as [->|]; [rewrite H12; bools|].
  destruct (Z.eqb_spec i 24) as [->|]; [bools|]. destruct (Z.eqb_spec i 39) as [->|]; bools.
Qed.

(** ** The hypervisor's registers *)

Lemma testbit_flag (b : bool) (fl j k : Z) :
  0 <= j -> 0 <= k -> Z.testbit (if b then Z.lor fl (2 ^ j) else fl) k = b && (k =? j) || Z.testbit fl k.
Proof. intros Hj Hk. destruct b; [|done]. by rewrite testbit_set. Qed.

(** hstatus into the handler, and back by the flags. *)
Definition hstatus_in (h : Z) (virt from_s : bool) : Z :=
  let h := bit_off h HSTATUS_SPV_BIT in
  if virt then let h := bit_off (bit_on h HSTATUS_SPV_BIT) HSTATUS_SPVP_BIT in
               if from_s then bit_on h HSTATUS_SPVP_BIT else h
  else h.

Lemma hstatus_roundtrip (h : Z) (virt from_s : bool) :
  is_ulong h ->
  let h1 := Z.land (hstatus_in h virt from_s) (unot (Z.lor (BIT HSTATUS_SPV_BIT) (BIT HSTATUS_SPVP_BIT))) in
  let h2 := if Z.testbit h 7 then bit_on h1 HSTATUS_SPV_BIT else h1 in
  (if Z.testbit h 8 then bit_on h2 HSTATUS_SPVP_BIT else h2) = h /\
  bit (hstatus_in h virt from_s) HSTATUS_SPV_BIT = virt /\ is_ulong (hstatus_in h virt from_s).
Proof.
  intros Hh. pose proof XLEN_bounds. unfold HSTATUS_SPV_BIT, HSTATUS_SPVP_BIT. cbv zeta.
  assert (is_ulong (hstatus_in h virt from_s)) as Hu.
  { unfold hstatus_in, HSTATUS_SPV_BIT, HSTATUS_SPVP_BIT. cbv zeta. ulong. }
  assert (forall i, 0 <= i -> Z.testbit (hstatus_in h virt from_s) i =
    if i =? 7 then virt else if (i =? 8) && virt then from_s else Z.testbit h i) as B.
  { intros i Hi. unfold hstatus_in, HSTATUS_SPV_BIT, HSTATUS_SPVP_BIT. cbv zeta.
    destruct virt; [destruct from_s|]; fields; case_cmp; lia || (subst; bools). }
  rewrite off_two by done. split_and!; [|by rewrite bit_testbit, B by lia|done].
  apply Z.bits_inj'. intros i Hi. destruct (Z.testbit h 8) eqn:E8, (Z.testbit h 7) eqn:E7; fields; rewrite B by done;
    (destruct (Z.eqb_spec i 7) as [->|]; [|destruct (Z.eqb_spec i 8) as [->|]]); rewrite ?E7, ?E8; bools.
Qed.

Definition h_mpv : bool := hart_has HART_FEAT_H && bool_decide (arch_xlen = RV64).

(** Registers an injection leaves alone. *)
Definition csr_kept (r : Z) : Prop := r <> CSR_HSTATUS /\ r <> CSR_MSTATUSH /\ r <> CSR_SEPC.

Lemma csr_set_bit (c : csr_file) (r k : Z) : csr_wf c -> 0 <= k < XLEN ->
  csr_read (csr_set c r (BIT k)) r = bit_on (csr_read c r) k.
Proof.
  intros Hc Hk. unfold csr_set. rewrite csr_read_write, decide_True by done. apply wrap_small.
  by apply bit_on_ulong, csr_read_wf.
Qed.

Lemma csr_clear_bit (c : csr_file) (r k : Z) : csr_wf c -> 0 <= k < XLEN ->
  csr_read (csr_clear c r (BIT k)) r = bit_off (csr_read c r) k.
Proof.
  intros Hc Hk. unfold csr_clear. rewrite csr_read_write, decide_True by done. apply wrap_small.
  by apply bit_off_ulong, csr_read_wf.
Qed.

(** What [inject_h] leaves, for [complete_h] to start from. *)
Lemma inject_h_spec (c : csr_file) (ms fl : Z) (from_s : bool) :
  csr_wf c -> is_ulong ms ->
  exists virt, let '(c1, m1, fl1) := inject_h c ms fl from_s in
  csr_wf c1 /\ m1 = (if h_mpv then bit_off ms MSTATUS_MPV_BIT else ms) /\
  (forall k, 0 <= k -> Z.testbit fl1 k = hart_has HART_FEAT_H && (Z.testbit (csr_read c CSR_HSTATUS) 7 && (k =? 2) ||
     Z.testbit (csr_read c CSR_HSTATUS) 8 && (k =? 3)) || Z.testbit fl k) /\
  (forall r, r <> CSR_HSTATUS -> r <> CSR_MSTATUSH -> csr_read c1 r = csr_read c r) /\
  csr_read c1 CSR_HSTATUS =
    (if hart_has HART_FEAT_H then hstatus_in (csr_read c CSR_HSTATUS) virt from_s else csr_read c CSR_HSTATUS) /\
  csr_read c1 CSR_MSTATUSH =
    (if hart_has HART_FEAT_H && bool_decide (arch_xlen = RV32) then bit_off (csr_read c CSR_MSTATUSH) 7
     else csr_read c CSR_MSTATUSH) /\
  virt = match arch_xlen with RV64 => Z.testbit ms 39 | RV32 => Z.testbit (csr_read c CSR_MSTATUSH) 7 end.
Proof.
  intros Hc Hms. pose proof XLEN_bounds as HX. pose proof (csr_read_wf c CSR_HSTATUS Hc) as Hh.
  pose proof (csr_read_wf c CSR_MSTATUSH Hc) as Hmh. unfold inject_h, h_mpv.
  exists (match arch_xlen with RV64 => Z.testbit ms 39 | RV32 => Z.testbit (csr_read c CSR_MSTATUSH) 7 end).
  destruct (hart_has HART_FEAT_H); cbn [andb orb]; [|split_and!; done].
  set (h := csr_read c CSR_HSTATUS) in *.
  assert (forall virt, is_ulong (hstatus_in h virt from_s)) as Hin by (intros; by apply hstatus_roundtrip).
  unfold mpv_take. unfold XLEN in HX. destruct arch_xlen eqn:Ex.
  all: rewrite !bit_testbit by (unfold HSTATUS_SPV_BIT, HSTATUS_SPVP_BIT, MSTATUSH_MPV_BIT, MSTATUS_MPV_BIT, XLEN; rewrite Ex; lia).
  all: rewrite ?bool_decide_eq_true_2, ?bool_decide_eq_false_2 by done; split_and!; try done; auto with csr.
  all: try (intros k Hk; unfold INT_FLAGS_SPV, INT_FLAGS_SPVP; rewrite !testbit_flag by lia;
            unfold HSTATUS_SPV_BIT, HSTATUS_SPVP_BIT; bools).
  all: try (rewrite csr_read_write, decide_True by done; apply wrap_small; apply Hin).
  all: try (intros r Hr1 Hr2; rewrite csr_read_write, decide_False by done; try done;
            unfold csr_clear; rewrite csr_read_write, decide_False by done; done).
  all: rewrite csr_read_write, decide_False by done; try done.
  apply csr_clear_bit; [done|]. unfold XLEN. rewrite Ex. lia.
Qed.

Lemma bit_restore (v k : Z) (b : bool) :
  is_ulong v -> 0 <= k < XLEN -> Z.testbit v k = b ->
  (if b then bit_on (bit_off v k) k else bit_off v k) = v.
Proof.
  intros Hv Hk Hb. apply Z.bits_inj'. intros i Hi.
  destruct b; fields; destruct (Z.eqb_spec i k) as [->|]; rewrite ?Hb; done.
Qed.

Lemma complete_h_spec (c0 cx : csr_file) (ms m5 fl : Z) (from_s virt : bool) :
  csr_wf c0 -> csr_wf cx ->
  csr_read cx CSR_HSTATUS =
    (if hart_has HART_FEAT_H then hstatus_in (csr_read c0 CSR_HSTATUS) virt from_s else csr_read c0 CSR_HSTATUS) ->
  csr_read cx CSR_MSTATUSH =
    (if hart_has HART_FEAT_H && bool_decide (arch_xlen = RV32) then bit_off (csr_read c0 CSR_MSTATUSH) 7
     else csr_read c0 CSR_MSTATUSH) ->
  virt = match arch_xlen with RV64 => Z.testbit ms 39 | RV32 => Z.testbit (csr_read c0 CSR_MSTATUSH) 7 end ->
  (hart_has HART_FEAT_H = true ->
     truth (Z.land fl INT_FLAGS_SPV) = Z.testbit (csr_read c0 CSR_HSTATUS) 7 /\
     truth (Z.land fl INT_FLAGS_SPVP) = Z.testbit (csr_read c0 CSR_HSTATUS) 8) ->
  let '(c2, m6) := complete_h cx m5 fl in
  csr_wf c2 /\ m6 = (if h_mpv && Z.testbit ms MSTATUS_MPV_BIT then bit_on m5 MSTATUS_MPV_BIT else m5) /\
  csr_read c2 CSR_HSTATUS = csr_read c0 CSR_HSTATUS /\ csr_read c2 CSR_MSTATUSH = csr_read c0 CSR_MSTATUSH /\
  (forall r, r <> CSR_HSTATUS -> r <> CSR_MSTATUSH -> csr_read c2 r = csr_read cx r).
Proof.
  intros Hc0 Hcx Eh Em Hvirt Hfl. unfold complete_h, h_mpv.
  destruct (hart_has HART_FEAT_H); cbn [andb] in *; [|split_and!; done].
  destruct (Hfl eq_refl) as [Ef2 Ef3]. rewrite Ef2, Ef3, Eh.
  pose proof (csr_read_wf c0 CSR_HSTATUS Hc0) as Hh. pose proof (csr_read_wf c0 CSR_MSTATUSH Hc0) as Hmh.
  destruct (hstatus_roundtrip (csr_read c0 CSR_HSTATUS) virt from_s Hh) as (Hback & -> & _). cbv zeta in Hback. rewrite Hback.
  set (out := if virt then mpv_set cx m5 else (cx, m5)).
  assert (out = (match arch_xlen with RV64 => cx | RV32 => if virt then csr_set cx CSR_MSTATUSH (BIT 7) else cx end,
                 match arch_xlen with RV64 => if virt then bit_on m5 39 else m5 | RV32 => m5 end)) as ->.
  { unfold out, mpv_set, MSTATUS_MPV_BIT, MSTATUSH_MPV_BIT. by destruct virt, arch_xlen. }
  set (c1 := match arch_xlen with RV64 => cx | RV32 => _ end).
  assert (csr_wf c1) as Hc1 by (unfold c1; repeat case_match; auto with csr).
  assert (forall r, r <> CSR_MSTATUSH -> csr_read c1 r = csr_read cx r) as Hother.
  { intros r Hr. unfold c1, csr_set. destruct arch_xlen; [|done]. destruct virt; [|done].
    by rewrite csr_read_write, decide_False. }
  assert (csr_read c1 CSR_MSTATUSH = csr_read c0 CSR_MSTATUSH) as Ec1.
  { unfold c1. destruct arch_xlen eqn:Ex; rewrite ?bool_decide_eq_true_2, ?bool_decide_eq_false_2 in Em by done; [|done].
    assert (0 <= 7 < XLEN) as H7 by (unfold XLEN; rewrite Ex; lia).
    rewrite <- (bit_restore (csr_read c0 CSR_MSTATUSH) 7 virt Hmh H7 (eq_sym Hvirt)).
    destruct virt; [rewrite csr_set_bit by done|]; by rewrite Em. }
  split_and!.
  - auto with csr.
  - unfold MSTATUS_MPV_BIT. destruct arch_xlen; cbn; [done|]. by subst virt.
  - rewrite csr_read_write, decide_True by done. by apply wrap_small.
  - rewrite csr_read_write, decide_False by done. done.
  - intros r Hr1 Hr2. rewrite csr_read_write, decide_False by done. by apply Hother.
Qed.

Lemma double_trap_same (c c' : csr_file) :
  csr_read c CSR_MENVCFG = csr_read c' CSR_MENVCFG -> csr_read c CSR_MENVCFGH = csr_read c' CSR_MENVCFGH ->
  hart_smode_double_trap_enabled c = hart_smode_double_trap_enabled c'.
Proof. unfold hart_smode_double_trap_enabled. intros -> ->. done. Qed.

Lemma attr_pending (e : sse_event) (b : bool) (i : Z) : attr (e <| ev_pending := b |>) i = attr e i.
Proof. done. Qed.

(** ** The registers *)

(** The register file a handler completes with: the one it got, but for
    what the call itself takes: a6, a7 and the pc of the ecall. *)
Definition completing (regs : trap_regs) (pc x y : Z) : trap_regs :=
  trap_reg_set (trap_reg_set (regs <| tr_mepc := pc |>) A6 x) A7 y.

Lemma regs_roundtrip (c : csr_file) (e : sse_event) (regs : trap_regs) (pc x y : Z) :
  csr_wf c -> trap_regs_wf regs -> ev_ok e -> context_ok (tr_mstatus regs) ->
  let '(c1, e1, regs1) := inject_regs c e regs in
  let '(c2, regs2) := complete_regs c1 e1 (completing regs1 pc x y) in
  regs2 = regs /\ csr_wf c1 /\ forall r, csr_read c2 r = csr_read c r.
Proof.
  intros Hc (Hlen & Hx & Hpc & Hms) He Hctx. pose proof XLEN_bounds as HX.
  unfold inject_regs. set (ms := tr_mstatus regs) in *.
  rewrite MPP_is_S by (done || apply Hctx). rewrite !bit_testbit by (unfold MSTATUS_SPP_BIT, MSTATUS_SPIE_BIT; lia).
  set (fl0 := if Z.testbit ms MSTATUS_SPIE_BIT then _ else _).
  destruct (inject_h_spec c ms fl0 (Z.testbit ms 11) Hc Hms) as [virt Hspec].
  destruct (inject_h c ms fl0 (Z.testbit ms 11)) as [[ch m1] fl1].
  destruct Hspec as (Hch & Em1 & Hfl & Hoth & Ehs & Emh & Ev).
  set (dt := hart_smode_double_trap_enabled ch).
  assert (forall b : bool, (if b then (bit_on m1 MSTATUS_SDT_BIT, if bit m1 MSTATUS_SDT_BIT then Z.lor fl1 INT_FLAGS_SDT else fl1)
     else (m1, fl1)) = (if b then bit_on m1 MSTATUS_SDT_BIT else m1,
       if b && bit m1 MSTATUS_SDT_BIT then Z.lor fl1 INT_FLAGS_SDT else fl1)) as -> by (by intros []).
  set (m2 := if dt then _ else _). set (fl2 := if dt && _ then _ else _).
  set (e4 := set_attr (set_attr (set_attr (set_attr e _ _) _ _) _ _) _ _).
  set (c1 := csr_write ch CSR_SEPC (tr_mepc regs)).
  set (e1 := set_attr (e4 <| ev_pending := false |>) SSE_ATTR_STATUS SSE_STATE_RUNNING).
  assert (length (ev_attr e4) = 10%nat) as Hl4 by (unfold e4; rewrite !length_set_attr; apply He).
  assert (attr e1 SSE_ATTR_INTERRUPTED_FLAGS = fl2 /\ attr e1 SSE_ATTR_INTERRUPTED_SEPC = csr_read c CSR_SEPC /\
          attr e1 SSE_ATTR_INTERRUPTED_A6 = trap_reg regs A6 /\ attr e1 SSE_ATTR_INTERRUPTED_A7 = trap_reg regs A7)
    as (Ea1 & Ea2 & Ea3 & Ea4).
  { rewrite <- (Hoth CSR_SEPC) by done. unfold e1, e4.
    unfold SSE_ATTR_STATUS, SSE_ATTR_INTERRUPTED_FLAGS, SSE_ATTR_INTERRUPTED_SEPC, SSE_ATTR_INTERRUPTED_A6, SSE_ATTR_INTERRUPTED_A7.
    split_and!; rewrite attr_set by (lia || exact Hl4); rewrite decide_False by lia; rewrite attr_pending;
      rewrite !attr_set by (lia || rewrite ?length_set_attr; apply He); done. }
  set (regs1 := trap_reg_set (trap_reg_set _ A6 _) A7 _).
  assert (tr_mstatus regs1 = inject_mstatus m2 (Z.testbit ms 11)) as Em3 by done.
  assert (completing regs1 pc x y =
    TrapRegs (<[17%nat := y]> (<[16%nat := x]> (tr_x regs))) pc (tr_mstatus regs1)) as Er.
  { unfold completing, regs1, trap_reg_set, field_update, A6, A7. cbn [tr_x tr_mepc tr_mstatus].
    change (Z.to_nat 16) with 16%nat. change (Z.to_nat 17) with 17%nat. f_equal.
    rewrite (list_insert_insert_ne _ 17 16) by done. rewrite list_insert_insert_eq.
    rewrite (list_insert_insert_ne _ 16 17) by done. by rewrite list_insert_insert_eq. }
  rewrite Er. unfold complete_regs. rewrite Ea1, Ea2, Ea3, Ea4.
  change (tr_mstatus (field_update tr_mepc _ _)) with (tr_mstatus regs1). rewrite Em3.
  set (m3 := inject_mstatus m2 (Z.testbit ms 11)). set (m4 := Z.land m3 (unot MSTATUS_MPP)).
  set (m5 := if bit m4 MSTATUS_SPP_BIT then Z.lor m4 (ushl PRV_S MSTATUS_MPP_SHIFT) else m4).
  assert (csr_wf c1) as Hc1 by (unfold c1; auto with csr).
  assert (forall r, r <> CSR_SEPC -> csr_read c1 r = csr_read ch r) as Hc1r.
  { intros r Hr. unfold c1. by rewrite csr_read_write, decide_False. }
  (* the flags, bit by bit *)
  assert (bit m1 MSTATUS_SDT_BIT = Z.testbit ms 24) as Esdt.
  { unfold MSTATUS_SDT_BIT. rewrite bit_testbit by lia. rewrite Em1. unfold MSTATUS_MPV_BIT, h_mpv.
    destruct (hart_has HART_FEAT_H && bool_decide (arch_xlen = RV64)) eqn:Eh; [|done]. apply andb_prop in Eh as [_ Eh%bool_decide_eq_true].
    rewrite testbit_off by (done || lia || (unfold XLEN; rewrite Eh; lia)). done. }
  assert (forall k, 0 <= k -> Z.testbit fl0 k = Z.testbit ms 5 && (k =? 1) || Z.testbit ms 8 && (k =? 0)) as Hfl0.
  { intros k Hk. unfold fl0, MSTATUS_SPP_BIT, MSTATUS_SPIE_BIT, INT_FLAGS_SPIE. rewrite testbit_flag by lia. f_equal.
    unfold INT_FLAGS_SPP. destruct (Z.testbit ms 8); [by rewrite Z.pow2_bits_eqb, Z.eqb_sym by lia|by rewrite Z.bits_0]. }
  assert (forall k, 0 <= k -> Z.testbit fl2 k = dt && Z.testbit ms 24 && (k =? 5) || Z.testbit fl1 k) as Hfl2.
  { intros k Hk. unfold fl2. rewrite Esdt. unfold INT_FLAGS_SDT. by rewrite testbit_flag by lia. }
  assert (truth (Z.land fl2 INT_FLAGS_SPP) = Z.testbit ms 8 /\ truth (Z.land fl2 INT_FLAGS_SPIE) = Z.testbit ms 5 /\
          truth (Z.land fl2 INT_FLAGS_SDT) = dt && Z.testbit ms 24 /\
          (hart_has HART_FEAT_H = true -> truth (Z.land fl2 INT_FLAGS_SPV) = Z.testbit (csr_read c CSR_HSTATUS) 7 /\
             truth (Z.land fl2 INT_FLAGS_SPVP) = Z.testbit (csr_read c CSR_HSTATUS) 8)) as (F0 & F1 & F5 & F23).
  { unfold INT_FLAGS_SPP, INT_FLAGS_SPIE, INT_FLAGS_SDT, INT_FLAGS_SPV, INT_FLAGS_SPVP. split_and!.
    4: intros HH; split.
    all: rewrite truth_bit by lia; rewrite Hfl2, Hfl, Hfl0 by lia; rewrite ?HH; bools. }
  pose proof (complete_h_spec c c1 ms m5 fl2 (Z.testbit ms 11) virt Hc Hc1) as Hcomp.
  rewrite !Hc1r in Hcomp by done. specialize (Hcomp Ehs Emh Ev F23).
  destruct (complete_h c1 m5 fl2) as [c3 m6]. destruct Hcomp as (Hc3 & Em6 & Eh3 & Emh3 & Ho3).
  assert (hart_smode_double_trap_enabled c3 = dt) as ->.
  { unfold dt. apply double_trap_same; rewrite Ho3, Hc1r by done; done. }
  split_and!; [|done|].
  - replace (csr_read c1 CSR_SEPC) with (tr_mepc regs)
      by (unfold c1; rewrite csr_read_write, decide_True by done; by rewrite wrap_small).
    unfold trap_reg_set, field_update, A6, A7, trap_reg. cbn [tr_x tr_mepc tr_mstatus].
    change (Z.to_nat 16) with 16%nat. change (Z.to_nat 17) with 17%nat.
    assert (complete_mstatus (if dt then if truth (Z.land fl2 INT_FLAGS_SDT) then bit_on (bit_off m6 MSTATUS_SDT_BIT) MSTATUS_SDT_BIT
       else bit_off m6 MSTATUS_SDT_BIT else m6) fl2 = ms) as ->.
    { rewrite F5, Em6. unfold m5, m4, m3, m2. rewrite Em1.
      etransitivity; [|apply (mstatus_roundtrip ms fl2 Hctx F0 F1 dt h_mpv)].
      - by destruct dt.
      - unfold h_mpv, XLEN. intros [_ ->%bool_decide_eq_true]%andb_prop. done. }
    destruct regs as [xs mepc mst]. cbn in *. f_equal.
    rewrite (list_insert_insert_ne _ 16 17) by done. rewrite !list_insert_insert_eq.
    destruct (lookup_lt_is_Some_2 xs 16) as [v16 E16]; [lia|]. destruct (lookup_lt_is_Some_2 xs 17) as [v17 E17]; [lia|].
    rewrite E16, E17. cbn. rewrite (list_insert_id _ 16 v16) by done. by apply list_insert_id.
  - intros r. rewrite csr_read_write. destruct (decide (CSR_SEPC = r)) as [<-|Hr]; [by apply wrap_small, csr_read_wf|].
    destruct (decide (r = CSR_HSTATUS)) as [->|]; [done|]. destruct (decide (r = CSR_MSTATUSH)) as [->|]; [done|].
    rewrite Ho3, Hc1r by done. by apply Hoth.
Qed.

(** ** With the events around it *)

Context (n : Z) (HE : env_ok n).
Abbreviation self := this_hart_index.

(** The event just injected is the one that completes next, also when it
    interrupted the handler of another. *)
Lemma injected_on_top (s s1 : sse) (t : event_ptr) (e1 : sse_event) :
  sse_ok n s -> sse_ok n s1 -> t ∈ own_events self ->
  (forall q, ptr_ok n q -> event_at s1 q = if decide (t = q) then e1 else event_at s q) ->
  attr e1 SSE_ATTR_STATUS = SSE_STATE_RUNNING -> ev_hart e1 = self ->
  attr e1 SSE_ATTR_PRIORITY = attr (event_at s t) SSE_ATTR_PRIORITY -> ev_id e1 = ev_id (event_at s t) ->
  (forall r, top_event s self SSE_STATE_RUNNING = Some r -> outranks (event_at s t) (event_at s r) = true) ->
  top_event s1 self SSE_STATE_RUNNING = Some t.
Proof using HE.
  intros Hok Hok1 Hin Hev Hst Hha Hpr Hid Hrun. destruct (own_events_ok n HE self t (eo_self n HE) Hin) as [Ht _].
  assert (eligible (event_at s1 t) self SSE_STATE_RUNNING = true) as Hel.
  { rewrite Hev, decide_True by done. apply eligible_spec. done. }
  destruct (top_event s1 self SSE_STATE_RUNNING) as [r|] eqn:Er.
  2:{ rewrite (top_event_none s1 _ _ Er t Hin) in Hel. done. }
  apply top_event_in in Er as (Hrin & Hrel & Hrmin). destruct (decide (t = r)) as [->|Hne]; [done|]. exfalso.
  destruct (own_events_ok n HE self r (eo_self n HE) Hrin) as [Hr _].
  pose proof (Hrmin t Hin Hel) as Hlow. rewrite (Hev t), (Hev r), decide_True, decide_False in Hlow by done.
  rewrite Hev, decide_False in Hrel by done.
  destruct (top_event s self SSE_STATE_RUNNING) as [q|] eqn:Eq.
  - apply top_event_in in Eq as (_ & _ & Hqmin). pose proof (Hqmin r Hrin Hrel) as Hrq. pose proof (Hrun q eq_refl) as Htq.
    revert Hlow Hrq Htq. rewrite <- !not_true_iff_false, !outranks_spec, Hpr, Hid. lia.
  - rewrite (top_event_none s _ _ Eq r Hrin) in Hrel. done.
Qed.

Lemma complete_regs_wf (c : csr_file) (e : sse_event) (regs : trap_regs) :
  csr_wf c -> csr_wf (fst (complete_regs c e regs)).
Proof.
  intros Hc. unfold complete_regs, complete_h, mpv_set. repeat case_match; simplify_eq/=; auto 7 with csr.
Qed.

(** The registers the PMU has a bit in: where the counter overflow interrupt
    goes. *)
Definition overflow_csr (r : Z) : Prop := r = CSR_MIE \/ r = CSR_MIDELEG.

Lemma overflow_enable_reads (c : csr_file) (o : overflow_route) (on : bool) (r : Z) :
  ~ overflow_csr r -> csr_read (fst (overflow_enable c o on)) r = csr_read c r.
Proof.
  intros Hr. assert (r <> CSR_MIE /\ r <> CSR_MIDELEG) as [H1 H2] by (unfold overflow_csr in Hr; tauto).
  unfold overflow_enable, csr_set, csr_clear. repeat case_match; cbn [fst]; rewrite ?csr_read_write, ?decide_False by done; done.
Qed.

Lemma overflow_complete_reads (c : csr_file) (o : overflow_route) (r : Z) :
  r <> CSR_MIE -> csr_read (overflow_complete c o) r = csr_read c r.
Proof. intros Hr. unfold overflow_complete, csr_set. case_match; [by rewrite csr_read_write, decide_False|done]. Qed.

Lemma source_update_csrs (s : sse) (p : event_ptr) (r : Z) :
  r <> RAS_IE_CSR -> ev_id (event_at s p) <> SSE_EVENT_LOCAL_PMU_OVERFLOW \/ ~ overflow_csr r ->
  csr_read (ss_csrs (event_source_update s p)) r = csr_read (ss_csrs s) r.
Proof.
  intros Hr Hp. unfold event_source_update. case_match eqn:Eid.
  - apply Z.eqb_eq in Eid. destruct Hp as [|Hp]; [done|]. unfold route_enable.
    pose proof (overflow_enable_reads (ss_csrs s) (ss_route s) (SSE_STATE_ENABLED <=? attr (event_at s p) SSE_ATTR_STATUS) r Hp) as H.
    by destruct (overflow_enable _ _ _).
  - case_match; [|done]. cbn. unfold ras_event_arm.
    case_match; [done|]. unfold csr_set, csr_clear. case_match; by rewrite csr_read_write, decide_False.
Qed.

Lemma set_testbit (c : csr_file) (r r' k i : Z) : csr_wf c -> 0 <= k < XLEN ->
  Z.testbit (csr_read (csr_set c r (BIT k)) r') i = bool_decide (r = r') && (i =? k) || Z.testbit (csr_read c r') i.
Proof.
  intros Hc Hk. unfold csr_set. rewrite csr_read_write. case_decide as Er; [subst r'|by rewrite bool_decide_false].
  pose proof (csr_read_wf c r Hc) as Hv. change (Z.lor _ _) with (bit_on (csr_read c r) k).
  rewrite wrap_small, bool_decide_true by (done || by apply bit_on_ulong). destruct (Z.neg_nonneg_cases i).
  - rewrite !Z.testbit_neg_r by done. destruct (Z.eqb_spec i k); [lia|done].
  - by rewrite testbit_on.
Qed.

Lemma clear_testbit (c : csr_file) (r r' k i : Z) : csr_wf c -> 0 <= k < XLEN ->
  Z.testbit (csr_read (csr_clear c r (BIT k)) r') i = negb (bool_decide (r = r') && (i =? k)) && Z.testbit (csr_read c r') i.
Proof.
  intros Hc Hk. unfold csr_clear. rewrite csr_read_write. case_decide as Er; [subst r'|by rewrite bool_decide_false].
  pose proof (csr_read_wf c r Hc) as Hv. change (Z.land _ _) with (bit_off (csr_read c r) k).
  rewrite wrap_small, bool_decide_true by (done || by apply bit_off_ulong). destruct (Z.neg_nonneg_cases i).
  - rewrite !Z.testbit_neg_r by done. by rewrite andb_false_r.
  - by rewrite testbit_off.
Qed.

(** Where the overflow interrupt goes when the handler of its event is done:
    the event has it again, with mie's bit set for the next overflow; or, if
    it was a one-shot, S-mode does, enabled as S-mode had it. *)
Lemma overflow_rearmed (c : csr_file) (o : overflow_route) (oneshot : bool) :
  csr_wf c -> or_enabled o = true ->
  let '(c1, o1) := overflow_enable c o (negb oneshot) in
  let c2 := overflow_complete c1 o1 in
  or_enabled o1 = negb oneshot /\
  (forall i, i <> IRQ_LCOF -> Z.testbit (csr_read c2 CSR_MIE) i = Z.testbit (csr_read c CSR_MIE) i) /\
  (forall i, i <> IRQ_LCOF -> Z.testbit (csr_read c2 CSR_MIDELEG) i = Z.testbit (csr_read c CSR_MIDELEG) i) /\
  Z.testbit (csr_read c2 CSR_MIE) IRQ_LCOF = (if oneshot then or_saved_ie o else true) /\
  Z.testbit (csr_read c2 CSR_MIDELEG) IRQ_LCOF = (if oneshot then true else Z.testbit (csr_read c CSR_MIDELEG) IRQ_LCOF).
Proof.
  intros Hc Ho. assert (0 <= IRQ_LCOF < XLEN) as Hl by (pose proof XLEN_bounds; unfold IRQ_LCOF; lia).
  unfold overflow_enable. rewrite Ho. destruct oneshot; cbn [negb Bool.eqb].
  - unfold overflow_complete. cbn [or_enabled].
    destruct (or_saved_ie o); split_and!; try done; intros; rewrite ?set_testbit, ?clear_testbit by auto with csr;
      cbn [bool_decide decide]; repeat (rewrite bool_decide_true by done || rewrite bool_decide_false by done);
      repeat match goal with H : ?i <> IRQ_LCOF |- _ => apply Z.eqb_neq in H; rewrite !H end; done.
  - unfold overflow_complete. rewrite Ho.
    split_and!; try done; intros; rewrite ?set_testbit by auto with csr;
      repeat (rewrite bool_decide_true by done || rewrite bool_decide_false by done);
      repeat match goal with H : ?i <> IRQ_LCOF |- _ => apply Z.eqb_neq in H; rewrite !H end; done.
Qed.

End Roundtrip.
