(* ===== verification/SseExample.v ===== *)
(** A machine with two harts and one domain, which the theorems on software
    events are applied to: hart 0 registers and enables its software event,
    takes events, and raises it. *)

From S2P Require Import Prelude Arch Csr Fields Bitstring Hart Sse SseProps SseRoundtrip.

#[local] Open Scope Z_scope.

Module TwoHarts.
#[local] Instance rv64 : Arch := RV64.
#[local] Instance virt : Kconfig := qemu_virt.
#[local] Instance every_extension : Features := fun _ => true.

#[local] Instance table : HartTable := {| ht_ids := [0; 1]; ht_nodup := two_harts_nodup |}.

#[local] Instance hart0 : SseEnv := {|
  this_hart_index := 0;
  this_domain_key := 0;
  env_hart_valid := fun id => (id =? 0) || (id =? 1);
  env_member := fun _ => true;
  env_interruptible := fun _ _ => true;
  env_entry_ok := fun _ => true;
  env_range_ok := fun _ _ => true;
  env_pmu_sse_supported := true;
  env_ras_sources := 0;
|}.

Lemma hart0_ok : env_ok 1.
Proof. constructor; [done|done|]. constructor; done. Defined.

Definition handler : Z := 0x80400000.

Definition up : sse := sse_hart_init (sse_init 1).
Definition registered : sse := snd (sse_register up SSE_EVENT_LOCAL_SOFTWARE handler 7).
Definition enabled : sse := snd (sse_enable registered SSE_EVENT_LOCAL_SOFTWARE).
Definition listening : sse := snd (sse_hart_unmask enabled).
Definition raised : sse := snd (sse_inject listening SSE_EVENT_LOCAL_SOFTWARE 0).

Definition software : event_ptr := EvLocal 0 0 4.

Definition own_key (h : Z) : Z := 0.

Ltac step_of rule := eapply (runs_op 1 own_key); [|exact hart0_ok|reflexivity|apply rule].

Lemma listening_runs : sse_runs 1 own_key listening.
Proof.
  step_of op_unmask. step_of op_enable. step_of op_register. step_of op_hart_init. apply runs_init.
Defined.

Lemma raised_runs : sse_runs 1 own_key raised.
Proof. step_of op_inject; [exact listening_runs|]. done. Defined.

Lemma raised_ok : sse_ok 1 raised.
Proof. apply (sse_runs_kicked 1 own_key); [done|done|exact (eo_config 1 hart0_ok)|exact raised_runs]. Defined.

(** S-mode, interrupted with its interrupts on. *)
Definition context : trap_regs := TrapRegs ((fun i => 100 + i) <$> seqZ 0 32) 0x80200000 0x0a00000822.

Lemma context_wf : trap_regs_wf context.
Proof. split_and!; [reflexivity| |split; done|split; done]. unfold is_ulong. repeat constructor; done. Defined.

Lemma due_is_delivered_witness :
  tr_mepc (snd (sse_process raised context)) = handler /\
  attr (event_at (fst (sse_process raised context)) software) SSE_ATTR_STATUS = SSE_STATE_RUNNING.
Proof.
  assert (forall q, q ∈ own_events 0 -> eligible (event_at raised q) 0 SSE_STATE_RUNNING = false) as Hnone.
  { apply Forall_forall. apply (bool_decide_unpack _). vm_compute. exact I. }
  assert (Forall (fun q => eligible (event_at raised q) 0 SSE_STATE_ENABLED = true -> q = software) (own_events 0)) as Honly.
  { apply (bool_decide_unpack _). vm_compute. exact I. }
  destruct (sse_due_is_delivered 1 own_key raised context software) as (t & Hti & Hte & _ & Hpc & Hst & _).
  - done.
  - exact (eo_config 1 hart0_ok).
  - exact hart0_ok.
  - exact raised_runs.
  - reflexivity.
  - apply (bool_decide_unpack _). vm_compute. exact I.
  - vm_compute. reflexivity.
  - vm_compute. reflexivity.
  - exact Hnone.
  - assert (t = software) as -> by (rewrite Forall_forall in Honly; exact (Honly t Hti Hte)).
    split; [|exact Hst]. rewrite Hpc. vm_compute. reflexivity.
Defined.


(** The priority of the global software event, read back. *)
Definition words : gmap Z Z := <[0x1000 := 5]> ∅.
Lemma sse_attrs_write_read_witness :
  let '(rc, s') := sse_write_attrs raised words SSE_EVENT_GLOBAL_SOFTWARE 1 1 0x1000 in
  rc = SBI_SUCCESS /\
  word_at (snd (sse_read_attrs s' ∅ SSE_EVENT_GLOBAL_SOFTWARE 1 1 0x2000)) 0x2000 = 5.
Proof.
  pose proof (sse_attrs_write_read 1 hart0_ok raised words SSE_EVENT_GLOBAL_SOFTWARE 1 1 0x1000 0x2000) as H.
  destruct (sse_write_attrs raised words SSE_EVENT_GLOBAL_SOFTWARE 1 1 0x1000) as [rc s'] eqn:Ew.
  assert (rc = SBI_SUCCESS) as ->.
  { transitivity (fst (sse_write_attrs raised words SSE_EVENT_GLOBAL_SOFTWARE 1 1 0x1000)).
    - rewrite Ew. reflexivity.
    - vm_compute. reflexivity. }
  split; [reflexivity|]. destruct H as [_ H]; [exact raised_ok|done|done|].
  specialize (H eq_refl eq_refl eq_refl ∅).
  destruct (sse_read_attrs s' ∅ SSE_EVENT_GLOBAL_SOFTWARE 1 1 0x2000) as [[rc' s''] mem'].
  destruct H as [_ H]. exact (H 0 ltac:(done)).
Defined.

Lemma global_target_listens_witness :
  takes_events raised 0 (global_target raised (event_at raised (EvGlobal 0 2)) 0) = true.
Proof.
  apply (global_target_listens raised (event_at raised (EvGlobal 0 2)) 0 0); [done|vm_compute; reflexivity].
Defined.

(** A second domain, which hart 0's calls leave alone. *)
Lemma two_domains_ok : env_ok 2.
Proof. constructor; [done|done|]. constructor; done. Defined.
Lemma sse_op_isolated_witness :
  event_at (sse_hart_init (sse_init 2)) (EvGlobal 1 2) = event_zero.
Proof.
  destruct (sse_op_isolated 2 (sse_init 2) (sse_hart_init (sse_init 2)) 0) as [H _].
  - exact two_domains_ok.
  - apply sse_init_ok; [done|done|exact (eo_config 2 two_domains_ok)].
  - apply op_hart_init.
  - rewrite (H (EvGlobal 1 2)); [|split; done|done]. vm_compute. reflexivity.
Defined.

End TwoHarts.
