(* ===== verification/Hsm.v ===== *)
(** Hart state management, [arch/riscv/runtime/hsm.c], and the part of the
    boot it belongs to ([images/monitor/main.c], [hart_init]).

    The harts run at once, and the words they share are atomic: the model is
    a step relation, one step per access to a shared word. [loc] says where
    in [hsm.c] a hart is; [hsm_step] is what hart [i] does next, [choice]
    what it is asked, or told by the rest of the system, on the way. The
    pieces of each function are a definition of their own, and [hsm_step]
    is their dispatcher.

    [HsmProps.v] has the theorems. *)

From S2P Require Import Prelude Arch Csr Bitstring Hart.

#[local] Open Scope Z_scope.

Definition SBI_HSM_SUSPEND_RET_DEFAULT : Z := 0x00000000.
Definition SBI_HSM_SUSPEND_RET_PLATFORM : Z := 0x10000000.
Definition SBI_HSM_SUSPEND_NON_RET_DEFAULT : Z := 0x80000000.
Definition SBI_HSM_SUSPEND_NON_RET_PLATFORM : Z := 0x90000000.

(** Which of the platform's operations there are ([struct hsm_ops]). *)
Record hsm_ops : Set := HsmOps { op_hart_start : bool; op_hart_stop : bool; op_hart_suspend : bool }.

(** Where a hart is to go in S-mode. *)
Record start : Set := Start { st_addr : Z; st_arg : Z; st_mode : Z }.

(** What the calling hart's domain says, at the time of a call. *)
Record domain_view : Type := DomainView {
  v_member : Z -> bool; (* domain_hart_member(this_domain(), index) *)
  v_assigned : Z -> bool; (* domain_hart_assigned(this_domain(), index) *)
  v_entry_ok : Z -> bool; (* smode_entry_ok() *)
  v_parked : bool; (* domain_has_parked(this_domain()) *)
  v_suspend_allowed : bool; (* domain_suspend_allowed(this_domain()) *)
}.

(** [hsm_hart_boot], in progress: whom, where to, and who asks (the boot's
    [image_main], or S-mode). *)
Record boot_call : Set := BootCall { b_target : Z; b_start : start; b_main : bool }.

Inductive boot_phase : Set :=
| BLock (* spin_lock() *)
| BLoad
| BCheck (state : Z) (* domain_stop_pending_on() *)
| BAddr | BArg | BMode (* the three stores *)
| BPend (* store START_PENDING *)
| BUnlock (state : Z)
| BDone (state : Z) (* what was found; the platform's part *)
| BKick.

(** The last leg of a system suspend: the harts from [ss_next] on are to be
    looked at. *)
Record system_call : Type := SystemCall {
  ss_next : Z; ss_alone : bool; ss_type : Z; ss_addr : Z; ss_arg : Z; ss_view : domain_view }.

Inductive loc : Type :=
| Main (* the boot hart, in [image_main] *)
| Down (* taken down by the platform *)
| Entry (* [image_secondary_main]: [hart_init] *)
| Wait | WaitStop (* [hsm_hart_wait] *)
| WaitInit | WaitCheck | WaitWfi | WaitProc (* [hsm_wait_loop] *)
| ResumeReset (* [hsm_resume_from_reset] *)
| Enter (* [hsm_hart_enter], up to the store of STARTED *)
| EnterAddr | EnterArg (addr : Z) | EnterMode (addr arg : Z) (* the loads for [hart_enter_smode] *)
| Run (* S-mode, and the monitor on its behalf *)
| Boot (b : boot_call) (ph : boot_phase)
| Stopping (* [hsm_hart_stopped] *)
| SysSuspend (y : system_call)
| SusTell (type addr arg : Z) (tell : bool) (* [hart_suspend], after the transition *)
| SusArgs (addr arg : Z)
| SusStore (retentive : bool)
| Sus (retentive : bool) (* [hsm_wait_for_wakeup] *)
| SusResume (* retentive: between the two stores *).

Record hsm : Type := Hsm {
  hm_harts : list hart;
  hm_lock : option Z; (* [hsm_start_lock]: who holds it *)
  hm_line : Z -> bool; (* the IPI of a hart is pending *)
  hm_at : Z -> loc;
  hm_ret : Z -> Z; (* what the last call on a hart returned *)
  hm_asked : Z -> start; (* the last start, or resume, of a hart that was granted *)
  hm_entered : Z -> start; (* what [hart_enter_smode] was last called with *)
}.
#[export] Instance hsm_eta : Settable hsm := fun s =>
  Hsm (hm_harts s) (hm_lock s) (hm_line s) (hm_at s) (hm_ret s) (hm_asked s) (hm_entered s).

(** What a hart is asked or told. *)
Inductive choice : Type :=
| Go (* on with it *)
| Woken (* WFI may end for no reason *)
| Told (b : bool) (* the answer to a question about the domain *)
| Stop (caller : bool) (* the domain is being stopped; [caller]: one of another domain waits *)
| Answer (rc : Z) (* what the platform's operation returns *)
| CallBoot (index : Z) (x : start) (* the monitor's own *)
| CallStart (hartid entry arg : Z) (v : domain_view)
| CallStop | ForceStop
| CallSuspend (type addr arg : Z) (v : domain_view)
| CallSystemSuspend (type addr arg : Z) (v : domain_view)
| BootSelf (x : start) (* hsm_boot_hart_start() *)
| BootIdle (* hsm_hart_wait() of image_main or domains_start() *)
| Send (index : Z) (* an IPI for another reason *)
| PowerDown | PowerUp.

Class HsmEnv := {
  env_ops : option hsm_ops;
  env_ipi_available : bool;
  env_stack_top : Z;
  env_stack_size : Z;
  env_misa : Z -> Z; (* by hart index *)
}.

Definition fset {A} (f : Z -> A) (i : Z) (v : A) : Z -> A := fun j => if decide (j = i) then v else f j.

Section Hsm.
Context {AR : Arch} {KC : Kconfig} {HT : HartTable} {HV : HsmEnv}.

(** ** Access to the state *)

Definition harts_at (hs : list hart) (i : Z) : hart := default hart_zero (hs !! Z.to_nat i).
Definition hart_at (s : hsm) (i : Z) : hart := harts_at (hm_harts s) i.
Definition hsm_state (s : hsm) (i : Z) : Z := h_hsm_state (hart_at s i).
Definition start_of (h : hart) : start := Start (h_start_addr h) (h_start_arg h) (h_start_mode h).

Definition hart_update (s : hsm) (i : Z) (f : hart -> hart) : hsm :=
  s <| hm_harts := alter f (Z.to_nat i) (hm_harts s) |>.
(** [atomic_store_ulong] of a state *)
Definition store (s : hsm) (i v : Z) : hsm := hart_update s i (fun h => h <| h_hsm_state := v |>).
Definition goto (s : hsm) (i : Z) (l : loc) : hsm := s <| hm_at := fset (hm_at s) i l |>.
Definition ret (s : hsm) (i rc : Z) (l : loc) : hsm := goto (s <| hm_ret := fset (hm_ret s) i rc |>) i l.
Definition line (s : hsm) (i : Z) (b : bool) : hsm := s <| hm_line := fset (hm_line s) i b |>.
Definition ask (s : hsm) (i : Z) (x : start) : hsm := s <| hm_asked := fset (hm_asked s) i x |>.

(** [ipi_kick()]: nothing without a backend or a hart. *)
Definition kick (s : hsm) (i : Z) : hsm :=
  if env_ipi_available && (i <? hart_table_size ht_ids) then line s i true else s.

Definition op (f : hsm_ops -> bool) : bool := match env_ops with Some o => f o | None => false end.

(** [hsm_transition]: did it, and what is left. *)
Definition hsm_transition (s : hsm) (i from to : Z) : bool * hsm :=
  if hsm_state s i =? from then (true, store s i to) else (false, s).

(** ** Into S-mode *)

(** [hsm_hart_enter]. The domain may be found to be stopping
    ([domain_context_started]): then the hart stops ([domain_stop_self]),
    or goes back to the domain it came from as its state is. *)
Definition hsm_hart_enter (s : hsm) (i : Z) (c : choice) : option hsm :=
  match hm_at s i, c with
  | Enter, Go => Some (goto (store s i SBI_HSM_STATE_STARTED) i EnterAddr)
  | Enter, Stop true => Some (goto s i Run)
  | Enter, Stop false => Some (goto (store s i SBI_HSM_STATE_STOP_PENDING) i Stopping)
  | EnterAddr, Go => Some (goto s i (EnterArg (h_start_addr (hart_at s i))))
  | EnterArg addr, Go => Some (goto s i (EnterMode addr (h_start_arg (hart_at s i))))
  | EnterMode addr arg, Go =>
      let x := Start addr arg (h_start_mode (hart_at s i)) in
      Some (goto (s <| hm_entered := fset (hm_entered s) i x |>) i Run)
  | _, _ => None
  end.

Definition set_start (h : hart) (x : start) : hart :=
  h <| h_start_addr := st_addr x |> <| h_start_arg := st_arg x |> <| h_start_mode := st_mode x |>.

(** The boot hart is alone with its own words: one step. *)
Definition hsm_boot_hart_start (s : hsm) (i : Z) (x : start) : hsm :=
  let s := hart_update s i (fun h => set_start h x) in
  goto (store (ask s i x) i SBI_HSM_STATE_START_PENDING) i Enter.

(** ** Waiting to be started *)

Definition hsm_hart_wait (s : hsm) (i : Z) (c : choice) : option hsm :=
  match hm_at s i, c with
  | Wait, Go =>
      Some (goto s i (if hsm_state s i =? SBI_HSM_STATE_SUSPENDED then ResumeReset else WaitStop))
  | WaitStop, Go => Some (goto (store s i SBI_HSM_STATE_STOPPED) i WaitInit)
  | _, _ => None
  end.

(** A hart in WFI wakes up when its IPI is pending, or for no reason. *)
Definition hsm_wait_loop (s : hsm) (i : Z) (c : choice) : option hsm :=
  match hm_at s i, c with
  | WaitInit, Go => Some (goto (line s i false) i WaitCheck)
  | WaitCheck, Go =>
      Some (goto s i (if hsm_state s i =? SBI_HSM_STATE_START_PENDING then Enter else WaitWfi))
  | WaitWfi, Go => if hm_line s i then Some (goto s i WaitProc) else None
  | WaitWfi, Woken => Some (goto s i WaitProc)
  | WaitProc, Go => Some (goto (line s i false) i WaitCheck)
  | _, _ => None
  end.

Definition hsm_resume_from_reset (s : hsm) (i : Z) : hsm :=
  goto (store s i SBI_HSM_STATE_RESUME_PENDING) i Enter.

(** [image_secondary_main], of a hart that is in the table. *)
Definition image_secondary_main (s : hsm) (i : Z) : hsm :=
  goto (s <| hm_harts := hart_init ht_ids (hm_harts s) env_stack_top env_stack_size (env_misa i)
                           (hart_id_of ht_ids i) |>) i Wait.

(** [hsm_hart_stopped]: the platform is told, and has no say. *)
Definition hsm_hart_stopped (s : hsm) (i : Z) : hsm := goto s i Wait.

(** ** Starting a hart *)

Definition hsm_hart_boot_call (s : hsm) (i index : Z) (x : start) (main : bool) : hsm :=
  let l := if main then Main else Run in
  if negb (hart_index_valid ht_ids (hm_harts s) index) then ret s i SBI_ERR_INVALID_PARAM l
  else if negb env_ipi_available then ret s i SBI_ERR_FAILED l
  else goto s i (Boot (BootCall index x main) BLock).

(** What [hsm_hart_boot] says to a state that is not STOPPED. *)
Definition boot_refusal (state : Z) : Z :=
  if (state =? SBI_HSM_STATE_STARTED) || (state =? SBI_HSM_STATE_START_PENDING)
  then SBI_ERR_ALREADY_AVAILABLE else SBI_ERR_INVALID_STATE.

Definition hsm_hart_boot (s : hsm) (i : Z) (b : boot_call) (ph : boot_phase) (c : choice) : option hsm :=
  let t := b_target b in
  let x := b_start b in
  let back := if b_main b then Main else Run in
  let next ph := fun s => Some (goto s i (Boot b ph)) in
  match ph, c with
  | BLock, Go => match hm_lock s with None => next BLoad (s <| hm_lock := Some i |>) | Some _ => None end
  | BLoad, Go => next (BCheck (hsm_state s t)) s
  | BCheck state, Told true => Some (ret (s <| hm_lock := None |>) i SBI_ERR_DENIED back)
  | BCheck state, Told false =>
      next (if state =? SBI_HSM_STATE_STOPPED then BAddr else BUnlock state) s
  | BAddr, Go => next BArg (hart_update s t (fun h => h <| h_start_addr := st_addr x |>))
  | BArg, Go => next BMode (hart_update s t (fun h => h <| h_start_arg := st_arg x |>))
  | BMode, Go => next BPend (hart_update s t (fun h => h <| h_start_mode := st_mode x |>))
  | BPend, Go => next (BUnlock SBI_HSM_STATE_STOPPED) (ask (store s t SBI_HSM_STATE_START_PENDING) t x)
  | BUnlock state, Go => next (BDone state) (s <| hm_lock := None |>)
  | BDone state, Answer rc =>
      if negb (state =? SBI_HSM_STATE_STOPPED) then Some (ret s i (boot_refusal state) back)
      else if op op_hart_start && truth rc
      then Some (ret (snd (hsm_transition s t SBI_HSM_STATE_START_PENDING SBI_HSM_STATE_STOPPED))
                     i SBI_ERR_FAILED back)
      else next BKick s
  | BKick, Go => Some (ret (kick s t) i SBI_SUCCESS back)
  | _, _ => None
  end.

(** For S-mode: the hart is its domain's, and so is the address. *)
Definition hsm_hart_start (s : hsm) (i hartid entry arg : Z) (v : domain_view) : hsm :=
  match hart_get ht_ids (hm_harts s) hartid with
  | Some h =>
      if negb (hart_valid ht_ids (hm_harts s) hartid) || negb (v_member v (h_index h))
      then ret s i SBI_ERR_INVALID_PARAM Run
      else if negb (v_assigned v (h_index h)) then ret s i SBI_ERR_ALREADY_AVAILABLE Run
      else if negb (v_entry_ok v entry) then ret s i SBI_ERR_INVALID_ADDRESS Run
      else hsm_hart_boot_call s i (h_index h) (Start entry arg PRV_S) false
  | None => ret s i SBI_ERR_INVALID_PARAM Run
  end.

(** ** Stopping and suspending *)

Definition hsm_hart_stop (s : hsm) (i : Z) : hsm :=
  let '(did, s) := hsm_transition s i SBI_HSM_STATE_STARTED SBI_HSM_STATE_STOP_PENDING in
  if did then goto s i Stopping else ret s i SBI_ERR_FAILED Run.

Definition hsm_hart_force_stop (s : hsm) (i : Z) : hsm :=
  goto (store s i SBI_HSM_STATE_STOP_PENDING) i Stopping.

Definition hsm_suspend_type_check (type : Z) : Z :=
  if (0xffffffff <? type) ||
     (SBI_HSM_SUSPEND_RET_DEFAULT <? type) && (type <? SBI_HSM_SUSPEND_RET_PLATFORM) ||
     (SBI_HSM_SUSPEND_NON_RET_DEFAULT <? type) && (type <? SBI_HSM_SUSPEND_NON_RET_PLATFORM)
  then SBI_ERR_INVALID_PARAM
  else if negb (type =? SBI_HSM_SUSPEND_RET_DEFAULT) && negb (type =? SBI_HSM_SUSPEND_NON_RET_DEFAULT) &&
          negb (op op_hart_suspend)
  then SBI_ERR_NOT_SUPPORTED
  else SBI_SUCCESS.

Definition is_retentive (type : Z) : bool := type <? SBI_HSM_SUSPEND_NON_RET_DEFAULT.
Definition is_platform (type : Z) : bool :=
  negb (type =? SBI_HSM_SUSPEND_RET_DEFAULT) && negb (type =? SBI_HSM_SUSPEND_NON_RET_DEFAULT).

(** [hart_suspend], up to the transition. *)
Definition hart_suspend_call (s : hsm) (i type addr arg : Z) (tell : bool) (v : domain_view) : hsm :=
  let rc := hsm_suspend_type_check type in
  if truth rc then ret s i rc Run
  else if negb (is_retentive type) && negb (v_entry_ok v addr) then ret s i SBI_ERR_INVALID_ADDRESS Run
  else
    let '(did, s) := hsm_transition s i SBI_HSM_STATE_STARTED SBI_HSM_STATE_SUSPEND_PENDING in
    if did then goto s i (SusTell type addr arg tell) else ret s i SBI_ERR_FAILED Run.

(** From there, and [hsm_resume_loop]. When a hart wakes up for its domain
    to be stopped, [domain_stop_self] stops it, or takes it back to the
    domain it came from. *)
Definition hart_suspend (s : hsm) (i : Z) (c : choice) : option hsm :=
  match hm_at s i, c with
  | SusTell type addr arg tell, Answer rc =>
      if tell && op op_hart_suspend && truth rc && is_platform type
      then Some (ret (store s i SBI_HSM_STATE_STARTED) i rc Run)
      else Some (goto s i (if is_retentive type then SusStore true else SusArgs addr arg))
  | SusArgs addr arg, Go =>
      let x := Start addr arg PRV_S in
      Some (goto (ask (hart_update s i (fun h => set_start h x)) i x) i (SusStore false))
  | SusStore retentive, Go => Some (goto (store s i SBI_HSM_STATE_SUSPENDED) i (Sus retentive))
  | Sus true, Woken => Some (goto (store s i SBI_HSM_STATE_RESUME_PENDING) i SusResume)
  | SusResume, Go => Some (ret (store s i SBI_HSM_STATE_STARTED) i SBI_SUCCESS Run)
  | Sus false, Woken => Some (goto (store s i SBI_HSM_STATE_RESUME_PENDING) i Enter)
  | Sus false, Stop true => Some (goto s i Run)
  | Sus false, Stop false => Some (hsm_hart_force_stop s i)
  | _, _ => None
  end.

(** [hsm_system_suspend]: the checks, a hart at a time. *)
Definition hsm_system_suspend_call (s : hsm) (i type addr arg : Z) (v : domain_view) : hsm :=
  if negb (v_suspend_allowed v) then ret s i SBI_ERR_DENIED Run
  else if negb (v_entry_ok v addr) then ret s i SBI_ERR_INVALID_ADDRESS Run
  else goto s i (SysSuspend (SystemCall 0 true type addr arg v)).

(** [Answer rc]: what [suspend_prepare] says, 0 where it is not asked. *)
Definition hsm_system_suspend (s : hsm) (i : Z) (y : system_call) (c : choice) : option hsm :=
  let k := ss_next y in
  let v := ss_view y in
  let next alone := Some (goto s i (SysSuspend (SystemCall (k + 1) alone (ss_type y) (ss_addr y) (ss_arg y) v))) in
  match c with
  | Go =>
      if CONFIG_PLATFORM_HART_COUNT <=? k then None
      else if (k =? i) || negb (hart_index_valid ht_ids (hm_harts s) k) ||
              (hsm_state s k =? SBI_HSM_STATE_STOPPED)
      then next (ss_alone y)
      else if v_assigned v k then Some (ret s i SBI_ERR_DENIED Run)
      else next false
  | Answer rc =>
      if k <? CONFIG_PLATFORM_HART_COUNT then None
      else if v_parked v then Some (ret s i SBI_ERR_DENIED Run)
      else if ss_alone y && truth rc then Some (ret s i rc Run)
      else Some (hart_suspend_call s i SBI_HSM_SUSPEND_NON_RET_DEFAULT (ss_addr y) (ss_arg y) false v)
  | _ => None
  end.

(** ** A step of hart [i] *)

(** What a hart that runs S-mode, or the boot, calls. *)
Definition hsm_call (s : hsm) (i : Z) (main : bool) (c : choice) : option hsm :=
  match c with
  | CallBoot index x => Some (hsm_hart_boot_call s i index x main)
  | Send j => Some (kick s j)
  | CallStart hartid entry arg v => if main then None else Some (hsm_hart_start s i hartid entry arg v)
  | CallStop => if main then None else Some (hsm_hart_stop s i)
  | ForceStop => if main then None else Some (hsm_hart_force_stop s i)
  | CallSuspend type addr arg v => if main then None else Some (hart_suspend_call s i type addr arg true v)
  | CallSystemSuspend type addr arg v =>
      if main then None else Some (hsm_system_suspend_call s i type addr arg v)
  | BootSelf x => if main then Some (hsm_boot_hart_start s i x) else None
  | BootIdle => if main then Some (goto s i Wait) else None
  | _ => None
  end.

Definition hsm_step (s : hsm) (i : Z) (c : choice) : option hsm :=
  match hm_at s i with
  | Main => hsm_call s i true c
  | Run => hsm_call s i false c
  | Down => match c with PowerUp => Some (goto s i Entry) | _ => None end
  | Entry => match c with Go => Some (image_secondary_main s i) | _ => None end
  | Wait | WaitStop => hsm_hart_wait s i c
  | WaitWfi =>
      match c with PowerDown => Some (goto s i Down) | _ => hsm_wait_loop s i c end
  | WaitInit | WaitCheck | WaitProc => hsm_wait_loop s i c
  | ResumeReset => match c with Go => Some (hsm_resume_from_reset s i) | _ => None end
  | Enter | EnterAddr | EnterArg _ | EnterMode _ _ => hsm_hart_enter s i c
  | Boot b ph => hsm_hart_boot s i b ph c
  | Stopping => match c with Go => Some (hsm_hart_stopped s i) | _ => None end
  | SysSuspend y => hsm_system_suspend s i y c
  | Sus r =>
      match c with PowerDown => Some (goto s i Down) | _ => hart_suspend s i c end
  | SusTell _ _ _ _ | SusArgs _ _ | SusStore _ | SusResume => hart_suspend s i c
  end.

(** A schedule: who goes, and how. *)
Fixpoint hsm_exec (s : hsm) (sched : list (Z * choice)) : option hsm :=
  match sched with
  | [] => Some s
  | (i, c) :: sched => match hsm_step s i c with Some s' => hsm_exec s' sched | None => None end
  end.

(** ** What others ask *)

Definition hsm_hart_state (s : hsm) (hartid : Z) (v : domain_view) : Z :=
  match hart_get ht_ids (hm_harts s) hartid with
  | Some h =>
      if negb (hart_valid ht_ids (hm_harts s) hartid) || negb (v_member v (h_index h))
      then SBI_ERR_INVALID_PARAM
      else if negb (v_assigned v (h_index h)) then SBI_HSM_STATE_STARTED
      else h_hsm_state h
  | None => SBI_ERR_INVALID_PARAM
  end.

(** [assigned] is that of the domain the mask is of. *)
Definition hsm_interruptible (s : hsm) (assigned : Z -> bool) (i : Z) : bool :=
  hart_index_valid ht_ids (hm_harts s) i && assigned i &&
  ((hsm_state s i =? SBI_HSM_STATE_STARTED) || (hsm_state s i =? SBI_HSM_STATE_SUSPENDED)).
Definition hsm_interruptible_mask_of (s : hsm) (assigned : Z -> bool) (mask : hartmask) : hartmask :=
  for_upto (Z.to_nat CONFIG_PLATFORM_HART_COUNT)
    (fun i mask => if hsm_interruptible s assigned i then hartmask_set mask i else mask)
    (hartmask_clear_all mask).
End Hsm.
