(* ===== verification/HsmProps.v ===== *)
(** What the harts' state machine promises, however the harts interleave:
    the states of a hart go round the SBI's diagram and no other way; a hart
    enters S-mode with the arguments of the start that was granted, all of
    them; no start is lost between the check and the WFI of the hart it is
    for; and what goes wrong where the platform, or the boot, has a hart
    pass through the monitor's entry. *)

From S2P Require Import Prelude Arch Csr Bitstring Hart Hsm.

#[local] Open Scope Z_scope.
#[local] Set Warnings "-clear-no-such-hyp".

Section HsmProps.
Context {AR : Arch} {KC : Kconfig} {HT : HartTable} {HV : HsmEnv}.
Abbreviation table := (hart_table_size ht_ids).

(** ** The invariant *)

(** Inside the lock of [hsm_hart_boot]. *)
Definition in_lock (l : loc) : bool :=
  match l with
  | Boot _ (BLoad | BCheck _ | BAddr | BArg | BMode | BPend | BUnlock _) => true
  | _ => false
  end.

(** A start is granted, and its kick is to come. *)
Definition will_kick (l : loc) (t : Z) : bool :=
  match l with
  | Boot b (BUnlock st | BDone st) => (b_target b =? t) && (st =? SBI_HSM_STATE_STOPPED)
  | Boot b BKick => b_target b =? t
  | _ => false
  end.

(** Where a hart is, and what its words are then. *)
Definition loc_inv (l : loc) (h : hart) (asked entered : start) : Prop :=
  let st := h_hsm_state h in
  let args := start_of h in
  match l with
  | Main => False
  | Down | Entry | ResumeReset => st = SBI_HSM_STATE_SUSPENDED /\ args = asked
  | Wait => st = SBI_HSM_STATE_SUSPENDED /\ args = asked \/ st = SBI_HSM_STATE_STOP_PENDING
  | WaitStop | Stopping => st = SBI_HSM_STATE_STOP_PENDING
  | WaitInit | WaitCheck | WaitWfi | WaitProc =>
      st = SBI_HSM_STATE_STOPPED \/ st = SBI_HSM_STATE_START_PENDING /\ args = asked
  | Enter => (st = SBI_HSM_STATE_START_PENDING \/ st = SBI_HSM_STATE_RESUME_PENDING) /\ args = asked
  | EnterAddr => st = SBI_HSM_STATE_STARTED /\ args = asked
  | EnterArg addr => st = SBI_HSM_STATE_STARTED /\ args = asked /\ addr = st_addr asked
  | EnterMode addr arg =>
      st = SBI_HSM_STATE_STARTED /\ args = asked /\ addr = st_addr asked /\ arg = st_arg asked
  | Run | SysSuspend _ => st = SBI_HSM_STATE_STARTED /\ entered = asked
  | Boot b _ =>
      st = SBI_HSM_STATE_STARTED /\ entered = asked /\ b_main b = false /\ 0 <= b_target b < table /\
      env_ipi_available = true
  | SusTell _ _ _ _ => st = SBI_HSM_STATE_SUSPEND_PENDING /\ entered = asked
  | SusArgs _ _ => st = SBI_HSM_STATE_SUSPEND_PENDING
  | SusStore r => st = SBI_HSM_STATE_SUSPEND_PENDING /\ if r then entered = asked else args = asked
  | Sus r => st = SBI_HSM_STATE_SUSPENDED /\ if r then entered = asked else args = asked
  | SusResume => st = SBI_HSM_STATE_RESUME_PENDING /\ entered = asked
  end.

(** What [hsm_hart_boot] knows of its target [h]. *)
Definition target_inv (b : boot_call) (ph : boot_phase) (h : hart) : Prop :=
  let stopped := h_hsm_state h = SBI_HSM_STATE_STOPPED in
  let x := b_start b in
  match ph with
  | BCheck st => st = SBI_HSM_STATE_STOPPED -> stopped
  | BAddr => stopped
  | BArg => stopped /\ h_start_addr h = st_addr x
  | BMode => stopped /\ h_start_addr h = st_addr x /\ h_start_arg h = st_arg x
  | BPend => stopped /\ start_of h = x
  | _ => True
  end.

Record hsm_inv (s : hsm) : Prop := {
  hi_len : Z.of_nat (length (hm_harts s)) = table;
  hi_hart i : 0 <= i < table -> h_present (hart_at s i) <> 0 /\ h_index (hart_at s i) = i;
  hi_loc i : 0 <= i < table -> loc_inv (hm_at s i) (hart_at s i) (hm_asked s i) (hm_entered s i);
  hi_lock i : 0 <= i < table -> in_lock (hm_at s i) = true <-> hm_lock s = Some i;
  hi_target i b ph : 0 <= i < table -> hm_at s i = Boot b ph -> target_inv b ph (hart_at s (b_target b));
  hi_kick t : 0 <= t < table -> hm_at s t = WaitWfi -> hsm_state s t = SBI_HSM_STATE_START_PENDING ->
    hm_line s t = false -> exists i, 0 <= i < table /\ will_kick (hm_at s i) t = true;
}.

(** The steps of a machine whose platform starts the harts it is asked to,
    takes no stopped hart down, and whose harts do not come back to another
    domain out of a suspend. *)
Definition calm (s : hsm) (i : Z) (c : choice) : Prop :=
  match c with
  | Stop caller => caller = false
  | PowerDown => hm_at s i = Sus false
  | Answer rc => match hm_at s i with Boot _ _ => rc = 0 | _ => True end
  | CallBoot t _ => 0 <= t
  | _ => True
  end.

(** Every hart waits to be started, or runs. *)
Record hsm_booted (s : hsm) : Prop := {
  hb_len : Z.of_nat (length (hm_harts s)) = table;
  hb_hart i : 0 <= i < table -> h_present (hart_at s i) <> 0 /\ h_index (hart_at s i) = i;
  hb_lock : hm_lock s = None;
  hb_at i : 0 <= i < table ->
    hm_at s i = WaitInit /\ hsm_state s i = SBI_HSM_STATE_STOPPED \/
    hm_at s i = Run /\ hsm_state s i = SBI_HSM_STATE_STARTED /\ hm_entered s i = hm_asked s i;
}.

Inductive hsm_runs : hsm -> Prop :=
| hr_booted s : hsm_booted s -> hsm_runs s
| hr_step s i c s' : hsm_runs s -> 0 <= i < table -> calm s i c -> hsm_step s i c = Some s' -> hsm_runs s'.

Lemma booted_inv (s : hsm) : hsm_booted s -> hsm_inv s.
Proof.
  intros [Hl Hh Hk Ha]. split; try done.
  - intros i Hi. unfold hsm_state in Ha. destruct (Ha i Hi) as [[-> ?]|(-> & ? & ?)]; cbn; auto.
  - intros i Hi. rewrite Hk. destruct (Ha i Hi) as [[-> ?]|(-> & ? & ?)]; cbn; done.
  - intros i b ph Hi E. destruct (Ha i Hi) as [[? ?]|(? & ? & ?)]; congruence.
  - intros t Ht E. destruct (Ha t Ht) as [[? ?]|(? & ? & ?)]; congruence.
Qed.

(** ** A step of a hart on its own words *)

Record own_step (s s' : hsm) (i : Z) : Prop := {
  os_len : length (hm_harts s') = length (hm_harts s);
  os_hart j : j <> i -> 0 <= j -> hart_at s' j = hart_at s j;
  os_at j : j <> i -> hm_at s' j = hm_at s j;
  os_asked j : j <> i -> hm_asked s' j = hm_asked s j;
  os_entered j : j <> i -> hm_entered s' j = hm_entered s j;
  os_lock : hm_lock s' = hm_lock s;
  os_line j : j <> i -> hm_line s j = true -> hm_line s' j = true;
  os_static : h_present (hart_at s i) <> 0 -> h_index (hart_at s i) = i ->
    h_present (hart_at s' i) <> 0 /\ h_index (hart_at s' i) = i;
  os_stopped : hsm_state s i = SBI_HSM_STATE_STOPPED -> hart_at s' i = hart_at s i;
  os_before : in_lock (hm_at s i) = false /\ forall t, will_kick (hm_at s i) t = false;
  os_after : in_lock (hm_at s' i) = false;
  os_wfi : hm_at s' i = WaitWfi -> hsm_state s' i <> SBI_HSM_STATE_START_PENDING;
  os_boot b ph : hm_at s' i = Boot b ph -> ph = BLock;
  os_loc : loc_inv (hm_at s' i) (hart_at s' i) (hm_asked s' i) (hm_entered s' i);
}.

(** What [hsm_hart_boot] knows of a stopped target survives what leaves the
    target alone. *)
Lemma target_inv_same (b : boot_call) (ph : boot_phase) (h h' : hart) :
  (h_hsm_state h = SBI_HSM_STATE_STOPPED -> h' = h) -> target_inv b ph h -> target_inv b ph h'.
Proof.
  intros Hs. destruct ph; cbn; try done; try (intros (H & ?) || intros H);
    try (rewrite Hs by done; auto); intros Hst; rewrite Hs by auto; auto.
Qed.

Lemma own_step_inv (s s' : hsm) (i : Z) :
  0 <= i < table -> own_step s s' i -> hsm_inv s -> hsm_inv s'.
Proof.
  intros Hi [Ol Oh Oa Oas Oe Ok Oli Ost Osp [Ob Ow] Oaf Owf Obt Olo] [Il Ih Ilo Ik It Ikk]. split.
  - by rewrite Ol.
  - intros j Hj. destruct (decide (j = i)) as [->|Hne]; [by apply Ost; apply Ih|].
    rewrite Oh by lia. auto.
  - intros j Hj. destruct (decide (j = i)) as [->|Hne]; [done|].
    rewrite Oh, Oa, Oas, Oe by lia. auto.
  - intros j Hj. rewrite Ok. destruct (decide (j = i)) as [->|Hne].
    + rewrite Oaf. rewrite <- Ik, Ob by done. done.
    + rewrite Oa by done. auto.
  - intros j b ph Hj E. destruct (decide (j = i)) as [->|Hne]; [by rewrite (Obt b ph E)|].
    rewrite Oa in E by done. pose proof (It j b ph Hj E) as Ht.
    pose proof (Ilo j Hj) as Hl. rewrite E in Hl. destruct Hl as (_ & _ & _ & Hb & _).
    destruct (decide (b_target b = i)) as [Eb|Hne'].
    + eapply target_inv_same; [|exact Ht]. rewrite Eb. exact Osp.
    + rewrite Oh by lia. done.
  - intros t Ht E Est Eli. destruct (decide (t = i)) as [->|Hne]; [by apply Owf in E|].
    rewrite Oa in E by done. unfold hsm_state in Est. rewrite Oh in Est by lia.
    destruct (Ikk t Ht E Est) as (j & Hj & Hw).
    { destruct (hm_line s t) eqn:El; [|done]. rewrite Oli in Eli by done. done. }
    exists j. split; [done|]. rewrite Oa; [done|]. intros ->. rewrite Ow in Hw. done.
Qed.

Lemma harts_at_alter (hs : list hart) (i j : Z) (f : hart -> hart) :
  0 <= i < Z.of_nat (length hs) -> 0 <= j ->
  harts_at (alter f (Z.to_nat i) hs) j = if decide (j = i) then f (harts_at hs i) else harts_at hs j.
Proof.
  intros Hi Hj. unfold harts_at. case_decide as E.
  - subst j. rewrite list_lookup_alter_eq. destruct (lookup_lt_is_Some_2 hs (Z.to_nat i)) as [h Hh]; [lia|].
    by rewrite Hh.
  - rewrite list_lookup_alter_ne by lia. done.
Qed.

Lemma fset_eq {A} (f : Z -> A) (i : Z) (v : A) : fset f i v i = v.
Proof. unfold fset. by rewrite decide_True. Qed.
Lemma fset_ne {A} (f : Z -> A) (i j : Z) (v : A) : j <> i -> fset f i v j = f j.
Proof. intros. unfold fset. by rewrite decide_False. Qed.
End HsmProps.

(** The fields of a state after a step, in terms of the state before. *)
Ltac fields_of :=
  unfold ret, goto, store, hart_update, line, ask, kick, set_start, hsm_state, hart_at, field_update in *;
  cbn [hm_harts hm_lock hm_line hm_at hm_ret hm_asked hm_entered] in *.
Ltac fields_at :=
  rewrite ?fset_eq in *; rewrite ?harts_at_alter, ?decide_True in * by (done || lia);
  cbn [h_hartid h_index h_domain h_present h_no_smode h_m_sp h_hsm_state h_start_addr h_start_arg h_start_mode
       h_ipi_pending] in *.
Ltac fields_ne := rewrite ?fset_ne in * by done; rewrite ?harts_at_alter, ?decide_False in * by (done || lia).
Ltac own :=
  split; fields_of; [rewrite ?length_alter; done|..]; intros; fields_of; fields_ne; fields_at; try done.
(** What is left of it: constants, and the fields of a request. *)
Ltac own_end :=
  first
    [ match goal with El : hm_at ?s ?i = _ |- context [hm_at ?s ?i] => rewrite El; done end
    | cbn [loc_inv] in *; unfold start_of in *; cbn [h_hsm_state h_start_addr h_start_arg h_start_mode] in *;
      unfold SBI_HSM_STATE_STARTED, SBI_HSM_STATE_STOPPED, SBI_HSM_STATE_START_PENDING,
        SBI_HSM_STATE_STOP_PENDING, SBI_HSM_STATE_SUSPENDED, SBI_HSM_STATE_SUSPEND_PENDING,
        SBI_HSM_STATE_RESUME_PENDING in *;
      try match goal with |- context [hm_asked ?s ?i] => generalize dependent (hm_asked s i); intros end;
      first [exfalso; lia | intuition congruence | naive_solver] ].

Section Steps.
Context {AR : Arch} {KC : Kconfig} {HT : HartTable} {HV : HsmEnv}.
Abbreviation table := (hart_table_size ht_ids).

(** A choice the location does not offer, or that is not calm. *)
Ltac no_choice := match goal with H : None = Some _ |- _ => discriminate H | H : _ = false |- _ => discriminate H end.

Ltac loc_of s i Hi Hinv :=
  let Hl := fresh "Hl" in pose proof (hi_loc s Hinv i Hi) as Hl; unfold hart_at in Hl;
  pose proof (hi_len s Hinv) as Hlen.

Lemma enter_own (s s' : hsm) (i : Z) (c : choice) :
  hsm_inv s -> 0 <= i < table -> calm s i c -> hsm_hart_enter s i c = Some s' -> own_step s s' i.
Proof.
  intros Hinv Hi Hc H. unfold hsm_hart_enter in H. loc_of s i Hi Hinv.
  destruct (hm_at s i) eqn:El; try no_choice; destruct c as [| |?|[]| | | | | | | | | | | |]; try no_choice;
    injection H as <-; cbn [loc_inv] in Hl; own; own_end.
Qed.

Lemma wait_own (s s' : hsm) (i : Z) (c : choice) :
  hsm_inv s -> 0 <= i < table -> hsm_hart_wait s i c = Some s' -> own_step s s' i.
Proof.
  intros Hinv Hi H. unfold hsm_hart_wait in H. loc_of s i Hi Hinv. unfold hsm_state in *.
  destruct (hm_at s i) eqn:El; try no_choice; destruct c; try no_choice; cbn [loc_inv] in Hl.
  - destruct (Z.eqb_spec (h_hsm_state (hart_at s i)) SBI_HSM_STATE_SUSPENDED); injection H as <-; own; own_end.
  - injection H as <-; own; own_end.
Qed.

Lemma wait_loop_own (s s' : hsm) (i : Z) (c : choice) :
  hsm_inv s -> 0 <= i < table -> hsm_wait_loop s i c = Some s' -> own_step s s' i.
Proof.
  intros Hinv Hi H. unfold hsm_wait_loop in H. loc_of s i Hi Hinv. unfold hsm_state in *.
  destruct (hm_at s i) eqn:El; try no_choice; destruct c; try no_choice; cbn [loc_inv] in Hl.
  - injection H as <-; own; own_end.
  - destruct (Z.eqb_spec (h_hsm_state (hart_at s i)) SBI_HSM_STATE_START_PENDING); injection H as <-; own; own_end.
  - destruct (hm_line s i); [|no_choice]. injection H as <-; own; own_end.
  - injection H as <-; own; own_end.
  - injection H as <-; own; own_end.
Qed.

Lemma suspend_own (s s' : hsm) (i : Z) (c : choice) :
  hsm_inv s -> 0 <= i < table -> calm s i c -> hart_suspend s i c = Some s' -> own_step s s' i.
Proof.
  intros Hinv Hi Hc H. unfold hart_suspend, hsm_hart_force_stop in H. loc_of s i Hi Hinv.
  destruct (hm_at s i) as [| | | | | | | | | | | | | | | | | | | |r|r|] eqn:El; try no_choice; try destruct r;
    destruct c as [| |?|[]| | | | | | | | | | | |]; try no_choice; cbn [loc_inv] in Hl;
    try (injection H as <-; own; own_end).
  destruct (tell && _ && _ && _); [injection H as <-; own; own_end|].
  destruct (is_retentive type); injection H as <-; own; own_end.
Qed.

(** Steps that store one word of the hart's, or none, on the way elsewhere. *)
Lemma goto_own (s : hsm) (i : Z) (l : loc) :
  hsm_inv s -> 0 <= i < table -> in_lock (hm_at s i) = false -> (forall t, will_kick (hm_at s i) t = false) ->
  in_lock l = false -> l <> WaitWfi -> (forall b ph, l = Boot b ph -> ph = BLock) ->
  loc_inv l (hart_at s i) (hm_asked s i) (hm_entered s i) -> own_step s (goto s i l) i.
Proof. intros Hinv Hi Hb Hw Hl Hn Hp Hloc. own. by eapply Hp. Qed.

Lemma ret_own (s : hsm) (i rc : Z) (l : loc) : own_step s (goto s i l) i -> own_step s (ret s i rc l) i.
Proof. intros []. split; done. Qed.

Lemma store_own (s : hsm) (i v : Z) (l : loc) :
  hsm_inv s -> 0 <= i < table -> in_lock (hm_at s i) = false -> (forall t, will_kick (hm_at s i) t = false) ->
  in_lock l = false -> l <> WaitWfi -> (forall b ph, l = Boot b ph -> ph = BLock) ->
  hsm_state s i <> SBI_HSM_STATE_STOPPED ->
  loc_inv l ((hart_at s i) <| h_hsm_state := v |>) (hm_asked s i) (hm_entered s i) ->
  own_step s (goto (store s i v) i l) i.
Proof.
  intros Hinv Hi Hb Hw Hl Hn Hp Hst Hloc. pose proof (hi_len s Hinv) as Hlen. own. by eapply Hp.
Qed.

(** A hart that runs S-mode, and what it calls. *)
Lemma run_goto (s : hsm) (i : Z) (l : loc) :
  hsm_inv s -> 0 <= i < table -> hm_at s i = Run -> in_lock l = false -> l <> WaitWfi ->
  (forall b ph, l = Boot b ph -> ph = BLock) ->
  loc_inv l (hart_at s i) (hm_asked s i) (hm_entered s i) -> own_step s (goto s i l) i.
Proof. intros Hinv Hi El Hl Hn Hp Hloc. apply goto_own; rewrite ?El; done. Qed.

Lemma run_ret (s : hsm) (i rc : Z) : hsm_inv s -> 0 <= i < table -> hm_at s i = Run -> own_step s (ret s i rc Run) i.
Proof.
  intros Hinv Hi El. apply ret_own, run_goto; try done. pose proof (hi_loc s Hinv i Hi) as Hl. by rewrite El in Hl.
Qed.

Lemma run_store (s : hsm) (i v : Z) (l : loc) :
  hsm_inv s -> 0 <= i < table -> hm_at s i = Run -> in_lock l = false -> l <> WaitWfi ->
  (forall b ph, l <> Boot b ph) ->
  loc_inv l ((hart_at s i) <| h_hsm_state := v |>) (hm_asked s i) (hm_entered s i) ->
  own_step s (goto (store s i v) i l) i.
Proof.
  intros Hinv Hi El Hl Hn Hp Hloc. pose proof (hi_loc s Hinv i Hi) as H. rewrite El in H.
  apply store_own; rewrite ?El; try done; [by intros b ph E%Hp|]. unfold hsm_state. by destruct H as [-> _].
Qed.

Lemma boot_call_own (s : hsm) (i t : Z) (x : start) :
  hsm_inv s -> 0 <= i < table -> hm_at s i = Run -> 0 <= t -> own_step s (hsm_hart_boot_call s i t x false) i.
Proof.
  intros Hinv Hi El Ht. unfold hsm_hart_boot_call.
  destruct (hart_index_valid ht_ids (hm_harts s) t) eqn:Ev; [|by apply run_ret].
  destruct env_ipi_available eqn:Ei; [|by apply run_ret]. cbn [negb].
  apply run_goto; try done; [by intros b ph [= _ <-]|].
  pose proof (hi_loc s Hinv i Hi) as H. rewrite El in H. destruct H. cbn. split_and!; try done.
  unfold hart_index_valid in Ev. apply andb_prop in Ev as [Ev _]. apply Z.ltb_lt in Ev. done.
Qed.

(** The hart with an id, if it is in the table. *)
Lemma hart_get_at (s : hsm) (hartid : Z) (h : hart) :
  hsm_inv s -> hart_get ht_ids (hm_harts s) hartid = Some h -> 0 <= h_index h < table.
Proof.
  intros Hinv H. unfold hart_get in H. destruct (Z.ltb_spec (boot_hart_index ht_ids hartid) 0) as [|Hge]; [done|].
  set (k := boot_hart_index ht_ids hartid) in *. pose proof (lookup_lt_Some _ _ _ H) as Hlt.
  pose proof (hi_len s Hinv) as Hlen. assert (0 <= k < table) as Hk by lia.
  destruct (hi_hart s Hinv k Hk) as [_ Hi]. unfold hart_at, harts_at in Hi. rewrite H in Hi. cbn in Hi. lia.
Qed.

Lemma start_own (s : hsm) (i hartid entry arg : Z) (v : domain_view) :
  hsm_inv s -> 0 <= i < table -> hm_at s i = Run -> own_step s (hsm_hart_start s i hartid entry arg v) i.
Proof.
  intros Hinv Hi El. unfold hsm_hart_start.
  destruct (hart_get ht_ids (hm_harts s) hartid) as [h|] eqn:Eg; [|by apply run_ret].
  destruct (negb (hart_valid ht_ids (hm_harts s) hartid) || negb (v_member v (h_index h))); [by apply run_ret|].
  destruct (negb (v_assigned v (h_index h))); [by apply run_ret|].
  destruct (negb (v_entry_ok v entry)); [by apply run_ret|]. apply boot_call_own; try done.
  apply hart_get_at in Eg; [lia|done].
Qed.

Lemma suspend_call_own (s : hsm) (i type addr arg : Z) (tell : bool) (v : domain_view) :
  hsm_inv s -> 0 <= i < table -> hm_at s i = Run -> own_step s (hart_suspend_call s i type addr arg tell v) i.
Proof.
  intros Hinv Hi El. pose proof (hi_loc s Hinv i Hi) as Hl. rewrite El in Hl. destruct Hl as [Est Ee].
  unfold hart_suspend_call. destruct (truth (hsm_suspend_type_check type)); [by apply run_ret|].
  destruct (negb (is_retentive type) && negb (v_entry_ok v addr)); [by apply run_ret|]. unfold hsm_transition, hsm_state. rewrite Est. cbn [Z.eqb].
  apply run_store; try done. 
Qed.

Lemma system_own (s s' : hsm) (i : Z) (y : system_call) (c : choice) :
  hsm_inv s -> 0 <= i < table -> hm_at s i = SysSuspend y -> hsm_system_suspend s i y c = Some s' -> own_step s s' i.
Proof.
  intros Hinv Hi El H. pose proof (hi_loc s Hinv i Hi) as Hl. rewrite El in Hl. destruct Hl as [Est Ee].
  assert (forall l, match l with Run | SysSuspend _ => True | _ => False end -> own_step s (goto s i l) i) as Hgo.
  { intros l Hl. apply goto_own; rewrite ?El; try done; by destruct l. }
  assert (forall rc, own_step s (ret s i rc Run) i) as Hret by (intros rc; by apply ret_own, Hgo).
  unfold hsm_system_suspend in H. destruct c; try no_choice.
  - destruct (CONFIG_PLATFORM_HART_COUNT <=? ss_next y); [no_choice|].
    destruct (_ || _ || _); [injection H as <-; by apply Hgo|].
    destruct (v_assigned (ss_view y) (ss_next y)); injection H as <-; [apply Hret|by apply Hgo].
  - destruct (ss_next y <? CONFIG_PLATFORM_HART_COUNT); [no_choice|].
    destruct (v_parked (ss_view y)); [injection H as <-; apply Hret|].
    destruct (ss_alone y && truth rc); [injection H as <-; apply Hret|]. injection H as <-.
    unfold hart_suspend_call. destruct (truth (hsm_suspend_type_check _)); [apply Hret|].
    destruct (negb _ && negb _); [apply Hret|]. unfold hsm_transition, hsm_state. rewrite Est. cbn [Z.eqb].
    apply store_own; rewrite ?El; try done. unfold hsm_state. by rewrite Est.
Qed.

Lemma call_own (s s' : hsm) (i : Z) (c : choice) :
  hsm_inv s -> 0 <= i < table -> calm s i c -> hm_at s i = Run -> hsm_call s i false c = Some s' -> own_step s s' i.
Proof.
  intros Hinv Hi Hc El H. pose proof (hi_loc s Hinv i Hi) as Hl. rewrite El in Hl. destruct Hl as [Est Ee].
  unfold hsm_call in H. destruct c; try no_choice; injection H as <-.
  - by apply boot_call_own.
  - by apply start_own.
  - unfold hsm_hart_stop, hsm_transition, hsm_state. rewrite Est. cbn [Z.eqb]. by apply run_store.
  - by apply run_store.
  - by apply suspend_call_own.
  - unfold hsm_system_suspend_call. destruct (negb _); [by apply run_ret|].
    destruct (negb (v_entry_ok v addr)); [by apply run_ret|]. by apply run_goto.
  - unfold kick. destruct (_ && _); split; fields_of; intros; rewrite ?El in *; try done.
    unfold fset. by case_decide.
Qed.

(** [hart_init], of a hart that is back: its state stays. *)
Lemma hart_init_back (hs : list hart) (i top size misa : Z) (h : hart) :
  0 <= i < table -> hs !! Z.to_nat i = Some h -> h_present h <> 0 ->
  exists h', hart_init ht_ids hs top size misa (hart_id_of ht_ids i) = <[Z.to_nat i := h']> hs /\
    h_present h' = 1 /\ h_index h' = i /\ h_hsm_state h' = h_hsm_state h /\ start_of h' = start_of h.
Proof.
  intros Hi Hh Hp. unfold hart_init. change boot_hart_index with hart_index. rewrite hart_id_of_index, Hh by done.
  apply truth_true in Hp. destruct h. unfold field_update. cbn in *. rewrite Hp. cbn. eexists. split; [reflexivity|]. done.
Qed.

Lemma entry_own (s : hsm) (i : Z) :
  hsm_inv s -> 0 <= i < table -> hm_at s i = Entry -> own_step s (image_secondary_main s i) i.
Proof.
  intros Hinv Hi El. pose proof (hi_loc s Hinv i Hi) as Hl. rewrite El in Hl. destruct Hl as [Est Ea].
  pose proof (hi_len s Hinv) as Hlen. destruct (hi_hart s Hinv i Hi) as [Hp Hx]. unfold hart_at, harts_at in *.
  destruct (lookup_lt_is_Some_2 (hm_harts s) (Z.to_nat i)) as [h Hh]; [lia|].
  rewrite Hh in *. cbn [default from_option id] in *. unfold image_secondary_main.
  destruct (hart_init_back (hm_harts s) i env_stack_top env_stack_size (env_misa i) h) as (h' & -> & H1 & H2 & H3 & H4); [done..|].
  split; fields_of; unfold harts_at; try done; intros; rewrite ?length_insert, ?list_lookup_insert_ne by lia;
    rewrite ?fset_eq in *; rewrite ?fset_ne by done; rewrite ?list_lookup_insert_eq by lia; rewrite ?El, ?Hh in *; cbn in *; try done.
  - split; [lia|done].
  - exfalso. rewrite Est in H. done.
  - left. split; congruence.
Qed.

(** Every step that is not one of [hsm_hart_boot]'s. *)
Lemma other_own (s s' : hsm) (i : Z) (c : choice) :
  hsm_inv s -> 0 <= i < table -> calm s i c -> hsm_step s i c = Some s' ->
  (forall b ph, hm_at s i <> Boot b ph) -> own_step s s' i.
Proof.
  intros Hinv Hi Hc H Hn. pose proof (hi_loc s Hinv i Hi) as Hl. unfold hsm_step in H.
  destruct (hm_at s i) eqn:El; try done;
    try (by apply (enter_own s s' i c)); try (by apply (wait_own s s' i c));
    try (by apply (wait_loop_own s s' i c)); try (by apply (suspend_own s s' i c)).
  - destruct c; try no_choice. injection H as <-. by apply goto_own; rewrite ?El.
  - destruct c; try no_choice. injection H as <-. by apply entry_own.
  - destruct c; try (by eapply wait_loop_own). cbn [calm] in Hc. congruence.
  - destruct c; try no_choice. injection H as <-. destruct Hl as [Est Ea].
    apply store_own; rewrite ?El; try done; [unfold hsm_state; by rewrite Est|]. split; [by right|done].
  - by apply (call_own s s' i c).
  - by destruct (Hn b ph).
  - destruct c; try no_choice. injection H as <-. apply goto_own; rewrite ?El; try done. by right.
  - by apply (system_own s s' i y c).
  - destruct c; try (by eapply suspend_own). cbn [calm] in Hc. injection H as <-.
    rewrite Hc in El. injection El as <-. by apply goto_own; rewrite ?Hc.
Qed.

(** ** The steps of [hsm_hart_boot] *)

Lemma target_inv_unlocked (b : boot_call) (ph : boot_phase) (h : hart) :
  in_lock (Boot b ph) = false -> target_inv b ph h.
Proof. destruct ph; done. Qed.

Lemma will_kick_target (l : loc) (t : Z) :
  will_kick l t = true -> exists b ph, l = Boot b ph /\ b_target b = t.
Proof.
  destruct l as [| | | | | | | | | | | | | | |b ph| | | | | | |]; try done. destruct ph; try done; cbn;
    rewrite ?andb_true_iff, ?Z.eqb_eq; naive_solver.
Qed.

(** Only a hart in its wait loop is STOPPED. *)
Lemma stopped_waits (s : hsm) (t : Z) :
  hsm_inv s -> 0 <= t < table -> hsm_state s t = SBI_HSM_STATE_STOPPED ->
  forall h a e, h_hsm_state h = SBI_HSM_STATE_STOPPED \/
                h_hsm_state h = SBI_HSM_STATE_START_PENDING /\ start_of h = a ->
  loc_inv (hm_at s t) h a e.
Proof.
  intros Hinv Ht Hst h a e Hh. pose proof (hi_loc s Hinv t Ht) as Hl. unfold hsm_state in Hst.
  destruct (hm_at s t); cbn [loc_inv] in *; rewrite ?Hst in Hl; try done;
    try (destruct Hl as [? _]; done); try (destruct Hl as [[? _]|?]; done); try (destruct Hl as [[?|?] _]; done).
Qed.

(** A step of [hsm_hart_boot] by hart [i], which goes to [l]; the target's
    words are [h] then, and its request is [x]. *)
Record boot_step (s s' : hsm) (i : Z) (b : boot_call) (ph : boot_phase) (l : loc) (h : hart) (x : start) : Prop := {
  bs_len : length (hm_harts s') = length (hm_harts s);
  bs_hart j : 0 <= j -> hart_at s' j = if decide (j = b_target b) then h else hart_at s j;
  bs_at j : hm_at s' j = if decide (j = i) then l else hm_at s j;
  bs_asked j : hm_asked s' j = if decide (j = b_target b) then x else hm_asked s j;
  bs_entered j : hm_entered s' j = hm_entered s j;
  bs_others j : j <> i -> hm_lock s' = Some j <-> hm_lock s = Some j;
  bs_lock : in_lock l = true <-> hm_lock s' = Some i;
  bs_line j : hm_line s j = true -> hm_line s' j = true;
  (* the caller goes on, or is done *)
  bs_caller : l = Run \/ exists ph', l = Boot b ph' /\ target_inv b ph' h;
  (* the target is as it was, or was stopped, and in the lock *)
  bs_target :
    h = hart_at s (b_target b) /\ x = hm_asked s (b_target b) \/
    in_lock (Boot b ph) = true /\ hsm_state s (b_target b) = SBI_HSM_STATE_STOPPED /\
    h_present h = h_present (hart_at s (b_target b)) /\ h_index h = h_index (hart_at s (b_target b)) /\
    (h_hsm_state h = SBI_HSM_STATE_STOPPED \/
     h_hsm_state h = SBI_HSM_STATE_START_PENDING /\ start_of h = x /\ will_kick l (b_target b) = true);
  (* a kick that was due is sent, or still is *)
  bs_kick : will_kick (Boot b ph) (b_target b) = true -> will_kick l (b_target b) = true \/ hm_line s' (b_target b) = true;
}.

Lemma boot_step_inv (s s' : hsm) (i : Z) (b : boot_call) (ph : boot_phase) (l : loc) (h : hart) (x : start) :
  hsm_inv s -> 0 <= i < table -> hm_at s i = Boot b ph -> boot_step s s' i b ph l h x -> hsm_inv s'.
Proof.
  intros Hinv Hi El [Bl Bh Ba Bas Be Bo Bk Bli Bc Bt Bki].
  pose proof (hi_loc s Hinv i Hi) as Hl. rewrite El in Hl. destruct Hl as (Est & Een & Emain & Ht & Eipi).
  set (t := b_target b) in *.
  assert (h = hart_at s t /\ x = hm_asked s t \/ t <> i) as Hti.
  { destruct Bt as [Bt|(_ & Hst & _)]; [by left|right]. intros E. unfold hsm_state in Hst. rewrite E, Est in Hst. done. }
  assert (loc_inv l (hart_at s i) (hm_asked s i) (hm_entered s i)) as Hli.
  { destruct Bc as [->|(ph' & -> & _)]; cbn; done. }
  split.
  - rewrite Bl. apply Hinv.
  - intros j Hj. rewrite Bh by lia. destruct (hi_hart s Hinv j Hj) as [Hp Hx]. case_decide as E; [|done]. subst j.
    destruct Bt as [[-> _]|(_ & _ & -> & -> & _)]; done.
  - intros j Hj. rewrite Bh, Ba, Bas, Be by lia. pose proof (hi_loc s Hinv j Hj) as Hlj.
    destruct (decide (j = t)) as [->|Hjt].
    + destruct Bt as [[-> ->]|(_ & Hst & _ & _ & Hh)]; [by case_decide; simplify_eq|].
      destruct Hti as [[-> ->]|Hti]; [by rewrite decide_False by (intros ->; unfold hsm_state in Hst; rewrite Est in Hst; done)|].
      rewrite decide_False by done. apply (stopped_waits s t Hinv Ht Hst). naive_solver.
    + case_decide; simplify_eq; done.
  - intros j Hj. rewrite Ba. case_decide as E; [by subst j|]. rewrite Bo by done. apply (hi_lock s Hinv j Hj).
  - intros j b' ph' Hj E. rewrite Ba in E. case_decide as Ej.
    + subst j. destruct Bc as [->|(ph2 & -> & Hti')]; [done|]. injection E as <- <-. rewrite Bh, decide_True by lia. done.
    + pose proof (hi_target s Hinv j b' ph' Hj E) as Htj. pose proof (hi_loc s Hinv j Hj) as Hlj.
      rewrite E in Hlj. destruct Hlj as (_ & _ & _ & Hb' & _). rewrite Bh by lia. case_decide as Eb; [|done].
      destruct Bt as [[-> _]|(Hin & _)]; [by rewrite <- Eb|]. apply target_inv_unlocked.
      rewrite <- El in Hin. apply (hi_lock s Hinv i Hi) in Hin. destruct (in_lock (Boot b' ph')) eqn:Hin'; [|done].
      rewrite <- E in Hin'. apply (hi_lock s Hinv j Hj) in Hin'. congruence.
  - intros j Hj E Hst Hline. rewrite Ba in E.
    case_decide as Ej; [subst l; destruct Bc as [?|(? & ? & _)]; done|].
    assert (hm_line s j = false) as Hline0 by (destruct (hm_line s j) eqn:E0; [by rewrite Bli in Hline|done]).
    assert (exists k, 0 <= k < table /\ (k = i -> will_kick l j = true) /\ (k <> i -> will_kick (hm_at s k) j = true)) as (k & Hk & H1 & H2).
    { unfold hsm_state in Hst. rewrite Bh in Hst by lia.
      assert (hsm_state s j = SBI_HSM_STATE_START_PENDING \/ j = t /\ will_kick l j = true) as [Hst0|[-> Hw]].
      { case_decide as Ejt; [subst j|by left]. destruct Bt as [[-> _]|(_ & _ & _ & _ & [Hs|(_ & _ & Hw)])]; [by left| |by right].
        rewrite Hs in Hst. done. }
      - destruct (hi_kick s Hinv j Hj E Hst0 Hline0) as (k & Hk & Hw). exists k. split; [done|]. split; [|done].
        intros ->. rewrite El in Hw. destruct (will_kick_target _ _ Hw) as (b2 & ph2 & [= <- <-] & Etj).
        fold t in Etj. subst j. destruct (Bki Hw) as [?|?]; [done|congruence].
      - exists i. done. }
    exists k. split; [done|]. rewrite Ba. case_decide; auto.
Qed.
End Steps.
