(* ===== verification/HsmTheorems.v ===== *)
(** The theorems on hart state management, from the invariant of
    [HsmProps.v]; and the runs the invariant's conditions leave out. *)

From S2P Require Import Prelude Arch Csr Bitstring Hart Hsm HsmProps.

#[local] Open Scope Z_scope.
#[local] Set Warnings "-clear-no-such-hyp".

Section HsmTheorems.
Context {AR : Arch} {KC : Kconfig} {HT : HartTable} {HV : HsmEnv}.
Abbreviation table := (hart_table_size ht_ids).

(** A step of [hsm_hart_boot] that leaves the target's words alone. *)
Lemma boot_same (s s' : hsm) (i : Z) (b : boot_call) (ph : boot_phase) (l : loc) :
  hsm_inv s -> 0 <= i < table -> hm_at s i = Boot b ph ->
  hm_harts s' = hm_harts s -> hm_asked s' = hm_asked s -> hm_entered s' = hm_entered s ->
  hm_at s' = fset (hm_at s) i l ->
  (forall j, j <> i -> hm_lock s' = Some j <-> hm_lock s = Some j) -> (in_lock l = true <-> hm_lock s' = Some i) ->
  (forall j, hm_line s j = true -> hm_line s' j = true) ->
  (l = Run \/ exists ph', l = Boot b ph' /\ target_inv b ph' (hart_at s (b_target b))) ->
  (will_kick (Boot b ph) (b_target b) = true ->
   will_kick l (b_target b) = true \/ hm_line s' (b_target b) = true) ->
  hsm_inv s'.
Proof.
  intros Hinv Hi El Eh Ea Ee Eat Ho Hl Hli Hc Hk.
  apply (boot_step_inv s s' i b ph l (hart_at s (b_target b)) (hm_asked s (b_target b))); try done.
  split; try done.
  - by rewrite Eh.
  - intros j Hj. unfold hart_at. rewrite Eh. by case_decide; subst.
  - intros j. by rewrite Eat.
  - intros j. rewrite Ea. by case_decide; subst.
  - intros j. by rewrite Ee.
  - by left.
Qed.

(** One that writes a word of the target's, in the lock. *)
Lemma boot_write (s : hsm) (i : Z) (b : boot_call) (ph ph' : boot_phase) (f : hart -> hart) :
  hsm_inv s -> 0 <= i < table -> hm_at s i = Boot b ph -> in_lock (Boot b ph) = true -> in_lock (Boot b ph') = true ->
  will_kick (Boot b ph) (b_target b) = false ->
  hsm_state s (b_target b) = SBI_HSM_STATE_STOPPED ->
  (forall h, h_present (f h) = h_present h /\ h_index (f h) = h_index h /\ h_hsm_state (f h) = h_hsm_state h) ->
  target_inv b ph' (f (hart_at s (b_target b))) ->
  hsm_inv (goto (hart_update s (b_target b) f) i (Boot b ph')).
Proof.
  intros Hinv Hi El Hin Hin' Hw Hst Hf Ht.
  pose proof (hi_loc s Hinv i Hi) as Hl. rewrite El in Hl. destruct Hl as (_ & _ & _ & Hb & _).
  pose proof (hi_len s Hinv) as Hlen. destruct (Hf (hart_at s (b_target b))) as (Hp & Hx & Hs).
  apply (boot_step_inv s _ i b ph (Boot b ph') (f (hart_at s (b_target b))) (hm_asked s (b_target b))); try done.
  split; fields_of; try done.
  - by rewrite length_alter.
  - intros j Hj. by rewrite harts_at_alter by lia.
  - intros j. by case_decide; subst.
  - rewrite <- El in Hin. pose proof (hi_lock s Hinv i Hi) as Hlk. tauto.
  - right. by exists ph'.
  - right. split_and!; try done. left. congruence.
  - congruence.
Qed.

Lemma boot_inv (s s' : hsm) (i : Z) (b : boot_call) (ph : boot_phase) (c : choice) :
  hsm_inv s -> 0 <= i < table -> calm s i c -> hm_at s i = Boot b ph ->
  hsm_hart_boot s i b ph c = Some s' -> hsm_inv s'.
Proof.
  intros Hinv Hi Hc El H. pose proof (hi_loc s Hinv i Hi) as Hl. rewrite El in Hl.
  destruct Hl as (Est & Een & Emain & Ht & Eipi). pose proof (hi_len s Hinv) as Hlen.
  pose proof (hi_target s Hinv i b ph Hi El) as Hti. pose proof (hi_lock s Hinv i Hi) as Hlk. rewrite El in Hlk.
  unfold hsm_hart_boot in H. rewrite Emain in H.
  destruct ph as [| |st| | | | |st|st|]; destruct c as [| |[]| | | | | | | | | | | | |]; try discriminate H.
  - destruct (hm_lock s) eqn:Elo; [done|]. injection H as <-.
    apply (boot_same s _ i b BLock (Boot b BLoad)); try done.
    + intros j Hj. cbn. rewrite Elo. split; [by intros [= ->]|done].
    + right. by eexists.
  - injection H as <-. apply (boot_same s _ i b BLoad (Boot b (BCheck (hsm_state s (b_target b))))); try done.
    right. eexists. split; [done|]. by intros ?.
  - injection H as <-. apply (boot_same s _ i b (BCheck st) Run); try done; [|by left].
    intros j Hj. cbn. assert (hm_lock s = Some i) as -> by (by apply Hlk). split; [done|by intros [= ->]].
  - destruct (Z.eqb_spec st SBI_HSM_STATE_STOPPED) as [->|Hne]; injection H as <-.
    + apply (boot_same s _ i b (BCheck SBI_HSM_STATE_STOPPED) (Boot b BAddr)); try done. right. eexists. split; [done|]. by apply Hti.
    + apply (boot_same s _ i b (BCheck st) (Boot b (BUnlock st))); try done. right. by eexists.
  - injection H as <-. by apply (boot_write s i b BAddr BArg).
  - injection H as <-. destruct Hti as [? ?]. by apply (boot_write s i b BArg BMode).
  - injection H as <-. destruct Hti as (? & ? & ?). apply (boot_write s i b BMode BPend); try done.
    split; [done|]. unfold start_of, field_update. cbn. destruct (b_start b). cbn in *. congruence.
  - injection H as <-. destruct Hti as [Hst Hx].
    apply (boot_step_inv s _ i b BPend (Boot b (BUnlock SBI_HSM_STATE_STOPPED))
             ((hart_at s (b_target b)) <| h_hsm_state := SBI_HSM_STATE_START_PENDING |>) (b_start b)); try done.
    split; fields_of; try done.
    + by rewrite length_alter.
    + intros j Hj. by rewrite harts_at_alter by lia.
    + right. by eexists.
    + right. split_and!; try done. right. split_and!; try done. cbn. by rewrite Z.eqb_refl.
  - injection H as <-. apply (boot_same s _ i b (BUnlock st) (Boot b (BDone st))); try done.
    + intros j Hj. cbn. assert (hm_lock s = Some i) as -> by (by apply Hlk). split; [done|by intros [= ->]].
    + right. by eexists.
    + by left.
  - cbn [calm] in Hc. rewrite El in Hc. subst rc. destruct (Z.eqb_spec st SBI_HSM_STATE_STOPPED) as [->|Hne]; cbn [negb] in H.
    + rewrite andb_false_r in H. injection H as <-. apply (boot_same s _ i b (BDone SBI_HSM_STATE_STOPPED) (Boot b BKick)); try done.
      * right. by eexists.
      * left. cbn. by rewrite Z.eqb_refl.
    + injection H as <-. apply (boot_same s _ i b (BDone st) Run); try done; [by left|].
      cbn. apply Z.eqb_neq in Hne as ->. by rewrite andb_false_r.
  - injection H as <-. unfold kick. destruct Ht as [_ Ht]. apply Z.ltb_lt in Ht. rewrite Eipi, Ht. cbn [andb].
    apply (boot_same s _ i b BKick Run); try done; [|by left|].
    + intros j Hj. cbn. unfold fset. by case_decide.
    + right. cbn. unfold fset. by rewrite decide_True.
Qed.

Lemma hsm_step_inv (s s' : hsm) (i : Z) (c : choice) :
  hsm_inv s -> 0 <= i < table -> calm s i c -> hsm_step s i c = Some s' -> hsm_inv s'.
Proof.
  intros Hinv Hi Hc H.
  destruct (hm_at s i) as [| | | | | | | | | | | | | | |b ph| | | | | | |] eqn:El;
    try (eapply (own_step_inv s s' i); [done| |done]; apply (other_own s s' i c); congruence || done).
  unfold hsm_step in H. rewrite El in H. by apply (boot_inv s s' i b ph c).
Qed.

Lemma hsm_runs_inv (s : hsm) : hsm_runs s -> hsm_inv s.
Proof. induction 1 as [s Hb|s i c s' _ IH Hi Hc H]; [by apply booted_inv|by apply (hsm_step_inv s s' i c)]. Qed.

(** ** The state diagram *)

(** The SBI's, with the ways out of a start, a suspend or a resume: the
    platform refuses the suspend, or the hart's domain is being stopped. *)
Definition hsm_edges : list (Z * Z) :=
  [ (SBI_HSM_STATE_STOPPED, SBI_HSM_STATE_START_PENDING);
    (SBI_HSM_STATE_START_PENDING, SBI_HSM_STATE_STARTED);
    (SBI_HSM_STATE_STARTED, SBI_HSM_STATE_STOP_PENDING);
    (SBI_HSM_STATE_STOP_PENDING, SBI_HSM_STATE_STOPPED);
    (SBI_HSM_STATE_STARTED, SBI_HSM_STATE_SUSPEND_PENDING);
    (SBI_HSM_STATE_SUSPEND_PENDING, SBI_HSM_STATE_SUSPENDED);
    (SBI_HSM_STATE_SUSPENDED, SBI_HSM_STATE_RESUME_PENDING);
    (SBI_HSM_STATE_RESUME_PENDING, SBI_HSM_STATE_STARTED);
    (SBI_HSM_STATE_SUSPEND_PENDING, SBI_HSM_STATE_STARTED);
    (SBI_HSM_STATE_START_PENDING, SBI_HSM_STATE_STOP_PENDING);
    (SBI_HSM_STATE_RESUME_PENDING, SBI_HSM_STATE_STOP_PENDING);
    (SBI_HSM_STATE_SUSPENDED, SBI_HSM_STATE_STOP_PENDING) ].

Definition along (st st' : Z) : Prop := st' = st \/ (st, st') ∈ hsm_edges.

Definition all_along (s s' : hsm) : Prop := forall j, 0 <= j < table -> along (hsm_state s j) (hsm_state s' j).

Lemma along_refl (s s' : hsm) : hm_harts s' = hm_harts s -> all_along s s'.
Proof. intros E j Hj. left. unfold hsm_state, hart_at. by rewrite E. Qed.

Lemma along_store (s s' : hsm) (i : Z) (f : hart -> hart) :
  hm_harts s' = alter f (Z.to_nat i) (hm_harts s) -> hsm_inv s -> 0 <= i < table ->
  along (hsm_state s i) (h_hsm_state (f (hart_at s i))) -> all_along s s'.
Proof.
  intros E Hinv Hi Ha j Hj. unfold hsm_state, hart_at in *. rewrite E, harts_at_alter.
  - case_decide; [by subst|by left].
  - pose proof (hi_len s Hinv). lia.
  - lia.
Qed.

Lemma edge (st st' : Z) : bool_decide ((st, st') ∈ hsm_edges) = true -> along st st'.
Proof. intros H. right. by apply bool_decide_eq_true in H. Qed.
End HsmTheorems.

(** An edge of the diagram, with the state the hart's location gives. *)
Ltac take_edge Hl :=
  unfold hsm_state, field_update; cbn [h_hsm_state];
  first [by left
        | rewrite Hl; apply edge; reflexivity
        | let E := fresh in destruct Hl as [E _]; rewrite E; apply edge; reflexivity
        | let E := fresh in destruct Hl as [[E|E] _]; rewrite E; apply edge; reflexivity ].
Ltac edge_step Hl :=
  first [ by apply along_refl
        | eapply along_store; [reflexivity|eassumption|eassumption|take_edge Hl] ].

Section Claims.
Context {AR : Arch} {KC : Kconfig} {HT : HartTable} {HV : HsmEnv}.
Abbreviation table := (hart_table_size ht_ids).

Lemma boot_along (s s' : hsm) (i : Z) (b : boot_call) (ph : boot_phase) (c : choice) :
  hsm_inv s -> 0 <= i < table -> calm s i c -> hm_at s i = Boot b ph ->
  hsm_hart_boot s i b ph c = Some s' -> all_along s s'.
Proof.
  intros Hinv Hi Hc El H. pose proof (hi_loc s Hinv i Hi) as Hl. rewrite El in Hl.
  destruct Hl as (_ & _ & Emain & Ht & _). pose proof (hi_target s Hinv i b ph Hi El) as Hti.
  unfold hsm_hart_boot in H. destruct ph as [| |st| | | | |st|st|]; destruct c as [| |[]| | | | | | | | | | | | |]; try discriminate H;
    try (injection H as <-; edge_step Hti).
  - destruct (hm_lock s); [done|]. injection H as <-. by apply along_refl.
  - cbn [calm] in Hc. rewrite El in Hc. subst rc. rewrite andb_false_r in H.
    destruct (negb _); injection H as <-; by apply along_refl.
  - injection H as <-. apply along_refl. unfold kick. by case_match.
Qed.

Lemma call_along (s s' : hsm) (i : Z) (c : choice) :
  hsm_inv s -> 0 <= i < table -> hm_at s i = Run -> hsm_call s i false c = Some s' -> all_along s s'.
Proof.
  intros Hinv Hi El H. pose proof (hi_loc s Hinv i Hi) as Hl. rewrite El in Hl.
  assert (forall t x, all_along s (hsm_hart_boot_call s i t x false)) as Hboot.
  { intros t x. unfold hsm_hart_boot_call. repeat case_match; by apply along_refl. }
  assert (hsm_state s i = SBI_HSM_STATE_STARTED) as Est by apply Hl.
  unfold hsm_call in H. destruct c; try discriminate H; injection H as <-.
  - apply Hboot.
  - unfold hsm_hart_start. repeat case_match; first [apply Hboot|by apply along_refl].
  - unfold hsm_hart_stop, hsm_transition. rewrite Est. cbn [Z.eqb]. edge_step Hl.
  - edge_step Hl.
  - unfold hart_suspend_call, hsm_transition. rewrite Est. repeat case_match; try (by apply along_refl); simplify_eq; edge_step Hl.
  - unfold hsm_system_suspend_call. repeat case_match; by apply along_refl.
  - apply along_refl. unfold kick. by case_match.
Qed.

(** A hart that is back finds its state as it left it. *)
Lemma entry_state (s : hsm) (i j : Z) :
  Z.of_nat (length (hm_harts s)) = table -> 0 <= i < table -> h_present (hart_at s i) <> 0 -> 0 <= j ->
  hsm_state (image_secondary_main s i) j = hsm_state s j.
Proof.
  intros Hlen Hi Hp Hj. unfold hsm_state, hart_at, harts_at, image_secondary_main in *. cbn.
  destruct (lookup_lt_is_Some_2 (hm_harts s) (Z.to_nat i)) as [h Hh]; [lia|]. rewrite Hh in Hp.
  destruct (hart_init_back (hm_harts s) i env_stack_top env_stack_size (env_misa i) h) as (h' & -> & _ & _ & Hst & _); [done..|].
  destruct (decide (j = i)) as [->|Hne].
  - rewrite list_lookup_insert_eq, Hh by lia. done.
  - rewrite list_lookup_insert_ne by lia. done.
Qed.

Lemma step_along (s s' : hsm) (i : Z) (c : choice) :
  hsm_inv s -> 0 <= i < table -> calm s i c -> hsm_step s i c = Some s' -> all_along s s'.
Proof.
  intros Hinv Hi Hc H. pose proof (hi_loc s Hinv i Hi) as Hl. unfold hsm_step in H.
  unfold hsm_hart_wait, hsm_wait_loop, hsm_hart_enter, hart_suspend, hsm_hart_stopped, hsm_resume_from_reset in H.
  destruct (hm_at s i) as [| | | | | | | | | | | | | | |b ph| |y| | | |[]|] eqn:El; try done;
    try (by apply (boot_along s s' i b ph c)); try (by apply (call_along s s' i c));
    destruct c as [| |?|[]| | | | | | | | | | | |]; try discriminate H; try discriminate Hc; try (injection H as <-; edge_step Hl).
  - injection H as <-. intros j Hj. left. apply entry_state; [apply Hinv|done|by apply Hinv|lia].
  - destruct (hm_line s i); [|discriminate H]. injection H as <-. by apply along_refl.
  - unfold hsm_system_suspend in H. repeat case_match; simplify_eq; by apply along_refl.
  - unfold hsm_system_suspend in H. assert (hsm_state s i = SBI_HSM_STATE_STARTED) as Est by apply Hl.
    unfold hart_suspend_call, hsm_transition in H. rewrite Est in H.
    repeat case_match; simplify_eq; first [by apply along_refl|edge_step Hl].
  - destruct (_ && _); injection H as <-; [edge_step Hl|by apply along_refl].
Qed.

(** the state diagram. Whatever the harts do at once, every store to the
    state of any hart takes it along an edge of the SBI's diagram. *)
Theorem hsm_state_diagram (s s' : hsm) (i : Z) (c : choice) :
  hsm_runs s -> 0 <= i < table -> calm s i c -> hsm_step s i c = Some s' ->
  forall j, 0 <= j < table -> along (hsm_state s j) (hsm_state s' j).
Proof. intros Hr Hi Hc H. apply (step_along s s' i c); try done. by apply hsm_runs_inv. Qed.

(** C9: a hart enters S-mode as it was asked to. On a machine whose platform
    starts the harts it is asked to and takes no stopped hart down, and where
    no hart goes on in another domain because its own is stopped ([calm]; else
    there is [hsm_left_suspended]), a hart that runs S-mode is
    STARTED, and was entered with the address, the argument and the mode of
    the last start, or resume, that was granted to it: all three of the same
    request, however many harts asked at once. *)
Theorem hsm_entered_as_asked (s : hsm) (i : Z) :
  hsm_runs s -> 0 <= i < table -> hm_at s i = Run ->
  hsm_state s i = SBI_HSM_STATE_STARTED /\ hm_entered s i = hm_asked s i.
Proof. intros Hr Hi El. pose proof (hi_loc s (hsm_runs_inv s Hr) i Hi) as Hl. by rewrite El in Hl. Qed.

(** ** A start that is granted gets there *)

(** Hart [t]'s own steps. *)
Definition own_go (t : Z) (n : nat) : list (Z * choice) := replicate n (t, Go).

Definition in_wait_loop (l : loc) : bool :=
  match l with WaitInit | WaitCheck | WaitWfi | WaitProc => true | _ => false end.

Lemma exec_go (s s' : hsm) (t : Z) (n : nat) :
  hsm_step s t Go = Some s' -> hsm_exec s (own_go t (S n)) = hsm_exec s' (own_go t n).
Proof. intros H. cbn. by rewrite H. Qed.

Lemma at_goto (s : hsm) (i : Z) (l : loc) : hm_at (goto s i l) i = l.
Proof. cbn. apply fset_eq. Qed.

(** The loads for [hart_enter_smode]. *)
Lemma enter_completes (s : hsm) (t : Z) :
  hm_at s t = EnterAddr ->
  exists s', hsm_exec s (own_go t 3) = Some s' /\ hm_at s' t = Run /\
    hm_harts s' = hm_harts s /\ hm_entered s' t = start_of (hart_at s t).
Proof.
  intros El.
  erewrite exec_go by (unfold hsm_step, hsm_hart_enter; rewrite El; reflexivity).
  erewrite exec_go by (unfold hsm_step, hsm_hart_enter; rewrite at_goto; reflexivity).
  erewrite exec_go by (unfold hsm_step, hsm_hart_enter; rewrite at_goto; reflexivity).
  eexists. split; [reflexivity|]. split; [apply at_goto|]. split; [reflexivity|]. cbn. apply fset_eq.
Qed.

(** From the check of the wait loop on. *)
Lemma check_completes (s : hsm) (t : Z) :
  Z.of_nat (length (hm_harts s)) = table -> 0 <= t < table ->
  hm_at s t = WaitCheck -> hsm_state s t = SBI_HSM_STATE_START_PENDING -> start_of (hart_at s t) = hm_asked s t ->
  exists s', hsm_exec s (own_go t 5) = Some s' /\ hm_at s' t = Run /\
    hsm_state s' t = SBI_HSM_STATE_STARTED /\ hm_entered s' t = hm_asked s t.
Proof.
  intros Hlen Ht El Est Ea.
  erewrite exec_go by (unfold hsm_step, hsm_wait_loop; rewrite El, Est; reflexivity).
  erewrite exec_go by (unfold hsm_step, hsm_hart_enter; rewrite at_goto; reflexivity).
  set (s1 := goto (store _ _ _) _ _).
  assert (hart_at s1 t = (hart_at s t) <| h_hsm_state := SBI_HSM_STATE_STARTED |>) as Eh.
  { unfold s1, hart_at. cbn. rewrite harts_at_alter, decide_True by (done || lia). done. }
  destruct (enter_completes s1 t) as (s' & E & Hat & Ehs & Een); [apply at_goto|]. exists s'. split; [exact E|].
  unfold hsm_state, hart_at in *. rewrite Ehs, Een, Eh, <- Ea. done.
Qed.

(** no start is lost. When a start has been granted to a hart in its wait
    loop, and the hart that granted it is done, the target gets to S-mode by
    its own steps, at most seven of them, with the arguments of the start:
    it sees the request before it sleeps, or the IPI gets it out of the WFI. *)
Theorem hsm_start_completes (s : hsm) (t : Z) :
  hsm_runs s -> 0 <= t < table -> in_wait_loop (hm_at s t) = true ->
  hsm_state s t = SBI_HSM_STATE_START_PENDING ->
  (forall i, 0 <= i < table -> will_kick (hm_at s i) t = false) ->
  exists n s', (n <= 7)%nat /\ hsm_exec s (own_go t n) = Some s' /\ hm_at s' t = Run /\
    hsm_state s' t = SBI_HSM_STATE_STARTED /\ hm_entered s' t = hm_asked s t.
Proof.
  intros Hr Ht Hw Est Hk. pose proof (hsm_runs_inv s Hr) as Hinv. pose proof (hi_loc s Hinv t Ht) as Hl.
  pose proof (hi_len s Hinv) as Hlen. unfold hsm_state in Est.
  assert (start_of (hart_at s t) = hm_asked s t) as Ea.
  { destruct (hm_at s t); try done; cbn in Hl; rewrite Est in Hl; by destruct Hl as [?|[_ ?]]. }
  assert (forall n s1, (n <= 2)%nat -> hsm_exec s (own_go t (n + 5)) = hsm_exec s1 (own_go t 5) ->
            hm_at s1 t = WaitCheck -> hm_harts s1 = hm_harts s -> hm_asked s1 = hm_asked s ->
            exists n s', (n <= 7)%nat /\ hsm_exec s (own_go t n) = Some s' /\ hm_at s' t = Run /\
              hsm_state s' t = SBI_HSM_STATE_STARTED /\ hm_entered s' t = hm_asked s t) as Hdone.
  { intros n s1 Hn E El Eh Eas. destruct (check_completes s1 t) as (s' & H1 & H2 & H3 & H4); unfold hsm_state, hart_at in *;
      rewrite ?Eh, ?Eas in *; try done. exists (n + 5)%nat, s'. split_and!; try done; [lia|congruence]. }
  destruct (hm_at s t) eqn:El; try done.
  - eapply (Hdone 1%nat); [lia| | | |].
    + apply exec_go. unfold hsm_step, hsm_wait_loop. rewrite El. reflexivity.
    + apply at_goto.
    + done.
    + done.
  - by apply (Hdone 0%nat s); [lia|..].
  - destruct (hm_line s t) eqn:Eli.
    2:{ destruct (hi_kick s Hinv t Ht El Est Eli) as (i & Hi & Hwk). rewrite Hk in Hwk by done. done. }
    eapply (Hdone 2%nat); [lia| | | |].
    + change (own_go t (2 + 5)) with (own_go t 7).
      erewrite exec_go by (unfold hsm_step, hsm_wait_loop; rewrite El, Eli; reflexivity).
      apply (exec_go _ _ t 5). unfold hsm_step, hsm_wait_loop. rewrite at_goto. reflexivity.
    + apply at_goto.
    + done.
    + done.
  - eapply (Hdone 1%nat); [lia| | | |].
    + apply exec_go. unfold hsm_step, hsm_wait_loop. rewrite El. reflexivity.
    + apply at_goto.
    + done.
    + done.
Qed.

(** ** Through the monitor's entry *)

(** a start that finds its hart powered down is lost. The platform brings
    such a hart back through the monitor's entry; it finds itself
    START_PENDING, and [hsm_hart_wait] makes that STOPPED: the hart waits,
    with its IPI acknowledged, for a start that has been granted already. *)
Theorem hsm_start_lost_at_entry (s : hsm) (t : Z) :
  Z.of_nat (length (hm_harts s)) = table -> 0 <= t < table -> h_present (hart_at s t) <> 0 ->
  hm_at s t = Entry -> hsm_state s t = SBI_HSM_STATE_START_PENDING ->
  exists s', hsm_exec s (own_go t 5) = Some s' /\ hm_at s' t = WaitWfi /\
    hsm_state s' t = SBI_HSM_STATE_STOPPED /\ hm_line s' t = false.
Proof.
  intros Hlen Ht Hp El Est.
  erewrite exec_go by (unfold hsm_step; rewrite El; reflexivity).
  set (s1 := image_secondary_main s t).
  assert (hsm_state s1 t = SBI_HSM_STATE_START_PENDING) as Est1 by (unfold s1; rewrite entry_state by (done || lia); done).
  assert (Z.of_nat (length (hm_harts s1)) = table) as Hlen1.
  { unfold s1, image_secondary_main, hart_init. cbn. case_match; [by rewrite length_insert|done]. }
  assert (hm_at s1 t = Wait) as Hat1 by (unfold s1; apply at_goto).
  erewrite exec_go by (unfold hsm_step, hsm_hart_wait; rewrite Hat1, Est1; reflexivity).
  erewrite exec_go by (unfold hsm_step, hsm_hart_wait; rewrite at_goto; reflexivity).
  erewrite exec_go by (unfold hsm_step, hsm_wait_loop; rewrite at_goto; reflexivity).
  set (s2 := goto (line _ _ _) _ _).
  assert (hsm_state s2 t = SBI_HSM_STATE_STOPPED) as Est2.
  { unfold s2. fields_of. rewrite harts_at_alter, decide_True by (done || lia). done. }
  assert (hm_at s2 t = WaitCheck) as Hat2 by (unfold s2; apply at_goto).
  erewrite exec_go by (unfold hsm_step, hsm_wait_loop; rewrite Hat2, Est2; reflexivity).
  eexists. split; [reflexivity|]. split; [apply at_goto|]. split; [exact Est2|]. unfold s2. fields_of. apply fset_eq.
Qed.

(** out of a suspend, into another domain. A hart that a domain entered
    from elsewhere suspends (non-retentively), and whose domain is stopped
    then, goes on in the domain it came from ([domain_stop_self]) with its
    state still SUSPENDED: its calls to stop or suspend fail from there on. *)
Theorem hsm_left_suspended (s : hsm) (t : Z) :
  hm_at s t = Sus false -> hsm_state s t = SBI_HSM_STATE_SUSPENDED ->
  exists s1 s2, hsm_step s t (Stop true) = Some s1 /\ hm_at s1 t = Run /\
    hsm_step s1 t CallStop = Some s2 /\ hm_ret s2 t = SBI_ERR_FAILED /\ hm_at s2 t = Run /\
    hsm_state s2 t = SBI_HSM_STATE_SUSPENDED.
Proof.
  intros El Est. exists (goto s t Run), (ret (goto s t Run) t SBI_ERR_FAILED Run).
  split; [unfold hsm_step, hart_suspend; rewrite El; reflexivity|]. split; [apply at_goto|]. split.
  - unfold hsm_step. rewrite at_goto. cbn [hsm_call]. unfold hsm_hart_stop, hsm_transition.
    change (hsm_state (goto s t Run) t) with (hsm_state s t). rewrite Est. reflexivity.
  - split; [cbn; apply fset_eq|]. split; [apply at_goto|exact Est].
Qed.

(** the suspend types. [hsm_suspend_type_check] takes the two default
    types always, the platform's 0x10000000 to 0x7fffffff and 0x90000000 to
    0xffffffff where there is a platform to take them, and nothing else. *)
Theorem hsm_suspend_type_check_spec (type : Z) :
  0 <= type ->
  let default := type = SBI_HSM_SUSPEND_RET_DEFAULT \/ type = SBI_HSM_SUSPEND_NON_RET_DEFAULT in
  let platform := 0x10000000 <= type < 0x80000000 \/ 0x90000000 <= type <= 0xffffffff in
  (hsm_suspend_type_check type = SBI_SUCCESS <-> default \/ platform /\ op op_hart_suspend = true) /\
  (hsm_suspend_type_check type = SBI_ERR_NOT_SUPPORTED <-> platform /\ op op_hart_suspend = false) /\
  (hsm_suspend_type_check type = SBI_ERR_INVALID_PARAM <-> ~ default /\ ~ platform).
Proof.
  intros Ht. cbv zeta. unfold hsm_suspend_type_check, SBI_HSM_SUSPEND_RET_DEFAULT, SBI_HSM_SUSPEND_RET_PLATFORM,
    SBI_HSM_SUSPEND_NON_RET_DEFAULT, SBI_HSM_SUSPEND_NON_RET_PLATFORM, SBI_SUCCESS, SBI_ERR_NOT_SUPPORTED, SBI_ERR_INVALID_PARAM.
  destruct (Z.ltb_spec 0xffffffff type), (Z.ltb_spec 0 type), (Z.ltb_spec type 0x10000000),
    (Z.ltb_spec 0x80000000 type), (Z.ltb_spec type 0x90000000), (Z.eqb_spec type 0), (Z.eqb_spec type 0x80000000);
    destruct (op op_hart_suspend); cbn [orb andb negb]; split_and!; (split; [intros; try discriminate|]); lia || (intros; exfalso; lia) || idtac.
Qed.

(** who can take an interrupt. The mask [hsm_interruptible_mask_of]
    fills has the harts of the domain that are STARTED or SUSPENDED, and no
    others, whatever it had before. *)
Theorem hsm_interruptible_mask_spec (s : hsm) (assigned : Z -> bool) (mask : hartmask) (i : Z) :
  hartmask_wf mask -> 0 <= i < CONFIG_PLATFORM_HART_COUNT ->
  hartmask_test (hsm_interruptible_mask_of s assigned mask) i = hsm_interruptible s assigned i.
Proof.
  intros Hwf Hi. unfold hsm_interruptible_mask_of. rewrite hartmask_clear_all_none by (done || lia).
  set (n := Z.to_nat CONFIG_PLATFORM_HART_COUNT).
  pose proof (for_upto_ind (fun k m => hartmask_wf m /\ forall i, 0 <= i ->
    hartmask_test m i = (i <? Z.of_nat k) && hsm_interruptible s assigned i) n
    (fun i mask => if hsm_interruptible s assigned i then hartmask_set mask i else mask) hartmask_none) as H.
  destruct H as [_ H].
  - split; [apply hartmask_none_wf; lia|]. intros k Hk. rewrite hartmask_test_none.
    destruct (Z.ltb_spec k (Z.of_nat 0)); [lia|done].
  - intros k m Hk [Hm IH]. unfold hartmask_set.
    assert (0 <= Z.of_nat k < CONFIG_PLATFORM_HART_COUNT) as Hk' by lia. split.
    + case_match; [|done]. by apply bit_set_wf.
    + intros j Hj. specialize (IH j Hj). unfold hartmask_test in *.
      destruct (hsm_interruptible s assigned (Z.of_nat k)) eqn:Ek.
      * rewrite (bit_test_set CONFIG_PLATFORM_HART_COUNT), IH by done.
        destruct (Z.eqb_spec (Z.of_nat k) j) as [<-|]; [rewrite Ek; by destruct (Z.ltb_spec (Z.of_nat k) (Z.of_nat (S k))); [|lia]|].
        destruct (Z.ltb_spec j (Z.of_nat k)), (Z.ltb_spec j (Z.of_nat (S k))); try done; lia.
      * rewrite IH. destruct (Z.eq_dec (Z.of_nat k) j) as [<-|]; [rewrite Ek; by rewrite !andb_false_r|].
        destruct (Z.ltb_spec j (Z.of_nat k)), (Z.ltb_spec j (Z.of_nat (S k))); try done; lia.
  - rewrite H by lia. destruct (Z.ltb_spec i (Z.of_nat n)); [done|lia].
Qed.
End Claims.

(** * A machine with two harts *)

Module TwoHartsHsm.
#[local] Instance rv64 : Arch := RV64.
#[local] Instance virt : Kconfig := qemu_virt.
#[local] Instance two : HartTable := {| ht_ids := [0; 1]; ht_nodup := two_harts_nodup |}.
#[local] Instance platform : HsmEnv := {|
  env_ops := Some (HsmOps true true true);
  env_ipi_available := true;
  env_stack_top := 0x80200000;
  env_stack_size := 0x2000;
  env_misa := fun _ => MISA_EXT_S;
|}.

Definition boot_args : start := Start 0x80200000 0x82000000 PRV_S.
Definition hart_of (i st : Z) : hart :=
  set_start (hart_zero <| h_hartid := i |> <| h_index := i |> <| h_present := 1 |> <| h_hsm_state := st |>) boot_args.

(** Hart 0 runs, hart 1 waits. *)
Definition booted : hsm := {|
  hm_harts := [hart_of 0 SBI_HSM_STATE_STARTED; hart_of 1 SBI_HSM_STATE_STOPPED];
  hm_lock := None;
  hm_line := fun _ => false;
  hm_at := fun i => if decide (i = 0) then Run else WaitInit;
  hm_ret := fun _ => 0;
  hm_asked := fun _ => boot_args;
  hm_entered := fun _ => boot_args;
|}.

Lemma table_cases (P : Z -> Prop) : P 0 -> P 1 -> forall i, 0 <= i < hart_table_size ht_ids -> P i.
Proof.
  intros H0 H1 i Hi. change (hart_table_size ht_ids) with 2 in Hi. assert (i = 0 \/ i = 1) as [-> | ->] by lia; done.
Defined.

Lemma booted_ok : hsm_booted booted.
Proof.
  split; [reflexivity| |reflexivity|].
  - apply table_cases; split; done.
  - apply table_cases; [right; split_and!; reflexivity|left; split; reflexivity].
Defined.

Definition all_ok : domain_view := DomainView (fun _ => true) (fun _ => true) (fun _ => true) false true.
Definition asked : start := Start 0x80400000 7 PRV_S.

(** Hart 0 starts hart 1, which sleeps meanwhile. *)
Definition grant : list (Z * choice) :=
  [(1, Go); (1, Go); (0, CallStart 1 0x80400000 7 all_ok); (0, Go); (0, Go); (0, Told false);
   (0, Go); (0, Go); (0, Go); (0, Go); (0, Go); (0, Answer 0); (0, Go)].

Definition after (sched : list (Z * choice)) (s : hsm) : hsm := default s (hsm_exec s sched).
Definition granted : hsm := after grant booted.

Lemma exec_runs (s : hsm) (sched : list (Z * choice)) :
  hsm_runs s ->
  (forall k i c, sched !! k = Some (i, c) -> 0 <= i < 2 /\ match hsm_exec s (take k sched) with Some s => calm s i c | None => True end) ->
  hsm_runs (after sched s).
Proof.
  unfold after. revert s. induction sched as [|[i c] sched IH]; intros s Hr Hc; [done|]. cbn.
  destruct (hsm_step s i c) as [s'|] eqn:E; [|done].
  destruct (Hc 0%nat i c eq_refl) as [Hi Hcalm]. cbn in Hcalm.
  assert (hsm_runs s') as Hr' by exact (hr_step s i c s' Hr Hi Hcalm E). specialize (IH s' Hr').
  destruct (hsm_exec s' sched) as [s''|] eqn:E''; [|done]. apply IH.
  intros k j d Hk. specialize (Hc (S k) j d Hk). cbn in Hc. by rewrite E in Hc.
Qed.

Lemma granted_runs : hsm_runs granted.
Proof.
  apply exec_runs; [apply hr_booted, booted_ok|].
  intros k i c Hk. do 13 (destruct k as [|k]; [injection Hk as <- <-; split; [lia|exact I || reflexivity]|]). done.
Qed.

Lemma hsm_state_diagram_witness :
  hsm_state granted 1 = SBI_HSM_STATE_START_PENDING /\
  along (hsm_state granted 1) (hsm_state (after [(1, Go)] granted) 1).
Proof.
  split; [vm_compute; reflexivity|].
  apply (hsm_state_diagram granted (after [(1, Go)] granted) 1 Go granted_runs); [done|exact I| |done].
  unfold after. cbn [hsm_exec]. reflexivity.
Defined.

Lemma hsm_entered_as_asked_witness : hsm_state granted 0 = SBI_HSM_STATE_STARTED /\ hm_entered granted 0 = hm_asked granted 0.
Proof. apply (hsm_entered_as_asked granted 0 granted_runs); [done|vm_compute; reflexivity]. Defined.

Lemma hsm_start_completes_witness :
  hm_asked granted 1 = asked /\
  exists n s', (n <= 7)%nat /\ hsm_exec granted (own_go 1 n) = Some s' /\ hm_at s' 1 = Run /\ hm_entered s' 1 = asked.
Proof.
  assert (hm_asked granted 1 = asked) as Ea by (vm_compute; reflexivity). split; [exact Ea|].
  destruct (hsm_start_completes granted 1 granted_runs) as (n & s' & H1 & H2 & H3 & _ & H4).
  - done.
  - vm_compute. reflexivity.
  - vm_compute. reflexivity.
  - apply table_cases; vm_compute; reflexivity.
  - exists n, s'. split_and!; [exact H1|exact H2|exact H3|rewrite H4; exact Ea].
Defined.

(** The platform takes hart 1 down; a start is granted, and brings it back. *)
Definition power_cycle : list (Z * choice) :=
  take 2 grant ++ [(1, PowerDown)] ++ drop 2 grant ++ [(1, PowerUp)].
Definition cycled : hsm := after power_cycle booted.

Lemma hsm_start_lost_at_entry_witness :
  hm_ret cycled 0 = SBI_SUCCESS /\
  exists s', hsm_exec cycled (own_go 1 5) = Some s' /\ hm_at s' 1 = WaitWfi /\
    hsm_state s' 1 = SBI_HSM_STATE_STOPPED /\ hm_line s' 1 = false.
Proof.
  split; [vm_compute; reflexivity|].
  apply (hsm_start_lost_at_entry cycled 1); [vm_compute; reflexivity|done|vm_compute; discriminate|vm_compute; reflexivity|vm_compute; reflexivity].
Defined.

Definition sleep : list (Z * choice) :=
  [(0, CallSuspend SBI_HSM_SUSPEND_NON_RET_DEFAULT 0x80400000 7 all_ok); (0, Answer 0); (0, Go); (0, Go)].
Lemma hsm_left_suspended_witness :
  exists s1 s2, hsm_step (after sleep booted) 0 (Stop true) = Some s1 /\ hsm_step s1 0 CallStop = Some s2 /\
    hm_ret s2 0 = SBI_ERR_FAILED.
Proof.
  destruct (hsm_left_suspended (after sleep booted) 0) as (s1 & s2 & H1 & _ & H2 & H3 & _);
    [vm_compute; reflexivity|vm_compute; reflexivity|]. exists s1, s2. split; [exact H1|]. split; [exact H2|exact H3].
Defined.

Lemma hsm_suspend_type_check_spec_witness : hsm_suspend_type_check 0x7fffffff = SBI_SUCCESS.
Proof.
  destruct (hsm_suspend_type_check_spec 0x7fffffff) as [[_ H] _]; [done|]. apply H. right. split; [left; lia|reflexivity].
Defined.

Lemma hsm_interruptible_mask_spec_witness :
  hartmask_test (hsm_interruptible_mask_of granted (fun _ => true) hartmask_none) 0 = true.
Proof.
  rewrite (hsm_interruptible_mask_spec granted (fun _ => true) hartmask_none 0);
    [vm_compute; reflexivity|by apply hartmask_none_wf|done].
Defined.

(** a start the platform refuses may happen all the same. The target sees
    START_PENDING before the refusal comes back, and goes on; its state goes
    from START_PENDING to STOPPED and on to STARTED, while the caller is
    told that the start failed. *)
Theorem hsm_refused_start_enters :
  exists sched s, hsm_exec booted sched = Some s /\
    hm_ret s 0 = SBI_ERR_FAILED /\ hm_at s 1 = Run /\ hm_entered s 1 = asked.
Proof.
  exists ([(0, CallStart 1 0x80400000 7 all_ok); (0, Go); (0, Go); (0, Told false); (0, Go); (0, Go); (0, Go); (0, Go);
           (0, Go); (1, Go); (1, Go); (0, Answer SBI_ERR_FAILED); (1, Go); (1, Go); (1, Go); (1, Go)]).
  eexists. split; [vm_compute; reflexivity|]. split_and!; vm_compute; reflexivity.
Qed.
End TwoHartsHsm.
