(* ===== verification/Rfence.v ===== *)
(** Remote fences, [arch/riscv/runtime/rfence.c].

    - the fences of a request, as the instructions a hart executes
      ([fence_one], [fence_all], [fence_local]);
    - the queue of a hart, a ring of eight entries ([rfence_queue]), with
      the list it stands for;
    - the protocol ([rf_step]): requesters and targets at once, one step per
      section under a queue's lock, per access to a requester's count and per
      IPI. A hart looks at its queue only when it is interrupted, or waits
      itself. *)

From S2P Require Import Prelude Arch Bitstring Hart.

#[local] Open Scope Z_scope.

Definition PAGE_SIZE : Z := 4096.
Definition RFENCE_MAX_PAGES : Z := 64.
Definition RFENCE_QUEUE_LEN : Z := 8.

Inductive rfence_type : Set :=
| RFENCE_FENCE_I
| RFENCE_SFENCE_VMA
| RFENCE_SFENCE_VMA_ASID
| RFENCE_HFENCE_GVMA
| RFENCE_HFENCE_GVMA_VMID
| RFENCE_HFENCE_VVMA
| RFENCE_HFENCE_VVMA_ASID.

#[export] Instance rfence_type_eq_dec : EqDecision rfence_type.
Proof. solve_decision. Defined.

(** The types of the hypervisor extension: [type >= RFENCE_HFENCE_GVMA]. *)
Definition is_hfence (type : rfence_type) : bool :=
  match type with
  | RFENCE_HFENCE_GVMA | RFENCE_HFENCE_GVMA_VMID | RFENCE_HFENCE_VVMA | RFENCE_HFENCE_VVMA_ASID => true
  | _ => false
  end.

Record rfence_req : Set := RfenceReq { rq_type : rfence_type; rq_start : Z; rq_size : Z; rq_asid : Z }.

#[export] Instance rfence_req_eq_dec : EqDecision rfence_req.
Proof. solve_decision. Defined.

(** ** The instructions *)

(** [None] is x0: all addresses, or all address spaces. *)
Inductive fence_insn : Set :=
| FENCE_I
| SFENCE_VMA (addr asid : option Z)
| HFENCE_GVMA (addr vmid : option Z)
| HFENCE_VVMA (addr asid : option Z).

Section Fences.
Context {AR : Arch}.

Definition fence_one (req : rfence_req) (addr : Z) : list fence_insn :=
  let id := rq_asid req in
  match rq_type req with
  | RFENCE_SFENCE_VMA => [SFENCE_VMA (Some addr) None]
  | RFENCE_SFENCE_VMA_ASID => [SFENCE_VMA (Some addr) (Some id)]
  | RFENCE_HFENCE_GVMA => [HFENCE_GVMA (Some (Z.shiftr addr 2)) None]
  | RFENCE_HFENCE_GVMA_VMID => [HFENCE_GVMA (Some (Z.shiftr addr 2)) (Some id)]
  | RFENCE_HFENCE_VVMA => [HFENCE_VVMA (Some addr) None]
  | RFENCE_HFENCE_VVMA_ASID => [HFENCE_VVMA (Some addr) (Some id)]
  | RFENCE_FENCE_I => []
  end.

Definition fence_all (req : rfence_req) : list fence_insn :=
  let id := rq_asid req in
  match rq_type req with
  | RFENCE_SFENCE_VMA => [SFENCE_VMA None None]
  | RFENCE_SFENCE_VMA_ASID => [SFENCE_VMA None (Some id)]
  | RFENCE_HFENCE_GVMA => [HFENCE_GVMA None None]
  | RFENCE_HFENCE_GVMA_VMID => [HFENCE_GVMA None (Some id)]
  | RFENCE_HFENCE_VVMA => [HFENCE_VVMA None None]
  | RFENCE_HFENCE_VVMA_ASID => [HFENCE_VVMA None (Some id)]
  | RFENCE_FENCE_I => []
  end.

(** [for (off; off < size; off += PAGE_SIZE)] *)
Fixpoint fence_loop (fuel : nat) (req : rfence_req) (off : Z) : list fence_insn :=
  match fuel with
  | O => []
  | S fuel =>
      if off <? rq_size req
      then fence_one req (rq_start req +! off) ++ fence_loop fuel req (off +! PAGE_SIZE)
      else []
  end.

(** At most [RFENCE_MAX_PAGES] rounds, and the last look at the condition. *)
Definition fence_local (req : rfence_req) : list fence_insn :=
  if decide (rq_type req = RFENCE_FENCE_I) then [FENCE_I]
  else if (rq_start req =? 0) && (rq_size req =? 0) || (rq_size req =? unot 0) ||
          (RFENCE_MAX_PAGES * PAGE_SIZE <? rq_size req)
  then fence_all req
  else fence_loop (Z.to_nat RFENCE_MAX_PAGES + 1) req 0.

(** *** What they cover *)

Definition same_page (addr : option Z) (a : Z) : bool :=
  match addr with Some addr => addr / PAGE_SIZE =? a / PAGE_SIZE | None => true end.
(** Guest physical addresses go shifted right by 2. *)
Definition same_guest_page (addr : option Z) (a : Z) : bool :=
  match addr with Some addr => addr * 4 / PAGE_SIZE =? a / PAGE_SIZE | None => true end.

(** The fence a request is for, of the page of [a]. *)
Definition covers (req : rfence_req) (a : Z) (f : fence_insn) : bool :=
  match rq_type req, f with
  | RFENCE_FENCE_I, FENCE_I => true
  | RFENCE_SFENCE_VMA, SFENCE_VMA addr None => same_page addr a
  | RFENCE_SFENCE_VMA_ASID, SFENCE_VMA addr (Some id) => same_page addr a && (id =? rq_asid req)
  | RFENCE_HFENCE_GVMA, HFENCE_GVMA addr None => same_guest_page addr a
  | RFENCE_HFENCE_GVMA_VMID, HFENCE_GVMA addr (Some id) => same_guest_page addr a && (id =? rq_asid req)
  | RFENCE_HFENCE_VVMA, HFENCE_VVMA addr None => same_page addr a
  | RFENCE_HFENCE_VVMA_ASID, HFENCE_VVMA addr (Some id) => same_page addr a && (id =? rq_asid req)
  | _, _ => false
  end.

Lemma guest_page (x a : Z) : x / PAGE_SIZE = a / PAGE_SIZE -> same_guest_page (Some (Z.shiftr x 2)) a = true.
Proof.
  unfold same_guest_page, PAGE_SIZE. intros E. rewrite Z.shiftr_div_pow2 by lia. change (2 ^ 2) with 4.
  apply Z.eqb_eq. rewrite <- E. change 4096 with (4 * 1024). rewrite <- !Z.div_div by lia.
  by rewrite Z.div_mul by lia.
Qed.

Lemma fence_one_covers (req : rfence_req) (x a : Z) :
  rq_type req <> RFENCE_FENCE_I -> x / PAGE_SIZE = a / PAGE_SIZE -> existsb (covers req a) (fence_one req x) = true.
Proof.
  intros Ht E. unfold fence_one, covers. pose proof (guest_page x a E) as Hg. unfold same_page.
  destruct (rq_type req); cbn [existsb]; try done; rewrite ?E, ?Hg, ?Z.eqb_refl; done.
Qed.

Lemma fence_all_covers (req : rfence_req) (a : Z) :
  rq_type req <> RFENCE_FENCE_I -> existsb (covers req a) (fence_all req) = true.
Proof. intros Ht. unfold fence_all, covers. destruct (rq_type req); cbn; rewrite ?Z.eqb_refl; done. Qed.

Lemma fence_loop_covers (fuel : nat) (req : rfence_req) (off a : Z) :
  rq_type req <> RFENCE_FENCE_I -> rq_start req mod PAGE_SIZE = 0 -> off mod PAGE_SIZE = 0 ->
  0 <= off -> 0 <= rq_start req -> rq_start req + rq_size req <= 2 ^ XLEN -> rq_size req <= off + Z.of_nat fuel * PAGE_SIZE ->
  rq_size req <= RFENCE_MAX_PAGES * PAGE_SIZE ->
  rq_start req + off <= a < rq_start req + rq_size req ->
  existsb (covers req a) (fence_loop fuel req off) = true.
Proof.
  intros Ht Hs Ho H0 Hs0 Hx. revert off Ho H0. induction fuel as [|fuel IH]; intros off Ho H0 Hf Hsz Ha; [lia|].
  cbn [fence_loop]. destruct (Z.ltb_spec off (rq_size req)) as [Hlt|]; [|lia].
  pose proof XLEN_bounds as HX. assert (2 ^ 32 <= 2 ^ XLEN) as HX2 by (apply pow2_le; lia).
  unfold RFENCE_MAX_PAGES, PAGE_SIZE in *. change (2 ^ 32) with 4294967296 in HX2.
  rewrite existsb_app. unfold uadd. rewrite !wrap_small by (split; lia).
  destruct (Z.lt_ge_cases a (rq_start req + off + 4096)) as [Hp|Hp].
  - rewrite fence_one_covers; [done|done|]. unfold PAGE_SIZE. Z.to_euclidean_division_equations. lia.
  - rewrite IH; [by rewrite orb_true_r| | |lia|lia|lia]; [|lia].
    rewrite <- Z.add_mod_idemp_l, Ho by lia. done.
Qed.

(** a fence fences its range. For a range that starts on a page (or a
    request for everything), the instructions a hart executes for a request
    include the request's fence for every address of the range. *)
Theorem fence_local_covers (req : rfence_req) (a : Z) :
  is_ulong (rq_start req) -> is_ulong (rq_size req) -> rq_start req mod PAGE_SIZE = 0 ->
  rq_start req + rq_size req <= 2 ^ XLEN -> rq_start req <= a < rq_start req + rq_size req ->
  existsb (covers req a) (fence_local req) = true.
Proof.
  intros [Hs0 Hs1] [Hz0 Hz1] Hal Hx Ha. unfold fence_local. case_decide as Ei.
  { unfold covers. by rewrite Ei. }
  destruct (_ || _ || _) eqn:Eall; [by apply fence_all_covers|].
  apply orb_false_elim in Eall as [_ Hmax]. apply Z.ltb_ge in Hmax.
  apply fence_loop_covers; try done; unfold RFENCE_MAX_PAGES, PAGE_SIZE in *; lia.
Qed.

End Fences.

Lemma fence_local_covers_witness : existsb (covers (RfenceReq RFENCE_HFENCE_GVMA_VMID 0x1000 0x3000 5) 0x3abc)
  (@fence_local RV64 (RfenceReq RFENCE_HFENCE_GVMA_VMID 0x1000 0x3000 5)) = true.
Proof. apply (@fence_local_covers RV64); split || idtac; done. Defined.

(** the tail of a range that does not start on a page is missed. The walk
    goes in steps of a page from [start]: of the two pages of
    [0xfff, 0x1001) it fences the first only. *)
Theorem fence_local_misses_tail :
  let req := RfenceReq RFENCE_SFENCE_VMA 0xfff 2 0 in
  @fence_local RV64 req = [SFENCE_VMA (Some 0xfff) None] /\
  existsb (covers req 0x1000) (@fence_local RV64 req) = false.
Proof. split; vm_compute; reflexivity. Qed.

(** ** The queue of a hart *)

(** A request, and whose it is: [out] points at the count of that hart. *)
Abbreviation rfence_entry := (rfence_req * Z)%type.

Record rfence_queue : Set := RfenceQueue { q_head : Z; q_count : Z; q_entries : list rfence_entry }.

Definition entry_zero : rfence_entry := (RfenceReq RFENCE_FENCE_I 0 0 0, 0).
(** As [rfence_init] gets it. *)
Definition queue_zero : rfence_queue := RfenceQueue 0 0 (replicate 8 entry_zero).

(** Under the lock: [None], the queue is full. *)
Definition enqueue (q : rfence_queue) (e : rfence_entry) : option rfence_queue :=
  if q_count q <? RFENCE_QUEUE_LEN then
    let tail := (q_head q + q_count q) mod RFENCE_QUEUE_LEN in
    Some (RfenceQueue (q_head q) (q_count q + 1) (<[Z.to_nat tail := e]> (q_entries q)))
  else None.

(** Under the lock, by [rfence_process]: [None], nothing to serve. *)
Definition dequeue (q : rfence_queue) : option (rfence_entry * rfence_queue) :=
  if q_count q =? 0 then None
  else Some (default entry_zero (q_entries q !! Z.to_nat (q_head q)),
             RfenceQueue ((q_head q + 1) mod RFENCE_QUEUE_LEN) (q_count q - 1) (q_entries q)).

Definition q_wf (q : rfence_queue) : Prop :=
  0 <= q_head q < 8 /\ 0 <= q_count q <= 8 /\ length (q_entries q) = 8%nat.

(** The entry [k] places behind the head, and the queue as a list. *)
Definition q_nth (q : rfence_queue) (k : Z) : rfence_entry :=
  default entry_zero (q_entries q !! Z.to_nat ((q_head q + k) mod RFENCE_QUEUE_LEN)).
Definition q_list (q : rfence_queue) : list rfence_entry := q_nth q <$> seqZ 0 (q_count q).

Lemma seqZ_snoc (n : Z) : 0 <= n -> seqZ 0 (n + 1) = seqZ 0 n ++ [n].
Proof. intros Hn. rewrite seqZ_app by lia. f_equal. Qed.

Lemma q_list_length (q : rfence_queue) : q_wf q -> length (q_list q) = Z.to_nat (q_count q).
Proof. intros (_ & Hc & _). unfold q_list. rewrite length_fmap, length_seqZ. lia. Qed.

Lemma enqueue_list (q : rfence_queue) (e : rfence_entry) :
  q_wf q ->
  match enqueue q e with
  | Some q' => q_wf q' /\ q_list q' = q_list q ++ [e] /\ (length (q_list q) < 8)%nat
  | None => length (q_list q) = 8%nat
  end.
Proof.
  intros Hwf. pose proof (q_list_length q Hwf) as Hlen. destruct Hwf as (Hh & Hc & Hl).
  unfold enqueue, RFENCE_QUEUE_LEN in *. destruct (Z.ltb_spec (q_count q) 8) as [Hlt|]; [|lia].
  split; [split_and!; cbn; rewrite ?length_insert; lia|]. split; [|lia].
  unfold q_list. cbn [q_count]. rewrite seqZ_snoc by lia. rewrite fmap_app. f_equal.
  - apply list_fmap_ext. intros i k Hk. apply lookup_seqZ in Hk as [-> Hk]. unfold q_nth, RFENCE_QUEUE_LEN. cbn [q_head q_entries].
    rewrite list_lookup_insert_ne; [done|]. intros E. Z.to_euclidean_division_equations. lia.
  - cbn. unfold q_nth, RFENCE_QUEUE_LEN. cbn [q_head q_entries]. rewrite list_lookup_insert_eq; [done|].
    pose proof (Z.mod_pos_bound (q_head q + q_count q) 8). lia.
Qed.

Lemma dequeue_list (q : rfence_queue) :
  q_wf q ->
  match dequeue q with
  | Some (e', q') => q_wf q' /\ q_list q = e' :: q_list q'
  | None => q_list q = []
  end.
Proof.
  intros (Hh & Hc & Hl). unfold dequeue. destruct (Z.eqb_spec (q_count q) 0) as [E|Hne].
  { unfold q_list. rewrite E. done. }
  split; [split_and!; cbn; unfold RFENCE_QUEUE_LEN; try lia; apply Z.mod_pos_bound; lia|].
  unfold q_list. rewrite seqZ_cons by lia. cbn [fmap list_fmap q_count]. f_equal.
  - unfold q_nth, RFENCE_QUEUE_LEN. rewrite Z.add_0_r, Z.mod_small by lia. done.
  - rewrite <- (Z.add_0_r (Z.succ 0)) at 1. rewrite <- fmap_add_seqZ, <- list_fmap_compose.
    replace (Z.pred (q_count q)) with (q_count q - 1) by lia. apply list_fmap_ext. intros i k Hk.
    unfold compose, q_nth, RFENCE_QUEUE_LEN. cbn [q_head q_entries]. do 3 f_equal.
    rewrite Z.add_mod_idemp_l by lia. f_equal. lia.
Qed.

(** the ring is a queue. [enqueue] puts an entry behind the others, and
    fails exactly when there are eight; [dequeue] takes the first, and fails
    exactly when there is none; wherever in the ring they are. *)
Theorem rfence_queue_fifo (q : rfence_queue) (e : rfence_entry) :
  q_wf q ->
  match enqueue q e with
  | Some q' => q_wf q' /\ q_list q' = q_list q ++ [e] /\ (length (q_list q) < 8)%nat
  | None => length (q_list q) = 8%nat
  end /\
  match dequeue q with
  | Some (e', q') => q_wf q' /\ q_list q = e' :: q_list q'
  | None => q_list q = []
  end.
Proof. intros Hwf. split; [by apply enqueue_list|by apply dequeue_list]. Qed.

(** ** The protocol *)

(** Where a hart is in [rfence_request]. *)
Inductive rf_loc : Set :=
| RIdle
| RAsk (targets todo : list Z) (req : rfence_req) (* the loop over the targets *)
| RKick (targets : list Z) (t : Z) (todo : list Z) (req : rfence_req) (* ipi_send() to [t], which has the entry *)
| RSelf (targets : list Z) (req : rfence_req) (* its own part *)
| RWait (targets : list Z) (req : rfence_req). (* for the others *)

Record rf_state : Type := RfState {
  rf_queue : Z -> rfence_queue; (* by hart index *)
  rf_out : Z -> Z; (* the count of a requester *)
  rf_at : Z -> rf_loc;
  rf_kick : Z -> bool; (* IPI_EVENT_RFENCE is posted to the hart *)
  rf_in : Z -> bool; (* the hart is in the loop of [rfence_process] *)
  rf_serve : Z -> option (rfence_entry * bool); (* what [rfence_process] has taken; fenced already? *)
  rf_done : Z -> list (Z * list fence_insn); (* what has been executed for a hart's current request, by whom *)
}.
#[export] Instance rf_state_eta : Settable rf_state :=
  fun s => RfState (rf_queue s) (rf_out s) (rf_at s) (rf_kick s) (rf_in s) (rf_serve s) (rf_done s).

Definition rf_init : rf_state :=
  RfState (fun _ => queue_zero) (fun _ => 0) (fun _ => RIdle) (fun _ => false) (fun _ => false) (fun _ => None) (fun _ => []).

Inductive rf_choice : Type :=
| RCall (targets : list Z) (req : rfence_req) (* rfence_request() *)
| RGo (* on with the request *)
| REnter (* rfence_process(), from ipi_process() or the wait for the targets *)
| RTake | RFence | RDone. (* in its loop: take an entry or return, fence, count *)

Section Protocol.
Context {AR : Arch} {F : Features} {HT : HartTable}.
Abbreviation table := (hart_table_size ht_ids).

Definition upd {A} (f : Z -> A) (i : Z) (v : A) : Z -> A := fun j => if decide (j = i) then v else f j.

Definition at_set (s : rf_state) (i : Z) (l : rf_loc) : rf_state := s <| rf_at := upd (rf_at s) i l |>.

(** Hart [who] has executed the fences of [i]'s request. *)
Definition executed (s : rf_state) (i who : Z) (req : rfence_req) : rf_state :=
  s <| rf_done := upd (rf_done s) i ((who, fence_local req) :: rf_done s i) |>.

(** [rfence_process], a step at a time. *)
Definition rfence_process (s : rf_state) (i : Z) (c : rf_choice) : option rf_state :=
  match c, rf_serve s i with
  | RTake, None =>
      match dequeue (rf_queue s i) with
      | Some (e, q) => Some (s <| rf_queue := upd (rf_queue s) i q |> <| rf_serve := upd (rf_serve s) i (Some (e, false)) |>)
      | None => Some (s <| rf_in := upd (rf_in s) i false |>)
      end
  | RFence, Some (e, false) =>
      Some ((executed s e.2 i e.1) <| rf_serve := upd (rf_serve s) i (Some (e, true)) |>)
  | RDone, Some (e, true) =>
      Some (s <| rf_out := upd (rf_out s) e.2 (rf_out s e.2 - 1) |> <| rf_serve := upd (rf_serve s) i None |>)
  | _, _ => None
  end.

(** The event is posted: [ipi_send]. *)
Definition rfence_ipi (s : rf_state) (t : Z) : rf_state := s <| rf_kick := upd (rf_kick s) t true |>.

(** [ipi_process] finds the event and goes to [rfence_process]; a hart that
    waits for its targets calls it without. *)
Definition rfence_enter (s : rf_state) (i : Z) : option rf_state :=
  if rf_kick s i || match rf_at s i with RWait _ _ => true | _ => false end
  then Some (s <| rf_kick := upd (rf_kick s) i false |> <| rf_in := upd (rf_in s) i true |>)
  else None.

(** [rfence_request], the same. A hart that finds a queue full sends its
    owner an IPI and looks for its own: it is where it was. *)
Definition rfence_request (s : rf_state) (i : Z) (c : rf_choice) : option rf_state :=
  match c, rf_at s i with
  | RCall targets req, RIdle =>
      if is_hfence (rq_type req) && negb (hart_has HART_FEAT_H) then Some s (* SBI_ERR_NOT_SUPPORTED *)
      else Some (at_set (s <| rf_out := upd (rf_out s) i 0 |> <| rf_done := upd (rf_done s) i [] |>)
                        i (RAsk targets targets req))
  | RGo, RAsk targets (t :: todo) req =>
      if t =? i then Some (at_set s i (RAsk targets todo req))
      else match enqueue (rf_queue s t) (req, i) with
           | Some q =>
               Some (at_set (s <| rf_queue := upd (rf_queue s) t q |> <| rf_out := upd (rf_out s) i (rf_out s i + 1) |>)
                            i (RKick targets t todo req))
           | None => Some (rfence_ipi s t)
           end
  | RGo, RKick targets t todo req => Some (at_set (rfence_ipi s t) i (RAsk targets todo req))
  | RGo, RAsk targets [] req => Some (at_set s i (RSelf targets req))
  | RGo, RSelf targets req =>
      let s := if bool_decide (i ∈ targets) then executed s i i req else s in
      Some (at_set s i (RWait targets req))
  | RGo, RWait targets req => if rf_out s i =? 0 then Some (at_set s i RIdle) else None (* SBI_SUCCESS *)
  | _, _ => None
  end.

Definition rf_step (s : rf_state) (i : Z) (c : rf_choice) : option rf_state :=
  match c with
  | RCall _ _ | RGo => if rf_in s i then None else rfence_request s i c
  | REnter => if rf_in s i then None else rfence_enter s i
  | _ => if rf_in s i then rfence_process s i c else None
  end.

(** The targets of a request are harts of the table. *)
Inductive rf_runs : rf_state -> Prop :=
| rf_boot : rf_runs rf_init
| rf_next s i c s' :
    rf_runs s -> 0 <= i < table -> rf_step s i c = Some s' ->
    match c with RCall targets _ => Forall (fun t => 0 <= t < table) targets | _ => True end ->
    rf_runs s'.
End Protocol.
