(* ===== verification/RfenceProps.v ===== *)
(** What a remote fence promises, for any number of requesters at once:
    when a request returns, every target has executed its fences; and
    whoever waits, someone can go on. *)

From S2P Require Import Prelude Arch Bitstring Hart Rfence.

#[local] Open Scope Z_scope.
#[local] Set Warnings "-clear-no-such-hyp".

Section RfenceProps.
Context {AR : Arch} {F : Features} {HT : HartTable}.
Abbreviation table := (hart_table_size ht_ids).

(** ** Counting *)

(** The requests of hart [i] that hart [t] has yet to count off. *)
Definition serving (s : rf_state) (t i : Z) : nat :=
  match rf_serve s t with Some (e, _) => if decide (e.2 = i) then 1 else 0 | None => 0 end.
Definition queued (s : rf_state) (t i : Z) : nat := length (filter (fun e => e.2 = i) (q_list (rf_queue s t))).
Definition pend (s : rf_state) (t i : Z) : nat := queued s t i + serving s t i.
Definition total (s : rf_state) (i : Z) : nat := sum_list_with (fun t => pend s t i) (seqZ 0 table).

Lemma sum_list_upd (f g : Z -> nat) (l : list Z) (t : Z) :
  NoDup l -> t ∈ l -> (forall u, u ∈ l -> u <> t -> g u = f u) ->
  (sum_list_with g l + f t = sum_list_with f l + g t)%nat.
Proof.
  induction l as [|u l IH]; intros Hnd Hin Hfg; [by apply elem_of_nil in Hin|].
  apply NoDup_cons in Hnd as [Hu Hnd]. cbn. apply elem_of_cons in Hin as [->|Hin].
  - assert (sum_list_with g l = sum_list_with f l) as ->; [|lia].
    clear IH Hnd. induction l as [|v l IHl]; [done|]. cbn. rewrite IHl.
    + rewrite Hfg; [done|set_solver|set_solver].
    + set_solver.
    + intros w Hw. apply Hfg. set_solver.
  - rewrite (Hfg u) by set_solver. assert (u <> t) by (intros ->; done).
    pose proof (IH Hnd Hin ltac:(intros; apply Hfg; set_solver)). lia.
Qed.

Lemma total_upd (s s' : rf_state) (t i : Z) :
  0 <= t < table -> (forall u, u <> t -> pend s' u i = pend s u i) ->
  (total s' i + pend s t i = total s i + pend s' t i)%nat.
Proof.
  intros Ht H. unfold total. apply (sum_list_upd (fun u => pend s u i) (fun u => pend s' u i)); [apply NoDup_seqZ|apply elem_of_seqZ; lia|auto].
Qed.

Lemma total_same (s s' : rf_state) (i : Z) : (forall u, pend s' u i = pend s u i) -> total s' i = total s i.
Proof. intros H. unfold total. induction (seqZ 0 table); cbn; congruence. Qed.

Lemma total_le (s : rf_state) (t i : Z) : 0 <= t < table -> (pend s t i <= total s i)%nat.
Proof.
  intros Ht. unfold total. assert (t ∈ seqZ 0 table) as Hin by (apply elem_of_seqZ; lia).
  induction (seqZ 0 table) as [|u l IH]; [by apply elem_of_nil in Hin|]. cbn.
  apply elem_of_cons in Hin as [->|Hin]; [lia|]. specialize (IH Hin). lia.
Qed.

Lemma total_pos (s : rf_state) (i : Z) : (0 < total s i)%nat -> exists t, 0 <= t < table /\ (0 < pend s t i)%nat.
Proof.
  unfold total. assert (forall t, t ∈ seqZ 0 table -> 0 <= t < table) as Hr by (intros t Ht%elem_of_seqZ; lia).
  induction (seqZ 0 table) as [|u l IH]; cbn; [lia|]. intros H. destruct (decide (pend s u i = 0%nat)) as [E|Hne].
  - apply IH; [intros; apply Hr; set_solver|lia].
  - exists u. split; [apply Hr; set_solver|lia].
Qed.

(** ** The invariant *)

Definition req_of (l : rf_loc) : option rfence_req :=
  match l with RIdle => None | RAsk _ _ req | RKick _ _ _ req | RSelf _ req | RWait _ req => Some req end.

(** Hart [t] holds entry [e]. *)
Definition holds (s : rf_state) (t : Z) (e : rfence_entry) : Prop :=
  e ∈ q_list (rf_queue s t) \/ exists b, rf_serve s t = Some (e, b).

(** Hart [t] has executed the request of [i], or has it to do. *)
Definition owed (s : rf_state) (i : Z) (req : rfence_req) (t : Z) : Prop :=
  (t, fence_local req) ∈ rf_done s i \/ (req, i) ∈ q_list (rf_queue s t) \/ rf_serve s t = Some ((req, i), false).

Definition asked_inv (s : rf_state) (i : Z) (l : rf_loc) : Prop :=
  match l with
  | RIdle => True
  | RAsk targets todo req =>
      Forall (fun t => 0 <= t < table) targets /\
      exists asked, targets = asked ++ todo /\ forall t, t ∈ asked -> t <> i -> owed s i req t
  | RKick targets u todo req =>
      Forall (fun t => 0 <= t < table) targets /\
      exists asked, targets = (asked ++ [u]) ++ todo /\ forall t, t ∈ asked ++ [u] -> t <> i -> owed s i req t
  | RSelf targets req =>
      Forall (fun t => 0 <= t < table) targets /\ forall t, t ∈ targets -> t <> i -> owed s i req t
  | RWait targets req =>
      Forall (fun t => 0 <= t < table) targets /\ forall t, t ∈ targets ->
        if decide (t = i) then (i, fence_local req) ∈ rf_done s i else owed s i req t
  end.

Record rf_inv (s : rf_state) : Prop := {
  ri_queue t : 0 <= t < table -> q_wf (rf_queue s t);
  ri_entry t e : 0 <= t < table -> holds s t e -> 0 <= e.2 < table /\ req_of (rf_at s e.2) = Some e.1;
  ri_asked i : 0 <= i < table -> asked_inv s i (rf_at s i);
  ri_count i : 0 <= i < table -> rf_out s i = Z.of_nat (total s i);
}.

Lemma pend_pos (s : rf_state) (t i : Z) : (0 < pend s t i)%nat <-> exists e, e.2 = i /\ holds s t e.
Proof.
  unfold pend, queued, serving, holds. split.
  - intros H. destruct (filter _ _) as [|e l] eqn:E.
    + destruct (rf_serve s t) as [[e b]|]; cbn in H; [|lia]. case_decide; [|lia]. exists e. split; [done|]. right. by exists b.
    + exists e. assert (e ∈ filter (fun e => e.2 = i) (q_list (rf_queue s t))) as Hin by (rewrite E; set_solver).
      apply list_elem_of_filter in Hin as [? ?]. split; [done|by left].
  - intros (e & Ei & [Hin|[b Hs]]).
    + assert (e ∈ filter (fun e => e.2 = i) (q_list (rf_queue s t))) as Hf by (by apply list_elem_of_filter).
      destruct (filter _ _); [by apply elem_of_nil in Hf|]. cbn. lia.
    + rewrite Hs, decide_True by done. lia.
Qed.

(** A hart that has no request out has no entries anywhere, and counts none. *)
Lemma no_entries (s : rf_state) (i : Z) :
  (forall t e, 0 <= t < table -> holds s t e -> e.2 <> i) -> total s i = 0%nat.
Proof.
  intros H. destruct (decide (total s i = 0%nat)) as [|Hne]; [done|]. exfalso.
  destruct (total_pos s i) as (t & Ht & Hp); [lia|]. apply pend_pos in Hp as (e & Ei & Hh). by apply (H t e).
Qed.

Lemma idle_no_entries (s : rf_state) (i : Z) :
  rf_inv s -> rf_at s i = RIdle -> forall t e, 0 <= t < table -> holds s t e -> e.2 <> i.
Proof. intros Hinv El t e Ht Hh E. destruct (ri_entry s Hinv t e Ht Hh) as [_ Hr]. rewrite E, El in Hr. done. Qed.

Lemma init_inv : rf_inv rf_init.
Proof.
  split.
  - intros t _. cbn. unfold q_wf. cbn. lia.
  - intros t e _ [H|[b H]]; [|done]. cbn in H. by apply elem_of_nil in H.
  - done.
  - intros i Hi. cbn. rewrite no_entries; [done|]. intros t e _ [H|[b H]]; [|done]. cbn in H. by apply elem_of_nil in H.
Qed.

(** ** The steps *)

Lemma upd_eq {A} (f : Z -> A) (i : Z) (v : A) : upd f i v i = v.
Proof. unfold upd. by rewrite decide_True. Qed.
Lemma upd_ne {A} (f : Z -> A) (i j : Z) (v : A) : j <> i -> upd f i v j = f j.
Proof. intros. unfold upd. by rewrite decide_False. Qed.

(** What a request has asked for stays so, whatever else comes to pass. *)
Lemma asked_mono (s s' : rf_state) (i : Z) (l : rf_loc) :
  (forall req t, 0 <= t < table -> owed s i req t -> owed s' i req t) ->
  (forall x, x ∈ rf_done s i -> x ∈ rf_done s' i) -> asked_inv s i l -> asked_inv s' i l.
Proof.
  intros Ho Hd. destruct l as [|targets todo req|targets u todo req|targets req|targets req]; cbn; [done|..].
  - intros (Hr & asked & -> & H). split; [done|]. exists asked. split; [done|]. intros t Ht Hne. apply Ho; [|auto].
    rewrite Forall_forall in Hr. apply Hr. set_solver.
  - intros (Hr & asked & -> & H). split; [done|]. exists asked. split; [done|]. intros t Ht Hne. apply Ho; [|auto].
    rewrite Forall_forall in Hr. apply Hr. set_solver.
  - intros (Hr & H). split; [done|]. intros t Ht Hne. apply Ho; [|auto]. rewrite Forall_forall in Hr. auto.
  - intros (Hr & H). split; [done|]. intros t Ht. specialize (H t Ht). case_decide; [auto|]. apply Ho; [|auto].
    rewrite Forall_forall in Hr. auto.
Qed.

Lemma same_queues_inv (s s' : rf_state) (i : Z) (l : rf_loc) :
  rf_inv s -> 0 <= i < table -> rf_queue s' = rf_queue s -> rf_serve s' = rf_serve s -> rf_at s' = upd (rf_at s) i l ->
  rf_out s' i = rf_out s i -> (forall j, j <> i -> rf_out s' j = rf_out s j /\ rf_done s' j = rf_done s j) ->
  (req_of l = req_of (rf_at s i) \/ forall t e, 0 <= t < table -> holds s t e -> e.2 <> i) ->
  asked_inv s' i l -> rf_inv s'.
Proof.
  intros [Iq Ie Ia Ic] Hi Eq Es Ea Eo Eoth Hreq Hl. split.
  - intros t Ht. rewrite Eq. auto.
  - intros t e Ht Hh. unfold holds in Hh. rewrite Eq, Es in Hh. destruct (Ie t e Ht Hh) as [Hr He]. split; [done|].
    rewrite Ea. unfold upd. case_decide as E; [|done]. destruct Hreq as [->|Hno]; [by rewrite <- E|]. by destruct (Hno t e Ht Hh).
  - intros j Hj. rewrite Ea. unfold upd. case_decide as E; [by subst j|]. apply (asked_mono s); [| |auto].
    + intros req t Ht. unfold owed. rewrite Eq, Es. destruct (Eoth j E) as [_ ->]. done.
    + destruct (Eoth j E) as [_ ->]. done.
  - intros j Hj. rewrite (total_same s s').
    + destruct (decide (j = i)) as [->|Hne]; [rewrite Eo; auto|]. destruct (Eoth j Hne) as [-> _]. auto.
    + intros u. unfold pend, queued, serving. by rewrite Eq, Es.
Qed.

(** The IPIs are not part of it. *)
Lemma frame_inv (s s' : rf_state) :
  rf_queue s' = rf_queue s -> rf_out s' = rf_out s -> rf_at s' = rf_at s -> rf_serve s' = rf_serve s -> rf_done s' = rf_done s ->
  rf_inv s -> rf_inv s'.
Proof. destruct s, s'. cbn. intros -> -> -> -> -> [Iq Ie Ia Ic]. by split. Qed.

Lemma filter_app_length (l : list rfence_entry) (e : rfence_entry) (i : Z) :
  length (filter (fun e => e.2 = i) (l ++ [e])) = (length (filter (fun e => e.2 = i) l) + if decide (e.2 = i) then 1 else 0)%nat.
Proof. rewrite filter_app, length_app. f_equal. rewrite filter_cons, filter_nil. by case_decide. Qed.

(** A request goes into the queue of target [t]. *)
Lemma enqueue_inv (s s1 : rf_state) (i t : Z) (q : rfence_queue) (asked todo : list Z) (req : rfence_req) :
  rf_inv s -> 0 <= i < table -> 0 <= t < table -> rf_at s i = RAsk (asked ++ t :: todo) (t :: todo) req ->
  Forall (fun t => 0 <= t < table) (asked ++ t :: todo) -> (forall u, u ∈ asked -> u <> i -> owed s i req u) ->
  q_wf q -> q_list q = q_list (rf_queue s t) ++ [(req, i)] ->
  rf_queue s1 = upd (rf_queue s) t q -> rf_out s1 = upd (rf_out s) i (rf_out s i + 1) ->
  rf_at s1 = upd (rf_at s) i (RKick (asked ++ t :: todo) t todo req) -> rf_serve s1 = rf_serve s -> rf_done s1 = rf_done s ->
  rf_inv s1.
Proof.
  intros [Iq Ie Ia Ic] Hi Ht El Hr Ho Hwf Hlist Eq Eo Ea Es Ed.
  assert (forall u e, e ∈ q_list (rf_queue s u) -> e ∈ q_list (rf_queue s1 u)) as Hmono.
  { intros u e He. rewrite Eq. unfold upd. case_decide as Eu; [subst u; rewrite Hlist; set_solver|done]. }
  assert (forall j req u, owed s j req u -> owed s1 j req u) as Howed.
  { intros j rq u. unfold owed. rewrite Es, Ed. naive_solver. }
  split.
  - intros u Hu. rewrite Eq. unfold upd. case_decide; auto.
  - intros u e Hu Hh. assert (e = (req, i) \/ holds s u e) as [->|Hold].
    { unfold holds in *. rewrite Es, Eq in Hh. destruct Hh as [Hh|Hh]; [|right; by right].
      unfold upd in Hh. case_decide as Eu; [|right; by left].
      subst u. rewrite Hlist in Hh. apply elem_of_app in Hh as [Hh|Hh]; [right; by left|left; set_solver]. }
    + rewrite Ea. cbn. by rewrite upd_eq.
    + destruct (Ie u e Hu Hold) as [He Hre]. split; [done|]. rewrite Ea. unfold upd. case_decide as Ee; [|done].
      rewrite <- Hre, Ee, El. done.
  - intros j Hj. rewrite Ea. unfold upd. case_decide as Ej.
    + subst j. split; [done|]. exists asked. rewrite <- app_assoc. split; [done|]. intros u Hu Hne.
      apply elem_of_app in Hu as [Hu|Hu]; [auto|].
      assert (u = t) as -> by set_solver. right; left. rewrite Eq, upd_eq, Hlist. set_solver.
    + apply (asked_mono s); [auto|by rewrite Ed|auto].
  - intros j Hj. assert (pend s1 t j = pend s t j + if decide (i = j) then 1 else 0)%nat as Hp.
    { unfold pend, queued, serving. rewrite Eq, Es, upd_eq, Hlist, filter_app_length. cbn. lia. }
    assert (forall u, u <> t -> pend s1 u j = pend s u j) as Hpu.
    { intros u Hu. unfold pend, queued, serving. by rewrite Eq, Es, upd_ne. }
    pose proof (total_upd s s1 t j Ht Hpu) as Htot. rewrite Eo. unfold upd. destruct (decide (j = i)) as [->|Hne].
    + rewrite decide_True in Hp by done. rewrite Ic by done. lia.
    + rewrite decide_False in Hp by congruence. rewrite Ic by done. lia.
Qed.

Lemma request_inv (s s' : rf_state) (i : Z) (c : rf_choice) :
  rf_inv s -> 0 <= i < table -> rfence_request s i c = Some s' ->
  match c with RCall targets _ => Forall (fun t => 0 <= t < table) targets | _ => True end -> rf_inv s'.
Proof.
  intros Hinv Hi H Hc. pose proof (ri_asked s Hinv i Hi) as Ha. unfold rfence_request in H.
  destruct c as [targets req| | | | |]; try discriminate H;
    destruct (rf_at s i) as [|targets' [|t todo] req'|targets' t todo req'|targets' req'|targets' req'] eqn:El; try discriminate H.
  - destruct (_ && _); [by injection H as <-|]. injection H as <-.
    pose proof (idle_no_entries s i Hinv El) as Hno.
    apply (same_queues_inv s _ i (RAsk targets targets req)); try done.
    + cbn. rewrite upd_eq, (ri_count s Hinv i Hi), no_entries by done. done.
    + intros j Hj. cbn. by rewrite !upd_ne.
    + by right.
    + cbn. split; [done|]. exists []. split; [done|]. set_solver.
  - injection H as <-. apply (same_queues_inv s _ i (RSelf targets' req')); try done; [by left; rewrite El|].
    destruct Ha as (Hr & asked & -> & Ho). rewrite app_nil_r in *. done.
  - destruct Ha as (Hr & asked & -> & Ho). destruct (Z.eqb_spec t i) as [->|Hti].
    + injection H as <-. apply (same_queues_inv s _ i (RAsk (asked ++ i :: todo) todo req')); try done; [by left; rewrite El|].
      split; [done|]. exists (asked ++ [i]). rewrite <- app_assoc. split; [done|]. intros u Hu Hne. apply Ho; set_solver.
    + assert (0 <= t < table) as Ht by (rewrite Forall_forall in Hr; apply Hr; set_solver).
      pose proof (enqueue_list (rf_queue s t) (req', i) (ri_queue s Hinv t Ht)) as Hq.
      destruct (enqueue (rf_queue s t) (req', i)) as [q|]; injection H as <-; [|by apply (frame_inv s)].
      destruct Hq as (Hwf & Hlist & _). eapply (enqueue_inv s _ i t q asked todo req'); done.
  - injection H as <-. destruct Ha as (Hr & asked & Et & Ho).
    apply (same_queues_inv s _ i (RAsk targets' todo req')); try done; [by left; rewrite El|].
    split; [done|]. by exists (asked ++ [t]).
  - injection H as <-. destruct Ha as (Hr & Ho). case_bool_decide as Hin.
    + apply (same_queues_inv s _ i (RWait targets' req')); try done.
      * intros j Hj. cbn. by rewrite upd_ne.
      * by left; rewrite El.
      * split; [done|]. intros t Ht. cbn. rewrite upd_eq. case_decide as E; [set_solver|].
        destruct (Ho t Ht E) as [?|[?|?]]; [left; cbn; rewrite upd_eq; set_solver|by right; left|by right; right].
    + apply (same_queues_inv s _ i (RWait targets' req')); try done; [by left; rewrite El|].
      split; [done|]. intros t Ht. case_decide as E; [by subst t|]. exact (Ho t Ht E).
  - destruct (Z.eqb_spec (rf_out s i) 0) as [E0|]; [|discriminate H]. injection H as <-.
    apply (same_queues_inv s _ i RIdle); try done. right. intros t e Ht Hh Ee.
    rewrite (ri_count s Hinv i Hi) in E0. pose proof (total_le s t i Ht).
    assert (0 < pend s t i)%nat by (apply pend_pos; by exists e). lia.
Qed.

Lemma process_inv (s s' : rf_state) (t : Z) (c : rf_choice) :
  rf_inv s -> 0 <= t < table -> rfence_process s t c = Some s' -> rf_inv s'.
Proof.
  intros Hinv Ht H. unfold rfence_process in H.
  destruct c; try discriminate H; destruct (rf_serve s t) as [[e []]|] eqn:Es; try discriminate H.
  - pose proof (dequeue_list (rf_queue s t) (ri_queue s Hinv t Ht)) as Hq.
    destruct (dequeue (rf_queue s t)) as [[e q]|]; injection H as <-; [|by apply (frame_inv s)]. destruct Hq as [Hwf Hlist].
    set (s1 := field_update rf_serve _ _).
    assert (rf_queue s1 = upd (rf_queue s) t q) as Eq1 by done.
    assert (rf_serve s1 = upd (rf_serve s) t (Some (e, false))) as Es1 by done.
    assert (rf_at s1 = rf_at s) as Ea1 by done. assert (rf_out s1 = rf_out s) as Eo1 by done.
    assert (rf_done s1 = rf_done s) as Ed1 by done. clearbody s1. destruct Hinv as [Iq Ie Ia Ic].
    assert (forall u e', holds s1 u e' <-> holds s u e') as Hh.
    { intros u e'. unfold holds. rewrite Eq1, Es1. unfold upd. case_decide as Eu; [subst u|done].
      rewrite Hlist, Es, elem_of_cons. naive_solver. }
    split.
    + intros u Hu. rewrite Eq1. unfold upd. case_decide; auto.
    + intros u e' Hu. rewrite Hh, Ea1. by apply Ie.
    + intros j Hj. rewrite Ea1. apply (asked_mono s); [|by rewrite Ed1|auto]. intros req u Hu. unfold owed. rewrite Eq1, Es1, Ed1.
      unfold upd. case_decide as Eu; [subst u|done]. rewrite Hlist, elem_of_cons, Es. naive_solver.
    + intros j Hj. rewrite Eo1, Ic by done. f_equal. symmetry. apply total_same. intros u.
      unfold pend, queued, serving. rewrite Eq1, Es1. unfold upd. case_decide as Eu; [subst u|done].
      rewrite Hlist, Es, filter_cons. case_decide; cbn; lia.
  - injection H as <-. set (s1 := field_update rf_serve _ _).
    assert (rf_queue s1 = rf_queue s) as Eq1 by done.
    assert (rf_serve s1 = upd (rf_serve s) t (Some (e, true))) as Es1 by done.
    assert (rf_at s1 = rf_at s) as Ea1 by done. assert (rf_out s1 = rf_out s) as Eo1 by done.
    assert (rf_done s1 = upd (rf_done s) e.2 ((t, fence_local e.1) :: rf_done s e.2)) as Ed1 by done. clearbody s1.
    destruct Hinv as [Iq Ie Ia Ic].
    assert (forall j x, x ∈ rf_done s j -> x ∈ rf_done s1 j) as Hd.
    { intros j x. rewrite Ed1. unfold upd. case_decide; [subst j; set_solver|done]. }
    split.
    + intros u Hu. rewrite Eq1. auto.
    + intros u e' Hu Hh'. rewrite Ea1. apply (Ie u); [done|]. revert Hh'. unfold holds. rewrite Eq1, Es1. unfold upd.
      case_decide as Eu; [subst u; rewrite Es|done]. naive_solver.
    + intros j Hj. rewrite Ea1. apply (asked_mono s); [|auto|auto]. intros req u Hu. unfold owed. rewrite Eq1, Es1.
      intros [?|[?|Hs]]; [auto|auto|]. unfold upd. case_decide as Eu; [|auto]. subst u. rewrite Es in Hs. injection Hs as ->.
      left. rewrite Ed1. cbn. rewrite upd_eq. set_solver.
    + intros j Hj. rewrite Eo1, Ic by done. f_equal. symmetry. apply total_same. intros u. unfold pend, queued, serving.
      rewrite Eq1, Es1. unfold upd. case_decide as Eu; [subst u; by rewrite Es|done].
  - injection H as <-. set (s1 := field_update rf_serve _ _).
    assert (rf_queue s1 = rf_queue s) as Eq1 by done.
    assert (rf_serve s1 = upd (rf_serve s) t None) as Es1 by done.
    assert (rf_at s1 = rf_at s) as Ea1 by done.
    assert (rf_out s1 = upd (rf_out s) e.2 (rf_out s e.2 - 1)) as Eo1 by done.
    assert (rf_done s1 = rf_done s) as Ed1 by done. clearbody s1.
    destruct Hinv as [Iq Ie Ia Ic]. split.
    + intros u Hu. rewrite Eq1. auto.
    + intros u e' Hu Hh'. rewrite Ea1. apply (Ie u); [done|]. revert Hh'. unfold holds. rewrite Eq1, Es1. unfold upd.
      case_decide as Eu; [subst u; rewrite Es|done]. naive_solver.
    + intros j Hj. rewrite Ea1. apply (asked_mono s); [|by rewrite Ed1|auto]. intros req u Hu. unfold owed. rewrite Eq1, Es1, Ed1.
      intros [?|[?|Hs]]; [auto|auto|]. right; right. unfold upd. case_decide as Eu; [|auto]. subst u. rewrite Es in Hs. done.
    + intros j Hj. assert (pend s t j = pend s1 t j + if decide (e.2 = j) then 1 else 0)%nat as Hp.
      { unfold pend, queued, serving. rewrite Eq1, Es1, upd_eq, Es. lia. }
      assert (forall u, u <> t -> pend s1 u j = pend s u j) as Hpu.
      { intros u Hu. unfold pend, queued, serving. by rewrite Eq1, Es1, upd_ne. }
      pose proof (total_upd s s1 t j Ht Hpu) as Htot. rewrite Eo1. unfold upd. destruct (decide (j = e.2)) as [->|Hne].
      * rewrite decide_True in Hp by done. rewrite Ic by done. lia.
      * rewrite decide_False in Hp by congruence. rewrite Ic by done. lia.
Qed.

Lemma rf_runs_inv (s : rf_state) : rf_runs s -> rf_inv s.
Proof.
  induction 1 as [|s i c s' _ IH Hi H Hc]; [apply init_inv|]. unfold rf_step in H.
  destruct c; destruct (rf_in s i); try discriminate H; try (by apply (process_inv s s' i _ IH Hi H));
    try (by apply (request_inv s s' i _ IH Hi H)).
  unfold rfence_enter in H. destruct (_ || _); [|discriminate H]. injection H as <-. by apply (frame_inv s).
Qed.

(** C6: a remote fence is complete. However many harts fence at once, a
    request returns only when every hart of its targets, the caller
    included, has executed its fences since it was called. *)
Theorem rfence_complete (s s' : rf_state) (i : Z) (targets : list Z) (req : rfence_req) :
  rf_runs s -> 0 <= i < table -> rf_at s i = RWait targets req ->
  rf_step s i RGo = Some s' ->
  rf_at s' i = RIdle /\ forall t, t ∈ targets -> (t, fence_local req) ∈ rf_done s' i.
Proof.
  intros Hr Hi El H. pose proof (rf_runs_inv s Hr) as Hinv. unfold rf_step in H.
  destruct (rf_in s i); [discriminate H|]. unfold rfence_request in H. rewrite El in H.
  destruct (Z.eqb_spec (rf_out s i) 0) as [E0|]; [|discriminate H]. injection H as <-. split; [cbn; apply upd_eq|].
  intros t Ht. pose proof (ri_asked s Hinv i Hi) as Ha. rewrite El in Ha. destruct Ha as [Hran Ha]. specialize (Ha t Ht).
  change (rf_done (at_set s i RIdle) i) with (rf_done s i). destruct (decide (t = i)) as [->|Hne]; [done|].
  destruct Ha as [?|Hh]; [done|]. exfalso. rewrite Forall_forall in Hran. pose proof (Hran t Ht) as Ht'.
  assert (0 < pend s t i)%nat as Hp.
  { apply pend_pos. exists (req, i). split; [done|]. destruct Hh as [?|?]; [by left|right; by eexists]. }
  pose proof (total_le s t i Ht'). rewrite (ri_count s Hinv i Hi) in E0. lia.
Qed.

(** ** The interrupts *)

(** What is in a hart's queue is announced to it, or the hart is at it. *)
Record kick_inv (s : rf_state) : Prop := {
  ki_serve t : rf_serve s t <> None -> rf_in s t = true;
  ki_queue t : 0 <= t < table -> q_list (rf_queue s t) <> [] ->
    rf_kick s t = true \/ rf_in s t = true \/
    exists j targets todo req, 0 <= j < table /\ rf_at s j = RKick targets t todo req;
}.

Lemma request_kick (s s' : rf_state) (i : Z) (c : rf_choice) :
  rf_inv s -> kick_inv s -> 0 <= i < table -> rfence_request s i c = Some s' -> kick_inv s'.
Proof.
  intros Hinv [K1 K2] Hi H. unfold rfence_request in H.
  assert (forall s1 l, rf_kick s1 = rf_kick s -> rf_in s1 = rf_in s -> rf_serve s1 = rf_serve s -> rf_queue s1 = rf_queue s ->
    rf_at s1 = upd (rf_at s) i l -> (forall targets t todo req, rf_at s i <> RKick targets t todo req) -> kick_inv s1) as Hmove.
  { intros s1 l Ek Ein Es Eq Ea Hno. split; [by rewrite Es, Ein|]. intros t Ht. rewrite Eq, Ek, Ein. intros Hne.
    destruct (K2 t Ht Hne) as [?|[?|(j & targets & todo & req & Hj & Ej)]]; [auto|auto|]. right; right.
    exists j, targets, todo, req. split; [done|]. rewrite Ea, upd_ne; [done|]. intros ->. by destruct (Hno targets t todo req). }
  destruct c as [targets req| | | | |]; try discriminate H;
    destruct (rf_at s i) as [|targets' [|t todo] req'|targets' t todo req'|targets' req'|targets' req'] eqn:El; try discriminate H.
  - destruct (_ && _); injection H as <-; [by split|]. by eapply Hmove.
  - injection H as <-. by eapply Hmove.
  - destruct (Z.eqb_spec t i) as [->|Hti]; [injection H as <-; by eapply Hmove|].
    destruct (enqueue (rf_queue s t) (req', i)) as [q|]; injection H as <-.
    + split; [done|]. intros u Hu Hne. destruct (decide (u = t)) as [->|Hut].
      * right; right. exists i, targets', todo, req'. split; [done|]. cbn. by rewrite upd_eq.
      * cbn in Hne. rewrite upd_ne in Hne by done. destruct (K2 u Hu Hne) as [?|[?|(j & tg & td & rq & Hj & Ej)]]; [auto|auto|].
        right; right. exists j, tg, td, rq. split; [done|]. cbn. rewrite upd_ne; [done|]. congruence.
    + split; [done|]. intros u Hu Hne. destruct (K2 u Hu Hne) as [Hk|[?|?]]; [left; cbn; unfold upd; by case_decide|auto|auto].
  - injection H as <-. split; [done|]. intros u Hu Hne. destruct (decide (u = t)) as [->|Hut]; [left; cbn; by rewrite upd_eq|].
    destruct (K2 u Hu Hne) as [Hk|[?|(j & tg & td & rq & Hj & Ej)]]; [left; cbn; by rewrite upd_ne|auto|].
    right; right. exists j, tg, td, rq. split; [done|]. cbn. rewrite upd_ne; [done|]. congruence.
  - injection H as <-. destruct (bool_decide _); by eapply Hmove.
  - destruct (_ =? 0); [|discriminate H]. injection H as <-. by eapply Hmove.
Qed.

Lemma process_kick (s s' : rf_state) (i : Z) (c : rf_choice) :
  rf_inv s -> kick_inv s -> 0 <= i < table -> rf_in s i = true -> rfence_process s i c = Some s' -> kick_inv s'.
Proof.
  intros Hinv [K1 K2] Hi Hin H. unfold rfence_process in H.
  assert (forall s1 b, rf_kick s1 = rf_kick s -> rf_in s1 = rf_in s -> rf_serve s1 = upd (rf_serve s) i b ->
    (forall t, t <> i -> rf_queue s1 t = rf_queue s t) -> rf_at s1 = rf_at s -> kick_inv s1) as Hmove.
  { intros s1 b Ek Ein Es Eq Ea. split.
    - intros t. rewrite Es, Ein. unfold upd. case_decide; [subst; done|apply K1].
    - intros t Ht. rewrite Ek, Ein, Ea. destruct (decide (t = i)) as [->|Hne]; [auto|]. rewrite Eq by done. by apply K2. }
  destruct c; try discriminate H; destruct (rf_serve s i) as [[e []]|] eqn:Es; try discriminate H.
  - pose proof (dequeue_list (rf_queue s i) (ri_queue s Hinv i Hi)) as Hq.
    destruct (dequeue (rf_queue s i)) as [[e q]|]; injection H as <-.
    + eapply Hmove; try done. intros t Ht. cbn. by rewrite upd_ne.
    + split.
      * intros t Hs. cbn in Hs |- *. unfold upd. case_decide; [subst; congruence|by apply K1].
      * intros t Ht Hne. cbn in Hne |- *. destruct (decide (t = i)) as [->|Hti]; [congruence|]. rewrite upd_ne by done. by apply K2.
  - injection H as <-. by eapply Hmove.
  - injection H as <-. by eapply Hmove.
Qed.

Lemma rf_runs_kick (s : rf_state) : rf_runs s -> kick_inv s.
Proof.
  induction 1 as [|s i c s' Hr IH Hi H Hc]; [split; [done|]; intros t _ Hne; by destruct Hne|].
  pose proof (rf_runs_inv s Hr) as Hinv. unfold rf_step in H.
  destruct c; destruct (rf_in s i) eqn:Ein; try discriminate H; try (by apply (process_kick s s' i _ Hinv IH Hi Ein H));
    try (by apply (request_kick s s' i _ Hinv IH Hi H)).
  unfold rfence_enter in H. destruct (_ || _); [|discriminate H]. injection H as <-. destruct IH as [K1 K2]. split.
  - intros t Hs. cbn in Hs |- *. unfold upd. case_decide; [done|by apply K1].
  - intros t Ht Hne. cbn in Hne |- *. destruct (decide (t = i)) as [->|Hti]; [rewrite !upd_eq; auto|].
    rewrite !upd_ne by done. by apply K2.
Qed.

(** A hart in [rfence_process] can go on. *)
Lemma inside_serves (s : rf_state) (t : Z) :
  rf_in s t = true -> exists c s', c ∈ [RTake; RFence; RDone] /\ rf_step s t c = Some s'.
Proof.
  intros Hin. destruct (rf_serve s t) as [[e' []]|] eqn:Es.
  - exists RDone. cbn. rewrite Hin, Es. eexists. split; [set_solver|done].
  - exists RFence. cbn. rewrite Hin, Es. eexists. split; [set_solver|done].
  - exists RTake. cbn. rewrite Hin, Es. destruct (dequeue _) as [[e q]|]; (eexists; split; [set_solver|done]).
Qed.

End RfenceProps.

(** * A machine with two harts *)

Module TwoHartsRfence.
#[local] Instance rv64 : Arch := RV64.
#[local] Instance every_extension : Features := fun _ => true.
#[local] Instance two : HartTable := {| ht_ids := [0; 1]; ht_nodup := two_harts_nodup |}.

Definition flush : rfence_req := RfenceReq RFENCE_SFENCE_VMA_ASID 0x80000000 0x2000 3.

Definition asked : list (Z * rf_choice) := [(0, RCall [0; 1] flush); (0, RGo); (0, RGo); (0, RGo); (0, RGo); (0, RGo)].
Definition served : list (Z * rf_choice) := [(1, REnter); (1, RTake); (1, RFence); (1, RDone)].

Fixpoint rf_exec (s : rf_state) (sched : list (Z * rf_choice)) : rf_state :=
  match sched with
  | [] => s
  | (i, c) :: sched => match rf_step s i c with Some s' => rf_exec s' sched | None => s end
  end.

Lemma exec_rf_runs (s : rf_state) (sched : list (Z * rf_choice)) :
  rf_runs s ->
  Forall (fun '(i, c) => 0 <= i < 2 /\
            match c with RCall targets _ => Forall (fun t => 0 <= t < 2) targets | _ => True end) sched ->
  rf_runs (rf_exec s sched).
Proof.
  revert s. induction sched as [|[i c] sched IH]; intros s Hr Hs; [done|]. cbn.
  apply Forall_cons in Hs as [[Hi Hc] Hs]. destruct (rf_step s i c) as [s'|] eqn:E; [|done].
  apply IH; [|done]. exact (rf_next s i c s' Hr Hi E Hc).
Qed.

Definition waiting : rf_state := rf_exec rf_init asked.
Definition ready : rf_state := rf_exec rf_init (asked ++ served).

Lemma ready_runs : rf_runs ready.
Proof. apply exec_rf_runs; [apply rf_boot|]. repeat constructor; lia. Qed.
Lemma waiting_runs : rf_runs waiting.
Proof. apply exec_rf_runs; [apply rf_boot|]. repeat constructor; lia. Qed.

Lemma rfence_complete_witness :
  (1, [SFENCE_VMA (Some 0x80000000) (Some 3); SFENCE_VMA (Some 0x80001000) (Some 3)]) ∈ rf_done (rf_exec ready [(0, RGo)]) 0.
Proof.
  destruct (rfence_complete ready (rf_exec ready [(0, RGo)]) 0 [0; 1] flush ready_runs) as [_ H].
  - done.
  - vm_compute. reflexivity.
  - vm_compute. reflexivity.
  - exact (H 1 ltac:(set_solver)).
Defined.


Lemma rfence_queue_fifo_witness :
  q_list (RfenceQueue 6 3 (replicate 8 entry_zero)) = replicate 3 entry_zero /\
  match enqueue (RfenceQueue 6 3 (replicate 8 entry_zero)) (flush, 1) with
  | Some q => q_list q = replicate 3 entry_zero ++ [(flush, 1)]
  | None => False
  end.
Proof.
  split; [vm_compute; reflexivity|].
  pose proof (rfence_queue_fifo (RfenceQueue 6 3 (replicate 8 entry_zero)) (flush, 1)) as H.
  destruct H as [(_ & H & _) _]; [split_and!; cbn; lia|]. exact H.
Defined.
End TwoHartsRfence.
