(* ===== verification/DomainContext.v ===== *)
(** Moving a hart between domains, [arch/riscv/runtime/domain_context.c].

    - [hart_hw]: what the calling hart has in its registers and in the
      monitor's per-hart words that goes with a context;
    - [domain_context], [context_save], [context_restore], [context_fresh]:
      what S-mode software of a domain owns of a hart;
    - [dstate]: the domains, the contexts, who runs what;
    - [enter], [leave], [domain_stop_self], [domain_stop], [domain_start]:
      the moves, each under [domain_lock].

    A context is known by its domain and its hart, and [caller], which is
    always a context of the same hart, by its domain. *)

From S2P Require Import Prelude Arch Csr Fields Memregion Bitstring Domain Hart.

#[local] Open Scope Z_scope.

(** ** CSR numbers and fields *)

Definition CSR_STIMECMP : Z := 0x14d.
Definition CSR_STIMECMPH : Z := 0x15d.
Definition CSR_SENVCFG : Z := 0x10a.
Definition CSR_SSTATEEN0 : Z := 0x10c.
Definition CSR_VLENB : Z := 0xc22.
Definition CSR_HTIMEDELTA : Z := 0x605.
Definition CSR_HTIMEDELTAH : Z := 0x615.
Definition CSR_HENVCFG : Z := 0x60a.
Definition CSR_HENVCFGH : Z := 0x61a.
Definition CSR_HSTATEEN0 : Z := 0x60c.
Definition CSR_HSTATEEN0H : Z := 0x61c.
Definition CSR_VSTIMECMP : Z := 0x24d.
Definition CSR_VSTIMECMPH : Z := 0x25d.

Definition MIP_SSIP : Z := 2 ^ 1.
Definition MIP_STIP : Z := 2 ^ 5.
Definition MIP_MTIP : Z := 2 ^ 7.
Definition MSTATUS_FS : Z := 3 * 2 ^ 13.
Definition MSTATUS_VS : Z := 3 * 2 ^ 9.
Definition MISA_EXT_F : Z := 2 ^ 5.
Definition MISA_EXT_V : Z := 2 ^ 21.
Definition MPXY_SHMEM_NONE {AR : Arch} : Z := unot 0.

(** [enum hyp_csr], as CSR numbers, in the order of the enumeration. *)
Definition HYP_HSTATUS : Z := 0.
Definition HYP_FIRST_AIA : Z := 18.
Definition hyp_csrs {AR : Arch} : list Z :=
  [ 0x600 (* hstatus *); 0x602 (* hedeleg *); 0x603 (* hideleg *); 0x604 (* hie *); 0x606 (* hcounteren *);
    0x607 (* hgeie *); 0x643 (* htval *); 0x64a (* htinst *); 0x645 (* hvip *); 0x680 (* hgatp *);
    0x200 (* vsstatus *); 0x204 (* vsie *); 0x205 (* vstvec *); 0x240 (* vsscratch *); 0x241 (* vsepc *);
    0x242 (* vscause *); 0x243 (* vstval *); 0x280 (* vsatp *);
    0x608 (* hvien *); 0x609 (* hvictl *); 0x646 (* hviprio1 *); 0x647 (* hviprio2 *); 0x250 (* vsiselect *) ] ++
  match arch_xlen with
  | RV32 => [ 0x613 (* hidelegh *); 0x618 (* hvienh *); 0x655 (* hviph *); 0x656 (* hviprio1h *);
              0x657 (* hviprio2h *); 0x214 (* vsieh *) ]
  | RV64 => []
  end.
Definition HYP_CSR_COUNT {AR : Arch} : Z := Z.of_nat (length hyp_csrs).

(** ** The data *)

Inductive context_state : Set := CONTEXT_NONE | CONTEXT_RUNNING | CONTEXT_CALLING | CONTEXT_IDLE.
#[export] Instance context_state_eq_dec : EqDecision context_state.
Proof. solve_decision. Defined.

Record vec_state : Set := VecState { vs_vstart : Z; vs_vcsr : Z; vs_vl : Z; vs_vtype : Z; vs_regs : list Z }.

Record domain_context : Set := DomainContext {
  c_state : context_state;
  c_caller : option Z; (* to go back to on exit *)
  c_ipi : bool; (* an S-mode IPI came while it waited *)
  c_quiet : bool;
  c_regs : trap_regs;
  c_sie : Z; c_sip : Z; c_stvec : Z; c_sscratch : Z; c_sepc : Z; c_scause : Z; c_stval : Z; c_satp : Z;
  c_scounteren : Z; c_senvcfg : Z; c_sstateen : list Z;
  c_hyp : list Z;
  c_htimedelta : Z; c_henvcfg : Z; c_hstateen0 : Z; c_vstimecmp : Z;
  c_timer : Z;
  c_mpxy_shmem : Z;
  c_fp : list Z; (* f0..f31, fcsr *)
  c_vec : option vec_state; (* none: no vector unit *)
}.
#[export] Instance domain_context_eta : Settable domain_context := fun c =>
  DomainContext (c_state c) (c_caller c) (c_ipi c) (c_quiet c) (c_regs c) (c_sie c) (c_sip c) (c_stvec c)
    (c_sscratch c) (c_sepc c) (c_scause c) (c_stval c) (c_satp c) (c_scounteren c) (c_senvcfg c) (c_sstateen c)
    (c_hyp c) (c_htimedelta c) (c_henvcfg c) (c_hstateen0 c) (c_vstimecmp c) (c_timer c) (c_mpxy_shmem c)
    (c_fp c) (c_vec c).

(** What is done besides, in order, the last first. *)
Inductive dcall : Set :=
| GuestTlbFlush
| ServicesOut (* hart_services_switch_out() *)
| PmpDomainSet (d : Z)
| ServicesIn (fresh : bool) (* hart_services_switch_in() *)
| TimerSetEvent (when : Z)
| IpiSmode (hart : Z) (* ipi_send(hart, IPI_EVENT_SMODE) *)
| IpiKick (hart : Z)
| SseDomainReset (d : Z)
| HsmStartBarrier
| HsmHartBoot (hart addr arg1 mode : Z).

(** The calling hart. *)
Record hart_hw : Set := HartHw {
  hw_csrs : csr_file;
  hw_deadline : Z; (* deadline[] of the timer core *)
  hw_shmem : Z; (* shmem[] of MPXY *)
  hw_fp : list Z;
  hw_vec : vec_state;
  hw_calls : list dcall;
}.
#[export] Instance hart_hw_eta : Settable hart_hw := fun h =>
  HartHw (hw_csrs h) (hw_deadline h) (hw_shmem h) (hw_fp h) (hw_vec h) (hw_calls h).

(** What the calling hart is, and what the platform has. *)
Class CtxEnv := {
  ctx_self : Z; (* this_hart_index() *)
  ctx_misa : Z;
  ctx_vec_bytes : Z; (* VLENB of the boot hart, 0: no vector unit *)
  ctx_timer : bool; (* a timer driver *)
  ctx_memregions : list memregion;
  ctx_mpxy_resumed : trap_regs -> trap_regs; (* mpxy_context_resumed() *)
}.

Section Hw.
Context {AR : Arch} {KC : Kconfig} {F : Features} {CE : CtxEnv}.

Definition on_csrs (f : csr_file -> csr_file) (h : hart_hw) : hart_hw := h <| hw_csrs ::= f |>.
Definition hw_read (h : hart_hw) (csr : Z) : Z := csr_read (hw_csrs h) csr.
Definition hw_write (h : hart_hw) (csr v : Z) : hart_hw := on_csrs (fun c => csr_write c csr v) h.
Definition hw_call (h : hart_hw) (d : dcall) : hart_hw := h <| hw_calls := d :: hw_calls h |>.

(** sie and sip are the delegated bits of mie and mip. *)
Definition sie_read (h : hart_hw) : Z := Z.land (hw_read h CSR_MIE) (hw_read h CSR_MIDELEG).
Definition sie_write (h : hart_hw) (v : Z) : hart_hw :=
  let mideleg := hw_read h CSR_MIDELEG in
  hw_write h CSR_MIE (Z.lor (Z.land (hw_read h CSR_MIE) (unot mideleg)) (Z.land v mideleg)).
Definition sip_read (h : hart_hw) : Z := Z.land (hw_read h CSR_MIP) (hw_read h CSR_MIDELEG).

(** [csr_read64], [csr_write64]: on RV32 the upper half is [csrh]. *)
Definition csr_read64 (h : hart_hw) (csr csrh : Z) : Z :=
  match arch_xlen with
  | RV32 => Z.lor (Z.shiftl (hw_read h csrh) 32) (hw_read h csr)
  | RV64 => hw_read h csr
  end.
Definition csr_write64 (h : hart_hw) (csr csrh v : Z) : hart_hw :=
  match arch_xlen with
  | RV32 => hw_write (hw_write h csr (v mod 2 ^ 32)) csrh (v / 2 ^ 32)
  | RV64 => hw_write h csr v
  end.

(** ** The timer core ([drivers/timer/timer.c]) *)

Definition timer_smode_get (h : hart_hw) : Z :=
  if negb (hart_has HART_FEAT_SSTC) then hw_deadline h
  else csr_read64 h CSR_STIMECMP CSR_STIMECMPH.

Definition timer_smode_restore (h : hart_hw) (when : Z) : hart_hw :=
  if hart_has HART_FEAT_SSTC then
    let h := match arch_xlen with
             | RV32 => hw_write (hw_write h CSR_STIMECMP (unot 0)) CSR_STIMECMPH (Z.shiftr when 32)
             | RV64 => h
             end in
    hw_write h CSR_STIMECMP when
  else if negb ctx_timer then h
  else
    let h := h <| hw_deadline := when |> in
    let h := on_csrs (fun c => csr_clear c CSR_MIP MIP_STIP) h in
    let h := hw_call h (TimerSetEvent when) in
    on_csrs (fun c => csr_set c CSR_MIE MIP_MTIP) h.

(** [mpxy_hart_shmem_swap] *)
Definition mpxy_hart_shmem_swap (h : hart_hw) (addr : Z) : Z * hart_hw := (hw_shmem h, h <| hw_shmem := addr |>).

(** ** Floating point and vectors *)

Inductive vec_unit : Set := VEC_NONE | VEC_SWITCHED | VEC_CLEARED.

Definition vector_unit (h : hart_hw) : vec_unit * hart_hw :=
  if negb (truth (Z.land ctx_misa MISA_EXT_V)) then (VEC_NONE, h)
  else
    let h := on_csrs (fun c => csr_set c CSR_MSTATUS MSTATUS_VS) h in
    (if truth ctx_vec_bytes && (hw_read h CSR_VLENB <=? ctx_vec_bytes) then VEC_SWITCHED else VEC_CLEARED, h).

Definition fp_on (h : hart_hw) : hart_hw := on_csrs (fun c => csr_set c CSR_MSTATUS MSTATUS_FS) h.

Definition unit_state_save (ctx : domain_context) (h : hart_hw) : domain_context * hart_hw :=
  let '(ctx, h) :=
    if truth (Z.land ctx_misa MISA_EXT_F) then (ctx <| c_fp := hw_fp h |>, fp_on h) else (ctx, h) in
  let '(unit, h) := vector_unit h in
  match unit with
  | VEC_SWITCHED => (ctx <| c_vec := Some (hw_vec h) |>, h)
  | _ => (ctx, h)
  end.

Definition vec_cleared : vec_state := VecState 0 0 0 0 (replicate 32 0).

Definition unit_state_restore (ctx : domain_context) (h : hart_hw) : hart_hw :=
  let h := if truth (Z.land ctx_misa MISA_EXT_F) then (fp_on h) <| hw_fp := c_fp ctx |> else h in
  let '(unit, h) := vector_unit h in
  match unit with
  | VEC_SWITCHED => match c_vec ctx with Some v => h <| hw_vec := v |> | None => h end
  | VEC_CLEARED => h <| hw_vec := vec_cleared |>
  | VEC_NONE => h
  end.

(** ** The hypervisor's CSRs *)

Definition hyp_number (i : Z) : option Z := hyp_csrs !! Z.to_nat i.
Definition hyp_csr_read (h : hart_hw) (i : Z) : Z :=
  match hyp_number i with Some csr => hw_read h csr | None => 0 end.
Definition hyp_csr_write (h : hart_hw) (i v : Z) : hart_hw :=
  match hyp_number i with Some csr => hw_write h csr v | None => h end.

Definition hyp_last : Z := if hart_has HART_FEAT_AIA then HYP_CSR_COUNT else HYP_FIRST_AIA.

Definition hyp_get (ctx : domain_context) (i : Z) : Z := default 0 (c_hyp ctx !! Z.to_nat i).

Definition guest_tlb_flush (h : hart_hw) : hart_hw := hw_call h GuestTlbFlush.

Definition hyp_state_save (ctx : domain_context) (h : hart_hw) : domain_context * hart_hw :=
  if negb (hart_has HART_FEAT_H) then (ctx, h)
  else
    let ctx := for_upto (Z.to_nat hyp_last)
      (fun i ctx => ctx <| c_hyp := <[Z.to_nat i := hyp_csr_read h i]> (c_hyp ctx) |>) ctx in
    let ctx := ctx <| c_htimedelta := csr_read64 h CSR_HTIMEDELTA CSR_HTIMEDELTAH |> in
    let ctx := if hart_has HART_FEAT_MENVCFG then ctx <| c_henvcfg := csr_read64 h CSR_HENVCFG CSR_HENVCFGH |> else ctx in
    let ctx := if hart_has HART_FEAT_SMSTATEEN then ctx <| c_hstateen0 := csr_read64 h CSR_HSTATEEN0 CSR_HSTATEEN0H |> else ctx in
    let ctx := if hart_has HART_FEAT_SSTC then ctx <| c_vstimecmp := csr_read64 h CSR_VSTIMECMP CSR_VSTIMECMPH |> else ctx in
    (ctx, guest_tlb_flush h).

Definition hyp_state_restore (ctx : domain_context) (h : hart_hw) : hart_hw :=
  if negb (hart_has HART_FEAT_H) then h
  else
    let h := if hart_has HART_FEAT_SSTC then csr_write64 h CSR_VSTIMECMP CSR_VSTIMECMPH (2 ^ 64 - 1) else h in
    let h := for_upto (Z.to_nat hyp_last) (fun i h => hyp_csr_write h i (hyp_get ctx i)) h in
    let h := csr_write64 h CSR_HTIMEDELTA CSR_HTIMEDELTAH (c_htimedelta ctx) in
    let h := if hart_has HART_FEAT_MENVCFG then csr_write64 h CSR_HENVCFG CSR_HENVCFGH (c_henvcfg ctx) else h in
    let h := if hart_has HART_FEAT_SMSTATEEN then csr_write64 h CSR_HSTATEEN0 CSR_HSTATEEN0H (c_hstateen0 ctx) else h in
    let h := if hart_has HART_FEAT_SSTC then csr_write64 h CSR_VSTIMECMP CSR_VSTIMECMPH (c_vstimecmp ctx) else h in
    let h := guest_tlb_flush h in
    match arch_xlen with
    | RV32 => on_csrs (fun c => csr_clear c CSR_MSTATUSH (Z.lor (BIT MSTATUSH_MPV_BIT) (BIT 6))) h
    | RV64 => h
    end.
End Hw.

(** ** The state of the domains *)

Record dstate : Type := DState {
  ds_domains : list domain;
  ds_ctx : Z -> Z -> domain_context; (* by domain and hart *)
  ds_at : Z -> Z; (* the domain a hart runs ([h->domain]) *)
  ds_hsm : Z -> Z; (* the state of a hart ([h->hsm_state]) *)
  ds_hw : hart_hw; (* the calling hart *)
}.
#[export] Instance dstate_eta : Settable dstate := fun s =>
  DState (ds_domains s) (ds_ctx s) (ds_at s) (ds_hsm s) (ds_hw s).

(** What became of a call: it returns, with the registers to go on with, or
    the hart stops. *)
Inductive moved : Type :=
| Moved (rc : Z) (s : dstate) (regs : trap_regs)
| HartStopped (s : dstate).

Definition regs_zero : trap_regs := TrapRegs (replicate 32 0) 0 0.

Section Moves.
Context {AR : Arch} {KC : Kconfig} {F : Features} {HT : HartTable} {CE : CtxEnv}.
Abbreviation self := ctx_self.

Definition fset2 {A} (f : Z -> Z -> A) (d h : Z) (v : A) : Z -> Z -> A :=
  fun d' h' => if decide (d' = d /\ h' = h) then v else f d' h'.
Definition fset1 {A} (f : Z -> A) (i : Z) (v : A) : Z -> A := fun j => if decide (j = i) then v else f j.

(** [context_of]; a null domain does not occur. *)
Definition context_of (s : dstate) (d : Z) : domain_context := ds_ctx s d self.
Definition ctx_update (s : dstate) (d h : Z) (f : domain_context -> domain_context) : dstate :=
  s <| ds_ctx := fset2 (ds_ctx s) d h (f (ds_ctx s d h)) |>.
Definition dom_at (s : dstate) (d : Z) : domain := default domain_zero (ds_domains s !! Z.to_nat d).
Definition dom_update (s : dstate) (d : Z) (f : domain -> domain) : dstate :=
  s <| ds_domains := alter f (Z.to_nat d) (ds_domains s) |>.
Definition this_domain (s : dstate) : Z := ds_at s self.
Definition hw_update (s : dstate) (f : hart_hw -> hart_hw) : dstate := s <| ds_hw ::= f |>.

(** ** Saving and restoring *)

(** [hart.c]; U-mode gets from S-mode what S-mode has, until S-mode says
    otherwise. *)
Definition hart_sstateen_csr (n : Z) : Z :=
  if n =? 0 then CSR_SSTATEEN0 else if n =? 1 then CSR_SSTATEEN0 + 1
  else if n =? 2 then CSR_SSTATEEN0 + 2 else CSR_SSTATEEN0 + 3.
Definition hart_sstateen_read (h : hart_hw) (n : Z) : Z := hw_read h (hart_sstateen_csr n).
Definition hart_sstateen_write (h : hart_hw) (n val : Z) : hart_hw := hw_write h (hart_sstateen_csr n) val.
Definition hart_sstateen_reset (h : hart_hw) : hart_hw :=
  if negb (hart_has HART_FEAT_SMSTATEEN) then h
  else for_upto 4 (fun i h => hart_sstateen_write h i (unot 0)) h.

Definition sstateen_save (ctx : domain_context) (h : hart_hw) : domain_context :=
  if hart_has HART_FEAT_SMSTATEEN then
    for_upto 4 (fun i ctx => ctx <| c_sstateen := <[Z.to_nat i := hart_sstateen_read h i]> (c_sstateen ctx) |>) ctx
  else ctx.
Definition sstateen_restore (ctx : domain_context) (h : hart_hw) : hart_hw :=
  if hart_has HART_FEAT_SMSTATEEN then
    for_upto 4 (fun i h => hart_sstateen_write h i (default 0 (c_sstateen ctx !! Z.to_nat i))) h
  else h.

Definition context_save (ctx : domain_context) (regs : trap_regs) (h : hart_hw) : domain_context * hart_hw :=
  let ctx := ctx <| c_regs := regs |> <| c_sie := sie_read h |> <| c_sip := sip_read h |>
    <| c_stvec := hw_read h CSR_STVEC |> <| c_sscratch := hw_read h CSR_SSCRATCH |>
    <| c_sepc := hw_read h CSR_SEPC |> <| c_scause := hw_read h CSR_SCAUSE |>
    <| c_stval := hw_read h CSR_STVAL |> <| c_satp := hw_read h CSR_SATP |>
    <| c_scounteren := hw_read h CSR_SCOUNTEREN |> in
  let ctx := if hart_has HART_FEAT_MENVCFG then ctx <| c_senvcfg := hw_read h CSR_SENVCFG |> else ctx in
  let ctx := sstateen_save ctx h in
  let ctx := ctx <| c_timer := timer_smode_get h |> in
  let '(shmem, h) := mpxy_hart_shmem_swap h MPXY_SHMEM_NONE in
  let ctx := ctx <| c_mpxy_shmem := shmem |> in
  let '(ctx, h) := hyp_state_save ctx h in
  let '(ctx, h) := unit_state_save ctx h in
  (ctx, hw_call h ServicesOut).

(** The registers' part of [context_restore]. *)
Definition hw_restore (ctx : domain_context) (h : hart_hw) : hart_hw :=
  let h := sie_write h (c_sie ctx) in
  let h := hw_write h CSR_STVEC (c_stvec ctx) in
  let h := hw_write h CSR_SSCRATCH (c_sscratch ctx) in
  let h := hw_write h CSR_SEPC (c_sepc ctx) in
  let h := hw_write h CSR_SCAUSE (c_scause ctx) in
  let h := hw_write h CSR_STVAL (c_stval ctx) in
  let h := hw_write h CSR_SATP (c_satp ctx) in
  let h := hw_write h CSR_SCOUNTEREN (c_scounteren ctx) in
  let h := if hart_has HART_FEAT_MENVCFG then hw_write h CSR_SENVCFG (c_senvcfg ctx) else h in
  let h := sstateen_restore ctx h in
  let h := hyp_state_restore ctx h in
  let h := unit_state_restore ctx h in
  let h := timer_smode_restore h (c_timer ctx) in
  let h := on_csrs (fun c => csr_clear c CSR_MIP MIP_SSIP) h in
  let h := if truth (Z.land (c_sip ctx) MIP_SSIP) || c_ipi ctx
           then on_csrs (fun c => csr_set c CSR_MIP MIP_SSIP) h else h in
  snd (mpxy_hart_shmem_swap h (c_mpxy_shmem ctx)).

Definition context_restore (s : dstate) (to : Z) (fresh : bool) : dstate :=
  let from := this_domain s in
  let s := hw_update s (hw_restore (context_of s to)) in
  let s := ctx_update s to self (fun c => c <| c_ipi := false |>) in
  let s := dom_update s from (fun d => d <| d_assigned := hartmask_clear_atomic (d_assigned d) self |>) in
  let s := dom_update s to (fun d => d <| d_parked := hartmask_clear_atomic (d_parked d) self |>) in
  let s := dom_update s to (fun d => d <| d_assigned := hartmask_set_atomic (d_assigned d) self |>) in
  let s := s <| ds_at := fset1 (ds_at s) self to |> in
  let s := ctx_update s to self (fun c => c <| c_state := CONTEXT_RUNNING |>) in
  hw_update s (fun h => hw_call (hw_call h (PmpDomainSet to)) (ServicesIn fresh)).

Definition context_park (s : dstate) (ctx : Z) (state : context_state) (regs : trap_regs) (quiet : bool) : dstate :=
  let '(c, h) := context_save (context_of s ctx) regs (ds_hw s) in
  let s := ctx_update (s <| ds_hw := h |>) ctx self (fun _ => c <| c_state := state |> <| c_quiet := quiet |>) in
  dom_update s (this_domain s) (fun d => d <| d_parked := hartmask_set_atomic (d_parked d) self |>).

(** mstatus for a context that has never run. *)
Definition MSTATUS_FRESH_OFF : Z :=
  fold_right Z.lor 0
    [ 3 * 2 ^ 11 (* MPP *); BIT MSTATUS_MPIE_BIT; BIT MSTATUS_MPRV_BIT; BIT MSTATUS_SIE_BIT; BIT MSTATUS_SPIE_BIT;
      BIT MSTATUS_SPP_BIT; MSTATUS_FS; MSTATUS_VS; BIT 18 (* SUM *); BIT 19 (* MXR *); BIT MSTATUS_SDT_BIT ].
Definition fresh_mstatus (mstatus mode : Z) : Z :=
  let mstatus := Z.land mstatus (unot MSTATUS_FRESH_OFF) in
  let mstatus := match arch_xlen with
                 | RV64 => Z.land mstatus (unot (Z.lor (BIT MSTATUS_MPV_BIT) (BIT 38 (* GVA *))))
                 | RV32 => mstatus
                 end in
  Z.lor mstatus (ushl mode MSTATUS_MPP_SHIFT).

Definition HSTATUS_VSXL : Z := 3 * 2 ^ 32.

(** [context_fresh]: all zero but for this. *)
Definition context_zero : domain_context :=
  DomainContext CONTEXT_NONE None false false regs_zero 0 0 0 0 0 0 0 0 0 0 (replicate 4 0)
    (replicate (Z.to_nat HYP_CSR_COUNT) 0) 0 0 0 0 0 0 (replicate 33 0) None.
Definition context_fresh (s : dstate) (to : Z) (regs : trap_regs) : domain_context :=
  let ctx := context_of s to in
  let dom := dom_at s to in
  let new := context_zero <| c_caller := c_caller ctx |> <| c_vec := c_vec ctx |> in
  let r := regs_zero <| tr_mstatus := fresh_mstatus (tr_mstatus regs) (d_next_mode dom) |> <| tr_mepc := d_next_addr dom |> in
  let r := trap_reg_set (trap_reg_set r A0 (hart_id_of ht_ids self)) A1 (d_next_arg1 dom) in
  let new := new <| c_regs := r |> <| c_stvec := d_next_addr dom |> <| c_timer := 2 ^ 64 - 1 |>
    <| c_vstimecmp := 2 ^ 64 - 1 |> <| c_sstateen := replicate 4 (unot 0) |> in
  let new := match arch_xlen with
             | RV64 => if hart_has HART_FEAT_H
                       then new <| c_hyp := <[Z.to_nat HYP_HSTATUS := Z.land (hw_read (ds_hw s) CSR_HSTATUS) HSTATUS_VSXL]> (c_hyp new) |>
                       else new
             | RV32 => new
             end in
  let new := new <| c_mpxy_shmem := MPXY_SHMEM_NONE |> in
  match c_vec ctx with
  | Some _ => new <| c_vec := Some (VecState 0 0 0 (BIT (XLEN - 1)) (replicate 32 0)) |>
  | None => new
  end.

(** [regs] is [None] for a hart without a trap frame, which is never on its
    way to a context that has not run. *)
Definition context_switch (s : dstate) (to : Z) (regs : option trap_regs) (error value : Z) : moved :=
  let dom := dom_at s to in
  let fresh := bool_decide (c_state (context_of s to) = CONTEXT_NONE) in
  let frame := default regs_zero regs in
  if fresh then
    let s := ctx_update s to self (fun _ => context_fresh s to frame) in
    if negb (d_boot_hart dom =? self) then
      let s := ctx_update s to self (fun c => c <| c_regs := (c_regs c) <| tr_mstatus := tr_mstatus frame |> |>) in
      let s := s <| ds_hsm := fset1 (ds_hsm s) self SBI_HSM_STATE_STOP_PENDING |> in
      HartStopped (context_restore s to true)
    else
      let s := ctx_update s to self (fun c => c <| c_quiet := false |>) in
      let s := context_restore s to true in
      Moved SBI_SUCCESS s (c_regs (context_of s to))
  else
    let s := if negb (c_quiet (context_of s to))
             then ctx_update s to self (fun c => c <| c_regs := trap_reg_set (trap_reg_set (c_regs c) A0 (wrap error)) A1 value |>)
             else s in
    let s := ctx_update s to self (fun c => c <| c_quiet := false |>) in
    let s := context_restore s to false in
    let s := ctx_update s to self (fun c => c <| c_regs ::= ctx_mpxy_resumed |>) in
    Moved SBI_SUCCESS s (c_regs (context_of s to)).

Definition caller_waits (s : dstate) (d : Z) : option Z :=
  match c_caller (context_of s d) with
  | Some c => if bool_decide (c_state (context_of s c) = CONTEXT_CALLING) then Some c else None
  | None => None
  end.

(** ** The moves *)

Definition enter (s : dstate) (regs : trap_regs) (target : Z) (arg : Z) (quiet : bool) : moved :=
  let here := this_domain s in
  let rc :=
    if (target =? here) || negb (hartmask_test (d_possible (dom_at s target)) self) then SBI_ERR_INVALID_PARAM
    else if negb quiet && negb (domain_may_enter (dom_at s here) (dom_at s target)) then SBI_ERR_DENIED
    else if truth (d_stopping (dom_at s target)) || truth (d_stopping (dom_at s here)) then SBI_ERR_DENIED
    else match c_state (context_of s target) with
         | CONTEXT_RUNNING | CONTEXT_CALLING => SBI_ERR_ALREADY_AVAILABLE
         | CONTEXT_NONE =>
             if domain_range_ok ctx_memregions (Some (dom_at s target)) (d_next_addr (dom_at s target)) 4 DOMAIN_PERM_SU_X
             then SBI_SUCCESS else SBI_ERR_INVALID_ADDRESS
         | CONTEXT_IDLE => SBI_SUCCESS
         end in
  if truth rc then Moved rc s regs
  else
    let s := context_park s here CONTEXT_CALLING regs quiet in
    let s := ctx_update s target self (fun c => c <| c_caller := Some here |>) in
    context_switch s target (Some regs) SBI_SUCCESS arg.

Definition domain_enter (s : dstate) (regs : trap_regs) (target arg : Z) : moved := enter s regs target arg false.

Definition domain_enterable (s : dstate) (target : Z) : bool :=
  if (target =? this_domain s) || negb (hartmask_test (d_possible (dom_at s target)) self) ||
     truth (d_stopping (dom_at s target)) then false
  else match c_state (context_of s target) with
       | CONTEXT_IDLE => true
       | CONTEXT_NONE => d_boot_hart (dom_at s target) =? self
       | _ => false
       end.

Definition domain_switch_to (s : dstate) (regs : trap_regs) (target : Z) : moved :=
  if domain_enterable s target then enter s regs target 0 true else Moved SBI_ERR_DENIED s regs.

Definition domain_caller_key (s : dstate) : Z := default (-1) (caller_waits s (this_domain s)).

(** Where [leave] goes: [first] for a service's move, the domains from 1 on
    for S-mode's. *)
Definition leave_target (s : dstate) (quiet : bool) (first : option Z) : option Z :=
  let here := this_domain s in
  match caller_waits s here with
  | Some c => Some c
  | None =>
      if quiet then
        match first with
        | Some d =>
            if negb (d =? here) && (d_boot_hart (dom_at s d) =? self) && hartmask_test (d_possible (dom_at s d)) self &&
               negb (truth (d_stopping (dom_at s d))) && bool_decide (c_state (context_of s d) = CONTEXT_NONE) &&
               domain_range_ok ctx_memregions (Some (dom_at s d)) (d_next_addr (dom_at s d)) 4 DOMAIN_PERM_SU_X
            then Some d else None
        | None => None
        end
      else
        List.find (fun d =>
          negb (d =? here) && hartmask_test (d_possible (dom_at s d)) self &&
          domain_may_enter (dom_at s here) (dom_at s d) && negb (truth (d_stopping (dom_at s d))) &&
          bool_decide (c_state (context_of s d) = CONTEXT_NONE))
          (seqZ 1 (domain_count (ds_domains s) - 1))
  end.

Definition leave (s : dstate) (regs : trap_regs) (value : Z) (quiet : bool) (first : option Z) : moved :=
  let here := this_domain s in
  let to := leave_target s quiet first in
  let back := match caller_waits s here with Some _ => true | None => false end in
  let s := match to with
           | Some d => if back then s else ctx_update s d self (fun c => c <| c_caller := None |>)
           | None => s
           end in
  match to with
  | None => Moved SBI_ERR_DENIED s regs
  | Some d =>
      if truth (d_stopping (dom_at s here)) then Moved SBI_ERR_DENIED s regs
      else
        let s := ctx_update s here self (fun c => c <| c_caller := None |>) in
        let s := context_park s here CONTEXT_IDLE regs quiet in
        context_switch s d (Some regs) SBI_SUCCESS value
  end.

Definition domain_exit (s : dstate) (regs : trap_regs) (value : Z) : moved := leave s regs value false None.
Definition domain_switch_back (s : dstate) (regs : trap_regs) (first : option Z) : moved := leave s regs 0 true first.

(** [true]: the domain is being stopped, and [domain_stop_self] is next. *)
Definition domain_context_started (s : dstate) : bool * dstate :=
  let here := this_domain s in
  let s := ctx_update s here self (fun c => c <| c_state := CONTEXT_RUNNING |>) in
  (truth (d_stopping (dom_at s here)), s).

Definition domain_ipi_parked (s : dstate) (index : Z) : dstate :=
  let here := this_domain s in
  if ds_at s index =? here then hw_update s (fun h => hw_call h (IpiSmode index))
  else if negb (bool_decide (c_state (ds_ctx s here index) = CONTEXT_NONE))
  then ctx_update s here index (fun c => c <| c_ipi := true |>) else s.

Definition domain_stop_self (s : dstate) (regs : option trap_regs) : moved :=
  let cur := this_domain s in
  let to := caller_waits s cur in
  let s := ctx_update s cur self (fun c => c <| c_state := CONTEXT_NONE |> <| c_caller := None |>) in
  match to with
  | None => HartStopped (s <| ds_hsm := fset1 (ds_hsm s) self SBI_HSM_STATE_STOP_PENDING |>)
  | Some d => context_switch (hw_update s (fun h => hw_call h ServicesOut)) d regs SBI_ERR_FAILED 0
  end.

(** [valid]: hart_index_valid(). *)
Definition domain_running (s : dstate) (valid : Z -> bool) (d : Z) : bool :=
  existsb (fun i => domain_hart_assigned (dom_at s d) i && valid i && negb (ds_hsm s i =? SBI_HSM_STATE_STOPPED))
    (seqZ 0 (hart_table_size ht_ids)) || domain_has_parked (dom_at s d).

(** Where it succeeds, the answer to the call is [hsm_hart_boot]'s. *)
Definition domain_start (s : dstate) (valid : Z -> bool) (d : Z) : Z * dstate :=
  let dom := dom_at s d in
  let rc :=
    if truth (d_stopping dom) then SBI_ERR_DENIED
    else if domain_running s valid d then SBI_ERR_ALREADY_AVAILABLE
    else if (d_boot_hart dom <? 0) || negb (domain_hart_assigned dom (d_boot_hart dom)) then SBI_ERR_INVALID_STATE
    else if negb (domain_range_ok ctx_memregions (Some dom) (d_next_addr dom) 4 DOMAIN_PERM_SU_X) then SBI_ERR_INVALID_ADDRESS
    else SBI_SUCCESS in
  if truth rc then (rc, s)
  else
    let s := for_upto (Z.to_nat (hart_table_size ht_ids)) (fun i s => ctx_update s d i (fun c => c <| c_state := CONTEXT_NONE |>)) s in
    let s := hw_update s (fun h => hw_call h (SseDomainReset d)) in
    (SBI_SUCCESS, hw_update s (fun h => hw_call h (HsmHartBoot (d_boot_hart dom) (d_next_addr dom) (d_next_arg1 dom) (d_next_mode dom)))).

Definition domain_stop_pending (s : dstate) : bool := truth (d_stopping (dom_at s (this_domain s))).
Definition domain_stop_pending_on (s : dstate) (index : Z) : bool := truth (d_stopping (dom_at s (ds_at s index))).

(** [domain_stop], up to the wait: the domain is marked, and the contexts
    that wait are gone. *)
Definition domain_stop_begin (s : dstate) (d : Z) : dstate :=
  let s := dom_update s d (fun dom => dom <| d_stopping := 1 |>) in
  let s := for_upto (Z.to_nat (hart_table_size ht_ids)) (fun i s =>
    match c_state (ds_ctx s d i) with
    | CONTEXT_CALLING | CONTEXT_IDLE =>
        let s := ctx_update s d i (fun c => c <| c_state := CONTEXT_NONE |> <| c_caller := None |>) in
        dom_update s d (fun dom => dom <| d_parked := hartmask_clear_atomic (d_parked dom) i |>)
    | _ => s
    end) s in
  let s := hw_update s (fun h => hw_call h HsmStartBarrier) in
  for_upto (Z.to_nat (hart_table_size ht_ids)) (fun i s =>
    if negb (i =? self) && domain_hart_assigned (dom_at s d) i then hw_update s (fun h => hw_call h (IpiKick i)) else s) s.

(** Do other harts still run it? *)
Definition domain_stop_busy (s : dstate) (valid : Z -> bool) (d : Z) : bool :=
  existsb (fun i => negb (i =? self) && domain_hart_assigned (dom_at s d) i && valid i &&
                    negb (ds_hsm s i =? SBI_HSM_STATE_STOPPED)) (seqZ 0 (hart_table_size ht_ids)).

(** After it. *)
Definition domain_stop_end (s : dstate) (regs : trap_regs) (d : Z) : moved :=
  let s := hw_update s (fun h => hw_call h (SseDomainReset d)) in
  let s := dom_update s d (fun dom => dom <| d_stopping := 0 |>) in
  if d =? this_domain s then domain_stop_self s (Some regs) else Moved SBI_SUCCESS s regs.
End Moves.
