(* ===== verification/DomainContextProps.v ===== *)
(** What moving harts between domains keeps: every hart in one domain, the
    masks of the domains in step with the contexts, and a way in only where
    a domain lets another in. *)

From S2P Require Import Prelude Arch Csr Fields Memregion Bitstring Domain Hart DomainContext.

#[local] Open Scope Z_scope.
#[local] Set Warnings "-clear-no-such-hyp".

Section Placement.
Context {AR : Arch} {KC : Kconfig} {F : Features} {HT : HartTable} {CE : CtxEnv}.
Abbreviation table := (hart_table_size ht_ids).
Abbreviation self := ctx_self.

Definition waits (c : domain_context) : bool :=
  match c_state c with CONTEXT_CALLING | CONTEXT_IDLE => true | _ => false end.

(** Every hart runs one domain, which alone has it in its mask; a domain has
    a hart among its parked ones when the hart's context waits there; and
    the context a hart runs is that of its domain. *)
Record placed (s : dstate) : Prop := {
  pl_at h : 0 <= h < table -> 0 <= ds_at s h < domain_count (ds_domains s);
  pl_masks d : 0 <= d < domain_count (ds_domains s) ->
    hartmask_wf (d_assigned (dom_at s d)) /\ hartmask_wf (d_parked (dom_at s d));
  pl_assigned d h : 0 <= d < domain_count (ds_domains s) -> 0 <= h < table ->
    hartmask_test (d_assigned (dom_at s d)) h = bool_decide (ds_at s h = d);
  pl_parked d h : 0 <= d < domain_count (ds_domains s) -> 0 <= h < table ->
    hartmask_test (d_parked (dom_at s d)) h = waits (ds_ctx s d h);
  pl_running d h : 0 <= d < domain_count (ds_domains s) -> 0 <= h < table ->
    c_state (ds_ctx s d h) = CONTEXT_RUNNING -> ds_at s h = d;
  pl_here h : 0 <= h < table -> waits (ds_ctx s (ds_at s h) h) = false;
}.

(** The machine: more room in the masks than harts, a calling hart in the table. *)
Record ctx_env_ok : Prop := {
  ce_self : 0 <= self < table;
  ce_count : table <= CONFIG_PLATFORM_HART_COUNT;
}.
Context (HE : ctx_env_ok).

(** *** Access *)

Lemma dom_at_update (s : dstate) (d d' : Z) (f : domain -> domain) :
  0 <= d < domain_count (ds_domains s) -> 0 <= d' ->
  dom_at (dom_update s d f) d' = if decide (d' = d) then f (dom_at s d) else dom_at s d'.
Proof.
  intros Hd Hd'. unfold dom_at, dom_update, domain_count in *. cbn. case_decide as E.
  - subst d'. rewrite list_lookup_alter_eq. destruct (lookup_lt_is_Some_2 (ds_domains s) (Z.to_nat d)) as [x Hx]; [lia|].
    by rewrite Hx.
  - rewrite list_lookup_alter_ne by lia. done.
Qed.

Lemma count_update (s : dstate) (d : Z) (f : domain -> domain) :
  domain_count (ds_domains (dom_update s d f)) = domain_count (ds_domains s).
Proof. unfold domain_count, dom_update. cbn. by rewrite length_alter. Qed.

Lemma ctx_at_update (s : dstate) (d h d' h' : Z) (f : domain_context -> domain_context) :
  ds_ctx (ctx_update s d h f) d' h' = if decide (d' = d /\ h' = h) then f (ds_ctx s d h) else ds_ctx s d' h'.
Proof. done. Qed.

Lemma mask_set (m : hartmask) (i j : Z) :
  hartmask_wf m -> 0 <= i < table -> 0 <= j -> 
  hartmask_wf (hartmask_set_atomic m i) /\ hartmask_test (hartmask_set_atomic m i) j = bool_decide (i = j) || hartmask_test m j.
Proof using HE.
  intros Hm Hi Hj. pose proof (ce_count HE). unfold hartmask_set_atomic, hartmask_test.
  change (bitstr_put m (bit_word i) _) with (bit_set m i). split.
  - apply (bit_set_wf CONFIG_PLATFORM_HART_COUNT); [done|lia].
  - rewrite (bit_test_set CONFIG_PLATFORM_HART_COUNT) by (done || lia). f_equal. apply eq_true_iff_eq. rewrite Z.eqb_eq, bool_decide_eq_true. done.
Qed.

Lemma mask_clear (m : hartmask) (i j : Z) :
  hartmask_wf m -> 0 <= i < table -> 0 <= j ->
  hartmask_wf (hartmask_clear_atomic m i) /\ hartmask_test (hartmask_clear_atomic m i) j = negb (bool_decide (i = j)) && hartmask_test m j.
Proof using HE.
  intros Hm Hi Hj. pose proof (ce_count HE). unfold hartmask_clear_atomic, hartmask_test.
  change (bitstr_put m (bit_word i) _) with (bit_clear m i). split.
  - apply (bit_clear_wf CONFIG_PLATFORM_HART_COUNT); [done|lia].
  - rewrite (bit_test_clear CONFIG_PLATFORM_HART_COUNT) by (done || lia). do 2 f_equal. apply eq_true_iff_eq. rewrite Z.eqb_eq, bool_decide_eq_true. done.
Qed.

(** *** What the pieces do to the placement *)

(** A state with the same masks, contexts' states and harts' domains. *)
Definition same_place (s s' : dstate) : Prop :=
  ds_at s' = ds_at s /\ domain_count (ds_domains s') = domain_count (ds_domains s) /\
  (forall d, 0 <= d < domain_count (ds_domains s) ->
     d_assigned (dom_at s' d) = d_assigned (dom_at s d) /\ d_parked (dom_at s' d) = d_parked (dom_at s d)) /\
  (forall d h, c_state (ds_ctx s' d h) = c_state (ds_ctx s d h)).

Lemma same_place_placed (s s' : dstate) : same_place s s' -> placed s -> placed s'.
Proof.
  intros (Ea & Ec & Em & Es) [H1 H2 H3 H4 H5 H6].
  assert (forall d h, waits (ds_ctx s' d h) = waits (ds_ctx s d h)) as Ew by (intros; unfold waits; by rewrite Es).
  split.
  - intros h Hh. rewrite Ea, Ec. auto.
  - intros d Hd. rewrite Ec in Hd. destruct (Em d Hd) as [-> ->]. auto.
  - intros d h Hd Hh. rewrite Ec in Hd. destruct (Em d Hd) as [-> _]. rewrite Ea. auto.
  - intros d h Hd Hh. rewrite Ec in Hd. destruct (Em d Hd) as [_ ->]. rewrite Ew. auto.
  - intros d h Hd Hh. rewrite Ec in Hd. rewrite Es, Ea. auto.
  - intros h Hh. rewrite Ea, Ew. auto.
Qed.

Lemma same_ctx (s : dstate) (d h : Z) (f : domain_context -> domain_context) :
  (forall c, c_state (f c) = c_state c) -> same_place s (ctx_update s d h f).
Proof.
  intros Hf. split_and!; try done. intros d' h'. rewrite ctx_at_update. case_decide as E; [|done]. destruct E as [-> ->]. apply Hf.
Qed.

Lemma same_hw (s : dstate) (f : hart_hw -> hart_hw) : same_place s (hw_update s f).
Proof. split_and!; done. Qed.

Lemma same_hsm (s : dstate) (f : Z -> Z) : same_place s (s <| ds_hsm := f |>).
Proof. split_and!; done. Qed.

Lemma same_place_trans (s1 s2 s3 : dstate) : same_place s1 s2 -> same_place s2 s3 -> same_place s1 s3.
Proof.
  intros (Ea & Ec & Em & Es) (Ea' & Ec' & Em' & Es'). split_and!; [congruence|congruence| |].
  - intros d Hd. destruct (Em d Hd) as [<- <-]. apply Em'. by rewrite Ec.
  - intros d h. by rewrite Es', Es.
Qed.

(** The states, masks and domains after [context_restore]. *)
Lemma restore_place (s : dstate) (to : Z) (fresh : bool) :
  0 <= to < domain_count (ds_domains s) -> 0 <= this_domain s < domain_count (ds_domains s) ->
  let s' := context_restore s to fresh in
  ds_at s' = fset1 (ds_at s) self to /\ domain_count (ds_domains s') = domain_count (ds_domains s) /\
  (forall d, 0 <= d -> dom_at s' d =
     let x := dom_at s d in
     let x := if decide (d = this_domain s) then x <| d_assigned := hartmask_clear_atomic (d_assigned x) self |> else x in
     if decide (d = to) then x <| d_parked := hartmask_clear_atomic (d_parked x) self |>
                               <| d_assigned := hartmask_set_atomic (d_assigned x) self |> else x) /\
  (forall d h, c_state (ds_ctx s' d h) = if decide (d = to /\ h = self) then CONTEXT_RUNNING else c_state (ds_ctx s d h)).
Proof.
  intros Ht Hf. cbv zeta. unfold context_restore. cbv zeta.
  set (s1 := ctx_update (hw_update s _) _ _ _). set (s2 := dom_update s1 _ _). set (s3 := dom_update s2 _ _).
  set (s4 := dom_update s3 _ _). split_and!.
  - done.
  - cbn. unfold s4, s3, s2, dom_update, domain_count. cbn. by rewrite !length_alter.
  - intros d Hd. match goal with |- dom_at ?x d = _ => change (dom_at x d) with (dom_at s4 d) end.
    assert (domain_count (ds_domains s1) = domain_count (ds_domains s)) as E1 by done.
    unfold s4, s3, s2. rewrite !dom_at_update by (rewrite ?count_update, ?E1; lia).
    change (dom_at s1 ?x) with (dom_at s x). change (ds_at s self) with (this_domain s).
    destruct (decide (d = to)) as [->|Hdt].
    + rewrite !decide_True by done. destruct (decide (to = this_domain s)) as [E|]; [|done]. by rewrite <- E.
    + destruct (decide (d = this_domain s)) as [->|]; done.
  - intros d h. cbn. unfold fset2. destruct (decide (d = to /\ h = self)) as [E|]; done.
Qed.

(** On the way out: the calling hart's context is not running any more, and
    it may wait. *)
Record leaving (s : dstate) : Prop := {
  lv_at h : 0 <= h < table -> 0 <= ds_at s h < domain_count (ds_domains s);
  lv_masks d : 0 <= d < domain_count (ds_domains s) ->
    hartmask_wf (d_assigned (dom_at s d)) /\ hartmask_wf (d_parked (dom_at s d));
  lv_assigned d h : 0 <= d < domain_count (ds_domains s) -> 0 <= h < table ->
    hartmask_test (d_assigned (dom_at s d)) h = bool_decide (ds_at s h = d);
  lv_parked d h : 0 <= d < domain_count (ds_domains s) -> 0 <= h < table ->
    hartmask_test (d_parked (dom_at s d)) h = waits (ds_ctx s d h);
  lv_running d h : 0 <= d < domain_count (ds_domains s) -> 0 <= h < table ->
    c_state (ds_ctx s d h) = CONTEXT_RUNNING -> ds_at s h = d /\ h <> self;
  lv_here h : 0 <= h < table -> h <> self -> waits (ds_ctx s (ds_at s h) h) = false;
}.

Lemma same_place_leaving (s s' : dstate) : same_place s s' -> leaving s -> leaving s'.
Proof.
  intros (Ea & Ec & Em & Es) [H1 H2 H3 H4 H5 H6].
  assert (forall d h, waits (ds_ctx s' d h) = waits (ds_ctx s d h)) as Ew by (intros; unfold waits; by rewrite Es).
  split.
  - intros h Hh. rewrite Ea, Ec. auto.
  - intros d Hd. rewrite Ec in Hd. destruct (Em d Hd) as [-> ->]. auto.
  - intros d h Hd Hh. rewrite Ec in Hd. destruct (Em d Hd) as [-> _]. rewrite Ea. auto.
  - intros d h Hd Hh. rewrite Ec in Hd. destruct (Em d Hd) as [_ ->]. rewrite Ew. auto.
  - intros d h Hd Hh. rewrite Ec in Hd. rewrite Es, Ea. auto.
  - intros h Hh Hne. rewrite Ea, Ew. auto.
Qed.

Lemma restore_placed (s : dstate) (to : Z) (fresh : bool) :
  leaving s -> 0 <= to < domain_count (ds_domains s) -> to <> this_domain s -> placed (context_restore s to fresh).
Proof using HE.
  intros [H1 H2 H3 H4 H5 H6] Hto Hne. pose proof (ce_self HE) as Hs.
  pose proof (restore_place s to fresh Hto (H1 self Hs)) as (Ea & Ec & Ed & Es). cbv zeta in *.
  set (s' := context_restore s to fresh) in *. clearbody s'.
  assert (forall d h, ~ (d = to /\ h = self) -> waits (ds_ctx s' d h) = waits (ds_ctx s d h)) as Ew.
  { intros d h Hn. unfold waits. rewrite Es, decide_False by done. done. }
  assert (waits (ds_ctx s' to self) = false) as Ewt by (unfold waits; rewrite Es, decide_True by done; done).
  assert (forall h, ds_at s' h = if decide (h = self) then to else ds_at s h) as Ea' by (intros; by rewrite Ea).
  split.
  - intros h Hh. rewrite Ea', Ec. case_decide; [lia|auto].
  - intros d Hd. rewrite Ec in Hd. rewrite Ed by lia. destruct (H2 d Hd) as [Ha Hp]. cbv zeta.
    destruct (decide (d = to)) as [->|Hdt].
    + rewrite decide_False by done. cbn. split; [by apply (mask_set _ self 0); first [done|lia]|by apply (mask_clear _ self 0); first [done|lia]].
    + destruct (decide (d = this_domain s)); [|done]. cbn. split; [by apply (mask_clear _ self 0); first [done|lia]|done].
  - intros d h Hd Hh. rewrite Ec in Hd. rewrite Ed, Ea' by lia. destruct (H2 d Hd) as [Ha Hp]. cbv zeta.
    specialize (H3 d h Hd Hh). destruct (decide (d = to)) as [->|Hdt].
    + rewrite decide_False by done. cbn. destruct (mask_set (d_assigned (dom_at s to)) self h Ha Hs ltac:(lia)) as [_ ->].
      rewrite H3. destruct (decide (h = self)) as [->|Hhs].
      { rewrite (bool_decide_eq_true_2 (self = self)), (bool_decide_eq_true_2 (to = to)) by done. done. }
      rewrite (bool_decide_eq_false_2 (self = h)) by congruence. done.
    + destruct (decide (d = this_domain s)) as [->|Hdh].
      * cbn. destruct (mask_clear (d_assigned (dom_at s (this_domain s))) self h Ha Hs ltac:(lia)) as [_ ->].
        rewrite H3. destruct (decide (h = self)) as [->|Hhs].
        -- rewrite (bool_decide_eq_true_2 (self = self)), (bool_decide_eq_false_2 (to = this_domain s)) by done. done.
        -- rewrite (bool_decide_eq_false_2 (self = h)) by congruence. done.
      * rewrite H3. destruct (decide (h = self)) as [->|Ehs]; [|done]. unfold this_domain in Hdh. rewrite (bool_decide_eq_false_2 (ds_at s self = d)), (bool_decide_eq_false_2 (to = d)) by congruence. done.
  - intros d h Hd Hh. rewrite Ec in Hd. rewrite Ed by lia. destruct (H2 d Hd) as [Ha Hp]. cbv zeta.
    specialize (H4 d h Hd Hh). destruct (decide (d = to)) as [->|Hdt].
    + rewrite decide_False by done. cbn. destruct (mask_clear (d_parked (dom_at s to)) self h Hp Hs ltac:(lia)) as [_ ->].
      rewrite H4. destruct (decide (h = self)) as [->|Hhs]; [rewrite (bool_decide_eq_true_2 (self = self)) by done; by rewrite Ewt|].
      rewrite (bool_decide_eq_false_2 (self = h)) by congruence. rewrite Ew by naive_solver. done.
    + rewrite Ew by naive_solver. rewrite <- H4. destruct (decide (d = this_domain s)); done.
  - intros d h Hd Hh. rewrite Ec in Hd. rewrite Es, Ea'. intros Hst. destruct (decide (d = to /\ h = self)) as [[-> ->]|Hn].
    + by rewrite decide_True.
    + destruct (H5 d h Hd Hh Hst) as [<- Hhs]. by rewrite decide_False.
  - intros h Hh. rewrite Ea'. destruct (decide (h = self)) as [->|Hhs]; [done|]. rewrite Ew by naive_solver. auto.
Qed.

(** *** The moves *)

Definition moved_state (m : moved) : dstate := match m with Moved _ s _ | HartStopped s => s end.

Lemma park_leaving (s : dstate) (state : context_state) (regs : trap_regs) (quiet : bool) :
  placed s -> state = CONTEXT_CALLING \/ state = CONTEXT_IDLE ->
  leaving (context_park s (this_domain s) state regs quiet) /\
  ds_at (context_park s (this_domain s) state regs quiet) = ds_at s /\
  domain_count (ds_domains (context_park s (this_domain s) state regs quiet)) = domain_count (ds_domains s) /\
  (forall d h, ~ (d = this_domain s /\ h = self) ->
     ds_ctx (context_park s (this_domain s) state regs quiet) d h = ds_ctx s d h) /\
  (forall d, 0 <= d -> d_boot_hart (dom_at (context_park s (this_domain s) state regs quiet) d) = d_boot_hart (dom_at s d)).
Proof using HE.
  intros [H1 H2 H3 H4 H5 H6] Hst. pose proof (ce_self HE) as Hs. pose proof (H1 self Hs) as Hh. change (ds_at s self) with (this_domain s) in Hh.
  unfold context_park. destruct (context_save _ _ _) as [c hw]. set (c' := c <| c_state := state |> <| c_quiet := quiet |>).
  set (s1 := ctx_update (s <| ds_hw := hw |>) (this_domain s) self (fun _ => c')).
  change (this_domain s1) with (this_domain s). set (s' := dom_update s1 (this_domain s) _).
  assert (domain_count (ds_domains s') = domain_count (ds_domains s)) as Ec by (unfold s'; rewrite count_update; done).
  assert (forall d, 0 <= d -> dom_at s' d = if decide (d = this_domain s)
            then (dom_at s d) <| d_parked := hartmask_set_atomic (d_parked (dom_at s d)) self |> else dom_at s d) as Ed.
  { intros d Hd. unfold s'. rewrite dom_at_update by done. case_decide; [by subst|done]. }
  assert (forall d h, ds_ctx s' d h = if decide (d = this_domain s /\ h = self) then c' else ds_ctx s d h) as Ex by done.
  assert (waits c' = true) as Hw by (unfold waits; cbn; by destruct Hst as [-> | ->]).
  assert (c_state c' <> CONTEXT_RUNNING) as Hnr by (cbn; by destruct Hst as [-> | ->]).
  assert (ds_at s' = ds_at s) as Ea by done. clearbody s'. split_and!; try done.
  - split.
    + intros h Hh'. rewrite Ea, Ec. auto.
    + intros d Hd. rewrite Ec in Hd. rewrite Ed by lia. destruct (H2 d Hd). case_decide; [|done]. cbn. split; [done|].
      apply (mask_set _ self 0); first [done|lia].
    + intros d h Hd Hh'. rewrite Ec in Hd. rewrite Ed, Ea by lia. rewrite <- H3 by done. by case_decide.
    + intros d h Hd Hh'. rewrite Ec in Hd. rewrite Ed, Ex by lia. destruct (H2 d Hd) as [_ Hp].
      destruct (decide (d = this_domain s)) as [->|Hne]; [|rewrite decide_False by naive_solver; auto]. cbn.
      destruct (mask_set (d_parked (dom_at s (this_domain s))) self h Hp Hs ltac:(lia)) as [_ ->].
      destruct (decide (h = self)) as [->|Hhs].
      * rewrite decide_True, Hw by done. by rewrite bool_decide_eq_true_2.
      * rewrite decide_False by naive_solver. rewrite bool_decide_eq_false_2 by congruence. cbn. auto.
    + intros d h Hd Hh'. rewrite Ec in Hd. rewrite Ex, Ea. case_decide as E; [done|]. intros Hr. split; [by apply H5|].
      intros ->. apply E. split; [|done]. symmetry. apply (H5 d self); done.
    + intros h Hh' Hne. rewrite Ex, Ea. rewrite decide_False by naive_solver. auto.
  - intros d h Hn. rewrite Ex. by rewrite decide_False.
  - intros d Hd. rewrite Ed by done. by case_decide.
Qed.

Lemma switch_placed (s : dstate) (to : Z) (regs : option trap_regs) (error value : Z) :
  leaving s -> 0 <= to < domain_count (ds_domains s) -> to <> this_domain s ->
  placed (moved_state (context_switch s to regs error value)).
Proof using HE.
  intros Hl Hto Hne. unfold context_switch.
  assert (forall s', same_place s s' -> forall fresh, placed (context_restore s' to fresh)) as Hres.
  { intros s' Hsp fresh. pose proof Hsp as (Ea & Ec & _ & _). apply restore_placed.
    - by apply (same_place_leaving s).
    - by rewrite Ec.
    - unfold this_domain. by rewrite Ea. }
  case_bool_decide as Ef.
  - assert (same_place s (ctx_update s to self (fun _ => context_fresh s to (default regs_zero regs)))) as Hfr.
    { split_and!; try done. intros d h. rewrite ctx_at_update. case_decide as E; [|done]. destruct E as [-> ->].
      unfold context_of in Ef. rewrite Ef. unfold context_fresh. by repeat case_match. }
    destruct (negb _); cbn [moved_state].
    + apply Hres. eapply same_place_trans; [exact Hfr|]. eapply same_place_trans; [|apply same_hsm]. by apply same_ctx.
    + apply Hres. eapply same_place_trans; [exact Hfr|]. by apply same_ctx.
  - cbn [moved_state]. eapply same_place_placed; [by apply same_ctx|]. apply Hres.
    eapply same_place_trans; [|by apply same_ctx]. destruct (negb _); [by apply same_ctx|by split_and!].
Qed.

Lemma enter_placed (s : dstate) (regs : trap_regs) (target arg : Z) (quiet : bool) :
  placed s -> 0 <= target < domain_count (ds_domains s) -> placed (moved_state (enter s regs target arg quiet)).
Proof using HE.
  intros Hp Ht. unfold enter. cbv zeta. destruct (Z.eqb_spec target (this_domain s)) as [|Hne]; [done|].
  destruct (truth _); [done|].
  destruct (park_leaving s CONTEXT_CALLING regs quiet Hp) as (Hl & Ea & Ec & _); [by left|].
  set (s1 := context_park _ _ _ _ _) in *.
  assert (same_place s1 (ctx_update s1 target self (fun c => c <| c_caller := Some (this_domain s) |>))) as Hsp by (by apply same_ctx).
  apply switch_placed.
  - by apply (same_place_leaving s1).
  - destruct Hsp as (_ & -> & _). by rewrite Ec.
  - unfold this_domain in *. destruct Hsp as (-> & _). by rewrite Ea.
Qed.

(** A caller that waits is not the context the hart runs. *)
Lemma caller_elsewhere (s : dstate) (c : Z) : placed s -> caller_waits s (this_domain s) = Some c -> c <> this_domain s.
Proof using HE.
  intros Hp H ->. unfold caller_waits in H. destruct (c_caller _) as [c'|]; [|done]. case_bool_decide as E; [|done].
  injection H as ->. pose proof (pl_here s Hp self (ce_self HE)) as Hh. unfold waits, context_of, this_domain in *. by rewrite E in Hh.
Qed.

(** The callers of contexts are domains. *)
Definition callers_ok (s : dstate) : Prop :=
  forall d h c, c_caller (ds_ctx s d h) = Some c -> 0 <= c < domain_count (ds_domains s).

Lemma leave_target_ok (s : dstate) (quiet : bool) (first : option Z) (d : Z) :
  placed s -> callers_ok s -> (forall f, first = Some f -> 0 <= f < domain_count (ds_domains s)) ->
  leave_target s quiet first = Some d -> 0 <= d < domain_count (ds_domains s) /\ d <> this_domain s.
Proof using HE.
  intros Hp Hc Hf H. unfold leave_target in H. destruct (caller_waits s (this_domain s)) as [c|] eqn:Ec.
  - injection H as ->. split; [|by apply (caller_elsewhere s)].
    unfold caller_waits in Ec. destruct (c_caller _) as [c'|] eqn:E; [|done]. case_bool_decide; [|done]. injection Ec as ->.
    by apply (Hc (this_domain s) self).
  - destruct quiet.
    + destruct first as [f|]; [|done]. destruct (Z.eqb_spec f (this_domain s)) as [|Hne]; [done|].
      destruct (_ && _); [|done]. injection H as ->. split; [by apply Hf|done].
    + apply List.find_some in H as [Hin Hb]. apply list_elem_of_In, elem_of_seqZ in Hin. split; [lia|].
      intros ->. rewrite Z.eqb_refl in Hb. done.
Qed.

Lemma leave_placed (s : dstate) (regs : trap_regs) (value : Z) (quiet : bool) (first : option Z) :
  placed s -> callers_ok s -> (forall f, first = Some f -> 0 <= f < domain_count (ds_domains s)) ->
  placed (moved_state (leave s regs value quiet first)).
Proof using HE.
  intros Hp Hc Hf. unfold leave. cbv zeta. destruct (leave_target s quiet first) as [d|] eqn:Et; [|done].
  destruct (leave_target_ok s quiet first d Hp Hc Hf Et) as [Hd Hne].
  assert (same_place s (if match caller_waits s (this_domain s) with Some _ => true | None => false end then s
            else ctx_update s d self (fun c => c <| c_caller := None |>))) as Hsp.
  { destruct (caller_waits _ _); [by split_and!|by apply same_ctx]. }
  match goal with |- context [truth (d_stopping (dom_at ?x _))] => set (s2 := x) in * end. destruct (truth _); [by apply (same_place_placed s)|].
  set (s3 := ctx_update s2 (this_domain s) self _).
  assert (same_place s s3) as Hsp3 by (eapply same_place_trans; [exact Hsp|by apply same_ctx]).
  assert (this_domain s3 = this_domain s) as Et3 by (unfold this_domain; by destruct Hsp3 as (-> & _)).
  destruct (park_leaving s3 CONTEXT_IDLE regs quiet) as (Hl & Ea & Ec & _); [by apply (same_place_placed s)|by right|].
  rewrite Et3 in *. apply switch_placed; [done| |].
  - rewrite Ec. by destruct Hsp3 as (_ & -> & _).
  - change (d <> ds_at (context_park s3 (this_domain s) CONTEXT_IDLE regs quiet) self). rewrite Ea. by destruct Hsp3 as (-> & _).
Qed.

Lemma stop_self_placed (s : dstate) (regs : option trap_regs) :
  placed s -> callers_ok s -> placed (moved_state (domain_stop_self s regs)).
Proof using HE.
  intros Hp Hc. pose proof (ce_self HE) as Hs. unfold domain_stop_self. cbv zeta.
  set (s1 := ctx_update s (this_domain s) self _).
  assert (forall d h, c_state (ds_ctx s1 d h) = if decide (d = this_domain s /\ h = self) then CONTEXT_NONE else c_state (ds_ctx s d h)) as Es.
  { intros d h. unfold s1. rewrite ctx_at_update. by case_decide. }
  assert (forall d h, 0 <= h < table -> 0 <= d < domain_count (ds_domains s) -> waits (ds_ctx s1 d h) = waits (ds_ctx s d h)) as Ew.
  { intros d h Hh Hd. unfold waits at 1. rewrite Es. case_decide as E; [|done]. destruct E as [-> ->].
    symmetry. apply (pl_here s Hp self Hs). }
  assert (leaving s1) as Hl.
  { destruct Hp as [H1 H2 H3 H4 H5 H6]. split; try done.
    - intros d h Hd Hh. rewrite Ew by done. by apply H4.
    - intros d h Hd Hh. rewrite Es. case_decide as E; [done|]. intros Hr. split; [by apply H5|]. intros ->. apply E. split; [|done].
      symmetry. by apply (H5 d self).
    - intros h Hh _. rewrite Ew; [by apply H6|done|by apply H1]. }
  destruct (caller_waits s (this_domain s)) as [c|] eqn:Ec.
  - apply switch_placed.
    + apply (same_place_leaving s1); [apply same_hw|done].
    + change (0 <= c < domain_count (ds_domains s)). unfold caller_waits in Ec. destruct (c_caller _) as [c'|] eqn:E; [|done].
      case_bool_decide; [|done]. injection Ec as ->. by apply (Hc (this_domain s) self).
    + by apply (caller_elsewhere s).
  - cbn [moved_state]. apply (same_place_placed s1); [apply same_hsm|]. destruct Hl as [H1 H2 H3 H4 H5 H6]. split; try done.
    + intros d h Hd Hh Hr. by apply H5.
    + intros h Hh. rewrite Ew; [|done|by apply H1]. by apply (pl_here s Hp).
Qed.

(** The hart's context starts: it runs already, as far as the masks go. *)
Lemma started_placed (s : dstate) : placed s -> placed (snd (domain_context_started s)).
Proof using HE.
  intros Hp. pose proof (ce_self HE) as Hs. unfold domain_context_started. cbn [snd]. set (s1 := ctx_update _ _ _ _).
  assert (forall d h, c_state (ds_ctx s1 d h) = if decide (d = this_domain s /\ h = self) then CONTEXT_RUNNING else c_state (ds_ctx s d h)) as Es.
  { intros d h. unfold s1. rewrite ctx_at_update. by case_decide. }
  assert (forall d h, waits (ds_ctx s1 d h) = waits (ds_ctx s d h)) as Ew.
  { intros d h. unfold waits at 1. rewrite Es. case_decide as E; [|done]. destruct E as [-> ->].
    symmetry. apply (pl_here s Hp self Hs). }
  destruct Hp as [H1 H2 H3 H4 H5 H6]. split; try done.
  - intros d h Hd Hh. rewrite Ew. by apply H4.
  - intros d h Hd Hh. rewrite Es. case_decide as E; [by destruct E as [-> ->]|]. by apply H5.
  - intros h Hh. rewrite Ew. by apply H6.
Qed.

(** One turn of the first loop of [domain_stop]. *)
Lemma stop_one_placed (s : dstate) (d i : Z) :
  placed s -> 0 <= d < domain_count (ds_domains s) -> 0 <= i < table -> waits (ds_ctx s d i) = true ->
  let s1 := ctx_update s d i (fun c => c <| c_state := CONTEXT_NONE |> <| c_caller := None |>) in
  placed (dom_update s1 d (fun dom => dom <| d_parked := hartmask_clear_atomic (d_parked dom) i |>)).
Proof using HE.
  intros Hp Hd Hi Hw. cbv zeta. set (s1 := ctx_update s d i _). set (s' := dom_update s1 d _).
  assert (domain_count (ds_domains s') = domain_count (ds_domains s)) as Ec by (unfold s'; by rewrite count_update).
  assert (forall e, 0 <= e -> dom_at s' e = if decide (e = d)
            then (dom_at s d) <| d_parked := hartmask_clear_atomic (d_parked (dom_at s d)) i |> else dom_at s e) as Ed.
  { intros e He. unfold s'. by rewrite dom_at_update. }
  assert (forall e h, c_state (ds_ctx s' e h) = if decide (e = d /\ h = i) then CONTEXT_NONE else c_state (ds_ctx s e h)) as Es.
  { intros e h. unfold s', s1. cbn. unfold fset2. by case_decide. }
  assert (forall e h, waits (ds_ctx s' e h) = negb (bool_decide (e = d /\ h = i)) && waits (ds_ctx s e h)) as Ew.
  { intros e h. unfold waits at 1. rewrite Es. case_decide; [by rewrite bool_decide_eq_true_2|by rewrite bool_decide_eq_false_2]. }
  assert (ds_at s' = ds_at s) as Ea by done. clearbody s'. destruct Hp as [H1 H2 H3 H4 H5 H6]. split.
  - intros h Hh. rewrite Ea, Ec. auto.
  - intros e He. rewrite Ec in He. rewrite Ed by lia. case_decide as E; [subst e|auto]. destruct (H2 d Hd). cbn. split; [done|].
    apply (mask_clear _ i 0); first [done|lia].
  - intros e h He Hh. rewrite Ec in He. rewrite Ed, Ea by lia. rewrite <- H3 by done. case_decide; [by subst e|done].
  - intros e h He Hh. rewrite Ec in He. rewrite Ed, Ew by lia. destruct (H2 d Hd) as [_ Hm].
    destruct (decide (e = d)) as [->|Hne].
    + cbn. destruct (mask_clear (d_parked (dom_at s d)) i h Hm Hi ltac:(lia)) as [_ ->]. rewrite H4 by done. f_equal. f_equal.
      apply bool_decide_ext. naive_solver.
    + rewrite bool_decide_eq_false_2 by naive_solver. cbn. by apply H4.
  - intros e h He Hh. rewrite Ec in He. rewrite Es, Ea. case_decide; [done|]. by apply H5.
  - intros h Hh. rewrite Ew, Ea, H6 by done. apply andb_false_r.
Qed.

Lemma stop_begin_placed (s : dstate) (d : Z) :
  placed s -> 0 <= d < domain_count (ds_domains s) -> placed (domain_stop_begin s d).
Proof using HE.
  intros Hp Hd. unfold domain_stop_begin. cbv zeta. set (s1 := dom_update s d _).
  assert (placed s1 /\ domain_count (ds_domains s1) = domain_count (ds_domains s)) as H1.
  { unfold s1. rewrite count_update. split; [|done]. apply (same_place_placed s); [|done]. split_and!; try done.
    - apply count_update.
    - intros e He. rewrite dom_at_update by lia. case_decide; [by subst e|done]. }
  match goal with |- placed (for_upto _ _ (hw_update ?x _)) => set (s2 := x) end.
  assert (placed s2 /\ domain_count (ds_domains s2) = domain_count (ds_domains s)) as H2.
  { unfold s2. apply (for_upto_ind (fun _ s2 => placed s2 /\ domain_count (ds_domains s2) = domain_count (ds_domains s))); [done|].
    intros i s' Hi [Hp' Hc']. assert (0 <= d < domain_count (ds_domains s')) as Hd' by lia.
    assert (0 <= Z.of_nat i < table) as Hi' by lia.
    assert (waits (ds_ctx s' d (Z.of_nat i)) = true ->
      placed (dom_update (ctx_update s' d (Z.of_nat i) (fun c => c <| c_state := CONTEXT_NONE |> <| c_caller := None |>)) d
        (fun dom => dom <| d_parked := hartmask_clear_atomic (d_parked dom) (Z.of_nat i) |>))) as Hone by (by apply stop_one_placed).
    unfold waits in Hone. destruct (c_state (ds_ctx s' d (Z.of_nat i))); (split; [auto|]); try done; by rewrite count_update. }
  apply (for_upto_ind (fun _ s3 => placed s3)).
  - apply (same_place_placed s2); [apply same_hw|apply H2].
  - intros i s3 _ H3. case_match; [|done]. apply (same_place_placed s3); [apply same_hw|done].
Qed.

Lemma mask_empty (m : hartmask) (h : Z) : hartmask_empty_atomic m = true -> 0 <= h < table -> hartmask_test m h = false.
Proof using HE. intros Hm Hh. pose proof (ce_count HE). apply hartmask_empty_test; [done|lia]. Qed.

Lemma start_placed (s : dstate) (valid : Z -> bool) (d : Z) :
  placed s -> 0 <= d < domain_count (ds_domains s) -> placed (snd (domain_start s valid d)).
Proof using HE.
  intros Hp Hd. unfold domain_start. cbv zeta.
  destruct (truth (d_stopping (dom_at s d))); [done|].
  destruct (domain_running s valid d) eqn:Er; [done|].
  destruct (_ || _); [done|]. destruct (negb (domain_range_ok _ _ _ _ _)); [done|]. cbn [truth snd negb Z.eqb].
  unfold domain_running in Er. apply orb_false_elim in Er as [_ Ep]. unfold domain_has_parked in Ep. apply negb_false_iff in Ep.
  set (s1 := for_upto _ _ s).
  assert (ds_at s1 = ds_at s /\ ds_domains s1 = ds_domains s /\
          forall e h, c_state (ds_ctx s1 e h) = c_state (ds_ctx s e h) \/ e = d /\ c_state (ds_ctx s1 e h) = CONTEXT_NONE) as (Ea & Ed & Es).
  { unfold s1. apply (for_upto_ind (fun _ s1 => ds_at s1 = ds_at s /\ ds_domains s1 = ds_domains s /\
      forall e h, c_state (ds_ctx s1 e h) = c_state (ds_ctx s e h) \/ e = d /\ c_state (ds_ctx s1 e h) = CONTEXT_NONE)); [auto|].
    intros i s' _ (Ea & Ed & Es). split_and!; [done|done|]. intros e h. rewrite ctx_at_update. case_decide as E; [|auto].
    destruct E as [-> ->]. by right. }
  apply (same_place_placed (hw_update s1 (fun h => hw_call h (SseDomainReset d)))); [apply same_hw|].
  apply (same_place_placed s1); [apply same_hw|]. clearbody s1.
  assert (forall e, dom_at s1 e = dom_at s e) as Edm by (intros e; unfold dom_at; by rewrite Ed).
  assert (forall e h, 0 <= e < domain_count (ds_domains s) -> 0 <= h < table -> waits (ds_ctx s1 e h) = waits (ds_ctx s e h)) as Ew.
  { intros e h He Hh. unfold waits at 1. destruct (Es e h) as [->|[-> ->]]; [done|]. symmetry.
    rewrite <- (pl_parked s Hp d h He Hh). by apply mask_empty. }
  destruct Hp as [H1 H2 H3 H4 H5 H6]. split; try (rewrite ?Ed in *; done).
  - intros h Hh. rewrite Ea, Ed. auto.
  - intros e. rewrite Ed, Edm. auto.
  - intros e h. rewrite Ed, Edm, Ea. auto.
  - intros e h. rewrite Ed, Edm. intros He Hh. rewrite Ew by done. auto.
  - intros e h. rewrite Ed, Ea. intros He Hh Hr. apply H5; [done..|]. destruct (Es e h) as [<-|[_ E]]; [done|congruence].
  - intros h Hh. rewrite Ea, Ew; auto.
Qed.

Lemma ipi_parked_placed (s : dstate) (index : Z) : placed s -> placed (domain_ipi_parked s index).
Proof.
  intros Hp. unfold domain_ipi_parked. destruct (_ =? _); [|destruct (negb _); [|done]].
  - apply (same_place_placed s); [apply same_hw|done].
  - apply (same_place_placed s); [by apply same_ctx|done].
Qed.

Lemma stop_end_placed (s : dstate) (regs : trap_regs) (d : Z) :
  placed s -> callers_ok s -> 0 <= d < domain_count (ds_domains s) -> placed (moved_state (domain_stop_end s regs d)).
Proof using HE.
  intros Hp Hc Hd. unfold domain_stop_end. cbv zeta. set (s1 := dom_update _ _ _).
  assert (placed s1) as Hp1.
  { apply (same_place_placed s); [|done]. split_and!; try done.
    - unfold s1. by rewrite count_update.
    - intros e He. unfold s1. rewrite dom_at_update by (cbn; lia). case_decide; [by subst e|done]. }
  destruct (d =? this_domain s1); [|done]. apply stop_self_placed; [done|]. intros e h c Hcc.
  unfold s1. rewrite count_update. by apply (Hc e h).
Qed.

(** *** The callers *)

Lemma callers_update (s : dstate) (d h : Z) (f : domain_context -> domain_context) :
  callers_ok s ->
  (forall c x, c_caller (f c) = Some x -> c_caller c = Some x \/ 0 <= x < domain_count (ds_domains s)) ->
  callers_ok (ctx_update s d h f).
Proof.
  intros Hc Hf d' h' x. rewrite ctx_at_update. case_decide; [|apply Hc]. intros Hx.
  destruct (Hf _ x Hx) as [Ho|?]; [by apply (Hc d h)|done].
Qed.

Lemma callers_same (s s' : dstate) : callers_ok s -> ds_ctx s' = ds_ctx s -> domain_count (ds_domains s') = domain_count (ds_domains s) -> callers_ok s'.
Proof. intros Hc Ex Ec d h x. rewrite Ex, Ec. apply Hc. Qed.

Lemma callers_dom (s : dstate) (d : Z) (f : domain -> domain) : callers_ok s -> callers_ok (dom_update s d f).
Proof. intros Hc. apply (callers_same s); [done|done|apply count_update]. Qed.

Lemma save_caller (c : domain_context) (regs : trap_regs) (h : hart_hw) : c_caller (fst (context_save c regs h)) = c_caller c.
Proof.
  assert (forall c h, c_caller (sstateen_save c h) = c_caller c) as H1.
  { intros c0 h0. unfold sstateen_save. by case_match. }
  assert (forall c h, c_caller (fst (hyp_state_save c h)) = c_caller c) as H2.
  { intros c0 h0. unfold hyp_state_save. case_match; [done|]. cbn [fst].
    assert (forall n, c_caller (for_upto n (fun i ctx => ctx <| c_hyp := <[Z.to_nat i := hyp_csr_read h0 i]> (c_hyp ctx) |>) c0) = c_caller c0) as Hl.
    { intros n. by apply (for_upto_ind (fun _ c => c_caller c = c_caller c0)). }
    repeat case_match; cbn; apply Hl. }
  assert (forall c h, c_caller (fst (unit_state_save c h)) = c_caller c) as H3.
  { intros c0 h0. unfold unit_state_save, vector_unit. by repeat case_match; simplify_eq. }
  unfold context_save. cbn [mpxy_hart_shmem_swap]. 
  match goal with |- context [hyp_state_save ?c1 ?h1] => specialize (H2 c1 h1); destruct (hyp_state_save c1 h1) as [c2 h2] end.
  specialize (H3 c2 h2). destruct (unit_state_save c2 h2) as [c3 h3]. cbn [fst] in *. rewrite H3, H2. cbn. rewrite H1. by case_match.
Qed.

Lemma callers_park (s : dstate) (d : Z) (state : context_state) (regs : trap_regs) (quiet : bool) :
  callers_ok s -> callers_ok (context_park s d state regs quiet).
Proof.
  intros Hc. unfold context_park. pose proof (save_caller (context_of s d) regs (ds_hw s)) as Hs.
  destruct (context_save _ _ _) as [c h]. cbn [fst] in Hs. apply callers_dom.
  intros d' h' x. rewrite ctx_at_update. case_decide; [|apply Hc]. cbn. rewrite Hs. apply Hc.
Qed.

Lemma callers_restore (s : dstate) (to : Z) (fresh : bool) : callers_ok s -> callers_ok (context_restore s to fresh).
Proof.
  intros Hc. unfold context_restore. cbv zeta.
  match goal with |- callers_ok (hw_update ?s _) => apply (callers_same s); [|done|done] end.
  apply callers_update; [|naive_solver].
  match goal with |- callers_ok (field_update ds_at _ ?s) => apply (callers_same s); [|done|done] end.
  do 3 apply callers_dom. apply callers_update; [|naive_solver]. by apply (callers_same s).
Qed.

Lemma callers_switch (s : dstate) (to : Z) (regs : option trap_regs) (error value : Z) :
  callers_ok s -> callers_ok (moved_state (context_switch s to regs error value)).
Proof.
  intros Hc. unfold context_switch. case_bool_decide.
  - assert (callers_ok (ctx_update s to self (fun _ => context_fresh s to (default regs_zero regs)))) as Hf.
    { intros d h x. rewrite ctx_at_update. case_decide; [|apply Hc]. intros Hx.
      assert (c_caller (context_fresh s to (default regs_zero regs)) = c_caller (context_of s to)) as E.
      { unfold context_fresh. by repeat case_match. }
      rewrite E in Hx. by apply (Hc to self). }
    destruct (negb _); cbn [moved_state]; apply callers_restore.
    + match goal with |- callers_ok (field_update ds_hsm _ ?s) => apply (callers_same s); [|done|done] end.
      apply callers_update; [done|naive_solver].
    + apply callers_update; [done|naive_solver].
  - cbn [moved_state]. apply callers_update; [|naive_solver]. apply callers_restore. apply callers_update; [|naive_solver].
    destruct (negb _); [|done]. apply callers_update; [done|naive_solver].
Qed.

Lemma enter_callers (s : dstate) (regs : trap_regs) (target arg : Z) (quiet : bool) :
  placed s -> callers_ok s -> callers_ok (moved_state (enter s regs target arg quiet)).
Proof using HE.
  intros Hp Hc. unfold enter. cbv zeta. destruct (truth _); [done|]. apply callers_switch. apply callers_update; [by apply callers_park|].
  intros c x [= <-]. right.
  destruct (park_leaving s CONTEXT_CALLING regs quiet Hp) as (_ & _ & -> & _); [by left|]. apply (pl_at s Hp), HE.
Qed.

Lemma leave_callers (s : dstate) (regs : trap_regs) (value : Z) (quiet : bool) (first : option Z) :
  callers_ok s -> callers_ok (moved_state (leave s regs value quiet first)).
Proof.
  intros Hc. unfold leave. cbv zeta. destruct (leave_target s quiet first) as [d|]; [|done].
  match goal with |- context [truth (d_stopping (dom_at ?x _))] => assert (callers_ok x) as Hc1; [|set (s2 := x) in *] end.
  { destruct (caller_waits _ _); [done|]. apply callers_update; [done|naive_solver]. }
  destruct (truth _); [done|]. apply callers_switch, callers_park, callers_update; [done|naive_solver].
Qed.

Lemma stop_self_callers (s : dstate) (regs : option trap_regs) :
  callers_ok s -> callers_ok (moved_state (domain_stop_self s regs)).
Proof.
  intros Hc. unfold domain_stop_self. cbv zeta.
  assert (callers_ok (ctx_update s (this_domain s) self (fun c => c <| c_state := CONTEXT_NONE |> <| c_caller := None |>))) as H1.
  { apply callers_update; [done|naive_solver]. }
  set (s1 := ctx_update _ _ _ _) in *. destruct (caller_waits _ _).
  - apply callers_switch. by apply (callers_same s1).
  - cbn [moved_state]. by apply (callers_same s1).
Qed.
End Placement.
