(* ===== verification/DomainMoves.v ===== *)
(** The theorems on moving harts between domains: the placement of the
    harts ([DomainContextProps.v]) in every state the monitor gets to, who
    may move a hart where, and that what a context had of a hart is there
    again when it is back. *)

From S2P Require Import Prelude Arch Csr Fields Memregion Bitstring Domain Hart DomainContext DomainContextProps.

#[local] Open Scope Z_scope.
#[local] Set Warnings "-clear-no-such-hyp".

(** * Every hart in one domain *)

Section Runs.
Context {AR : Arch} {KC : Kconfig} {F : Features} {HT : HartTable}.
Abbreviation table := (hart_table_size ht_ids).

(** One operation of the calling hart; what S-mode does to the hart's
    registers and what the HSM does to the harts' states in between. *)
Inductive dop {CE : CtxEnv} (s : dstate) : dstate -> Prop :=
| dop_enter regs target arg quiet :
    0 <= target < domain_count (ds_domains s) -> dop s (moved_state (enter s regs target arg quiet))
| dop_leave regs value quiet first :
    (forall f, first = Some f -> 0 <= f < domain_count (ds_domains s)) ->
    dop s (moved_state (leave s regs value quiet first))
| dop_started : dop s (snd (domain_context_started s))
| dop_stop_self regs : dop s (moved_state (domain_stop_self s regs))
| dop_stop_begin d : 0 <= d < domain_count (ds_domains s) -> dop s (domain_stop_begin s d)
| dop_stop_end regs d : 0 <= d < domain_count (ds_domains s) -> dop s (moved_state (domain_stop_end s regs d))
| dop_start valid d : 0 <= d < domain_count (ds_domains s) -> dop s (snd (domain_start s valid d))
| dop_ipi index : dop s (domain_ipi_parked s index)
| dop_hw f : dop s (hw_update s f)
| dop_hsm f : dop s (s <| ds_hsm := f |>).

(** As [domains_init] leaves them: every hart in one domain, no context. *)
Record dc_boot (s : dstate) : Prop := {
  db_at h : 0 <= h < table -> 0 <= ds_at s h < domain_count (ds_domains s);
  db_masks d : 0 <= d < domain_count (ds_domains s) -> hartmask_wf (d_assigned (dom_at s d)) /\ d_parked (dom_at s d) = hartmask_none;
  db_assigned d h : 0 <= d < domain_count (ds_domains s) -> 0 <= h < table ->
    hartmask_test (d_assigned (dom_at s d)) h = bool_decide (ds_at s h = d);
  db_ctx d h : c_state (ds_ctx s d h) = CONTEXT_NONE /\ c_caller (ds_ctx s d h) = None;
}.

Inductive dc_runs : dstate -> Prop :=
| dr_boot s : dc_boot s -> dc_runs s
| dr_op {CE : CtxEnv} s s' : dc_runs s -> ctx_env_ok -> dop s s' -> dc_runs s'.

Lemma boot_placed (s : dstate) : 0 <= CONFIG_PLATFORM_HART_COUNT -> dc_boot s -> placed s /\ callers_ok s.
Proof.
  intros Hk [H1 H2 H3 H4].
  assert (forall d h, waits (ds_ctx s d h) = false) as Hw by (intros d h; unfold waits; by destruct (H4 d h) as [-> _]).
  split.
  - split; try done.
    + intros d Hd. destruct (H2 d Hd) as [? ->]. split; [done|by apply hartmask_none_wf].
    + intros d h Hd Hh. destruct (H2 d Hd) as [_ ->]. rewrite Hw. apply hartmask_test_none.
    + intros d h Hd Hh. destruct (H4 d h) as [-> _]. done.
  - intros d h c. destruct (H4 d h) as [_ ->]. done.
Qed.

Lemma dop_placed {CE : CtxEnv} (s s' : dstate) :
  ctx_env_ok -> dop s s' -> placed s -> callers_ok s -> placed s' /\ callers_ok s'.
Proof.
  intros HE Hop Hp Hc. destruct Hop.
  - split; [by apply enter_placed|by apply enter_callers].
  - split; [by apply leave_placed|by apply leave_callers].
  - split; [by apply started_placed|]. cbn. by apply callers_update; [|naive_solver].
  - split; [by apply stop_self_placed|by apply stop_self_callers].
  - split; [by apply stop_begin_placed|]. unfold domain_stop_begin. cbv zeta.
    apply (for_upto_ind (fun _ s => callers_ok s)).
    + match goal with |- callers_ok (hw_update ?x _) => apply (callers_same x); [|done|done] end.
      apply (for_upto_ind (fun _ s => callers_ok s)); [by apply callers_dom|]. intros i s1 _ H1.
      repeat case_match; try done; apply callers_dom, callers_update; first [done|naive_solver].
    + intros i s1 _ H1. case_match; [by apply (callers_same s1)|done].
  - split; [by apply stop_end_placed|]. unfold domain_stop_end. cbv zeta. set (s1 := dom_update _ _ _).
    assert (callers_ok s1) as H1 by (apply callers_dom; by apply (callers_same s)).
    destruct (_ =? _); [by apply stop_self_callers|done].
  - split; [by apply start_placed|]. unfold domain_start. cbv zeta. destruct (truth _); [done|]. cbn [snd].
    match goal with |- callers_ok (hw_update (hw_update ?x _) _) => apply (callers_same x); [|done|done] end.
    apply (for_upto_ind (fun _ s => callers_ok s)); [done|]. intros i s1 _ H1. apply callers_update; [done|naive_solver].
  - split; [by apply ipi_parked_placed|]. unfold domain_ipi_parked. repeat case_match; try done; try (by apply (callers_same s)).
    apply callers_update; [done|naive_solver].
  - split; [apply (same_place_placed s); [apply same_hw|done]|by apply (callers_same s)].
  - split; [apply (same_place_placed s); [apply same_hsm|done]|by apply (callers_same s)].
Qed.

Lemma dc_runs_placed (s : dstate) : 0 <= CONFIG_PLATFORM_HART_COUNT -> dc_runs s -> placed s /\ callers_ok s.
Proof.
  intros Hk. induction 1 as [s Hb|CE s s' _ [IH1 IH2] HE Hop]; [by apply boot_placed|by apply (dop_placed s)].
Qed.

(** C2: a hart is in one domain. In every state the domains get to, by any
    moves, stops and starts of any harts, a hart is assigned to exactly the
    domain it runs; a domain it has parked in has a context of it that
    waits, and the domain it runs is none of those; and no other context of
    the hart is running. *)
Theorem hart_in_one_domain (s : dstate) (h d : Z) :
  0 <= CONFIG_PLATFORM_HART_COUNT -> dc_runs s -> 0 <= h < table -> 0 <= d < domain_count (ds_domains s) ->
  (domain_hart_assigned (dom_at s d) h = true <-> ds_at s h = d) /\
  (hartmask_test (d_parked (dom_at s d)) h = true <->
     c_state (ds_ctx s d h) = CONTEXT_CALLING \/ c_state (ds_ctx s d h) = CONTEXT_IDLE) /\
  ~ (domain_hart_assigned (dom_at s d) h = true /\ hartmask_test (d_parked (dom_at s d)) h = true) /\
  (c_state (ds_ctx s d h) = CONTEXT_RUNNING -> ds_at s h = d).
Proof.
  intros Hk Hr Hh Hd. destruct (dc_runs_placed s Hk Hr) as [[H1 H2 H3 H4 H5 H6] _].
  unfold domain_hart_assigned. rewrite H3, H4 by done. rewrite bool_decide_eq_true. split_and!; [done| | |by apply H5].
  - unfold waits. destruct (c_state (ds_ctx s d h)); naive_solver.
  - intros [<- Hw]. rewrite H6 in Hw by done. done.
Qed.
End Runs.

(** * Who may move a hart *)

Section Policy.
Context {AR : Arch} {KC : Kconfig} {F : Features} {HT : HartTable} {CE : CtxEnv}.
Abbreviation self := ctx_self.

Lemma switch_at (s : dstate) (to : Z) (regs : option trap_regs) (error value : Z) :
  this_domain (moved_state (context_switch s to regs error value)) = to.
Proof.
  unfold context_switch. repeat case_match; cbn [moved_state]; unfold this_domain; cbn; unfold fset1; by rewrite decide_True.
Qed.

(** in only where one is let in. A hart that [domain_enter] moves goes to
    the target and nowhere else; and the target lists the calling domain
    among those that may enter it, is not the root domain, may run on this
    hart, and is not being stopped. *)
Theorem domain_enter_allowed (s : dstate) (regs : trap_regs) (target arg : Z) :
  this_domain (moved_state (domain_enter s regs target arg)) <> this_domain s ->
  this_domain (moved_state (domain_enter s regs target arg)) = target /\
  domain_may_enter (dom_at s (this_domain s)) (dom_at s target) = true /\
  d_index (dom_at s target) <> 0 /\
  hartmask_test (d_possible (dom_at s target)) self = true /\
  d_stopping (dom_at s target) = 0.
Proof.
  unfold domain_enter, enter. cbv zeta. intros Hne.
  destruct (_ || _) eqn:E1 in Hne; cbn [negb andb orb truth] in Hne; [done|]. rewrite E1.
  apply orb_false_elim in E1 as [_ Hpos%negb_false_iff].
  destruct (negb (domain_may_enter _ _)) eqn:E2 in Hne; cbn [negb andb orb] in Hne; [done|]. rewrite E2. apply negb_false_iff in E2.
  destruct (truth (d_stopping (dom_at s target)) || _) eqn:E3 in Hne; [done|]. rewrite E3. apply orb_false_elim in E3 as [E3 _].
  cbn [negb andb] in *. destruct (truth _) eqn:E4 in Hne; [done|]. rewrite E4. rewrite switch_at. split_and!; try done.
  - unfold domain_may_enter in E2. apply andb_prop in E2 as [E2 _]. by apply truth_true.
  - unfold truth in E3. apply negb_false_iff in E3. by apply Z.eqb_eq.
Qed.

(** C35: nobody leaves for the root domain. A hart that [domain_exit] moves
    goes back to the domain whose call it serves, or on to one that lets its
    domain enter: the root domain gets it only if it sent it. *)
Theorem domain_exit_allowed (s : dstate) (regs : trap_regs) (value : Z) :
  let to := this_domain (moved_state (domain_exit s regs value)) in
  to <> this_domain s ->
  caller_waits s (this_domain s) = Some to \/
  caller_waits s (this_domain s) = None /\ 1 <= to /\
  domain_may_enter (dom_at s (this_domain s)) (dom_at s to) = true /\
  hartmask_test (d_possible (dom_at s to)) self = true.
Proof.
  cbv zeta. unfold domain_exit, leave. cbv zeta. intros Hne.
  destruct (leave_target s false None) as [d|] eqn:Et; [|done].
  assert (caller_waits s (this_domain s) = Some d \/ caller_waits s (this_domain s) = None /\ 1 <= d /\
    domain_may_enter (dom_at s (this_domain s)) (dom_at s d) = true /\ hartmask_test (d_possible (dom_at s d)) self = true) as Hd.
  { unfold leave_target in Et. destruct (caller_waits s (this_domain s)) as [c|]; [by left; f_equal; injection Et|right].
    apply List.find_some in Et as [Hin Hb]. apply list_elem_of_In, elem_of_seqZ in Hin.
    rewrite !andb_true_iff in Hb. destruct Hb as ((((_ & ?) & ?) & _) & _). split_and!; try done. lia. }
  destruct (truth _) in Hne |- *.
  - destruct (caller_waits s (this_domain s)); done.
  - by rewrite switch_at.
Qed.
End Policy.
