(* ===== verification/ContextRoundtrip.v ===== *)
(** What a context had of the hart is there again when it is back: the
    registers [context_save] takes and [hw_restore] gives back, whatever the
    hart ran in between; and what a context that has never run finds. *)

From S2P Require Import Prelude Arch Csr Fields Memregion Bitstring Domain Hart DomainContext.

#[local] Open Scope Z_scope.
#[local] Set Warnings "-clear-no-such-hyp".

Section Regs.
Context {AR : Arch} {KC : Kconfig} {F : Features} {HT : HartTable} {CE : CtxEnv}.

(** ** Reading after writing *)

Lemma hw_read_write (h : hart_hw) (a v r : Z) :
  hw_read (hw_write h a v) r = if decide (a = r) then wrap v else hw_read h r.
Proof. apply csr_read_write. Qed.

Lemma hw_read_eq (h : hart_hw) (a v : Z) : is_ulong v -> hw_read (hw_write h a v) a = v.
Proof. intros Hv. rewrite hw_read_write, decide_True by done. by apply wrap_small. Qed.
Lemma hw_read_ne (h : hart_hw) (a v r : Z) : a <> r -> hw_read (hw_write h a v) r = hw_read h r.
Proof. intros Hn. by rewrite hw_read_write, decide_False. Qed.

Lemma hw_set_ne (h : hart_hw) (a v r : Z) : a <> r -> hw_read (on_csrs (fun c => csr_set c a v) h) r = hw_read h r.
Proof. intros Hn. by apply hw_read_ne. Qed.
Lemma hw_clear_ne (h : hart_hw) (a v r : Z) : a <> r -> hw_read (on_csrs (fun c => csr_clear c a v) h) r = hw_read h r.
Proof. intros Hn. by apply hw_read_ne. Qed.

Definition hw_wf (h : hart_hw) : Prop := csr_wf (hw_csrs h).

Lemma hw_read_ulong (h : hart_hw) (r : Z) : hw_wf h -> is_ulong (hw_read h r).
Proof. apply csr_read_wf. Qed.

(** *** 64-bit registers *)

Definition is_u64 (v : Z) : Prop := 0 <= v < 2 ^ 64.

Lemma read64_u64 (h : hart_hw) (csr csrh : Z) : hw_wf h -> is_u64 (csr_read64 h csr csrh).
Proof.
  intros Hwf. pose proof (hw_read_ulong h csr Hwf) as H1. pose proof (hw_read_ulong h csrh Hwf) as H2.
  unfold csr_read64, is_u64, is_ulong, XLEN in *. destruct arch_xlen; [|done].
  apply lor_bound; [lia| |].
  - rewrite Z.shiftl_mul_pow2 by lia. change (2 ^ 64) with (2 ^ 32 * 2 ^ 32). nia.
  - assert (2 ^ 32 <= 2 ^ 64) by (apply pow2_le; lia). lia.
Qed.

Lemma read64_write64 (h : hart_hw) (csr csrh v : Z) :
  csr <> csrh -> is_u64 v -> csr_read64 (csr_write64 h csr csrh v) csr csrh = v.
Proof.
  intros Hne Hv. unfold is_u64 in Hv. unfold csr_read64, csr_write64. destruct arch_xlen eqn:E.
  - assert (XLEN = 32) as EX by (unfold XLEN; by rewrite E).
    rewrite hw_read_eq by (split; rewrite ?EX; [apply Z.div_pos; lia|apply Z.div_lt_upper_bound; [lia|change (2 ^ 32 * 2 ^ 32) with (2 ^ 64); lia]]).
    rewrite hw_read_ne by congruence.
    rewrite hw_read_eq by (split; rewrite ?EX; pose proof (Z.mod_pos_bound v (2 ^ 32)); lia).
    rewrite <- (land_low v 32) by lia. rewrite Z.shiftl_mul_pow2 by lia.
    rewrite lor_disjoint_add.
    + rewrite land_low by lia. pose proof (Z.div_mod v (2 ^ 32)). lia.
    + bitwise. rewrite Z.mul_pow2_bits by lia. destruct (Z.ltb_spec i 32) as [Hi'|Hi'].
      * rewrite Z.testbit_neg_r by lia. done.
      * by rewrite !andb_false_r.
  - rewrite hw_read_eq; [done|]. unfold is_ulong, XLEN. by rewrite E.
Qed.

Lemma write64_ne (h : hart_hw) (csr csrh v r : Z) : csr <> r -> csrh <> r -> hw_read (csr_write64 h csr csrh v) r = hw_read h r.
Proof. intros H1 H2. unfold csr_write64. destruct arch_xlen; by rewrite !hw_read_ne. Qed.

Lemma read64_same (h h' : hart_hw) (csr csrh : Z) :
  hw_read h' csr = hw_read h csr -> hw_read h' csrh = hw_read h csrh -> csr_read64 h' csr csrh = csr_read64 h csr csrh.
Proof. intros H1 H2. unfold csr_read64. by rewrite H1, H2. Qed.

(** *** The loop over the hypervisor's *)

Abbreviation hyp_loop n ctx := (for_upto n (fun i h => hyp_csr_write h i (hyp_get ctx i))).

Lemma hyp_loop_ne (n : nat) (ctx : domain_context) (h : hart_hw) (r : Z) :
  r ∉ hyp_csrs -> hw_read (hyp_loop n ctx h) r = hw_read h r.
Proof.
  intros Hr. apply (for_upto_ind (fun _ h' => hw_read h' r = hw_read h r)); [done|].
  intros i h' _ IH. unfold hyp_csr_write, hyp_number. rewrite Nat2Z.id. destruct (hyp_csrs !! i) as [a|] eqn:Ea; [|done].
  rewrite hw_read_ne; [done|]. intros ->. by apply list_elem_of_lookup_2 in Ea.
Qed.

Lemma hyp_nodup : NoDup hyp_csrs.
Proof. unfold hyp_csrs. destruct arch_xlen; apply (bool_decide_unpack _); vm_compute; exact I. Qed.

Lemma hyp_loop_eq (n k : nat) (ctx : domain_context) (h : hart_hw) (r : Z) :
  hyp_csrs !! k = Some r -> (k < n)%nat -> hw_read (hyp_loop n ctx h) r = wrap (hyp_get ctx (Z.of_nat k)).
Proof.
  intros Hk Hlt.
  apply (for_upto_ind (fun m h' => (k < m)%nat -> hw_read h' r = wrap (hyp_get ctx (Z.of_nat k)))); [lia| |done].
  intros i h' _ IH Hi. unfold hyp_csr_write, hyp_number. rewrite Nat2Z.id. destruct (decide (i = k)) as [->|Hne].
  - rewrite Hk, hw_read_write, decide_True by done. done.
  - destruct (hyp_csrs !! i) as [a|] eqn:Ea; [|apply IH; lia]. rewrite hw_read_ne; [apply IH; lia|].
    intros ->. apply Hne. by apply (NoDup_lookup hyp_csrs i k r hyp_nodup).
Qed.

Lemma hyp_save_loop (n k : nat) (h : hart_hw) (c : domain_context) (r : Z) :
  hyp_csrs !! k = Some r -> (k < n)%nat -> length (c_hyp c) = Z.to_nat HYP_CSR_COUNT ->
  let c' := for_upto n (fun i ctx => ctx <| c_hyp := <[Z.to_nat i := hyp_csr_read h i]> (c_hyp ctx) |>) c in
  hyp_get c' (Z.of_nat k) = hw_read h r.
Proof.
  intros Hk Hlt Hlen. cbv zeta. set (body := fun i ctx => _).
  assert (forall m, (m <= n)%nat -> length (c_hyp (for_upto m body c)) = length (c_hyp c) /\
            ((k < m)%nat -> hyp_get (for_upto m body c) (Z.of_nat k) = hw_read h r)) as H; [|by apply H].
  intros m. apply (for_upto_ind (fun m c' => (m <= n)%nat -> length (c_hyp c') = length (c_hyp c) /\
            ((k < m)%nat -> hyp_get c' (Z.of_nat k) = hw_read h r))); [intros _; split; [done|lia]|].
  intros i c' _ IH Hi. destruct (IH ltac:(lia)) as [Hl Hg]. unfold body. cbn. rewrite length_insert. split; [done|]. intros Hki.
  unfold hyp_get. cbn. rewrite !Nat2Z.id. destruct (decide (i = k)) as [->|Hne].
  - rewrite list_lookup_insert_eq.
    + cbn. unfold hyp_csr_read, hyp_number. by rewrite Nat2Z.id, Hk.
    + rewrite Hl, Hlen. unfold HYP_CSR_COUNT. rewrite Nat2Z.id. by apply lookup_lt_Some in Hk.
  - rewrite list_lookup_insert_ne by done. unfold hyp_get in Hg. rewrite Nat2Z.id in Hg. apply Hg. lia.
Qed.

(** ** What each part of the restore touches *)

Definition hyp_wide : list Z :=
  [CSR_HTIMEDELTA; CSR_HTIMEDELTAH; CSR_HENVCFG; CSR_HENVCFGH; CSR_HSTATEEN0; CSR_HSTATEEN0H; CSR_VSTIMECMP; CSR_VSTIMECMPH].
Definition base_csrs : list Z :=
  [CSR_STVEC; CSR_SSCRATCH; CSR_SEPC; CSR_SCAUSE; CSR_STVAL; CSR_SATP; CSR_SCOUNTEREN; CSR_SENVCFG].
Definition sstateen_csrs : list Z := [CSR_SSTATEEN0; CSR_SSTATEEN0 + 1; CSR_SSTATEEN0 + 2; CSR_SSTATEEN0 + 3].
Definition timer_csrs : list Z := [CSR_STIMECMP; CSR_STIMECMPH; CSR_MIP; CSR_MIE].

(** A concrete number is not on a concrete list. *)
Ltac not_listed :=
  unfold hyp_csrs; try destruct arch_xlen; apply (bool_decide_unpack _); vm_compute; exact I.

Lemma sstateen_ne (ctx : domain_context) (h : hart_hw) (r : Z) :
  r ∉ sstateen_csrs -> hw_read (sstateen_restore ctx h) r = hw_read h r.
Proof.
  intros Hr. unfold sstateen_restore. destruct (hart_has _); [|done].
  change (for_upto 4) with (fun body (h : hart_hw) => body 3 (body 2 (body 1 (body 0 h)))).
  unfold hart_sstateen_write. cbv beta. change (hart_sstateen_csr 0) with CSR_SSTATEEN0.
  change (hart_sstateen_csr 1) with (CSR_SSTATEEN0 + 1). change (hart_sstateen_csr 2) with (CSR_SSTATEEN0 + 2).
  change (hart_sstateen_csr 3) with (CSR_SSTATEEN0 + 3).
  unfold sstateen_csrs in Hr. rewrite !hw_read_ne; [done|..]; intros <-; apply Hr; cbn; set_solver.
Qed.

Lemma wide_ne (on : bool) (h : hart_hw) (a b v r : Z) :
  a <> r -> b <> r -> hw_read (if on then csr_write64 h a b v else h) r = hw_read h r.
Proof. intros Ha Hb. destruct on; [by apply write64_ne|done]. Qed.

Lemma hyp_ne (ctx : domain_context) (h : hart_hw) (r : Z) :
  r ∉ hyp_csrs -> r ∉ hyp_wide -> r <> CSR_MSTATUSH -> hw_read (hyp_state_restore ctx h) r = hw_read h r.
Proof.
  intros H1 H2 H3. unfold hyp_state_restore. destruct (hart_has HART_FEAT_H); [|done]. cbn [negb].
  assert (forall h', hw_read (match arch_xlen with
     | RV32 => on_csrs (fun c => csr_clear c CSR_MSTATUSH (Z.lor (BIT MSTATUSH_MPV_BIT) (BIT 6))) h'
     | RV64 => h' end) r = hw_read h' r) as Hm.
  { intros h'. destruct arch_xlen; [|done]. by apply hw_read_ne. }
  cbv zeta. rewrite Hm. change (hw_read (guest_tlb_flush ?x) r) with (hw_read x r).
  unfold hyp_wide in H2. rewrite !wide_ne by (intros <-; apply H2; set_solver).
  rewrite write64_ne by (intros <-; apply H2; set_solver).
  rewrite hyp_loop_ne by done. by rewrite wide_ne by (intros <-; apply H2; set_solver).
Qed.

Lemma vector_unit_ne (h : hart_hw) (r : Z) :
  r <> CSR_MSTATUS -> hw_read (snd (vector_unit h)) r = hw_read h r.
Proof. intros Hr. unfold vector_unit. destruct (truth _); cbn [negb snd]; [by apply hw_read_ne|done]. Qed.

Lemma unit_ne (ctx : domain_context) (h : hart_hw) (r : Z) :
  r <> CSR_MSTATUS -> hw_read (unit_state_restore ctx h) r = hw_read h r.
Proof.
  intros Hr. unfold unit_state_restore. set (h' := if truth _ then _ else h).
  assert (hw_read h' r = hw_read h r) as <-.
  { unfold h'. destruct (truth _); [|done]. by apply (hw_read_ne h). }
  rewrite <- (vector_unit_ne h' r Hr). destruct (vector_unit h') as [u h2]. cbn [snd].
  destruct u; try done. destruct (c_vec ctx); done.
Qed.

Lemma timer_ne (h : hart_hw) (w r : Z) : r ∉ timer_csrs -> hw_read (timer_smode_restore h w) r = hw_read h r.
Proof.
  intros Hr. unfold timer_smode_restore, timer_csrs in *.
  destruct (hart_has _); [destruct arch_xlen|destruct ctx_timer; cbn [negb]; [|done]];
    rewrite ?hw_read_ne by (intros <-; apply Hr; set_solver); try done.
  rewrite hw_set_ne by (intros <-; apply Hr; set_solver).
  change (hw_read (hw_call ?x ?d) r) with (hw_read x r).
  by rewrite hw_clear_ne by (intros <-; apply Hr; set_solver).
Qed.

(** ** The restore, part by part *)

Definition base_restore (ctx : domain_context) (h : hart_hw) : hart_hw :=
  let h := sie_write h (c_sie ctx) in
  let h := hw_write h CSR_STVEC (c_stvec ctx) in
  let h := hw_write h CSR_SSCRATCH (c_sscratch ctx) in
  let h := hw_write h CSR_SEPC (c_sepc ctx) in
  let h := hw_write h CSR_SCAUSE (c_scause ctx) in
  let h := hw_write h CSR_STVAL (c_stval ctx) in
  let h := hw_write h CSR_SATP (c_satp ctx) in
  let h := hw_write h CSR_SCOUNTEREN (c_scounteren ctx) in
  if hart_has HART_FEAT_MENVCFG then hw_write h CSR_SENVCFG (c_senvcfg ctx) else h.

Definition ssip_restore (ctx : domain_context) (h : hart_hw) : hart_hw :=
  let h := on_csrs (fun c => csr_clear c CSR_MIP MIP_SSIP) h in
  if truth (Z.land (c_sip ctx) MIP_SSIP) || c_ipi ctx
  then on_csrs (fun c => csr_set c CSR_MIP MIP_SSIP) h else h.

Definition late_restore (ctx : domain_context) (h : hart_hw) : hart_hw :=
  snd (mpxy_hart_shmem_swap (ssip_restore ctx (timer_smode_restore (unit_state_restore ctx h) (c_timer ctx))) (c_mpxy_shmem ctx)).

Lemma hw_restore_parts (ctx : domain_context) (h : hart_hw) :
  hw_restore ctx h = late_restore ctx (hyp_state_restore ctx (sstateen_restore ctx (base_restore ctx h))).
Proof. reflexivity. Qed.

Lemma ssip_ne (ctx : domain_context) (h : hart_hw) (r : Z) : r <> CSR_MIP -> hw_read (ssip_restore ctx h) r = hw_read h r.
Proof.
  intros Hr. unfold ssip_restore. destruct (_ || _); rewrite ?hw_set_ne, hw_clear_ne by done; done.
Qed.

Lemma late_ne (ctx : domain_context) (h : hart_hw) (r : Z) :
  r ∉ CSR_MSTATUS :: timer_csrs -> hw_read (late_restore ctx h) r = hw_read h r.
Proof.
  intros Hr. unfold late_restore, mpxy_hart_shmem_swap. cbn [snd].
  change (hw_read (?x <| hw_shmem := ?v |>) r) with (hw_read x r).
  rewrite ssip_ne by (intros ->; apply Hr; unfold timer_csrs; set_solver).
  rewrite timer_ne by (intros Hin; apply Hr; set_solver).
  apply unit_ne. intros ->. apply Hr. set_solver.
Qed.

(** The registers that come back as the context has them. *)
Definition base_pairs (ctx : domain_context) : list (Z * Z) :=
  [(CSR_STVEC, c_stvec ctx); (CSR_SSCRATCH, c_sscratch ctx); (CSR_SEPC, c_sepc ctx); (CSR_SCAUSE, c_scause ctx);
   (CSR_STVAL, c_stval ctx); (CSR_SATP, c_satp ctx); (CSR_SCOUNTEREN, c_scounteren ctx)] ++
  (if hart_has HART_FEAT_MENVCFG then [(CSR_SENVCFG, c_senvcfg ctx)] else []).
Definition sstateen_pairs (ctx : domain_context) : list (Z * Z) :=
  if hart_has HART_FEAT_SMSTATEEN
  then map (fun i => (CSR_SSTATEEN0 + i, default 0 (c_sstateen ctx !! Z.to_nat i))) [0; 1; 2; 3] else [].
Definition wide_regs : list (Z * Z) :=
  [(CSR_HTIMEDELTA, CSR_HTIMEDELTAH)] ++
  (if hart_has HART_FEAT_MENVCFG then [(CSR_HENVCFG, CSR_HENVCFGH)] else []) ++
  (if hart_has HART_FEAT_SMSTATEEN then [(CSR_HSTATEEN0, CSR_HSTATEEN0H)] else []) ++
  (if hart_has HART_FEAT_SSTC then [(CSR_VSTIMECMP, CSR_VSTIMECMPH)] else []).

Lemma base_pairs_in (ctx : domain_context) : Forall (fun p => fst p ∈ base_csrs) (base_pairs ctx).
Proof. unfold base_pairs, base_csrs. destruct (hart_has _); repeat constructor; cbn; set_solver. Qed.

Lemma base_read (ctx : domain_context) (h : hart_hw) (r v : Z) :
  (r, v) ∈ base_pairs ctx -> hw_read (base_restore ctx h) r = wrap v.
Proof.
  unfold base_pairs, base_restore. destruct (hart_has _); cbn [app]; intros Hin;
    repeat (apply elem_of_cons in Hin as [[= -> ->]|Hin];
            [ rewrite ?hw_read_write; repeat first [rewrite decide_True by done | rewrite decide_False by done]; done |]);
    by apply elem_of_nil in Hin.
Qed.

Lemma base_not_late (r : Z) : r ∈ base_csrs ->
  (r ∉ CSR_MSTATUS :: timer_csrs) /\ (r ∉ hyp_csrs) /\ (r ∉ hyp_wide) /\ r <> CSR_MSTATUSH /\ (r ∉ sstateen_csrs).
Proof.
  intros Hr. unfold base_csrs in Hr.
  repeat (apply elem_of_cons in Hr as [->|Hr]; [repeat split; not_listed|]). by apply elem_of_nil in Hr.
Qed.

Lemma base_restored (ctx : domain_context) (h : hart_hw) (r v : Z) :
  (r, v) ∈ base_pairs ctx -> hw_read (hw_restore ctx h) r = wrap v.
Proof.
  intros Hin. pose proof (proj1 (Forall_forall _ _) (base_pairs_in ctx) _ Hin) as Hr. cbn in Hr.
  destruct (base_not_late r Hr) as (H1 & H2 & H3 & H4 & H5).
  rewrite hw_restore_parts, late_ne, hyp_ne, sstateen_ne by done. by apply base_read.
Qed.

Lemma sstateen_restored (ctx : domain_context) (h : hart_hw) (r v : Z) :
  (r, v) ∈ sstateen_pairs ctx -> hw_read (hw_restore ctx h) r = wrap v.
Proof.
  unfold sstateen_pairs. destruct (hart_has HART_FEAT_SMSTATEEN) eqn:E; [|intros Hin; by apply elem_of_nil in Hin].
  cbn [map]. intros Hin. rewrite hw_restore_parts. unfold sstateen_restore at 1. rewrite E.
  change (for_upto 4) with (fun body (h : hart_hw) => body 3 (body 2 (body 1 (body 0 h)))).
  unfold hart_sstateen_write. cbv beta. change (hart_sstateen_csr 0) with CSR_SSTATEEN0.
  change (hart_sstateen_csr 1) with (CSR_SSTATEEN0 + 1). change (hart_sstateen_csr 2) with (CSR_SSTATEEN0 + 2).
  change (hart_sstateen_csr 3) with (CSR_SSTATEEN0 + 3).
  repeat (apply elem_of_cons in Hin as [[= -> ->]|Hin];
    [ rewrite late_ne, hyp_ne by not_listed; rewrite !hw_read_write;
      repeat first [rewrite decide_True by done | rewrite decide_False by done]; done |]).
  by apply elem_of_nil in Hin.
Qed.

(** No register of the loop is written elsewhere. *)
Lemma hyp_csrs_alone : Forall (fun r => r ∉ hyp_wide ++ CSR_MSTATUSH :: CSR_MSTATUS :: timer_csrs) hyp_csrs.
Proof. not_listed. Qed.

Lemma hyp_restored (ctx : domain_context) (h : hart_hw) (k : nat) (r : Z) :
  hart_has HART_FEAT_H = true -> hyp_csrs !! k = Some r -> (k < Z.to_nat hyp_last)%nat ->
  hw_read (hw_restore ctx h) r = wrap (hyp_get ctx (Z.of_nat k)).
Proof.
  intros HH Hk Hlt.
  assert (r ∉ hyp_wide ++ CSR_MSTATUSH :: CSR_MSTATUS :: timer_csrs) as Hr
    by exact (Forall_lookup_1 _ _ _ _ hyp_csrs_alone Hk).
  rewrite !not_elem_of_app, !not_elem_of_cons in Hr. destruct Hr as (Hw & Hsh & Hst & Ht).
  rewrite hw_restore_parts, late_ne by (rewrite not_elem_of_cons; done).
  unfold hyp_state_restore. rewrite HH. cbn [negb]. cbv zeta.
  match goal with |- hw_read (match arch_xlen with RV32 => _ | RV64 => ?h' end) r = _ =>
    trans (hw_read h' r); [destruct arch_xlen; [by apply hw_clear_ne|done]|] end.
  change (hw_read (guest_tlb_flush ?x) r) with (hw_read x r).
  unfold hyp_wide in Hw. rewrite !wide_ne by (intros <-; apply Hw; set_solver).
  rewrite write64_ne by (intros <-; apply Hw; set_solver). by apply hyp_loop_eq.
Qed.

(** *** The 64-bit ones *)

Lemma wide_other (on : bool) (h : hart_hw) (a b a' b' v : Z) :
  a <> a' -> a <> b' -> b <> a' -> b <> b' ->
  csr_read64 (if on then csr_write64 h a b v else h) a' b' = csr_read64 h a' b'.
Proof. intros H1 H2 H3 H4. apply read64_same; by apply wide_ne. Qed.

Definition wide_get (ctx : domain_context) (a : Z) : Z :=
  if a =? CSR_HTIMEDELTA then c_htimedelta ctx else if a =? CSR_HENVCFG then c_henvcfg ctx
  else if a =? CSR_HSTATEEN0 then c_hstateen0 ctx else c_vstimecmp ctx.

Lemma wide_restored (ctx : domain_context) (h : hart_hw) (a b : Z) :
  hart_has HART_FEAT_H = true -> (a, b) ∈ wide_regs -> is_u64 (wide_get ctx a) ->
  csr_read64 (hw_restore ctx h) a b = wide_get ctx a.
Proof.
  intros HH Hin Hv. rewrite hw_restore_parts.
  assert (a ∈ hyp_wide /\ b ∈ hyp_wide) as [Ha Hb].
  { unfold wide_regs in Hin. unfold hyp_wide. destruct (hart_has HART_FEAT_MENVCFG), (hart_has HART_FEAT_SMSTATEEN),
      (hart_has HART_FEAT_SSTC); cbn in Hin; set_solver. }
  assert (forall x, x ∈ hyp_wide -> x <> CSR_MSTATUSH /\ (x ∉ CSR_MSTATUS :: timer_csrs)) as Hother.
  { apply Forall_forall. not_listed. }
  destruct (Hother _ Ha) as [Ha1 Ha2], (Hother _ Hb) as [Hb1 Hb2].
  trans (csr_read64 (hyp_state_restore ctx (sstateen_restore ctx (base_restore ctx h))) a b);
    [apply read64_same; by apply late_ne|].
  unfold hyp_state_restore. rewrite HH. cbn [negb]. cbv zeta.
  match goal with |- csr_read64 (match arch_xlen with RV32 => _ | RV64 => ?h' end) a b = _ =>
    trans (csr_read64 h' a b); [apply read64_same; (destruct arch_xlen; [by apply hw_clear_ne|done])|] end.
  change (csr_read64 (guest_tlb_flush ?x) a b) with (csr_read64 x a b).
  unfold wide_regs in Hin. cbn [app] in Hin. apply elem_of_cons in Hin as [[= -> ->]|Hin].
  { rewrite !wide_other by done. by apply read64_write64. }
  apply elem_of_app in Hin as [Hin|Hin].
  { destruct (hart_has HART_FEAT_MENVCFG); [|by apply elem_of_nil in Hin].
    apply list_elem_of_singleton in Hin as [= -> ->]. rewrite !wide_other by done. by apply read64_write64. }
  apply elem_of_app in Hin as [Hin|Hin].
  { destruct (hart_has HART_FEAT_SMSTATEEN); [|by apply elem_of_nil in Hin].
    apply list_elem_of_singleton in Hin as [= -> ->]. rewrite !wide_other by done. by apply read64_write64. }
  destruct (hart_has HART_FEAT_SSTC); [|by apply elem_of_nil in Hin].
  apply list_elem_of_singleton in Hin as [= -> ->]. by apply read64_write64.
Qed.

(** *** Interrupt enables and pending bits *)

Lemma set_read (h : hart_hw) (a v : Z) : hw_wf h -> is_ulong v ->
  hw_read (on_csrs (fun c => csr_set c a v) h) a = Z.lor (hw_read h a) v.
Proof. intros Hwf Hv. apply (hw_read_eq h). apply is_ulong_lor; [by apply hw_read_ulong|done]. Qed.
Lemma clear_read (h : hart_hw) (a v : Z) : hw_wf h ->
  hw_read (on_csrs (fun c => csr_clear c a v) h) a = Z.ldiff (hw_read h a) v.
Proof.
  intros Hwf. pose proof (hw_read_ulong h a Hwf) as Ha. etrans.
  - apply (hw_read_eq h). apply is_ulong_land; [done|]. unfold unot. apply wrap_range.
  - by apply land_unot.
Qed.

Lemma mie_restored (ctx : domain_context) (h : hart_hw) :
  hw_wf h -> is_ulong (c_sie ctx) ->
  let mie := Z.lor (Z.ldiff (hw_read h CSR_MIE) (hw_read h CSR_MIDELEG)) (Z.land (c_sie ctx) (hw_read h CSR_MIDELEG)) in
  hw_read (hw_restore ctx h) CSR_MIE = mie \/ hw_read (hw_restore ctx h) CSR_MIE = Z.lor mie MIP_MTIP.
Proof.
  intros Hwf Hsie mie. pose proof (hw_read_ulong h CSR_MIE Hwf) as H1. pose proof (hw_read_ulong h CSR_MIDELEG Hwf) as H2.
  assert (is_ulong mie) as Hmie.
  { apply is_ulong_lor; [|apply is_ulong_land; [done|unfold is_ulong in H2; lia]].
    unfold is_ulong in *. rewrite <- land_unot by done. apply is_ulong_land; [done|apply wrap_range]. }
  set (h1 := unit_state_restore ctx (hyp_state_restore ctx (sstateen_restore ctx (base_restore ctx h)))).
  assert (hw_read h1 CSR_MIE = mie) as E1.
  { unfold h1. rewrite unit_ne, hyp_ne, sstateen_ne by not_listed. unfold base_restore.
    trans (hw_read (sie_write h (c_sie ctx)) CSR_MIE); [destruct (hart_has _); rewrite !hw_read_ne by done; done|].
    unfold sie_write. rewrite land_unot by done. by apply hw_read_eq. }
  rewrite hw_restore_parts. unfold late_restore, mpxy_hart_shmem_swap. cbn [snd].
  change (hw_read (?x <| hw_shmem := ?v |>) ?r) with (hw_read x r). rewrite ssip_ne by done. fold h1.
  unfold timer_smode_restore. destruct (hart_has HART_FEAT_SSTC).
  { left. destruct arch_xlen; rewrite !hw_read_ne by done; done. }
  destruct ctx_timer; cbn [negb]; [|by left].
  right. rewrite <- E1. etrans; [apply (hw_read_eq _ CSR_MIE)|].
  - change (csr_read (hw_csrs (hw_call ?x ?d)) ?r) with (hw_read x r). rewrite hw_clear_ne by done.
    change (hw_read (?x <| hw_deadline := ?v |>) ?r) with (hw_read x r). rewrite E1.
    apply is_ulong_lor; [done|]. unfold is_ulong, MIP_MTIP. pose proof XLEN_bounds.
    assert (2 ^ 8 <= 2 ^ XLEN) by (apply pow2_le; lia). lia.
  - change (csr_read (hw_csrs (hw_call ?x ?d)) ?r) with (hw_read x r). by rewrite hw_clear_ne by done.
Qed.

Lemma mideleg_kept (ctx : domain_context) (h : hart_hw) : hw_read (hw_restore ctx h) CSR_MIDELEG = hw_read h CSR_MIDELEG.
Proof.
  rewrite hw_restore_parts, late_ne, hyp_ne, sstateen_ne by not_listed. unfold base_restore, sie_write.
  destruct (hart_has _); by rewrite !hw_read_ne by done.
Qed.

Lemma sie_restored (ctx : domain_context) (h : hart_hw) :
  hw_wf h -> is_ulong (c_sie ctx) -> Z.testbit (hw_read h CSR_MIDELEG) 7 = false ->
  sie_read (hw_restore ctx h) = Z.land (c_sie ctx) (hw_read h CSR_MIDELEG).
Proof.
  intros Hwf Hsie H7. unfold sie_read. rewrite mideleg_kept. unfold MIP_MTIP in *.
  destruct (mie_restored ctx h Hwf Hsie) as [->| ->]; unfold MIP_MTIP; bitwise.
  - destruct (Z.testbit (hw_read h CSR_MIDELEG) i); by rewrite ?andb_false_r, ?orb_false_l, ?andb_true_r.
  - rewrite Z.pow2_bits_eqb by lia. destruct (Z.eqb_spec 7 i) as [<-|]; [by rewrite H7, !andb_false_r|].
    rewrite orb_false_r. destruct (Z.testbit (hw_read h CSR_MIDELEG) i); by rewrite ?andb_false_r, ?orb_false_l, ?andb_true_r.
Qed.

(** *** Well-formed registers stay so *)

Lemma write_wf (h : hart_hw) (a v : Z) : hw_wf h -> hw_wf (hw_write h a v).
Proof. apply csr_write_wf. Qed.
Lemma write64_wf (h : hart_hw) (a b v : Z) : hw_wf h -> hw_wf (csr_write64 h a b v).
Proof. intros Hwf. unfold csr_write64. destruct arch_xlen; by repeat apply write_wf. Qed.
Lemma on_wf (h : hart_hw) (f : csr_file -> csr_file) : (forall c, csr_wf c -> csr_wf (f c)) -> hw_wf h -> hw_wf (on_csrs f h).
Proof. intros Hf Hwf. by apply Hf. Qed.

Lemma for_upto_wf (n : nat) (body : Z -> hart_hw -> hart_hw) (h : hart_hw) :
  (forall i h, hw_wf h -> hw_wf (body i h)) -> hw_wf h -> hw_wf (for_upto n body h).
Proof. intros Hb Hwf. apply (for_upto_ind (fun _ => hw_wf)); [done|]. intros i h' _. apply Hb. Qed.

Lemma early_wf (ctx : domain_context) (h : hart_hw) :
  hw_wf h -> hw_wf (hyp_state_restore ctx (sstateen_restore ctx (base_restore ctx h))).
Proof.
  intros Hwf.
  assert (hw_wf (base_restore ctx h)) as H1.
  { unfold base_restore, sie_write. destruct (hart_has _); by repeat apply write_wf. }
  assert (hw_wf (sstateen_restore ctx (base_restore ctx h))) as H2.
  { unfold sstateen_restore. destruct (hart_has _); [|done]. apply for_upto_wf; [|done]. intros; by apply write_wf. }
  unfold hyp_state_restore. destruct (hart_has HART_FEAT_H); [|done]. cbn [negb]. cbv zeta.
  set (h0 := if hart_has HART_FEAT_SSTC then csr_write64 _ _ _ (2 ^ 64 - 1) else _).
  assert (hw_wf h0) as H3 by (unfold h0; destruct (hart_has _); [by apply write64_wf|done]).
  assert (hw_wf (hyp_loop (Z.to_nat hyp_last) ctx h0)) as H4.
  { apply for_upto_wf; [|done]. intros i h' Hh. unfold hyp_csr_write. destruct (hyp_number i); [by apply write_wf|done]. }
  destruct (hart_has HART_FEAT_MENVCFG), (hart_has HART_FEAT_SMSTATEEN), (hart_has HART_FEAT_SSTC), arch_xlen;
    try apply on_wf; try (intros; by apply csr_clear_wf); unfold guest_tlb_flush; repeat apply write64_wf; exact H4.
Qed.

Lemma unit_wf (ctx : domain_context) (h : hart_hw) : hw_wf h -> hw_wf (unit_state_restore ctx h).
Proof.
  intros Hwf. unfold unit_state_restore. set (h' := if truth _ then _ else h).
  assert (hw_wf h') as H1 by (unfold h'; destruct (truth _); [by apply csr_set_wf|done]).
  clearbody h'. assert (hw_wf (snd (vector_unit h'))) as H2.
  { unfold vector_unit. destruct (truth _); cbn [negb snd]; [by apply csr_set_wf|done]. }
  destruct (vector_unit h') as [u h2]. cbn [snd] in H2. destruct u; try done. by destruct (c_vec ctx).
Qed.

Lemma timer_wf (h : hart_hw) (w : Z) : hw_wf h -> hw_wf (timer_smode_restore h w).
Proof.
  intros Hwf. unfold timer_smode_restore. destruct (hart_has _); [destruct arch_xlen; by repeat apply write_wf|].
  destruct ctx_timer; cbn [negb]; [|done]. by apply csr_set_wf, csr_clear_wf.
Qed.

(** *** The timer, the software interrupt, the units *)

Lemma timer_restored (h : hart_hw) (w : Z) :
  hart_has HART_FEAT_SSTC || ctx_timer = true -> is_u64 w -> timer_smode_get (timer_smode_restore h w) = w.
Proof.
  intros Ht Hw. unfold timer_smode_get, timer_smode_restore. destruct (hart_has HART_FEAT_SSTC); cbn [negb orb] in *.
  - unfold is_u64 in Hw. unfold csr_read64. destruct arch_xlen eqn:E.
    + assert (XLEN = 32) as EX by (unfold XLEN; by rewrite E).
      rewrite (hw_read_ne _ CSR_STIMECMP w CSR_STIMECMPH) by done.
      rewrite (hw_read_write _ CSR_STIMECMP w CSR_STIMECMP), (decide_True (P := CSR_STIMECMP = CSR_STIMECMP)) by done.
      rewrite (hw_read_eq _ CSR_STIMECMPH).
      * unfold wrap. rewrite EX. rewrite Z.shiftl_mul_pow2, Z.shiftr_div_pow2 by lia.
        rewrite lor_disjoint_add; [pose proof (Z.div_mod w (2 ^ 32)); lia|].
        bitwise. rewrite Z.mul_pow2_bits by lia. destruct (Z.ltb_spec i 32) as [Hi'|Hi'].
        -- rewrite Z.testbit_neg_r by lia. done.
        -- by rewrite !andb_false_r.
      * unfold is_ulong. rewrite EX, Z.shiftr_div_pow2 by lia.
        split; [apply Z.div_pos; lia|apply Z.div_lt_upper_bound; [lia|change (2 ^ 32 * 2 ^ 32) with (2 ^ 64); lia]].
    + rewrite hw_read_eq; [done|]. unfold is_ulong, XLEN. by rewrite E.
  - by rewrite Ht.
Qed.

Lemma ssip_restored (ctx : domain_context) (h : hart_hw) : hw_wf h ->
  Z.testbit (hw_read (ssip_restore ctx h) CSR_MIP) 1 = Z.testbit (c_sip ctx) 1 || c_ipi ctx.
Proof.
  intros Hwf. unfold ssip_restore, MIP_SSIP. rewrite truth_bit by lia.
  destruct (Z.testbit (c_sip ctx) 1 || c_ipi ctx).
  - rewrite set_read; [by rewrite testbit_set by lia|by apply csr_clear_wf|].
    unfold is_ulong. pose proof XLEN_bounds. assert (2 ^ 2 <= 2 ^ XLEN) by (apply pow2_le; lia). lia.
  - rewrite clear_read by done. by rewrite testbit_clear by lia.
Qed.

(** What holds of the words that are not CSRs. *)
Lemma hw_restore_shmem (ctx : domain_context) (h : hart_hw) : hw_shmem (hw_restore ctx h) = c_mpxy_shmem ctx.
Proof. reflexivity. Qed.

Lemma ssip_units (ctx : domain_context) (h : hart_hw) :
  hw_fp (ssip_restore ctx h) = hw_fp h /\ hw_vec (ssip_restore ctx h) = hw_vec h /\
  hw_deadline (ssip_restore ctx h) = hw_deadline h.
Proof. unfold ssip_restore. by destruct (_ || _). Qed.
Lemma timer_units (h : hart_hw) (w : Z) :
  hw_fp (timer_smode_restore h w) = hw_fp h /\ hw_vec (timer_smode_restore h w) = hw_vec h.
Proof. unfold timer_smode_restore. destruct (hart_has _); [by destruct arch_xlen|]. by destruct ctx_timer. Qed.

Lemma fp_restored (ctx : domain_context) (h : hart_hw) :
  truth (Z.land ctx_misa MISA_EXT_F) = true -> hw_fp (hw_restore ctx h) = c_fp ctx.
Proof.
  intros HF. rewrite hw_restore_parts. set (h1 := hyp_state_restore _ _).
  trans (hw_fp (unit_state_restore ctx h1)).
  { unfold late_restore, mpxy_hart_shmem_swap. cbn [snd].
    trans (hw_fp (ssip_restore ctx (timer_smode_restore (unit_state_restore ctx h1) (c_timer ctx)))); [done|].
    by rewrite (proj1 (ssip_units _ _)), (proj1 (timer_units _ _)). }
  unfold unit_state_restore. rewrite HF. set (h2 := _ <| hw_fp := _ |>).
  assert (hw_fp (snd (vector_unit h2)) = c_fp ctx) as Hv.
  { clearbody h1. assert (hw_fp h2 = c_fp ctx) as <- by done. clearbody h2. unfold vector_unit. by destruct (truth (Z.land ctx_misa MISA_EXT_V)). }
  destruct (vector_unit h2) as [u h3]. cbn [snd] in Hv. destruct u; try done. by destruct (c_vec ctx).
Qed.

(** The vector unit of a hart whose registers fit the contexts. *)
Definition vec_switched (h : hart_hw) : bool :=
  truth (Z.land ctx_misa MISA_EXT_V) && (truth ctx_vec_bytes && (hw_read h CSR_VLENB <=? ctx_vec_bytes)).

Lemma vector_unit_switched (h : hart_hw) : vec_switched h = true ->
  fst (vector_unit h) = VEC_SWITCHED /\ hw_vec (snd (vector_unit h)) = hw_vec h.
Proof.
  unfold vec_switched, vector_unit. destruct (truth (Z.land ctx_misa MISA_EXT_V)); [|done]. cbn [negb andb].
  rewrite hw_set_ne by done. intros ->. done.
Qed.

Lemma vec_restored (ctx : domain_context) (h : hart_hw) (v : vec_state) :
  vec_switched h = true -> c_vec ctx = Some v -> hw_vec (hw_restore ctx h) = v.
Proof.
  intros Hs Hv. rewrite hw_restore_parts. set (h1 := hyp_state_restore _ _).
  assert (hw_read h1 CSR_VLENB = hw_read h CSR_VLENB) as Hb.
  { unfold h1. rewrite hyp_ne, sstateen_ne by not_listed. unfold base_restore, sie_write.
    destruct (hart_has _); by rewrite !hw_read_ne by done. }
  trans (hw_vec (unit_state_restore ctx h1)).
  { unfold late_restore, mpxy_hart_shmem_swap. cbn [snd].
    trans (hw_vec (ssip_restore ctx (timer_smode_restore (unit_state_restore ctx h1) (c_timer ctx)))); [done|].
    destruct (ssip_units ctx (timer_smode_restore (unit_state_restore ctx h1) (c_timer ctx))) as (_ & -> & _).
    by rewrite (proj2 (timer_units _ _)). }
  clearbody h1. unfold unit_state_restore. set (h2 := if truth _ then _ else h1).
  assert (vec_switched h2 = true) as Hs2.
  { unfold vec_switched in *. rewrite <- Hs, <- Hb. unfold h2. destruct (truth (Z.land ctx_misa MISA_EXT_F)); [|done].
    change (hw_read (?x <| hw_fp := ?f |>) ?r) with (hw_read x r). unfold fp_on. by rewrite hw_set_ne. }
  clearbody h2. destruct (vector_unit_switched h2 Hs2) as [E _].
  destruct (vector_unit h2) as [u h3]. cbn [fst] in E. subst u. by rewrite Hv.
Qed.

(** ** What is saved *)

(** Fields of an updated context. *)
Ltac project :=
  lazy beta iota zeta delta [field_update c_state c_caller c_ipi c_quiet c_regs c_sie c_sip c_stvec c_sscratch c_sepc
    c_scause c_stval c_satp c_scounteren c_senvcfg c_sstateen c_hyp c_htimedelta c_henvcfg c_hstateen0 c_vstimecmp
    c_timer c_mpxy_shmem c_fp c_vec]; reflexivity.

(** The contexts have the arrays they are declared with. *)
Definition ctx_shaped (c : domain_context) : Prop :=
  length (c_hyp c) = Z.to_nat HYP_CSR_COUNT /\ length (c_sstateen c) = 4%nat.

Definition saved (c : domain_context) (regs : trap_regs) (h : hart_hw) : domain_context := fst (context_save c regs h).

(** The context before its arrays are saved, and before its hypervisor's
    part is. *)
Definition plain_saved (c : domain_context) (regs : trap_regs) (h : hart_hw) : domain_context :=
  let c := c <| c_regs := regs |> <| c_sie := sie_read h |> <| c_sip := sip_read h |>
    <| c_stvec := hw_read h CSR_STVEC |> <| c_sscratch := hw_read h CSR_SSCRATCH |>
    <| c_sepc := hw_read h CSR_SEPC |> <| c_scause := hw_read h CSR_SCAUSE |>
    <| c_stval := hw_read h CSR_STVAL |> <| c_satp := hw_read h CSR_SATP |>
    <| c_scounteren := hw_read h CSR_SCOUNTEREN |> in
  if hart_has HART_FEAT_MENVCFG then c <| c_senvcfg := hw_read h CSR_SENVCFG |> else c.
Definition base_saved (c : domain_context) (regs : trap_regs) (h : hart_hw) : domain_context :=
  (sstateen_save (plain_saved c regs h) h) <| c_timer := timer_smode_get h |> <| c_mpxy_shmem := hw_shmem h |>.

Lemma plain_saved_arrays (c : domain_context) (regs : trap_regs) (h : hart_hw) :
  c_sstateen (plain_saved c regs h) = c_sstateen c /\ c_hyp (plain_saved c regs h) = c_hyp c.
Proof. unfold plain_saved. destruct (hart_has HART_FEAT_MENVCFG); split; reflexivity. Qed.

Definition hw_out (h : hart_hw) : hart_hw := h <| hw_shmem := MPXY_SHMEM_NONE |>.

Lemma saved_parts (c : domain_context) (regs : trap_regs) (h : hart_hw) :
  saved c regs h =
  fst (unit_state_save (fst (hyp_state_save (base_saved c regs h) (hw_out h))) (snd (hyp_state_save (base_saved c regs h) (hw_out h)))).
Proof.
  unfold saved. change (context_save c regs h) with
    (let '(ctx, h) := hyp_state_save (base_saved c regs h) (hw_out h) in
     let '(ctx, h) := unit_state_save ctx h in (ctx, hw_call h ServicesOut)).
  destruct (hyp_state_save _ _) as [c1 h1]. cbn [fst snd]. by destruct (unit_state_save c1 h1) as [c2 h2].
Qed.

Lemma sstateen_save_shape (c : domain_context) (h : hart_hw) :
  sstateen_save c h = c <| c_sstateen := c_sstateen (sstateen_save c h) |>.
Proof. unfold sstateen_save. destruct (hart_has _); destruct c; reflexivity. Qed.

Lemma unit_save_shape (c : domain_context) (h : hart_hw) :
  fst (unit_state_save c h) =
  c <| c_fp := c_fp (fst (unit_state_save c h)) |> <| c_vec := c_vec (fst (unit_state_save c h)) |>.
Proof.
  unfold unit_state_save. destruct (truth (Z.land ctx_misa MISA_EXT_F));
    match goal with |- context [vector_unit ?x] => destruct (vector_unit x) as [[] ?] end; destruct c; reflexivity.
Qed.

Lemma hyp_save_loop_shape (n : nat) (c : domain_context) (h : hart_hw) :
  let body i ctx := ctx <| c_hyp := <[Z.to_nat i := hyp_csr_read h i]> (c_hyp ctx) |> in
  for_upto n body c = c <| c_hyp := c_hyp (for_upto n body c) |>.
Proof.
  intros body. apply (for_upto_ind (fun _ c' => c' = c <| c_hyp := c_hyp c' |>)); [by destruct c|].
  intros i c' _ IH. unfold body. rewrite IH at 1. reflexivity.
Qed.

Lemma hyp_save_shape (c : domain_context) (h : hart_hw) :
  let c' := fst (hyp_state_save c h) in
  c' = c <| c_hyp := c_hyp c' |> <| c_htimedelta := c_htimedelta c' |> <| c_henvcfg := c_henvcfg c' |>
         <| c_hstateen0 := c_hstateen0 c' |> <| c_vstimecmp := c_vstimecmp c' |>.
Proof.
  cbv zeta. unfold hyp_state_save. destruct (hart_has HART_FEAT_H); cbn [negb]; [|by destruct c].
  rewrite (hyp_save_loop_shape (Z.to_nat hyp_last) c h). set (l := c_hyp (for_upto _ _ c)). clearbody l.
  destruct (hart_has HART_FEAT_MENVCFG), (hart_has HART_FEAT_SMSTATEEN), (hart_has HART_FEAT_SSTC); destruct c; reflexivity.
Qed.

Section Saved.
Context (c : domain_context) (regs : trap_regs) (h : hart_hw).
Abbreviation c' := (saved c regs h).

Lemma saved_shape :
  c' = (base_saved c regs h) <| c_hyp := c_hyp c' |> <| c_htimedelta := c_htimedelta c' |> <| c_henvcfg := c_henvcfg c' |>
         <| c_hstateen0 := c_hstateen0 c' |> <| c_vstimecmp := c_vstimecmp c' |> <| c_fp := c_fp c' |> <| c_vec := c_vec c' |>.
Proof.
  rewrite !saved_parts. rewrite unit_save_shape. set (f := c_fp _). set (v := c_vec _). clearbody f v.
  rewrite hyp_save_shape at 1. reflexivity.
Qed.

Lemma saved_base :
  base_pairs c' = map (fun p => (fst p, hw_read h (fst p))) (base_pairs c') /\
  c_sie c' = sie_read h /\ c_sip c' = sip_read h /\ c_timer c' = timer_smode_get h /\ c_mpxy_shmem c' = hw_shmem h /\
  c_ipi c' = c_ipi c /\ c_regs c' = regs /\ c_sstateen c' = c_sstateen (base_saved c regs h).
Proof.
  rewrite saved_shape. unfold base_saved. rewrite sstateen_save_shape. set (l := c_sstateen (sstateen_save _ _)). clearbody l.
  unfold base_pairs, plain_saved. destruct (hart_has HART_FEAT_MENVCFG); cbn [map app fst]; split_and!; project.
Qed.

Lemma saved_sstateen : ctx_shaped c -> hart_has HART_FEAT_SMSTATEEN = true ->
  Forall (fun p => snd p = hw_read h (fst p)) (sstateen_pairs c').
Proof.
  intros [_ Hl] Hs. unfold sstateen_pairs. destruct saved_base as (_ & _ & _ & _ & _ & _ & _ & ->).
  change (c_sstateen (base_saved c regs h)) with (c_sstateen (sstateen_save (plain_saved c regs h) h)).
  destruct (plain_saved_arrays c regs h) as [Hb _]. rewrite <- Hb in Hl. set (b := plain_saved c regs h) in *. clearbody b.
  unfold sstateen_save. rewrite Hs. destruct b as [? ? ? ? ? ? ? ? ? ? ? ? ? ? ? l]. cbn in Hl.
  destruct l as [|x0 [|x1 [|x2 [|x3 [|? ?]]]]]; try discriminate. cbn. repeat constructor.
Qed.

Lemma saved_hyp (k : nat) (r : Z) : ctx_shaped c -> hart_has HART_FEAT_H = true ->
  hyp_csrs !! k = Some r -> (k < Z.to_nat hyp_last)%nat -> hyp_get c' (Z.of_nat k) = hw_read h r.
Proof.
  intros [Hl _] HH Hk Hlt. rewrite saved_parts, unit_save_shape. set (x := fst (hyp_state_save _ _)).
  change (hyp_get (_ <| c_fp := _ |> <| c_vec := _ |>) (Z.of_nat k)) with (hyp_get x (Z.of_nat k)).
  trans (hyp_get (for_upto (Z.to_nat hyp_last)
     (fun i ctx => ctx <| c_hyp := <[Z.to_nat i := hyp_csr_read (hw_out h) i]> (c_hyp ctx) |>) (base_saved c regs h)) (Z.of_nat k)).
  - unfold x, hyp_state_save. rewrite HH. cbn [negb]. cbv zeta.
    destruct (hart_has HART_FEAT_MENVCFG), (hart_has HART_FEAT_SMSTATEEN), (hart_has HART_FEAT_SSTC); reflexivity.
  - rewrite (hyp_save_loop _ k (hw_out h) _ r); [reflexivity|done|done|]. rewrite <- Hl. unfold base_saved.
    rewrite sstateen_save_shape. rewrite <- (proj2 (plain_saved_arrays c regs h)). reflexivity.
Qed.

Lemma saved_wide (a b : Z) : hart_has HART_FEAT_H = true -> (a, b) ∈ wide_regs -> wide_get c' a = csr_read64 h a b.
Proof.
  intros HH Hin. rewrite saved_parts, unit_save_shape. set (x := fst (hyp_state_save _ _)).
  change (wide_get (_ <| c_fp := _ |> <| c_vec := _ |>) a) with (wide_get x a).
  unfold x, hyp_state_save. rewrite HH. cbn [negb]. cbv zeta. unfold wide_regs in Hin.
  set (y := for_upto _ _ _). clearbody y.
  destruct (hart_has HART_FEAT_MENVCFG), (hart_has HART_FEAT_SMSTATEEN), (hart_has HART_FEAT_SSTC); cbn [app] in Hin;
    repeat (apply elem_of_cons in Hin as [[= -> ->]|Hin]; [reflexivity|]); by apply elem_of_nil in Hin.
Qed.

Lemma saved_fp : truth (Z.land ctx_misa MISA_EXT_F) = true -> c_fp c' = hw_fp h.
Proof.
  intros HF. rewrite saved_parts. unfold unit_state_save. rewrite HF.
  assert (hw_fp (snd (hyp_state_save (base_saved c regs h) (hw_out h))) = hw_fp h) as <-
    by (unfold hyp_state_save; by destruct (hart_has HART_FEAT_H)).
  match goal with |- context [vector_unit ?x] => destruct (vector_unit x) as [[] ?] end; reflexivity.
Qed.

Lemma saved_vec : vec_switched h = true -> c_vec c' = Some (hw_vec h).
Proof.
  intros Hs. rewrite saved_parts. unfold unit_state_save.
  set (h1 := snd (hyp_state_save _ _)). set (c1 := fst (hyp_state_save _ _)).
  assert (hw_vec h1 = hw_vec h /\ hw_read h1 CSR_VLENB = hw_read h CSR_VLENB) as [Ev Eb]
    by (unfold h1, hyp_state_save; by destruct (hart_has HART_FEAT_H)).
  clearbody h1 c1. set (p := if truth (Z.land ctx_misa MISA_EXT_F) then _ else _).
  assert (hw_vec (snd p) = hw_vec h /\ hw_read (snd p) CSR_VLENB = hw_read h CSR_VLENB) as [Ev2 Eb2].
  { unfold p. destruct (truth _); cbn [snd]; [|done]. unfold fp_on. rewrite hw_set_ne by done. done. }
  clearbody p. destruct p as [c2 h2]. cbn [snd] in *.
  assert (vec_switched h2 = true) as Hs2 by (unfold vec_switched in *; by rewrite Eb2).
  destruct (vector_unit_switched h2 Hs2) as [E1 E2]. destruct (vector_unit h2) as [u h3]. cbn [fst snd] in *. subst u.
  cbn. by rewrite E2, Ev2.
Qed.
End Saved.

(** ** The round trip *)

(** The registers of one word that S-mode software of a context owns. *)
Definition smode_csrs : list Z :=
  [CSR_STVEC; CSR_SSCRATCH; CSR_SEPC; CSR_SCAUSE; CSR_STVAL; CSR_SATP; CSR_SCOUNTEREN] ++
  (if hart_has HART_FEAT_MENVCFG then [CSR_SENVCFG] else []) ++
  (if hart_has HART_FEAT_SMSTATEEN then sstateen_csrs else []) ++
  (if hart_has HART_FEAT_H then take (Z.to_nat hyp_last) hyp_csrs else []).
Definition smode_wide : list (Z * Z) := if hart_has HART_FEAT_H then wide_regs else [].

Lemma smode_csr_back (c : domain_context) (regs : trap_regs) (h h2 : hart_hw) (r : Z) :
  ctx_shaped c -> hw_wf h -> r ∈ smode_csrs -> hw_read (hw_restore (saved c regs h) h2) r = hw_read h r.
Proof.
  intros Hc Hwf Hr. pose proof (hw_read_ulong h r Hwf) as Hu. rewrite <- (wrap_small _ Hu).
  unfold smode_csrs in Hr. rewrite app_assoc in Hr. apply elem_of_app in Hr as [Hr|Hr].
  - destruct (saved_base c regs h) as [E _]. apply base_restored. rewrite E.
    apply list_elem_of_In, in_map_iff. exists (r, default 0 (snd <$> List.find (fun p => fst p =? r) (base_pairs (saved c regs h)))).
    split; [done|]. clear E. apply list_elem_of_In. unfold base_pairs. destruct (hart_has HART_FEAT_MENVCFG); cbn [app] in Hr |- *;
      repeat (apply elem_of_cons in Hr as [->|Hr]; [cbn; set_solver|]); by apply elem_of_nil in Hr.
  - apply elem_of_app in Hr as [Hr|Hr].
    + destruct (hart_has HART_FEAT_SMSTATEEN) eqn:Es; [|by apply elem_of_nil in Hr].
      pose proof (saved_sstateen c regs h Hc Es) as HF. apply sstateen_restored.
      unfold sstateen_pairs in *. rewrite Es in *. cbn [map] in *. unfold sstateen_csrs in Hr.
      rewrite !Forall_cons in HF. destruct HF as (H0 & H1 & H2 & H3 & _). cbn [fst snd] in H0, H1, H2, H3.
      rewrite H0, H1, H2, H3. clear H0 H1 H2 H3.
      repeat (apply elem_of_cons in Hr as [->|Hr]; [set_solver|]); by apply elem_of_nil in Hr.
    + destruct (hart_has HART_FEAT_H) eqn:EH; [|by apply elem_of_nil in Hr].
      apply list_elem_of_lookup in Hr as [k Hk]. apply lookup_take_Some in Hk as [Hk Hlt].
      rewrite (hyp_restored _ _ k) by done. by rewrite (saved_hyp c regs h k r) by done.
Qed.

Lemma timer_get_u64 (h : hart_hw) : hw_wf h -> is_u64 (hw_deadline h) -> is_u64 (timer_smode_get h).
Proof. intros Hwf Hd. unfold timer_smode_get. destruct (negb _); [done|]. by apply read64_u64. Qed.

Lemma timer_back (ctx : domain_context) (h : hart_hw) :
  hart_has HART_FEAT_SSTC || ctx_timer = true -> is_u64 (c_timer ctx) ->
  timer_smode_get (hw_restore ctx h) = c_timer ctx.
Proof.
  intros Ht Hu. rewrite hw_restore_parts. set (h1 := hyp_state_restore _ _). clearbody h1.
  etrans; [|exact (timer_restored (unit_state_restore ctx h1) (c_timer ctx) Ht Hu)].
  set (h2 := timer_smode_restore _ _). unfold late_restore, mpxy_hart_shmem_swap. cbn [snd]. fold h2. clearbody h2.
  unfold timer_smode_get, csr_read64. destruct (hart_has HART_FEAT_SSTC); cbn [negb].
  - change (hw_read (?x <| hw_shmem := ?v |>) ?r) with (hw_read x r). by rewrite !ssip_ne.
  - apply (ssip_units ctx h2).
Qed.

Lemma ssip_back (ctx : domain_context) (h : hart_hw) : hw_wf h ->
  Z.testbit (hw_read (hw_restore ctx h) CSR_MIP) 1 = Z.testbit (c_sip ctx) 1 || c_ipi ctx.
Proof.
  intros Hwf. rewrite hw_restore_parts. unfold late_restore, mpxy_hart_shmem_swap. cbn [snd].
  change (hw_read (?x <| hw_shmem := ?v |>) ?r) with (hw_read x r).
  apply ssip_restored. by apply timer_wf, unit_wf, early_wf.
Qed.

Lemma land_absorb (a b : Z) : Z.land (Z.land a b) b = Z.land a b.
Proof. by rewrite <- Z.land_assoc, Z.land_diag. Qed.

(** C11: what a context had of a hart is there again when the hart is back in
    it, whatever ran on the hart in between ([h2]) as long as mideleg is then
    what it was (the overflow interrupt's bit is the PMU's, and is switched
    with its events), on a hart with Sstc or a timer: every S-mode register,
    the hypervisor's and the 64-bit ones, sie, the timer's deadline, the
    shared memory of MPXY, the floating point and vector registers.  A
    software interrupt that was pending, or that came meanwhile, is pending. *)
Theorem context_roundtrip (c : domain_context) (regs : trap_regs) (h h2 : hart_hw) :
  ctx_shaped c -> hw_wf h -> hw_wf h2 -> is_u64 (hw_deadline h) ->
  hw_read h2 CSR_MIDELEG = hw_read h CSR_MIDELEG -> Z.testbit (hw_read h CSR_MIDELEG) 7 = false ->
  hart_has HART_FEAT_SSTC || ctx_timer = true ->
  let h' := hw_restore (fst (context_save c regs h)) h2 in
  (forall r, r ∈ smode_csrs -> hw_read h' r = hw_read h r) /\
  (forall a b, (a, b) ∈ smode_wide -> csr_read64 h' a b = csr_read64 h a b) /\
  sie_read h' = sie_read h /\
  timer_smode_get h' = timer_smode_get h /\
  hw_shmem h' = hw_shmem h /\
  (truth (Z.land ctx_misa MISA_EXT_F) = true -> hw_fp h' = hw_fp h) /\
  (vec_switched h = true -> vec_switched h2 = true -> hw_vec h' = hw_vec h) /\
  Z.testbit (hw_read h' CSR_MIP) 1 = Z.testbit (sip_read h) 1 || c_ipi c /\
  c_regs (fst (context_save c regs h)) = regs.
Proof.
  intros Hc Hwf Hwf2 Hd Hmd H7 Ht h'. unfold h'. fold (saved c regs h). clear h'.
  destruct (saved_base c regs h) as (_ & Esie & Esip & Etm & Esh & Eipi & Ergs & _).
  split_and!.
  - intros r Hr. by apply smode_csr_back.
  - intros a b Hab. unfold smode_wide in Hab. destruct (hart_has HART_FEAT_H) eqn:EH; [|by apply elem_of_nil in Hab].
    pose proof (saved_wide c regs h a b EH Hab) as E.
    rewrite wide_restored; [done|done|done|]. rewrite E. by apply read64_u64.
  - rewrite sie_restored; [|done| |by rewrite Hmd].
    + rewrite Esie, Hmd. apply land_absorb.
    + rewrite Esie. apply is_ulong_land; [by apply hw_read_ulong|]. apply (hw_read_ulong h CSR_MIDELEG Hwf).
  - rewrite timer_back; [done|done|]. rewrite Etm. by apply timer_get_u64.
  - by rewrite hw_restore_shmem.
  - intros HF. rewrite fp_restored by done. by apply saved_fp.
  - intros Hs Hs2. rewrite (vec_restored _ _ (hw_vec h)); [done|done|by apply saved_vec].
  - by rewrite ssip_back, Esip, Eipi.
  - done.
Qed.
End Regs.
