(* ===== verification/DomainInit.v ===== *)
(** The boot of the domains, [arch/riscv/runtime/domain.c]: reading them from
    the device tree ([domains_init]) and starting them ([domains_start]).
    What the tree has of them is a record: its nodes in order, properties of
    cells as lists, and what a phandle leads to. *)

From S2P Require Import Prelude Arch Csr Fields Memregion Bitstring Domain Hart DomainContext DomainContextProps DomainMoves.
From stdpp Require Import strings sorting.

#[local] Open Scope Z_scope.

(** * The tree *)

(** "riscv,domain,memregion": base, order (0 without), mmio *)
Record mem_node := MemNode { mn_base : option Z; mn_order : Z; mn_mmio : bool }.

(** A subnode of "riscv,domain,config". *)
Record config_node := ConfigNode {
  cn_instance : bool; (* compatible with "riscv,domain,instance" *)
  cn_name : string;
  cn_phandle : Z; (* 0: none *)
  cn_possible : list Z; (* possible-harts: phandles *)
  cn_inherit_all : bool; (* root-regions-inheritance = "all" *)
  cn_regions : list Z; (* <&memregion permissions> pairs *)
  cn_boot_hart : option Z; (* phandle *)
  cn_next_addr : option Z;
  cn_next_arg1 : option Z;
  cn_next_mode : option Z;
  cn_reset : bool;
  cn_suspend : bool;
  cn_entry_from : list Z; (* riscv,entry-allowed-from: phandles *)
}.

(** A cpu node: "riscv,domain" (0 without) and the hart id of its "reg". *)
Record cpu_dt := CpuDt { cpu_domain : Z; cpu_hartid : option Z }.

Record domain_tree := DomainTree {
  t_config : option (list config_node);
  t_cpus : list cpu_dt;
  t_memregion : Z -> option mem_node; (* by phandle, with the compatible of one *)
  t_cpu : Z -> option Z; (* by phandle: the hart id of a cpu node *)
}.

Section DomainInit.
Context {AR : Arch} {KC : Kconfig} {HT : HartTable}.
Abbreviation table := (hart_table_size ht_ids).

(** * [domains_init] *)

Definition cpu_hart_index (t : domain_tree) (phandle : Z) : Z :=
  match t_cpu t phandle with
  | Some hartid => hart_index ht_ids (wrap hartid)
  | None => -1
  end.

(** [possible-harts] *)
Definition possible_harts (t : domain_tree) (phandles : list Z) (m : hartmask) : hartmask :=
  foldl (fun m phandle =>
    let idx := cpu_hart_index t phandle in if 0 <=? idx then hartmask_set m idx else m) m phandles.

(** What [instance_parse] refuses of a region, [add_region] apart. *)
Definition region_bad (base : option Z) (order : Z) : bool :=
  match base with
  | None => true
  | Some base =>
      (order <? 3) || (XLEN <? order) ||
      ((order <? XLEN) &&
       (truth (Z.shiftr (Z.shiftr base 1) (XLEN - 1)) || negb (Z.land base (2 ^ order - 1) =? 0)))
  end.

(** [for (int i = 0; list && i + 1 < len / 4; i += 2)]; [None] is the -1. *)
Fixpoint regions_loop (t : domain_tree) (dom : domain) (cells : list Z) : option domain :=
  match cells with
  | phandle :: perm :: cells =>
      r ← t_memregion t phandle;
      if region_bad (mn_base r) (mn_order r) then None
      else
        let '(dom, rc) := add_region dom (wrap (default 0 (mn_base r))) (mn_order r) perm (mn_mmio r) in
        if truth rc then None else regions_loop t dom cells
  | _ => Some dom
  end.

(** Its name, harts and room for its regions. *)
Definition instance_new (t : domain_tree) (root_boot_hart : Z) (n : config_node) : domain :=
  let dom := domain_zero <| d_boot_hart := root_boot_hart |> <| d_phandle := cn_phandle n |>
    <| d_name := String.substring 0 31 (cn_name n) |> in
  let dom := regions_alloc dom (1 + Z.of_nat (length (cn_regions n)) / 2) in
  dom <| d_possible := possible_harts t (cn_possible n) (d_possible dom) |>.

(** "all" is the rest of the root domain too. *)
Definition instance_inherit (n : config_node) (dom : domain) : domain :=
  if cn_inherit_all n then fst (add_region dom 0 XLEN DOMAIN_PERM_SU_RWX false) else dom.

Definition instance_parse (t : domain_tree) (root_boot_hart : Z) (n : config_node) : option domain :=
  let dom := instance_inherit n (instance_new t root_boot_hart n) in
  dom ← regions_loop t dom (cn_regions n);
  Some (dom <| d_boot_hart := match cn_boot_hart n with Some phandle => cpu_hart_index t phandle | None => d_boot_hart dom end |>
    <| d_next_addr := wrap (default 0 (cn_next_addr n)) |>
    <| d_next_arg1 := wrap (default 0 (cn_next_arg1 n)) |>
    <| d_next_arg1_given := bool_decide (is_Some (cn_next_arg1 n)) |>
    <| d_next_mode := if truth (default PRV_S (cn_next_mode n)) then PRV_S else PRV_U |>
    <| d_reset_allowed := cn_reset n |> <| d_suspend_allowed := cn_suspend n |>).

(** The first walk over the nodes: a domain per instance that parses. *)
Definition parse_node (t : domain_tree) (root_boot_hart : Z) (domains : list domain) (n : config_node) : list domain :=
  if cn_instance n then
    match instance_parse t root_boot_hart n with
    | Some dom => domains ++ [dom <| d_index := domain_count domains |>]
    | None => domains
    end
  else domains.

(** The second one: who may enter whom. *)
Definition entry_bits (domains : list domain) (phandles : list Z) : bitstr :=
  foldl (fun bits phandle =>
    match domain_by_phandle domains phandle with
    | Some from => bit_set bits (d_index from)
    | None => bits
    end) (replicate (Z.to_nat (bitstr_size (domain_count domains))) 0) phandles.

Definition entry_node (domains : list domain) (n : config_node) : list domain :=
  match domain_by_phandle domains (cn_phandle n) with
  | Some dom =>
      if truth (d_index dom) then
        alter (fun dom => dom <| d_entry_from := Some (entry_bits domains (cn_entry_from n)) |>)
          (Z.to_nat (d_index dom)) domains
      else domains
  | None => domains
  end.

(** The last domain of the phandle, from domain 1 on. *)
Definition last_by_phandle (domains : list domain) (phandle : Z) : option domain :=
  List.find (fun d => d_phandle d =? phandle) (rev (drop 1 domains)).

(** One cpu node of [assign_harts]; beside the domains, [h->domain]. *)
Definition assign_hart (s : list domain * (Z -> Z)) (c : cpu_dt) : list domain * (Z -> Z) :=
  let '(domains, at_) := s in
  match cpu_hartid c with
  | None => s
  | Some hartid =>
      let idx := hart_index ht_ids (wrap hartid) in
      if (cpu_domain c =? 0) || (idx <? 0) then s
      else match last_by_phandle domains (cpu_domain c) with
      | None => s
      | Some dom =>
          if negb (hartmask_test (d_possible dom) idx) then s
          else
            let domains := alter (fun r => r <| d_assigned := hartmask_clear (d_assigned r) idx |>) 0%nat domains in
            let domains := alter (fun d => d <| d_assigned := hartmask_set (d_assigned d) idx |>) (Z.to_nat (d_index dom)) domains in
            (domains, fun h => if h =? idx then d_index dom else at_ h)
      end
  end.
Definition assign_harts (t : domain_tree) (domains : list domain) (at_ : Z -> Z) : list domain * (Z -> Z) :=
  foldl assign_hart (domains, at_) (t_cpus t).

(** The next stage the monitor was given is the boot hart's domain's. *)
Definition next_stage (self next_addr next_mode : Z) (s : list domain * (Z -> Z)) : list domain * (Z -> Z) :=
  let '(domains, at_) := s in
  (alter (fun d => if d_next_addr d =? 0 then d <| d_next_addr := next_addr |> <| d_next_mode := next_mode |> else d)
     (Z.to_nat (at_ self)) domains, at_).

(** [self]: the boot hart. *)
Definition domains_init (t : option domain_tree) (self next_addr next_mode : Z) : list domain * (Z -> Z) :=
  let root := root_domain_init table self next_addr next_mode in
  match t ≫= t_config, t with
  | Some nodes, Some t =>
      let domains := foldl (parse_node t (d_boot_hart root)) [root] nodes in
      let domains := foldl entry_node domains nodes in
      next_stage self next_addr next_mode (assign_harts t domains (fun _ => 0))
  | _, _ => ([root], fun _ => 0)
  end.

(** * [domains_start] *)

(** The first hart of the domain that has S-mode; -1: none. *)
Definition first_boot_hart (valid : Z -> bool) (dom : domain) : Z :=
  default (-1) (List.find (fun i => domain_hart_assigned dom i && valid i) (seqZ 0 table)).

(** The first loop, on one domain. *)
Definition start_prepare (fdt pmp_entries : Z) (no_smode valid : Z -> bool) (dom : domain) : outcome domain :=
  let dom := if d_next_arg1_given dom then dom else dom <| d_next_arg1 := fdt |> in
  let dom := if (0 <=? d_boot_hart dom) && no_smode (d_boot_hart dom)
             then dom <| d_boot_hart := first_boot_hart valid dom |> else dom in
  if pmp_entries <? Z.of_nat (length (d_regions dom)) then Panic else Ret dom.

Fixpoint start_prepare_all (fdt pmp_entries : Z) (no_smode valid : Z -> bool) (doms : list domain) : outcome (list domain) :=
  match doms with
  | [] => Ret []
  | dom :: doms =>
      dom ← start_prepare fdt pmp_entries no_smode valid dom;
      doms ← start_prepare_all fdt pmp_entries no_smode valid doms;
      Ret (dom :: doms)
  end.

(** The second loop, on one domain: it boots on its boot hart, if that hart
    is its own. *)
Definition start_one {CE : CtxEnv} (valid : Z -> bool) (mine : Z) (s : dstate) (d : Z) : dstate :=
  let dom := dom_at s d in
  if ((d =? mine) && (d_boot_hart dom =? ctx_self)) || (d_boot_hart dom <? 0) || (d_next_addr dom =? 0) ||
     negb (domain_hart_assigned dom (d_boot_hart dom))
  then s else snd (domain_start s valid d).

(** What the calling hart does then. *)
Inductive boots := BootsSelf (addr arg1 mode : Z) | WaitsForStart.

Definition domains_start {CE : CtxEnv} (fdt pmp_entries : Z) (no_smode valid : Z -> bool) (s : dstate) : outcome (dstate * boots) :=
  let mine := ds_at s ctx_self in
  doms ← start_prepare_all fdt pmp_entries no_smode valid (ds_domains s);
  let s := s <| ds_domains := doms |> in
  let s := foldl (start_one valid mine) s (seqZ 0 (domain_count doms)) in
  let dom := dom_at s mine in
  Ret (s, if (d_boot_hart dom =? ctx_self) && domain_range_ok ctx_memregions (Some dom) (d_next_addr dom) 4 DOMAIN_PERM_SU_X
          then BootsSelf (d_next_addr dom) (d_next_arg1 dom) (d_next_mode dom) else WaitsForStart).
End DomainInit.
