(* ===== verification/DomainInitProps.v ===== *)
(** What the boot of the domains establishes: the placement of the harts that
    the moves between domains start from, regions in the order the PMP needs,
    entry as the tree lists it, and a start of every domain on a hart of its
    own.  At the end, a
    machine with a trusted domain. *)

From stdpp Require Import strings sorting.
From S2P Require Import Prelude Arch Csr Fields Memregion Bitstring Domain PmpLayout Hart DomainContext DomainContextProps DomainMoves DomainInit.

#[local] Open Scope Z_scope.


Lemma lookup_alter_cases {A} (f : A -> A) (i j : nat) (l : list A) (x : A) :
  alter f i l !! j = Some x ->
  (i = j /\ exists y, l !! j = Some y /\ x = f y) \/ (i <> j /\ l !! j = Some x).
Proof.
  destruct (decide (i = j)) as [->|Hne].
  - rewrite list_lookup_alter_eq. destruct (l !! j) as [y|]; [|done]. intros [= <-]. eauto.
  - rewrite list_lookup_alter_ne by done. auto.
Qed.

Section Props.
Context {AR : Arch} {KC : Kconfig} {F : Features} {HT : HartTable}.
Abbreviation table := (hart_table_size ht_ids).

(** * Regions *)

(** What is let through: the base of a region that is everything is not
    looked at. *)
Definition region_parsed (r : domain_region) : Prop :=
  3 <= dr_order r <= XLEN /\ 0 <= dr_perm r /\
  (dr_order r < XLEN -> is_ulong (dr_base r) /\ dr_base r mod 2 ^ dr_order r = 0).

Record regions_ok (dom : domain) : Prop := {
  ro_sorted : StronglySorted by_order (d_regions dom);
  ro_parsed : Forall region_parsed (d_regions dom);
}.

(** The properties of cells are unsigned, and so are the others. *)
Record tree_ok (t : domain_tree) : Prop := {
  to_base ph r b : t_memregion t ph = Some r -> mn_base r = Some b -> 0 <= b < 2 ^ 64;
  to_cells nodes n : t_config t = Some nodes -> n ∈ nodes -> Forall (fun c => 0 <= c) (cn_regions n);
}.

Lemma add_region_ok (dom : domain) (base order perm : Z) (mmio : bool) :
  regions_ok dom -> region_parsed (DomainRegion base order perm mmio) ->
  Z.of_nat (length (d_regions dom)) <> d_max_regions dom ->
  exists regions, add_region dom base order perm mmio = (dom <| d_regions := regions |>, 0) /\
    regions_ok (dom <| d_regions := regions |>) /\ length regions = S (length (d_regions dom)).
Proof.
  intros [Hs Hp] Hr Hroom. destruct (add_region_insert dom base order perm mmio Hs Hroom) as (l1 & l2 & E & -> & Hs').
  eexists; split_and!; [done|..].
  - split; [done|]. cbn. rewrite E in Hp. apply Forall_app in Hp as [H1 H2]. apply Forall_app. split; [done|]. by constructor.
  - rewrite E, !length_app. cbn. lia.
Qed.

Lemma region_good (base : Z) (order perm : Z) (mmio : bool) :
  0 <= base < 2 ^ 64 -> 0 <= perm -> region_bad (Some base) order = false ->
  region_parsed (DomainRegion (wrap base) order perm mmio).
Proof.
  intros Hb Hp. unfold region_bad. intros Hbad. pose proof XLEN_bounds.
  apply orb_false_iff in Hbad as [Hbad Hal]. bool_prop. split_and!; cbn; [lia|lia|done|]. intros Ho.
  apply andb_false_iff in Hal as [Hal|Hal]; [bool_prop; lia|]. apply orb_false_iff in Hal as [Hhi Hal]. bool_prop.
  assert (base < 2 ^ XLEN) as Hlt.
  { unfold truth in Hhi. apply negb_false_iff, Z.eqb_eq in Hhi. rewrite Z.shiftr_shiftr in Hhi by lia.
    replace (1 + (XLEN - 1)) with XLEN in Hhi by lia. rewrite Z.shiftr_div_pow2 in Hhi by lia.
    apply Z.div_small_iff in Hhi; [|pose proof pow_XLEN_pos; lia]. pose proof pow_XLEN_pos. lia. }
  rewrite wrap_small by (split; lia). split; [split; lia|]. rewrite <- land_low by lia. done.
Qed.

(** The loop: the regions of the node join those there are, in order; what is
    refused is a node, not a lack of room. *)
Lemma regions_loop_ok (t : domain_tree) (cells : list Z) (dom : domain) :
  tree_ok t -> Forall (fun c => 0 <= c) cells -> regions_ok dom ->
  Z.of_nat (length (d_regions dom)) + Z.of_nat (length cells) / 2 <= d_max_regions dom ->
  match regions_loop t dom cells with
  | Some dom' => exists regions, dom' = dom <| d_regions := regions |> /\ regions_ok dom'
  | None => exists i ph, cells !! (2 * i)%nat = Some ph /\
      match t_memregion t ph with Some r => region_bad (mn_base r) (mn_order r) = true | None => True end
  end.
Proof.
  intros Ht. remember (length cells) as len eqn:Hlen. revert cells dom Hlen.
  induction (lt_wf len) as [len _ IH]. intros cells dom -> Hc Hok Hroom.
  destruct cells as [|ph [|perm cells]]; cbn [regions_loop].
  1-2: exists (d_regions dom); (split; [by destruct dom|done]).
  apply Forall_cons in Hc as [_ Hc]. apply Forall_cons in Hc as [Hperm Hc].
  destruct (t_memregion t ph) as [r|] eqn:Er; cbn [mbind option_bind].
  2: { exists 0%nat, ph. by rewrite Er. }
  destruct (region_bad (mn_base r) (mn_order r)) eqn:Ebad; [exists 0%nat, ph; by rewrite Er|].
  destruct (mn_base r) as [b|] eqn:Eb; [|done]. change (default 0 (Some b)) with b.
  assert (Z.of_nat (length (ph :: perm :: cells)) / 2 = 1 + Z.of_nat (length cells) / 2) as Hdiv.
  { cbn [length]. replace (Z.of_nat (S (S (length cells)))) with (1 * 2 + Z.of_nat (length cells)) by lia.
    rewrite Z.div_add_l by lia. done. }
  assert (0 <= Z.of_nat (length cells) / 2) by (apply Z.div_pos; lia).
  destruct (add_region_ok dom (wrap b) (mn_order r) perm (mn_mmio r)) as (regions & -> & Hok' & Hl);
    [done|apply region_good; [by eapply to_base|done..]|lia|].
  change (truth 0) with false. cbv iota. 
  specialize (IH (length cells) ltac:(cbn; lia) cells (dom <| d_regions := regions |>) eq_refl Hc Hok').
  cbn [field_update d_regions d_max_regions] in IH. specialize (IH ltac:(cbn; lia)).
  destruct (regions_loop t _ cells) as [dom'|].
  - destruct IH as (regions' & -> & Hok2). exists regions'. done.
  - destruct IH as (i & ph' & Hi & Hph). exists (S i), ph'. split; [|done].
    by replace (2 * S i)%nat with (S (S (2 * i))) by lia.
Qed.

(** * The table of domains *)

Record dom_ok (i : nat) (dom : domain) : Prop := {
  do_index : d_index dom = Z.of_nat i;
  do_possible : hartmask_wf (d_possible dom);
  do_assigned : hartmask_wf (d_assigned dom);
  do_parked : d_parked dom = hartmask_none;
  do_stopping : d_stopping dom = 0;
  do_regions : regions_ok dom;
}.

(** The domains and where the harts are, at any time of the boot. *)
Record boot_inv (domains : list domain) (at_ : Z -> Z) : Prop := {
  bi_root : domains <> [];
  bi_dom i dom : domains !! i = Some dom -> dom_ok i dom;
  bi_at h : 0 <= at_ h < domain_count domains;
  bi_assigned i dom h : domains !! i = Some dom -> 0 <= h < table ->
    hartmask_test (d_assigned dom) h = bool_decide (at_ h = Z.of_nat i);
  bi_possible i dom h : domains !! i = Some dom -> 0 <= h < table -> i <> 0%nat -> at_ h = Z.of_nat i ->
    hartmask_test (d_possible dom) h = true;
}.

Context (HC : 0 < CONFIG_PLATFORM_HART_COUNT) (HTC : table <= CONFIG_PLATFORM_HART_COUNT).

Lemma table_nonneg : 0 <= table.
Proof. unfold hart_table_size. lia. Qed.

Lemma root_all (self next_addr next_mode : Z) :
  let root := root_domain_init table self next_addr next_mode in
  d_index root = 0 /\ d_parked root = hartmask_none /\ d_stopping root = 0 /\ hartmask_wf (d_possible root).
Proof.
  cbv zeta. unfold root_domain_init.
  apply (for_upto_ind (fun _ d => d_index d = 0 /\ d_parked d = hartmask_none /\ d_stopping d = 0 /\ hartmask_wf (d_possible d))).
  - split_and!; [done..|]. apply hartmask_none_wf. lia.
  - intros i d Hi (H1 & H2 & H3 & H4). pose proof table_nonneg. split_and!; [done..|]. apply (bit_set_wf CONFIG_PLATFORM_HART_COUNT); [done|lia].
Qed.

Lemma root_inv (self next_addr next_mode : Z) :
  boot_inv [root_domain_init table self next_addr next_mode] (fun _ => 0).
Proof.
  destruct (root_all self next_addr next_mode) as (H1 & H2 & H3 & H4). pose proof table_nonneg.
  assert (0 <= table <= CONFIG_PLATFORM_HART_COUNT) as Hn by lia.
  destruct (root_domain_init_masks table self next_addr next_mode HC Hn) as [Hwf Ht].
  split.
  - done.
  - intros [|i] dom; [|done]. intros [= <-]. split; [done..|]. 
    split; rewrite root_domain_init_regions; [by repeat constructor|]. apply Forall_singleton.
    pose proof XLEN_bounds. split_and!; cbn; [lia|lia|done|lia].
  - intros h. unfold domain_count. cbn. lia.
  - intros [|i] dom h; [|done]. intros [= <-] Hh. rewrite Ht by lia. rewrite (proj2 (Z.ltb_lt h _)) by lia. done.
  - intros [|i] dom h; [done|]. done.
Qed.

(** ** Reading the nodes *)

Lemma cpu_hart_index_bound (t : domain_tree) (ph : Z) : cpu_hart_index t ph < table.
Proof.
  unfold cpu_hart_index. pose proof table_nonneg. destruct (t_cpu t ph); [apply hart_index_bound|lia].
Qed.

Lemma possible_harts_wf (t : domain_tree) (phs : list Z) (m : hartmask) :
  hartmask_wf m -> hartmask_wf (possible_harts t phs m).
Proof.
  unfold possible_harts. revert m. induction phs as [|ph phs IH]; intros m Hm; [done|]. cbn. apply IH.
  pose proof (cpu_hart_index_bound t ph). destruct (Z.leb_spec 0 (cpu_hart_index t ph)); [|done]. apply (bit_set_wf CONFIG_PLATFORM_HART_COUNT); [done|lia].
Qed.

Lemma instance_parse_ok (t : domain_tree) (boot : Z) (n : config_node) (dom : domain) :
  tree_ok t -> Forall (fun c => 0 <= c) (cn_regions n) -> instance_parse t boot n = Some dom ->
  hartmask_wf (d_possible dom) /\ d_assigned dom = hartmask_none /\ d_parked dom = hartmask_none /\
  d_stopping dom = 0 /\ regions_ok dom /\ d_phandle dom = cn_phandle n /\ d_entry_from dom = None.
Proof.
  intros Ht Hc. unfold instance_parse. cbv zeta.
  set (dom0 := instance_new t boot n). set (dom1 := instance_inherit n dom0).
  assert (hartmask_wf (d_possible dom0)) as Hp.
  { unfold dom0. cbn. apply possible_harts_wf, hartmask_none_wf. lia. }
  assert (regions_ok dom0) as Hok0 by (split; constructor).
  assert (exists regions, dom1 = dom0 <| d_regions := regions |> /\ regions_ok dom1 /\ (length regions <= 1)%nat)
    as (regions & E1 & Hok1 & Hl).
  { unfold dom1, instance_inherit. destruct (cn_inherit_all n); [|exists []; split_and!; [reflexivity|done|cbn; lia]].
    destruct (add_region_ok dom0 0 XLEN DOMAIN_PERM_SU_RWX false) as (rs & -> & Hrs & Hlen); [done| | |].
    - pose proof XLEN_bounds. split_and!; cbn; [lia|lia|done|lia].
    - cbn. assert (0 <= Z.of_nat (length (cn_regions n)) / 2) by (apply Z.div_pos; lia). lia.
    - exists rs. split_and!; [done|done|]. rewrite Hlen. cbn. lia. }
  pose proof (regions_loop_ok t (cn_regions n) dom1 Ht Hc Hok1) as Hloop.
  destruct (regions_loop t dom1 (cn_regions n)) as [dom2|]; cbn [mbind option_bind]; [|done].
  destruct Hloop as (rs & -> & Hok2); [rewrite E1; cbn; lia|]. intros [= <-]. rewrite E1 in *.
  split_and!; [exact Hp|done..|destruct Hok2 as [H1 H2]; by split|done|done].
Qed.

Lemma parse_node_inv (t : domain_tree) (boot : Z) (domains : list domain) (n : config_node) :
  tree_ok t -> Forall (fun c => 0 <= c) (cn_regions n) ->
  boot_inv domains (fun _ => 0) -> boot_inv (parse_node t boot domains n) (fun _ => 0).
Proof.
  intros Ht Hc Hinv. unfold parse_node. destruct (cn_instance n); [|done].
  destruct (instance_parse t boot n) as [dom|] eqn:E; [|done].
  destruct (instance_parse_ok t boot n dom Ht Hc E) as (Hp & Ha & Hk & Hs & Hr & _ & _).
  destruct Hinv as [Hroot Hdom Hat Hasg Hpos].
  assert (forall i d, (domains ++ [dom <| d_index := domain_count domains |>]) !! i = Some d ->
    domains !! i = Some d \/ (i = length domains /\ d = dom <| d_index := domain_count domains |>)) as Hcases.
  { intros i d Hi. apply lookup_app_Some in Hi as [Hi|[Hge Hi]]; [auto|]. right.
    destruct (i - length domains)%nat as [|k] eqn:Ek; [|done]. injection Hi as <-. split; [lia|done]. }
  assert (domains !! 0%nat <> None) as H0 by (destruct domains; done).
  split.
  - intros Hnil. apply app_eq_nil in Hnil as [_ Hnil]. done.
  - intros i d Hi. destruct (Hcases i d Hi) as [Hi'|[-> ->]]; [by apply Hdom|]. destruct Hr as [Hr1 Hr2].
    split; [done|done| |done|done|by split]. cbn. rewrite Ha. apply hartmask_none_wf. lia.
  - intros h. specialize (Hat h). unfold domain_count in *. rewrite length_app. cbn. lia.
  - intros i d h Hi Hh. destruct (Hcases i d Hi) as [Hi'|[-> ->]]; [by eapply Hasg|]. cbn. rewrite Ha, hartmask_test_none.
    symmetry. apply bool_decide_eq_false_2. destruct domains; [done|cbn; lia].
  - intros i d h Hi Hh Hne Hz. lia.
Qed.

(** ** Entry *)

Lemma by_phandle_elem (domains : list domain) (ph : Z) (dom : domain) :
  domain_by_phandle domains ph = Some dom -> exists i, i <> 0%nat /\ domains !! i = Some dom /\ d_phandle dom = ph /\ ph <> 0.
Proof.
  unfold domain_by_phandle. destruct (Z.eqb_spec ph 0); [done|]. intros Hf. apply find_some in Hf as [Hin Hph].
  apply list_elem_of_In, list_elem_of_lookup in Hin as [i Hi]. rewrite lookup_drop in Hi. bool_prop.
  exists (1 + i)%nat. split_and!; [lia|done..].
Qed.

(** What is not part of the placement may change. *)
Definition keeps_place (f : domain -> domain) : Prop := forall d,
  d_index (f d) = d_index d /\ d_possible (f d) = d_possible d /\ d_assigned (f d) = d_assigned d /\
  d_parked (f d) = d_parked d /\ d_stopping (f d) = d_stopping d /\ d_regions (f d) = d_regions d.

Lemma alter_inv (f : domain -> domain) (k : nat) (domains : list domain) (at_ : Z -> Z) :
  keeps_place f -> boot_inv domains at_ -> boot_inv (alter f k domains) at_.
Proof.
  intros Hf [Hroot Hdom Hat Hasg Hpos]. split.
  - intros Hnil%(f_equal length). rewrite length_alter in Hnil. destruct domains; done.
  - intros i d Hi. destruct (lookup_alter_cases _ _ _ _ _ Hi) as [(_ & y & Hy & ->)|[_ Hy]]; [|by apply Hdom].
    destruct (Hdom i y Hy) as [? ? ? ? ? [? ?]]. destruct (Hf y) as (? & ? & ? & ? & ? & Hr).
    split; try congruence. split; by rewrite Hr.
  - intros h. unfold domain_count. rewrite length_alter. apply Hat.
  - intros i d h Hi Hh. destruct (lookup_alter_cases _ _ _ _ _ Hi) as [(_ & y & Hy & ->)|[_ Hy]]; [|by apply (Hasg i d h)].
    destruct (Hf y) as (_ & _ & -> & _). by apply (Hasg i y h).
  - intros i d h Hi Hh. destruct (lookup_alter_cases _ _ _ _ _ Hi) as [(_ & y & Hy & ->)|[_ Hy]]; [|by apply (Hpos i d h)].
    destruct (Hf y) as (_ & -> & _). by apply (Hpos i y h).
Qed.

Lemma entry_node_inv (domains : list domain) (at_ : Z -> Z) (n : config_node) :
  boot_inv domains at_ -> boot_inv (entry_node domains n) at_.
Proof.
  intros Hinv. unfold entry_node. destruct (domain_by_phandle domains (cn_phandle n)) as [dom|]; [|done].
  destruct (truth (d_index dom)); [|done]. by apply alter_inv.
Qed.

(** ** Assignment *)

Lemma last_by_phandle_elem (domains : list domain) (ph : Z) (dom : domain) :
  last_by_phandle domains ph = Some dom -> exists i, i <> 0%nat /\ domains !! i = Some dom /\ d_phandle dom = ph.
Proof.
  unfold last_by_phandle. intros Hf. apply find_some in Hf as [Hin Hph]. rewrite <- in_rev in Hin.
  apply list_elem_of_In, list_elem_of_lookup in Hin as [i Hi]. rewrite lookup_drop in Hi. bool_prop.
  exists (1 + i)%nat. split_and!; [lia|done..].
Qed.

(** A hart of the root domain is moved to another one: nobody else has it. *)
Lemma move_hart_inv (domains : list domain) (at_ : Z -> Z) (idx : Z) (k : nat) (dom : domain) :
  boot_inv domains at_ -> 0 <= idx < table -> at_ idx = 0 -> k <> 0%nat -> domains !! k = Some dom ->
  hartmask_test (d_possible dom) idx = true ->
  boot_inv
    (alter (fun d => d <| d_assigned := hartmask_set (d_assigned d) idx |>) k
       (alter (fun r => r <| d_assigned := hartmask_clear (d_assigned r) idx |>) 0%nat domains))
    (fun h => if h =? idx then Z.of_nat k else at_ h).
Proof.
  intros [Hroot Hdom Hat Hasg Hpos] Hidx H0 Hk Hdk Hpk.
  set (doms := alter _ k _).
  assert (forall i d, doms !! i = Some d -> exists y, domains !! i = Some y /\
    d = y <| d_assigned := if decide (i = k) then hartmask_set (d_assigned y) idx
             else if decide (i = 0%nat) then hartmask_clear (d_assigned y) idx else d_assigned y |>) as Hcases.
  { intros i d Hi. unfold doms in Hi. destruct (lookup_alter_cases _ _ _ _ _ Hi) as [(<- & y & Hy & ->)|[Hne Hy]].
    - rewrite list_lookup_alter_ne in Hy by done. exists y. rewrite decide_True by done. done.
    - destruct (lookup_alter_cases _ _ _ _ _ Hy) as [(<- & y & Hy' & ->)|[Hne' Hy']].
      + exists y. rewrite decide_False by done. done.
      + exists d. rewrite !decide_False by done. split; [done|by destruct d]. }
  split.
  - intros Hnil%(f_equal length). unfold doms in Hnil. rewrite !length_alter in Hnil. destruct domains; done.
  - intros i d Hi. destruct (Hcases i d Hi) as (y & Hy & ->). destruct (Hdom i y Hy) as [? ? ? ? ? [? ?]]. split; try done.
    cbn. case_decide; [|case_decide; [|done]]; [apply (bit_set_wf CONFIG_PLATFORM_HART_COUNT)|apply (bit_clear_wf CONFIG_PLATFORM_HART_COUNT)]; done || lia.
  - intros h. unfold domain_count, doms. rewrite !length_alter. case_cmp; [|apply Hat]. apply lookup_lt_Some in Hdk. lia.
  - intros i d h Hi Hh. destruct (Hcases i d Hi) as (y & Hy & ->). cbn. pose proof (Hasg i y h Hy Hh) as Ha.
    destruct (Hdom i y Hy) as [_ _ Hwf _ _ _]. unfold hartmask_test, hartmask_set, hartmask_clear in *.
    case_decide as Eik; [|case_decide as Ei0].
    + rewrite (bit_test_set CONFIG_PLATFORM_HART_COUNT), Ha by (done || lia). subst i. rewrite (Z.eqb_sym idx h).
      destruct (Z.eqb_spec h idx) as [->|]; cbn [orb]; [|done]. by rewrite bool_decide_eq_true_2.
    + rewrite (bit_test_clear CONFIG_PLATFORM_HART_COUNT), Ha by (done || lia). subst i. rewrite (Z.eqb_sym idx h).
      destruct (Z.eqb_spec h idx) as [->|]; cbn [negb andb]; [|done]. symmetry. apply bool_decide_eq_false_2. lia.
    + rewrite Ha. destruct (Z.eqb_spec h idx) as [->|]; [|done]. rewrite !bool_decide_eq_false_2; [done|lia|lia].
  - intros i d h Hi Hh Hne. destruct (Hcases i d Hi) as (y & Hy & ->). cbn. destruct (Z.eqb_spec h idx) as [->|].
    + intros E. assert (i = k) as -> by lia. rewrite Hdk in Hy. by injection Hy as <-.
    + by apply (Hpos i y h).
Qed.

(** The harts of cpu nodes. *)
Definition cpu_ids (cpus : list cpu_dt) : list Z := omap (fun c => wrap <$> cpu_hartid c) cpus.

Lemma hart_index_inj (id id' : Z) :
  0 <= hart_index ht_ids id -> hart_index ht_ids id = hart_index ht_ids id' -> id = id'.
Proof.
  intros Hi E. pose proof (boot_hart_index_found ht_ids id Hi) as H1.
  assert (0 <= hart_index ht_ids id') as Hi' by lia. pose proof (boot_hart_index_found ht_ids id' Hi') as H2.
  unfold hart_index in E. rewrite E in H1. congruence.
Qed.

Lemma assign_hart_inv (domains : list domain) (at_ : Z -> Z) (c : cpu_dt) (ids : list Z) :
  boot_inv domains at_ ->
  (forall id, id ∈ cpu_ids [c] ++ ids -> 0 <= hart_index ht_ids id -> at_ (hart_index ht_ids id) = 0) ->
  NoDup (cpu_ids [c] ++ ids) ->
  let '(domains', at_') := assign_hart (domains, at_) c in
  boot_inv domains' at_' /\ (forall id, id ∈ ids -> 0 <= hart_index ht_ids id -> at_' (hart_index ht_ids id) = 0).
Proof.
  intros Hinv Hat Hnd. unfold assign_hart. destruct (cpu_hartid c) as [hartid|] eqn:Ec.
  2: { split; [done|]. intros id Hid. apply Hat, elem_of_app. auto. }
  assert (cpu_ids [c] = [wrap hartid]) as Eids by (unfold cpu_ids; cbn; by rewrite Ec). rewrite Eids in *.
  assert (boot_inv domains at_ /\ forall id, id ∈ ids -> 0 <= hart_index ht_ids id -> at_ (hart_index ht_ids id) = 0) as Hsame.
  { split; [done|]. intros id Hid. apply Hat, elem_of_app. auto. }
  destruct ((cpu_domain c =? 0) || (hart_index ht_ids (wrap hartid) <? 0)) eqn:Eskip; [done|].
  apply orb_false_iff in Eskip as [_ Hge]. bool_prop.
  destruct (last_by_phandle domains (cpu_domain c)) as [dom|] eqn:El; [|done].
  destruct (negb (hartmask_test (d_possible dom) (hart_index ht_ids (wrap hartid)))) eqn:Ep; [done|]. bool_prop.
  destruct (last_by_phandle_elem _ _ _ El) as (k & Hk & Hdk & _). rewrite (do_index _ _ (bi_dom _ _ Hinv k dom Hdk)).
  rewrite Nat2Z.id. split.
  - apply (move_hart_inv domains at_ _ k dom); try done.
    + split; [done|apply hart_index_bound].
    + apply Hat; [|done]. apply elem_of_app. left. by apply list_elem_of_singleton.
  - intros id Hid Hi. destruct (Z.eqb_spec (hart_index ht_ids id) (hart_index ht_ids (wrap hartid))) as [E|_].
    + apply hart_index_inj in E as ->; [|done]. apply NoDup_cons in Hnd as [Hno _]. done.
    + by apply Hsame.
Qed.

Lemma assign_harts_inv (cpus : list cpu_dt) (domains : list domain) (at_ : Z -> Z) :
  boot_inv domains at_ -> NoDup (cpu_ids cpus) ->
  (forall id, id ∈ cpu_ids cpus -> 0 <= hart_index ht_ids id -> at_ (hart_index ht_ids id) = 0) ->
  let '(domains', at_') := foldl assign_hart (domains, at_) cpus in boot_inv domains' at_'.
Proof.
  revert domains at_. induction cpus as [|c cpus IH]; intros domains at_ Hinv Hnd Hat; [done|].
  assert (cpu_ids (c :: cpus) = cpu_ids [c] ++ cpu_ids cpus) as E by (unfold cpu_ids; cbn; by destruct (cpu_hartid c)).
  rewrite E in *. pose proof (assign_hart_inv domains at_ c (cpu_ids cpus) Hinv Hat Hnd) as H. cbn [foldl].
  destruct (assign_hart (domains, at_) c) as [domains' at_']. destruct H as [Hinv' Hat'].
  apply IH; [done| |done]. by apply NoDup_app in Hnd as (_ & _ & ?).
Qed.

Lemma next_stage_inv (self next_addr next_mode : Z) (domains : list domain) (at_ : Z -> Z) :
  boot_inv domains at_ ->
  let '(domains', at_') := next_stage self next_addr next_mode (domains, at_) in boot_inv domains' at_'.
Proof.
  intros Hinv. cbn. apply alter_inv; [|done]. intros d. by destruct (d_next_addr d =? 0).
Qed.

Lemma parse_all_inv (t : domain_tree) (boot : Z) (nodes : list config_node) (self next_addr next_mode : Z) :
  tree_ok t -> (forall n, n ∈ nodes -> Forall (fun c => 0 <= c) (cn_regions n)) ->
  boot_inv (foldl (parse_node t boot) [root_domain_init table self next_addr next_mode] nodes) (fun _ => 0).
Proof.
  intros Hok. pose proof (root_inv self next_addr next_mode) as Hr. revert Hr. generalize [root_domain_init table self next_addr next_mode] as ds.
  induction nodes as [|n nodes IH]; intros ds Hds Hc; [done|]. cbn [foldl]. apply IH.
  - apply parse_node_inv; [done| |done]. apply Hc, list_elem_of_here.
  - intros n' Hn'. by apply Hc, list_elem_of_further.
Qed.

Lemma domains_init_inv (t : option domain_tree) (self next_addr next_mode : Z) :
  (forall t', t = Some t' -> tree_ok t' /\ NoDup (cpu_ids (t_cpus t'))) ->
  let '(domains, at_) := domains_init t self next_addr next_mode in boot_inv domains at_.
Proof.
  intros Ht. unfold domains_init. destruct t as [t|]; cbn [mbind option_bind]; [|apply root_inv].
  destruct (Ht t eq_refl) as [Hok Hnd]. destruct (t_config t) as [nodes|] eqn:Ec; [|apply root_inv].
  set (root := root_domain_init table self next_addr next_mode).
  assert (boot_inv (foldl (parse_node t (d_boot_hart root)) [root] nodes) (fun _ => 0)) as H1.
  { apply parse_all_inv; [done|]. intros n. by apply (to_cells t). }
  set (ds1 := foldl (parse_node _ _) _ _) in *.
  assert (boot_inv (foldl entry_node ds1 nodes) (fun _ => 0)) as H2.
  { clear Ec. clearbody ds1. revert ds1 H1. induction nodes as [|n nodes IH]; intros ds Hds; [done|].
    cbn [foldl]. apply IH. by apply entry_node_inv. }
  pose proof (assign_harts_inv (t_cpus t) _ _ H2 Hnd (fun _ _ _ => eq_refl)) as H3.
  unfold assign_harts. destruct (foldl assign_hart _ _) as [ds3 at3]. by apply next_stage_inv.
Qed.

(** The state the moves between domains start from. *)
Definition boot_dstate (s : list domain * (Z -> Z)) (hsm : Z -> Z) (hw : hart_hw) : dstate :=
  DState s.1 (fun _ _ => context_zero) s.2 hsm hw.

Lemma boot_inv_boot (domains : list domain) (at_ : Z -> Z) (hsm : Z -> Z) (hw : hart_hw) :
  boot_inv domains at_ -> dc_boot (boot_dstate (domains, at_) hsm hw).
Proof.
  intros [Hroot Hdom Hat Hasg Hpos].
  assert (forall d, 0 <= d < domain_count domains ->
    exists dom, domains !! Z.to_nat d = Some dom /\ dom_at (boot_dstate (domains, at_) hsm hw) d = dom) as Hd.
  { intros d Hd. unfold domain_count in Hd. destruct (lookup_lt_is_Some_2 domains (Z.to_nat d)) as [dom Hl]; [lia|].
    exists dom. split; [done|]. unfold dom_at. cbn. by rewrite Hl. }
  split.
  - intros h _. apply Hat.
  - intros d Hdr. destruct (Hd d Hdr) as (dom & Hl & ->). destruct (Hdom _ _ Hl). done.
  - intros d h Hdr Hh. destruct (Hd d Hdr) as (dom & Hl & ->). rewrite (Hasg _ _ _ Hl Hh). cbn.
    by rewrite Z2Nat.id by lia.
  - done.
Qed.


(** * Entry *)

(** What a lookup by phandle goes by. *)
Definition dom_key (d : domain) : Z * Z := (d_phandle d, d_index d).

Lemma by_phandle_key (ds ds' : list domain) (ph : Z) :
  dom_key <$> ds = dom_key <$> ds' -> d_index <$> domain_by_phandle ds ph = d_index <$> domain_by_phandle ds' ph.
Proof.
  unfold domain_by_phandle. destruct (ph =? 0); [done|]. intros E. apply (f_equal (drop 1)) in E.
  rewrite <- !fmap_drop in E. revert E. generalize (drop 1 ds') as l', (drop 1 ds) as l. clear.
  intros l' l. revert l'. induction l as [|d l IH]; intros [|d' l']; try done. cbn [fmap list_fmap]. intros [= E1 E2 E].
  cbn. rewrite E1. destruct (d_phandle d' =? ph); [cbn; by rewrite E2|by apply IH].
Qed.

Lemma entry_bits_key (ds ds' : list domain) (phs : list Z) :
  dom_key <$> ds = dom_key <$> ds' -> entry_bits ds phs = entry_bits ds' phs.
Proof.
  intros E. unfold entry_bits. assert (domain_count ds = domain_count ds') as ->.
  { unfold domain_count. f_equal. apply (f_equal length) in E. by rewrite !length_fmap in E. }
  generalize (replicate (Z.to_nat (bitstr_size (domain_count ds'))) 0) as bits. induction phs as [|ph phs IH]; intros bits; [done|].
  cbn [foldl]. pose proof (by_phandle_key ds ds' ph E) as Hk.
  destruct (domain_by_phandle ds ph), (domain_by_phandle ds' ph); cbn in Hk; try done.
  injection Hk as ->. apply IH.
Qed.

Lemma entry_bits_spec (ds : list domain) (phs : list Z) (j : Z) :
  (forall i d, ds !! i = Some d -> d_index d = Z.of_nat i) -> 0 <= j ->
  bit_test (entry_bits ds phs) j = true <-> exists ph from, ph ∈ phs /\ domain_by_phandle ds ph = Some from /\ d_index from = j.
Proof.
  intros Hidx Hj. unfold entry_bits. set (zeros := replicate _ 0).
  assert (bitstr_wf (domain_count ds) zeros) as Hz.
  { unfold zeros. split; [rewrite length_replicate; pose proof (bitstr_size_nonneg (domain_count ds)); unfold domain_count in *; lia|].
    apply Forall_replicate. split; [lia|apply pow_XLEN_pos]. }
  assert (bit_test zeros j = false) as H0.
  { unfold bit_test, bitstr_get, zeros. destruct (replicate _ 0 !! _) as [v|] eqn:E; cbn; [|done].
    apply lookup_replicate in E as [-> _]. done. }
  assert (forall bits, bitstr_wf (domain_count ds) bits ->
    bit_test (foldl (fun bits ph => match domain_by_phandle ds ph with Some from => bit_set bits (d_index from) | None => bits end) bits phs) j = true <->
    bit_test bits j = true \/ exists ph from, ph ∈ phs /\ domain_by_phandle ds ph = Some from /\ d_index from = j) as Hgen.
  2: { rewrite (Hgen zeros Hz), H0. split; [by intros [?|?]|auto]. }
  induction phs as [|ph phs IH]; intros bits Hb; cbn [foldl].
  - split; [auto|]. intros [?|(ph & from & Hin & _)]; [done|]. by apply not_elem_of_nil in Hin.
  - destruct (domain_by_phandle ds ph) as [from|] eqn:E.
    + destruct (by_phandle_elem _ _ _ E) as (i & _ & Hi & _). pose proof (Hidx i from Hi) as Hfi.
      apply lookup_lt_Some in Hi. assert (0 <= d_index from < domain_count ds) as Hr by (unfold domain_count; lia).
      rewrite IH by (by apply bit_set_wf). rewrite (bit_test_set _ _ Hb) by done. split.
      * intros [Ht|(ph' & from' & Hin & He & Hf)]; [|right; exists ph', from'; split_and!; [by apply list_elem_of_further|done..]].
        apply orb_true_iff in Ht as [Ht|Ht]; [|auto]. bool_prop. right. exists ph, from. split_and!; [apply list_elem_of_here|done..].
      * rewrite orb_true_iff, Z.eqb_eq. intros [Ht|(ph' & from' & Hin & He & Hf)]; [auto|].
        apply elem_of_cons in Hin as [->|Hin]; [left; left; congruence|]. right. eauto.
    + rewrite IH by done. split; (intros [Ht|(ph' & from' & Hin & He & Hf)]; [auto|right; exists ph', from'; split_and!; try done]).
      * by apply list_elem_of_further.
      * apply elem_of_cons in Hin as [->|Hin]; [congruence|done].
Qed.

Lemma fmap_alter_same {A B} (g : A -> B) (f : A -> A) (k : nat) (l : list A) :
  (forall x, g (f x) = g x) -> g <$> alter f k l = g <$> l.
Proof.
  intros Hg. apply list_eq. intros i. rewrite !list_lookup_fmap. destruct (decide (k = i)) as [->|Hne].
  - rewrite list_lookup_alter_eq. destruct (l !! i); cbn; [by rewrite Hg|done].
  - by rewrite list_lookup_alter_ne.
Qed.

Definition nonzero (p : Z) : Prop := p <> 0.
#[local] Instance nonzero_dec (p : Z) : Decision (nonzero p).
Proof. unfold nonzero. apply _. Defined.

(** No two nodes share a phandle. *)
Definition phandles_ok (nodes : list config_node) : Prop := NoDup (filter nonzero (cn_phandle <$> nodes)).

Definition phandles_unique (ds : list domain) : Prop := NoDup (filter nonzero (d_phandle <$> drop 1 ds)).

Lemma nodup_filter_inj (l : list Z) (i j : nat) (p : Z) :
  NoDup (filter nonzero l) -> p <> 0 -> l !! i = Some p -> l !! j = Some p -> i = j.
Proof.
  intros Hnd Hp. revert i j. induction l as [|x l IH]; intros i j; [done|]. rewrite filter_cons in Hnd.
  assert (forall k, l !! k = Some p -> p ∈ filter nonzero l) as Hin.
  { intros k Hk. apply list_elem_of_filter. split; [done|]. by eapply list_elem_of_lookup_2. }
  destruct i as [|i], j as [|j]; cbn; [done|..].
  - intros [= ->] Hj. rewrite decide_True in Hnd by done. apply NoDup_cons in Hnd as [Hno _]. destruct Hno. eauto.
  - intros Hi [= ->]. rewrite decide_True in Hnd by done. apply NoDup_cons in Hnd as [Hno _]. destruct Hno. eauto.
  - intros Hi Hj. f_equal. apply IH; [|done..]. case_decide; [by apply NoDup_cons in Hnd as [_ ?]|done].
Qed.

Lemma unique_index (ds : list domain) (i j : nat) (d d' : domain) :
  phandles_unique ds -> i <> 0%nat -> j <> 0%nat -> ds !! i = Some d -> ds !! j = Some d' ->
  d_phandle d = d_phandle d' -> d_phandle d <> 0 -> i = j.
Proof.
  intros Hu Hi Hj Hd Hd' E Hne. destruct i as [|i], j as [|j]; try done. f_equal.
  apply (nodup_filter_inj _ i j (d_phandle d) Hu Hne); rewrite list_lookup_fmap, lookup_drop.
  - change (1 + i)%nat with (S i). by rewrite Hd.
  - change (1 + j)%nat with (S j). rewrite Hd'. cbn. by rewrite E.
Qed.

(** The domain of a phandle is found. *)
Lemma by_phandle_found (ds : list domain) (i : nat) (d : domain) :
  phandles_unique ds -> i <> 0%nat -> ds !! i = Some d -> d_phandle d <> 0 -> domain_by_phandle ds (d_phandle d) = Some d.
Proof.
  intros Hu Hi Hd Hne. destruct (domain_by_phandle ds (d_phandle d)) as [d'|] eqn:E.
  - destruct (by_phandle_elem _ _ _ E) as (j & Hj & Hd' & Hph & _).
    rewrite (unique_index ds j i d' d) in Hd'; try done; congruence.
  - exfalso. unfold domain_by_phandle in E. apply Z.eqb_neq in Hne. rewrite Hne in E.
    pose proof (find_none _ _ E d) as Hx. cbn in Hx. rewrite Z.eqb_refl in Hx. discriminate Hx.
    apply list_elem_of_In, (list_elem_of_lookup_2 _ (i - 1)). rewrite lookup_drop. by replace (1 + (i - 1))%nat with i by lia.
Qed.

Lemma find_snoc {A} (p : A -> bool) (l : list A) (x : A) :
  List.find p (l ++ [x]) = match List.find p l with Some y => Some y | None => if p x then Some x else None end.
Proof. induction l as [|y l IH]; cbn; [by destruct (p x)|]. by destruct (p y). Qed.

(** The list of the node of a phandle, as bits. *)
Definition listed (nodes : list config_node) (ds : list domain) (i : nat) (d : domain) : option bitstr :=
  if bool_decide (i <> 0%nat /\ d_phandle d <> 0) then
    (fun n => entry_bits ds (cn_entry_from n)) <$> List.find (fun n => cn_phandle n =? d_phandle d) nodes
  else None.

Lemma entry_loop (nodes : list config_node) (ds : list domain) :
  (forall i d, ds !! i = Some d -> d_index d = Z.of_nat i) -> phandles_unique ds -> phandles_ok nodes ->
  (forall i d, ds !! i = Some d -> d_entry_from d = None) ->
  dom_key <$> foldl entry_node ds nodes = dom_key <$> ds /\
  forall i d', foldl entry_node ds nodes !! i = Some d' ->
    exists d, ds !! i = Some d /\ d_entry_from d' = listed nodes ds i d.
Proof.
  intros Hidx Hu. induction nodes as [|n nodes IH] using rev_ind; intros Hok Hnone; cbn.
  - split; [done|]. intros i d Hi. exists d. split; [done|]. rewrite (Hnone i d Hi). unfold listed. by case_bool_decide.
  - assert (phandles_ok nodes) as Hok'.
    { unfold phandles_ok in *. rewrite fmap_app, filter_app in Hok. by apply NoDup_app in Hok as (? & _ & _). }
    destruct (IH Hok' Hnone) as [Hkey Hent]. rewrite foldl_app. cbn [foldl]. set (ds' := foldl entry_node ds nodes) in *.
    pose proof (by_phandle_key ds' ds (cn_phandle n) Hkey) as Hbk.
    assert (forall i d', ds' !! i = Some d' -> exists d, ds !! i = Some d /\ d_phandle d' = d_phandle d /\ d_index d' = Z.of_nat i) as Hsame.
    { intros i d' Hi. destruct (Hent i d' Hi) as (d & Hd & _). exists d. split; [done|].
      apply (f_equal (.!! i)) in Hkey. rewrite !list_lookup_fmap, Hi, Hd in Hkey. injection Hkey as -> ->. auto. }
    assert (forall i d, ds !! i = Some d -> (i <> 0%nat -> d_phandle d <> 0 -> cn_phandle n <> d_phandle d) ->
      listed (nodes ++ [n]) ds i d = listed nodes ds i d) as Hother.
    { intros i d Hd Hne. unfold listed. case_bool_decide as Hc; [|done]. rewrite find_snoc. destruct (List.find _ nodes); [done|].
      destruct (Z.eqb_spec (cn_phandle n) (d_phandle d)) as [E|]; [|done]. destruct Hc. by destruct (Hne H H0). }
    unfold entry_node. destruct (domain_by_phandle ds' (cn_phandle n)) as [dom|] eqn:E; cbn in Hbk.
    + destruct (by_phandle_elem _ _ _ E) as (k & Hk & Hdk & Hph & Hne).
      destruct (Hsame k dom Hdk) as (d1 & Hd1 & Hp1 & Hi1). rewrite Hi1, Nat2Z.id.
      assert (truth (Z.of_nat k) = true) as -> by (apply truth_true; lia).
      split; [rewrite fmap_alter_same; done|]. intros i d' Hi.
      destruct (lookup_alter_cases _ _ _ _ _ Hi) as [(<- & y & Hy & ->)|[Hik Hy]].
      * exists d1. split; [done|]. cbn. rewrite (entry_bits_key ds' ds) by done. unfold listed.
        rewrite bool_decide_eq_true_2 by (split; congruence). rewrite find_snoc.
        destruct (List.find _ nodes) as [n0|] eqn:Ef; [|rewrite (proj2 (Z.eqb_eq _ _)) by congruence; done].
        exfalso. apply find_some in Ef as [Hin Hn0]. bool_prop. apply list_elem_of_In, list_elem_of_lookup in Hin as [x Hx].
        assert (x = length nodes) as ->; [|by rewrite lookup_ge_None_2 in Hx by lia].
        apply (nodup_filter_inj (cn_phandle <$> nodes ++ [n]) _ _ (cn_phandle n) Hok); [congruence|..]; rewrite list_lookup_fmap.
        -- rewrite (lookup_app_l_Some _ _ _ _ Hx). cbn. congruence.
        -- by rewrite list_lookup_middle.
      * destruct (Hent i d' Hy) as (d & Hd & ->). exists d. split; [done|]. symmetry. apply Hother; [done|].
        intros Hi0 Hpd Heq. apply Hik. apply (unique_index ds k i d1 d); try done; congruence.
    + split; [done|]. intros i d' Hi. destruct (Hent i d' Hi) as (d & Hd & ->). exists d. split; [done|].
      symmetry. apply Hother; [done|]. intros Hi0 Hpd Heq. rewrite Heq, (by_phandle_found ds i d) in Hbk by done. done.
Qed.

Lemma nodup_sublist_filter (l l' : list Z) : l `sublist_of` l' -> NoDup (filter nonzero l') -> NoDup (filter nonzero l).
Proof.
  induction 1 as [|x l l' Hs IH|x l l' Hs IH]; [done|..]; rewrite ?filter_cons.
  - case_decide; [|done]. rewrite !NoDup_cons. intros [Hno Hnd]. split; [|by apply IH].
    intros Hin. apply Hno. apply list_elem_of_filter in Hin as [? Hin]. apply list_elem_of_filter. split; [done|].
    revert Hin. by apply sublist_subseteq.
  - case_decide; [|done]. rewrite NoDup_cons. intros [_ Hnd]. by apply IH.
Qed.

(** Every domain after the root is the one of a node. *)
Lemma parse_phandles (t : domain_tree) (boot : Z) (root : domain) (nodes : list config_node) :
  tree_ok t -> (forall n, n ∈ nodes -> Forall (fun c => 0 <= c) (cn_regions n)) -> d_entry_from root = None ->
  let ds := foldl (parse_node t boot) [root] nodes in
  ds <> [] /\ (d_phandle <$> drop 1 ds) `sublist_of` (cn_phandle <$> nodes) /\ Forall (fun d => d_entry_from d = None) ds.
Proof.
  intros Ht Hc Hroot. cbv zeta. induction nodes as [|n nodes IH] using rev_ind; cbn.
  { split_and!; [done|constructor|by apply Forall_singleton]. }
  destruct IH as (Hne & Hsub & Hnone); [intros n' Hn'; apply Hc, elem_of_app; auto|].
  rewrite foldl_app. cbn [foldl]. set (ds := foldl (parse_node t boot) [root] nodes) in *. rewrite fmap_app.
  unfold parse_node. destruct (cn_instance n); [|split_and!; [done|by apply sublist_inserts_r|done]].
  destruct (instance_parse t boot n) as [dom|] eqn:E; [|split_and!; [done|by apply sublist_inserts_r|done]].
  destruct (instance_parse_ok t boot n dom Ht) as (_ & _ & _ & _ & _ & Hph & Hen); [|done|].
  { apply Hc, elem_of_app. right. by apply list_elem_of_singleton. }
  split_and!.
  - intros Hnil. by apply app_eq_nil in Hnil as [_ ?].
  - destruct ds as [|d0 ds']; [done|].
    change (drop 1 ((d0 :: ds') ++ ?x)) with (ds' ++ x). rewrite fmap_app. apply sublist_app; [done|]. cbn. rewrite Hph. done.
  - apply Forall_app. split; [done|]. by apply Forall_singleton.
Qed.

Definition entry_key (d : domain) : Z * Z * option bitstr := (d_phandle d, d_index d, d_entry_from d).

Lemma assign_entry (cpus : list cpu_dt) (s : list domain * (Z -> Z)) :
  entry_key <$> (foldl assign_hart s cpus).1 = entry_key <$> s.1.
Proof.
  revert s. induction cpus as [|c cpus IH]; intros s; [done|]. cbn [foldl]. rewrite IH. destruct s as [ds at_]. unfold assign_hart.
  destruct (cpu_hartid c); [|done]. destruct (_ || _); [done|]. destruct (last_by_phandle ds _); [|done].
  destruct (negb _); [done|]. cbn [fst]. by rewrite !fmap_alter_same.
Qed.

Lemma root_no_entry (self next_addr next_mode : Z) : d_entry_from (root_domain_init table self next_addr next_mode) = None.
Proof. unfold root_domain_init. by apply (for_upto_ind (fun _ d => d_entry_from d = None)). Qed.

(** After the second walk: the entries are the lists, the rest is as parsed. *)
Lemma domains_init_entry (t : domain_tree) (nodes : list config_node) (self next_addr next_mode : Z) :
  tree_ok t -> NoDup (cpu_ids (t_cpus t)) -> t_config t = Some nodes -> phandles_ok nodes ->
  let domains := (domains_init (Some t) self next_addr next_mode).1 in
  let root := root_domain_init table self next_addr next_mode in
  let ds1 := foldl (parse_node t (d_boot_hart root)) [root] nodes in
  phandles_unique ds1 /\ (forall k d, ds1 !! k = Some d -> d_index d = Z.of_nat k) /\
  forall k d, domains !! k = Some d -> d_index d = Z.of_nat k /\
    exists d1, ds1 !! k = Some d1 /\ d_phandle d = d_phandle d1 /\ d_entry_from d = listed nodes ds1 k d1.
Proof.
  intros Ht Hnd Hcfg Hok domains root ds1.
  assert (forall n, n ∈ nodes -> Forall (fun c => 0 <= c) (cn_regions n)) as Hc by (intros n; by apply (to_cells t)).
  assert (boot_inv domains (domains_init (Some t) self next_addr next_mode).2) as Hinv.
  { assert (forall t', Some t = Some t' -> tree_ok t' /\ NoDup (cpu_ids (t_cpus t'))) as Ht' by (intros t' [= <-]; done).
    pose proof (domains_init_inv (Some t) self next_addr next_mode Ht') as H. unfold domains.
    by destruct (domains_init (Some t) self next_addr next_mode). }
  destruct (parse_phandles t (d_boot_hart root) root nodes Ht Hc (root_no_entry _ _ _)) as (_ & Hsub & Hnone).
  fold ds1 in Hsub, Hnone.
  assert (phandles_unique ds1) as Hu by (eapply nodup_sublist_filter; [exact Hsub|exact Hok]).
  assert (entry_key <$> domains = entry_key <$> foldl entry_node ds1 nodes) as Hkey.
  { unfold domains, domains_init. cbn [mbind option_bind]. rewrite Hcfg. fold root ds1. unfold assign_harts.
    pose proof (assign_entry (t_cpus t) (foldl entry_node ds1 nodes, fun _ => 0)) as H. cbn [fst] in H. rewrite <- H.
    destruct (foldl assign_hart _ _) as [ds3 at3]. cbn. apply fmap_alter_same. intros d. by destruct (d_next_addr d =? 0). }
  destruct (entry_loop nodes ds1) as [Hdk Hent]; [|done|done|by rewrite <- Forall_lookup|].
  { intros k d Hd. by apply (bi_dom _ _ (parse_all_inv t (d_boot_hart root) nodes self next_addr next_mode Ht Hc) k d). }
  split_and!; [done|intros k d Hd; by apply (bi_dom _ _ (parse_all_inv t (d_boot_hart root) nodes self next_addr next_mode Ht Hc) k d)|].
  intros k d Hk. split; [by apply (bi_dom _ _ Hinv k d)|].
    apply (f_equal (.!! k)) in Hkey. rewrite !list_lookup_fmap, Hk in Hkey.
    destruct (foldl entry_node ds1 nodes !! k) as [d2|] eqn:E2; [|done]. injection Hkey as Hp _ He.
    destruct (Hent k d2 E2) as (d1 & E1 & He1). exists d1. split_and!; [done| |congruence].
    apply (f_equal (.!! k)) in Hdk. rewrite !list_lookup_fmap, E1, E2 in Hdk. injection Hdk as Hp1 _. congruence.
Qed.

(** Who may have a hart enter a domain is what its node lists: nobody enters
    the root domain, or a domain without a phandle, and the root domain
    enters nobody. *)
Theorem entry_as_listed (t : domain_tree) (nodes : list config_node) (self next_addr next_mode : Z)
    (i j : nat) (from target : domain) :
  tree_ok t -> NoDup (cpu_ids (t_cpus t)) -> t_config t = Some nodes -> phandles_ok nodes ->
  let domains := (domains_init (Some t) self next_addr next_mode).1 in
  domains !! i = Some from -> domains !! j = Some target ->
  domain_may_enter from target = true <->
  i <> 0%nat /\ j <> 0%nat /\ d_phandle from <> 0 /\ d_phandle target <> 0 /\
  exists n, n ∈ nodes /\ cn_phandle n = d_phandle target /\ d_phandle from ∈ cn_entry_from n.
Proof.
  intros Ht Hnd Hcfg Hok domains Hi Hj.
  destruct (domains_init_entry t nodes self next_addr next_mode Ht Hnd Hcfg Hok) as (Hu & Hidx & Hdom).
  set (ds1 := foldl _ _ nodes) in *. fold domains in Hdom.
  destruct (Hdom i from Hi) as (Hfi & f1 & Ef & Hfp & _). destruct (Hdom j target Hj) as (Htj & t1 & Et & Htp & Hte).
  unfold domain_may_enter. rewrite Hte, Htj, Hfi, Hfp, Htp. unfold listed. case_bool_decide as Hcond.
  2: { rewrite andb_false_r. split; [done|]. intros (_ & Hj0 & _ & Hp0 & _). by destruct Hcond. }
  destruct Hcond as [Hj0 Hp0]. assert (truth (Z.of_nat j) = true) as -> by (apply truth_true; lia). cbn [andb].
  destruct (List.find _ nodes) as [n|] eqn:En; cbn.
  - apply find_some in En as [Hn Hnp]. apply list_elem_of_In in Hn. bool_prop.
    rewrite entry_bits_spec by (done || lia). split.
    + intros (ph & f & Hin & Hf & Hfx). destruct (by_phandle_elem _ _ _ Hf) as (k & Hk & Hfk & Hph & Hne).
      rewrite (Hidx k f Hfk) in Hfx. assert (k = i) as -> by lia. rewrite Ef in Hfk. injection Hfk as ->. subst ph.
      split_and!; [done..|]. exists n. done.
    + intros (Hi0 & _ & Hfp0 & _ & n' & Hn' & Hnp' & Hin). exists (d_phandle f1), f1. split_and!; [|by apply (by_phandle_found ds1 i)|by apply Hidx].
      assert (n' = n) as ->; [|done]. apply list_elem_of_lookup in Hn as [x Hx], Hn' as [y Hy].
      assert (x = y) as ->; [|congruence].
      apply (nodup_filter_inj (cn_phandle <$> nodes) _ _ (d_phandle t1) Hok Hp0); rewrite list_lookup_fmap, ?Hx, ?Hy; cbn; congruence.
  - split; [done|]. intros (_ & _ & _ & _ & n & Hn & Hnp & _). apply list_elem_of_In in Hn.
    pose proof (find_none _ _ En n Hn) as Hx. cbn in Hx. bool_prop. done.
Qed.
End Props.

(** * The start *)

Section Start.
Context {AR : Arch} {KC : Kconfig} {HT : HartTable} {CE : CtxEnv}.
Abbreviation table := (hart_table_size ht_ids).
Context (valid : Z -> bool).

(** The harts that are told to boot, and where, the last call first. *)
Definition boot_calls (calls : list dcall) : list (Z * Z * Z * Z) :=
  omap (fun c => match c with HsmHartBoot h addr arg1 mode => Some (h, addr, arg1, mode) | _ => None end) calls.

Definition next_of (dom : domain) : Z * Z * Z * Z := (d_boot_hart dom, d_next_addr dom, d_next_arg1 dom, d_next_mode dom).

(** What [domains_start] and [domain_start] ask of a domain. *)
Definition starts (mine : Z) (s : dstate) (d : Z) : bool :=
  let dom := dom_at s d in
  negb ((d =? mine) && (d_boot_hart dom =? ctx_self)) && (0 <=? d_boot_hart dom) && negb (d_next_addr dom =? 0) &&
  domain_hart_assigned dom (d_boot_hart dom) && negb (truth (d_stopping dom)) && negb (domain_running s valid d) &&
  domain_range_ok ctx_memregions (Some dom) (d_next_addr dom) 4 DOMAIN_PERM_SU_X.

(** The part of the state that a start does not touch. *)
Definition same_world (s s' : dstate) : Prop :=
  ds_domains s' = ds_domains s /\ ds_at s' = ds_at s /\ ds_hsm s' = ds_hsm s.

Lemma starts_same (mine : Z) (s s' : dstate) (d : Z) : same_world s s' -> starts mine s' d = starts mine s d.
Proof. intros (H1 & H2 & H3). unfold starts, domain_running, dom_at. by rewrite H1, H3. Qed.

Lemma domain_start_one_spec (mine d : Z) (s : dstate) :
  same_world s (start_one valid mine s d) /\
  boot_calls (hw_calls (ds_hw (start_one valid mine s d))) =
    (if starts mine s d then [next_of (dom_at s d)] else []) ++ boot_calls (hw_calls (ds_hw s)).
Proof.
  unfold start_one, starts, domain_start. set (dom := dom_at s d). cbv zeta.
  destruct ((d =? mine) && (d_boot_hart dom =? ctx_self)); cbn [orb negb andb]; [done|].
  destruct (Z.ltb_spec (d_boot_hart dom) 0) as [Hneg|Hpos].
  { rewrite (proj2 (Z.leb_gt _ _)) by lia. done. }
  rewrite (proj2 (Z.leb_le 0 _)) by lia. cbn [orb andb].
  destruct (d_next_addr dom =? 0); cbn [orb negb andb]; [done|].
  destruct (domain_hart_assigned dom (d_boot_hart dom)); cbn [orb negb andb]; [|done].
  destruct (truth (d_stopping dom)); cbn [negb andb]; [done|].
  destruct (domain_running s valid d); cbn [negb andb]; [done|].
  destruct (domain_range_ok _ _ _ _ _); cbn [negb]; [|done].
  change (truth SBI_SUCCESS) with false. cbv iota. cbn [snd].
  set (s1 := for_upto _ _ s).
  assert (same_world s s1 /\ ds_hw s1 = ds_hw s) as [[H1 [H2 H3]] H4].
  { unfold s1. by apply (for_upto_ind (fun _ s' => same_world s s' /\ ds_hw s' = ds_hw s)). }
  split; [done|]. cbn. by rewrite H4.
Qed.

Lemma start_all_spec (mine : Z) (ds : list Z) (s : dstate) :
  same_world s (foldl (start_one valid mine) s ds) /\
  boot_calls (hw_calls (ds_hw (foldl (start_one valid mine) s ds))) =
    rev ((fun d => next_of (dom_at s d)) <$> filter (fun d => starts mine s d = true) ds) ++ boot_calls (hw_calls (ds_hw s)).
Proof.
  revert s. induction ds as [|d ds IH]; intros s; [done|]. cbn [foldl].
  destruct (domain_start_one_spec mine d s) as [Hw Hc]. set (s1 := start_one valid mine s d) in *.
  destruct (IH s1) as [Hw' Hc']. split.
  - destruct Hw as (? & ? & ?), Hw' as (? & ? & ?). split_and!; congruence.
  - rewrite Hc', Hc, filter_cons. 
    assert (((fun d => next_of (dom_at s1 d)) <$> filter (fun d => starts mine s1 d = true) ds) =
            ((fun d => next_of (dom_at s d)) <$> filter (fun d => starts mine s d = true) ds)) as ->.
    { rewrite (list_filter_iff _ (fun d => starts mine s d = true)) by (intros d'; by rewrite (starts_same mine s s1)).
      apply list_fmap_ext. intros i x _. unfold dom_at. by destruct Hw as [-> _]. }
    destruct (starts mine s d); [rewrite decide_True by done|rewrite decide_False by done]; cbn; [|done].
    by rewrite <- app_assoc.
Qed.

(** ** Before the start *)

Lemma first_boot_hart_spec (dom : domain) :
  0 <= first_boot_hart valid dom ->
  domain_hart_assigned dom (first_boot_hart valid dom) = true /\ valid (first_boot_hart valid dom) = true /\
  first_boot_hart valid dom < table.
Proof.
  unfold first_boot_hart. destruct (List.find _ _) as [i|] eqn:E; cbn; [|lia]. intros _.
  apply find_some in E as [Hin Hp]. apply list_elem_of_In, elem_of_seqZ in Hin. bool_prop. split_and!; [done..|lia].
Qed.

(** A domain as it is started: with a boot hart that has S-mode. *)
Definition prepared (fdt : Z) (no_smode : Z -> bool) (dom dom' : domain) : Prop :=
  d_assigned dom' = d_assigned dom /\ d_regions dom' = d_regions dom /\ d_next_addr dom' = d_next_addr dom /\
  d_next_arg1 dom' = (if d_next_arg1_given dom then d_next_arg1 dom else fdt) /\
  (d_boot_hart dom < table -> d_boot_hart dom' < table) /\
  (0 <= d_boot_hart dom' -> no_smode (d_boot_hart dom') = false) /\
  (no_smode (d_boot_hart dom) = false -> d_boot_hart dom' = d_boot_hart dom).

Lemma start_prepare_spec (fdt pmp_entries : Z) (no_smode : Z -> bool) (dom : domain) :
  (forall i, valid i = true -> no_smode i = false) ->
  match start_prepare fdt pmp_entries no_smode valid dom with
  | Ret dom' => prepared fdt no_smode dom dom' /\ Z.of_nat (length (d_regions dom)) <= pmp_entries
  | Panic => pmp_entries < Z.of_nat (length (d_regions dom))
  end.
Proof.
  intros Hv. unfold start_prepare. set (dom1 := if d_next_arg1_given dom then _ else _).
  assert (d_assigned dom1 = d_assigned dom /\ d_regions dom1 = d_regions dom /\ d_next_addr dom1 = d_next_addr dom /\
    d_next_arg1 dom1 = (if d_next_arg1_given dom then d_next_arg1 dom else fdt) /\ d_boot_hart dom1 = d_boot_hart dom) as (Ha & Hr & Hn & Hg & Hb).
  { unfold dom1. by destruct (d_next_arg1_given dom). }
  clearbody dom1. rewrite Hb. pose proof (first_boot_hart_spec dom1) as Hf.
  destruct ((0 <=? d_boot_hart dom) && no_smode (d_boot_hart dom)) eqn:E; cbn [field_update]; cbn; rewrite Hr; case_cmp; try done.
  - split; [|lia]. bool_prop. split_and!; cbn; try congruence; [|intros Hb0; by apply Hv, Hf].
    intros Hlt. destruct (Z.lt_ge_cases (first_boot_hart valid dom1) 0); [lia|]. by apply Hf.
  - split; [|lia]. split_and!; try congruence. intros Hb0. rewrite Hb in *. apply andb_false_iff in E as [E|E]; [bool_prop; lia|done].
Qed.

Lemma start_prepare_all_spec (fdt pmp_entries : Z) (no_smode : Z -> bool) (doms : list domain) :
  (forall i, valid i = true -> no_smode i = false) ->
  match start_prepare_all fdt pmp_entries no_smode valid doms with
  | Ret doms' => Forall2 (prepared fdt no_smode) doms doms' /\ Forall (fun dom => Z.of_nat (length (d_regions dom)) <= pmp_entries) doms
  | Panic => Exists (fun dom => pmp_entries < Z.of_nat (length (d_regions dom))) doms
  end.
Proof.
  intros Hv. induction doms as [|dom doms IH]; cbn; [done|].
  pose proof (start_prepare_spec fdt pmp_entries no_smode dom Hv) as Hp.
  destruct (start_prepare fdt pmp_entries no_smode valid dom) as [dom'|]; cbn; [|by left].
  destruct Hp as [Hp Hl]. destruct (start_prepare_all fdt pmp_entries no_smode valid doms) as [doms'|]; cbn; [|by right].
  destruct IH. split; by constructor.
Qed.

(** The hart a domain is started on is its own, and not the calling one. *)
Lemma starts_own (fdt : Z) (no_smode : Z -> bool) (s s1 : dstate) (d : Z) :
  0 <= ctx_self < table ->
  prepared fdt no_smode (dom_at s d) (dom_at s1 d) -> d_boot_hart (dom_at s d) < table ->
  (forall h, 0 <= h < table -> hartmask_test (d_assigned (dom_at s d)) h = bool_decide (ds_at s h = d)) ->
  starts (ds_at s ctx_self) s1 d = true ->
  let h := d_boot_hart (dom_at s1 d) in
  0 <= h < table /\ ds_at s h = d /\ h <> ctx_self /\ no_smode h = false /\
  domain_range_ok ctx_memregions (Some (dom_at s1 d)) (d_next_addr (dom_at s1 d)) 4 DOMAIN_PERM_SU_X = true.
Proof.
  intros Hself (Ha & _ & _ & _ & Hlt & Hs & _) Hb Hpl Hst. unfold starts in Hst. cbv zeta in Hst. bool_prop.
  cbv zeta. set (h := d_boot_hart (dom_at s1 d)) in *. assert (0 <= h < table) as Hh by (split; [done|by apply Hlt]).
  assert (ds_at s h = d) as Hat.
  { match goal with H : domain_hart_assigned _ _ = true |- _ => unfold domain_hart_assigned in H; rewrite Ha, Hpl in H by done;
      by apply bool_decide_eq_true in H end. }
  destruct Hh. split_and!; try done; [|by apply Hs]. intros E.
  destruct (Z.eqb_spec d (ds_at s ctx_self)); cbn in *; [|congruence]. destruct (Z.eqb_spec h ctx_self); done.
Qed.

(** C13: The boot ends where a domain has more regions than the PMP has entries,
    and there only.  Otherwise the harts that are told to boot are each told
    once: the boot harts of the domains that are not running and can be
    started, each a hart of its own domain, with S-mode, at an address the
    domain may execute, with the argument the tree names or the device tree.
    The calling hart is not among them: it enters its own domain by itself,
    or waits. *)
Theorem domains_start_boots (fdt pmp_entries : Z) (no_smode : Z -> bool) (s : dstate) :
  (forall i, valid i = true -> no_smode i = false) ->
  0 <= ctx_self < table ->
  (forall d h, 0 <= d < domain_count (ds_domains s) -> 0 <= h < table ->
     hartmask_test (d_assigned (dom_at s d)) h = bool_decide (ds_at s h = d)) ->
  Forall (fun dom => d_boot_hart dom < table) (ds_domains s) ->
  match domains_start fdt pmp_entries no_smode valid s with
  | Panic => Exists (fun dom => pmp_entries < Z.of_nat (length (d_regions dom))) (ds_domains s)
  | Ret (s', b) =>
      exists l, boot_calls (hw_calls (ds_hw s')) = rev l ++ boot_calls (hw_calls (ds_hw s)) /\
        NoDup ((fun c => c.1.1.1) <$> l) /\
        (forall c, c ∈ l <-> exists d, 0 <= d < domain_count (ds_domains s) /\
           starts (ds_at s ctx_self) s' d = true /\ c = next_of (dom_at s' d)) /\
        (forall h addr arg1 mode, (h, addr, arg1, mode) ∈ l ->
           h <> ctx_self /\ 0 <= h < table /\ no_smode h = false /\ d_boot_hart (dom_at s' (ds_at s h)) = h /\
           domain_range_ok ctx_memregions (Some (dom_at s' (ds_at s h))) addr 4 DOMAIN_PERM_SU_X = true)
  end.
Proof.
  intros Hv Hself Hplaced Hboot. unfold domains_start.
  pose proof (start_prepare_all_spec fdt pmp_entries no_smode (ds_domains s) Hv) as Hprep.
  destruct (start_prepare_all fdt pmp_entries no_smode valid (ds_domains s)) as [doms|]; cbn [mbind outcome_bind]; [|done].
  destruct Hprep as [Hprep _]. set (s1 := s <| ds_domains := doms |>). set (mine := ds_at s ctx_self).
  destruct (start_all_spec mine (seqZ 0 (domain_count doms)) s1) as [Hw Hc].
  set (s2 := foldl (start_one valid mine) s1 _) in *.
  assert (domain_count doms = domain_count (ds_domains s)) as Hcount.
  { unfold domain_count. f_equal. symmetry. by eapply Forall2_length. }
  assert (forall d, dom_at s2 d = dom_at s1 d) as Hat by (intros d; unfold dom_at; by destruct Hw as [-> _]).
  assert (forall d, 0 <= d < domain_count (ds_domains s) -> prepared fdt no_smode (dom_at s d) (dom_at s1 d) /\ d_boot_hart (dom_at s d) < table) as Hp.
  { intros d Hd. unfold dom_at, domain_count in *. cbn. destruct (lookup_lt_is_Some_2 (ds_domains s) (Z.to_nat d)) as [x Hx]; [lia|].
    destruct (Forall2_lookup_l _ _ _ _ _ Hprep Hx) as (y & Hy & Hxy). rewrite Hx, Hy. split; [done|].
    rewrite Forall_lookup in Hboot. by apply (Hboot _ _ Hx). }
  assert (forall d, 0 <= d < domain_count (ds_domains s) -> starts mine s1 d = true -> let h := d_boot_hart (dom_at s1 d) in
    0 <= h < table /\ ds_at s h = d /\ h <> ctx_self /\ no_smode h = false /\
    domain_range_ok ctx_memregions (Some (dom_at s1 d)) (d_next_addr (dom_at s1 d)) 4 DOMAIN_PERM_SU_X = true) as Hown.
  { intros d Hd. destruct (Hp d Hd). apply (starts_own fdt no_smode); [done..|]. intros h. by apply Hplaced. }
  assert (forall c, c ∈ ((fun d => next_of (dom_at s1 d)) <$> filter (fun d => starts mine s1 d = true) (seqZ 0 (domain_count doms))) <->
    exists d, 0 <= d < domain_count (ds_domains s) /\ starts mine s1 d = true /\ c = next_of (dom_at s1 d)) as Hl.
  { intros c. rewrite list_elem_of_fmap. setoid_rewrite list_elem_of_filter. setoid_rewrite elem_of_seqZ. rewrite Hcount.
    split; [intros (d & -> & Hs & Hd)|intros (d & Hd & Hs & ->)]; exists d; split_and!; done || lia. }
  eexists. split_and!; [exact Hc|..].
  - rewrite <- list_fmap_compose. apply NoDup_fmap_2_strong; [|apply NoDup_filter, NoDup_seqZ].
    intros d d' Hd Hd' E. apply list_elem_of_filter in Hd as [Hs Hd], Hd' as [Hs' Hd']. apply elem_of_seqZ in Hd, Hd'.
    cbn in E. destruct (Hown d ltac:(lia) Hs) as (_ & <- & _). destruct (Hown d' ltac:(lia) Hs') as (_ & <- & _). by rewrite E.
  - intros c. rewrite Hl. split; intros (d & Hd & Hs & ->); exists d; rewrite Hat, (starts_same mine s1 s2) in *; done.
  - intros h addr arg1 mode Hin. apply Hl in Hin as (d & Hd & Hs & E). injection E as -> -> -> ->.
    destruct (Hown d Hd Hs) as (Hh & Hd' & Hne & Hsm & Hok). rewrite Hd', Hat. done.
Qed.
End Start.


Module Trusted.
#[local] Instance rv64 : Arch := RV64.
#[local] Instance virt : Kconfig := qemu_virt.
#[local] Instance every_extension : Features := fun _ => true.
#[local] Instance two : HartTable := {| ht_ids := [0; 1]; ht_nodup := two_harts_nodup |}.
#[local] Instance hart0 : CtxEnv := {|
  ctx_self := 0;
  ctx_misa := 0;
  ctx_vec_bytes := 0;
  ctx_timer := true;
  ctx_memregions := [];
  ctx_mpxy_resumed := fun r => r;
|}.

Definition tdomain : config_node :=
  ConfigNode true "trusted-domain" 10 [20; 21] false [30; 0x38] (Some 20) (Some 0x8e000000) None None false false [11].
Definition udomain : config_node :=
  ConfigNode true "untrusted-domain" 11 [20; 21] true [30; 0] (Some 21) (Some 0x80200000) None None true true [].
Definition tmem : config_node := ConfigNode false "tmem" 30 [] false [] None None None None false false [].
Definition nodes : list config_node := [tmem; tdomain; udomain].

Definition board : domain_tree := {|
  t_config := Some nodes;
  t_cpus := [CpuDt 11 (Some 0); CpuDt 11 (Some 1)];
  t_memregion := fun ph => if ph =? 30 then Some (MemNode (Some 0x8e000000) 24 false) else None;
  t_cpu := fun ph => if ph =? 20 then Some 0 else if ph =? 21 then Some 1 else None;
|}.

Lemma board_ok : tree_ok board.
Proof.
  split.
  - intros ph r b. cbn. destruct (ph =? 30); [|done]. intros [= <-] [= <-]. lia.
  - intros ns n [= <-] Hn. unfold nodes in Hn. repeat (apply elem_of_cons in Hn as [->|Hn]; [repeat constructor; lia|]).
    by apply not_elem_of_nil in Hn.
Qed.

Lemma board_cpus : NoDup (cpu_ids (t_cpus board)).
Proof. apply (bool_decide_unpack _). vm_compute. exact I. Qed.

Lemma board_phandles : phandles_ok nodes.
Proof. apply (bool_decide_unpack _). vm_compute. exact I. Qed.

Lemma board_tree : forall t', Some board = Some t' -> tree_ok t' /\ NoDup (cpu_ids (t_cpus t')).
Proof. intros t' [= <-]. split; [apply board_ok|apply board_cpus]. Qed.

Definition hw0 : hart_hw := HartHw ∅ 0 0 [] (VecState 0 0 0 0 []) [].
(** No hart has been entered yet ([hart_init]). *)
Definition hsm0 (h : Z) : Z := SBI_HSM_STATE_STOPPED.
Definition booted : dstate := boot_dstate (domains_init (Some board) 0 0x80200000 PRV_S) hsm0 hw0.


(** The untrusted domain may enter the trusted one, and not the other way. *)
Lemma board_domain1 : (domains_init (Some board) 0 0x80200000 PRV_S).1 !! 1%nat = Some (dom_at booted 1).
Proof. vm_compute. reflexivity. Qed.
Lemma board_domain2 : (domains_init (Some board) 0 0x80200000 PRV_S).1 !! 2%nat = Some (dom_at booted 2).
Proof. vm_compute. reflexivity. Qed.
Lemma board_phandle1 : d_phandle (dom_at booted 1) = 10.
Proof. vm_compute. reflexivity. Qed.
Lemma board_phandle2 : d_phandle (dom_at booted 2) = 11.
Proof. vm_compute. reflexivity. Qed.

Lemma entry_as_listed_witness :
  domain_may_enter (dom_at booted 2) (dom_at booted 1) = true /\ domain_may_enter (dom_at booted 1) (dom_at booted 2) <> true.
Proof.
  pose proof (entry_as_listed ltac:(done) ltac:(done) board nodes 0 0x80200000 PRV_S 2 1 (dom_at booted 2) (dom_at booted 1)
    board_ok board_cpus eq_refl board_phandles board_domain2 board_domain1) as [_ H21].
  pose proof (entry_as_listed ltac:(done) ltac:(done) board nodes 0 0x80200000 PRV_S 1 2 (dom_at booted 1) (dom_at booted 2)
    board_ok board_cpus eq_refl board_phandles board_domain1 board_domain2) as [H12 _].
  rewrite board_phandle1, board_phandle2 in *. split.
  - apply H21. split_and!; [done..|]. exists tdomain. split_and!; [right; left|done|left].
  - intros Ht. destruct (H12 Ht) as (_ & _ & _ & _ & n & Hn & Hp & Hin).
    unfold nodes in Hn. repeat (apply elem_of_cons in Hn as [->|Hn]; [try discriminate Hp|]); [|by apply not_elem_of_nil in Hn].
    by apply not_elem_of_nil in Hin.
Defined.

(** Hart 1 is told to boot the untrusted domain, with the device tree; hart 0
    boots nothing, and waits. *)
Lemma board_assigned (d h : Z) : 0 <= d < domain_count (ds_domains booted) -> 0 <= h < hart_table_size ht_ids ->
  hartmask_test (d_assigned (dom_at booted d)) h = bool_decide (ds_at booted h = d).
Proof.
  change (domain_count (ds_domains booted)) with 3. change (hart_table_size ht_ids) with 2. intros Hd Hh.
  assert (d = 0 \/ d = 1 \/ d = 2) as [-> |[-> | ->]] by lia; assert (h = 0 \/ h = 1) as [-> | ->] by lia; vm_compute; reflexivity.
Qed.

Lemma board_boot_harts : Forall (fun dom => d_boot_hart dom < hart_table_size ht_ids) (ds_domains booted).
Proof. apply (bool_decide_unpack _). vm_compute. exact I. Qed.

Lemma domains_start_boots_witness :
  exists s' l, domains_start 0x82000000 16 (fun _ => false) (fun _ => true) booted = Ret (s', WaitsForStart) /\
    boot_calls (hw_calls (ds_hw s')) = rev l /\ NoDup ((fun c => c.1.1.1) <$> l).
Proof.
  pose proof (domains_start_boots (fun _ => true) 0x82000000 16 (fun _ => false) booted (fun _ _ => eq_refl)
    (conj (Z.le_refl 0) eq_refl) board_assigned board_boot_harts) as H.
  destruct (domains_start 0x82000000 16 (fun _ => false) (fun _ => true) booted) as [[s' b]|] eqn:E.
  2: { exfalso. vm_compute in E. discriminate E. }
  assert (b = WaitsForStart) as -> by (vm_compute in E; injection E as <- <-; reflexivity).
  destruct H as (l & Hl & Hnd & _). exists s', l. split_and!; [done| |done]. 
  rewrite Hl. apply app_nil_r.
Defined.

(** The call it makes. *)
Example hart1_boots :
  match domains_start 0x82000000 16 (fun _ => false) (fun _ => true) booted with
  | Ret (s', b) => boot_calls (hw_calls (ds_hw s')) = [(1, 0x80200000, 0x82000000, PRV_S)]
  | Panic => False
  end.
Proof. vm_compute. reflexivity. Qed.

(** A region of order XLEN is everything to the PMP, whatever its base is; to
    the software check it begins at the base. *)
Definition upper_half : domain_tree := {|
  t_config := None; t_cpus := [];
  t_memregion := fun _ => Some (MemNode (Some 0x8000000000000000) 64 false);
  t_cpu := fun _ => None;
|}.

Theorem whole_region_any_base :
  exists dom r, instance_parse upper_half 0 tdomain = Some dom /\ d_regions dom = [r] /\ dr_base r = 0x8000000000000000 /\
    domain_range_ok [] (Some dom) 0x1000 8 DOMAIN_PERM_SU_R = false /\
    domain_region_entries 4 r = domain_region_entries 4 (DomainRegion 0 XLEN DOMAIN_PERM_SU_RWX false).
Proof. eexists _, _. split_and!; reflexivity. Qed.
End Trusted.
