(* ===== verification/DomainExample.v ===== *)
(** Two domains on two harts, which the theorems on domain contexts are
    applied to: the root domain has both harts and may enter the guest, which
    hart 0 boots. *)

From S2P Require Import Prelude Arch Csr Fields Memregion Bitstring Domain Hart DomainContext DomainContextProps DomainMoves ContextRoundtrip.
From stdpp Require Import strings.

#[local] Open Scope Z_scope.

Module TwoDomains.
#[local] Instance rv64 : Arch := RV64.
#[local] Instance virt : Kconfig := qemu_virt.
#[local] Instance every_extension : Features := fun _ => true.
#[local] Instance two : HartTable := {| ht_ids := [0; 1]; ht_nodup := two_harts_nodup |}.
#[local] Instance hart0 : CtxEnv := {|
  ctx_self := 0;
  ctx_misa := Z.lor MISA_EXT_F MISA_EXT_V;
  ctx_vec_bytes := 16;
  ctx_timer := true;
  ctx_memregions := [];
  ctx_mpxy_resumed := fun r => r;
|}.

Definition all_memory : domain_region := DomainRegion 0 XLEN DOMAIN_PERM_SU_RWX false.
Definition ram : domain_region := DomainRegion 0x84000000 26 DOMAIN_PERM_SU_RWX false.
Definition both : hartmask := hartmask_set (hartmask_set hartmask_none 0) 1.

Definition root : domain :=
  domain_zero <| d_possible := both |> <| d_assigned := both |> <| d_parked := hartmask_none |>
    <| d_regions := [all_memory] |> <| d_boot_hart := 0 |>.
Definition guest : domain :=
  domain_zero <| d_index := 1 |> <| d_possible := hartmask_set hartmask_none 0 |> <| d_assigned := hartmask_none |>
    <| d_parked := hartmask_none |> <| d_regions := [ram] |> <| d_boot_hart := 0 |> <| d_next_addr := 0x84000000 |>
    <| d_next_mode := PRV_S |> <| d_entry_from := Some [1] |>.

(** S-mode of the root domain, its registers in use. *)
Definition running : hart_hw := {|
  hw_csrs := csr_write (csr_write (csr_write (csr_write ∅ CSR_MIDELEG 0x222) CSR_MIE 0x2aa) CSR_STVEC 0x80200100)
               CSR_SATP 0x8000000000080300;
  hw_deadline := 5000;
  hw_shmem := 0x80500000;
  hw_fp := replicate 33 7;
  hw_vec := VecState 0 0 4 8 (replicate 32 9);
  hw_calls := [];
|}.

Definition start : dstate := {|
  ds_domains := [root; guest];
  ds_ctx := fun _ _ => context_zero;
  ds_at := fun _ => 0;
  ds_hsm := fun h => if h =? 0 then SBI_HSM_STATE_STARTED else SBI_HSM_STATE_STOPPED;
  ds_hw := running;
|}.
Definition frame : trap_regs := TrapRegs ((fun i => 100 + i) <$> seqZ 0 32) 0x80200004 0x0a00000822.

Lemma both_cases (P : Z -> Prop) : P 0 -> P 1 -> forall i, 0 <= i < 2 -> P i.
Proof. intros H0 H1 i Hi. assert (i = 0 \/ i = 1) as [-> | ->] by lia; done. Defined.

Lemma hart0_env_ok : ctx_env_ok.
Proof. constructor; vm_compute; try split; discriminate || reflexivity. Defined.

Lemma both_wf : hartmask_wf both /\ hartmask_wf hartmask_none.
Proof. split; (split; [reflexivity|]); apply (bool_decide_unpack _); vm_compute; exact I. Defined.

Lemma start_boot : dc_boot start.
Proof.
  constructor.
  - intros h _. vm_compute. split; [discriminate|reflexivity].
  - apply (both_cases (fun d => hartmask_wf (d_assigned (dom_at start d)) /\ d_parked (dom_at start d) = hartmask_none));
      (split; [apply both_wf|reflexivity]).
  - intros d h Hd. revert h. revert d Hd.
    apply (both_cases (fun d => forall h, 0 <= h < 2 -> hartmask_test (d_assigned (dom_at start d)) h = bool_decide (ds_at start h = d)));
      refine (both_cases _ _ _); reflexivity.
  - intros d h. split; reflexivity.
Defined.

(** Hart 0 goes into the guest, and back. *)
Definition entered : dstate := moved_state (domain_enter start frame 1 42).

Lemma entered_runs : dc_runs entered.
Proof.
  eapply dr_op; [apply dr_boot, start_boot|exact hart0_env_ok|]. apply (dop_enter start frame 1 42 false). vm_compute. split; [discriminate|reflexivity].
Defined.

Lemma hart_in_one_domain_witness :
  ds_at entered 0 = 1 /\ domain_hart_assigned (dom_at entered 0) 0 = false /\ hartmask_test (d_parked (dom_at entered 0)) 0 = true.
Proof.
  assert (0 <= 0 < hart_table_size ht_ids) as H0 by (vm_compute; split; [discriminate|reflexivity]).
  assert (0 <= 0 < domain_count (ds_domains entered)) as Hd by (vm_compute; split; [discriminate|reflexivity]).
  assert (0 <= CONFIG_PLATFORM_HART_COUNT) as Hc by (vm_compute; discriminate).
  destruct (hart_in_one_domain entered 0 0 Hc entered_runs H0 Hd) as (_ & Hp & Hboth & _).
  assert (hartmask_test (d_parked (dom_at entered 0)) 0 = true) as Hpk.
  { apply Hp. left. vm_compute. reflexivity. }
  split; [vm_compute; reflexivity|]. split; [|exact Hpk].
  destruct (domain_hart_assigned (dom_at entered 0) 0); [|reflexivity]. exfalso. apply Hboth. split; [reflexivity|exact Hpk].
Defined.

Lemma domain_enter_allowed_witness : this_domain entered = 1 /\ d_index (dom_at start 1) <> 0.
Proof.
  assert (this_domain (moved_state (domain_enter start frame 1 42)) <> this_domain start) as H by (vm_compute; discriminate).
  destruct (domain_enter_allowed start frame 1 42 H) as (H1 & _ & H2 & _). split; [exact H1|exact H2].
Defined.

Lemma domain_exit_allowed_witness :
  caller_waits entered (this_domain entered) = Some 0 \/ caller_waits entered (this_domain entered) = None.
Proof.
  assert (this_domain (moved_state (domain_exit entered frame 7)) <> this_domain entered) as H by (vm_compute; discriminate).
  destruct (domain_exit_allowed entered frame 7 H) as [H1|[H1 _]]; [left|right; exact H1].
  rewrite H1. vm_compute. reflexivity.
Defined.

(** The guest's registers, which the root's context comes back after. *)
Definition guest_hw : hart_hw := ds_hw entered.

Lemma running_wf : hw_wf running.
Proof. repeat apply csr_write_wf. apply csr_wf_empty. Defined.

Lemma context_roundtrip_witness :
  let h' := hw_restore (fst (context_save context_zero frame running)) (hw_write running CSR_STVEC 0x84000000) in
  hw_read h' CSR_STVEC = 0x80200100 /\ sie_read h' = sie_read running /\ timer_smode_get h' = timer_smode_get running.
Proof.
  assert (ctx_shaped context_zero) as H1 by (split; reflexivity).
  assert (is_u64 (hw_deadline running)) as H2 by (vm_compute; split; [discriminate|reflexivity]).
  assert (hw_wf (hw_write running CSR_STVEC 0x84000000)) as H3 by (apply csr_write_wf, running_wf).
  assert (hart_has HART_FEAT_SSTC || ctx_timer = true) as H4 by reflexivity.
  destruct (context_roundtrip context_zero frame running (hw_write running CSR_STVEC 0x84000000) H1 running_wf H3 H2
              eq_refl eq_refl H4) as (Hr & _ & Hs & Ht & _).
  split; [|split; [exact Hs|exact Ht]].
  rewrite Hr; [reflexivity|]. apply (bool_decide_unpack _). vm_compute. exact I.
Defined.
End TwoDomains.
