(* ===== verification/Irqchip.v ===== *)
(** Interrupt controllers: [drivers/irqchip] ([irqchip.c], [aplic.c],
    [plic.c]).  What the drivers read of the device tree are records; what
    they write to a controller is the list of its 32 bit stores, in order.

    The next stage finds a quiet PLIC, and an APLIC whose sources are
    delegated as the device tree says and otherwise off. *)

From S2P Require Import Prelude Arch Memregion Hart.

#[local] Open Scope Z_scope.


Definition IRQ_M_EXT : Z := 11.

(** * Stores, and what they leave *)

Abbreviation stores := (list (Z * Z)).

(** The last value stored at [a]. *)
Definition stored (ws : stores) (a : Z) : option Z :=
  foldl (fun v w => if w.1 =? a then Some w.2 else v) None ws.

(** [for (x = first; x <= last; x++)], [for (x = 0; x < n; x++)] *)
Definition from_to (first last : Z) : list Z := seqZ first (last - first + 1).
Definition below (n : Z) : list Z := seqZ 0 n.

(** * What the drivers share: [irqchip.c] *)

(** The interrupt of the first "interrupts-extended" entry that is a hart's,
    and "msi-parent". *)
Record irq_node : Set := IrqNode { iq_first : option Z; iq_msi_parent : Z }.

Section Tree.
Context (by_phandle : Z -> option irq_node).

(** The loop, [depth] rounds before its end. *)
Fixpoint mlevel_loop (depth : nat) (node : option irq_node) : bool :=
  match depth, node with
  | S depth, Some n =>
      match iq_first n with
      | Some irq => irq =? IRQ_M_EXT
      | None => mlevel_loop depth (by_phandle (iq_msi_parent n))
      end
  | _, _ => false
  end.
Definition irqchip_is_mlevel (node : option irq_node) : bool := mlevel_loop 4 node.

(** [disable_mlevel] over the nodes with the compatible string, [disable] the
    result of [fdt_node_disable]; the result and whether each is enabled *)
Fixpoint disable_mlevel (disable : Z) (nodes : list (irq_node * bool)) : Z * list (irq_node * bool) :=
  match nodes with
  | [] => (0, [])
  | (n, enabled) :: nodes =>
      if negb (irqchip_is_mlevel (Some n)) then let '(rc, nodes) := disable_mlevel disable nodes in (rc, (n, enabled) :: nodes)
      else if truth disable then (disable, (n, enabled) :: nodes)
      else let '(rc, nodes) := disable_mlevel disable nodes in (rc, (n, false) :: nodes)
  end.
End Tree.

(** [plic_invalidate_mlevel] on the cells of a PLIC's "interrupts-extended":
    pairs of a phandle and an interrupt *)
Fixpoint plic_invalidate (ext : list Z) : list Z :=
  match ext with
  | intc :: irq :: rest => intc :: (if irq =? IRQ_M_EXT then 0xffffffff else irq) :: plic_invalidate rest
  | _ => ext
  end.

(** [irqchip_fdt_fixup]: the APLICs, the IMSICs, and the PLICs' cells *)
Definition irqchip_fdt_fixup (by_phandle : Z -> option irq_node) (disable : Z) (aplics imsics : list (irq_node * bool))
    (plics : list (list Z)) : Z * list (irq_node * bool) * list (irq_node * bool) * list (list Z) :=
  let '(rc, aplics) := disable_mlevel by_phandle disable aplics in
  if truth rc then (rc, aplics, imsics, plics)
  else
    let '(rc, imsics) := disable_mlevel by_phandle disable imsics in
    if truth rc then (rc, aplics, imsics, plics) else (0, aplics, imsics, plic_invalidate <$> plics).

Section Irqchip.
Context {AR : Arch}.

(** * The PLIC *)

Definition PLIC_PRIORITY (src : Z) : Z := 4 *! src.
Definition PLIC_ENABLE (ctx : Z) : Z := 0x2000 +! 0x80 *! ctx.
Definition PLIC_THRESHOLD (ctx : Z) : Z := 0x200000 +! 0x1000 *! ctx.
Definition PLIC_THRESHOLD_MAX : Z := 7.
Definition PLIC_MAX_SOURCES : Z := 1023.
Definition PLIC_MAX_CONTEXTS : Z := 15872.

Definition plic_init (base sources contexts : Z) : stores :=
  ((fun src => (base +! PLIC_PRIORITY src, 0)) <$> from_to 1 sources) ++
  (below contexts ≫= fun ctx =>
    ((fun word => (base +! PLIC_ENABLE ctx +! 4 *! word, 0)) <$> from_to 0 (sources / 32)) ++
    [(base +! PLIC_THRESHOLD ctx, PLIC_THRESHOLD_MAX)]).

(** "reg", "riscv,ndev" (0 without) and the length of "interrupts-extended" *)
Record plic_node : Set := PlicNode { pn_reg : option Z; pn_ndev : Z; pn_ext_len : option Z }.

(** [None]: -1. *)
Definition plic_probe (node : option plic_node) : option stores :=
  n ← node;
  base ← pn_reg n;
  len ← pn_ext_len n;
  Some (plic_init (wrap base) (Z.min (pn_ndev n) PLIC_MAX_SOURCES) (Z.min len (8 * PLIC_MAX_CONTEXTS) / 8)).

(** * The APLIC *)

Definition APLIC_DOMAINCFG : Z := 0.
Definition APLIC_SOURCECFG (src : Z) : Z := 0x4 +! 4 *! (src - 1).
Definition APLIC_SOURCECFG_D : Z := 2 ^ 10.
Definition APLIC_MMSIADDRCFG : Z := 0x1bc0.
Definition APLIC_SMSIADDRCFG : Z := 0x1bc8.
Definition APLIC_CLRIE (word : Z) : Z := 0x1f00 +! 4 *! word.
Definition APLIC_TARGET (src : Z) : Z := 0x3004 +! 4 *! (src - 1).
Definition APLIC_IDC (idx : Z) : Z := 0x4000 +! 32 *! idx.
Definition APLIC_IDC_IDELIVERY : Z := 0.
Definition APLIC_IDC_IFORCE : Z := 4.
Definition APLIC_IDC_ITHRESHOLD : Z := 8.
Definition IMSIC_PAGE_SHIFT : Z := 12.

Record msicfg : Set := Msicfg { mc_base : Z; mc_lhxs : Z; mc_lhxw : Z; mc_hhxs : Z; mc_hhxw : Z }.

(** 32 rounds are enough for a 32 bit word: [log2_ceil_spec]. *)
Fixpoint log2_loop (fuel : nat) (bits n : Z) : Z :=
  match fuel with
  | 0%nat => bits
  | S fuel => if 2 ^ bits <? n then log2_loop fuel (bits + 1) n else bits
  end.
Definition log2_ceil (n : Z) : Z := log2_loop 32 0 n.

(** An IMSIC node: "reg", the length of "interrupts-extended", and the
    properties of its address map *)
Record imsic_map : Set := ImsicMap {
  io_base : option Z;
  io_ext_len : option Z;
  io_guest_bits : option Z; io_hart_bits : option Z; io_group_bits : option Z; io_group_shift : option Z;
}.

Definition msicfg_from_imsic (imsic : option imsic_map) : option msicfg :=
  m ← imsic;
  base ← io_base m;
  len ← io_ext_len m;
  Some {| mc_base := base;
          mc_lhxs := default 0 (io_guest_bits m);
          mc_lhxw := default (log2_ceil (len / 8)) (io_hart_bits m);
          mc_hhxs := low32 (default (2 * IMSIC_PAGE_SHIFT) (io_group_shift m) - 2 * IMSIC_PAGE_SHIFT);
          mc_hhxw := default 0 (io_group_bits m) |}.

Definition msi_ppn (cfg : msicfg) : Z :=
  let ppn := Z.shiftr (mc_base cfg) IMSIC_PAGE_SHIFT in
  let ppn := Z.ldiff ppn (2 ^ mc_lhxs cfg - 1) in
  let ppn := Z.ldiff ppn (Z.shiftl (2 ^ mc_lhxw cfg - 1) (mc_lhxs cfg)) in
  Z.ldiff ppn (Z.shiftl (2 ^ mc_hhxw cfg - 1) (mc_hhxs cfg + IMSIC_PAGE_SHIFT)).

Definition msicfg_write (base off : Z) (cfg : msicfg) : stores :=
  let ppn := msi_ppn cfg in
  [(base +! off, low32 ppn);
   (base +! off +! 4,
    low32 (Z.lor (Z.lor (Z.lor (Z.lor (Z.land (high32_from_64 ppn) 0xfff) (Z.shiftl (mc_lhxw cfg) 12))
      (Z.shiftl (mc_hhxw cfg) 16)) (Z.shiftl (mc_lhxs cfg) 20)) (Z.shiftl (mc_hhxs cfg) 24)))].

(** A root domain: "riscv,children", the cells of "riscv,delegate" (or its
    old name), the length of "interrupts-extended", the IMSIC of
    "msi-parent" and the one of the first child *)
Record aplic_node : Set := AplicNode {
  an_children : list Z;
  an_delegate : list Z;
  an_ext_len : option Z;
  an_imsic : option imsic_map;
  an_child : option (option imsic_map); (* the first child, and its IMSIC *)
}.

(** -1: none. *)
Fixpoint child_index_from (i : Z) (children : list Z) (phandle : Z) : Z :=
  match children with
  | [] => -1
  | c :: children => if c =? phandle then i else child_index_from (i + 1) children phandle
  end.
Definition child_index (n : aplic_node) (phandle : Z) : Z := child_index_from 0 (an_children n) phandle.

(** One entry of the delegation: the stores of its sources. *)
Definition delegate_one (base sources : Z) (n : aplic_node) (child first last : Z) : stores :=
  let idx := child_index n child in
  if (idx <? 0) || (first =? 0) || (last <? first) || (sources <? last) then []
  else (fun src => (base +! APLIC_SOURCECFG src, Z.lor APLIC_SOURCECFG_D idx)) <$> from_to first last.

Fixpoint delegate_loop (base sources : Z) (n : aplic_node) (cells : list Z) : stores :=
  match cells with
  | child :: first :: last :: rest => delegate_one base sources n child first last ++ delegate_loop base sources n rest
  | _ => []
  end.

Definition aplic_reset (base sources : Z) : stores :=
  (base +! APLIC_DOMAINCFG, 0) ::
  ((fun word => (base +! APLIC_CLRIE word, 0xffffffff)) <$> from_to 0 (sources / 32)) ++
  (from_to 1 sources ≫= fun src => [(base +! APLIC_SOURCECFG src, 0); (base +! APLIC_TARGET src, 1)]).

Definition aplic_idcs (base : Z) (n : aplic_node) : stores :=
  below (match an_ext_len n with Some len => len / 8 | None => 0 end) ≫= fun i =>
    [(base +! APLIC_IDC i +! APLIC_IDC_IDELIVERY, 0);
     (base +! APLIC_IDC i +! APLIC_IDC_IFORCE, 0);
     (base +! APLIC_IDC i +! APLIC_IDC_ITHRESHOLD, 1)].

Definition aplic_msis (base : Z) (n : aplic_node) : stores :=
  match msicfg_from_imsic (an_imsic n) with
  | Some cfg => msicfg_write base APLIC_MMSIADDRCFG (Msicfg (mc_base cfg) 0 (mc_lhxw cfg) (mc_hhxs cfg) (mc_hhxw cfg))
  | None => []
  end ++
  match an_child n with
  | Some imsic => match msicfg_from_imsic imsic with Some cfg => msicfg_write base APLIC_SMSIADDRCFG cfg | None => [] end
  | None => []
  end.

Definition aplic_root_init (n : aplic_node) (base sources : Z) : stores :=
  aplic_reset base sources ++ delegate_loop base sources n (an_delegate n) ++ aplic_idcs base n ++ aplic_msis base n.

(** [aplic_probe] of a node that is there: "reg", "riscv,num-sources" (0
    without); the result, the memory regions and the stores *)
Definition aplic_probe {KC : Kconfig} (image : Z) (mlevel : bool) (reg : option (Z * Z)) (num_sources : Z) (n : aplic_node)
    (rs : list memregion) : outcome (Z * list memregion * stores) :=
  if negb mlevel then Ret (0, rs, [])
  else
    match reg with
    | None => Ret (-1, rs, [])
    | Some (base, size) =>
        rs ← memregion_add image rs (wrap base) (wrap size) MEMREGION_MMODE_RW;
        Ret (0, rs, aplic_root_init n (wrap base) (Z.min num_sources 1023))
    end.
End Irqchip.


(** ** What stores leave *)

Lemma stored_app ws ws' a : stored (ws ++ ws') a = match stored ws' a with Some v => Some v | None => stored ws a end.
Proof.
  unfold stored. rewrite foldl_app. generalize (foldl (fun v w => if w.1 =? a then Some w.2 else v) None ws) as v0.
  induction ws' as [|w ws' IH] using rev_ind; [done|]. intros v0. rewrite !foldl_app. cbn [foldl].
  destruct (w.1 =? a); [done|apply IH].
Qed.

Lemma stored_none ws a : (forall w, w ∈ ws -> w.1 <> a) -> stored ws a = None.
Proof.
  unfold stored. induction ws as [|w ws IH] using rev_ind; [done|]. intros Hw. rewrite foldl_app. cbn [foldl].
  rewrite (proj2 (Z.eqb_neq _ _)) by (apply Hw; set_solver). apply IH. intros w' ?. apply Hw. set_solver.
Qed.

(** Something is stored there, and only [v]. *)
Lemma stored_only ws a v :
  (exists w, w ∈ ws /\ w.1 = a) -> (forall w, w ∈ ws -> w.1 = a -> w.2 = v) -> stored ws a = Some v.
Proof.
  unfold stored. induction ws as [|x ws IH] using rev_ind; intros [w [Hin E]] Hv; [by apply elem_of_nil in Hin|].
  rewrite foldl_app. cbn [foldl]. destruct (Z.eqb_spec x.1 a) as [Ex|Nx]; [f_equal; apply Hv; set_solver|].
  apply IH; [exists w; split; [set_solver|done]|]. intros w' ?. apply Hv. set_solver.
Qed.

Lemma from_to_spec first last x : x ∈ from_to first last <-> first <= x <= last.
Proof. unfold from_to. rewrite elem_of_seqZ. lia. Qed.
Lemma below_spec n x : x ∈ below n <-> 0 <= x < n.
Proof. unfold below. rewrite elem_of_seqZ. lia. Qed.

(** ** Contexts hidden from the next stage *)

(** The entries of "interrupts-extended" stay where they are, and none is a
    machine-level one any more. *)
Lemma plic_invalidate_spec ext :
  length (plic_invalidate ext) = length ext /\
  forall i c, ext !! i = Some c ->
    plic_invalidate ext !! i = Some (if Nat.odd i && (c =? IRQ_M_EXT) then 0xffffffff else c).
Proof.
  remember (length ext) as k eqn:Ek. revert ext Ek.
  induction k as [k IH] using lt_wf_ind. intros [|intc [|irq rest]] ->; [done| |].
  - split; [done|]. intros [|i] c; [by intros [= ->]|done].
  - destruct (IH (length rest) ltac:(cbn; lia) rest eq_refl) as [IHl IHi]. cbn [plic_invalidate length]. split; [by rewrite IHl|].
    intros [|[|i]] c; [by intros [= ->]|intros [= ->]; cbn; by destruct (c =? IRQ_M_EXT)|].
    intros Hc. rewrite (Nat.odd_succ_succ i). exact (IHi _ _ Hc).
Qed.

(** Where the edits succeed, exactly the machine-level controllers are
    disabled. *)
Lemma disable_mlevel_ok by_phandle nodes :
  disable_mlevel by_phandle 0 nodes =
  (0, (fun n => (n.1, n.2 && negb (irqchip_is_mlevel by_phandle (Some n.1)))) <$> nodes).
Proof.
  induction nodes as [|[n enabled] nodes IH]; [done|]. cbn [disable_mlevel fmap list_fmap fst snd]. rewrite IH.
  destruct (irqchip_is_mlevel by_phandle (Some n)); cbn [negb]; [by rewrite andb_false_r|by rewrite andb_true_r].
Qed.

(** A controller with an interrupt of its own is machine-level by that one;
    a chain of "msi-parent" that leads nowhere in four steps is not. *)
Lemma mlevel_loop_chain by_phandle n depth :
  iq_first n = None -> by_phandle (iq_msi_parent n) = Some n -> mlevel_loop by_phandle depth (Some n) = false.
Proof. intros Hf Hp. induction depth as [|depth IH]; [done|]. cbn [mlevel_loop]. by rewrite Hf, Hp. Qed.

(** The bits that are enough to number [n] harts. *)
Lemma log2_ceil_spec n : 0 < n <= 2 ^ 32 -> log2_ceil n = Z.log2_up n.
Proof.
  intros Hn. assert (Z.log2_up n <= 32) by (apply Z.log2_up_le_pow2; lia). pose proof (Z.log2_up_nonneg n).
  unfold log2_ceil. assert (forall fuel bits, 0 <= bits <= Z.log2_up n -> Z.log2_up n <= bits + Z.of_nat fuel ->
    log2_loop fuel bits n = Z.log2_up n) as Hl; [|apply Hl; cbn; lia].
  induction fuel as [|fuel IH]; intros bits Hb Hf; cbn [log2_loop]; [lia|].
  pose proof (Z.log2_up_le_pow2 n bits ltac:(lia)). destruct (Z.ltb_spec (2 ^ bits) n); [apply IH; lia|lia].
Qed.

Section IrqchipProps.
Context {AR : Arch}.

Lemma offset_fits base off : is_ulong base -> 0 <= off -> base + off < 2 ^ XLEN -> base +! off = base + off.
Proof. intros [? _] ? ?. apply wrap_small. unfold is_ulong. lia. Qed.

Lemma small_fits x : 0 <= x < 2 ^ 32 -> is_ulong x.
Proof. intros. assert (2 ^ 32 <= 2 ^ XLEN) by (apply pow2_le; pose proof XLEN_bounds; lia). unfold is_ulong. lia. Qed.

(** * The PLIC *)

(** The stores of [plic_init], addresses without wrap-around. *)
Definition plic_store (base sources contexts : Z) (w : Z * Z) : Prop :=
  (exists src, 1 <= src <= sources /\ w = (base + 4 * src, 0)) \/
  (exists ctx word, 0 <= ctx < contexts /\ 0 <= word <= sources / 32 /\ w = (base + (0x2000 + 0x80 * ctx + 4 * word), 0)) \/
  (exists ctx, 0 <= ctx < contexts /\ w = (base + (0x200000 + 0x1000 * ctx), PLIC_THRESHOLD_MAX)).

Section Plic.
Context (base sources contexts : Z).
Hypothesis base_ok : is_ulong base.
Hypothesis plic_fits : base + 0x4000000 < 2 ^ XLEN.
Hypothesis sources_ok : 0 <= sources <= PLIC_MAX_SOURCES.
Hypothesis contexts_ok : 0 <= contexts <= PLIC_MAX_CONTEXTS.

Lemma plic_word word : 0 <= word <= sources / 32 -> word <= 31.
Proof. unfold PLIC_MAX_SOURCES in *. Z.to_euclidean_division_equations. lia. Qed.

Lemma plic_init_stores w : w ∈ plic_init base sources contexts <-> plic_store base sources contexts w.
Proof.
  unfold PLIC_MAX_SOURCES, PLIC_MAX_CONTEXTS in *. pose proof base_ok as [Hb0 _].
  assert (forall src, 1 <= src <= sources -> base +! PLIC_PRIORITY src = base + 4 * src) as E1.
  { intros. unfold PLIC_PRIORITY, umul. rewrite wrap_small by (apply small_fits; lia). by rewrite offset_fits by (done || lia). }
  assert (forall ctx word, 0 <= ctx < contexts -> 0 <= word <= sources / 32 ->
    base +! PLIC_ENABLE ctx +! 4 *! word = base + (0x2000 + 0x80 * ctx + 4 * word)) as E2.
  { intros ctx word ? Hw. pose proof (plic_word word Hw). unfold PLIC_ENABLE, umul.
    rewrite !(wrap_small (_ * _)) by (apply small_fits; lia). rewrite (offset_fits 0x2000) by ((by apply small_fits) || lia).
    rewrite (offset_fits base) by (done || lia). rewrite offset_fits by (unfold is_ulong in *; lia). lia. }
  assert (forall ctx, 0 <= ctx < contexts -> base +! PLIC_THRESHOLD ctx = base + (0x200000 + 0x1000 * ctx)) as E3.
  { intros. unfold PLIC_THRESHOLD, umul. rewrite (wrap_small (_ * _)) by (apply small_fits; lia).
    rewrite (offset_fits 0x200000) by ((by apply small_fits) || lia). by rewrite offset_fits by (done || lia). }
  unfold plic_init, plic_store. rewrite elem_of_app, list_elem_of_fmap, list_elem_of_bind.
  split.
  - intros [(src & -> & Hs%from_to_spec)|(ctx & Hin & Hc%below_spec)]; [left; exists src; by rewrite E1|right].
    apply elem_of_app in Hin as [(word & -> & Hw%from_to_spec)%list_elem_of_fmap|Hin%list_elem_of_singleton].
    + left. exists ctx, word. by rewrite E2.
    + right. exists ctx. by rewrite Hin, E3.
  - intros [(src & Hs & ->)|[(ctx & word & Hc & Hw & ->)|(ctx & Hc & ->)]]; [left; exists src|right; exists ctx..].
    + rewrite E1 by done. split; [done|by apply from_to_spec].
    + split; [|by apply below_spec]. apply elem_of_app. left. apply list_elem_of_fmap. exists word.
      rewrite E2 by done. split; [done|by apply from_to_spec].
    + split; [|by apply below_spec]. apply elem_of_app. right. rewrite E3 by done. apply list_elem_of_here.
Qed.

Lemma plic_stored a v : plic_store base sources contexts (a, v) -> stored (plic_init base sources contexts) a = Some v.
Proof.
  intros Hw. apply stored_only; [exists (a, v); split; [by apply plic_init_stores|done]|].
  intros [a' v'] Hin%plic_init_stores E. cbn in E |- *. subst a'. unfold PLIC_MAX_SOURCES, PLIC_MAX_CONTEXTS in *.
  destruct Hw as [(? & ? & [= -> ->])|[(? & ? & ? & ?%plic_word & [= -> ->])|(? & ? & [= -> ->])]],
    Hin as [(? & ? & [= E ->])|[(? & ? & ? & ?%plic_word & [= E ->])|(? & ? & [= E ->])]]; try done; lia.
Qed.
End Plic.

(** A PLIC of the device tree is left with every source at priority 0 and,
    for each of its contexts, nothing enabled and the threshold at its
    maximum; and every store is inside the 64 MB a PLIC has, whatever number
    of sources and contexts the tree claims. *)
Theorem plic_quiet (base ndev len : Z) :
  is_ulong base -> base + 0x4000000 < 2 ^ XLEN -> 0 <= ndev -> 0 <= len ->
  exists ws, plic_probe (Some (PlicNode (Some base) ndev (Some len))) = Some ws /\
    let sources := Z.min ndev 1023 in
    let contexts := Z.min (len / 8) 15872 in
    (forall src, 1 <= src <= sources -> stored ws (base + 4 * src) = Some 0) /\
    (forall ctx word, 0 <= ctx < contexts -> 0 <= word <= sources / 32 ->
       stored ws (base + (0x2000 + 0x80 * ctx + 4 * word)) = Some 0) /\
    (forall ctx, 0 <= ctx < contexts -> stored ws (base + (0x200000 + 0x1000 * ctx)) = Some 7) /\
    forall w, w ∈ ws -> base <= w.1 /\ w.1 + 4 <= base + 0x4000000.
Proof.
  intros Hb Hf Hn Hl. eexists. split; [reflexivity|]. cbv zeta.
  assert (Z.min len (8 * PLIC_MAX_CONTEXTS) / 8 = Z.min (len / 8) 15872) as E
    by (unfold PLIC_MAX_CONTEXTS; Z.to_euclidean_division_equations; lia).
  assert (0 <= Z.min (len / 8) 15872 <= PLIC_MAX_CONTEXTS) as Hc
    by (unfold PLIC_MAX_CONTEXTS; Z.to_euclidean_division_equations; lia).
  cbn [pn_ndev pn_reg pn_ext_len mbind option_bind]. rewrite E, (wrap_small base) by done. clear E.
  set (contexts := Z.min (len / 8) 15872) in *. set (sources := Z.min ndev 1023).
  assert (0 <= sources <= PLIC_MAX_SOURCES) as Hs by (unfold sources, PLIC_MAX_SOURCES; lia).
  change (Z.min ndev PLIC_MAX_SOURCES) with sources.
  split_and!; intros; try (apply plic_stored; [done..|]; unfold plic_store; eauto 10).
  all: apply plic_init_stores in H; [|done..]; unfold PLIC_MAX_SOURCES, PLIC_MAX_CONTEXTS in *;
    destruct H as [(? & ? & ->)|[(? & ? & ? & Hw & ->)|(? & ? & ->)]]; cbn [fst];
    try pose proof (plic_word sources Hs _ Hw); lia.
Qed.

(** * The APLIC *)

(** The child a source is delegated to: by the last entry that names it. *)
Fixpoint delegated_to (n : aplic_node) (sources : Z) (cells : list Z) (src : Z) : option Z :=
  match cells with
  | child :: first :: last :: rest =>
      match delegated_to n sources rest src with
      | Some idx => Some idx
      | None =>
          if bool_decide (0 <= child_index n child /\ 0 < first /\ first <= src <= last /\ last <= sources)
          then Some (child_index n child) else None
      end
  | _ => None
  end.

Section Aplic.
Context (base sources : Z) (n : aplic_node).
Abbreviation idcs := (match an_ext_len n with Some len => len / 8 | None => 0 end).
Hypothesis base_ok : is_ulong base.
Hypothesis aplic_fits : base + (0x4000 + 32 * idcs) < 2 ^ XLEN.
Hypothesis idcs_ok : 0 <= idcs < 2 ^ 26.
Hypothesis sources_ok : 0 <= sources <= 1023.
Hypothesis cells_ok : Forall (fun c => 0 <= c) (an_delegate n).

Lemma aplic_offset off : 0 <= off <= 0x4000 -> base +! off = base + off.
Proof. intros. apply offset_fits; [done|lia..]. Qed.

Lemma aplic_source src : 1 <= src <= sources ->
  base +! APLIC_SOURCECFG src = base + 4 * src /\ base +! APLIC_TARGET src = base + (0x3000 + 4 * src).
Proof.
  intros. unfold APLIC_SOURCECFG, APLIC_TARGET, umul. rewrite !(wrap_small (_ * _)) by (apply small_fits; lia).
  rewrite !(offset_fits 4), !(offset_fits 0x3004) by (pose proof (small_fits 0x8000 ltac:(lia)); unfold is_ulong in *; lia).
  rewrite !aplic_offset by lia. split; f_equal; lia.
Qed.

Lemma aplic_clrie word : 0 <= word <= sources / 32 ->
  base +! APLIC_CLRIE word = base + (0x1f00 + 4 * word) /\ word <= 31.
Proof.
  intros. assert (word <= 31) by (Z.to_euclidean_division_equations; lia). split; [|done].
  unfold APLIC_CLRIE, umul. rewrite (wrap_small (_ * _)) by (apply small_fits; lia).
  rewrite (offset_fits 0x1f00) by (pose proof (small_fits 0x8000 ltac:(lia)); unfold is_ulong in *; lia).
  by rewrite aplic_offset by lia.
Qed.

Lemma aplic_idc i k : 0 <= i < idcs -> 0 <= k <= 8 -> base +! APLIC_IDC i +! k = base + (0x4000 + 32 * i + k).
Proof.
  intros. unfold APLIC_IDC, umul. rewrite (wrap_small (_ * _)) by (apply small_fits; lia). pose proof base_ok as [? _].
  rewrite (offset_fits 0x4000) by ((by apply small_fits) || lia). rewrite (offset_fits base) by (done || lia).
  rewrite offset_fits by (unfold is_ulong; lia). lia.
Qed.

(** *** What each part stores, and where *)

Lemma aplic_reset_stores w : w ∈ aplic_reset base sources <->
  w = (base, 0) \/ (exists word, 0 <= word <= sources / 32 /\ w = (base + (0x1f00 + 4 * word), 0xffffffff)) \/
  exists src, 1 <= src <= sources /\ (w = (base + 4 * src, 0) \/ w = (base + (0x3000 + 4 * src), 1)).
Proof.
  assert (base +! APLIC_DOMAINCFG = base) as E0 by (unfold APLIC_DOMAINCFG; rewrite aplic_offset by lia; lia).
  unfold aplic_reset. rewrite elem_of_cons, elem_of_app, list_elem_of_fmap, list_elem_of_bind, E0. split.
  - intros [->|[(word & -> & Hw%from_to_spec)|(src & Hin & Hs%from_to_spec)]]; [by left|right; left|right; right].
    + exists word. by destruct (aplic_clrie word Hw) as [-> _].
    + exists src. split; [done|]. destruct (aplic_source src Hs) as [E1 E2]. rewrite E1, E2 in Hin. set_solver.
  - intros [->|[(word & Hw & ->)|(src & Hs & Hin)]]; [by left|right; left|right; right].
    + exists word. destruct (aplic_clrie word Hw) as [-> _]. split; [done|by apply from_to_spec].
    + exists src. split; [|by apply from_to_spec]. destruct (aplic_source src Hs) as [-> ->]. set_solver.
Qed.

Lemma delegate_one_spec child first last src :
  0 <= first -> 1 <= src <= sources ->
  stored (delegate_one base sources n child first last) (base + 4 * src) =
  if bool_decide (0 <= child_index n child /\ 0 < first /\ first <= src <= last /\ last <= sources)
  then Some (Z.lor APLIC_SOURCECFG_D (child_index n child)) else None.
Proof.
  intros Hf Hs. unfold delegate_one.
  destruct (Z.ltb_spec (child_index n child) 0); [rewrite bool_decide_eq_false_2 by lia; done|].
  destruct (Z.eqb_spec first 0); [rewrite bool_decide_eq_false_2 by lia; done|].
  destruct (Z.ltb_spec last first); [rewrite bool_decide_eq_false_2 by lia; done|].
  destruct (Z.ltb_spec sources last); [rewrite bool_decide_eq_false_2 by lia; done|]. cbn [orb].
  case_bool_decide as Hc.
  - apply stored_only; [|by intros w (x & -> & _)%list_elem_of_fmap]. exists (base +! APLIC_SOURCECFG src, Z.lor APLIC_SOURCECFG_D (child_index n child)).
    split; [|exact (proj1 (aplic_source src Hs))]. apply list_elem_of_fmap. exists src. split; [done|]. apply from_to_spec. lia.
  - apply stored_none. intros w (x & -> & Hx%from_to_spec)%list_elem_of_fmap. cbn [fst].
    destruct (aplic_source x ltac:(lia)) as [-> _]. lia.
Qed.

Lemma delegate_one_sources child first last w :
  0 <= first -> w ∈ delegate_one base sources n child first last -> exists src, 1 <= src <= sources /\ w.1 = base + 4 * src.
Proof.
  intros Hf. unfold delegate_one.
  destruct (Z.ltb_spec (child_index n child) 0); [by intros ?%elem_of_nil|].
  destruct (Z.eqb_spec first 0); [by intros ?%elem_of_nil|].
  destruct (Z.ltb_spec last first); [by intros ?%elem_of_nil|].
  destruct (Z.ltb_spec sources last); [by intros ?%elem_of_nil|]. cbn [orb].
  intros (x & -> & Hx%from_to_spec)%list_elem_of_fmap. exists x. cbn [fst].
  destruct (aplic_source x ltac:(lia)) as [-> _]. lia.
Qed.

Lemma delegate_loop_spec cells src :
  Forall (fun c => 0 <= c) cells -> 1 <= src <= sources ->
  stored (delegate_loop base sources n cells) (base + 4 * src) =
  (fun idx => Z.lor APLIC_SOURCECFG_D idx) <$> delegated_to n sources cells src.
Proof.
  intros Hc Hs. remember (length cells) as k eqn:Ek. revert cells Ek Hc.
  induction k as [k IH] using lt_wf_ind. intros [|child [|first [|last rest]]] -> Hc; [done..|].
  cbn [delegate_loop delegated_to]. rewrite !Forall_cons in Hc. destruct Hc as (_ & Hf & _ & Hr).
  rewrite stored_app, (IH (length rest)) by (cbn; lia || done). destruct (delegated_to n sources rest src); [done|]. cbn.
  rewrite delegate_one_spec by done. by case_bool_decide.
Qed.

Lemma delegate_loop_sources cells w :
  Forall (fun c => 0 <= c) cells -> w ∈ delegate_loop base sources n cells ->
  exists src, 1 <= src <= sources /\ w.1 = base + 4 * src.
Proof.
  intros Hc. remember (length cells) as k eqn:Ek. revert cells Ek Hc.
  induction k as [k IH] using lt_wf_ind. intros [|child [|first [|last rest]]] -> Hc; cbn [delegate_loop]; [by intros ?%elem_of_nil..|].
  rewrite !Forall_cons in Hc. destruct Hc as (_ & Hf & _ & Hr).
  intros [Hin|Hin]%elem_of_app; [by eapply delegate_one_sources|]. apply (IH (length rest) ltac:(cbn; lia) rest eq_refl Hr Hin).
Qed.

Lemma aplic_idcs_stores w : w ∈ aplic_idcs base n <->
  exists i, 0 <= i < idcs /\ (w = (base + (0x4000 + 32 * i), 0) \/ w = (base + (0x4000 + 32 * i + 4), 0) \/ w = (base + (0x4000 + 32 * i + 8), 1)).
Proof.
  unfold aplic_idcs, APLIC_IDC_IDELIVERY, APLIC_IDC_IFORCE, APLIC_IDC_ITHRESHOLD. rewrite list_elem_of_bind. split.
  - intros (i & Hin & Hi%below_spec). exists i. split; [done|]. rewrite !aplic_idc, Z.add_0_r in Hin by lia. set_solver.
  - intros (i & Hi & Hin). exists i. split; [|by apply below_spec]. rewrite !aplic_idc, Z.add_0_r by lia. set_solver.
Qed.

Lemma msicfg_write_at off cfg w : 0 <= off <= 0x3000 -> w ∈ msicfg_write base off cfg -> w.1 = base + off \/ w.1 = base + (off + 4).
Proof.
  intros Ho Hin. unfold msicfg_write in Hin. rewrite (aplic_offset off) in Hin by lia. pose proof base_ok as [? _].
  rewrite (offset_fits (base + off)) in Hin by (unfold is_ulong; lia).
  apply elem_of_cons in Hin as [->|Hin%list_elem_of_singleton]; [by left|right]. rewrite Hin. cbn. lia.
Qed.

Lemma aplic_msis_at w : w ∈ aplic_msis base n -> base + 0x1bc0 <= w.1 <= base + 0x1bcc.
Proof.
  unfold aplic_msis. intros [Hin|Hin]%elem_of_app.
  - destruct (msicfg_from_imsic (an_imsic n)); [|by apply elem_of_nil in Hin].
    apply msicfg_write_at in Hin; unfold APLIC_MMSIADDRCFG in *; lia.
  - destruct (an_child n) as [m|]; [|by apply elem_of_nil in Hin].
    destruct (msicfg_from_imsic m); [|by apply elem_of_nil in Hin].
    apply msicfg_write_at in Hin; unfold APLIC_SMSIADDRCFG in *; lia.
Qed.

(** No store of any part but [aplic_reset] and the delegation at an address
    of the source configuration, and the like. *)
Lemma aplic_tail_none a : base <= a < base + 0x1bc0 \/ base + 0x1bcc < a < base + 0x4000 ->
  stored (aplic_idcs base n ++ aplic_msis base n) a = None.
Proof.
  intros Ha. apply stored_none. intros w [Hin|Hin]%elem_of_app; [|apply aplic_msis_at in Hin; lia].
  apply aplic_idcs_stores in Hin as (i & Hi & [->|[->| ->]]); cbn [fst]; lia.
Qed.

Lemma aplic_reset_stored a v : (a, v) ∈ aplic_reset base sources -> stored (aplic_reset base sources) a = Some v.
Proof.
  intros Hin. apply stored_only; [by exists (a, v)|]. intros [a' v'] Hin' E. cbn in E |- *. subst a'.
  apply aplic_reset_stores in Hin, Hin'.
  destruct Hin as [E|[(? & Hw & E)|(? & ? & [E|E])]], Hin' as [E'|[(? & Hw' & E')|(? & ? & [E'|E'])]];
    apply pair_equal_spec in E as [Ea Ev], E' as [Ea' Ev']; try congruence;
    try pose proof (proj2 (aplic_clrie _ Hw)); try pose proof (proj2 (aplic_clrie _ Hw')); lia.
Qed.

(** Below the delegation: what [aplic_reset] stored. *)
Lemma aplic_kept a v :
  (a, v) ∈ aplic_reset base sources -> base <= a < base + 0x1bc0 \/ base + 0x1bcc < a < base + 0x4000 ->
  (forall src, 1 <= src <= sources -> a <> base + 4 * src) -> stored (aplic_root_init n base sources) a = Some v.
Proof.
  intros Hin Ha Hns. unfold aplic_root_init. rewrite !stored_app, <- stored_app, aplic_tail_none by done.
  rewrite (stored_none (delegate_loop _ _ _ _)); [by apply aplic_reset_stored|].
  intros w Hw E. apply delegate_loop_sources in Hw as (src & Hs & Es); [|done]. apply (Hns src Hs). congruence.
Qed.

(** C23: The root domain as it is left: off, with every source's interrupt
    disabled, its target the lowest priority, its configuration delegated to
    the child the last entry of the device tree that names it says, and
    inactive without one; no delivery to a hart in direct mode.  Entries
    with an unknown child or sources the controller does not have count for
    nothing. *)
Theorem aplic_configured :
  let ws := aplic_root_init n base sources in
  stored ws base = Some 0 /\
  (forall word, 0 <= word <= sources / 32 -> stored ws (base + (0x1f00 + 4 * word)) = Some 0xffffffff) /\
  (forall src, 1 <= src <= sources ->
    stored ws (base + (0x3000 + 4 * src)) = Some 1 /\
    stored ws (base + 4 * src) =
      Some match delegated_to n sources (an_delegate n) src with Some idx => Z.lor APLIC_SOURCECFG_D idx | None => 0 end) /\
  (forall i, 0 <= i < idcs -> stored ws (base + (0x4000 + 32 * i)) = Some 0) /\
  forall w, w ∈ ws -> base <= w.1 /\ w.1 + 4 <= base + (0x4000 + 32 * idcs).
Proof.
  cbv zeta. split_and!.
  - apply aplic_kept; [apply aplic_reset_stores; auto|lia..].
  - intros word Hw. pose proof (proj2 (aplic_clrie _ Hw)). apply aplic_kept; [apply aplic_reset_stores; eauto|lia..].
  - intros src Hs. split; [apply aplic_kept; [apply aplic_reset_stores; eauto 6|lia..]|].
    unfold aplic_root_init. rewrite !stored_app, <- stored_app, aplic_tail_none by lia.
    rewrite delegate_loop_spec by done. destruct (delegated_to n sources (an_delegate n) src); [done|]. cbn.
    apply aplic_reset_stored, aplic_reset_stores. eauto 6.
  - intros i Hi. unfold aplic_root_init. rewrite !stored_app.
    rewrite (stored_none (aplic_msis base n)) by (intros w Hw%aplic_msis_at; lia).
    rewrite (stored_only (aplic_idcs base n) _ 0); [done| |].
    + exists (base + (0x4000 + 32 * i), 0). split; [|done]. apply aplic_idcs_stores. eauto.
    + intros w (j & Hj & [->|[->| ->]])%aplic_idcs_stores E; cbn in E |- *; [done..|lia].
  - intros w [Hin|[Hin|[Hin|Hin]%elem_of_app]%elem_of_app]%elem_of_app.
    + apply aplic_reset_stores in Hin as [->|[(word & Hw & ->)|(src & Hs & [->| ->])]]; cbn [fst];
        try pose proof (proj2 (aplic_clrie _ Hw)); lia.
    + apply delegate_loop_sources in Hin as (src & Hs & ->); [lia|done].
    + apply aplic_idcs_stores in Hin as (i & Hi & [->|[->| ->]]); cbn [fst]; lia.
    + apply aplic_msis_at in Hin. lia.
Qed.
End Aplic.
End IrqchipProps.
