(* ===== verification/Imsic.v ===== *)
(** Machine-level interrupt files: [drivers/irqchip/imsic.c].  The IPIs of a
    hart and the message signalled interrupts of the monitor's own drivers
    are identities of its file; a claim through [mtopei] takes the lowest one
    that is pending and enabled.  At the end, the interrupt controllers of a
    small machine. *)

From S2P Require Import Prelude Arch Memregion Hart Irqchip.

#[local] Open Scope Z_scope.


Definition IMSIC_FILE_SIZE : Z := 0x1000.
Definition IMSIC_SETEIPNUM_LE : Z := 0.
Definition IMSIC_IPI_ID : Z := 1.
Definition IMSIC_MSI_FIRST_ID : Z := 2.
Definition IMSIC_MSIS : Z := 4.

(** An interrupt file: enabled and pending identities (the first word of
    them), [eidelivery] and [eithreshold] *)
Record imsic_file : Set := ImsicFile { if_eie : Z; if_eip : Z; if_delivery : Z; if_threshold : Z }.
#[export] Instance imsic_file_eta : Settable imsic_file := fun f =>
  ImsicFile (if_eie f) (if_eip f) (if_delivery f) (if_threshold f).

(** A handler and its argument *)
Abbreviation handler := (nat * Z)%type.

(** The driver's tables, by hart index where they are a hart's, the files,
    and the handlers run so far (the hart, the handler; the last one first) *)
Record imsic_state : Type := ImsicState {
  im_files : Z -> Z; (* address, 0: none *)
  im_msis : list handler; (* the [nr_msis] first of [msis] *)
  im_ids : Z -> Z; (* msi_ids *)
  im_hw : Z -> imsic_file;
  im_calls : list (Z * handler);
}.
#[export] Instance imsic_state_eta : Settable imsic_state := fun s =>
  ImsicState (im_files s) (im_msis s) (im_ids s) (im_hw s) (im_calls s).

Section Imsic.
Context {AR : Arch} {KC : Kconfig} {HT : HartTable}.

Definition file_set (s : imsic_state) (hart : Z) (f : imsic_file) : imsic_state :=
  s <| im_hw := fun h => if h =? hart then f else im_hw s h |>.

Definition imsic_hart_init (s : imsic_state) (self : Z) : imsic_state :=
  file_set s self ((im_hw s self) <| if_eie := Z.lor (BIT IMSIC_IPI_ID) (im_ids s self) |>
    <| if_threshold := 0 |> <| if_delivery := 1 |>).

(** A store of [data] to the file at [addr], the driver's or a device's: the
    identity is pending. *)
Definition msi_store (s : imsic_state) (addr data : Z) : imsic_state :=
  if (0 <? data) && (data <? XLEN) then
    s <| im_hw := fun h =>
      if (im_files s h =? addr) && truth addr then (im_hw s h) <| if_eip := Z.setbit (if_eip (im_hw s h)) data |>
      else im_hw s h |>
  else s.

Definition imsic_ipi_send (s : imsic_state) (index : Z) : imsic_state :=
  if (index <? CONFIG_PLATFORM_HART_COUNT) && truth (im_files s index)
  then msi_store s (im_files s index +! IMSIC_SETEIPNUM_LE) IMSIC_IPI_ID else s.

(** The identities of a word, lowest first. *)
Definition identities (word : Z) : list Z := filter (fun id => Z.testbit word id = true) (seqZ 1 (XLEN - 1)).

(** [csr_swap(CSR_MTOPEI, 0)]: the top interrupt, 0 without one, no longer
    pending.  This is the claim of a file whose [eithreshold] is 0, as
    [imsic_hart_init] leaves it and nothing changes it after. *)
Definition mtopei_claim (s : imsic_state) (self : Z) : Z * imsic_state :=
  let f := im_hw s self in
  match identities (Z.land (if_eip f) (if_eie f)) with
  | [] => (0, s)
  | id :: _ => (Z.lor (Z.shiftl id 16) id, file_set s self (f <| if_eip := Z.clearbit (if_eip f) id |>))
  end.

(** The handler of a claimed interrupt, if there is one. *)
Definition msi_handler (s : imsic_state) (top : Z) : option handler :=
  let msi := Z.shiftr top 16 -! IMSIC_MSI_FIRST_ID in
  if msi <? IMSIC_MSIS then im_msis s !! Z.to_nat msi else None.

(** [None]: the rounds were not enough. *)
Fixpoint imsic_ipi_clear (fuel : nat) (s : imsic_state) (self : Z) : option imsic_state :=
  match fuel with
  | 0%nat => None
  | S fuel =>
      let '(top, s) := mtopei_claim s self in
      if negb (truth top) then Some s
      else
        imsic_ipi_clear fuel
          match msi_handler s top with
          | Some h => s <| im_calls := (self, h) :: im_calls s |>
          | None => s
          end self
  end.

(** The address and data of the MSI. *)
Definition irqchip_msi_request (s : imsic_state) (self : Z) (h : handler) : option (Z * Z) * imsic_state :=
  if negb (truth (im_files s self)) then (None, s)
  else if Z.of_nat (length (im_msis s)) =? IMSIC_MSIS then (None, s)
  else
    let id := IMSIC_MSI_FIRST_ID + Z.of_nat (length (im_msis s)) in
    let s := s <| im_msis := im_msis s ++ [h] |> in
    let s := s <| im_ids := fun i => if i =? self then Z.lor (im_ids s self) (BIT id) else im_ids s i |> in
    let f := im_hw s self in
    (Some (im_files s self +! IMSIC_SETEIPNUM_LE, id), file_set s self (f <| if_eie := Z.lor (if_eie f) (BIT id) |>)).

(** ** The files of a device tree node *)

(** One "reg" region: the hart ids of the entries of "interrupts-extended"
    that are left, [None] for one that is no hart's. *)
Fixpoint region_files (base off size : Z) (ext : list (option Z)) (files : Z -> Z) (mapped : Z)
    : (Z -> Z) * Z * list (option Z) :=
  match ext with
  | Some hartid :: rest =>
      if off <? size then
        let i := hart_index ht_ids hartid in
        if 0 <=? i
        then region_files base (off + IMSIC_FILE_SIZE) size rest (fun h => if h =? i then wrap (base + off) else files h) (mapped + 1)
        else region_files base (off + IMSIC_FILE_SIZE) size rest files mapped
      else (files, mapped, ext)
  | _ => (files, mapped, ext)
  end.

(** [protect]: CONFIG_IRQCHIP_IMSIC_PROTECT *)
Fixpoint imsic_map_files (protect : bool) (image : Z) (regs : list (Z * Z)) (ext : list (option Z))
    (rs : list memregion) (files : Z -> Z) (mapped : Z) : outcome (list memregion * (Z -> Z) * Z) :=
  match regs with
  | [] => Ret (rs, files, mapped)
  | (base, size) :: regs =>
      rs ← memregion_add image rs (wrap base) (wrap size) (if protect then MEMREGION_MMODE_RW else MEMREGION_SHARED_RW);
      let '(files, mapped, ext) := region_files base 0 size ext files mapped in
      imsic_map_files protect image regs ext rs files mapped
  end.

(** [imsic_probe] of a node that is there: the result, whether the backend is
    registered, and the tables *)
Definition imsic_probe (protect mlevel smaia : bool) (image : Z) (regs : list (Z * Z)) (ext : list (option Z))
    (rs : list memregion) (files : Z -> Z) : outcome (Z * bool * list memregion * (Z -> Z)) :=
  if negb mlevel then Ret (0, false, rs, files)
  else if negb smaia then Ret (-1, false, rs, files)
  else
    '(rs, files, mapped) ← imsic_map_files protect image regs ext rs files 0;
    Ret (0, truth mapped, rs, files).

(** * A claim empties the file *)

Definition pending (s : imsic_state) (self : Z) : list Z :=
  identities (Z.land (if_eip (im_hw s self)) (if_eie (im_hw s self))).

Lemma identities_spec word id : id ∈ identities word <-> 0 < id < XLEN /\ Z.testbit word id = true.
Proof. unfold identities. rewrite list_elem_of_filter, elem_of_seqZ. split; intros [? ?]; split; done || lia. Qed.

Lemma identities_clear word id rest : identities word = id :: rest -> identities (Z.clearbit word id) = rest.
Proof.
  intros E. assert (NoDup (identities word)) as Hn by (apply NoDup_filter, NoDup_seqZ).
  assert (0 < id < XLEN) as Hid by (apply (identities_spec word); rewrite E; set_solver).
  assert (identities (Z.clearbit word id) = filter (fun x => x <> id) (identities word)) as ->.
  { unfold identities. rewrite list_filter_filter. apply list_filter_iff. intros x.
    rewrite Z.clearbit_eqb, andb_true_iff, negb_true_iff, Z.eqb_neq by lia. naive_solver. }
  rewrite E in Hn |- *. apply NoDup_cons in Hn as [Hni _]. rewrite filter_cons_False by naive_solver.
  clear E. induction rest as [|x rest IH]; [done|]. rewrite filter_cons_True by set_solver. f_equal. apply IH. set_solver.
Qed.

Lemma top_identity id : 0 < id < XLEN -> truth (Z.lor (Z.shiftl id 16) id) = true /\ Z.shiftr (Z.lor (Z.shiftl id 16) id) 16 = id.
Proof.
  intros Hid. pose proof XLEN_bounds. split.
  - apply truth_true. intros E%Z.lor_eq_0_iff. lia.
  - rewrite Z.shiftr_lor, Z.shiftr_shiftl_l, Z.shiftl_0_r by lia.
    rewrite (Z.shiftr_div_pow2 id), (Z.div_small id) by lia. apply Z.lor_0_r.
Qed.

(** The handlers of identities, in the order they are claimed. *)
Definition handlers_of (s : imsic_state) (self : Z) (ids : list Z) : list (Z * handler) :=
  omap (fun id => (fun h => (self, h)) <$> (if IMSIC_MSI_FIRST_ID <=? id then im_msis s !! Z.to_nat (id - IMSIC_MSI_FIRST_ID) else None)) ids.

Lemma msi_handler_spec s id : 0 < id < XLEN -> (length (im_msis s) <= 4)%nat ->
  msi_handler s (Z.lor (Z.shiftl id 16) id) =
  if IMSIC_MSI_FIRST_ID <=? id then im_msis s !! Z.to_nat (id - IMSIC_MSI_FIRST_ID) else None.
Proof.
  intros Hid Hl. unfold msi_handler, IMSIC_MSI_FIRST_ID, IMSIC_MSIS. rewrite (proj2 (top_identity id Hid)). pose proof XLEN_bounds.
  assert (2 ^ 32 <= 2 ^ XLEN) by (apply pow2_le; lia). unfold usub.
  destruct (Z.leb_spec 2 id); [rewrite wrap_small by (unfold is_ulong; lia)|rewrite wrap_neg by lia].
  - destruct (Z.ltb_spec (id - 2) 4); [done|]. symmetry. apply lookup_ge_None_2. lia.
  - by rewrite (proj2 (Z.ltb_ge _ _)) by lia.
Qed.

(** Claiming until nothing is left: every identity that was pending and
    enabled is claimed, once, lowest first, and the handlers of those that
    are the monitor's MSIs run, in that order. *)
Lemma imsic_ipi_clear_exact fuel s self :
  (length (im_msis s) <= 4)%nat -> (length (pending s self) < fuel)%nat ->
  exists s', imsic_ipi_clear fuel s self = Some s' /\ pending s' self = [] /\
    im_calls s' = reverse (handlers_of s self (pending s self)) ++ im_calls s /\
    im_msis s' = im_msis s /\ im_ids s' = im_ids s /\ im_files s' = im_files s /\
    forall h, if_eie (im_hw s' h) = if_eie (im_hw s h).
Proof.
  remember (pending s self) as ids eqn:Ei. symmetry in Ei. revert fuel s Ei.
  induction ids as [|id ids IH]; intros fuel s Ei Hl Hf; (destruct fuel as [|fuel]; [cbn in Hf; lia|]);
    cbn [imsic_ipi_clear]; unfold mtopei_claim; fold (pending s self); rewrite Ei.
  - exists s. by rewrite Ei.
  - assert (0 < id < XLEN) as Hid by (apply (identities_spec (Z.land (if_eip (im_hw s self)) (if_eie (im_hw s self)))); unfold pending in Ei; rewrite Ei; set_solver).
    rewrite (proj1 (top_identity id Hid)). cbn [negb].
    set (s1 := file_set s self _).
    assert (pending s1 self = ids) as E1.
    { unfold pending, s1, file_set. cbn [field_update im_hw]. rewrite Z.eqb_refl. cbn [field_update if_eip if_eie].
      rewrite <- (identities_clear _ _ _ Ei). f_equal. apply Z.bits_inj'. intros i Hi.
      rewrite !Z.land_spec, !Z.clearbit_eqb, Z.land_spec by lia.
      by destruct (Z.testbit _ i), (Z.testbit _ i), (id =? i). }
    rewrite msi_handler_spec by done.
    change (im_msis s1) with (im_msis s).
    set (found := if IMSIC_MSI_FIRST_ID <=? id then im_msis s !! Z.to_nat (id - IMSIC_MSI_FIRST_ID) else None).
    assert (forall s2, im_msis s2 = im_msis s1 -> im_hw s2 = im_hw s1 -> im_ids s2 = im_ids s1 -> im_files s2 = im_files s1 ->
      im_calls s2 = (match found with Some h => [(self, h)] | None => [] end) ++ im_calls s ->
      exists s', imsic_ipi_clear fuel s2 self = Some s' /\ pending s' self = [] /\
        im_calls s' = reverse (handlers_of s self (id :: ids)) ++ im_calls s /\
        im_msis s' = im_msis s /\ im_ids s' = im_ids s /\ im_files s' = im_files s /\
        forall h, if_eie (im_hw s' h) = if_eie (im_hw s h)) as Hgo.
    { intros s2 Em Eh Ed Ef Ec. destruct (IH fuel s2) as (s' & ? & ? & Ec' & Em' & Ed' & Ef' & Hh);
        [unfold pending in *; by rewrite Eh|rewrite Em; done|cbn in Hf; lia|].
      exists s'. split_and!; [done|done| |exact (eq_trans Em' Em)|exact (eq_trans Ed' Ed)|exact (eq_trans Ef' Ef)|].
      - rewrite Ec', Ec. unfold handlers_of. rewrite Em. cbn [omap list_omap]. fold found.
        destruct found as [h|]; cbn [fmap option_fmap option_map app]; [|done]. by rewrite reverse_cons, <- app_assoc.
      - intros h. rewrite Hh, Eh. unfold s1, file_set. cbn [field_update im_hw]. by destruct (Z.eqb_spec h self) as [->|]. }
    destruct found; by apply Hgo.
Qed.

(** ** The monitor's own interrupts

    What harts and devices do after a driver was given an MSI: harts are
    initialised (again), any store to any file, IPIs, claims on any hart, and
    other requests. *)

Inductive imsic_step (s : imsic_state) : imsic_state -> Prop :=
  | step_init h : imsic_step s (imsic_hart_init s h)
  | step_store addr data : imsic_step s (msi_store s addr data)
  | step_send index : imsic_step s (imsic_ipi_send s index)
  | step_clear fuel h s' : imsic_ipi_clear fuel s h = Some s' -> imsic_step s s'
  | step_request h hd : imsic_step s (irqchip_msi_request s h hd).2.

(** The identity is the handler's, and enabled on the hart, for good. *)
Record msi_owned (s : imsic_state) (h id addr : Z) (hd : handler) : Prop := {
  mo_few : (length (im_msis s) <= 4)%nat;
  mo_file : im_files s h = addr;
  mo_handler : im_msis s !! Z.to_nat (id - IMSIC_MSI_FIRST_ID) = Some hd;
  mo_kept : Z.testbit (im_ids s h) id = true;
  mo_enabled : Z.testbit (if_eie (im_hw s h)) id = true;
}.

Lemma clear_keeps fuel s self s' : imsic_ipi_clear fuel s self = Some s' ->
  im_msis s' = im_msis s /\ im_ids s' = im_ids s /\ im_files s' = im_files s /\
  forall h, if_eie (im_hw s' h) = if_eie (im_hw s h).
Proof.
  revert s. induction fuel as [|fuel IH]; intros s; cbn [imsic_ipi_clear]; [done|]. unfold mtopei_claim.
  destruct (identities _) as [|id ids]; [by intros [= <-]|]. destruct (truth _); cbn [negb].
  - intros (Em & Ed & Ef & Eh)%IH. split_and!.
    + rewrite Em. by destruct (msi_handler _ _).
    + rewrite Ed. by destruct (msi_handler _ _).
    + rewrite Ef. by destruct (msi_handler _ _).
    + intros h. rewrite Eh. destruct (msi_handler _ _); unfold file_set; cbn [field_update im_hw];
        destruct (Z.eqb_spec h self) as [->|]; done.
  - intros [= <-]. split_and!; [done..|]. intros h. unfold file_set. cbn [field_update im_hw].
    by destruct (Z.eqb_spec h self) as [->|].
Qed.

Lemma msi_store_keeps s addr data :
  im_msis (msi_store s addr data) = im_msis s /\ im_ids (msi_store s addr data) = im_ids s /\
  im_files (msi_store s addr data) = im_files s /\ forall h, if_eie (im_hw (msi_store s addr data) h) = if_eie (im_hw s h).
Proof.
  unfold msi_store. destruct (_ && (data <? XLEN)); [|done]. cbn [field_update im_msis im_ids im_files im_hw]. split_and!; [done..|].
  intros h. by destruct (_ && truth addr).
Qed.

Lemma msi_owned_same s s' h id addr hd :
  im_msis s' = im_msis s -> im_ids s' = im_ids s -> im_files s' = im_files s ->
  (forall h, if_eie (im_hw s' h) = if_eie (im_hw s h)) -> msi_owned s h id addr hd -> msi_owned s' h id addr hd.
Proof. intros Em Ed Ef Eh []. constructor; rewrite ?Em, ?Ed, ?Ef, ?Eh; done. Qed.

Lemma msi_owned_step s s' h id addr hd : imsic_step s s' -> msi_owned s h id addr hd -> msi_owned s' h id addr hd.
Proof.
  intros Hs Ho. destruct Hs as [h'|a d|index|fuel h' s' Ec|h' hd'].
  - destruct Ho. constructor; try done. unfold imsic_hart_init, file_set. cbn [field_update im_hw].
    destruct (Z.eqb_spec h h') as [->|]; [|done]. cbn [field_update if_eie]. by rewrite Z.lor_spec, mo_kept0, orb_true_r.
  - destruct (msi_store_keeps s a d) as (? & ? & ? & ?). by apply (msi_owned_same s).
  - unfold imsic_ipi_send. destruct (_ && truth _); [|done].
    destruct (msi_store_keeps s (im_files s index +! IMSIC_SETEIPNUM_LE) IMSIC_IPI_ID) as (? & ? & ? & ?). by apply (msi_owned_same s).
  - destruct (clear_keeps _ _ _ _ Ec) as (? & ? & ? & ?). by apply (msi_owned_same s).
  - unfold irqchip_msi_request. destruct (truth _); [|done]. cbn [negb].
    destruct (Z.eqb_spec (Z.of_nat (length (im_msis s))) IMSIC_MSIS); [done|]. unfold IMSIC_MSIS in *. destruct Ho.
    constructor; cbn [snd]; unfold file_set; cbn [field_update im_msis im_ids im_files im_hw]; [|done|..].
    + rewrite length_app. cbn. lia.
    + by apply lookup_app_l_Some.
    + destruct (Z.eqb_spec h h') as [->|]; [|done]. by rewrite Z.lor_spec, mo_kept0.
    + destruct (Z.eqb_spec h h') as [->|]; [|done]. cbn [field_update if_eie]. by rewrite Z.lor_spec, mo_enabled0.
Qed.

(** C20: A driver's interrupt reaches its handler: an MSI given to a driver on
    hart [h] is delivered there, whatever happened since; a store of its data
    to its address is claimed by the next look at the file, which runs the
    handler, and nothing stays pending. *)
Theorem msi_delivered s h hd addr id s1 s2 :
  (length (im_msis s) <= 4)%nat -> (forall i, is_ulong (im_files s i)) ->
  irqchip_msi_request s h hd = (Some (addr, id), s1) -> rtc imsic_step s1 s2 ->
  exists s3 after before,
    imsic_ipi_clear (Z.to_nat XLEN) (msi_store s2 addr id) h = Some s3 /\ pending s3 h = [] /\
    im_calls s3 = after ++ (h, hd) :: before ++ im_calls s2.
Proof.
  intros Hl Hu Hreq Hrun. pose proof XLEN_bounds.
  assert (msi_owned s1 h id addr hd /\ 2 <= id < XLEN /\ addr <> 0) as (Ho & Hid & Ha).
  { revert Hreq. unfold irqchip_msi_request. destruct (truth (im_files s h)) eqn:Et; [|done]. apply truth_true in Et. cbn [negb].
    destruct (Z.eqb_spec (Z.of_nat (length (im_msis s))) IMSIC_MSIS); [done|]. unfold IMSIC_MSIS, IMSIC_MSI_FIRST_ID, IMSIC_SETEIPNUM_LE in *.
    cbn [field_update im_files]. unfold uadd. rewrite Z.add_0_r, wrap_small by apply Hu. intros [= <- <- <-]. split_and!; [|lia|lia|done].
    assert (forall x, Z.testbit (Z.lor x (BIT (2 + Z.of_nat (length (im_msis s))))) (2 + Z.of_nat (length (im_msis s))) = true) as Hb.
    { intros x. unfold BIT, ushl. rewrite Z.lor_spec, Z.shiftl_1_l, wrap_small, Z.pow2_bits_true, orb_true_r by
        (done || lia || (split; [lia|apply Z.pow_lt_mono_r; lia])). done. }
    constructor; unfold file_set; cbn [field_update im_msis im_ids im_files im_hw]; rewrite ?Z.eqb_refl; [|done|..|done|].
    - rewrite length_app. cbn [length]. lia.
    - unfold IMSIC_MSI_FIRST_ID. apply list_lookup_middle. lia.
    - apply Hb. }
  assert (msi_owned s2 h id addr hd) as Ho2.
  { clear -Hrun Ho. induction Hrun; [done|]. apply IHHrun. by eapply msi_owned_step. }
  destruct (msi_store_keeps s2 addr id) as (Em & _ & _ & Ee). destruct Ho2 as [Hl2 Hf2 Hh2 _ He2].
  set (s3 := msi_store s2 addr id) in *.
  assert (id ∈ pending s3 h) as Hp.
  { apply identities_spec. split; [lia|]. rewrite Z.land_spec, Ee, He2, andb_true_r. unfold s3, msi_store.
    rewrite (proj2 (Z.ltb_lt 0 id)), (proj2 (Z.ltb_lt id XLEN)) by lia. cbn [andb field_update im_hw].
    rewrite Hf2, Z.eqb_refl, (proj2 (truth_true addr)) by done. cbn [andb field_update if_eip]. apply Z.setbit_eq. lia. }
  destruct (imsic_ipi_clear_exact (Z.to_nat XLEN) s3 h) as (s4 & E4 & Hp4 & Ec & _).
  { by rewrite Em. }
  { pose proof (length_filter (fun id => Z.testbit (Z.land (if_eip (im_hw s3 h)) (if_eie (im_hw s3 h))) id = true) (seqZ 1 (XLEN - 1))) as Hlen.
    unfold pending, identities. rewrite length_seqZ in Hlen. lia. }
  assert ((h, hd) ∈ reverse (handlers_of s3 h (pending s3 h))) as Hin.
  { apply elem_of_reverse, list_elem_of_omap. exists id. split; [done|]. unfold IMSIC_MSI_FIRST_ID in *.
    rewrite (proj2 (Z.leb_le 2 id)) by lia. by rewrite Em, Hh2. }
  apply list_elem_of_split in Hin as (after & before & E). exists s4, after, before. split_and!; [done..|].
  rewrite Ec, E, <- app_assoc. cbn [app]. do 2 f_equal. f_equal. unfold s3, msi_store. by destruct (_ && (id <? XLEN)).
Qed.
End Imsic.


Module Controllers.
#[local] Instance rv64 : Arch := RV64.
#[local] Instance virt : Kconfig := qemu_virt.
#[local] Instance harts : HartTable := {| ht_ids := [0; 1]; ht_nodup := two_harts_nodup |}.

Lemma plic_quiet_witness :
  exists ws, plic_probe (Some (PlicNode (Some 0xc000000) 95 (Some 32))) = Some ws /\
    stored ws (0xc000000 + (0x200000 + 0x1000 * 3)) = Some 7.
Proof.
  assert (is_ulong 0xc000000) as Hb by (split; [discriminate|reflexivity]).
  assert (0xc000000 + 0x4000000 < 2 ^ XLEN) as Hf by reflexivity.
  destruct (plic_quiet 0xc000000 95 32 Hb Hf) as (ws & E & _ & _ & H & _); [discriminate..|].
  exists ws. split; [exact E|]. apply H. vm_compute. split; [discriminate|reflexivity].
Defined.

(** Sources 1 to 10 go to child 20, 5 to 7 of them on to child 21; an entry
    with a child there is not, and one beyond the 63 sources. *)
Definition root : aplic_node :=
  AplicNode [20; 21] [20; 1; 10; 21; 5; 7; 99; 1; 3; 20; 60; 64] (Some 16) None None.

Lemma root_fits : 0xc000000 + (0x4000 + 32 * (match an_ext_len root with Some len => len / 8 | None => 0 end)) < 2 ^ XLEN.
Proof. reflexivity. Qed.

Lemma aplic_configured_witness :
  stored (aplic_root_init root 0xc000000 63) 0xc000000 = Some 0 /\
  stored (aplic_root_init root 0xc000000 63) (0xc000000 + 4 * 6) =
    Some match delegated_to root 63 (an_delegate root) 6 with Some idx => Z.lor APLIC_SOURCECFG_D idx | None => 0 end.
Proof.
  assert (is_ulong 0xc000000) as Hb by (split; [discriminate|reflexivity]).
  assert (0 <= 2 < 2 ^ 26) as Hi by (split; [discriminate|reflexivity]).
  assert (0 <= 63 <= 1023) as Hs by (split; discriminate).
  assert (Forall (fun c => 0 <= c) (an_delegate root)) as Hc by (repeat constructor; discriminate).
  destruct (aplic_configured 0xc000000 63 root Hb root_fits Hi Hs Hc) as (H0 & _ & H1 & _).
  split; [exact H0|]. apply H1. split; discriminate.
Defined.

Example source_of_child_21 : delegated_to root 63 (an_delegate root) 6 = Some 1.
Proof. reflexivity. Qed.
Example source_of_nobody : delegated_to root 63 (an_delegate root) 60 = None.
Proof. reflexivity. Qed.

(** Files of both harts; a doorbell for hart 0, which then starts anew. *)
Definition files : imsic_state :=
  ImsicState (fun h => if h =? 0 then 0x24000000 else if h =? 1 then 0x24001000 else 0) [] (fun _ => 0)
    (fun _ => ImsicFile 0 0 0 0) [].
Definition doorbell : handler := (7%nat, 42).
Definition given : imsic_state := (irqchip_msi_request files 0 doorbell).2.

Lemma files_ulong i : is_ulong (im_files files i).
Proof. cbn. destruct (i =? 0); [|destruct (i =? 1)]; split; discriminate || reflexivity. Qed.

Lemma msi_delivered_witness :
  exists s3 after before,
    imsic_ipi_clear (Z.to_nat XLEN) (msi_store (imsic_hart_init given 0) 0x24000000 2) 0 = Some s3 /\
    pending s3 0 = [] /\ im_calls s3 = after ++ (0, doorbell) :: before ++ im_calls (imsic_hart_init given 0).
Proof.
  apply (msi_delivered files 0 doorbell 0x24000000 2 given (imsic_hart_init given 0)).
  - cbn. lia.
  - exact files_ulong.
  - reflexivity.
  - apply rtc_once, step_init.
Defined.
End Controllers.
