(* ===== verification/Drivers.v ===== *)
(** Device tree helpers, the driver core and the console:
    [lib/utils/fdt_util.c], [drivers/core/driver.c] and
    [drivers/core/console.c], and the encoding of a reservation in
    [images/monitor/fdt_fixup.c].  A property is the list of its cells, as
    [fdt32_to_cpu] reads them; lookups of nodes are arguments.  A device tree
    is the list of its nodes, in the order they are walked in; what
    [drivers_init] does is the list of probes it makes. *)

From S2P Require Import Prelude Arch.

#[local] Open Scope Z_scope.


Definition FDT_ERR_NOTFOUND : Z := 1.
Definition FDT_ERR_BADVALUE : Z := 15.
Definition FDT_ERR_BADNCELLS : Z := 14.

(** ** Cells *)

(** [uint64_t]: two cells are all it holds. *)
Definition read_cells (cells : list Z) : Z := foldl (fun val c => Z.lor (Z.shiftl val 32 mod 2 ^ 64) c) 0 cells.

(** [put_cells]: the cells of [val], the last one first *)
Fixpoint cells_up (n : nat) (val : Z) : list Z :=
  match n with 0%nat => [] | S n => low32 val :: cells_up n (Z.shiftr val 32) end.
Definition put_cells (n : nat) (val : Z) : list Z := reverse (cells_up n val).

(** "reg" of a node, with the cells its parent has for an address ([ac]) and
    a size ([sc]): entry [index] *)
Definition fdt_reg (ac sc : Z) (reg : option (list Z)) (index : nat) : Z + Z * Z :=
  if (ac <? 1) || (2 <? ac) || (sc <? 0) || (2 <? sc) then inl (- FDT_ERR_BADNCELLS)
  else
    match reg with
    | None => inl (- FDT_ERR_NOTFOUND)
    | Some cells =>
        if 4 * Z.of_nat (length cells) <? (Z.of_nat index + 1) * (ac + sc) * 4 then inl (- FDT_ERR_NOTFOUND)
        else
          let cells := drop (index * Z.to_nat (ac + sc)) cells in
          inr (read_cells (take (Z.to_nat ac) cells), read_cells (take (Z.to_nat sc) (drop (Z.to_nat ac) cells)))
    end.

Definition fdt_prop_u32 (prop : option (list Z)) (dflt : Z) : Z :=
  match prop with Some (c :: _) => c | _ => dflt end.

(** ** Interrupts of harts *)

(** "interrupts-extended": [cpu_of] is the hart id of the cpu node a
    cpu-intc's phandle leads to. *)
Definition fdt_hart_irq (cpu_of : Z -> Z + Z) (ext : option (list Z)) (index : nat) : Z + Z * Z :=
  match ext with
  | None => inl (- FDT_ERR_NOTFOUND)
  | Some cells =>
      match cells !! (2 * index)%nat, cells !! (2 * index + 1)%nat with
      | Some phandle, Some irq =>
          match cpu_of phandle with inr hartid => inr (hartid, irq) | inl err => inl err end
      | _, _ => inl (- FDT_ERR_NOTFOUND)
      end
  end.

(** [fdt_hart_positions], over the entries up to the first that is no
    hart's: where each slot is among the entries of interrupt [irq], and how
    many were found *)
Fixpoint positions_loop (entries : list (Z * Z)) (irq : Z) (slot_of : Z -> Z) (nr_slots pos : Z)
    (position : Z -> Z) (found : Z) : (Z -> Z) * Z :=
  match entries with
  | [] => (position, found)
  | (hartid, this_irq) :: entries =>
      if negb (this_irq =? irq) then positions_loop entries irq slot_of nr_slots pos position found
      else
        let slot := slot_of hartid in
        if (0 <=? slot) && (slot <? nr_slots)
        then positions_loop entries irq slot_of nr_slots (pos + 1) (fun i => if i =? slot then pos else position i) (found + 1)
        else positions_loop entries irq slot_of nr_slots (pos + 1) position found
  end.
Definition fdt_hart_positions (entries : list (Z * Z)) (irq : Z) (slot_of : Z -> Z) (nr_slots : Z) : (Z -> Z) * Z :=
  positions_loop entries irq slot_of nr_slots 0 (fun _ => -1) 0.

(** [fdt_range_is_memory]: the ranges of the memory nodes, in order *)
Definition fdt_range_is_memory (banks : list (Z * Z)) (base size : Z) : bool :=
  existsb (fun '(start, len) => (start <=? base) && ((base + size) mod 2 ^ 64 <=? (start + len) mod 2 ^ 64)) banks.

(** * What is written is what is read *)

Lemma read_cells_snoc cells c : read_cells (cells ++ [c]) = Z.lor (Z.shiftl (read_cells cells) 32 mod 2 ^ 64) c.
Proof. unfold read_cells. by rewrite foldl_app. Qed.

(** One or two cells, whichever hold the value: the round trip of a "reg"
    the monitor adds to the tree. *)
Theorem cells_roundtrip (n : nat) (val : Z) :
  (n <= 2)%nat -> 0 <= val < 2 ^ (32 * Z.of_nat n) -> read_cells (put_cells n val) = val.
Proof.
  intros Hn Hv. unfold put_cells.
  assert (n = 0 \/ n = 1 \/ n = 2)%nat as [->|[->| ->]] by lia; cbn [cells_up]; rewrite ?reverse_cons; cbn [app].
  - cbn in *. lia.
  - change (read_cells (reverse [] ++ [low32 val])) with (Z.lor (0 mod 2 ^ 64) (low32 val)). rewrite Z.mod_0_l, Z.lor_0_l by lia.
    apply Z.mod_small. exact Hv.
  - rewrite read_cells_snoc. change (read_cells (reverse [] ++ [low32 (Z.shiftr val 32)])) with (Z.lor (0 mod 2 ^ 64) (low32 (Z.shiftr val 32))).
    change (32 * Z.of_nat 2) with 64 in Hv. rewrite Z.mod_0_l, Z.lor_0_l by lia. unfold low32.
    rewrite Z.shiftr_div_pow2, Z.shiftl_mul_pow2 by lia.
    assert (0 <= val / 2 ^ 32 < 2 ^ 32) by (split; [apply Z.div_pos; lia|apply Z.div_lt_upper_bound; lia]).
    rewrite (Z.mod_small (val / 2 ^ 32)) by lia. rewrite (Z.mod_small (val / 2 ^ 32 * 2 ^ 32)) by lia.
    rewrite <- Z.shiftl_mul_pow2, Z.lor_comm by lia.
    destruct (lohi_bound (val mod 2 ^ 32) (val / 2 ^ 32)) as (_ & E1 & E2); [apply Z.mod_pos_bound; lia|done|].
    set (v := Z.lor _ _) in *. rewrite (Z.div_mod v (2 ^ 32)), E1, E2 by lia. symmetry. apply Z.div_mod. lia.
Qed.

Lemma cells_roundtrip_witness : (2 <= 2)%nat /\ read_cells (put_cells 2 0x480200000) = 0x480200000.
Proof. split; [lia|]. apply cells_roundtrip; [lia|]. split; [discriminate|reflexivity]. Defined.

(** ** Entries read within the property *)

Lemma fdt_reg_within ac sc cells index r :
  fdt_reg ac sc (Some cells) index = inr r ->
  1 <= ac <= 2 /\ 0 <= sc <= 2 /\ (Z.of_nat index + 1) * (ac + sc) <= Z.of_nat (length cells).
Proof.
  unfold fdt_reg.
  destruct (Z.ltb_spec ac 1), (Z.ltb_spec 2 ac), (Z.ltb_spec sc 0), (Z.ltb_spec 2 sc); cbn [orb]; try done.
  destruct (Z.ltb_spec (4 * Z.of_nat (length cells)) ((Z.of_nat index + 1) * (ac + sc) * 4)); [done|]. intros _. lia.
Qed.

(** ** Positions *)

(** The entries that count. *)
Abbreviation of_irq entries irq := (filter (fun e : Z * Z => e.2 = irq) entries).

Lemma positions_loop_spec entries irq slot_of nr_slots pos position found i :
  let res := positions_loop entries irq slot_of nr_slots pos position found in
  (exists k e, of_irq entries irq !! k = Some e /\ slot_of e.1 = i /\ 0 <= i < nr_slots /\ res.1 i = pos + Z.of_nat k /\
     forall k' e', of_irq entries irq !! k' = Some e' -> slot_of e'.1 = i -> (k' <= k)%nat) \/
  (res.1 i = position i /\ forall e, e ∈ of_irq entries irq -> slot_of e.1 = i -> ~ 0 <= i < nr_slots).
Proof.
  cbv zeta. revert pos position found. induction entries as [|[hartid this] entries IH]; intros pos position found; cbn [positions_loop].
  - right. split; [done|]. by intros e ?%elem_of_nil.
  - rewrite filter_cons. cbn [snd]. destruct (Z.eqb_spec this irq) as [E|N]; cbn [negb]; [rewrite decide_True by done|rewrite decide_False by done; apply IH].
    set (position' := fun j => if j =? slot_of hartid then pos else position j).
    assert (forall p f, (p = position' /\ 0 <= slot_of hartid < nr_slots \/ p = position /\ ~ 0 <= slot_of hartid < nr_slots) ->
      (exists k e, ((hartid, this) :: of_irq entries irq) !! k = Some e /\ slot_of e.1 = i /\ 0 <= i < nr_slots /\
         (positions_loop entries irq slot_of nr_slots (pos + 1) p f).1 i = pos + Z.of_nat k /\
         forall k' e', ((hartid, this) :: of_irq entries irq) !! k' = Some e' -> slot_of e'.1 = i -> (k' <= k)%nat) \/
      ((positions_loop entries irq slot_of nr_slots (pos + 1) p f).1 i = position i /\
        forall e, e ∈ (hartid, this) :: of_irq entries irq -> slot_of e.1 = i -> ~ 0 <= i < nr_slots)) as Hgo.
    { intros p f Hp. destruct (IH (pos + 1) p f) as [(k & e & Hk & Hs & Hi & Hr & Hlast)|[Hr Hno]].
      - left. exists (S k), e. split_and!; [done..|lia|lia|rewrite Hr; lia|]. intros [|k'] e' Hk' Hs'; [lia|]. pose proof (Hlast k' e' Hk' Hs'). lia.
      - destruct (decide (slot_of hartid = i /\ 0 <= i < nr_slots)) as [[Es Hi]|Hn].
        + left. exists 0%nat, (hartid, this). split_and!; [done|done|lia|lia| |].
          * rewrite Hr. destruct Hp as [[-> _]|[_ ?]]; [|lia]. unfold position'. rewrite Es, Z.eqb_refl. lia.
          * intros [|k'] e' Hk' Hs'; [done|]. destruct (Hno e'); [by eapply list_elem_of_lookup_2|done|done].
        + right. split.
          * rewrite Hr. destruct Hp as [[-> ?]|[-> _]]; [|done]. unfold position'. destruct (Z.eqb_spec i (slot_of hartid)); [|done].
            destruct Hn. split; [done|lia].
          * intros e [->|He]%elem_of_cons Hs Hi; [apply Hn; auto|by apply (Hno e)]. }
    destruct (Z.leb_spec 0 (slot_of hartid)); cbn [andb]; [|apply Hgo; right; split; [done|lia]].
    destruct (Z.ltb_spec (slot_of hartid) nr_slots); apply Hgo; [left; split; [done|lia]|right; split; [done|lia]].
Qed.

(** The position of a hart's slot is its place among the entries of the
    interrupt, the last one where it has several, and -1 without one. *)
Theorem fdt_hart_positions_exact entries irq slot_of nr_slots i :
  0 <= i < nr_slots ->
  let position := (fdt_hart_positions entries irq slot_of nr_slots).1 in
  (exists k e, of_irq entries irq !! k = Some e /\ slot_of e.1 = i /\ position i = Z.of_nat k /\
     forall k' e', of_irq entries irq !! k' = Some e' -> slot_of e'.1 = i -> (k' <= k)%nat) \/
  (position i = -1 /\ forall e, e ∈ of_irq entries irq -> slot_of e.1 <> i).
Proof.
  intros Hi. destruct (positions_loop_spec entries irq slot_of nr_slots 0 (fun _ => -1) 0 i) as [(k & e & Hk & Hs & _ & Hr & Hl)|[Hr Hn]].
  - left. by exists k, e.
  - right. split; [done|]. intros e He Hs. by apply (Hn e He Hs).
Qed.


(** * Drivers *)

(** [struct driver]; a compatible string is a number *)
Record driver : Set := Driver {
  dr_compatible : option (list nat);
  dr_stage : Z;
  dr_probe_without_node : bool;
  dr_mmode_only : bool;
}.

(** A node: its "compatible" strings, and its "status" *)
Record dt_node : Set := DtNode { nd_compatible : list nat; nd_enabled : bool }.
#[export] Instance dt_node_eta : Settable dt_node := fun n => DtNode (nd_compatible n) (nd_enabled n).

Definition DRIVER_STAGES : Z := 2.

(** [fdt_node_compatible_any] *)
Definition node_compatible_any (n : dt_node) (compatible : list nat) : bool :=
  existsb (fun c => bool_decide (c ∈ nd_compatible n)) compatible.

Definition driver_matches (d : driver) (n : dt_node) : bool :=
  match dr_compatible d with Some compatible => node_compatible_any n compatible | None => false end.

(** [BIT64]; in C, a shift by less than 64. *)
Definition BIT64 (n : nat) : Z := Z.shiftl 1 (Z.of_nat n) mod 2 ^ 64.

(** A probe: the driver, by its place in the table, and the node, -1 for none *)
Abbreviation probe := (nat * Z)%type.

(** The drivers of the table a node matches in a stage, with the bits and
    probes so far *)
Fixpoint node_drivers (stage : Z) (node : Z) (n : dt_node) (at_ : nat) (table : list driver) (s : Z * list probe)
    : Z * list probe :=
  match table with
  | [] => s
  | d :: table =>
      node_drivers stage node n (S at_) table
        (if negb (dr_stage d =? stage) || negb (driver_matches d n) then s
         else (Z.lor s.1 (BIT64 at_), s.2 ++ [(at_, node)]))
  end.

Fixpoint nodes_loop (stage : Z) (table : list driver) (node : Z) (nodes : list dt_node) (s : Z * list probe) : Z * list probe :=
  match nodes with
  | [] => s
  | n :: nodes =>
      nodes_loop stage table (node + 1) nodes (if negb (nd_enabled n) then s else node_drivers stage node n 0 table s)
  end.

(** The drivers that are probed without a node. *)
Fixpoint without_node (stage matched : Z) (at_ : nat) (table : list driver) : list probe :=
  match table with
  | [] => []
  | d :: table =>
      (if negb (dr_stage d =? stage) then []
       else if bool_decide (dr_compatible d = None) ||
               (dr_probe_without_node d && negb (truth (Z.land matched (BIT64 at_)))) then [(at_, -1)]
       else []) ++ without_node stage matched (S at_) table
  end.

Definition stage_probes (table : list driver) (fdt : option (list dt_node)) (stage : Z) : list probe :=
  let '(matched, probes) := match fdt with Some nodes => nodes_loop stage table 0 nodes (0, []) | None => (0, []) end in
  probes ++ without_node stage matched 0 table.

Definition drivers_init (table : list driver) (fdt : option (list dt_node)) : list probe :=
  seqZ 0 DRIVER_STAGES ≫= stage_probes table fdt.

(** [drivers_fdt_fixup]: [disable] is the result of [fdt_node_disable] on a
    node; the result, and the nodes *)
Fixpoint fixup_node (table : list driver) (disable : Z) (n : dt_node) : Z * dt_node :=
  match table with
  | [] => (0, n)
  | d :: table =>
      if negb (dr_mmode_only d) || negb (driver_matches d n) then fixup_node table disable n
      else if truth disable then (disable, n)
      else fixup_node table disable (n <| nd_enabled := false |>)
  end.

Fixpoint drivers_fdt_fixup (table : list driver) (disable : Z -> Z) (node : Z) (nodes : list dt_node) : Z * list dt_node :=
  match nodes with
  | [] => (0, [])
  | n :: nodes =>
      let '(rc, n) := fixup_node table (disable node) n in
      if truth rc then (rc, n :: nodes)
      else let '(rc, nodes) := drivers_fdt_fixup table disable (node + 1) nodes in (rc, n :: nodes)
  end.

(** ** The probes, said without the bits *)

(** The probes for nodes: nodes in order, for each the drivers in order. *)
Definition node_probes (table : list driver) (stage : Z) (nodes : list dt_node) : list probe :=
  imap (fun i n => (i, n)) nodes ≫= fun '(i, n) =>
    if nd_enabled n then
      (fun d => (d.1, Z.of_nat i)) <$>
        filter (fun d => dr_stage d.2 = stage /\ driver_matches d.2 n = true) (imap (fun k d => (k, d)) table)
    else [].

Definition stage_spec (table : list driver) (fdt : option (list dt_node)) (stage : Z) : list probe :=
  let probes := match fdt with Some nodes => node_probes table stage nodes | None => [] end in
  probes ++ ((fun d => (d.1, -1)) <$>
    filter (fun d => dr_stage d.2 = stage /\
                     (dr_compatible d.2 = None \/ dr_probe_without_node d.2 = true /\ d.1 ∉ probes.*1))
      (imap (fun k d => (k, d)) table)).

(** The bits are those of the drivers probed so far. *)
Definition bits_of (s : Z * list probe) : Prop :=
  0 <= s.1 /\ forall k, Z.testbit s.1 (Z.of_nat k) = true <-> k ∈ s.2.*1.

Lemma BIT64_pow k : (k < 64)%nat -> BIT64 k = 2 ^ Z.of_nat k.
Proof.
  intros. unfold BIT64. rewrite Z.shiftl_1_l. apply Z.mod_small. split; [apply Z.pow_nonneg; lia|].
  apply Z.pow_lt_mono_r; lia.
Qed.

Lemma bits_add s k node : (k < 64)%nat -> bits_of s -> bits_of (Z.lor s.1 (BIT64 k), s.2 ++ [(k, node)]).
Proof.
  intros Hk [H0 Hb]. rewrite BIT64_pow by done. split; cbn [fst snd].
  - apply Z.lor_nonneg. split; [done|]. apply Z.pow_nonneg. lia.
  - intros j. rewrite Z.lor_spec, Z.pow2_bits_eqb, orb_true_iff, Hb, Z.eqb_eq by lia.
    rewrite fmap_app, elem_of_app. cbn. rewrite list_elem_of_singleton. split; intros [?|?]; auto; right; lia.
Qed.

Lemma bits_test s k : (k < 64)%nat -> bits_of s -> truth (Z.land s.1 (BIT64 k)) = bool_decide (k ∈ s.2.*1).
Proof.
  intros Hk [_ Hb]. rewrite BIT64_pow by done. apply eq_true_iff_eq. rewrite bool_decide_eq_true, <- Hb, truth_true.
  split.
  - intros Hn. destruct (Z.testbit s.1 (Z.of_nat k)) eqn:E; [done|]. destruct Hn. apply Z.bits_inj'. intros i Hi.
    rewrite Z.land_spec, Z.pow2_bits_eqb, Z.bits_0 by lia. destruct (Z.eqb_spec (Z.of_nat k) i) as [<-|]; [by rewrite E|apply andb_false_r].
  - intros Ht E. assert (Z.testbit (Z.land s.1 (2 ^ Z.of_nat k)) (Z.of_nat k) = true) as Hc
      by (rewrite Z.land_spec, Ht, Z.pow2_bits_true by lia; done).
    by rewrite E, Z.bits_0 in Hc.
Qed.

(** The drivers of a table that starts at place [at_]. *)
Definition placed (at_ : nat) (table : list driver) : list (nat * driver) := imap (fun k d => ((at_ + k)%nat, d)) table.

Lemma placed_cons at_ d table : placed at_ (d :: table) = (at_, d) :: placed (S at_) table.
Proof. unfold placed. cbn [imap]. rewrite Nat.add_0_r. f_equal. apply imap_ext. intros. cbn. f_equal. lia. Qed.

Lemma node_drivers_spec stage node n at_ table s :
  (at_ + length table <= 64)%nat -> bits_of s ->
  bits_of (node_drivers stage node n at_ table s) /\
  (node_drivers stage node n at_ table s).2 =
    s.2 ++ ((fun d => (d.1, node)) <$>
            filter (fun d => dr_stage d.2 = stage /\ driver_matches d.2 n = true) (placed at_ table)).
Proof.
  revert at_ s. induction table as [|d table IH]; intros at_ s Hl Hs; cbn [node_drivers].
  - cbn. by rewrite app_nil_r.
  - cbn [length] in Hl. rewrite placed_cons, filter_cons.
    destruct (Z.eqb_spec (dr_stage d) stage) as [E1|N1]; cbn [negb orb].
    + destruct (driver_matches d n) eqn:E2; cbn [negb].
      * rewrite decide_True by done.
        destruct (IH (S at_) (Z.lor s.1 (BIT64 at_), s.2 ++ [(at_, node)]) ltac:(lia) ltac:(apply bits_add; [lia|done])) as [? ->].
        split; [done|]. cbn. by rewrite <- app_assoc.
      * rewrite decide_False by (cbn; rewrite E2; intros [_ ?]; done). apply IH; [lia|done].
    + rewrite decide_False by (cbn; intros [? _]; done). apply IH; [lia|done].
Qed.

(** The nodes from the [node]th on. *)
Definition node_probes_from (table : list driver) (stage : Z) (node : nat) (nodes : list dt_node) : list probe :=
  imap (fun i n => ((node + i)%nat, n)) nodes ≫= fun '(i, n) =>
    if nd_enabled n then
      (fun d => (d.1, Z.of_nat i)) <$> filter (fun d => dr_stage d.2 = stage /\ driver_matches d.2 n = true) (placed 0 table)
    else [].

Lemma nodes_loop_spec stage table node nodes s :
  (length table <= 64)%nat -> bits_of s ->
  bits_of (nodes_loop stage table (Z.of_nat node) nodes s) /\
  (nodes_loop stage table (Z.of_nat node) nodes s).2 = s.2 ++ node_probes_from table stage node nodes.
Proof.
  intros Hl. revert node s. induction nodes as [|n nodes IH]; intros node s Hs; cbn [nodes_loop].
  - unfold node_probes_from. cbn. by rewrite app_nil_r.
  - replace (Z.of_nat node + 1) with (Z.of_nat (S node)) by lia.
    assert (node_probes_from table stage node (n :: nodes) =
      (if nd_enabled n then (fun d => (d.1, Z.of_nat node)) <$>
         filter (fun d => dr_stage d.2 = stage /\ driver_matches d.2 n = true) (placed 0 table) else []) ++
      node_probes_from table stage (S node) nodes) as ->.
    { unfold node_probes_from. cbn [imap]. rewrite Nat.add_0_r. cbn [mbind list_bind]. f_equal. f_equal.
      apply imap_ext. intros. cbn. f_equal. lia. }
    destruct (nd_enabled n); cbn [negb]; [|by apply IH].
    destruct (node_drivers_spec stage (Z.of_nat node) n 0 table s Hl Hs) as [Hb E].
    destruct (IH (S node) _ Hb) as [? E']. split; [done|]. by rewrite E', E, <- app_assoc.
Qed.

Lemma without_node_spec stage s at_ table :
  (at_ + length table <= 64)%nat -> bits_of s ->
  without_node stage s.1 at_ table =
  (fun d => (d.1, -1)) <$>
    filter (fun d => dr_stage d.2 = stage /\ (dr_compatible d.2 = None \/ dr_probe_without_node d.2 = true /\ d.1 ∉ s.2.*1)) (placed at_ table).
Proof.
  intros Hl Hs. revert at_ Hl. induction table as [|d table IH]; intros at_ Hl; [done|]. cbn [without_node length] in Hl |- *.
  rewrite IH by lia. rewrite (bits_test s at_) by (lia || done). rewrite placed_cons, filter_cons.
  destruct (Z.eqb_spec (dr_stage d) stage) as [E|N]; cbn [negb app]; [|by rewrite decide_False by (cbn; intros [? _]; done)].
  destruct (bool_decide_reflect (dr_compatible d = None)) as [Ec|Nc]; cbn [orb]; [by rewrite decide_True by auto|].
  destruct (dr_probe_without_node d) eqn:Ep; cbn [andb]; [|rewrite decide_False; [done|cbn; rewrite Ep; naive_solver]].
  destruct (bool_decide_reflect (at_ ∈ s.2.*1)); cbn [negb];
    [rewrite decide_False; [done|cbn; naive_solver]|by rewrite decide_True by (cbn; auto)].
Qed.

(** The boot probes, stage by stage: each driver of the stage for every
    enabled node that it matches, nodes in the order of the tree and drivers
    in the order of the table; then, once each, the drivers that are no
    device's, and those with a configuration of their own for which there
    was no such node.  The table has at most 64 drivers, the bits of a word. *)
Theorem drivers_probed table fdt :
  (length table <= 64)%nat -> drivers_init table fdt = seqZ 0 DRIVER_STAGES ≫= stage_spec table fdt.
Proof.
  intros Hl. unfold drivers_init. apply list_bind_ext; [|done]. intros stage. unfold stage_probes, stage_spec.
  assert (bits_of (0, [])) as H0 by (split; [done|]; intros k; rewrite Z.testbit_0_l; split; [done|by intros ?%elem_of_nil]).
  change (imap (fun k d => (k, d)) table) with (placed 0 table).
  destruct fdt as [nodes|].
  - destruct (nodes_loop_spec stage table 0 nodes (0, []) Hl H0) as [Hb E]. change (Z.of_nat 0) with 0 in *.
    destruct (nodes_loop stage table 0 nodes (0, [])) as [matched probes]. cbn [snd app] in E.
    rewrite (without_node_spec stage (matched, probes)) by done. cbn [snd]. by rewrite E.
  - rewrite (without_node_spec stage (0, [])) by done. done.
Qed.

(** ** The tree of the next stage *)

(** The node describes something that is the monitor's alone. *)
Definition monitors_node (table : list driver) (n : dt_node) : bool :=
  existsb (fun d => dr_mmode_only d && driver_matches d n) table.

Lemma fixup_node_spec table disable n :
  fixup_node table disable n =
  if monitors_node table n then (disable, if truth disable then n else n <| nd_enabled := false |>) else (0, n).
Proof.
  revert n. induction table as [|d table IH]; intros n; [done|]. cbn [fixup_node monitors_node existsb].
  destruct (dr_mmode_only d) eqn:Em; cbn [negb orb andb]; [|apply IH].
  destruct (driver_matches d n) eqn:Ed; cbn [negb orb]; [|apply IH].
  destruct (Z.eqb_spec disable 0) as [->|N]; [change (truth 0) with false|rewrite (proj2 (truth_true disable) N); done].
  rewrite IH. change (monitors_node table (n <| nd_enabled := false |>)) with (monitors_node table n).
  by destruct (monitors_node table n).
Qed.

(** Where the edits succeed, exactly the nodes of drivers of the monitor's
    alone are disabled. *)
Lemma drivers_fdt_fixup_ok table node nodes :
  drivers_fdt_fixup table (fun _ => 0) node nodes =
  (0, (fun n => if monitors_node table n then n <| nd_enabled := false |> else n) <$> nodes).
Proof.
  revert node. induction nodes as [|n nodes IH]; intros node; [done|]. cbn [drivers_fdt_fixup fmap list_fmap].
  rewrite fixup_node_spec, IH. by destruct (monitors_node table n).
Qed.

(** * The console *)

(** What a call does with the console: its lock, and the backend's [putc] *)
Inductive con_event : Set := ConLock | ConUnlock | ConPutc (c : Z).

Definition putc_cooked (c : Z) : list con_event := (if c =? 10 then [ConPutc 13] else []) ++ [ConPutc c].

(** [console]: a backend is registered. *)
Definition console_putc (console : bool) (c : Z) : list con_event :=
  if console then ConLock :: putc_cooked c ++ [ConUnlock] else [].
Definition console_puts (console : bool) (s : list Z) : list con_event :=
  if console then ConLock :: (s ≫= putc_cooked) ++ [ConUnlock] else [].

(** The loop of [console_write]; a round takes at least one character, so
    [length buf] rounds are enough. *)
Fixpoint write_loop (fuel : nat) (buf : list Z) : list con_event :=
  match fuel, buf with
  | S fuel, _ :: _ =>
      let n := Nat.min (length buf) 128 in
      ConLock :: (ConPutc <$> take n buf) ++ ConUnlock :: write_loop fuel (drop n buf)
  | _, _ => []
  end.
Definition console_write (console : bool) (buf : list Z) : list con_event :=
  if console then write_loop (length buf) buf else [].

(** [console_read]: the characters the backend has, -1 (or the end) for none
    pending; what is read of them. *)
Fixpoint getc_loop (len : nat) (input : list Z) : list Z :=
  match len, input with
  | S len, c :: input => if c <? 0 then [] else c mod 256 :: getc_loop len input
  | _, _ => []
  end.
Definition console_read (console getc : bool) (len : nat) (input : list Z) : list Z :=
  if console && getc then getc_loop len input else [].

(** ** Raw output *)

Definition putcs (es : list con_event) : list Z := omap (fun e => match e with ConPutc c => Some c | _ => None end) es.

(** Pieces of one to 128 characters, each under the lock. *)
Inductive con_pieces : list con_event -> list Z -> Prop :=
  | pieces_nil : con_pieces [] []
  | pieces_cons cs es buf : (0 < length cs <= 128)%nat -> con_pieces es buf ->
      con_pieces (ConLock :: (ConPutc <$> cs) ++ ConUnlock :: es) (cs ++ buf).

Lemma write_loop_pieces fuel buf : (length buf <= fuel)%nat -> con_pieces (write_loop fuel buf) buf.
Proof.
  revert buf. induction fuel as [|fuel IH]; intros [|c buf] Hl; cbn in Hl; [apply pieces_nil|lia|apply pieces_nil|].
  cbn [write_loop]. set (n := Nat.min (length (c :: buf)) 128). rewrite <- (take_drop n (c :: buf)) at 3.
  assert (0 < n)%nat by (unfold n; cbn [length]; lia).
  apply pieces_cons; [rewrite length_take; lia|]. apply IH. rewrite length_drop. cbn [length]. lia.
Qed.

(** All of the buffer goes out, in order, and the harts that wait for the
    console wait for 128 characters at most. *)
Theorem console_write_pieces buf : con_pieces (console_write true buf) buf.
Proof. by apply write_loop_pieces. Qed.

Lemma con_pieces_putcs es buf : con_pieces es buf -> putcs es = buf.
Proof.
  induction 1 as [|cs es buf _ _ IH]; [done|]. unfold putcs in *. cbn [omap list_omap].
  rewrite omap_app. cbn [omap list_omap]. rewrite IH. f_equal. clear. induction cs as [|c cs IH]; [done|]. cbn. by rewrite IH.
Qed.

(** * Three drivers *)

Module Boot.
(** A transport, a user of it in the late stage, and one that is no device's;
    a tree with the user's node first. *)
Definition table : list driver :=
  [Driver (Some [1%nat]) 0 true true; Driver (Some [2%nat]) 1 false true; Driver None 0 false false].
Definition tree : list dt_node := [DtNode [2%nat] true; DtNode [1%nat] true; DtNode [1%nat] false].

Lemma drivers_probed_witness :
  (length table <= 64)%nat /\ drivers_init table (Some tree) = seqZ 0 DRIVER_STAGES ≫= stage_spec table (Some tree).
Proof. split; [cbn; lia|]. apply drivers_probed. cbn. lia. Defined.

Example transport_first : drivers_init table (Some tree) = [(0%nat, 1); (2%nat, -1); (1%nat, 0)].
Proof. reflexivity. Qed.
Example no_tree : drivers_init table None = [(0%nat, -1); (2%nat, -1)].
Proof. reflexivity. Qed.
End Boot.
