(* ===== verification/Htif.v ===== *)
(** The console of a simulator, [drivers/serial/htif.c], and the reset through
    it, [drivers/reset/htif_reset.c].

    The monitor and the host share two words.  A call of the driver is made
    under [htif_lock], so one at a time; it is taken one access to a word a
    step, and the host's steps come anywhere in between.  A word that is
    written is there with its upper half, which the host acts on: one step.

    Every request reaches the host once and in order, and characters come in
    order, each at most once; some may not come at all ([htif_char_lost]). *)

From S2P Require Import Prelude Arch.

#[local] Open Scope Z_scope.

(** * Requests and answers *)

Definition DEV_SYSTEM : Z := 0.
Definition DEV_CONSOLE : Z := 1.
Definition CMD_GETC : Z := 0.
Definition CMD_PUTC : Z := 1.
Definition REQUEST (dev cmd data : Z) : Z :=
  Z.lor (Z.lor (Z.shiftl dev 56 mod 2 ^ 64) (Z.shiftl cmd 48 mod 2 ^ 64)) (Z.land (data mod 2 ^ 64) 0xffffffffffff).
Definition ANSWER_DEV (v : Z) : Z := Z.shiftr v 56 mod 2 ^ 32.
Definition ANSWER_CMD (v : Z) : Z := Z.land (Z.shiftr v 48 mod 2 ^ 32) 0xff.

(** The character an answer brings. *)
Definition answer_char (v : Z) : option Z :=
  if (ANSWER_DEV v =? DEV_CONSOLE) && (ANSWER_CMD v =? CMD_GETC) then Some (Z.land v 0xff) else None.

(** * The driver *)

(** Where a call is, before its next access. *)
Inductive htif_pc : Set :=
| Idle
| ReqTohost (val : Z) (* [request]: the condition of the loop *)
| ReqFromhost (val : Z) (* its [check_fromhost] *)
| ReqAck (val ans : Z)
| ReqWrite (val : Z)
| GetFromhost (* [htif_getc]: its [check_fromhost] *)
| GetAck (ans : Z)
| GetTohost. (* no character: is tohost free? *)

#[export] Instance htif_pc_eq_dec : EqDecision htif_pc.
Proof. solve_decision. Defined.

Record htif : Set := Htif {
  tohost : Z; fromhost : Z;
  console_buf : Z; (* a character + 1 *)
  pc : htif_pc;
  calls : list Z; (* the requests of the calls so far *)
  got : list Z; (* what [htif_getc] has returned, -1 left out *)
  taken : list Z; (* the requests the host took *)
  answers : list Z; (* its answers *)
}.
#[export] Instance htif_eta : Settable htif := fun s =>
  Htif (tohost s) (fromhost s) (console_buf s) (pc s) (calls s) (got s) (taken s) (answers s).

Definition htif_init : htif := Htif 0 0 0 Idle [] [] [] [].

(** [request] begins. *)
Definition request (s : htif) (val : Z) : htif := s <| pc := ReqTohost val |> <| calls := calls s ++ [val] |>.

(** The rest of [check_fromhost], after an answer was read. *)
Definition check_fromhost_take (s : htif) (ans : Z) : htif :=
  let s := s <| fromhost := 0 |> in
  match answer_char ans with Some c => s <| console_buf := 1 + c |> | None => s end.

(** [htif_getc] after its [check_fromhost]. *)
Definition getc_take (s : htif) : htif :=
  let c := console_buf s - 1 in
  let s := s <| console_buf := 0 |> in
  if 0 <=? c then request (s <| got := got s ++ [c] |>) (REQUEST DEV_CONSOLE CMD_GETC 0) else s <| pc := GetTohost |>.

(** The calls, [htif_putc], [htif_exit] and [htif_getc] *)
Definition htif_putc (s : htif) (c : Z) : htif := request s (REQUEST DEV_CONSOLE CMD_PUTC (c mod 2 ^ 8)).
Definition htif_exit (s : htif) (code : Z) : htif := request s (REQUEST DEV_SYSTEM 0 (Z.lor (Z.shiftl code 1 mod 2 ^ 64) 1)).
Definition htif_getc (s : htif) : htif := s <| pc := GetFromhost |>.

(** The next access of the call. *)
Definition driver_step (s : htif) : htif :=
  match pc s with
  | Idle => s
  | ReqTohost val => s <| pc := if truth (tohost s) then ReqFromhost val else ReqWrite val |>
  | ReqFromhost val => s <| pc := if truth (fromhost s) then ReqAck val (fromhost s) else ReqTohost val |>
  | ReqAck val ans => (check_fromhost_take s ans) <| pc := ReqTohost val |>
  | ReqWrite val => s <| tohost := val |> <| pc := Idle |>
  | GetFromhost => if truth (fromhost s) then s <| pc := GetAck (fromhost s) |> else getc_take s
  | GetAck ans => getc_take (check_fromhost_take s ans)
  | GetTohost => if truth (tohost s) then s <| pc := Idle |> else request s (REQUEST DEV_CONSOLE CMD_GETC 0)
  end.

(** * The host *)

Definition is_getc (req : Z) : bool := req =? REQUEST DEV_CONSOLE CMD_GETC 0.
Definition asked_chars (s : htif) : nat := length (filter is_getc (taken s)).
Definition chars (s : htif) : list Z := omap answer_char (answers s).

(** It takes a request by clearing tohost, and answers where the last answer
    was taken; a character only where one was asked for. *)
Inductive htif_step : htif -> htif -> Prop :=
| step_putc s c : pc s = Idle -> htif_step s (htif_putc s c)
| step_exit s code : pc s = Idle -> htif_step s (htif_exit s code)
| step_getc s : pc s = Idle -> htif_step s (htif_getc s)
| step_driver s : pc s <> Idle -> htif_step s (driver_step s)
| step_take s : tohost s <> 0 -> htif_step s (s <| tohost := 0 |> <| taken := taken s ++ [tohost s] |>)
| step_answer s v :
    fromhost s = 0 -> 0 < v < 2 ^ 64 -> (is_Some (answer_char v) -> (length (chars s) < asked_chars s)%nat) ->
    htif_step s (s <| fromhost := v |> <| answers := answers s ++ [v] |>).

Definition htif_reachable : htif -> Prop := rtc htif_step htif_init.

(** * Where the words are *)

Record htif_words : Set := HtifWords { w_fromhost : Z; w_tohost : Z }.

Section Words.
Context {AR : Arch} (CONFIG_SERIAL_HTIF_BASE : Z).

Definition htif_words0 : htif_words := HtifWords CONFIG_SERIAL_HTIF_BASE (wrap (CONFIG_SERIAL_HTIF_BASE + 8)).
Definition htif_setup (to from : Z) : htif_words := HtifWords from to.

(** [p]: the base of the node, 0 without "reg".  [None]: -1; else the words
    and the region that is declared *)
Definition htif_serial_init (w : htif_words) (p : option Z) : htif_words * option (option (Z * Z)) :=
  match p with
  | None => (w, None)
  | Some base =>
      let w := if truth base then htif_setup (base +! 8) base else w in
      if negb (truth (w_fromhost w)) then (w, None)
      else (w, Some (if truth base then None else Some (w_fromhost w, 16)))
  end.

(** [htif_reset_probe]: [node] is the "reg" of the node *)
Definition htif_reset_probe (w : htif_words) (node : option (option Z)) : htif_words * bool :=
  match node with
  | None => (w, false)
  | Some reg => (match reg with Some base => htif_setup (wrap base +! 8) (wrap base) | None => w end, true)
  end.
End Words.

(** * What reaches the other side *)

(** A word that is not 0. *)
Definition shown (w : Z) : list Z := if w =? 0 then [] else [w].

(** The request of the call that is not written yet. *)
Definition unsent (s : htif) : list Z :=
  match pc s with ReqTohost v | ReqFromhost v | ReqAck v _ | ReqWrite v => [v] | _ => [] end.

(** Characters on their way from the host to a caller. *)
Definition on_the_way (s : htif) : list Z :=
  (if 0 <? console_buf s then [console_buf s - 1] else []) ++ omap answer_char (shown (fromhost s)).

Definition chars_inv (s : htif) : Prop := 0 <= console_buf s /\ sublist (got s ++ on_the_way s) (chars s).

Definition htif_inv (s : htif) : Prop :=
  calls s = taken s ++ shown (tohost s) ++ unsent s /\
  Forall (fun v => v <> 0) (unsent s) /\
  (forall v, pc s = ReqWrite v -> tohost s = 0) /\
  (forall v a, pc s = ReqAck v a \/ pc s = GetAck a -> fromhost s = a /\ a <> 0) /\
  chars_inv s.

Lemma request_not_zero dev cmd data : 0 <= dev < 2 ^ 8 -> 0 <= cmd < 2 ^ 8 -> dev <> 0 \/ Z.testbit (data mod 2 ^ 64) 0 = true -> REQUEST dev cmd data <> 0.
Proof.
  intros Hd Hc [H|H] E; apply Z.lor_eq_0_iff in E as [E1 E2].
  - apply Z.lor_eq_0_iff in E1 as [E1 _]. rewrite Z.shiftl_mul_pow2, Z.mod_small in E1 by lia. lia.
  - apply (f_equal (fun x => Z.testbit x 0)) in E2. rewrite Z.land_spec, H in E2. done.
Qed.
Lemma getc_not_zero : REQUEST DEV_CONSOLE CMD_GETC 0 <> 0.
Proof. done. Qed.
Lemma putc_not_zero c : REQUEST DEV_CONSOLE CMD_PUTC c <> 0.
Proof. apply request_not_zero; unfold DEV_CONSOLE, CMD_PUTC; lia. Qed.
Lemma exit_not_zero code : REQUEST DEV_SYSTEM 0 (Z.lor (Z.shiftl code 1 mod 2 ^ 64) 1) <> 0.
Proof.
  apply request_not_zero; unfold DEV_SYSTEM; [lia..|right]. rewrite testbit_mod_pow2, Z.lor_spec by lia. by rewrite orb_true_r.
Qed.
Lemma answer_char_range v c : answer_char v = Some c -> 0 <= c < 256.
Proof.
  unfold answer_char. destruct (_ && _); [|done]. intros [= <-]. change 255 with (Z.ones 8). rewrite Z.land_ones by lia. by apply Z.mod_pos_bound.
Qed.
Lemma shown_truth w : shown w = if truth w then [w] else [].
Proof. unfold shown, truth. by destruct (w =? 0). Qed.

(** Taking an answer keeps what comes from the host in order; so does giving
    the caller a character. *)
Lemma take_chars s a : chars_inv s -> fromhost s = a -> a <> 0 -> chars_inv (check_fromhost_take s a).
Proof.
  intros [H0 Hs] <- Ha. unfold check_fromhost_take, chars_inv, on_the_way, chars in *. unfold shown in Hs.
  rewrite (proj2 (Z.eqb_neq _ _) Ha) in Hs. cbn [omap list_omap] in Hs.
  destruct (answer_char (fromhost s)) as [c|] eqn:E; cbn [field_update console_buf fromhost got chars answers omap list_omap shown Z.eqb app].
  - apply answer_char_range in E. destruct (Z.ltb_spec 0 (1 + c)); [|lia]. split; [lia|].
    replace (1 + c - 1) with c by lia. etrans; [|exact Hs].
    apply sublist_app; [done|]. rewrite app_nil_r. by apply sublist_inserts_l.
  - split; [lia|]. by rewrite app_nil_r in *.
Qed.
Lemma getc_chars s : chars_inv s -> chars_inv (getc_take s) /\ fromhost (getc_take s) = fromhost s.
Proof.
  intros [H0 Hs]. unfold getc_take, chars_inv, on_the_way, request, chars in *.
  destruct (Z.leb_spec 0 (console_buf s - 1)); cbn [field_update console_buf fromhost got chars answers]; split; try done; (split; [done|]).
  - destruct (Z.ltb_spec 0 (console_buf s)); [|lia]. cbn [Z.ltb Z.compare app]. by rewrite <- app_assoc.
  - by destruct (Z.ltb_spec 0 (console_buf s)); [lia|].
Qed.

(** A call that begins to send has sent nothing before. *)
Lemma htif_request_inv s val :
  val <> 0 -> unsent s = [] -> calls s = taken s ++ shown (tohost s) -> chars_inv s -> htif_inv (request s val).
Proof.
  intros Hv Hu Hc Hs. unfold request, htif_inv, unsent in *. cbn [field_update pc calls taken tohost fromhost].
  split_and!; [by rewrite Hc, <- app_assoc|by repeat constructor|done|by intros v a [?|?]|exact Hs].
Qed.

Lemma calls_sent s : htif_inv s -> unsent s = [] -> calls s = taken s ++ shown (tohost s).
Proof. intros (Hc & _) Hu. by rewrite Hu, app_nil_r in Hc. Qed.

Lemma getc_take_inv s :
  unsent s = [] -> calls s = taken s ++ shown (tohost s) -> chars_inv s -> htif_inv (getc_take s).
Proof.
  intros Hu Hc Hs. destruct (getc_chars s Hs) as [Hs' _]. revert Hs'. unfold getc_take.
  destruct (0 <=? console_buf s - 1); intros Hs'.
  - apply htif_request_inv; [done|exact Hu|exact Hc|exact Hs'].
  - unfold htif_inv, unsent. cbn [field_update pc calls taken tohost fromhost].
    split_and!; [by rewrite Hc, app_nil_r|constructor|done|by intros v a [?|?]|exact Hs'].
Qed.

Lemma check_take_same s a :
  pc (check_fromhost_take s a) = pc s /\ calls (check_fromhost_take s a) = calls s /\
  taken (check_fromhost_take s a) = taken s /\ tohost (check_fromhost_take s a) = tohost s.
Proof. unfold check_fromhost_take. by destruct (answer_char a). Qed.

Lemma driver_inv s : htif_inv s -> htif_inv (driver_step s).
Proof.
  intros Hi. pose proof Hi as (Hc & Hn & Hw & Ha & Hs). unfold driver_step. destruct (pc s) as [|v|v|v a|v| |a|] eqn:E.
  - done.
  - unfold htif_inv, unsent in *. rewrite E in *. cbn [field_update pc calls taken tohost fromhost] in *.
    destruct (truth (tohost s)) eqn:T; (split_and!; [exact Hc|done| |by intros v' a [?|?]|exact Hs]); [done|].
    intros _ _. unfold truth in T. by destruct (Z.eqb_spec (tohost s) 0).
  - unfold htif_inv, unsent in *. rewrite E in *. cbn [field_update pc calls taken tohost fromhost] in *.
    destruct (truth (fromhost s)) eqn:T; (split_and!; [exact Hc|done|done| |exact Hs]); intros v' a [?|?]; simplify_eq.
    split; [done|]. unfold truth in T. destruct (Z.eqb_spec (fromhost s) 0); done.
  - destruct (Ha v a) as [Hf H0]; [by left|]. pose proof (take_chars s a Hs Hf H0) as Ht.
    destruct (check_take_same s a) as (E1 & E2 & E3 & E4). unfold htif_inv, unsent in *. rewrite E in *.
    cbn [field_update pc calls taken tohost fromhost] in *. rewrite E2, E3, E4. split_and!; [exact Hc|done|done|by intros v' a' [?|?]|exact Ht].
  - pose proof (Hw v eq_refl) as Ht. unfold htif_inv, unsent in *. rewrite E in *. rewrite Ht in Hc.
    cbn [field_update pc calls taken tohost fromhost] in *. apply Forall_cons_1 in Hn as [Hn _].
    split_and!; [|constructor|done|by intros v' a' [?|?]|exact Hs].
    rewrite Hc. unfold shown. by rewrite (proj2 (Z.eqb_neq v 0) Hn).
  - assert (Hu : unsent s = []) by (unfold unsent; by rewrite E). pose proof (calls_sent s Hi Hu) as Hc'.
    destruct (truth (fromhost s)) eqn:T; [|by apply getc_take_inv].
    unfold htif_inv, unsent in *. rewrite E in *. cbn [field_update pc calls taken tohost fromhost] in *.
    split_and!; [exact Hc|done|done| |exact Hs]. intros v' a' [?|?]; simplify_eq.
    split; [done|]. unfold truth in T. destruct (Z.eqb_spec (fromhost s) 0); done.
  - assert (Hu : unsent s = []) by (unfold unsent; by rewrite E). pose proof (calls_sent s Hi Hu) as Hc'.
    destruct (Ha 0 a) as [Hf H0]; [by right|]. destruct (check_take_same s a) as (E1 & E2 & E3 & E4).
    apply getc_take_inv; [unfold unsent; by rewrite E1, E|by rewrite E2, E3, E4|by apply take_chars].
  - assert (Hu : unsent s = []) by (unfold unsent; by rewrite E). pose proof (calls_sent s Hi Hu) as Hc'.
    destruct (truth (tohost s)) eqn:T; [|by apply htif_request_inv].
    unfold htif_inv, unsent in *. rewrite E in *. cbn [field_update pc calls taken tohost fromhost] in *.
    split_and!; [exact Hc|done|done|by intros v' a' [?|?]|exact Hs].
Qed.

Lemma step_inv s s' : htif_step s s' -> htif_inv s -> htif_inv s'.
Proof.
  intros Hst Hi. pose proof Hi as (Hc & Hn & Hw & Ha & Hs).
  destruct Hst as [s c E|s code E|s E|s E|s E|s v E Hv Hq].
  - assert (Hu : unsent s = []) by (unfold unsent; by rewrite E).
    apply htif_request_inv; [apply putc_not_zero|done|by apply calls_sent|done].
  - assert (Hu : unsent s = []) by (unfold unsent; by rewrite E).
    apply htif_request_inv; [apply exit_not_zero|done|by apply calls_sent|done].
  - unfold htif_getc, htif_inv, unsent in *. rewrite E in *. cbn [field_update pc calls taken tohost fromhost] in *.
    split_and!; [exact Hc|done|done|by intros v' a' [?|?]|exact Hs].
  - by apply driver_inv.
  - unfold htif_inv, unsent in *. cbn [field_update pc calls taken tohost fromhost] in *. split_and!; [|done|done|exact Ha|exact Hs].
    rewrite Hc. unfold shown. rewrite (proj2 (Z.eqb_neq _ 0) E). cbn [app Z.eqb]. by rewrite <- app_assoc.
  - unfold htif_inv, unsent in *. cbn [field_update pc calls taken tohost fromhost] in *. split_and!; [exact Hc|done|exact Hw| |].
    + intros v' a' Hp. destruct (Ha v' a' Hp) as [? ?]. congruence.
    + destruct Hs as [H0 Hs]. split; [done|]. unfold on_the_way, chars in *. cbn [field_update console_buf fromhost got answers].
      rewrite E in Hs. cbn [shown Z.eqb omap list_omap] in Hs. rewrite app_nil_r in Hs.
      rewrite omap_app, app_assoc. apply sublist_app; [exact Hs|]. unfold shown. by rewrite (proj2 (Z.eqb_neq v 0)) by lia.
Qed.

Lemma htif_reachable_inv s : htif_reachable s -> htif_inv s.
Proof.
  intros Hr. assert (Hi : htif_inv htif_init) by (split_and!; try done; by intros v a [?|?]).
  revert Hi. unfold htif_reachable in Hr. generalize dependent htif_init. intros s0 Hr. induction Hr as [|a b c Hab _ IH]; [done|].
  intros Ha. by apply IH, (step_inv a).
Qed.

(** The host gets the requests of the calls, each once and in order: none is
    written over another, and what it has not taken is in tohost or with the
    call that waits.  Characters reach the callers in the order of the
    answers, none twice. *)
Theorem htif_in_order s :
  htif_reachable s ->
  calls s = taken s ++ shown (tohost s) ++ unsent s /\ sublist (got s ++ on_the_way s) (chars s).
Proof. intros Hr. destruct (htif_reachable_inv s Hr) as (Hc & _ & _ & _ & _ & Hs). done. Qed.

(** The accesses a call has left where tohost is free. *)
Definition accesses_left (s : htif) : nat :=
  match pc s with
  | Idle => 0 | ReqWrite _ => 1 | ReqTohost _ => 2 | ReqAck _ _ | GetTohost => 3 | ReqFromhost _ | GetAck _ => 4 | GetFromhost => 5
  end.

Lemma getc_take_left s : (accesses_left (getc_take s) <= 3)%nat /\ tohost (getc_take s) = tohost s.
Proof. unfold getc_take. by destruct (0 <=? console_buf s - 1); (split; [cbn; lia|]). Qed.

Lemma driver_progress s :
  tohost s = 0 -> pc s <> Idle ->
  (accesses_left (driver_step s) < accesses_left s)%nat /\ (tohost (driver_step s) = 0 \/ pc (driver_step s) = Idle).
Proof.
  intros H Hi. unfold driver_step, accesses_left at 2. destruct (pc s) as [|v|v|v a|v| |a|] eqn:E; [done|..].
  - rewrite H. split; [cbn; lia|by left].
  - destruct (truth (fromhost s)); (split; [cbn; lia|by left]).
  - split; [cbn; lia|left]. cbn [tohost field_update]. by rewrite (proj2 (proj2 (proj2 (check_take_same _ _)))).
  - split; [cbn; lia|by right].
  - destruct (truth (fromhost s)); [split; [cbn; lia|by left]|]. destruct (getc_take_left s) as [? ->]. split; [lia|by left].
  - destruct (getc_take_left (check_fromhost_take s a)) as [? ->]. split; [lia|left].
    by rewrite (proj2 (proj2 (proj2 (check_take_same _ _)))).
  - rewrite H. split; [cbn; lia|by left].
Qed.

Lemma call_ends_after n s : tohost s = 0 \/ pc s = Idle -> (accesses_left s <= n)%nat -> pc (Nat.iter n driver_step s) = Idle.
Proof.
  revert s. induction n as [|n IH]; intros s Ht Hn; [destruct s as [? ? ? []]; unfold accesses_left in Hn; cbn in *; (done || lia)|].
  rewrite Nat.iter_succ_r. destruct (decide (pc s = Idle)) as [E|E].
  - assert (driver_step s = s) as -> by (unfold driver_step; by rewrite E). apply IH; [by right|unfold accesses_left; rewrite E; lia].
  - destruct Ht as [Ht|Ht]; [|done]. destruct (driver_progress s Ht E) as [Hl Ht']. apply IH; [done|lia].
Qed.

(** A call returns five accesses after the host has taken the last request,
    at the latest, wherever it was. *)
Theorem htif_call_ends s : tohost s = 0 -> pc (Nat.iter 5 driver_step s) = Idle.
Proof. intros H. apply call_ends_after; [by left|]. unfold accesses_left. destruct (pc s); lia. Qed.

(** * A run *)

Inductive htif_act : Set := DoPutc (c : Z) | DoGetc | DoDriver | DoTake | DoAnswer (v : Z).

Definition act (a : htif_act) (s : htif) : option htif :=
  match a with
  | DoPutc c => if decide (pc s = Idle) then Some (htif_putc s c) else None
  | DoGetc => if decide (pc s = Idle) then Some (htif_getc s) else None
  | DoDriver => if decide (pc s = Idle) then None else Some (driver_step s)
  | DoTake => if tohost s =? 0 then None else Some (s <| tohost := 0 |> <| taken := taken s ++ [tohost s] |>)
  | DoAnswer v =>
      if (fromhost s =? 0) && (0 <? v) && (v <? 2 ^ 64) && bool_decide (length (chars s) < asked_chars s)%nat
      then Some (s <| fromhost := v |> <| answers := answers s ++ [v] |>) else None
  end.

Lemma act_sound a s s' : act a s = Some s' -> htif_step s s'.
Proof.
  destruct a; cbn [act].
  - case_decide; [|done]. intros [= <-]. by apply step_putc.
  - case_decide; [|done]. intros [= <-]. by apply step_getc.
  - case_decide; [done|]. intros [= <-]. by apply step_driver.
  - destruct (Z.eqb_spec (tohost s) 0); [done|]. intros [= <-]. by apply step_take.
  - destruct (Z.eqb_spec (fromhost s) 0), (Z.ltb_spec 0 v), (Z.ltb_spec v (2 ^ 64)), (bool_decide_reflect (length (chars s) < asked_chars s)%nat);
      cbn; try done. intros [= <-]. by apply step_answer.
Qed.
Lemma acts_sound l s s' : foldl (fun s a => s ≫= act a) (Some s) l = Some s' -> rtc htif_step s s'.
Proof.
  revert s. induction l as [|a l IH]; cbn [foldl]; intros s; [by intros [= ->]|]. cbn [mbind option_bind].
  destruct (act a s) as [s1|] eqn:E; [intros H; eapply rtc_l; [by eapply act_sound|by apply IH]|].
  assert (forall l, foldl (fun s a => s ≫= act a) None l = None) as -> by (induction l0; done). done.
Qed.

(** Two calls of [htif_getc] that find no character, each of which asks for
    one; the host's answers, [a] and [b], come while [htif_putc] waits. *)
Definition lossy (a b : Z) : list htif_act :=
  [DoGetc; DoDriver; DoDriver; DoDriver; DoDriver; DoTake] ++
  [DoGetc; DoDriver; DoDriver; DoDriver; DoDriver; DoTake; DoAnswer (REQUEST DEV_CONSOLE CMD_GETC a)] ++
  [DoPutc 120; DoDriver; DoDriver] ++
  [DoPutc 121; DoDriver; DoDriver; DoDriver; DoTake; DoAnswer (REQUEST DEV_CONSOLE CMD_GETC b); DoDriver; DoDriver] ++
  [DoPutc 122; DoDriver; DoDriver; DoDriver; DoTake; DoDriver; DoDriver; DoTake] ++
  [DoGetc; DoDriver; DoDriver; DoDriver; DoTake].

(** A character of the host can get lost: [htif_getc] asks again while the
    first request has no answer, so two can come, and the driver keeps
    one. *)
Theorem htif_char_lost :
  exists s, htif_reachable s /\ pc s = Idle /\ chars s = [97; 98] /\ got s = [98] /\ on_the_way s = [].
Proof.
  destruct (foldl (fun s a => s ≫= act a) (Some htif_init) (lossy 97 98)) as [s|] eqn:E; [|by vm_compute in E].
  exists s. split; [by eapply acts_sound|]. vm_compute in E. by injection E as <-.
Qed.
