(* ===== verification/Trap.v ===== *)
(** Traps into the monitor, [arch/riscv/runtime/trap.c]: what is known of a
    trap ([trap_info]), the machine the handlers work on ([machine]), and
    handing a trap to S-mode ([trap_redirect]).

    The handlers that emulate instructions are in [Unpriv.v], [Misaligned.v],
    [MisalignedVector.v] and [IllegalInsn.v]; [TrapHandler.v] puts them
    together. *)

From S2P Require Import Prelude Arch Csr Fields.
From Stdlib Require Import Btauto.

#[local] Open Scope Z_scope.

(** ** Numbers ([csr.h]) *)

Definition CSR_MCAUSE : Z := 0x342.
Definition CSR_MTVAL : Z := 0x343.
Definition CSR_MTINST : Z := 0x34a.
Definition CSR_MTVAL2 : Z := 0x34b.
Definition CSR_MISA : Z := 0x301.
Definition CSR_HTVAL : Z := 0x643.
Definition CSR_HTINST : Z := 0x64a.
Definition CSR_HCOUNTEREN : Z := 0x606.

Definition PRV_M : Z := 3.
Definition MSTATUS_MIE_BIT : Z := 3.
Definition MSTATUS_MXR_BIT : Z := 19.
Definition MSTATUS_GVA_BIT : Z := 38. (* RV64 *)
Definition MSTATUSH_GVA_BIT : Z := 6. (* RV32 *)
Definition HSTATUS_GVA_BIT : Z := 6.

Definition CAUSE_FETCH_ACCESS : Z := 1.
Definition CAUSE_ILLEGAL_INSN : Z := 2.
Definition CAUSE_MISALIGNED_LOAD : Z := 4.
Definition CAUSE_LOAD_ACCESS : Z := 5.
Definition CAUSE_MISALIGNED_STORE : Z := 6.
Definition CAUSE_STORE_ACCESS : Z := 7.
Definition CAUSE_SUPERVISOR_ECALL : Z := 9.
Definition CAUSE_FETCH_PAGE_FAULT : Z := 12.
Definition CAUSE_LOAD_PAGE_FAULT : Z := 13.
Definition CAUSE_STORE_PAGE_FAULT : Z := 15.
Definition CAUSE_DOUBLE_TRAP : Z := 16.
Definition CAUSE_FETCH_GUEST_PAGE_FAULT : Z := 20.
Definition CAUSE_LOAD_GUEST_PAGE_FAULT : Z := 21.
Definition CAUSE_VIRTUAL_INSN : Z := 22.
Definition CAUSE_STORE_GUEST_PAGE_FAULT : Z := 23.
Definition CAUSE_IRQ_FLAG {AR : Arch} : Z := BIT (XLEN - 1).

(** ** The machine *)

Record trap_info : Set := TrapInfo {
  ti_cause : Z;
  ti_tval : Z;
  ti_tval2 : Z; (* H extension *)
  ti_tinst : Z; (* H extension *)
  ti_gva : bool; (* tval is a guest virtual address *)
  ti_virt : bool; (* taken from VS/VU-mode *)
}.
#[export] Instance trap_info_eta : Settable trap_info := fun i =>
  TrapInfo (ti_cause i) (ti_tval i) (ti_tval2 i) (ti_tinst i) (ti_gva i) (ti_virt i).
Definition trap_info_zero : trap_info := TrapInfo 0 0 0 0 false false.

(** [trap_expected] and the rest of it, of [struct hart]. *)
Record hart_trap : Set := HartTrap {
  ht_expected : bool;
  ht_taken : bool;
  ht_cause : Z;
  ht_tval : Z;
  ht_tval2 : Z;
  ht_tinst : Z;
  ht_gva : bool;
}.
#[export] Instance hart_trap_eta : Settable hart_trap := fun t =>
  HartTrap (ht_expected t) (ht_taken t) (ht_cause t) (ht_tval t) (ht_tval2 t) (ht_tinst t) (ht_gva t).

(** Calls of other components, the last first. *)
Inductive tcall : Set :=
| SseRaiseLocal (event : Z)
| PmuFwEvent (event : Z)
| TimerProcess
| IpiProcess
| RasIrq (irq : Z)
| MpxyIndicate
| SseProcess
| DomainStopSelf.

(** The hart that took the trap, and memory, by physical address. *)
Record machine : Type := Machine {
  m_csrs : csr_file;
  m_mem : gmap Z Z; (* bytes *)
  m_fp : list Z; (* f0..f31 *)
  m_vregs : list (list Z); (* v0..v31, bytes *)
  m_trap : hart_trap;
  m_calls : list tcall;
  m_fatal : bool; (* a trap from M-mode has ended in [trap_fatal]: the hart has panicked *)
}.
#[export] Instance machine_eta : Settable machine := fun m =>
  Machine (m_csrs m) (m_mem m) (m_fp m) (m_vregs m) (m_trap m) (m_calls m) (m_fatal m).

(** A handler comes back, prints the registers and panics, or halts the
    hart. *)
Inductive tresult (A : Type) : Type := TRet (a : A) | TFatal | THalt.
Arguments TRet {A} a.
Arguments TFatal {A}.
Arguments THalt {A}.

#[export] Instance tresult_ret : MRet tresult := fun A a => TRet a.
#[export] Instance tresult_bind : MBind tresult :=
  fun A B f m => match m with TRet a => f a | TFatal => TFatal | THalt => THalt end.

(** What the rest of the monitor answers. *)
Class TrapEnv := {
  te_double_trap_ready : bool; (* sse_raise_local(SSE_EVENT_LOCAL_DOUBLE_TRAP) *)
}.

Section Redirect.
Context {AR : Arch} {F : Features} {TE : TrapEnv}.

Definition m_read (m : machine) (csr : Z) : Z := csr_read (m_csrs m) csr.
Definition m_write (m : machine) (csr v : Z) : machine := m <| m_csrs ::= (fun c => csr_write c csr v) |>.
Definition m_call (m : machine) (t : tcall) : machine := m <| m_calls ::= cons t |>.

Definition trap_info_read (m : machine) (regs : trap_regs) : trap_info :=
  let info := TrapInfo (m_read m CSR_MCAUSE) (m_read m CSR_MTVAL) 0 0 false false in
  if negb (hart_has HART_FEAT_H) then info
  else
    let info := info <| ti_tval2 := m_read m CSR_MTVAL2 |> <| ti_tinst := m_read m CSR_MTINST |> in
    match arch_xlen with
    | RV64 => info <| ti_gva := bit (tr_mstatus regs) MSTATUS_GVA_BIT |> <| ti_virt := bit (tr_mstatus regs) MSTATUS_MPV_BIT |>
    | RV32 => info <| ti_gva := bit (m_read m CSR_MSTATUSH) MSTATUSH_GVA_BIT |>
                   <| ti_virt := bit (m_read m CSR_MSTATUSH) MSTATUSH_MPV_BIT |>
    end.

Definition SSE_LOCAL_DOUBLE_TRAP : Z := 1.

Definition trap_double (m : machine) (regs : trap_regs) : tresult (trap_regs * machine) :=
  let m := m_call m (SseRaiseLocal SSE_LOCAL_DOUBLE_TRAP) in
  if te_double_trap_ready then TRet (regs, m) else THalt.

(** The trap lands in HS-mode: hstatus, and htval and htinst. *)
Definition redirect_hstatus (hstatus prev : Z) (info : trap_info) : Z :=
  let hstatus := Z.land hstatus (unot (Z.lor (BIT HSTATUS_SPV_BIT) (BIT HSTATUS_GVA_BIT))) in
  let hstatus :=
    if ti_virt info then
      let hstatus := bit_on hstatus HSTATUS_SPV_BIT in
      let hstatus := bit_off hstatus HSTATUS_SPVP_BIT in
      if prev =? PRV_S then bit_on hstatus HSTATUS_SPVP_BIT else hstatus
    else hstatus in
  if ti_gva info then bit_on hstatus HSTATUS_GVA_BIT else hstatus.

Definition redirect_h (m : machine) (mstatus prev : Z) (info : trap_info) : machine * Z :=
  if hart_has HART_FEAT_H then
    let m := m_write m CSR_HSTATUS (redirect_hstatus (m_read m CSR_HSTATUS) prev info) in
    let m := m_write m CSR_HTVAL (ti_tval2 info) in
    let m := m_write m CSR_HTINST (ti_tinst info) in
    match arch_xlen with
    | RV64 => (m, Z.land mstatus (unot (Z.lor (BIT MSTATUS_MPV_BIT) (BIT MSTATUS_GVA_BIT))))
    | RV32 => (m <| m_csrs ::= (fun c => csr_clear c CSR_MSTATUSH (Z.lor (BIT MSTATUSH_MPV_BIT) (BIT MSTATUSH_GVA_BIT))) |>, mstatus)
    end
  else (m, mstatus).

(** What the hardware does on a trap into S-mode. *)
Definition redirect_mstatus (mstatus prev : Z) : Z :=
  let mstatus := Z.land mstatus (unot (Z.lor (Z.lor (BIT MSTATUS_SPP_BIT) (BIT MSTATUS_SPIE_BIT)) MSTATUS_MPP)) in
  let mstatus := if prev =? PRV_S then bit_on mstatus MSTATUS_SPP_BIT else mstatus in
  let mstatus := if bit mstatus MSTATUS_SIE_BIT then bit_on mstatus MSTATUS_SPIE_BIT else mstatus in
  let mstatus := bit_off mstatus MSTATUS_SIE_BIT in
  Z.lor mstatus (ushl PRV_S MSTATUS_MPP_SHIFT).

Definition trap_redirect (m : machine) (regs : trap_regs) (info : trap_info) : tresult (trap_regs * machine) :=
  let prev := get_field_ul (tr_mstatus regs) MSTATUS_MPP in
  let mstatus := tr_mstatus regs in
  if prev =? PRV_M then TFatal
  else
    let double := hart_smode_double_trap_enabled (m_csrs m) in
    if double && bit mstatus MSTATUS_SDT_BIT then trap_double m regs
    else
      let mstatus := if double then bit_on mstatus MSTATUS_SDT_BIT else mstatus in
      let '(m, mstatus) := redirect_h m mstatus prev info in
      let m := m_write m CSR_SCAUSE (ti_cause info) in
      let m := m_write m CSR_STVAL (ti_tval info) in
      let m := m_write m CSR_SEPC (tr_mepc regs) in
      TRet (regs <| tr_mstatus := redirect_mstatus mstatus prev |>
                 <| tr_mepc := Z.land (m_read m CSR_STVEC) (unot 3) |>, m).
End Redirect.

(** * Where a redirected trap goes, and comes back to

    The reference is the privileged specification: the state an MRET from
    the trap frame goes on in, and the one an SRET of S-mode's handler does. *)

Record resumed : Set := Resumed { rs_pc : Z; rs_prv : Z; rs_virt : bool; rs_sie : bool }.

Section Reference.
Context {AR : Arch} {F : Features}.

(** MRET: to MPP, in a guest if MPV says so. *)
Definition mret (m : machine) (regs : trap_regs) : resumed := {|
  rs_pc := tr_mepc regs;
  rs_prv := get_field_ul (tr_mstatus regs) MSTATUS_MPP;
  rs_virt := hart_has HART_FEAT_H &&
             match arch_xlen with
             | RV64 => Z.testbit (tr_mstatus regs) MSTATUS_MPV_BIT
             | RV32 => Z.testbit (m_read m CSR_MSTATUSH) MSTATUSH_MPV_BIT
             end;
  rs_sie := Z.testbit (tr_mstatus regs) MSTATUS_SIE_BIT;
|}.

(** SRET with the mstatus it finds: to SPP, in a guest if hstatus.SPV says
    so, SIE from SPIE. *)
Definition sret (m : machine) (mstatus : Z) : resumed := {|
  rs_pc := m_read m CSR_SEPC;
  rs_prv := if Z.testbit mstatus MSTATUS_SPP_BIT then PRV_S else PRV_U;
  rs_virt := hart_has HART_FEAT_H && Z.testbit (m_read m CSR_HSTATUS) HSTATUS_SPV_BIT;
  rs_sie := Z.testbit mstatus MSTATUS_SPIE_BIT;
|}.

(** The registers a redirect writes. *)
Definition redirect_csrs : list Z :=
  [CSR_SCAUSE; CSR_STVAL; CSR_SEPC] ++
  (if hart_has HART_FEAT_H then [CSR_HSTATUS; CSR_HTVAL; CSR_HTINST; CSR_MSTATUSH] else []).

(** The interrupted context is S- or U-mode's, and words are words. *)
Record frame_ok (m : machine) (regs : trap_regs) : Prop := {
  fo_mstatus : is_ulong (tr_mstatus regs);
  fo_mepc : is_ulong (tr_mepc regs);
  fo_below : Z.testbit (tr_mstatus regs) 12 = false;
  fo_csrs : csr_wf (m_csrs m);
}.

Lemma m_read_ulong (m : machine) (r : Z) : csr_wf (m_csrs m) -> is_ulong (m_read m r).
Proof. apply csr_read_wf. Qed.
Lemma m_read_write (m : machine) (a v r : Z) :
  m_read (m_write m a v) r = if decide (a = r) then wrap v else m_read m r.
Proof. apply csr_read_write. Qed.
Lemma m_read_ne (m : machine) (a v r : Z) : a <> r -> m_read (m_write m a v) r = m_read m r.
Proof. intros Hn. by rewrite m_read_write, decide_False. Qed.
Lemma m_read_eq (m : machine) (a v : Z) : is_ulong v -> m_read (m_write m a v) a = v.
Proof. intros Hv. rewrite m_read_write, decide_True by done. by apply wrap_small. Qed.

(** *** mstatus, bit by bit *)

Lemma redirect_mstatus_bits (ms prev : Z) :
  is_ulong ms ->
  let ms' := redirect_mstatus ms prev in
  is_ulong ms' /\
  forall i, 0 <= i -> Z.testbit ms' i =
    if i =? MSTATUS_SIE_BIT then false
    else if i =? MSTATUS_SPIE_BIT then Z.testbit ms MSTATUS_SIE_BIT
    else if i =? MSTATUS_SPP_BIT then (prev =? PRV_S)
    else if i =? 11 then true else if i =? 12 then false
    else Z.testbit ms i.
Proof.
  intros Hms. cbv zeta. unfold redirect_mstatus. rewrite off_three, on_PRV_S by done.
  pose proof XLEN_bounds. unfold MSTATUS_SIE_BIT, MSTATUS_SPIE_BIT, MSTATUS_SPP_BIT.
  set (v := bit_off _ 12). assert (is_ulong v) as Hv by (unfold v; ulong).
  set (w := if prev =? PRV_S then _ else v). assert (is_ulong w) as Hw by (unfold w; ulong).
  split; [ulong|]. intros i Hi. rewrite bit_testbit by lia.
  assert (Z.testbit w 1 = Z.testbit ms 1) as E1 by (unfold w, v; fields; bools; destruct (prev =? PRV_S); done).
  rewrite E1. fields. unfold w, v. fields.
  destruct (Z.eqb_spec i 1) as [E|]; [subst i|destruct (Z.eqb_spec i 5) as [E|]; [subst i|destruct (Z.eqb_spec i 8) as [E|];
    [subst i|destruct (Z.eqb_spec i 11) as [E|]; [subst i|destruct (Z.eqb_spec i 12) as [E|]; [subst i|]]]]];
    destruct (prev =? PRV_S), (Z.testbit ms 1); cbn; try done; rewrite ?andb_true_r, ?orb_false_r; done.
Qed.

Lemma redirect_hstatus_bits (hs prev : Z) (info : trap_info) :
  is_ulong hs ->
  is_ulong (redirect_hstatus hs prev info) /\
  Z.testbit (redirect_hstatus hs prev info) HSTATUS_SPV_BIT = ti_virt info /\
  Z.testbit (redirect_hstatus hs prev info) HSTATUS_GVA_BIT = ti_gva info /\
  Z.testbit (redirect_hstatus hs prev info) HSTATUS_SPVP_BIT =
    if ti_virt info then prev =? PRV_S else Z.testbit hs HSTATUS_SPVP_BIT.
Proof.
  intros Hh. unfold redirect_hstatus. rewrite off_two by done. pose proof XLEN_bounds.
  unfold HSTATUS_SPV_BIT, HSTATUS_GVA_BIT, HSTATUS_SPVP_BIT.
  split; [ulong|]. destruct (ti_virt info), (ti_gva info), (prev =? PRV_S); fields; bools; done.
Qed.

Lemma redirect_h_spec (m : machine) (ms prev : Z) (info : trap_info) :
  csr_wf (m_csrs m) -> is_ulong ms ->
  let '(m', ms') := redirect_h m ms prev info in
  csr_wf (m_csrs m') /\ is_ulong ms' /\
  m' = m <| m_csrs := m_csrs m' |> /\
  (forall r, r ∉ redirect_csrs -> m_read m' r = m_read m r) /\
  (hart_has HART_FEAT_H = true -> Z.testbit (m_read m' CSR_HSTATUS) HSTATUS_SPV_BIT = ti_virt info) /\
  (hart_has HART_FEAT_H = true -> match arch_xlen with
     | RV64 => Z.testbit ms' MSTATUS_MPV_BIT = false | RV32 => Z.testbit (m_read m' CSR_MSTATUSH) MSTATUSH_MPV_BIT = false end) /\
  (forall i, 0 <= i -> i <> MSTATUS_MPV_BIT -> i <> MSTATUS_GVA_BIT -> Z.testbit ms' i = Z.testbit ms i).
Proof.
  intros Hwf Hms. unfold redirect_h, redirect_csrs. destruct (hart_has HART_FEAT_H); [|by destruct m].
  destruct (redirect_hstatus_bits (m_read m CSR_HSTATUS) prev info (m_read_ulong m _ Hwf)) as (Hu & Hspv & _ & _).
  set (m1 := m_write (m_write (m_write m _ _) _ _) _ _).
  assert (csr_wf (m_csrs m1)) as Hwf1 by (repeat apply csr_write_wf; exact Hwf).
  assert (m_read m1 CSR_HSTATUS = redirect_hstatus (m_read m CSR_HSTATUS) prev info) as Eh.
  { unfold m1. rewrite !m_read_ne by done. by apply m_read_eq. }
  assert (forall r, r ∉ [CSR_HSTATUS; CSR_HTVAL; CSR_HTINST] -> m_read m1 r = m_read m r) as Eo.
  { intros r Hr. unfold m1. rewrite !not_elem_of_cons in Hr. destruct Hr as (? & ? & ? & _). by rewrite !m_read_ne. }
  pose proof XLEN_bounds. destruct arch_xlen eqn:EX.
  - assert (XLEN = 32) as E32 by (unfold XLEN; by rewrite EX).
    split_and!; try done.
    + by apply csr_clear_wf.
    + intros r Hr. rewrite !not_elem_of_app, !not_elem_of_cons in Hr. destruct Hr as (_ & ? & ? & ? & ? & _).
      trans (m_read m1 r); [by apply m_read_ne|]. apply Eo. rewrite !not_elem_of_cons. split_and!; try done. apply not_elem_of_nil.
    + intros _. trans (Z.testbit (m_read m1 CSR_HSTATUS) HSTATUS_SPV_BIT); [f_equal; by apply m_read_ne|]. by rewrite Eh.
    + intros _. unfold MSTATUSH_MPV_BIT, MSTATUSH_GVA_BIT.
      trans (Z.testbit (bit_off (bit_off (m_read m1 CSR_MSTATUSH) 7) 6) 7).
      * f_equal. rewrite <- off_two by (by apply m_read_ulong). apply (m_read_eq m1).
        apply is_ulong_land; [by apply m_read_ulong|apply wrap_range].
      * pose proof (m_read_ulong m1 CSR_MSTATUSH Hwf1). fields; bools.
  - assert (XLEN = 64) as E64 by (unfold XLEN; by rewrite EX).
    rewrite off_two by done. unfold MSTATUS_MPV_BIT, MSTATUS_GVA_BIT. split_and!; try done.
    + ulong.
    + intros r Hr. rewrite !not_elem_of_app, !not_elem_of_cons in Hr. destruct Hr as (_ & ? & ? & ? & ? & _).
      apply Eo. rewrite !not_elem_of_cons. split_and!; try done. apply not_elem_of_nil.
    + intros _. by rewrite Eh.
    + intros _. fields; bools.
    + intros i Hi H1 H2. fields. destruct (Z.eqb_spec i 39), (Z.eqb_spec i 38); try lia. done.
Qed.

(** a redirected trap is one S-mode can return from. [trap_redirect] goes
    on in S-mode (HS-mode) at the base of stvec with interrupts off, with
    cause, value and pc of the trap in its registers; and the SRET of its
    handler goes back to the very pc, privilege mode, virtualisation and
    interrupt enable the trap came from. Nothing else of the machine changes. *)
Theorem trap_redirect_sret {TE : TrapEnv} (m : machine) (regs : trap_regs) (info : trap_info) :
  frame_ok m regs -> is_ulong (ti_cause info) -> is_ulong (ti_tval info) ->
  hart_smode_double_trap_enabled (m_csrs m) && bit (tr_mstatus regs) MSTATUS_SDT_BIT = false ->
  exists regs' m', trap_redirect m regs info = TRet (regs', m') /\
    mret m' regs' = Resumed (Z.land (m_read m CSR_STVEC) (unot 3)) PRV_S false false /\
    sret m' (tr_mstatus regs') =
      Resumed (tr_mepc regs) (get_field_ul (tr_mstatus regs) MSTATUS_MPP)
        (hart_has HART_FEAT_H && ti_virt info) (Z.testbit (tr_mstatus regs) MSTATUS_SIE_BIT) /\
    m_read m' CSR_SCAUSE = ti_cause info /\ m_read m' CSR_STVAL = ti_tval info /\
    tr_x regs' = tr_x regs /\
    m' = m <| m_csrs := m_csrs m' |> /\ (forall r, r ∉ redirect_csrs -> m_read m' r = m_read m r).
Proof.
  intros [Hms Hpc H12 Hwf] Hc Hv Hd. unfold trap_redirect. rewrite MPP_value by done.
  destruct ((if Z.testbit (tr_mstatus regs) 11 then PRV_S else PRV_U) =? PRV_M) eqn:EM;
    [by destruct (Z.testbit (tr_mstatus regs) 11)|]. rewrite Hd.
  set (ms1 := if hart_smode_double_trap_enabled (m_csrs m) then _ else _).
  set (prev := if Z.testbit (tr_mstatus regs) 11 then PRV_S else PRV_U).
  pose proof XLEN_bounds as HX.
  assert (is_ulong ms1) as Hms1 by (unfold ms1; ulong).
  assert (Z.testbit ms1 MSTATUS_SIE_BIT = Z.testbit (tr_mstatus regs) MSTATUS_SIE_BIT) as Esie.
  { unfold ms1, MSTATUS_SIE_BIT, MSTATUS_SDT_BIT. fields; bools. }
  pose proof (redirect_h_spec m ms1 prev info Hwf Hms1) as Hh.
  destruct (redirect_h m ms1 prev info) as [m1 ms2]. destruct Hh as (Hwf1 & Hms2 & Em & Er & Espv & Empv & Eb).
  destruct (redirect_mstatus_bits ms2 prev Hms2) as [Hms3 Hbits].
  set (m2 := m_write (m_write (m_write m1 _ _) _ _) _ _).
  assert (forall r, r ∉ [CSR_SCAUSE; CSR_STVAL; CSR_SEPC] -> m_read m2 r = m_read m1 r) as Eo.
  { intros r Hr. rewrite !not_elem_of_cons in Hr. destruct Hr as (? & ? & ? & _). unfold m2. by rewrite !m_read_ne. }
  exists (regs <| tr_mstatus := redirect_mstatus ms2 prev |> <| tr_mepc := Z.land (m_read m2 CSR_STVEC) (unot 3) |>), m2.
  assert (m_read m2 CSR_STVEC = m_read m CSR_STVEC) as Estv.
  { rewrite Eo by (apply (bool_decide_unpack _); vm_compute; exact I). apply Er. unfold redirect_csrs.
    destruct (hart_has HART_FEAT_H); apply (bool_decide_unpack _); vm_compute; exact I. }
  split; [done|]. split_and!.
  - unfold mret. cbn [tr_mepc tr_mstatus]. rewrite Estv. f_equal.
    + rewrite MPP_value; [|done|]; by rewrite Hbits.
    + destruct (hart_has HART_FEAT_H) eqn:EH; [|done]. cbn [andb]. specialize (Empv eq_refl).
      destruct arch_xlen eqn:EX; cbn [tr_mstatus]; [|by rewrite Hbits].
      by rewrite Eo by (apply (bool_decide_unpack _); vm_compute; exact I).
    + by rewrite Hbits.
  - unfold sret. cbn [tr_mstatus]. f_equal.
    + apply m_read_eq. done.
    + rewrite Hbits by done. unfold prev. by destruct (Z.testbit (tr_mstatus regs) 11).
    + destruct (hart_has HART_FEAT_H) eqn:EH; [|done]. cbn [andb]. rewrite Eo by (apply (bool_decide_unpack _); vm_compute; exact I).
      by apply Espv.
    + rewrite Hbits by done. change (MSTATUS_SPIE_BIT =? MSTATUS_SIE_BIT) with false.
      change (MSTATUS_SPIE_BIT =? MSTATUS_SPIE_BIT) with true. cbv iota. by rewrite Eb, Esie.
  - unfold m2. rewrite !m_read_ne by done. by apply m_read_eq.
  - unfold m2. rewrite m_read_ne by done. by apply m_read_eq.
  - done.
  - unfold m2. rewrite Em. done.
  - intros r Hr. unfold redirect_csrs in Hr. rewrite not_elem_of_app in Hr. destruct Hr as [Hr1 Hr2].
    rewrite Eo by done. apply Er. unfold redirect_csrs. rewrite not_elem_of_app. done.
Qed.
End Reference.
