(* ===== verification/Unpriv.v ===== *)
(** Memory as the trapping context sees it, [arch/riscv/runtime/unpriv.c] and
    [arch/riscv/include/arch/unpriv.h].

    What the hardware makes of an access is a parameter ([Mmu]): from the
    mstatus it runs under, the physical address, or the trap it takes. The
    rest of what translation and protection go by (satp, hgatp, the PMP) is
    not touched while a trap is handled. *)

From S2P Require Import Prelude Arch Csr Fields Trap.

#[local] Open Scope Z_scope.
#[local] Set Warnings "-clear-no-such-hyp".

Inductive access_kind : Set := AccLoad | AccStore.

(** A trap of the hardware's. *)
Record hw_trap : Set := HwTrap { hx_cause : Z; hx_tval : Z; hx_tval2 : Z; hx_tinst : Z; hx_gva : bool }.

(** [mmu_access mstatus kind addr width] *)
Class Mmu := mmu_access : Z -> access_kind -> Z -> Z -> Z + hw_trap.

(** ** Bytes of memory *)

Definition mem_byte (mem : gmap Z Z) (a : Z) : Z := default 0 (mem !! a).

(** [n] bytes from [a] on, the lowest first. *)
Fixpoint load_le (mem : gmap Z Z) (a : Z) (n : nat) : Z :=
  match n with
  | O => 0
  | S n => mem_byte mem a + 256 * load_le mem (a + 1) n
  end.

Section Unpriv.
Context {AR : Arch} {F : Features} {MM : Mmu}.

(** ** A trap that is expected *)

(** What the hardware does for a trap from M-mode. *)
Definition hw_trap_m (m : machine) (t : hw_trap) : machine :=
  let m := m_write m CSR_MCAUSE (hx_cause t) in
  let m := m_write m CSR_MTVAL (hx_tval t) in
  let ms := m_read m CSR_MSTATUS in
  let ms := if bit ms MSTATUS_MIE_BIT then bit_on ms MSTATUS_MPIE_BIT else bit_off ms MSTATUS_MPIE_BIT in
  let ms := Z.lor (bit_off ms MSTATUS_MIE_BIT) MSTATUS_MPP in
  if hart_has HART_FEAT_H then
    let m := m_write m CSR_MTVAL2 (hx_tval2 t) in
    let m := m_write m CSR_MTINST (hx_tinst t) in
    let fields v mpv gva := if hx_gva t then bit_on (bit_off v mpv) gva else bit_off (bit_off v mpv) gva in
    match arch_xlen with
    | RV64 => m_write m CSR_MSTATUS (fields ms MSTATUS_MPV_BIT MSTATUS_GVA_BIT)
    | RV32 => m_write (m_write m CSR_MSTATUS ms) CSR_MSTATUSH (fields (m_read m CSR_MSTATUSH) MSTATUSH_MPV_BIT MSTATUSH_GVA_BIT)
    end
  else m_write m CSR_MSTATUS ms.

(** [trap_handler] of a trap from M-mode; [None]: not one that is expected.
    [mstatus] is that of the trap's frame. *)
Definition trap_handler_m (m : machine) (mstatus : Z) : option machine :=
  if ht_expected (m_trap m) then
    let t := (m_trap m) <| ht_taken := true |> <| ht_cause := m_read m CSR_MCAUSE |> <| ht_tval := m_read m CSR_MTVAL |> in
    let t :=
      if hart_has HART_FEAT_H then
        t <| ht_tval2 := m_read m CSR_MTVAL2 |> <| ht_tinst := m_read m CSR_MTINST |>
          <| ht_gva := match arch_xlen with
                       | RV64 => bit mstatus MSTATUS_GVA_BIT
                       | RV32 => bit (m_read m CSR_MSTATUSH) MSTATUSH_GVA_BIT
                       end |>
      else t in
    Some (m <| m_trap := t |>)
  else None.

(** MRET back to M-mode. *)
Definition hw_mret_m (m : machine) : machine :=
  let ms := m_read m CSR_MSTATUS in
  let ms := if bit ms MSTATUS_MPIE_BIT then bit_on ms MSTATUS_MIE_BIT else bit_off ms MSTATUS_MIE_BIT in
  m_write m CSR_MSTATUS (Z.land (bit_on ms MSTATUS_MPIE_BIT) (unot MSTATUS_MPP)).

(** An access that traps: skipped, with the trap on record. On a machine that
    does not expect it the hart ends in [trap_fatal], a panic, here or
    wherever a panic is not a result of its own: [m_fatal], which nothing
    clears. *)
Definition access_traps (m : machine) (t : hw_trap) : machine :=
  let m := hw_trap_m m t in
  match trap_handler_m m (m_read m CSR_MSTATUS) with
  | Some m => hw_mret_m m
  | None => m <| m_fatal := true |>
  end.

(** ** The window *)

Record unpriv_window : Set := UnprivWindow { uw_mstatus : Z; uw_mstatush : Z (* RV32 *) }.

Definition unpriv_begin (m : machine) (regs : trap_regs) (extra : Z) : unpriv_window * machine :=
  let w := UnprivWindow (m_read m CSR_MSTATUS)
             match arch_xlen with
             | RV32 => if hart_has HART_FEAT_H then m_read m CSR_MSTATUSH else 0
             | RV64 => 0
             end in
  let m := m <| m_trap := (m_trap m) <| ht_taken := false |> <| ht_expected := true |> |> in
  (w, m_write m CSR_MSTATUS (Z.lor (bit_off (tr_mstatus regs) MSTATUS_MPRV_BIT) extra)).

(** [None]: the access went through. *)
Definition unpriv_end (m : machine) (regs : trap_regs) (w : unpriv_window) : option trap_info * machine :=
  let m := m_write m CSR_MSTATUS (uw_mstatus w) in
  let m := m <| m_trap := (m_trap m) <| ht_expected := false |> |> in
  let t := m_trap m in
  if negb (ht_taken t) then (None, m)
  else
    let fault := trap_info_zero <| ti_cause := ht_cause t |> <| ti_tval := ht_tval t |> in
    if negb (hart_has HART_FEAT_H) then (Some fault, m)
    else
      let '(m, virt) := match arch_xlen with
                        | RV32 => (m_write m CSR_MSTATUSH (uw_mstatush w), bit (uw_mstatush w) MSTATUSH_MPV_BIT)
                        | RV64 => (m, bit (tr_mstatus regs) MSTATUS_MPV_BIT)
                        end in
      let fault := fault <| ti_virt := virt |> <| ti_gva := ht_gva t |> <| ti_tval2 := ht_tval2 t |> in
      let fault := if Z.land (ht_tinst t) (unot 0x1020) =? 0x2000 then fault <| ti_tinst := ht_tinst t |> else fault in
      (Some fault, m).

(** [UNPRIV_INSN]: MPRV around the one instruction. *)
Definition unpriv_insn {A : Type} (m : machine) (kind : access_kind) (addr width : Z)
    (fault : A) (done : Z -> machine -> A * machine) : A * machine :=
  let m := m <| m_csrs ::= (fun c => csr_set c CSR_MSTATUS (BIT MSTATUS_MPRV_BIT)) |> in
  let '(a, m) :=
    match mmu_access (m_read m CSR_MSTATUS) kind addr width with
    | inl pa => done pa m
    | inr t => (fault, access_traps m t)
    end in
  (a, m <| m_csrs ::= (fun c => csr_clear c CSR_MSTATUS (BIT MSTATUS_MPRV_BIT)) |>).

(** lbu, lhu, lwu, ld; lw on RV32. *)
Definition load_width (width : Z) : Z :=
  if width =? 1 then 1 else if width =? 2 then 2
  else match arch_xlen with RV64 => if width =? 4 then 4 else 8 | RV32 => 4 end.

Definition unpriv_load (m : machine) (regs : trap_regs) (addr width : Z) (exec : bool) : (Z + trap_info) * machine :=
  let '(w, m) := unpriv_begin m regs (if exec then BIT MSTATUS_MXR_BIT else 0) in
  let '(v, m) := unpriv_insn m AccLoad addr (load_width width) 0
                   (fun pa m => (load_le (m_mem m) pa (Z.to_nat (load_width width)), m)) in
  let '(fault, m) := unpriv_end m regs w in
  (match fault with Some f => inr f | None => inl v end, m).

Definition unpriv_read (m : machine) (regs : trap_regs) (addr width : Z) : (Z + trap_info) * machine :=
  unpriv_load m regs addr width false.

Definition unpriv_write_byte (m : machine) (regs : trap_regs) (addr val : Z) : option trap_info * machine :=
  let '(w, m) := unpriv_begin m regs 0 in
  let '(_, m) := unpriv_insn m AccStore addr 1 tt (fun pa m => (tt, m <| m_mem ::= <[pa := val mod 256]> |>)) in
  unpriv_end m regs w.

(** The load fault as the matching instruction fetch fault. *)
Definition fetch_cause (cause : Z) : Z :=
  if cause =? CAUSE_LOAD_ACCESS then CAUSE_FETCH_ACCESS
  else if cause =? CAUSE_LOAD_PAGE_FAULT then CAUSE_FETCH_PAGE_FAULT
  else if cause =? CAUSE_LOAD_GUEST_PAGE_FAULT then CAUSE_FETCH_GUEST_PAGE_FAULT
  else cause.

Definition unpriv_fetch_insn (m : machine) (regs : trap_regs) : (Z + trap_info) * machine :=
  match unpriv_load m regs (tr_mepc regs) 2 true with
  | (inr f, m) => (inr (f <| ti_cause := fetch_cause (ti_cause f) |>), m)
  | (inl lo, m) =>
      if negb (Z.land lo 3 =? 3) then (inl lo, m)
      else
        match unpriv_load m regs (tr_mepc regs +! 2) 2 true with
        | (inr f, m) => (inr (f <| ti_cause := fetch_cause (ti_cause f) |>), m)
        | (inl hi, m) => (inl (Z.lor lo (ushl hi 16)), m)
        end
  end.
End Unpriv.

(** * A trap of an access is an expected one *)

Section Expected.
Context {AR : Arch} {F : Features} {MM : Mmu}.

Lemma hw_trap_m_rest (m : machine) (t : hw_trap) : m_trap (hw_trap_m m t) = m_trap m /\ m_fatal (hw_trap_m m t) = m_fatal m.
Proof. unfold hw_trap_m. destruct (hart_has _); [destruct arch_xlen|]; done. Qed.

Lemma access_traps_fatal (m : machine) (t : hw_trap) : ht_expected (m_trap m) = true -> m_fatal (access_traps m t) = m_fatal m.
Proof.
  intros Hx. destruct (hw_trap_m_rest m t) as [E1 E2]. unfold access_traps, trap_handler_m. by rewrite E1, Hx.
Qed.

Lemma unpriv_begin_expects (m : machine) (regs : trap_regs) (extra : Z) :
  let m' := snd (unpriv_begin m regs extra) in ht_expected (m_trap m') = true /\ m_fatal m' = m_fatal m.
Proof. done. Qed.

Lemma unpriv_end_fatal (m : machine) (regs : trap_regs) (w : unpriv_window) : m_fatal (snd (unpriv_end m regs w)) = m_fatal m.
Proof. unfold unpriv_end. repeat case_match; simplify_eq/=; done. Qed.

Lemma unpriv_insn_fatal {A : Type} (m : machine) (kind : access_kind) (addr width : Z) (fault : A) (done : Z -> machine -> A * machine) :
  ht_expected (m_trap m) = true -> (forall pa m, m_fatal (snd (done pa m)) = m_fatal m) ->
  m_fatal (snd (unpriv_insn m kind addr width fault done)) = m_fatal m.
Proof.
  intros Hx Hd. unfold unpriv_insn. set (m1 := m <| m_csrs ::= _ |>).
  destruct (mmu_access _ _ _ _) as [pa|t].
  - pose proof (Hd pa m1) as H. by destruct (done pa m1).
  - exact (access_traps_fatal m1 t Hx).
Qed.

Lemma unpriv_load_fatal (m : machine) (regs : trap_regs) (addr width : Z) (exec : bool) :
  m_fatal (snd (unpriv_load m regs addr width exec)) = m_fatal m.
Proof.
  unfold unpriv_load. destruct (unpriv_begin_expects m regs (if exec then BIT MSTATUS_MXR_BIT else 0)) as [Hx Hf].
  destruct (unpriv_begin _ _ _) as [w m1]. cbn [snd] in Hx, Hf.
  pose proof (unpriv_insn_fatal m1 AccLoad addr (load_width width) 0
    (fun pa m => (load_le (m_mem m) pa (Z.to_nat (load_width width)), m)) Hx (fun _ _ => eq_refl)) as H.
  destruct (unpriv_insn _ _ _ _ _ _) as [v m2]. pose proof (unpriv_end_fatal m2 regs w) as H2.
  destruct (unpriv_end m2 regs w) as [fault m3]. cbn [snd] in *. congruence.
Qed.

Lemma unpriv_write_fatal (m : machine) (regs : trap_regs) (addr val : Z) :
  m_fatal (snd (unpriv_write_byte m regs addr val)) = m_fatal m.
Proof.
  unfold unpriv_write_byte. destruct (unpriv_begin_expects m regs 0) as [Hx Hf].
  destruct (unpriv_begin _ _ _) as [w m1]. cbn [snd] in Hx, Hf.
  match goal with |- context [unpriv_insn ?a ?b ?c ?d ?e ?f] => pose proof (unpriv_insn_fatal a b c d e f Hx (fun _ _ => eq_refl)) as H;
    destruct (unpriv_insn a b c d e f) as [v m2] end.
  cbn [snd] in H. etrans; [apply unpriv_end_fatal|congruence].
Qed.

Lemma unpriv_fetch_fatal (m : machine) (regs : trap_regs) : m_fatal (snd (unpriv_fetch_insn m regs)) = m_fatal m.
Proof.
  unfold unpriv_fetch_insn. pose proof (unpriv_load_fatal m regs (tr_mepc regs) 2 true) as H1.
  destruct (unpriv_load m regs (tr_mepc regs) 2 true) as [[lo|f] m1]; cbn [snd] in *; [|done]. destruct (negb _); [done|].
  pose proof (unpriv_load_fatal m1 regs (tr_mepc regs +! 2) 2 true) as H2.
  destruct (unpriv_load m1 regs (tr_mepc regs +! 2) 2 true) as [[hi|f] m2]; cbn [snd] in *; congruence.
Qed.
End Expected.

(** * What an access does to the machine *)

(** The registers a trap from M-mode leaves its cause in. *)
Definition scratch_csrs : list Z := [CSR_MCAUSE; CSR_MTVAL; CSR_MTVAL2; CSR_MTINST].

Record steady {AR : Arch} (m m' : machine) : Prop := {
  st_mem : m_mem m' = m_mem m;
  st_fp : m_fp m' = m_fp m;
  st_vregs : m_vregs m' = m_vregs m;
  st_calls : m_calls m' = m_calls m;
  st_csrs r : r ∉ scratch_csrs -> m_read m' r = m_read m r;
  st_wf : csr_wf (m_csrs m) -> csr_wf (m_csrs m');
  st_fatal : m_fatal m' = m_fatal m;
}.

Lemma steady_refl {AR : Arch} (m : machine) : steady m m.
Proof. by split. Qed.
Lemma steady_trans {AR : Arch} (m1 m2 m3 : machine) : steady m1 m2 -> steady m2 m3 -> steady m1 m3.
Proof.
  intros [A1 A2 A3 A4 A5 A6 A7] [B1 B2 B3 B4 B5 B6 B7]. split; try congruence; [|auto].
  intros r Hr. by rewrite B5, A5.
Qed.

(** Memory apart: the last write counts. *)
Lemma steady_mem_after {AR : Arch} (m m1 m2 : machine) (mem0 mem : gmap Z Z) :
  steady (m <| m_mem := mem0 |>) m1 -> steady (m1 <| m_mem := mem |>) m2 -> steady (m <| m_mem := mem |>) m2.
Proof.
  intros [A1 A2 A3 A4 A5 A6 A7] [B1 B2 B3 B4 B5 B6 B7].
  split; [exact B1|exact (eq_trans B2 A2)|exact (eq_trans B3 A3)|exact (eq_trans B4 A4)| | |exact (eq_trans B7 A7)].
  - intros r Hr. exact (eq_trans (B5 r Hr) (A5 r Hr)).
  - intros Hw. apply B6. by apply A6.
Qed.
Lemma steady_same_mem {AR : Arch} (m m' : machine) : steady m m' -> steady (m <| m_mem := m_mem m |>) m'.
Proof. by destruct m. Qed.

Record hw_trap_wf {AR : Arch} (t : hw_trap) : Prop := {
  hw_cause : is_ulong (hx_cause t);
  hw_tval : is_ulong (hx_tval t);
  hw_tval2 : is_ulong (hx_tval2 t);
  hw_tinst : is_ulong (hx_tinst t);
}.

Section Spec.
Context {AR : Arch} {F : Features} {MM : Mmu}.

(** mstatus while the access is made. *)
Definition access_mstatus (regs : trap_regs) (extra : Z) : Z :=
  Z.lor (Z.lor (bit_off (tr_mstatus regs) MSTATUS_MPRV_BIT) extra) (BIT MSTATUS_MPRV_BIT).

(** A trap of the access, as the trapping context's side gets to see it. *)
Definition context_fault (m : machine) (regs : trap_regs) (t : hw_trap) : trap_info :=
  if hart_has HART_FEAT_H then
    {| ti_cause := hx_cause t; ti_tval := hx_tval t; ti_tval2 := hx_tval2 t;
       ti_tinst := if Z.land (hx_tinst t) (unot 0x1020) =? 0x2000 then hx_tinst t else 0;
       ti_gva := hx_gva t;
       ti_virt := match arch_xlen with
                  | RV64 => bit (tr_mstatus regs) MSTATUS_MPV_BIT
                  | RV32 => bit (m_read m CSR_MSTATUSH) MSTATUSH_MPV_BIT
                  end |}
  else TrapInfo (hx_cause t) (hx_tval t) 0 0 false false.

Lemma steady_fault (m m' : machine) (regs : trap_regs) (t : hw_trap) :
  steady m m' -> context_fault m' regs t = context_fault m regs t.
Proof.
  intros Hs. unfold context_fault. destruct (hart_has _), arch_xlen; try done.
  by rewrite (st_csrs _ _ Hs) by (apply (bool_decide_unpack _); vm_compute; exact I).
Qed.

Lemma m_write_wf (m : machine) (a v : Z) : csr_wf (m_csrs m) -> csr_wf (m_csrs (m_write m a v)).
Proof. apply csr_write_wf. Qed.
Hint Resolve m_write_wf : csr.

(** Reads through a chain of writes. *)
Ltac reads := rewrite ?m_read_write; repeat first [rewrite decide_True by done | rewrite decide_False by done].

Lemma hw_trap_m_spec (m : machine) (t : hw_trap) : csr_wf (m_csrs m) -> hw_trap_wf t ->
  let m' := hw_trap_m m t in
  m' = m <| m_csrs := m_csrs m' |> /\ csr_wf (m_csrs m') /\
  (forall r, r ∉ scratch_csrs ++ [CSR_MSTATUS; CSR_MSTATUSH] -> m_read m' r = m_read m r) /\
  ((hart_has HART_FEAT_H = false \/ arch_xlen = RV64) -> m_read m' CSR_MSTATUSH = m_read m CSR_MSTATUSH) /\
  m_read m' CSR_MCAUSE = hx_cause t /\ m_read m' CSR_MTVAL = hx_tval t /\
  (hart_has HART_FEAT_H = true ->
     m_read m' CSR_MTVAL2 = hx_tval2 t /\ m_read m' CSR_MTINST = hx_tinst t /\
     match arch_xlen with
     | RV64 => bit (m_read m' CSR_MSTATUS) MSTATUS_GVA_BIT
     | RV32 => bit (m_read m' CSR_MSTATUSH) MSTATUSH_GVA_BIT
     end = hx_gva t).
Proof.
  intros Hwf [H1 H2 H3 H4]. cbv zeta. unfold hw_trap_m.
  set (ms := Z.lor (bit_off _ MSTATUS_MIE_BIT) MSTATUS_MPP). pose proof XLEN_bounds as HX.
  assert (is_ulong ms) as Hms.
  { apply is_ulong_lor; [|rewrite MPP_bits; apply is_ulong_lor; apply wrap_range].
    pose proof (m_read_ulong (m_write (m_write m CSR_MCAUSE (hx_cause t)) CSR_MTVAL (hx_tval t)) CSR_MSTATUS
                  (m_write_wf _ _ _ (m_write_wf _ _ _ Hwf))). ulong. }
  clearbody ms.
  assert (forall r (l : list Z), r ∉ scratch_csrs ++ l -> CSR_MCAUSE <> r /\ CSR_MTVAL <> r /\ CSR_MTVAL2 <> r /\ CSR_MTINST <> r /\ r ∉ l) as Hl.
  { intros r l Hr. unfold scratch_csrs in Hr. rewrite !not_elem_of_app, !not_elem_of_cons in Hr. naive_solver. }
  destruct (hart_has HART_FEAT_H) eqn:EH.
  2: { split_and!; try done; [by repeat apply m_write_wf| | | | ].
    - intros r Hr. destruct (Hl _ _ Hr) as (? & ? & ? & ? & Hr'). rewrite !not_elem_of_cons in Hr'. by rewrite !m_read_ne by naive_solver.
    - intros _. by rewrite !m_read_ne.
    - rewrite !m_read_ne by done. by apply m_read_eq.
    - rewrite !m_read_ne by done. by apply m_read_eq. }
  destruct arch_xlen eqn:EX.
  - assert (XLEN = 32) as E32 by (unfold XLEN; by rewrite EX).
    split_and!; try done; [by repeat apply m_write_wf| | | | |].
    + intros r Hr. destruct (Hl _ _ Hr) as (? & ? & ? & ? & Hr'). rewrite !not_elem_of_cons in Hr'. by rewrite !m_read_ne by naive_solver.
    + intros [?|?]; done.
    + rewrite !m_read_ne by done. by apply m_read_eq.
    + rewrite !m_read_ne by done. by apply m_read_eq.
    + intros _. rewrite !(m_read_ne _ _ _ CSR_MTVAL2), !(m_read_ne _ _ _ CSR_MTINST), !m_read_eq by done.
      split_and!; [done|done|].
      match goal with |- bit (m_read (m_write ?a _ (if _ then bit_on (bit_off (m_read ?b _) _) _ else _)) _) _ = _ => set (m2 := a); set (m1 := b) end.
      assert (is_ulong (m_read m1 CSR_MSTATUSH)) as Hu by (apply m_read_ulong; unfold m1; by repeat apply m_write_wf).
      unfold MSTATUSH_GVA_BIT, MSTATUSH_MPV_BIT. rewrite m_read_eq by ulong. rewrite bit_testbit by lia.
      destruct (hx_gva t); fields; bools.
  - assert (XLEN = 64) as E64 by (unfold XLEN; by rewrite EX).
    split_and!; try done; [by repeat apply m_write_wf| | | | |].
    + intros r Hr. destruct (Hl _ _ Hr) as (? & ? & ? & ? & Hr'). rewrite !not_elem_of_cons in Hr'. by rewrite !m_read_ne by naive_solver.
    + intros _. by rewrite !m_read_ne.
    + rewrite !m_read_ne by done. by apply m_read_eq.
    + rewrite !m_read_ne by done. by apply m_read_eq.
    + intros _. rewrite !(m_read_ne _ _ _ CSR_MTVAL2), !(m_read_ne _ _ _ CSR_MTINST), !m_read_eq by done.
      split_and!; [done|done|]. unfold MSTATUS_GVA_BIT, MSTATUS_MPV_BIT. rewrite m_read_eq by ulong. rewrite bit_testbit by lia.
      destruct (hx_gva t); fields; bools.
Qed.

(** What an access that traps leaves. *)
Record trapped (m m' : machine) (t : hw_trap) : Prop := {
  tp_same : m' = m <| m_csrs := m_csrs m' |> <| m_trap := m_trap m' |>;
  tp_wf : csr_wf (m_csrs m');
  tp_csrs r : r ∉ scratch_csrs ++ [CSR_MSTATUS; CSR_MSTATUSH] -> m_read m' r = m_read m r;
  tp_mstatush : hart_has HART_FEAT_H = false \/ arch_xlen = RV64 -> m_read m' CSR_MSTATUSH = m_read m CSR_MSTATUSH;
  tp_taken : ht_taken (m_trap m') = true;
  tp_cause : ht_cause (m_trap m') = hx_cause t;
  tp_tval : ht_tval (m_trap m') = hx_tval t;
  tp_h : hart_has HART_FEAT_H = true ->
    ht_tval2 (m_trap m') = hx_tval2 t /\ ht_tinst (m_trap m') = hx_tinst t /\ ht_gva (m_trap m') = hx_gva t;
}.

Lemma access_traps_spec (m : machine) (t : hw_trap) :
  csr_wf (m_csrs m) -> hw_trap_wf t -> ht_expected (m_trap m) = true -> trapped m (access_traps m t) t.
Proof.
  intros Hwf Ht Hx. destruct (hw_trap_m_spec m t Hwf Ht) as (Em & Hwf1 & Er & Esh & Ec & Ev & Eh).
  unfold access_traps, trap_handler_m. set (m1 := hw_trap_m m t) in *. clearbody m1.
  assert (ht_expected (m_trap m1) = true) as -> by (by rewrite Em). cbv zeta iota. cbn [option_map].
  unfold hw_mret_m. set (v := Z.land (bit_on _ _) _). clearbody v.
  split.
  - rewrite Em. done.
  - by apply m_write_wf.
  - intros r Hr. rewrite m_read_ne; [by apply Er|]. intros <-. apply Hr. set_solver.
  - intros Hs. rewrite m_read_ne by done. by apply Esh.
  - by destruct (hart_has HART_FEAT_H).
  - rewrite <- Ec. by destruct (hart_has HART_FEAT_H).
  - rewrite <- Ev. by destruct (hart_has HART_FEAT_H).
  - intros HH. destruct (Eh HH) as (E1 & E2 & E3). rewrite HH. rewrite <- E1, <- E2, <- E3. done.
Qed.

(** *** An access in its window *)

Section Access.
Context (m : machine) (regs : trap_regs).
Context (Hwf : csr_wf (m_csrs m)) (Hms : is_ulong (tr_mstatus regs)).

(** The machine the access instruction runs on. *)
Definition window (extra : Z) : machine :=
  (snd (unpriv_begin m regs extra)) <| m_csrs ::= (fun c => csr_set c CSR_MSTATUS (BIT MSTATUS_MPRV_BIT)) |>.

Lemma window_mstatus (extra : Z) : is_ulong extra -> m_read (window extra) CSR_MSTATUS = access_mstatus regs extra.
Proof.
  intros Hx. unfold window, unpriv_begin. cbn [snd].
  assert (is_ulong (Z.lor (bit_off (tr_mstatus regs) MSTATUS_MPRV_BIT) extra)) as Hu
    by (apply is_ulong_lor; [by apply bit_off_ulong|done]).
  etrans; [apply (m_read_eq (m_write _ CSR_MSTATUS _) CSR_MSTATUS)|].
  - apply is_ulong_lor; [|apply wrap_range]. apply csr_read_wf. by apply m_write_wf.
  - unfold access_mstatus. f_equal. by apply (m_read_eq _ CSR_MSTATUS).
Qed.

Lemma window_other (extra r : Z) : r <> CSR_MSTATUS -> m_read (window extra) r = m_read m r.
Proof.
  intros Hr. unfold window, unpriv_begin. cbn [snd].
  etrans; [apply (m_read_ne (m_write _ CSR_MSTATUS _) CSR_MSTATUS _ r); done|]. by rewrite m_read_ne.
Qed.

Lemma window_rest (extra : Z) :
  m_mem (window extra) = m_mem m /\ m_fp (window extra) = m_fp m /\ m_vregs (window extra) = m_vregs m /\
  m_calls (window extra) = m_calls m /\ m_fatal (window extra) = m_fatal m /\ ht_expected (m_trap (window extra)) = true /\
  ht_taken (m_trap (window extra)) = false /\ csr_wf (m_csrs (window extra)).
Proof. split_and!; try done. unfold window. by apply csr_set_wf, m_write_wf. Qed.

(** The end of the window, when the access went through, with what it did
    to memory. *)
Lemma end_ok (m1 : machine) (extra : Z) :
  m1 = (window extra) <| m_mem := m_mem m1 |> ->
  let m2 := m1 <| m_csrs ::= (fun c => csr_clear c CSR_MSTATUS (BIT MSTATUS_MPRV_BIT)) |> in
  let '(fault, m3) := unpriv_end m2 regs (fst (unpriv_begin m regs extra)) in
  fault = None /\ steady (m <| m_mem := m_mem m1 |>) m3.
Proof.
  intros Em. cbv zeta. unfold unpriv_end. cbn [fst unpriv_begin uw_mstatus uw_mstatush].
  destruct (window_rest extra) as (R1 & R2 & R3 & R4 & R5 & _ & R6 & R7).
  set (m2 := m1 <| m_csrs ::= _ |>).
  assert (ht_taken (m_trap m2) = false) as Et by (unfold m2; rewrite Em; exact R6).
  assert (csr_wf (m_csrs m2)) as Hwf2 by (unfold m2; rewrite Em; by apply csr_clear_wf).
  assert (forall r, r <> CSR_MSTATUS -> m_read m2 r = m_read m r) as Er.
  { intros r Hr. unfold m2. etrans; [by apply (m_read_ne m1)|]. rewrite Em. by apply (window_other extra). }
  assert (m_mem m2 = m_mem m1 /\ m_fp m2 = m_fp m /\ m_vregs m2 = m_vregs m /\ m_calls m2 = m_calls m /\ m_fatal m2 = m_fatal m) as (E1 & E2 & E3 & E4 & E5)
    by (unfold m2; rewrite Em; done).
  clearbody m2. change (ht_taken (m_trap (field_update m_trap _ (m_write m2 CSR_MSTATUS _)))) with (ht_taken (m_trap m2)).
  rewrite Et. split; [done|]. split; try done.
  - intros r Hr. destruct (decide (r = CSR_MSTATUS)) as [->|Hne].
    + apply (m_read_eq m2). by apply m_read_ulong.
    + etrans; [apply (m_read_ne m2); congruence|]. by apply Er.
  - intros _. by apply m_write_wf.
Qed.

Lemma end_fault (m1 : machine) (t : hw_trap) (extra : Z) :
  trapped (window extra) m1 t ->
  let m2 := m1 <| m_csrs ::= (fun c => csr_clear c CSR_MSTATUS (BIT MSTATUS_MPRV_BIT)) |> in
  let '(fault, m3) := unpriv_end m2 regs (fst (unpriv_begin m regs extra)) in
  fault = Some (context_fault m regs t) /\ steady m m3.
Proof.
  intros [Em Hwf1 Er Esh Et Ec Ev Eh]. cbv zeta. unfold unpriv_end. cbn [fst unpriv_begin uw_mstatus uw_mstatush].
  destruct (window_rest extra) as (R1 & R2 & R3 & R4 & R5 & _ & _ & _).
  set (m2 := m1 <| m_csrs ::= _ |>).
  assert (csr_wf (m_csrs m2)) as Hwf2 by (by apply csr_clear_wf).
  assert (forall r, r <> CSR_MSTATUS -> m_read m2 r = m_read m1 r) as E2 by (intros r Hr; by apply (m_read_ne m1)).
  assert (forall r, r ∉ scratch_csrs -> r <> CSR_MSTATUS -> r <> CSR_MSTATUSH -> m_read m2 r = m_read m r) as Eo.
  { intros r H1 H2 H3. rewrite E2, Er by (done || set_solver). by apply (window_other extra). }
  assert (hart_has HART_FEAT_H = false \/ arch_xlen = RV64 -> m_read m2 CSR_MSTATUSH = m_read m CSR_MSTATUSH) as Eo2.
  { intros Hs. rewrite E2, Esh by done. by apply (window_other extra). }
  assert (m_trap m2 = m_trap m1) as Etr by done.
  assert (m_mem m2 = m_mem m /\ m_fp m2 = m_fp m /\ m_vregs m2 = m_vregs m /\ m_calls m2 = m_calls m /\ m_fatal m2 = m_fatal m) as (F1 & F2 & F3 & F4 & F5)
    by (unfold m2; rewrite Em; done).
  clearbody m2. set (m3 := (m_write m2 CSR_MSTATUS _) <| m_trap := _ |>).
  assert (ht_taken (m_trap m3) = true) as Et3 by (unfold m3; by rewrite <- Et, <- Etr).
  assert (ht_cause (m_trap m3) = hx_cause t /\ ht_tval (m_trap m3) = hx_tval t) as [Ec3 Ev3]
    by (unfold m3; by rewrite <- Ec, <- Ev, <- Etr).
  assert (steady m (m_write m3 CSR_MSTATUSH (m_read m CSR_MSTATUSH))) as Hs32.
  { split; try done; [|intros _; by repeat apply m_write_wf]. intros r Hr. destruct (decide (r = CSR_MSTATUSH)) as [->|H1].
    - apply m_read_eq. by apply m_read_ulong.
    - rewrite m_read_ne by done. destruct (decide (r = CSR_MSTATUS)) as [->|H2]; [apply (m_read_eq m2); by apply m_read_ulong|].
      etrans; [apply (m_read_ne m2); congruence|]. by apply Eo. }
  assert (hart_has HART_FEAT_H = false \/ arch_xlen = RV64 -> steady m m3) as Hs.
  { intros Hc. split; try done; [|intros _; by apply m_write_wf]. intros r Hr.
    destruct (decide (r = CSR_MSTATUS)) as [->|H2]; [apply (m_read_eq m2); by apply m_read_ulong|].
    etrans; [apply (m_read_ne m2); congruence|]. destruct (decide (r = CSR_MSTATUSH)) as [->|H1]; [by apply Eo2|by apply Eo]. }
  assert (m_trap m3 = (m_trap m1) <| ht_expected := false |>) as Etr3 by (unfold m3; by rewrite <- Etr).
  rewrite Et3. cbn [negb]. rewrite Ec3, Ev3. unfold context_fault. destruct (hart_has HART_FEAT_H) eqn:EH; cbn [negb].
  2: { split; [done|]. apply Hs. by left. }
  destruct (Eh eq_refl) as (G1 & G2 & G3). rewrite Etr3. cbn [ht_tval2 ht_tinst ht_gva field_update]. rewrite G1, G2, G3.
  destruct arch_xlen.
  - split; [|exact Hs32]. by destruct (_ =? _).
  - split; [by destruct (_ =? _)|]. apply Hs. by right.
Qed.

Definition load_extra (exec : bool) : Z := if exec then BIT MSTATUS_MXR_BIT else 0.

Lemma load_extra_ulong (exec : bool) : is_ulong (load_extra exec).
Proof. destruct exec; [apply wrap_range|]. split; [done|apply pow_XLEN_pos]. Qed.

Lemma unpriv_load_ok (addr width pa : Z) (exec : bool) :
  mmu_access (access_mstatus regs (load_extra exec)) AccLoad addr (load_width width) = inl pa ->
  exists m', unpriv_load m regs addr width exec = (inl (load_le (m_mem m) pa (Z.to_nat (load_width width))), m') /\ steady m m'.
Proof.
  intros Hx. unfold unpriv_load. fold (load_extra exec).
  pose proof (window_mstatus (load_extra exec) (load_extra_ulong exec)) as Ew. unfold window in Ew.
  pose proof (end_ok (window (load_extra exec)) (load_extra exec)) as He. unfold window in He at 2 3.
  destruct (unpriv_begin m regs (load_extra exec)) as [w m1] eqn:E1. cbn [fst snd] in *.
  unfold unpriv_insn. rewrite Ew, Hx.
  assert (m_mem (window (load_extra exec)) = m_mem m) as Em by apply window_rest.
  assert (window (load_extra exec) = m1 <| m_csrs ::= (fun c => csr_set c CSR_MSTATUS (BIT MSTATUS_MPRV_BIT)) |>) as Ewin
    by (unfold window; by rewrite E1).
  rewrite <- Ewin, Em in *. destruct (unpriv_end _ regs w) as [fault m3].
  destruct He as [-> Hs]; [by rewrite <- Em|]. exists m3. split; [done|]. by destruct m.
Qed.

Lemma unpriv_load_fault (addr width : Z) (exec : bool) (t : hw_trap) :
  mmu_access (access_mstatus regs (load_extra exec)) AccLoad addr (load_width width) = inr t -> hw_trap_wf t ->
  exists m', unpriv_load m regs addr width exec = (inr (context_fault m regs t), m') /\ steady m m'.
Proof.
  intros Hx Ht. unfold unpriv_load. fold (load_extra exec).
  pose proof (window_mstatus (load_extra exec) (load_extra_ulong exec)) as Ew. unfold window in Ew.
  destruct (window_rest (load_extra exec)) as (_ & _ & _ & _ & _ & R5 & _ & R7).
  pose proof (end_fault (access_traps (window (load_extra exec)) t) t (load_extra exec)
                (access_traps_spec _ t R7 Ht R5)) as He.
  assert (window (load_extra exec) = (snd (unpriv_begin m regs (load_extra exec)))
            <| m_csrs ::= (fun c => csr_set c CSR_MSTATUS (BIT MSTATUS_MPRV_BIT)) |>) as Ewin by done.
  rewrite Ewin in He. destruct (unpriv_begin m regs (load_extra exec)) as [w m1]. cbn [fst snd] in *.
  unfold unpriv_insn. rewrite Ew, Hx. destruct (unpriv_end _ regs w) as [fault m3].
  destruct He as [-> Hs]. by exists m3.
Qed.

Lemma unpriv_write_ok (addr val pa : Z) :
  mmu_access (access_mstatus regs 0) AccStore addr 1 = inl pa ->
  exists m', unpriv_write_byte m regs addr val = (None, m') /\ steady (m <| m_mem := <[pa := val mod 256]> (m_mem m) |>) m'.
Proof.
  intros Hx. unfold unpriv_write_byte. change 0 with (load_extra false) in Hx |- *.
  pose proof (window_mstatus (load_extra false) (load_extra_ulong false)) as Ew.
  assert (m_mem (window (load_extra false)) = m_mem m) as Em by apply window_rest.
  pose proof (end_ok ((window (load_extra false)) <| m_mem := <[pa := val mod 256]> (m_mem m) |>) (load_extra false)) as He.
  assert (window (load_extra false) = (snd (unpriv_begin m regs (load_extra false)))
            <| m_csrs ::= (fun c => csr_set c CSR_MSTATUS (BIT MSTATUS_MPRV_BIT)) |>) as Ewin by done.
  destruct (unpriv_begin m regs (load_extra false)) as [w m1] eqn:E1. cbn [fst snd] in *.
  unfold unpriv_insn. rewrite <- Ewin, Ew, Hx.
  change ((window (load_extra false)) <| m_mem ::= <[pa := val mod 256]> |>) with
    ((window (load_extra false)) <| m_mem := <[pa := val mod 256]> (m_mem (window (load_extra false))) |>).
  rewrite Em. destruct (unpriv_end _ regs w) as [fault m3]. destruct He as [-> Hs]; [done|]. by exists m3.
Qed.

Lemma unpriv_write_fault (addr val : Z) (t : hw_trap) :
  mmu_access (access_mstatus regs 0) AccStore addr 1 = inr t -> hw_trap_wf t ->
  exists m', unpriv_write_byte m regs addr val = (Some (context_fault m regs t), m') /\ steady m m'.
Proof.
  intros Hx Ht. unfold unpriv_write_byte. change 0 with (load_extra false) in Hx |- *.
  pose proof (window_mstatus (load_extra false) (load_extra_ulong false)) as Ew.
  destruct (window_rest (load_extra false)) as (_ & _ & _ & _ & _ & R5 & _ & R7).
  pose proof (end_fault (access_traps (window (load_extra false)) t) t (load_extra false)
                (access_traps_spec _ t R7 Ht R5)) as He.
  assert (window (load_extra false) = (snd (unpriv_begin m regs (load_extra false)))
            <| m_csrs ::= (fun c => csr_set c CSR_MSTATUS (BIT MSTATUS_MPRV_BIT)) |>) as Ewin by done.
  rewrite Ewin in He, Ew. destruct (unpriv_begin m regs (load_extra false)) as [w m1]. cbn [fst snd] in *.
  unfold unpriv_insn. rewrite Ew, Hx. destruct (unpriv_end _ regs w) as [fault m3].
  destruct He as [-> Hs]. by exists m3.
Qed.
End Access.

(** *** The instruction at mepc *)

(** One halfword of it, where the context may read or execute. *)
Definition insn_half (m : machine) (regs : trap_regs) (addr : Z) : Z + hw_trap :=
  match mmu_access (access_mstatus regs (BIT MSTATUS_MXR_BIT)) AccLoad addr 2 with
  | inl pa => inl (load_le (m_mem m) pa 2)
  | inr t => inr t
  end.

Definition insn_at (m : machine) (regs : trap_regs) : Z + hw_trap :=
  match insn_half m regs (tr_mepc regs) with
  | inr t => inr t
  | inl lo =>
      if negb (Z.land lo 3 =? 3) then inl lo
      else match insn_half m regs (tr_mepc regs +! 2) with
           | inr t => inr t
           | inl hi => inl (Z.lor lo (ushl hi 16))
           end
  end.

Definition mmu_wf : Prop := forall ms kind addr width t, mmu_access ms kind addr width = inr t -> hw_trap_wf t.

Lemma fetch_spec (m : machine) (regs : trap_regs) :
  csr_wf (m_csrs m) -> is_ulong (tr_mstatus regs) -> mmu_wf ->
  exists m', steady m m' /\
    unpriv_fetch_insn m regs =
      (match insn_at m regs with
       | inl insn => inl insn
       | inr t => let f := context_fault m regs t in inr (f <| ti_cause := fetch_cause (ti_cause f) |>)
       end, m').
Proof.
  intros Hwf Hms Hmmu. unfold unpriv_fetch_insn, insn_at, insn_half.
  destruct (mmu_access _ AccLoad (tr_mepc regs) 2) as [pa|t] eqn:E1.
  2: { destruct (unpriv_load_fault m regs Hwf Hms (tr_mepc regs) 2 true t E1 (Hmmu _ _ _ _ _ E1)) as (m' & -> & Hs). by exists m'. }
  destruct (unpriv_load_ok m regs Hwf Hms (tr_mepc regs) 2 pa true E1) as (m1 & -> & Hs1).
  change (Z.to_nat (load_width 2)) with 2%nat. destruct (negb _); [by exists m1|].
  pose proof (st_wf _ _ Hs1 Hwf) as Hwf1.
  destruct (mmu_access _ AccLoad (tr_mepc regs +! 2) 2) as [pa2|t] eqn:E2.
  - destruct (unpriv_load_ok m1 regs Hwf1 Hms (tr_mepc regs +! 2) 2 pa2 true E2) as (m2 & -> & Hs2).
    change (Z.to_nat (load_width 2)) with 2%nat. rewrite (st_mem _ _ Hs1). exists m2. split; [|done]. by apply (steady_trans m m1).
  - destruct (unpriv_load_fault m1 regs Hwf1 Hms (tr_mepc regs +! 2) 2 true t E2 (Hmmu _ _ _ _ _ E2)) as (m2 & -> & Hs2).
    rewrite (steady_fault m m1 regs t Hs1). exists m2. split; [|done]. by apply (steady_trans m m1).
Qed.
End Spec.
