(* ===== verification/Misaligned.v ===== *)
(** Misaligned loads and stores, [arch/riscv/runtime/misaligned_vector.c] and
    [misaligned.c]: the access is found from the instruction ([decode32],
    [decode16]) and redone byte by byte with the privilege of the trapping
    context ([trap_misaligned]); a vector access one element at a time, a
    vector register being the list of its bytes ([trap_misaligned_vector]).
    [MisalignedProps.v] has the theorems. *)

From S2P Require Import Prelude Arch Csr Fields Trap Unpriv.

#[local] Open Scope Z_scope.


Definition CSR_VSTART : Z := 0x008.
Definition CSR_VL : Z := 0xc20.
Definition CSR_VTYPE : Z := 0xc21.
Definition CSR_VLENB : Z := 0xc22.
Definition VLENB_MAX : Z := 256.

Definition MOP_UNIT_STRIDE : Z := 0.
Definition MOP_INDEXED_UNORDERED : Z := 1.
Definition MOP_STRIDED : Z := 2.
Definition MOP_INDEXED_ORDERED : Z := 3.
Definition UMOP_UNIT : Z := 0x00.
Definition UMOP_WHOLE_REG : Z := 0x08.
Definition UMOP_FAULT_FIRST : Z := 0x10.

(** [(insn >> lo) & (2^n - 1)] *)
Definition insn_field (insn lo n : Z) : Z := Z.land (Z.shiftr insn lo) (2 ^ n - 1).

Section Vector.
Context {AR : Arch} {F : Features} {MM : Mmu} {TE : TrapEnv}.

Definition MSTATUS_VS_MASK : Z := 3 * 2 ^ 9.
Definition MISA_V : Z := BIT 21.

(** VSETVL with a length there are elements for; it zeroes vstart. *)
Definition hw_vsetvl (m : machine) (vl vtype : Z) : machine :=
  m_write (m_write (m_write m CSR_VL vl) CSR_VTYPE vtype) CSR_VSTART 0.

(** [vl_set]: [vl] is at most the one there is. *)
Definition vl_set (m : machine) (vl : Z) : machine := hw_vsetvl m vl (m_read m CSR_VTYPE).

Fixpoint elem_access (m : machine) (regs : trap_regs) (addr : Z) (store : bool) (val : Z) (b : Z) (n : nat)
    : (Z + trap_info) * machine :=
  match n with
  | O => (inl val, m)
  | S n =>
      if store then
        match unpriv_write_byte m regs (addr +! b) (Z.shiftr val (8 * b)) with
        | (Some fault, m) => (inr fault, m)
        | (None, m) => elem_access m regs addr store val (b + 1) n
        end
      else
        match unpriv_read m regs (addr +! b) 1 with
        | (inr fault, m) => (inr fault, m)
        | (inl byte, m) => elem_access m regs addr store (Z.lor val (Z.shiftl byte (8 * b))) (b + 1) n
        end
  end.

(** e8, m1: vl = VLENB elements, the whole register. *)
Definition VTYPE_E8M1 : Z := 0.
Definition vreg_of (m : machine) (reg : Z) : list Z := default [] (m_vregs m !! Z.to_nat reg).
Definition vreg_move (m : machine) (reg : Z) (buf : list Z) (put : bool) : list Z * machine :=
  let vl := m_read m CSR_VL in
  let vtype := m_read m CSR_VTYPE in
  let vstart := m_read m CSR_VSTART in
  let m := hw_vsetvl m (m_read m CSR_VLENB) VTYPE_E8M1 in
  let '(buf, m) := if put then (buf, m <| m_vregs ::= <[Z.to_nat reg := buf]> |>) else (vreg_of m reg, m) in
  let m := hw_vsetvl m vl vtype in
  (buf, m_write m CSR_VSTART vstart).

(** Bytes of a buffer, the lowest first, and a value in their place. *)
Fixpoint buf_get (buf : list Z) (off : nat) (n : nat) : Z :=
  match n with
  | O => 0
  | S n => default 0 (buf !! off) + 256 * buf_get buf (S off) n
  end.
Fixpoint buf_put (buf : list Z) (off : nat) (val : Z) (n : nat) : list Z :=
  match n with
  | O => buf
  | S n => buf_put (<[off := val mod 256]> buf) (S off) (val / 256) n
  end.

(** [vgroup_access] *)
Definition vgroup_reg (m : machine) (reg off : Z) : Z := Z.land (reg + off / m_read m CSR_VLENB) 31.
Definition vgroup_get (m : machine) (reg off len : Z) : Z * machine :=
  let '(buf, m') := vreg_move m (vgroup_reg m reg off) [] false in
  (buf_get buf (Z.to_nat (off mod m_read m CSR_VLENB)) (Z.to_nat len), m').
Definition vgroup_put (m : machine) (reg off len val : Z) : machine :=
  let r := vgroup_reg m reg off in
  let '(buf, m') := vreg_move m r [] false in
  snd (vreg_move m' r (buf_put buf (Z.to_nat (off mod m_read m CSR_VLENB)) val (Z.to_nat len)) true).

(** ** One access *)

Record vaccess : Set := VAccess {
  va_store : bool;
  va_masked : bool;
  va_indexed : bool;
  va_whole : bool;
  va_fault_first : bool;
  va_mop : Z;
  va_nf : Z; (* fields of a segment *)
  va_vreg : Z;
  va_src : Z; (* vs2, or rs2: the index register, or the stride's *)
  va_base : Z;
  va_eew : Z; (* bytes *)
  va_data_bytes : Z;
  va_lmul_bytes : Z;
  va_vl : Z;
  va_first : Z;
}.

(** [None]: not something we emulate. *)
Definition vaccess_of (m : machine) (regs : trap_regs) (insn : Z) : option vaccess :=
  let f3 := insn_field insn 12 3 in
  let mop := insn_field insn 26 2 in
  let umop := insn_field insn 20 5 in
  let store := Z.land insn 0x7f =? 0x27 in
  let indexed := (mop =? MOP_INDEXED_UNORDERED) || (mop =? MOP_INDEXED_ORDERED) in
  if negb (f3 =? 0) && (f3 <? 5) || bit insn 28 || negb (truth (Z.land (m_read m CSR_MISA) MISA_V)) ||
     negb (truth (Z.land (tr_mstatus regs) MSTATUS_VS_MASK)) then None
  else
    let eew := if truth f3 then 2 ^ (f3 - 4) else 1 in
    let vlenb := m_read m CSR_VLENB in
    if VLENB_MAX <? vlenb then None
    else
      let whole := (mop =? MOP_UNIT_STRIDE) && (umop =? UMOP_WHOLE_REG) in
      let fault_first := (mop =? MOP_UNIT_STRIDE) && (umop =? UMOP_FAULT_FIRST) && negb store in
      if (mop =? MOP_UNIT_STRIDE) && negb (umop =? UMOP_UNIT) && negb whole && negb fault_first then None
      else
        let vtype := m_read m CSR_VTYPE in
        let data_bytes := if indexed then 2 ^ insn_field vtype 3 3 else eew in
        if 8 <? data_bytes then None
        else
          Some {|
            va_store := store;
            va_masked := negb (bit insn 25);
            va_indexed := indexed;
            va_whole := whole;
            va_fault_first := fault_first;
            va_mop := mop;
            va_nf := insn_field insn 29 3 + 1;
            va_vreg := insn_field insn 7 5;
            va_src := insn_field insn 20 5;
            va_base := trap_reg regs (insn_field insn 15 5);
            va_eew := eew;
            va_data_bytes := data_bytes;
            va_lmul_bytes := if negb whole && (Z.land vtype 7 <? 4) then ushl vlenb (Z.land vtype 7) else vlenb;
            va_vl := if whole then vlenb / data_bytes else m_read m CSR_VL;
            va_first := if whole then 0 else m_read m CSR_VSTART;
          |}.

(** What became of an element: on to the next; [goto done]; or a fault, with
    the machine to redirect it on. *)
Inductive element : Type := ElemNext (m : machine) | ElemDone (m : machine) | ElemFault (m : machine) (fault : trap_info).

(** The fields of element [i], from field [f] on. *)
Fixpoint fields_access (m : machine) (regs : trap_regs) (a : vaccess) (i f addr : Z) (n : nat) : element :=
  match n with
  | O => ElemNext m
  | S n =>
      let off := f * va_lmul_bytes a + i * va_data_bytes a in
      let '(val, m) := if va_store a then vgroup_get m (va_vreg a) off (va_data_bytes a) else (0, m) in
      match elem_access m regs addr (va_store a) val 0 (Z.to_nat (va_data_bytes a)) with
      | (inr fault, m) =>
          if va_fault_first a && truth i then ElemDone (vl_set m i)
          else ElemFault (m_write m CSR_VSTART i) fault
      | (inl val, m) =>
          let m := if va_store a then m else vgroup_put m (va_vreg a) off (va_data_bytes a) val in
          fields_access m regs a i (f + 1) (addr +! va_data_bytes a) n
      end
  end.

Definition elem_addr (m : machine) (regs : trap_regs) (a : vaccess) (i : Z) : Z * machine :=
  if va_indexed a then
    let '(index, m) := vgroup_get m (va_src a) (i * va_eew a) (va_eew a) in
    (va_base a +! wrap index, m)
  else if va_mop a =? MOP_STRIDED then (va_base a +! i *! trap_reg regs (va_src a), m)
  else (va_base a +! i *! va_nf a *! va_data_bytes a, m).

Definition element_access (m : machine) (regs : trap_regs) (a : vaccess) (i : Z) : element :=
  let '(active, m) :=
    if va_masked a then
      let '(mask, m) := vgroup_get m 0 (i / 8) 1 in (truth (Z.land (Z.shiftr mask (i mod 8)) 1), m)
    else (true, m) in
  if negb active then ElemNext m
  else
    let '(addr, m) := elem_addr m regs a i in
    fields_access m regs a i 0 addr (Z.to_nat (va_nf a)).

(** [for (i = first; i < vl; i++)] *)
Fixpoint elements_access (m : machine) (regs : trap_regs) (a : vaccess) (i : Z) (n : nat) : element :=
  match n with
  | O => ElemNext m
  | S n =>
      match element_access m regs a i with
      | ElemNext m => elements_access m regs a (i + 1) n
      | e => e
      end
  end.

Definition trap_misaligned_vector (m : machine) (regs : trap_regs) (insn : Z) : option (tresult (trap_regs * machine)) :=
  match vaccess_of m regs insn with
  | None => None
  | Some a =>
      let dirty := regs <| tr_mstatus := Z.lor (tr_mstatus regs) MSTATUS_VS_MASK |> in
      Some match elements_access m regs a (va_first a) (Z.to_nat (va_vl a - va_first a)) with
           | ElemNext m | ElemDone m =>
               TRet (dirty <| tr_mepc := tr_mepc regs +! 4 |>, m_write m CSR_VSTART 0)
           | ElemFault m fault => trap_redirect m dirty fault
           end
  end.
End Vector.


Record access : Set := Access {
  a_store : bool;
  a_fp : bool;
  a_sign_extend : bool;
  a_len : Z; (* bytes *)
  a_reg : Z; (* rd of a load, rs2 of a store *)
  a_insn_len : Z;
}.
#[export] Instance access_eta : Settable access := fun a =>
  Access (a_store a) (a_fp a) (a_sign_extend a) (a_len a) (a_reg a) (a_insn_len a).
Definition access_zero : access := Access false false false 0 0 0.

(** [true]: an access. *)
Definition decode32 (insn : Z) : bool * access :=
  let f3 := insn_field insn 12 3 in
  let a := access_zero <| a_insn_len := 4 |> in
  let opcode := Z.land insn 0x7f in
  if opcode =? 0x03 then
    (true, a <| a_len := 2 ^ Z.land f3 3 |> <| a_sign_extend := negb (truth (Z.land f3 4)) |> <| a_reg := insn_field insn 7 5 |>)
  else if opcode =? 0x23 then
    (f3 <? 4, a <| a_store := true |> <| a_len := 2 ^ Z.land f3 3 |> <| a_reg := insn_field insn 20 5 |>)
  else if (opcode =? 0x07) || (opcode =? 0x27) then
    let store := opcode =? 0x27 in
    ((f3 =? 2) || (f3 =? 3),
     a <| a_fp := true |> <| a_store := store |> <| a_len := 2 ^ f3 |>
       <| a_reg := if store then insn_field insn 20 5 else insn_field insn 7 5 |>)
  else (false, a).

Section Decode.
Context {AR : Arch}.

Definition decode16 (insn : Z) : bool * access :=
  let f3 := insn_field insn 13 3 in
  let quadrant := Z.land insn 3 in
  let sp_relative := quadrant =? 2 in
  let a := access_zero in
  if negb (quadrant =? 0) && negb (quadrant =? 2) then (false, a)
  else
    let a := a <| a_insn_len := 2 |> <| a_sign_extend := true |> in
    let last a :=
      let a := a <| a_store := 5 <=? f3 |> in
      let a := a <| a_reg := if negb sp_relative then 8 + insn_field insn 2 3
                             else if a_store a then insn_field insn 2 5 else insn_field insn 7 5 |> in
      (a_fp a || a_store a || negb sp_relative || truth (a_reg a), a) in
    if (f3 =? 2) || (f3 =? 6) then last (a <| a_len := 4 |>)
    else if (f3 =? 3) || (f3 =? 7) then
      last (a <| a_len := XLEN / 8 |> <| a_fp := match arch_xlen with RV32 => true | RV64 => false end |>)
    else if (f3 =? 1) || (f3 =? 5) then last (a <| a_len := 8 |> <| a_fp := true |>)
    else if f3 =? 4 then
      let f := insn_field insn 10 3 in
      if sp_relative || negb (f =? 1) && negb (f =? 3) then (false, a)
      else (true, a <| a_len := 2 |> <| a_store := f =? 3 |> <| a_sign_extend := bit insn 6 |> <| a_reg := 8 + insn_field insn 2 3 |>)
    else (false, a).
End Decode.

Section Misaligned.
Context {AR : Arch} {F : Features} {MM : Mmu} {TE : TrapEnv}.

Definition MISA_EXT (c : Z) : Z := BIT (c - 65).
Definition MISA_F : Z := MISA_EXT 70.
Definition MISA_D : Z := MISA_EXT 68.
Definition MSTATUS_FS_MASK : Z := 3 * 2 ^ 13.

(** What a single-precision value looks like in a register of a hart with D. *)
Definition nan_box (m : machine) (v : Z) : Z :=
  if truth (Z.land (m_read m CSR_MISA) MISA_D) then 0xffffffff00000000 + v mod 2 ^ 32 else v mod 2 ^ 32.

(** [fp_reg_access]: fsd, fsw; fld, flw. *)
Definition fp_reg_get (m : machine) (reg : Z) (dbl : bool) : Z :=
  let f := default 0 (m_fp m !! Z.to_nat reg) in if dbl then f else f mod 2 ^ 32.
Definition fp_reg_put (m : machine) (reg : Z) (dbl : bool) (v : Z) : machine :=
  m <| m_fp ::= <[Z.to_nat reg := if dbl then v else nan_box m v]> |>.

(** [for (i = 0; i < a.len; i++)], from [i] on for [n] bytes. *)
Fixpoint store_bytes (m : machine) (regs : trap_regs) (addr val : Z) (i : Z) (n : nat) : option trap_info * machine :=
  match n with
  | O => (None, m)
  | S n =>
      match unpriv_write_byte m regs (addr +! i) (Z.shiftr val (8 * i)) with
      | (Some fault, m) => (Some fault, m)
      | (None, m) => store_bytes m regs addr val (i + 1) n
      end
  end.
Fixpoint load_bytes (m : machine) (regs : trap_regs) (addr : Z) (val : Z) (i : Z) (n : nat) : (Z + trap_info) * machine :=
  match n with
  | O => (inl val, m)
  | S n =>
      match unpriv_read m regs (addr +! i) 1 with
      | (inr fault, m) => (inr fault, m)
      | (inl byte, m) => load_bytes m regs addr (Z.lor val (Z.shiftl byte (8 * i))) (i + 1) n
      end
  end.

(** [(uint64_t)((int64_t)(val << s) >> s)], s = 64 - 8 * len *)
Definition sign_extend64 (val len : Z) : Z :=
  let s := 64 - 8 * len in
  let v := Z.shiftl val s mod 2 ^ 64 in
  let v := if 2 ^ 63 <=? v then v - 2 ^ 64 else v in
  Z.shiftr v s mod 2 ^ 64.

(** Not an access we know, or not the kind that trapped. *)
Definition not_emulated (m : machine) (regs : trap_regs) (info : trap_info) (ok : bool) (a : access) : bool :=
  negb ok || (a_len a <? 2) || (8 <? a_len a) || negb (Bool.eqb (a_store a) (ti_cause info =? CAUSE_MISALIGNED_STORE)) ||
  a_fp a && (negb (truth (Z.land (m_read m CSR_MISA) MISA_F)) || negb (truth (Z.land (tr_mstatus regs) MSTATUS_FS_MASK)) ||
             (a_len a =? 8) && negb (truth (Z.land (m_read m CSR_MISA) MISA_D))).

Definition emulate_store (m : machine) (regs : trap_regs) (info : trap_info) (a : access) : tresult (trap_regs * machine) :=
  let val := if a_fp a then fp_reg_get m (a_reg a) (a_len a =? 8) else trap_reg regs (a_reg a) in
  match store_bytes m regs (ti_tval info) val 0 (Z.to_nat (a_len a)) with
  | (Some fault, m) => trap_redirect m regs fault
  | (None, m) => TRet (regs <| tr_mepc := tr_mepc regs +! a_insn_len a |>, m)
  end.

Definition emulate_load (m : machine) (regs : trap_regs) (info : trap_info) (a : access) : tresult (trap_regs * machine) :=
  match load_bytes m regs (ti_tval info) 0 0 (Z.to_nat (a_len a)) with
  | (inr fault, m) => trap_redirect m regs fault
  | (inl val, m) =>
      let '(regs, m) :=
        if a_fp a then (regs <| tr_mstatus := Z.lor (tr_mstatus regs) MSTATUS_FS_MASK |>, fp_reg_put m (a_reg a) (a_len a =? 8) val)
        else if truth (a_reg a) then
          let val := if a_sign_extend a && (a_len a <? 8) then sign_extend64 val (a_len a) else val in
          (trap_reg_set regs (a_reg a) (wrap val), m)
        else (regs, m) in
      TRet (regs <| tr_mepc := tr_mepc regs +! a_insn_len a |>, m)
  end.

Definition trap_misaligned (m : machine) (regs : trap_regs) (info : trap_info) : tresult (trap_regs * machine) :=
  match unpriv_fetch_insn m regs with
  | (inr fault, m) => trap_redirect m regs fault
  | (inl insn, m) =>
      let wide := Z.land insn 3 =? 3 in
      match (if wide && ((Z.land insn 0x7f =? 0x07) || (Z.land insn 0x7f =? 0x27)) then trap_misaligned_vector m regs insn else None) with
      | Some r => r
      | None =>
          let '(ok, a) := if wide then decode32 insn else decode16 insn in
          if not_emulated m regs info ok a then trap_redirect m regs info
          else if a_store a then emulate_store m regs info a
          else emulate_load m regs info a
      end
  end.
End Misaligned.
