(* ===== verification/MisalignedProps.v ===== *)
(** The emulation of misaligned accesses ([Misaligned.v]) against the ISA: the
    loads and stores by their instruction formats ([ls_insn], [encode]), and
    what each of them does ([meaning]). The decoder finds the access of every
    one, and the emulation does what the instruction would have done. *)

From S2P Require Import Prelude Arch Csr Fields Trap Unpriv Misaligned.

#[local] Open Scope Z_scope.
#[local] Set Warnings "-clear-no-such-hyp".

Lemma insn_field_eq (insn lo n : Z) : 0 <= lo -> 0 <= n -> insn_field insn lo n = (insn / 2 ^ lo) mod 2 ^ n.
Proof. intros Hl Hn. unfold insn_field. by rewrite land_low, Z.shiftr_div_pow2. Qed.

(** * The instructions *)

(** Of the base ISA (I and S formats), of F and D, of C (CL, CS, CI and CSS
    formats) and of Zcb, by the fields of their formats. [w] is the width of
    the access as in funct3, [imm*] are the pieces of the immediate. *)
Inductive ls_insn : Set :=
| LOAD (w : Z) (zero_ext : bool) (rd rs1 imm12 : Z)
| STORE (w : Z) (rs2 rs1 imm7 imm5 : Z)
| FLOAD (w : Z) (rd rs1 imm12 : Z)
| FSTORE (w : Z) (rs2 rs1 imm7 imm5 : Z)
| CL (f3 : Z) (rd' rs1' imm3 imm2 : Z) (* c.lw, c.ld / c.flw, c.fld *)
| CS (f3 : Z) (rs2' rs1' imm3 imm2 : Z) (* c.sw, c.sd / c.fsw, c.fsd *)
| CI (f3 : Z) (rd imm1 imm5 : Z) (* c.lwsp, c.ldsp / c.flwsp, c.fldsp *)
| CSS (f3 : Z) (rs2 imm6 : Z) (* c.swsp, c.sdsp / c.fswsp, c.fsdsp *)
| CLH (sign_ext : bool) (rd' rs1' imm1 : Z) (* Zcb: c.lhu, c.lh *)
| CSH (rs2' rs1' imm1 : Z). (* Zcb: c.sh *)

Definition encode (i : ls_insn) : Z :=
  match i with
  | LOAD w z rd rs1 imm => imm * 2 ^ 20 + rs1 * 2 ^ 15 + (w + if z then 4 else 0) * 2 ^ 12 + rd * 2 ^ 7 + 0x03
  | STORE w rs2 rs1 hi lo => hi * 2 ^ 25 + rs2 * 2 ^ 20 + rs1 * 2 ^ 15 + w * 2 ^ 12 + lo * 2 ^ 7 + 0x23
  | FLOAD w rd rs1 imm => imm * 2 ^ 20 + rs1 * 2 ^ 15 + w * 2 ^ 12 + rd * 2 ^ 7 + 0x07
  | FSTORE w rs2 rs1 hi lo => hi * 2 ^ 25 + rs2 * 2 ^ 20 + rs1 * 2 ^ 15 + w * 2 ^ 12 + lo * 2 ^ 7 + 0x27
  | CL f3 rd rs1 i3 i2 => f3 * 2 ^ 13 + i3 * 2 ^ 10 + rs1 * 2 ^ 7 + i2 * 2 ^ 5 + rd * 2 ^ 2 + 0
  | CS f3 rs2 rs1 i3 i2 => f3 * 2 ^ 13 + i3 * 2 ^ 10 + rs1 * 2 ^ 7 + i2 * 2 ^ 5 + rs2 * 2 ^ 2 + 0
  | CI f3 rd i1 i5 => f3 * 2 ^ 13 + i1 * 2 ^ 12 + rd * 2 ^ 7 + i5 * 2 ^ 2 + 2
  | CSS f3 rs2 i6 => f3 * 2 ^ 13 + i6 * 2 ^ 7 + rs2 * 2 ^ 2 + 2
  | CLH s rd rs1 i1 => 0x21 * 2 ^ 10 + rs1 * 2 ^ 7 + (if s then 1 else 0) * 2 ^ 6 + i1 * 2 ^ 5 + rd * 2 ^ 2 + 0
  | CSH rs2 rs1 i1 => 0x23 * 2 ^ 10 + rs1 * 2 ^ 7 + i1 * 2 ^ 5 + rs2 * 2 ^ 2 + 0
  end.

Definition fits (v n : Z) : Prop := 0 <= v < 2 ^ n.

(** A piece of an encoding is found by linear arithmetic. *)
Ltac arith := Z.to_euclidean_division_equations; lia.
Tactic Notation "piece" constr(lo) constr(n) "of" ident(x) "is" constr(v) :=
  replace (insn_field x lo n) with v by (rewrite insn_field_eq by lia; unfold x; arith).
Ltac encoded := repeat match goal with H : fits ?v ?n |- _ => unfold fits in H; cbn in H end.

Section Isa.
Context {AR : Arch}.

(** The instructions of this ISA: widths there are, and no reserved
    encodings. *)
Definition valid (i : ls_insn) : Prop :=
  match i with
  | LOAD w z rd rs1 imm =>
      (w = 1 \/ w = 2 \/ w = 3 /\ arch_xlen = RV64 /\ z = false) /\ (w = 2 -> z = true -> arch_xlen = RV64) /\
      fits rd 5 /\ fits rs1 5 /\ fits imm 12
  | STORE w rs2 rs1 hi lo => (w = 1 \/ w = 2 \/ w = 3 /\ arch_xlen = RV64) /\ fits rs2 5 /\ fits rs1 5 /\ fits hi 7 /\ fits lo 5
  | FLOAD w rd rs1 imm => (w = 2 \/ w = 3) /\ fits rd 5 /\ fits rs1 5 /\ fits imm 12
  | FSTORE w rs2 rs1 hi lo => (w = 2 \/ w = 3) /\ fits rs2 5 /\ fits rs1 5 /\ fits hi 7 /\ fits lo 5
  | CL f3 rd rs1 i3 i2 => (f3 = 1 \/ f3 = 2 \/ f3 = 3) /\ fits rd 3 /\ fits rs1 3 /\ fits i3 3 /\ fits i2 2
  | CS f3 rs2 rs1 i3 i2 => (f3 = 5 \/ f3 = 6 \/ f3 = 7) /\ fits rs2 3 /\ fits rs1 3 /\ fits i3 3 /\ fits i2 2
  | CI f3 rd i1 i5 =>
      (f3 = 1 \/ f3 = 2 \/ f3 = 3) /\ (f3 = 2 \/ f3 = 3 /\ arch_xlen = RV64 -> rd <> 0) /\ fits rd 5 /\ fits i1 1 /\ fits i5 5
  | CSS f3 rs2 i6 => (f3 = 5 \/ f3 = 6 \/ f3 = 7) /\ fits rs2 5 /\ fits i6 6
  | CLH _ rd rs1 i1 => fits rd 3 /\ fits rs1 3 /\ fits i1 1
  | CSH rs2 rs1 i1 => fits rs2 3 /\ fits rs1 3 /\ fits i1 1
  end.

(** Compressed accesses by funct3: 1, 5 double precision; 2, 6 a word; 3, 7
    XLEN, which is single precision on RV32. *)
Definition c_fp (f3 : Z) : bool :=
  (Z.land f3 3 =? 1) || (Z.land f3 3 =? 3) && match arch_xlen with RV32 => true | RV64 => false end.
Definition c_len (f3 : Z) : Z := if Z.land f3 3 =? 1 then 8 else if Z.land f3 3 =? 2 then 4 else XLEN / 8.

(** What the instruction accesses. The sign extension is that of the integer
    loads; the rest have no use for it. *)
Definition meaning (i : ls_insn) : access :=
  match i with
  | LOAD w z rd _ _ => Access false false (negb z) (2 ^ w) rd 4
  | STORE w rs2 _ _ _ => Access true false false (2 ^ w) rs2 4
  | FLOAD w rd _ _ => Access false true false (2 ^ w) rd 4
  | FSTORE w rs2 _ _ _ => Access true true false (2 ^ w) rs2 4
  | CL f3 rd _ _ _ => Access false (c_fp f3) true (c_len f3) (8 + rd) 2
  | CS f3 rs2 _ _ _ => Access true (c_fp f3) true (c_len f3) (8 + rs2) 2
  | CI f3 rd _ _ => Access false (c_fp f3) true (c_len f3) rd 2
  | CSS f3 rs2 _ => Access true (c_fp f3) true (c_len f3) rs2 2
  | CLH s rd _ _ => Access false false s 2 (8 + rd) 2
  | CSH rs2 _ _ => Access true false false 2 (8 + rs2) 2
  end.

Definition wide (i : ls_insn) : bool :=
  match i with LOAD _ _ _ _ _ | STORE _ _ _ _ _ | FLOAD _ _ _ _ | FSTORE _ _ _ _ _ => true | _ => false end.

(** *** Fields of a sum *)

Lemma land127 (x : Z) : Z.land x 0x7f = x mod 128.
Proof. apply (land_low x 7). lia. Qed.
Lemma land3 (x : Z) : Z.land x 3 = x mod 4.
Proof. apply (land_low x 2). lia. Qed.
Lemma bit6 (x : Z) : bit x 6 = ((x / 64) mod 2 =? 1).
Proof. pose proof XLEN_bounds. rewrite bit_testbit by lia. apply Z.testbit_eqb. lia. Qed.


Lemma decode32_encode (i : ls_insn) : valid i -> wide i = true -> decode32 (encode i) = (true, meaning i).
Proof.
  intros Hv Hw. destruct i as [w z rd rs1 imm|w rs2 rs1 hi lo|w rd rs1 imm|w rs2 rs1 hi lo| | | | | |]; try done;
    cbn [valid] in Hv; unfold decode32; cbn [encode]; set (x := _ + _); rewrite land127.
  - destruct Hv as (Hw3 & _ & Hrd & Hrs & Hi). encoded. set (f3 := w + _) in x.
    assert (0 <= f3 < 8) as Hf by (unfold f3; destruct z; lia).
    replace (x mod 128) with 0x03 by (unfold x; arith). cbn [Z.eqb orb]. piece 12 3 of x is f3. piece 7 5 of x is rd.
    unfold f3. destruct Hw3 as [->|[->|(-> & _ & ->)]]; try destruct z; reflexivity.
  - destruct Hv as (Hw3 & Hr & Hrs & Hh & Hl). encoded.
    replace (x mod 128) with 0x23 by (unfold x; arith). cbn [Z.eqb orb]. piece 12 3 of x is w. piece 20 5 of x is rs2.
    destruct Hw3 as [->|[->|[-> _]]]; reflexivity.
  - destruct Hv as (Hw3 & Hr & Hrs & Hi). encoded.
    replace (x mod 128) with 0x07 by (unfold x; arith). cbn [Z.eqb orb]. piece 12 3 of x is w. piece 7 5 of x is rd.
    destruct Hw3 as [->| ->]; reflexivity.
  - destruct Hv as (Hw3 & Hr & Hrs & Hh & Hl). encoded.
    replace (x mod 128) with 0x27 by (unfold x; arith). cbn [Z.eqb orb]. piece 12 3 of x is w. piece 20 5 of x is rs2.
    destruct Hw3 as [->| ->]; reflexivity.
Qed.

Lemma truth_small (r : Z) : r <> 0 -> truth r = true.
Proof. intros Hr. by apply truth_true. Qed.

(** The sign extension is an integer load's. *)
Definition sees (i : ls_insn) (a : access) : Prop :=
  a = (meaning i) <| a_sign_extend := a_sign_extend a |> /\
  (a_store (meaning i) = false -> a_fp (meaning i) = false -> a_sign_extend a = a_sign_extend (meaning i)).

Lemma decode16_encode (i : ls_insn) : valid i -> wide i = false ->
  exists a, decode16 (encode i) = (true, a) /\ sees i a.
Proof.
  intros Hv Hw. unfold sees. destruct i as [| | | |f3 rd rs1 i3 i2|f3 rs2 rs1 i3 i2|f3 rd i1 i5|f3 rs2 i6|s rd rs1 i1|rs2 rs1 i1]; try done;
    cbn [valid] in Hv; unfold decode16; cbn [encode]; set (x := _ + _); rewrite land3, ?bit6.
  - destruct Hv as (Hf & Hr & Hrs & H3 & H2). encoded. replace (x mod 4) with 0 by (unfold x; arith). cbn [Z.eqb negb andb orb].
    piece 13 3 of x is f3. piece 2 3 of x is rd.
    destruct Hf as [->|[->| ->]]; destruct arch_xlen eqn:EX; cbn -[Z.add Z.div]; eexists; (split; [reflexivity|]); split; try done;
      unfold meaning, c_fp, c_len, XLEN; rewrite EX; reflexivity.
  - destruct Hv as (Hf & Hr & Hrs & H3 & H2). encoded. replace (x mod 4) with 0 by (unfold x; arith). cbn [Z.eqb negb andb orb].
    piece 13 3 of x is f3. piece 2 3 of x is rs2.
    destruct Hf as [->|[->| ->]]; destruct arch_xlen eqn:EX; cbn -[Z.add Z.div]; eexists; (split; [reflexivity|]); split; try done;
      unfold meaning, c_fp, c_len, XLEN; rewrite EX; reflexivity.
  - destruct Hv as (Hf & Hnz & Hr & H1 & H5). encoded. replace (x mod 4) with 2 by (unfold x; arith). cbn [Z.eqb negb andb orb].
    piece 13 3 of x is f3. piece 7 5 of x is rd.
    destruct Hf as [->|[->| ->]]; destruct arch_xlen eqn:EX; cbn -[Z.add Z.div truth]; rewrite ?truth_small by (apply Hnz; auto);
      cbn -[Z.add Z.div]; eexists; (split; [reflexivity|]); split; try done;
      unfold meaning, c_fp, c_len, XLEN; rewrite EX; reflexivity.
  - destruct Hv as (Hf & Hr & H6). encoded. replace (x mod 4) with 2 by (unfold x; arith). cbn [Z.eqb negb andb orb].
    piece 13 3 of x is f3. piece 2 5 of x is rs2.
    destruct Hf as [->|[->| ->]]; destruct arch_xlen eqn:EX; cbn -[Z.add Z.div]; eexists; (split; [reflexivity|]); split; try done;
      unfold meaning, c_fp, c_len, XLEN; rewrite EX; reflexivity.
  - destruct Hv as (Hr & Hrs & H1). encoded. set (b := if s then 1 else 0) in x. assert (0 <= b < 2) as Hb by (unfold b; destruct s; lia).
    replace (x mod 4) with 0 by (unfold x; arith). cbn [Z.eqb negb andb orb].
    piece 13 3 of x is 4. piece 10 3 of x is 1. piece 2 3 of x is rd.
    replace ((x / 64) mod 2) with b by (unfold x; arith). cbn [Z.eqb negb andb orb].
    assert ((b =? 1) = s) as -> by (by destruct s). eexists; split; [reflexivity|]. split; done.
  - destruct Hv as (Hr & Hrs & H1). encoded. replace (x mod 4) with 0 by (unfold x; arith). cbn [Z.eqb negb andb orb].
    piece 13 3 of x is 4. piece 10 3 of x is 3. piece 2 3 of x is rs2. cbn [Z.eqb negb andb orb].
    eexists; split; [reflexivity|]. split; done.
Qed.

Lemma encode_wide (i : ls_insn) : valid i -> (Z.land (encode i) 3 =? 3) = wide i.
Proof.
  intros Hv. rewrite land3. destruct i as [w z rd rs1 imm|w rs2 rs1 hi lo|w rd rs1 imm|w rs2 rs1 hi lo|f3 rd rs1 i3 i2|f3 rs2 rs1 i3 i2|f3 rd i1 i5|f3 rs2 i6|s rd rs1 i1|rs2 rs1 i1];
    cbn [valid encode wide] in *; destruct_and?; encoded.
  1: destruct z.
  all: try (destruct s); apply Z.eqb_eq || apply Z.eqb_neq; arith.
Qed.

(** The decoder of [trap_misaligned]. *)
Definition decode (insn : Z) : bool * access := if Z.land insn 3 =? 3 then decode32 insn else decode16 insn.

(** every load and store is known. Whatever its registers and its
    immediate, [decode32] and [decode16] find of every misalignable load and
    store of the base ISA, of F and D, of C and of Zcb the access it makes:
    the direction, the register file, the width, the register, the length of
    the instruction and, for an integer load, the extension. *)
Theorem decode_encode (i : ls_insn) : valid i -> exists a, decode (encode i) = (true, a) /\ sees i a.
Proof.
  intros Hv. unfold decode. rewrite encode_wide by done. destruct (wide i) eqn:Ew; [|by apply decode16_encode].
  exists (meaning i). split; [by apply decode32_encode|]. split; [by destruct (meaning i)|done].
Qed.
End Isa.

(** * The access *)

Section Access.
Context {AR : Arch} {F : Features} {MM : Mmu} {TE : TrapEnv}.

(** Byte by byte, as the context: up to the first byte that faults. *)
Fixpoint ctx_load (mem : gmap Z Z) (ms addr i : Z) (n : nat) : Z + hw_trap :=
  match n with
  | O => inl 0
  | S n =>
      match mmu_access ms AccLoad (addr +! i) 1 with
      | inr t => inr t
      | inl pa =>
          match ctx_load mem ms addr (i + 1) n with
          | inr t => inr t
          | inl v => inl (mem_byte mem pa + 256 * v)
          end
      end
  end.
Fixpoint ctx_store (mem : gmap Z Z) (ms addr val i : Z) (n : nat) : gmap Z Z * option hw_trap :=
  match n with
  | O => (mem, None)
  | S n =>
      match mmu_access ms AccStore (addr +! i) 1 with
      | inr t => (mem, Some t)
      | inl pa => ctx_store (<[pa := val mod 256]> mem) ms addr (val / 256) (i + 1) n
      end
  end.

Definition mem_wf (mem : gmap Z Z) : Prop := forall a, 0 <= mem_byte mem a < 256.

Lemma ctx_load_bound (mem : gmap Z Z) (ms addr i v : Z) (n : nat) :
  mem_wf mem -> ctx_load mem ms addr i n = inl v -> 0 <= v < 2 ^ (8 * Z.of_nat n).
Proof.
  intros Hm. revert i v. induction n as [|n IH]; intros i v; cbn [ctx_load]; [by intros [= <-]|].
  destruct (mmu_access _ _ _ _) as [pa|]; [|done]. destruct (ctx_load mem ms addr (i + 1) n) as [w|] eqn:E; [|done].
  intros [= <-]. specialize (IH _ _ E). specialize (Hm pa).
  replace (8 * Z.of_nat (S n)) with (8 * Z.of_nat n + 8) by lia. rewrite Z.pow_add_r by lia. lia.
Qed.

Section Bytes.
Context (regs : trap_regs) (Hms : is_ulong (tr_mstatus regs)) (Hmmu : mmu_wf).
Abbreviation ms := (access_mstatus regs 0).

Lemma load_bytes_spec (n : nat) : forall (m : machine) (addr val i : Z),
  csr_wf (m_csrs m) -> mem_wf (m_mem m) -> 0 <= i -> 0 <= val < 2 ^ (8 * i) ->
  exists m', steady m m' /\
    load_bytes m regs addr val i n =
      (match ctx_load (m_mem m) ms addr i n with
       | inl v => inl (val + v * 2 ^ (8 * i))
       | inr t => inr (context_fault m regs t)
       end, m').
Proof.
  induction n as [|n IH]; intros m addr val i Hwf Hm Hi Hv; cbn [load_bytes ctx_load].
  { exists m. split; [apply steady_refl|]. do 2 f_equal. lia. }
  unfold unpriv_read. destruct (mmu_access ms AccLoad (addr +! i) 1) as [pa|t] eqn:E.
  2: { destruct (unpriv_load_fault m regs Hwf Hms (addr +! i) 1 false t E (Hmmu _ _ _ _ _ E)) as (m' & -> & Hs). by exists m'. }
  destruct (unpriv_load_ok m regs Hwf Hms (addr +! i) 1 pa false E) as (m1 & -> & Hs1).
  change (Z.to_nat (load_width 1)) with 1%nat. cbn [load_le]. specialize (Hm pa) as Hb.
  set (byte := mem_byte (m_mem m) pa) in *. replace (byte + 256 * 0) with byte by lia.
  assert (Z.lor val (Z.shiftl byte (8 * i)) = val + byte * 2 ^ (8 * i)) as ->.
  { rewrite Z.shiftl_mul_pow2 by lia. apply lor_disjoint_add. bitwise. rewrite Z.mul_pow2_bits by lia.
    destruct (Z.lt_ge_cases i0 (8 * i)); [rewrite (Z.testbit_neg_r byte) by lia; apply andb_false_r|].
    by rewrite (testbit_high (8 * i) val) by lia. }
  destruct (IH m1 addr (val + byte * 2 ^ (8 * i)) (i + 1)) as (m2 & Hs2 & ->).
  - by apply (st_wf _ _ Hs1).
  - by rewrite (st_mem _ _ Hs1).
  - lia.
  - replace (8 * (i + 1)) with (8 * i + 8) by lia. rewrite Z.pow_add_r by lia. nia.
  - exists m2. split; [by apply (steady_trans m m1)|]. rewrite (st_mem _ _ Hs1).
    destruct (ctx_load (m_mem m) ms addr (i + 1) n) as [v|t]; [|by rewrite (steady_fault m m1)].
    do 2 f_equal. replace (8 * (i + 1)) with (8 * i + 8) by lia. rewrite Z.pow_add_r by lia. lia.
Qed.

Lemma store_bytes_spec (n : nat) : forall (m : machine) (addr val i : Z),
  csr_wf (m_csrs m) -> 0 <= i ->
  let '(mem, t) := ctx_store (m_mem m) ms addr (val / 2 ^ (8 * i)) i n in
  exists m', steady (m <| m_mem := mem |>) m' /\
    store_bytes m regs addr val i n = (context_fault m regs <$> t, m').
Proof.
  induction n as [|n IH]; intros m addr val i Hwf Hi; cbn [store_bytes ctx_store].
  { exists m. split; [|done]. destruct m. apply steady_refl. }
  destruct (mmu_access ms AccStore (addr +! i) 1) as [pa|t] eqn:E.
  2: { destruct (unpriv_write_fault m regs Hwf Hms (addr +! i) (Z.shiftr val (8 * i)) t E (Hmmu _ _ _ _ _ E)) as (m' & -> & Hs).
    exists m'. split; [|done]. by destruct m. }
  destruct (unpriv_write_ok m regs Hwf Hms (addr +! i) (Z.shiftr val (8 * i)) pa E) as (m1 & -> & Hs1).
  pose proof (IH m1 addr val (i + 1) (st_wf _ _ Hs1 Hwf) ltac:(lia)) as H2.
  rewrite Z.shiftr_div_pow2 in Hs1 by lia. rewrite (st_mem _ _ Hs1) in H2. cbn [m_mem field_update] in H2.
  assert (val / 2 ^ (8 * i) / 256 = val / 2 ^ (8 * (i + 1))) as ->.
  { replace (8 * (i + 1)) with (8 * i + 8) by lia. rewrite Z.pow_add_r, Z.div_div by lia. done. }
  destruct (ctx_store _ ms addr (val / 2 ^ (8 * (i + 1))) (i + 1) n) as [mem t]. destruct H2 as (m2 & Hs2 & E2).
  exists m2. split.
  - by apply (steady_mem_after m m1 m2 _ mem Hs1).
  - rewrite E2. f_equal. destruct t as [t|]; [|done]. cbn. f_equal.
    rewrite (steady_fault (m <| m_mem := <[pa := (val / 2 ^ (8 * i)) mod 256]> (m_mem m) |>) m1 regs t Hs1).
    unfold context_fault. done.
Qed.
End Bytes.

(** *** What an instruction does with it *)

(** The value of a load in the register it is for. *)
Definition extended (a : access) (v : Z) : Z :=
  wrap (if a_sign_extend a && (2 ^ (8 * a_len a - 1) <=? v) then v - 2 ^ (8 * a_len a) else v).

Lemma sign_extend64_spec (v len : Z) : 1 <= len < 8 -> 0 <= v < 2 ^ (8 * len) ->
  sign_extend64 v len = (if 2 ^ (8 * len - 1) <=? v then v - 2 ^ (8 * len) else v) mod 2 ^ 64.
Proof.
  intros Hl Hv. unfold sign_extend64. set (s := 64 - 8 * len). assert (0 <= s) as Hs by lia.
  assert (2 ^ 64 = 2 ^ (8 * len) * 2 ^ s) as E64 by (rewrite <- Z.pow_add_r by lia; f_equal; lia).
  assert (2 ^ 63 = 2 ^ (8 * len - 1) * 2 ^ s) as E63 by (rewrite <- Z.pow_add_r by lia; f_equal; lia).
  pose proof (pow2_pos s Hs) as Hp. rewrite Z.shiftl_mul_pow2 by lia. rewrite (Z.mod_small (v * 2 ^ s)) by nia.
  rewrite Z.shiftr_div_pow2 by lia. f_equal.
  destruct (Z.leb_spec (2 ^ 63) (v * 2 ^ s)), (Z.leb_spec (2 ^ (8 * len - 1)) v); try nia.
  - rewrite E64, <- Z.mul_sub_distr_r. by apply Z.div_mul; lia.
  - by apply Z.div_mul; lia.
Qed.

Lemma extended_emulated (a : access) (v : Z) : a_len a ∈ [2; 4; 8] -> 0 <= v < 2 ^ (8 * a_len a) ->
  wrap (if a_sign_extend a && (a_len a <? 8) then sign_extend64 v (a_len a) else v) = extended a v.
Proof.
  intros Hl Hv. unfold extended. destruct (a_sign_extend a); [|done]. cbn [andb].
  assert (forall z, wrap (z mod 2 ^ 64) = wrap z) as Hw.
  { intros z. pose proof XLEN_bounds. apply Z.mod_mod_divide, pow2_divide. lia. }
  assert (a_len a = 2 \/ a_len a = 4 \/ a_len a = 8) as [E|[E|E]] by set_solver; rewrite E in Hv |- *.
  - change (2 <? 8) with true. rewrite sign_extend64_spec by lia. apply Hw.
  - change (4 <? 8) with true. rewrite sign_extend64_spec by lia. apply Hw.
  - change (8 <? 8) with false. destruct (2 ^ (8 * 8 - 1) <=? v); [|done].
    rewrite <- (Hw (v - _)), <- (Hw v). f_equal. change (2 ^ (8 * 8)) with (2 ^ 64).
    rewrite <- (Z.mod_add (v - 2 ^ 64) 1) by lia. f_equal. lia.
Qed.

Lemma meaning_len (i : ls_insn) : valid i -> a_len (meaning i) ∈ [2; 4; 8].
Proof.
  intros Hv. destruct i; cbn [valid meaning a_len] in *; unfold c_len, XLEN; try destruct arch_xlen;
    repeat match goal with H : _ /\ _ |- _ => destruct H | H : _ \/ _ |- _ => destruct H end; subst; cbn; set_solver.
Qed.

(** ** The instruction and its emulation *)

(** What the instruction does where the hart takes it, misaligned as it is:
    the registers and memory after it, or the trap, with memory up to it. *)
Inductive ls_outcome : Type :=
| LsDone (regs : trap_regs) (mem : gmap Z Z) (fp : list Z)
| LsFault (mem : gmap Z Z) (t : hw_trap).

Definition ls_step (m : machine) (regs : trap_regs) (addr : Z) (i : ls_insn) : ls_outcome :=
  let a := meaning i in
  let ms := access_mstatus regs 0 in
  let next := regs <| tr_mepc := tr_mepc regs +! a_insn_len a |> in
  let f := default 0 (m_fp m !! Z.to_nat (a_reg a)) in
  if a_store a then
    let val := if a_fp a then (if a_len a =? 8 then f else f mod 2 ^ 32) else trap_reg regs (a_reg a) in
    match ctx_store (m_mem m) ms addr val 0 (Z.to_nat (a_len a)) with
    | (mem, None) => LsDone next mem (m_fp m)
    | (mem, Some t) => LsFault mem t
    end
  else
    match ctx_load (m_mem m) ms addr 0 (Z.to_nat (a_len a)) with
    | inr t => LsFault (m_mem m) t
    | inl v =>
        if a_fp a then
          LsDone (next <| tr_mstatus := Z.lor (tr_mstatus regs) MSTATUS_FS_MASK |>) (m_mem m)
            (<[Z.to_nat (a_reg a) := if a_len a =? 8 then v else nan_box m v]> (m_fp m))
        else LsDone (if a_reg a =? 0 then next else trap_reg_set next (a_reg a) (extended a v)) (m_mem m) (m_fp m)
    end.

(** It trapped as the kind of access it is, and would not have been illegal. *)
Definition emulable (m : machine) (regs : trap_regs) (info : trap_info) (i : ls_insn) : Prop :=
  a_store (meaning i) = (ti_cause info =? CAUSE_MISALIGNED_STORE) /\
  (a_fp (meaning i) = true ->
     truth (Z.land (m_read m CSR_MISA) MISA_F) = true /\ truth (Z.land (tr_mstatus regs) MSTATUS_FS_MASK) = true /\
     (a_len (meaning i) = 8 -> truth (Z.land (m_read m CSR_MISA) MISA_D) = true)).

Lemma vector_not_scalar (m : machine) (regs : trap_regs) (i : ls_insn) : valid i -> wide i = true ->
  (Z.land (encode i) 0x7f =? 0x07) || (Z.land (encode i) 0x7f =? 0x27) = true ->
  trap_misaligned_vector m regs (encode i) = None.
Proof.
  intros Hv Hw Hop. unfold trap_misaligned_vector, vaccess_of.
  assert (insn_field (encode i) 12 3 = 2 \/ insn_field (encode i) 12 3 = 3) as Hf.
  { rewrite land127 in Hop. rewrite insn_field_eq by lia.
    destruct i as [w z rd rs1 imm|w rs2 rs1 hi lo|w rd rs1 imm|w rs2 rs1 hi lo| | | | | |]; try done; cbn [valid encode] in *;
      destruct_and!; encoded.
    - exfalso. destruct z; bool_prop; arith.
    - exfalso. bool_prop; arith.
    - arith.
    - arith. }
  by destruct Hf as [-> | ->].
Qed.

Lemma emulable_not_refused (m m1 : machine) (regs : trap_regs) (info : trap_info) (i : ls_insn) (a : access) :
  valid i -> sees i a -> steady m m1 -> emulable m regs info i -> not_emulated m1 regs info true a = false.
Proof.
  intros Hv [Ea _] Hs [Hst Hfp]. pose proof (meaning_len i Hv) as Hl. unfold not_emulated.
  assert (m_read m1 CSR_MISA = m_read m CSR_MISA) as -> by (apply (st_csrs _ _ Hs); apply (bool_decide_unpack _); vm_compute; exact I).
  rewrite Ea. cbn [a_len a_store a_fp field_update]. rewrite Hst, Bool.eqb_reflx.
  assert ((a_len (meaning i) <? 2) = false /\ (8 <? a_len (meaning i)) = false) as [-> ->].
  { assert (a_len (meaning i) = 2 \/ a_len (meaning i) = 4 \/ a_len (meaning i) = 8) as [->|[->| ->]] by set_solver; done. }
  cbn [negb orb]. destruct (a_fp (meaning i)); [|done]. destruct (Hfp eq_refl) as (-> & -> & H8). cbn [negb orb andb].
  destruct (Z.eqb_spec (a_len (meaning i)) 8) as [E|]; [|done]. by rewrite H8.
Qed.

(** C7: a misaligned scalar access is emulated exactly. For every load and
    store of the base ISA, F and D, C and Zcb (those of the vector extension
    are not meant, see [vector_whole_load_dealt]), at any address and with any pages under
    its bytes, [trap_misaligned] leaves the registers, the memory and the pc
    the instruction itself would have left; and where one of its bytes
    faults, that fault goes to S-mode, with memory written up to it. *)
Theorem misaligned_exact (m : machine) (regs : trap_regs) (info : trap_info) (i : ls_insn) :
  csr_wf (m_csrs m) -> is_ulong (tr_mstatus regs) -> mmu_wf -> mem_wf (m_mem m) ->
  insn_at m regs = inl (encode i) -> valid i -> emulable m regs info i ->
  match ls_step m regs (ti_tval info) i with
  | LsDone regs' mem fp =>
      exists m', trap_misaligned m regs info = TRet (regs', m') /\ steady (m <| m_mem := mem |> <| m_fp := fp |>) m'
  | LsFault mem t =>
      exists m', trap_misaligned m regs info = trap_redirect m' regs (context_fault m regs t) /\
        steady (m <| m_mem := mem |>) m'
  end.
Proof.
  intros Hwf Hms Hmmu Hm Hin Hv Hem. destruct (fetch_spec m regs Hwf Hms Hmmu) as (m1 & Hs1 & Ef). rewrite Hin in Ef.
  destruct (decode_encode i Hv) as (a & Ed & Hsee). unfold decode in Ed.
  pose proof (emulable_not_refused m m1 regs info i a Hv Hsee Hs1 Hem) as Hne.
  pose proof (st_wf _ _ Hs1 Hwf) as Hwf1. pose proof (st_mem _ _ Hs1) as Em1. pose proof (st_fp _ _ Hs1) as Efp1.
  unfold trap_misaligned. rewrite Ef, (encode_wide i Hv) in *.
  assert ((if wide i && ((Z.land (encode i) 127 =? 7) || (Z.land (encode i) 127 =? 39))
     then trap_misaligned_vector m1 regs (encode i) else None) = None) as ->.
  { destruct (wide i) eqn:Ew; [|done]. cbn [andb]. destruct (_ || _) eqn:Eop; [|done]. by apply vector_not_scalar. }
  rewrite Ed, Hne. destruct Hsee as [Ea Hsgn]. unfold ls_step. assert (a_store a = a_store (meaning i)) as -> by (by rewrite Ea).
  pose proof (meaning_len i Hv) as Hlen.
  destruct (a_store (meaning i)) eqn:Est.
  - unfold emulate_store, fp_reg_get. rewrite Efp1, Ea. cbn [a_len a_reg a_fp a_insn_len field_update].
    set (val := if a_fp (meaning i) then _ else _).
    pose proof (store_bytes_spec regs Hms Hmmu (Z.to_nat (a_len (meaning i))) m1 (ti_tval info) val 0 Hwf1 ltac:(lia)) as Hst.
    change (8 * 0) with 0 in Hst. rewrite Z.div_1_r, Em1 in Hst.
    destruct (ctx_store (m_mem m) _ _ val 0 _) as [mem [t|]]; destruct Hst as (m2 & Hs2 & ->); cbn [fmap option_fmap option_map].
    + rewrite (steady_fault m m1 regs t Hs1). exists m2. split; [done|].
      by apply (steady_mem_after m m1 m2 _ mem (steady_same_mem _ _ Hs1)).
    + exists m2. split; [done|]. pose proof (steady_mem_after m m1 m2 _ mem (steady_same_mem _ _ Hs1) Hs2) as H. by destruct m.
  - unfold emulate_load. rewrite Ea. cbn [a_len a_reg a_fp a_insn_len field_update].
    destruct (load_bytes_spec regs Hms Hmmu (Z.to_nat (a_len (meaning i))) m1 (ti_tval info) 0 0 Hwf1) as (m2 & Hs2 & ->);
      [by rewrite Em1|lia|lia|]. rewrite Em1. pose proof (steady_trans _ _ _ Hs1 Hs2) as Hs12.
    destruct (ctx_load (m_mem m) _ _ 0 _) as [v|t] eqn:El.
    2: { rewrite (steady_fault m m1 regs t Hs1). exists m2. split; [done|]. by destruct m. }
    rewrite Z.mul_1_r, Z.add_0_l.
    assert (0 <= v < 2 ^ (8 * a_len (meaning i))) as Hvb.
    { apply ctx_load_bound in El; [|done]. assert (a_len (meaning i) = 2 \/ a_len (meaning i) = 4 \/ a_len (meaning i) = 8) as [E|[E|E]] by set_solver;
        rewrite E in El |- *; exact El. }
    destruct (a_fp (meaning i)) eqn:Efp.
    + exists (fp_reg_put m2 (a_reg (meaning i)) (a_len (meaning i) =? 8) v). split; [done|].
      unfold fp_reg_put, nan_box. rewrite (st_csrs _ _ Hs12) by (apply (bool_decide_unpack _); vm_compute; exact I).
      destruct Hs12 as [A1 A2 A3 A4 A5 A6 A7]. split; try done. cbn. by rewrite A2.
    + exists m2. split; [|by destruct m]. cbn [a_sign_extend field_update].
      rewrite Hsgn by done. rewrite extended_emulated by done. unfold truth. by destruct (Z.eqb_spec (a_reg (meaning i)) 0).
Qed.
End Access.
