(* ===== verification/IllegalInsn.v ===== *)
(** Illegal instructions, [arch/riscv/runtime/illegal_insn.c]: reads of the
    counters the hart lacks, and the AMO instructions of a hart that has only
    LR and SC. What is left is S-mode's. [IllegalInsnProps.v] has the
    theorems. *)

From S2P Require Import Prelude Arch Csr Fields Trap Unpriv Misaligned.

#[local] Open Scope Z_scope.

Definition INSN_OPCODE (i : Z) : Z := Z.land i 0x7f.
Definition INSN_RD (i : Z) : Z := insn_field i 7 5.
Definition INSN_FUNCT3 (i : Z) : Z := insn_field i 12 3.
Definition INSN_RS1 (i : Z) : Z := insn_field i 15 5.
Definition INSN_RS2 (i : Z) : Z := insn_field i 20 5.
Definition INSN_CSR (i : Z) : Z := insn_field i 20 12.
Definition INSN_FUNCT5 (i : Z) : Z := insn_field i 27 5.

Definition OPCODE_SYSTEM : Z := 0x73.
Definition OPCODE_AMO : Z := 0x2f.
Definition FUNCT3_CSRRS : Z := 2.
Definition FUNCT3_CSRRC : Z := 3.
Definition FUNCT3_CSRRSI : Z := 6.
Definition FUNCT3_CSRRCI : Z := 7.
Definition CSR_CYCLE : Z := 0xc00.
Definition CSR_CYCLEH : Z := 0xc80.
Definition CSR_MCYCLE : Z := 0xb00.
Definition CSR_MCYCLEH : Z := 0xb80.
Definition CSR_HTIMEDELTA_LO : Z := 0x605.
Definition CSR_HTIMEDELTA_HI : Z := 0x615.
Definition SBI_PMU_FW_ILLEGAL_INSN : Z := 4.

(** What the platform has, and what the hardware and the other harts do
    around an LR/SC pair: before try [k] the others leave memory as
    [ie_others k] says, and an SC of theirs may make ours fail. *)
Class IllegalEnv := {
  ie_config_a : bool; (* CONFIG_RISCV_ISA_A *)
  ie_csr_present : Z -> bool; (* a read that does not trap *)
  ie_pmu_counter : Z -> option Z; (* pmu_hw_counter_get() *)
  ie_timer : option Z; (* timer_available(), timer_now() *)
  ie_sc_fails : Z -> bool;
  ie_others : Z -> gmap Z Z -> gmap Z Z;
}.

Section Illegal.
Context {AR : Arch} {F : Features} {MM : Mmu} {TE : TrapEnv} {IE : IllegalEnv}.

(** ** Counters *)

Definition may_read (m : machine) (csr : Z) : option Z := if ie_csr_present csr then Some (m_read m csr) else None.

Definition mcounter_get (m : machine) (n : Z) : option Z :=
  let pair lo hi :=
    match may_read m lo with
    | None => None
    | Some l => match arch_xlen with
                | RV64 => Some l
                | RV32 => match may_read m hi with None => None | Some h => Some (Z.lor (Z.shiftl h 32) l) end
                end
    end in
  if n =? 0 then pair CSR_MCYCLE CSR_MCYCLEH
  else if n =? 2 then pair (CSR_MCYCLE + 2) (CSR_MCYCLEH + 2)
  else ie_pmu_counter n.

Definition htimedelta (m : machine) : Z :=
  match arch_xlen with
  | RV32 => Z.lor (Z.shiftl (m_read m CSR_HTIMEDELTA_HI) 32) (m_read m CSR_HTIMEDELTA_LO)
  | RV64 => m_read m CSR_HTIMEDELTA_LO
  end.

(** The counter a CSR number names, and whether it is the upper half. *)
Definition counter_csr (csr : Z) : option (Z * bool) :=
  if (CSR_CYCLE <=? csr) && (csr <? CSR_CYCLE + 32) then Some (csr - CSR_CYCLE, false)
  else match arch_xlen with
       | RV32 => if (CSR_CYCLEH <=? csr) && (csr <? CSR_CYCLEH + 32) then Some (csr - CSR_CYCLEH, true) else None
       | RV64 => None
       end.

(** [None]: not emulated. *)
Definition emulate_csr_read (m : machine) (regs : trap_regs) (info : trap_info) (insn : Z)
    : option (tresult (trap_regs * machine)) :=
  let f3 := INSN_FUNCT3 insn in
  let from_u := negb (truth (Z.land (tr_mstatus regs) MSTATUS_MPP)) in
  if negb (f3 =? FUNCT3_CSRRS) && negb (f3 =? FUNCT3_CSRRC) && negb (f3 =? FUNCT3_CSRRSI) && negb (f3 =? FUNCT3_CSRRCI) then None
  else if negb (INSN_RS1 insn =? 0) then None
  else
    match counter_csr (INSN_CSR insn) with
    | None => None
    | Some (n, high) =>
        if ti_virt info && negb (bit (m_read m CSR_HCOUNTEREN) n) then
          Some (trap_redirect m regs (info <| ti_cause := CAUSE_VIRTUAL_INSN |> <| ti_tval := insn |>))
        else if from_u && negb (bit (m_read m CSR_SCOUNTEREN) n) then None
        else
          match (if n =? 1 then
                   match ie_timer with
                   | None => None
                   | Some now => Some (if ti_virt info then (now + htimedelta m) mod 2 ^ 64 else now)
                   end
                 else mcounter_get m n) with
          | None => None
          | Some val =>
              let regs := if truth (INSN_RD insn)
                          then trap_reg_set regs (INSN_RD insn) (wrap (if high then Z.shiftr val 32 else val)) else regs in
              Some (TRet (regs <| tr_mepc := tr_mepc regs +! 4 |>, m))
          end
    end.

(** ** AMOs *)

(** A word in a register: LR.W sign-extends. *)
Definition sext32 (v : Z) : Z := wrap (if 2 ^ 31 <=? v mod 2 ^ 32 then v mod 2 ^ 32 - 2 ^ 32 else v mod 2 ^ 32).
Definition signed (v : Z) : Z := if 2 ^ (XLEN - 1) <=? v then v - 2 ^ XLEN else v.

(** The instructions between the LR and the SC, by funct5. *)
Definition amo_new (funct5 old src : Z) : Z :=
  if funct5 =? 0x01 then src
  else if funct5 =? 0x00 then old +! src
  else if funct5 =? 0x04 then Z.lxor old src
  else if funct5 =? 0x0c then Z.land old src
  else if funct5 =? 0x08 then Z.lor old src
  else if funct5 =? 0x10 then if signed old <? signed src then old else src
  else if funct5 =? 0x14 then if signed src <=? signed old then old else src
  else if funct5 =? 0x18 then if old <? src then old else src
  else if src <=? old then old else src.

Fixpoint store_le (mem : gmap Z Z) (a v : Z) (n : nat) : gmap Z Z :=
  match n with
  | O => mem
  | S n => store_le (<[a := v mod 256]> mem) (a + 1) (v / 256) n
  end.

(** [AMO_ATTEMPT] with [width] bytes, try [k]: old, failed. An LR that faults
    is skipped, and the SC after it has no reservation. *)
Definition amo_attempt (m : machine) (width funct5 addr src k : Z) : Z * bool * machine :=
  let m := m <| m_csrs ::= (fun c => csr_set c CSR_MSTATUS (BIT MSTATUS_MPRV_BIT)) |> in
  let ms := m_read m CSR_MSTATUS in
  let '(old, failed, m) :=
    match mmu_access ms AccLoad addr width with
    | inr t => (0, true, access_traps m t)
    | inl pa =>
        let v := load_le (m_mem m) pa (Z.to_nat width) in
        let old := if width =? 4 then sext32 v else v in
        match mmu_access ms AccStore addr width with
        | inr t => (old, true, access_traps m t)
        | inl pa' =>
            if ie_sc_fails k then (old, true, m)
            else (old, false, m <| m_mem := store_le (m_mem m) pa' (amo_new funct5 old src) (Z.to_nat width) |>)
        end
    end in
  (old, failed, m <| m_csrs ::= (fun c => csr_clear c CSR_MSTATUS (BIT MSTATUS_MPRV_BIT)) |>).

Definition amo_attempt_w (m : machine) (funct5 addr src k : Z) : Z * bool * machine := amo_attempt m 4 funct5 addr src k.
Definition amo_attempt_d (m : machine) (funct5 addr src k : Z) : Z * bool * machine := amo_attempt m 8 funct5 addr src k.

Definition AMO_TRIES : Z := 64.

Definition amo_op_known (funct5 : Z) : bool :=
  existsb (Z.eqb funct5) [0x00; 0x01; 0x04; 0x08; 0x0c; 0x10; 0x14; 0x18; 0x1c].

(** An AMO is a store as far as faults go. *)
Definition amo_cause (cause : Z) : Z :=
  if cause =? CAUSE_LOAD_ACCESS then CAUSE_STORE_ACCESS
  else if cause =? CAUSE_LOAD_PAGE_FAULT then CAUSE_STORE_PAGE_FAULT
  else if cause =? CAUSE_LOAD_GUEST_PAGE_FAULT then CAUSE_STORE_GUEST_PAGE_FAULT
  else cause.
Definition amo_fault (fault : trap_info) (addr : Z) : trap_info :=
  fault <| ti_cause := amo_cause (ti_cause fault) |> <| ti_tval := addr |>.

(** The tries, from try [k] on: [inl] the value there was, [inr] what the
    emulation ends with otherwise. *)
Fixpoint amo_loop (m : machine) (regs : trap_regs) (f3 funct5 addr src k : Z) (n : nat)
    : (Z * machine) + tresult (trap_regs * machine) :=
  match n with
  | O => inr (TRet (regs, m))
  | S n =>
      let m := m <| m_mem ::= ie_others k |> in
      let '(w, m) := unpriv_begin m regs 0 in
      let '(old, failed, m) :=
        if f3 =? 2 then amo_attempt_w m funct5 addr src k else amo_attempt_d m funct5 addr src k in
      match unpriv_end m regs w with
      | (Some fault, m) => inr (trap_redirect m regs (amo_fault fault addr))
      | (None, m) => if failed then amo_loop m regs f3 funct5 addr src (k + 1) n else inl (old, m)
      end
  end.

Definition emulate_amo (m : machine) (regs : trap_regs) (insn : Z) : option (tresult (trap_regs * machine)) :=
  let funct5 := INSN_FUNCT5 insn in
  let f3 := INSN_FUNCT3 insn in
  let addr := trap_reg regs (INSN_RS1 insn) in
  let src := trap_reg regs (INSN_RS2 insn) in
  if negb ie_config_a then None
  else if negb (amo_op_known funct5) then None
  else if negb (f3 =? 2) && negb ((f3 =? 3) && match arch_xlen with RV64 => true | RV32 => false end) then None
  else
    let src := if (f3 =? 2) && (0x10 <=? funct5) then sext32 src else src in
    Some match unpriv_read m regs addr (if f3 =? 2 then 4 else 8) with
         | (inr fault, m) => trap_redirect m regs (amo_fault fault addr)
         | (inl _, m) =>
             match amo_loop m regs f3 funct5 addr src 0 (Z.to_nat AMO_TRIES) with
             | inr r => r
             | inl (old, m) =>
                 let regs := if truth (INSN_RD insn) then trap_reg_set regs (INSN_RD insn) old else regs in
                 TRet (regs <| tr_mepc := tr_mepc regs +! 4 |>, m)
             end
         end.

(** ** The handler *)

Definition trap_illegal_insn (m : machine) (regs : trap_regs) (info : trap_info) : tresult (trap_regs * machine) :=
  let m := m_call m (PmuFwEvent SBI_PMU_FW_ILLEGAL_INSN) in
  let '(insn, m) := if negb (truth (ti_tval info)) then unpriv_fetch_insn m regs else (inl (ti_tval info), m) in
  match insn with
  | inr fault => trap_redirect m regs fault
  | inl insn =>
      match (if (Z.land insn 3 =? 3) && (INSN_OPCODE insn =? OPCODE_SYSTEM) then emulate_csr_read m regs info insn else None) with
      | Some r => r
      | None =>
          match (if (Z.land insn 3 =? 3) && (INSN_OPCODE insn =? OPCODE_AMO) then emulate_amo m regs insn else None) with
          | Some r => r
          | None => trap_redirect m regs info
          end
      end
  end.
End Illegal.
