(* ===== verification/IllegalInsnProps.v ===== *)
(** The emulation of AMOs and of counter reads ([IllegalInsn.v]) against the
    ISA. *)

From S2P Require Import Prelude Arch Csr Fields Trap Unpriv Misaligned IllegalInsn.

#[local] Open Scope Z_scope.
#[local] Set Warnings "-clear-no-such-hyp".

(** * The operations of Zaamo

    On values of [bits] bits, as the ISA has them. *)

Definition signed_of (bits v : Z) : Z := if 2 ^ (bits - 1) <=? v then v - 2 ^ bits else v.

Definition amo_ref (bits funct5 old src : Z) : Z :=
  if funct5 =? 0x01 then src
  else if funct5 =? 0x00 then (old + src) mod 2 ^ bits
  else if funct5 =? 0x04 then Z.lxor old src
  else if funct5 =? 0x0c then Z.land old src
  else if funct5 =? 0x08 then Z.lor old src
  else if funct5 =? 0x10 then if signed_of bits src <=? signed_of bits old then src else old (* amomin *)
  else if funct5 =? 0x14 then if signed_of bits old <? signed_of bits src then src else old (* amomax *)
  else if funct5 =? 0x18 then Z.min old src (* amominu *)
  else Z.max old src. (* amomaxu *)

Section Ops.
Context {AR : Arch}.

Definition is_u32 (v : Z) : Prop := 0 <= v < 2 ^ 32.

Lemma two_words : 2 ^ 32 <= 2 ^ XLEN /\ (2 ^ 32 | 2 ^ XLEN).
Proof. pose proof XLEN_bounds. split; [apply pow2_le|apply pow2_divide]; lia. Qed.

(** A word, sign-extended: the upper half moves up by a constant. *)
Lemma sext32_eq (v : Z) : is_u32 v -> sext32 v = if 2 ^ 31 <=? v then v + (2 ^ XLEN - 2 ^ 32) else v.
Proof.
  intros Hv. destruct two_words as [Hw _]. unfold is_u32, sext32 in *. rewrite Z.mod_small by lia.
  destruct (Z.leb_spec (2 ^ 31) v).
  - unfold wrap. rewrite <- (Z.mod_add (v - 2 ^ 32) 1), Z.mod_small by lia. lia.
  - apply wrap_small. split; lia.
Qed.

Lemma sext32_low (v : Z) : is_u32 v -> sext32 v mod 2 ^ 32 = v.
Proof.
  intros Hv. rewrite sext32_eq by done. destruct two_words as [_ [q Hq]]. unfold is_u32 in Hv.
  destruct (_ <=? _); [|by apply Z.mod_small]. rewrite Hq.
  replace (v + (q * 2 ^ 32 - 2 ^ 32)) with (v + (q - 1) * 2 ^ 32) by lia. rewrite Z.mod_add by lia. by apply Z.mod_small.
Qed.

Lemma sext32_ulong (v : Z) : is_ulong (sext32 v).
Proof. apply wrap_range. Qed.

Lemma sext32_mod (v : Z) : sext32 (v mod 2 ^ 32) = sext32 v.
Proof. unfold sext32. by rewrite Z.mod_mod by lia. Qed.

(** The unsigned order is kept. *)
Lemma sext32_lt (a b : Z) : is_u32 a -> is_u32 b -> (sext32 a <? sext32 b) = (a <? b).
Proof.
  intros Ha Hb. rewrite !sext32_eq by done. unfold is_u32 in *. destruct two_words as [Hw _].
  destruct (Z.leb_spec (2 ^ 31) a), (Z.leb_spec (2 ^ 31) b); apply Bool.eq_iff_eq_true; rewrite !Z.ltb_lt; lia.
Qed.

Lemma sext32_signed (a : Z) : is_u32 a -> signed (sext32 a) = signed_of 32 a.
Proof.
  intros Ha. rewrite sext32_eq by done. unfold signed, signed_of, is_u32 in *.
  assert (2 ^ XLEN = 2 * 2 ^ (XLEN - 1)) as EX by (rewrite <- Z.pow_succ_r by (pose proof XLEN_bounds; lia); f_equal; lia).
  assert (2 ^ 31 <= 2 ^ (XLEN - 1)) by (apply pow2_le; pose proof XLEN_bounds; lia).
  change (2 ^ (32 - 1)) with (2 ^ 31).
  destruct (Z.leb_spec (2 ^ 31) a).
  - destruct (Z.leb_spec (2 ^ (XLEN - 1)) (a + (2 ^ XLEN - 2 ^ 32))); lia.
  - destruct (Z.leb_spec (2 ^ (XLEN - 1)) a); lia.
Qed.

Lemma bits_mod (f : Z -> Z -> Z) (fb : bool -> bool -> bool) (a b : Z) :
  (forall x y i, Z.testbit (f x y) i = fb (Z.testbit x i) (Z.testbit y i)) -> fb false false = false ->
  f a b mod 2 ^ 32 = f (a mod 2 ^ 32) (b mod 2 ^ 32).
Proof.
  intros Hf H0. bitwise. rewrite !Hf. rewrite !testbit_mod_pow2 by lia. destruct (i <? 32); by rewrite ?andb_true_r, ?andb_false_r.
Qed.

(** On a word of memory. *)
Lemma amo_new_w (funct5 v src : Z) : amo_op_known funct5 = true -> is_u32 v ->
  amo_new funct5 (sext32 v) (if 0x10 <=? funct5 then sext32 src else src) mod 2 ^ 32 = amo_ref 32 funct5 v (src mod 2 ^ 32).
Proof.
  intros Hk Hv. set (s := src mod 2 ^ 32). assert (is_u32 s) as Hs by (apply Z.mod_pos_bound; lia).
  assert (sext32 src = sext32 s) as -> by (unfold s; by rewrite sext32_mod).
  pose proof (sext32_low v Hv) as Lv. pose proof (sext32_low s Hs) as Ls.
  unfold amo_op_known in Hk. cbn [existsb] in Hk. rewrite !orb_true_iff in Hk.
  destruct Hk as [H|[H|[H|[H|[H|[H|[H|[H|[H|H]]]]]]]]]; try discriminate H; apply Z.eqb_eq in H; subst funct5;
    unfold amo_new, amo_ref; cbn [Z.eqb Z.leb Z.compare Pos.compare Pos.compare_cont Pos.eqb].
  - unfold uadd, wrap. rewrite Z.mod_mod_divide by apply two_words. rewrite Z.add_mod by lia. by rewrite Lv.
  - done.
  - rewrite (bits_mod Z.lxor xorb) by (done || (intros; apply Z.lxor_spec)). by rewrite Lv.
  - rewrite (bits_mod Z.lor orb) by (done || (intros; apply Z.lor_spec)). by rewrite Lv.
  - rewrite (bits_mod Z.land andb) by (done || (intros; apply Z.land_spec)). by rewrite Lv.
  - rewrite !sext32_signed by done. destruct (Z.ltb_spec (signed_of 32 v) (signed_of 32 s)), (Z.leb_spec (signed_of 32 s) (signed_of 32 v)); try lia; done.
  - rewrite !sext32_signed by done. destruct (Z.ltb_spec (signed_of 32 v) (signed_of 32 s)), (Z.leb_spec (signed_of 32 s) (signed_of 32 v)); try lia; done.
  - rewrite sext32_lt by done. destruct (Z.ltb_spec v s); [rewrite Lv|rewrite Ls]; lia.
  - rewrite Z.leb_antisym, sext32_lt by done. destruct (Z.ltb_spec v s); cbn [negb]; [rewrite Ls|rewrite Lv]; lia.
Qed.

(** On a doubleword of RV64. *)
Lemma amo_new_d (funct5 v src : Z) : arch_xlen = RV64 -> amo_op_known funct5 = true ->
  amo_new funct5 v src = amo_ref 64 funct5 v src.
Proof.
  intros EX Hk. assert (XLEN = 64) as E64 by (unfold XLEN; by rewrite EX).
  assert (forall x, signed x = signed_of 64 x) as Hsg by (intros x; unfold signed, signed_of; by rewrite E64).
  unfold amo_op_known in Hk. cbn [existsb] in Hk. rewrite !orb_true_iff in Hk.
  destruct Hk as [H|[H|[H|[H|[H|[H|[H|[H|[H|H]]]]]]]]]; try discriminate H; apply Z.eqb_eq in H; subst funct5;
    unfold amo_new, amo_ref; cbn [Z.eqb Pos.eqb]; try done.
  - unfold uadd, wrap. by rewrite E64.
  - rewrite !Hsg. destruct (Z.ltb_spec (signed_of 64 v) (signed_of 64 src)), (Z.leb_spec (signed_of 64 src) (signed_of 64 v)); try lia; done.
  - rewrite !Hsg. destruct (Z.ltb_spec (signed_of 64 v) (signed_of 64 src)), (Z.leb_spec (signed_of 64 src) (signed_of 64 v)); try lia; done.
  - destruct (Z.ltb_spec v src); lia.
  - destruct (Z.leb_spec src v); lia.
Qed.
End Ops.

(** * An AMO, emulated *)

Section Amo.
Context {AR : Arch} {F : Features} {MM : Mmu} {TE : TrapEnv} {IE : IllegalEnv}.

(** *** Memory *)

Definition mem_bytes (mem : gmap Z Z) : Prop := forall a, 0 <= mem_byte mem a < 256.

Lemma load_le_bound (mem : gmap Z Z) (n : nat) : mem_bytes mem -> forall a, 0 <= load_le mem a n < 2 ^ (8 * Z.of_nat n).
Proof.
  intros Hm. induction n as [|n IH]; intros a; cbn [load_le]; [by split|]. specialize (IH (a + 1)). specialize (Hm a).
  replace (8 * Z.of_nat (S n)) with (8 * Z.of_nat n + 8) by lia. rewrite Z.pow_add_r by lia. lia.
Qed.

Lemma store_le_mod (n : nat) : forall (mem : gmap Z Z) (a v : Z), store_le mem a (v mod 2 ^ (8 * Z.of_nat n)) n = store_le mem a v n.
Proof.
  induction n as [|n IH]; intros mem a v; cbn [store_le]; [done|].
  replace (8 * Z.of_nat (S n)) with (8 + 8 * Z.of_nat n) by lia. rewrite Z.pow_add_r by lia. change (2 ^ 8) with 256.
  set (P := 2 ^ (8 * Z.of_nat n)). assert (0 < P) as Hp by (apply pow2_pos; lia).
  rewrite (Z.mod_mod_divide v (256 * P) 256) by (by exists P; lia).
  replace (v mod (256 * P) / 256) with ((v / 256) mod P); [apply IH|].
  rewrite Z.rem_mul_r by lia. rewrite Z.mul_comm, Z.div_add by lia.
  rewrite (Z.div_small (v mod 256)) by (apply Z.mod_pos_bound; lia). done.
Qed.

(** The tries of an AMO of [width] bytes at [pa]: the others' writes come in
    between, and at the first SC that succeeds the value there is read and
    replaced at once. [None]: none of [n] did. *)
Fixpoint amo_tries (mem : gmap Z Z) (width funct5 pa src k : Z) (n : nat) : option Z * gmap Z Z :=
  match n with
  | O => (None, mem)
  | S n =>
      let mem := ie_others k mem in
      if ie_sc_fails k then amo_tries mem width funct5 pa src (k + 1) n
      else
        let v := load_le mem pa (Z.to_nat width) in
        (Some v, store_le mem pa (amo_ref (8 * width) funct5 v (src mod 2 ^ (8 * width))) (Z.to_nat width))
  end.

Section Tries.
Context (regs : trap_regs) (Hms : is_ulong (tr_mstatus regs)).
Context (addr pa f3 funct5 src : Z).
Abbreviation width := (if f3 =? 2 then 4 else 8).
Context (Hf3 : f3 = 2 \/ f3 = 3 /\ arch_xlen = RV64) (Hk : amo_op_known funct5 = true) (Hsrc : is_ulong src).
Context (Hload : mmu_access (access_mstatus regs 0) AccLoad addr width = inl pa).
Context (Hstore : mmu_access (access_mstatus regs 0) AccStore addr width = inl pa).
Context (Hothers : forall k mem, mem_bytes mem -> mem_bytes (ie_others k mem)).

(** [src] as [emulate_amo] passes it on, and the old value in a register. *)
Abbreviation src' := (if (f3 =? 2) && (0x10 <=? funct5) then sext32 src else src).
Definition in_reg (v : Z) : Z := if f3 =? 2 then sext32 v else v.

Lemma attempt_value (mem : gmap Z Z) : mem_bytes mem ->
  let v := load_le mem pa (Z.to_nat width) in
  store_le mem pa (amo_new funct5 (in_reg v) src') (Z.to_nat width) =
  store_le mem pa (amo_ref (8 * width) funct5 v (src mod 2 ^ (8 * width))) (Z.to_nat width).
Proof.
  intros Hm. cbv zeta. unfold in_reg. destruct Hf3 as [->|[-> EX]].
  - change (2 =? 2) with true. cbn [andb]. rewrite <- store_le_mod, <- amo_new_w; [done|done|].
    apply (load_le_bound mem 4 Hm).
  - change (3 =? 2) with false. cbn [andb]. rewrite amo_new_d by done. change (8 * 8) with 64.
    rewrite (Z.mod_small src); [done|]. unfold is_ulong, XLEN in Hsrc. by rewrite EX in Hsrc.
Qed.

Lemma amo_loop_spec (n : nat) : forall (m : machine) (k : Z),
  csr_wf (m_csrs m) -> mem_bytes (m_mem m) ->
  let '(r, mem) := amo_tries (m_mem m) width funct5 pa src k n in
  exists m', steady (m <| m_mem := mem |>) m' /\
    amo_loop m regs f3 funct5 addr src' k n =
      match r with Some v => inl (in_reg v, m') | None => inr (TRet (regs, m')) end.
Proof.
  induction n as [|n IH]; intros m k Hwf Hm; cbn [amo_loop amo_tries].
  { exists m. split; [|done]. destruct m. apply steady_refl. }
  set (m0 := m <| m_mem ::= ie_others k |>).
  assert (m_mem m0 = ie_others k (m_mem m)) as Em0 by done. assert (csr_wf (m_csrs m0)) as Hwf0 by done.
  pose proof (window_mstatus m0 regs Hwf0 Hms 0 ltac:(split; [done|apply pow_XLEN_pos])) as Ew.
  assert (m_mem (window m0 regs 0) = m_mem m0) as Emw by apply (window_rest m0 regs Hwf0 0).
  assert ((if f3 =? 2 then amo_attempt_w (snd (unpriv_begin m0 regs 0)) funct5 addr src' k
           else amo_attempt_d (snd (unpriv_begin m0 regs 0)) funct5 addr src' k) =
          amo_attempt (snd (unpriv_begin m0 regs 0)) width funct5 addr src' k) as Eatt by (by destruct (f3 =? 2)).
  pose proof (fun m1 => end_ok m0 regs Hwf0 m1 0) as He.
  destruct (unpriv_begin m0 regs 0) as [w m1] eqn:E1. cbn [fst snd] in *. rewrite Eatt. unfold amo_attempt.
  assert (m1 <| m_csrs ::= (fun c => csr_set c CSR_MSTATUS (BIT MSTATUS_MPRV_BIT)) |> = window m0 regs 0) as ->
    by (unfold window; by rewrite E1).
  rewrite Ew, Hload, Hstore, Emw, Em0.
  assert (forall v, (if width =? 4 then sext32 v else v) = in_reg v) as Hreg.
  { intros v. unfold in_reg. destruct (f3 =? 2); done. }
  rewrite Hreg. destruct (ie_sc_fails k).
  - specialize (He (window m0 regs 0)). cbv zeta in He. destruct (unpriv_end _ regs w) as [fault m3].
    destruct He as [-> Hs3]; [by destruct (window m0 regs 0)|]. rewrite Emw, Em0 in Hs3.
    pose proof (st_mem _ _ Hs3) as Em3. cbn in Em3.
    specialize (IH m3 (k + 1) (st_wf _ _ Hs3 Hwf) ltac:(rewrite Em3; by apply Hothers)). rewrite Em3 in IH.
    destruct (amo_tries _ width funct5 pa src (k + 1) n) as [r mem]. destruct IH as (m' & Hs' & ->). exists m'. split; [|done].
    by apply (steady_mem_after m m3 m' _ mem Hs3).
  - rewrite (attempt_value _ (Hothers k _ Hm)). set (mem := store_le _ _ _ _).
    specialize (He ((window m0 regs 0) <| m_mem := mem |>) eq_refl). cbv zeta in He.
    destruct (unpriv_end _ regs w) as [fault m3]. destruct He as [-> Hs3]. exists m3. split; [exact Hs3|done].
Qed.
End Tries.

(** C22: an AMO is emulated as one. On memory the context may read and write,
    [emulate_amo] does the operation of the ISA on the word or doubleword
    there is when its SC succeeds, in one step whatever the other harts write
    in between, with the old value in rd and the pc behind it; or, when 64
    tries have failed, it has changed nothing at all and the instruction is
    run again. *)
Theorem amo_emulated (m : machine) (regs : trap_regs) (insn pa : Z) :
  let f3 := INSN_FUNCT3 insn in
  let width := if f3 =? 2 then 4 else 8 in
  let addr := trap_reg regs (INSN_RS1 insn) in
  let src := trap_reg regs (INSN_RS2 insn) in
  csr_wf (m_csrs m) -> is_ulong (tr_mstatus regs) -> mem_bytes (m_mem m) ->
  (forall k mem, mem_bytes mem -> mem_bytes (ie_others k mem)) ->
  ie_config_a = true -> amo_op_known (INSN_FUNCT5 insn) = true -> f3 = 2 \/ f3 = 3 /\ arch_xlen = RV64 -> is_ulong src ->
  mmu_access (access_mstatus regs 0) AccLoad addr width = inl pa ->
  mmu_access (access_mstatus regs 0) AccStore addr width = inl pa ->
  let '(r, mem) := amo_tries (m_mem m) width (INSN_FUNCT5 insn) pa src 0 64 in
  exists m', steady (m <| m_mem := mem |>) m' /\
    emulate_amo m regs insn = Some (TRet (
      match r with
      | Some v =>
          let regs := if INSN_RD insn =? 0 then regs
                      else trap_reg_set regs (INSN_RD insn) (if f3 =? 2 then sext32 v else v) in
          regs <| tr_mepc := tr_mepc regs +! 4 |>
      | None => regs
      end, m')).
Proof.
  cbv zeta. intros Hwf Hms Hm Hoth HA Hk Hf3 Hsrc Hl Hst. unfold emulate_amo. rewrite HA, Hk. cbn [negb].
  assert (negb (INSN_FUNCT3 insn =? 2) && negb ((INSN_FUNCT3 insn =? 3) && match arch_xlen with RV64 => true | RV32 => false end) = false) as ->.
  { destruct Hf3 as [->|[-> ->]]; done. }
  unfold unpriv_read.
  assert (load_width (if INSN_FUNCT3 insn =? 2 then 4 else 8) = if INSN_FUNCT3 insn =? 2 then 4 else 8) as Ew.
  { unfold load_width. destruct Hf3 as [->|[-> EX]]; [by destruct arch_xlen|by rewrite EX]. }
  rewrite <- Ew in Hl.
  destruct (unpriv_load_ok m regs Hwf Hms _ (if INSN_FUNCT3 insn =? 2 then 4 else 8) pa false Hl) as (m1 & -> & Hs1).
  rewrite Ew in Hl. pose proof (amo_loop_spec regs Hms _ pa _ _ _ Hf3 Hk Hsrc Hl Hst Hoth 64 m1 0 (st_wf _ _ Hs1 Hwf)) as Hloop.
  rewrite (st_mem _ _ Hs1) in Hloop. specialize (Hloop Hm).
  destruct (amo_tries _ _ _ pa _ 0 64) as [r mem]. destruct Hloop as (m' & Hs' & E). exists m'. split.
  - by apply (steady_mem_after m m1 m' _ mem (steady_same_mem _ _ Hs1)).
  - change (Z.to_nat AMO_TRIES) with 64%nat. rewrite E. destruct r as [v|]; [|done]. unfold truth, in_reg.
    by destruct (INSN_RD insn =? 0).
Qed.

(** a counter is read only where it is open. When the emulation of a CSR
    instruction changes a register, it was a read of a counter, of rd alone;
    a guest's hypervisor has opened the counter to it, and S-mode has to a
    context in U-mode. *)
Theorem counter_read_allowed (m m' : machine) (regs regs' : trap_regs) (info : trap_info) (insn : Z) :
  emulate_csr_read m regs info insn = Some (TRet (regs', m')) -> tr_x regs' <> tr_x regs ->
  exists n high, counter_csr (INSN_CSR insn) = Some (n, high) /\ INSN_RS1 insn = 0 /\
    (ti_virt info = true -> bit (m_read m CSR_HCOUNTEREN) n = true) /\
    (Z.land (tr_mstatus regs) MSTATUS_MPP = 0 -> bit (m_read m CSR_SCOUNTEREN) n = true) /\
    m' = m /\ exists v, tr_x regs' = <[Z.to_nat (INSN_RD insn) := v]> (tr_x regs).
Proof.
  unfold emulate_csr_read. intros H Hx. destruct (_ && _) eqn:Ef3 in H; [done|]. clear Ef3.
  destruct (Z.eqb_spec (INSN_RS1 insn) 0) as [E1|]; [|done]. cbn [negb] in H.
  destruct (counter_csr (INSN_CSR insn)) as [[n high]|]; [|done]. exists n, high.
  destruct (ti_virt info && negb (bit (m_read m CSR_HCOUNTEREN) n)) eqn:Ev.
  { exfalso. apply Hx. injection H as H. unfold trap_redirect, trap_double in H.
    destruct (_ =? PRV_M) in H; [done|]. destruct (_ && _) in H; [destruct te_double_trap_ready; [by simplify_eq|done]|].
    destruct (redirect_h _ _ _ _) in H. by simplify_eq. }
  destruct (negb (truth (Z.land (tr_mstatus regs) MSTATUS_MPP)) && negb (bit (m_read m CSR_SCOUNTEREN) n)) eqn:Eu; [done|].
  destruct (if n =? 1 then _ else _) as [val|]; [|done].
  assert (m' = m /\ tr_x regs' = tr_x (if truth (INSN_RD insn)
     then trap_reg_set regs (INSN_RD insn) (wrap (if high then Z.shiftr val 32 else val)) else regs)) as [-> Ex] by (by simplify_eq).
  split_and!; try done.
  - intros Hv. rewrite Hv in Ev. by destruct (bit (m_read m CSR_HCOUNTEREN) n).
  - intros H0. rewrite H0 in Eu. by destruct (bit (m_read m CSR_SCOUNTEREN) n).
  - rewrite Ex in *. destruct (truth (INSN_RD insn)); [|done]. by eexists.
Qed.
End Amo.
