(* ===== verification/HartInit.v ===== *)
(** What a hart has, and its registers before S-mode runs on it: the probes,
    the delegations and the entry of [arch/riscv/runtime/hart.c], and
    [ras_irqs_probe] of [ras.c].

    Which registers there are, and what a register holds after a write, are
    the hardware's ([HartRegs]); a value a register shows can be written back
    ([HartRegsOk]).  The services' own inits ([pmp_hart_init] and the rest)
    are with their components. *)

From S2P Require Import Prelude Arch Csr Fields Pmp PmpLayout Sse DomainContext Trap.

#[local] Open Scope Z_scope.

(** ** Numbers ([csr.h], [pmp.h]) *)

Definition CSR_TIME : Z := 0xc01.
Definition CSR_TSELECT : Z := 0x7a0.
Definition CSR_MSTATEEN0 : Z := 0x30c.
Definition CSR_MSTATEEN0H : Z := 0x31c.
Definition CSR_MCYCLECFG : Z := 0x321.
Definition CSR_SCOUNTOVF : Z := 0xda0.
Definition CSR_MISELECT : Z := 0x350.
Definition MSECCFG_SSEED : Z := 0x200.
Definition ENVCFG_CBIE : Z := 0x30.
Definition ENVCFG_CBCFE : Z := 0x40.
Definition ENVCFG_CBZE : Z := 0x80.
Definition ENVCFG_CDE_BIT : Z := 60.
Definition ENVCFG_PBMTE_BIT : Z := 62.
Definition ENVCFG_STCE_BIT : Z := 63.
Definition COUNTEREN_TM : Z := 2.
Definition MIP_SEIP : Z := 2 ^ 9.
Definition IRQ_PMU_OVF : Z := 13.
Definition CAUSE_MISALIGNED_FETCH : Z := 0.
Definition CAUSE_BREAKPOINT : Z := 3.
Definition CAUSE_USER_ECALL : Z := 8.
Definition CAUSE_VSUPERVISOR_ECALL : Z := 10.
Definition STATEEN0_KNOWN : Z :=
  fold_right Z.lor 0 ((fun n => 2 ^ n) <$> [1; 2; 55; 56; 57; 58; 59; 60; 62; 63]).

(** [misa], with what the hart says of H *)
Definition MISA_EXT_H : Z := 2 ^ 7.

(** The registers: which there are, and what a register holds after a value
    was written to it. *)
Class HartRegs := {
  hr_there : Z -> bool;
  hr_legal : Z -> Z -> Z;
}.

(** The options of the build, and the device tree's word ([isa_allows]). *)
Class InitConfig := {
  CONFIG_RISCV_EXT_SSTC : bool; CONFIG_RISCV_EXT_SMEPMP : bool;
  CONFIG_RISCV_EXT_SMSTATEEN : bool; CONFIG_RISCV_EXT_SSCOFPMF : bool;
  allows_smepmp : bool; allows_smcntrpmf : bool; allows_smcdeleg : bool; allows_ssccfg : bool; allows_zkr : bool;
}.

Section HartInit.
Context {AR : Arch} {KC : Kconfig} {HR : HartRegs} {IC : InitConfig}.

Definition reg_write (c : csr_file) (csr val : Z) : csr_file := csr_write c csr (hr_legal csr (wrap val)).
Definition reg_set (c : csr_file) (csr val : Z) : csr_file := reg_write c csr (Z.lor (csr_read c csr) val).
Definition reg_clear (c : csr_file) (csr val : Z) : csr_file := reg_write c csr (Z.land (csr_read c csr) (unot val)).

(** * What a hart has *)

(** Set [mask], read, and put back: does any of it stick? *)
Definition bits_stick (c : csr_file) (csr mask : Z) : bool * csr_file :=
  let old := csr_read c csr in
  let c := reg_set c csr mask in
  (truth (Z.land (csr_read c csr) mask), reg_write c csr old).

Definition envcfg_bit_sticks (c : csr_file) (bit : Z) : bool * csr_file :=
  match arch_xlen with
  | RV64 => bits_stick c CSR_MENVCFG (BIT bit)
  | RV32 => if bit <? 32 then bits_stick c CSR_MENVCFG (BIT bit) else bits_stick c CSR_MENVCFGH (BIT (bit - 32))
  end.

Definition ras_irqs_probe (c : csr_file) : bool * csr_file :=
  let bits := Z.lor (RAS_IE_BIT IRQ_RAS_LOW) (RAS_IE_BIT IRQ_RAS_HIGH) in
  if negb (hr_there RAS_IE_CSR) then (false, c)
  else
    let val := csr_read c RAS_IE_CSR in
    let c := reg_set c RAS_IE_CSR bits in
    let got := Z.land (csr_read c RAS_IE_CSR) bits in
    (got =? bits, reg_write c RAS_IE_CSR (Z.land val (unot bits))).

(** [pmpaddr0]: is there one, and its grain *)
Definition pmp_probe (c : csr_file) : bool * option Z * csr_file :=
  if (2 <=? CONFIG_RISCV_PMP_COUNT) && hr_there CSR_PMPADDR0 then
    let val := csr_read c CSR_PMPADDR0 in
    let c := reg_write c CSR_PMPADDR0 (unot 0) in
    let ones := csr_read c CSR_PMPADDR0 in
    (truth ones, Some (pmp_grain_set ones), reg_write c CSR_PMPADDR0 val)
  else (false, None, c).

Definition menvcfg_dte_sticks (c : csr_file) : bool * csr_file := envcfg_bit_sticks c ENVCFG_DTE_BIT.

(** [hart_detect_features] up to [monitor_regions_init]: the table, the grain
    where it was probed, and the registers *)
Definition hart_detect_features (c : csr_file) : (hart_feature -> bool) * option Z * csr_file :=
  let h := truth (Z.land (csr_read c CSR_MISA) MISA_EXT_H) in
  let time := hr_there CSR_TIME in
  let menvcfg := hr_there CSR_MENVCFG in
  let '(pmp, grain, c) := pmp_probe c in
  let sstc := CONFIG_RISCV_EXT_SSTC && menvcfg && hr_there CSR_STIMECMP in
  let sdtrig := hr_there CSR_TSELECT in
  let '(ssdbltrp, c) := if menvcfg then menvcfg_dte_sticks c else (false, c) in
  let '(smepmp, c) := if CONFIG_RISCV_EXT_SMEPMP && pmp && hr_there CSR_MSECCFG && allows_smepmp
                      then bits_stick c CSR_MSECCFG MSECCFG_RLB else (false, c) in
  let smstateen := CONFIG_RISCV_EXT_SMSTATEEN && hr_there CSR_MSTATEEN0 in
  let sscofpmf := CONFIG_RISCV_EXT_SSCOFPMF && hr_there CSR_SCOUNTOVF in
  let smcntrpmf := hr_there CSR_MCYCLECFG && allows_smcntrpmf in
  let '(cde, c) := if menvcfg then envcfg_bit_sticks c ENVCFG_CDE_BIT else (false, c) in
  let smcdeleg := cde && allows_smcdeleg && allows_ssccfg in
  let '(zkr, c) := if hr_there CSR_MSECCFG && allows_zkr then bits_stick c CSR_MSECCFG MSECCFG_SSEED else (false, c) in
  let aia := hr_there CSR_MISELECT in
  let '(ras, c) := ras_irqs_probe c in
  (fun f => match f with
   | HART_FEAT_PMP => pmp | HART_FEAT_SMEPMP => smepmp | HART_FEAT_TIME_CSR => time | HART_FEAT_MENVCFG => menvcfg
   | HART_FEAT_SSTC => sstc | HART_FEAT_SSCOFPMF => sscofpmf | HART_FEAT_SMSTATEEN => smstateen
   | HART_FEAT_SDTRIG => sdtrig | HART_FEAT_SSDBLTRP => ssdbltrp | HART_FEAT_H => h | HART_FEAT_SMCNTRPMF => smcntrpmf
   | HART_FEAT_SMCDELEG => smcdeleg | HART_FEAT_ZKR => zkr | HART_FEAT_AIA => aia | HART_FEAT_RAS_IRQ => ras
   end, grain, c).

(** * Before S-mode runs *)

Context {F : Features}.

(** A bit of the 64 of menvcfg. *)
Definition envcfg_set (c : csr_file) (bit : Z) : csr_file :=
  match arch_xlen with RV64 => reg_set c CSR_MENVCFG (BIT bit) | RV32 => reg_set c CSR_MENVCFGH (BIT (bit - 32)) end.

Definition envcfg_init (c : csr_file) : csr_file :=
  if negb (hart_has HART_FEAT_MENVCFG) then c
  else
    let rv32 (w : csr_file -> csr_file) (c : csr_file) := match arch_xlen with RV32 => w c | RV64 => c end in
    let c := reg_write c CSR_MENVCFG 0 in
    let c := rv32 (fun c => reg_write c CSR_MENVCFGH 0) c in
    let c := reg_set c CSR_MENVCFG (Z.lor (Z.lor ENVCFG_CBIE ENVCFG_CBCFE) ENVCFG_CBZE) in
    let c := if hart_has HART_FEAT_SSTC
             then rv32 (fun c => reg_write c CSR_STIMECMPH (unot 0)) (reg_write c CSR_STIMECMP (unot 0)) else c in
    let c := envcfg_set c ENVCFG_PBMTE_BIT in
    let c := if hart_has HART_FEAT_SSTC then envcfg_set c ENVCFG_STCE_BIT else c in
    if hart_has HART_FEAT_SMCDELEG then envcfg_set c ENVCFG_CDE_BIT else c.

Definition stateen_init (c : csr_file) : csr_file :=
  if negb (hart_has HART_FEAT_SMSTATEEN) then c
  else
    let c := reg_write c CSR_MSTATEEN0 STATEEN0_KNOWN in
    let c := reg_write c (CSR_MSTATEEN0 + 1) 0 in
    let c := reg_write c (CSR_MSTATEEN0 + 2) 0 in
    let c := reg_write c (CSR_MSTATEEN0 + 3) 0 in
    match arch_xlen with
    | RV64 => c
    | RV32 =>
        let c := reg_write c CSR_MSTATEEN0H (high32_from_64 STATEEN0_KNOWN) in
        let c := reg_write c (CSR_MSTATEEN0H + 1) 0 in
        let c := reg_write c (CSR_MSTATEEN0H + 2) 0 in
        reg_write c (CSR_MSTATEEN0H + 3) 0
    end.

(** Exceptions S-mode handles itself. *)
Definition exceptions_delegated : Z :=
  Z.lor
    (fold_right Z.lor 0 (BIT <$> [CAUSE_MISALIGNED_FETCH; CAUSE_BREAKPOINT; CAUSE_USER_ECALL; CAUSE_FETCH_PAGE_FAULT;
                                  CAUSE_LOAD_PAGE_FAULT; CAUSE_STORE_PAGE_FAULT]))
    (if hart_has HART_FEAT_H
     then fold_right Z.lor 0 (BIT <$> [CAUSE_VSUPERVISOR_ECALL; CAUSE_FETCH_GUEST_PAGE_FAULT; CAUSE_LOAD_GUEST_PAGE_FAULT;
                                       CAUSE_VIRTUAL_INSN; CAUSE_STORE_GUEST_PAGE_FAULT])
     else 0).
Definition interrupts_delegated : Z :=
  Z.lor (Z.lor (Z.lor MIP_SSIP MIP_STIP) MIP_SEIP) (if hart_has HART_FEAT_SSCOFPMF then BIT IRQ_PMU_OVF else 0).

(** [hart_runtime_init] up to the services' inits *)
Definition hart_registers_init (c : csr_file) : csr_file :=
  let c := reg_write c CSR_MEDELEG exceptions_delegated in
  let c := reg_write c CSR_MIDELEG interrupts_delegated in
  let c := reg_write c CSR_MCOUNTEREN (if hart_has HART_FEAT_TIME_CSR then unot 0 else unot COUNTEREN_TM) in
  let c := reg_write c CSR_SCOUNTEREN 0 in
  let c := envcfg_init c in
  let c := if hart_has HART_FEAT_ZKR then reg_set c CSR_MSECCFG MSECCFG_SSEED else c in
  stateen_init c.

(** [hart_sstateen_reset]: [sstateen0] to [3], by number *)
Definition sstateen_reset_regs (c : csr_file) : csr_file :=
  if negb (hart_has HART_FEAT_SMSTATEEN) then c
  else foldl (fun c n => reg_write c (CSR_SSTATEEN0 + n) (unot 0)) c [0; 1; 2; 3].

(** [hart_enter_smode] up to [_hart_mret], which goes to [entry] with the
    arguments: the registers *)
Definition MSTATUS_ENTER_OFF : Z :=
  fold_right Z.lor 0
    [ 3 * 2 ^ 11 (* MPP *); BIT MSTATUS_MPIE_BIT; BIT MSTATUS_MPRV_BIT; BIT MSTATUS_SIE_BIT; BIT MSTATUS_SPIE_BIT; BIT MSTATUS_SPP_BIT ].
Definition enter_mstatus (mstatus mode : Z) : Z :=
  let mstatus := Z.land mstatus (unot MSTATUS_ENTER_OFF) in
  let mstatus := Z.lor mstatus (ushl mode MSTATUS_MPP_SHIFT) in
  match arch_xlen with RV64 => Z.land mstatus (unot (BIT MSTATUS_MPV_BIT)) | RV32 => mstatus end.

Definition hart_enter_smode (c : csr_file) (entry mode : Z) : csr_file :=
  let mstatus := csr_read c CSR_MSTATUS in
  let c := match arch_xlen with
           | RV64 => c
           | RV32 => if hart_has HART_FEAT_H then reg_clear c CSR_MSTATUSH (BIT MSTATUSH_MPV_BIT) else c
           end in
  let c := reg_write c CSR_MSTATUS (enter_mstatus mstatus mode) in
  let c := reg_write c CSR_STVEC entry in
  let c := reg_write c CSR_SSCRATCH 0 in
  let c := reg_write c CSR_MIE (Z.land (csr_read c CSR_MIE) (unot (csr_read c CSR_MIDELEG))) in (* sie *)
  let c := reg_write c CSR_SATP 0 in
  sstateen_reset_regs c.
End HartInit.

(** * What the probes leave *)

(** A value a register shows can be written back; the delegation registers
    and mie hold no bit that was not written, M-mode's interrupts are never
    delegated, satp can be 0, and the fields of mstatus an entry is about
    hold what is written, for a mode there is. *)
Class HartRegsOk {AR : Arch} {HR : HartRegs} : Prop := {
  hr_back csr v : hr_legal csr (hr_legal csr v) = hr_legal csr v;
  hr_word csr v : is_ulong v -> is_ulong (hr_legal csr v);
  hr_medeleg v i : Z.testbit (hr_legal CSR_MEDELEG v) i = true -> Z.testbit v i = true;
  hr_mideleg v i : i ∈ [3; 7; 11] -> Z.testbit (hr_legal CSR_MIDELEG v) i = false;
  hr_mie v i : Z.testbit (hr_legal CSR_MIE v) i = true -> Z.testbit v i = true;
  hr_satp : hr_legal CSR_SATP 0 = 0;
  hr_mstatus v i : i ∈ [MSTATUS_SIE_BIT; MSTATUS_SPIE_BIT; MSTATUS_MPIE_BIT; MSTATUS_SPP_BIT; 11; 12; MSTATUS_MPRV_BIT; MSTATUS_MPV_BIT] ->
    Z.testbit v 12 = false -> Z.testbit (hr_legal CSR_MSTATUS v) i = Z.testbit v i;
}.

Section Probes.
Context {AR : Arch} {KC : Kconfig} {HR : HartRegs} {IC : InitConfig} {OK : HartRegsOk}.

(** Every register holds a word it can be given. *)
Definition regs_shown (c : csr_file) : Prop := forall csr, is_ulong (csr_read c csr) /\ hr_legal csr (csr_read c csr) = csr_read c csr.
Definition same_regs (c c' : csr_file) : Prop := forall csr, csr_read c' csr = csr_read c csr.

#[local] Instance same_regs_equiv : Equivalence same_regs.
Proof. split; [done|by intros c c' H csr|]. intros c1 c2 c3 H1 H2 csr. by rewrite H2, H1. Qed.

Lemma same_regs_shown c c' : same_regs c c' -> regs_shown c -> regs_shown c'.
Proof. intros Hs Hr csr. rewrite Hs. apply Hr. Qed.

Lemma reg_write_read c csr v csr' :
  csr_read (reg_write c csr v) csr' = if decide (csr = csr') then hr_legal csr (wrap v) else csr_read c csr'.
Proof.
  unfold reg_write. rewrite csr_read_write. case_decide; [|done]. apply wrap_small, hr_word, wrap_range.
Qed.

(** Written, and then what it showed before written back. *)
Lemma reg_restored c csr v : regs_shown c -> same_regs c (reg_write (reg_write c csr v) csr (csr_read c csr)).
Proof.
  intros Hc csr'. rewrite !reg_write_read. case_decide as E; [subst|done].
  destruct (Hc csr') as [Hu Hl]. by rewrite wrap_small.
Qed.

Lemma sticks_same c csr mask : regs_shown c -> same_regs c (bits_stick c csr mask).2.
Proof. apply reg_restored. Qed.

Lemma envcfg_bit_sticks_same c bit : regs_shown c -> same_regs c (envcfg_bit_sticks c bit).2.
Proof. intros. unfold envcfg_bit_sticks. destruct arch_xlen; [destruct (bit <? 32)|]; by apply sticks_same. Qed.

Lemma pmp_probe_same c : regs_shown c -> same_regs c (pmp_probe c).2.
Proof. intros. unfold pmp_probe. destruct (_ && _); [|done]. by apply reg_restored. Qed.

(** A probe that is made only where a register is there. *)
Lemma probe_if_same (b : bool) (p : csr_file -> bool * csr_file) c :
  (forall c, regs_shown c -> same_regs c (p c).2) -> regs_shown c -> same_regs c (if b then p c else (false, c)).2.
Proof. intros Hp Hc. destruct b; [by apply Hp|done]. Qed.

Lemma ras_irqs_probe_same c csr :
  regs_shown c ->
  csr <> RAS_IE_CSR \/ Z.land (csr_read c RAS_IE_CSR) (Z.lor (RAS_IE_BIT IRQ_RAS_LOW) (RAS_IE_BIT IRQ_RAS_HIGH)) = 0 ->
  csr_read (ras_irqs_probe c).2 csr = csr_read c csr.
Proof.
  intros Hc Hbits. unfold ras_irqs_probe. destruct (hr_there RAS_IE_CSR); [|done]. cbn [negb snd]. unfold reg_set.
  rewrite !reg_write_read. case_decide as E; [|done]. subst csr. destruct Hbits as [?|Hb]; [done|].
  destruct (Hc RAS_IE_CSR) as [Hu Hl]. rewrite land_unot by done.
  assert (Z.ldiff (csr_read c RAS_IE_CSR) (Z.lor (RAS_IE_BIT IRQ_RAS_LOW) (RAS_IE_BIT IRQ_RAS_HIGH)) = csr_read c RAS_IE_CSR) as ->; [|by rewrite wrap_small].
  apply Z.bits_inj'. intros i Hi. rewrite Z.ldiff_spec. pose proof (f_equal (fun x => Z.testbit x i) Hb) as Hbi.
  cbn beta in Hbi. rewrite Z.land_spec, Z.bits_0 in Hbi. destruct (Z.testbit (csr_read c RAS_IE_CSR) i); [|done]. cbn in Hbi. by rewrite Hbi.
Qed.

(** Finding out what a hart has leaves its registers as they were, the
    enables of the RAS interrupts excepted, which are off then: no probe has
    an effect that outlasts it. *)
Theorem detection_leaves_registers c csr :
  regs_shown c ->
  csr <> RAS_IE_CSR \/ Z.land (csr_read c RAS_IE_CSR) (Z.lor (RAS_IE_BIT IRQ_RAS_LOW) (RAS_IE_BIT IRQ_RAS_HIGH)) = 0 ->
  csr_read (hart_detect_features c).2 csr = csr_read c csr.
Proof.
  intros Hc Hb. unfold hart_detect_features.
  pose proof (pmp_probe_same c Hc) as H1. destruct (pmp_probe c) as [[pmp grain] c1]. cbn [snd] in H1.
  pose proof (same_regs_shown _ _ H1 Hc) as Hc1.
  pose proof (probe_if_same (hr_there CSR_MENVCFG) menvcfg_dte_sticks c1 (fun c Hc => envcfg_bit_sticks_same c _ Hc) Hc1) as H2.
  destruct (if hr_there CSR_MENVCFG then menvcfg_dte_sticks c1 else _) as [ssdbltrp c2]. cbn [snd] in H2.
  pose proof (same_regs_shown _ _ H2 Hc1) as Hc2.
  pose proof (probe_if_same (CONFIG_RISCV_EXT_SMEPMP && pmp && hr_there CSR_MSECCFG && allows_smepmp)
    (fun c => bits_stick c CSR_MSECCFG MSECCFG_RLB) c2 (fun c Hc => sticks_same c _ _ Hc) Hc2) as H3. cbn beta in H3.
  destruct (if CONFIG_RISCV_EXT_SMEPMP && _ && _ && _ then _ else _) as [smepmp c3]. cbn [snd] in H3.
  pose proof (same_regs_shown _ _ H3 Hc2) as Hc3.
  pose proof (probe_if_same (hr_there CSR_MENVCFG) (fun c => envcfg_bit_sticks c ENVCFG_CDE_BIT) c3 (fun c Hc => envcfg_bit_sticks_same c _ Hc) Hc3) as H4. cbn beta in H4.
  destruct (if hr_there CSR_MENVCFG then envcfg_bit_sticks c3 _ else _) as [cde c4]. cbn [snd] in H4.
  pose proof (same_regs_shown _ _ H4 Hc3) as Hc4.
  pose proof (probe_if_same (hr_there CSR_MSECCFG && allows_zkr) (fun c => bits_stick c CSR_MSECCFG MSECCFG_SSEED) c4 (fun c Hc => sticks_same c _ _ Hc) Hc4) as H5. cbn beta in H5.
  destruct (if hr_there CSR_MSECCFG && allows_zkr then _ else _) as [zkr c5]. cbn [snd] in H5.
  pose proof (same_regs_shown _ _ H5 Hc4) as Hc5.
  assert (same_regs c c5) as Hs by (etrans; [exact H1|etrans; [exact H2|etrans; [exact H3|etrans; [exact H4|exact H5]]]]).
  pose proof (ras_irqs_probe_same c5 csr Hc5) as H6. rewrite !Hs in H6. specialize (H6 Hb).
  destruct (ras_irqs_probe c5) as [ras c6]. exact H6.
Qed.

(** * What S-mode starts with *)

Context {F : Features}.

Lemma reg_write_other c csr csr' v : csr <> csr' -> csr_read (reg_write c csr v) csr' = csr_read c csr'.
Proof. intros. rewrite reg_write_read. by case_decide. Qed.
Lemma reg_write_same c csr v : csr_read (reg_write c csr v) csr = hr_legal csr (wrap v).
Proof. rewrite reg_write_read. by case_decide. Qed.

(** Registers of an init that a write to another leaves. *)
Lemma envcfg_init_other c csr :
  csr ∉ [CSR_MENVCFG; CSR_MENVCFGH; CSR_STIMECMP; CSR_STIMECMPH] -> csr_read (envcfg_init c) csr = csr_read c csr.
Proof.
  intros Hn. unfold envcfg_init, envcfg_set, reg_set.
  destruct (hart_has HART_FEAT_MENVCFG); [|done]. cbn [negb].
  destruct (hart_has HART_FEAT_SSTC), (hart_has HART_FEAT_SMCDELEG), arch_xlen;
    rewrite !reg_write_other; try done; intros <-; apply Hn; vm_compute; set_solver.
Qed.
Lemma stateen_init_other c csr :
  csr ∉ ((fun n => CSR_MSTATEEN0 + n) <$> [0; 1; 2; 3]) ++ ((fun n => CSR_MSTATEEN0H + n) <$> [0; 1; 2; 3]) ->
  csr_read (stateen_init c) csr = csr_read c csr.
Proof.
  intros Hn. unfold stateen_init. destruct (hart_has HART_FEAT_SMSTATEEN); [|done]. cbn [negb].
  destruct arch_xlen; rewrite !reg_write_other; try done; intros <-; apply Hn; vm_compute; set_solver.
Qed.
Lemma sstateen_reset_regs_other c csr :
  csr ∉ ((fun n => CSR_SSTATEEN0 + n) <$> [0; 1; 2; 3]) -> csr_read (sstateen_reset_regs c) csr = csr_read c csr.
Proof.
  intros Hn. unfold sstateen_reset_regs. destruct (hart_has HART_FEAT_SMSTATEEN); [|done]. cbn [negb foldl].
  rewrite !reg_write_other; try done; intros <-; apply Hn; vm_compute; set_solver.
Qed.

Lemma registers_init_deleg c :
  csr_read (hart_registers_init c) CSR_MEDELEG = hr_legal CSR_MEDELEG (wrap exceptions_delegated) /\
  csr_read (hart_registers_init c) CSR_MIDELEG = hr_legal CSR_MIDELEG (wrap interrupts_delegated).
Proof.
  unfold hart_registers_init, reg_set.
  split; rewrite stateen_init_other by (vm_compute; set_solver); destruct (hart_has HART_FEAT_ZKR);
    rewrite ?(reg_write_other _ CSR_MSECCFG) by done; rewrite envcfg_init_other by (vm_compute; set_solver);
    rewrite !reg_write_other by done; apply reg_write_same.
Qed.

(** The traps the monitor handles: S-mode's calls, what it emulates or
    reports (illegal instructions, misaligned and faulting accesses), and
    double traps. *)
Definition kept_causes : list Z :=
  [CAUSE_FETCH_ACCESS; CAUSE_ILLEGAL_INSN; CAUSE_MISALIGNED_LOAD; CAUSE_LOAD_ACCESS; CAUSE_MISALIGNED_STORE;
   CAUSE_STORE_ACCESS; CAUSE_SUPERVISOR_ECALL; CAUSE_DOUBLE_TRAP].

Lemma exceptions_kept : Forall (fun i => Z.testbit (wrap exceptions_delegated) i = false) kept_causes.
Proof. unfold exceptions_delegated, wrap, BIT, ushl, wrap, XLEN. destruct (hart_has HART_FEAT_H), arch_xlen; by repeat constructor. Qed.

(** After a hart's registers were initialised, none of the traps the monitor
    handles goes to S-mode, and none of M-mode's interrupts does. *)
Theorem traps_kept c :
  Forall (fun i => Z.testbit (csr_read (hart_registers_init c) CSR_MEDELEG) i = false) kept_causes /\
  Forall (fun i => Z.testbit (csr_read (hart_registers_init c) CSR_MIDELEG) i = false) [3; 7; 11].
Proof.
  destruct (registers_init_deleg c) as [-> ->]. split.
  - eapply Forall_impl; [exact exceptions_kept|]. intros i Hi. cbn beta.
    destruct (Z.testbit (hr_legal _ _) i) eqn:E; [|done]. apply hr_medeleg in E. congruence.
  - apply Forall_forall. intros i Hi. by apply hr_mideleg.
Qed.

(** The fields of mstatus as an entry writes them. *)
Lemma enter_mstatus_off m mode i : mode ∈ [PRV_U; PRV_S] ->
  i ∈ [MSTATUS_SIE_BIT; MSTATUS_SPIE_BIT; MSTATUS_MPIE_BIT; MSTATUS_SPP_BIT; 12; MSTATUS_MPRV_BIT; MSTATUS_MPV_BIT] ->
  Z.testbit (enter_mstatus m mode) i = false.
Proof.
  intros Hm Hi. unfold enter_mstatus, MSTATUS_ENTER_OFF, BIT, unot, ushl, wrap, XLEN. apply Forall_forall with (2 := Hi).
  apply Forall_forall with (2 := Hm).
  destruct arch_xlen; repeat constructor; rewrite ?Z.land_spec, Z.lor_spec, Z.land_spec; cbn;
    by rewrite ?andb_false_r.
Qed.
Lemma enter_mstatus_mpp m mode : mode ∈ [PRV_U; PRV_S] -> Z.testbit (enter_mstatus m mode) 11 = (mode =? PRV_S).
Proof.
  intros Hm. unfold enter_mstatus, MSTATUS_ENTER_OFF, BIT, unot, ushl, wrap, XLEN.
  apply Forall_forall with (2 := Hm).
  destruct arch_xlen; repeat constructor; rewrite ?Z.land_spec, Z.lor_spec, Z.land_spec; cbn;
    by rewrite ?andb_false_r.
Qed.

(** What an entry leaves in the registers it writes. *)
Lemma enter_smode_regs c entry mode :
  csr_read (hart_enter_smode c entry mode) CSR_MSTATUS = hr_legal CSR_MSTATUS (wrap (enter_mstatus (csr_read c CSR_MSTATUS) mode)) /\
  csr_read (hart_enter_smode c entry mode) CSR_STVEC = hr_legal CSR_STVEC (wrap entry) /\
  csr_read (hart_enter_smode c entry mode) CSR_SATP = hr_legal CSR_SATP (wrap 0) /\
  csr_read (hart_enter_smode c entry mode) CSR_MIE
    = hr_legal CSR_MIE (wrap (Z.land (csr_read c CSR_MIE) (unot (csr_read c CSR_MIDELEG)))) /\
  csr_read (hart_enter_smode c entry mode) CSR_MIDELEG = csr_read c CSR_MIDELEG.
Proof.
  unfold hart_enter_smode, reg_clear.
  split_and!; rewrite sstateen_reset_regs_other by (vm_compute; set_solver);
    repeat (rewrite reg_write_other by done); try rewrite reg_write_same; repeat (rewrite reg_write_other by done);
    destruct arch_xlen; [destruct (hart_has HART_FEAT_H)| |destruct (hart_has HART_FEAT_H)| |destruct (hart_has HART_FEAT_H)| |destruct (hart_has HART_FEAT_H)| |destruct (hart_has HART_FEAT_H)|];
    repeat (rewrite reg_write_other by done); done.
Qed.

(** Whatever ran in S-mode before, what an entry starts has a defined state:
    the mode asked for is where mret goes, S-mode's interrupts are off and
    were off, no access is made as another mode or from a guest, nothing is
    translated, no interrupt S-mode is given is enabled, and traps go to the
    entry. *)
Theorem enter_smode_clean c entry mode :
  regs_shown c -> mode ∈ [PRV_U; PRV_S] ->
  let c' := hart_enter_smode c entry mode in
  let mstatus := csr_read c' CSR_MSTATUS in
  Z.testbit mstatus 11 = (mode =? PRV_S) /\
  Forall (fun i => Z.testbit mstatus i = false)
    [MSTATUS_SIE_BIT; MSTATUS_SPIE_BIT; MSTATUS_MPIE_BIT; MSTATUS_SPP_BIT; 12; MSTATUS_MPRV_BIT; MSTATUS_MPV_BIT] /\
  csr_read c' CSR_SATP = 0 /\ Z.land (csr_read c' CSR_MIE) (csr_read c' CSR_MIDELEG) = 0 /\
  csr_read c' CSR_STVEC = hr_legal CSR_STVEC (wrap entry).
Proof.
  intros Hc Hm c' mstatus. unfold mstatus. destruct (enter_smode_regs c entry mode) as (E1 & E2 & E3 & E4 & E5).
  fold c' in E1, E2, E3, E4, E5. rewrite E1, E2, E3, E4, E5.
  assert (Hw : forall i, 0 <= i -> Z.testbit (enter_mstatus (csr_read c CSR_MSTATUS) mode) i = false ->
    Z.testbit (wrap (enter_mstatus (csr_read c CSR_MSTATUS) mode)) i = false)
    by (intros i Hi E; unfold wrap; rewrite testbit_mod_pow2 by (unfold XLEN; destruct arch_xlen; lia); by rewrite E, andb_false_r).
  assert (H12 : Z.testbit (wrap (enter_mstatus (csr_read c CSR_MSTATUS) mode)) 12 = false)
    by (apply Hw; [lia|apply enter_mstatus_off; [done|set_solver]]).
  split_and!.
  - rewrite hr_mstatus by (done || set_solver). unfold wrap. rewrite testbit_mod_pow2 by (unfold XLEN; destruct arch_xlen; lia).
    rewrite enter_mstatus_mpp by done. unfold XLEN. by destruct arch_xlen.
  - apply Forall_forall. intros i Hi. rewrite hr_mstatus by (done || set_solver).
    apply Hw; [|by apply enter_mstatus_off]. apply Forall_forall with (2 := Hi). by repeat constructor.
  - rewrite wrap_small by (unfold is_ulong, XLEN; destruct arch_xlen; lia). apply hr_satp.
  - apply Z.bits_inj'. intros i Hi. rewrite Z.bits_0, Z.land_spec.
    destruct (Z.testbit (hr_legal CSR_MIE _) i) eqn:E; [|done]. apply hr_mie in E.
    rewrite land_unot in E by apply Hc. unfold wrap in E. rewrite testbit_mod_pow2, Z.ldiff_spec in E by (unfold XLEN; destruct arch_xlen; lia).
    destruct (Z.testbit (csr_read c CSR_MIDELEG) i); [|done]. by rewrite !andb_false_r in E.
  - done.
Qed.
End Probes.

(** * A hart *)

Module HartExample.
#[local] Instance rv64 : Arch := RV64.
#[local] Instance virt : Kconfig := qemu_virt.
#[local] Instance every_extension : Features := fun _ => true.

(** Every register there is and holds what is written, mideleg excepted,
    whose M-mode bits are 0. *)
#[local] Instance plain : HartRegs :=
  {| hr_there _ := true; hr_legal csr v := if csr =? CSR_MIDELEG then Z.land v 0xfffffffffffff777 else v |}.

#[local] Instance plain_ok : HartRegsOk.
Proof.
  split; cbn [hr_legal plain]; try done.
  - intros csr v. destruct (csr =? CSR_MIDELEG); [|done]. by rewrite <- Z.land_assoc, Z.land_diag.
  - intros csr v Hv. destruct (csr =? CSR_MIDELEG); [|done]. by apply land_bound.
  - intros v i Hi. apply Forall_forall with (2 := Hi).
    repeat constructor; rewrite Z.eqb_refl, Z.land_spec; apply andb_false_r.
Qed.

(** mstatus as a guest in S-mode left it, an interrupt S-mode had on, and
    translation. *)
Definition left_over : csr_file :=
  csr_write (csr_write (csr_write (csr_write empty CSR_MSTATUS (Z.lor (2 ^ MSTATUS_MPV_BIT) 0x1822)) CSR_MIE 0x222) CSR_MIDELEG 0x222)
    CSR_SATP (2 ^ 63).

Lemma left_over_shown : regs_shown left_over.
Proof.
  intros csr. unfold left_over. rewrite !csr_read_write. cbn [hr_legal plain].
  repeat case_decide; subst; try (split; vm_compute; done).
  replace (csr_read empty csr) with 0 by (unfold csr_read; by rewrite lookup_empty).
  split; [done|]. by destruct (csr =? CSR_MIDELEG).
Qed.

Lemma enter_smode_clean_witness :
  csr_read (hart_enter_smode left_over 0x80200000 PRV_S) CSR_SATP = 0 /\
  Z.testbit (csr_read (hart_enter_smode left_over 0x80200000 PRV_S) CSR_MSTATUS) 11 = true.
Proof.
  destruct (enter_smode_clean left_over 0x80200000 PRV_S left_over_shown (list_elem_of_further _ _ _ (list_elem_of_here _ _)))
    as (H1 & _ & H2 & _). by split.
Defined.

Lemma traps_kept_witness :
  Z.testbit (csr_read (hart_registers_init left_over) CSR_MEDELEG) CAUSE_SUPERVISOR_ECALL = false.
Proof. pose proof (traps_kept left_over) as [H _]. by repeat (apply Forall_cons_1 in H as [? H]). Defined.
End HartExample.
