(* ===== verification/TrapHandler.v ===== *)
(** The trap handler, [trap_from_below] and [trap_handler] of
    [arch/riscv/runtime/trap.c], over the handlers it goes to; and that no
    exception of S- or U-mode brings the monitor down. *)

From S2P Require Import Prelude Arch Csr Fields Trap Unpriv Misaligned IllegalInsn.

#[local] Open Scope Z_scope.

Definition IRQ_M_TIMER : Z := 7.
Definition IRQ_PMU_OVF : Z := 13.
Definition SBI_PMU_FW_MISALIGNED_LOAD : Z := 0.
Definition SBI_PMU_FW_MISALIGNED_STORE : Z := 1.
Definition SBI_PMU_FW_ACCESS_LOAD : Z := 2.
Definition SBI_PMU_FW_ACCESS_STORE : Z := 3.
Definition SSE_LOCAL_PMU_OVERFLOW : Z := 0x00010000.

(** The components the handler goes to, and what they answer. *)
Class HandlerEnv := {
  he_service_ecall : machine -> trap_regs -> tresult (trap_regs * machine);
  he_pmu_overflow_irq : bool; (* pmu_sse_overflow_irq() *)
  he_ipi_irq : Z;
  he_ras_irq : Z -> bool;
  he_stop_pending : machine -> bool; (* domain_stop_pending() *)
  he_stop_self : machine -> trap_regs -> tresult (trap_regs * machine);
  he_mpxy_indicate : machine -> machine;
  he_sse_process : machine -> trap_regs -> trap_regs * machine;
}.

Section Handler.
Context {AR : Arch} {F : Features} {MM : Mmu} {TE : TrapEnv} {IE : IllegalEnv} {HE : HandlerEnv}.

Definition trap_irq (m : machine) (regs : trap_regs) (irq : Z) : tresult (trap_regs * machine) :=
  if irq =? IRQ_M_TIMER then TRet (regs, m_call m TimerProcess)
  else if (irq =? IRQ_PMU_OVF) && he_pmu_overflow_irq then TRet (regs, m_call m (SseRaiseLocal SSE_LOCAL_PMU_OVERFLOW))
  else if (irq <? XLEN) && (BIT irq =? he_ipi_irq) then TRet (regs, m_call m IpiProcess)
  else if he_ras_irq irq then TRet (regs, m_call m (RasIrq irq))
  else TFatal.

Definition trap_exception (m : machine) (regs : trap_regs) (info : trap_info) : tresult (trap_regs * machine) :=
  let cause := ti_cause info in
  if cause =? CAUSE_SUPERVISOR_ECALL then he_service_ecall m (regs <| tr_mepc := tr_mepc regs +! 4 |>)
  else if cause =? CAUSE_ILLEGAL_INSN then trap_illegal_insn m regs info
  else if cause =? CAUSE_DOUBLE_TRAP then trap_double m regs
  else if cause =? CAUSE_MISALIGNED_LOAD then trap_misaligned (m_call m (PmuFwEvent SBI_PMU_FW_MISALIGNED_LOAD)) regs info
  else if cause =? CAUSE_MISALIGNED_STORE then trap_misaligned (m_call m (PmuFwEvent SBI_PMU_FW_MISALIGNED_STORE)) regs info
  else
    let m := if cause =? CAUSE_LOAD_ACCESS then m_call m (PmuFwEvent SBI_PMU_FW_ACCESS_LOAD)
             else if cause =? CAUSE_STORE_ACCESS then m_call m (PmuFwEvent SBI_PMU_FW_ACCESS_STORE) else m in
    trap_redirect m regs info.

Definition trap_from_below (m : machine) (regs : trap_regs) : tresult (trap_regs * machine) :=
  let info := trap_info_read m regs in
  if truth (Z.land (ti_cause info) CAUSE_IRQ_FLAG) then trap_irq m regs (Z.land (ti_cause info) (unot CAUSE_IRQ_FLAG))
  else trap_exception m regs info.

Definition trap_handler (m : machine) (regs : trap_regs) : tresult (trap_regs * machine) :=
  if Z.land (tr_mstatus regs) MSTATUS_MPP =? MSTATUS_MPP then
    match trap_handler_m m (tr_mstatus regs) with
    | Some m => TRet (regs <| tr_mepc := tr_mepc regs +! 4 |>, m)
    | None => TFatal
    end
  else
    '(regs, m) ← trap_from_below m regs;
    '(regs, m) ← (if he_stop_pending m then he_stop_self m regs else TRet (regs, m));
    let m := he_mpxy_indicate m in
    TRet (he_sse_process m regs).

(** * No exception brings the monitor down *)

(** Neither a panic of the handler nor one of a trap on its way. *)
Definition no_panic (r : tresult (trap_regs * machine)) : Prop :=
  match r with TRet (_, m) => m_fatal m = false | TFatal => False | THalt => True end.

(** A frame of S- or U-mode. *)
Definition from_below (regs : trap_regs) : Prop := is_ulong (tr_mstatus regs) /\ Z.testbit (tr_mstatus regs) 12 = false.

Lemma double_no_panic (m : machine) (regs : trap_regs) : m_fatal m = false -> no_panic (trap_double m regs).
Proof. intros Hm. unfold no_panic, trap_double. by destruct te_double_trap_ready. Qed.

Lemma redirect_h_fatal (m : machine) (mstatus prev : Z) (info : trap_info) :
  m_fatal (fst (redirect_h m mstatus prev info)) = m_fatal m.
Proof. unfold redirect_h. destruct (hart_has _); [destruct arch_xlen|]; done. Qed.

Lemma redirect_no_panic (m : machine) (regs : trap_regs) (info : trap_info) :
  from_below regs -> m_fatal m = false -> no_panic (trap_redirect m regs info).
Proof.
  intros [Hms H12] Hm. unfold trap_redirect. rewrite MPP_value by done.
  destruct (_ =? PRV_M) eqn:E; [by destruct (Z.testbit (tr_mstatus regs) 11)|].
  destruct (_ && _); [by apply double_no_panic|].
  match goal with |- context [redirect_h ?a ?b ?c ?d] => pose proof (redirect_h_fatal a b c d) as H; destruct (redirect_h a b c d) end.
  cbn [fst] in H. cbn. congruence.
Qed.

Lemma dirty_below (regs : trap_regs) (mask : Z) :
  is_ulong mask -> Z.testbit mask 12 = false -> from_below regs -> from_below (regs <| tr_mstatus := Z.lor (tr_mstatus regs) mask |>).
Proof. intros Hm Hb [H1 H2]. split; [by apply is_ulong_lor|]. etrans; [apply Z.lor_spec|]. by rewrite H2, Hb. Qed.

(** *** The elements of a vector *)

Lemma elem_access_fatal (n : nat) : forall (m : machine) (regs : trap_regs) (addr val b : Z) (store : bool),
  m_fatal (snd (elem_access m regs addr store val b n)) = m_fatal m.
Proof.
  induction n as [|n IH]; intros m regs addr val b store; cbn [elem_access]; [done|]. destruct store.
  - pose proof (unpriv_write_fatal m regs (addr +! b) (Z.shiftr val (8 * b))) as H.
    destruct (unpriv_write_byte _ _ _ _) as [[f|] m1]; cbn [snd] in *; [done|]. by rewrite IH.
  - pose proof (unpriv_load_fatal m regs (addr +! b) 1 false) as H. unfold unpriv_read.
    destruct (unpriv_load _ _ _ _ _) as [[v|f] m1]; cbn [snd] in *; [|done]. by rewrite IH.
Qed.

Lemma vreg_move_fatal (m : machine) (r : Z) (buf : list Z) (w : bool) : m_fatal (snd (vreg_move m r buf w)) = m_fatal m.
Proof. unfold vreg_move. by destruct w. Qed.

Lemma vgroup_get_fatal (m : machine) (reg off len : Z) : m_fatal (snd (vgroup_get m reg off len)) = m_fatal m.
Proof. unfold vgroup_get. pose proof (vreg_move_fatal m (vgroup_reg m reg off) [] false) as H. by destruct (vreg_move _ _ _ _). Qed.

Lemma vgroup_put_fatal (m : machine) (reg off len val : Z) : m_fatal (vgroup_put m reg off len val) = m_fatal m.
Proof.
  unfold vgroup_put. pose proof (vreg_move_fatal m (vgroup_reg m reg off) [] false) as H.
  destruct (vreg_move m _ [] false) as [buf m1]. by rewrite vreg_move_fatal.
Qed.

Definition element_machine (e : element) : machine := match e with ElemNext m | ElemDone m | ElemFault m _ => m end.

Lemma fields_access_fatal (n : nat) : forall (m : machine) (regs : trap_regs) (a : vaccess) (i f addr : Z),
  m_fatal (element_machine (fields_access m regs a i f addr n)) = m_fatal m.
Proof.
  induction n as [|n IH]; intros m regs a i f addr; cbn [fields_access]; [done|].
  set (off := f * _ + _).
  assert (m_fatal (snd (if va_store a then vgroup_get m (va_vreg a) off (va_data_bytes a) else (0, m))) = m_fatal m) as H1
    by (destruct (va_store a); [apply vgroup_get_fatal|done]).
  destruct (if va_store a then _ else _) as [val m1]. cbn [snd] in H1.
  pose proof (elem_access_fatal (Z.to_nat (va_data_bytes a)) m1 regs addr val 0 (va_store a)) as H2.
  destruct (elem_access _ _ _ _ _ _ _) as [[v|fault] m2]; cbn [snd] in H2.
  - rewrite IH. destruct (va_store a); [congruence|]. rewrite vgroup_put_fatal. congruence.
  - destruct (_ && _); cbn; congruence.
Qed.

Lemma elem_addr_fatal (m : machine) (regs : trap_regs) (a : vaccess) (i : Z) : m_fatal (snd (elem_addr m regs a i)) = m_fatal m.
Proof.
  unfold elem_addr. repeat case_match; simplify_eq/=; try done.
  match goal with H : vgroup_get ?a ?b ?c ?d = _ |- _ => pose proof (vgroup_get_fatal a b c d) as G; by rewrite H in G end.
Qed.

Lemma element_access_fatal (m : machine) (regs : trap_regs) (a : vaccess) (i : Z) :
  m_fatal (element_machine (element_access m regs a i)) = m_fatal m.
Proof.
  unfold element_access.
  assert (m_fatal (snd (if va_masked a then let '(mask, m') := vgroup_get m 0 (i / 8) 1 in (truth (Z.land (Z.shiftr mask (i mod 8)) 1), m')
                        else (true, m))) = m_fatal m) as H1.
  { destruct (va_masked a); [|done]. pose proof (vgroup_get_fatal m 0 (i / 8) 1) as H. by destruct (vgroup_get _ _ _ _). }
  destruct (if va_masked a then _ else _) as [active m1]. cbn [snd] in H1. destruct (negb active); [done|].
  pose proof (elem_addr_fatal m1 regs a i) as H2. destruct (elem_addr _ _ _ _) as [addr m2]. rewrite fields_access_fatal. cbn [snd] in H2. congruence.
Qed.

Lemma elements_access_fatal (n : nat) : forall (m : machine) (regs : trap_regs) (a : vaccess) (i : Z),
  m_fatal (element_machine (elements_access m regs a i n)) = m_fatal m.
Proof.
  induction n as [|n IH]; intros m regs a i; cbn [elements_access]; [done|].
  pose proof (element_access_fatal m regs a i) as H. destruct (element_access _ _ _ _); [|done|done]. rewrite IH. exact H.
Qed.

Lemma vector_no_panic (m : machine) (regs : trap_regs) (insn : Z) (r : tresult (trap_regs * machine)) :
  from_below regs -> m_fatal m = false -> trap_misaligned_vector m regs insn = Some r -> no_panic r.
Proof.
  intros Hb Hm. unfold trap_misaligned_vector. destruct (vaccess_of m regs insn) as [a|]; [|done]. intros [= <-].
  pose proof (elements_access_fatal (Z.to_nat (va_vl a - va_first a)) m regs a (va_first a)) as H. rewrite Hm in H.
  destruct (elements_access _ _ _ _ _); [exact H|exact H|]. apply redirect_no_panic; [|exact H]. apply dirty_below; [|done|done].
  unfold is_ulong, MSTATUS_VS_MASK. pose proof XLEN_bounds. assert (2 ^ 11 <= 2 ^ XLEN) by (apply pow2_le; lia). lia.
Qed.

(** *** Loads and stores *)

Lemma store_bytes_fatal (n : nat) : forall (m : machine) (regs : trap_regs) (addr val i : Z),
  m_fatal (snd (store_bytes m regs addr val i n)) = m_fatal m.
Proof.
  induction n as [|n IH]; intros m regs addr val i; cbn [store_bytes]; [done|].
  pose proof (unpriv_write_fatal m regs (addr +! i) (Z.shiftr val (8 * i))) as H.
  destruct (unpriv_write_byte _ _ _ _) as [[f|] m1]; cbn [snd] in *; [done|]. by rewrite IH.
Qed.

Lemma load_bytes_fatal (n : nat) : forall (m : machine) (regs : trap_regs) (addr val i : Z),
  m_fatal (snd (load_bytes m regs addr val i n)) = m_fatal m.
Proof.
  induction n as [|n IH]; intros m regs addr val i; cbn [load_bytes]; [done|].
  pose proof (unpriv_load_fatal m regs (addr +! i) 1 false) as H. unfold unpriv_read.
  destruct (unpriv_load _ _ _ _ _) as [[v|f] m1]; cbn [snd] in *; [|done]. by rewrite IH.
Qed.

Lemma misaligned_no_panic (m : machine) (regs : trap_regs) (info : trap_info) :
  from_below regs -> m_fatal m = false -> no_panic (trap_misaligned m regs info).
Proof.
  intros Hb Hm. unfold trap_misaligned. pose proof (unpriv_fetch_fatal m regs) as H1. rewrite Hm in H1.
  destruct (unpriv_fetch_insn m regs) as [[insn|fault] m1]; cbn [snd] in H1; [|by apply redirect_no_panic].
  destruct (if _ && _ then trap_misaligned_vector m1 regs insn else None) as [r|] eqn:E.
  { destruct (_ && _) in E; [|done]. by apply (vector_no_panic m1 regs insn). }
  destruct (if _ =? 3 then _ else _) as [ok a]. destruct (not_emulated _ _ _ _ _); [by apply redirect_no_panic|].
  destruct (a_store a).
  - unfold emulate_store. set (val := if a_fp a then _ else _).
    pose proof (store_bytes_fatal (Z.to_nat (a_len a)) m1 regs (ti_tval info) val 0) as H2. rewrite H1 in H2.
    destruct (store_bytes _ _ _ _ _ _) as [[f|] m2]; [by apply redirect_no_panic|exact H2].
  - unfold emulate_load. pose proof (load_bytes_fatal (Z.to_nat (a_len a)) m1 regs (ti_tval info) 0 0) as H2. rewrite H1 in H2.
    destruct (load_bytes _ _ _ _ _ _) as [[v|f] m2]; [|by apply redirect_no_panic].
    destruct (a_fp a); [exact H2|]. destruct (truth (a_reg a)); exact H2.
Qed.

(** *** Instructions the hart does not have *)

Lemma csr_read_no_panic (m : machine) (regs : trap_regs) (info : trap_info) (insn : Z) (r : tresult (trap_regs * machine)) :
  from_below regs -> m_fatal m = false -> emulate_csr_read m regs info insn = Some r -> no_panic r.
Proof.
  intros Hb Hm. unfold emulate_csr_read. cbv zeta. destruct (_ && _); [done|]. destruct (negb (INSN_RS1 insn =? 0)); [done|].
  destruct (counter_csr (INSN_CSR insn)) as [[n high]|]; [|done].
  destruct (ti_virt info && _); [intros [= <-]; by apply redirect_no_panic|]. destruct (_ && _); [done|].
  destruct (if n =? 1 then _ else _) as [val|]; [|done]. by intros [= <-].
Qed.

Lemma amo_attempt_fatal (m : machine) (width funct5 addr src k : Z) :
  ht_expected (m_trap m) = true -> m_fatal (snd (amo_attempt m width funct5 addr src k)) = m_fatal m.
Proof.
  intros Hx. unfold amo_attempt. set (m1 := m <| m_csrs ::= _ |>).
  destruct (mmu_access _ AccLoad _ _) as [pa|t]; [|exact (access_traps_fatal m1 t Hx)].
  destruct (mmu_access _ AccStore _ _) as [pa'|t]; [|exact (access_traps_fatal m1 t Hx)]. by destruct (ie_sc_fails k).
Qed.

(** The machine a try of the loop leaves. *)
Lemma amo_try_fatal (m : machine) (regs : trap_regs) (f3 funct5 addr src k : Z) :
  let '(w, m1) := unpriv_begin m regs 0 in
  let '(_, _, m2) := if f3 =? 2 then amo_attempt_w m1 funct5 addr src k else amo_attempt_d m1 funct5 addr src k in
  m_fatal (snd (unpriv_end m2 regs w)) = m_fatal m.
Proof.
  destruct (unpriv_begin_expects m regs 0) as [Hx Hf]. destruct (unpriv_begin _ _ _) as [w m1]. cbn [snd] in *.
  assert (m_fatal (snd (if f3 =? 2 then amo_attempt_w m1 funct5 addr src k else amo_attempt_d m1 funct5 addr src k)) = m_fatal m1) as H
    by (destruct (f3 =? 2); by apply amo_attempt_fatal).
  destruct (if f3 =? 2 then _ else _) as [[old failed] m2]. rewrite unpriv_end_fatal. cbn [snd] in H. congruence.
Qed.

Lemma amo_loop_no_panic (n : nat) : forall (m : machine) (regs : trap_regs) (f3 funct5 addr src k : Z),
  from_below regs -> m_fatal m = false ->
  match amo_loop m regs f3 funct5 addr src k n with inl (_, m') => m_fatal m' = false | inr r => no_panic r end.
Proof.
  induction n as [|n IH]; intros m regs f3 funct5 addr src k Hb Hm; cbn [amo_loop]; [exact Hm|].
  pose proof (amo_try_fatal (m <| m_mem ::= ie_others k |>) regs f3 funct5 addr src k) as H.
  destruct (unpriv_begin _ _ _) as [w m1]. destruct (if f3 =? 2 then _ else _) as [[old failed] m2].
  change (m_fatal (m <| m_mem ::= ie_others k |>)) with (m_fatal m) in H. rewrite Hm in H.
  destruct (unpriv_end _ _ _) as [[f|] m3]; cbn [snd] in H; [by apply redirect_no_panic|].
  destruct failed; [by apply IH|exact H].
Qed.

Lemma amo_no_panic (m : machine) (regs : trap_regs) (insn : Z) (r : tresult (trap_regs * machine)) :
  from_below regs -> m_fatal m = false -> emulate_amo m regs insn = Some r -> no_panic r.
Proof.
  intros Hb Hm. unfold emulate_amo. cbv zeta. destruct (negb ie_config_a); [done|]. destruct (negb (amo_op_known _)); [done|].
  destruct (_ && _); [done|]. intros E%(inj Some). subst r. unfold unpriv_read.
  match goal with |- context [unpriv_load ?a ?b ?c ?d ?e] => pose proof (unpriv_load_fatal a b c d e) as H; destruct (unpriv_load a b c d e) as [[v|f] m1] end;
    cbn [snd] in H; rewrite Hm in H; [|by apply redirect_no_panic].
  match goal with |- context [amo_loop ?a ?b ?c ?d ?e ?f ?g ?h] => pose proof (amo_loop_no_panic h a b c d e f g Hb H) as H2;
    destruct (amo_loop a b c d e f g h) as [[old m2]|r] end; exact H2.
Qed.

Lemma illegal_no_panic (m : machine) (regs : trap_regs) (info : trap_info) :
  from_below regs -> m_fatal m = false -> no_panic (trap_illegal_insn m regs info).
Proof.
  intros Hb Hm. unfold trap_illegal_insn. set (m0 := m_call m _).
  assert (m_fatal (snd (if negb (truth (ti_tval info)) then unpriv_fetch_insn m0 regs else (inl (ti_tval info), m0))) = false) as H
    by (destruct (negb _); [by rewrite unpriv_fetch_fatal|exact Hm]).
  destruct (if negb _ then _ else _) as [[insn|f] m1]; cbn [snd] in H; [|by apply redirect_no_panic].
  destruct (if _ && (INSN_OPCODE insn =? OPCODE_SYSTEM) then _ else None) as [r|] eqn:E1.
  { destruct (_ && _) in E1; [|done]. by apply csr_read_no_panic in E1. }
  destruct (if _ && (INSN_OPCODE insn =? OPCODE_AMO) then _ else None) as [r|] eqn:E2.
  { destruct (_ && _) in E2; [|done]. by apply amo_no_panic in E2. }
  by apply redirect_no_panic.
Qed.

(** C12: no exception of S- or U-mode but an ecall brings the monitor down.
    Whatever the instruction, the registers, the pages and the state of the
    hart are, handling such an exception comes to an end, and that end is no
    panic, neither of the handler nor of a trap the handler's own accesses
    to the context's memory take. What an ecall does is the services'. *)
Theorem exceptions_no_panic (m : machine) (regs : trap_regs) :
  from_below regs -> m_fatal m = false ->
  truth (Z.land (ti_cause (trap_info_read m regs)) CAUSE_IRQ_FLAG) = false ->
  ti_cause (trap_info_read m regs) <> CAUSE_SUPERVISOR_ECALL ->
  no_panic (trap_from_below m regs).
Proof.
  intros Hb Hm Hi He. unfold trap_from_below. rewrite Hi. unfold trap_exception. apply Z.eqb_neq in He as ->.
  destruct (_ =? CAUSE_ILLEGAL_INSN); [by apply illegal_no_panic|].
  destruct (_ =? CAUSE_DOUBLE_TRAP); [by apply double_no_panic|].
  destruct (_ =? CAUSE_MISALIGNED_LOAD); [by apply misaligned_no_panic|].
  destruct (_ =? CAUSE_MISALIGNED_STORE); [by apply misaligned_no_panic|].
  apply redirect_no_panic; [done|]. by repeat case_match.
Qed.
End Handler.
