(* ===== verification/TrapExample.v ===== *)
(** A hart with a flat memory, which the theorems on traps are applied to;
    and a whole-register vector load whose emulation goes wrong. *)

From S2P Require Import Prelude Arch Csr Fields Trap Unpriv Misaligned MisalignedProps IllegalInsn IllegalInsnProps TrapHandler.

#[local] Open Scope Z_scope.

Module FlatHart.
#[local] Instance rv64 : Arch := RV64.
#[local] Instance plain : Features := fun _ => false.

(** Memory ends at 0x90000000. *)
#[local] Instance flat : Mmu := fun ms kind addr width =>
  if addr <? 0x90000000 then inl addr
  else inr (HwTrap (match kind with AccLoad => CAUSE_LOAD_PAGE_FAULT | AccStore => CAUSE_STORE_PAGE_FAULT end) (wrap addr) 0 0 false).
#[local] Instance no_event : TrapEnv := {| te_double_trap_ready := false |}.
#[local] Instance lr_sc_only : IllegalEnv := {|
  ie_config_a := true;
  ie_csr_present := fun _ => true;
  ie_pmu_counter := fun _ => None;
  ie_timer := Some 1000;
  ie_sc_fails := fun k => k <? 2;
  ie_others := fun k mem => mem;
|}.
#[local] Instance services : HandlerEnv := {|
  he_service_ecall := fun m regs => TRet (regs, m);
  he_pmu_overflow_irq := false;
  he_ipi_irq := 8;
  he_ras_irq := fun _ => false;
  he_stop_pending := fun _ => false;
  he_stop_self := fun m regs => TRet (regs, m);
  he_mpxy_indicate := fun m => m;
  he_sse_process := fun m regs => (regs, m);
|}.

Definition pc : Z := 0x80200000.
Definition data : Z := 0x80300001.
Definition lw_a0 : ls_insn := LOAD 2 false 10 11 0.
Definition code : gmap Z Z := store_le ∅ pc (encode lw_a0) 4.
Definition memory : gmap Z Z := store_le code data 0xfedcba98 4.

Definition csrs : csr_file := csr_write (csr_write (csr_write ∅ CSR_STVEC 0x80400000) CSR_MISA 0x141129) CSR_MCAUSE CAUSE_MISALIGNED_LOAD.
Definition hart : machine := {|
  m_csrs := csrs;
  m_mem := memory;
  m_fp := replicate 32 0;
  m_vregs := replicate 32 (replicate 16 0);
  m_trap := HartTrap false false 0 0 0 0 false;
  m_calls := []; m_fatal := false;
|}.
(** S-mode, a1 at the data, its interrupts on. *)
Definition frame : trap_regs := TrapRegs (<[11%nat := data]> (replicate 32 0)) pc 0x0a00000822.
Definition misaligned : trap_info := TrapInfo CAUSE_MISALIGNED_LOAD data 0 0 false false.

Lemma hart_csrs_wf : csr_wf (m_csrs hart).
Proof. repeat apply csr_write_wf. apply csr_wf_empty. Defined.

Lemma frame_word : is_ulong (tr_mstatus frame).
Proof. vm_compute. split; [discriminate|reflexivity]. Defined.

Lemma bytes_wf (mem : gmap Z Z) : map_Forall (fun _ v => 0 <= v < 256) mem -> forall a, 0 <= mem_byte mem a < 256.
Proof. intros Hm a. unfold mem_byte. destruct (mem !! a) as [v|] eqn:E; cbn; [by apply (Hm a)|lia]. Qed.

Lemma memory_wf : mem_wf (m_mem hart).
Proof. refine (bytes_wf _ _). apply (bool_decide_unpack _). vm_compute. exact I. Defined.

Lemma flat_wf : mmu_wf.
Proof.
  intros ms kind addr width t. unfold mmu_access, flat. destruct (addr <? 0x90000000); [done|]. intros [= <-].
  split; cbn; [destruct kind; vm_compute; split; (discriminate || reflexivity)|apply wrap_range|..]; vm_compute; split; (discriminate || reflexivity).
Defined.

Lemma frame_from_below : from_below frame.
Proof. split; [exact frame_word|reflexivity]. Defined.

Lemma trap_redirect_sret_witness :
  exists regs' m', trap_redirect hart frame misaligned = TRet (regs', m') /\ rs_pc (mret m' regs') = 0x80400000 /\ rs_pc (sret m' (tr_mstatus regs')) = pc.
Proof.
  assert (frame_ok hart frame) as H1.
  { split; [exact frame_word|vm_compute; split; [discriminate|reflexivity]|reflexivity|exact hart_csrs_wf]. }
  assert (is_ulong (ti_cause misaligned)) as H2 by (vm_compute; split; [discriminate|reflexivity]).
  assert (is_ulong (ti_tval misaligned)) as H3 by (vm_compute; split; [discriminate|reflexivity]).
  assert (hart_smode_double_trap_enabled (m_csrs hart) && bit (tr_mstatus frame) MSTATUS_SDT_BIT = false) as H4 by reflexivity.
  destruct (trap_redirect_sret hart frame misaligned H1 H2 H3 H4) as (regs' & m' & E & Em & Es & _).
  exists regs', m'. split; [exact E|]. rewrite Em, Es. split; reflexivity.
Defined.

Lemma lw_valid : valid lw_a0.
Proof. vm_compute. repeat split; try discriminate. right. left. reflexivity. Defined.

Lemma decode_encode_witness : exists a, decode (encode lw_a0) = (true, a) /\ a_len a = 4 /\ a_reg a = 10.
Proof.
  destruct (decode_encode lw_a0 lw_valid) as (a & E & [Ea _]). exists a. split; [exact E|]. rewrite Ea. split; reflexivity.
Defined.

Lemma misaligned_exact_witness :
  exists m', trap_misaligned hart frame misaligned =
    TRet (trap_reg_set (frame <| tr_mepc := pc + 4 |>) 10 0xfffffffffedcba98, m') /\ m_mem m' = memory.
Proof.
  assert (insn_at hart frame = inl (encode lw_a0)) as Hin by (vm_compute; reflexivity).
  assert (emulable hart frame misaligned lw_a0) as Hem by (split; [reflexivity|discriminate]).
  pose proof (misaligned_exact hart frame misaligned lw_a0 hart_csrs_wf frame_word flat_wf memory_wf Hin lw_valid Hem) as H.
  assert (ls_step hart frame (ti_tval misaligned) lw_a0 =
    LsDone (trap_reg_set (frame <| tr_mepc := pc + 4 |>) 10 0xfffffffffedcba98) memory (m_fp hart)) as E by (vm_compute; reflexivity).
  rewrite E in H. destruct H as (m' & H1 & H2). exists m'. split; [exact H1|exact (st_mem _ _ H2)].
Defined.

(** amoadd.w a0, a1, (a2): a2 at an aligned word, a1 = 5; the third SC gets
    through. *)
Definition amoadd_w : Z := 0x00b6252f.
Definition amo_frame : trap_regs := TrapRegs (<[11%nat := 5]> (<[12%nat := pc]> (replicate 32 0))) pc 0x0a00000822.

Lemma amo_emulated_witness :
  exists m', emulate_amo hart amo_frame amoadd_w =
    Some (TRet ((trap_reg_set amo_frame 10 (encode lw_a0)) <| tr_mepc := pc + 4 |>, m')) /\
    load_le (m_mem m') pc 4 = encode lw_a0 + 5.
Proof.
  assert (forall k mem, mem_bytes mem -> mem_bytes (ie_others k mem)) as Ho by (intros k mem H; exact H).
  assert (INSN_FUNCT3 amoadd_w = 2 \/ INSN_FUNCT3 amoadd_w = 3 /\ arch_xlen = RV64) as Hf by (left; reflexivity).
  assert (is_ulong (trap_reg amo_frame (INSN_RS2 amoadd_w))) as Hs by (vm_compute; split; [discriminate|reflexivity]).
  pose proof (amo_emulated hart amo_frame amoadd_w pc hart_csrs_wf frame_word memory_wf Ho eq_refl eq_refl Hf Hs eq_refl eq_refl) as H.
  assert (amo_tries (m_mem hart) 4 0 pc 5 0 64 = (Some (encode lw_a0), store_le memory pc (encode lw_a0 + 5) 4)) as E
    by (vm_compute; reflexivity).
  change (amo_tries (m_mem hart) (if INSN_FUNCT3 amoadd_w =? 2 then 4 else 8) (INSN_FUNCT5 amoadd_w) pc
            (trap_reg amo_frame (INSN_RS2 amoadd_w)) 0 64) with (amo_tries (m_mem hart) 4 0 pc 5 0 64) in H.
  rewrite E in H. destruct H as (m' & Hm & H2). exists m'. split; [exact H2|].
  rewrite (st_mem _ _ Hm). vm_compute. reflexivity.
Defined.

(** rdtime a0 *)
Definition rdtime : Z := 0xc0102573.
Definition time_info : trap_info := TrapInfo CAUSE_ILLEGAL_INSN rdtime 0 0 false false.

Lemma counter_read_allowed_witness :
  exists n high, counter_csr (INSN_CSR rdtime) = Some (n, high) /\ INSN_RS1 rdtime = 0.
Proof.
  assert (emulate_csr_read hart frame time_info rdtime =
    Some (TRet ((trap_reg_set frame 10 1000) <| tr_mepc := pc + 4 |>, hart))) as E by (vm_compute; reflexivity).
  assert (tr_x ((trap_reg_set frame 10 1000) <| tr_mepc := pc + 4 |>) <> tr_x frame) as Hx by (vm_compute; discriminate).
  destruct (counter_read_allowed hart hart frame _ time_info rdtime E Hx) as (n & high & H1 & H2 & _).
  exists n, high. split; [exact H1|exact H2].
Defined.

Lemma exceptions_no_panic_witness : no_panic (trap_from_below hart frame).
Proof.
  apply (exceptions_no_panic hart frame frame_from_below); [reflexivity|vm_compute; reflexivity|vm_compute; discriminate].
Defined.

(** vl2re32.v v8, (a0): 32 bytes, 0 to 31, into v8 and v9. *)
Definition vl2re32 : Z := 0x22856407.
Definition bytes : gmap Z Z := list_to_map ((fun k => (data + k, k)) <$> seqZ 0 32).
Definition vhart : machine :=
  hart <| m_csrs ::= (fun c => csr_write (csr_write c CSR_MISA (BIT 21)) CSR_VLENB 16) |> <| m_mem := bytes |>.
Definition vframe : trap_regs := TrapRegs (<[10%nat := data]> (replicate 32 0)) pc 0x0a00000e22.

(** a whole-register load of two registers is not emulated as one. A
    whole-register load takes consecutive bytes into consecutive registers;
    [trap_misaligned_vector] takes it for a segment load and deals the
    elements out in turn: v8 gets the even words and v9 the odd ones. *)
Theorem vector_whole_load_dealt :
  exists m', trap_misaligned_vector vhart vframe vl2re32 =
      Some (TRet (vframe <| tr_mepc := pc + 4 |>, m')) /\
    vreg_of m' 8 = [0; 1; 2; 3; 8; 9; 10; 11; 16; 17; 18; 19; 24; 25; 26; 27] /\
    vreg_of m' 9 = [4; 5; 6; 7; 12; 13; 14; 15; 20; 21; 22; 23; 28; 29; 30; 31].
Proof. eexists. split; [vm_compute; reflexivity|]. split; vm_compute; reflexivity. Qed.

(** vlseg2e32.v v8, (a0) with vtype e16, m1 and vl = 8: the fields are groups
    of EMUL = 2 registers, v8 and v9, v10 and v11. *)
Definition vlseg2e32 : Z := 0x22056407.
Definition seg_bytes : gmap Z Z := list_to_map ((fun k => (data + k, k)) <$> seqZ 0 64).
Definition seg_hart : machine :=
  vhart <| m_csrs ::= (fun c => csr_write (csr_write c CSR_VL 8) CSR_VTYPE 8) |> <| m_mem := seg_bytes |>.

(** the fields of a segment overlap when the elements are wider than SEW.
    [trap_misaligned_vector] takes a field's group to be LMUL registers, not
    EMUL: the first word of field 1 (bytes 4 to 7) goes to v9, where field 0
    overwrites it; v10 starts with the fifth (bytes 36 to 39), and v11 is not
    written at all. *)
Theorem vector_segment_overlap :
  exists m', trap_misaligned_vector seg_hart vframe vlseg2e32 = Some (TRet (vframe <| tr_mepc := pc + 4 |>, m')) /\
    take 4 (vreg_of m' 9) = [32; 33; 34; 35] /\ take 4 (vreg_of m' 10) = [36; 37; 38; 39] /\ vreg_of m' 11 = replicate 16 0.
Proof. eexists. split; [vm_compute; reflexivity|]. split_and!; vm_compute; reflexivity. Qed.
End FlatHart.
