(* ===== verification/Fwft.v ===== *)
(** Firmware features, [arch/riscv/runtime/fwft.c]: what S-mode may turn on
    and off in menvcfg and medeleg, per domain and hart.

    A field of menvcfg takes the values the hart implements and no others
    (WARL): what it holds after a write is a parameter ([EnvcfgHw]), and that
    a value a field shows can be written back its law. The code finds out
    what the hart implements by writing and reading back; the theorems are
    about any hart. *)

From S2P Require Import Prelude Arch Csr Fields Trap.

#[local] Open Scope Z_scope.

Definition ENVCFG_LPE_BIT : Z := 2.
Definition ENVCFG_SSE_BIT : Z := 3.
Definition ENVCFG_PMM_SHIFT : Z := 32.
Definition ENVCFG_ADUE_BIT : Z := 61.

Definition SBI_FWFT_SET_FLAG_LOCK : Z := 2 ^ 0.
Definition SBI_FWFT_MISALIGNED_EXC_DELEG : Z := 0.
Definition SBI_FWFT_LANDING_PAD : Z := 1.
Definition SBI_FWFT_SHADOW_STACK : Z := 2.
Definition SBI_FWFT_DOUBLE_TRAP : Z := 3.
Definition SBI_FWFT_PTE_AD_HW_UPDATING : Z := 4.
Definition SBI_FWFT_POINTER_MASKING_PMLEN : Z := 5.
Definition SBI_FWFT_LOCAL_RESERVED_START : Z := 6.
Definition SBI_FWFT_LOCAL_PLATFORM_START : Z := 0x40000000.
Definition SBI_FWFT_GLOBAL_RESERVED_START : Z := 0x80000000.
Definition SBI_FWFT_GLOBAL_PLATFORM_START : Z := 0xc0000000.
Definition FWFT_FEATURES : Z := SBI_FWFT_LOCAL_RESERVED_START.

(** [~x] of a [uint64_t] *)
Definition not64 (x : Z) : Z := 2 ^ 64 - 1 - x.

Definition MISALIGNED_DELEG {AR : Arch} : Z := Z.lor (BIT CAUSE_MISALIGNED_LOAD) (BIT CAUSE_MISALIGNED_STORE).

(** [struct fwft_hart] *)
Record fwft_hart : Set := FwftHart {
  f_locked : Z;
  f_envcfg : Z;
  f_misaligned_deleg : bool;
}.
#[export] Instance fwft_hart_eta : Settable fwft_hart := fun f =>
  FwftHart (f_locked f) (f_envcfg f) (f_misaligned_deleg f).
Definition fwft_hart_zero : fwft_hart := FwftHart 0 0 false.

(** The calling hart: its CSRs, the domain it runs, its slots by domain. *)
Record fwft : Type := Fwft {
  fw_csrs : csr_file;
  fw_dom : Z;
  fw_slots : Z -> fwft_hart;
}.
#[export] Instance fwft_eta : Settable fwft := fun s => Fwft (fw_csrs s) (fw_dom s) (fw_slots s).

(** What menvcfg (or menvcfgh) holds: from its number, what it held and what
    was written. *)
Class EnvcfgHw := menvcfg_warl : Z -> Z -> Z -> Z.

Section Fwft.
Context {AR : Arch} {F : Features} {EH : EnvcfgHw}.

Definition this_fwft (s : fwft) : fwft_hart := fw_slots s (fw_dom s).
Definition slot_update (s : fwft) (g : fwft_hart -> fwft_hart) : fwft :=
  s <| fw_slots := fun d => if decide (d = fw_dom s) then g (fw_slots s d) else fw_slots s d |>.

Definition menvcfg_write (c : csr_file) (csr v : Z) : csr_file :=
  csr_write c csr (menvcfg_warl csr (csr_read c csr) (wrap v)).

Definition envcfg_read (c : csr_file) : Z :=
  match arch_xlen with
  | RV32 => Z.lor (csr_read c CSR_MENVCFG) (Z.shiftl (csr_read c CSR_MENVCFGH) 32)
  | RV64 => csr_read c CSR_MENVCFG
  end.

Definition envcfg_write (c : csr_file) (val : Z) : csr_file :=
  let c := menvcfg_write c CSR_MENVCFG val in
  match arch_xlen with
  | RV32 => menvcfg_write c CSR_MENVCFGH (Z.shiftr val 32)
  | RV64 => c
  end.

(** Whether it stuck, and the registers. *)
Definition envcfg_update (c : csr_file) (mask val : Z) : bool * csr_file :=
  if negb (hart_has HART_FEAT_MENVCFG) then (false, c)
  else
    let old := envcfg_read c in
    let new := Z.lor (Z.land old (not64 mask)) val in
    let c := envcfg_write c new in
    if Z.land (envcfg_read c) mask =? val then (true, c)
    else (false, envcfg_write c old).

Definition feature_field (feature : Z) : Z :=
  if feature =? SBI_FWFT_LANDING_PAD then 2 ^ ENVCFG_LPE_BIT
  else if feature =? SBI_FWFT_SHADOW_STACK then 2 ^ ENVCFG_SSE_BIT
  else if feature =? SBI_FWFT_DOUBLE_TRAP then 2 ^ ENVCFG_DTE_BIT
  else if feature =? SBI_FWFT_PTE_AD_HW_UPDATING then 2 ^ ENVCFG_ADUE_BIT
  else if feature =? SBI_FWFT_POINTER_MASKING_PMLEN then Z.shiftl 3 ENVCFG_PMM_SHIFT
  else 0.

Definition feature_exists (c : csr_file) (feature : Z) : bool * csr_file :=
  let field := feature_field feature in
  if feature =? SBI_FWFT_MISALIGNED_EXC_DELEG then (true, c)
  else if negb (truth field) || negb (hart_has HART_FEAT_MENVCFG) then (false, c)
  else
    let old := envcfg_read c in
    let '(ok, c) := envcfg_update c field field in
    (ok, envcfg_write c old).

Definition feature_check (c : csr_file) (feature : Z) : Z * csr_file :=
  if feature <? FWFT_FEATURES then
    let '(ok, c) := feature_exists c feature in
    (if ok then SBI_SUCCESS else SBI_ERR_NOT_SUPPORTED, c)
  else if (feature <? SBI_FWFT_LOCAL_PLATFORM_START) ||
          (SBI_FWFT_GLOBAL_RESERVED_START <=? feature) && (feature <? SBI_FWFT_GLOBAL_PLATFORM_START)
  then (SBI_ERR_DENIED, c)
  else (SBI_ERR_NOT_SUPPORTED, c).

Definition fwft_hart_init (s : fwft) : fwft := slot_update s (fun f => f <| f_locked := 0 |>).

Definition feature_fields : Z :=
  for_upto (Z.to_nat FWFT_FEATURES) (fun f fields => Z.lor fields (feature_field f)) 0.

Definition misaligned_set (c : csr_file) (on : bool) : csr_file :=
  if on then csr_set c CSR_MEDELEG MISALIGNED_DELEG else csr_clear c CSR_MEDELEG MISALIGNED_DELEG.

Definition fwft_hart_switch_out (s : fwft) : fwft :=
  let c := fw_csrs s in
  let s := slot_update s (fun f =>
    f <| f_misaligned_deleg := truth (Z.land (csr_read c CSR_MEDELEG) MISALIGNED_DELEG) |>) in
  if hart_has HART_FEAT_MENVCFG
  then slot_update s (fun f => f <| f_envcfg := Z.land (envcfg_read c) feature_fields |>)
  else s.

Definition fwft_hart_switch_in (s : fwft) (fresh : bool) : fwft :=
  let s := if fresh then slot_update s (fun _ => fwft_hart_zero) else s in
  let f := this_fwft s in
  let c := misaligned_set (fw_csrs s) (f_misaligned_deleg f) in
  let c := if hart_has HART_FEAT_MENVCFG
           then envcfg_write c (Z.lor (Z.land (envcfg_read c) (not64 feature_fields)) (f_envcfg f))
           else c in
  s <| fw_csrs := c |>.

(** The value is [None] where the code does not write it. *)
Definition fwft_get (s : fwft) (feature : Z) : Z * option Z * fwft :=
  let '(rc, c) := feature_check (fw_csrs s) feature in
  let s := s <| fw_csrs := c |> in
  if truth rc then (rc, None, s)
  else if feature =? SBI_FWFT_MISALIGNED_EXC_DELEG then
    (SBI_SUCCESS,
     Some (if Z.land (csr_read c CSR_MEDELEG) MISALIGNED_DELEG =? MISALIGNED_DELEG then 1 else 0), s)
  else
    let field := Z.land (envcfg_read c) (feature_field feature) in
    let value :=
      if feature =? SBI_FWFT_POINTER_MASKING_PMLEN then
        let field := Z.shiftr field ENVCFG_PMM_SHIFT in
        if field =? 2 then 7 else if field =? 3 then 16 else 0
      else if truth field then 1 else 0 in
    (SBI_SUCCESS, Some value, s).

(** The bits of menvcfg a value stands for, if it is one. *)
Definition feature_bits (feature value : Z) : option Z :=
  let field := feature_field feature in
  if feature =? SBI_FWFT_POINTER_MASKING_PMLEN then
    if negb (value =? 0) && negb (value =? 7) && negb (value =? 16) then None
    else Some (Z.shiftl (if value =? 7 then 2 else if value =? 16 then 3 else 0) ENVCFG_PMM_SHIFT)
  else if 1 <? value then None
  else Some (if truth value then field else 0).

Definition fwft_set (s : fwft) (feature value flags : Z) : Z * fwft :=
  let '(rc, c) := feature_check (fw_csrs s) feature in
  let s := s <| fw_csrs := c |> in
  if truth rc then (rc, s)
  else if truth (Z.land flags (unot SBI_FWFT_SET_FLAG_LOCK)) then (SBI_ERR_INVALID_PARAM, s)
  else if truth (Z.land (f_locked (this_fwft s)) (BIT feature)) then (SBI_ERR_DENIED_LOCKED, s)
  else
    let done (s : fwft) :=
      if truth (Z.land flags SBI_FWFT_SET_FLAG_LOCK)
      then (SBI_SUCCESS, slot_update s (fun f => f <| f_locked := Z.lor (f_locked f) (BIT feature) |>))
      else (SBI_SUCCESS, s) in
    if feature =? SBI_FWFT_MISALIGNED_EXC_DELEG then
      if 1 <? value then (SBI_ERR_INVALID_PARAM, s)
      else done (s <| fw_csrs := misaligned_set c (truth value) |>)
    else
      match feature_bits feature value with
      | None => (SBI_ERR_INVALID_PARAM, s)
      | Some bits =>
          let '(ok, c) := envcfg_update c (feature_field feature) bits in
          let s := s <| fw_csrs := c |> in
          if ok then done s else (SBI_ERR_INVALID_PARAM, s)
      end.

(** ** Sequences of calls *)

Inductive fwft_op : Set :=
| FSet (feature value flags : Z)
| FGet (feature : Z)
| FSwitch (to : Z) (fresh : bool) (* the hart moves to another domain *)
| FInit (* the hart is started again *).

Definition fwft_run1 (s : fwft) (o : fwft_op) : fwft :=
  match o with
  | FSet f v fl => snd (fwft_set s f v fl)
  | FGet f => snd (fwft_get s f)
  | FSwitch d fresh => fwft_hart_switch_in ((fwft_hart_switch_out s) <| fw_dom := d |>) fresh
  | FInit => fwft_hart_init s
  end.
End Fwft.
