(* ===== verification/FwftProps.v ===== *)
(** Firmware features ([Fwft.v]) on any hart whose menvcfg keeps to its law:
    a set that succeeds is what a get finds, one that fails changes nothing,
    and a locked feature stays as it is, across any calls and any moves of the
    hart between domains. *)

From S2P Require Import Prelude Arch Csr Fields Trap Fwft.
From Stdlib Require Import Btauto.

#[local] Open Scope Z_scope.
#[local] Set Warnings "-clear-no-such-hyp".

(** The fields of menvcfg: one per feature, and everything else. *)
Definition envcfg_rest {AR : Arch} : Z := not64 feature_fields.
Definition envcfg_masks {AR : Arch} : list Z := envcfg_rest :: map feature_field [1; 2; 3; 4; 5].

Section Held.
Context {AR : Arch} {EH : EnvcfgHw}.

(** What menvcfg holds after a write, both halves together. *)
Definition envcfg_held (old new : Z) : Z :=
  match arch_xlen with
  | RV32 => Z.lor (wrap (menvcfg_warl CSR_MENVCFG (old mod 2 ^ 32) (new mod 2 ^ 32)))
              (Z.shiftl (wrap (menvcfg_warl CSR_MENVCFGH (old / 2 ^ 32) (new / 2 ^ 32))) 32)
  | RV64 => wrap (menvcfg_warl CSR_MENVCFG old new)
  end.

(** A field that is written [x] holds [x]. *)
Definition sticks (m x : Z) : Prop :=
  forall old new, is_u64 old -> is_u64 new -> Z.land new m = x -> Z.land (envcfg_held old new) m = x.

(** The values a field shows are values it takes; 0, its value out of reset,
    is one. *)
Class EnvcfgOk : Prop := {
  envcfg_legal : forall m old new, m ∈ envcfg_masks -> is_u64 old -> is_u64 new ->
    sticks m (Z.land (envcfg_held old new) m);
  envcfg_off : forall m, m ∈ envcfg_masks -> sticks m 0;
}.

Lemma envcfg_read_u64 (c : csr_file) : csr_wf c -> is_u64 (envcfg_read c).
Proof.
  intros Hwf. pose proof (csr_read_wf c CSR_MENVCFG Hwf). pose proof (csr_read_wf c CSR_MENVCFGH Hwf).
  unfold envcfg_read, is_ulong, XLEN, is_u64 in *. destruct arch_xlen; [|done]. by apply lohi_bound.
Qed.

Lemma envcfg_held_u64 (old new : Z) : is_u64 (envcfg_held old new).
Proof.
  unfold envcfg_held. pose proof wrap_range as Hw. unfold is_ulong, XLEN, is_u64 in *.
  destruct arch_xlen; [|done]. by apply lohi_bound.
Qed.

Lemma menvcfg_write_read (c : csr_file) (csr v n : Z) :
  csr_read (menvcfg_write c csr v) n =
  if decide (csr = n) then wrap (menvcfg_warl csr (csr_read c csr) (wrap v)) else csr_read c n.
Proof. unfold menvcfg_write. rewrite csr_read_write. done. Qed.

Lemma envcfg_write_wf (c : csr_file) (v : Z) : csr_wf c -> csr_wf (envcfg_write c v).
Proof.
  intros Hwf. unfold envcfg_write, menvcfg_write. destruct arch_xlen; auto with csr.
Qed.

Lemma envcfg_write_other (c : csr_file) (v n : Z) :
  n <> CSR_MENVCFG -> n <> CSR_MENVCFGH -> csr_read (envcfg_write c v) n = csr_read c n.
Proof.
  intros H1 H2. unfold envcfg_write. destruct arch_xlen; rewrite !menvcfg_write_read;
    repeat (rewrite decide_False by congruence); done.
Qed.

Lemma envcfg_write_held (c : csr_file) (v : Z) :
  csr_wf c -> is_u64 v -> envcfg_read (envcfg_write c v) = envcfg_held (envcfg_read c) v.
Proof.
  intros Hwf Hv. pose proof (csr_read_wf c CSR_MENVCFG Hwf) as H1. pose proof (csr_read_wf c CSR_MENVCFGH Hwf) as H2.
  unfold envcfg_write, envcfg_held, envcfg_read, is_ulong, XLEN, is_u64 in *.
  destruct arch_xlen eqn:E; rewrite !menvcfg_write_read.
  - destruct (lohi_bound _ _ H1 H2) as (_ & Elo & Ehi). rewrite Elo, Ehi.
    rewrite (decide_False (P := CSR_MENVCFGH = CSR_MENVCFG)), !decide_True by done.
    rewrite (decide_False (P := CSR_MENVCFG = CSR_MENVCFGH)) by done. rewrite Z.shiftr_div_pow2 by lia.
    unfold wrap at 2 4, XLEN. rewrite E. rewrite (Z.mod_small (v / 2 ^ 32)); [done|].
    split; [apply Z.div_pos; lia|apply Z.div_lt_upper_bound; lia].
  - rewrite decide_True by done. unfold wrap at 2, XLEN. rewrite E. rewrite (Z.mod_small v) by lia. done.
Qed.

(** The fields make up the register. *)
Lemma masks_cover (a b : Z) : is_u64 a -> is_u64 b ->
  (forall m, m ∈ envcfg_masks -> Z.land a m = Z.land b m) -> a = b.
Proof.
  intros Ha Hb H.
  assert (forall x, is_u64 x -> x = foldr (fun m => Z.lor (Z.land x m)) 0 envcfg_masks) as D.
  { intros x Hx. transitivity (Z.land x (foldr Z.lor 0 envcfg_masks)).
    - replace (foldr Z.lor 0 envcfg_masks) with (2 ^ 64 - 1) by reflexivity.
      rewrite land_low by lia. symmetry. by apply Z.mod_small.
    - clear H. induction envcfg_masks as [|m ms IH]; cbn [foldr]; [apply Z.land_0_r|]. by rewrite Z.land_lor_distr_r, IH. }
  rewrite (D a Ha), (D b Hb). clear D. revert H. induction envcfg_masks as [|m ms IH]; intros H; [done|]. cbn [foldr]. f_equal.
  - apply H. by left.
  - apply IH. intros m' Hm'. apply H. by right.
Qed.

(** Different fields share no bit. *)
Lemma masks_disjoint (m m' : Z) : m ∈ envcfg_masks -> m' ∈ envcfg_masks -> m <> m' -> Z.land m m' = 0.
Proof.
  assert (forallb (fun m => forallb (fun m' => (m =? m') || (Z.land m m' =? 0)) envcfg_masks) envcfg_masks = true) as D
    by reflexivity.
  intros Hm Hm' Hne. rewrite forallb_forall in D. specialize (D m). rewrite <- list_elem_of_In in D.
  specialize (D Hm). rewrite forallb_forall in D. specialize (D m'). rewrite <- list_elem_of_In in D.
  specialize (D Hm'). apply orb_true_iff in D as [D|D]; apply Z.eqb_eq in D; done.
Qed.

Lemma mask_u64 (m : Z) : m ∈ envcfg_masks -> is_u64 m.
Proof.
  assert (forallb (fun m => (0 <=? m) && (m <? 2 ^ 64)) envcfg_masks = true) as D by reflexivity.
  intros Hm. rewrite forallb_forall in D. specialize (D m). rewrite <- list_elem_of_In in D.
  specialize (D Hm). bool_prop. unfold is_u64. lia.
Qed.
End Held.

Lemma testbit_not64 (x i : Z) : is_u64 x -> 0 <= i -> Z.testbit (not64 x) i = (i <? 64) && negb (Z.testbit x i).
Proof.
  intros Hx Hi. unfold not64. replace (2 ^ 64 - 1 - x) with (Z.ldiff (2 ^ 64 - 1) x).
  - rewrite Z.ldiff_spec, testbit_ones by lia. done.
  - pose proof (Z.sub_nocarry_ldiff (2 ^ 64 - 1) x) as Hs. rewrite Hs; [done|].
    apply Z.bits_inj'. intros j Hj. rewrite Z.ldiff_spec, testbit_ones, Z.bits_0 by lia.
    destruct (Z.ltb_spec j 64); [apply andb_false_r|]. by rewrite (testbit_high 64 x j).
Qed.

(** A field replaced ([(old & ~mask) | val]): the field, and the others. *)
Lemma replace_u64 (old mask val : Z) :
  is_u64 old -> is_u64 mask -> is_u64 val -> is_u64 (Z.lor (Z.land old (not64 mask)) val).
Proof.
  intros Ho Hm Hv. apply lor_bound; [lia| |done]. apply land_bound; [lia|done|]. unfold not64, is_u64 in *. lia.
Qed.

Lemma replace_field (old mask val : Z) :
  is_u64 old -> is_u64 mask -> Z.land val mask = val -> Z.land (Z.lor (Z.land old (not64 mask)) val) mask = val.
Proof.
  intros Ho Hm Hv. rewrite <- Hv at 2. bitwise. rewrite (testbit_not64 mask i) by done.
  destruct (Z.testbit mask i); rewrite ?andb_false_r, ?andb_true_r; done.
Qed.

Lemma replace_others (old mask val m : Z) :
  is_u64 old -> is_u64 mask -> is_u64 m -> Z.land m mask = 0 -> Z.land val mask = val ->
  Z.land (Z.lor (Z.land old (not64 mask)) val) m = Z.land old m.
Proof.
  intros Ho Hm Hu Hd Hv. rewrite <- Hv. bitwise. rewrite (testbit_not64 mask i) by done.
  apply (f_equal (fun z => Z.testbit z i)) in Hd. rewrite Z.land_spec, Z.bits_0 in Hd.
  destruct (Z.testbit m i) eqn:Em; rewrite ?andb_false_r, ?andb_true_r; [|done].
  cbn [andb] in Hd. rewrite Hd. rewrite andb_false_r, orb_false_r. destruct (Z.ltb_spec i 64); [apply andb_true_r|].
  rewrite (testbit_high 64 old i) by done. done.
Qed.

(** ** Reading, writing and probing menvcfg *)

Section Envcfg.
Context {AR : Arch} {F : Features} {EH : EnvcfgHw} {EO : EnvcfgOk}.

(** Every field has a value it takes. *)
Definition legal (c : csr_file) : Prop := forall m, m ∈ envcfg_masks -> sticks m (Z.land (envcfg_read c) m).
Definition regs_ok (c : csr_file) : Prop := csr_wf c /\ legal c.

(** The registers read the same. *)
Definition same (c c' : csr_file) : Prop :=
  envcfg_read c' = envcfg_read c /\
  forall n, n <> CSR_MENVCFG -> n <> CSR_MENVCFGH -> csr_read c' n = csr_read c n.

#[export] Instance same_preorder : PreOrder same.
Proof.
  split; [by split|]. intros a b c [H1 H2] [H3 H4]. split; [congruence|]. intros n Hn Hm. by rewrite H4, H2.
Qed.

Lemma write_ok (c : csr_file) (v : Z) : csr_wf c -> is_u64 v -> regs_ok (envcfg_write c v).
Proof.
  intros Hwf Hv. split; [by apply envcfg_write_wf|]. intros m Hm. rewrite envcfg_write_held by done.
  apply envcfg_legal; [done|by apply envcfg_read_u64|done].
Qed.

Lemma write_field (c : csr_file) (v m : Z) : csr_wf c -> is_u64 v -> sticks m (Z.land v m) ->
  Z.land (envcfg_read (envcfg_write c v)) m = Z.land v m.
Proof. intros Hwf Hv Hs. rewrite envcfg_write_held by done. apply Hs; [by apply envcfg_read_u64|done..]. Qed.

Lemma write_all (c : csr_file) (v : Z) : csr_wf c -> is_u64 v ->
  (forall m, m ∈ envcfg_masks -> sticks m (Z.land v m)) -> envcfg_read (envcfg_write c v) = v.
Proof.
  intros Hwf Hv Hs. apply masks_cover; [by apply envcfg_read_u64, envcfg_write_wf|done|].
  intros m Hm. apply write_field; auto.
Qed.

(** [envcfg_update] succeeds exactly with a value the field takes; then the
    field has it, and otherwise nothing has changed. *)
Lemma envcfg_update_spec (c : csr_file) (mask val : Z) :
  regs_ok c -> mask ∈ envcfg_masks -> Z.land val mask = val -> is_u64 val -> hart_has HART_FEAT_MENVCFG = true ->
  let '(ok, c') := envcfg_update c mask val in
  regs_ok c' /\ (forall n, n <> CSR_MENVCFG -> n <> CSR_MENVCFGH -> csr_read c' n = csr_read c n) /\
  (ok = true <-> sticks mask val) /\
  envcfg_read c' = if ok then Z.lor (Z.land (envcfg_read c) (not64 mask)) val else envcfg_read c.
Proof.
  intros [Hwf Hl] Hm Hv Hu Hh. unfold envcfg_update. rewrite Hh. cbn [negb].
  pose proof (envcfg_read_u64 c Hwf) as Ho. pose proof (mask_u64 mask Hm) as Hmu.
  set (new := Z.lor (Z.land (envcfg_read c) (not64 mask)) val).
  assert (is_u64 new) as Hn by (by apply replace_u64).
  assert (Z.land new mask = val) as Hnm by (by apply replace_field).
  destruct (write_ok c new Hwf Hn) as [Hwf1 Hl1].
  destruct (Z.eqb_spec (Z.land (envcfg_read (envcfg_write c new)) mask) val) as [E|E].
  - assert (sticks mask val) as Hs by (rewrite <- E; by apply Hl1).
    split_and!; [by split|intros; by apply envcfg_write_other|done|].
    apply write_all; [done..|]. intros m Hm'. destruct (Z.eq_dec m mask) as [->|Hne]; [by rewrite Hnm|].
    assert (Z.land new m = Z.land (envcfg_read c) m) as ->; [|by apply Hl].
    apply replace_others; [done|done|by apply mask_u64|by apply masks_disjoint|done].
  - split_and!.
    + by apply write_ok.
    + intros n H1 H2. by rewrite !envcfg_write_other.
    + split; [done|]. intros Hs. exfalso. apply E. rewrite write_field; [done..|by rewrite Hnm].
    + apply write_all; [done|done|apply Hl].
Qed.

(** The features this hart has. *)
Definition supported (f : Z) : Prop :=
  f = SBI_FWFT_MISALIGNED_EXC_DELEG \/
  1 <= f <= 5 /\ hart_has HART_FEAT_MENVCFG = true /\ sticks (feature_field f) (feature_field f).

Lemma feature_field_mask (f : Z) : 1 <= f <= 5 -> feature_field f ∈ envcfg_masks.
Proof.
  intros Hf. unfold envcfg_masks.
  assert (f = 1 \/ f = 2 \/ f = 3 \/ f = 4 \/ f = 5) as [->|[->|[->|[->| ->]]]] by lia;
    rewrite !elem_of_cons; cbn [map]; rewrite !elem_of_cons; tauto.
Qed.

Lemma feature_field_none (f : Z) : ~ 1 <= f <= 5 -> feature_field f = 0.
Proof.
  intros Hf. unfold feature_field, SBI_FWFT_LANDING_PAD, SBI_FWFT_SHADOW_STACK, SBI_FWFT_DOUBLE_TRAP,
    SBI_FWFT_PTE_AD_HW_UPDATING, SBI_FWFT_POINTER_MASKING_PMLEN. case_cmp; lia.
Qed.

Lemma feature_field_some (f : Z) : 1 <= f <= 5 -> feature_field f <> 0.
Proof.
  intros Hf. assert (f = 1 \/ f = 2 \/ f = 3 \/ f = 4 \/ f = 5) as [->|[->|[->|[->| ->]]]] by lia; done.
Qed.

(** Probing for a feature leaves the registers as they were. *)
Lemma feature_exists_spec (c : csr_file) (f : Z) : regs_ok c ->
  let '(ok, c') := feature_exists c f in regs_ok c' /\ same c c' /\ (ok = true <-> supported f).
Proof.
  intros Hok. pose proof Hok as [Hwf Hl]. unfold feature_exists, supported.
  destruct (Z.eqb_spec f SBI_FWFT_MISALIGNED_EXC_DELEG) as [->|H0]; [split_and!; [done..|tauto]|].
  unfold truth. destruct (Z.eqb_spec (feature_field f) 0) as [E0|E0]; cbn [negb orb].
  { split_and!; [done..|]. split; [done|]. intros [?|[H _]]; [done|]. by apply feature_field_some in H. }
  assert (1 <= f <= 5) as Hf.
  { destruct (decide (1 <= f <= 5)) as [|Hn]; [done|]. by apply feature_field_none in Hn. }
  destruct (hart_has HART_FEAT_MENVCFG) eqn:Hh; cbn [negb].
  2:{ split_and!; [done..|]. split; [done|]. intros [?|(_ & ? & _)]; done. }
  pose proof (feature_field_mask f Hf) as Hm.
  pose proof (envcfg_update_spec c (feature_field f) (feature_field f) Hok Hm (Z.land_diag _) (mask_u64 _ Hm) Hh) as U.
  destruct (envcfg_update c (feature_field f) (feature_field f)) as [ok c'].
  destruct U as ([Hwf' Hl'] & Hr & Hs & _). pose proof (envcfg_read_u64 c Hwf) as Ho.
  split_and!; [by apply write_ok| |rewrite Hs; tauto]. split.
  - apply write_all; [done|done|apply Hl].
  - intros n H1 H2. rewrite envcfg_write_other by done. by apply Hr.
Qed.

Lemma feature_check_spec (c : csr_file) (f : Z) : regs_ok c -> is_ulong f ->
  let '(rc, c') := feature_check c f in regs_ok c' /\ same c c' /\ (truth rc = false <-> supported f).
Proof.
  intros Hok Hf. unfold feature_check, FWFT_FEATURES, SBI_FWFT_LOCAL_RESERVED_START.
  destruct (Z.ltb_spec f 6) as [H6|H6].
  - pose proof (feature_exists_spec c f Hok) as X. destruct (feature_exists c f) as [ok c'].
    destruct X as (? & ? & Hs). split_and!; [done..|]. rewrite <- Hs. by destruct ok.
  - assert (~ supported f) as Hn by (intros [->|[? _]]; [unfold SBI_FWFT_MISALIGNED_EXC_DELEG in *|]; lia).
    destruct (_ || _); split_and!; done.
Qed.

(** Whether a feature is there does not depend on the state. *)
Lemma feature_check_const (c c' : csr_file) (f : Z) : regs_ok c -> regs_ok c' -> is_ulong f ->
  fst (feature_check c f) = fst (feature_check c' f).
Proof.
  intros H H' Hf. unfold feature_check. destruct (f <? FWFT_FEATURES).
  - pose proof (feature_exists_spec c f H) as X. pose proof (feature_exists_spec c' f H') as X'.
    destruct (feature_exists c f) as [ok ?], (feature_exists c' f) as [ok' ?].
    destruct X as (_ & _ & X), X' as (_ & _ & X'). cbn.
    assert (ok = true <-> ok' = true) as E by (by rewrite X, X'). destruct ok, ok'; naive_solver.
  - by destruct (_ || _).
Qed.
End Envcfg.

(** ** The values of the features *)

Section Values.
Context {AR : Arch} {F : Features} {EH : EnvcfgHw} {EO : EnvcfgOk}.

Definition field_value (f x : Z) : Z :=
  if f =? SBI_FWFT_POINTER_MASKING_PMLEN then
    let y := Z.shiftr x ENVCFG_PMM_SHIFT in
    if y =? 2 then 7 else if y =? 3 then 16 else 0
  else if truth x then 1 else 0.

Definition value_of (c : csr_file) (f : Z) : Z :=
  if f =? SBI_FWFT_MISALIGNED_EXC_DELEG
  then if Z.land (csr_read c CSR_MEDELEG) MISALIGNED_DELEG =? MISALIGNED_DELEG then 1 else 0
  else field_value f (Z.land (envcfg_read c) (feature_field f)).

Lemma value_same (c c' : csr_file) (f : Z) : same c c' -> value_of c' f = value_of c f.
Proof. intros [E1 E2]. unfold value_of. by rewrite E1, E2. Qed.

Lemma feature_bits_spec (f v bits : Z) : 1 <= f <= 5 -> is_ulong v -> feature_bits f v = Some bits ->
  Z.land bits (feature_field f) = bits /\ is_u64 bits /\ field_value f bits = v.
Proof.
  intros Hf [Hv _].
  assert (f = 5 \/ f <> 5 /\ feature_bits f v = (if 1 <? v then None else Some (if truth v then feature_field f else 0))) as C.
  { destruct (Z.eq_dec f 5); [auto|]. right. split; [done|]. unfold feature_bits, SBI_FWFT_POINTER_MASKING_PMLEN.
    destruct (Z.eqb_spec f 5); [done|]. done. }
  destruct C as [->|[Hne ->]].
  - unfold feature_bits. cbn [Z.eqb SBI_FWFT_POINTER_MASKING_PMLEN Pos.eqb].
    destruct (Z.eqb_spec v 0) as [->|H0]; [intros [= <-]; done|].
    destruct (Z.eqb_spec v 7) as [->|H7]; [intros [= <-]; done|].
    destruct (Z.eqb_spec v 16) as [->|H16]; [intros [= <-]; done|]. done.
  - destruct (Z.ltb_spec 1 v) as [|Hle]; [done|]. intros [= <-].
    assert (is_u64 (feature_field f)) as Hu by (by apply mask_u64, feature_field_mask).
    assert (field_value f = fun x => if truth x then 1 else 0) as ->.
    { unfold field_value, SBI_FWFT_POINTER_MASKING_PMLEN. by destruct (Z.eqb_spec f 5). }
    assert (v = 0 \/ v = 1) as [->| ->] by lia; cbn [truth Z.eqb negb].
    + split_and!; [done|split; lia|done].
    + split_and!; [apply Z.land_diag|done|]. unfold truth.
      destruct (Z.eqb_spec (feature_field f) 0) as [E|]; [by apply feature_field_some in E|done].
Qed.

Lemma DELEG_ulong : is_ulong MISALIGNED_DELEG.
Proof. apply is_ulong_lor; apply wrap_range. Qed.

Lemma DELEG_nonzero : MISALIGNED_DELEG <> 0.
Proof.
  unfold MISALIGNED_DELEG, BIT, ushl, wrap, XLEN. destruct arch_xlen; vm_compute; done.
Qed.

(** Both misaligned exceptions are delegated, or none. *)
Definition deleg_ok (c : csr_file) : Prop :=
  Z.land (csr_read c CSR_MEDELEG) MISALIGNED_DELEG = 0 \/
  Z.land (csr_read c CSR_MEDELEG) MISALIGNED_DELEG = MISALIGNED_DELEG.

Lemma misaligned_set_spec (c : csr_file) (on : bool) : regs_ok c ->
  regs_ok (misaligned_set c on) /\ deleg_ok (misaligned_set c on) /\
  envcfg_read (misaligned_set c on) = envcfg_read c /\
  Z.land (csr_read (misaligned_set c on) CSR_MEDELEG) MISALIGNED_DELEG = (if on then MISALIGNED_DELEG else 0).
Proof.
  intros [Hwf Hl]. pose proof (csr_read_wf c CSR_MEDELEG Hwf) as Hr. pose proof DELEG_ulong as HD.
  assert (envcfg_read (misaligned_set c on) = envcfg_read c) as Ee.
  { unfold envcfg_read, misaligned_set, csr_set, csr_clear. destruct on, arch_xlen; rewrite !csr_read_write; done. }
  assert (Z.land (csr_read (misaligned_set c on) CSR_MEDELEG) MISALIGNED_DELEG =
          (if on then MISALIGNED_DELEG else 0)) as Ed.
  { unfold misaligned_set, csr_set, csr_clear. destruct on; rewrite csr_read_write, decide_True by done.
    - rewrite wrap_small by (by apply is_ulong_lor). bitwise. destruct (Z.testbit MISALIGNED_DELEG i); btauto.
    - rewrite wrap_small by (apply is_ulong_land; [done|apply wrap_range]). rewrite land_unot by done.
      bitwise. destruct (Z.testbit MISALIGNED_DELEG i); btauto. }
  split_and!; [|unfold deleg_ok; rewrite Ed; destruct on; auto|done|done].
  split; [unfold misaligned_set; destruct on; auto with csr|]. intros m Hm. rewrite Ee. by apply Hl.
Qed.

Lemma value_misaligned (c : csr_file) (on : bool) :
  Z.land (csr_read c CSR_MEDELEG) MISALIGNED_DELEG = (if on then MISALIGNED_DELEG else 0) ->
  value_of c SBI_FWFT_MISALIGNED_EXC_DELEG = if on then 1 else 0.
Proof.
  intros E. unfold value_of. rewrite Z.eqb_refl, E. destruct on; [by rewrite Z.eqb_refl|].
  destruct (Z.eqb_spec 0 MISALIGNED_DELEG) as [E0|]; [by destruct DELEG_nonzero|done].
Qed.
End Values.

(** ** The state *)

Section State.
Context {AR : Arch} {F : Features} {EH : EnvcfgHw} {EO : EnvcfgOk}.

(** What is kept of a domain's features can be put back. *)
Definition slot_ok (f : fwft_hart) : Prop :=
  is_u64 (f_envcfg f) /\ Z.land (f_envcfg f) feature_fields = f_envcfg f /\
  forall m, m ∈ envcfg_masks -> sticks m (Z.land (f_envcfg f) m).

Definition fw_ok (s : fwft) : Prop :=
  regs_ok (fw_csrs s) /\ deleg_ok (fw_csrs s) /\ forall d, slot_ok (fw_slots s d).

Lemma deleg_same (c c' : csr_file) : same c c' -> deleg_ok c -> deleg_ok c'.
Proof. intros [_ E] H. unfold deleg_ok. by rewrite E. Qed.

(** [fwft_get] on every branch. *)
Lemma fwft_get_spec (s : fwft) (f : Z) : fw_ok s -> is_ulong f ->
  let '(rc, v, s') := fwft_get s f in
  fw_ok s' /\ same (fw_csrs s) (fw_csrs s') /\ fw_dom s' = fw_dom s /\ fw_slots s' = fw_slots s /\
  rc = fst (feature_check (fw_csrs s) f) /\ v = (if truth rc then None else Some (value_of (fw_csrs s) f)).
Proof.
  intros (Hr & Hd & Hs) Hf. pose proof (feature_check_spec (fw_csrs s) f Hr Hf) as C. unfold fwft_get.
  destruct (feature_check (fw_csrs s) f) as [rc c']. destruct C as (Hr' & Hc & Hsup).
  assert (fw_ok (s <| fw_csrs := c' |>)) as Hok by (split_and!; [done|by eapply deleg_same|done]).
  destruct (truth rc) eqn:Erc; [split_and!; try done; by rewrite Erc|].
  assert (rc = 0) as -> by (unfold truth in Erc; bool_prop; done).
  pose proof Hc as [E1 E2]. unfold value_of.
  destruct (Z.eqb_spec f SBI_FWFT_MISALIGNED_EXC_DELEG) as [->|Hne]; cbn [truth Z.eqb negb fst].
  - split_and!; try done. by rewrite E2.
  - split_and!; try done. by rewrite E1.
Qed.

Lemma get_values (s s' : fwft) (f : Z) : fw_ok s -> fw_ok s' -> is_ulong f ->
  value_of (fw_csrs s') f = value_of (fw_csrs s) f -> fst (fwft_get s' f) = fst (fwft_get s f).
Proof.
  intros H H' Hf Hv. pose proof (fwft_get_spec s f H Hf) as G. pose proof (fwft_get_spec s' f H' Hf) as G'.
  destruct (fwft_get s f) as [[rc v] t], (fwft_get s' f) as [[rc' v'] t'].
  destruct G as (_ & _ & _ & _ & -> & ->), G' as (_ & _ & _ & _ & -> & ->). cbn.
  rewrite (feature_check_const (fw_csrs s') (fw_csrs s) f), Hv; [done|apply H'|apply H|done].
Qed.

Lemma feature_field_inj (f g : Z) : 1 <= f <= 5 -> 1 <= g <= 5 -> f <> g -> Z.land (feature_field g) (feature_field f) = 0.
Proof.
  intros Hf Hg Hne. apply masks_disjoint; [by apply feature_field_mask..|].
  assert (f = 1 \/ f = 2 \/ f = 3 \/ f = 4 \/ f = 5) as [->|[->|[->|[->| ->]]]] by lia;
    assert (g = 1 \/ g = 2 \/ g = 3 \/ g = 4 \/ g = 5) as [->|[->|[->|[->| ->]]]] by lia; done.
Qed.

(** Of a field replaced, the other features see nothing. *)
Lemma value_replaced (c c' : csr_file) (f g bits : Z) : regs_ok c -> 1 <= f <= 5 -> g <> f ->
  csr_read c' CSR_MEDELEG = csr_read c CSR_MEDELEG ->
  Z.land bits (feature_field f) = bits -> is_u64 bits ->
  envcfg_read c' = Z.lor (Z.land (envcfg_read c) (not64 (feature_field f))) bits ->
  value_of c' g = value_of c g.
Proof.
  intros [Hwf _] Hf Hne Em Hb Hu E. unfold value_of. rewrite Em, E. destruct (g =? _); [done|]. f_equal.
  destruct (decide (1 <= g <= 5)) as [Hg|Hg]; [|by rewrite (feature_field_none g Hg), !Z.land_0_r].
  apply replace_others; [by apply envcfg_read_u64|by apply mask_u64, feature_field_mask..| |done].
  apply feature_field_inj; done.
Qed.

Definition locked (s : fwft) (f : Z) : bool := truth (Z.land (f_locked (this_fwft s)) (BIT f)).
Definition lock_feature (s : fwft) (f flags : Z) : fwft :=
  if truth (Z.land flags SBI_FWFT_SET_FLAG_LOCK)
  then slot_update s (fun h => h <| f_locked := Z.lor (f_locked h) (BIT f) |>) else s.

Lemma slot_update_ok (s : fwft) (g : fwft_hart -> fwft_hart) :
  (forall h, slot_ok h -> slot_ok (g h)) -> fw_ok s -> fw_ok (slot_update s g).
Proof.
  intros Hg (Hr & Hd & Hs). split_and!; [done..|]. intros d. cbn. destruct (decide (d = fw_dom s)); auto.
Qed.

Lemma lock_feature_ok (s : fwft) (f flags : Z) : fw_ok s ->
  fw_ok (lock_feature s f flags) /\ fw_dom (lock_feature s f flags) = fw_dom s /\
  fw_csrs (lock_feature s f flags) = fw_csrs s.
Proof. intros H. unfold lock_feature. destruct (truth _); [|done]. split_and!; [|done..]. by apply slot_update_ok. Qed.

(** What a set does, when it succeeds: the value and the lock, no more. *)
Definition set_done (s s' : fwft) (f v flags : Z) : Prop :=
  supported f /\ locked s f = false /\ value_of (fw_csrs s') f = v /\
  (forall g, g <> f -> value_of (fw_csrs s') g = value_of (fw_csrs s) g) /\
  fw_slots s' = fw_slots (lock_feature s f flags).

Lemma fwft_set_spec (s : fwft) (f v flags : Z) : fw_ok s -> is_ulong f -> is_ulong v ->
  let '(rc, s') := fwft_set s f v flags in
  fw_ok s' /\ fw_dom s' = fw_dom s /\
  (if truth rc then same (fw_csrs s) (fw_csrs s') /\ fw_slots s' = fw_slots s else set_done s s' f v flags).
Proof.
  intros (Hr & Hd & Hs) Hf Hv. pose proof (feature_check_spec (fw_csrs s) f Hr Hf) as C. unfold fwft_set.
  destruct (feature_check (fw_csrs s) f) as [rc c]. destruct C as (Hr1 & Hc & Hsup).
  set (s1 := s <| fw_csrs := c |>).
  assert (fw_ok s1) as Hok by (split_and!; [done|by eapply deleg_same|done]).
  destruct (truth rc) eqn:Erc; [rewrite Erc; done|].
  assert (supported f) as Hf1 by (by apply Hsup).
  destruct (truth (Z.land flags (unot _))); [done|].
  destruct (truth (Z.land (f_locked (this_fwft s1)) (BIT f))) eqn:El; [done|].
  change (locked s f = false) in El.
  destruct (Z.eqb_spec f SBI_FWFT_MISALIGNED_EXC_DELEG) as [->|Hne].
  - destruct (Z.ltb_spec 1 v) as [|Hle]; [done|].
    pose proof (misaligned_set_spec c (truth v) Hr1) as (Hr2 & Hd2 & Ee & Em).
    set (s2 := s1 <| fw_csrs := misaligned_set c (truth v) |>).
    assert (fw_ok s2) as Hok2 by done.
    destruct (lock_feature_ok s2 SBI_FWFT_MISALIGNED_EXC_DELEG flags Hok2) as (Hok3 & Ed3 & Ec3).
    assert (set_done s (lock_feature s2 SBI_FWFT_MISALIGNED_EXC_DELEG flags) SBI_FWFT_MISALIGNED_EXC_DELEG v flags) as D.
    { split_and!; [done|done| | |].
      - rewrite Ec3. etrans; [exact (value_misaligned _ (truth v) Em)|].
        assert (v = 0 \/ v = 1) as [->| ->] by (unfold is_ulong in Hv; lia); done.
      - intros g Hg. rewrite Ec3. rewrite <- (value_same _ _ g Hc). unfold value_of. change (fw_csrs s2) with (misaligned_set c (truth v)). rewrite Ee.
        by destruct (Z.eqb_spec g SBI_FWFT_MISALIGNED_EXC_DELEG).
      - unfold lock_feature. destruct (truth (Z.land flags SBI_FWFT_SET_FLAG_LOCK)); reflexivity. }
    unfold lock_feature in D, Hok3, Ed3. fold s2. destruct (truth (Z.land flags _)); done.
  - destruct Hf1 as [?|(Hf5 & Hh & Hst)]; [done|].
    destruct (feature_bits f v) as [bits|] eqn:Eb; [|done].
    destruct (feature_bits_spec f v bits Hf5 Hv Eb) as (Hb1 & Hb2 & Hb3).
    pose proof (envcfg_update_spec c (feature_field f) bits Hr1 (feature_field_mask f Hf5) Hb1 Hb2 Hh) as U.
    destruct (envcfg_update c (feature_field f) bits) as [ok c'].
    destruct U as (Hr2 & Ho & _ & Ee). set (s2 := s1 <| fw_csrs := c' |>).
    assert (fw_ok s2) as Hok2.
    { split_and!; [done| |done]. destruct Hok as (_ & Hd1 & _). cbn in *. unfold deleg_ok. by rewrite Ho. }
    destruct ok.
    2:{ split_and!; [done..|]. cbn. split_and!; [|done]. etrans; [exact Hc|]. by split. }
    destruct (lock_feature_ok s2 f flags Hok2) as (Hok3 & Ed3 & Ec3).
    assert (set_done s (lock_feature s2 f flags) f v flags) as D.
    { split_and!; [by right|done| | |].
      - rewrite Ec3. unfold value_of. change (fw_csrs s2) with c'. destruct (Z.eqb_spec f SBI_FWFT_MISALIGNED_EXC_DELEG); [done|].
        rewrite Ee, replace_field; [done|apply envcfg_read_u64, Hr1|by apply mask_u64, feature_field_mask|done].
      - intros g Hg. rewrite Ec3. rewrite <- (value_same _ _ g Hc). eapply (value_replaced _ _ f); try done. by apply Ho.
      - unfold lock_feature. destruct (truth (Z.land flags SBI_FWFT_SET_FLAG_LOCK)); reflexivity. }
    unfold lock_feature in D, Hok3, Ed3. fold s2. destruct (truth (Z.land flags _)); done.
Qed.
End State.

(** ** From domain to domain *)

Section Switch.
Context {AR : Arch} {F : Features} {EH : EnvcfgHw} {EO : EnvcfgOk}.

Definition slot_value (h : fwft_hart) (g : Z) : Z :=
  if g =? SBI_FWFT_MISALIGNED_EXC_DELEG then if f_misaligned_deleg h then 1 else 0
  else field_value g (Z.land (f_envcfg h) (feature_field g)).

Lemma field_in_fields (g : Z) : 1 <= g <= 5 -> Z.land feature_fields (feature_field g) = feature_field g.
Proof. intros Hg. assert (g = 1 \/ g = 2 \/ g = 3 \/ g = 4 \/ g = 5) as [->|[->|[->|[->| ->]]]] by lia; reflexivity. Qed.

Lemma fields_u64 : is_u64 feature_fields.
Proof. done. Qed.

Lemma mask_cases (m : Z) : m ∈ envcfg_masks -> m = envcfg_rest \/ exists g, 1 <= g <= 5 /\ m = feature_field g.
Proof.
  unfold envcfg_masks. cbn [map]. rewrite !elem_of_cons, elem_of_nil.
  intros [->|[->|[->|[->|[->|[->|[]]]]]]]; [by left|right..]; eexists; (split; [|reflexivity]); lia.
Qed.

Lemma slot_zero_ok : slot_ok fwft_hart_zero.
Proof. split_and!; [done|done|]. intros m Hm. rewrite Z.land_0_l. by apply envcfg_off. Qed.

(** The registers' part of what is kept. *)
Lemma saved_ok (c : csr_file) : regs_ok c ->
  let e := Z.land (envcfg_read c) feature_fields in
  is_u64 e /\ Z.land e feature_fields = e /\ forall m, m ∈ envcfg_masks -> sticks m (Z.land e m).
Proof.
  intros [Hwf Hl] e. pose proof (envcfg_read_u64 c Hwf) as Hu. split_and!.
  - apply land_bound; [lia|done|by destruct fields_u64].
  - unfold e. by rewrite <- Z.land_assoc, Z.land_diag.
  - intros m Hm. unfold e. rewrite <- Z.land_assoc. destruct (mask_cases m Hm) as [->|(g & Hg & ->)].
    + change (Z.land feature_fields envcfg_rest) with 0. rewrite Z.land_0_r. by apply envcfg_off.
    + rewrite field_in_fields by done. by apply Hl.
Qed.

Lemma switch_out_spec (s : fwft) : fw_ok s ->
  let o := fwft_hart_switch_out s in
  fw_ok o /\ fw_dom o = fw_dom s /\ fw_csrs o = fw_csrs s /\
  (forall d, f_locked (fw_slots o d) = f_locked (fw_slots s d)) /\
  (forall d, d <> fw_dom s -> fw_slots o d = fw_slots s d) /\
  (forall g, supported g -> slot_value (fw_slots o (fw_dom s)) g = value_of (fw_csrs s) g).
Proof.
  intros (Hr & Hd & Hs) o. pose proof (saved_ok _ Hr) as (Hu & Hm & Hst).
  set (b := truth (Z.land (csr_read (fw_csrs s) CSR_MEDELEG) MISALIGNED_DELEG)).
  assert (forall d, fw_slots o d = if decide (d = fw_dom s) then
      (fw_slots s d) <| f_misaligned_deleg := b |>
        <| f_envcfg := if hart_has HART_FEAT_MENVCFG then Z.land (envcfg_read (fw_csrs s)) feature_fields
                       else f_envcfg (fw_slots s d) |> else fw_slots s d) as E.
  { intros d. unfold o, fwft_hart_switch_out. destruct (hart_has HART_FEAT_MENVCFG); cbn; by destruct (decide (d = fw_dom s)). }
  assert (fw_dom o = fw_dom s /\ fw_csrs o = fw_csrs s) as [Ed Ec].
  { unfold o, fwft_hart_switch_out. by destruct (hart_has HART_FEAT_MENVCFG). }
  split_and!; [|done|done|..].
  - split_and!; [by rewrite Ec|by rewrite Ec|]. intros d. rewrite E. destruct (decide (d = fw_dom s)); [|done].
    destruct (hart_has HART_FEAT_MENVCFG); [done|]. apply Hs.
  - intros d. rewrite E. by destruct (decide (d = fw_dom s)).
  - intros d Hne. rewrite E. by rewrite decide_False.
  - intros g Hg. rewrite E, decide_True by done. unfold slot_value, value_of. cbn.
    destruct (Z.eqb_spec g SBI_FWFT_MISALIGNED_EXC_DELEG) as [->|Hne].
    + unfold b. destruct Hd as [-> | ->]; pose proof DELEG_nonzero; unfold truth.
      * rewrite Z.eqb_refl. destruct (Z.eqb_spec 0 MISALIGNED_DELEG); [by subst|done].
      * rewrite Z.eqb_refl. destruct (Z.eqb_spec MISALIGNED_DELEG 0); done.
    + destruct Hg as [?|(Hg & Hh & _)]; [done|]. rewrite Hh, <- Z.land_assoc, field_in_fields by done. done.
Qed.

Lemma switch_in_spec (s : fwft) (fresh : bool) : fw_ok s ->
  let i := fwft_hart_switch_in s fresh in
  let h := if fresh then fwft_hart_zero else this_fwft s in
  fw_ok i /\ fw_dom i = fw_dom s /\ fw_slots i (fw_dom s) = h /\
  (forall d, d <> fw_dom s -> fw_slots i d = fw_slots s d) /\
  (forall g, supported g -> value_of (fw_csrs i) g = slot_value h g).
Proof.
  intros (Hr & Hd & Hs) i h.
  assert (slot_ok h) as Hh by (unfold h; destruct fresh; [apply slot_zero_ok|apply Hs]).
  destruct Hh as (Hu & Hm & Hst).
  pose proof (misaligned_set_spec (fw_csrs s) (f_misaligned_deleg h) Hr) as (Hr1 & Hd1 & Ee & Em).
  set (c := misaligned_set (fw_csrs s) (f_misaligned_deleg h)) in *.
  set (new := Z.lor (Z.land (envcfg_read c) (not64 feature_fields)) (f_envcfg h)).
  assert (forall d, fw_slots i d = if decide (d = fw_dom s) then h else fw_slots s d) as Es.
  { intros d. unfold i, h, fwft_hart_switch_in, this_fwft. destruct fresh; cbn; destruct (decide (d = fw_dom s)); by subst. }
  assert (fw_dom i = fw_dom s) as Edom by (unfold i, fwft_hart_switch_in; by destruct fresh).
  assert (fw_csrs i = if hart_has HART_FEAT_MENVCFG then envcfg_write c new else c) as Ec.
  { unfold i, fwft_hart_switch_in, new, c, h, this_fwft.
    destruct fresh; cbn; [rewrite decide_True by done|]; by destruct (hart_has HART_FEAT_MENVCFG). }
  assert (is_u64 new) as Hn by (apply replace_u64; [apply envcfg_read_u64, Hr1|apply fields_u64|done]).
  assert (forall g, 1 <= g <= 5 -> Z.land new (feature_field g) = Z.land (f_envcfg h) (feature_field g)) as Hnf.
  { intros g Hg. unfold new. rewrite <- (field_in_fields g Hg) at 1 2.
    rewrite !Z.land_assoc. f_equal. rewrite Hm. apply replace_field; [apply envcfg_read_u64, Hr1|apply fields_u64|done]. }
  assert (envcfg_read (envcfg_write c new) = new) as Er.
  { apply write_all; [apply Hr1|done|]. intros m Hmm. destruct (mask_cases m Hmm) as [->|(g & Hg & ->)].
    - unfold new. rewrite replace_others; [by apply Hr1|apply envcfg_read_u64, Hr1|apply fields_u64|done|done|done].
    - rewrite Hnf by done. by apply Hst, feature_field_mask. }
  split_and!; [|done|rewrite Es; by rewrite decide_True|intros d Hne; rewrite Es; by rewrite decide_False|].
  - split_and!.
    + rewrite Ec. destruct (hart_has HART_FEAT_MENVCFG); [|done]. apply write_ok; [apply Hr1|done].
    + rewrite Ec. destruct (hart_has HART_FEAT_MENVCFG); [|done]. unfold deleg_ok. by rewrite envcfg_write_other.
    + intros d. rewrite Es. destruct (decide (d = fw_dom s)); [split_and!; done|done].
  - intros g Hg. unfold slot_value. destruct (Z.eqb_spec g SBI_FWFT_MISALIGNED_EXC_DELEG) as [->|Hne].
    + apply value_misaligned. rewrite Ec. destruct (hart_has HART_FEAT_MENVCFG); [|done]. by rewrite envcfg_write_other.
    + destruct Hg as [?|(Hg & Hhas & _)]; [done|]. rewrite Ec, Hhas. unfold value_of.
      destruct (Z.eqb_spec g SBI_FWFT_MISALIGNED_EXC_DELEG); [done|]. by rewrite Er, Hnf.
Qed.
End Switch.

(** ** The theorems *)

Section Theorems.
Context {AR : Arch} {F : Features} {EH : EnvcfgHw} {EO : EnvcfgOk}.

(** On any hart whose menvcfg takes back the values it shows, a set of a
    firmware feature that succeeds is what the next get of it finds, and no
    other feature has changed; a set that fails has changed none. *)
Theorem fwft_set_get (s : fwft) (f v flags : Z) : fw_ok s -> is_ulong f -> is_ulong v ->
  let '(rc, s') := fwft_set s f v flags in
  fw_ok s' /\
  (rc = SBI_SUCCESS -> fst (fwft_get s' f) = (SBI_SUCCESS, Some v)) /\
  (forall g, is_ulong g -> rc <> SBI_SUCCESS \/ g <> f -> fst (fwft_get s' g) = fst (fwft_get s g)).
Proof.
  intros Hs Hf Hv. pose proof (fwft_set_spec s f v flags Hs Hf Hv) as S.
  destruct (fwft_set s f v flags) as [rc s']. destruct S as (Hok & _ & S). split; [done|].
  destruct (truth rc) eqn:E.
  - apply truth_true in E. split; [done|]. intros g Hg _. apply get_values; [done..|]. apply value_same, S.
  - assert (rc = 0) as -> by (unfold truth in E; bool_prop; done). destruct S as (Hsup & _ & Hval & Hoth & _). split.
    + intros _. pose proof (fwft_get_spec s' f Hok Hf) as G. destruct (fwft_get s' f) as [[rc v'] t].
      destruct G as (_ & _ & _ & _ & -> & ->). cbn.
      pose proof (feature_check_spec (fw_csrs s') f (proj1 Hok) Hf) as C.
      destruct (feature_check (fw_csrs s') f) as [rc c]. destruct C as (_ & _ & C). cbn.
      apply C in Hsup. rewrite Hsup, Hval. unfold truth in Hsup. bool_prop. by subst.
    + intros g Hg [?|Hne]; [done|]. apply get_values; auto.
Qed.

(** What feature [g] is set to in domain [d], now or when the hart is back. *)
Definition cur (s : fwft) (d g : Z) : Z :=
  if decide (fw_dom s = d) then value_of (fw_csrs s) g else slot_value (fw_slots s d) g.
Definition has_lock (s : fwft) (d f : Z) : bool := truth (Z.land (f_locked (fw_slots s d)) (BIT f)).

(** The calls of a hart, of which none starts domain [d] on it again. *)
Definition keeps (d : Z) (s : fwft) (o : fwft_op) : Prop :=
  match o with
  | FSet f v _ => is_ulong f /\ is_ulong v
  | FGet f => is_ulong f
  | FSwitch to fresh => fresh = true -> to <> d
  | FInit => fw_dom s <> d
  end.

Lemma lock_feature_lock (s : fwft) (g flags d f : Z) : has_lock s d f = true -> has_lock (lock_feature s g flags) d f = true.
Proof.
  intros H. unfold lock_feature. destruct (truth _); [|done]. unfold has_lock in *. cbn.
  destruct (decide (d = fw_dom s)); [|done]. cbn. by rewrite truth_lor, H.
Qed.

Lemma lock_feature_slots (s : fwft) (g flags d : Z) : d <> fw_dom s -> fw_slots (lock_feature s g flags) d = fw_slots s d.
Proof. intros H. unfold lock_feature. destruct (truth _); [|done]. cbn. by rewrite decide_False. Qed.

Lemma lock_kept (d f : Z) (s : fwft) (o : fwft_op) : fw_ok s -> supported f -> has_lock s d f = true -> keeps d s o ->
  fw_ok (fwft_run1 s o) /\ has_lock (fwft_run1 s o) d f = true /\ cur (fwft_run1 s o) d f = cur s d f.
Proof.
  intros Hs Hf Hl Hk. unfold cur. destruct o as [g v flags|g|to fresh|]; cbn [fwft_run1 keeps] in *.
  - destruct Hk as [Hg Hv]. pose proof (fwft_set_spec s g v flags Hs Hg Hv) as S.
    destruct (fwft_set s g v flags) as [rc s']. cbn [snd]. destruct S as (Hok & Ed & S). rewrite Ed.
    destruct (truth rc).
    + destruct S as [Hsame Hsl]. unfold has_lock. rewrite Hsl. split_and!; [done..|].
      destruct (decide _); [by apply value_same|done].
    + destruct S as (_ & Hnl & _ & Hoth & Hsl). split_and!; [done|unfold has_lock; rewrite Hsl; by apply lock_feature_lock|].
      destruct (decide (fw_dom s = d)) as [<-|Hne].
      * apply Hoth. intros ->. unfold locked, this_fwft in Hnl. unfold has_lock in Hl. congruence.
      * rewrite Hsl. by rewrite lock_feature_slots.
  - pose proof (fwft_get_spec s g Hs Hk) as G. destruct (fwft_get s g) as [[rc v'] t]. cbn [snd].
    destruct G as (Hok & Hsame & Ed & Hsl & _). unfold has_lock. rewrite Ed, Hsl. split_and!; [done..|].
    destruct (decide _); [by apply value_same|done].
  - pose proof (switch_out_spec s Hs) as (Hok & Ed & Ec & Hlk & Hoth & Hval).
    set (o := (fwft_hart_switch_out s) <| fw_dom := to |>).
    pose proof (switch_in_spec o fresh Hok) as (Hok' & Ed' & Hh & Hoth' & Hval').
    assert (cur s d f = slot_value (fw_slots o d) f) as Ec0.
    { unfold cur. destruct (decide (fw_dom s = d)) as [<-|]; [by rewrite <- Hval|]. symmetry. cbn. by rewrite Hoth. }
    change (fw_dom o) with to in *. rewrite Ed'. fold (cur s d f). rewrite Ec0. split; [done|].
    destruct (decide (to = d)) as [Et|Hne].
    + destruct fresh; [by apply Hk in Et|]. subst d. unfold has_lock. rewrite Hh. unfold this_fwft.
      split; [cbn; by rewrite Hlk|]. rewrite Hval' by done. done.
    + unfold has_lock. rewrite (Hoth' d) by done. split; [cbn; by rewrite Hlk|done].
  - split_and!; [by apply slot_update_ok| |].
    + unfold has_lock. cbn. rewrite decide_False by done. done.
    + cbn. rewrite !(decide_False (P := fw_dom s = d)) by done. by rewrite decide_False.
Qed.

(** The calls of [ops], none of which starts domain [d] again. *)
Fixpoint keeps_all (d : Z) (s : fwft) (ops : list fwft_op) : Prop :=
  match ops with [] => True | o :: ops => keeps d s o /\ keeps_all d (fwft_run1 s o) ops end.

Lemma lock_kept_all (d f : Z) (ops : list fwft_op) (s : fwft) :
  fw_ok s -> supported f -> has_lock s d f = true -> keeps_all d s ops ->
  let s' := foldl fwft_run1 s ops in fw_ok s' /\ has_lock s' d f = true /\ cur s' d f = cur s d f.
Proof.
  revert s. induction ops as [|o ops IH]; intros s Hs Hf Hl Hk; cbn [foldl]; [done|]. destruct Hk as [Hk Hks].
  destruct (lock_kept d f s o) as (H1 & H2 & H3); [done..|]. rewrite <- H3. by apply IH.
Qed.

(** C34: A feature that domain [d] has set and locked stays so until the hart
    is started in [d] again: after any calls, and any moves of the hart
    through other domains and what these set there, a get in [d] finds the
    value, and a set of the feature fails. *)
Theorem fwft_lock_holds (s s1 : fwft) (f v flags : Z) (ops : list fwft_op) :
  fw_ok s -> is_ulong f -> is_ulong v ->
  fwft_set s f v flags = (SBI_SUCCESS, s1) -> truth (Z.land flags SBI_FWFT_SET_FLAG_LOCK) = true ->
  keeps_all (fw_dom s) s1 ops ->
  let s' := foldl fwft_run1 s1 ops in
  fw_dom s' = fw_dom s ->
  fst (fwft_get s' f) = (SBI_SUCCESS, Some v) /\
  forall v' flags', is_ulong v' -> fst (fwft_set s' f v' flags') <> SBI_SUCCESS.
Proof.
  intros Hs Hf Hv Eset Hfl Hk s' Ed. pose proof (fwft_set_spec s f v flags Hs Hf Hv) as S. rewrite Eset in S.
  destruct S as (Hok & Ed1 & Hsup & _ & Hval & _ & Hsl). cbn [truth Z.eqb negb] in *.
  assert (has_lock s1 (fw_dom s) f = true) as Hl.
  { unfold has_lock. rewrite Hsl. unfold lock_feature. rewrite Hfl. cbn. rewrite decide_True by done. cbn.
    rewrite truth_lor. apply orb_true_iff. right. rewrite Z.land_diag. apply truth_true.
    destruct Hsup as [->|[Hr _]]; rewrite BIT_small by (pose proof XLEN_bounds; unfold SBI_FWFT_MISALIGNED_EXC_DELEG; lia); [done|].
    pose proof (pow2_pos f). lia. }
  destruct (lock_kept_all (fw_dom s) f ops s1 Hok Hsup Hl Hk) as (Hok' & Hl' & Hc').
  fold s' in Hok', Hl', Hc'. unfold cur in Hc'. rewrite !decide_True in Hc' by done. split.
  - pose proof (fwft_get_spec s' f Hok' Hf) as G. destruct (fwft_get s' f) as [[rc v'] t].
    destruct G as (_ & _ & _ & _ & -> & ->). cbn.
    pose proof (feature_check_spec (fw_csrs s') f (proj1 Hok') Hf) as C.
    destruct (feature_check (fw_csrs s') f) as [rc c]. destruct C as (_ & _ & C). cbn.
    apply C in Hsup. rewrite Hsup, Hc', Hval. unfold truth in Hsup. bool_prop. by subst.
  - intros v' flags' Hv'. pose proof (fwft_set_spec s' f v' flags' Hok' Hf Hv') as S.
    destruct (fwft_set s' f v' flags') as [rc t]. cbn. intros ->. destruct S as (_ & _ & _ & Hnl & _).
    unfold locked, this_fwft in Hnl. unfold has_lock in Hl'. rewrite Ed in Hnl. congruence.
Qed.
End Theorems.

(** ** A hart without Ssdbltrp *)

Module NoDoubleTrap.
#[local] Instance arch : Arch := RV64.
#[local] Instance features : Features := fun f => match f with HART_FEAT_MENVCFG => true | _ => false end.
#[local] Instance hw : EnvcfgHw := fun _ _ new => Z.land new (not64 (2 ^ ENVCFG_DTE_BIT)).

Lemma held_land (old new : Z) : is_u64 new -> envcfg_held old new = Z.land new (not64 (2 ^ ENVCFG_DTE_BIT)).
Proof. intros Hn. apply wrap_small. apply land_bound; [done|exact Hn|done]. Qed.

#[local] Instance hw_ok : EnvcfgOk.
Proof.
  split; intros m; [intros old new _ _ Hn old' new' _ Hn' E|intros _ old new _ Hn E].
  - rewrite (held_land old new) in * by done. rewrite held_land by done.
    rewrite <- Z.land_assoc, (Z.land_comm (not64 _)), Z.land_assoc, E.
    bitwise. destruct (Z.testbit new i), (Z.testbit m i), (Z.testbit (not64 (2 ^ ENVCFG_DTE_BIT)) i); done.
  - rewrite held_land by done. rewrite <- Z.land_assoc, (Z.land_comm (not64 _)), Z.land_assoc, E. apply Z.land_0_l.
Qed.

Definition hart0 : fwft := Fwft ∅ 0 (fun _ => fwft_hart_zero).

Lemma fwft_hart0_ok : fw_ok hart0.
Proof.
  split_and!; [split|by left|intros; apply slot_zero_ok].
  - apply csr_wf_empty.
  - intros m Hm. apply envcfg_off, Hm.
Qed.

Lemma fwft_set_get_witness :
  fst (fwft_set hart0 SBI_FWFT_POINTER_MASKING_PMLEN 7 0) = SBI_SUCCESS /\
  fst (fwft_get (snd (fwft_set hart0 SBI_FWFT_POINTER_MASKING_PMLEN 7 0)) SBI_FWFT_POINTER_MASKING_PMLEN) = (SBI_SUCCESS, Some 7) /\
  fst (fwft_set hart0 SBI_FWFT_DOUBLE_TRAP 1 0) = SBI_ERR_NOT_SUPPORTED.
Proof.
  assert (fst (fwft_set hart0 SBI_FWFT_POINTER_MASKING_PMLEN 7 0) = SBI_SUCCESS) as E by (vm_compute; reflexivity).
  pose proof (fwft_set_get hart0 SBI_FWFT_POINTER_MASKING_PMLEN 7 0 fwft_hart0_ok
    (conj (proj1 (Z.leb_le 0 5) eq_refl) (proj1 (Z.ltb_lt 5 (2 ^ 64)) eq_refl))
    (conj (proj1 (Z.leb_le 0 7) eq_refl) (proj1 (Z.ltb_lt 7 (2 ^ 64)) eq_refl))) as T.
  destruct (fwft_set hart0 SBI_FWFT_POINTER_MASKING_PMLEN 7 0) as [rc s']. cbn [fst snd] in *.
  destruct T as (_ & T & _). split; [exact E|]. split; [exact (T E)|]. vm_compute. reflexivity.
Defined.

(** Pointer masking is locked in domain 0; the hart goes to domain 1, which
    turns landing pads on, and comes back. *)
Definition trip : list fwft_op := [FSwitch 1 true; FSet SBI_FWFT_LANDING_PAD 1 0; FSwitch 0 false].
Definition locked0 : fwft := snd (fwft_set hart0 SBI_FWFT_POINTER_MASKING_PMLEN 7 SBI_FWFT_SET_FLAG_LOCK).

Lemma fwft_lock_holds_witness :
  fst (fwft_get (foldl fwft_run1 locked0 trip) SBI_FWFT_POINTER_MASKING_PMLEN) = (SBI_SUCCESS, Some 7).
Proof.
  assert (fwft_set hart0 SBI_FWFT_POINTER_MASKING_PMLEN 7 SBI_FWFT_SET_FLAG_LOCK = (SBI_SUCCESS, locked0)) as E
    by (unfold locked0; apply injective_projections; [vm_compute; reflexivity|reflexivity]).
  assert (is_ulong SBI_FWFT_POINTER_MASKING_PMLEN /\ is_ulong 7) as [H5 H7] by (split; split; vm_compute; congruence).
  assert (keeps_all (fw_dom hart0) locked0 trip) as K.
  { cbn [keeps_all keeps trip]. split_and!; try done; split; vm_compute; congruence. }
  assert (fw_dom (foldl fwft_run1 locked0 trip) = fw_dom hart0) as D by (vm_compute; reflexivity).
  exact (proj1 (fwft_lock_holds hart0 locked0 _ 7 SBI_FWFT_SET_FLAG_LOCK trip fwft_hart0_ok H5 H7 E eq_refl K D)).
Defined.
End NoDoubleTrap.
