(* ===== verification/Dbtr.v ===== *)
(** Debug triggers, [arch/riscv/runtime/dbtr.c].

    A hart has a file of triggers behind a selector: tselect names one, and
    tdata1-3 are its registers. They are WARL, and what they hold after a
    write is a parameter ([TriggerHw]); the laws the code relies on
    ([TriggerLaws]) are the debug specification's. The shared memory of a call
    is an argument of it, and what the call leaves there a result. *)

From S2P Require Import Prelude Arch.

#[local] Open Scope Z_scope.

(** [struct trigger_type] *)
Record trigger_type : Set := TriggerType {
  ty_u : Z; ty_s : Z; ty_m : Z; ty_vu : Z; ty_vs : Z;
  ty_chain : Z;
  ty_hit : Z;
}.

(** The registers of one trigger *)
Record tdata : Set := TData { td1 : Z; td2 : Z; td3 : Z }.
#[export] Instance tdata_eta : Settable tdata := fun t => TData (td1 t) (td2 t) (td3 t).
#[export] Instance tdata_inhabited : Inhabited tdata := populate (TData 0 0 0).
#[export] Instance tdata_eq_dec : EqDecision tdata.
Proof. solve_decision. Defined.

(** What a hart's triggers are: whether there are any (tselect does not
    trap), how many, what tselect holds after a write, tinfo where it exists,
    whether tdata3 does, and what the registers hold after a write. A write
    of tdata1 may change the type, and then the others. *)
Class TriggerHw := {
  th_sdtrig : bool;
  th_count : nat;
  th_tselect : nat -> nat;
  th_tinfo : option (nat -> Z);
  th_has_tdata3 : bool;
  th_tdata1 : nat -> tdata -> Z -> tdata;
  th_tdata2 : nat -> tdata -> Z -> Z;
  th_tdata3 : nat -> tdata -> Z -> Z;
}.

(** [CONFIG_SBI_DBTR_MAX_TRIGGERS] ("range 1 64") *)
Class MaxTriggers := MAX_TRIGGERS : nat.

(** The trigger file of the calling hart *)
Record trigger_file : Set := TriggerFile { tf_regs : list tdata; tf_sel : nat }.
#[export] Instance trigger_file_eta : Settable trigger_file := fun h => TriggerFile (tf_regs h) (tf_sel h).

(** [struct dbtr_entry] *)
Record dbtr_entry : Set := DbtrEntry { e_idx : Z; e_tdata1 : Z; e_tdata2 : Z; e_tdata3 : Z }.
#[export] Instance dbtr_entry_eta : Settable dbtr_entry := fun e =>
  DbtrEntry (e_idx e) (e_tdata1 e) (e_tdata2 e) (e_tdata3 e).
#[export] Instance dbtr_entry_inhabited : Inhabited dbtr_entry := populate (DbtrEntry 0 0 0 0).

(** [struct dbtr_hart] *)
Record dbtr_hart : Set := DbtrHart {
  dh_shmem : Z;
  dh_count : nat;
  dh_has_tdata3 : bool;
  dh_types : list Z;
  dh_state : list Z;
  dh_saved : list tdata;
}.
#[export] Instance dbtr_hart_eta : Settable dbtr_hart := fun d =>
  DbtrHart (dh_shmem d) (dh_count d) (dh_has_tdata3 d) (dh_types d) (dh_state d) (dh_saved d).

(** The calling hart: its triggers, the domain it runs, its slots by domain *)
Record dbtr : Type := Dbtr {
  db_hw : trigger_file;
  db_dom : Z;
  db_slots : Z -> dbtr_hart;
}.
#[export] Instance dbtr_eta : Settable dbtr := fun s => Dbtr (db_hw s) (db_dom s) (db_slots s).

Definition STATE_MAPPED : Z := 2 ^ 0.
Definition STATE_U : Z := 2 ^ 1.
Definition STATE_S : Z := 2 ^ 2.
Definition STATE_VU : Z := 2 ^ 3.
Definition STATE_VS : Z := 2 ^ 4.
Definition STATE_HAVE_HW : Z := 2 ^ 5.
Definition STATE_HW_IDX_SHIFT : Z := 8.

Definition TYPE_MCONTROL : Z := 2.
Definition TYPE_ICOUNT : Z := 3.
Definition TYPE_ITRIGGER : Z := 4.
Definition TYPE_ETRIGGER : Z := 5.
Definition TYPE_MCONTROL6 : Z := 6.

(** An element of an array of [MAX_TRIGGERS] words *)
Definition trig_word (l : list Z) (i : nat) : Z := default 0 (l !! i).

Inductive set_op : Set := SET_UNINSTALL | SET_ENABLE | SET_DISABLE.

Section Dbtr.
Context {AR : Arch} {TH : TriggerHw} {MT : MaxTriggers}.

Definition TDATA1_TYPE_SHIFT : Z := XLEN - 4.
Definition TDATA1_TYPE (v : Z) : Z := ushr v TDATA1_TYPE_SHIFT.
Definition TDATA1_DMODE : Z := BIT (XLEN - 5).
Definition SHMEM_NONE : Z := unot 0.

Definition trigger_types (ty : Z) : trigger_type :=
  if ty =? TYPE_MCONTROL then TriggerType (BIT 3) (BIT 4) (BIT 6) 0 0 (BIT 11) (BIT 20)
  else if ty =? TYPE_MCONTROL6
  then TriggerType (BIT 3) (BIT 4) (BIT 6) (BIT 23) (BIT 24) (BIT 11) (Z.lor (BIT 22) (BIT 25))
  else if ty =? TYPE_ICOUNT
  then TriggerType (BIT 6) (BIT 7) (BIT 9) (BIT 25) (BIT 26) 0 (Z.lor (BIT 24) (BIT 8))
  else if (ty =? TYPE_ITRIGGER) || (ty =? TYPE_ETRIGGER)
  then TriggerType (BIT 6) (BIT 7) (BIT 9) (BIT 11) (BIT 12) 0 (BIT (XLEN - 6))
  else TriggerType 0 0 0 0 0 0 0.

Definition type_of (tdata1 : Z) : trigger_type := trigger_types (TDATA1_TYPE tdata1).

Definition mode_bits (tdata1 : Z) : Z :=
  let t := type_of tdata1 in
  Z.lor (Z.lor (Z.lor (ty_u t) (ty_s t)) (ty_vu t)) (ty_vs t).

Definition chained (tdata1 : Z) : bool := truth (Z.land tdata1 (ty_chain (type_of tdata1))).

(** ** The registers *)

Definition tselect_write (h : trigger_file) (idx : nat) : trigger_file := h <| tf_sel := th_tselect idx |>.
Definition selected (h : trigger_file) : tdata := tf_regs h !!! tf_sel h.
Definition selected_update (h : trigger_file) (f : tdata -> tdata) : trigger_file :=
  h <| tf_regs := alter f (tf_sel h) (tf_regs h) |>.
Definition tdata1_read (h : trigger_file) : Z := td1 (selected h).
Definition tdata2_read (h : trigger_file) : Z := td2 (selected h).
Definition tdata3_read (h : trigger_file) : Z := td3 (selected h).
Definition tdata1_write (h : trigger_file) (v : Z) : trigger_file :=
  selected_update h (fun t => th_tdata1 (tf_sel h) t v).
Definition tdata2_write (h : trigger_file) (v : Z) : trigger_file :=
  selected_update h (fun t => t <| td2 := th_tdata2 (tf_sel h) t v |>).
Definition tdata3_write (h : trigger_file) (v : Z) : trigger_file :=
  selected_update h (fun t => t <| td3 := th_tdata3 (tf_sel h) t v |>).

Definition type_mask : Z := ushl 0xf TDATA1_TYPE_SHIFT.

Definition hw_clear (h : trigger_file) (idx : nat) : trigger_file :=
  let h := tselect_write h idx in
  let h := tdata1_write h 0 in
  let tdata1 := tdata1_read h in
  let h := if truth tdata1 then tdata1_write h (Z.land tdata1 type_mask) else h in
  tdata2_write h 0.

(** ** Setting a hart up *)

Definition this_dbtr (s : dbtr) : dbtr_hart := db_slots s (db_dom s).
Definition dbtr_set (s : dbtr) (h : trigger_file) (d : dbtr_hart) : dbtr :=
  s <| db_hw := h |>
    <| db_slots := fun k => if decide (k = db_dom s) then d else db_slots s k |>.

Definition dbtr_hart_zero : dbtr_hart :=
  DbtrHart SHMEM_NONE 0 false (replicate MAX_TRIGGERS 0) (replicate MAX_TRIGGERS 0)
    (replicate MAX_TRIGGERS (TData 0 0 0)).

(** The types the selected trigger has, a bit each *)
Definition trigger_types_of (h : trigger_file) : Z :=
  match th_tinfo with
  | Some tinfo => Z.land (tinfo (tf_sel h)) 0xffff
  | None => 2 ^ TDATA1_TYPE (tdata1_read h)
  end.

(** The loop, from index [i] on with [n] to go *)
Fixpoint dbtr_init_loop (n i : nat) (h : trigger_file) (d : dbtr_hart) : trigger_file * dbtr_hart :=
  match n with
  | O => (h, d)
  | S n =>
      if negb th_sdtrig then (h, d)
      else
        let h := tselect_write h i in
        if negb (Nat.eqb (tf_sel h) i) then (h, d)
        else
          let types := trigger_types_of h in
          let d := d <| dh_types ::= <[i := types]> |> in
          if types =? 2 ^ 0 then (h, d)
          else dbtr_init_loop n (S i) (hw_clear h i) (d <| dh_count := S i |>)
  end.

Definition dbtr_hart_init (s : dbtr) : dbtr :=
  let '(h, d) := dbtr_init_loop MAX_TRIGGERS 0 (db_hw s) dbtr_hart_zero in
  if Nat.eqb (dh_count d) 0 then dbtr_set s h d
  else dbtr_set s (tselect_write h 0) (d <| dh_has_tdata3 := th_has_tdata3 |>).

(** ** Switching domains *)

Definition mapped (d : dbtr_hart) (i : nat) : bool := truth (Z.land (trig_word (dh_state d) i) STATE_MAPPED).

Definition switch_out_body (hd : trigger_file * dbtr_hart) (i : nat) : trigger_file * dbtr_hart :=
  let '(h, d) := hd in
  if negb (mapped d i) then (h, d)
  else
    let h := tselect_write h i in
    let t := TData (tdata1_read h) (tdata2_read h) (if dh_has_tdata3 d then tdata3_read h else 0) in
    (hw_clear h i, d <| dh_saved ::= <[i := t]> |>).

Definition dbtr_hart_switch_out (s : dbtr) : dbtr :=
  let d := this_dbtr s in
  let '(h, d) := foldl switch_out_body (db_hw s, d) (seq 0 (dh_count d)) in
  dbtr_set s h d.

Definition switch_in_body (d : dbtr_hart) (h : trigger_file) (i : nat) : trigger_file :=
  if negb (mapped d i) then h
  else
    let t := dh_saved d !!! i in
    let h := hw_clear h i in
    let h := tdata2_write h (td2 t) in
    let h := if dh_has_tdata3 d then tdata3_write h (td3 t) else h in
    tdata1_write h (td1 t).

Definition dbtr_hart_switch_in (s : dbtr) (fresh : bool) : dbtr :=
  if fresh then dbtr_hart_init s
  else
    let d := this_dbtr s in
    dbtr_set s (foldl (switch_in_body d) (db_hw s) (seq 0 (dh_count d))) d.

(** ** The calls *)

Definition dbtr_num_triggers (s : dbtr) (tdata1 : Z) : Z :=
  let d := this_dbtr s in
  if negb (truth tdata1) then Z.of_nat (dh_count d)
  else if negb (truth (ty_s (type_of tdata1))) then 0
  else for_upto (dh_count d)
         (fun i n => uadd n (Z.land (Z.shiftr (trig_word (dh_types d) (Z.to_nat i)) (TDATA1_TYPE tdata1)) 1)) 0.

(** [sizeof(struct dbtr_entry)] *)
Definition entry_size : Z := 4 * REGBYTES.

Definition dbtr_set_shmem (smode_range_ok : Z -> Z -> bool) (s : dbtr) (lo hi flags : Z) : Z * dbtr :=
  let d := this_dbtr s in
  if truth flags then (SBI_ERR_INVALID_PARAM, s)
  else if (lo =? unot 0) && (hi =? unot 0)
  then (SBI_SUCCESS, dbtr_set s (db_hw s) (d <| dh_shmem := SHMEM_NONE |>))
  else if negb (IS_ALIGNED lo REGBYTES) then (SBI_ERR_INVALID_PARAM, s)
  else if truth hi || negb (smode_range_ok lo (umul (Z.of_nat (dh_count d)) entry_size))
  then (SBI_ERR_INVALID_ADDRESS, s)
  else (SBI_SUCCESS, dbtr_set s (db_hw s) (d <| dh_shmem := lo |>)).

Definition config_check (cfg : dbtr_entry) : Z :=
  let t := type_of (e_tdata1 cfg) in
  if negb (truth (ty_s t)) then SBI_ERR_NOT_SUPPORTED
  else if truth (Z.land (e_tdata1 cfg) TDATA1_DMODE) || truth (Z.land (e_tdata1 cfg) (ty_m t))
  then SBI_ERR_INVALID_PARAM
  else SBI_SUCCESS.

Definition hw_program (h : trigger_file) (d : dbtr_hart) (idx : nat) (cfg : dbtr_entry) : bool * trigger_file :=
  let h := hw_clear h idx in
  let h := tdata2_write h (e_tdata2 cfg) in
  if negb (dh_has_tdata3 d) && truth (e_tdata3 cfg) then (false, h)
  else
    let h := if dh_has_tdata3 d then tdata3_write h (e_tdata3 cfg) else h in
    let h := tdata1_write h (e_tdata1 cfg) in
    let got := tdata1_read h in
    if truth (Z.land (Z.lxor got (e_tdata1 cfg)) (unot (ty_hit (type_of (e_tdata1 cfg)))))
    then (false, hw_clear h idx)
    else (true, h).

Definition state_of (idx : nat) (tdata1 : Z) : Z :=
  let t := type_of tdata1 in
  let state := Z.lor (Z.lor STATE_MAPPED STATE_HAVE_HW) (ushl (Z.of_nat idx) STATE_HW_IDX_SHIFT) in
  let state := if truth (Z.land tdata1 (ty_u t)) then Z.lor state STATE_U else state in
  let state := if truth (Z.land tdata1 (ty_s t)) then Z.lor state STATE_S else state in
  let state := if truth (Z.land tdata1 (ty_vu t)) then Z.lor state STATE_VU else state in
  if truth (Z.land tdata1 (ty_vs t)) then Z.lor state STATE_VS else state.

(** The checks of [entries_get()]; the window is the caller's. *)
Definition entries_get (d : dbtr_hart) (count : Z) : Z :=
  if dh_shmem d =? SHMEM_NONE then SBI_ERR_NO_SHMEM
  else if Z.of_nat (dh_count d) <? count then SBI_ERR_BAD_RANGE
  else SBI_SUCCESS.

Definition read_body (d : dbtr_hart) (base : nat) (st : trigger_file * list dbtr_entry) (i : nat)
    : trigger_file * list dbtr_entry :=
  let '(h, out) := st in
  let h := tselect_write h (base + i) in
  (h, <[i := DbtrEntry (trig_word (dh_state d) (base + i)) (tdata1_read h) (tdata2_read h)
               (if dh_has_tdata3 d then tdata3_read h else 0)]> out).

Definition dbtr_read (s : dbtr) (base count : Z) (out : list dbtr_entry) : Z * dbtr * list dbtr_entry :=
  let d := this_dbtr s in
  let rc := entries_get d count in
  if truth rc then (rc, s, out)
  else if (Z.of_nat (dh_count d) <=? base) || (Z.of_nat (dh_count d) - base <? count)
  then (SBI_ERR_BAD_RANGE, s, out)
  else
    let '(h, out) := foldl (read_body d (Z.to_nat base)) (db_hw s, out) (seq 0 (Z.to_nat count)) in
    (SBI_SUCCESS, dbtr_set s h d, out).

(** Trigger [at] is free and can be of [cfg]'s type. *)
Definition takes (d : dbtr_hart) (taken : list bool) (at_ : nat) (cfg : dbtr_entry) : bool :=
  negb (mapped d at_) && negb (default false (taken !! at_)) &&
  truth (Z.land (Z.shiftr (trig_word (dh_types d) at_) (TDATA1_TYPE (e_tdata1 cfg))) 1).

Definition find_run (d : dbtr_hart) (cfg : list dbtr_entry) (len : nat) (taken : list bool) : option nat :=
  List.find (fun start => forallb (fun i => takes d taken (start + i) (cfg !!! i)) (seq 0 len))
    (seq 0 (S (dh_count d) - len)).

(** [for (len = 1; chained(cfg[i + len - 1].tdata1); len++)], on the entries
    from [i] on; past the last one the array holds zeros, or ends. *)
Fixpoint chain_len (cfg : list dbtr_entry) : nat :=
  match cfg with
  | [] => 1
  | e :: cfg => if chained (e_tdata1 e) then S (chain_len cfg) else 1
  end.

(** The first entry that cannot be installed, and why *)
Fixpoint install_check (i : nat) (cfg : list dbtr_entry) : option (nat * Z) :=
  match cfg with
  | [] => None
  | e :: rest =>
      let rc := config_check e in
      let rc := if negb (truth rc) && bool_decide (rest = []) && chained (e_tdata1 e)
                then SBI_ERR_INVALID_PARAM else rc in
      if truth rc then Some (i, rc) else install_check (S i) rest
  end.

Definition mark_taken (start : nat) (taken : list bool) (len : nat) : list bool :=
  foldl (fun taken k => <[(start + k)%nat := true]> taken) taken (seq 0 len).

(** Where each of the entries goes, or the first of the chain that has no
    place. Every round takes one entry at least: [fuel] rounds are enough for
    [fuel] entries. *)
Fixpoint install_place (fuel : nat) (d : dbtr_hart) (i : nat) (cfg : list dbtr_entry) (taken : list bool)
    : nat + list nat :=
  match fuel, cfg with
  | _, [] => inr []
  | O, _ => inl i
  | S fuel, _ =>
      let len := chain_len cfg in
      match find_run d cfg len taken with
      | None => inl i
      | Some start =>
          match install_place fuel d (i + len) (drop len cfg) (mark_taken start taken len) with
          | inl j => inl j
          | inr ws => inr (((fun k => (start + k)%nat) <$> seq 0 len) ++ ws)
          end
      end
  end.

(** [while (i--)]: the last one programmed first *)
Definition install_undo (hd : trigger_file * dbtr_hart) (w : nat) : trigger_file * dbtr_hart :=
  let '(h, d) := hd in (hw_clear h w, d <| dh_state ::= <[w := 0]> |>).

(** The index of the entry the hardware refused, if it did one *)
Fixpoint install_program (todo : list (nat * dbtr_entry)) (taken : list nat) (h : trigger_file) (d : dbtr_hart)
    : option nat * (trigger_file * dbtr_hart) :=
  match todo with
  | [] => (None, (h, d))
  | (w, e) :: todo =>
      let '(ok, h) := hw_program h d w e in
      if ok
      then install_program todo (w :: taken) h (d <| dh_state ::= <[w := state_of w (e_tdata1 e)]> |>)
      else (Some (length taken), foldl install_undo (h, d) taken)
  end.

(** The result, what [failed] is set to, the hart and the shared memory *)
Definition dbtr_install (s : dbtr) (count : Z) (mem : list dbtr_entry) : Z * Z * dbtr * list dbtr_entry :=
  let d := this_dbtr s in
  let rc := entries_get d count in
  if truth rc then (rc, 0, s, mem)
  else
    let cfg := take (Z.to_nat count) mem in
    match install_check 0 cfg with
    | Some (i, rc) => (rc, Z.of_nat i, s, mem)
    | None =>
        match install_place (length cfg) d 0 cfg (replicate MAX_TRIGGERS false) with
        | inl i => (SBI_ERR_FAILED, Z.of_nat i, s, mem)
        | inr where_ =>
            match install_program (zip where_ cfg) [] (db_hw s) d with
            | (Some i, (h, d)) => (SBI_ERR_NOT_SUPPORTED, Z.of_nat i, dbtr_set s h d, mem)
            | (None, (h, d)) =>
                (SBI_SUCCESS, 0, dbtr_set s h d,
                 zip_with (fun w e => e <| e_idx := Z.of_nat w |>) where_ cfg ++ drop (Z.to_nat count) mem)
            end
        end
    end.

Fixpoint dbtr_update_loop (i : nat) (cfgs : list dbtr_entry) (h : trigger_file) (d : dbtr_hart)
    : Z * Z * (trigger_file * dbtr_hart) :=
  match cfgs with
  | [] => (SBI_SUCCESS, 0, (h, d))
  | cfg :: cfgs =>
      let rc := config_check cfg in
      let idx := Z.to_nat (e_idx cfg) in
      if truth rc then (rc, Z.of_nat i, (h, d))
      else if Z.of_nat (dh_count d) <=? e_idx cfg then (SBI_ERR_INVALID_PARAM, Z.of_nat i, (h, d))
      else if negb (mapped d idx) then (SBI_ERR_FAILED, Z.of_nat i, (h, d))
      else
        let h := tselect_write h idx in
        let cur := tdata1_read h in
        if negb (TDATA1_TYPE cur =? TDATA1_TYPE (e_tdata1 cfg)) ||
           negb (Bool.eqb (chained cur) (chained (e_tdata1 cfg)))
        then (SBI_ERR_INVALID_PARAM, Z.of_nat i, (h, d))
        else
          let '(ok, h) := hw_program h d idx cfg in
          if negb ok then (SBI_ERR_NOT_SUPPORTED, Z.of_nat i, (h, d <| dh_state ::= <[idx := 0]> |>))
          else dbtr_update_loop (S i) cfgs h (d <| dh_state ::= <[idx := state_of idx (e_tdata1 cfg)]> |>)
  end.

Definition dbtr_update (s : dbtr) (count : Z) (mem : list dbtr_entry) : Z * Z * dbtr :=
  let d := this_dbtr s in
  let rc := entries_get d count in
  if truth rc then (rc, 0, s)
  else
    let '(rc, failed, (h, d)) := dbtr_update_loop 0 (take (Z.to_nat count) mem) (db_hw s) d in
    (rc, failed, dbtr_set s h d).

(** ** Sets of triggers: [base] and a mask *)

Definition in_mask (mask i : Z) : bool := truth (Z.land mask (BIT i)).

Definition set_op_refuses (d : dbtr_hart) (base mask : Z) (i : nat) : bool :=
  let idx := uadd base (Z.of_nat i) in
  in_mask mask (Z.of_nat i) &&
  ((idx <? base) || (Z.of_nat (dh_count d) <=? idx) || negb (mapped d (Z.to_nat idx))).

(** The modes [state] remembers, where a trigger of type [t] has them *)
Definition state_modes (state : Z) (t : trigger_type) : Z :=
  let modes := Z.lor 0 (if truth (Z.land state STATE_U) then ty_u t else 0) in
  let modes := Z.lor modes (if truth (Z.land state STATE_S) then ty_s t else 0) in
  let modes := Z.lor modes (if truth (Z.land state STATE_VU) then ty_vu t else 0) in
  Z.lor modes (if truth (Z.land state STATE_VS) then ty_vs t else 0).

Definition set_op_body (base mask : Z) (op : set_op) (hd : trigger_file * dbtr_hart) (i : nat)
    : trigger_file * dbtr_hart :=
  let '(h, d) := hd in
  let idx := Z.to_nat (uadd base (Z.of_nat i)) in
  if negb (in_mask mask (Z.of_nat i)) then (h, d)
  else
    match op with
    | SET_UNINSTALL => (hw_clear h idx, d <| dh_state ::= <[idx := 0]> |>)
    | _ =>
        let h := tselect_write h idx in
        let tdata1 := tdata1_read h in
        let modes := match op with
                     | SET_ENABLE => state_modes (trig_word (dh_state d) idx) (type_of tdata1)
                     | _ => 0
                     end in
        (tdata1_write h (Z.lor (Z.land tdata1 (unot (mode_bits tdata1))) modes), d)
    end.

Definition set_op_apply (s : dbtr) (base mask : Z) (op : set_op) : Z * dbtr :=
  let d := this_dbtr s in
  if existsb (set_op_refuses d base mask) (seq 0 (Z.to_nat XLEN)) then (SBI_ERR_INVALID_PARAM, s)
  else
    let '(h, d) := foldl (set_op_body base mask op) (db_hw s, d) (seq 0 (Z.to_nat XLEN)) in
    (SBI_SUCCESS, dbtr_set s h d).

Definition dbtr_uninstall (s : dbtr) (base mask : Z) : Z * dbtr := set_op_apply s base mask SET_UNINSTALL.
Definition dbtr_enable (s : dbtr) (base mask : Z) : Z * dbtr := set_op_apply s base mask SET_ENABLE.
Definition dbtr_disable (s : dbtr) (base mask : Z) : Z * dbtr := set_op_apply s base mask SET_DISABLE.

End Dbtr.
