(* ===== verification/DbtrProps.v ===== *)
(** What the debug triggers are worth to the domains: the laws of the
    hardware, the invariant of a hart's triggers, and the theorems. *)

From stdpp Require Import relations.
From S2P Require Import Prelude Arch Dbtr.

#[local] Open Scope Z_scope.
#[local] Set Warnings "-clear-no-such-hyp".

(** What the registers of a trigger can hold *)
Class TriggerLegal := th_legal : nat -> tdata -> Prop.

Section Laws.
Context {AR : Arch} {TH : TriggerHw} {MT : MaxTriggers}.

(** Nothing but a type: the trigger matches in no mode. *)
Definition off (v : Z) : Prop := Z.land v type_mask = v.

(** A type the monitor knows, out of M-mode, and not a debugger's *)
Definition quiet (v : Z) : Prop :=
  truth (ty_s (type_of v)) = true /\ Z.land v TDATA1_DMODE = 0 /\ Z.land v (ty_m (type_of v)) = 0.

(** There is a trigger here, as [dbtr_hart_init] finds out. *)
Definition usable (i : nat) (t : tdata) : bool :=
  match th_tinfo with
  | Some tinfo => negb (Z.land (tinfo i) 0xffff =? 1)
  | None => negb (TDATA1_TYPE (td1 t) =? 0)
  end.

(** Trigger [i], off, given the three values in the code's order *)
Definition given (i : nat) (t : tdata) (v : tdata) : tdata :=
  let t := t <| td2 := th_tdata2 i t (td2 v) |> in
  let t := if th_has_tdata3 then t <| td3 := th_tdata3 i t (td3 v) |> else t in
  th_tdata1 i t (td1 v).

End Laws.

(** The debug specification's rules, as far as the code relies on them:
    tselect takes every index that has a trigger, and where there is none
    tinfo says so or tdata1 has type 0; registers hold what they can hold; a
    trigger takes zero or, failing that, its type alone; a write that keeps
    the type and leaves dmode and m clear finds them clear; a trigger that is
    off takes back what it held before; and without tinfo a type is fixed. *)
Class TriggerLaws {AR : Arch} {TH : TriggerHw} {TL : TriggerLegal} : Prop := {
  tl_select i : (i < th_count)%nat -> th_tselect i = i;
  tl_select_out i : (th_count <= i)%nat -> th_tselect i = i ->
    match th_tinfo with Some tinfo => Z.land (tinfo i) 0xffff = 1 | None => True end;
  tl_ulong i t : th_legal i t -> is_ulong (td1 t);
  tl_no_tdata3 i t : th_has_tdata3 = false -> th_legal i t -> td3 t = 0;
  tl_write1 i t v : th_legal i t -> is_ulong v -> th_legal i (th_tdata1 i t v);
  tl_write2 i t v : th_legal i t -> th_legal i (t <| td2 := th_tdata2 i t v |>);
  tl_write3 i t v : th_has_tdata3 = true -> th_legal i t -> th_legal i (t <| td3 := th_tdata3 i t v |>);
  tl_off i t : th_legal i t -> td1 (th_tdata1 i t 0) <> 0 ->
    td1 (th_tdata1 i (th_tdata1 i t 0) (Z.land (td1 (th_tdata1 i t 0)) type_mask)) =
    Z.land (td1 (th_tdata1 i t 0)) type_mask;
  tl_quiet i t v : th_legal i t -> is_ulong v -> TDATA1_TYPE v = TDATA1_TYPE (td1 t) -> quiet v ->
    quiet (td1 (th_tdata1 i t v));
  tl_back i t v : th_legal i t -> off (td1 t) -> th_legal i v -> given i t v = v;
  tl_fixed i t v : th_tinfo = None -> TDATA1_TYPE (td1 (th_tdata1 i t v)) = TDATA1_TYPE (td1 t);
}.

Section Bits.
Context {AR : Arch}.

Lemma type_mask_land (v : Z) : is_ulong v -> TDATA1_TYPE v = ushr (Z.land v type_mask) TDATA1_TYPE_SHIFT.
Proof.
  intros Hv. unfold TDATA1_TYPE, ushr, type_mask, TDATA1_TYPE_SHIFT, ushl, wrap.
  pose proof XLEN_bounds as HX. unfold is_ulong in Hv.
  apply Z.bits_inj'. intros b Hb. rewrite !Z.shiftr_spec, Z.land_spec by lia.
  rewrite testbit_mod_pow2, Z.shiftl_spec by lia.
  replace (b + (XLEN - 4) - (XLEN - 4)) with b by lia.
  destruct (decide (b < 4)) as [Hlt|Hge].
  - replace (b + (XLEN - 4) <? XLEN) with true by (symmetry; apply Z.ltb_lt; lia).
    replace (Z.testbit 15 b) with true; [by rewrite andb_true_r|].
    change 15 with (Z.ones 4). by rewrite Z.ones_spec_low by lia.
  - rewrite (testbit_high XLEN v) by lia. done.
Qed.

(** Two values that differ in some bits only agree on any others. *)
Lemma agree_land (a b hit mask : Z) :
  is_ulong a -> is_ulong b -> Z.land (Z.lxor a b) (unot hit) = 0 -> Z.land hit mask = 0 ->
  Z.land a mask = Z.land b mask.
Proof.
  intros Ha Hb Hd Hm.
  assert (is_ulong (Z.lxor a b)) as Hx.
  { unfold is_ulong in *. apply bounded_iff_bits; [pose proof XLEN_bounds; lia|].
    split; [|apply Z.lxor_nonneg; lia].
    intros i Hi. rewrite Z.lxor_spec, !(testbit_high XLEN _) by lia. done. }
  rewrite land_unot in Hd by done. apply Z.bits_inj'. intros i Hi.
  pose proof (f_equal (fun z => Z.testbit z i) Hd) as Hdi.
  pose proof (f_equal (fun z => Z.testbit z i) Hm) as Hmi. cbn in Hdi, Hmi.
  rewrite Z.ldiff_spec, Z.lxor_spec, Z.bits_0 in Hdi. rewrite Z.land_spec, Z.bits_0 in Hmi.
  rewrite !Z.land_spec.
  destruct (Z.testbit a i), (Z.testbit b i), (Z.testbit hit i), (Z.testbit mask i); done.
Qed.

(** A value with other modes is otherwise the same. *)
Lemma modes_land (v modes modes' mask : Z) :
  is_ulong v -> Z.land modes mask = 0 -> Z.land modes' mask = 0 ->
  Z.land (Z.lor (Z.land v (unot modes)) modes') mask = Z.land v mask.
Proof.
  intros Hv Hm Hm'. rewrite land_unot by done. apply Z.bits_inj'. intros i Hi.
  pose proof (f_equal (fun z => Z.testbit z i) Hm) as Hmi.
  pose proof (f_equal (fun z => Z.testbit z i) Hm') as Hmi'. cbn in Hmi, Hmi'.
  rewrite Z.land_spec, Z.bits_0 in Hmi, Hmi'. rewrite !Z.land_spec, Z.lor_spec, Z.ldiff_spec.
  destruct (Z.testbit v i), (Z.testbit modes i), (Z.testbit modes' i), (Z.testbit mask i); done.
Qed.

(** The fields of [trigger_types] are apart: neither the hit bits nor the
    modes are part of the type, dmode, m or the chain bit. *)
Definition type_fields (ty : Z) (bits : Z) : Prop :=
  Z.land bits type_mask = 0 /\ Z.land bits TDATA1_DMODE = 0 /\
  Z.land bits (ty_m (trigger_types ty)) = 0 /\ Z.land bits (ty_chain (trigger_types ty)) = 0.

Ltac by_type :=
  intros; unfold type_fields, trigger_types;
  repeat match goal with |- context [if ?b then _ else _] => destruct b end;
  destruct AR; split_and!; reflexivity.

Lemma hit_apart (ty : Z) : type_fields ty (ty_hit (trigger_types ty)).
Proof. by_type. Qed.
Lemma u_apart (ty : Z) : type_fields ty (ty_u (trigger_types ty)).
Proof. by_type. Qed.
Lemma s_apart (ty : Z) : type_fields ty (ty_s (trigger_types ty)).
Proof. by_type. Qed.
Lemma vu_apart (ty : Z) : type_fields ty (ty_vu (trigger_types ty)).
Proof. by_type. Qed.
Lemma vs_apart (ty : Z) : type_fields ty (ty_vs (trigger_types ty)).
Proof. by_type. Qed.
Lemma zero_apart (ty : Z) : type_fields ty 0.
Proof. done. Qed.

Lemma apart_lor (ty a b : Z) : type_fields ty a -> type_fields ty b -> type_fields ty (Z.lor a b).
Proof.
  intros (?&?&?&?) (?&?&?&?). unfold type_fields.
  rewrite !Z.land_lor_distr_l. split_and!; by repeat match goal with H : Z.land _ _ = 0 |- _ => rewrite H; clear H end.
Qed.

Lemma mode_bits_apart (v : Z) : type_fields (TDATA1_TYPE v) (mode_bits v).
Proof.
  unfold mode_bits, type_of.
  auto using apart_lor, u_apart, s_apart, vu_apart, vs_apart.
Qed.

Lemma state_modes_apart (state ty : Z) : type_fields ty (state_modes state (trigger_types ty)).
Proof.
  unfold state_modes. repeat apply apart_lor; repeat case_match;
    auto using u_apart, s_apart, vu_apart, vs_apart, zero_apart.
Qed.

(** Values that agree on type, dmode and m are quiet together. *)
Lemma quiet_agree (a b : Z) :
  is_ulong a -> is_ulong b ->
  Z.land a type_mask = Z.land b type_mask -> Z.land a TDATA1_DMODE = Z.land b TDATA1_DMODE ->
  Z.land a (ty_m (type_of b)) = Z.land b (ty_m (type_of b)) ->
  quiet b -> TDATA1_TYPE a = TDATA1_TYPE b /\ quiet a.
Proof.
  intros Ha Hb Ht Hd Hm (Hs & Hqd & Hqm).
  assert (TDATA1_TYPE a = TDATA1_TYPE b) as E by (rewrite !type_mask_land by done; by rewrite Ht).
  split; [done|]. unfold quiet, type_of in *. rewrite E, Hd. by rewrite Hm.
Qed.

Lemma quiet_got (got v : Z) :
  is_ulong got -> is_ulong v -> Z.land (Z.lxor got v) (unot (ty_hit (type_of v))) = 0 -> quiet v ->
  TDATA1_TYPE got = TDATA1_TYPE v /\ quiet got.
Proof.
  intros Hg Hv Hx Hq. destruct (hit_apart (TDATA1_TYPE v)) as (H1 & H2 & H3 & _).
  apply quiet_agree; try done; by apply (agree_land _ _ (ty_hit (type_of v))).
Qed.

Lemma quiet_modes (v modes : Z) :
  is_ulong v -> is_ulong (Z.lor (Z.land v (unot (mode_bits v))) modes) ->
  type_fields (TDATA1_TYPE v) modes -> quiet v ->
  TDATA1_TYPE (Z.lor (Z.land v (unot (mode_bits v))) modes) = TDATA1_TYPE v /\
  quiet (Z.lor (Z.land v (unot (mode_bits v))) modes).
Proof.
  intros Hv Hn (H1 & H2 & H3 & _) Hq. destruct (mode_bits_apart v) as (M1 & M2 & M3 & _).
  apply quiet_agree; try done; by apply modes_land.
Qed.

Lemma config_quiet (e : dbtr_entry) : config_check e = SBI_SUCCESS <-> quiet (e_tdata1 e).
Proof.
  unfold config_check, quiet. destruct (truth (ty_s _)); cbn [negb]; [|split; [done|by intros [? _]]].
  unfold truth. destruct (Z.eqb_spec (Z.land (e_tdata1 e) TDATA1_DMODE) 0),
    (Z.eqb_spec (Z.land (e_tdata1 e) (ty_m (type_of (e_tdata1 e)))) 0); cbn [negb orb]; split; naive_solver.
Qed.

End Bits.

(** ** Triggers one at a time

    An operation on the file selects a trigger and changes that one. *)

Section Triggers.
Context {AR : Arch} {TH : TriggerHw} {MT : MaxTriggers} {TL : TriggerLegal} {LW : TriggerLaws}.
Implicit Types (h : trigger_file) (d : dbtr_hart) (t : tdata) (i : nat).

Definition put h i t : trigger_file := TriggerFile (<[i := t]> (tf_regs h)) i.

Definition cleared i t : tdata :=
  let t := th_tdata1 i t 0 in
  let t := if truth (td1 t) then th_tdata1 i t (Z.land (td1 t) type_mask) else t in
  t <| td2 := th_tdata2 i t 0 |>.

Definition programmed (has_tdata3 : bool) i t (cfg : dbtr_entry) : bool * tdata :=
  let t := cleared i t in
  let t := t <| td2 := th_tdata2 i t (e_tdata2 cfg) |> in
  if negb has_tdata3 && truth (e_tdata3 cfg) then (false, t)
  else
    let t := if has_tdata3 then t <| td3 := th_tdata3 i t (e_tdata3 cfg) |> else t in
    let t := th_tdata1 i t (e_tdata1 cfg) in
    if truth (Z.land (Z.lxor (td1 t) (e_tdata1 cfg)) (unot (ty_hit (type_of (e_tdata1 cfg)))))
    then (false, cleared i t) else (true, t).

Definition file_ok h : Prop :=
  length (tf_regs h) = th_count /\ forall i t, tf_regs h !! i = Some t -> th_legal i t.

Section File.
Context (h : trigger_file) (i : nat) (Hlen : length (tf_regs h) = th_count) (Hi : (i < th_count)%nat).

Lemma select_put : tselect_write h i = put h i (tf_regs h !!! i).
Proof using LW Hlen Hi.
  unfold tselect_write, put. rewrite list_insert_id by (apply list_lookup_lookup_total_lt; lia).
  cbv [field_update]. by rewrite tl_select.
Qed.

Lemma selected_put t : selected (put h i t) = t.
Proof using Hlen Hi. unfold selected, put; cbn [tf_regs tf_sel]. apply list_lookup_total_insert_eq. lia. Qed.

Lemma update_put t (f : tdata -> tdata) : selected_update (put h i t) f = put h i (f t).
Proof using Hlen Hi.
  change (TriggerFile (alter f i (<[i := t]> (tf_regs h))) i = TriggerFile (<[i := f t]> (tf_regs h)) i). f_equal.
  apply list_eq. intros j. destruct (decide (j = i)) as [->|Hne].
  - rewrite list_lookup_alter_eq, !list_lookup_insert_eq by lia. done.
  - rewrite list_lookup_alter_ne, !list_lookup_insert_ne by done. done.
Qed.

Lemma write1_put t (v : Z) : tdata1_write (put h i t) v = put h i (th_tdata1 i t v).
Proof using Hlen Hi. unfold tdata1_write. by rewrite update_put. Qed.
Lemma write2_put t (v : Z) : tdata2_write (put h i t) v = put h i (t <| td2 := th_tdata2 i t v |>).
Proof using Hlen Hi. unfold tdata2_write. by rewrite update_put. Qed.
Lemma write3_put t (v : Z) : tdata3_write (put h i t) v = put h i (t <| td3 := th_tdata3 i t v |>).
Proof using Hlen Hi. unfold tdata3_write. by rewrite update_put. Qed.
Lemma read1_put t : tdata1_read (put h i t) = td1 t.
Proof using Hlen Hi. unfold tdata1_read. by rewrite selected_put. Qed.

Lemma hw_clear_put t : hw_clear (put h i t) i = put h i (cleared i t).
Proof using LW Hlen Hi.
  unfold hw_clear. replace (tselect_write (put h i t) i) with (put h i t)
    by (unfold tselect_write, put; cbv [field_update]; by rewrite tl_select by done).
  rewrite write1_put, read1_put. unfold cleared. cbv zeta.
  destruct (truth _); by rewrite ?write1_put, ?write2_put.
Qed.

Lemma hw_clear_eq : hw_clear h i = put h i (cleared i (tf_regs h !!! i)).
Proof using LW Hlen Hi.
  rewrite <- hw_clear_put, <- select_put. unfold hw_clear.
  by replace (tselect_write (tselect_write h i) i) with (tselect_write h i).
Qed.

Lemma hw_program_eq (d : dbtr_hart) (cfg : dbtr_entry) :
  hw_program h d i cfg =
  let '(ok, t) := programmed (dh_has_tdata3 d) i (tf_regs h !!! i) cfg in (ok, put h i t).
Proof using LW Hlen Hi.
  unfold hw_program, programmed. rewrite hw_clear_eq, write2_put.
  destruct (negb _ && _); [done|].
  destruct (dh_has_tdata3 d); rewrite ?write3_put, write1_put, read1_put;
    destruct (truth _); by rewrite ?hw_clear_put.
Qed.

End File.

Lemma put_regs h i j t :
  length (tf_regs h) = th_count -> (i < th_count)%nat ->
  tf_regs (put h i t) !! j = if decide (i = j) then Some t else tf_regs h !! j.
Proof.
  intros Hlen Hi. unfold put; cbn [tf_regs]. case_decide; subst.
  - apply list_lookup_insert_eq; lia.
  - by apply list_lookup_insert_ne.
Qed.

Lemma file_ok_get h i : file_ok h -> (i < th_count)%nat ->
  tf_regs h !! i = Some (tf_regs h !!! i) /\ th_legal i (tf_regs h !!! i).
Proof.
  intros [Hlen Hl] Hi. assert (tf_regs h !! i = Some (tf_regs h !!! i)) as E
    by (apply list_lookup_lookup_total_lt; lia). eauto.
Qed.

Lemma file_ok_put h i t : file_ok h -> (i < th_count)%nat -> th_legal i t -> file_ok (put h i t).
Proof.
  intros [Hlen Hl] Hi Ht. split; [unfold put; cbn [tf_regs]; by rewrite length_insert|].
  intros j t'. rewrite put_regs by done. case_decide; [by intros [= <-]; subst|apply Hl].
Qed.

(** ** What clearing and programming leave *)

Lemma is_ulong_0 : is_ulong 0.
Proof. unfold is_ulong. pose proof pow_XLEN_pos. lia. Qed.

Lemma type_mask_ulong (v : Z) : is_ulong v -> is_ulong (Z.land v type_mask).
Proof. intros Hv. apply is_ulong_land; [done|]. unfold type_mask, ushl. apply wrap_range. Qed.

Lemma off_0 : off 0.
Proof. done. Qed.

Lemma off_land (v : Z) : off (Z.land v type_mask).
Proof. unfold off. by rewrite <- Z.land_assoc, Z.land_diag. Qed.

Lemma cleared_legal i t : th_legal i t -> th_legal i (cleared i t).
Proof.
  intros Ht. unfold cleared. cbv zeta.
  assert (th_legal i (th_tdata1 i t 0)) as H1 by (apply tl_write1; [done|apply is_ulong_0]).
  apply tl_write2. case_match; [|done]. apply tl_write1; [done|]. by apply type_mask_ulong, (tl_ulong i).
Qed.

Lemma cleared_off i t : th_legal i t -> off (td1 (cleared i t)).
Proof.
  intros Ht. unfold cleared. cbv zeta. cbv [field_update td1].
  change (off (td1 (if truth (td1 (th_tdata1 i t 0))
    then th_tdata1 i (th_tdata1 i t 0) (Z.land (td1 (th_tdata1 i t 0)) type_mask) else th_tdata1 i t 0))).
  destruct (truth _) eqn:E.
  - apply truth_true in E. rewrite (tl_off i t) by done. apply off_land.
  - unfold truth in E. apply negb_false_iff, Z.eqb_eq in E. rewrite E. apply off_0.
Qed.

Lemma usable_td1 i t t' : TDATA1_TYPE (td1 t') = TDATA1_TYPE (td1 t) -> usable i t' = usable i t.
Proof. intros E. unfold usable. by rewrite E. Qed.

Lemma usable_write1 i t v : usable i (th_tdata1 i t v) = usable i t.
Proof. unfold usable. destruct th_tinfo eqn:E; [done|]. by rewrite tl_fixed. Qed.

Lemma cleared_usable i t : usable i (cleared i t) = usable i t.
Proof.
  unfold cleared. cbv zeta. rewrite (usable_td1 i (if truth _ then _ else _)) by done.
  case_match; by rewrite !usable_write1.
Qed.

Lemma programmed_spec has3 i t cfg ok t' :
  (has3 = true -> th_has_tdata3 = true) ->
  th_legal i t -> is_ulong (e_tdata1 cfg) -> programmed has3 i t cfg = (ok, t') ->
  th_legal i t' /\ usable i t' = usable i t /\
  (ok = false -> off (td1 t')) /\
  (ok = true -> Z.land (Z.lxor (td1 t') (e_tdata1 cfg)) (unot (ty_hit (type_of (e_tdata1 cfg)))) = 0).
Proof.
  intros H3 Ht Hv. unfold programmed. cbv zeta.
  set (t1 := (cleared i t) <| td2 := th_tdata2 i (cleared i t) (e_tdata2 cfg) |>).
  assert (th_legal i t1) as L1 by (apply tl_write2, cleared_legal, Ht).
  assert (usable i t1 = usable i t) as U1 by (etrans; [by apply usable_td1|apply cleared_usable]).
  assert (off (td1 t1)) as O1 by (apply (cleared_off i t Ht)).
  clearbody t1. destruct (negb has3 && _); [intros [= <- <-]; by split_and!|].
  set (t2 := if has3 then _ else _).
  assert (th_legal i t2 /\ usable i t2 = usable i t) as [L2 U2].
  { subst t2. destruct has3; [|done]. split; [by apply tl_write3; [apply H3|]|].
    etrans; [by apply usable_td1|done]. }
  clearbody t2. assert (th_legal i (th_tdata1 i t2 (e_tdata1 cfg))) as L3 by by apply tl_write1.
  destruct (truth _) eqn:E; intros [= <- <-].
  - split_and!; [by apply cleared_legal| |intros _; by apply cleared_off|done].
    by rewrite cleared_usable, usable_write1.
  - unfold truth in E. apply negb_false_iff, Z.eqb_eq in E.
    split_and!; [done|by rewrite usable_write1|done|done].
Qed.

End Triggers.
