(* ===== verification/DbtrInvariant.v ===== *)
(** The invariant of a hart's triggers, and what setting up and installing do
    to it ([arch/riscv/runtime/dbtr.c]). *)

From stdpp Require Import relations.
From S2P Require Import Prelude Arch Dbtr DbtrProps.

#[local] Open Scope Z_scope.
#[local] Set Warnings "-clear-no-such-hyp".

Section Invariant.
Context {AR : Arch} {TH : TriggerHw} {MT : MaxTriggers} {TL : TriggerLegal} {LW : TriggerLaws}.
Implicit Types (h : trigger_file) (d : dbtr_hart) (t : tdata) (i n : nat) (s : dbtr).

(** The triggers [dbtr_hart_init] finds: up to the first that is none *)
Fixpoint count_from n i (regs : list tdata) : nat :=
  match n with
  | O => i
  | S n =>
      if th_sdtrig && Nat.eqb (th_tselect i) i && usable i (regs !!! i)
      then count_from n (S i) regs else i
  end.
Definition trigger_count (regs : list tdata) : nat := count_from MAX_TRIGGERS 0 regs.

(** A slot of the domain: the triggers of the hart, or never set up *)
Record slot_ok (N : nat) d : Prop := {
  so_count : dh_count d = N \/ dh_count d = O;
  so_state : length (dh_state d) = MAX_TRIGGERS;
  so_saved : length (dh_saved d) = MAX_TRIGGERS;
  so_mapped i : mapped d i = true -> (i < dh_count d)%nat;
  so_free i : mapped d i = false -> trig_word (dh_state d) i = 0;
  so_tdata3 : dh_has_tdata3 d = true -> th_has_tdata3 = true;
  so_tdata3' : dh_count d <> O -> dh_has_tdata3 d = th_has_tdata3;
}.

(** What is in [saved] is a trigger's, and quiet. *)
Definition saved_ok d : Prop :=
  forall i, mapped d i = true -> th_legal i (dh_saved d !!! i) /\ quiet (td1 (dh_saved d !!! i)).

(** The triggers of the running domain are quiet, the others off. *)
Record running_ok (N : nat) h d : Prop := {
  ro_file : file_ok h;
  ro_count : trigger_count (tf_regs h) = N;
  ro_slot : slot_ok N d;
  ro_quiet i t : tf_regs h !! i = Some t -> if mapped d i then quiet (td1 t) else off (td1 t);
}.

(** The hart between two operations *)
Record hart_ok (N : nat) s : Prop := {
  ho_running : running_ok N (db_hw s) (this_dbtr s);
  ho_others k : k <> db_dom s -> slot_ok N (db_slots s k) /\ saved_ok (db_slots s k);
}.

Lemma dbtr_set_this s h d : this_dbtr (dbtr_set s h d) = d.
Proof. unfold this_dbtr, dbtr_set. cbv [field_update db_slots db_dom]. destruct s. by rewrite decide_True. Qed.
Lemma dbtr_set_other s h d k : k <> db_dom s -> db_slots (dbtr_set s h d) k = db_slots s k.
Proof. intros Hk. unfold dbtr_set. cbv [field_update db_slots]. destruct s. by rewrite decide_False. Qed.

Lemma count_from_ge n i regs : (i <= count_from n i regs)%nat.
Proof. revert i. induction n as [|n IH]; intros i; cbn; [lia|]. case_match; [specialize (IH (S i)); lia|lia]. Qed.

Lemma count_from_max n i regs : (count_from n i regs <= i + n)%nat.
Proof. revert i. induction n as [|n IH]; intros i; cbn; [lia|]. case_match; [specialize (IH (S i)); lia|lia]. Qed.

Lemma count_from_ext n i (regs regs' : list tdata) :
  (forall j, usable j (regs !!! j) = usable j (regs' !!! j)) -> count_from n i regs = count_from n i regs'.
Proof. intros E. revert i. induction n as [|n IH]; intros i; cbn; [done|]. by rewrite E, IH. Qed.

Lemma select_none i : (th_count <= i)%nat -> th_tselect i = i -> usable i (TData 0 0 0) = false.
Proof.
  intros Hi Hs. pose proof (tl_select_out i Hi Hs) as H. unfold usable.
  destruct th_tinfo; [by rewrite H|]. unfold TDATA1_TYPE, ushr. cbn [td1]. by rewrite Z.shiftr_0_l.
Qed.

Lemma count_from_inside n i regs :
  length regs = th_count -> (i <= th_count)%nat -> (count_from n i regs <= th_count)%nat.
Proof.
  intros Hlen. revert i. induction n as [|n IH]; intros i Hi; cbn; [lia|].
  destruct (th_sdtrig && _ && _) eqn:E; [|lia]. bool_prop.
  destruct (decide (i < th_count)%nat) as [Hlt|Hge]; [apply IH; lia|]. exfalso.
  assert (regs !!! i = TData 0 0 0) as Hr by (rewrite list_lookup_total_alt, lookup_ge_None_2 by lia; done).
  rewrite Hr, select_none in * by (try lia; by apply Nat.eqb_eq). done.
Qed.

Lemma trigger_count_bounds regs :
  length regs = th_count -> (trigger_count regs <= MAX_TRIGGERS /\ trigger_count regs <= th_count)%nat.
Proof.
  intros Hlen. unfold trigger_count. split; [apply count_from_max|]. apply count_from_inside; [done|lia].
Qed.

Lemma put_usable h i t j :
  length (tf_regs h) = th_count -> (i < th_count)%nat -> usable i t = usable i (tf_regs h !!! i) ->
  usable j (tf_regs (put h i t) !!! j) = usable j (tf_regs h !!! j).
Proof.
  intros Hlen Hi E. rewrite !list_lookup_total_alt, put_regs by done.
  case_decide; subst; [by rewrite <- list_lookup_total_alt|done].
Qed.

Lemma trigger_count_put h i t :
  length (tf_regs h) = th_count -> (i < th_count)%nat -> usable i t = usable i (tf_regs h !!! i) ->
  trigger_count (tf_regs (put h i t)) = trigger_count (tf_regs h).
Proof. intros Hlen Hi E. apply count_from_ext. intros j. by apply put_usable. Qed.

(** ** Setting up *)

(** Every step of the loop leaves the types of the triggers alone, and clears
    the triggers it passes. *)
Lemma types_of_usable h i :
  file_ok h -> tf_sel h = i -> (trigger_types_of h =? 2 ^ 0) = negb (usable i (tf_regs h !!! i)).
Proof.
  intros [Hlen Hl] <-. unfold trigger_types_of, usable, tdata1_read, selected.
  destruct th_tinfo; [by rewrite negb_involutive|].
  set (t := tf_regs h !!! tf_sel h).
  assert (is_ulong (td1 t)) as Hu.
  { subst t. rewrite list_lookup_total_alt. destruct (tf_regs h !! tf_sel h) eqn:E; cbn [default].
    - eapply tl_ulong, Hl, E.
    - apply is_ulong_0. }
  rewrite negb_involutive.
  pose proof (ushr_range (td1 t) TDATA1_TYPE_SHIFT) as Hr. unfold TDATA1_TYPE.
  assert (0 <= ushr (td1 t) TDATA1_TYPE_SHIFT) as H0.
  { unfold TDATA1_TYPE_SHIFT in *. pose proof XLEN_bounds. destruct Hr; [lia|done|done]. }
  destruct (Z.eqb_spec (ushr (td1 t) TDATA1_TYPE_SHIFT) 0) as [->|Hne]; [done|].
  apply Z.eqb_neq. pose proof (Z.pow_gt_1 2 (ushr (td1 t) TDATA1_TYPE_SHIFT)). lia.
Qed.

Lemma init_loop_spec n i h d :
  file_ok h -> dh_count d = i -> (i <= th_count)%nat ->
  let '(h', d') := dbtr_init_loop n i h d in
  let N := count_from n i (tf_regs h) in
  file_ok h' /\ (forall j, usable j (tf_regs h' !!! j) = usable j (tf_regs h !!! j)) /\
  (forall j, (j < i \/ N <= j)%nat -> tf_regs h' !! j = tf_regs h !! j) /\
  (forall j, (i <= j < N)%nat -> off (td1 (tf_regs h' !!! j))) /\
  dh_count d' = N /\ dh_state d' = dh_state d /\ dh_saved d' = dh_saved d /\
  dh_has_tdata3 d' = dh_has_tdata3 d.
Proof.
  revert i h d. induction n as [|n IH]; intros i h d Hf Hc Hi; cbn [dbtr_init_loop count_from].
  { split_and!; try done; lia. }
  destruct th_sdtrig; cbn [negb andb]; [|split_and!; try done; lia].
  change (tf_sel (tselect_write h i)) with (th_tselect i).
  destruct (Nat.eqb_spec (th_tselect i) i) as [Hs|Hs]; cbn [negb andb]; [|split_and!; try done; lia].
  rewrite (types_of_usable (tselect_write h i) i) by done.
  change (tf_regs (tselect_write h i)) with (tf_regs h).
  destruct (usable i (tf_regs h !!! i)) eqn:Hu; cbn [negb]; [|split_and!; try done; lia].
  assert (i < th_count)%nat as Hlt.
  { destruct (decide (i < th_count)%nat) as [|Hge]; [done|exfalso].
    assert (tf_regs h !!! i = TData 0 0 0) as Hr
      by (rewrite list_lookup_total_alt, lookup_ge_None_2 by (destruct Hf; lia); done).
    rewrite Hr, select_none in Hu by (done || lia). done. }
  destruct Hf as [Hlen Hl] eqn:Ef; clear Ef.
  destruct (file_ok_get h i Hf Hlt) as [Hg Hleg].
  rewrite (hw_clear_eq (tselect_write h i) i) by done.
  change (put (tselect_write h i) i (cleared i (tf_regs (tselect_write h i) !!! i)))
    with (put h i (cleared i (tf_regs h !!! i))).
  set (h1 := put h i (cleared i (tf_regs h !!! i))).
  set (d1 := (d <| dh_types ::= _ |>) <| dh_count := S i |>).
  assert (file_ok h1) as Hf1 by (apply file_ok_put; [done..|by apply cleared_legal]).
  assert (forall j, usable j (tf_regs h1 !!! j) = usable j (tf_regs h !!! j)) as Hu1
    by (intros j; apply put_usable; [done..|apply cleared_usable]).
  specialize (IH (S i) h1 d1 Hf1 eq_refl ltac:(lia)).
  destruct (dbtr_init_loop n (S i) h1 d1) as [h' d']. cbv zeta in IH |- *.
  rewrite (count_from_ext n (S i) (tf_regs h1) (tf_regs h) Hu1) in IH.
  destruct IH as (F & U & Hout & Hin & C & ? & ? & ?). pose proof (count_from_ge n (S i) (tf_regs h)).
  split_and!; try done.
  - intros j. by rewrite U, Hu1.
  - intros j Hj. rewrite Hout by lia. subst h1. rewrite put_regs by done. case_decide; [lia|done].
  - intros j Hj. destruct (decide (j = i)) as [->|Hne]; [|apply Hin; lia].
    rewrite list_lookup_total_alt, Hout by lia. subst h1. rewrite put_regs by done.
    rewrite decide_True by done. by apply cleared_off.
Qed.

Lemma running_off N h d :
  file_ok h -> trigger_count (tf_regs h) = N -> slot_ok N d -> (forall i, mapped d i = false) ->
  (forall i t, tf_regs h !! i = Some t -> off (td1 t)) -> running_ok N h d.
Proof. intros ??? Hm Hoff. split; try done. intros i t Ht. rewrite Hm. eauto. Qed.

Lemma word_zero i : trig_word (dh_state dbtr_hart_zero) i = 0.
Proof.
  unfold trig_word, dbtr_hart_zero; cbn [dh_state].
  destruct (replicate MAX_TRIGGERS 0 !! i) eqn:E; [|done]. apply lookup_replicate in E as [-> _]. done.
Qed.
Lemma mapped_zero i : mapped dbtr_hart_zero i = false.
Proof. unfold mapped. by rewrite word_zero. Qed.

(** Off past the triggers the hart has *)
Definition tail_off N h : Prop := forall i t, (N <= i)%nat -> tf_regs h !! i = Some t -> off (td1 t).

(** A hart that starts: whatever its triggers held, all are off. *)
Lemma init_running s N :
  file_ok (db_hw s) -> trigger_count (tf_regs (db_hw s)) = N -> tail_off N (db_hw s) ->
  running_ok N (db_hw (dbtr_hart_init s)) (this_dbtr (dbtr_hart_init s)) /\
  db_dom (dbtr_hart_init s) = db_dom s /\
  forall k, k <> db_dom s -> db_slots (dbtr_hart_init s) k = db_slots s k.
Proof.
  intros Hf HN Hoff. unfold dbtr_hart_init.
  pose proof (init_loop_spec MAX_TRIGGERS 0 (db_hw s) dbtr_hart_zero Hf eq_refl ltac:(lia)) as H.
  destruct (dbtr_init_loop _ _ _ _) as [h d]. cbv zeta in H.
  fold (trigger_count (tf_regs (db_hw s))) in H. rewrite HN in H.
  destruct H as (F & U & Hout & Hin & C & Est & Esv & E3).
  assert (trigger_count (tf_regs h) = N) as HN' by (rewrite <- HN; by apply count_from_ext).
  assert (forall i, mapped d i = false) as Hm by (intros i; unfold mapped; rewrite Est; apply mapped_zero).
  assert (forall i t, tf_regs h !! i = Some t -> off (td1 t)) as Ho.
  { intros i t Ht. destruct (decide (i < N)%nat) as [Hi|Hi].
    - specialize (Hin i ltac:(lia)). by rewrite list_lookup_total_alt, Ht in Hin.
    - rewrite Hout in Ht by lia. eapply Hoff; [|done]. lia. }
  assert (forall b, (b = true -> th_has_tdata3 = true) -> (dh_count d <> O -> b = th_has_tdata3) ->
    slot_ok N (d <| dh_has_tdata3 := b |>)) as Hslot.
  { intros b Hb Hb'. split; try done.
    - by left.
    - change (length (dh_state d) = MAX_TRIGGERS). rewrite Est. apply length_replicate.
    - change (length (dh_saved d) = MAX_TRIGGERS). rewrite Esv. apply length_replicate.
    - intros i. change (mapped d i = true -> (i < dh_count d)%nat). by rewrite Hm.
    - intros i _. change (trig_word (dh_state d) i = 0). rewrite Est. apply word_zero. }
  assert (forall h2 d2, running_ok N h2 d2 ->
    running_ok N (db_hw (dbtr_set s h2 d2)) (this_dbtr (dbtr_set s h2 d2)) /\
    db_dom (dbtr_set s h2 d2) = db_dom s /\
    forall k, k <> db_dom s -> db_slots (dbtr_set s h2 d2) k = db_slots s k) as Hset.
  { intros h2 d2 Hr. rewrite dbtr_set_this. split_and!; [done|done|]. intros k. apply dbtr_set_other. }
  destruct (Nat.eqb_spec (dh_count d) 0) as [Hz|Hz]; apply Hset; apply running_off; try done.
  - replace d with (d <| dh_has_tdata3 := false |>); [apply Hslot; [done|by rewrite Hz]|].
    destruct d; cbn in *. by subst.
  - by apply Hslot.
Qed.

(** ** One trigger of the running domain at a time *)

Lemma word_insert d i v j :
  (i < length (dh_state d))%nat ->
  trig_word (dh_state (d <| dh_state ::= <[i := v]> |>)) j = if decide (i = j) then v else trig_word (dh_state d) j.
Proof.
  intros Hi. unfold trig_word. change (dh_state (d <| dh_state ::= <[i := v]> |>)) with (<[i := v]> (dh_state d)).
  case_decide; subst; [by rewrite list_lookup_insert_eq|by rewrite list_lookup_insert_ne].
Qed.

Lemma mapped_insert d i v j :
  (i < length (dh_state d))%nat ->
  mapped (d <| dh_state ::= <[i := v]> |>) j = if decide (i = j) then truth (Z.land v STATE_MAPPED) else mapped d j.
Proof. intros Hi. unfold mapped. rewrite word_insert by done. by case_decide. Qed.

Lemma state_of_mapped i v : truth (Z.land (state_of i v) STATE_MAPPED) = true.
Proof. unfold state_of. repeat case_match; rewrite !truth_lor; done. Qed.

Lemma running_in N h d i :
  running_ok N h d -> (i < dh_count d)%nat ->
  (i < th_count)%nat /\ (i < length (dh_state d))%nat /\ length (tf_regs h) = th_count /\ th_legal i (tf_regs h !!! i).
Proof.
  intros [Hf HN Hso _] Hi. destruct (trigger_count_bounds (tf_regs h)) as [H1 H2]; [apply Hf|].
  destruct (so_count _ _ Hso), (so_state _ _ Hso); [|lia].
  assert (i < th_count)%nat by lia. split_and!; [done|lia|apply Hf|]. by apply file_ok_get.
Qed.

Lemma running_step N h d i t v :
  running_ok N h d -> (i < dh_count d)%nat -> th_legal i t -> usable i t = usable i (tf_regs h !!! i) ->
  (if truth (Z.land v STATE_MAPPED) then quiet (td1 t) else v = 0 /\ off (td1 t)) ->
  running_ok N (put h i t) (d <| dh_state ::= <[i := v]> |>).
Proof.
  intros Hr Hi Ht Hu Hv. destruct (running_in _ _ _ _ Hr Hi) as (Hth & Hst & Hlen & _).
  destruct Hr as [Hf HN Hso Hq]. split.
  - by apply file_ok_put.
  - by rewrite trigger_count_put.
  - destruct Hso as [? ? ? Hm Hz ? ?]. split; try done.
    + change (length (<[i := v]> (dh_state d)) = MAX_TRIGGERS). by rewrite length_insert.
    + intros j. change (dh_count (d <| dh_state ::= <[i := v]> |>)) with (dh_count d).
      rewrite mapped_insert by done. case_decide; [by subst|apply Hm].
    + intros j. rewrite mapped_insert, word_insert by done. case_decide; [|apply Hz].
      intros E. rewrite E in Hv. apply Hv.
  - intros j t'. rewrite put_regs, mapped_insert by done. case_decide; [|apply Hq].
    intros [= <-]; subst. destruct (truth _); [done|apply Hv].
Qed.

Lemma running_same N h d i t :
  running_ok N h d -> (i < dh_count d)%nat -> th_legal i t -> usable i t = usable i (tf_regs h !!! i) ->
  (if mapped d i then quiet (td1 t) else off (td1 t)) -> running_ok N (put h i t) d.
Proof.
  intros Hr Hi Ht Hu Hv. destruct (running_in _ _ _ _ Hr Hi) as (Hth & Hst & Hlen & _).
  assert (if mapped d i then quiet (td1 t) else trig_word (dh_state d) i = 0 /\ off (td1 t)) as Hv'.
  { destruct (mapped d i) eqn:E; [done|]. split; [|done]. by apply (so_free _ _ (ro_slot _ _ _ Hr)). }
  pose proof (running_step N h d i t (trig_word (dh_state d) i) Hr Hi Ht Hu Hv') as H.
  replace d with (d <| dh_state ::= <[i := trig_word (dh_state d) i]> |>); [done|].
  destruct d as [? ? ? ? st ?]. cbv [field_update dh_state]. f_equal. apply list_insert_id.
  unfold trig_word. cbn in *. destruct (lookup_lt_is_Some_2 st i Hst) as [? ->]. done.
Qed.

Lemma running_select N h d i : running_ok N h d -> running_ok N (tselect_write h i) d.
Proof. intros [Hf HN Hso Hq]. by split. Qed.

Lemma running_clear N h d i :
  running_ok N h d -> (i < dh_count d)%nat -> running_ok N (hw_clear h i) (d <| dh_state ::= <[i := 0]> |>).
Proof.
  intros Hr Hi. destruct (running_in _ _ _ _ Hr Hi) as (Hth & Hst & Hlen & Hleg).
  rewrite hw_clear_eq by done. apply running_step; try done.
  - by apply cleared_legal.
  - by rewrite cleared_usable.
  - split; [done|]. by apply cleared_off.
Qed.

(** Memory holds [unsigned long]s. *)
Definition entry_wf (e : dbtr_entry) : Prop := is_ulong (e_tdata1 e).

(** A configuration programmed is the domain's and quiet; refused, the
    trigger is off. *)
Lemma running_program N h d i e ok h' :
  running_ok N h d -> (i < dh_count d)%nat -> entry_wf e -> quiet (e_tdata1 e) ->
  hw_program h d i e = (ok, h') ->
  if ok then running_ok N h' (d <| dh_state ::= <[i := state_of i (e_tdata1 e)]> |>)
  else running_ok N h' (d <| dh_state ::= <[i := 0]> |>).
Proof.
  intros Hr Hi He Hq. destruct (running_in _ _ _ _ Hr Hi) as (Hth & Hst & Hlen & Hleg).
  rewrite hw_program_eq by done. destruct (programmed _ _ _ _) as [ok' t] eqn:E. intros [= <- <-].
  destruct (programmed_spec _ _ _ _ _ _ (so_tdata3 _ _ (ro_slot _ _ _ Hr)) Hleg He E) as (Hl & Hu & Hno & Hyes).
  destruct ok'; apply running_step; try done.
  - rewrite state_of_mapped. apply (quiet_got _ (e_tdata1 e)); try done; [by apply (tl_ulong i)|by apply Hyes].
  - split; [done|]. by apply Hno.
Qed.

Lemma running_refused N h d i e h' :
  running_ok N h d -> (i < dh_count d)%nat -> entry_wf e -> mapped d i = false ->
  hw_program h d i e = (false, h') -> running_ok N h' d.
Proof.
  intros Hr Hi He Hm. destruct (running_in _ _ _ _ Hr Hi) as (Hth & Hst & Hlen & Hleg).
  rewrite hw_program_eq by done. destruct (programmed _ _ _ _) as [ok t] eqn:E. intros [= -> <-].
  destruct (programmed_spec _ _ _ _ _ _ (so_tdata3 _ _ (ro_slot _ _ _ Hr)) Hleg He E) as (Hl & Hu & Hno & _).
  apply running_same; try done. rewrite Hm. by apply Hno.
Qed.

(** ** Where the configurations of a call go *)

Lemma find_run_spec d cfg len taken start :
  find_run d cfg len taken = Some start ->
  (start + len <= dh_count d)%nat /\
  forall k, (k < len)%nat -> takes d taken (start + k) (cfg !!! k) = true.
Proof.
  intros H. apply find_some in H as [Hin Hall]. apply in_seq in Hin. split; [lia|].
  intros k Hk. rewrite forallb_forall in Hall. apply Hall, in_seq. lia.
Qed.

Lemma mark_taken_spec start taken len :
  (start + len <= length taken)%nat ->
  length (mark_taken start taken len) = length taken /\
  forall j, mark_taken start taken len !! j =
    if decide (start <= j < start + len)%nat then Some true else taken !! j.
Proof.
  intros Hlen. unfold mark_taken.
  pose (P := fun (k : nat) (l : list bool) => length l = length taken /\
    forall j, l !! j = if decide (start <= j < start + k)%nat then Some true else taken !! j).
  apply (foldl_seq_ind P).
  { split; [done|]. intros j. rewrite decide_False by lia. done. }
  intros k l Hk [Hl IH]. split; [by rewrite length_insert|]. intros j.
  destruct (decide (start + k = j)%nat) as [<-|Hne].
  - rewrite list_lookup_insert_eq by lia. rewrite decide_True by lia. done.
  - rewrite list_lookup_insert_ne by done. rewrite IH. do 2 case_decide; try done; lia.
Qed.

(** The last of the entries ends its chain. *)
Definition chains_end (cfg : list dbtr_entry) : Prop :=
  forall e, last cfg = Some e -> chained (e_tdata1 e) = false.

Lemma chain_len_pos cfg : (1 <= chain_len cfg)%nat.
Proof. destruct cfg; cbn; [lia|case_match; lia]. Qed.

Lemma chain_len_fits cfg : cfg <> [] -> chains_end cfg -> (chain_len cfg <= length cfg)%nat.
Proof.
  induction cfg as [|e cfg IH]; intros Hne Hend; [done|]. cbn [chain_len length].
  destruct (chained (e_tdata1 e)) eqn:E; [|lia].
  destruct cfg as [|e' cfg]; [by rewrite (Hend e) in E|].
  enough (chain_len (e' :: cfg) <= length (e' :: cfg))%nat by lia. apply IH; [done|].
  intros x Hx. apply Hend. by rewrite last_cons, Hx.
Qed.

Lemma chains_end_drop cfg n : chains_end cfg -> chains_end (drop n cfg).
Proof.
  intros Hend e He. apply Hend. rewrite <- (take_drop n cfg), last_app, He. done.
Qed.

(** Free triggers, each of its own entry, that take its type *)
Lemma install_place_spec fuel d i cfg taken ws :
  chains_end cfg -> length taken = MAX_TRIGGERS -> (dh_count d <= MAX_TRIGGERS)%nat ->
  install_place fuel d i cfg taken = inr ws ->
  length ws = length cfg /\ NoDup ws /\
  Forall (fun w => (w < dh_count d)%nat /\ mapped d w = false /\ taken !! w = Some false) ws.
Proof.
  revert i cfg taken ws. induction fuel as [|fuel IH]; intros i cfg taken ws Hend Ht Hmax.
  { destruct cfg; [|done]. intros [= <-]. split_and!; [done|apply NoDup_nil_2|done]. }
  destruct cfg as [|e cfg']; [intros [= <-]; split_and!; [done|apply NoDup_nil_2|done]|].
  cbn [install_place]. set (cfg := e :: cfg') in *. set (len := chain_len cfg).
  destruct (find_run d cfg len taken) as [start|] eqn:Ef; [|done].
  apply find_run_spec in Ef as [Hfit Htakes].
  destruct (mark_taken_spec start taken len) as [Hml Hmark]; [lia|].
  destruct (install_place fuel d _ _ _) as [j|ws'] eqn:Ep; [done|]. intros [= <-].
  assert (len <= length cfg)%nat as Hcl by by apply chain_len_fits.
  apply IH in Ep as (Hl & Hnd & Hall); [|by apply chains_end_drop|by rewrite Hml|done].
  assert (forall w, w ∈ ((fun k => (start + k)%nat) <$> seq 0 len) -> (start <= w < start + len)%nat) as Hrun.
  { intros w Hw. apply list_elem_of_fmap in Hw as (k & -> & Hk). apply elem_of_seq in Hk. lia. }
  split_and!.
  - rewrite length_app, length_fmap, length_seq, Hl, length_drop. lia.
  - apply NoDup_app. split_and!; [|intros w Hw Hw'|done].
    + apply NoDup_fmap_2; [intros ???; lia|apply NoDup_seq].
    + apply Hrun in Hw. rewrite Forall_forall in Hall. destruct (Hall w Hw') as (_ & _ & Hf).
      rewrite Hmark, decide_True in Hf by lia. done.
  - apply Forall_app. split; apply Forall_forall.
    + intros w Hw. apply Hrun in Hw.
      specialize (Htakes (w - start)%nat ltac:(lia)). unfold takes in Htakes.
      replace (start + (w - start))%nat with w in Htakes by lia. bool_prop.
      destruct (lookup_lt_is_Some_2 taken w) as [b Hb]; [lia|].
      split_and!; [lia|by destruct (mapped d w)|]. rewrite Hb in *. cbn in *. by destruct b.
    + intros w Hw. rewrite Forall_forall in Hall. destruct (Hall w Hw) as (? & ? & Hf). rewrite Hmark in Hf.
      split_and!; try done. by case_decide.
Qed.

Lemma install_check_spec i cfg :
  install_check i cfg = None -> Forall (fun e => quiet (e_tdata1 e)) cfg /\ chains_end cfg.
Proof.
  revert i. induction cfg as [|e cfg IH]; intros i; [intros _; split; [done|by intros ?]|].
  cbn [install_check]. destruct (truth (config_check e)) eqn:Ec; cbn [negb andb].
  { by rewrite Ec. }
  assert (quiet (e_tdata1 e)) as Hq.
  { apply config_quiet. unfold truth in Ec. by apply negb_false_iff, Z.eqb_eq in Ec. }
  destruct (bool_decide _ && _) eqn:Eb; [done|]. rewrite Ec. intros H. apply IH in H as [Hall Hend].
  split; [by constructor|]. intros x. rewrite last_cons. destruct (last cfg) eqn:El; [intros [= <-]; by apply Hend|].
  intros [= <-]. apply last_None in El as ->. by destruct (chained _).
Qed.

(** ** Programming them *)

(** All but the triggers [ws] and their states is as it was. *)
Definition same_but (ws : list nat) h d h' d' : Prop :=
  d' = d <| dh_state := dh_state d' |> /\
  forall j, j ∉ ws -> tf_regs h' !! j = tf_regs h !! j /\ trig_word (dh_state d') j = trig_word (dh_state d) j.

Lemma same_refl ws h d : same_but ws h d h d.
Proof. split; [by destruct d|done]. Qed.

Lemma same_trans ws ws' ws'' h d h1 d1 h2 d2 :
  same_but ws h d h1 d1 -> same_but ws' h1 d1 h2 d2 -> ws ⊆ ws'' -> ws' ⊆ ws'' -> same_but ws'' h d h2 d2.
Proof.
  intros [E1 H1] [E2 H2] Hs Hs'. split.
  - rewrite E2, E1. by destruct d.
  - intros j Hj. destruct (H1 j), (H2 j); [set_solver..|]. split; congruence.
Qed.

Lemma same_put h d i t v :
  length (tf_regs h) = th_count -> (i < th_count)%nat -> (i < length (dh_state d))%nat ->
  same_but [i] h d (put h i t) (d <| dh_state ::= <[i := v]> |>).
Proof.
  intros Hlen Hi Hst. split; [by destruct d|]. intros j Hj.
  rewrite put_regs, word_insert by done. rewrite !decide_False by set_solver. done.
Qed.

Lemma same_put_regs h d i t :
  length (tf_regs h) = th_count -> (i < th_count)%nat -> same_but [i] h d (put h i t) d.
Proof.
  intros Hlen Hi. split; [by destruct d|]. intros j Hj.
  rewrite put_regs by done. rewrite !decide_False by set_solver. done.
Qed.

Lemma mapped_word d d' i : trig_word (dh_state d') i = trig_word (dh_state d) i -> mapped d' i = mapped d i.
Proof. unfold mapped. by intros ->. Qed.

(** What [e] asks for is what trigger [w] does, but for the hit bits. *)
Definition holds_config h d (w : nat) (e : dbtr_entry) : Prop :=
  mapped d w = true /\
  Z.land (Z.lxor (td1 (tf_regs h !!! w)) (e_tdata1 e)) (unot (ty_hit (type_of (e_tdata1 e)))) = 0.

Lemma undo_spec N (taken : list nat) h d :
  running_ok N h d -> Forall (fun w => (w < dh_count d)%nat) taken ->
  let '(h', d') := foldl install_undo (h, d) taken in
  running_ok N h' d' /\ same_but taken h d h' d' /\ forall w, w ∈ taken -> trig_word (dh_state d') w = 0.
Proof.
  revert h d. induction taken as [|w taken IH]; intros h d Hr Hall; cbn [foldl].
  { split_and!; [done|apply same_refl|set_solver]. }
  apply Forall_cons in Hall as [Hw Hall]. cbn [install_undo].
  destruct (running_in _ _ _ _ Hr Hw) as (Hth & Hst & Hlen & Hleg).
  pose proof (running_clear N h d w Hr Hw) as Hr1.
  assert (same_but [w] h d (hw_clear h w) (d <| dh_state ::= <[w := 0]> |>)) as Hs1
    by (rewrite hw_clear_eq by done; by apply same_put).
  specialize (IH _ _ Hr1 Hall).
  destruct (foldl install_undo _ taken) as [h' d']. destruct IH as (Hr' & Hs' & Hz).
  split_and!; [done|eapply same_trans; [done..|set_solver|set_solver]|].
  intros x Hx. destruct (decide (x ∈ taken)) as [Hin|Hnin]; [by apply Hz|].
  assert (x = w) as -> by set_solver. rewrite (proj2 (proj2 Hs' w Hnin)), word_insert by done.
  by rewrite decide_True.
Qed.

Lemma program_same N h d i e ok h' :
  running_ok N h d -> (i < dh_count d)%nat -> entry_wf e -> hw_program h d i e = (ok, h') ->
  same_but [i] h d h' d /\
  (ok = true -> Z.land (Z.lxor (td1 (tf_regs h' !!! i)) (e_tdata1 e)) (unot (ty_hit (type_of (e_tdata1 e)))) = 0).
Proof.
  intros Hr Hi He. destruct (running_in _ _ _ _ Hr Hi) as (Hth & Hst & Hlen & Hleg).
  rewrite hw_program_eq by done. destruct (programmed _ _ _ _) as [ok' t] eqn:E. intros [= <- <-].
  destruct (programmed_spec _ _ _ _ _ _ (so_tdata3 _ _ (ro_slot _ _ _ Hr)) Hleg He E) as (_ & _ & _ & Hyes).
  split; [by apply same_put_regs|]. intros Hok.
  rewrite list_lookup_total_alt, put_regs, decide_True by done. by apply Hyes.
Qed.

Definition to_install d (we : nat * dbtr_entry) : Prop :=
  (we.1 < dh_count d)%nat /\ mapped d we.1 = false /\ entry_wf we.2 /\ quiet (e_tdata1 we.2).

Lemma to_install_frame d w v (we : nat * dbtr_entry) :
  (w < length (dh_state d))%nat -> we.1 <> w -> to_install d we -> to_install (d <| dh_state ::= <[w := v]> |>) we.
Proof.
  intros Hw Hne (H1 & H2 & H3 & H4). split_and!; try done. by rewrite mapped_insert, decide_False.
Qed.

Lemma install_program_spec N todo taken h d :
  running_ok N h d -> NoDup todo.*1 -> Forall (to_install d) todo ->
  Forall (fun w => (w < dh_count d)%nat) taken -> taken ## todo.*1 ->
  let '(refused, (h', d')) := install_program todo taken h d in
  running_ok N h' d' /\
  match refused with
  | None => same_but todo.*1 h d h' d' /\ Forall (fun we => holds_config h' d' we.1 we.2) todo
  | Some _ => same_but (todo.*1 ++ taken) h d h' d' /\
              (forall w, w ∈ taken -> trig_word (dh_state d') w = 0) /\
              (forall w, w ∈ todo.*1 -> trig_word (dh_state d') w = trig_word (dh_state d) w)
  end.
Proof.
  revert taken h d. induction todo as [|[w e] todo IH]; intros taken h d Hr Hnd Hall Htk Hdisj;
    cbn [install_program fmap list_fmap fst].
  { split_and!; [done|apply same_refl|done]. }
  apply Forall_cons in Hall as [(Hw & Hm & He & Hq) Hall]. cbn [fst snd] in Hw, Hm, He, Hq.
  cbn [fmap list_fmap fst] in Hnd, Hdisj. apply NoDup_cons in Hnd as [Hnin Hnd].
  destruct (running_in _ _ _ _ Hr Hw) as (Hth & Hst & Hlen & Hleg).
  destruct (hw_program h d w e) as [ok h1] eqn:Ep.
  destruct (program_same N h d w e ok h1 Hr Hw He Ep) as [Hs1 Hgot].
  destruct ok.
  - set (d1 := d <| dh_state ::= <[w := state_of w (e_tdata1 e)]> |>).
    pose proof (running_program N h d w e true h1 Hr Hw He Hq Ep) as Hr1. cbv beta iota in Hr1. fold d1 in Hr1.
    assert (same_but [w] h d h1 d1) as Hs1'.
    { split; [by destruct d|]. intros j Hj. split; [by apply Hs1|].
      subst d1. rewrite word_insert, decide_False by (done || set_solver). done. }
    assert (Forall (to_install d1) todo) as Hall1.
    { apply Forall_forall. intros we Hwe. rewrite Forall_forall in Hall. apply to_install_frame; [done| |by apply Hall].
      intros <-. apply Hnin. by apply list_elem_of_fmap_2. }
    assert (Forall (fun w => (w < dh_count d1)%nat) (w :: taken)) as Htk1 by by constructor.
    specialize (IH (w :: taken) h1 d1 Hr1 Hnd Hall1 Htk1 ltac:(set_solver)).
    destruct (install_program todo (w :: taken) h1 d1) as [[n|] [h' d']]; destruct IH as [Hr' IH]; split; try done.
    + destruct IH as (Hs' & Hz & Hkeep).
      split_and!; [eapply same_trans; [exact Hs1'|exact Hs'|set_solver|set_solver]|set_solver|].
      intros x Hx. apply elem_of_cons in Hx as [->|Hx].
      * rewrite Hz by set_solver. symmetry. apply (so_free _ _ (ro_slot _ _ _ Hr)). done.
      * rewrite Hkeep by done. apply Hs1'. set_solver.
    + destruct IH as (Hs' & Hcfg). split; [eapply same_trans; [exact Hs1'|exact Hs'|set_solver|set_solver]|].
      constructor; [|done]. cbn [fst snd]. destruct Hs' as [_ Hs']. destruct (Hs' w Hnin) as [Hreg Hword].
      split; [rewrite (mapped_word d1) by done; subst d1; rewrite mapped_insert, decide_True by done; apply state_of_mapped|].
      rewrite list_lookup_total_alt, Hreg, <- list_lookup_total_alt. by apply Hgot.
  - pose proof (running_refused N h d w e h1 Hr Hw He Hm Ep) as Hr1.
    pose proof (undo_spec N taken h1 d Hr1 Htk) as Hu.
    destruct (foldl install_undo (h1, d) taken) as [h' d']. destruct Hu as (Hr' & Hs' & Hz).
    split; [done|]. split_and!; [eapply same_trans; [exact Hs1|exact Hs'|set_solver|set_solver]|done|].
    intros x Hx. apply Hs'. set_solver.
Qed.

Lemma chain_len_chained cfg k e :
  (chain_len cfg <= length cfg)%nat -> (k < chain_len cfg)%nat -> cfg !! k = Some e ->
  chained (e_tdata1 e) = true -> (S k < chain_len cfg)%nat.
Proof.
  revert k. induction cfg as [|e' cfg IH]; intros k Hfit Hk He Hc; [done|]. cbn [chain_len length] in *.
  destruct (chained (e_tdata1 e')) eqn:E.
  - destruct k as [|k]; [pose proof (chain_len_pos cfg); lia|]. specialize (IH k ltac:(lia) ltac:(lia) He Hc). lia.
  - destruct k as [|k]; [|lia]. injection He as <-. congruence.
Qed.

(** A chain is in consecutive triggers. *)
Lemma install_place_chain fuel d i cfg taken ws k e :
  chains_end cfg -> install_place fuel d i cfg taken = inr ws ->
  cfg !! k = Some e -> chained (e_tdata1 e) = true ->
  exists w, ws !! k = Some w /\ ws !! S k = Some (S w).
Proof.
  revert i cfg taken ws k. induction fuel as [|fuel IH]; intros i cfg taken ws k Hend Hp He Hc.
  { by destruct cfg. }
  destruct cfg as [|e0 cfg']; [done|]. cbn [install_place] in Hp. set (cfg := e0 :: cfg') in *. set (len := chain_len cfg) in *.
  destruct (find_run d cfg len taken) as [start|]; [|done].
  destruct (install_place fuel d _ _ _) as [j|ws'] eqn:Ep; [done|]. injection Hp as <-.
  assert (len <= length cfg)%nat as Hcl by by apply chain_len_fits.
  assert (length ((fun k => (start + k)%nat) <$> seq 0 len) = len) as Hl by by rewrite length_fmap, length_seq.
  destruct (decide (k < len)%nat) as [Hk|Hk].
  - assert (S k < len)%nat as Hk' by by eapply chain_len_chained.
    exists (start + k)%nat. rewrite !lookup_app_l by lia. rewrite !list_lookup_fmap, !lookup_seq_lt by lia.
    cbn [fmap option_fmap option_map]. split; [done|]. f_equal. lia.
  - destruct (IH _ _ _ _ (k - len)%nat (chains_end_drop _ len Hend) Ep) as (w & H1 & H2); [|done|].
    { rewrite lookup_drop. by replace (len + (k - len))%nat with k by lia. }
    exists w. rewrite !lookup_app_r, !Hl by lia. split; [done|]. by replace (S k - len)%nat with (S (k - len)) by lia.
Qed.

(** What a call that installs [cfg] in the triggers [ws] has done *)
Record installed s s' (cfg mem' : list dbtr_entry) (ws : list nat) : Prop := {
  in_length : length ws = length cfg;
  in_distinct : NoDup ws;
  in_free w : w ∈ ws -> mapped (this_dbtr s) w = false;
  in_config k w e : ws !! k = Some w -> cfg !! k = Some e -> holds_config (db_hw s') (this_dbtr s') w e;
  in_index k w : ws !! k = Some w -> exists e, mem' !! k = Some e /\ e_idx e = Z.of_nat w;
  in_chain k e : cfg !! k = Some e -> chained (e_tdata1 e) = true ->
    exists w, ws !! k = Some w /\ ws !! S k = Some (S w);
  in_rest : same_but ws (db_hw s) (this_dbtr s) (db_hw s') (this_dbtr s');
}.

Lemma slot_state_eq N d d' :
  slot_ok N d -> slot_ok N d' -> d' = d <| dh_state := dh_state d' |> ->
  (forall i, trig_word (dh_state d') i = trig_word (dh_state d) i) -> d' = d.
Proof.
  intros Hs Hs' E Hw. rewrite E. replace (dh_state d') with (dh_state d); [by destruct d|].
  pose proof (so_state _ _ Hs). pose proof (so_state _ _ Hs').
  apply list_eq. intros i. specialize (Hw i). unfold trig_word in Hw.
  destruct (decide (i < MAX_TRIGGERS)%nat).
  - destruct (lookup_lt_is_Some_2 (dh_state d) i), (lookup_lt_is_Some_2 (dh_state d') i); [lia..|]. simplify_option_eq.
    destruct (dh_state d !! i), (dh_state d' !! i); simplify_eq/=; congruence.
  - rewrite !lookup_ge_None_2 by lia. done.
Qed.

(** An operation on the triggers is the running domain's alone. *)
Definition own s s' : Prop :=
  db_dom s' = db_dom s /\ forall k, k <> db_dom s -> db_slots s' k = db_slots s k.

Lemma own_refl s : own s s.
Proof. by split. Qed.
Lemma own_set s h d : own s (dbtr_set s h d).
Proof. split; [done|]. intros k. apply dbtr_set_other. Qed.

(** What a call that is refused has left: the records of every domain and the
    triggers that are installed as they were, the free ones off (what it wrote
    to tdata2 and tdata3 of a free one on the way may stay). *)
Definition untouched s s' : Prop :=
  this_dbtr s' = this_dbtr s /\ own s s' /\
  (forall i, mapped (this_dbtr s) i = true -> tf_regs (db_hw s') !! i = tf_regs (db_hw s) !! i) /\
  (forall i t, mapped (this_dbtr s) i = false -> tf_regs (db_hw s') !! i = Some t -> off (td1 t)).

Lemma untouched_refl N s : running_ok N (db_hw s) (this_dbtr s) -> untouched s s.
Proof.
  intros Hr. split_and!; [done|apply own_refl|done|]. intros i t Hm Ht.
  pose proof (ro_quiet _ _ _ Hr i t Ht) as H. by rewrite Hm in H.
Qed.

Lemma hart_ok_own N s s' :
  hart_ok N s -> own s s' -> running_ok N (db_hw s') (this_dbtr s') -> hart_ok N s'.
Proof. intros [_ Ho] [Ed Es] Hr. split; [done|]. intros k. rewrite Ed. intros Hk. rewrite Es by done. by apply Ho. Qed.

Lemma zip_Forall_to_install d ws cfg :
  Forall (fun w => (w < dh_count d)%nat /\ mapped d w = false /\
                   replicate MAX_TRIGGERS false !! w = Some false) ws ->
  Forall (fun e => quiet (e_tdata1 e)) cfg -> Forall entry_wf cfg -> Forall (to_install d) (zip ws cfg).
Proof.
  intros Hw Hq He. apply Forall_forall. intros [w e] Hin. rewrite !Forall_forall in *.
  assert (w ∈ ws) as Hin1 by by eapply elem_of_zip_l.
  assert (e ∈ cfg) as Hin2 by by eapply elem_of_zip_r.
  destruct (Hw w Hin1) as (? & ? & _). split_and!; auto.
Qed.

Lemma entries_get_ok d count : truth (entries_get d count) = false -> dh_shmem d <> SHMEM_NONE /\ count <= Z.of_nat (dh_count d).
Proof.
  unfold entries_get. destruct (Z.eqb_spec (dh_shmem d) SHMEM_NONE); [done|].
  destruct (Z.ltb_spec (Z.of_nat (dh_count d)) count); [done|]. done.
Qed.

Lemma install_refused_untouched N s h' d' (ws : list nat) :
  running_ok N (db_hw s) (this_dbtr s) -> running_ok N h' d' ->
  (forall w, w ∈ ws -> mapped (this_dbtr s) w = false) ->
  same_but ws (db_hw s) (this_dbtr s) h' d' ->
  (forall w, w ∈ ws -> trig_word (dh_state d') w = trig_word (dh_state (this_dbtr s)) w) ->
  untouched s (dbtr_set s h' d').
Proof.
  intros Hr Hr' Hfree [E Hs] Hw. assert (d' = this_dbtr s) as Ed.
  { apply (slot_state_eq N); [apply Hr|apply Hr'|done|].
    intros i. destruct (decide (i ∈ ws)); [by apply Hw|by apply Hs]. }
  split_and!; [by rewrite dbtr_set_this|apply own_set| |].
  - intros i Hi. apply Hs. intros Hin. by rewrite Hfree in Hi.
  - intros i t Hi Ht. pose proof (ro_quiet _ _ _ Hr' i t Ht) as H. rewrite Ed, Hi in H. exact H.
Qed.

Lemma slot_count_max N h d : running_ok N h d -> (dh_count d <= MAX_TRIGGERS)%nat.
Proof.
  intros [Hf HN Hso _]. destruct (trigger_count_bounds (tf_regs h)) as [H1 _]; [apply Hf|].
  destruct (so_count _ _ Hso); lia.
Qed.

Lemma install_check_fails i cfg j rc : install_check i cfg = Some (j, rc) -> (rc =? SBI_SUCCESS) = false.
Proof.
  revert i. induction cfg as [|e cfg IH]; intros i; [done|]. cbn [install_check].
  set (rc' := if negb _ && _ && _ then _ else _). destruct (truth rc') eqn:E; [|apply IH].
  intros [= <- <-]. unfold truth in E. by rewrite negb_true_iff in E.
Qed.

Lemma zip_fst_ws (ws : list nat) (cfg : list dbtr_entry) : length ws = length cfg -> (zip ws cfg).*1 = ws.
Proof. intros E. apply fst_zip. lia. Qed.

Lemma installed_intro s h' d' cfg tail ws :
  length ws = length cfg -> NoDup ws ->
  (forall w, w ∈ ws -> mapped (this_dbtr s) w = false) ->
  (forall k e, cfg !! k = Some e -> chained (e_tdata1 e) = true -> exists w, ws !! k = Some w /\ ws !! S k = Some (S w)) ->
  same_but ws (db_hw s) (this_dbtr s) h' d' ->
  Forall (fun we => holds_config h' d' we.1 we.2) (zip ws cfg) ->
  installed s (dbtr_set s h' d') cfg (zip_with (fun w e => e <| e_idx := Z.of_nat w |>) ws cfg ++ tail) ws.
Proof.
  intros Hl Hnd Hfree Hchain Hs Hcfg. split; rewrite ?dbtr_set_this; try done.
  - intros k w e Hw He. rewrite Forall_lookup in Hcfg. apply (Hcfg k (w, e)).
    rewrite lookup_zip_with, Hw. cbn. by rewrite He.
  - intros k w Hw. assert (k < length cfg)%nat as Hk by (rewrite <- Hl; by eapply lookup_lt_Some).
    destruct (lookup_lt_is_Some_2 cfg k Hk) as [e He]. eexists. split.
    + rewrite lookup_app_l by (rewrite length_zip_with; lia). rewrite lookup_zip_with, Hw. cbn. by rewrite He.
    + done.
Qed.

Lemma install_spec N s count mem rc failed s' mem' :
  hart_ok N s -> Forall entry_wf mem ->
  dbtr_install s count mem = (rc, failed, s', mem') ->
  running_ok N (db_hw s') (this_dbtr s') /\ own s s' /\
  (if rc =? SBI_SUCCESS then exists ws, installed s s' (take (Z.to_nat count) mem) mem' ws
   else untouched s s' /\ mem' = mem).
Proof.
  intros [Hr _] Hwf. unfold dbtr_install. destruct (truth (entries_get _ _)) eqn:Eg.
  { unfold truth in Eg. rewrite negb_true_iff in Eg. intros [= <- <- <- <-]. change SBI_SUCCESS with 0. rewrite Eg.
    exact (conj Hr (conj (own_refl s) (conj (untouched_refl N s Hr) eq_refl))). }
  set (cfg := take (Z.to_nat count) mem).
  destruct (install_check 0 cfg) as [[i rc']|] eqn:Ec.
  { apply install_check_fails in Ec. intros [= <- <- <- <-]. rewrite Ec.
    exact (conj Hr (conj (own_refl s) (conj (untouched_refl N s Hr) eq_refl))). }
  apply install_check_spec in Ec as [Hq Hend].
  assert (Forall entry_wf cfg) as Hwf' by by apply Forall_take.
  destruct (install_place _ _ _ _ _) as [i|ws] eqn:Ep.
  { intros [= <- <- <- <-]. exact (conj Hr (conj (own_refl s) (conj (untouched_refl N s Hr) eq_refl))). }
  assert (forall k e, cfg !! k = Some e -> chained (e_tdata1 e) = true ->
    exists w, ws !! k = Some w /\ ws !! S k = Some (S w)) as Hchain
    by (intros k e; by eapply install_place_chain).
  destruct (install_place_spec _ _ _ _ _ _ Hend (length_replicate _ _) (slot_count_max N _ _ Hr) Ep) as (Hl & Hnd & Hall).
  assert (forall w, w ∈ ws -> mapped (this_dbtr s) w = false) as Hfree
    by (intros w Hw; rewrite Forall_forall in Hall; by apply Hall).
  pose proof (install_program_spec N (zip ws cfg) [] (db_hw s) (this_dbtr s) Hr) as Hp.
  rewrite zip_fst_ws in Hp by done.
  specialize (Hp Hnd (zip_Forall_to_install _ _ _ Hall Hq Hwf') (Forall_nil_2 _) ltac:(set_solver)).
  destruct (install_program _ _ _ _) as [[i|] [h' d']]; destruct Hp as [Hr' Hp]; intros [= <- <- <- <-];
    rewrite dbtr_set_this; (split; [done|]; split; [apply own_set|]).
  - cbn [Z.eqb SBI_SUCCESS SBI_ERR_NOT_SUPPORTED]. split; [|done]. rewrite app_nil_r in Hp.
    destruct Hp as (Hs & _ & Hw). by eapply install_refused_untouched.
  - exists ws. destruct Hp. by apply installed_intro.
Qed.

End Invariant.
