(* ===== verification/DbtrTheorems.v ===== *)
(** Every operation of [arch/riscv/runtime/dbtr.c] in any order: what holds
    of the triggers of a hart whatever its domains ask for. *)

From stdpp Require Import relations.
From S2P Require Import Prelude Arch Dbtr DbtrProps DbtrInvariant.

#[local] Open Scope Z_scope.
#[local] Set Warnings "-clear-no-such-hyp".

Section Calls.
Context {AR : Arch} {TH : TriggerHw} {MT : MaxTriggers} {TL : TriggerLegal} {LW : TriggerLaws}.
Implicit Types (h : trigger_file) (d : dbtr_hart) (t : tdata) (i n : nat) (s : dbtr).

Lemma truth_false z : truth z = false -> z = 0.
Proof. unfold truth. rewrite negb_false_iff. apply Z.eqb_eq. Qed.

Lemma update_loop_running N i cfgs h d :
  running_ok N h d -> Forall entry_wf cfgs ->
  let '(_, (h', d')) := dbtr_update_loop i cfgs h d in running_ok N h' d'.
Proof.
  revert i h d. induction cfgs as [|e cfgs IH]; intros i h d Hr Hwf; cbn [dbtr_update_loop]; [done|].
  apply Forall_cons in Hwf as [He Hwf].
  destruct (truth (config_check e)) eqn:Ec; [done|].
  assert (quiet (e_tdata1 e)) as Hq by (by apply config_quiet, truth_false).
  destruct (Z.leb_spec (Z.of_nat (dh_count d)) (e_idx e)) as [|Hlt]; [done|].
  destruct (mapped d (Z.to_nat (e_idx e))) eqn:Hm; cbn [negb]; [|done].
  pose proof (so_mapped _ _ (ro_slot _ _ _ Hr) _ Hm) as Hi.
  set (idx := Z.to_nat (e_idx e)) in *. cbv zeta.
  pose proof (running_select N h d idx Hr) as Hr1.
  destruct (negb _ || negb _); [done|].
  destruct (hw_program _ _ _ _) as [ok h2] eqn:Ep.
  pose proof (running_program N _ _ _ _ _ _ Hr1 Hi He Hq Ep) as Hr2.
  destruct ok; cbn [negb]; [by apply IH|done].
Qed.

Lemma update_running N s count mem :
  hart_ok N s -> Forall entry_wf mem -> hart_ok N (dbtr_update s count mem).2.
Proof.
  intros Hok Hwf. unfold dbtr_update. destruct (truth _); [done|].
  pose proof (update_loop_running N 0 (take (Z.to_nat count) mem) (db_hw s) (this_dbtr s) (ho_running _ _ Hok)
    (Forall_take _ _ _ Hwf)) as H.
  destruct (dbtr_update_loop _ _ _ _) as [[rc failed] [h d]]. cbn [snd].
  apply (hart_ok_own N s); [done|apply own_set|by rewrite dbtr_set_this].
Qed.

(** ** Sets *)

Lemma running_modes N h d i modes :
  running_ok N h d -> mapped d i = true ->
  let v := td1 (tf_regs h !!! i) in
  is_ulong modes -> type_fields (TDATA1_TYPE v) modes ->
  running_ok N (put h i (th_tdata1 i (tf_regs h !!! i) (Z.lor (Z.land v (unot (mode_bits v))) modes))) d.
Proof.
  intros Hr Hm v Hu Ha. pose proof (so_mapped _ _ (ro_slot _ _ _ Hr) _ Hm) as Hi.
  destruct (running_in _ _ _ _ Hr Hi) as (Hth & Hst & Hlen & Hleg).
  assert (is_ulong v) as Hv by by apply (tl_ulong i).
  assert (quiet v) as Hq.
  { pose proof (ro_quiet _ _ _ Hr i (tf_regs h !!! i)) as H. rewrite Hm in H. apply H.
    by apply file_ok_get; [apply Hr|]. }
  assert (is_ulong (Z.lor (Z.land v (unot (mode_bits v))) modes)) as Hn.
  { apply is_ulong_lor; [|done]. apply is_ulong_land; [done|]. apply wrap_range. }
  destruct (quiet_modes v modes Hv Hn Ha Hq) as [Et Hq'].
  apply running_same; [done..| |by rewrite usable_write1|].
  - by apply tl_write1.
  - rewrite Hm. by apply tl_quiet.
Qed.

Lemma BIT_ulong (b : Z) : is_ulong (BIT b).
Proof. apply wrap_range. Qed.

Lemma type_bits_ulong (ty : Z) :
  is_ulong (ty_u (trigger_types ty)) /\ is_ulong (ty_s (trigger_types ty)) /\
  is_ulong (ty_vu (trigger_types ty)) /\ is_ulong (ty_vs (trigger_types ty)).
Proof.
  unfold trigger_types.
  repeat match goal with |- context [if ?b then _ else _] => destruct b end;
    cbn [ty_u ty_s ty_vu ty_vs]; split_and!; first [apply BIT_ulong | apply is_ulong_0].
Qed.

Lemma state_modes_ulong (state ty : Z) : is_ulong (state_modes state (trigger_types ty)).
Proof.
  destruct (type_bits_ulong ty) as (? & ? & ? & ?). unfold state_modes.
  repeat apply is_ulong_lor; repeat case_match; auto using is_ulong_0.
Qed.

Lemma select_read1 h i :
  length (tf_regs h) = th_count -> (i < th_count)%nat -> tdata1_read (tselect_write h i) = td1 (tf_regs h !!! i).
Proof. intros Hlen Hi. rewrite select_put by done. by rewrite read1_put. Qed.

Lemma set_op_body_running N base mask op h d i :
  running_ok N h d ->
  (in_mask mask (Z.of_nat i) = true -> mapped d (Z.to_nat (uadd base (Z.of_nat i))) = true) ->
  let '(h', d') := set_op_body base mask op (h, d) i in running_ok N h' d'.
Proof.
  intros Hr Hmap. unfold set_op_body. set (idx := Z.to_nat (uadd base (Z.of_nat i))) in *.
  destruct (in_mask mask (Z.of_nat i)); cbn [negb]; [|done]. specialize (Hmap eq_refl).
  pose proof (so_mapped _ _ (ro_slot _ _ _ Hr) _ Hmap) as Hi.
  destruct (running_in _ _ _ _ Hr Hi) as (Hth & Hst & Hlen & Hleg).
  assert (forall modes, is_ulong modes -> type_fields (TDATA1_TYPE (td1 (tf_regs h !!! idx))) modes ->
    running_ok N (tdata1_write (tselect_write h idx) (Z.lor (Z.land (tdata1_read (tselect_write h idx))
      (unot (mode_bits (tdata1_read (tselect_write h idx))))) modes)) d) as Hw.
  { intros modes Hu Ha. rewrite select_read1 by done. rewrite select_put, write1_put by done. by apply running_modes. }
  destruct op; [by apply running_clear|apply Hw..].
  - apply state_modes_ulong.
  - rewrite select_read1 by done. apply state_modes_apart.
  - apply is_ulong_0.
  - apply zero_apart.
Qed.

(** Past the checks the triggers named are mapped, and [base + i] does not wrap. *)
Lemma set_op_accepted d base mask i :
  is_ulong base -> (i < Z.to_nat XLEN)%nat ->
  existsb (set_op_refuses d base mask) (seq 0 (Z.to_nat XLEN)) = false ->
  in_mask mask (Z.of_nat i) = true ->
  uadd base (Z.of_nat i) = base + Z.of_nat i /\ mapped d (Z.to_nat (uadd base (Z.of_nat i))) = true.
Proof.
  intros Hb Hi Hno Hin. apply not_true_iff_false in Hno.
  destruct (set_op_refuses d base mask i) eqn:E.
  { destruct Hno. apply existsb_exists. exists i. split; [apply in_seq; lia|done]. }
  unfold set_op_refuses in E. rewrite Hin in E. cbn [andb] in E.
  apply orb_false_iff in E as [E Hm]. apply orb_false_iff in E as [Hlt _]. apply negb_false_iff in Hm.
  split; [|done]. apply uadd_no_carry; [done|apply index_ulong; lia|done].
Qed.

Lemma set_op_running N base mask op h d :
  is_ulong base -> running_ok N h d ->
  existsb (set_op_refuses d base mask) (seq 0 (Z.to_nat XLEN)) = false ->
  let '(h', d') := foldl (set_op_body base mask op) (h, d) (seq 0 (Z.to_nat XLEN)) in running_ok N h' d'.
Proof.
  intros Hb Hr Hno.
  pose (P := fun (n : nat) (hd : trigger_file * dbtr_hart) => running_ok N hd.1 hd.2 /\
    forall j, (n <= j < Z.to_nat XLEN)%nat -> in_mask mask (Z.of_nat j) = true ->
      mapped hd.2 (Z.to_nat (uadd base (Z.of_nat j))) = true).
  assert (P (Z.to_nat XLEN) (foldl (set_op_body base mask op) (h, d) (seq 0 (Z.to_nat XLEN)))) as [H _].
  { apply (foldl_seq_ind P).
    - split; [done|]. intros j Hj Hin. eapply set_op_accepted; [done| |done|done]. lia.
    - intros i [h1 d1] Hi [Hr1 Hm1]. cbn [fst snd] in Hr1, Hm1.
      pose proof (set_op_body_running N base mask op h1 d1 i Hr1 (Hm1 i ltac:(lia))) as Hr2.
      assert (forall j, (S i <= j < Z.to_nat XLEN)%nat -> in_mask mask (Z.of_nat j) = true ->
        mapped (set_op_body base mask op (h1, d1) i).2 (Z.to_nat (uadd base (Z.of_nat j))) = true) as Hm2.
      { intros j Hj Hin. cbn [set_op_body]. specialize (Hm1 j ltac:(lia) Hin) as Hmj.
        destruct (in_mask mask (Z.of_nat i)) eqn:Hini; cbn [negb snd]; [|done]. destruct op; cbn [snd]; [|done..].
        specialize (Hm1 i ltac:(lia) Hini) as Hmi.
        pose proof (so_mapped _ _ (ro_slot _ _ _ Hr1) _ Hmi) as Hlt.
        destruct (running_in _ _ _ _ Hr1 Hlt) as (_ & Hst & _ & _).
        destruct (set_op_accepted d base mask i Hb Hi Hno Hini) as [Ei _].
        destruct (set_op_accepted d base mask j Hb ltac:(lia) Hno Hin) as [Ej _].
        rewrite mapped_insert by done. rewrite decide_False; [done|].
        rewrite Ei, Ej. unfold is_ulong in Hb. lia. }
      split; [|exact Hm2]. by destruct (set_op_body base mask op (h1, d1) i). }
  by destruct (foldl _ _ _).
Qed.

Lemma set_op_hart_ok N s base mask op : is_ulong base -> hart_ok N s -> hart_ok N (set_op_apply s base mask op).2.
Proof.
  intros Hb Hok. unfold set_op_apply. destruct (existsb _ _) eqn:E; [done|].
  pose proof (set_op_running N base mask op (db_hw s) (this_dbtr s) Hb (ho_running _ _ Hok) E) as H.
  destruct (foldl _ _ _) as [h d]. cbn [snd].
  apply (hart_ok_own N s); [done|apply own_set|by rewrite dbtr_set_this].
Qed.

(** ** From one domain to another *)

(** No trigger is on: between two domains. *)
Record idle_ok (N : nat) h : Prop := {
  io_file : file_ok h;
  io_count : trigger_count (tf_regs h) = N;
  io_off i t : tf_regs h !! i = Some t -> off (td1 t);
}.

Lemma idle_tail N h : idle_ok N h -> tail_off N h.
Proof. intros [_ _ Ho] i t _. apply Ho. Qed.

Lemma count_bound N h d i :
  file_ok h -> trigger_count (tf_regs h) = N -> slot_ok N d -> (i < dh_count d)%nat ->
  (i < th_count)%nat /\ (i < MAX_TRIGGERS)%nat.
Proof.
  intros Hf HN Hso Hi. destruct (trigger_count_bounds (tf_regs h)) as [H1 H2]; [apply Hf|].
  destruct (so_count _ _ Hso); lia.
Qed.

(** Halfway out: the first [n] triggers are saved and off. *)
Record leaving (N : nat) h d (n : nat) (hd : trigger_file * dbtr_hart) : Prop := {
  lv_file : file_ok hd.1;
  lv_count : trigger_count (tf_regs hd.1) = N;
  lv_slot : hd.2 = d <| dh_saved := dh_saved hd.2 |>;
  lv_length : length (dh_saved hd.2) = MAX_TRIGGERS;
  lv_todo i : (n <= i)%nat -> tf_regs hd.1 !! i = tf_regs h !! i;
  lv_off i t : (i < n)%nat -> tf_regs hd.1 !! i = Some t -> off (td1 t);
  lv_saved i : (i < n)%nat -> mapped d i = true -> dh_saved hd.2 !!! i = tf_regs h !!! i;
}.

Lemma saved_mapped d d' i : d' = d <| dh_saved := dh_saved d' |> -> mapped d' i = mapped d i.
Proof. intros ->. done. Qed.

(** What is read of a trigger is what it holds. *)
Lemma select_reads N h d i :
  file_ok h -> slot_ok N d -> (i < dh_count d)%nat -> (i < th_count)%nat ->
  TData (tdata1_read (tselect_write h i)) (tdata2_read (tselect_write h i))
    (if dh_has_tdata3 d then tdata3_read (tselect_write h i) else 0) = tf_regs h !!! i.
Proof.
  intros Hf Hso Hi Hth. destruct (file_ok_get h i Hf Hth) as [_ Hleg].
  rewrite select_put by (done || apply Hf). unfold tdata1_read, tdata2_read, tdata3_read.
  rewrite !selected_put by (done || apply Hf). rewrite (so_tdata3' _ _ Hso) by lia.
  destruct th_has_tdata3 eqn:E; [by destruct (tf_regs h !!! i)|].
  rewrite <- (tl_no_tdata3 i _ E Hleg). by destruct (tf_regs h !!! i).
Qed.

Lemma select_clear h i :
  length (tf_regs h) = th_count -> (i < th_count)%nat -> hw_clear (tselect_write h i) i = put h i (cleared i (tf_regs h !!! i)).
Proof. intros Hlen Hi. rewrite select_put by done. by rewrite hw_clear_put. Qed.

Lemma leaving_step N h d i hd :
  running_ok N h d -> (i < dh_count d)%nat -> leaving N h d i hd -> leaving N h d (S i) (switch_out_body hd i).
Proof.
  intros Hr Hi [Hf HN Hd Hl Htodo Hoff Hsaved]. destruct hd as [h1 d1]. cbn [fst snd] in *.
  destruct (count_bound N h d i (ro_file _ _ _ Hr) (ro_count _ _ _ Hr) (ro_slot _ _ _ Hr) Hi) as [Hth Hmax].
  destruct (file_ok_get h1 i Hf Hth) as [Hg Hleg].
  assert (tf_regs h1 !!! i = tf_regs h !!! i) as Ei by (rewrite !list_lookup_total_alt, Htodo by lia; done).
  unfold switch_out_body. rewrite (saved_mapped _ _ _ Hd). destruct (mapped d i) eqn:Hm; cbn [negb].
  - assert (dh_has_tdata3 d1 = dh_has_tdata3 d) as E3 by (by rewrite Hd).
    rewrite E3, (select_reads N) by (done || apply Hr). rewrite select_clear by (done || apply Hf).
    split; cbn [fst snd].
    + apply file_ok_put; [done..|]. by apply cleared_legal.
    + rewrite trigger_count_put; [done|apply Hf|done|by rewrite cleared_usable].
    + rewrite Hd. by destruct d.
    + change (length (<[i := tf_regs h1 !!! i]> (dh_saved d1)) = MAX_TRIGGERS). by rewrite length_insert.
    + intros j Hj. rewrite put_regs by (done || apply Hf). rewrite decide_False by lia. apply Htodo. lia.
    + intros j t Hj. rewrite put_regs by (done || apply Hf). case_decide; [|apply Hoff; lia].
      intros [= <-]. by apply cleared_off.
    + intros j Hj Hmj. change (<[i := tf_regs h1 !!! i]> (dh_saved d1) !!! j = tf_regs h !!! j).
      destruct (decide (i = j)) as [<-|Hne].
      * rewrite list_lookup_total_insert_eq by lia. done.
      * rewrite list_lookup_total_insert_ne by done. apply Hsaved; [lia|done].
  - split; cbn [fst snd]; try done.
    + intros j Hj. apply Htodo. lia.
    + intros j t Hj Ht. destruct (decide (j = i)) as [->|]; [|apply (Hoff j t); [lia|done]].
      rewrite Htodo in Ht by lia. pose proof (ro_quiet _ _ _ Hr i t Ht) as H. by rewrite Hm in H.
    + intros j Hj Hmj. apply Hsaved; [|done]. assert (j <> i) by (intros ->; congruence). lia.
Qed.

Lemma triggers_out_spec N h d :
  running_ok N h d ->
  let '(h', d') := foldl switch_out_body (h, d) (seq 0 (dh_count d)) in
  idle_ok N h' /\ slot_ok N d' /\ saved_ok d' /\ d' = d <| dh_saved := dh_saved d' |> /\
  forall i, mapped d i = true -> dh_saved d' !!! i = tf_regs h !!! i.
Proof.
  intros Hr. pose proof (ro_slot _ _ _ Hr) as Hso.
  assert (leaving N h d (dh_count d) (foldl switch_out_body (h, d) (seq 0 (dh_count d)))) as H.
  { apply (foldl_seq_ind (leaving N h d)); [|intros i hd Hi; by apply leaving_step].
    split; cbn [fst snd]; try done; [apply Hr|apply Hr|by destruct d|apply Hso|lia|lia]. }
  destruct (foldl _ _ _) as [h' d']. destruct H as [Hf HN Hd Hl Htodo Hoff Hsaved]. cbn [fst snd] in *.
  assert (forall i, mapped d' i = mapped d i) as Em by (intros i; by apply saved_mapped).
  split_and!; try done.
  - split; [done..|]. intros i t Ht. destruct (decide (i < dh_count d)%nat) as [Hlt|Hge]; [by eapply Hoff|].
    rewrite Htodo in Ht by lia. pose proof (ro_quiet _ _ _ Hr i t Ht) as H.
    destruct (mapped d i) eqn:Hm; [|done]. apply (so_mapped _ _ Hso) in Hm. lia.
  - destruct Hso as [H1 H2 H3 H4 H5 H6 H7]. rewrite Hd. by split.
  - intros i Hm. rewrite Em in Hm. pose proof (so_mapped _ _ Hso i Hm) as Hi. rewrite Hsaved by done.
    destruct (running_in _ _ _ _ Hr Hi) as (Hth & Hst & Hlen & Hleg). split; [done|].
    pose proof (ro_quiet _ _ _ Hr i (tf_regs h !!! i)) as H. rewrite Hm in H. apply H.
    by apply file_ok_get; [apply Hr|].
  - intros i Hm. apply Hsaved; [by apply (so_mapped _ _ Hso)|done].
Qed.

(** Halfway in *)
Record arriving (N : nat) d (n : nat) h : Prop := {
  ar_file : file_ok h;
  ar_count : trigger_count (tf_regs h) = N;
  ar_regs i t : tf_regs h !! i = Some t ->
    if bool_decide (i < n)%nat && mapped d i then t = dh_saved d !!! i else off (td1 t);
}.

Lemma switch_in_put N h d i :
  file_ok h -> slot_ok N d -> saved_ok d -> mapped d i = true -> (i < dh_count d)%nat -> (i < th_count)%nat ->
  switch_in_body d h i = put h i (dh_saved d !!! i).
Proof.
  intros Hf Hso Hsv Hm Hi Hth. destruct (file_ok_get h i Hf Hth) as [_ Hleg]. destruct Hf as [Hlen _].
  destruct (Hsv i Hm) as [Hsl _].
  unfold switch_in_body. rewrite Hm. cbn [negb]. rewrite hw_clear_eq, write2_put by done.
  rewrite (so_tdata3' _ _ Hso) by lia.
  pose proof (tl_back i (cleared i (tf_regs h !!! i)) (dh_saved d !!! i)
    (cleared_legal _ _ Hleg) (cleared_off _ _ Hleg) Hsl) as Hb.
  unfold given in Hb. destruct th_has_tdata3; rewrite ?write3_put, write1_put by done; by f_equal.
Qed.

Lemma triggers_in_spec N h d :
  idle_ok N h -> slot_ok N d -> saved_ok d ->
  running_ok N (foldl (switch_in_body d) h (seq 0 (dh_count d))) d /\
  forall i, mapped d i = true -> tf_regs (foldl (switch_in_body d) h (seq 0 (dh_count d))) !! i = Some (dh_saved d !!! i).
Proof.
  intros [Hf HN Ho] Hso Hsv.
  assert (arriving N d (dh_count d) (foldl (switch_in_body d) h (seq 0 (dh_count d)))) as H.
  { apply (foldl_seq_ind (arriving N d)).
    { split; [done..|]. intros i t Ht. rewrite bool_decide_false by lia. cbn. by eapply Ho. }
    intros i h1 Hi [Hf1 HN1 Hr1]. destruct (count_bound N h1 d i Hf1 HN1 Hso Hi) as [Hth _].
    destruct (mapped d i) eqn:Hm.
    - rewrite (switch_in_put N) by done. destruct (Hsv i Hm) as [Hsl Hsq].
      split; [by apply file_ok_put| |].
      + rewrite trigger_count_put; [done|apply Hf1|done|]. destruct (file_ok_get h1 i Hf1 Hth) as [_ Hleg].
        rewrite <- (tl_back i (cleared i (tf_regs h1 !!! i)) (dh_saved d !!! i)
          (cleared_legal _ _ Hleg) (cleared_off _ _ Hleg) Hsl) at 1.
        unfold given. rewrite usable_write1. rewrite <- (cleared_usable i (tf_regs h1 !!! i)).
        by destruct th_has_tdata3.
      + intros j t. rewrite put_regs by (done || apply Hf1). case_decide as E; subst.
        * intros [= <-]. rewrite bool_decide_true by lia. by rewrite Hm.
        * intros Ht. specialize (Hr1 j t Ht).
          replace (bool_decide (j < S i)%nat) with (bool_decide (j < i)%nat); [done|].
          apply bool_decide_ext. lia.
    - unfold switch_in_body. rewrite Hm. cbn [negb]. split; [done..|]. intros j t Ht. specialize (Hr1 j t Ht).
      destruct (decide (j = i)) as [->|Hne].
      + rewrite Hm, andb_false_r in *. done.
      + replace (bool_decide (j < S i)%nat) with (bool_decide (j < i)%nat); [done|]. apply bool_decide_ext. lia. }
  set (h' := foldl _ _ _) in *. destruct H as [Hf' HN' Hr']. split; [split; try done|].
  - intros i t Ht. specialize (Hr' i t Ht). destruct (mapped d i) eqn:Hm; [|by rewrite andb_false_r in Hr'].
    pose proof (so_mapped _ _ Hso i Hm). rewrite bool_decide_true in Hr' by done. cbn in Hr'. subst t. by apply Hsv.
  - intros i Hm. pose proof (so_mapped _ _ Hso i Hm) as Hi.
    destruct (count_bound N h' d i Hf' HN' Hso Hi) as [Hth _].
    destruct (file_ok_get h' i Hf' Hth) as [Hg _]. rewrite Hg. f_equal.
    specialize (Hr' i _ Hg). by rewrite bool_decide_true, Hm in Hr' by done.
Qed.

(** ** Every operation, in any order *)

(** [hart_services_switch_out()], the other domain, [hart_services_switch_in()] *)
Definition dbtr_switch s (k : Z) (fresh : bool) : dbtr :=
  dbtr_hart_switch_in ((dbtr_hart_switch_out s) <| db_dom := k |>) fresh.

(** What S-mode and the hardware do with the triggers of a hart. Hardware
    changes a trigger that is on: it keeps its type, dmode and m. *)
Inductive dbtr_step (range_ok : Z -> Z -> bool) : relation dbtr :=
| DsStart s : dbtr_step range_ok s (dbtr_hart_init s)
| DsSwitch s k fresh : dbtr_step range_ok s (dbtr_switch s k fresh)
| DsShmem s lo hi flags : dbtr_step range_ok s (dbtr_set_shmem range_ok s lo hi flags).2
| DsRead s base count out : dbtr_step range_ok s (dbtr_read s base count out).1.2
| DsInstall s count mem : Forall entry_wf mem -> dbtr_step range_ok s (dbtr_install s count mem).1.2
| DsUpdate s count mem : Forall entry_wf mem -> dbtr_step range_ok s (dbtr_update s count mem).2
| DsSet s base mask op : is_ulong base -> dbtr_step range_ok s (set_op_apply s base mask op).2
| DsFires s i t t' :
    tf_regs (db_hw s) !! i = Some t -> ~ off (td1 t) -> th_legal i t' ->
    Z.land (td1 t') type_mask = Z.land (td1 t) type_mask ->
    Z.land (td1 t') TDATA1_DMODE = Z.land (td1 t) TDATA1_DMODE ->
    Z.land (td1 t') (ty_m (type_of (td1 t))) = Z.land (td1 t) (ty_m (type_of (td1 t))) ->
    dbtr_step range_ok s (s <| db_hw ::= fun h => h <| tf_regs ::= <[i := t']> |> |>).

(** Out of reset the triggers are off, and the slots are the heap's zeros. *)
Record dbtr_reset s : Prop := {
  dr_length : length (tf_regs (db_hw s)) = th_count;
  dr_regs i t : tf_regs (db_hw s) !! i = Some t -> th_legal i t /\ off (td1 t);
  dr_slots k : db_slots s k = dbtr_hart_zero <| dh_shmem := 0 |>;
}.

Lemma slot_ok_zero N : slot_ok N (dbtr_hart_zero <| dh_shmem := 0 |>).
Proof.
  split; try done.
  - by right.
  - apply length_replicate.
  - apply length_replicate.
  - intros i. by rewrite (mapped_word dbtr_hart_zero), mapped_zero.
  - intros i _. apply (word_zero i).
Qed.

Lemma reset_ok s : dbtr_reset s -> hart_ok (trigger_count (tf_regs (db_hw s))) s.
Proof.
  intros [Hlen Hregs Hslots]. split.
  - unfold this_dbtr. rewrite Hslots. apply running_off; [split; [done|]|done|apply slot_ok_zero| |].
    + intros i t Ht. by apply Hregs.
    + intros i. by rewrite (mapped_word dbtr_hart_zero), mapped_zero.
    + intros i t Ht. by eapply Hregs.
  - intros k _. rewrite Hslots. split; [apply slot_ok_zero|]. intros i.
    by rewrite (mapped_word dbtr_hart_zero), mapped_zero.
Qed.

Lemma init_ok N s : hart_ok N s -> hart_ok N (dbtr_hart_init s).
Proof.
  intros Hok. destruct (ho_running _ _ Hok) as [Hf HN Hso Hq].
  assert (tail_off N (db_hw s)) as Ht.
  { intros i t Hi Ht. specialize (Hq i t Ht). destruct (mapped _ i) eqn:Hm; [|done].
    apply (so_mapped _ _ Hso) in Hm. destruct (so_count _ _ Hso); lia. }
  destruct (init_running s N Hf HN Ht) as (Hr & Ed & Es). apply (hart_ok_own N s); [done|by split|done].
Qed.

(** Between the domains every slot is in order, this one too. *)
Lemma switch_out_ok N s :
  hart_ok N s ->
  let s' := dbtr_hart_switch_out s in
  idle_ok N (db_hw s') /\ (forall k, slot_ok N (db_slots s' k) /\ saved_ok (db_slots s' k)) /\ own s s' /\
  this_dbtr s' = (this_dbtr s) <| dh_saved := dh_saved (this_dbtr s') |> /\
  forall i, mapped (this_dbtr s) i = true -> dh_saved (this_dbtr s') !!! i = tf_regs (db_hw s) !!! i.
Proof.
  intros [Hr Ho]. unfold dbtr_hart_switch_out. pose proof (triggers_out_spec N _ _ Hr) as H.
  destruct (foldl _ _ _) as [h d]. destruct H as (Hi & Hso & Hsv & Hd & Hsaved). cbv zeta. rewrite dbtr_set_this.
  split; [done|]. split; [|split; [apply own_set|by split]].
  intros k. destruct (decide (k = db_dom s)) as [->|Hk]; [|rewrite dbtr_set_other by done; by apply Ho].
  change (db_dom s) with (db_dom (dbtr_set s h d)). fold (this_dbtr (dbtr_set s h d)). by rewrite dbtr_set_this.
Qed.

Lemma switch_in_ok N s fresh :
  idle_ok N (db_hw s) -> (forall k, slot_ok N (db_slots s k) /\ saved_ok (db_slots s k)) ->
  hart_ok N (dbtr_hart_switch_in s fresh) /\ own s (dbtr_hart_switch_in s fresh) /\
  (fresh = false -> this_dbtr (dbtr_hart_switch_in s fresh) = this_dbtr s /\
    forall i, mapped (this_dbtr s) i = true ->
      tf_regs (db_hw (dbtr_hart_switch_in s fresh)) !! i = Some (dh_saved (this_dbtr s) !!! i)).
Proof.
  intros Hi Hs. unfold dbtr_hart_switch_in. destruct fresh.
  - destruct (init_running s N) as (Hr & Ed & Es); [apply Hi|apply Hi|by apply idle_tail|].
    split; [split; [done|]|split; [by split|done]]. intros k. rewrite Ed. intros Hk. by rewrite Es.
  - destruct (Hs (db_dom s)) as [Hso Hsv]. destruct (triggers_in_spec N _ _ Hi Hso Hsv) as [Hr Hregs].
    rewrite dbtr_set_this. split; [split|split; [apply own_set|done]].
    + by rewrite dbtr_set_this.
    + intros k Hk. by rewrite dbtr_set_other.
Qed.

Lemma switch_ok N s k fresh : hart_ok N s -> hart_ok N (dbtr_switch s k fresh).
Proof.
  intros Hok. destruct (switch_out_ok N s Hok) as (Hi & Hs & _ & _ & _).
  unfold dbtr_switch. by apply switch_in_ok.
Qed.

Lemma fires_ok N s i t t' :
  hart_ok N s -> tf_regs (db_hw s) !! i = Some t -> ~ off (td1 t) -> th_legal i t' ->
  Z.land (td1 t') type_mask = Z.land (td1 t) type_mask ->
  Z.land (td1 t') TDATA1_DMODE = Z.land (td1 t) TDATA1_DMODE ->
  Z.land (td1 t') (ty_m (type_of (td1 t))) = Z.land (td1 t) (ty_m (type_of (td1 t))) ->
  hart_ok N (s <| db_hw ::= fun h => h <| tf_regs ::= <[i := t']> |> |>).
Proof.
  intros Hok Ht Hoff Hl' E1 E2 E3. apply (hart_ok_own N s); [done|by split|].
  pose proof (ho_running _ _ Hok) as Hr.
  change (running_ok N ((db_hw s) <| tf_regs ::= <[i := t']> |>) (this_dbtr s)).
  pose proof (ro_quiet _ _ _ Hr i t Ht) as Hq. destruct (mapped (this_dbtr s) i) eqn:Hm; [|done].
  pose proof (so_mapped _ _ (ro_slot _ _ _ Hr) i Hm) as Hi.
  destruct (running_in _ _ _ _ Hr Hi) as (Hth & Hst & Hlen & Hleg).
  assert (tf_regs (db_hw s) !!! i = t) as Et by (by rewrite list_lookup_total_alt, Ht). rewrite Et in Hleg.
  destruct (quiet_agree (td1 t') (td1 t)) as [Ety Hq']; try done; [by eapply tl_ulong..|].
  assert (running_ok N (put (db_hw s) i t') (this_dbtr s)) as [Hf HN Hso Hqq].
  { apply running_same; try done; [|by rewrite Hm]. rewrite Et. by apply usable_td1. }
  by split.
Qed.

Lemma read_regs d base h out n :
  tf_regs (foldl (read_body d base) (h, out) (seq 0 n)).1 = tf_regs h.
Proof. apply (foldl_seq_ind (fun _ st => tf_regs st.1 = tf_regs h)); [done|]. by intros i [h1 out1] _. Qed.

Lemma regs_running N h h' d : tf_regs h' = tf_regs h -> running_ok N h d -> running_ok N h' d.
Proof. intros E [Hf HN Hso Hq]. split; unfold file_ok in *; by rewrite ?E. Qed.

Lemma read_ok N s base count out : hart_ok N s -> hart_ok N (dbtr_read s base count out).1.2.
Proof.
  intros Hok. unfold dbtr_read. destruct (truth _); [done|]. destruct (_ || _); [done|].
  pose proof (read_regs (this_dbtr s) (Z.to_nat base) (db_hw s) out (Z.to_nat count)) as Hregs.
  destruct (foldl _ _ _) as [h out']. cbn [fst snd] in *.
  apply (hart_ok_own N s); [done|apply own_set|]. rewrite dbtr_set_this.
  by apply (regs_running N (db_hw s)); [|apply Hok].
Qed.

Lemma shmem_ok N s range_ok lo hi flags : hart_ok N s -> hart_ok N (dbtr_set_shmem range_ok s lo hi flags).2.
Proof.
  intros Hok. unfold dbtr_set_shmem.
  assert (forall a, hart_ok N (dbtr_set s (db_hw s) ((this_dbtr s) <| dh_shmem := a |>))) as H.
  { intros a. apply (hart_ok_own N s); [done|apply own_set|]. rewrite dbtr_set_this.
    destruct (ho_running _ _ Hok) as [Hf HN [H1 H2 H3 H4 H5 H6 H7] Hq]. by split. }
  repeat case_match; try done; apply H.
Qed.

Lemma install_ok N s count mem : hart_ok N s -> Forall entry_wf mem -> hart_ok N (dbtr_install s count mem).1.2.
Proof.
  intros Hok Hwf. destruct (dbtr_install s count mem) as [[[rc failed] s'] mem'] eqn:E.
  destruct (install_spec N _ _ _ _ _ _ _ Hok Hwf E) as (Hr & Ho & _). by eapply hart_ok_own.
Qed.

Lemma step_ok N range_ok s s' : hart_ok N s -> dbtr_step range_ok s s' -> hart_ok N s'.
Proof.
  intros Hok Hstep. destruct Hstep.
  - by apply init_ok.
  - by apply switch_ok.
  - by apply shmem_ok.
  - by apply read_ok.
  - by apply install_ok.
  - by apply update_running.
  - by apply set_op_hart_ok.
  - by eapply fires_ok.
Qed.

Lemma steps_ok N range_ok s s' : hart_ok N s -> rtc (dbtr_step range_ok) s s' -> hart_ok N s'.
Proof. intros Hok Hs. induction Hs; [done|]. eauto using step_ok. Qed.

Lemma slot_frame N range_ok s s' k :
  hart_ok N s -> dbtr_step range_ok s s' -> db_dom s <> k -> db_dom s' <> k -> db_slots s' k = db_slots s k.
Proof.
  intros Hok Hstep Hk Hk'. assert (forall s1, own s s1 -> db_slots s1 k = db_slots s k) as Hown
    by (intros s1 [_ Es]; apply Es; congruence).
  destruct Hstep as [s|s k' fresh|s lo hi flags|s base count out|s count mem Hwf|s count mem Hwf|s base mask op Hb|s].
  - apply Hown. destruct (ho_running _ _ Hok) as [Hf HN Hso Hq].
    unfold dbtr_hart_init. destruct (dbtr_init_loop _ _ _ _). case_match; apply own_set.
  - destruct (switch_out_ok N s Hok) as (Hi & Hs & Ho & _).
    unfold dbtr_switch in *. set (s1 := (dbtr_hart_switch_out s) <| db_dom := k' |>) in *.
    destruct (switch_in_ok N s1 fresh Hi Hs) as (_ & [Ed Es] & _). rewrite Ed in Hk'.
    rewrite Es by (intros ->; by apply Hk'). by apply (Hown (dbtr_hart_switch_out s)).
  - apply Hown. unfold dbtr_set_shmem. repeat case_match; first [apply own_refl|apply own_set].
  - apply Hown. unfold dbtr_read. repeat case_match; first [apply own_refl|apply own_set].
  - apply Hown. destruct (dbtr_install s count mem) as [[[rc failed] s'] mem'] eqn:E.
    by destruct (install_spec N _ _ _ _ _ _ _ Hok Hwf E) as (_ & Ho & _).
  - apply Hown. unfold dbtr_update. repeat case_match; first [apply own_refl|apply own_set].
  - apply Hown. unfold set_op_apply. repeat case_match; first [apply own_refl|apply own_set].
  - by apply Hown.
Qed.

(** Steps of the hart while it runs other domains than [k] *)
Definition away (range_ok : Z -> Z -> bool) (k : Z) : relation dbtr := fun s s' =>
  dbtr_step range_ok s s' /\ db_dom s <> k /\ db_dom s' <> k.

Lemma away_slot N range_ok k s s' :
  hart_ok N s -> rtc (away range_ok k) s s' -> hart_ok N s' /\ db_slots s' k = db_slots s k.
Proof.
  intros Hok Hs. induction Hs as [|s s1 s' (Hstep & H1 & H2) Hs IH]; [done|].
  destruct IH as [Hok' E]; [by eapply step_ok|]. split; [done|]. rewrite E. by eapply slot_frame.
Qed.

Lemma switch_leaves N s k fresh :
  hart_ok N s -> k <> db_dom s ->
  db_dom (dbtr_switch s k fresh) = k /\ db_slots (dbtr_switch s k fresh) (db_dom s) = this_dbtr (dbtr_hart_switch_out s).
Proof.
  intros Hok Hk. destruct (switch_out_ok N s Hok) as (Hi & Hsl & [Ed _] & _).
  unfold dbtr_switch. set (sk := (dbtr_hart_switch_out s) <| db_dom := k |>).
  destruct (switch_in_ok N sk fresh Hi Hsl) as (_ & [Es Eo] & _). rewrite Es. split; [done|].
  rewrite Eo by (subst sk; cbv [field_update]; cbn [db_dom]; congruence). unfold this_dbtr. by rewrite Ed.
Qed.

(** C24: the debug triggers are confined. Out of reset, whatever the domains
    of a hart ask for and in whatever order (set up, install, update, enable,
    disable, uninstall, switch), and whatever fires: a trigger that is on at
    all is one the running domain has installed, it cannot fire in M-mode and
    it is not a debugger's. Another domain's triggers never stay on. *)
Theorem dbtr_confined (range_ok : Z -> Z -> bool) (s0 s : dbtr) (i : nat) (t : tdata) :
  dbtr_reset s0 -> rtc (dbtr_step range_ok) s0 s -> tf_regs (db_hw s) !! i = Some t ->
  off (td1 t) \/ mapped (this_dbtr s) i = true /\ quiet (td1 t).
Proof.
  intros H0 Hs Ht. pose proof (steps_ok _ _ _ _ (reset_ok _ H0) Hs) as [Hr _].
  pose proof (ro_quiet _ _ _ Hr i t Ht) as Hq. destruct (mapped _ i); auto.
Qed.

(** a domain finds its triggers as it left them. The hart leaves the
    domain, does whatever it does in others (which may use the same
    triggers), and comes back: every trigger the domain has installed holds
    what it held, hit bits included, and the domain's records are the same. *)
Theorem dbtr_switch_roundtrip (range_ok : Z -> Z -> bool) (s0 s s1 : dbtr) (k : Z) (fresh : bool) (i : nat) :
  dbtr_reset s0 -> rtc (dbtr_step range_ok) s0 s ->
  rtc (away range_ok (db_dom s)) (dbtr_switch s k fresh) s1 -> k <> db_dom s ->
  mapped (this_dbtr s) i = true ->
  let s2 := dbtr_switch s1 (db_dom s) false in
  tf_regs (db_hw s2) !! i = tf_regs (db_hw s) !! i /\
  dh_state (this_dbtr s2) = dh_state (this_dbtr s) /\ dh_shmem (this_dbtr s2) = dh_shmem (this_dbtr s).
Proof.
  intros H0 Hs Haway Hk Hm. pose proof (steps_ok _ _ _ _ (reset_ok _ H0) Hs) as Hok.
  set (N := trigger_count _) in Hok. set (dom := db_dom s) in *.
  destruct (switch_out_ok N s Hok) as (Hi & Hsl & [Ed _] & Ethis & Esv).
  destruct (switch_leaves N s k fresh Hok Hk) as [Edk E1].
  destruct (away_slot N range_ok dom _ _ (switch_ok N s k fresh Hok) Haway) as [Hok1 E2].
  assert (db_dom s1 <> dom) as Hd1 by (destruct (rtc_inv_r _ _ Haway) as [<-|(y & _ & _ & _ & H)]; [by rewrite Edk|done]).
  destruct (switch_out_ok N s1 Hok1) as (Hi1 & Hsl1 & [_ Eo1] & _).
  unfold dbtr_switch. set (s1' := (dbtr_hart_switch_out s1) <| db_dom := dom |>).
  assert (this_dbtr s1' = this_dbtr (dbtr_hart_switch_out s)) as Eslot.
  { change (db_slots (dbtr_hart_switch_out s1) dom = this_dbtr (dbtr_hart_switch_out s)).
    rewrite Eo1 by congruence. by rewrite E2. }
  destruct (switch_in_ok N s1' false Hi1 Hsl1) as (_ & _ & Hback). destruct (Hback eq_refl) as [-> Hregs].
  rewrite Eslot in Hregs |- *. rewrite Hregs by (by rewrite (saved_mapped (this_dbtr s))).
  rewrite Esv by done. split; [|by rewrite Ethis].
  symmetry. apply file_ok_get; [apply Hok|].
  by apply (running_in N _ _ _ (ho_running _ _ Hok)), (so_mapped _ _ (ro_slot _ _ _ (ho_running _ _ Hok))).
Qed.


End Calls.

(** ** An example: a hart with two address match triggers, and two domains *)

Module TwoTriggers.

#[local] Instance ar : Arch := RV64.
#[local] Instance mt : MaxTriggers := 16%nat.

Definition mcontrol6 : Z := 6 * 2 ^ 60.

(** Type 6 is the only one: anything else written leaves the trigger off. *)
#[local] Instance th : TriggerHw := {|
  th_sdtrig := true;
  th_count := 2;
  th_tselect i := if decide (i < 2)%nat then i else O;
  th_tinfo := Some (fun i => if decide (i < 2)%nat then 2 ^ 6 else 1);
  th_has_tdata3 := false;
  th_tdata1 _ t v := t <| td1 := if TDATA1_TYPE v =? 6 then v else mcontrol6 |>;
  th_tdata2 _ _ v := v;
  th_tdata3 _ _ _ := 0;
|}.

#[local] Instance tl : TriggerLegal := fun _ t => is_ulong (td1 t) /\ TDATA1_TYPE (td1 t) = 6 /\ td3 t = 0.

Lemma mcontrol6_legal : is_ulong mcontrol6 /\ TDATA1_TYPE mcontrol6 = 6.
Proof. split; [|done]. unfold is_ulong. vm_compute. done. Qed.

#[local] Instance laws : TriggerLaws.
Proof.
  split.
  - intros i Hi. change ((if decide (i < 2)%nat then i else O) = i). by rewrite decide_True.
  - intros i Hi _. change th_count with 2%nat in Hi.
    change (Z.land (if decide (i < 2)%nat then 2 ^ 6 else 1) 0xffff = 1). by rewrite decide_False by lia.
  - by intros i t (? & _ & _).
  - by intros i t _ (_ & _ & ?).
  - intros i t v (H1 & H2 & H3) Hv. cbn. destruct (Z.eqb_spec (TDATA1_TYPE v) 6); split_and!;
      try done; apply mcontrol6_legal.
  - by intros i t v (H1 & H2 & H3).
  - by intros i t v ?.
  - intros i t _ _. change (td1 (th_tdata1 i t 0)) with mcontrol6. vm_compute. done.
  - intros i t v (_ & H2 & _) _ E. rewrite H2 in E. cbn. by rewrite E.
  - intros i t v (H1 & H2 & H3) _ (H1' & H2' & H3'). cbn in *. destruct t, v; cbn in *. rewrite H2'. by subst.
  - done.
Qed.

Definition reset : dbtr :=
  Dbtr (TriggerFile [TData mcontrol6 0 0; TData mcontrol6 0 0] 0) 0 (fun _ => dbtr_hart_zero <| dh_shmem := 0 |>).

Lemma reset_dbtr : dbtr_reset reset.
Proof.
  split; [done| |done]. intros i t Ht.
  assert (t = TData mcontrol6 0 0) as -> by (destruct i as [|[|]]; [by injection Ht as <-..|done]).
  split; [split_and!; [apply mcontrol6_legal|done|done]|by vm_compute].
Qed.

Definition any : Z -> Z -> bool := fun _ _ => true.

(** Execute, in S-mode, at an address; and one in M-mode *)
Definition breakpoint : dbtr_entry := DbtrEntry 0 (mcontrol6 + 0x14) 0x80200000 0.
Definition breakpoint_m : dbtr_entry := DbtrEntry 0 (mcontrol6 + 0x44) 0x80000000 0.

(** The boot domain sets up, gives its memory, and installs. *)
Definition started : dbtr := (dbtr_set_shmem any (dbtr_hart_init reset) 0x81000000 0 0).2.
Definition ready : dbtr := (dbtr_install started 1 [breakpoint; breakpoint]).1.2.

Lemma breakpoint_wf : Forall entry_wf [breakpoint; breakpoint].
Proof. repeat constructor; by vm_compute. Qed.

Lemma started_steps : rtc (dbtr_step any) reset started.
Proof. eapply rtc_l; [apply DsStart|]. apply rtc_once, DsShmem. Qed.

Lemma ready_steps : rtc (dbtr_step any) reset ready.
Proof. eapply rtc_r; [apply started_steps|]. apply DsInstall, breakpoint_wf. Qed.

(** The trigger is on, and it is the domain's. *)
Lemma dbtr_confined_witness :
  tf_regs (db_hw ready) !! 0%nat = Some (TData (mcontrol6 + 0x14) 0x80200000 0) /\
  (off (mcontrol6 + 0x14) \/ mapped (this_dbtr ready) 0 = true /\ quiet (mcontrol6 + 0x14)).
Proof.
  assert (tf_regs (db_hw ready) !! 0%nat = Some (TData (mcontrol6 + 0x14) 0x80200000 0)) as E by (vm_compute; reflexivity).
  split; [exact E|].
  exact (dbtr_confined any reset ready 0 (TData (mcontrol6 + 0x14) 0x80200000 0) reset_dbtr ready_steps E).
Defined.

(** Another domain installs its own in the same trigger meanwhile. *)
Definition other : dbtr :=
  (dbtr_install (dbtr_set_shmem any (dbtr_switch ready 1 true) 0x82000000 0 0).2 1 [breakpoint; breakpoint]).1.2.

Lemma other_steps : rtc (away any (db_dom ready)) (dbtr_switch ready 1 true) other.
Proof.
  eapply rtc_l; [split_and!; [apply (DsShmem any _ 0x82000000 0 0)|by vm_compute|by vm_compute]|].
  apply rtc_once. split_and!; [apply DsInstall, breakpoint_wf|by vm_compute|by vm_compute].
Qed.

Lemma dbtr_switch_roundtrip_witness :
  mapped (this_dbtr other) 0 = true /\
  tf_regs (db_hw (dbtr_switch other (db_dom ready) false)) !! 0%nat = tf_regs (db_hw ready) !! 0%nat.
Proof.
  assert (mapped (this_dbtr other) 0 = true) as Ho by (vm_compute; reflexivity).
  assert (mapped (this_dbtr ready) 0 = true) as Hm by (vm_compute; reflexivity).
  assert (1 <> db_dom ready) as Hk by (vm_compute; discriminate).
  split; [exact Ho|].
  exact (proj1 (dbtr_switch_roundtrip any reset ready other 1 true 0 reset_dbtr ready_steps other_steps Hk Hm)).
Defined.


End TwoTriggers.
