(* ===== verification/Pmu.v ===== *)
(** The performance monitoring unit, [arch/riscv/runtime/pmu.c]: the hardware
    counters handed out to S-mode, the firmware counters, and both per domain.

    The counters and their event selectors are WARL: what they hold after a
    write is a parameter ([PmuHw]). What the platform says of events (a node
    of the device tree, as lists of cells) is an argument of [pmu_init]. The
    arrays are functions of their index. A snapshot's memory is an argument
    of a call, and what the call leaves there a result; counters tick between
    calls. *)

From stdpp Require Import functions.
From S2P Require Import Prelude Arch Csr.

#[local] Open Scope Z_scope.

Definition PMU_HW_COUNTERS : Z := 32.
Definition PMU_FW_COUNTERS : Z := 16.
Definition PMU_FW_FIRST : Z := PMU_HW_COUNTERS.
Definition PMU_COUNTERS : Z := PMU_HW_COUNTERS + PMU_FW_COUNTERS.

Definition EVENT_NONE : Z := 2 ^ 32 - 1.
Definition EVENT_TYPE (idx : Z) : Z := Z.land (Z.shiftr idx 16) 0xf.
Definition EVENT_CODE (idx : Z) : Z := Z.land idx 0xffff.
Definition RAW_EVENT_MASK : Z := 0xffffffffffff.

Definition MAX_EVENT_RANGES : nat := 32.
Definition MAX_EVENT_SELECTS : nat := 64.
Definition MAX_RAW_EVENTS : nat := 16.

Definition HW_COUNTER_WIDTH : Z := 64.
Definition SNAPSHOT_SIZE : Z := 4096.
Definition SNAPSHOT_VALUES : Z := 64.

Definition SBI_PMU_EVENT_TYPE_HW_RAW : Z := 2.
Definition SBI_PMU_EVENT_TYPE_FW : Z := 15.
Definition SBI_PMU_HW_CPU_CYCLES : Z := 1.
Definition SBI_PMU_HW_INSTRUCTIONS : Z := 2.
Definition SBI_PMU_FW_MAX : Z := 22.
Definition SBI_PMU_CFG_FLAG_SKIP_MATCH : Z := 2 ^ 0.
Definition SBI_PMU_CFG_FLAG_CLEAR_VALUE : Z := 2 ^ 1.
Definition SBI_PMU_CFG_FLAG_AUTO_START : Z := 2 ^ 2.
Definition SBI_PMU_CFG_FLAG_SET_VUINH : Z := 2 ^ 3.
Definition SBI_PMU_CFG_FLAG_SET_VSINH : Z := 2 ^ 4.
Definition SBI_PMU_CFG_FLAG_SET_UINH : Z := 2 ^ 5.
Definition SBI_PMU_CFG_FLAG_SET_SINH : Z := 2 ^ 6.
Definition SBI_PMU_START_FLAG_SET_INIT_VALUE : Z := 2 ^ 0.
Definition SBI_PMU_START_FLAG_INIT_SNAPSHOT : Z := 2 ^ 1.
Definition SBI_PMU_STOP_FLAG_RESET : Z := 2 ^ 0.
Definition SBI_PMU_STOP_FLAG_TAKE_SNAPSHOT : Z := 2 ^ 1.

Definition HPMEVENT_OF_BIT : Z := 63.
Definition HPMEVENT_MINH_BIT : Z := 62.
Definition HPMEVENT_SINH_BIT : Z := 61.
Definition HPMEVENT_UINH_BIT : Z := 60.
Definition HPMEVENT_VSINH_BIT : Z := 59.
Definition HPMEVENT_VUINH_BIT : Z := 58.

Definition CSR_MCOUNTINHIBIT : Z := 0x320.
Definition CSR_MCYCLECFG : Z := 0x321.
Definition CSR_MINSTRETCFG : Z := 0x322.
Definition CSR_MCYCLECFGH : Z := 0x721.
Definition CSR_MINSTRETCFGH : Z := 0x722.
Definition CSR_MHPMEVENT0 : Z := 0x320.
Definition CSR_MHPMEVENT0H : Z := 0x720.
Definition CSR_MCYCLE : Z := 0xb00.
Definition CSR_MCYCLEH : Z := 0xb80.

Record event_range : Set := EventRange { er_first : Z; er_last : Z; er_counters : Z }.
Record event_select : Set := EventSelect { es_event_idx : Z; es_select : Z }.
Record raw_event : Set := RawEvent { re_select : Z; re_mask : Z; re_counters : Z }.

(** What [pmu_init] finds out, once *)
Class PmuTables := {
  ranges : list event_range;
  selects : list event_select;
  raw_events : list raw_event;
  hw_counters : Z;
  have_inhibit : bool;
}.

(** What a counter register holds after a write, by its number *)
Class PmuHw := pmu_warl : Z -> Z -> Z.

(** [struct pmu_hart]; the fields of [hw] have its name. *)
Record pmu_hart : Type := PmuHart {
  p_snapshot : Z;
  p_sse_enabled : bool;
  p_sse_saved_ie : bool;
  p_event : Z -> Z;
  p_fw_started : Z;
  p_fw_value : Z -> Z;
  hw_inhibit : Z;
  hw_irq_enabled : Z;
  hw_irq_delegated : Z;
  hw_irq_pending : Z;
  hw_value : Z -> Z;
  hw_select : Z -> Z;
}.
#[export] Instance pmu_hart_eta : Settable pmu_hart := fun p =>
  PmuHart (p_snapshot p) (p_sse_enabled p) (p_sse_saved_ie p) (p_event p) (p_fw_started p) (p_fw_value p)
    (hw_inhibit p) (hw_irq_enabled p) (hw_irq_delegated p) (hw_irq_pending p) (hw_value p) (hw_select p).

(** The calling hart: its CSRs, the domain it runs, its slots by domain *)
Record pmu : Type := Pmu { pm_csrs : csr_file; pm_dom : Z; pm_slots : Z -> pmu_hart }.
#[export] Instance pmu_eta : Settable pmu := fun s => Pmu (pm_csrs s) (pm_dom s) (pm_slots s).

(** ** Boot *)

(** The three properties of the "riscv,pmu" node, as cells, where they exist *)
Record pmu_node : Set := PmuNode {
  event_to_mhpmcounters : list Z;
  event_to_mhpmevent : list Z;
  raw_event_to_mhpmcounters : list Z;
}.

Definition add_range (t : list event_range) (first last counters : Z) : list event_range :=
  if Nat.eqb (length t) MAX_EVENT_RANGES || (last <? first) then t else t ++ [EventRange first last counters].

Fixpoint parse_ranges (cells : list Z) (t : list event_range) : list event_range :=
  match cells with
  | a :: b :: c :: cells => parse_ranges cells (add_range t a b c)
  | _ => t
  end.

Fixpoint parse_selects (cells : list Z) (t : list event_select) : list event_select :=
  match cells with
  | a :: hi :: lo :: cells =>
      if Nat.ltb (length t) MAX_EVENT_SELECTS
      then parse_selects cells (t ++ [EventSelect a (reg_pair_to_64 hi lo)]) else t
  | _ => t
  end.

Fixpoint parse_raw (cells : list Z) (t : list raw_event) : list raw_event :=
  match cells with
  | a :: b :: c :: d :: e :: cells =>
      if Nat.ltb (length t) MAX_RAW_EVENTS
      then parse_raw cells (t ++ [RawEvent (reg_pair_to_64 a b) (reg_pair_to_64 c d) e]) else t
  | _ => t
  end.

Definition pmu_parse_fdt (node : option pmu_node) : list event_range * list event_select * list raw_event :=
  match node with
  | None => ([], [], [])
  | Some n => (parse_ranges (event_to_mhpmcounters n) [], parse_selects (event_to_mhpmevent n) [],
               parse_raw (raw_event_to_mhpmcounters n) [])
  end.

(** [inhibit]: mcountinhibit exists; [writable n]: mhpmcounter [n] does not
    trap, and reads back what is written. *)
Definition pmu_init (inhibit : bool) (writable : Z -> bool) (node : option pmu_node) : PmuTables :=
  let hw := if inhibit
            then for_upto 29 (fun i hw => if writable (3 + i) then Z.lor hw (2 ^ (3 + i)) else hw) (Z.lor (2 ^ 0) (2 ^ 2))
            else 0 in
  let '(rs, ss, raws) := pmu_parse_fdt node in
  let rs := match rs with
            | [] => add_range (add_range rs SBI_PMU_HW_CPU_CYCLES SBI_PMU_HW_CPU_CYCLES (2 ^ 0))
                      SBI_PMU_HW_INSTRUCTIONS SBI_PMU_HW_INSTRUCTIONS (2 ^ 2)
            | _ => rs
            end in
  {| ranges := rs; selects := ss; raw_events := raws; hw_counters := hw; have_inhibit := inhibit |}.

Section Pmu.
Context {AR : Arch} {F : Features} {PT : PmuTables} {PH : PmuHw}.

Definition SNAPSHOT_NONE : Z := unot 0.

Definition this_pmu (s : pmu) : pmu_hart := pm_slots s (pm_dom s).
Definition pmu_set (s : pmu) (c : csr_file) (p : pmu_hart) : pmu :=
  s <| pm_csrs := c |> <| pm_slots := <[pm_dom s := p]> (pm_slots s) |>.

(** [while (!(v & 1))]: at most [n] rounds *)
Fixpoint lowest_bit (n : nat) (v : Z) : Z :=
  match n with
  | O => 0
  | S n => if truth (Z.land v 1) then 0 else 1 + lowest_bit n (Z.shiftr v 1)
  end.

(** ** The registers, by number *)

Definition pmu_csr_write (c : csr_file) (csr v : Z) : csr_file := csr_write c csr (pmu_warl csr (wrap v)).
Definition pmu_csr_set (c : csr_file) (csr v : Z) : csr_file := pmu_csr_write c csr (Z.lor (csr_read c csr) v).
Definition pmu_csr_clear (c : csr_file) (csr v : Z) : csr_file :=
  pmu_csr_write c csr (Z.land (csr_read c csr) (unot v)).

(** The cases of the switches *)
Definition is_counter (n : Z) : bool := (n =? 0) || (2 <=? n) && (n <=? 31).
Definition is_event (n : Z) : bool := (3 <=? n) && (n <=? 31).

Definition mcounter_read (c : csr_file) (n : Z) : Z := if is_counter n then csr_read c (CSR_MCYCLE + n) else 0.
Definition mcounter_write (c : csr_file) (n v : Z) : csr_file :=
  if is_counter n then pmu_csr_write c (CSR_MCYCLE + n) v else c.
Definition mhpmevent_read (c : csr_file) (n : Z) : Z := if is_event n then csr_read c (CSR_MHPMEVENT0 + n) else 0.
Definition mhpmevent_write (c : csr_file) (n v : Z) : csr_file :=
  if is_event n then pmu_csr_write c (CSR_MHPMEVENT0 + n) v else c.
Definition mcounterh_read (c : csr_file) (n : Z) : Z := if is_counter n then csr_read c (CSR_MCYCLEH + n) else 0.
Definition mcounterh_write (c : csr_file) (n v : Z) : csr_file :=
  if is_counter n then pmu_csr_write c (CSR_MCYCLEH + n) v else c.
Definition mhpmeventh_read (c : csr_file) (n : Z) : Z := if is_event n then csr_read c (CSR_MHPMEVENT0H + n) else 0.
Definition mhpmeventh_write (c : csr_file) (n v : Z) : csr_file :=
  if is_event n then pmu_csr_write c (CSR_MHPMEVENT0H + n) v else c.

Definition hw_counter_write (c : csr_file) (n v : Z) : csr_file :=
  let c := mcounter_write c n v in
  match arch_xlen with RV32 => mcounterh_write c n (Z.shiftr v 32) | RV64 => c end.

(** The upper half is read again until it has not changed: at once, while
    nothing ticks. *)
Definition hw_counter_read (c : csr_file) (n : Z) : Z :=
  match arch_xlen with
  | RV32 => reg_pair_to_64 (mcounterh_read c n) (mcounter_read c n)
  | RV64 => mcounter_read c n
  end.

Definition FILTER_BITS : Z := Z.shiftl 0x1f HPMEVENT_VUINH_BIT.

Definition fixed_cfg_read (c : csr_file) (n : Z) : Z :=
  let val := if truth n then csr_read c CSR_MINSTRETCFG else csr_read c CSR_MCYCLECFG in
  match arch_xlen with
  | RV32 => Z.lor val (Z.shiftl (if truth n then csr_read c CSR_MINSTRETCFGH else csr_read c CSR_MCYCLECFGH) 32)
  | RV64 => val
  end.

Definition fixed_cfg_write (c : csr_file) (n v : Z) : csr_file :=
  let v := Z.land v FILTER_BITS in
  let c := pmu_csr_write c (if truth n then CSR_MINSTRETCFG else CSR_MCYCLECFG) v in
  match arch_xlen with
  | RV32 => pmu_csr_write c (if truth n then CSR_MINSTRETCFGH else CSR_MCYCLECFGH) (Z.shiftr v 32)
  | RV64 => c
  end.

Definition hw_event_read (c : csr_file) (n : Z) : Z :=
  if n <? 3 then if hart_has HART_FEAT_SMCNTRPMF && negb (n =? 1) then fixed_cfg_read c n else 0
  else
    let val := mhpmevent_read c n in
    match arch_xlen with
    | RV32 => if hart_has HART_FEAT_SSCOFPMF then Z.lor val (Z.shiftl (mhpmeventh_read c n) 32) else val
    | RV64 => val
    end.

Definition hw_event_write (c : csr_file) (n v : Z) : csr_file :=
  if n <? 3 then if hart_has HART_FEAT_SMCNTRPMF && negb (n =? 1) then fixed_cfg_write c n v else c
  else
    let c := mhpmevent_write c n v in
    match arch_xlen with
    | RV32 => if hart_has HART_FEAT_SSCOFPMF then mhpmeventh_write c n (Z.shiftr v 32) else c
    | RV64 => c
    end.

Definition hw_counter_running (c : csr_file) (n : Z) : bool := negb (truth (Z.land (csr_read c CSR_MCOUNTINHIBIT) (BIT n))).

(** Hardware counter [n] exists. *)
Definition hw_has (n : Z) : bool := truth (Z.land hw_counters (BIT n)).

(** ** A hart, and its domains *)

(** [hw_counters & ~(BIT(0) | BIT(2))] *)
Definition hw_programmable : Z := Z.land hw_counters (unot (Z.lor (BIT 0) (BIT 2))).

Definition pmu_hart_init (s : pmu) : pmu :=
  let p := (this_pmu s) <| p_event := fun _ => EVENT_NONE |> <| p_fw_started := 0 |>
                        <| p_snapshot := SNAPSHOT_NONE |> <| p_sse_enabled := false |> in
  let c := pm_csrs s in
  if negb have_inhibit then pmu_set s c p
  else
    let c := pmu_csr_write c CSR_MCOUNTINHIBIT hw_programmable in
    let c := for_upto 29 (fun i c => if hw_has (3 + i) then hw_event_write c (3 + i) 0 else c) c in
    let c := hw_event_write c 0 (2 ^ HPMEVENT_MINH_BIT) in
    let c := hw_event_write c 2 (2 ^ HPMEVENT_MINH_BIT) in
    pmu_set s c p.

Definition save_counter (c : csr_file) (n : Z) (p : pmu_hart) : pmu_hart :=
  if negb (hw_has n) then p
  else p <| hw_value ::= <[n := hw_counter_read c n]> |> <| hw_select ::= <[n := hw_event_read c n]> |>.

Definition pmu_hart_switch_out (s : pmu) : pmu :=
  let p := this_pmu s in
  let c := pm_csrs s in
  let ovf := BIT IRQ_LCOF in
  let '(p, c) :=
    if hart_has HART_FEAT_SSCOFPMF
    then (p <| hw_irq_enabled := Z.land (csr_read c CSR_MIE) ovf |>
            <| hw_irq_delegated := Z.land (csr_read c CSR_MIDELEG) ovf |>
            <| hw_irq_pending := Z.land (csr_read c CSR_MIP) ovf |>, csr_clear c CSR_MIE ovf)
    else (p, c) in
  if negb have_inhibit then pmu_set s c p
  else
    let p := p <| hw_inhibit := csr_read c CSR_MCOUNTINHIBIT |> in
    let c := pmu_csr_write c CSR_MCOUNTINHIBIT hw_counters in
    pmu_set s c (for_upto 32 (save_counter c) p).

Definition restore_counter (p : pmu_hart) (n : Z) (c : csr_file) : csr_file :=
  if negb (hw_has n) then c
  else hw_counter_write (hw_event_write c n (hw_select p n)) n (hw_value p n).

Definition pmu_fresh (p : pmu_hart) : pmu_hart :=
  p <| hw_inhibit := hw_programmable |> <| hw_irq_enabled := 0 |>
    <| hw_irq_delegated := BIT IRQ_LCOF |> <| hw_irq_pending := 0 |>
    <| hw_value := fun _ => 0 |>
    <| hw_select := <[2 := 2 ^ HPMEVENT_MINH_BIT]> (<[0 := 2 ^ HPMEVENT_MINH_BIT]> (fun _ => 0)) |>.

Definition irq_restore (c : csr_file) (p : pmu_hart) : csr_file :=
  let ovf := BIT IRQ_LCOF in
  let c := csr_clear c CSR_MIE ovf in
  let c := csr_clear c CSR_MIDELEG ovf in
  let c := csr_set c CSR_MIDELEG (hw_irq_delegated p) in
  let c := csr_clear c CSR_MIP ovf in
  let c := csr_set c CSR_MIP (hw_irq_pending p) in
  csr_set c CSR_MIE (hw_irq_enabled p).

Definition pmu_hart_switch_in (s : pmu) (fresh : bool) : pmu :=
  let s := if fresh then pmu_hart_init (pmu_set s (pm_csrs s) (pmu_fresh (this_pmu s))) else s in
  let p := this_pmu s in
  let c := pm_csrs s in
  let c := if have_inhibit
           then pmu_csr_write (for_upto 32 (restore_counter p) (pmu_csr_write c CSR_MCOUNTINHIBIT hw_counters))
                  CSR_MCOUNTINHIBIT (hw_inhibit p)
           else c in
  let c := if hart_has HART_FEAT_SSCOFPMF then irq_restore c p else c in
  s <| pm_csrs := c |>.

(** ** Firmware counters *)

Definition fw_bit (p : pmu_hart) (i : Z) : bool := truth (Z.land (p_fw_started p) (BIT i)).

Definition pmu_fw_event (s : pmu) (event : Z) : pmu :=
  let idx := Z.lor (Z.shiftl SBI_PMU_EVENT_TYPE_FW 16) event in
  let p := this_pmu s in
  if negb (truth (p_fw_started p)) then s
  else pmu_set s (pm_csrs s)
         (for_upto 16 (fun i p =>
            if fw_bit p i && (p_event p (PMU_FW_FIRST + i) =? idx)
            then p <| p_fw_value ::= <[i := (p_fw_value p i + 1) mod 2 ^ 64]> |> else p) p).

(** ** The calls *)

Definition counter_exists (idx : Z) : bool :=
  if PMU_COUNTERS <=? idx then false else (PMU_FW_FIRST <=? idx) || hw_has idx.

Definition in_set (mask : Z) (i : nat) : bool := truth (Z.land mask (BIT (Z.of_nat i))).

Definition counter_set_ok (base mask : Z) : bool :=
  if negb (truth mask) then false
  else forallb (fun i => negb (in_set mask i &&
                               ((uadd base (Z.of_nat i) <? base) || negb (counter_exists (uadd base (Z.of_nat i))))))
         (seq 0 (Z.to_nat XLEN)).

Definition pmu_counter_info (idx : Z) : Z * option Z :=
  if negb (counter_exists idx) then (SBI_ERR_INVALID_PARAM, None)
  else (SBI_SUCCESS, Some (if PMU_FW_FIRST <=? idx then BIT (XLEN - 1)
                           else Z.lor (0xc00 + idx) (ushl (HW_COUNTER_WIDTH - 1) 12))).

(** The counters that can count the event, and its selector *)
Definition hw_event_lookup (event_idx data : Z) : Z * Z :=
  if EVENT_TYPE event_idx =? SBI_PMU_EVENT_TYPE_HW_RAW then
    let data := Z.land data RAW_EVENT_MASK in
    match List.find (fun r => Z.land data (re_mask r) =? re_select r) raw_events with
    | Some r => (re_counters r, data)
    | None => (0, 0)
    end
  else
    let select := foldl (fun sel e => if es_event_idx e =? event_idx then es_select e else sel) event_idx selects in
    match List.find (fun r => (er_first r <=? event_idx) && (event_idx <=? er_last r)) ranges with
    | Some r => (er_counters r, select)
    | None => (0, select)
    end.

Definition inhibit_bits (flags : Z) : Z :=
  let bits := 2 ^ HPMEVENT_MINH_BIT in
  let bits := if truth (Z.land flags SBI_PMU_CFG_FLAG_SET_SINH) then Z.lor bits (2 ^ HPMEVENT_SINH_BIT) else bits in
  let bits := if truth (Z.land flags SBI_PMU_CFG_FLAG_SET_UINH) then Z.lor bits (2 ^ HPMEVENT_UINH_BIT) else bits in
  let bits := if truth (Z.land flags SBI_PMU_CFG_FLAG_SET_VSINH) then Z.lor bits (2 ^ HPMEVENT_VSINH_BIT) else bits in
  if truth (Z.land flags SBI_PMU_CFG_FLAG_SET_VUINH) then Z.lor bits (2 ^ HPMEVENT_VUINH_BIT) else bits.

Definition counter_start_one (p : pmu_hart) (c : csr_file) (idx : Z) : pmu_hart * csr_file :=
  if PMU_FW_FIRST <=? idx
  then (p <| p_fw_started ::= fun v => Z.lor v (BIT (idx - PMU_FW_FIRST)) |>, c)
  else
    let c := if hart_has HART_FEAT_SSCOFPMF && (3 <=? idx)
             then hw_event_write c idx (Z.ldiff (hw_event_read c idx) (2 ^ HPMEVENT_OF_BIT)) else c in
    (p, pmu_csr_clear c CSR_MCOUNTINHIBIT (BIT idx)).

(** The counter of the set the event goes to *)
Definition config_pick (p : pmu_hart) (base mask flags : Z) (fw : bool) (candidates : Z) : Z + Z :=
  if truth (Z.land flags SBI_PMU_CFG_FLAG_SKIP_MATCH) then
    let c := uadd base (lowest_bit (Z.to_nat XLEN) mask) in
    let is_fw := PMU_FW_FIRST <=? c in
    if (p_event p c =? EVENT_NONE) || negb (Bool.eqb fw is_fw) then inl SBI_ERR_INVALID_PARAM else inr c
  else
    match List.find (fun i => let n := uadd base (Z.of_nat i) in
             in_set mask i && (p_event p n =? EVENT_NONE) &&
             if fw then PMU_FW_FIRST <=? n else (n <? PMU_FW_FIRST) && truth (Z.land candidates (BIT n)))
           (seq 0 (Z.to_nat XLEN)) with
    | Some i => inr (uadd base (Z.of_nat i))
    | None => inl SBI_ERR_NOT_SUPPORTED
    end.

(** A hardware counter is set up, stopped. *)
Definition config_hw (csrs : csr_file) (c flags select : Z) : csr_file :=
  let csrs := pmu_csr_set csrs CSR_MCOUNTINHIBIT (BIT c) in
  let select := if hart_has HART_FEAT_SSCOFPMF
                then Z.lor select (Z.lor (inhibit_bits flags) (2 ^ HPMEVENT_OF_BIT)) else select in
  let select := if c <? 3 then inhibit_bits flags else select in
  let csrs := hw_event_write csrs c select in
  if truth (Z.land flags SBI_PMU_CFG_FLAG_CLEAR_VALUE) then hw_counter_write csrs c 0 else csrs.

(** The event is counter [c]'s. *)
Definition config_program (p : pmu_hart) (csrs : csr_file) (fw : bool) (c event flags select : Z) : pmu_hart * csr_file :=
  let p := p <| p_event ::= <[c := event]> |> in
  if fw then
    (if truth (Z.land flags SBI_PMU_CFG_FLAG_CLEAR_VALUE)
     then p <| p_fw_value ::= <[c - PMU_FW_FIRST := 0]> |> else p, csrs)
  else (p, config_hw csrs c flags select).

(** What the event can be counted with: [None] where it cannot *)
Definition config_candidates (event event_data : Z) : option (Z * Z) :=
  if EVENT_TYPE event =? SBI_PMU_EVENT_TYPE_FW then
    if SBI_PMU_FW_MAX <=? EVENT_CODE event then None else Some (2 ^ 32 - 1, 0)
  else
    let '(counters, select) := hw_event_lookup event event_data in
    if truth (Z.land counters hw_counters) then Some (Z.land counters hw_counters, select) else None.

(** The result, the index where the code writes it, and the hart *)
Definition pmu_counter_config (s : pmu) (base mask flags event_idx event_data : Z) : Z * option Z * pmu :=
  let p := this_pmu s in
  let event := low32 event_idx in
  let fw := EVENT_TYPE event =? SBI_PMU_EVENT_TYPE_FW in
  if negb (counter_set_ok base mask) || (0xfffff <? event_idx) then (SBI_ERR_INVALID_PARAM, None, s)
  else
    match config_candidates event event_data with
    | None => (SBI_ERR_NOT_SUPPORTED, None, s)
    | Some (candidates, select) =>
        match config_pick p base mask flags fw candidates with
        | inl rc => (rc, None, s)
        | inr c =>
            let '(p, csrs) := config_program p (pm_csrs s) fw c event flags select in
            let '(p, csrs) := if truth (Z.land flags SBI_PMU_CFG_FLAG_AUTO_START)
                              then counter_start_one p csrs c else (p, csrs) in
            (SBI_SUCCESS, Some c, pmu_set s csrs p)
        end
    end.

Definition counter_running (p : pmu_hart) (csrs : csr_file) (c : Z) : bool :=
  if PMU_FW_FIRST <=? c then fw_bit p (c - PMU_FW_FIRST) else hw_counter_running csrs c.

Definition counter_init (p : pmu_hart) (csrs : csr_file) (c : Z) (v : option Z) : pmu_hart * csr_file :=
  match v with
  | None => (p, csrs)
  | Some v => if PMU_FW_FIRST <=? c then (p <| p_fw_value ::= <[c - PMU_FW_FIRST := v]> |>, csrs)
              else (p, hw_counter_write csrs c v)
  end.

(** One counter of a start: [init] is its initial value, if it gets one. *)
Definition start_body (base mask : Z) (init : Z -> option Z) (st : Z * pmu_hart * csr_file) (i : nat)
    : Z * pmu_hart * csr_file :=
  let '(rc, p, csrs) := st in
  let c := uadd base (Z.of_nat i) in
  if negb (in_set mask i) then (rc, p, csrs)
  else if p_event p c =? EVENT_NONE then (SBI_ERR_INVALID_PARAM, p, csrs)
  else if counter_running p csrs c then (SBI_ERR_ALREADY_STARTED, p, csrs)
  else
    let '(p, csrs) := counter_init p csrs c (init (Z.of_nat i)) in
    let '(p, csrs) := counter_start_one p csrs c in
    (rc, p, csrs).

(** [snap] is what the snapshot's memory holds ([values]). *)
Definition pmu_counter_start (s : pmu) (base mask flags value : Z) (snap : Z -> Z) : Z * pmu :=
  let p := this_pmu s in
  let set_init := truth (Z.land flags SBI_PMU_START_FLAG_SET_INIT_VALUE) in
  let from_snap := truth (Z.land flags SBI_PMU_START_FLAG_INIT_SNAPSHOT) in
  if negb (counter_set_ok base mask) then (SBI_ERR_INVALID_PARAM, s)
  else if set_init && from_snap then (SBI_ERR_INVALID_PARAM, s)
  else if from_snap && (p_snapshot p =? SNAPSHOT_NONE) then (SBI_ERR_NO_SHMEM, s)
  else
    let init := fun i => if from_snap then Some (snap i) else if set_init then Some value else None in
    let '(rc, p, csrs) := foldl (start_body base mask init) (SBI_SUCCESS, p, pm_csrs s) (seq 0 (Z.to_nat XLEN)) in
    (rc, pmu_set s csrs p).

(** [struct pmu_snapshot] *)
Record pmu_snapshot : Type := PmuSnapshot { sn_overflow_bitmap : Z; sn_values : Z -> Z }.
#[export] Instance pmu_snapshot_eta : Settable pmu_snapshot := fun n => PmuSnapshot (sn_overflow_bitmap n) (sn_values n).

Definition counter_value (p : pmu_hart) (csrs : csr_file) (c : Z) : Z :=
  if PMU_FW_FIRST <=? c then p_fw_value p (c - PMU_FW_FIRST) else hw_counter_read csrs c.

Definition overflown (csrs : csr_file) (c : Z) : bool :=
  (3 <=? c) && (c <? PMU_FW_FIRST) && hart_has HART_FEAT_SSCOFPMF &&
  truth (Z.land (Z.shiftr (hw_event_read csrs c) HPMEVENT_OF_BIT) 1).

(** The counter stops running. *)
Definition counter_halt (p : pmu_hart) (csrs : csr_file) (c : Z) : pmu_hart * csr_file :=
  if PMU_FW_FIRST <=? c
  then (p <| p_fw_started ::= fun v => Z.ldiff v (BIT (c - PMU_FW_FIRST)) |>, csrs)
  else (p, pmu_csr_set csrs CSR_MCOUNTINHIBIT (BIT c)).

(** The counter is free again. *)
Definition counter_reset (p : pmu_hart) (csrs : csr_file) (c : Z) : pmu_hart * csr_file :=
  let p := p <| p_event ::= <[c := EVENT_NONE]> |> in
  if c <? PMU_FW_FIRST then
    let csrs := hw_event_write csrs c 0 in
    (p, if c <? 3 then pmu_csr_clear csrs CSR_MCOUNTINHIBIT (BIT c) else csrs)
  else (p, csrs).

Definition stop_body (base mask flags : Z) (take : bool) (st : Z * pmu_hart * csr_file * pmu_snapshot) (i : nat)
    : Z * pmu_hart * csr_file * pmu_snapshot :=
  let '(rc, p, csrs, snap) := st in
  let c := uadd base (Z.of_nat i) in
  if negb (in_set mask i) then (rc, p, csrs, snap)
  else
    let rc := if counter_running p csrs c then rc else SBI_ERR_ALREADY_STOPPED in
    let '(p, csrs) := counter_halt p csrs c in
    let snap := if take && (Z.of_nat i <? SNAPSHOT_VALUES)
                then snap <| sn_values ::= <[Z.of_nat i := counter_value p csrs c]> |>
                          <| sn_overflow_bitmap ::= fun b => if overflown csrs c then Z.lor b (2 ^ Z.of_nat i) else b |>
                else snap in
    let '(p, csrs) := if truth (Z.land flags SBI_PMU_STOP_FLAG_RESET) then counter_reset p csrs c else (p, csrs) in
    (rc, p, csrs, snap).

(** [mem] is the snapshot's memory; the bitmap is put together on the side
    and written at the end. *)
Definition pmu_counter_stop (s : pmu) (base mask flags : Z) (mem : pmu_snapshot) : Z * pmu * pmu_snapshot :=
  let p := this_pmu s in
  let take := truth (Z.land flags SBI_PMU_STOP_FLAG_TAKE_SNAPSHOT) in
  if negb (counter_set_ok base mask) then (SBI_ERR_INVALID_PARAM, s, mem)
  else if take && (p_snapshot p =? SNAPSHOT_NONE) then (SBI_ERR_NO_SHMEM, s, mem)
  else
    let '(rc, p, csrs, snap) :=
      foldl (stop_body base mask flags take) (SBI_SUCCESS, p, pm_csrs s, PmuSnapshot 0 (sn_values mem))
        (seq 0 (Z.to_nat XLEN)) in
    (rc, pmu_set s csrs p, if take then snap else mem).

Definition pmu_hw_counter_get (s : pmu) (n : Z) : option Z :=
  if (PMU_HW_COUNTERS <=? n) || negb (hw_has n) then None else Some (hw_counter_read (pm_csrs s) n).

Definition pmu_snapshot_set_shmem (smode_range_ok : Z -> Z -> bool) (s : pmu) (lo hi flags : Z) : Z * pmu :=
  let p := this_pmu s in
  if truth flags then (SBI_ERR_INVALID_PARAM, s)
  else if (lo =? unot 0) && (hi =? unot 0)
  then (SBI_SUCCESS, pmu_set s (pm_csrs s) (p <| p_snapshot := SNAPSHOT_NONE |>))
  else if negb (IS_ALIGNED lo SNAPSHOT_SIZE) then (SBI_ERR_INVALID_PARAM, s)
  else if truth hi || negb (smode_range_ok lo SNAPSHOT_SIZE) then (SBI_ERR_INVALID_ADDRESS, s)
  else (SBI_SUCCESS, pmu_set s (pm_csrs s) (p <| p_snapshot := lo |>)).

(** ** Overflow as an event *)

Definition pmu_sse_supported : bool := hart_has HART_FEAT_SSCOFPMF.

Definition pmu_sse_enable (s : pmu) (enable : bool) : pmu :=
  let p := this_pmu s in
  let c := pm_csrs s in
  let ovf := BIT IRQ_LCOF in
  if Bool.eqb enable (p_sse_enabled p) then s
  else
    let p := p <| p_sse_enabled := enable |> in
    if enable
    then pmu_set s (csr_set (csr_clear c CSR_MIDELEG ovf) CSR_MIE ovf)
           (p <| p_sse_saved_ie := truth (Z.land (csr_read c CSR_MIE) ovf) |>)
    else
      let c := csr_set (csr_clear c CSR_MIE ovf) CSR_MIDELEG ovf in
      pmu_set s (if p_sse_saved_ie p then csr_set c CSR_MIE ovf else c) p.

Definition pmu_sse_overflow_irq (s : pmu) : bool * pmu :=
  if negb (p_sse_enabled (this_pmu s)) then (false, s)
  else (true, s <| pm_csrs := csr_clear (csr_clear (pm_csrs s) CSR_MIE (BIT IRQ_LCOF)) CSR_MIP (BIT IRQ_LCOF) |>).

Definition pmu_sse_complete (s : pmu) : pmu :=
  if p_sse_enabled (this_pmu s) then s <| pm_csrs := csr_set (pm_csrs s) CSR_MIE (BIT IRQ_LCOF) |> else s.

Definition pmu_counter_fw_read (s : pmu) (idx : Z) : Z * option Z :=
  let p := this_pmu s in
  if (idx <? PMU_FW_FIRST) || (PMU_COUNTERS <=? idx) || (p_event p idx =? EVENT_NONE)
  then (SBI_ERR_INVALID_PARAM, None)
  else (SBI_SUCCESS, Some (p_fw_value p (idx - PMU_FW_FIRST))).

(** [struct event_info] *)
Record event_info : Set := EventInfo { ei_event_idx : Z; ei_output : Z; ei_event_data : Z }.
#[export] Instance event_info_eta : Settable event_info := fun e => EventInfo (ei_event_idx e) (ei_output e) (ei_event_data e).

Definition event_countable (e : event_info) : bool :=
  let event := ei_event_idx e in
  if EVENT_TYPE event =? SBI_PMU_EVENT_TYPE_FW then EVENT_CODE event <? SBI_PMU_FW_MAX
  else (event <=? 0xfffff) && truth (Z.land (hw_event_lookup event (ei_event_data e)).1 hw_counters).

(** [mem]: the entries at [addr] *)
Definition pmu_event_info (smode_range_ok : Z -> Z -> bool) (addr count : Z) (mem : list event_info) : Z * list event_info :=
  if negb (IS_ALIGNED addr 16) then (SBI_ERR_INVALID_PARAM, mem)
  else if (unot 0 / 16 <? count) || negb (smode_range_ok addr (umul count 16)) then (SBI_ERR_INVALID_ADDRESS, mem)
  else (SBI_SUCCESS, (fun e => e <| ei_output := if event_countable e then 1 else 0 |>) <$> mem).

End Pmu.
