(* ===== verification/PmuProps.v ===== *)
(** What the counters are worth to the domains: the registers one by one,
    what a domain finds when it comes back, which counter an event gets, and
    what a firmware counter has counted. *)

From stdpp Require Import functions relations.
From S2P Require Import Prelude Arch Csr Pmu.

#[local] Open Scope Z_scope.
#[local] Set Warnings "-clear-no-such-hyp".

(** The counters [pmu_init] finds: 32 of them at most, and 'time' is none. *)
Class PmuTablesOk {PT : PmuTables} : Prop := {
  hw_counters_u32 : 0 <= hw_counters < 2 ^ 32;
  hw_counters_time : Z.testbit hw_counters 1 = false;
}.

Lemma pmu_init_ok (inhibit : bool) (writable : Z -> bool) (node : option pmu_node) :
  @PmuTablesOk (pmu_init inhibit writable node).
Proof.
  set (hw := if inhibit
    then for_upto 29 (fun i hw => if writable (3 + i) then Z.lor hw (2 ^ (3 + i)) else hw) (Z.lor (2 ^ 0) (2 ^ 2))
    else 0).
  assert (@hw_counters (pmu_init inhibit writable node) = hw) as E.
  { unfold pmu_init. fold hw. by destruct (pmu_parse_fdt node) as [[rs ss] raws]. }
  assert (0 <= hw < 2 ^ 32 /\ Z.testbit hw 1 = false) as [H1 H2].
  { subst hw. destruct inhibit; [|done].
    apply (for_upto_ind (fun _ hw => 0 <= hw < 2 ^ 32 /\ Z.testbit hw 1 = false)); [done|].
    intros i h Hi [Hb Ht]. destruct (writable _); [|done]. split.
    - apply lor_bound; [lia|lia|]. split; [apply Z.pow_nonneg; lia|apply Z.pow_lt_mono_r; lia].
    - rewrite Z.lor_spec, Ht, Z.pow2_bits_false by lia. done. }
  split; by rewrite E.
Qed.

Section Registers.
Context {AR : Arch} {F : Features} {PT : PmuTables} {PH : PmuHw} {PO : PmuTablesOk}.
Implicit Types (c : csr_file) (n v csr : Z).

(** The registers of counter [n]: the lower halves; the upper ones of RV32
    are 0x80 and 0x400 up. *)
Definition counter_csr n : Z := CSR_MCYCLE + n.
Definition event_csr n : Z := if n =? 0 then CSR_MCYCLECFG else CSR_MHPMEVENT0 + n.

Definition of_counter n csr : Prop := csr = counter_csr n \/ csr = counter_csr n + 0x80.
Definition of_event n csr : Prop := csr = event_csr n \/ csr = event_csr n + 0x400.

Lemma pmu_csr_read_write c csr v csr' :
  csr_read (pmu_csr_write c csr v) csr' =
  if decide (csr = csr') then wrap (pmu_warl csr (wrap v)) else csr_read c csr'.
Proof. unfold pmu_csr_write. apply csr_read_write. Qed.

Lemma hw_has_counter n : 0 <= n < 32 -> hw_has n = true -> n = 0 \/ 2 <= n <= 31.
Proof.
  intros Hn H. destruct (decide (n = 1)) as [->|]; [|lia]. exfalso. unfold hw_has in H.
  rewrite BIT_small, truth_bit, hw_counters_time in H by (pose proof XLEN_bounds; lia). done.
Qed.

Ltac other_csr := repeat (rewrite pmu_csr_read_write, decide_False by lia); done.

Lemma counter_write_frame c n v csr :
  0 <= n < 32 -> ~ of_counter n csr -> csr_read (hw_counter_write c n v) csr = csr_read c csr.
Proof.
  intros Hn Hcsr. unfold of_counter, counter_csr in Hcsr.
  unfold hw_counter_write, mcounter_write, mcounterh_write, CSR_MCYCLEH, CSR_MCYCLE in *.
  destruct (is_counter n), arch_xlen; other_csr.
Qed.

Lemma event_write_frame c n v csr :
  0 <= n < 32 -> n <> 1 -> ~ of_event n csr -> csr_read (hw_event_write c n v) csr = csr_read c csr.
Proof.
  intros Hn Hn1 Hcsr. unfold of_event, event_csr in Hcsr.
  unfold hw_event_write, fixed_cfg_write, mhpmevent_write, mhpmeventh_write.
  unfold CSR_MHPMEVENT0H, CSR_MHPMEVENT0, CSR_MCYCLECFG, CSR_MCYCLECFGH, CSR_MINSTRETCFG, CSR_MINSTRETCFGH in *.
  destruct (Z.ltb_spec n 3).
  - destruct (_ && _); [|done]. unfold truth. destruct (Z.eqb_spec n 0); cbn [negb]; destruct arch_xlen; other_csr.
  - destruct (Z.eqb_spec n 0); [lia|]. destruct (is_event n), arch_xlen; try destruct (hart_has _); other_csr.
Qed.

(** What is read of a counter is in its registers. *)
Lemma counter_read_ext c c' n :
  (forall csr, of_counter n csr -> csr_read c' csr = csr_read c csr) -> hw_counter_read c' n = hw_counter_read c n.
Proof.
  intros H. unfold hw_counter_read, mcounter_read, mcounterh_read.
  rewrite (H (CSR_MCYCLE + n)) by (by left).
  rewrite (H (CSR_MCYCLEH + n)) by (right; unfold counter_csr, CSR_MCYCLE, CSR_MCYCLEH; lia). done.
Qed.

Lemma event_read_ext c c' n :
  0 <= n < 32 -> n <> 1 ->
  (forall csr, of_event n csr -> csr_read c' csr = csr_read c csr) -> hw_event_read c' n = hw_event_read c n.
Proof.
  intros Hn Hn1 H. unfold of_event, event_csr in H. unfold hw_event_read, fixed_cfg_read, mhpmevent_read, mhpmeventh_read.
  destruct (Z.ltb_spec n 3).
  - destruct (_ && _); [|done]. unfold truth.
    destruct (Z.eqb_spec n 0) as [->|Hne]; cbn [negb Z.eqb] in *.
    + rewrite (H CSR_MCYCLECFG), (H CSR_MCYCLECFGH) by (unfold CSR_MCYCLECFG, CSR_MCYCLECFGH; lia). done.
    + rewrite (H CSR_MINSTRETCFG), (H CSR_MINSTRETCFGH)
        by (unfold CSR_MHPMEVENT0, CSR_MINSTRETCFG, CSR_MINSTRETCFGH; lia). done.
  - destruct (Z.eqb_spec n 0); [lia|].
    rewrite (H (CSR_MHPMEVENT0 + n)), (H (CSR_MHPMEVENT0H + n)) by (unfold CSR_MHPMEVENT0, CSR_MHPMEVENT0H; lia). done.
Qed.

(** The registers of the counters are apart, and apart from the others. *)
Definition pmu_csr csr : Prop := exists n, 0 <= n < 32 /\ n <> 1 /\ (of_counter n csr \/ of_event n csr).

Ltac csr_numbers :=
  unfold pmu_csr, of_counter, of_event, counter_csr, event_csr, CSR_MCYCLE, CSR_MCYCLEH, CSR_MHPMEVENT0, CSR_MCYCLECFG in *.

Lemma counters_apart n m csr : 0 <= n < 32 -> 0 <= m < 32 -> n <> m -> of_counter n csr -> ~ of_counter m csr.
Proof. csr_numbers. lia. Qed.

Lemma events_apart n m csr :
  0 <= n < 32 -> 0 <= m < 32 -> n <> 1 -> m <> 1 -> n <> m -> of_event n csr -> ~ of_event m csr.
Proof. csr_numbers. destruct (Z.eqb_spec n 0), (Z.eqb_spec m 0); lia. Qed.

Lemma counter_event_apart n m csr : 0 <= n < 32 -> 0 <= m < 32 -> of_counter n csr -> ~ of_event m csr.
Proof. csr_numbers. destruct (Z.eqb_spec m 0); lia. Qed.

Lemma pmu_csr_others csr : pmu_csr csr ->
  csr <> CSR_MCOUNTINHIBIT /\ csr <> CSR_MIE /\ csr <> CSR_MIP /\ csr <> CSR_MIDELEG.
Proof.
  intros (n & Hn & Hn1 & H). csr_numbers. unfold CSR_MCOUNTINHIBIT, CSR_MIE, CSR_MIP, CSR_MIDELEG.
  destruct (Z.eqb_spec n 0); lia.
Qed.

(** ** Values that can be given back *)

(** A hart whose counter registers hold what they can be written: WARL
    fields show legal values, and the filters of cycle and instret are all
    there is in their registers. *)
Record pmu_legal c : Prop := {
  pl_wf : csr_wf c;
  pl_warl csr : pmu_csr csr \/ csr = CSR_MCOUNTINHIBIT -> pmu_warl csr (csr_read c csr) = csr_read c csr;
  pl_filter n : n = 0 \/ n = 2 -> Z.land (fixed_cfg_read c n) FILTER_BITS = fixed_cfg_read c n;
}.

(** On RV32 a 64-bit value is two registers. *)
Lemma lohi_parts c lo hi :
  arch_xlen = RV32 -> csr_wf c ->
  wrap (Z.lor (csr_read c lo) (Z.shiftl (csr_read c hi) 32)) = csr_read c lo /\
  wrap (Z.shiftr (Z.lor (csr_read c lo) (Z.shiftl (csr_read c hi) 32)) 32) = csr_read c hi.
Proof.
  intros E Hwf. pose proof (csr_read_wf c lo Hwf) as Hlo. pose proof (csr_read_wf c hi Hwf) as Hhi.
  unfold wrap, is_ulong, XLEN in *. rewrite E in *. destruct (lohi_bound _ _ Hlo Hhi) as (_ & E1 & E2).
  rewrite Z.shiftr_div_pow2, E1, E2 by lia. split; [done|]. by apply Z.mod_small.
Qed.

Lemma read_held c csr : pmu_legal c -> pmu_csr csr \/ csr = CSR_MCOUNTINHIBIT ->
  wrap (pmu_warl csr (wrap (csr_read c csr))) = csr_read c csr.
Proof.
  intros Hl Hcsr. pose proof (csr_read_wf c csr (pl_wf _ Hl)) as Hu. rewrite (wrap_small (csr_read c csr)) by done.
  rewrite (pl_warl _ Hl) by done. by apply wrap_small.
Qed.

Lemma wide_back c c' lo hi :
  arch_xlen = RV32 -> pmu_legal c -> pmu_csr lo -> pmu_csr hi -> lo <> hi ->
  let v := Z.lor (csr_read c lo) (Z.shiftl (csr_read c hi) 32) in
  let c2 := pmu_csr_write (pmu_csr_write c' lo v) hi (Z.shiftr v 32) in
  csr_read c2 lo = csr_read c lo /\ csr_read c2 hi = csr_read c hi.
Proof.
  intros E Hl P1 P2 Hne v c2. subst v c2. rewrite !pmu_csr_read_write.
  rewrite (decide_False (P := hi = lo)), !decide_True by done.
  destruct (lohi_parts c lo hi E (pl_wf _ Hl)) as [-> ->].
  rewrite (pl_warl _ Hl lo), (pl_warl _ Hl hi) by auto. by rewrite !wrap_small by (by apply csr_read_wf, Hl).
Qed.

Lemma counter_back c c' n :
  0 <= n < 32 -> n <> 1 -> pmu_legal c -> hw_counter_read (hw_counter_write c' n (hw_counter_read c n)) n = hw_counter_read c n.
Proof.
  intros Hn Hn1 Hl.
  assert (pmu_csr (CSR_MCYCLE + n) /\ pmu_csr (CSR_MCYCLEH + n)) as [P1 P2]
    by (split; exists n; csr_numbers; (split; [done|]; split; [done|]; left; lia)).
  assert (is_counter n = true) as Hc by (unfold is_counter; destruct (Z.eqb_spec n 0); [done|]; apply orb_true_iff; right; lia).
  unfold hw_counter_read, hw_counter_write, mcounter_read, mcounterh_read, mcounter_write, mcounterh_write, reg_pair_to_64.
  rewrite Hc. destruct arch_xlen eqn:E.
  - rewrite (Z.lor_comm (Z.shiftl (csr_read c _) 32)).
    destruct (wide_back c c' (CSR_MCYCLE + n) (CSR_MCYCLEH + n)) as [-> ->]; try done; [unfold CSR_MCYCLE, CSR_MCYCLEH; lia|].
    apply Z.lor_comm.
  - rewrite pmu_csr_read_write, decide_True by done. apply read_held; auto.
Qed.

Lemma event_csrs_pmu n : 0 <= n < 32 -> n <> 1 -> pmu_csr (event_csr n) /\ pmu_csr (event_csr n + 0x400).
Proof. intros Hn Hn1. split; exists n; (split; [done|]; split; [done|]); right; [by left|by right]. Qed.

Lemma fixed_back c c' n :
  n = 0 \/ n = 2 -> pmu_legal c -> fixed_cfg_read (fixed_cfg_write c' n (fixed_cfg_read c n)) n = fixed_cfg_read c n.
Proof.
  intros Hn Hl. unfold fixed_cfg_write. rewrite (pl_filter _ Hl) by done.
  destruct (event_csrs_pmu n) as [P1 P2]; [lia..|]. unfold fixed_cfg_read.
  assert ((if truth n then CSR_MINSTRETCFG else CSR_MCYCLECFG) = event_csr n) as E1 by (by destruct Hn as [-> | ->]).
  assert ((if truth n then CSR_MINSTRETCFGH else CSR_MCYCLECFGH) = event_csr n + 0x400) as E2 by (by destruct Hn as [-> | ->]).
  assert (forall c, (if truth n then csr_read c CSR_MINSTRETCFG else csr_read c CSR_MCYCLECFG) = csr_read c (event_csr n)) as R1
    by (intros; by destruct Hn as [-> | ->]).
  assert (forall c, (if truth n then csr_read c CSR_MINSTRETCFGH else csr_read c CSR_MCYCLECFGH) = csr_read c (event_csr n + 0x400)) as R2
    by (intros; by destruct Hn as [-> | ->]).
  rewrite E1, E2, !R1, !R2. clear E1 E2 R1 R2. destruct arch_xlen eqn:E.
  - by destruct (wide_back c c' (event_csr n) (event_csr n + 0x400)) as [-> ->]; [done..|lia|].
  - rewrite pmu_csr_read_write, decide_True by done. apply read_held; auto.
Qed.

Lemma event_back c c' n :
  0 <= n < 32 -> n <> 1 -> pmu_legal c -> hw_event_read (hw_event_write c' n (hw_event_read c n)) n = hw_event_read c n.
Proof.
  intros Hn Hn1 Hl. unfold hw_event_read, hw_event_write.
  destruct (Z.ltb_spec n 3).
  - destruct (_ && _); [|done]. apply fixed_back; [lia|done].
  - destruct (event_csrs_pmu n) as [P1 P2]; [lia..|]. unfold event_csr in P1, P2.
    destruct (Z.eqb_spec n 0); [lia|]. replace (CSR_MHPMEVENT0 + n + 0x400) with (CSR_MHPMEVENT0H + n) in P2
      by (unfold CSR_MHPMEVENT0, CSR_MHPMEVENT0H; lia).
    assert (is_event n = true) as He by (unfold is_event; apply andb_true_iff; lia).
    unfold mhpmevent_read, mhpmevent_write, mhpmeventh_read, mhpmeventh_write. rewrite He.
    destruct arch_xlen eqn:E; [destruct (hart_has _)|].
    + by destruct (wide_back c c' (CSR_MHPMEVENT0 + n) (CSR_MHPMEVENT0H + n)) as [-> ->]; [done..|unfold CSR_MHPMEVENT0, CSR_MHPMEVENT0H; lia|].
    + rewrite pmu_csr_read_write, decide_True by done. apply read_held; auto.
    + rewrite pmu_csr_read_write, decide_True by done. apply read_held; auto.
Qed.

End Registers.

Section Switch.
Context {AR : Arch} {F : Features} {PT : PmuTables} {PH : PmuHw} {PO : PmuTablesOk}.
Implicit Types (c : csr_file) (n v csr k : Z) (s : pmu) (p : pmu_hart).

Lemma pmu_set_this s c p : this_pmu (pmu_set s c p) = p.
Proof. unfold this_pmu, pmu_set. cbv [field_update pm_dom pm_slots]. destruct s. apply fn_lookup_insert. Qed.
Lemma pmu_set_other s c p k : k <> pm_dom s -> pm_slots (pmu_set s c p) k = pm_slots s k.
Proof. intros Hk. unfold pmu_set. cbv [field_update pm_slots]. destruct s. by apply fn_lookup_insert_ne. Qed.

(** An operation concerns the running domain alone. *)
Definition pmu_own s s' : Prop :=
  pm_dom s' = pm_dom s /\ forall k, k <> pm_dom s -> pm_slots s' k = pm_slots s k.

Lemma pmu_own_refl s : pmu_own s s.
Proof. by split. Qed.
Lemma pmu_own_set s c p : pmu_own s (pmu_set s c p).
Proof. split; [done|]. intros k. apply pmu_set_other. Qed.
Lemma pmu_own_csrs s c : pmu_own s (s <| pm_csrs := c |>).
Proof. by split. Qed.
Lemma pmu_own_trans s s1 s2 : pmu_own s s1 -> pmu_own s1 s2 -> pmu_own s s2.
Proof. intros [E1 H1] [E2 H2]. split; [congruence|]. intros k Hk. rewrite H2 by congruence. by apply H1. Qed.

(** What the calls of a domain are about, but for the hardware *)
Definition same_calls p p' : Prop :=
  p_snapshot p' = p_snapshot p /\ p_sse_enabled p' = p_sse_enabled p /\ p_sse_saved_ie p' = p_sse_saved_ie p /\
  p_event p' = p_event p /\ p_fw_started p' = p_fw_started p /\ p_fw_value p' = p_fw_value p.

Lemma save_all c p :
  let p' := for_upto 32 (save_counter c) p in
  (forall n, 0 <= n < 32 -> hw_has n = true -> hw_value p' n = hw_counter_read c n /\ hw_select p' n = hw_event_read c n) /\
  p' = p <| hw_value := hw_value p' |> <| hw_select := hw_select p' |>.
Proof.
  pose (P := fun (k : nat) p' =>
    (forall n, 0 <= n < Z.of_nat k -> hw_has n = true -> hw_value p' n = hw_counter_read c n /\ hw_select p' n = hw_event_read c n) /\
    p' = p <| hw_value := hw_value p' |> <| hw_select := hw_select p' |>).
  apply (for_upto_ind P 32 (save_counter c) p); [split; [lia|by destruct p]|].
  intros i p1 Hi [H1 E1]. unfold save_counter. destruct (hw_has (Z.of_nat i)) eqn:Hh; cbn [negb].
  - split.
    + intros n Hn Hhn.
      change ((<[Z.of_nat i := hw_counter_read c (Z.of_nat i)]> (hw_value p1) n = hw_counter_read c n) /\
              (<[Z.of_nat i := hw_event_read c (Z.of_nat i)]> (hw_select p1) n = hw_event_read c n)).
      destruct (decide (Z.of_nat i = n)) as [<-|Hne]; [by rewrite !fn_lookup_insert|].
      rewrite !fn_lookup_insert_ne by done. apply H1; [lia|done].
    + rewrite E1. by destruct p.
  - split; [|done]. intros n Hn Hhn. apply H1; [|done]. assert (n <> Z.of_nat i) by congruence. lia.
Qed.

(** What leaving a domain has noted of the hardware [c] *)
Record noted c p : Prop := {
  no_irq : hart_has HART_FEAT_SSCOFPMF = true ->
    hw_irq_enabled p = Z.land (csr_read c CSR_MIE) (BIT IRQ_LCOF) /\
    hw_irq_delegated p = Z.land (csr_read c CSR_MIDELEG) (BIT IRQ_LCOF) /\
    hw_irq_pending p = Z.land (csr_read c CSR_MIP) (BIT IRQ_LCOF);
  no_inhibit : have_inhibit = true -> hw_inhibit p = csr_read c CSR_MCOUNTINHIBIT;
  no_counters n : have_inhibit = true -> 0 <= n < 32 -> hw_has n = true ->
    hw_value p n = hw_counter_read c n /\ hw_select p n = hw_event_read c n;
}.

(** Other CSRs do not show in what the counters read. *)
Definition same_pmu_csrs c c' : Prop := forall csr, pmu_csr csr -> csr_read c' csr = csr_read c csr.

Lemma same_counters c c' n :
  0 <= n < 32 -> hw_has n = true -> same_pmu_csrs c c' ->
  hw_counter_read c' n = hw_counter_read c n /\ hw_event_read c' n = hw_event_read c n.
Proof.
  intros Hn Hh Hs. apply hw_has_counter in Hh; [|done]. split.
  - apply counter_read_ext. intros csr Hc. apply Hs. exists n. split_and!; [lia..|by left].
  - apply event_read_ext; [lia..|]. intros csr Hc. apply Hs. exists n. split_and!; [lia..|by right].
Qed.

Lemma same_pmu_write c csr v :
  csr = CSR_MCOUNTINHIBIT -> same_pmu_csrs c (pmu_csr_write c csr v).
Proof.
  intros -> csr' Hc. apply pmu_csr_others in Hc. rewrite pmu_csr_read_write, decide_False; [done|]. by intros <-; destruct Hc.
Qed.

Lemma same_pmu_clear c csr v : csr = CSR_MIE \/ csr = CSR_MIP \/ csr = CSR_MIDELEG -> same_pmu_csrs c (csr_clear c csr v).
Proof.
  intros E csr' Hc. apply pmu_csr_others in Hc. unfold csr_clear. rewrite csr_read_write, decide_False; [done|]. intros <-. lia.
Qed.

Lemma same_pmu_set c csr v : csr = CSR_MIE \/ csr = CSR_MIP \/ csr = CSR_MIDELEG -> same_pmu_csrs c (csr_set c csr v).
Proof.
  intros E csr' Hc. apply pmu_csr_others in Hc. unfold csr_set. rewrite csr_read_write, decide_False; [done|]. intros <-. lia.
Qed.

Lemma same_pmu_trans c c1 c2 : same_pmu_csrs c c1 -> same_pmu_csrs c1 c2 -> same_pmu_csrs c c2.
Proof. intros H1 H2 csr Hc. rewrite H2, H1 by done. done. Qed.

Lemma switch_out_notes s :
  let s' := pmu_hart_switch_out s in
  pmu_own s s' /\ same_calls (this_pmu s) (this_pmu s') /\ noted (pm_csrs s) (this_pmu s').
Proof.
  unfold pmu_hart_switch_out. set (c := pm_csrs s). set (p := this_pmu s).
  set (pc := if hart_has HART_FEAT_SSCOFPMF then _ else _).
  assert (same_pmu_csrs c pc.2 /\ csr_read pc.2 CSR_MCOUNTINHIBIT = csr_read c CSR_MCOUNTINHIBIT /\ same_calls p pc.1 /\
    (hart_has HART_FEAT_SSCOFPMF = true ->
      hw_irq_enabled pc.1 = Z.land (csr_read c CSR_MIE) (BIT IRQ_LCOF) /\
      hw_irq_delegated pc.1 = Z.land (csr_read c CSR_MIDELEG) (BIT IRQ_LCOF) /\
      hw_irq_pending pc.1 = Z.land (csr_read c CSR_MIP) (BIT IRQ_LCOF))) as (Hs & Hi & Hcalls & Hirq).
  { subst pc. destruct (hart_has HART_FEAT_SSCOFPMF); [|done]. cbn [fst snd].
    split_and!; try done; [apply same_pmu_clear; auto|].
    unfold csr_clear. rewrite csr_read_write, decide_False; done. }
  destruct pc as [p1 c1]. cbn [fst snd] in *. clearbody c p. cbv zeta.
  destruct have_inhibit eqn:Eh; cbn [negb].
  - set (p2 := p1 <| hw_inhibit := _ |>). set (c2 := pmu_csr_write c1 _ _).
    destruct (save_all c2 p2) as [Hsave Erest]. rewrite !pmu_set_this. split; [apply pmu_own_set|].
    set (p3 := for_upto 32 (save_counter c2) p2) in *. split; [by rewrite Erest|].
    assert (same_pmu_csrs c c2) as Hs2 by (eapply same_pmu_trans; [done|by apply same_pmu_write]).
    split; [by rewrite Erest|intros _; rewrite Erest; exact Hi|].
    intros n _ Hn Hh. destruct (Hsave n Hn Hh) as [-> ->]. by apply same_counters.
  - rewrite !pmu_set_this. split; [apply pmu_own_set|]. split; [done|]. split; [done| |]; congruence.
Qed.

(** Giving the counters back one by one *)
Lemma restore_all c0 p c :
  pmu_legal c0 -> (forall n, 0 <= n < 32 -> hw_has n = true -> hw_value p n = hw_counter_read c0 n /\ hw_select p n = hw_event_read c0 n) ->
  let c' := for_upto 32 (restore_counter p) c in
  forall n, 0 <= n < 32 -> hw_has n = true -> hw_counter_read c' n = hw_value p n /\ hw_event_read c' n = hw_select p n.
Proof.
  intros Hl Hp c'. subst c'.
  pose (P := fun (k : nat) c' => forall n, 0 <= n < Z.of_nat k -> hw_has n = true ->
    hw_counter_read c' n = hw_value p n /\ hw_event_read c' n = hw_select p n).
  apply (for_upto_ind P 32 (restore_counter p) c); [intros n; lia|].
  intros i c1 Hi IH n Hn Hh. unfold restore_counter.
  set (m := Z.of_nat i). destruct (hw_has m) eqn:Hm; cbn [negb]; [|apply IH; [|done]; assert (n <> m) by congruence; lia].
  assert (0 <= m < 32) as Hm32 by lia.
  pose proof (hw_has_counter m Hm32 Hm) as Hmc. pose proof (hw_has_counter n ltac:(lia) Hh) as Hnc.
  destruct (decide (n = m)) as [->|Hne].
  - destruct (Hp m Hm32 Hm) as [-> ->]. split; [apply counter_back; [lia..|done]|].
    etrans; [|apply (event_back c0 c1); [lia..|done]]. apply event_read_ext; [lia..|].
    intros csr Hc. apply counter_write_frame; [lia|]. intros Hc'. by apply (counter_event_apart m m csr) in Hc'.
  - destruct (IH n ltac:(lia) Hh) as [<- <-]. split.
    + apply counter_read_ext. intros csr Hc. rewrite counter_write_frame; [|lia|apply (counters_apart n m); [lia..|done]].
      apply event_write_frame; [lia..|]. apply (counter_event_apart n m); [lia..|done].
    + apply event_read_ext; [lia..|]. intros csr Hc. rewrite counter_write_frame; [|lia|intros Hc'; by apply (counter_event_apart m n csr) in Hc'; [|lia..]].
      apply event_write_frame; [lia..|]. apply (events_apart n m); [lia..|done].
Qed.

(** The interrupt of the overflows *)
Lemma clear_set_bits (x bits v : Z) :
  is_ulong x -> Z.land v bits = v -> is_ulong v ->
  Z.land (wrap (Z.lor (wrap (Z.land x (unot bits))) v)) bits = v.
Proof.
  intros Hx Hv Hu.
  assert (is_ulong (Z.land x (unot bits))) as H1 by (apply is_ulong_land; [done|apply wrap_range]).
  rewrite (wrap_small (Z.land _ _)) by done. rewrite wrap_small by (by apply is_ulong_lor).
  rewrite land_unot by done. rewrite Z.land_lor_distr_l, Hv.
  replace (Z.land (Z.ldiff x bits) bits) with 0; [done|]. bitwise. by destruct (Z.testbit bits i), (Z.testbit _ i).
Qed.

Lemma irq_restore_bits c p (mie mideleg mip : Z) :
  csr_wf c ->
  hw_irq_enabled p = Z.land mie (BIT IRQ_LCOF) -> hw_irq_delegated p = Z.land mideleg (BIT IRQ_LCOF) ->
  hw_irq_pending p = Z.land mip (BIT IRQ_LCOF) -> is_ulong mie -> is_ulong mideleg -> is_ulong mip ->
  let c' := irq_restore c p in
  Z.land (csr_read c' CSR_MIE) (BIT IRQ_LCOF) = hw_irq_enabled p /\
  Z.land (csr_read c' CSR_MIDELEG) (BIT IRQ_LCOF) = hw_irq_delegated p /\
  Z.land (csr_read c' CSR_MIP) (BIT IRQ_LCOF) = hw_irq_pending p.
Proof.
  intros Hwf E1 E2 E3 U1 U2 U3 c'. subst c'.
  assert (forall v x, v = Z.land x (BIT IRQ_LCOF) -> is_ulong x -> Z.land v (BIT IRQ_LCOF) = v /\ is_ulong v) as Hbits.
  { intros v x -> Hx. split; [by rewrite <- Z.land_assoc, Z.land_diag|]. apply is_ulong_land; [done|apply wrap_range]. }
  destruct (Hbits _ _ E1 U1), (Hbits _ _ E2 U2), (Hbits _ _ E3 U3).
  unfold irq_restore, csr_set, csr_clear.
  split_and!; repeat (rewrite csr_read_write; first [rewrite decide_True by done | rewrite decide_False by done]);
    (apply clear_set_bits; [by apply csr_read_wf|done|done]).
Qed.

Lemma irq_restore_same c p : same_pmu_csrs c (irq_restore c p) /\ csr_read (irq_restore c p) CSR_MCOUNTINHIBIT = csr_read c CSR_MCOUNTINHIBIT.
Proof.
  unfold irq_restore. split.
  - repeat (eapply same_pmu_trans; [|first [apply same_pmu_set|apply same_pmu_clear]; by auto]). done.
  - unfold csr_set, csr_clear. repeat (rewrite csr_read_write, decide_False by done). done.
Qed.

Lemma pmu_csr_write_wf c csr v : csr_wf c -> csr_wf (pmu_csr_write c csr v).
Proof. apply csr_write_wf. Qed.

Lemma hw_counter_write_wf c n v : csr_wf c -> csr_wf (hw_counter_write c n v).
Proof. intros. unfold hw_counter_write, mcounter_write, mcounterh_write. repeat case_match; auto using pmu_csr_write_wf. Qed.
Lemma hw_event_write_wf c n v : csr_wf c -> csr_wf (hw_event_write c n v).
Proof.
  intros. unfold hw_event_write, fixed_cfg_write, mhpmevent_write, mhpmeventh_write.
  repeat case_match; auto using pmu_csr_write_wf.
Qed.
#[local] Hint Resolve pmu_csr_write_wf hw_counter_write_wf hw_event_write_wf : csr.

Lemma restore_all_wf p c (i : nat) : csr_wf c -> csr_wf (for_upto i (restore_counter p) c).
Proof.
  intros Hwf. apply (for_upto_ind (fun _ c => csr_wf c)); [done|]. intros j c1 _ H1.
  unfold restore_counter. case_match; auto with csr.
Qed.

(** The hardware is as it was when the domain was left. *)
Record pmu_as_was c c' : Prop := {
  aw_irq csr : hart_has HART_FEAT_SSCOFPMF = true -> csr = CSR_MIE \/ csr = CSR_MIDELEG \/ csr = CSR_MIP ->
    Z.land (csr_read c' csr) (BIT IRQ_LCOF) = Z.land (csr_read c csr) (BIT IRQ_LCOF);
  aw_inhibit : have_inhibit = true -> csr_read c' CSR_MCOUNTINHIBIT = csr_read c CSR_MCOUNTINHIBIT;
  aw_counters n : have_inhibit = true -> 0 <= n < 32 -> hw_has n = true ->
    hw_counter_read c' n = hw_counter_read c n /\ hw_event_read c' n = hw_event_read c n;
}.

Lemma switch_in_gives s c0 :
  csr_wf (pm_csrs s) -> pmu_legal c0 -> noted c0 (this_pmu s) ->
  let s' := pmu_hart_switch_in s false in
  pm_slots s' = pm_slots s /\ pm_dom s' = pm_dom s /\ pmu_as_was c0 (pm_csrs s').
Proof.
  intros Hwf Hl [Hirq Hinh Hcnt]. unfold pmu_hart_switch_in. cbv beta iota zeta. set (p := this_pmu s) in *.
  split; [done|]. split; [done|].
  set (c1 := if have_inhibit then _ else _).
  change (pmu_as_was c0 (if hart_has HART_FEAT_SSCOFPMF then irq_restore c1 p else c1)).
  assert (csr_wf c1) as Hwf1 by (subst c1; destruct have_inhibit; auto using restore_all_wf with csr).
  assert (have_inhibit = true -> csr_read c1 CSR_MCOUNTINHIBIT = csr_read c0 CSR_MCOUNTINHIBIT /\
    forall n, 0 <= n < 32 -> hw_has n = true -> hw_counter_read c1 n = hw_counter_read c0 n /\ hw_event_read c1 n = hw_event_read c0 n) as Hc1.
  { intros Eh. subst c1. rewrite Eh. split.
    - rewrite pmu_csr_read_write, decide_True by done. rewrite (Hinh Eh). apply read_held; auto.
    - intros n Hn Hh. set (c2 := for_upto 32 _ _).
      destruct (same_counters c2 (pmu_csr_write c2 CSR_MCOUNTINHIBIT (hw_inhibit p)) n Hn Hh) as [-> ->]; [by apply same_pmu_write|].
      destruct (restore_all c0 p (pmu_csr_write (pm_csrs s) CSR_MCOUNTINHIBIT hw_counters) Hl) with (n := n) as [R1 R2];
        [intros m; by apply Hcnt|done|done|]. fold c2 in R1, R2. rewrite R1, R2. by apply Hcnt. }
  destruct (hart_has HART_FEAT_SSCOFPMF) eqn:Eirq.
  - destruct (irq_restore_same c1 p) as [Hsame Hsi]. destruct (Hirq eq_refl) as (I1 & I2 & I3).
    destruct (irq_restore_bits c1 p _ _ _ Hwf1 I1 I2 I3) as (B1 & B2 & B3); [by apply csr_read_wf, Hl..|].
    split.
    + intros csr _ [-> | [-> | ->]]; congruence.
    + intros Eh. rewrite Hsi. by apply Hc1.
    + intros n Eh Hn Hh. destruct (same_counters c1 (irq_restore c1 p) n Hn Hh Hsame) as [-> ->]. by apply Hc1.
  - split; [congruence|intros Eh; by apply Hc1|]. intros n Eh Hn Hh. by apply Hc1.
Qed.

(** ** Any order of operations *)

Definition pmu_switch s k (fresh : bool) : pmu :=
  pmu_hart_switch_in ((pmu_hart_switch_out s) <| pm_dom := k |>) fresh.

(** What S-mode, the rest of the monitor and the hardware do: the counters
    tick, overflow, and any CSR may change. *)
Inductive pmu_step : relation pmu :=
| PsInit s : pmu_step s (pmu_hart_init s)
| PsSwitch s k fresh : pmu_step s (pmu_switch s k fresh)
| PsFwEvent s event : pmu_step s (pmu_fw_event s event)
| PsConfig s base mask flags idx data : pmu_step s (pmu_counter_config s base mask flags idx data).2
| PsStart s base mask flags value snap : pmu_step s (pmu_counter_start s base mask flags value snap).2
| PsStop s base mask flags mem : pmu_step s (pmu_counter_stop s base mask flags mem).1.2
| PsSnapshot s range_ok lo hi flags : pmu_step s (pmu_snapshot_set_shmem range_ok s lo hi flags).2
| PsSseEnable s enable : pmu_step s (pmu_sse_enable s enable)
| PsSseIrq s : pmu_step s (pmu_sse_overflow_irq s).2
| PsSseComplete s : pmu_step s (pmu_sse_complete s)
| PsHardware s c : csr_wf c -> pmu_step s (s <| pm_csrs := c |>).

(** What the PMU does for the overflow event, as the SSE component sees it:
    the route of the interrupt, and the registers. *)
Definition route_of s : overflow_route := OverflowRoute (p_sse_enabled (this_pmu s)) (p_sse_saved_ie (this_pmu s)).

Lemma sse_enable_route s enable :
  overflow_enable (pm_csrs s) (route_of s) enable = (pm_csrs (pmu_sse_enable s enable), route_of (pmu_sse_enable s enable)).
Proof.
  unfold overflow_enable, pmu_sse_enable. cbn [or_enabled or_saved_ie route_of].
  destruct (Bool.eqb enable (p_sse_enabled (this_pmu s))); [done|].
  destruct enable; unfold route_of, this_pmu, pmu_set; cbn; rewrite fn_lookup_insert; [done|].
  by destruct (p_sse_saved_ie _).
Qed.

Lemma sse_complete_route s : overflow_complete (pm_csrs s) (route_of s) = pm_csrs (pmu_sse_complete s).
Proof. unfold overflow_complete, pmu_sse_complete, route_of. cbn. by destruct (p_sse_enabled _). Qed.

Lemma init_own s : pmu_own s (pmu_hart_init s).
Proof. unfold pmu_hart_init. case_match; apply pmu_own_set. Qed.

Lemma switch_in_own s fresh : pmu_own s (pmu_hart_switch_in s fresh).
Proof.
  unfold pmu_hart_switch_in. eapply pmu_own_trans; [|apply pmu_own_csrs].
  destruct fresh; [|apply pmu_own_refl]. eapply pmu_own_trans; [apply pmu_own_set|apply init_own].
Qed.

Lemma step_frame s s' k : pmu_step s s' -> pm_dom s <> k -> pm_dom s' <> k -> pm_slots s' k = pm_slots s k.
Proof.
  intros Hstep Hk Hk'. assert (forall s1, pmu_own s s1 -> pm_slots s1 k = pm_slots s k) as Hown
    by (intros s1 [_ E]; apply E; congruence).
  destruct Hstep as [s|s k' fresh|s|s|s|s|s|s|s|s|s].
  - apply Hown, init_own.
  - unfold pmu_switch in *. destruct (switch_out_notes s) as (Ho & _).
    set (s1 := (pmu_hart_switch_out s) <| pm_dom := k' |>) in *. destruct (switch_in_own s1 fresh) as [Ed Es].
    rewrite Ed in Hk'. rewrite Es by (intros ->; by apply Hk'). by apply (Hown (pmu_hart_switch_out s)).
  - apply Hown. unfold pmu_fw_event. case_match; [apply pmu_own_refl|apply pmu_own_set].
  - apply Hown. unfold pmu_counter_config. repeat case_match; cbn [snd]; first [apply pmu_own_refl|apply pmu_own_set].
  - apply Hown. unfold pmu_counter_start. repeat case_match; cbn [snd]; first [apply pmu_own_refl|apply pmu_own_set].
  - apply Hown. unfold pmu_counter_stop. repeat case_match; cbn [fst snd]; first [apply pmu_own_refl|apply pmu_own_set].
  - apply Hown. unfold pmu_snapshot_set_shmem. repeat case_match; cbn [snd]; first [apply pmu_own_refl|apply pmu_own_set].
  - apply Hown. unfold pmu_sse_enable. repeat case_match; first [apply pmu_own_refl|apply pmu_own_set].
  - apply Hown. unfold pmu_sse_overflow_irq. case_match; [apply pmu_own_refl|apply pmu_own_csrs].
  - apply Hown. unfold pmu_sse_complete. case_match; [apply pmu_own_csrs|apply pmu_own_refl].
  - apply Hown, pmu_own_csrs.
Qed.

Lemma pmu_csr_set_wf c csr v : csr_wf c -> csr_wf (pmu_csr_set c csr v).
Proof. apply pmu_csr_write_wf. Qed.
Lemma pmu_csr_clear_wf c csr v : csr_wf c -> csr_wf (pmu_csr_clear c csr v).
Proof. apply pmu_csr_write_wf. Qed.
#[local] Hint Resolve pmu_csr_set_wf pmu_csr_clear_wf restore_all_wf : csr.

Lemma init_wf s : csr_wf (pm_csrs s) -> csr_wf (pm_csrs (pmu_hart_init s)).
Proof.
  intros Hwf. unfold pmu_hart_init. case_match; [done|].
  apply hw_event_write_wf, hw_event_write_wf.
  apply (for_upto_ind (fun _ c => csr_wf c)); [auto with csr|]. intros i c1 _ H1. case_match; auto with csr.
Qed.

Lemma start_one_wf p c n : csr_wf c -> csr_wf (counter_start_one p c n).2.
Proof. intros. unfold counter_start_one. repeat case_match; cbn [snd]; auto with csr. Qed.

Lemma config_hw_wf c n flags select : csr_wf c -> csr_wf (config_hw c n flags select).
Proof. intros. unfold config_hw. case_match; auto with csr. Qed.
#[local] Hint Resolve start_one_wf config_hw_wf : csr.

Lemma config_wf s base mask flags idx data :
  csr_wf (pm_csrs s) -> csr_wf (pm_csrs (pmu_counter_config s base mask flags idx data).2).
Proof.
  intros Hwf. unfold pmu_counter_config. destruct (_ || _); [done|].
  destruct (config_candidates _ _) as [[candidates select]|]; [|done].
  destruct (config_pick _ _ _ _ _ _) as [rc|c]; [done|].
  set (fw := _ =? SBI_PMU_EVENT_TYPE_FW).
  assert (csr_wf (config_program (this_pmu s) (pm_csrs s) fw c (low32 idx) flags select).2) as H
    by (unfold config_program; case_match; cbn [snd]; auto with csr).
  destruct (config_program _ _ _ _ _ _ _) as [p1 c1]. cbn [snd] in H. destruct (truth _).
  - pose proof (start_one_wf p1 c1 c H) as H2. by destruct (counter_start_one p1 c1 c).
  - done.
Qed.

Lemma start_wf s base mask flags value snap :
  csr_wf (pm_csrs s) -> csr_wf (pm_csrs (pmu_counter_start s base mask flags value snap).2).
Proof.
  intros Hwf. unfold pmu_counter_start. repeat (case_match; [done|]).
  set (init := fun i => _). set (st0 := (SBI_SUCCESS, this_pmu s, pm_csrs s)).
  assert (csr_wf (foldl (start_body base mask init) st0 (seq 0 (Z.to_nat XLEN))).2) as Hf.
  { apply (foldl_seq_ind (fun _ st => csr_wf st.2)); [done|]. intros i [[rc p] c] _ W1. cbn [snd] in W1. unfold start_body.
    repeat (case_match; [done|]).
    assert (csr_wf (counter_init p c (uadd base (Z.of_nat i)) (init (Z.of_nat i))).2) as W2
      by (unfold counter_init; repeat case_match; cbn [snd]; auto with csr).
    destruct (counter_init _ _ _ _) as [p1 c1]. pose proof (start_one_wf p1 c1 (uadd base (Z.of_nat i)) W2) as W3. by destruct (counter_start_one _ _ _). }
  by destruct (foldl _ _ _) as [[rc p] c].
Qed.

Lemma stop_wf s base mask flags mem :
  csr_wf (pm_csrs s) -> csr_wf (pm_csrs (pmu_counter_stop s base mask flags mem).1.2).
Proof.
  intros Hwf. unfold pmu_counter_stop. repeat (case_match; [done|]).
  set (take := truth _). set (st0 := (SBI_SUCCESS, this_pmu s, pm_csrs s, _)).
  assert (csr_wf (foldl (stop_body base mask flags take) st0 (seq 0 (Z.to_nat XLEN))).1.2) as Hf.
  { apply (foldl_seq_ind (fun _ st => csr_wf st.1.2)); [done|]. intros i [[[rc p] c] snap] _ W1. cbn [fst snd] in W1.
    unfold stop_body. case_match; [done|].
    assert (csr_wf (counter_halt p c (uadd base (Z.of_nat i))).2) as W2
      by (unfold counter_halt; case_match; cbn [snd]; auto with csr).
    destruct (counter_halt _ _ _) as [p1 c1]. cbn [snd] in W2. destruct (truth (Z.land flags SBI_PMU_STOP_FLAG_RESET)); [|done].
    assert (csr_wf (counter_reset p1 c1 (uadd base (Z.of_nat i))).2) as W3
      by (unfold counter_reset; repeat case_match; cbn [snd]; auto with csr).
    by destruct (counter_reset _ _ _). }
  by destruct (foldl _ _ _) as [[[rc p] c] snap].
Qed.

Lemma switch_out_wf s : csr_wf (pm_csrs s) -> csr_wf (pm_csrs (pmu_hart_switch_out s)).
Proof.
  intros Hwf. unfold pmu_hart_switch_out. destruct (hart_has _), have_inhibit; cbn [negb];
    [apply pmu_csr_write_wf|apply csr_clear_wf|apply pmu_csr_write_wf|]; auto with csr.
Qed.

Lemma switch_in_wf s fresh : csr_wf (pm_csrs s) -> csr_wf (pm_csrs (pmu_hart_switch_in s fresh)).
Proof.
  intros Hwf. unfold pmu_hart_switch_in. set (s1 := if fresh then _ else s).
  assert (csr_wf (pm_csrs s1)) as H1 by (subst s1; destruct fresh; [by apply init_wf|done]). clearbody s1.
  set (c1 := if have_inhibit then _ else _).
  assert (csr_wf c1) as H2 by (subst c1; destruct have_inhibit; auto with csr).
  change (csr_wf (if hart_has HART_FEAT_SSCOFPMF then irq_restore c1 (this_pmu s1) else c1)).
  unfold irq_restore. destruct (hart_has _); auto 8 with csr.
Qed.

Lemma pmu_step_wf s s' : csr_wf (pm_csrs s) -> pmu_step s s' -> csr_wf (pm_csrs s').
Proof.
  intros Hwf Hstep. destruct Hstep.
  - by apply init_wf.
  - unfold pmu_switch. apply switch_in_wf. by apply switch_out_wf.
  - unfold pmu_fw_event. by case_match.
  - by apply config_wf.
  - by apply start_wf.
  - by apply stop_wf.
  - unfold pmu_snapshot_set_shmem. by repeat case_match.
  - unfold pmu_sse_enable. repeat case_match; [done| | |]; cbv [pmu_set field_update pm_csrs]; auto 6 with csr.
  - unfold pmu_sse_overflow_irq. case_match; [done|]. cbv [snd field_update pm_csrs]. auto with csr.
  - unfold pmu_sse_complete. case_match; [|done]. cbv [field_update pm_csrs]. auto with csr.
  - done.
Qed.

(** Steps of the hart while it runs other domains than [k] *)
Definition pmu_away k : relation pmu := fun s s' => pmu_step s s' /\ pm_dom s <> k /\ pm_dom s' <> k.

Lemma pmu_away_slot k s s' :
  csr_wf (pm_csrs s) -> rtc (pmu_away k) s s' -> csr_wf (pm_csrs s') /\ pm_slots s' k = pm_slots s k.
Proof.
  intros Hwf Hs. induction Hs as [|s s1 s' (Hstep & H1 & H2) Hs IH]; [done|].
  destruct IH as [Hwf' E]; [by eapply pmu_step_wf|]. split; [done|]. rewrite E. by apply step_frame.
Qed.

End Switch.

Section Theorems.
Context {AR : Arch} {F : Features} {PT : PmuTables} {PH : PmuHw} {PO : PmuTablesOk}.
Implicit Types (c : csr_file) (n v csr k : Z) (s : pmu) (p : pmu_hart).

Lemma pmu_switch_leaves s k fresh :
  k <> pm_dom s ->
  pm_dom (pmu_switch s k fresh) = k /\ pm_slots (pmu_switch s k fresh) (pm_dom s) = this_pmu (pmu_hart_switch_out s).
Proof.
  intros Hk. destruct (switch_out_notes s) as ([Ed _] & _). unfold pmu_switch.
  set (sk := (pmu_hart_switch_out s) <| pm_dom := k |>). destruct (switch_in_own sk fresh) as [Es Eo].
  rewrite Es. split; [done|]. rewrite Eo by (subst sk; cbv [field_update]; cbn [pm_dom]; congruence).
  unfold this_pmu. by rewrite Ed.
Qed.

(** C25: a domain's counters stand still while the hart is elsewhere. The hart
    leaves the domain, runs others (which configure, start and stop the same
    counters, while the hardware counts), and comes back: every counter holds
    its value and its event, the same ones run, the overflow interrupt is
    enabled, delegated and pending as it was, and the firmware counters and
    the domain's configuration are untouched. *)
Theorem pmu_switch_roundtrip s (s1 : pmu) k (fresh : bool) :
  pmu_legal (pm_csrs s) -> k <> pm_dom s -> rtc (pmu_away (pm_dom s)) (pmu_switch s k fresh) s1 ->
  let s2 := pmu_switch s1 (pm_dom s) false in
  pmu_as_was (pm_csrs s) (pm_csrs s2) /\ same_calls (this_pmu s) (this_pmu s2).
Proof.
  intros Hl Hk Haway. destruct (switch_out_notes s) as ([Ed _] & Hcalls & Hnoted).
  destruct (pmu_switch_leaves s k fresh Hk) as [Edk E1].
  assert (csr_wf (pm_csrs (pmu_switch s k fresh))) as Hwf by (apply switch_in_wf; apply switch_out_wf, Hl).
  destruct (pmu_away_slot _ _ _ Hwf Haway) as [Hwf1 E2].
  assert (pm_dom s1 <> pm_dom s) as Hd1 by (destruct (rtc_inv_r _ _ Haway) as [<-|(y & _ & _ & _ & H)]; [by rewrite Edk|done]).
  destruct (switch_out_notes s1) as ([_ Eo1] & _).
  unfold pmu_switch. set (s1' := (pmu_hart_switch_out s1) <| pm_dom := pm_dom s |>).
  assert (this_pmu s1' = this_pmu (pmu_hart_switch_out s)) as Eslot.
  { change (pm_slots (pmu_hart_switch_out s1) (pm_dom s) = this_pmu (pmu_hart_switch_out s)).
    rewrite Eo1 by congruence. by rewrite E2. }
  assert (csr_wf (pm_csrs s1')) as Hwf2 by (by apply (switch_out_wf s1)).
  destruct (switch_in_gives s1' (pm_csrs s) Hwf2 Hl) as (Es & Ed' & Hwas); [by rewrite Eslot|].
  split; [done|]. unfold this_pmu in *. rewrite Es, Ed'. by rewrite Eslot.
Qed.

(** ** Firmware counters *)

(** Firmware counter [i] counts [event]. *)
Definition fw_counts p (i event : Z) : bool :=
  fw_bit p i && (p_event p (PMU_FW_FIRST + i) =? Z.lor (Z.shiftl SBI_PMU_EVENT_TYPE_FW 16) event).

(** [p'] is [p] but for the values of the firmware counters. *)
Definition fw_values_only p p' : Prop := p' = p <| p_fw_value := p_fw_value p' |>.

Lemma ltb_other (j m m' : Z) : j <> m -> m' = m + 1 -> (j <? m') = (j <? m).
Proof. intros Hne ->. destruct (Z.ltb_spec j (m + 1)), (Z.ltb_spec j m); lia || done. Qed.

Lemma fw_event_spec s event :
  let p := this_pmu s in
  let p' := this_pmu (pmu_fw_event s event) in
  fw_values_only p p' /\
  forall i, 0 <= i < 16 -> p_fw_value p' i = if fw_counts p i event then (p_fw_value p i + 1) mod 2 ^ 64 else p_fw_value p i.
Proof.
  unfold pmu_fw_event. set (p := this_pmu s). set (idx := Z.lor _ event).
  destruct (truth (p_fw_started p)) eqn:E; cbn [negb].
  - cbv zeta. rewrite pmu_set_this. set (body := fun (i : Z) p => _).
    pose (P := fun (k : nat) p' => fw_values_only p p' /\
      forall i, p_fw_value p' i = if (0 <=? i) && (i <? Z.of_nat k) && fw_counts p i event then (p_fw_value p i + 1) mod 2 ^ 64 else p_fw_value p i).
    assert (P 16%nat (for_upto 16 body p)) as [H1 H2].
    { apply (for_upto_ind P).
      - split; [by destruct p|]. intros i. destruct (Z.leb_spec 0 i), (Z.ltb_spec i (Z.of_nat 0)); done || lia.
      - intros i p1 Hi [E1 Hv]. subst body. cbv beta. remember (Z.of_nat i) as m eqn:Em0.
        assert (fw_bit p1 m && (p_event p1 (PMU_FW_FIRST + m) =? idx) = fw_counts p m event) as Ec by (by rewrite E1).
        rewrite Ec. clear Ec. destruct (fw_counts p m event) eqn:Em; split.
        + unfold fw_values_only. rewrite E1. by destruct p.
        + intros j. change (p_fw_value (p1 <| p_fw_value ::= <[m := (p_fw_value p1 m + 1) mod 2 ^ 64]> |>) j)
            with (<[m := (p_fw_value p1 m + 1) mod 2 ^ 64]> (p_fw_value p1) j).
          destruct (decide (m = j)) as [<-|Hne].
          * rewrite fn_lookup_insert, Hv, Em, Z.ltb_irrefl, andb_false_r. cbn [andb].
            replace (0 <=? m) with true by lia. by rewrite (proj2 (Z.ltb_lt m (Z.of_nat (S i)))) by lia.
          * rewrite fn_lookup_insert_ne, Hv by done. by rewrite (ltb_other j m (Z.of_nat (S i))) by lia.
        + done.
        + intros j. rewrite Hv. destruct (decide (m = j)) as [<-|Hne].
          * by rewrite Em, !andb_false_r.
          * by rewrite (ltb_other j m (Z.of_nat (S i))) by lia. }
    split; [done|]. intros i Hi. rewrite H2. replace (0 <=? i) with true by lia. by rewrite (proj2 (Z.ltb_lt i (Z.of_nat 16))) by lia.
  - fold p. clearbody p. split; [by destruct p|]. intros i Hi. unfold fw_counts, fw_bit.
    unfold truth in E. apply negb_false_iff, Z.eqb_eq in E. by rewrite E.
Qed.

(** a firmware counter counts its event, every time and nothing else.
    After any events of the monitor on the hart, a counter that is started
    has gone up by the number of them that are its own (modulo 2^64), and any
    other counter has not moved. *)
Theorem pmu_fw_exact s (events : list Z) (i : Z) :
  0 <= i < 16 -> is_u64 (p_fw_value (this_pmu s) i) ->
  let p := this_pmu s in
  p_fw_value (this_pmu (foldl pmu_fw_event s events)) i =
    (p_fw_value p i + Z.of_nat (length (filter (fun e => fw_counts p i e = true) events))) mod 2 ^ 64.
Proof.
  intros Hi. cbv zeta. revert s. induction events as [|e events IH]; intros s Hu; cbn [foldl].
  { rewrite Z.add_0_r. symmetry. by apply Z.mod_small. }
  destruct (fw_event_spec s e) as [Hsame Hv]. specialize (Hv i Hi).
  assert (forall e', fw_counts (this_pmu (pmu_fw_event s e)) i e' = fw_counts (this_pmu s) i e') as Ec
    by (intros e'; by rewrite Hsame).
  rewrite IH.
  - rewrite Hv, filter_cons.
    rewrite (list_filter_iff _ (fun e' => fw_counts (this_pmu s) i e' = true) events) by (intros e'; by rewrite Ec).
    destruct (fw_counts (this_pmu s) i e) eqn:E.
    + rewrite decide_True by done. cbn [length]. rewrite Zplus_mod_idemp_l. f_equal. lia.
    + rewrite decide_False by congruence. done.
  - rewrite Hv. case_match; [|done]. unfold is_u64 in *. apply Z.mod_pos_bound. lia.
Qed.

(** ** Which counter an event gets *)

(** [lowest_bit] ends, and on the lowest bit that is set. *)
Lemma lowest_bit_spec (m : nat) (v : Z) :
  0 < v < 2 ^ Z.of_nat m -> 0 <= lowest_bit m v < Z.of_nat m /\ Z.testbit v (lowest_bit m v) = true.
Proof.
  revert v. induction m as [|m IH]; intros v Hv; [change (2 ^ Z.of_nat 0) with 1 in Hv; lia|]. cbn [lowest_bit].
  assert (truth (Z.land v 1) = Z.testbit v 0) as -> by (apply (truth_bit v 0); lia). destruct (Z.testbit v 0) eqn:E; [split; [lia|done]|].
  assert (0 < Z.shiftr v 1 < 2 ^ Z.of_nat m) as Hs.
  { rewrite Z.shiftr_div_pow2 by lia. pose proof (Z.bit0_mod v) as Hmod. rewrite E in Hmod. cbn [Z.b2z] in Hmod.
    rewrite Nat2Z.inj_succ, Z.pow_succ_r in Hv by lia. change (2 ^ 1) with 2. Z.div_mod_to_equations. lia. }
  destruct (IH _ Hs) as [Hb Ht]. split; [lia|]. rewrite Z.shiftr_spec in Ht by lia. by rewrite Z.add_comm.
Qed.

Lemma in_set_bit (mask : Z) (i : nat) : (i < Z.to_nat XLEN)%nat -> in_set mask i = Z.testbit mask (Z.of_nat i).
Proof. intros Hi. unfold in_set. pose proof XLEN_bounds. rewrite BIT_small by lia. apply truth_bit. lia. Qed.

Lemma counter_set_ok_spec (base mask : Z) (i : nat) :
  is_ulong base -> counter_set_ok base mask = true -> (i < Z.to_nat XLEN)%nat -> in_set mask i = true ->
  uadd base (Z.of_nat i) = base + Z.of_nat i /\ counter_exists (base + Z.of_nat i) = true.
Proof.
  intros Hb Hok Hi Hin. unfold counter_set_ok in Hok. destruct (truth mask); [|done]. cbn [negb] in Hok.
  rewrite forallb_forall in Hok. specialize (Hok i). rewrite Hin in Hok. cbn [andb] in Hok.
  assert (In i (seq 0 (Z.to_nat XLEN))) as Hseq by (apply in_seq; lia). specialize (Hok Hseq).
  apply negb_true_iff, orb_false_iff in Hok as [Hlt Hex]. apply negb_false_iff in Hex. apply Z.ltb_ge in Hlt.
  assert (uadd base (Z.of_nat i) = base + Z.of_nat i) as E.
  { apply uadd_no_carry; [done|apply index_ulong; lia|by apply Z.ltb_ge]. }
  by rewrite <- E.
Qed.

Lemma event_none_or (p : pmu_hart) n : p_event p n = EVENT_NONE \/ (p_event p n =? EVENT_NONE) = false.
Proof. destruct (Z.eqb_spec (p_event p n) EVENT_NONE); auto. Qed.

(** Counter [n] is one of the set, of the event's kind, and either the
    caller's own already (it names it) or free and able to count the event. *)
Record picked p (base mask flags event data n : Z) : Prop := {
  pk_set : exists i, (i < Z.to_nat XLEN)%nat /\ in_set mask i = true /\ n = base + Z.of_nat i;
  pk_exists : counter_exists n = true;
  pk_kind : (EVENT_TYPE event =? SBI_PMU_EVENT_TYPE_FW) = (PMU_FW_FIRST <=? n);
  pk_own : truth (Z.land flags SBI_PMU_CFG_FLAG_SKIP_MATCH) = true -> p_event p n <> EVENT_NONE;
  pk_free : truth (Z.land flags SBI_PMU_CFG_FLAG_SKIP_MATCH) = false -> p_event p n = EVENT_NONE;
  pk_able : truth (Z.land flags SBI_PMU_CFG_FLAG_SKIP_MATCH) = false -> n < PMU_FW_FIRST ->
    truth (Z.land (Z.land (hw_event_lookup event data).1 hw_counters) (BIT n)) = true;
}.

Lemma config_pick_spec p base mask flags event data candidates select n :
  is_ulong base -> is_ulong mask -> counter_set_ok base mask = true ->
  config_candidates event data = Some (candidates, select) ->
  config_pick p base mask flags (EVENT_TYPE event =? SBI_PMU_EVENT_TYPE_FW) candidates = inr n ->
  picked p base mask flags event data n.
Proof.
  intros Hb Hm Hok Hc. unfold config_pick. pose proof XLEN_bounds as HX.
  destruct (truth (Z.land flags _)) eqn:Es.
  - set (b := lowest_bit (Z.to_nat XLEN) mask).
    assert (mask <> 0) as Hm0 by (unfold counter_set_ok in Hok; destruct (truth mask) eqn:E; [by apply truth_true|done]).
    destruct (lowest_bit_spec (Z.to_nat XLEN) mask) as [Hbr Hbt]; [unfold is_ulong in Hm; rewrite Z2Nat.id by lia; lia|].
    fold b in Hbr, Hbt. replace b with (Z.of_nat (Z.to_nat b)) by lia.
    assert (in_set mask (Z.to_nat b) = true) as Hin by (rewrite in_set_bit by lia; by rewrite Z2Nat.id by lia).
    destruct (counter_set_ok_spec base mask (Z.to_nat b) Hb Hok) as [-> Hex]; [lia|done|].
    destruct (_ || _) eqn:E; [done|]. intros [= <-]. apply orb_false_iff in E as [E1 E2]. apply negb_false_iff, eqb_prop in E2.
    split; try done; try congruence.
    + exists (Z.to_nat b). split; [lia|done].
    + intros _. by apply Z.eqb_neq.
  - destruct (List.find _ _) as [i|] eqn:Ef; [|done]. intros [= <-]. apply find_some in Ef as [Hin Hf]. apply in_seq in Hin.
    apply andb_true_iff in Hf as [Hf Hk]. apply andb_true_iff in Hf as [Hset Hfree]. apply Z.eqb_eq in Hfree.
    destruct (counter_set_ok_spec base mask i Hb Hok) as [E Hex]; [lia|done|]. rewrite E in *.
    split; try done; try congruence.
    + exists i. split; [lia|done].
    + destruct (EVENT_TYPE event =? _); [done|]. apply andb_true_iff in Hk as [Hk _]. symmetry. apply Z.leb_gt. by apply Z.ltb_lt.
    + intros _ Hlt. unfold config_candidates in Hc. destruct (EVENT_TYPE event =? _); [lia|].
      destruct (hw_event_lookup event data) as [cs sel]. cbn [fst]. destruct (truth (Z.land cs hw_counters)); [|done].
      injection Hc as <- <-. by apply andb_true_iff in Hk as [_ Hk].
Qed.

(** The registers of the other counters are as they were. *)
Definition same_except n c c' : Prop := forall m, 0 <= m < 32 -> m <> n -> hw_has m = true ->
  hw_counter_read c' m = hw_counter_read c m /\ hw_event_read c' m = hw_event_read c m.

Lemma same_except_refl n c : same_except n c c.
Proof. by intros m. Qed.
Lemma same_except_trans n c c1 c2 : same_except n c c1 -> same_except n c1 c2 -> same_except n c c2.
Proof. intros H1 H2 m Hm Hne Hh. destruct (H1 m Hm Hne Hh) as [<- <-]. by apply H2. Qed.

Lemma same_except_inhibit n c v : same_except n c (pmu_csr_write c CSR_MCOUNTINHIBIT v).
Proof. intros m Hm _ Hh. by apply same_counters, same_pmu_write. Qed.

Lemma same_except_event n c v : 0 <= n < 32 -> n <> 1 -> same_except n c (hw_event_write c n v).
Proof.
  intros Hn Hn1 m Hm Hne Hh. apply hw_has_counter in Hh; [|done]. split.
  - apply counter_read_ext. intros csr Hc. apply event_write_frame; [done..|]. by apply (counter_event_apart m n).
  - apply event_read_ext; [lia..|]. intros csr Hc. apply event_write_frame; [done..|]. apply (events_apart m n); [lia..|done].
Qed.

Lemma same_except_counter n c v : 0 <= n < 32 -> n <> 1 -> same_except n c (hw_counter_write c n v).
Proof.
  intros Hn Hn1 m Hm Hne Hh. apply hw_has_counter in Hh; [|done]. split.
  - apply counter_read_ext. intros csr Hc. apply counter_write_frame; [done..|]. by apply (counters_apart m n).
  - apply event_read_ext; [lia..|]. intros csr Hc. apply counter_write_frame; [done..|].
    intros Hc'. by apply (counter_event_apart n m csr) in Hc'.
Qed.

Lemma same_except_config n c flags select : 0 <= n < 32 -> n <> 1 -> same_except n c (config_hw c n flags select).
Proof.
  intros Hn Hn1. unfold config_hw. set (sel := if n <? 3 then _ else _).
  assert (same_except n c (hw_event_write (pmu_csr_set c CSR_MCOUNTINHIBIT (BIT n)) n sel)) as H
    by (eapply same_except_trans; [apply same_except_inhibit|by apply same_except_event]).
  destruct (truth _); [|done]. eapply same_except_trans; [exact H|by apply same_except_counter].
Qed.

(** One firmware counter's bit is its own. *)
Lemma fw_bit_set (v i j : Z) : 0 <= i < 32 -> 0 <= j < 32 -> i <> j -> truth (Z.land (Z.lor v (BIT i)) (BIT j)) = truth (Z.land v (BIT j)).
Proof.
  intros Hi Hj Hne. pose proof XLEN_bounds. rewrite !BIT_small, !truth_bit by lia.
  rewrite testbit_set by lia. by rewrite (proj2 (Z.eqb_neq j i)) by done.
Qed.

(** What a configuration changes is its counter's. *)
Record configured s s' (n event : Z) : Prop := {
  cf_event : p_event (this_pmu s') n = event;
  cf_events m : m <> n -> p_event (this_pmu s') m = p_event (this_pmu s) m;
  cf_values j : j <> n - PMU_FW_FIRST -> p_fw_value (this_pmu s') j = p_fw_value (this_pmu s) j;
  cf_running j : 0 <= j < 16 -> j <> n - PMU_FW_FIRST -> fw_bit (this_pmu s') j = fw_bit (this_pmu s) j;
  cf_hw : same_except n (pm_csrs s) (pm_csrs s');
  cf_own : pmu_own s s';
}.

Lemma start_one_spec p c n :
  counter_exists n = true -> 0 <= n -> n <> 1 ->
  let '(p', c') := counter_start_one p c n in
  same_except n c c' /\ p_event p' = p_event p /\ p_fw_value p' = p_fw_value p /\
  forall j, 0 <= j < 16 -> j <> n - PMU_FW_FIRST -> fw_bit p' j = fw_bit p j.
Proof.
  intros He Hn Hn1. unfold counter_exists in He. destruct (Z.leb_spec PMU_COUNTERS n) as [|Hlt]; [done|].
  unfold counter_start_one, PMU_COUNTERS, PMU_FW_FIRST, PMU_HW_COUNTERS, PMU_FW_COUNTERS in *.
  destruct (Z.leb_spec 32 n).
  - split_and!; try done. intros j Hj Hne. apply fw_bit_set; lia.
  - split_and!; try done. eapply same_except_trans; [|apply same_except_inhibit].
    destruct (_ && _); [apply same_except_event; lia|apply same_except_refl].
Qed.

Lemma counter_not_time n : counter_exists n = true -> 0 <= n -> n <> 1.
Proof.
  intros He Hn ->. unfold counter_exists in He.
  change (PMU_COUNTERS <=? 1) with false in He. change (PMU_FW_FIRST <=? 1) with false in He. cbn [orb] in He.
  apply hw_has_counter in He; lia.
Qed.

Lemma config_program_spec p c n event flags select :
  0 <= n -> n <> 1 ->
  let '(p', c') := config_program p c (PMU_FW_FIRST <=? n) n event flags select in
  same_except n c c' /\ p_event p' = <[n := event]> (p_event p) /\ p_fw_started p' = p_fw_started p /\
  forall j, j <> n - PMU_FW_FIRST -> p_fw_value p' j = p_fw_value p j.
Proof.
  intros Hn0 Hn1. unfold config_program. destruct (Z.leb_spec PMU_FW_FIRST n) as [Hfw|Hhw].
  - split; [apply same_except_refl|]. destruct (truth _); split_and!; try done.
    intros j Hj. change (<[n - PMU_FW_FIRST := 0]> (p_fw_value p) j = p_fw_value p j). by rewrite fn_lookup_insert_ne.
  - split_and!; try done. apply same_except_config; [unfold PMU_FW_FIRST, PMU_HW_COUNTERS in *; lia|done].
Qed.

(** which counter an event gets. A configuration that succeeds has taken
    one counter of the set that was asked for: of the event's kind, free and
    able to count it, or, where the caller names it, one it has already; the
    event is noted for it, and every other counter keeps its event, its value
    and its registers. One that fails has changed nothing. *)
Theorem pmu_config_spec s (base mask flags idx data rc : Z) (out : option Z) (s' : pmu) :
  is_ulong base -> is_ulong mask ->
  pmu_counter_config s base mask flags idx data = (rc, out, s') ->
  if rc =? SBI_SUCCESS
  then exists n, out = Some n /\ picked (this_pmu s) base mask flags (low32 idx) data n /\ configured s s' n (low32 idx)
  else s' = s /\ out = None.
Proof.
  intros Hb Hm. unfold pmu_counter_config. set (event := low32 idx). set (p := this_pmu s).
  destruct (counter_set_ok base mask) eqn:Hok; cbn [negb orb]; [|by intros [= <- <- <-]].
  destruct (0xfffff <? idx); [by intros [= <- <- <-]|].
  destruct (config_candidates event data) as [[cands select]|] eqn:Ec; [|by intros [= <- <- <-]].
  destruct (config_pick p base mask flags _ cands) as [e|n] eqn:Ep.
  { unfold config_pick in Ep. repeat case_match; simplify_eq; by intros [= <- <- <-]. }
  pose proof (config_pick_spec _ _ _ _ _ _ _ _ _ Hb Hm Hok Ec Ep) as Hpick.
  assert (0 <= n) as Hn0 by (destruct (pk_set _ _ _ _ _ _ _ Hpick) as (i & _ & _ & ->); unfold is_ulong in Hb; lia).
  pose proof (counter_not_time n (pk_exists _ _ _ _ _ _ _ Hpick) Hn0) as Hn1.
  pose proof (pk_kind _ _ _ _ _ _ _ Hpick) as Hkind.
  pose proof (config_program_spec p (pm_csrs s) n event flags select Hn0 Hn1) as H. rewrite <- Hkind in H.
  destruct (config_program _ _ _ _ _ _ _) as [p2 c2]. destruct H as (H1 & H2 & H3 & H4).
  set (pc := if truth (Z.land flags SBI_PMU_CFG_FLAG_AUTO_START) then _ else _).
  assert (same_except n (pm_csrs s) pc.2 /\ p_event pc.1 = <[n := event]> (p_event p) /\
    (forall j, j <> n - PMU_FW_FIRST -> p_fw_value pc.1 j = p_fw_value p j) /\
    forall j, 0 <= j < 16 -> j <> n - PMU_FW_FIRST -> fw_bit pc.1 j = fw_bit p j) as (G1 & G2 & G3 & G4).
  { subst pc. destruct (truth _).
    - pose proof (start_one_spec p2 c2 n (pk_exists _ _ _ _ _ _ _ Hpick) Hn0 Hn1) as H.
      destruct (counter_start_one p2 c2 n) as [p3 c3]. destruct H as (K1 & K2 & K3 & K4). cbn [fst snd].
      split_and!; [by eapply same_except_trans|congruence|intros j Hj; rewrite K3; by apply H4|].
      intros j Hj Hne. rewrite K4 by done. unfold fw_bit. by rewrite H3.
    - split_and!; try done. intros j Hj Hne. unfold fw_bit. cbn [fst]. by rewrite H3. }
  clearbody pc. destruct pc as [p3 c3]. cbn [fst snd] in *. intros [= <- <- <-]. cbn [Z.eqb].
  exists n. split; [done|]. split; [done|]. split; rewrite ?pmu_set_this; try done.
  - rewrite G2. apply fn_lookup_insert.
  - intros m Hne. rewrite G2. by apply fn_lookup_insert_ne.
  - apply pmu_own_set.
Qed.

End Theorems.

(** ** An example: a hart with four hardware counters *)

Module SmallPmu.

#[local] Instance ar : Arch := RV64.
#[local] Instance feat : Features := fun _ => true.
#[local] Instance hw : PmuHw := fun _ v => v.

(** mhpmcounter3 and 4 exist; cache misses can be counted on them. *)
#[local] Instance tables : PmuTables :=
  pmu_init true (fun n => n <? 5) (Some (PmuNode [1; 1; 1; 2; 2; 4; 0x10000; 0x10010; 0x18] [0x10000; 0; 0x11] [])).
#[local] Instance tables_ok : PmuTablesOk := pmu_init_ok _ _ _.

Definition slot0 : pmu_hart := PmuHart 0 false false (fun _ => 0) 0 (fun _ => 0) 0 0 0 0 (fun _ => 0) (fun _ => 0).
Definition boot : pmu := pmu_hart_init (Pmu ∅ 0 (fun _ => slot0)).

Definition CLEAR_AND_START : Z := 6.
Definition cache_misses : Z := 0x10000.
Definition illegal_insn : Z := 0xf0004.

(** Cache misses go to mhpmcounter3. *)
Lemma config_accepts : (pmu_counter_config boot 0 0x1d CLEAR_AND_START cache_misses 0).1 = (SBI_SUCCESS, Some 3).
Proof. vm_compute. reflexivity. Qed.

Lemma pmu_config_spec_witness :
  exists s', (pmu_counter_config boot 0 0x1d CLEAR_AND_START cache_misses 0).1 = (SBI_SUCCESS, Some 3) /\
    picked (this_pmu boot) 0 0x1d CLEAR_AND_START (low32 cache_misses) 0 3 /\ configured boot s' 3 (low32 cache_misses).
Proof.
  destruct (pmu_counter_config boot 0 0x1d CLEAR_AND_START cache_misses 0) as [[rc out] s'] eqn:E.
  pose proof config_accepts as Ha. rewrite E in Ha. cbn [fst] in Ha. injection Ha as -> ->.
  assert (is_ulong 0) as H0 by (unfold is_ulong; cbn; lia).
  assert (is_ulong 0x1d) as H1 by (unfold is_ulong; cbn; lia).
  destruct (pmu_config_spec boot 0 0x1d CLEAR_AND_START cache_misses 0 _ _ s' H0 H1 E) as (n & En & Hp & Hc).
  injection En as <-. exists s'. split; [reflexivity|]. split; [exact Hp|exact Hc].
Defined.

Lemma boot_wf : csr_wf (pm_csrs boot).
Proof. apply init_wf. apply csr_wf_empty. Qed.

(** They are 7 so far. *)
Definition counting_csrs : csr_file := csr_write (pm_csrs boot) 0xb03 7.

Lemma boot_legal : pmu_legal counting_csrs.
Proof.
  split.
  - apply csr_write_wf, boot_wf.
  - done.
  - intros n [-> | ->]; vm_compute; reflexivity.
Qed.

Definition counted : pmu := boot <| pm_csrs := counting_csrs |>.

(** Meanwhile another domain counts on the same counter. *)
Definition elsewhere : pmu :=
  (pmu_counter_config (pmu_switch counted 1 true) 0 0x1d CLEAR_AND_START cache_misses 0).2.

Lemma pmu_switch_roundtrip_witness :
  p_event (this_pmu elsewhere) 3 = cache_misses /\
  hw_counter_read (pm_csrs elsewhere) 3 = 0 /\
  hw_counter_read (pm_csrs (pmu_switch elsewhere 0 false)) 3 = 7.
Proof.
  assert (p_event (this_pmu elsewhere) 3 = cache_misses) as H1 by (vm_compute; reflexivity).
  assert (hw_counter_read (pm_csrs elsewhere) 3 = 0) as H2 by (vm_compute; reflexivity).
  assert (1 <> pm_dom counted) as Hk by (vm_compute; discriminate).
  assert (rtc (pmu_away (pm_dom counted)) (pmu_switch counted 1 true) elsewhere) as Haway.
  { apply rtc_once. split_and!; [apply (PsConfig _ 0 0x1d CLEAR_AND_START cache_misses 0)|by vm_compute|by vm_compute]. }
  split; [exact H1|]. split; [exact H2|].
  destruct (pmu_switch_roundtrip counted elsewhere 1 true boot_legal Hk Haway) as [[_ _ Hc] _].
  assert (have_inhibit = true) as E1 by (vm_compute; reflexivity).
  assert (hw_has 3 = true) as E2 by (vm_compute; reflexivity).
  etrans; [exact (proj1 (Hc 3 E1 ltac:(lia) E2))|vm_compute; reflexivity].
Defined.

(** Two illegal instructions among other events *)
Definition fw_ready : pmu := (pmu_counter_config boot 32 0x1 CLEAR_AND_START illegal_insn 0).2.

Lemma pmu_fw_exact_witness :
  fw_counts (this_pmu fw_ready) 0 4 = true /\
  p_fw_value (this_pmu (foldl pmu_fw_event fw_ready [4; 6; 4; 5])) 0 = 2.
Proof.
  assert (fw_counts (this_pmu fw_ready) 0 4 = true) as H1 by (vm_compute; reflexivity).
  assert (is_u64 (p_fw_value (this_pmu fw_ready) 0)) as H2 by (vm_compute; split; [discriminate|reflexivity]).
  split; [exact H1|]. rewrite (pmu_fw_exact fw_ready [4; 6; 4; 5] 0 ltac:(lia) H2). vm_compute. reflexivity.
Defined.

(** Out of [pmu_hart_init] the cycle counter does not count the monitor's own
    time (MINH); once it has been configured and released again, it does. *)
Theorem pmu_reset_drops_filter :
  let s := (pmu_counter_config boot 0 0x1 0 SBI_PMU_HW_CPU_CYCLES 0).2 in
  let '(rc, s', _) := pmu_counter_stop s 0 0x1 SBI_PMU_STOP_FLAG_RESET (PmuSnapshot 0 (fun _ => 0)) in
  Z.testbit (hw_event_read (pm_csrs boot) 0) HPMEVENT_MINH_BIT = true /\
  p_event (this_pmu s') 0 = EVENT_NONE /\ hw_counter_running (pm_csrs s') 0 = true /\
  Z.testbit (hw_event_read (pm_csrs s') 0) HPMEVENT_MINH_BIT = false.
Proof. vm_compute. split_and!; reflexivity. Qed.

(** An event number with bits past its 20 is said to be countable, and cannot
    be configured. *)
Theorem pmu_event_info_overstates :
  event_countable (EventInfo 0x1f0004 0 0) = true /\
  (pmu_counter_config boot 32 0x1 0 0x1f0004 0).1.1 = SBI_ERR_INVALID_PARAM.
Proof. vm_compute. split; reflexivity. Qed.

End SmallPmu.
