(* ===== verification/Rpmi.v ===== *)
(** The RPMI client, [drivers/rpmi/rpmi.c], over the interface of a transport.

    A transport moves whole messages through four queues; the client sends
    its requests, waits for their acknowledgments, and hands the events of
    the platform microcontroller (PuC) to their sinks.  What the code waits
    for is on the other side of the transport: the state [W] holds it, and
    every operation may find it changed. *)

From S2P Require Import Prelude Arch.

#[local] Open Scope Z_scope.

(** * Messages *)

Definition RPMI_MSG_HDR_SIZE : Z := 8.
Definition RPMI_SLOT_SIZE_MIN : Z := 64.
Definition RPMI_FLAGS_TYPE_MASK : Z := 0x07.
Definition RPMI_MSG_NORMAL_REQUEST : Z := 0.
Definition RPMI_MSG_POSTED_REQUEST : Z := 1.
Definition RPMI_MSG_ACKNOWLEDGEMENT : Z := 2.
Definition RPMI_MSG_NOTIFICATION : Z := 3.

Definition RPMI_SUCCESS : Z := 0.
Definition RPMI_ERR_FAILED : Z := -1.
Definition RPMI_ERR_NOT_SUPPORTED : Z := -2.
Definition RPMI_ERR_INVALID_PARAM : Z := -3.
Definition RPMI_ERR_BUSY : Z := -9.
Definition RPMI_ERR_BAD_RANGE : Z := -11.
Definition RPMI_ERR_TIMEOUT : Z := -12.
Definition RPMI_ERR_IO : Z := -13.
Definition RPMI_ERR_NO_DATA : Z := -14.

Definition RPMI_GROUP_BASE : Z := 0x0001.
Definition RPMI_GROUP_SYSTEM_MSI : Z := 0x0002.
Definition RPMI_BASE_PROBE_SERVICE_GROUP : Z := 0x06.
Definition RPMI_SYSMSI_SET_MSI_STATE : Z := 0x04.
Definition RPMI_SYSMSI_SET_MSI_TARGET : Z := 0x06.
Definition RPMI_NO_SYSMSI : Z := 2 ^ 32 - 1.
Definition RPMI_MAX_EVENT_SINKS : Z := 8.
Definition RPMI_EVENT_HDR_SIZE : Z := 4.
Definition RPMI_EVENT_DATALEN (hdr : Z) : Z := Z.land hdr 0xffff.

Inductive rpmi_queue : Set := RPMI_QUEUE_A2P_REQ | RPMI_QUEUE_P2A_ACK | RPMI_QUEUE_P2A_REQ | RPMI_QUEUE_A2P_ACK.
#[export] Instance rpmi_queue_eq_dec : EqDecision rpmi_queue.
Proof. solve_decision. Defined.

(** [struct rpmi_hdr] *)
Record rpmi_hdr : Set := RpmiHdr { h_group : Z; h_service : Z; h_flags : Z; h_datalen : Z; h_token : Z }.
#[export] Instance rpmi_hdr_eta : Settable rpmi_hdr := fun h =>
  RpmiHdr (h_group h) (h_service h) (h_flags h) (h_datalen h) (h_token h).

(** What the fields of a header hold, and a message that can be sent: its
    data in words *)
Definition hdr_wf (h : rpmi_hdr) : Prop :=
  0 <= h_group h < 2 ^ 16 /\ 0 <= h_service h < 2 ^ 8 /\ 0 <= h_flags h < 2 ^ 8 /\
  0 <= h_datalen h < 2 ^ 16 /\ 0 <= h_token h < 2 ^ 16.
Definition message : Set := rpmi_hdr * list Z.
Definition message_wf (m : message) : Prop :=
  hdr_wf m.1 /\ h_datalen m.1 = 4 * Z.of_nat (length m.2) /\ Forall (fun w => 0 <= w < 2 ^ 32) m.2.

(** * The interface of a transport

    [send] and [recv] of [struct rpmi_context]: a result, for [recv] the
    header and, with [RPMI_SUCCESS], the data. *)

Class Transport (W : Type) := {
  tp_send : W -> rpmi_queue -> rpmi_hdr -> list Z -> Z * W;
  tp_recv : W -> rpmi_queue -> Z -> Z * rpmi_hdr * list Z * W;
}.

(** The part of [struct rpmi_context] that calls change, on any hart *)
Record client_state : Set := ClientState { s_next_token : Z; s_doorbell_tried : bool; s_doorbell : bool }.
#[export] Instance client_state_eta : Settable client_state := fun x =>
  ClientState (s_next_token x) (s_doorbell_tried x) (s_doorbell x).

(** What else the client works on: the clock, the wait for others
    ([ipi_process] and [cpu_relax]), the context's lock and the note that
    the doorbell rang (another hart, or an interrupt, may have changed
    them), the state of the context, a sink, and an MSI of the monitor's
    own. *)
Class Machine (W : Type) := {
  timer_available : bool;
  timer_now : W -> Z;
  mc_relax : W -> W;
  mc_state : W -> client_state;
  mc_set_state : client_state -> W -> W;
  mc_lock : W -> W;                    (* context_lock(), once it returns *)
  mc_rang : W -> bool * W;             (* atomic_swap_ulong(&ctx->doorbell_rang, 0) *)
  mc_relock : W -> bool * W;           (* the store to the lock; is the loop of context_unlock() to go on? *)
  mc_sink : nat -> list Z -> Z -> W -> W;
  mc_msi_request : W -> option (Z * Z) * W;
}.

(** The build's limits, and the timeout in ticks of the timer *)
Class RpmiConfig := {
  CONFIG_RPMI_MAX_DATA_LEN : Z;
  rpmi_timeout : Z;
}.

(** * The client *)

(** What is fixed after boot of [struct rpmi_context]; a sink is a number,
    with the group it wants *)
Record rpmi_context : Set := RpmiContext {
  x_phandle : Z;
  x_max_data_len : Z;
  x_has_p2a : bool;
  x_p2a_doorbell_sysmsi : Z;
  x_sinks : list (Z * nat);
}.
#[export] Instance rpmi_context_eta : Settable rpmi_context := fun x =>
  RpmiContext (x_phandle x) (x_max_data_len x) (x_has_p2a x) (x_p2a_doorbell_sysmsi x) (x_sinks x).

(** [rpmi_context_register], [rpmi_context_find] *)
Definition rpmi_context_register (contexts : list rpmi_context) (ctx : rpmi_context) : list rpmi_context := ctx :: contexts.
Definition rpmi_context_find (contexts : list rpmi_context) (phandle : Z) : option rpmi_context :=
  List.find (fun x => x_phandle x =? phandle) contexts.

(** [rpmi_client_from_fdt], the cells of "mboxes" read *)
Definition rpmi_client_from_fdt (contexts : list rpmi_context) (mboxes : option (list Z)) : Z * option (rpmi_context * Z) :=
  match mboxes with
  | Some (phandle :: group :: _) =>
      match rpmi_context_find contexts phandle with
      | Some ctx => (RPMI_SUCCESS, Some (ctx, group mod 2 ^ 16))
      | None => (RPMI_ERR_NOT_SUPPORTED, None)
      end
  | _ => (RPMI_ERR_INVALID_PARAM, None)
  end.

Definition rpmi_event_sink_register (ctx : rpmi_context) (group : Z) (sink : nat) : Z * rpmi_context :=
  if Z.of_nat (length (x_sinks ctx)) =? RPMI_MAX_EVENT_SINKS then (RPMI_ERR_FAILED, ctx)
  else (RPMI_SUCCESS, ctx <| x_sinks := x_sinks ctx ++ [(group, sink)] |>).

(** [(int32_t)v] *)
Definition to_int32 (v : Z) : Z := if low32 v <? 2 ^ 31 then low32 v else low32 v - 2 ^ 32.

Section Client.
Context {AR : Arch} {CF : RpmiConfig} {W : Type} {T : Transport W} {MC : Machine W}.

Definition rpmi_has_doorbell (ctx : option rpmi_context) (w : W) : bool :=
  match ctx with Some _ => s_doorbell (mc_state w) | None => false end.

Definition rpmi_max_data_len (ctx : rpmi_context) : Z :=
  if x_max_data_len ctx <? CONFIG_RPMI_MAX_DATA_LEN then x_max_data_len ctx else CONFIG_RPMI_MAX_DATA_LEN.

(** A 64-bit clock *)
Definition deadline (w : W) : Z := (timer_now w + rpmi_timeout) mod 2 ^ 64.
Definition expired (w : W) (when : Z) : bool := timer_available && (when <? timer_now w).

(** The loop of [send_locked]; [None] when [fuel] rounds are not enough *)
Fixpoint send_loop (fuel : nat) (until : Z) (w : W) (q : rpmi_queue) (hdr : rpmi_hdr) (data : list Z) : option (Z * W) :=
  match fuel with
  | O => None
  | S fuel =>
      let '(rc, w) := tp_send w q hdr data in
      if rc =? RPMI_ERR_BUSY
      then if expired w until then Some (RPMI_ERR_TIMEOUT, w) else send_loop fuel until (mc_relax w) q hdr data
      else Some (rc, w)
  end.
Definition send_locked (fuel : nat) (w : W) (q : rpmi_queue) (hdr : rpmi_hdr) (data : list Z) : option (Z * W) :=
  send_loop fuel (deadline w) w q hdr data.

Definition request_check (ctx : option rpmi_context) (req_len : Z) : Z :=
  match ctx with
  | None => RPMI_ERR_NOT_SUPPORTED
  | Some ctx =>
      if negb (IS_ALIGNED req_len 4) || (rpmi_max_data_len ctx <? req_len) then RPMI_ERR_INVALID_PARAM else RPMI_SUCCESS
  end.

(** Is [ack] the acknowledgment of [req]? *)
Definition acks (req ack : rpmi_hdr) : bool :=
  negb (negb (h_token ack =? h_token req) || negb (h_group ack =? h_group req) || negb (h_service ack =? h_service req) ||
        negb (Z.land (h_flags ack) RPMI_FLAGS_TYPE_MASK =? RPMI_MSG_ACKNOWLEDGEMENT)).

(** The loop of [wait_ack]: the result, and the data with its length *)
Fixpoint wait_loop (fuel : nat) (until : Z) (w : W) (req : rpmi_hdr) (resp_max : Z) : option (Z * (list Z * Z) * W) :=
  match fuel with
  | O => None
  | S fuel =>
      let '(rc, ack, data, w) := tp_recv w RPMI_QUEUE_P2A_ACK resp_max in
      if rc =? RPMI_ERR_NO_DATA
      then if expired w until then Some (RPMI_ERR_TIMEOUT, ([], 0), w) else wait_loop fuel until (mc_relax w) req resp_max
      else if truth rc && negb (rc =? RPMI_ERR_BAD_RANGE) then Some (rc, ([], 0), w)
      else if negb (acks req ack) then wait_loop fuel until w req resp_max
      else if truth rc || (h_datalen ack <? 4) then Some (RPMI_ERR_IO, ([], 0), w)
      else Some (RPMI_SUCCESS, (data, h_datalen ack), w)
  end.
Definition wait_ack (fuel : nat) (w : W) (req : rpmi_hdr) (resp_max : Z) : option (Z * (list Z * Z) * W) :=
  wait_loop fuel (deadline w) w req resp_max.

(** [deliver_events]: the length of the well-formed events, then the sinks *)
Fixpoint events_len (fuel : nat) (data : list Z) (datalen len : Z) : Z :=
  match fuel with
  | O => len
  | S fuel =>
      if len + RPMI_EVENT_HDR_SIZE <=? datalen then
        let next := len + RPMI_EVENT_HDR_SIZE + RPMI_EVENT_DATALEN (nth (Z.to_nat (len / 4)) data 0) in
        if negb (IS_ALIGNED next 4) || (datalen <? next) then len else events_len fuel data datalen next
      else len
  end.
Definition deliver_events (ctx : rpmi_context) (w : W) (hdr : rpmi_hdr) (data : list Z) : W :=
  let len := events_len (length data) data (h_datalen hdr) 0 in
  foldl (fun w s => if truth len && (s.1 =? h_group hdr) then mc_sink s.2 data len w else w) w (x_sinks ctx).

Fixpoint p2a_drain (fuel : nat) (ctx : rpmi_context) (w : W) : option W :=
  match fuel with
  | O => None
  | S fuel =>
      let '(rc, hdr, data, w) := tp_recv w RPMI_QUEUE_P2A_REQ (CONFIG_RPMI_MAX_DATA_LEN / 4 * 4) in
      if truth rc then Some w
      else
        let type := Z.land (h_flags hdr) RPMI_FLAGS_TYPE_MASK in
        if type =? RPMI_MSG_NOTIFICATION then p2a_drain fuel ctx (deliver_events ctx w hdr data)
        else if type =? RPMI_MSG_NORMAL_REQUEST then
          sent ← send_locked fuel w RPMI_QUEUE_A2P_ACK
            (hdr <| h_flags := RPMI_MSG_ACKNOWLEDGEMENT |> <| h_datalen := 4 |>) [low32 RPMI_ERR_NOT_SUPPORTED];
          p2a_drain fuel ctx sent.2
        else p2a_drain fuel ctx w
  end.

Fixpoint context_unlock (fuel : nat) (ctx : rpmi_context) (w : W) : option W :=
  match fuel with
  | O => None
  | S fuel =>
      let '(rang, w) := mc_rang w in
      w ← (if rang then p2a_drain fuel ctx w else Some w);
      let '(again, w) := mc_relock w in
      if again then context_unlock fuel ctx w else Some w
  end.

Definition rpmi_poll (fuel : nat) (ctx : rpmi_context) (w : W) : option W :=
  if negb (x_has_p2a ctx) then Some w
  else w ← p2a_drain fuel ctx (mc_lock w); context_unlock fuel ctx w.

(** [ctx->next_token++], and the header of a request *)
Definition take_token (w : W) : Z * W :=
  let token := s_next_token (mc_state w) in
  (token, mc_set_state ((mc_state w) <| s_next_token := (token + 1) mod 2 ^ 16 |>) w).
Definition request_hdr (group service flags req_len token : Z) : rpmi_hdr :=
  RpmiHdr group service flags (req_len mod 2 ^ 16) token.

(** The part of [rpmi_request] under the lock *)
Definition request_locked (fuel : nat) (w : W) (hdr : rpmi_hdr) (req : list Z) (resp_max : Z) : option (Z * (list Z * Z) * W) :=
  '(rc, w) ← send_locked fuel w RPMI_QUEUE_A2P_REQ hdr req;
  if truth rc then Some (rc, ([], 0), w) else wait_ack fuel w hdr resp_max.

(** [rpmi_call], over [rpmi_request]: the result and the words *)
Definition call_result (r : Z * (list Z * Z)) (resp_words : Z) : Z :=
  let '(rc, (data, len)) := r in
  if truth rc then rc
  else if truth (to_int32 (nth 0 data 0)) then to_int32 (nth 0 data 0)
  else if len <? 4 * resp_words then RPMI_ERR_IO else RPMI_SUCCESS.

(** [doorbell_setup], over the request it makes, which comes back to it *)
Definition doorbell_setup (fuel : nat) (request : W -> Z -> Z -> list Z -> Z -> Z -> option (Z * (list Z * Z) * W))
    (ctx : rpmi_context) (w : W) : option W :=
  let sysmsi := x_p2a_doorbell_sysmsi ctx in
  if negb (x_has_p2a ctx) || (sysmsi =? RPMI_NO_SYSMSI) then Some w
  else
    let tried := s_doorbell_tried (mc_state w) in
    let w := mc_set_state ((mc_state w) <| s_doorbell_tried := true |>) w in
    if tried then Some w
    else
      match mc_msi_request w with
      | (None, w) => Some w
      | (Some (addr, data), w) =>
          '(r, w) ← request w RPMI_GROUP_SYSTEM_MSI RPMI_SYSMSI_SET_MSI_TARGET
            [sysmsi; low32 addr; low32 (high32_from_64 addr); data] 16 4;
          if truth (call_result r 1) then Some w
          else
            '(r, w) ← request w RPMI_GROUP_SYSTEM_MSI RPMI_SYSMSI_SET_MSI_STATE [sysmsi; 1] 8 4;
            if truth (call_result r 1) then Some w
            else rpmi_poll fuel ctx (mc_set_state ((mc_state w) <| s_doorbell := true |>) w)
      end.

(** [rpmi_request]: [depth] bounds the requests inside one another *)
Fixpoint rpmi_request_at (depth fuel : nat) (ctx : rpmi_context) (w : W) (group service : Z) (req : list Z)
    (req_len resp_max : Z) : option (Z * (list Z * Z) * W) :=
  let rc := request_check (Some ctx) req_len in
  if truth rc then Some (rc, ([], 0), w)
  else
    let '(token, w) := take_token (mc_lock w) in
    let hdr := request_hdr group service RPMI_MSG_NORMAL_REQUEST req_len token in
    '(rc, resp, w) ← request_locked fuel w hdr req resp_max;
    w ← context_unlock fuel ctx w;
    if truth rc then Some (rc, resp, w)
    else
      w ← match depth with
        | O => None
        | S depth => doorbell_setup fuel (rpmi_request_at depth fuel ctx) ctx w
        end;
      if bool_decide (x_sinks ctx <> []) && negb (s_doorbell (mc_state w))
      then w ← rpmi_poll fuel ctx w; Some (rc, resp, w)
      else Some (rc, resp, w).
Definition rpmi_request (fuel : nat) := rpmi_request_at 2 fuel.

Definition rpmi_post (fuel : nat) (ctx : rpmi_context) (w : W) (group service : Z) (req : list Z) (req_len : Z)
    : option (Z * W) :=
  let rc := request_check (Some ctx) req_len in
  if truth rc then Some (rc, w)
  else
    let '(token, w) := take_token (mc_lock w) in
    let hdr := request_hdr group service RPMI_MSG_POSTED_REQUEST req_len token in
    '(rc, w) ← send_locked fuel w RPMI_QUEUE_A2P_REQ hdr req;
    w ← context_unlock fuel ctx w;
    Some (rc, w).

Definition rpmi_call (fuel : nat) (ctx : rpmi_context) (w : W) (group service : Z) (req : list Z) (resp_words : Z)
    : option (Z * list Z * W) :=
  '(r, w) ← rpmi_request fuel ctx w group service req (4 * Z.of_nat (length req)) (4 * resp_words);
  Some (call_result r resp_words, r.2.1, w).

(** [rpmi_base_get], [rpmi_probe_group]: a value when the call succeeds *)
Definition rpmi_value (rc : Z) (resp : list Z) : option Z := if truth rc then None else resp !! 1%nat.
Definition rpmi_base_get (fuel : nat) (ctx : rpmi_context) (w : W) (service : Z) : option (Z * option Z * W) :=
  '(rc, resp, w) ← rpmi_call fuel ctx w RPMI_GROUP_BASE service [] 2;
  Some (rc, rpmi_value rc resp, w).
Definition rpmi_probe_group (fuel : nat) (ctx : rpmi_context) (w : W) (group : Z) : option (Z * option Z * W) :=
  '(rc, resp, w) ← rpmi_call fuel ctx w RPMI_GROUP_BASE RPMI_BASE_PROBE_SERVICE_GROUP [group] 2;
  Some (rc, rpmi_value rc resp, w).

End Client.
