(* ===== verification/RpmiProps.v ===== *)
(** The RPMI client: whose acknowledgment a request gets, and that it
    returns.  Proved against what a transport promises of the queue of
    acknowledgments ([AckQueue]) and a clock that goes on ([Clock]). *)

From S2P Require Import Prelude Arch Rpmi.

#[local] Open Scope Z_scope.

(** ** What the client relies on

    [log] is every acknowledgment the PuC has put into its queue so far, and
    [ackq] those of them that nobody has taken.  The PuC may add to the queue
    at any time; with the lock held, only [recv] takes from it, from the
    front. *)

Section Flow.
Context {W : Type} (ackq log : W -> list message).

(** From [w] to [w'] the messages [taken] left the queue, in this order, of
    those that were there and those the PuC added meanwhile *)
Definition flow (w w' : W) (taken : list message) : Prop :=
  exists came, log w' = log w ++ came /\ ackq w ++ came = taken ++ ackq w'.

Lemma flow_refl (w : W) : flow w w [].
Proof. exists []. by rewrite !app_nil_r. Qed.

Lemma flow_trans (w1 w2 w3 : W) (l1 l2 : list message) : flow w1 w2 l1 -> flow w2 w3 l2 -> flow w1 w3 (l1 ++ l2).
Proof.
  intros (c1 & L1 & E1) (c2 & L2 & E2). exists (c1 ++ c2). split; [by rewrite L2, L1, app_assoc|].
  by rewrite app_assoc, E1, <- app_assoc, E2, app_assoc.
Qed.
End Flow.

Class AckQueue (W : Type) {T : Transport W} {MC : Machine W} := {
  ack_inv : W -> Prop;
  ackq : W -> list message;
  ack_log : W -> list message;
  ack_lock (w : W) : ack_inv w -> ack_inv (mc_lock w);
  ack_state (w : W) (s : client_state) : ack_inv w -> ack_inv (mc_set_state s w) /\ flow ackq ack_log w (mc_set_state s w) [];
  ack_relax (w : W) : ack_inv w -> ack_inv (mc_relax w) /\ flow ackq ack_log w (mc_relax w) [];
  ack_send (w w' : W) (hdr : rpmi_hdr) (data : list Z) (rc : Z) :
    ack_inv w -> message_wf (hdr, data) -> tp_send w RPMI_QUEUE_A2P_REQ hdr data = (rc, w') -> ack_inv w' /\ flow ackq ack_log w w' [];
  ack_recv (w w' : W) (max rc : Z) (hdr : rpmi_hdr) (data : list Z) :
    ack_inv w -> 0 <= max <= 2 ^ 16 -> tp_recv w RPMI_QUEUE_P2A_ACK max = (rc, hdr, data, w') ->
    ack_inv w' /\ rc <> RPMI_ERR_TIMEOUT /\
    if (rc =? RPMI_SUCCESS) || (rc =? RPMI_ERR_BAD_RANGE)
    then exists msg, flow ackq ack_log w w' [msg] /\ msg.1 = hdr /\
      (rc = RPMI_SUCCESS -> msg.2 = data /\ h_datalen hdr = 4 * Z.of_nat (length data) /\ h_datalen hdr <= max)
    else flow ackq ack_log w w' [];
}.

(** The timer is there and waiting takes time; [ack_left] bounds what the
    PuC has sent and will send. *)
Class Clock (W : Type) {T : Transport W} {MC : Machine W} {AQ : AckQueue W} := {
  ack_left : W -> nat;
  clock_there : timer_available = true;
  clock_room (w : W) : ack_inv w -> 0 <= timer_now w;
  clock_relax (w : W) : ack_inv w -> timer_now w + 1 <= timer_now (mc_relax w) /\ (ack_left (mc_relax w) <= ack_left w)%nat;
  clock_send (w w' : W) (hdr : rpmi_hdr) (data : list Z) (rc : Z) :
    ack_inv w -> message_wf (hdr, data) -> tp_send w RPMI_QUEUE_A2P_REQ hdr data = (rc, w') ->
    timer_now w <= timer_now w' /\ (ack_left w' <= ack_left w)%nat;
  clock_recv (w w' : W) (max rc : Z) (hdr : rpmi_hdr) (data : list Z) :
    ack_inv w -> 0 <= max <= 2 ^ 16 -> tp_recv w RPMI_QUEUE_P2A_ACK max = (rc, hdr, data, w') ->
    timer_now w <= timer_now w' /\
    if (rc =? RPMI_SUCCESS) || (rc =? RPMI_ERR_BAD_RANGE) then (S (ack_left w') <= ack_left w)%nat
    else (ack_left w' <= ack_left w)%nat;
}.

Section Client.
Context {AR : Arch} {CF : RpmiConfig} {W : Type} {T : Transport W} {MC : Machine W}.

(** ** Whose acknowledgment it is *)

Section Acks.
Context {AQ : AckQueue W}.

(** An acknowledgment, of this request *)
Definition ours (req : rpmi_hdr) (m : message) : Prop :=
  h_token m.1 = h_token req /\ h_group m.1 = h_group req /\ h_service m.1 = h_service req /\ h_flags m.1 mod 8 = 2.
Definition others (req : rpmi_hdr) (m : message) : Prop := ~ ours req m.

Lemma acks_spec (req : rpmi_hdr) (m : message) : acks req m.1 = true <-> ours req m.
Proof.
  unfold acks, ours. change RPMI_FLAGS_TYPE_MASK with (Z.ones 3). rewrite Z.land_ones by lia. change (2 ^ 3) with 8.
  change RPMI_MSG_ACKNOWLEDGEMENT with 2. rewrite negb_true_iff, !orb_false_iff, !negb_false_iff, !Z.eqb_eq. tauto.
Qed.
Lemma acks_others (req : rpmi_hdr) (m : message) : acks req m.1 = false -> others req m.
Proof. intros H Ho. apply acks_spec in Ho. congruence. Qed.

(** How a wait for the acknowledgment of [req] can end *)
Inductive waited (req : rpmi_hdr) (max until : Z) (w w' : W) : Z -> list Z -> Z -> Prop :=
  | WaitedOk dropped ack :
      flow ackq ack_log w w' (dropped ++ [ack]) -> Forall (others req) dropped -> ours req ack ->
      h_datalen ack.1 = 4 * Z.of_nat (length ack.2) -> 4 <= h_datalen ack.1 <= max ->
      waited req max until w w' RPMI_SUCCESS ack.2 (h_datalen ack.1)
  | WaitedBad dropped ack :
      flow ackq ack_log w w' (dropped ++ [ack]) -> Forall (others req) dropped -> ours req ack ->
      waited req max until w w' RPMI_ERR_IO [] 0
  | WaitedTimeout dropped :
      flow ackq ack_log w w' dropped -> Forall (others req) dropped -> expired w' until = true ->
      waited req max until w w' RPMI_ERR_TIMEOUT [] 0
  | WaitedError dropped rc :
      flow ackq ack_log w w' dropped -> Forall (others req) dropped -> rc <> RPMI_SUCCESS -> rc <> RPMI_ERR_TIMEOUT ->
      waited req max until w w' rc [] 0.

(** More messages before, all of them others' *)
Lemma waited_before (req : rpmi_hdr) (max until : Z) (w w1 w' : W) (l : list message) (rc len : Z) (data : list Z) :
  flow ackq ack_log w w1 l -> Forall (others req) l -> waited req max until w1 w' rc data len ->
  waited req max until w w' rc data len.
Proof.
  intros Hf Hl [d ack H1 H2 H3 H4 H5|d ack H1 H2 H3|d H1 H2 H3|d rc' H1 H2 H3 H4];
    pose proof (flow_trans _ _ _ _ _ _ _ Hf H1) as H; rewrite ?app_assoc in H.
  - eapply WaitedOk; eauto. by apply Forall_app.
  - eapply WaitedBad; eauto. by apply Forall_app.
  - eapply WaitedTimeout; eauto. by apply Forall_app.
  - eapply WaitedError; eauto. by apply Forall_app.
Qed.

Lemma wait_loop_spec (fuel : nat) (until max : Z) (req : rpmi_hdr) (w w' : W) (rc len : Z) (data : list Z) :
  ack_inv w -> 0 <= max <= 2 ^ 16 -> wait_loop fuel until w req max = Some (rc, (data, len), w') ->
  ack_inv w' /\ waited req max until w w' rc data len.
Proof.
  revert w. induction fuel as [|fuel IH]; intros w Hi Hmax; cbn [wait_loop]; [done|].
  destruct (tp_recv w RPMI_QUEUE_P2A_ACK max) as [[[rc1 ack] d] w1] eqn:E.
  destruct (ack_recv _ _ _ _ _ _ Hi Hmax E) as (Hi1 & Hto & Hr).
  destruct (Z.eqb_spec rc1 RPMI_ERR_NO_DATA) as [->|Hnd].
  { cbn [Z.eqb RPMI_ERR_NO_DATA RPMI_SUCCESS RPMI_ERR_BAD_RANGE orb Pos.eqb] in Hr. destruct (expired w1 until) eqn:Ex.
    - intros [= <- <- <- <-]. split; [done|]. by eapply (WaitedTimeout _ _ _ _ _ []).
    - intros H. destruct (ack_relax w1 Hi1) as [Hi2 Hf]. destruct (IH _ Hi2 Hmax H) as [Hi' Hw]. split; [done|].
      eapply (waited_before _ _ _ _ _ _ []), Hw; [|done]. exact (flow_trans _ _ _ _ _ _ _ Hr Hf). }
  destruct (truth rc1 && negb (rc1 =? RPMI_ERR_BAD_RANGE)) eqn:Eerr.
  { apply andb_prop in Eerr as [Et Eb]. apply negb_true_iff in Eb. apply truth_true in Et.
    rewrite Eb, (proj2 (Z.eqb_neq rc1 RPMI_SUCCESS) Et) in Hr. intros [= <- <- <- <-]. split; [done|]. by eapply (WaitedError _ _ _ _ _ []). }
  assert ((rc1 =? RPMI_SUCCESS) || (rc1 =? RPMI_ERR_BAD_RANGE) = true) as Eok.
  { unfold truth, RPMI_SUCCESS in *. by destruct (rc1 =? 0), (rc1 =? RPMI_ERR_BAD_RANGE). }
  rewrite Eok in Hr. destruct Hr as ([h d'] & Hf & Eh & Hd). cbn [fst snd] in *. subst h.
  destruct (acks req ack) eqn:Ea; cbn [negb].
  2: { intros H. destruct (IH _ Hi1 Hmax H) as [Hi' Hw]. split; [done|]. eapply waited_before, Hw; [done|]. repeat constructor. by apply acks_others. }
  destruct (truth rc1 || (h_datalen ack <? 4)) eqn:Ebad; intros [= <- <- <- <-]; (split; [done|]).
  - eapply (WaitedBad _ _ _ _ _ [] (ack, d')); [done|done|]. by apply acks_spec.
  - apply orb_false_elim in Ebad as [Et El]. apply Z.ltb_ge in El. unfold truth in Et. apply negb_false_iff, Z.eqb_eq in Et.
    destruct (Hd Et) as (<- & Hlen & Hle). eapply (WaitedOk _ _ _ _ _ [] (ack, d')); try done. by apply acks_spec.
Qed.

Lemma send_loop_spec (fuel : nat) (until : Z) (hdr : rpmi_hdr) (data : list Z) (w w' : W) (rc : Z) :
  ack_inv w -> message_wf (hdr, data) -> send_loop fuel until w RPMI_QUEUE_A2P_REQ hdr data = Some (rc, w') ->
  ack_inv w' /\ flow ackq ack_log w w' [].
Proof.
  intros Hi Hm. revert w Hi. induction fuel as [|fuel IH]; intros w Hi; cbn [send_loop]; [done|].
  destruct (tp_send w RPMI_QUEUE_A2P_REQ hdr data) as [rc1 w1] eqn:E. destruct (ack_send _ _ _ _ _ Hi Hm E) as [Hi1 Hf].
  destruct (rc1 =? RPMI_ERR_BUSY); [|by intros [= <- <-]]. destruct (expired w1 until); [by intros [= <- <-]|].
  intros H. destruct (ack_relax w1 Hi1) as [Hi2 Hf2]. destruct (IH _ Hi2 H) as [Hi' Hf']. split; [done|].
  exact (flow_trans _ _ _ _ _ _ _ (flow_trans _ _ _ _ _ _ _ Hf Hf2) Hf').
Qed.

(** C14: a request that succeeds has its own acknowledgment. Of what is in the
    queue of acknowledgments when the request takes its token, and of what
    the PuC adds until the request has released the lock again ([w1]), it
    returns the first that carries the token, the group and the service of
    the request, whole: at least a STATUS word, and no more than the buffer
    takes. What comes before is dropped, what comes after is left; nothing is
    reordered or lost. *)
Theorem rpmi_request_own (fuel : nat) (ctx : rpmi_context) (w w' : W) (group service req_len max len : Z) (req data : list Z) :
  ack_inv w -> 0 <= group < 2 ^ 16 -> 0 <= service < 2 ^ 8 -> req_len = 4 * Z.of_nat (length req) -> req_len < 2 ^ 16 ->
  Forall (fun x => 0 <= x < 2 ^ 32) req -> 0 <= max <= 2 ^ 16 -> 0 <= s_next_token (mc_state (mc_lock w)) < 2 ^ 16 ->
  rpmi_request fuel ctx w group service req req_len max = Some (RPMI_SUCCESS, (data, len), w') ->
  let hdr := request_hdr group service RPMI_MSG_NORMAL_REQUEST req_len (s_next_token (mc_state (mc_lock w))) in
  exists w1 dropped ack came,
    request_locked fuel (take_token (mc_lock w)).2 hdr req max = Some (RPMI_SUCCESS, (data, len), w1) /\
    ack_log w1 = ack_log (mc_lock w) ++ came /\ ackq (mc_lock w) ++ came = dropped ++ ack :: ackq w1 /\
    Forall (others hdr) dropped /\ ours hdr ack /\
    data = ack.2 /\ len = 4 * Z.of_nat (length data) /\ 4 <= len <= max.
Proof.
  intros Hi Hg Hs Hlen Hl16 Hreq Hmax Htok. unfold rpmi_request, rpmi_request_at.
  destruct (truth (request_check _ _)) eqn:Ec;
    [intros H; assert (request_check (Some ctx) req_len = RPMI_SUCCESS) as E by congruence; by rewrite E in Ec|].
  unfold take_token. set (w0 := mc_lock w) in *. set (token := s_next_token (mc_state w0)) in *. cbv zeta.
  set (hdr := request_hdr group service RPMI_MSG_NORMAL_REQUEST req_len token).
  assert (message_wf (hdr, req)) as Hwf.
  { unfold message_wf, hdr_wf, hdr, request_hdr, RPMI_MSG_NORMAL_REQUEST.
    cbn [h_group h_service h_flags h_datalen h_token fst snd]. rewrite Z.mod_small by lia. split_and!; first [lia|done]. }
  destruct (ack_state w0 ((mc_state w0) <| s_next_token := (token + 1) mod 2 ^ 16 |>) (ack_lock w Hi)) as [Hi1 Hf1].
  set (w1 := mc_set_state _ w0) in *. unfold request_locked.
  destruct (send_locked fuel w1 RPMI_QUEUE_A2P_REQ hdr req) as [[rc2 w2]|] eqn:Es; cbn [mbind option_bind]; [|done].
  destruct (send_loop_spec _ _ _ _ _ _ _ Hi1 Hwf Es) as [Hi2 Hf2].
  destruct (truth rc2) eqn:Et.
  { cbn [mbind option_bind]. destruct (context_unlock fuel ctx w2); cbn [mbind option_bind]; [|done].
    rewrite Et. intros [= E _ _ _]. by rewrite E in Et. }
  destruct (wait_ack fuel w2 hdr max) as [[[rc3 [data3 len3]] w3]|] eqn:Ew; cbn [mbind option_bind]; [|done].
  destruct (wait_loop_spec _ _ _ _ _ _ _ _ _ Hi2 Hmax Ew) as [Hi3 Hw3].
  destruct (context_unlock fuel ctx w3) as [w4|]; cbn [mbind option_bind]; [|done].
  intros H. assert (rc3 = RPMI_SUCCESS /\ data3 = data /\ len3 = len) as (-> & -> & ->).
  { destruct (truth rc3); [by simplify_eq|]. destruct (doorbell_setup _ _ _ _) as [w5|]; cbn [mbind option_bind] in H; [|done].
    destruct (_ && _); [destruct (rpmi_poll _ _ _); cbn [mbind option_bind] in H; [|done]|]; by simplify_eq. }
  inversion Hw3 as [d ack H1 H2 H3 H4 H5| | |]; [|done]. subst.
  destruct (flow_trans _ _ _ _ _ _ _ (flow_trans _ _ _ _ _ _ _ Hf1 Hf2) H1) as (came & Hlog & Hq).
  exists w3, d, ack, came.
  change (([] ++ []) ++ ?l) with l in Hq. rewrite <- app_assoc in Hq. split_and!; try done; [|lia..].
  change (token, w1).2 with w1. rewrite Es. cbn [mbind option_bind]. by rewrite Et.
Qed.

End Acks.
(** ** That it returns *)

Section Returns.
Context {AQ : AckQueue W} {CK : Clock W}.

Lemma send_loop_returns (hdr : rpmi_hdr) (data : list Z) (until : Z) (fuel : nat) (w : W) :
  ack_inv w -> message_wf (hdr, data) -> (Z.to_nat (until + 1 - timer_now w) < fuel)%nat ->
  exists rc w', send_loop fuel until w RPMI_QUEUE_A2P_REQ hdr data = Some (rc, w') /\ (ack_left w' <= ack_left w)%nat.
Proof.
  intros Hi Hm. revert w Hi. induction fuel as [|fuel IH]; intros w Hi Hf; [lia|]. cbn [send_loop].
  destruct (tp_send w RPMI_QUEUE_A2P_REQ hdr data) as [rc w1] eqn:E.
  destruct (clock_send _ _ _ _ _ Hi Hm E) as [Hn Hl]. destruct (ack_send _ _ _ _ _ Hi Hm E) as [Hi1 _].
  destruct (rc =? RPMI_ERR_BUSY); [|eauto]. unfold expired. rewrite clock_there. cbn [andb].
  destruct (Z.ltb_spec until (timer_now w1)); [eauto|]. destruct (clock_relax w1 Hi1) as [Hn1 Hl1].
  destruct (IH (mc_relax w1)) as (rc' & w' & Hs & Hl'); [by apply ack_relax|lia|]. exists rc', w'. split; [done|lia].
Qed.

Lemma wait_loop_returns (req : rpmi_hdr) (max until : Z) (fuel : nat) (w : W) :
  ack_inv w -> 0 <= max <= 2 ^ 16 -> (ack_left w + Z.to_nat (until + 1 - timer_now w) < fuel)%nat ->
  is_Some (wait_loop fuel until w req max).
Proof.
  intros Hi Hmax. revert w Hi. induction fuel as [|fuel IH]; intros w Hi Hf; [lia|]. cbn [wait_loop].
  destruct (tp_recv w RPMI_QUEUE_P2A_ACK max) as [[[rc ack] data] w1] eqn:E.
  destruct (clock_recv _ _ _ _ _ _ Hi Hmax E) as [Hn Hl]. destruct (ack_recv _ _ _ _ _ _ Hi Hmax E) as [Hi1 _].
  destruct (Z.eqb_spec rc RPMI_ERR_NO_DATA) as [->|].
  { cbn [Z.eqb RPMI_ERR_NO_DATA RPMI_SUCCESS RPMI_ERR_BAD_RANGE orb Pos.eqb] in Hl. unfold expired. rewrite clock_there. cbn [andb].
    destruct (Z.ltb_spec until (timer_now w1)); [done|]. destruct (clock_relax w1 Hi1) as [Hn1 Hl1].
    apply IH; [by apply ack_relax|lia]. }
  destruct (truth rc && negb (rc =? RPMI_ERR_BAD_RANGE)) eqn:Ee; [done|].
  destruct (acks req ack); cbn [negb]; [by destruct (truth rc || _)|]. apply IH; [done|].
  assert ((rc =? RPMI_SUCCESS) || (rc =? RPMI_ERR_BAD_RANGE) = true) as Eok.
  { unfold truth, RPMI_SUCCESS in *. by destruct (rc =? 0), (rc =? RPMI_ERR_BAD_RANGE). }
  rewrite Eok in Hl. lia.
Qed.

(** C39: the exchange of a request, under the client's lock, ends: with an
    acknowledgment, an error or a timeout. Where the timer runs while the
    monitor waits, the wait for room in the queue
    and the wait for the acknowledgment take at most a round for each tick of
    the timeout, two more, and one for each acknowledgment that there is or
    comes. *)
Theorem rpmi_request_ends (fuel : nat) (w : W) (hdr : rpmi_hdr) (req : list Z) (max : Z) :
  ack_inv w -> message_wf (hdr, req) -> 0 <= max <= 2 ^ 16 ->
  0 <= rpmi_timeout -> (ack_left w + Z.to_nat rpmi_timeout + 2 <= fuel)%nat ->
  is_Some (request_locked fuel w hdr req max).
Proof.
  intros Hi Hm Hmax Ht Hf. unfold request_locked, send_locked, wait_ack.
  assert (forall w, ack_inv w -> deadline w + 1 - timer_now w <= rpmi_timeout + 1) as Ed.
  { intros w1 Hi1. unfold deadline. pose proof (clock_room w1 Hi1).
    pose proof (Z.mod_le (timer_now w1 + rpmi_timeout) (2 ^ 64)). lia. }
  destruct (send_loop_returns hdr req (deadline w) fuel w) as (rc & w1 & Es & Hl); [done|done|pose proof (Ed w Hi); lia|].
  rewrite Es. cbn [mbind option_bind]. destruct (truth rc); [done|].
  assert (ack_inv w1) by (by apply (send_loop_spec _ _ _ _ _ _ _ Hi Hm Es)). apply wait_loop_returns; [done|done|].
  pose proof (Ed w1 ltac:(done)). lia.
Qed.

End Returns.
End Client.
