(* ===== verification/RpmiShmem.v ===== *)
(** The RPMI shared memory transport, [drivers/rpmi/rpmi_shmem.c].

    The memory is shared with the platform microcontroller (PuC): a function
    from addresses to 32-bit words, of any contents. The queues, their sizes
    and the doorbell are what the probe found. *)

From stdpp Require Import functions.
From S2P Require Import Prelude Arch Memregion Rpmi.

#[local] Open Scope Z_scope.

(** [struct rpmi_shmem]; a queue or a doorbell that is not there is at 0. *)
Record rpmi_shmem : Type := RpmiShmem {
  t_queue : rpmi_queue -> Z;
  t_msg_slots : rpmi_queue -> Z;
  t_slot_size : Z;
  t_doorbell : Z;
  t_doorbell_value : Z;
}.

#[export] Instance rpmi_shmem_eta : Settable rpmi_shmem := fun t =>
  RpmiShmem (t_queue t) (t_msg_slots t) (t_slot_size t) (t_doorbell t) (t_doorbell_value t).

Class ShmemConfig := {
  CONFIG_RPMI_SHMEM_MAX_INSTANCES : Z;
  CONFIG_RPMI_SHMEM_PROTECT : bool;
}.

(** 32-bit words by their address *)
Definition io_mem : Type := Z -> Z.

Section Shmem.
Context {AR : Arch} {KC : Kconfig} {SC : ShmemConfig}.

Definition io_read32 (m : io_mem) (addr : Z) : Z := m (wrap addr).
Definition io_write32 (m : io_mem) (addr v : Z) : io_mem := fun a => if decide (a = wrap addr) then low32 v else m a.

Definition queue_slot (t : rpmi_shmem) (q : rpmi_queue) (slot : Z) : Z := t_queue t q + low32 slot * t_slot_size t.

(** The words of a message's data, at [slot] *)
Definition write_words (slot : Z) (words : list Z) (n : nat) (m : io_mem) : io_mem :=
  for_upto n (fun i m => io_write32 m (slot + 8 + 4 * i) (nth (Z.to_nat i) words 0)) m.
Definition read_words (m : io_mem) (slot : Z) (n : nat) : list Z :=
  (fun i => io_read32 m (slot + 8 + 4 * Z.of_nat i)) <$> seq 0 n.

(** The two words of a header *)
Definition hdr_word0 (h : rpmi_hdr) : Z := Z.lor (Z.lor (h_group h) (Z.shiftl (h_service h) 16)) (Z.shiftl (h_flags h) 24).
Definition hdr_word1 (h : rpmi_hdr) : Z := Z.lor (h_datalen h) (Z.shiftl (h_token h) 16).
Definition hdr_of_words (w0 w1 : Z) : rpmi_hdr :=
  RpmiHdr (w0 mod 2 ^ 16) (Z.shiftr w0 16 mod 2 ^ 8) (Z.shiftr w0 24 mod 2 ^ 8) (w1 mod 2 ^ 16) (Z.shiftr w1 16 mod 2 ^ 16).

Definition rpmi_shmem_send (t : rpmi_shmem) (m : io_mem) (q : rpmi_queue) (hdr : rpmi_hdr) (data : list Z) : Z * io_mem :=
  if bool_decide (q <> RPMI_QUEUE_A2P_REQ /\ q <> RPMI_QUEUE_A2P_ACK) || negb (truth (t_queue t q))
  then (RPMI_ERR_INVALID_PARAM, m)
  else
    let head := io_read32 m (queue_slot t q 0) in
    let tail := io_read32 m (queue_slot t q 1) in
    if (t_msg_slots t q <=? head) || (t_msg_slots t q <=? tail) then (RPMI_ERR_IO, m)
    else if low32 (tail + 1) mod t_msg_slots t q =? head then (RPMI_ERR_BUSY, m)
    else if t_slot_size t - RPMI_MSG_HDR_SIZE <? h_datalen hdr then (RPMI_ERR_INVALID_PARAM, m)
    else
      let slot := queue_slot t q (2 + tail) in
      let m := io_write32 m slot (hdr_word0 hdr) in
      let m := io_write32 m (slot + 4) (hdr_word1 hdr) in
      let m := write_words slot data (Z.to_nat (h_datalen hdr / 4)) m in
      let m := io_write32 m (queue_slot t q 1) (low32 (tail + 1) mod t_msg_slots t q) in
      let m := if truth (t_doorbell t) then io_write32 m (t_doorbell t) (t_doorbell_value t) else m in
      (RPMI_SUCCESS, m).

(** The result; the header and the data where they are valid; the memory.
    [hdr_zero] stands for what the caller's header held. *)
Definition hdr_zero : rpmi_hdr := RpmiHdr 0 0 0 0 0.
Definition rpmi_shmem_recv (t : rpmi_shmem) (m : io_mem) (q : rpmi_queue) (max : Z)
    : Z * rpmi_hdr * list Z * io_mem :=
  if bool_decide (q <> RPMI_QUEUE_P2A_ACK /\ q <> RPMI_QUEUE_P2A_REQ) || negb (truth (t_queue t q))
  then (RPMI_ERR_INVALID_PARAM, hdr_zero, [], m)
  else
    let head := io_read32 m (queue_slot t q 0) in
    let tail := io_read32 m (queue_slot t q 1) in
    if (t_msg_slots t q <=? head) || (t_msg_slots t q <=? tail) then (RPMI_ERR_IO, hdr_zero, [], m)
    else if head =? tail then (RPMI_ERR_NO_DATA, hdr_zero, [], m)
    else
      let slot := queue_slot t q (2 + head) in
      let hdr := hdr_of_words (io_read32 m slot) (io_read32 m (slot + 4)) in
      let '(rc, data) :=
        if negb (IS_ALIGNED (h_datalen hdr) 4) || (t_slot_size t - RPMI_MSG_HDR_SIZE <? h_datalen hdr) || (max <? h_datalen hdr)
        then (RPMI_ERR_BAD_RANGE, [])
        else (RPMI_SUCCESS, read_words m slot (Z.to_nat (h_datalen hdr / 4))) in
      (rc, hdr, data, io_write32 m (queue_slot t q 0) (low32 (head + 1) mod t_msg_slots t q)).

(** ** The probe *)

(** What the device tree says of a transport: the registers of the queues,
    [None] without, and of the doorbell; 64-bit addresses and sizes *)
Record shmem_node : Type := ShmemNode {
  n_slot_size : Z;
  n_reg : rpmi_queue -> option (Z * Z);
  n_doorbell : option (Z * Z);
  n_doorbell_value : Z;
  n_phandle : Z;
  n_p2a_doorbell_sysmsi : Z;
}.

(** [nr_instances], the memory regions ([memregion.h]) and the contexts *)
Record shmem_probes : Type := ShmemProbes { sp_nr : Z; sp_regions : list memregion; sp_contexts : list rpmi_context }.

Definition rpmi_queues : list rpmi_queue := [RPMI_QUEUE_A2P_REQ; RPMI_QUEUE_P2A_ACK; RPMI_QUEUE_P2A_REQ; RPMI_QUEUE_A2P_ACK].

Definition queue_there (t : rpmi_shmem) (q : rpmi_queue) : bool := truth (t_queue t q).

Fixpoint probe_queues (image : Z) (n : shmem_node) (qs : list rpmi_queue) (t : rpmi_shmem) (rs : list memregion)
    : outcome (option rpmi_shmem * list memregion) :=
  match qs with
  | [] => Ret (Some t, rs)
  | q :: qs =>
      match n_reg n q with
      | None => probe_queues image n qs t rs
      | Some (base, size) =>
          let slot := n_slot_size n in
          if truth (size mod slot) || (size / slot <? 3) then Ret (None, rs)
          else
            let t := t <| t_queue := <[q := wrap base]> (t_queue t) |>
                       <| t_msg_slots := <[q := low32 (low32 (size / slot) - 2)]> (t_msg_slots t) |> in
            rs ← memregion_add image rs (wrap base) (wrap size)
              (if CONFIG_RPMI_SHMEM_PROTECT then MEMREGION_MMODE_RW else MEMREGION_SHARED_RW);
            probe_queues image n qs t rs
      end
  end.

Definition shmem_zero (slot : Z) : rpmi_shmem := RpmiShmem (fun _ => 0) (fun _ => 0) slot 0 0.
Definition shmem_context (n : shmem_node) (t : rpmi_shmem) : rpmi_context :=
  RpmiContext (n_phandle n) (n_slot_size n - RPMI_MSG_HDR_SIZE)
    (queue_there t RPMI_QUEUE_P2A_REQ && queue_there t RPMI_QUEUE_A2P_ACK) (n_p2a_doorbell_sysmsi n) [].

Definition rpmi_shmem_probe (image : Z) (s : shmem_probes) (node : option shmem_node)
    : outcome (Z * option rpmi_shmem * shmem_probes) :=
  match node with
  | None => Ret (0, None, s)
  | Some n =>
      let slot := n_slot_size n in
      if sp_nr s =? CONFIG_RPMI_SHMEM_MAX_INSTANCES then Ret (-1, None, s)
      else if (slot <? RPMI_SLOT_SIZE_MIN) || negb (IS_POWER_OF_TWO slot) then Ret (-1, None, s)
      else
        '(found, rs) ← probe_queues image n rpmi_queues (shmem_zero slot) (sp_regions s);
        let s := ShmemProbes (sp_nr s) rs (sp_contexts s) in
        match found with
        | None => Ret (-1, None, s)
        | Some t =>
            if negb (queue_there t RPMI_QUEUE_A2P_REQ) || negb (queue_there t RPMI_QUEUE_P2A_ACK) then Ret (-1, None, s)
            else
              '(t, rs) ← match n_doorbell n with
                | None => Ret (t, rs)
                | Some (base, size) =>
                    rs ← memregion_add image rs (wrap base) (wrap size) MEMREGION_MMODE_RW;
                    Ret (t <| t_doorbell := wrap base |> <| t_doorbell_value := n_doorbell_value n |>, rs)
                end;
              Ret (0, Some t, ShmemProbes (sp_nr s + 1) rs (rpmi_context_register (sp_contexts s) (shmem_context n t)))
        end
  end.

End Shmem.
