(* ===== verification/RpmiShmemProps.v ===== *)
(** The shared memory transport of RPMI: its queues, the memory they use,
    and that it implements the interface of a transport. *)

From S2P Require Import Prelude Arch Memregion Rpmi RpmiShmem.

#[local] Open Scope Z_scope.

(** ** Headers *)

Lemma hdr_words_roundtrip (h : rpmi_hdr) :
  hdr_wf h -> hdr_of_words (low32 (hdr_word0 h)) (low32 (hdr_word1 h)) = h.
Proof.
  destruct h as [g s f d k]. unfold hdr_wf, hdr_of_words, hdr_word0, hdr_word1, low32.
  cbn [h_group h_service h_flags h_datalen h_token]. intros (Hg & Hs & Hf & Hd & Hk).
  assert (forall a b n, 0 <= n -> 0 <= a < 2 ^ n -> Z.land a (Z.shiftl b n) = 0) as Hdis.
  { intros a b n Hn Ha. bitwise. destruct (Z.ltb_spec i n).
    - rewrite (Z.testbit_neg_r b) by lia. apply andb_false_r.
    - by rewrite (testbit_high n a i) by lia. }
  rewrite (lor_disjoint_add g), (lor_disjoint_add d) by (apply Hdis; lia).
  rewrite lor_disjoint_add by (apply Hdis; rewrite ?Z.shiftl_mul_pow2; lia).
  rewrite !Z.shiftl_mul_pow2, !Z.shiftr_div_pow2 by lia. f_equal; Z.to_euclidean_division_equations; lia.
Qed.

Section Queues.
Context {AR : Arch} (t : rpmi_shmem).

(** The memory of a queue: the two index slots and the messages *)
Definition queue_end (q : rpmi_queue) : Z := t_queue t q + (2 + t_msg_slots t q) * t_slot_size t.
Definition in_queue (q : rpmi_queue) (a : Z) : Prop := t_queue t q <= a < queue_end q.

Record shmem_wf : Prop := {
  sw_slot : RPMI_SLOT_SIZE_MIN <= t_slot_size t /\ t_slot_size t mod 4 = 0;
  sw_slots (q : rpmi_queue) : t_queue t q <> 0 -> 0 < t_msg_slots t q <= 2 ^ 32 - 3;
  sw_queue (q : rpmi_queue) : t_queue t q <> 0 -> 0 < t_queue t q /\ queue_end q <= 2 ^ XLEN;
  sw_apart (q q' : rpmi_queue) (a : Z) : t_queue t q <> 0 -> t_queue t q' <> 0 -> in_queue q a -> in_queue q' a -> q = q';
  sw_doorbell : is_ulong (t_doorbell t) /\ forall q, t_queue t q <> 0 -> ~ in_queue q (t_doorbell t);
}.

Definition mem_wf (m : io_mem) : Prop := forall a, 0 <= m a < 2 ^ 32.

Context (WF : shmem_wf).

Definition slot_addr (q : rpmi_queue) (k : Z) : Z := t_queue t q + k * t_slot_size t.

Lemma slot_size_pos : 64 <= t_slot_size t.
Proof. exact (proj1 (sw_slot WF)). Qed.

Lemma queue_slot_eq (q : rpmi_queue) (k : Z) : 0 <= k < 2 ^ 32 -> queue_slot t q k = slot_addr q k.
Proof. intros Hk. unfold queue_slot, slot_addr, low32. by rewrite Z.mod_small. Qed.

(** Every word of a slot is the queue's, and at its own address *)
Lemma slot_in_queue (q : rpmi_queue) (k o : Z) :
  t_queue t q <> 0 -> 0 <= k < 2 + t_msg_slots t q -> 0 <= o < t_slot_size t -> in_queue q (slot_addr q k + o).
Proof.
  intros Hq Hk Ho. unfold in_queue, queue_end, slot_addr. pose proof slot_size_pos. nia.
Qed.

Lemma in_queue_wrap (q : rpmi_queue) (a : Z) : t_queue t q <> 0 -> in_queue q a -> wrap a = a.
Proof. intros Hq Ha. pose proof (sw_queue WF q Hq). apply wrap_small. unfold in_queue, is_ulong in *. lia. Qed.

(** Words of different slots are different *)
Lemma slot_inj (q : rpmi_queue) (k k' o o' : Z) :
  0 <= o < t_slot_size t -> 0 <= o' < t_slot_size t -> slot_addr q k + o = slot_addr q k' + o' -> k = k' /\ o = o'.
Proof. intros Ho Ho' E. unfold slot_addr in E. assert (k = k') by nia. subst. lia. Qed.

(** ** Reading and writing *)

Lemma io_read_write (m : io_mem) (a b v : Z) :
  io_read32 (io_write32 m a v) b = if decide (wrap b = wrap a) then low32 v else io_read32 m b.
Proof. reflexivity. Qed.

Lemma io_write_wf (m : io_mem) (a v : Z) : mem_wf m -> mem_wf (io_write32 m a v).
Proof. intros Hm b. unfold io_write32. case_decide; [apply Z.mod_pos_bound; lia|apply Hm]. Qed.

Lemma io_write_out (m : io_mem) (a v b : Z) : b <> wrap a -> io_write32 m a v b = m b.
Proof. intros Hb. unfold io_write32. by rewrite decide_False. Qed.

(** The words of a message's data *)
Lemma write_words_spec (slot : Z) (words : list Z) (n : nat) (m : io_mem) :
  0 <= slot -> slot + 8 + 4 * Z.of_nat n <= 2 ^ XLEN ->
  (forall i, (i < n)%nat -> write_words slot words n m (slot + 8 + 4 * Z.of_nat i) = low32 (nth i words 0)) /\
  (forall a, (forall i, (i < n)%nat -> a <> slot + 8 + 4 * Z.of_nat i) -> write_words slot words n m a = m a).
Proof.
  intros Hs Hn. unfold write_words.
  pose (P := fun (k : nat) (m' : io_mem) => (k <= n)%nat ->
    (forall i, (i < k)%nat -> m' (slot + 8 + 4 * Z.of_nat i) = low32 (nth i words 0)) /\
    (forall a, (forall i, (i < k)%nat -> a <> slot + 8 + 4 * Z.of_nat i) -> m' a = m a)).
  enough (P n (for_upto n (fun i m => io_write32 m (slot + 8 + 4 * i) (nth (Z.to_nat i) words 0)) m)) as H by (by apply H).
  apply (for_upto_ind P).
  - intros _. split; [lia|done].
  - intros k m' Hk IH Hle. destruct (IH ltac:(lia)) as [IH1 IH2]. unfold io_write32.
    rewrite (wrap_small (slot + 8 + 4 * Z.of_nat k)) by (unfold is_ulong; lia). split.
    + intros i Hi. case_decide as E.
      * assert (i = k) as -> by lia. by rewrite Nat2Z.id.
      * apply IH1. assert (i <> k) by congruence. lia.
    + intros a Ha. rewrite decide_False by (apply Ha; lia). apply IH2. intros i Hi. apply Ha. lia.
Qed.

Lemma write_words_wf (slot : Z) (words : list Z) (n : nat) (m : io_mem) : mem_wf m -> mem_wf (write_words slot words n m).
Proof. intros Hm. unfold write_words. apply (for_upto_ind (fun _ => mem_wf)); [done|]. intros. by apply io_write_wf. Qed.

(** ** The messages of a queue *)

Definition q_head (m : io_mem) (q : rpmi_queue) : Z := m (slot_addr q 0).
Definition q_tail (m : io_mem) (q : rpmi_queue) : Z := m (slot_addr q 1).
Definition indices_ok (m : io_mem) (q : rpmi_queue) : Prop := q_head m q < t_msg_slots t q /\ q_tail m q < t_msg_slots t q.

(** A message whose length makes sense, in a buffer of [max] bytes *)
Definition fits (max : Z) (h : rpmi_hdr) : bool :=
  IS_ALIGNED (h_datalen h) 4 && (h_datalen h <=? t_slot_size t - RPMI_MSG_HDR_SIZE) && (h_datalen h <=? max).
Definition hdr_at (m : io_mem) (q : rpmi_queue) (k : Z) : rpmi_hdr :=
  hdr_of_words (m (slot_addr q (2 + k))) (m (slot_addr q (2 + k) + 4)).
Definition data_at (m : io_mem) (q : rpmi_queue) (k : Z) (n : nat) : list Z :=
  (fun i => m (slot_addr q (2 + k) + 8 + 4 * Z.of_nat i)) <$> seq 0 n.
Definition message_at (m : io_mem) (q : rpmi_queue) (k : Z) : message :=
  (hdr_at m q k, if fits (2 ^ 16) (hdr_at m q k) then data_at m q k (Z.to_nat (h_datalen (hdr_at m q k) / 4)) else []).

Lemma aligned4 (x : Z) : IS_ALIGNED x 4 = true <-> x mod 4 = 0.
Proof. change 4 with (2 ^ 2). apply IS_ALIGNED_spec. pose proof XLEN_bounds. lia. Qed.

Lemma fits_data (max : Z) (msg : message) :
  message_wf msg -> h_datalen msg.1 <= t_slot_size t - RPMI_MSG_HDR_SIZE -> h_datalen msg.1 <= max -> fits max msg.1 = true.
Proof.
  intros (_ & Hlen & _) H1 H2. unfold fits. rewrite !andb_true_iff, !Z.leb_le, aligned4. split_and!; [|lia..].
  rewrite Hlen, Z.mul_comm. by apply Z_mod_mult.
Qed.

(** From the head to the tail *)
Definition ring_count (m : io_mem) (q : rpmi_queue) : nat := Z.to_nat ((q_tail m q - q_head m q) mod t_msg_slots t q).
Definition queue_messages (m : io_mem) (q : rpmi_queue) : list message :=
  (fun i => message_at m q ((q_head m q + Z.of_nat i) mod t_msg_slots t q)) <$> seq 0 (ring_count m q).

(** A message is what its slot holds *)
Lemma hdr_at_ext (m m' : io_mem) (q : rpmi_queue) (k : Z) :
  (forall o, 0 <= o < t_slot_size t -> m (slot_addr q (2 + k) + o) = m' (slot_addr q (2 + k) + o)) ->
  hdr_at m q k = hdr_at m' q k.
Proof.
  intros E. pose proof slot_size_pos as Hs.
  unfold hdr_at. rewrite <- (Z.add_0_r (slot_addr q (2 + k))) at 1 3. by rewrite !E by lia.
Qed.

Lemma data_at_ext (max : Z) (h : rpmi_hdr) (m m' : io_mem) (q : rpmi_queue) (k : Z) :
  (forall o, 0 <= o < t_slot_size t -> m (slot_addr q (2 + k) + o) = m' (slot_addr q (2 + k) + o)) ->
  fits max h = true -> data_at m q k (Z.to_nat (h_datalen h / 4)) = data_at m' q k (Z.to_nat (h_datalen h / 4)).
Proof.
  intros E F. unfold data_at. apply list_fmap_ext. intros i x Hx. apply lookup_seq in Hx as [-> Hi].
  unfold fits in F. bool_prop. unfold RPMI_MSG_HDR_SIZE in *. rewrite <- !Z.add_assoc.
  apply E. Z.to_euclidean_division_equations; lia.
Qed.

Lemma message_at_ext (m m' : io_mem) (q : rpmi_queue) (k : Z) :
  (forall o, 0 <= o < t_slot_size t -> m (slot_addr q (2 + k) + o) = m' (slot_addr q (2 + k) + o)) ->
  message_at m q k = message_at m' q k.
Proof.
  intros E. unfold message_at. rewrite (hdr_at_ext m m') by done. f_equal. destruct (fits _ _) eqn:F; [|done].
  by apply (data_at_ext (2 ^ 16)).
Qed.

(** A queue is what its memory holds *)
Lemma queue_messages_ext (m m' : io_mem) (q : rpmi_queue) :
  t_queue t q <> 0 -> (forall a, in_queue q a -> m a = m' a) -> queue_messages m q = queue_messages m' q.
Proof.
  intros Hq E. pose proof slot_size_pos as Hs. pose proof (sw_slots WF q Hq) as Hn.
  assert (forall k, 0 <= k < 2 + t_msg_slots t q -> m (slot_addr q k) = m' (slot_addr q k)) as Ei.
  { intros k Hk. apply E. rewrite <- (Z.add_0_r (slot_addr q k)). apply slot_in_queue; [done|lia..]. }
  unfold queue_messages, ring_count, q_tail, q_head. rewrite !Ei by lia. apply list_fmap_ext.
  intros i x _. apply message_at_ext. intros o Ho. apply E, slot_in_queue; [done| |lia].
  pose proof (Z.mod_pos_bound (m' (slot_addr q 0) + Z.of_nat x) (t_msg_slots t q)). lia.
Qed.

(** ** Sending *)

Lemma read_slot (m : io_mem) (q : rpmi_queue) (k o : Z) :
  t_queue t q <> 0 -> 0 <= k < 2 + t_msg_slots t q -> 0 <= o < t_slot_size t ->
  io_read32 m (queue_slot t q k + o) = m (slot_addr q k + o).
Proof.
  intros Hq Hk Ho. pose proof (sw_slots WF q Hq). rewrite queue_slot_eq by lia.
  unfold io_read32. by rewrite (in_queue_wrap q) by (try done; by apply slot_in_queue).
Qed.

(** The message is written to its slot *)
Definition write_message (m : io_mem) (slot : Z) (hdr : rpmi_hdr) (data : list Z) : io_mem :=
  write_words slot data (Z.to_nat (h_datalen hdr / 4))
    (io_write32 (io_write32 m slot (hdr_word0 hdr)) (slot + 4) (hdr_word1 hdr)).

Lemma write_message_spec (m : io_mem) (q : rpmi_queue) (k : Z) (hdr : rpmi_hdr) (data : list Z) :
  t_queue t q <> 0 -> 0 <= k < t_msg_slots t q -> message_wf (hdr, data) -> h_datalen hdr <= t_slot_size t - RPMI_MSG_HDR_SIZE ->
  let m' := write_message m (slot_addr q (2 + k)) hdr data in
  message_at m' q k = (hdr, data) /\
  (forall a, (forall o, 0 <= o < t_slot_size t -> a <> slot_addr q (2 + k) + o) -> m' a = m a).
Proof.
  intros Hq Hk (Hh & Hlen & Hdata) Hfit m'. cbn [fst snd] in *. unfold RPMI_MSG_HDR_SIZE in *. pose proof slot_size_pos as Hs.
  set (slot := slot_addr q (2 + k)) in *.
  assert (Z.to_nat (h_datalen hdr / 4) = length data) as En by (rewrite Hlen, Z.mul_comm, Z.div_mul by lia; lia).
  assert (forall o, 0 <= o < t_slot_size t -> in_queue q (slot + o)) as Hin by (intros; apply slot_in_queue; [done|lia..]).
  assert (wrap slot = slot) as Ew0 by (apply (in_queue_wrap q); [done|]; rewrite <- (Z.add_0_r slot); apply Hin; lia).
  assert (wrap (slot + 4) = slot + 4) as Ew4 by (apply (in_queue_wrap q); [done|]; apply Hin; lia).
  assert (0 <= slot /\ slot + t_slot_size t <= 2 ^ XLEN) as [Hs0 Hs1].
  { pose proof (sw_queue WF q Hq) as [_ Hb]. pose proof (Hin (t_slot_size t - 1) ltac:(lia)) as H. pose proof (Hin 0 ltac:(lia)) as H'.
    pose proof (sw_queue WF q Hq). unfold in_queue in *. lia. }
  destruct (write_words_spec slot data (length data) (io_write32 (io_write32 m slot (hdr_word0 hdr)) (slot + 4) (hdr_word1 hdr)))
    as [Hw Ho]; [lia..|].
  assert (forall a, m' a = write_words slot data (length data) (io_write32 (io_write32 m slot (hdr_word0 hdr)) (slot + 4) (hdr_word1 hdr)) a)
    as Em by (intros a; subst m'; unfold write_message; by rewrite En).
  assert (hdr_at m' q k = hdr) as Eh.
  { unfold hdr_at. fold slot. rewrite !Em, !Ho by (intros; lia). unfold io_write32. rewrite Ew0, Ew4.
    rewrite decide_False, decide_True, decide_True by lia. by apply hdr_words_roundtrip. }
  split.
  - unfold message_at. rewrite Eh, En.
    assert (fits (2 ^ 16) hdr = true) as ->
      by (apply (fits_data (2 ^ 16) (hdr, data)); [done|done|]; cbn [fst]; destruct Hh as (_ & _ & _ & Hd & _); lia).
    f_equal. unfold data_at. fold slot. apply list_eq. intros i. rewrite list_lookup_fmap.
    destruct (decide (i < length data)%nat) as [Hi|Hi].
    + rewrite lookup_seq_lt by done. cbn [fmap option_fmap option_map]. rewrite Em, Hw by lia.
      destruct (lookup_lt_is_Some_2 data i Hi) as [x Hx]. rewrite Hx. f_equal. rewrite (nth_lookup_Some _ _ _ _ Hx).
      apply Z.mod_small. by apply (Forall_lookup_1 _ _ _ _ Hdata Hx).
    + rewrite lookup_seq_ge, lookup_ge_None_2 by lia. done.
  - intros a Ha. rewrite Em, Ho.
    + rewrite !io_write_out; [done|..]; rewrite ?Ew0, ?Ew4; intros ->; [|by apply (Ha 4); lia].
      apply (Ha 0); lia.
    + intros i Hi. rewrite <- !Z.add_assoc. apply Ha. lia.
Qed.

(** The ring's arithmetic: the slots in use, from the head, are not the
    tail's, and there is a slot more after an enqueue *)
Lemma ring_diff (n h k : Z) : 0 <= h < n -> 0 <= k < n -> (k - h) mod n = if h <=? k then k - h else k - h + n.
Proof.
  intros Hh Hk. destruct (Z.leb_spec h k); symmetry; [apply (Z.mod_unique_pos _ _ 0)|apply (Z.mod_unique_pos _ _ (-1))]; lia.
Qed.

Lemma ring_slot (n h k : Z) (i : nat) :
  0 < n -> 0 <= h < n -> 0 <= k < n -> Z.of_nat i < (k - h) mod n -> (h + Z.of_nat i) mod n <> k.
Proof.
  intros Hn Hh Hk. rewrite ring_diff by lia. intros Hi.
  destruct (Z.ltb_spec (h + Z.of_nat i) n); [rewrite Z.mod_small by lia; destruct (Z.leb_spec h k); lia|].
  rewrite <- (Z.mod_unique_pos _ n 1 (h + Z.of_nat i - n)) by (destruct (Z.leb_spec h k); lia). destruct (Z.leb_spec h k); lia.
Qed.

Lemma ring_tail (n h k : Z) :
  0 < n -> 0 <= h < n -> 0 <= k < n -> (h + (k - h) mod n) mod n = k.
Proof.
  intros Hn Hh Hk. rewrite Zplus_mod_idemp_r. replace (h + (k - h)) with k by lia. by apply Z.mod_small.
Qed.

Lemma ring_full (n h k : Z) :
  0 < n -> 0 <= h < n -> 0 <= k < n ->
  ((k + 1) mod n =? h) = ((k - h) mod n =? n - 1) /\
  ((k + 1) mod n <> h -> ((k + 1) mod n - h) mod n = (k - h) mod n + 1).
Proof.
  intros Hn Hh Hk.
  pose proof (ring_diff n h k Hh Hk) as Ed.
  assert ((k + 1) mod n = if k + 1 =? n then 0 else k + 1) as E1.
  { destruct (Z.eqb_spec (k + 1) n) as [->|]; [by apply Z_mod_same_full|apply Z.mod_small; lia]. }
  rewrite Ed, E1. split.
  - destruct (Z.eqb_spec (k + 1) n), (Z.leb_spec h k); apply eq_true_iff_eq; rewrite !Z.eqb_eq; lia.
  - intros Hne. destruct (Z.eqb_spec (k + 1) n), (Z.leb_spec h k); symmetry;
      first [apply (Z.mod_unique_pos _ _ 0); lia|apply (Z.mod_unique_pos _ _ (-1)); lia].
Qed.

Lemma index_low32 (q : rpmi_queue) (k : Z) : t_queue t q <> 0 -> 0 <= k < t_msg_slots t q ->
  low32 (k + 1) mod t_msg_slots t q = (k + 1) mod t_msg_slots t q.
Proof. intros Hq Hk. pose proof (sw_slots WF q Hq). unfold low32. by rewrite (Z.mod_small (k + 1)) by lia. Qed.

(** What a call that enqueues leaves in the memory *)
Definition enqueued (m : io_mem) (q : rpmi_queue) (hdr : rpmi_hdr) (data : list Z) : io_mem :=
  let m := io_write32 (write_message m (slot_addr q (2 + q_tail m q)) hdr data) (slot_addr q 1)
    ((q_tail m q + 1) mod t_msg_slots t q) in
  if truth (t_doorbell t) then io_write32 m (t_doorbell t) (t_doorbell_value t) else m.

Lemma send_eq (m : io_mem) (q : rpmi_queue) (hdr : rpmi_hdr) (data : list Z) :
  mem_wf m -> q = RPMI_QUEUE_A2P_REQ \/ q = RPMI_QUEUE_A2P_ACK -> t_queue t q <> 0 ->
  rpmi_shmem_send t m q hdr data =
    if (t_msg_slots t q <=? q_head m q) || (t_msg_slots t q <=? q_tail m q) then (RPMI_ERR_IO, m)
    else if (q_tail m q + 1) mod t_msg_slots t q =? q_head m q then (RPMI_ERR_BUSY, m)
    else if t_slot_size t - RPMI_MSG_HDR_SIZE <? h_datalen hdr then (RPMI_ERR_INVALID_PARAM, m)
    else (RPMI_SUCCESS, enqueued m q hdr data).
Proof.
  intros Hm Hdir Hq. pose proof (sw_slots WF q Hq) as Hn. pose proof slot_size_pos as Hs. unfold rpmi_shmem_send.
  rewrite bool_decide_eq_false_2 by (destruct Hdir; tauto). rewrite (proj2 (truth_true _) Hq). cbn [negb orb].
  assert (forall k, 0 <= k < 2 + t_msg_slots t q -> io_read32 m (queue_slot t q k) = m (slot_addr q k)) as Er.
  { intros k Hk. pose proof (read_slot m q k 0 Hq Hk ltac:(lia)) as E. by rewrite !Z.add_0_r in E. }
  rewrite !Er by lia. change (m (slot_addr q 0)) with (q_head m q). change (m (slot_addr q 1)) with (q_tail m q).
  destruct (Z.leb_spec (t_msg_slots t q) (q_head m q)), (Z.leb_spec (t_msg_slots t q) (q_tail m q)); try done. cbn [orb].
  assert (0 <= q_tail m q) by apply Hm. rewrite index_low32 by (try done; lia).
  destruct (_ =? _); [done|]. destruct (_ <? _); [done|]. unfold enqueued, write_message.
  rewrite !queue_slot_eq by lia. done.
Qed.

Lemma slot_addr_wrap (q : rpmi_queue) (k : Z) : t_queue t q <> 0 -> 0 <= k < 2 + t_msg_slots t q -> wrap (slot_addr q k) = slot_addr q k.
Proof.
  intros Hq Hk. pose proof slot_size_pos. apply (in_queue_wrap q); [done|]. rewrite <- (Z.add_0_r (slot_addr q k)). apply slot_in_queue; [done|lia..].
Qed.

Lemma doorbell_out (q : rpmi_queue) (a : Z) : t_queue t q <> 0 -> in_queue q a -> a <> wrap (t_doorbell t).
Proof. intros Hq Ha. destruct (sw_doorbell WF) as [Hd Ho]. rewrite wrap_small by done. intros ->. by apply (Ho q). Qed.

(** The memory of the queues after an enqueue, but the slot and the tail *)
Lemma enqueued_frame (m : io_mem) (q q' : rpmi_queue) (hdr : rpmi_hdr) (data : list Z) (a : Z) :
  t_queue t q <> 0 -> t_queue t q' <> 0 -> 0 <= q_tail m q < t_msg_slots t q -> message_wf (hdr, data) ->
  h_datalen hdr <= t_slot_size t - RPMI_MSG_HDR_SIZE -> in_queue q' a ->
  (forall o, 0 <= o < t_slot_size t -> a <> slot_addr q (2 + q_tail m q) + o) -> a <> slot_addr q 1 ->
  enqueued m q hdr data a = m a.
Proof.
  intros Hq Hq' Ht Hmsg Hd Ha Hslot Htail. pose proof (sw_slots WF q Hq) as Hn. unfold enqueued.
  assert (forall m', (if truth (t_doorbell t) then io_write32 m' (t_doorbell t) (t_doorbell_value t) else m') a = m' a) as ->.
  { intros m'. destruct (truth _); [|done]. apply io_write_out. by apply (doorbell_out q'). }
  rewrite io_write_out by (rewrite slot_addr_wrap; [done|done|lia]).
  by apply (write_message_spec m q (q_tail m q) hdr data Hq Ht Hmsg Hd).
Qed.

(** ** The queues as queues *)

Lemma enqueued_messages (m : io_mem) (q : rpmi_queue) (hdr : rpmi_hdr) (data : list Z) :
  mem_wf m -> t_queue t q <> 0 -> indices_ok m q -> message_wf (hdr, data) ->
  h_datalen hdr <= t_slot_size t - RPMI_MSG_HDR_SIZE -> (q_tail m q + 1) mod t_msg_slots t q <> q_head m q ->
  indices_ok (enqueued m q hdr data) q /\
  queue_messages (enqueued m q hdr data) q = queue_messages m q ++ [(hdr, data)].
Proof.
  intros Hm Hq [Hh Ht] Hmsg Hd Hroom. pose proof (sw_slots WF q Hq) as Hn. pose proof slot_size_pos as Hs.
  set (n := t_msg_slots t q) in *. set (k := q_tail m q) in *. set (m' := enqueued m q hdr data).
  assert (0 <= k /\ 0 <= q_head m q) as [Hk0 Hh0] by (split; apply Hm).
  assert (forall k' o, 0 <= k' < 2 + n -> 0 <= o < t_slot_size t -> in_queue q (slot_addr q k' + o)) as Hin
    by (intros; by apply slot_in_queue).
  assert (forall k' o, 0 <= k' < 2 + n -> 0 <= o < t_slot_size t -> k' <> 2 + k -> (k' = 1 -> o <> 0) ->
    m' (slot_addr q k' + o) = m (slot_addr q k' + o)) as Hout.
  { intros k' o Hk' Ho Hne H1. apply (enqueued_frame m q q); try done; [by apply Hin| |].
    - intros o' Ho' E. by apply slot_inj in E as [-> _].
    - intros E. rewrite <- (Z.add_0_r (slot_addr q 1)) in E. apply slot_inj in E as [-> ->]; [by apply H1|lia..]. }
  assert (q_head m' q = q_head m q) as Eh.
  { unfold q_head. rewrite <- (Z.add_0_r (slot_addr q 0)). apply Hout; lia. }
  assert (q_tail m' q = (k + 1) mod n) as Et.
  { unfold q_tail, m', enqueued. fold n k.
    assert (slot_addr q 1 <> wrap (t_doorbell t)) as Hdb.
    { apply (doorbell_out q); [done|]. rewrite <- (Z.add_0_r (slot_addr q 1)). apply Hin; lia. }
    destruct (truth _); rewrite ?(io_write_out _ _ _ _ Hdb); unfold io_write32;
      rewrite decide_True by (rewrite slot_addr_wrap; [done|done|lia]); unfold low32; apply Z.mod_small;
      pose proof (Z.mod_pos_bound (k + 1) n); lia. }
  assert (message_at m' q k = (hdr, data)) as Enew.
  { destruct (write_message_spec m q k hdr data Hq ltac:(lia) Hmsg Hd) as [<- _]. apply message_at_ext. intros o Ho.
    unfold m', enqueued. fold n k.
    assert (slot_addr q (2 + k) + o <> wrap (t_doorbell t)) as Hdb by (apply (doorbell_out q); [done|]; apply Hin; lia).
    assert (slot_addr q (2 + k) + o <> wrap (slot_addr q 1)) as Htl.
    { rewrite slot_addr_wrap by (try done; lia). intros E. rewrite <- (Z.add_0_r (slot_addr q 1)) in E.
      apply slot_inj in E as [E _]; lia. }
    destruct (truth _); by rewrite ?(io_write_out _ _ _ _ Hdb), (io_write_out _ _ _ _ Htl). }
  destruct (ring_full n (q_head m q) k ltac:(lia) ltac:(lia) ltac:(lia)) as [_ Hcount]. specialize (Hcount Hroom).
  pose proof (Z.mod_pos_bound (k - q_head m q) n ltac:(lia)) as Hb.
  split; [unfold indices_ok; rewrite Eh, Et; fold n; pose proof (Z.mod_pos_bound (k + 1) n); lia|].
  unfold queue_messages, ring_count. rewrite Eh, Et. fold n k. rewrite Hcount, Z2Nat.inj_add by lia. cbn [Z.to_nat].
  rewrite Nat.add_1_r, seq_S, fmap_app. cbn [fmap list_fmap]. f_equal.
  - apply list_fmap_ext. intros i x Hx. apply lookup_seq in Hx as [-> Hi]. cbn [Nat.add].
    apply message_at_ext. intros o Ho. pose proof (Z.mod_pos_bound (q_head m q + Z.of_nat i) n ltac:(lia)).
    apply Hout; [lia|done| |lia].
    pose proof (ring_slot n (q_head m q) k i ltac:(lia) ltac:(lia) ltac:(lia) ltac:(lia)). lia.
  - cbn [Nat.add]. rewrite Z2Nat.id, ring_tail by lia. by rewrite Enew.
Qed.

(** A queue that exists and another: an enqueue to one is not seen in the other *)
Lemma enqueued_other (m : io_mem) (q q' : rpmi_queue) (hdr : rpmi_hdr) (data : list Z) :
  t_queue t q <> 0 -> t_queue t q' <> 0 -> 0 <= q_tail m q < t_msg_slots t q -> message_wf (hdr, data) ->
  h_datalen hdr <= t_slot_size t - RPMI_MSG_HDR_SIZE -> q' <> q ->
  forall a, in_queue q' a -> enqueued m q hdr data a = m a.
Proof.
  intros Hq Hq' Ht Hmsg Hd Hne a Ha. pose proof slot_size_pos.
  assert (forall k o, 0 <= k < 2 + t_msg_slots t q -> 0 <= o < t_slot_size t -> a <> slot_addr q k + o) as Hout.
  { intros k o Hk Ho ->. apply Hne, (sw_apart WF q' q _ Hq' Hq Ha). by apply slot_in_queue. }
  apply (enqueued_frame m q q'); try done.
  - intros o Ho. apply Hout; lia.
  - rewrite <- (Z.add_0_r (slot_addr q 1)). apply Hout; lia.
Qed.

Lemma ring_length (m : io_mem) (q : rpmi_queue) : length (queue_messages m q) = ring_count m q.
Proof. unfold queue_messages. by rewrite length_fmap, length_seq. Qed.

(** ** Receiving *)

Definition dequeued (m : io_mem) (q : rpmi_queue) : io_mem :=
  io_write32 m (slot_addr q 0) ((q_head m q + 1) mod t_msg_slots t q).

Lemma recv_eq (m : io_mem) (q : rpmi_queue) (max : Z) :
  mem_wf m -> q = RPMI_QUEUE_P2A_ACK \/ q = RPMI_QUEUE_P2A_REQ -> t_queue t q <> 0 ->
  rpmi_shmem_recv t m q max =
    if (t_msg_slots t q <=? q_head m q) || (t_msg_slots t q <=? q_tail m q) then (RPMI_ERR_IO, hdr_zero, [], m)
    else if q_head m q =? q_tail m q then (RPMI_ERR_NO_DATA, hdr_zero, [], m)
    else
      let hdr := hdr_at m q (q_head m q) in
      if fits max hdr then (RPMI_SUCCESS, hdr, data_at m q (q_head m q) (Z.to_nat (h_datalen hdr / 4)), dequeued m q)
      else (RPMI_ERR_BAD_RANGE, hdr, [], dequeued m q).
Proof.
  intros Hm Hdir Hq. pose proof (sw_slots WF q Hq) as Hn. pose proof slot_size_pos as Hs. unfold rpmi_shmem_recv.
  rewrite bool_decide_eq_false_2 by (destruct Hdir; tauto). rewrite (proj2 (truth_true _) Hq). cbn [negb orb].
  assert (forall k, 0 <= k < 2 + t_msg_slots t q -> io_read32 m (queue_slot t q k) = m (slot_addr q k)) as Er.
  { intros k Hk. pose proof (read_slot m q k 0 Hq Hk ltac:(lia)) as E. by rewrite !Z.add_0_r in E. }
  rewrite (Er 0), (Er 1) by lia. change (m (slot_addr q 0)) with (q_head m q). change (m (slot_addr q 1)) with (q_tail m q).
  destruct (Z.leb_spec (t_msg_slots t q) (q_head m q)), (Z.leb_spec (t_msg_slots t q) (q_tail m q)); try done. cbn [orb].
  assert (0 <= q_head m q) by apply Hm. destruct (_ =? _); [done|].
  rewrite Er, (read_slot m q _ 4) by (try done; lia). fold (hdr_at m q (q_head m q)). set (hdr := hdr_at m q (q_head m q)).
  rewrite index_low32, (queue_slot_eq q 0) by (try done; lia). fold (dequeued m q). unfold fits.
  rewrite !(Z.leb_antisym _ (h_datalen hdr)).
  assert (forall x y z : bool, negb x || y || z = negb (x && negb y && negb z)) as -> by (intros [] [] []; done).
  destruct (_ && _ && _) eqn:F; cbn [negb]; [|done]. repeat f_equal.
  unfold read_words, data_at. apply list_fmap_ext. intros i x Hx. apply lookup_seq in Hx as [-> Hi].
  bool_prop. unfold RPMI_MSG_HDR_SIZE in *. rewrite <- !Z.add_assoc. rewrite read_slot; [done|done|lia|].
  Z.to_euclidean_division_equations; lia.
Qed.

Lemma dequeued_out (m : io_mem) (q : rpmi_queue) (a : Z) : t_queue t q <> 0 -> a <> slot_addr q 0 -> dequeued m q a = m a.
Proof.
  intros Hq Ha. pose proof (sw_slots WF q Hq). unfold dequeued. apply io_write_out. by rewrite slot_addr_wrap by (try done; lia).
Qed.

Lemma dequeued_messages (m : io_mem) (q : rpmi_queue) :
  mem_wf m -> t_queue t q <> 0 -> indices_ok m q -> q_head m q <> q_tail m q ->
  indices_ok (dequeued m q) q /\
  queue_messages m q = message_at m q (q_head m q) :: queue_messages (dequeued m q) q.
Proof.
  intros Hm Hq [Hh Ht] Hne. pose proof (sw_slots WF q Hq) as Hn. pose proof slot_size_pos as Hs.
  set (n := t_msg_slots t q) in *. set (h := q_head m q) in *. set (m' := dequeued m q).
  assert (0 <= h /\ 0 <= q_tail m q) as [Hh0 Ht0] by (split; apply Hm).
  assert (q_head m' q = (h + 1) mod n) as Eh.
  { unfold q_head, m', dequeued, io_write32. rewrite decide_True by (rewrite slot_addr_wrap; [done|done|lia]).
    apply Z.mod_small. fold n h. pose proof (Z.mod_pos_bound (h + 1) n). lia. }
  assert (forall k o, 0 <= o < t_slot_size t -> k <> 0 -> m' (slot_addr q k + o) = m (slot_addr q k + o)) as Hout.
  { intros k o Ho Hk. apply dequeued_out; [done|]. intros E. rewrite <- (Z.add_0_r (slot_addr q 0)) in E.
    apply slot_inj in E as [E _]; lia. }
  assert (q_tail m' q = q_tail m q) as Et by (unfold q_tail; rewrite <- (Z.add_0_r (slot_addr q 1)); apply Hout; lia).
  assert (Z.to_nat ((q_tail m q - h) mod n) = S (Z.to_nat ((q_tail m q - (h + 1) mod n) mod n))) as Ec.
  { rewrite Zminus_mod_idemp_r. pose proof (ring_diff n h (q_tail m q) ltac:(lia) ltac:(lia)) as E.
    assert ((q_tail m q - (h + 1)) mod n = (q_tail m q - h) mod n - 1) as ->.
    { symmetry. apply (Z.mod_unique_pos _ _ ((q_tail m q - h) / n)).
      - rewrite E. destruct (Z.leb_spec h (q_tail m q)); lia.
      - pose proof (Z.div_mod (q_tail m q - h) n). lia. }
    rewrite E. destruct (Z.leb_spec h (q_tail m q)); lia. }
  split; [unfold indices_ok; rewrite Eh, Et; fold n; pose proof (Z.mod_pos_bound (h + 1) n); lia|].
  unfold queue_messages, ring_count. rewrite Eh, Et. fold n h. rewrite Ec. cbn [seq]. rewrite fmap_cons. f_equal.
  - by rewrite Z.add_0_r, Z.mod_small by lia.
  - rewrite <- fmap_S_seq, <- list_fmap_compose. apply list_fmap_ext. intros i x _. unfold compose.
    rewrite Zplus_mod_idemp_l. replace (h + Z.of_nat (S x)) with (h + 1 + Z.of_nat x) by lia.
    apply message_at_ext. intros o Ho. symmetry. apply Hout; [done|].
    pose proof (Z.mod_pos_bound (h + 1 + Z.of_nat x) n). lia.
Qed.

Lemma ring_empty (m : io_mem) (q : rpmi_queue) :
  mem_wf m -> t_queue t q <> 0 -> indices_ok m q -> queue_messages m q = [] <-> q_head m q = q_tail m q.
Proof.
  intros Hm Hq [Hh Ht]. pose proof (sw_slots WF q Hq) as Hn. rewrite <- length_zero_iff_nil, ring_length. unfold ring_count.
  rewrite ring_diff by (split; [apply Hm|done]). assert (0 <= q_head m q /\ 0 <= q_tail m q) as [] by (split; apply Hm).
  destruct (Z.leb_spec (q_head m q) (q_tail m q)); lia.
Qed.

(** ** Whatever the memory holds *)

Definition agree (P : Z -> Prop) (m m' : io_mem) : Prop := forall a, P a -> m a = m' a.

Lemma io_write_agree (P : Z -> Prop) (m m' : io_mem) (a v : Z) : agree P m m' -> agree P (io_write32 m a v) (io_write32 m' a v).
Proof. intros H b Hb. unfold io_write32. case_decide; [done|by apply H]. Qed.

Lemma write_message_agree (P : Z -> Prop) (m m' : io_mem) (slot : Z) (hdr : rpmi_hdr) (data : list Z) :
  agree P m m' -> agree P (write_message m slot hdr data) (write_message m' slot hdr data).
Proof.
  intros H. unfold write_message, write_words. generalize (Z.to_nat (h_datalen hdr / 4)). intros n.
  induction n as [|n IH]; [by do 2 apply io_write_agree|]. rewrite !for_upto_S. by apply io_write_agree.
Qed.

Lemma index_agree (m m' : io_mem) (q : rpmi_queue) : t_queue t q <> 0 -> agree (in_queue q) m m' ->
  q_head m q = q_head m' q /\ q_tail m q = q_tail m' q.
Proof.
  intros Hq H. pose proof slot_size_pos. pose proof (sw_slots WF q Hq). unfold q_head, q_tail.
  rewrite <- (Z.add_0_r (slot_addr q 0)), <- (Z.add_0_r (slot_addr q 1)).
  split; apply H, slot_in_queue; (done || lia).
Qed.

Lemma enqueued_agree (m m' : io_mem) (q : rpmi_queue) (hdr : rpmi_hdr) (data : list Z) :
  t_queue t q <> 0 -> agree (in_queue q) m m' -> agree (in_queue q) (enqueued m q hdr data) (enqueued m' q hdr data).
Proof.
  intros Hq H. destruct (index_agree m m' q Hq H) as [_ E]. unfold enqueued. rewrite E.
  destruct (truth _); repeat apply io_write_agree; by apply write_message_agree.
Qed.

Lemma enqueued_confined (m : io_mem) (q : rpmi_queue) (hdr : rpmi_hdr) (data : list Z) (a : Z) :
  t_queue t q <> 0 -> 0 <= q_tail m q < t_msg_slots t q -> message_wf (hdr, data) ->
  h_datalen hdr <= t_slot_size t - RPMI_MSG_HDR_SIZE -> ~ in_queue q a -> a <> t_doorbell t ->
  enqueued m q hdr data a = m a.
Proof.
  intros Hq Ht Hmsg Hd Ha Hdb. pose proof slot_size_pos. unfold enqueued.
  assert (forall k o, 0 <= k < 2 + t_msg_slots t q -> 0 <= o < t_slot_size t -> a <> slot_addr q k + o) as Hout.
  { intros k o Hk Ho ->. by apply Ha, slot_in_queue. }
  assert (forall m', (if truth (t_doorbell t) then io_write32 m' (t_doorbell t) (t_doorbell_value t) else m') a = m' a) as ->.
  { intros m'. destruct (truth _); [|done]. apply io_write_out. by rewrite wrap_small by apply (sw_doorbell WF). }
  rewrite io_write_out.
  - apply (write_message_spec m q (q_tail m q) hdr data Hq Ht Hmsg Hd). intros o Ho. apply Hout; lia.
  - rewrite slot_addr_wrap by (try done; lia). rewrite <- (Z.add_0_r (slot_addr q 1)). apply Hout; lia.
Qed.

Lemma send_confined (m m' : io_mem) (q : rpmi_queue) (hdr : rpmi_hdr) (data : list Z) :
  mem_wf m -> mem_wf m' -> agree (in_queue q) m m' -> message_wf (hdr, data) ->
  let r := rpmi_shmem_send t m q hdr data in
  r.1 = (rpmi_shmem_send t m' q hdr data).1 /\ agree (in_queue q) r.2 (rpmi_shmem_send t m' q hdr data).2 /\
  agree (fun a => ~ in_queue q a /\ a <> t_doorbell t) r.2 m.
Proof.
  intros Hm Hm' Ha Hmsg.
  destruct (decide (q = RPMI_QUEUE_A2P_REQ \/ q = RPMI_QUEUE_A2P_ACK)) as [Hd|Hd].
  2: { unfold rpmi_shmem_send. rewrite bool_decide_eq_true_2 by tauto. by split_and!. }
  destruct (decide (t_queue t q = 0)) as [E|Hq].
  { unfold rpmi_shmem_send. rewrite E, orb_true_r. by split_and!. }
  rewrite !send_eq by done. destruct (index_agree m m' q Hq Ha) as [<- <-].
  destruct (Z.leb_spec (t_msg_slots t q) (q_head m q)), (Z.leb_spec (t_msg_slots t q) (q_tail m q)); try by split_and!. cbn [orb].
  destruct (_ =? _); [by split_and!|]. destruct (Z.ltb_spec (t_slot_size t - RPMI_MSG_HDR_SIZE) (h_datalen hdr)); [by split_and!|].
  split_and!; [done|by apply enqueued_agree|]. intros a [Ho Hb].
  apply enqueued_confined; try done. split; [apply Hm|lia].
Qed.

Lemma recv_confined (m m' : io_mem) (q : rpmi_queue) (max : Z) :
  mem_wf m -> mem_wf m' -> agree (in_queue q) m m' ->
  let r := rpmi_shmem_recv t m q max in
  r.1 = (rpmi_shmem_recv t m' q max).1 /\ agree (in_queue q) r.2 (rpmi_shmem_recv t m' q max).2 /\
  agree (fun a => ~ in_queue q a) r.2 m /\ Z.of_nat (length r.1.2) * 4 <= Z.max 0 max.
Proof.
  intros Hm Hm' Ha.
  destruct (decide (q = RPMI_QUEUE_P2A_ACK \/ q = RPMI_QUEUE_P2A_REQ)) as [Hd|Hd].
  2: { unfold rpmi_shmem_recv. rewrite bool_decide_eq_true_2 by tauto. cbn. split_and!; [done..|lia]. }
  destruct (decide (t_queue t q = 0)) as [E|Hq].
  { unfold rpmi_shmem_recv. rewrite E, orb_true_r. cbn. split_and!; [done..|lia]. }
  pose proof slot_size_pos. pose proof (sw_slots WF q Hq). rewrite !recv_eq by done. destruct (index_agree m m' q Hq Ha) as [Eh <-]. rewrite <- Eh.
  destruct (Z.leb_spec (t_msg_slots t q) (q_head m q)), (Z.leb_spec (t_msg_slots t q) (q_tail m q));
    try (cbn; split_and!; [done..|lia]). cbn [orb].
  destruct (_ =? _); [cbn; split_and!; [done..|lia]|]. cbv zeta.
  assert (0 <= q_head m q) by apply Hm.
  assert (forall o, 0 <= o < t_slot_size t -> m (slot_addr q (2 + q_head m q) + o) = m' (slot_addr q (2 + q_head m q) + o)) as Es
    by (intros; apply Ha, slot_in_queue; [done|lia..]).
  rewrite <- (hdr_at_ext m m') by done. set (hdr := hdr_at m q (q_head m q)).
  assert (agree (in_queue q) (dequeued m q) (dequeued m' q)) as Hdq by (unfold dequeued; rewrite <- Eh; by apply io_write_agree).
  assert (agree (fun a => ~ in_queue q a) (dequeued m q) m) as Hout.
  { intros a Hna. apply dequeued_out; [done|]. intros ->. apply Hna. rewrite <- (Z.add_0_r (slot_addr q 0)). apply slot_in_queue; [done|lia..]. }
  destruct (fits max hdr) eqn:F; cbn [fst snd]; split_and!; try done; [by rewrite (data_at_ext max hdr m m')| |cbn; lia].
  unfold data_at. rewrite length_fmap, length_seq. unfold fits in F. bool_prop. Z.to_euclidean_division_equations; lia.
Qed.

End Queues.

(** ** The contract: bounded queues of messages *)

(** What [send] does to a queue of at most [cap] messages, of data of at
    most [max] bytes, and what [recv] does, for a buffer of [max] bytes *)
Definition fifo_send (cap : nat) (max : Z) (l : list message) (msg : message) : Z * list message :=
  if (length l =? cap)%nat then (RPMI_ERR_BUSY, l)
  else if max <? h_datalen msg.1 then (RPMI_ERR_INVALID_PARAM, l)
  else (RPMI_SUCCESS, l ++ [msg]).
Definition fifo_recv (ok : rpmi_hdr -> bool) (l : list message) : Z * option message * list message :=
  match l with
  | [] => (RPMI_ERR_NO_DATA, None, [])
  | msg :: l => if ok msg.1 then (RPMI_SUCCESS, Some msg, l) else (RPMI_ERR_BAD_RANGE, Some (msg.1, []), l)
  end.

Section Contract.
Context {AR : Arch} (t : rpmi_shmem) (WF : shmem_wf t).

Definition sends (q : rpmi_queue) : Prop := q = RPMI_QUEUE_A2P_REQ \/ q = RPMI_QUEUE_A2P_ACK.
Definition receives (q : rpmi_queue) : Prop := q = RPMI_QUEUE_P2A_ACK \/ q = RPMI_QUEUE_P2A_REQ.

Lemma shmem_send_fifo (m : io_mem) (q : rpmi_queue) (msg : message) :
  mem_wf m -> sends q -> t_queue t q <> 0 -> indices_ok t m q -> message_wf msg ->
  let '(rc, m') := rpmi_shmem_send t m q msg.1 msg.2 in
  (rc, queue_messages t m' q) =
    fifo_send (Z.to_nat (t_msg_slots t q - 1)) (t_slot_size t - RPMI_MSG_HDR_SIZE) (queue_messages t m q) msg /\
  indices_ok t m' q /\ (forall q', q' <> q -> t_queue t q' <> 0 -> queue_messages t m' q' = queue_messages t m q').
Proof.
  intros Hm Hdir Hq Hok Hmsg. pose proof (sw_slots _ WF q Hq) as Hn. destruct msg as [hdr data]. cbn [fst snd].
  pose proof Hok as [Hh Ht]. assert (0 <= q_head t m q /\ 0 <= q_tail t m q) as [Hh0 Ht0] by (split; apply Hm).
  destruct (ring_full (t_msg_slots t q) (q_head t m q) (q_tail t m q) ltac:(lia) ltac:(lia) ltac:(lia)) as [Hfull _].
  pose proof (Z.mod_pos_bound (q_tail t m q - q_head t m q) (t_msg_slots t q) ltac:(lia)) as Hb.
  rewrite (send_eq t WF) by done. rewrite (proj2 (Z.leb_gt _ _) Hh), (proj2 (Z.leb_gt _ _) Ht). cbn [orb].
  assert ((length (queue_messages t m q) =? Z.to_nat (t_msg_slots t q - 1))%nat
    = ((q_tail t m q + 1) mod t_msg_slots t q =? q_head t m q)) as Ecap.
  { rewrite ring_length, Hfull. unfold ring_count. apply eq_true_iff_eq. rewrite Nat.eqb_eq, Z.eqb_eq. lia. }
  unfold fifo_send. cbn [fst]. rewrite Ecap. destruct (Z.eqb_spec ((q_tail t m q + 1) mod t_msg_slots t q) (q_head t m q)); [done|].
  destruct (Z.ltb_spec (t_slot_size t - RPMI_MSG_HDR_SIZE) (h_datalen hdr)); [done|].
  destruct (enqueued_messages t WF m q hdr data) as [H1 H2]; [done..|]. rewrite H2. split_and!; [done|done|].
  intros q' Hne Hq'. apply (queue_messages_ext t WF); [done|]. by apply (enqueued_other t WF).
Qed.

Lemma shmem_recv_fifo (m : io_mem) (q : rpmi_queue) (max : Z) :
  mem_wf m -> receives q -> t_queue t q <> 0 -> indices_ok t m q -> max <= 2 ^ 16 ->
  let '(rc, hdr, data, m') := rpmi_shmem_recv t m q max in
  (rc, if rc =? RPMI_ERR_NO_DATA then None else Some (hdr, data), queue_messages t m' q) =
    fifo_recv (fits t max) (queue_messages t m q) /\
  indices_ok t m' q /\ (forall q', q' <> q -> t_queue t q' <> 0 -> queue_messages t m' q' = queue_messages t m q').
Proof.
  intros Hm Hdir Hq Hok Hmax. pose proof (sw_slots _ WF q Hq) as Hn. pose proof Hok as [Hh Ht]. rewrite (recv_eq t WF) by done.
  rewrite (proj2 (Z.leb_gt _ _) Hh), (proj2 (Z.leb_gt _ _) Ht). cbn [orb].
  destruct (Z.eqb_spec (q_head t m q) (q_tail t m q)) as [E|E].
  { rewrite (proj2 (ring_empty t WF m q Hm Hq Hok) E). done. }
  destruct (dequeued_messages t WF m q) as [H1 H2]; [done..|].
  assert (forall q', q' <> q -> t_queue t q' <> 0 -> queue_messages t (dequeued t m q) q' = queue_messages t m q') as Ho.
  { intros q' Hne Hq'. apply (queue_messages_ext t WF); [done|]. intros a Ha. apply (dequeued_out t WF); [done|]. intros ->.
    apply Hne, (sw_apart t WF _ _ (slot_addr t q 0) Hq' Hq Ha). rewrite <- (Z.add_0_r (slot_addr t q 0)).
    pose proof (slot_size_pos t WF). apply (slot_in_queue t WF); [done|lia..]. }
  rewrite H2. unfold fifo_recv. unfold message_at at 1 2 3. cbn [fst]. set (hdr := hdr_at t m q (q_head t m q)).
  destruct (fits t max hdr) eqn:F; split_and!; try done. cbn [Z.eqb RPMI_ERR_NO_DATA RPMI_SUCCESS].
  assert (fits t (2 ^ 16) hdr = true) as ->; [|done].
  unfold fits in *. bool_prop. rewrite !andb_true_iff, !Z.leb_le. split_and!; [done|lia..].
Qed.

End Contract.
