(* ===== verification/RpmiShmemClient.v ===== *)
(** The client over the shared memory transport, with a PuC that follows the
    protocol: the interface the client's theorems are proved against
    ([AckQueue], [Clock]) holds of [rpmi_shmem.c]. *)

From S2P Require Import Prelude Arch Memregion Rpmi RpmiProps RpmiShmem RpmiShmemProps.

#[local] Open Scope Z_scope.

(** The memory, the time, the context's state, what the PuC is yet to do, and
    the acknowledgments it has put into their queue so far *)
Record shmem_world : Type := ShmemWorld {
  w_mem : io_mem;
  w_now : Z;
  w_state : client_state;
  w_puc : list (io_mem -> io_mem);
  w_log : list message;
}.
#[export] Instance shmem_world_eta : Settable shmem_world := fun w =>
  ShmemWorld (w_mem w) (w_now w) (w_state w) (w_puc w) (w_log w).

Section World.
Context {AR : Arch} (t : rpmi_shmem) (WF : shmem_wf t).
Context (Hreq : t_queue t RPMI_QUEUE_A2P_REQ <> 0) (Hack : t_queue t RPMI_QUEUE_P2A_ACK <> 0).

#[local] Abbreviation ACK := RPMI_QUEUE_P2A_ACK.

(** The PuC's next action *)
Definition puc_turn (w : shmem_world) : shmem_world :=
  match w_puc w with
  | [] => w
  | act :: acts =>
      let acks m := queue_messages t m ACK in
      w <| w_mem := act (w_mem w) |> <| w_puc := acts |>
        <| w_log ::= fun l => l ++ drop (length (acks (w_mem w))) (acks (act (w_mem w))) |>
  end.

#[local] Instance shmem_transport : Transport shmem_world := {|
  tp_send := fun w q hdr data =>
    let w := puc_turn w in
    let '(rc, m) := rpmi_shmem_send t (w_mem w) q hdr data in (rc, w <| w_mem := m |>);
  tp_recv := fun w q max =>
    let w := puc_turn w in
    let '(rc, hdr, data, m) := rpmi_shmem_recv t (w_mem w) q max in (rc, hdr, data, w <| w_mem := m |>);
|}.

(** One hart; a timer; a PuC that does not ring *)
#[local] Instance shmem_machine : Machine shmem_world := {|
  timer_available := true;
  timer_now := w_now;
  mc_relax := fun w => (puc_turn w) <| w_now := w_now w + 1 |>;
  mc_state := w_state;
  mc_set_state := fun s w => w <| w_state := s |>;
  mc_lock := puc_turn;
  mc_rang := fun w => (false, w);
  mc_relock := fun w => (false, w);
  mc_sink := fun _ _ _ w => w;
  mc_msi_request := fun w => (None, w);
|}.

(** An action of a PuC that follows the protocol: it may take requests, and
    add an acknowledgment *)
Definition puc_legal (act : io_mem -> io_mem) : Prop :=
  forall m, mem_wf m -> indices_ok t m ACK ->
    mem_wf (act m) /\ indices_ok t (act m) ACK /\
    exists came, queue_messages t (act m) ACK = queue_messages t m ACK ++ came /\ (length came <= 1)%nat.

Definition world_ok (w : shmem_world) : Prop :=
  mem_wf (w_mem w) /\ indices_ok t (w_mem w) ACK /\ Forall puc_legal (w_puc w) /\ 0 <= w_now w.
Definition world_acks (w : shmem_world) : list message := queue_messages t (w_mem w) ACK.
Definition world_left (w : shmem_world) : nat := (length (world_acks w) + length (w_puc w))%nat.

Lemma puc_turn_ok (w : shmem_world) :
  world_ok w -> world_ok (puc_turn w) /\ flow world_acks w_log w (puc_turn w) [] /\ (world_left (puc_turn w) <= world_left w)%nat.
Proof.
  intros (Hm & Hi & Hp & Hnow). unfold puc_turn. destruct (w_puc w) as [|act acts] eqn:E.
  - split_and!; [unfold world_ok; by rewrite E|apply flow_refl|done].
  - apply Forall_cons in Hp as [Ha Hp]. destruct (Ha _ Hm Hi) as (Hm' & Hi' & came & Ec & Hl).
    split_and!; [done|exists came; split; [cbn; by rewrite Ec, drop_app_length|done]|]. unfold world_left, world_acks. rewrite E. change (w_mem _) with (act (w_mem w)) at 1.
    change (w_puc _) with acts at 1. rewrite Ec, length_app. cbn [length]. lia.
Qed.

Lemma enqueued_wf (m : io_mem) (q : rpmi_queue) (hdr : rpmi_hdr) (data : list Z) : mem_wf m -> mem_wf (enqueued t m q hdr data).
Proof.
  intros Hm. unfold enqueued, write_message.
  destruct (truth _); repeat first [apply io_write_wf|apply write_words_wf]; done.
Qed.

Lemma send_ok (w w' : shmem_world) (hdr : rpmi_hdr) (data : list Z) (rc : Z) :
  world_ok w -> message_wf (hdr, data) -> tp_send w RPMI_QUEUE_A2P_REQ hdr data = (rc, w') ->
  world_ok w' /\ flow world_acks w_log w w' [] /\ (world_left w' <= world_left w)%nat /\ w_now w' = w_now w.
Proof.
  intros Hw Hmsg. cbn [tp_send shmem_transport]. destruct (puc_turn_ok w Hw) as (Hw1 & Hf & Hl).
  assert (w_now (puc_turn w) = w_now w) as En by (unfold puc_turn; by destruct (w_puc w)).
  revert Hw1 Hf Hl En. generalize (puc_turn w). intros w1 (Hm & Hi & Hp & Hnow) Hf Hl En.
  pose proof (send_confined t WF (w_mem w1) (w_mem w1) RPMI_QUEUE_A2P_REQ hdr data Hm Hm ltac:(done) Hmsg) as (_ & _ & Hout).
  assert (mem_wf (rpmi_shmem_send t (w_mem w1) RPMI_QUEUE_A2P_REQ hdr data).2) as Hm'.
  { rewrite (send_eq t WF) by (try done; by left). repeat case_match; try done. by apply enqueued_wf. }
  destruct (rpmi_shmem_send _ _ _ _ _) as [rc1 m'] eqn:E. cbn [snd] in *. intros [= <- <-].
  assert (agree (in_queue t ACK) m' (w_mem w1)) as Hag.
  { intros a Ha. apply Hout. split.
    - intros Ha'. by pose proof (sw_apart t WF _ _ a Hack Hreq Ha Ha').
    - intros ->. by apply (proj2 (sw_doorbell t WF) _ Hack). }
  assert (queue_messages t m' ACK = queue_messages t (w_mem w1) ACK) as Eq by (by apply (queue_messages_ext t WF)).
  destruct (index_agree t WF _ _ ACK Hack Hag) as [Eh Et].
  split_and!; [| | |done].
  - split_and!; [done| |done|done]. change (indices_ok t m' ACK). unfold indices_ok. by rewrite Eh, Et.
  - destruct Hf as (came & El & Ec). exists came. split; [exact El|]. rewrite Ec. unfold world_acks. change (w_mem (_ <| w_mem := m' |>)) with m'. by rewrite Eq.
  - unfold world_left, world_acks in *. change (w_mem (_ <| w_mem := m' |>)) with m'. by rewrite Eq.
Qed.

Lemma recv_ok (w w' : shmem_world) (max rc : Z) (hdr : rpmi_hdr) (data : list Z) :
  world_ok w -> 0 <= max <= 2 ^ 16 -> tp_recv w ACK max = (rc, hdr, data, w') ->
  world_ok w' /\ w_now w' = w_now w /\ rc <> RPMI_ERR_TIMEOUT /\
  if (rc =? RPMI_SUCCESS) || (rc =? RPMI_ERR_BAD_RANGE)
  then (S (world_left w') <= world_left w)%nat /\ exists msg, flow world_acks w_log w w' [msg] /\ msg.1 = hdr /\
    (rc = RPMI_SUCCESS -> msg.2 = data /\ h_datalen hdr = 4 * Z.of_nat (length data) /\ h_datalen hdr <= max)
  else flow world_acks w_log w w' [] /\ (world_left w' <= world_left w)%nat.
Proof.
  intros Hw Hmax. cbn [tp_recv shmem_transport]. destruct (puc_turn_ok w Hw) as (Hw1 & Hf & Hl).
  assert (w_now (puc_turn w) = w_now w) as En by (unfold puc_turn; by destruct (w_puc w)).
  revert Hw1 Hf Hl En. generalize (puc_turn w). intros w1 (Hm & Hi & Hp & Hnow) Hf Hl En. pose proof Hi as [Hh Ht].
  rewrite (recv_eq t WF) by (try done; by left). rewrite (proj2 (Z.leb_gt _ _) Hh), (proj2 (Z.leb_gt _ _) Ht). cbn [orb].
  destruct (Z.eqb_spec (q_head t (w_mem w1) ACK) (q_tail t (w_mem w1) ACK)) as [E|E].
  { intros [= <- <- <- <-]. split_and!; [split_and!; done|done|done|]. cbn. by split. }
  destruct (dequeued_messages t WF (w_mem w1) ACK Hm Hack Hi E) as [Hi' Eq]. set (k := q_head t (w_mem w1) ACK) in *.
  set (m' := dequeued t (w_mem w1) ACK) in *. cbv zeta.
  assert (world_ok (w1 <| w_mem := m' |>)) as Hw' by (split_and!; [by apply io_write_wf|done|done|done]).
  assert (flow world_acks w_log w (w1 <| w_mem := m' |>) [message_at t (w_mem w1) ACK k]) as Hf'.
  { apply (flow_trans _ _ _ _ _ _ _ Hf). exists []. rewrite !app_nil_r. split; [done|exact Eq]. }
  assert (S (world_left (w1 <| w_mem := m' |>)) <= world_left w)%nat as Hl'.
  { unfold world_left, world_acks in *. rewrite Eq in Hl. cbn [length] in Hl. exact Hl. }
  set (hdr1 := hdr_at t (w_mem w1) ACK k) in *.
  destruct (fits t max hdr1) eqn:F; intros [= <- <- <- <-]; (split_and!; [done..|]); cbn [Z.eqb RPMI_SUCCESS RPMI_ERR_BAD_RANGE orb Pos.eqb];
    (split; [done|]); exists (message_at t (w_mem w1) ACK k); (split_and!; [done|done|]); [intros _|done].
  unfold fits in F. apply andb_prop in F as [F F3]. apply andb_prop in F as [F1 F2].
  apply Z.leb_le in F2, F3. unfold message_at. fold hdr1. unfold fits. rewrite F1, (proj2 (Z.leb_le _ _) F2), (proj2 (Z.leb_le (h_datalen hdr1) (2 ^ 16))) by lia.
  apply aligned4 in F1. split_and!; [done| |done]. unfold data_at. rewrite length_fmap, length_seq.
  assert (0 <= h_datalen hdr1) by (unfold hdr1, hdr_at, hdr_of_words; cbn [h_datalen]; apply Z.mod_pos_bound; lia).
  change (_ mod 2 ^ 16) with (h_datalen hdr1). rewrite Z2Nat.id by (apply Z.div_pos; lia). pose proof (Z.div_mod (h_datalen hdr1) 4 ltac:(lia)). lia.
Qed.

(** ** The interface holds *)

#[local] Program Instance shmem_acks : AckQueue shmem_world := {| ack_inv := world_ok; ackq := world_acks; ack_log := w_log |}.
Next Obligation. intros w Hw. by apply puc_turn_ok. Qed.
Next Obligation. intros w s Hw. split; [done|]. exists []. by rewrite !app_nil_r. Qed.
Next Obligation. intros w Hw. destruct (puc_turn_ok w Hw) as ((Hm & Hi & Hp & Hn) & H2 & _). destruct Hw as (_ & _ & _ & Hn').
  split; [|done]. split_and!; try done. cbn. lia.
Qed.
Next Obligation. intros w w' hdr data rc Hw Hm E. destruct (send_ok w w' hdr data rc Hw Hm E) as (H1 & H2 & _). by split. Qed.
Next Obligation.
  intros w w' max rc hdr data Hw Hmax E. destruct (recv_ok w w' max rc hdr data Hw Hmax E) as (H1 & _ & H2 & H3).
  split_and!; [done|done|]. by destruct ((rc =? RPMI_SUCCESS) || _); destruct H3.
Qed.

#[local] Program Instance shmem_clock : Clock shmem_world := {| ack_left := world_left |}.
Next Obligation. done. Qed.
Next Obligation. intros w (_ & _ & _ & H). exact H. Qed.
Next Obligation. intros w Hw. destruct (puc_turn_ok w Hw) as (_ & _ & H). split; [cbn; lia|exact H]. Qed.
Next Obligation. intros w w' hdr data rc Hw Hm E. destruct (send_ok w w' hdr data rc Hw Hm E) as (_ & _ & H1 & H2). split; [cbn; lia|done]. Qed.
Next Obligation.
  intros w w' max rc hdr data Hw Hmax E. destruct (recv_ok w w' max rc hdr data Hw Hmax E) as (_ & H1 & _ & H2).
  split; [cbn; lia|]. by destruct ((rc =? RPMI_SUCCESS) || _); destruct H2.
Qed.

(** ** What a PuC does *)

(** It adds an acknowledgment where there is room, or takes a request. *)
Definition puc_post (msg : message) (m : io_mem) : io_mem :=
  if (q_tail t m ACK + 1) mod t_msg_slots t ACK =? q_head t m ACK then m else enqueued t m ACK msg.1 msg.2.

Lemma puc_post_legal (msg : message) :
  message_wf msg -> h_datalen msg.1 <= t_slot_size t - RPMI_MSG_HDR_SIZE -> puc_legal (puc_post msg).
Proof.
  intros Hmsg Hlen m Hm Hi. unfold puc_post.
  destruct (Z.eqb_spec ((q_tail t m ACK + 1) mod t_msg_slots t ACK) (q_head t m ACK)) as [E|E].
  - split_and!; [done|done|]. exists []. rewrite app_nil_r. split; [done|cbn; lia].
  - destruct msg as [hdr data]. destruct (enqueued_messages t WF m ACK hdr data Hm Hack Hi Hmsg Hlen E) as [Hi' Eq].
    split_and!; [by apply enqueued_wf|done|]. exists [(hdr, data)]. by split.
Qed.

End World.

(** ** An example: a transport of two queues of four messages *)

Module TwoQueues.

#[local] Instance rv64 : Arch := RV64.
#[local] Instance config : RpmiConfig := {| CONFIG_RPMI_MAX_DATA_LEN := 512; rpmi_timeout := 100 |}.

Definition transport : rpmi_shmem :=
  RpmiShmem (fun q => match q with RPMI_QUEUE_A2P_REQ => 0x1000 | RPMI_QUEUE_P2A_ACK => 0x2000 | _ => 0 end)
    (fun q => match q with RPMI_QUEUE_A2P_REQ | RPMI_QUEUE_P2A_ACK => 4 | _ => 0 end) 64 0 0.

Lemma transport_wf : shmem_wf transport.
Proof.
  assert (2 ^ XLEN = 18446744073709551616) as Ex by reflexivity.
  constructor.
  - by split.
  - intros []; cbn; lia.
  - intros []; unfold queue_end; cbn [transport t_queue t_msg_slots t_slot_size]; rewrite ?Ex; lia.
  - intros [] [] a; unfold in_queue, queue_end; cbn [transport t_queue t_msg_slots t_slot_size]; try done; lia.
  - split; [unfold is_ulong; rewrite Ex; cbn; lia|]. intros []; unfold in_queue, queue_end; cbn [transport t_queue t_msg_slots t_slot_size t_doorbell]; lia.
Qed.

Lemma req_there : t_queue transport RPMI_QUEUE_A2P_REQ <> 0.
Proof. done. Qed.
Lemma ack_there : t_queue transport RPMI_QUEUE_P2A_ACK <> 0.
Proof. done. Qed.

#[local] Instance world_transport : Transport shmem_world := shmem_transport transport.
#[local] Instance world_machine : Machine shmem_world := shmem_machine transport.
#[local] Instance world_ackq : AckQueue shmem_world := shmem_acks transport transport_wf req_there ack_there.
#[local] Instance world_clock : Clock shmem_world := shmem_clock transport transport_wf req_there ack_there.

(** The PuC first answers a request of an earlier firmware (token 7), then
    this one's (token 0): version 1.0 of its interface *)
Definition stale : message := (RpmiHdr 1 4 RPMI_MSG_ACKNOWLEDGEMENT 8 7, [0; 0xbad]).
Definition answer : message := (RpmiHdr 1 4 RPMI_MSG_ACKNOWLEDGEMENT 8 0, [0; 0x10000]).
Definition start : shmem_world :=
  ShmemWorld (fun _ => 0) 0 (ClientState 0 false false)
    [puc_post transport stale; fun m => m; puc_post transport answer] [].
Definition context : rpmi_context := RpmiContext 1 56 false RPMI_NO_SYSMSI [].

Lemma messages_wf : message_wf stale /\ message_wf answer.
Proof.
  unfold message_wf, hdr_wf, RPMI_MSG_ACKNOWLEDGEMENT. cbn [fst snd stale answer h_group h_service h_flags h_datalen h_token length].
  unfold RPMI_MSG_ACKNOWLEDGEMENT. split_and!; try lia; repeat first [apply Forall_cons_2; [lia|]|apply Forall_nil_2].
Qed.

Lemma start_ok : world_ok transport start.
Proof.
  split_and!; [intros a; cbn; lia|split; cbn; lia| |cbn; lia].
  assert (forall msg, message_wf msg -> h_datalen msg.1 <= 56 -> puc_legal transport (puc_post transport msg)) as Hp
    by (intros; by apply (puc_post_legal transport transport_wf ack_there)).
  cbn [start w_puc]. rewrite !Forall_cons. split_and!; [by apply Hp; [apply messages_wf|]| |by apply Hp; [apply messages_wf|]|constructor].
  intros m Hm Hi. split_and!; [done|done|]. exists []. rewrite app_nil_r. split; [done|cbn; lia].
Qed.

(** The request for the version of the specification, as [rpmi_request] ends it *)
Abbreviation request := (rpmi_request 200 context start RPMI_GROUP_BASE 4 [] 0 8).

Lemma request_result : (fun r => (r.1.1, r.1.2)) <$> request = Some (RPMI_SUCCESS, ([0; 0x10000], 8)).
Proof. vm_compute. reflexivity. Qed.

Lemma first_token : s_next_token (mc_state (mc_lock start)) = 0.
Proof. vm_compute. reflexivity. Qed.

(** It gets its own, the second that came. *)
Lemma rpmi_request_own_witness :
  match request with
  | Some (rc, (data, len), w') =>
      rc = RPMI_SUCCESS /\
      let hdr := request_hdr RPMI_GROUP_BASE 4 RPMI_MSG_NORMAL_REQUEST 0 (s_next_token (mc_state (mc_lock start))) in
      exists w1 dropped ack came, ack_log w1 = ack_log (mc_lock start) ++ came /\ ackq (mc_lock start) ++ came = dropped ++ ack :: ackq w1 /\
        Forall (others hdr) dropped /\ ours hdr ack /\
        data = ack.2 /\ len = 4 * Z.of_nat (length data) /\ 4 <= len <= 8
  | None => False
  end.
Proof.
  pose proof request_result as R. destruct request as [[[rc [data len]] w']|] eqn:E; [|discriminate].
  cbn in R. assert (rc = RPMI_SUCCESS) as -> by congruence. split; [reflexivity|].
  destruct (rpmi_request_own (AQ := world_ackq) 200 context start w' RPMI_GROUP_BASE 4 0 8 len [] data start_ok
    ltac:(unfold RPMI_GROUP_BASE; lia) ltac:(lia) eq_refl ltac:(lia) (Forall_nil_2 _) ltac:(lia) ltac:(rewrite first_token; lia) E)
    as (w1 & dropped & ack & came & _ & H).
  exists w1, dropped, ack, came. exact H.
Defined.

Lemma rpmi_request_ends_witness :
  is_Some (request_locked 200 start (request_hdr RPMI_GROUP_BASE 4 RPMI_MSG_NORMAL_REQUEST 0 0) [] 8).
Proof.
  apply rpmi_request_ends; [exact start_ok| |lia|cbn; lia|vm_compute; lia].
  unfold message_wf, hdr_wf, request_hdr, RPMI_MSG_NORMAL_REQUEST, RPMI_GROUP_BASE.
  cbn [fst snd h_group h_service h_flags h_datalen h_token length]. rewrite Z.mod_0_l by lia.
  split_and!; first [lia|apply Forall_nil_2].
Defined.

End TwoQueues.

(** ** The contract of the queues *)

Section Contract.
Context {AR : Arch} (t : rpmi_shmem) (WF : shmem_wf t).

(** C15: the transport implements bounded queues. Where the indices of a queue
    make sense, [rpmi_shmem_send] is the enqueue of a queue of one message
    less than it has slots, and [rpmi_shmem_recv] the dequeue, which reports
    a message whose length makes no sense or does not fit; a message comes
    out as it went in, in order, and the other queues do not change. *)
Theorem shmem_refines_fifo (m : io_mem) (q : rpmi_queue) (msg : message) (max : Z) :
  mem_wf m -> t_queue t q <> 0 -> indices_ok t m q -> message_wf msg -> max <= 2 ^ 16 ->
  (sends q ->
     let '(rc, m') := rpmi_shmem_send t m q msg.1 msg.2 in
     (rc, queue_messages t m' q) =
       fifo_send (Z.to_nat (t_msg_slots t q - 1)) (t_slot_size t - RPMI_MSG_HDR_SIZE) (queue_messages t m q) msg /\
     indices_ok t m' q /\ (forall q', q' <> q -> t_queue t q' <> 0 -> queue_messages t m' q' = queue_messages t m q')) /\
  (receives q ->
     let '(rc, hdr, data, m') := rpmi_shmem_recv t m q max in
     (rc, if rc =? RPMI_ERR_NO_DATA then None else Some (hdr, data), queue_messages t m' q) =
       fifo_recv (fits t max) (queue_messages t m q) /\
     indices_ok t m' q /\ (forall q', q' <> q -> t_queue t q' <> 0 -> queue_messages t m' q' = queue_messages t m q')).
Proof.
  intros Hm Hq Hi Hmsg Hmax. split; intros Hd; [by apply (shmem_send_fifo t WF)|by apply (shmem_recv_fifo t WF)].
Qed.

(** C17: a PuC cannot lead the transport astray. Whatever it has written into
    the queues, indices and lengths included: a call writes only inside the
    queue it is for and to the doorbell; what it returns depends on that
    queue's memory alone; and it stores no more than the caller's buffer
    takes. *)
Theorem shmem_confined (m m' : io_mem) (q : rpmi_queue) (msg : message) (max : Z) :
  mem_wf m -> mem_wf m' -> agree (in_queue t q) m m' -> message_wf msg ->
  (let r := rpmi_shmem_send t m q msg.1 msg.2 in let r' := rpmi_shmem_send t m' q msg.1 msg.2 in
   r.1 = r'.1 /\ agree (in_queue t q) r.2 r'.2 /\ agree (fun a => ~ in_queue t q a /\ a <> t_doorbell t) r.2 m) /\
  (let r := rpmi_shmem_recv t m q max in let r' := rpmi_shmem_recv t m' q max in
   r.1 = r'.1 /\ agree (in_queue t q) r.2 r'.2 /\ agree (fun a => ~ in_queue t q a) r.2 m /\
   Z.of_nat (length r.1.2) * 4 <= Z.max 0 max).
Proof.
  intros Hm Hm' Ha Hmsg. split; [|by apply (recv_confined t WF)].
  destruct msg as [hdr data]. by apply (send_confined t WF).
Qed.

End Contract.

Module QueueExamples.
Import TwoQueues.
#[local] Existing Instance rv64.

(** A queue with one message in it: the PuC's answer *)
Definition answered : io_mem := puc_post transport answer (fun _ => 0).

Lemma answered_wf : mem_wf answered.
Proof. unfold answered, puc_post. destruct (_ =? _); [|apply enqueued_wf]; intros a; lia. Qed.

Lemma shmem_refines_fifo_witness :
  queue_messages transport answered RPMI_QUEUE_P2A_ACK = [answer] /\
  let '(rc, hdr, data, m') := rpmi_shmem_recv transport answered RPMI_QUEUE_P2A_ACK 8 in
  (rc, if rc =? RPMI_ERR_NO_DATA then None else Some (hdr, data), queue_messages transport m' RPMI_QUEUE_P2A_ACK) =
    fifo_recv (fits transport 8) [answer].
Proof.
  assert (queue_messages transport answered RPMI_QUEUE_P2A_ACK = [answer]) as E by (vm_compute; reflexivity).
  split; [exact E|].
  pose proof (proj2 (shmem_refines_fifo transport transport_wf answered RPMI_QUEUE_P2A_ACK answer 8
    answered_wf ack_there ltac:(split; vm_compute; reflexivity) (proj2 messages_wf) ltac:(lia)) ltac:(left; reflexivity)) as H.
  rewrite E in H. destruct (rpmi_shmem_recv transport answered RPMI_QUEUE_P2A_ACK 8) as [[[rc hdr] data] m']. exact (proj1 H).
Defined.

(** A head that is out of range, as a bad PuC writes it, is not followed *)
Definition hostile : io_mem := fun a => if a =? 0x2000 then 2 ^ 32 - 1 else 0xffff.

Lemma shmem_confined_witness :
  (rpmi_shmem_recv transport hostile RPMI_QUEUE_P2A_ACK 8).1.1.1 = RPMI_ERR_IO /\
  agree (fun a => ~ in_queue transport RPMI_QUEUE_P2A_ACK a) (rpmi_shmem_recv transport hostile RPMI_QUEUE_P2A_ACK 8).2 hostile.
Proof.
  split; [vm_compute; reflexivity|].
  apply (proj2 (shmem_confined transport transport_wf hostile hostile RPMI_QUEUE_P2A_ACK answer 8
    ltac:(intros a; unfold hostile; destruct (a =? 0x2000); lia) ltac:(intros a; unfold hostile; destruct (a =? 0x2000); lia)
    ltac:(intros a _; reflexivity) (proj2 messages_wf))).
Defined.

(** The probe takes a queue of three slots, "at least one for a message", but
    a ring of one slot has no room for one: nothing can be sent. *)
Lemma one_slot_never_sends (t : rpmi_shmem) (m : io_mem) (q : rpmi_queue) (hdr : rpmi_hdr) (data : list Z) :
  mem_wf m -> t_msg_slots t q = 1 -> (rpmi_shmem_send t m q hdr data).1 <> RPMI_SUCCESS.
Proof.
  intros Hm E. unfold rpmi_shmem_send. rewrite E, !Z.mod_1_r. destruct (_ || _); [done|].
  set (head := io_read32 m _). assert (0 <= head) as Hh by apply Hm.
  destruct (Z.leb_spec 1 head); cbn [orb fst]; [done|]. destruct (1 <=? _); [done|].
  by destruct (Z.eqb_spec 0 head); [|lia].
Qed.

End QueueExamples.

(** ** Where the client does not do what its comments say *)

Module Flood.
#[local] Instance rv64 : Arch := RV64.
#[local] Instance config : RpmiConfig := {| CONFIG_RPMI_MAX_DATA_LEN := 512; rpmi_timeout := 100 |}.

Definition token (k : Z) : rpmi_hdr := RpmiHdr 1 4 RPMI_MSG_ACKNOWLEDGEMENT 4 k.

(** A PuC that has an acknowledgment of token 7 for every look at the queue;
    a tick of the clock each *)
#[local] Instance flood : Transport Z := {|
  tp_send := fun w _ _ _ => (RPMI_SUCCESS, w);
  tp_recv := fun w _ _ => (RPMI_SUCCESS, token 7, [0], w + 1);
|}.
#[local] Instance ticks : Machine Z := {|
  timer_available := true;
  timer_now := fun w => w;
  mc_relax := fun w => w + 1;
  mc_state := fun _ => ClientState 0 false false;
  mc_set_state := fun _ w => w;
  mc_lock := fun w => w;
  mc_rang := fun w => (false, w);
  mc_relock := fun w => (false, w);
  mc_sink := fun _ _ _ w => w;
  mc_msi_request := fun w => (None, w);
|}.

(** The wait never ends, whatever time it is: the timeout is looked at only
    when the queue is empty. *)
Lemma wait_ack_flooded (fuel : nat) (w : Z) : wait_ack fuel w (token 0) 8 = None.
Proof.
  unfold wait_ack. generalize (deadline w). intros u. revert w.
  induction fuel as [|fuel IH]; intros w; [done|]. exact (IH (w + 1)).
Qed.
End Flood.

Module BadMessage.
#[local] Instance rv64 : Arch := RV64.
#[local] Instance config : RpmiConfig := {| CONFIG_RPMI_MAX_DATA_LEN := 8; rpmi_timeout := 100 |}.

(** The P2A requests that wait; a message that does not fit is consumed *)
#[local] Instance inbox : Transport (list message) := {|
  tp_send := fun w _ _ _ => (RPMI_SUCCESS, w);
  tp_recv := fun w _ max =>
    match w with
    | [] => (RPMI_ERR_NO_DATA, RpmiHdr 0 0 0 0 0, [], [])
    | m :: w => if h_datalen m.1 <=? max then (RPMI_SUCCESS, m.1, m.2, w) else (RPMI_ERR_BAD_RANGE, m.1, [], w)
    end;
|}.
#[local] Instance still : Machine (list message) := {|
  timer_available := false;
  timer_now := fun _ => 0;
  mc_relax := fun w => w;
  mc_state := fun _ => ClientState 0 false false;
  mc_set_state := fun _ w => w;
  mc_lock := fun w => w;
  mc_rang := fun w => (false, w);
  mc_relock := fun w => (false, w);
  mc_sink := fun _ _ _ w => w;
  mc_msi_request := fun w => (None, w);
|}.

Definition long : message := (RpmiHdr 8 0 RPMI_MSG_NOTIFICATION 64 0, []).
Definition event : message := (RpmiHdr 8 0 RPMI_MSG_NOTIFICATION 4 1, [0x10000]).

(** "Until it is empty": a message that is too long ends the loop, and the
    event behind it stays. *)
Lemma drain_stops_early : p2a_drain 10 (RpmiContext 1 56 true RPMI_NO_SYSMSI []) [long; event] = Some [event].
Proof. vm_compute. reflexivity. Qed.
End BadMessage.
