(* ===== verification/RpmiDoorbell.v ===== *)
(** The P2A doorbell: [context_lock], [context_unlock] and [doorbell_irq] of
    [drivers/rpmi/rpmi.c], on all harts at once.

    One access to the lock, to [doorbell_rang] or to the queue is one step.
    A thread is a hart in the client, or the interrupt handler, which runs on
    a hart whatever that hart is doing: it never waits.  The PuC puts a
    message into the P2A queue and rings.

    What a request does while it holds the lock is one step: it waits for
    room and for its acknowledgment, by the client's timeout where the PuC
    does not keep the queue of acknowledgments full ([rpmi_request_ends]).
    Of a message only its length matters: [p2a_drain] stops where [recv]
    fails, at the end of the queue and at a message whose length makes no
    sense or does not fit, which is consumed. *)

From stdpp Require Import relations.
From S2P Require Import Prelude.

#[local] Open Scope nat_scope.

(** Where a thread is *)
Inductive pc : Set :=
  | PIdle
  | PLock     (* context_lock(): atomic_swap_ulong(&ctx->lock, 1) *)
  | PWork     (* the lock is held: a request, or p2a_drain() of rpmi_poll() *)
  | PSwap     (* context_unlock(): atomic_swap_ulong(&ctx->doorbell_rang, 0) *)
  | PDrain    (* p2a_drain() *)
  | PStore    (* atomic_store_ulong(&ctx->lock, 0) *)
  | PLoad     (* atomic_load_ulong(&ctx->doorbell_rang) *)
  | PRetry    (* !atomic_swap_ulong(&ctx->lock, 1) *)
  | PRing     (* doorbell_irq(): atomic_store_ulong(&ctx->doorbell_rang, 1) *)
  | PTry.     (* !atomic_swap_ulong(&ctx->lock, 1) *)
#[export] Instance pc_eq_dec : EqDecision pc.
Proof. solve_decision. Defined.

Record doorbell : Set := Doorbell {
  db_lock : bool;
  db_rang : bool;
  db_irq : bool;          (* the MSI is pending *)
  db_queue : list bool;   (* the messages in the P2A request queue: is the length good? *)
  db_bad : bool;          (* the PuC has sent one whose length is not *)
  db_threads : list pc;
}.
#[export] Instance doorbell_eta : Settable doorbell := fun s =>
  Doorbell (db_lock s) (db_rang s) (db_irq s) (db_queue s) (db_bad s) (db_threads s).

Definition goto (s : doorbell) (i : nat) (p : pc) : doorbell := s <| db_threads := <[i := p]> (db_threads s) |>.

(** [context_lock], the swap that gets the lock or goes on *)
Definition lock_step (s : doorbell) (i : nat) : doorbell :=
  if db_lock s then s else goto (s <| db_lock := true |>) i PWork.

(** [context_unlock], from where the thread is *)
Definition unlock_step (s : doorbell) (i : nat) (p : pc) : option doorbell :=
  match p with
  | PSwap => Some (if db_rang s then goto (s <| db_rang := false |>) i PDrain else goto s i PStore)
  | PDrain => Some (match db_queue s with
                    | [] => goto s i PStore
                    | true :: q => s <| db_queue := q |>
                    | false :: q => goto (s <| db_queue := q |>) i PStore
                    end)
  | PStore => Some (goto (s <| db_lock := false |>) i PLoad)
  | PLoad => Some (goto s i (if db_rang s then PRetry else PIdle))
  | PRetry => Some (if db_lock s then goto s i PIdle else goto (s <| db_lock := true |>) i PSwap)
  | _ => None
  end.

(** [doorbell_irq] *)
Definition irq_step (s : doorbell) (i : nat) (p : pc) : option doorbell :=
  match p with
  | PRing => Some (goto (s <| db_rang := true |>) i PTry)
  | PTry => Some (if db_lock s then goto s i PIdle else goto (s <| db_lock := true |>) i PSwap)
  | _ => None
  end.

(** What is under way goes on: every step but the start of a call, the wait
    for the lock and the PuC *)
Inductive runs : doorbell -> doorbell -> Prop :=
  | runs_locks s i : db_threads s !! i = Some PLock -> db_lock s = false -> runs s (lock_step s i)
  | runs_takes s i msg q : db_threads s !! i = Some PWork -> db_queue s = msg :: q -> runs s (s <| db_queue := q |>)
  | runs_done s i : db_threads s !! i = Some PWork -> runs s (goto s i PSwap)
  | runs_unlock s i p s' : db_threads s !! i = Some p -> unlock_step s i p = Some s' -> runs s s'
  | runs_irq s i : db_threads s !! i = Some PIdle -> db_irq s = true -> runs s (goto (s <| db_irq := false |>) i PRing)
  | runs_handler s i p s' : db_threads s !! i = Some p -> irq_step s i p = Some s' -> runs s s'.

Inductive step : doorbell -> doorbell -> Prop :=
  | step_runs s s' : runs s s' -> step s s'
  | step_call s i : db_threads s !! i = Some PIdle -> step s (goto s i PLock)
  | step_puc s good : step s (s <| db_queue := db_queue s ++ [good] |> <| db_bad := db_bad s || negb good |> <| db_irq := true |>).

Definition initial (s : doorbell) : Prop :=
  db_lock s = false /\ db_rang s = false /\ db_irq s = false /\ db_queue s = [] /\ db_bad s = false /\
  Forall (eq PIdle) (db_threads s).

(** ** The invariant *)

Definition holds (p : pc) : bool := match p with PWork | PSwap | PDrain | PStore => true | _ => false end.
(** Who looks at [doorbell_rang] before it is idle *)
Definition looks (p : pc) : bool := holds p || match p with PLoad | PRetry | PTry => true | _ => false end.
(** Who is to announce a message, or to take it *)
Definition drains (p : pc) : bool := match p with PRing | PDrain => true | _ => false end.
Definition some_thread (P : pc -> bool) (s : doorbell) : Prop := exists i p, db_threads s !! i = Some p /\ P p = true.

Record doorbell_ok (s : doorbell) : Prop := {
  (* the lock is held by the one thread that thinks so *)
  dk_free : db_lock s = false -> forall i p, db_threads s !! i = Some p -> holds p = false;
  dk_held : db_lock s = true -> some_thread holds s;
  dk_one i j p q : db_threads s !! i = Some p -> db_threads s !! j = Some q -> holds p = true -> holds q = true -> i = j;
  (* a message has an interrupt, a ring or a drain to come *)
  dk_queue : db_bad s = false -> db_queue s <> [] -> db_irq s = true \/ db_rang s = true \/ some_thread drains s;
  dk_good : db_bad s = false -> Forall (eq true) (db_queue s);
  (* a ring has somebody to look *)
  dk_rang : db_rang s = true -> some_thread looks s;
}.

(** A thread that moves *)
Section Move.
Context (s : doorbell) (i : nat) (p p' : pc) (lock' rang' irq' : bool) (queue' : list bool).
Context (Hi : db_threads s !! i = Some p).

Definition moved : doorbell := Doorbell lock' rang' irq' queue' (db_bad s) (<[i := p']> (db_threads s)).

Lemma moved_self : db_threads moved !! i = Some p'.
Proof. apply list_lookup_insert_eq. exact (lookup_lt_Some _ _ _ Hi). Qed.

Lemma moved_lookup (j : nat) (q : pc) :
  db_threads moved !! j = Some q -> j = i /\ q = p' \/ j <> i /\ db_threads s !! j = Some q.
Proof.
  destruct (decide (j = i)) as [->|Hj]; [rewrite moved_self; intros [= <-]; by left|].
  cbn [moved db_threads]. rewrite list_lookup_insert_ne by done. by right.
Qed.

Lemma moved_some (P : pc -> bool) : P p' = true \/ some_thread P s /\ P p = false -> some_thread P moved.
Proof.
  intros [H|[(j & q & Hj & Hq) Hp]]; [by exists i, p'; split; [apply moved_self|]|].
  exists j, q. split; [|done]. cbn [moved db_threads]. rewrite list_lookup_insert_ne; [done|]. intros ->. congruence.
Qed.

Lemma moved_ok :
  doorbell_ok s ->
  (holds p' = holds p /\ lock' = db_lock s \/
   holds p = false /\ holds p' = true /\ db_lock s = false /\ lock' = true \/
   holds p = true /\ holds p' = false /\ lock' = false) ->
  (db_bad s = false -> queue' <> [] -> irq' = true \/ rang' = true \/ drains p' = true \/
     db_queue s <> [] /\ (db_irq s = true -> irq' = true) /\ (db_rang s = true -> rang' = true) /\ drains p = false) ->
  queue' `suffix_of` db_queue s ->
  (rang' = true -> looks p' = true \/ lock' = true /\ db_lock s = true /\ holds p = false \/ db_rang s = true /\ looks p = false) ->
  doorbell_ok moved.
Proof.
  intros [H1 H2 H3 H4 Hg H5] Hl Hq Hsuf Hr. constructor.
  - cbn [moved db_lock]. intros El j q Hj. apply moved_lookup in Hj as [[-> ->]|[Hne Hj]].
    + destruct Hl as [[E1 E2]|[(_ & _ & _ & E)|(_ & E & _)]]; [|congruence|done].
      rewrite E1. by apply (H1 ltac:(congruence) i).
    + destruct Hl as [[E1 E2]|[(_ & _ & _ & E)|(E & _ & _)]]; [|congruence|].
      * by apply (H1 ltac:(congruence) j).
      * destruct (holds q) eqn:Eq; [|done]. by destruct Hne, (H3 j i q p).
  - cbn [moved db_lock]. intros El. apply moved_some. destruct Hl as [[E1 E2]|[(_ & -> & _)|(_ & _ & E)]]; [|by left|congruence].
    rewrite E1. destruct (holds p); [by left|right]. split; [|done]. apply H2. congruence.
  - intros j j' q q' Hj Hj' Eq Eq'. apply moved_lookup in Hj, Hj'.
    assert (forall k r, db_threads s !! k = Some r -> holds r = true -> k <> i -> holds p' = true -> False) as Ho.
    { intros k r Hk Er Hne Ep. destruct Hl as [[E1 E2]|[(_ & _ & E & _)|(_ & E & _)]]; [|by rewrite (H1 E k r Hk) in Er|congruence].
      by destruct Hne, (H3 k i r p); congruence. }
    destruct Hj as [[-> ->]|[Hne Hj]], Hj' as [[-> ->]|[Hne' Hj']]; [done|by exfalso; eapply Ho|by exfalso; eapply Ho|by apply (H3 j j' q q')].
  - cbn [moved db_queue db_bad]. intros Hbad Hlt. destruct (Hq Hbad Hlt) as [E|[E|[E|(E1 & E2 & E3 & E4)]]]; [by left|by right; left| |].
    + right; right. apply moved_some. by left.
    + destruct (H4 Hbad E1) as [E|[E|E]]; [by left; apply E2|by right; left; apply E3|right; right]. apply moved_some. by right.
  - cbn [moved db_queue db_bad]. intros Hbad. destruct Hsuf as [l El]. specialize (Hg Hbad). rewrite El in Hg. by apply Forall_app in Hg as [_ Hg].
  - cbn [moved db_rang]. intros Er. destruct (Hr Er) as [E|[(El & El' & Ep)|(E & Ep)]].
    + apply moved_some. by left.
    + destruct (moved_some holds) as (j & q & Hj & Eq); [right; by split; [apply H2|]|].
      exists j, q. split; [done|]. unfold looks. by rewrite Eq.
    + apply moved_some. right. by split; [apply H5|].
Qed.
End Move.

(** The queue alone *)
Lemma queue_ok (s : doorbell) (irq' bad' : bool) (queue' : list bool) :
  doorbell_ok s -> (bad' = false -> db_bad s = false /\ (Forall (eq true) (db_queue s) -> Forall (eq true) queue')) ->
  (queue' <> [] -> db_queue s <> [] /\ irq' = db_irq s) \/ irq' = true ->
  doorbell_ok (Doorbell (db_lock s) (db_rang s) irq' queue' bad' (db_threads s)).
Proof.
  intros [H1 H2 H3 H4 Hg H5] Hb Hq. constructor; try done; cbn [db_queue db_bad].
  - intros Ebad Hlt. destruct (Hb Ebad) as [Ebad' _]. destruct Hq as [Hq| ->]; [|by left].
    destruct (Hq Hlt) as [E1 ->]. by apply H4.
  - intros Ebad. destruct (Hb Ebad) as [Ebad' Hf]. by apply Hf, Hg.
Qed.

Lemma take_ok (s : doorbell) (msg : bool) (q : list bool) :
  doorbell_ok s -> db_queue s = msg :: q -> doorbell_ok (s <| db_queue := q |>).
Proof.
  intros Hok En. refine (queue_ok s (db_irq s) (db_bad s) q Hok _ _).
  - intros Ebad. split; [done|]. rewrite En. by intros [_ ?]%Forall_cons.
  - left. intros _. by rewrite En.
Qed.

(** The thread's own move, and what of the invariant is to be seen *)
Ltac moves s i p p' := refine (moved_ok s i p p' _ _ _ _ _ _ _ _ _ _);
  [done|done|..]; try (by exists [] || by eexists [_]); cbn [holds looks drains orb]; intuition congruence.

Lemma runs_ok (s s' : doorbell) : doorbell_ok s -> runs s s' -> doorbell_ok s'.
Proof.
  intros Hok Hr. destruct Hr as [s i Hi El|s i msg q Hi En|s i Hi|s i p s' Hi E|s i Hi Eirq|s i p s' Hi E].
  - unfold lock_step. rewrite El. moves s i PLock PWork.
  - by eapply take_ok.
  - moves s i PWork PSwap.
  - destruct p; try discriminate; injection E as <-.
    + destruct (db_rang s) eqn:Er; [moves s i PSwap PDrain|moves s i PSwap PStore].
    + destruct (db_queue s) as [|[] q] eqn:En; [moves s i PDrain PStore|by eapply take_ok|].
      assert (db_bad s = true) as Ebad.
      { destruct (db_bad s) eqn:E; [done|]. pose proof (dk_good s Hok E) as Hg. rewrite En in Hg. by apply Forall_cons in Hg as [? _]. }
      refine (moved_ok s i PDrain PStore _ _ _ _ _ _ _ _ _ _); [done|done|..].
      * by left.
      * congruence.
      * rewrite En. by exists [false].
      * by left.
    + moves s i PStore PLoad.
    + destruct (db_rang s) eqn:Er; [moves s i PLoad PRetry|moves s i PLoad PIdle].
    + destruct (db_lock s) eqn:El; [moves s i PRetry PIdle|moves s i PRetry PSwap].
  - moves s i PIdle PRing.
  - destruct p; try discriminate; injection E as <-.
    + moves s i PRing PTry.
    + destruct (db_lock s) eqn:El; [moves s i PTry PIdle|moves s i PTry PSwap].
Qed.

Lemma ring_step_ok (s s' : doorbell) : doorbell_ok s -> step s s' -> doorbell_ok s'.
Proof.
  intros Hok Hs. destruct Hs as [s s' Hr|s i Hi|s good].
  - by eapply runs_ok.
  - moves s i PIdle PLock.
  - refine (queue_ok s true (db_bad s || negb good) (db_queue s ++ [good]) Hok _ _); [|by right].
    intros [-> Eg]%orb_false_elim. split; [done|]. intros Hf. apply Forall_app. split; [done|]. constructor; [|done]. by destruct good.
Qed.

Lemma initial_ok (s : doorbell) : initial s -> doorbell_ok s.
Proof.
  intros (H1 & H2 & H3 & H4 & Hb & H5).
  assert (forall i p, db_threads s !! i = Some p -> p = PIdle) as Hidle by (intros i p Hi; symmetry; by eapply Forall_lookup_1 in H5).
  constructor; try congruence.
  - intros _ i p Hi. by rewrite (Hidle i p Hi).
  - intros i j p q Hi _ Hp. by rewrite (Hidle i p Hi) in Hp.
  - intros _. rewrite H4. constructor.
Qed.

Lemma ring_steps_ok (s0 s : doorbell) : initial s0 -> rtc step s0 s -> doorbell_ok s.
Proof. intros H0 Hs. apply initial_ok in H0. induction Hs as [|a b c Hab _ IH]; [done|]. by eapply IH, ring_step_ok. Qed.

(** ** How long it takes *)

(** What a thread has before it, with [doorbell_rang] set or not, at most;
    a ring costs every thread another round *)
Definition weight (n : nat) (rang : bool) (p : pc) : nat :=
  match p with
  | PIdle => 0
  | PRing => 12 * n + 20
  | PLock => if rang then 9 else 5
  | PWork | PRetry | PTry => if rang then 8 else 4
  | PSwap => if rang then 7 else 3
  | PDrain => if rang then 11 else 3
  | PStore => if rang then 10 else 2
  | PLoad => if rang then 9 else 1
  end.

Definition measure (s : doorbell) : nat :=
  let n := length (db_threads s) in
  sum_list_with (weight n (db_rang s)) (db_threads s) + (if db_irq s then 12 * n + 21 else 0) + length (db_queue s).

Lemma sum_insert (f : pc -> nat) (l : list pc) (i : nat) (p p' : pc) :
  l !! i = Some p -> sum_list_with f (<[i := p']> l) + f p = sum_list_with f l + f p'.
Proof.
  revert i. induction l as [|x l IH]; intros [|i] H; try done.
  - injection H as ->. change (f p' + sum_list_with f l + f p = f p + sum_list_with f l + f p'). lia.
  - specialize (IH i H). change (f x + sum_list_with f (<[i := p']> l) + f p = f x + sum_list_with f l + f p'). lia.
Qed.

Lemma sum_le (f g : pc -> nat) (c : nat) (l : list pc) :
  (forall p, f p <= g p + c) -> sum_list_with f l <= sum_list_with g l + c * length l.
Proof.
  intros H. induction l as [|x l IH]; [cbn; lia|]. pose proof (H x).
  change (f x + sum_list_with f l <= g x + sum_list_with g l + c * S (length l)). lia.
Qed.

Lemma weight_rang (n : nat) (r r' : bool) (p : pc) : weight n r p <= weight n r' p + (if r then if r' then 0 else 9 else 0).
Proof. destruct r, r', p; cbn; lia. Qed.

(** Every step of what is under way makes it less *)
Lemma moved_measure (s : doorbell) (i : nat) (p p' : pc) (lock' rang' irq' : bool) (queue' : list bool) :
  let n := length (db_threads s) in
  db_threads s !! i = Some p -> length queue' <= length (db_queue s) ->
  weight n rang' p' + (if rang' then if db_rang s then 0 else 9 * n else 0) + (if irq' then 12 * n + 21 else 0) <
    weight n (db_rang s) p + (if db_irq s then 12 * n + 21 else 0) ->
  measure (moved s i p' lock' rang' irq' queue') < measure s.
Proof.
  intros n Hi Hq Hw. unfold measure. cbn [moved db_threads db_rang db_irq db_queue]. rewrite length_insert. fold n.
  pose proof (sum_insert (weight n (db_rang s)) _ i p PIdle Hi) as E0.
  pose proof (sum_insert (weight n rang') _ i p PIdle Hi) as E1. pose proof (sum_insert (weight n rang') _ i p p' Hi) as E2.
  pose proof (sum_le (weight n rang') (weight n (db_rang s)) (if rang' then if db_rang s then 0 else 9 else 0) (<[i := PIdle]> (db_threads s))
    ltac:(intros q; apply weight_rang)) as E3.
  rewrite length_insert in E3. fold n in E3. cbn [weight] in E0, E1. destruct rang', (db_rang s); lia.
Qed.

Ltac less s i p p' := refine (moved_measure s i p p' _ _ _ _ _ _ _); [done|destruct s; cbn -[Nat.mul] in *; subst; repeat case_match; lia..].

Lemma runs_measure (s s' : doorbell) : runs s s' -> measure s' < measure s.
Proof.
  intros Hr. destruct Hr as [s i Hi El|s i msg q Hi En|s i Hi|s i p s' Hi E|s i Hi Eirq|s i p s' Hi E].
  - unfold lock_step. rewrite El. less s i PLock PWork.
  - unfold measure. cbn. rewrite En. cbn. lia.
  - less s i PWork PSwap.
  - destruct p; try discriminate; injection E as <-.
    + destruct (db_rang s) eqn:Er; [less s i PSwap PDrain|less s i PSwap PStore].
    + destruct (db_queue s) as [|[] q] eqn:En; [less s i PDrain PStore|unfold measure; cbn; rewrite En; cbn; lia|].
      refine (moved_measure s i PDrain PStore _ _ _ _ _ _ _); [done|rewrite En; cbn; lia|].
      destruct s; cbn -[Nat.mul] in *; repeat case_match; lia.
    + less s i PStore PLoad.
    + destruct (db_rang s) eqn:Er; [less s i PLoad PRetry|less s i PLoad PIdle].
    + destruct (db_lock s) eqn:El; [less s i PRetry PIdle|less s i PRetry PSwap].
  - less s i PIdle PRing.
  - destruct p; try discriminate; injection E as <-.
    + less s i PRing PTry.
    + destruct (db_lock s) eqn:El; [less s i PTry PIdle|less s i PTry PSwap].
Qed.

(** Where nothing is under way, nobody waits for the lock *)
Lemma quiet (s : doorbell) :
  doorbell_ok s -> db_threads s <> [] -> (forall s', ~ runs s s') ->
  Forall (eq PIdle) (db_threads s) /\ db_irq s = false /\ db_rang s = false /\ (db_bad s = false -> db_queue s = []).
Proof.
  intros Hok Hne Hq.
  assert (forall i p, db_threads s !! i = Some p -> p = PIdle \/ p = PLock /\ db_lock s = true) as Hp.
  { intros i p Hi. destruct p; [by left| |exfalso..]; try (eapply Hq; by eapply runs_unlock);
      try (eapply Hq; by eapply runs_handler); try (eapply Hq; by eapply runs_done).
    right. split; [done|]. destruct (db_lock s) eqn:El; [done|]. exfalso. by eapply Hq, runs_locks. }
  assert (db_lock s = false) as El.
  { destruct (db_lock s) eqn:El; [|done]. destruct (dk_held s Hok El) as (i & p & Hi & Eh). by destruct (Hp i p Hi) as [->|[-> _]]. }
  assert (forall i p, db_threads s !! i = Some p -> p = PIdle) as Hidle.
  { intros i p Hi. destruct (Hp i p Hi) as [->|[_ E]]; [done|congruence]. }
  assert (forall P, P PIdle = false -> ~ some_thread P s) as Hno.
  { intros P EP (i & p & Hi & Ep). rewrite (Hidle i p Hi) in Ep. congruence. }
  destruct (db_threads s) as [|p ps] eqn:Et; [done|].
  assert (db_irq s = false) as Eirq.
  { destruct (db_irq s) eqn:E; [|done]. exfalso. apply (Hq (goto (s <| db_irq := false |>) 0 PRing)), runs_irq; [|done].
    rewrite Et. cbn. f_equal. by apply (Hidle 0). }
  assert (db_rang s = false) as Er.
  { destruct (db_rang s) eqn:E; [|done]. by destruct (Hno looks eq_refl (dk_rang s Hok E)). }
  split_and!; try done.
  - apply Forall_lookup_2. intros i q Hi. symmetry. by apply (Hidle i).
  - intros Ebad. destruct (db_queue s) eqn:E; [done|]. destruct (dk_queue s Hok) as [H|[H|H]]; [done|congruence|congruence|congruence|].
    by destruct (Hno drains eq_refl H).
Qed.

(** no ring of the doorbell is lost. Whatever the harts, the interrupt
    handler and the PuC have done, the lengths of its messages good: once
    nobody is in the client but to wait for the lock, and no interrupt is
    pending, the P2A queue is empty. *)
Theorem doorbell_not_lost (s0 s : doorbell) :
  initial s0 -> rtc step s0 s -> db_bad s = false -> db_irq s = false ->
  Forall (fun p => p = PIdle \/ p = PLock) (db_threads s) -> db_queue s = [].
Proof.
  intros H0 Hs Ebad Eirq Ht. pose proof (ring_steps_ok s0 s H0 Hs) as Hok.
  assert (forall P, P PIdle = false -> P PLock = false -> ~ some_thread P s) as Hno.
  { intros P E1 E2 (i & p & Hi & Ep). destruct (Forall_lookup_1 _ _ _ _ Ht Hi) as [->| ->]; congruence. }
  destruct (db_queue s) eqn:E; [done|]. destruct (dk_queue s Hok) as [H|[H|H]]; [done|congruence|congruence| |].
  - by destruct (Hno looks eq_refl eq_refl (dk_rang s Hok H)).
  - by destruct (Hno drains eq_refl eq_refl H).
Qed.

Lemma runs_length (s s' : doorbell) : runs s s' -> length (db_threads s') = length (db_threads s).
Proof.
  intros Hr. destruct Hr as [s i Hi El|s i msg q Hi En|s i Hi|s i p s' Hi E|s i Hi Eirq|s i p s' Hi E];
    unfold lock_step, unlock_step, irq_step in *; repeat case_match; simplify_eq; try done; apply length_insert.
Qed.

(** C19: the doorbell is answered. From any state that can be reached, what is
    under way comes to an end, however the threads take turns, within
    [measure] steps, one of which is the whole exchange of a request that
    holds the lock; then every thread is idle, nobody waits for the lock, and
    no interrupt or ring is left. Where no message the PuC has sent is of a
    bad length, every message is taken by then; [p2a_drain] stops at one that
    is, and leaves those behind it to the next ring. *)
Theorem doorbell_answered (s0 s : doorbell) :
  initial s0 -> rtc step s0 s -> db_threads s <> [] ->
  (forall n s', nsteps runs n s s' -> n <= measure s) /\
  (forall s', rtc runs s s' -> (forall s'', ~ runs s' s'') ->
     Forall (eq PIdle) (db_threads s') /\ db_irq s' = false /\ db_rang s' = false /\ (db_bad s' = false -> db_queue s' = [])).
Proof.
  intros H0 Hs Hne. split.
  - intros n s' Hn. enough (n + measure s' <= measure s) by lia. clear H0 Hs Hne.
    induction Hn as [s|n s s1 s' Hr _ IH]; [lia|]. pose proof (runs_measure s s1 Hr). lia.
  - intros s' Hr. apply quiet.
    + apply (ring_steps_ok s0); [done|]. etrans; [exact Hs|]. eapply rtc_subrel; [|exact Hr]. intros x y. apply step_runs.
    + assert (length (db_threads s') = length (db_threads s)) as El.
      { clear -Hr. induction Hr as [|x y z Hxy _ IH]; [done|]. rewrite IH. by apply runs_length. }
      intros E. rewrite E in El. by apply Hne, nil_length_inv.
Qed.

(** ** An example: two harts and the handler *)

Module TwoHartsDoorbell.

Definition start : doorbell := Doorbell false false false [] false [PIdle; PIdle; PIdle].
(** The first hart holds the lock when the PuC rings; the handler, on it,
    finds the lock taken. *)
Definition rung : doorbell := Doorbell true true false [true] false [PWork; PIdle; PIdle].

Lemma rung_reached : rtc step start rung.
Proof.
  eapply rtc_l; [apply (step_call _ 0); reflexivity|].
  eapply rtc_l; [apply step_runs, (runs_locks _ 0); reflexivity|].
  eapply rtc_l; [apply (step_puc _ true)|].
  eapply rtc_l; [apply step_runs, (runs_irq _ 2); reflexivity|].
  eapply rtc_l; [apply step_runs, (runs_handler _ 2 PRing); reflexivity|].
  eapply rtc_l; [apply step_runs, (runs_handler _ 2 PTry); reflexivity|].
  apply rtc_refl.
Qed.

Lemma doorbell_answered_witness :
  rtc step start rung /\ (forall n s', nsteps runs n rung s' -> n <= measure rung).
Proof.
  split; [exact rung_reached|].
  apply (doorbell_answered start rung); [unfold initial; cbn; repeat split; repeat constructor|exact rung_reached|discriminate].
Defined.

(** After the first hart's unlock, which answers for the doorbell *)
Definition answered : doorbell := Doorbell false false false [] false [PIdle; PIdle; PIdle].

Lemma rung_answered : rtc step rung answered.
Proof.
  eapply rtc_l; [apply step_runs, (runs_done _ 0); reflexivity|].
  eapply rtc_l; [apply step_runs, (runs_unlock _ 0 PSwap); reflexivity|].
  eapply rtc_l; [apply step_runs, (runs_unlock _ 0 PDrain); reflexivity|].
  eapply rtc_l; [apply step_runs, (runs_unlock _ 0 PDrain); reflexivity|].
  eapply rtc_l; [apply step_runs, (runs_unlock _ 0 PStore); reflexivity|].
  eapply rtc_l; [apply step_runs, (runs_unlock _ 0 PLoad); reflexivity|].
  apply rtc_refl.
Qed.

Lemma doorbell_not_lost_witness : rtc step start answered /\ db_queue answered = [].
Proof.
  assert (rtc step start answered) as H by (etrans; [exact rung_reached|exact rung_answered]).
  split; [exact H|]. apply (doorbell_not_lost start); [unfold initial; cbn; repeat split; repeat constructor|exact H|reflexivity|reflexivity|].
  repeat constructor.
Defined.

(** A message of a bad length ends the drain, and the one behind it stays. *)
Definition two_rung : doorbell := Doorbell false false true [false; true] true [PIdle].
Definition one_left : doorbell := Doorbell false false false [true] true [PIdle].
Lemma bad_length_leaves : rtc runs two_rung one_left.
Proof.
  eapply rtc_l; [apply (runs_irq _ 0); reflexivity|].
  eapply rtc_l; [apply (runs_handler _ 0 PRing); reflexivity|].
  eapply rtc_l; [apply (runs_handler _ 0 PTry); reflexivity|].
  eapply rtc_l; [apply (runs_unlock _ 0 PSwap); reflexivity|].
  eapply rtc_l; [apply (runs_unlock _ 0 PDrain); reflexivity|].
  eapply rtc_l; [apply (runs_unlock _ 0 PStore); reflexivity|].
  eapply rtc_l; [apply (runs_unlock _ 0 PLoad); reflexivity|].
  apply rtc_refl.
Qed.

End TwoHartsDoorbell.
