(* ===== verification/RpmiCppc.v ===== *)
(** CPPC through the platform microcontroller: [drivers/cppc/cppc.c] and
    [drivers/cppc/rpmi_cppc.c].  The answers of the PuC to requests
    ([rpmi_call]) and what it writes to its memory are the environment's;
    what the driver writes is a log.

    Whatever the PuC answers, the driver's stores stay off the monitor's
    memory and inside what the PuC offered.  A region that is offered at boot
    becomes the monitor's, and stops the machine at the first request; one of
    less than 8 bytes confines nothing. *)

From S2P Require Import Prelude Arch Memregion Rpmi.

#[local] Open Scope Z_scope.


(** [cppc.h], [rpmi.h] *)
Definition CPPC_REG_DESIRED_PERF : Z := 5.
Definition CPPC_REG_MIN_PERF : Z := 6.
Definition CPPC_REG_MAX_PERF : Z := 7.
Definition CPPC_REG_DELIVERED_CTR : Z := 12.
Definition RPMI_CPPC_PROBE_REG : Z := 2.
Definition RPMI_CPPC_READ_REG : Z := 3.
Definition RPMI_CPPC_WRITE_REG : Z := 4.
Definition RPMI_CPPC_GET_FAST_CHANNEL_REGION : Z := 5.
Definition RPMI_CPPC_GET_FAST_CHANNEL_OFFSET : Z := 6.
Definition RPMI_ERR_DENIED : Z := -4.
Definition RPMI_CPPC_FC_DOORBELL : Z := 1.
Definition RPMI_CPPC_FC_DB_WIDTH (flags : Z) : Z := Z.land (Z.shiftr flags 1) 3.
Definition RPMI_CPPC_FC_MODE (flags : Z) : Z := Z.land (Z.shiftr flags 3) 3.

(** [fc], and [fc_harts] of one hart *)
Inductive fc_state : Set := FC_UNKNOWN | FC_NONE | FC_READY.
#[export] Instance fc_state_eq_dec : EqDecision fc_state.
Proof. solve_decision. Defined.

Record fast_channels : Set := FastChannels {
  fc_st : fc_state;
  fc_autonomous : bool;
  fc_db_bytes : Z; (* 0: no doorbell *)
  fc_base : Z; fc_size : Z; fc_db_addr : Z;
  fc_db_value : Z;
}.
Record hart_channels : Set := HartChannels { hc_known : bool; hc_usable : bool; hc_request : Z; hc_feedback : Z }.

(** A store of a driver: address, bytes, value. *)
Abbreviation io := (Z * Z * Z)%type.

(** The driver, the memory regions of the monitor, and the rest of the world
    in the state [cs_w] *)
Record cppc_state (W : Type) : Type := CppcState {
  cs_w : W;
  cs_fc : fast_channels;
  cs_harts : Z -> hart_channels;
  cs_regions : list memregion;
  cs_io : list io; (* the last one first *)
}.
Arguments CppcState {W}. Arguments cs_w {W}. Arguments cs_fc {W}. Arguments cs_harts {W}.
Arguments cs_regions {W}. Arguments cs_io {W}.
#[export] Instance cppc_state_eta {W} : Settable (cppc_state W) := fun s =>
  CppcState (cs_w s) (cs_fc s) (cs_harts s) (cs_regions s) (cs_io s).

(** The PuC, and the calling hart. *)
Class CppcEnv (W : Type) := {
  ce_call : W -> Z -> list Z -> Z -> Z * list Z * W; (* rpmi_call of the group: service, request, words of the response *)
  ce_read32 : W -> Z -> Z * W; (* io_read32 *)
  ce_hart : Z; (* this_hart_index() *)
  ce_hartid : Z;
  ce_image : Z; (* monitor_base() *)
  ce_feedback : bool; (* CONFIG_CPPC_RPMI_FEEDBACK_AS_DELIVERED_CTR *)
}.

Section Cppc.
Context {AR : Arch} {KC : Kconfig} {W : Type} {CE : CppcEnv W}.

Definition cppc_rpmi_to_sbi (rc : Z) : Z :=
  if rc =? RPMI_SUCCESS then SBI_SUCCESS
  else if rc =? RPMI_ERR_INVALID_PARAM then SBI_ERR_INVALID_PARAM
  else if rc =? RPMI_ERR_NOT_SUPPORTED then SBI_ERR_NOT_SUPPORTED
  else if rc =? RPMI_ERR_DENIED then SBI_ERR_DENIED
  else SBI_ERR_FAILED.

(** * Fast channels *)

Definition resp_word (resp : list Z) (i : nat) : Z := default 0 (resp !! i).

(** The address, and whether this hart can form it. *)
Definition addr_from (lo hi : Z) : Z * bool :=
  (wrap (reg_pair_to_64 hi lo), (XLEN =? 64) || (hi =? 0)).

(** Nobody there yet. *)
Definition rc_absent (rc : Z) : bool := (rc =? RPMI_ERR_TIMEOUT) || (rc =? RPMI_ERR_IO) || (rc =? RPMI_ERR_BUSY).

(** The checks on an answer: the region, and the doorbell if there is one. *)
Definition region_usable (rs : list memregion) (resp : list Z) : bool :=
  let flags := resp_word resp 1 in
  let db_bytes := if truth (Z.land flags RPMI_CPPC_FC_DOORBELL) then 2 ^ RPMI_CPPC_FC_DB_WIDTH flags else 0 in
  let '(base, base_ok) := addr_from (resp_word resp 2) (resp_word resp 3) in
  let '(size, size_ok) := addr_from (resp_word resp 4) (resp_word resp 5) in
  let '(db, db_ok) := addr_from (resp_word resp 6) (resp_word resp 7) in
  base_ok && size_ok && IS_POWER_OF_TWO size && IS_ALIGNED base 8 && negb (base +! size <? base) &&
  (RPMI_CPPC_FC_MODE flags <=? 1) && (db_bytes <=? 4) &&
  (negb (truth db_bytes) || (db_ok && IS_ALIGNED db db_bytes)) &&
  monitor_range_clear rs base size && (negb (truth db_bytes) || monitor_range_clear rs db db_bytes).

Definition channels_of (resp : list Z) : fast_channels :=
  let flags := resp_word resp 1 in
  let db_bytes := if truth (Z.land flags RPMI_CPPC_FC_DOORBELL) then 2 ^ RPMI_CPPC_FC_DB_WIDTH flags else 0 in
  {| fc_st := FC_READY;
     fc_autonomous := RPMI_CPPC_FC_MODE flags =? 1;
     fc_db_bytes := db_bytes;
     fc_base := fst (addr_from (resp_word resp 2) (resp_word resp 3));
     fc_size := fst (addr_from (resp_word resp 4) (resp_word resp 5));
     fc_db_addr := if truth db_bytes then fst (addr_from (resp_word resp 6) (resp_word resp 7)) else 0;
     fc_db_value := resp_word resp 8 |}.

Definition fc_none (f : fast_channels) : fast_channels :=
  FastChannels FC_NONE (fc_autonomous f) (fc_db_bytes f) (fc_base f) (fc_size f) (fc_db_addr f) (fc_db_value f).

Definition fc_discover (boot : bool) (s : cppc_state W) : outcome (cppc_state W) :=
  if negb (bool_decide (fc_st (cs_fc s) = FC_UNKNOWN)) then Ret s
  else
    let '(rc, resp, w) := ce_call (cs_w s) RPMI_CPPC_GET_FAST_CHANNEL_REGION [] 9 in
    let s := s <| cs_w := w |> in
    if rc_absent rc then Ret s
    else
      let s := s <| cs_fc := fc_none (cs_fc s) |> in
      if truth rc then Ret s
      else if negb (region_usable (cs_regions s) resp) then Ret s
      else
        let fc := channels_of resp in
        rs ← (if boot then memregion_add ce_image (cs_regions s) (fc_base fc) (fc_size fc) MEMREGION_MMODE_RW
              else Ret (cs_regions s));
        Ret (s <| cs_regions := rs |> <| cs_fc := fc |>).

(** The offsets of a hart's channels, as it is told them. *)
Definition offsets_usable (f : fast_channels) (rc : Z) (resp : list Z) : bool :=
  let '(off0, ok0) := addr_from (resp_word resp 1) (resp_word resp 2) in
  let '(off1, ok1) := addr_from (resp_word resp 3) (resp_word resp 4) in
  negb (truth rc) && ok0 && ok1 && IS_ALIGNED (Z.lor off0 off1) 8 && negb (off0 =? off1) &&
  (off0 <=? fc_size f -! 8) && (off1 <=? fc_size f -! 8).

(** [off] stays 0 where [addr_from] was not reached. *)
Definition hart_channels_of (f : fast_channels) (rc : Z) (resp : list Z) : hart_channels :=
  let '(off0, ok0) := addr_from (resp_word resp 1) (resp_word resp 2) in
  let '(off1, _) := addr_from (resp_word resp 3) (resp_word resp 4) in
  {| hc_known := true;
     hc_usable := offsets_usable f rc resp;
     hc_request := fc_base f +! (if truth rc then 0 else off0);
     hc_feedback := fc_base f +! (if truth rc || negb ok0 then 0 else off1) |}.

(** [None]: the hart has no channels. *)
Definition fc_hart (s : cppc_state W) : outcome (option (Z * Z) * cppc_state W) :=
  s ← (if bool_decide (fc_st (cs_fc s) = FC_UNKNOWN) then fc_discover false s else Ret s);
  if negb (bool_decide (fc_st (cs_fc s) = FC_READY)) then Ret (None, s)
  else
    let answer (s : cppc_state W) :=
      let h := cs_harts s ce_hart in
      Ret (if hc_usable h then Some (hc_request h, hc_feedback h) else None, s) in
    if hc_known (cs_harts s ce_hart) then answer s
    else
      let '(rc, resp, w) := ce_call (cs_w s) RPMI_CPPC_GET_FAST_CHANNEL_OFFSET [ce_hartid mod 2 ^ 32] 5 in
      let s := s <| cs_w := w |> in
      if rc_absent rc then Ret (None, s)
      else
        let h := hart_channels_of (cs_fc s) rc resp in
        answer (s <| cs_harts := fun i => if i =? ce_hart then h else cs_harts s i |>).

(** [smode_access_begin]: the check it makes. *)
Definition window_begin (s : cppc_state W) (addr size : Z) : outcome Z :=
  if truth size && negb (monitor_range_clear (cs_regions s) addr size) then Panic else Ret addr.

Definition io_write (s : cppc_state W) (addr bytes val : Z) : cppc_state W :=
  s <| cs_io := (addr, bytes, val mod 2 ^ (8 * bytes)) :: cs_io s |>.

Definition fc_ring (s : cppc_state W) : outcome (cppc_state W) :=
  let f := cs_fc s in
  if fc_db_bytes f =? 0 then Ret s
  else
    db ← window_begin s (fc_db_addr f) (fc_db_bytes f);
    Ret (io_write s db (if fc_db_bytes f =? 1 then 1 else if fc_db_bytes f =? 2 then 2 else 4) (fc_db_value f)).

(** [true]: the write was one for the request fast channel, and is done. *)
Definition fc_write (s : cppc_state W) (reg val : Z) : outcome (bool * cppc_state W) :=
  if (if fc_autonomous (cs_fc s) then negb (reg =? CPPC_REG_MIN_PERF) && negb (reg =? CPPC_REG_MAX_PERF)
      else negb (reg =? CPPC_REG_DESIRED_PERF)) then Ret (false, s)
  else if 0xffffffff <? val then Ret (false, s)
  else
    '(chans, s) ← fc_hart s;
    match chans with
    | None => Ret (false, s)
    | Some (request, _) =>
        let word := if reg =? CPPC_REG_MAX_PERF then 1 else 0 in
        chan ← window_begin s request 8;
        let s := io_write s (chan +! 4 * word) 4 val in
        let s := if fc_autonomous (cs_fc s) then s else io_write s (chan +! 4) 4 0 in
        s ← fc_ring s;
        Ret (true, s)
    end.

(** The PuC writes it whenever it likes: until the halves agree.  [fuel]
    bounds the rounds; [None] where they are not enough. *)
Fixpoint feedback_loop (fuel : nat) (w : W) (chan : Z) : option (Z * W) :=
  match fuel with
  | 0%nat => None
  | S fuel =>
      let '(hi, w) := ce_read32 w (chan +! 4) in
      let '(lo, w) := ce_read32 w chan in
      let '(again, w) := ce_read32 w (chan +! 4) in
      if hi =? again then Some (reg_pair_to_64 hi lo, w) else feedback_loop fuel w chan
  end.

Definition fc_read (fuel : nat) (s : cppc_state W) (reg : Z) : option (outcome (option Z * cppc_state W)) :=
  if negb ce_feedback || negb (reg =? CPPC_REG_DELIVERED_CTR) then Some (Ret (None, s))
  else
    match fc_hart s with
    | Panic => Some Panic
    | Ret (None, s) => Some (Ret (None, s))
    | Ret (Some (_, feedback), s) =>
        match window_begin s feedback 8 with
        | Panic => Some Panic
        | Ret chan => '(val, w) ← feedback_loop fuel (cs_w s) chan; Some (Ret (Some val, s <| cs_w := w |>))
        end
    end.

(** * The backend *)

Definition rpmi_cppc_probe (s : cppc_state W) (reg : Z) : Z * Z * cppc_state W :=
  let '(rc, resp, w) := ce_call (cs_w s) RPMI_CPPC_PROBE_REG [reg; ce_hartid mod 2 ^ 32] 2 in
  (if rc =? RPMI_ERR_NOT_SUPPORTED then SBI_SUCCESS else cppc_rpmi_to_sbi rc,
   if truth rc then 0 else resp_word resp 1, s <| cs_w := w |>).

Definition rpmi_cppc_read (fuel : nat) (s : cppc_state W) (reg : Z) : option (outcome (Z * Z * cppc_state W)) :=
  r ← fc_read fuel s reg;
  Some ('(fast, s) ← r;
        match fast with
        | Some val => Ret (SBI_SUCCESS, val, s)
        | None =>
            let '(rc, resp, w) := ce_call (cs_w s) RPMI_CPPC_READ_REG [reg; ce_hartid mod 2 ^ 32] 3 in
            Ret (cppc_rpmi_to_sbi rc, reg_pair_to_64 (resp_word resp 2) (resp_word resp 1), s <| cs_w := w |>)
        end).

Definition rpmi_cppc_write (s : cppc_state W) (reg val : Z) : outcome (Z * cppc_state W) :=
  '(done_, s) ← fc_write s reg val;
  if (done_ : bool) then Ret (SBI_SUCCESS, s)
  else
    let '(rc, _, w) := ce_call (cs_w s) RPMI_CPPC_WRITE_REG [reg; ce_hartid mod 2 ^ 32; val mod 2 ^ 32; high32_from_64 val] 1 in
    Ret (cppc_rpmi_to_sbi rc, s <| cs_w := w |>).

(** [rpmi_cppc_drv_probe]: [found] is whether the node leads to a PuC with the
    group, [probed] whether one was probed before; whether the backend is
    registered, and the state. *)
Definition rpmi_cppc_drv_probe (found probed : bool) (s : cppc_state W) : outcome (Z * bool * cppc_state W) :=
  if probed then Ret (0, probed, s)
  else if negb found then Ret (-1, false, s)
  else s ← fc_discover true s; Ret (0, true, s).

(** ** The core: [cppc.c] *)

Definition cppc_available (registered : bool) : bool := registered.
Definition cppc_probe (registered : bool) (s : cppc_state W) (reg : Z) : Z * Z * cppc_state W :=
  if registered then rpmi_cppc_probe s reg else (SBI_ERR_NOT_SUPPORTED, 0, s).
Definition cppc_read (registered : bool) (fuel : nat) (s : cppc_state W) (reg : Z) : option (outcome (Z * Z * cppc_state W)) :=
  if registered then rpmi_cppc_read fuel s reg else Some (Ret (SBI_ERR_NOT_SUPPORTED, 0, s)).
Definition cppc_write (registered : bool) (s : cppc_state W) (reg val : Z) : outcome (Z * cppc_state W) :=
  if registered then rpmi_cppc_write s reg val else Ret (SBI_ERR_NOT_SUPPORTED, s).
End Cppc.


Section CppcProps.
Context {AR : Arch} {KC : Kconfig} {W : Type}.
Implicit Types (s : cppc_state W).

(** The fields of an updated state. *)
Ltac cs_simpl := cbn [field_update cs_w cs_fc cs_harts cs_regions cs_io].

(** Neither the state nor the channels of a hart before the first call. *)
Definition fc_zero : fast_channels := FastChannels FC_UNKNOWN false 0 0 0 0 0.
Definition hart_zero : hart_channels := HartChannels false false 0 0.

(** The driver's states: any hart calls, and the PuC answers each call as it
    likes (every step has an environment of its own). *)
Inductive cppc_reach : cppc_state W -> Prop :=
  | cppc_boot rs w :
      Forall memregion_wf rs -> Z.of_nat (length rs) <= MAX_MEMREGIONS ->
      cppc_reach (CppcState w fc_zero (fun _ => hart_zero) rs [])
  | cppc_driver (CE : CppcEnv W) found probed s res s' :
      cppc_reach s -> rpmi_cppc_drv_probe found probed s = Ret (res, s') -> cppc_reach s'
  | cppc_probes (CE : CppcEnv W) registered reg s :
      cppc_reach s -> cppc_reach (cppc_probe registered s reg).2
  | cppc_reads (CE : CppcEnv W) registered fuel reg s res s' :
      cppc_reach s -> cppc_read registered fuel s reg = Some (Ret (res, s')) -> cppc_reach s'
  | cppc_writes (CE : CppcEnv W) registered reg val s res s' :
      cppc_reach s -> cppc_write registered s reg val = Ret (res, s') -> cppc_reach s'.

(** None of the [n] bytes at [a] is the monitor's. *)
Definition off_monitor (rs : list memregion) (a n : Z) : Prop :=
  forall k x, k <> MEMREGION_SHARED_RW -> a <= x < a + n -> ~ held rs k x.

(** A store inside the fast channels, or of the whole doorbell. *)
Definition offered (f : fast_channels) (a n : Z) : Prop :=
  fc_base f <= a /\ a + n <= fc_base f + fc_size f \/ a = fc_db_addr f /\ n = fc_db_bytes f.

Definition store_ok (f : fast_channels) (rs : list memregion) (w : io) : Prop :=
  off_monitor rs w.1.1 w.1.2 /\ (8 <= fc_size f -> offered f w.1.1 w.1.2).

(** ** The invariant *)

Record fc_geometry (f : fast_channels) : Prop := {
  fg_base : is_ulong (fc_base f);
  fg_size : 0 < fc_size f;
  fg_fits : fc_base f + fc_size f < 2 ^ XLEN;
  fg_db : is_ulong (fc_db_addr f);
  fg_bytes : fc_db_bytes f = 0 \/ fc_db_bytes f = 1 \/ fc_db_bytes f = 2 \/ fc_db_bytes f = 4;
}.

Definition channel_ok (f : fast_channels) (a : Z) : Prop :=
  is_ulong a /\ (8 <= fc_size f -> fc_base f <= a /\ a + 8 <= fc_base f + fc_size f).

Record cppc_inv s : Prop := {
  ci_regions : Forall memregion_wf (cs_regions s);
  ci_few : Z.of_nat (length (cs_regions s)) <= MAX_MEMREGIONS;
  ci_early : fc_st (cs_fc s) = FC_UNKNOWN -> cs_io s = [] /\ forall i, hc_known (cs_harts s i) = false;
  ci_ready : fc_st (cs_fc s) = FC_READY -> fc_geometry (cs_fc s);
  ci_harts : forall i, hc_known (cs_harts s i) = false -> hc_usable (cs_harts s i) = false;
  ci_channels : forall i, hc_usable (cs_harts s i) = true ->
    channel_ok (cs_fc s) (hc_request (cs_harts s i)) /\ channel_ok (cs_fc s) (hc_feedback (cs_harts s i));
  ci_io : Forall (store_ok (cs_fc s) (cs_regions s)) (cs_io s);
}.

Lemma cppc_inv_world s w : cppc_inv s -> cppc_inv (s <| cs_w := w |>).
Proof. by intros []; constructor. Qed.

Lemma cppc_inv_unready s :
  cppc_inv s -> cppc_inv (s <| cs_fc := fc_none (cs_fc s) |>).
Proof. by intros []; constructor. Qed.

Context {CE : CppcEnv W}.

Lemma region_usable_geometry (rs : list memregion) (resp : list Z) :
  Forall memregion_wf rs -> region_usable rs resp = true -> fc_geometry (channels_of resp).
Proof.
  intros Hrs. unfold region_usable, channels_of, addr_from. cbn [fst].
  set (base := wrap (reg_pair_to_64 (resp_word resp 3) _)). set (size := wrap (reg_pair_to_64 (resp_word resp 5) _)).
  set (db := wrap (reg_pair_to_64 (resp_word resp 7) _)). set (bytes := if truth _ then _ else 0).
  rewrite !andb_true_iff. intros [[[[[[[[[_ _] Hp] _] _] _] Hle] _] Hc] _].
  assert (is_ulong base) by apply wrap_range. assert (is_ulong size) as Hsz by apply wrap_range.
  apply IS_POWER_OF_TWO_spec in Hp as (n & Hn & En); [|done].
  assert (0 < size) by (rewrite En; apply pow2_pos; lia).
  apply monitor_range_clear_spec in Hc as [Hf _]; [|done..].
  constructor; cbn [fc_base fc_size fc_db_addr fc_db_bytes]; [done..| |].
  - destruct (truth bytes); [apply wrap_range|split; [done|apply pow2_pos; pose proof XLEN_cases; lia]].
  - apply Z.leb_le in Hle. subst bytes. destruct (truth _); [|auto].
    revert Hle. unfold RPMI_CPPC_FC_DB_WIDTH. change 3 with (2 ^ 2 - 1). rewrite land_low by lia.
    set (m := _ mod 2 ^ 2). assert (0 <= m < 4) as Hm by (apply Z.mod_pos_bound; lia).
    assert (m = 0 \/ m = 1 \/ m = 2 \/ m = 3) as [->|[->|[->| ->]]] by lia; cbn; lia.
Qed.

Lemma fc_discover_inv boot s s' : cppc_inv s -> fc_discover boot s = Ret s' -> cppc_inv s'.
Proof.
  intros Hi. unfold fc_discover.
  destruct (bool_decide_reflect (fc_st (cs_fc s) = FC_UNKNOWN)) as [Hu|]; cbn [negb]; [|by intros [= <-]].
  destruct (ce_call _ _ _ _) as [[rc resp] w].
  assert (cppc_inv (s <| cs_w := w |>)) as Hw by by apply cppc_inv_world.
  destruct (rc_absent rc); [by intros [= <-]|].
  pose proof (cppc_inv_unready _ Hw) as Hn.
  destruct (truth rc); [by intros [= <-]|]. cs_simpl.
  destruct (region_usable (cs_regions s) resp) eqn:Eu; cbn [negb]; [|by intros [= <-]].
  destruct Hi as [Hr Hl He _ Hh _ _]. destruct (He Hu) as [Eio Hk].
  pose proof (region_usable_geometry _ _ Hr Eu) as Hg.
  destruct (if boot then _ else _) as [rs|] eqn:Ea; [|done]. cbn [mbind outcome_bind]. intros [= <-].
  assert (Forall memregion_wf rs /\ Z.of_nat (length rs) <= MAX_MEMREGIONS) as [Hr' Hl'].
  { destruct boot; [|injection Ea as <-; done].
    destruct (memregion_add_inv _ _ _ _ _ _ Hr ltac:(destruct Hg as [[? _] ? ? _ _]; by split_and!) Hl Ea) as (? & ? & _).
    done. }
  constructor; cs_simpl; try done.
  - intros i Hc. by rewrite (Hh i (Hk i)) in Hc.
  - by rewrite Eio.
Qed.

(** ** The channels of a hart *)

Lemma offset_channel f off :
  fc_geometry f -> is_ulong off -> (off <=? fc_size f -! 8) = true -> channel_ok f (fc_base f +! off).
Proof.
  intros [Hb Hs Hf _ _] Ho Hle%Z.leb_le. split; [apply wrap_range|]. intros H8. unfold usub in Hle.
  rewrite wrap_small in Hle by (unfold is_ulong in *; lia).
  unfold uadd. rewrite wrap_small by (unfold is_ulong in *; lia). unfold is_ulong in *; lia.
Qed.

Lemma hart_channels_ok f rc resp :
  fc_geometry f -> hc_usable (hart_channels_of f rc resp) = true ->
  channel_ok f (hc_request (hart_channels_of f rc resp)) /\ channel_ok f (hc_feedback (hart_channels_of f rc resp)).
Proof.
  intros Hg. unfold hart_channels_of, offsets_usable, addr_from. cbn [hc_usable hc_request hc_feedback].
  rewrite !andb_true_iff. intros [[[[[[Hrc Hok] _] _] _] H0] H1].
  apply negb_true_iff in Hrc. rewrite Hrc, Hok. cbn [orb negb].
  split; apply offset_channel; done || apply wrap_range.
Qed.

Lemma fc_hart_inv s chans s' :
  cppc_inv s -> fc_hart s = Ret (chans, s') ->
  cppc_inv s' /\ (fc_st (cs_fc s) <> FC_UNKNOWN -> cs_fc s' = cs_fc s) /\
  forall request feedback, chans = Some (request, feedback) ->
    fc_st (cs_fc s') = FC_READY /\ channel_ok (cs_fc s') request /\ channel_ok (cs_fc s') feedback.
Proof.
  intros Hi. unfold fc_hart.
  destruct (if bool_decide _ then _ else _) as [s1|] eqn:E1; [|done]. cbn [mbind outcome_bind].
  assert (cppc_inv s1 /\ (fc_st (cs_fc s) <> FC_UNKNOWN -> s1 = s)) as [Hi1 Hsame].
  { destruct (bool_decide_reflect (fc_st (cs_fc s) = FC_UNKNOWN)); [|by injection E1 as <-].
    split; [by eapply fc_discover_inv|done]. }
  clear E1. assert (forall x : cppc_state W, cs_fc x = cs_fc s1 -> fc_st (cs_fc s) <> FC_UNKNOWN -> cs_fc x = cs_fc s) as Hfc.
  { intros x Ex Hn. by rewrite Ex, Hsame. }
  destruct (bool_decide_reflect (fc_st (cs_fc s1) = FC_READY)) as [Hr|]; cbn [negb];
    [|intros [= <- <-]; split_and!; by auto].
  assert (forall s2 : cppc_state W, cppc_inv s2 -> cs_fc s2 = cs_fc s1 ->
    Ret (if hc_usable (cs_harts s2 ce_hart) then Some (hc_request (cs_harts s2 ce_hart), hc_feedback (cs_harts s2 ce_hart)) else None, s2)
      = Ret (chans, s') ->
    cppc_inv s' /\ (fc_st (cs_fc s) <> FC_UNKNOWN -> cs_fc s' = cs_fc s) /\
    forall request feedback, chans = Some (request, feedback) ->
      fc_st (cs_fc s') = FC_READY /\ channel_ok (cs_fc s') request /\ channel_ok (cs_fc s') feedback) as Hans.
  { intros s2 H2 E2 [= <- <-]. split_and!; [done|by apply Hfc|]. intros rq fb.
    destruct (hc_usable (cs_harts s2 ce_hart)) eqn:Eh; [|done]. intros [= <- <-].
    rewrite E2. split; [done|]. rewrite <- E2. by apply ci_channels. }
  destruct (hc_known (cs_harts s1 ce_hart)) eqn:Ek; [by apply Hans|].
  destruct (ce_call _ _ _ _) as [[rc resp] w].
  destruct (rc_absent rc); [intros [= <- <-]; split_and!; [by apply cppc_inv_world|by apply Hfc|done]|].
  apply Hans; [|done]. pose proof (ci_ready _ Hi1 Hr) as Hg. destruct Hi1.
  constructor; cs_simpl; try done.
  - intros Hx. congruence.
  - intros i. destruct (i =? ce_hart); [done|auto].
  - intros i. destruct (i =? ce_hart); [by apply hart_channels_ok|auto].
Qed.

(** ** Stores *)

Lemma window_begin_spec s a n x :
  Forall memregion_wf (cs_regions s) -> is_ulong a -> 0 < n < 2 ^ XLEN -> window_begin s a n = Ret x ->
  x = a /\ a + n < 2 ^ XLEN /\ off_monitor (cs_regions s) a n.
Proof.
  intros Hr Ha Hn. unfold window_begin. rewrite (proj2 (truth_true n)) by lia. cbn [andb].
  destruct (monitor_range_clear (cs_regions s) a n) eqn:Ec; [|done]. intros [= <-].
  apply monitor_range_clear_spec in Ec as [? ?]; [done..|unfold is_ulong; lia|lia].
Qed.

Lemma off_monitor_part rs a n b m : off_monitor rs a n -> a <= b -> b + m <= a + n -> off_monitor rs b m.
Proof. intros Ho ? ? k x Hk Hx. apply Ho; [done|lia]. Qed.

Lemma io_write_inv s a n v :
  cppc_inv s -> fc_st (cs_fc s) = FC_READY -> off_monitor (cs_regions s) a n ->
  (8 <= fc_size (cs_fc s) -> offered (cs_fc s) a n) -> cppc_inv (io_write s a n v).
Proof.
  intros [] Hr Ho Hin. constructor; unfold io_write; cs_simpl; try done.
  - congruence.
  - by apply Forall_cons.
Qed.

Lemma fc_ring_inv s s' : cppc_inv s -> fc_st (cs_fc s) = FC_READY -> fc_ring s = Ret s' -> cppc_inv s'.
Proof.
  intros Hi Hr. destruct (ci_ready _ Hi Hr) as [_ _ _ Hdb Hb]. unfold fc_ring.
  destruct (Z.eqb_spec (fc_db_bytes (cs_fc s)) 0); [by intros [= <-]|].
  destruct (window_begin _ _ _) as [db|] eqn:Ew; [|done]. cbn [mbind outcome_bind]. intros [= <-].
  assert (2 ^ 32 <= 2 ^ XLEN) by (apply pow2_le; pose proof XLEN_bounds; lia).
  apply window_begin_spec in Ew as (-> & Hf & Ho); [|by destruct Hi|done|lia].
  assert ((if fc_db_bytes (cs_fc s) =? 1 then 1 else if fc_db_bytes (cs_fc s) =? 2 then 2 else 4) = fc_db_bytes (cs_fc s)) as ->.
  { destruct Hb as [?|[E|[E|E]]]; [done|by rewrite E..]. }
  apply io_write_inv; [done..|]. intros _. by right.
Qed.

(** The words of a channel, as they are written. *)
Lemma channel_word_inv s a word v :
  cppc_inv s -> fc_st (cs_fc s) = FC_READY -> channel_ok (cs_fc s) a -> a + 8 < 2 ^ XLEN ->
  off_monitor (cs_regions s) a 8 -> word = 0 \/ word = 1 -> cppc_inv (io_write s (a +! 4 * word) 4 v).
Proof.
  intros Hi Hr [Ha Hin] Hf Ho Hw. unfold uadd. rewrite wrap_small by (unfold is_ulong in *; lia).
  apply io_write_inv; [done..| |].
  - eapply off_monitor_part; [done|lia..].
  - intros H8. left. specialize (Hin H8). lia.
Qed.

Lemma fc_write_inv s reg val done_ s' : cppc_inv s -> fc_write s reg val = Ret (done_, s') -> cppc_inv s'.
Proof.
  intros Hi. unfold fc_write. destruct (if fc_autonomous _ then _ else _); [by intros [= <- <-]|].
  destruct (0xffffffff <? val); [by intros [= <- <-]|].
  destruct (fc_hart s) as [[chans s1]|] eqn:Eh; [|done]. cbn [mbind outcome_bind].
  destruct (fc_hart_inv _ _ _ Hi Eh) as (Hi1 & _ & Hch). destruct chans as [[rq fb]|]; [|by intros [= <- <-]].
  destruct (Hch _ _ eq_refl) as (Hr & Hok & _). clear Hch Eh Hi.
  destruct (window_begin s1 rq 8) as [x|] eqn:Ew; [|done]. cbn [mbind outcome_bind]. cbv zeta.
  assert (2 ^ 32 <= 2 ^ XLEN) by (apply pow2_le; pose proof XLEN_bounds; lia).
  apply window_begin_spec in Ew as (-> & Hf & Ho); [|by destruct Hi1|by destruct Hok|lia].
  set (s2 := io_write s1 (rq +! 4 * (if reg =? CPPC_REG_MAX_PERF then 1 else 0)) 4 val).
  assert (cppc_inv s2) as Hi2 by (apply channel_word_inv; try done; destruct (reg =? _); auto).
  set (s3 := if fc_autonomous (cs_fc s2) then s2 else io_write s2 (rq +! 4) 4 0).
  assert (cppc_inv s3 /\ fc_st (cs_fc s3) = FC_READY) as [Hi3 Hr3].
  { subst s3. destruct (fc_autonomous (cs_fc s2)); [done|]. split; [|done].
    apply (channel_word_inv s2 rq 1); auto. }
  destruct (fc_ring s3) as [s4|] eqn:Er; [|done]. intros [= <- <-]. by apply (fc_ring_inv s3).
Qed.

Lemma fc_read_inv fuel s reg val s' : cppc_inv s -> fc_read fuel s reg = Some (Ret (val, s')) -> cppc_inv s'.
Proof.
  intros Hi. unfold fc_read. destruct (_ || _); [by intros [= <- <-]|].
  destruct (fc_hart s) as [[chans s1]|] eqn:Eh; [|done].
  destruct (fc_hart_inv _ _ _ Hi Eh) as (Hi1 & _). destruct chans as [[rq fb]|]; [|by intros [= <- <-]].
  destruct (window_begin s1 fb 8); [|done]. destruct (feedback_loop _ _ _) as [[v w]|]; [|done].
  cbn. intros [= <- <-]. by apply cppc_inv_world.
Qed.

(** ** A region the PuC offered at boot *)

Lemma fc_discover_boot s s' :
  cppc_inv s -> fc_st (cs_fc s) = FC_UNKNOWN -> fc_discover true s = Ret s' -> fc_st (cs_fc s') = FC_READY ->
  forall x, fc_base (cs_fc s') <= x < fc_base (cs_fc s') + fc_size (cs_fc s') -> held (cs_regions s') MEMREGION_MMODE_RW x.
Proof.
  intros Hi Hu. unfold fc_discover. rewrite bool_decide_eq_true_2 by done. cbn [negb].
  destruct (ce_call _ _ _ _) as [[rc resp] w]. destruct (rc_absent rc); [intros [= <-]; cs_simpl; congruence|].
  destruct (truth rc); [by intros [= <-]|]. cs_simpl.
  destruct (region_usable (cs_regions s) resp) eqn:Eu; cbn [negb]; [|by intros [= <-]].
  pose proof (region_usable_geometry _ _ (ci_regions _ Hi) Eu) as [[? _] ? ? _ _].
  destruct (memregion_add _ _ _ _ _) as [rs|] eqn:Ea; [|done]. cbn [mbind outcome_bind]. intros [= <-] _. cs_simpl.
  destruct (memregion_add_inv _ _ _ _ _ _ (ci_regions _ Hi) ltac:(by split_and!) (ci_few _ Hi) Ea) as (_ & _ & Hh).
  intros x Hx. apply Hh. by right.
Qed.

Lemma fc_hart_regions s chans s' :
  fc_st (cs_fc s) = FC_READY -> fc_hart s = Ret (chans, s') -> cs_regions s' = cs_regions s.
Proof.
  intros Hr. unfold fc_hart. rewrite bool_decide_eq_false_2 by congruence. cbn [mbind outcome_bind].
  rewrite bool_decide_eq_true_2 by done. cbn [negb].
  destruct (hc_known _); [by intros [= _ <-]|]. destruct (ce_call _ _ _ _) as [[rc resp] w].
  destruct (rc_absent rc); by intros [= _ <-].
Qed.

(** The PuC answers at boot, so the channels are the monitor's alone; then a
    request that is one for them does not return: the window it is written
    through is only ever opened on memory that is not the monitor's.
    [rpmi_cppc.c] documents that the region is "the monitor's alone in that
    case", with the requests written to it. *)
Theorem boot_channels_stop s s1 s2 reg val request feedback :
  cppc_inv s -> fc_st (cs_fc s) = FC_UNKNOWN ->
  fc_discover true s = Ret s1 -> fc_st (cs_fc s1) = FC_READY -> 8 <= fc_size (cs_fc s1) ->
  fc_hart s1 = Ret (Some (request, feedback), s2) ->
  (if fc_autonomous (cs_fc s1) then reg = CPPC_REG_MIN_PERF \/ reg = CPPC_REG_MAX_PERF else reg = CPPC_REG_DESIRED_PERF) ->
  val <= 0xffffffff ->
  rpmi_cppc_write s1 reg val = Panic.
Proof.
  intros Hi Hu Ed Hr H8 Eh Hreg Hval. pose proof (fc_discover_boot _ _ Hi Hu Ed Hr) as Hheld.
  pose proof (fc_discover_inv _ _ _ Hi Ed) as Hi1.
  destruct (fc_hart_inv _ _ _ Hi1 Eh) as (Hi2 & Hfc & Hch). destruct (Hch _ _ eq_refl) as (_ & [Ha Hin] & _).
  rewrite Hfc in Hin by congruence. specialize (Hin H8).
  unfold rpmi_cppc_write, fc_write.
  destruct (if fc_autonomous _ then _ else _) eqn:Eg.
  { destruct (fc_autonomous _); [destruct Hreg as [->| ->]|rewrite Hreg in Eg]; done. }
  rewrite (proj2 (Z.ltb_ge _ _)) by lia. rewrite Eh. cbn [mbind outcome_bind].
  destruct (window_begin s2 request 8) as [x|] eqn:Ew; [|done]. exfalso.
  assert (2 ^ 32 <= 2 ^ XLEN) by (apply pow2_le; pose proof XLEN_bounds; lia).
  apply window_begin_spec in Ew as (_ & _ & Ho); [|by destruct Hi2|done|lia].
  apply (Ho MEMREGION_MMODE_RW request); [done|lia|].
  rewrite (fc_hart_regions s1 _ s2) by done. apply Hheld. lia.
Qed.

End CppcProps.

Section CppcConfined.
Context {AR : Arch} {KC : Kconfig} {W : Type}.

Lemma cppc_reach_inv (s : cppc_state W) : cppc_reach s -> cppc_inv s.
Proof.
  induction 1 as [rs w Hr Hl|CE found probed s res s' _ IH E|CE registered reg s _ IH
    |CE registered fuel reg s res s' _ IH E|CE registered reg val s res s' _ IH E].
  - by constructor.
  - revert E. unfold rpmi_cppc_drv_probe. destruct probed; [by intros [= _ <-]|].
    destruct found; cbn [negb]; [|by intros [= _ <-]].
    destruct (fc_discover true s) as [s1|] eqn:Ed; [|done]. intros [= _ <-]. by eapply fc_discover_inv.
  - unfold cppc_probe, rpmi_cppc_probe. destruct registered; [|done].
    destruct (ce_call _ _ _ _) as [[rc resp] w]. by apply cppc_inv_world.
  - revert E. unfold cppc_read, rpmi_cppc_read. destruct registered; [|by intros [= _ <-]].
    destruct (fc_read fuel s reg) as [[[fast s1]|]|] eqn:Er; [|done..]. cbn [mbind option_bind outcome_bind].
    pose proof (fc_read_inv _ _ _ _ _ IH Er) as Hi1. destruct fast; [by intros [= _ <-]|].
    destruct (ce_call _ _ _ _) as [[rc resp] w]. intros [= _ <-]. by apply cppc_inv_world.
  - revert E. unfold cppc_write, rpmi_cppc_write. destruct registered; [|by intros [= _ <-]].
    destruct (fc_write s reg val) as [[d s1]|] eqn:Ew; [|done]. cbn [mbind outcome_bind].
    pose proof (fc_write_inv _ _ _ _ _ IH Ew) as Hi1. destruct d; [by intros [= _ <-]|].
    destruct (ce_call _ _ _ _) as [[rc resp] w]. intros [= _ <-]. by apply cppc_inv_world.
Qed.

(** C18: Whatever the PuC answers, in whatever order harts probe, read and write
    CPPC registers, every store of the driver is off the memory that is the
    monitor's, and, once the region of the fast channels has the 8 bytes of
    one, inside that region or the whole of the doorbell the PuC named. *)
Theorem cppc_stores_confined (s : cppc_state W) (a n v : Z) :
  cppc_reach s -> (a, n, v) ∈ cs_io s ->
  off_monitor (cs_regions s) a n /\ (8 <= fc_size (cs_fc s) -> offered (cs_fc s) a n).
Proof.
  intros Hr Hin. pose proof (ci_io _ (cppc_reach_inv s Hr)) as Hio.
  rewrite Forall_forall in Hio. exact (Hio _ Hin).
Qed.
End CppcConfined.


Module FastChannels.
#[local] Instance rv64 : Arch := RV64.
#[local] Instance virt : Kconfig := qemu_virt.

(** Fast channels of [size] bytes at 0x90000000, with the doorbell at
    0xa0000000 (32 bits); the channels of a hart at [off] and [off + 8].
    The state says whether the PuC answers by now. *)
Definition puc (size off : Z) : CppcEnv bool := {|
  ce_call there service req n :=
    if negb there then (RPMI_ERR_TIMEOUT, [], there)
    else if service =? RPMI_CPPC_GET_FAST_CHANNEL_REGION
    then (RPMI_SUCCESS, [0; 5; 0x90000000; 0; size; 0; 0xa0000000; 0; 0x55], there)
    else if service =? RPMI_CPPC_GET_FAST_CHANNEL_OFFSET then (RPMI_SUCCESS, [0; off; 0; off + 8; 0], there)
    else (RPMI_SUCCESS, [0; 0; 0], there);
  ce_read32 there _ := (0, there);
  ce_hart := 1;
  ce_hartid := 1;
  ce_image := 0x80000000;
  ce_feedback := true;
|}.

Definition image : list memregion := [Memregion 0x80000000 0x200000 MEMREGION_MMODE_RW].
Definition start (there : bool) : cppc_state bool := CppcState there fc_zero (fun _ => hart_zero) image [].

Lemma start_reach there : cppc_reach (start there).
Proof. apply cppc_boot; [|done]. apply Forall_singleton. done. Qed.

(** A PuC that was not there at boot: the driver asks again, and writes. *)
#[local] Instance late : CppcEnv bool := puc 4096 16.
Definition ran (m : outcome (Z * cppc_state bool)) : cppc_state bool :=
  match m with Ret (_, s) => s | Panic => start false end.
Definition written : cppc_state bool := ran (cppc_write true (start true) CPPC_REG_DESIRED_PERF 77).

Lemma written_reach : cppc_reach written.
Proof. apply (cppc_writes late true CPPC_REG_DESIRED_PERF 77 (start true) 0); [apply start_reach|]. reflexivity. Qed.

Example written_io :
  cs_io written = [(0xa0000000, 4, 0x55); (0x90000014, 4, 0); (0x90000010, 4, 77)].
Proof. reflexivity. Qed.

Lemma cppc_stores_confined_witness :
  cppc_reach written /\ (0x90000010, 4, 77) ∈ cs_io written /\
  off_monitor (cs_regions written) 0x90000010 4 /\
  (8 <= fc_size (cs_fc written) -> offered (cs_fc written) 0x90000010 4).
Proof.
  assert ((0x90000010, 4, 77) ∈ cs_io written) as Hin.
  { rewrite written_io. apply list_elem_of_further, list_elem_of_further, list_elem_of_here. }
  split; [exact written_reach|]. split; [exact Hin|].
  exact (cppc_stores_confined written 0x90000010 4 77 written_reach Hin).
Defined.

(** The same PuC answering at boot: the probe is fine, the first request is
    a panic. *)
Definition booted : cppc_state bool :=
  match rpmi_cppc_drv_probe true false (start true) with Ret (_, s) => s | Panic => start false end.

Definition asked : cppc_state bool := match fc_hart booted with Ret (_, s) => s | Panic => booted end.

Lemma boot_channels_stop_witness :
  rpmi_cppc_drv_probe true false (start true) = Ret (0, true, booted) /\
  fc_st (cs_fc booted) = FC_READY /\ rpmi_cppc_write booted CPPC_REG_DESIRED_PERF 77 = Panic.
Proof.
  split; [reflexivity|]. split; [reflexivity|].
  refine (boot_channels_stop (start true) booted asked CPPC_REG_DESIRED_PERF 77 0x90000010 0x90000018
    (cppc_reach_inv _ (start_reach true)) eq_refl eq_refl eq_refl _ eq_refl eq_refl _);
    vm_compute; discriminate.
Defined.
(** A region of 4 bytes: the size less 8 wraps, and any offset will do. *)
Definition tiny : CppcEnv bool := puc 4 0x20000000.
Definition strayed : cppc_state bool := ran (cppc_write (CE := tiny) true (start true) CPPC_REG_DESIRED_PERF 77).

(** A request written 512 MB behind the 4 bytes the PuC offered: the bound
    on a hart's offsets, [fc.size - 8], is not one for a region of 1, 2 or 4
    bytes, which the checks on the region let pass. *)
Theorem small_region_unconfined :
  cppc_reach strayed /\ fc_base (cs_fc strayed) = 0x90000000 /\ fc_size (cs_fc strayed) = 4 /\ (0xb0000000, 4, 77) ∈ cs_io strayed.
Proof.
  split; [|split; [reflexivity|split; [reflexivity|]]].
  - apply (cppc_writes tiny true CPPC_REG_DESIRED_PERF 77 (start true) 0); [apply start_reach|]. reflexivity.
  - assert (cs_io strayed = [(0xa0000000, 4, 0x55); (0xb0000004, 4, 0); (0xb0000000, 4, 77)]) as -> by reflexivity.
    apply list_elem_of_further, list_elem_of_further, list_elem_of_here.
Qed.
End FastChannels.
