(* ===== verification/Mpxy.v ===== *)
(** The MPXY core, [services/mpxy/mpxy.c]: the shared memory of a hart, the
    list of channels, the standard attributes and the calls.

    The message protocol behind a channel ([struct mpxy_channel_ops]) is an
    interface ([MpxyOps]); the check of an address for the running domain is
    [smode_range_ok] of [Domain], by the domain's key.  S-mode's memory is
    bytes by address.  What another hart writes into it during a call can
    not be told from what was there before: each word is read once. *)

From stdpp Require Import functions.
From S2P Require Import Prelude Arch.

#[local] Open Scope Z_scope.

Definition MPXY_SHMEM_SIZE : Z := 4096.
Definition MPXY_ATTR_MSG_PROT_ID : Z := 0x0.
Definition MPXY_ATTR_MSG_PROT_VERSION : Z := 0x1.
Definition MPXY_ATTR_MSG_DATA_MAX_LEN : Z := 0x2.
Definition MPXY_ATTR_MSG_SEND_TIMEOUT : Z := 0x3.
Definition MPXY_ATTR_MSG_COMPLETION_TIMEOUT : Z := 0x4.
Definition MPXY_ATTR_CHANNEL_CAPABILITY : Z := 0x5.
Definition MPXY_ATTR_SSE_EVENT_ID : Z := 0x6.
Definition MPXY_ATTR_MSI_CONTROL : Z := 0x7.
Definition MPXY_ATTR_MSI_ADDR_LOW : Z := 0x8.
Definition MPXY_ATTR_MSI_ADDR_HIGH : Z := 0x9.
Definition MPXY_ATTR_MSI_DATA : Z := 0xa.
Definition MPXY_ATTR_EVENTS_STATE_CONTROL : Z := 0xb.
Definition MPXY_ATTR_STD_COUNT : Z := 0xc.
Definition MPXY_ATTR_MSG_PROT_START : Z := 0x80000000.

Definition MPXY_CAP_MSI : Z := 2 ^ 0.
Definition MPXY_CAP_SSE : Z := 2 ^ 1.
Definition MPXY_CAP_EVENTS_STATE : Z := 2 ^ 2.
Definition MPXY_CAP_SEND_WITH_RESP : Z := 2 ^ 3.
Definition MPXY_CAP_SEND_WITHOUT_RESP : Z := 2 ^ 4.
Definition MPXY_CAP_GET_NOTIFICATIONS : Z := 2 ^ 5.

Definition MPXY_OWNER_ANY : Z := 0.

(** [struct mpxy_channel], but its functions *)
Record mpxy_channel : Set := MpxyChannel {
  ch_id : Z;
  ch_msg_prot_id : Z;
  ch_msg_prot_version : Z;
  ch_msg_data_max_len : Z;
  ch_send_timeout_us : Z;
  ch_completion_timeout_us : Z;
  ch_capability : Z;
  ch_events_state_control : Z;
  ch_msi_control : Z;
  ch_msi_addr_low : Z;
  ch_msi_addr_high : Z;
  ch_msi_data : Z;
  ch_sse_event_id : Z;
  ch_msi_domain : Z;
  ch_owner : Z;
  ch_events_due : bool;
}.
#[export] Instance mpxy_channel_eta : Settable mpxy_channel := fun c =>
  MpxyChannel (ch_id c) (ch_msg_prot_id c) (ch_msg_prot_version c) (ch_msg_data_max_len c) (ch_send_timeout_us c)
    (ch_completion_timeout_us c) (ch_capability c) (ch_events_state_control c) (ch_msi_control c) (ch_msi_addr_low c)
    (ch_msi_addr_high c) (ch_msi_data c) (ch_sse_event_id c) (ch_msi_domain c) (ch_owner c) (ch_events_due c).

(** [struct mpxy_events] *)
Record mpxy_events : Set := MpxyEvents { ev_returned : Z; ev_remaining : Z; ev_lost : Z; ev_bytes : Z }.

(** [struct mpxy_channel_ops]: the protocols, over a state of theirs.  A
    message is bytes, and so is what the function leaves in the buffer.  A
    message or a poll may make events due ([mpxy_channel_events_due]), of any
    channel: that of the domain a message is forwarded to, or of another group
    of the same PuC.  The ids of those channels are returned with the rest. *)
Class MpxyOps (St : Type) := {
  op_read_attr : mpxy_channel -> option (St -> Z -> Z * Z * St);
  op_write_attr : mpxy_channel -> option (St -> Z -> Z -> Z * St);
  op_send : mpxy_channel -> St -> Z -> list Z -> Z -> bool -> Z * list Z * Z * list Z * St;
  op_get_events : mpxy_channel -> St -> Z -> Z * list Z * mpxy_events * list Z * St;
}.

Class MpxyConfig := {
  CONFIG_MPXY_MSG_MAX_LEN : Z;
  (* "range 64 4096" *)
  config_msg_max_len : 64 <= CONFIG_MPXY_MSG_MAX_LEN <= 4096;
}.

(** ** S-mode's memory *)

Definition bytes_mem : Type := Z -> Z.

(** Little-endian numbers of [n] bytes *)
Fixpoint load_le (m : bytes_mem) (a : Z) (n : nat) : Z :=
  match n with O => 0 | S n => m a mod 2 ^ 8 + 2 ^ 8 * load_le m (a + 1) n end.
Fixpoint store_le (m : bytes_mem) (a : Z) (n : nat) (v : Z) : bytes_mem :=
  match n with O => m | S n => store_le (<[a := v mod 2 ^ 8]> m) (a + 1) n (v / 2 ^ 8) end.
Definition bytes_at (m : bytes_mem) (a : Z) (n : nat) : list Z := (fun i => m (a + Z.of_nat i)) <$> seq 0 n.
Fixpoint set_bytes (m : bytes_mem) (a : Z) (bs : list Z) : bytes_mem :=
  match bs with [] => m | b :: bs => set_bytes (<[a := b]> m) (a + 1) bs end.

(** [mem[i]] of a [uint32_t *mem] *)
Definition word_at (m : bytes_mem) (mem i : Z) : Z := load_le m (mem + 4 * i) 4.
Definition set_word (m : bytes_mem) (mem i v : Z) : bytes_mem := store_le m (mem + 4 * i) 4 v.

Record mpxy (St : Type) : Type := Mpxy {
  mx_channels : list mpxy_channel;
  mx_shmem : Z -> Z;               (* by hart index *)
  mx_nr_sse_events : Z;
  mx_indications_due : bool;
  mx_mem : bytes_mem;
  mx_ops : St;
}.
Arguments Mpxy {St}.
Arguments mx_channels {St}.
Arguments mx_shmem {St}.
Arguments mx_nr_sse_events {St}.
Arguments mx_indications_due {St}.
Arguments mx_mem {St}.
Arguments mx_ops {St}.
#[export] Instance mpxy_eta (St : Type) : Settable (mpxy St) := fun s =>
  Mpxy (mx_channels s) (mx_shmem s) (mx_nr_sse_events s) (mx_indications_due s) (mx_mem s) (mx_ops s).

Section Mpxy.
Context {AR : Arch} {KC : Kconfig} {MX : MpxyConfig} {St : Type} {OPS : MpxyOps St}.

Definition shmem_none : Z := unot 0.
Definition BOUNCE_SIZE : Z := ROUNDUP2 CONFIG_MPXY_MSG_MAX_LEN 8.
Definition mpxy_sse_event (n : Z) : Z := 0x0010c000 + n.

Definition mpxy_hart_init (s : mpxy St) (self : Z) : mpxy St := s <| mx_shmem := <[self := shmem_none]> (mx_shmem s) |>.

(** ** Channels *)

(** The place in the list, sorted by id; [None] where the id is taken *)
Fixpoint channel_insert (ch : mpxy_channel) (l : list mpxy_channel) : option (list mpxy_channel) :=
  match l with
  | [] => Some [ch]
  | c :: l' =>
      if ch_id c <=? ch_id ch
      then if ch_id c =? ch_id ch then None else (fun l => c :: l) <$> channel_insert ch l'
      else Some (ch :: l)
  end.

(** The capabilities a channel is given, and its event, of the next free one *)
Definition channel_events (ch : mpxy_channel) (nr : Z) : mpxy_channel * Z :=
  if truth (Z.land (ch_capability ch) MPXY_CAP_GET_NOTIFICATIONS) then
    let ch := ch <| ch_capability := Z.lor (ch_capability ch) MPXY_CAP_MSI |> in
    if nr <? CONFIG_MPXY_SSE_EVENTS
    then (ch <| ch_sse_event_id := mpxy_sse_event nr |> <| ch_capability := Z.lor (ch_capability ch) MPXY_CAP_SSE |>, nr + 1)
    else (ch, nr)
  else (ch, nr).

Definition mpxy_channel_register (s : mpxy St) (ch : mpxy_channel) : Z * mpxy St :=
  let '(ch', nr) := channel_events ch (mx_nr_sse_events s) in
  let ch' := ch' <| ch_msg_data_max_len := Z.min (ch_msg_data_max_len ch) CONFIG_MPXY_MSG_MAX_LEN |> in
  match channel_insert ch' (mx_channels s) with
  | None => (SBI_ERR_ALREADY_AVAILABLE, s)
  | Some l => (SBI_SUCCESS, s <| mx_channels := l |> <| mx_nr_sse_events := nr |>)
  end.

(** [mpxy_channel_owner_from_fdt]: the phandle of "riscv,domain", 0 without;
    the domain's index by its phandle; [None] for a domain that is not there *)
Definition mpxy_channel_owner_from_fdt (domain_by_phandle : Z -> option Z) (phandle : Z) : option Z :=
  if truth phandle then (fun index => index + 1) <$> domain_by_phandle phandle else Some MPXY_OWNER_ANY.

Definition mpxy_channel_count (s : mpxy St) : Z := Z.of_nat (length (mx_channels s)).

(** The fields of the channel of that id change *)
Definition channel_update (s : mpxy St) (id : Z) (f : mpxy_channel -> mpxy_channel) : mpxy St :=
  s <| mx_channels := (fun c => if ch_id c =? id then f c else c) <$> mx_channels s |>.

Definition mpxy_channel_events_due (s : mpxy St) (ch : mpxy_channel) : mpxy St :=
  if negb (truth (Z.land (ch_capability ch) (Z.lor MPXY_CAP_MSI MPXY_CAP_SSE))) then s
  else (channel_update s (ch_id ch) (fun c => c <| ch_events_due := true |>)) <| mx_indications_due := true |>.

(** The events a protocol makes due, in order *)
Definition due_one (s : mpxy St) (id : Z) : mpxy St :=
  match List.find (fun c => ch_id c =? id) (mx_channels s) with
  | Some ch => mpxy_channel_events_due s ch
  | None => s
  end.
Definition protocol_due (s : mpxy St) (due : list Z) : mpxy St := foldl due_one s due.

(** [mpxy_indicate]: the words written to S-mode's memory, and the events
    raised for a domain *)
Inductive indication : Set := Poke (addr val : Z) | RaiseGlobal (event key : Z).

Definition msi_addr (ch : mpxy_channel) : Z := reg_pair_to_64 (ch_msi_addr_high ch) (ch_msi_addr_low ch).
Definition channel_indications (keys : nat) (ch : mpxy_channel) : list indication :=
  if negb (ch_events_due ch) then []
  else if truth (ch_msi_control ch) then [Poke (wrap (msi_addr ch)) (ch_msi_data ch)]
  else if truth (Z.land (ch_capability ch) MPXY_CAP_SSE) then
    (fun key => RaiseGlobal (ch_sse_event_id ch) (Z.of_nat key)) <$>
      filter (fun key => ch_owner ch = MPXY_OWNER_ANY \/ ch_owner ch = Z.of_nat key + 1) (seq 0 keys)
  else [].
Definition mpxy_indicate (s : mpxy St) (keys : nat) : list indication * mpxy St :=
  if negb (mx_indications_due s) then ([], s)
  else (mx_channels s ≫= channel_indications keys,
        s <| mx_indications_due := false |> <| mx_channels := (fun c => c <| ch_events_due := false |>) <$> mx_channels s |>).

(** ** The calls, by a hart of the domain [key] *)

Section Call.
Context (smode_range_ok : Z -> Z -> Z -> bool) (self key : Z).

Definition channel_visible (ch : mpxy_channel) : bool := (ch_owner ch =? MPXY_OWNER_ANY) || (ch_owner ch =? key + 1).

Definition channel_find (s : mpxy St) (id : Z) : option mpxy_channel :=
  match List.find (fun c => ch_id c =? id) (mx_channels s) with
  | Some c => if channel_visible c then Some c else None
  | None => None
  end.

(** The channel a call names *)
Definition channel_of (s : mpxy St) (channel_id : Z) : option mpxy_channel :=
  if 0xffffffff <? channel_id then None else channel_find s channel_id.

Definition this_shmem (s : mpxy St) : option Z := if mx_shmem s self =? shmem_none then None else Some (mx_shmem s self).

(** [mpxy_shmem_access]: the window on S-mode's memory to open
    ([smode_access_begin]) or to close, if any *)
Inductive window : Set := WindowBegin (addr size : Z) | WindowEnd.
Definition mpxy_shmem_access (s : mpxy St) (begin : bool) : option window :=
  if mx_shmem s self =? shmem_none then None
  else if begin then Some (WindowBegin (mx_shmem s self) MPXY_SHMEM_SIZE) else Some WindowEnd.

Definition mpxy_set_shmem (s : mpxy St) (lo hi flags : Z) : Z * mpxy St :=
  let old := mx_shmem s self in
  if 1 <? flags then (SBI_ERR_INVALID_PARAM, s)
  else if (lo =? unot 0) && (hi =? unot 0) then (SBI_SUCCESS, s <| mx_shmem := <[self := shmem_none]> (mx_shmem s) |>)
  else if negb (IS_ALIGNED lo MPXY_SHMEM_SIZE) then (SBI_ERR_INVALID_PARAM, s)
  else if truth hi || negb (smode_range_ok key lo MPXY_SHMEM_SIZE) then (SBI_ERR_INVALID_ADDRESS, s)
  else
    let s := s <| mx_shmem := <[self := lo]> (mx_shmem s) |> in
    let long := Z.to_nat REGBYTES in
    if truth (Z.land flags 1) then
      let m := store_le (mx_mem s) lo long old in
      let m := store_le m (lo + REGBYTES) long (if old =? shmem_none then unot 0 else 0) in
      (SBI_SUCCESS, s <| mx_mem := m |>)
    else (SBI_SUCCESS, s).

(** The ids from [start_index] on, as many as the memory takes *)
Definition ids_max : Z := MPXY_SHMEM_SIZE / 4 - 2.
Fixpoint ids_loop (l : list mpxy_channel) (mem start i n : Z) (m : bytes_mem) : Z * bytes_mem :=
  match l with
  | [] => (n, m)
  | ch :: l =>
      if negb (channel_visible ch) then ids_loop l mem start i n m
      else if (start <=? i) && (n <? ids_max)
      then ids_loop l mem start (i + 1) (n + 1) (set_word m mem (2 + n) (ch_id ch))
      else ids_loop l mem start (i + 1) n m
  end.
Definition mpxy_get_channel_ids (s : mpxy St) (start_index : Z) : Z * mpxy St :=
  match this_shmem s with
  | None => (SBI_ERR_NO_SHMEM, s)
  | Some mem =>
      let visible := Z.of_nat (length (filter (fun ch => channel_visible ch = true) (mx_channels s))) in
      if (visible <? start_index) || truth start_index && (start_index =? visible) then (SBI_ERR_INVALID_PARAM, s)
      else
        let '(n, m) := ids_loop (mx_channels s) mem start_index 0 0 (mx_mem s) in
        let m := set_word m mem 0 (low32 (visible - start_index - n)) in
        let m := set_word m mem 1 (low32 n) in
        (SBI_SUCCESS, s <| mx_mem := m |>)
  end.

(** ** Attributes *)

Definition std_attr_read (ch : mpxy_channel) (id : Z) : Z :=
  if id =? MPXY_ATTR_MSG_PROT_ID then ch_msg_prot_id ch
  else if id =? MPXY_ATTR_MSG_PROT_VERSION then ch_msg_prot_version ch
  else if id =? MPXY_ATTR_MSG_DATA_MAX_LEN then ch_msg_data_max_len ch
  else if id =? MPXY_ATTR_MSG_SEND_TIMEOUT then ch_send_timeout_us ch
  else if id =? MPXY_ATTR_MSG_COMPLETION_TIMEOUT then ch_completion_timeout_us ch
  else if id =? MPXY_ATTR_CHANNEL_CAPABILITY then ch_capability ch
  else if id =? MPXY_ATTR_EVENTS_STATE_CONTROL then ch_events_state_control ch
  else if id =? MPXY_ATTR_SSE_EVENT_ID then ch_sse_event_id ch
  else if id =? MPXY_ATTR_MSI_CONTROL then ch_msi_control ch
  else if id =? MPXY_ATTR_MSI_ADDR_LOW then ch_msi_addr_low ch
  else if id =? MPXY_ATTR_MSI_ADDR_HIGH then ch_msi_addr_high ch
  else if id =? MPXY_ATTR_MSI_DATA then ch_msi_data ch
  else 0.

Definition std_attr_write (ch : mpxy_channel) (id val : Z) : Z * mpxy_channel :=
  let msi := truth (Z.land (ch_capability ch) MPXY_CAP_MSI) in
  if id =? MPXY_ATTR_MSI_CONTROL then
    if 1 <? val then (SBI_ERR_INVALID_PARAM, ch) else (SBI_SUCCESS, ch <| ch_msi_control := if msi then val else 0 |>)
  else if id =? MPXY_ATTR_MSI_ADDR_LOW then (SBI_SUCCESS, ch <| ch_msi_addr_low := if msi then val else 0 |>)
  else if id =? MPXY_ATTR_MSI_ADDR_HIGH then (SBI_SUCCESS, ch <| ch_msi_addr_high := if msi then val else 0 |>)
  else if id =? MPXY_ATTR_MSI_DATA then (SBI_SUCCESS, ch <| ch_msi_data := if msi then val else 0 |>)
  else if id =? MPXY_ATTR_EVENTS_STATE_CONTROL then
    if 1 <? val then (SBI_ERR_INVALID_PARAM, ch)
    else if truth (Z.land (ch_capability ch) MPXY_CAP_EVENTS_STATE)
    then (SBI_SUCCESS, ch <| ch_events_state_control := val |>)
    else (SBI_SUCCESS, ch)
  else (SBI_ERR_BAD_RANGE, ch).

Definition msi_target_ok (ch : mpxy_channel) : bool :=
  let addr := msi_addr ch in
  negb (truth (ch_msi_control ch)) ||
  (Z.land addr 3 =? 0) && (addr =? wrap addr) && smode_range_ok key (wrap addr) 4.

(** The channel, and is it the message protocol's range? *)
Definition attr_range_check (s : mpxy St) (channel_id base count : Z) : Z + mpxy_channel * bool :=
  match channel_of s channel_id with
  | None => inl SBI_ERR_NOT_SUPPORTED
  | Some ch =>
      if negb (truth count) || (MPXY_SHMEM_SIZE / 4 <? count) || (0xffffffff <? base) then inl SBI_ERR_INVALID_PARAM
      else
        let prot := MPXY_ATTR_MSG_PROT_START <=? base in
        if (if prot then 0x100000000 - base <? count else MPXY_ATTR_STD_COUNT <? base +! count)
        then inl SBI_ERR_BAD_RANGE
        else inr (ch, prot)
  end.

(** The loops over the attributes [base + i], [i] from [i0] on *)
Fixpoint read_loop (n : nat) (ch : mpxy_channel) (prot : bool) (mem base i : Z) (s : mpxy St) : Z * mpxy St :=
  match n with
  | O => (SBI_SUCCESS, s)
  | S n =>
      let id := low32 (base + i) in
      let store val s := s <| mx_mem := set_word (mx_mem s) mem i val |> in
      if negb prot then read_loop n ch prot mem base (i + 1) (store (std_attr_read ch id) s)
      else
        match op_read_attr ch with
        | None => (SBI_ERR_BAD_RANGE, s)
        | Some read_attr =>
            let '(rc, val, o) := read_attr (mx_ops s) id in
            let s := s <| mx_ops := o |> in
            if truth rc then (rc, s) else read_loop n ch prot mem base (i + 1) (store val s)
        end
  end.
Definition mpxy_read_attributes (s : mpxy St) (channel_id base count : Z) : Z * mpxy St :=
  match this_shmem s with
  | None => (SBI_ERR_NO_SHMEM, s)
  | Some mem =>
      match attr_range_check s channel_id base count with
      | inl rc => (rc, s)
      | inr (ch, prot) => read_loop (Z.to_nat count) ch prot mem base 0 s
      end
  end.

Fixpoint prot_write_loop (n : nat) (ch : mpxy_channel) (mem base i : Z) (s : mpxy St) : Z * mpxy St :=
  match n with
  | O => (SBI_SUCCESS, s)
  | S n =>
      match op_write_attr ch with
      | None => (SBI_ERR_BAD_RANGE, s)
      | Some write_attr =>
          let '(rc, o) := write_attr (mx_ops s) (low32 (base + i)) (word_at (mx_mem s) mem i) in
          let s := s <| mx_ops := o |> in
          if truth rc then (rc, s) else prot_write_loop n ch mem base (i + 1) s
      end
  end.
Fixpoint stage_loop (n : nat) (staged : mpxy_channel) (m : bytes_mem) (mem base i : Z) : Z * mpxy_channel :=
  match n with
  | O => (SBI_SUCCESS, staged)
  | S n =>
      let '(rc, staged) := std_attr_write staged (low32 (base + i)) (word_at m mem i) in
      if truth rc then (rc, staged) else stage_loop n staged m mem base (i + 1)
  end.
(** What goes from the staged copy to the channel: the stores, in order, with
    the MSI off until the last but one.  No lock is held; another hart can be
    in [mpxy_indicate] between any two of them ([mpxy_step]). *)
Definition commit_stores (staged : mpxy_channel) : list (mpxy_channel -> mpxy_channel) := [
  (fun c => c <| ch_msi_control := 0 |>);
  (fun c => c <| ch_msi_addr_low := ch_msi_addr_low staged |>);
  (fun c => c <| ch_msi_addr_high := ch_msi_addr_high staged |>);
  (fun c => c <| ch_msi_data := ch_msi_data staged |>);
  (fun c => c <| ch_msi_domain := key |>);
  (fun c => c <| ch_msi_control := ch_msi_control staged |>);
  (fun c => c <| ch_events_state_control := ch_events_state_control staged |>)].
Definition stage_commit (staged ch : mpxy_channel) : mpxy_channel := foldl (fun c f => f c) ch (commit_stores staged).

(** Up to the stores: the result, or the channel and the checked copy of it *)
Definition stage_attributes (s : mpxy St) (channel_id base count : Z) : Z * mpxy St + mpxy_channel * mpxy_channel :=
  match this_shmem s with
  | None => inl (SBI_ERR_NO_SHMEM, s)
  | Some mem =>
      match attr_range_check s channel_id base count with
      | inl rc => inl (rc, s)
      | inr (ch, true) => inl (prot_write_loop (Z.to_nat count) ch mem base 0 s)
      | inr (ch, false) =>
          let '(rc, staged) := stage_loop (Z.to_nat count) ch (mx_mem s) mem base 0 in
          if truth rc then inl (rc, s)
          else if negb (msi_target_ok staged) then inl (SBI_ERR_INVALID_PARAM, s)
          else inr (ch, staged)
      end
  end.
Definition mpxy_write_attributes (s : mpxy St) (channel_id base count : Z) : Z * mpxy St :=
  match stage_attributes s channel_id base count with
  | inl r => r
  | inr (ch, staged) => (SBI_SUCCESS, channel_update s (ch_id ch) (stage_commit staged))
  end.

(** ** Messages *)

(** [want_resp]: the caller has a [resp_len]; the result with it *)
Definition mpxy_send_message (s : mpxy St) (channel_id msg_id len : Z) (want_resp : bool) : Z * Z * mpxy St :=
  match this_shmem s with
  | None => (SBI_ERR_NO_SHMEM, 0, s)
  | Some mem =>
      let want := if want_resp then MPXY_CAP_SEND_WITH_RESP else MPXY_CAP_SEND_WITHOUT_RESP in
      match channel_of s channel_id with
      | None => (SBI_ERR_NOT_SUPPORTED, 0, s)
      | Some ch =>
          if negb (truth (Z.land (ch_capability ch) want)) || (0xffffffff <? msg_id) then (SBI_ERR_NOT_SUPPORTED, 0, s)
          else if (ch_msg_data_max_len ch <? len) || (MPXY_SHMEM_SIZE <? len) then (SBI_ERR_INVALID_PARAM, 0, s)
          else
            let msg := bytes_at (mx_mem s) mem (Z.to_nat len) in
            let '(rc, buf, resp_len, due, o) := op_send ch (mx_ops s) msg_id msg BOUNCE_SIZE want_resp in
            let s := protocol_due (s <| mx_ops := o |>) due in
            if negb (truth rc) && want_resp then
              if BOUNCE_SIZE <? resp_len then (SBI_ERR_FAILED, resp_len, s)
              else
                let resp := (fun i => default 0 (buf !! i)) <$> seq 0 (Z.to_nat resp_len) in
                (rc, resp_len, s <| mx_mem := set_bytes (mx_mem s) mem resp |>)
            else (rc, resp_len, s)
      end
  end.

(** The protocol writes the events into the memory itself, at most the size
    it is given. *)
Definition mpxy_get_notifications (s : mpxy St) (channel_id : Z) : Z * Z * mpxy St :=
  let hdr := 16 in
  match this_shmem s with
  | None => (SBI_ERR_NO_SHMEM, 0, s)
  | Some mem =>
      match channel_of s channel_id with
      | None => (SBI_ERR_NOT_SUPPORTED, 0, s)
      | Some ch =>
          if negb (truth (Z.land (ch_capability ch) MPXY_CAP_GET_NOTIFICATIONS)) then (SBI_ERR_NOT_SUPPORTED, 0, s)
          else
            let '(rc, buf, ev, due, o) := op_get_events ch (mx_ops s) (MPXY_SHMEM_SIZE - hdr) in
            let m := set_bytes (mx_mem s) (mem + hdr) (take (Z.to_nat (MPXY_SHMEM_SIZE - hdr)) buf) in
            let s := protocol_due (s <| mx_ops := o |> <| mx_mem := m |>) due in
            if truth rc then (rc, 0, s)
            else
              let m := if truth (ch_events_state_control ch)
                then set_word (set_word (set_word (set_word m mem 0 (ev_remaining ev)) mem 1 (ev_returned ev)) mem 2 (ev_lost ev)) mem 3 0
                else m in
              (SBI_SUCCESS, ev_bytes ev, s <| mx_mem := m |>)
      end
  end.

End Call.
End Mpxy.
