(* ===== verification/MpxyProps.v ===== *)
(** The MPXY core: where it writes, whose channels a domain can see, what
    its indications are aimed at, and what the calls return. *)

From Stdlib Require Import Sorting.Sorted.
From stdpp Require Import functions relations.
From S2P Require Import Prelude Arch Mpxy.

#[local] Open Scope Z_scope.

(** ** Memory *)

Lemma byte_set (m : bytes_mem) (a v : Z) : (<[a := v]> m) a = v.
Proof. exact (fn_lookup_insert m a v). Qed.
Lemma byte_set_ne (m : bytes_mem) (a b v : Z) : a <> b -> (<[a := v]> m) b = m b.
Proof. exact (fn_lookup_insert_ne m a b v). Qed.

Lemma store_le_out (m : bytes_mem) (a : Z) (n : nat) (v b : Z) :
  (b < a \/ a + Z.of_nat n <= b) -> store_le m a n v b = m b.
Proof.
  revert m a v. induction n as [|n IH]; intros m a v Hb; cbn [store_le]; [done|].
  rewrite IH by lia. by rewrite byte_set_ne by lia.
Qed.

Lemma load_le_ext (m m' : bytes_mem) (a : Z) (n : nat) :
  (forall b, a <= b < a + Z.of_nat n -> m b = m' b) -> load_le m a n = load_le m' a n.
Proof.
  revert a. induction n as [|n IH]; intros a E; cbn [load_le]; [done|]. rewrite E by lia. f_equal. f_equal. apply IH.
  intros b Hb. apply E. lia.
Qed.

Lemma load_store_le (m : bytes_mem) (a : Z) (n : nat) (v : Z) :
  load_le (store_le m a n v) a n = v mod 2 ^ (8 * Z.of_nat n).
Proof.
  revert m a v. induction n as [|n IH]; intros m a v; cbn [load_le store_le]; [by rewrite Z.mul_0_r, Z.mod_1_r|].
  rewrite IH, store_le_out, byte_set by lia. rewrite Zmod_mod.
  replace (8 * Z.of_nat (S n)) with (8 + 8 * Z.of_nat n) by lia. rewrite Z.pow_add_r by lia.
  rewrite Z.rem_mul_r by (pose proof (pow2_pos (8 * Z.of_nat n)); lia). lia.
Qed.

Lemma set_word_out (m : bytes_mem) (mem i v b : Z) : (b < mem + 4 * i \/ mem + 4 * i + 4 <= b) -> set_word m mem i v b = m b.
Proof. intros Hb. apply store_le_out. lia. Qed.

Lemma word_set (m : bytes_mem) (mem i v : Z) : word_at (set_word m mem i v) mem i = low32 v.
Proof. exact (load_store_le m (mem + 4 * i) 4 v). Qed.

Lemma word_set_ne (m : bytes_mem) (mem i j v : Z) : i <> j -> word_at (set_word m mem i v) mem j = word_at m mem j.
Proof. intros Hij. apply load_le_ext. intros b Hb. apply set_word_out. lia. Qed.

Lemma set_bytes_out (m : bytes_mem) (a : Z) (bs : list Z) (b : Z) :
  (b < a \/ a + Z.of_nat (length bs) <= b) -> set_bytes m a bs b = m b.
Proof.
  revert m a. induction bs as [|x bs IH]; intros m a Hb; cbn [set_bytes length] in *; [done|].
  rewrite IH by lia. by rewrite byte_set_ne by lia.
Qed.

Section Props.
Context {AR : Arch} {KC : Kconfig} {MX : MpxyConfig} {St : Type} {OPS : MpxyOps St}.
Context (smode_range_ok : Z -> Z -> Z -> bool).

Implicit Types (s : mpxy St) (ch : mpxy_channel).

(** ** The calls that work on the shared memory *)

Inductive mpxy_call : Set :=
  | CallIds (start : Z)
  | CallRead (channel base count : Z)
  | CallWrite (channel base count : Z)
  | CallSend (channel msg len : Z) (want_resp : bool)
  | CallNotifications (channel : Z).

(** The error and the value *)
Definition do_call (self key : Z) (c : mpxy_call) (s : mpxy St) : Z * Z * mpxy St :=
  match c with
  | CallIds start => let '(rc, s) := mpxy_get_channel_ids self key s start in (rc, 0, s)
  | CallRead id base count => let '(rc, s) := mpxy_read_attributes self key s id base count in (rc, 0, s)
  | CallWrite id base count => let '(rc, s) := mpxy_write_attributes smode_range_ok self key s id base count in (rc, 0, s)
  | CallSend id msg len want => mpxy_send_message self key s id msg len want
  | CallNotifications id => mpxy_get_notifications self key s id
  end.

(** ** Where the calls write *)

Lemma ids_loop_out (key : Z) (l : list mpxy_channel) (mem start i n : Z) (m : bytes_mem) (b : Z) :
  0 <= n <= ids_max -> (b < mem \/ mem + MPXY_SHMEM_SIZE <= b) ->
  let r := ids_loop key l mem start i n m in n <= r.1 <= ids_max /\ r.2 b = m b.
Proof.
  revert i n m. induction l as [|ch l IH]; intros i n m Hn Hb; cbn [ids_loop]; [cbn [fst snd]; split; [lia|done]|].
  destruct (negb (channel_visible key ch)); [by apply IH|]. destruct ((start <=? i) && (n <? ids_max)) eqn:E; [|by apply IH].
  apply andb_prop in E as [_ E]. apply Z.ltb_lt in E.
  destruct (IH (i + 1) (n + 1) (set_word m mem (2 + n) (ch_id ch)) ltac:(lia) Hb) as [H1 H2]. cbv zeta. rewrite H2.
  split; [lia|]. apply set_word_out. unfold ids_max, MPXY_SHMEM_SIZE in *. change (4096 / 4 - 2) with 1022 in *. lia.
Qed.

Lemma read_loop_out (n : nat) ch (prot : bool) (mem base i : Z) s (b : Z) :
  0 <= i -> i + Z.of_nat n <= MPXY_SHMEM_SIZE / 4 -> (b < mem \/ mem + MPXY_SHMEM_SIZE <= b) ->
  mx_mem (read_loop n ch prot mem base i s).2 b = mx_mem s b.
Proof.
  unfold MPXY_SHMEM_SIZE. change (4096 / 4) with 1024. revert i s. induction n as [|n IH]; intros i s H0 Hi Hb; cbn [read_loop]; [done|].
  destruct (negb prot).
  - rewrite IH by lia. apply set_word_out. lia.
  - destruct (op_read_attr ch) as [f|]; [|done]. destruct (f _ _) as [[rc val] o]. destruct (truth rc); [done|].
    rewrite IH by lia. apply set_word_out. lia.
Qed.

Lemma prot_write_mem (n : nat) ch (mem base i : Z) s : mx_mem (prot_write_loop n ch mem base i s).2 = mx_mem s.
Proof.
  revert i s. induction n as [|n IH]; intros i s; cbn [prot_write_loop]; [done|].
  destruct (op_write_attr ch) as [f|]; [|done]. destruct (f _ _ _) as [rc o]. destruct (truth rc); [done|]. by rewrite IH.
Qed.

Lemma bounce_size : BOUNCE_SIZE <= MPXY_SHMEM_SIZE.
Proof.
  unfold BOUNCE_SIZE, MPXY_SHMEM_SIZE. pose proof config_msg_max_len as [Hl Hu]. pose proof XLEN_bounds as Hx.
  assert (2 ^ 32 <= 2 ^ XLEN) by (apply pow2_le; lia). destruct (ROUNDUP2_spec CONFIG_MPXY_MSG_MAX_LEN 3) as [Hm Hb]; [lia..|].
  change (2 ^ 3) with 8 in *. pose proof (Z.div_mod (ROUNDUP2 CONFIG_MPXY_MSG_MAX_LEN 8) 8 ltac:(lia)). lia.
Qed.

(** Events that become due are a matter of the channels. *)
Definition mark_due (P : Z -> bool) ch : mpxy_channel := if P (ch_id ch) then ch <| ch_events_due := true |> else ch.

Lemma mark_nothing s :
  s = s <| mx_channels := mark_due (fun _ => false) <$> mx_channels s |> <| mx_indications_due := mx_indications_due s |>.
Proof.
  assert (mark_due (fun _ => false) <$> mx_channels s = mx_channels s) as -> by apply list_fmap_id. by destruct s.
Qed.

Lemma due_one_spec s (id : Z) :
  exists P due, due_one s id = s <| mx_channels := mark_due P <$> mx_channels s |> <| mx_indications_due := due |>.
Proof.
  assert (exists P due, s = s <| mx_channels := mark_due P <$> mx_channels s |> <| mx_indications_due := due |>) as Hs
    by (eexists _, _; apply mark_nothing).
  unfold due_one. destruct (List.find _ _) as [ch|]; [|done]. unfold mpxy_channel_events_due. destruct (negb _); [done|].
  by exists (fun i => i =? ch_id ch), true.
Qed.

Lemma protocol_due_spec s (due : list Z) :
  exists P d, protocol_due s due = s <| mx_channels := mark_due P <$> mx_channels s |> <| mx_indications_due := d |>.
Proof.
  unfold protocol_due. revert s. induction due as [|id due IH]; intros s; [eexists _, _; apply mark_nothing|].
  cbn [foldl]. destruct (due_one_spec s id) as (P & d & E). destruct (IH (due_one s id)) as (P' & d' & E'). rewrite E', E.
  exists (fun i => P i || P' i), d'. clear. destruct s as [l sh nr ind m o]. unfold field_update. cbn. f_equal. rewrite <- list_fmap_compose.
  apply list_fmap_ext. intros i c _. unfold compose, mark_due. destruct (P (ch_id c)) eqn:Ep; cbn; [|done].
  by destruct (P' (ch_id c)).
Qed.

Lemma protocol_due_mem s (due : list Z) : mx_mem (protocol_due s due) = mx_mem s.
Proof. by destruct (protocol_due_spec s due) as (P & d & ->). Qed.
Lemma protocol_due_shmem s (due : list Z) : mx_shmem (protocol_due s due) = mx_shmem s.
Proof. by destruct (protocol_due_spec s due) as (P & d & ->). Qed.

Lemma write_attributes_mem (self key : Z) s (id base count : Z) :
  mx_mem (mpxy_write_attributes smode_range_ok self key s id base count).2 = mx_mem s.
Proof.
  unfold mpxy_write_attributes, stage_attributes. destruct (this_shmem self s); [|done].
  destruct (attr_range_check key s id base count) as [|[ch []]]; [done|apply prot_write_mem|].
  destruct (stage_loop _ _ _ _ _ _) as [rc staged]. destruct (truth rc); [done|]. by destruct (negb _).
Qed.

Lemma read_attributes_out (self key : Z) s (id base count mem b : Z) :
  this_shmem self s = Some mem -> (b < mem \/ mem + MPXY_SHMEM_SIZE <= b) ->
  mx_mem (mpxy_read_attributes self key s id base count).2 b = mx_mem s b.
Proof.
  intros Em Hb. unfold mpxy_read_attributes. rewrite Em.
  destruct (attr_range_check key s id base count) as [|[ch prot]] eqn:E; [done|]. apply read_loop_out; [lia| |done].
  unfold attr_range_check in E. destruct (channel_of key s id); [|done].
  destruct (negb (truth count) || _ || _) eqn:Ec; [done|]. bool_prop.
  unfold MPXY_SHMEM_SIZE in *. change (4096 / 4) with 1024 in *. lia.
Qed.

Lemma send_out (self key : Z) s (id msg len mem b : Z) (want : bool) :
  this_shmem self s = Some mem -> (b < mem \/ mem + MPXY_SHMEM_SIZE <= b) ->
  mx_mem (mpxy_send_message self key s id msg len want).2 b = mx_mem s b.
Proof.
  intros Em Hb. pose proof bounce_size as Hsz. unfold mpxy_send_message. rewrite Em. destruct (channel_of key s id) as [ch|]; [|done].
  destruct (_ || _); [done|]. destruct (_ || _); [done|]. destruct (op_send _ _ _ _ _ _) as [[[[rc buf] rl] due] o].
  destruct (negb (truth rc) && want); [|by cbn [snd]; rewrite protocol_due_mem].
  destruct (Z.ltb_spec BOUNCE_SIZE rl); [by cbn [snd]; rewrite protocol_due_mem|].
  cbn [snd]. change (mx_mem (_ <| mx_mem := ?m |>)) with m. rewrite protocol_due_mem. apply set_bytes_out. rewrite length_fmap, length_seq. unfold MPXY_SHMEM_SIZE in *. lia.
Qed.

Lemma notifications_out (self key : Z) s (id mem b : Z) :
  this_shmem self s = Some mem -> (b < mem \/ mem + MPXY_SHMEM_SIZE <= b) ->
  mx_mem (mpxy_get_notifications self key s id).2 b = mx_mem s b.
Proof.
  intros Em Hb. unfold mpxy_get_notifications. rewrite Em. destruct (channel_of key s id) as [ch|]; [|done].
  destruct (negb _); [done|]. destruct (op_get_events _ _ _) as [[[[rc buf] ev] due] o].
  assert (set_bytes (mx_mem s) (mem + 16) (take (Z.to_nat (MPXY_SHMEM_SIZE - 16)) buf) b = mx_mem s b) as E.
  { apply set_bytes_out. rewrite length_take. unfold MPXY_SHMEM_SIZE in *. lia. }
  destruct (truth rc); [cbn [snd]; rewrite protocol_due_mem; exact E|]. destruct (truth (ch_events_state_control ch)); [|exact E].
  unfold MPXY_SHMEM_SIZE in Hb. etrans; [|exact E]. cbn [snd]. change (mx_mem (_ <| mx_mem := ?m |>)) with m.
  rewrite !set_word_out by lia. done.
Qed.

Lemma call_out (self key : Z) (c : mpxy_call) s (mem b : Z) :
  this_shmem self s = Some mem -> (b < mem \/ mem + MPXY_SHMEM_SIZE <= b) ->
  mx_mem (do_call self key c s).2 b = mx_mem s b.
Proof.
  intros Em Hb. destruct c as [start|id base count|id base count|id msg len want|id]; cbn [do_call].
  - unfold mpxy_get_channel_ids. rewrite Em. destruct (_ || _); [done|].
    pose proof (ids_loop_out key (mx_channels s) mem start 0 0 (mx_mem s) b ltac:(done) Hb) as [_ E].
    destruct (ids_loop _ _ _ _ _ _) as [n m]. cbn [snd] in *. unfold MPXY_SHMEM_SIZE in Hb.
    change (mx_mem (_ <| mx_mem := ?m |>)) with m. by rewrite !set_word_out by lia.
  - pose proof (read_attributes_out self key s id base count mem b Em Hb). by destruct (mpxy_read_attributes _ _ _ _ _ _).
  - pose proof (write_attributes_mem self key s id base count) as E. destruct (mpxy_write_attributes _ _ _ _ _ _ _). cbn [snd] in *. by rewrite E.
  - by apply (send_out self key s id msg len mem).
  - by apply (notifications_out self key s id mem).
Qed.

(** Nothing but [mpxy_set_shmem] changes whose memory it is. *)
Lemma read_loop_rest (n : nat) ch (prot : bool) (mem base i : Z) s :
  let s' := (read_loop n ch prot mem base i s).2 in
  mx_shmem s' = mx_shmem s /\ mx_channels s' = mx_channels s.
Proof.
  revert i s. induction n as [|n IH]; intros i s; cbn [read_loop]; [done|].
  destruct (negb prot); [match goal with |- context [read_loop n _ _ _ _ ?j ?t] => exact (IH j t) end|].
  destruct (op_read_attr ch) as [f|]; [|done]. destruct (f _ _) as [[rc val] o]. destruct (truth rc); [done|].
  match goal with |- context [read_loop n _ _ _ _ ?j ?t] => exact (IH j t) end.
Qed.

Lemma prot_write_rest (n : nat) ch (mem base i : Z) s :
  let s' := (prot_write_loop n ch mem base i s).2 in
  mx_shmem s' = mx_shmem s /\ mx_channels s' = mx_channels s.
Proof.
  revert i s. induction n as [|n IH]; intros i s; cbn [prot_write_loop]; [done|].
  destruct (op_write_attr ch) as [f|]; [|done]. destruct (f _ _ _) as [rc o]. destruct (truth rc); [done|].
  match goal with |- context [prot_write_loop n _ _ _ ?j ?t] => exact (IH j t) end.
Qed.

Lemma find_id (key : Z) s (id : Z) ch : channel_find key s id = Some ch -> ch_id ch = id.
Proof.
  unfold channel_find. destruct (List.find _ _) as [c|] eqn:E; [|done]. apply find_some in E as [_ E]. apply Z.eqb_eq in E.
  destruct (channel_visible key c); [|done]. by intros [= <-].
Qed.

(** What is staged is of a channel the domain sees, and was checked. *)
Lemma stage_checked (self key : Z) s (id base count : Z) ch staged :
  stage_attributes smode_range_ok self key s id base count = inr (ch, staged) ->
  channel_find key s (ch_id ch) = Some ch /\ msi_target_ok smode_range_ok key staged = true.
Proof.
  unfold stage_attributes. destruct (this_shmem self s) as [mem|]; [|done].
  destruct (attr_range_check key s id base count) as [|[c prot]] eqn:Ec; [done|]. destruct prot; [done|].
  destruct (stage_loop _ _ _ _ _ _) as [rc st]. destruct (truth rc); [done|].
  destruct (msi_target_ok smode_range_ok key st) eqn:Et; [|done]. intros [= <- <-]. split; [|done].
  unfold attr_range_check, channel_of in Ec. destruct (0xffffffff <? id); [done|].
  destruct (channel_find key s id) as [c'|] eqn:Ef; [|done]. repeat case_match; simplify_eq. by rewrite (find_id _ _ _ _ Ef).
Qed.

Lemma stage_rest (self key : Z) s (id base count rc : Z) (s' : mpxy St) :
  stage_attributes smode_range_ok self key s id base count = inl (rc, s') ->
  mx_shmem s' = mx_shmem s /\ mx_channels s' = mx_channels s.
Proof.
  unfold stage_attributes. destruct (this_shmem self s) as [mem|]; [|by intros [= _ <-]].
  destruct (attr_range_check key s id base count) as [|[c prot]]; [by intros [= _ <-]|]. destruct prot.
  - intros [= E]. pose proof (prot_write_rest (Z.to_nat count) c mem base 0 s) as H. by rewrite E in H.
  - destruct (stage_loop _ _ _ _ _ _) as [rc' st]. destruct (truth rc'); [by intros [= _ <-]|].
    destruct (negb _); by intros [= _ <-].
Qed.

(** What a call does to the channels: events become due that the protocol
    says, or the attributes of one that its domain sees are written, staged
    and checked *)
Lemma call_channels (self key : Z) (c : mpxy_call) s :
  let s' := (do_call self key c s).2 in
  mx_shmem s' = mx_shmem s /\
  ((exists P, mx_channels s' = mark_due P <$> mx_channels s) \/
   exists id base count ch staged, c = CallWrite id base count /\
     stage_attributes smode_range_ok self key s id base count = inr (ch, staged) /\
     mx_channels s' = mx_channels (channel_update s (ch_id ch) (stage_commit key staged))).
Proof.
  assert (exists P, mx_channels s = mark_due P <$> mx_channels s) as Hs by (exists (fun _ => false); symmetry; apply list_fmap_id).
  destruct c as [start|id base count|id base count|id msg len want|id]; cbn [do_call].
  - unfold mpxy_get_channel_ids. destruct (this_shmem self s); [|by auto]. destruct (_ || _); [by auto|].
    destruct (ids_loop _ _ _ _ _ _). by auto.
  - unfold mpxy_read_attributes. destruct (this_shmem self s) as [mem|]; [|by auto].
    destruct (attr_range_check key s id base count) as [|[ch prot]]; [by auto|].
    destruct (read_loop_rest (Z.to_nat count) ch prot mem base 0 s) as [H1 H2]. destruct (read_loop _ _ _ _ _ _ _). cbn [snd] in *. rewrite H2. by auto.
  - unfold mpxy_write_attributes. destruct (stage_attributes _ _ _ _ _ _ _) as [[rc s']|[ch staged]] eqn:E.
    + destruct (stage_rest _ _ _ _ _ _ _ _ E) as [H1 H2]. cbn [snd]. rewrite H2. by auto.
    + split; [done|]. right. by exists id, base, count, ch, staged.
  - unfold mpxy_send_message. destruct (this_shmem self s) as [mem|]; [|by auto]. destruct (channel_of key s id) as [ch|]; [|by auto].
    destruct (_ || _); [by auto|]. destruct (_ || _); [by auto|]. destruct (op_send _ _ _ _ _ _) as [[[[rc buf] rl] due] o].
    destruct (protocol_due_spec (s <| mx_ops := o |>) due) as (P & d & ->). repeat case_match; by eauto.
  - unfold mpxy_get_notifications. destruct (this_shmem self s) as [mem|]; [|by auto]. destruct (channel_of key s id) as [ch|]; [|by auto].
    destruct (negb _); [by auto|]. destruct (op_get_events _ _ _) as [[[[rc buf] ev] due] o].
    match goal with |- context [protocol_due ?t due] => destruct (protocol_due_spec t due) as (P & d & ->) end.
    repeat case_match; by eauto.
Qed.

Lemma set_shmem_cases (self key : Z) s (lo hi flags : Z) :
  let r := mpxy_set_shmem smode_range_ok self key s lo hi flags in
  mx_shmem r.2 self = mx_shmem s self \/ mx_shmem r.2 self = shmem_none \/
  mx_shmem r.2 self = lo /\ IS_ALIGNED lo MPXY_SHMEM_SIZE = true /\ smode_range_ok key lo MPXY_SHMEM_SIZE = true.
Proof.
  unfold mpxy_set_shmem. destruct (1 <? flags); [by left|].
  destruct (_ && _); [right; left; exact (fn_lookup_insert (mx_shmem s) self shmem_none)|].
  destruct (IS_ALIGNED lo MPXY_SHMEM_SIZE) eqn:Ea; cbn [negb]; [|by left].
  destruct (truth hi || _) eqn:Eo; [by left|]. apply orb_false_elim in Eo as [_ Eo]. apply negb_false_iff in Eo.
  right; right. split_and!; [|done|done]. by destruct (truth (Z.land flags 1)); exact (fn_lookup_insert (mx_shmem s) self lo).
Qed.

(** a call writes only to the shared memory of its hart. The page is one
    that [mpxy_set_shmem] took for the calling domain's own, on a boundary of
    its size; whatever a protocol answers, and whatever S-mode asks for, no
    byte outside it changes. *)
Theorem mpxy_writes_confined (self key : Z) (c : mpxy_call) s (lo hi flags : Z) :
  (forall b, ~ (mx_shmem s self <= b < mx_shmem s self + MPXY_SHMEM_SIZE) ->
     mx_mem (do_call self key c s).2 b = mx_mem s b) /\
  mx_shmem (do_call self key c s).2 = mx_shmem s /\
  let r := mpxy_set_shmem smode_range_ok self key s lo hi flags in
  mx_shmem r.2 self = mx_shmem s self \/ mx_shmem r.2 self = shmem_none \/
  mx_shmem r.2 self = lo /\ IS_ALIGNED lo MPXY_SHMEM_SIZE = true /\ smode_range_ok key lo MPXY_SHMEM_SIZE = true.
Proof.
  split_and!.
  - intros b Hb.
    assert (mx_mem (do_call self key c s).2 b = mx_mem s b); [|done].
    destruct (this_shmem self s) as [mem|] eqn:Em; cycle 1.
    { destruct c; cbn [do_call]; unfold mpxy_get_channel_ids, mpxy_read_attributes, mpxy_write_attributes, stage_attributes,
        mpxy_send_message, mpxy_get_notifications; by rewrite Em. }
    assert (mx_shmem s self = mem) as Es by (unfold this_shmem in Em; by destruct (_ =? _); simplify_eq).
    assert (b < mem \/ mem + MPXY_SHMEM_SIZE <= b) as Hout by lia.
    by apply (call_out self key c s mem).
  - apply call_channels.
  - apply set_shmem_cases.
Qed.

(** ** The list of channels *)

Definition ids (l : list mpxy_channel) : list Z := ch_id <$> l.
Definition ids_sorted (l : list mpxy_channel) : Prop := StronglySorted Z.lt (ids l).

Lemma insert_ids ch (l l' : list mpxy_channel) :
  channel_insert ch l = Some l' -> l' ≡ₚ ch :: l /\ (ids_sorted l -> ids_sorted l').
Proof.
  revert l'. induction l as [|c l IH]; intros l'; cbn [channel_insert].
  { intros [= <-]. split; [done|]. intros _. repeat constructor. }
  destruct (Z.leb_spec (ch_id c) (ch_id ch)).
  - destruct (Z.eqb_spec (ch_id c) (ch_id ch)); [done|]. destruct (channel_insert ch l) as [l1|]; [|done]. intros [= <-].
    destruct (IH l1 eq_refl) as [Hp Hs]. split; [rewrite Hp; constructor|]. intros Hl. inversion Hl as [|? ? Hl1 Hl2]; subst.
    constructor; [by apply Hs|]. fold (ids l1). unfold ids in *. rewrite Hp. cbn. constructor; [lia|done].
  - intros [= <-]. split; [done|]. intros Hl. constructor; [done|]. inversion Hl as [|? ? Hl1 Hl2]; subst. cbn.
    constructor; [done|]. eapply Forall_impl; [exact Hl2|]. cbn. lia.
Qed.

Lemma sorted_unique (l : list mpxy_channel) (c c' : mpxy_channel) :
  ids_sorted l -> c ∈ l -> c' ∈ l -> ch_id c = ch_id c' -> c = c'.
Proof.
  intros Hs. induction l as [|x l IH]; [by intros ?%not_elem_of_nil|].
  inversion Hs as [|? ? Hs1 Hs2]; subst. rewrite !elem_of_cons. rewrite Forall_forall in Hs2.
  assert (forall y, y ∈ l -> ch_id x < ch_id y) as Hlt by (intros y Hy; apply Hs2, list_elem_of_fmap; eauto).
  intros [->|Hc] [->|Hc'] E; [done|..]; [specialize (Hlt c' Hc'); lia|specialize (Hlt c Hc); lia|by apply IH].
Qed.

Lemma find_in (key : Z) s (id : Z) ch : channel_find key s id = Some ch -> ch ∈ mx_channels s /\ channel_visible key ch = true.
Proof.
  unfold channel_find. destruct (List.find _ _) as [c|] eqn:E; [|done]. apply find_some in E as [E _].
  destruct (channel_visible key c) eqn:Ev; [|done]. intros [= <-]. by split; [apply list_elem_of_In|].
Qed.

(** ** What an MSI is aimed at *)

Lemma insert_new ch (l l' : list mpxy_channel) : channel_insert ch l = Some l' -> ids_sorted l -> ch_id ch ∉ ids l.
Proof.
  revert l'. induction l as [|c l IH]; intros l' E Hs; [by apply not_elem_of_nil|]. cbn [channel_insert] in E.
  change (ids (c :: l)) with (ch_id c :: ids l). inversion Hs as [|? ? Hs1 Hs2]; subst. rewrite Forall_forall in Hs2.
  rewrite elem_of_cons. destruct (Z.leb_spec (ch_id c) (ch_id ch)).
  - destruct (Z.eqb_spec (ch_id c) (ch_id ch)); [done|]. destruct (channel_insert ch l) as [l1|]; [|done].
    intros [?|Hin]; [congruence|]. by eapply IH.
  - intros [?|Hin]; [lia|]. specialize (Hs2 _ Hin). lia.
Qed.

(** A channel's MSI, when it is enabled, is a word its domain may write *)
Definition msi_ok ch : Prop :=
  ch_msi_control ch <> 0 ->
  Z.land (msi_addr ch) 3 = 0 /\ wrap (msi_addr ch) = msi_addr ch /\
  smode_range_ok (ch_msi_domain ch) (msi_addr ch) 4 = true /\ channel_visible (ch_msi_domain ch) ch = true.

(** A write of standard attributes under way: for whom, the checked copy, and
    how many of [commit_stores] are done *)
Record writing : Set := Writing { wr_key : Z; wr_staged : mpxy_channel; wr_done : nat }.

(** Whatever is done to the MPXY state, by any hart of any domain: S-mode
    writes its memory, the protocols go on, and harts change domains.  The
    stores of a write of attributes are steps of their own, and anything can
    happen in between, but for a second write of the same channel's
    attributes; and [mpxy_indicate] is a step, in which it loads a channel's
    fields.  What these two exclude is [msi_target_torn]. *)
Inductive mpxy_step : mpxy St * (Z -> option writing) -> mpxy St * (Z -> option writing) -> Prop :=
  | StepCall s p (self key : Z) (c : mpxy_call) :
      (forall id base count, c <> CallWrite id base count) -> mpxy_step (s, p) ((do_call self key c s).2, p)
  | StepRefused s p (self key id base count rc : Z) (s' : mpxy St) :
      stage_attributes smode_range_ok self key s id base count = inl (rc, s') -> mpxy_step (s, p) (s', p)
  | StepStage s p (self key id base count : Z) ch staged :
      stage_attributes smode_range_ok self key s id base count = inr (ch, staged) -> p (ch_id ch) = None ->
      mpxy_step (s, p) (s, <[ch_id ch := Some (Writing key staged 0)]> p)
  | StepStore s p (id key : Z) staged (n : nat) (f : mpxy_channel -> mpxy_channel) :
      p id = Some (Writing key staged n) -> commit_stores key staged !! n = Some f ->
      mpxy_step (s, p) (channel_update s id f, <[id := Some (Writing key staged (S n))]> p)
  | StepWritten s p (id key : Z) staged :
      p id = Some (Writing key staged 7) -> mpxy_step (s, p) (s, <[id := None]> p)
  | StepShmem s p (self key lo hi flags : Z) : mpxy_step (s, p) ((mpxy_set_shmem smode_range_ok self key s lo hi flags).2, p)
  | StepRegister s p ch : ch_msi_control ch = 0 -> mpxy_step (s, p) ((mpxy_channel_register s ch).2, p)
  | StepDue s p ch : mpxy_step (s, p) (mpxy_channel_events_due s ch, p)
  | StepIndicate s p (keys : nat) : mpxy_step (s, p) ((mpxy_indicate s keys).2, p)
  | StepInit s p (self : Z) : mpxy_step (s, p) (mpxy_hart_init s self, p)
  | StepOthers s p (m : bytes_mem) (shmem : Z -> Z) (o : St) :
      mpxy_step (s, p) (s <| mx_mem := m |> <| mx_shmem := shmem |> <| mx_ops := o |>, p).

Lemma update_update s (id : Z) (f g : mpxy_channel -> mpxy_channel) :
  (forall c, ch_id (f c) = ch_id c) ->
  channel_update (channel_update s id f) id g = channel_update s id (fun c => g (f c)).
Proof.
  intros Hf. destruct s as [l sh nr ind m o]. unfold channel_update, field_update. cbn. f_equal.
  rewrite <- list_fmap_compose. apply list_fmap_ext. intros i c _. unfold compose.
  destruct (ch_id c =? id) eqn:E; [by rewrite Hf, E|by rewrite E].
Qed.

(** A whole write, as [mpxy_write_attributes] has it *)
Lemma write_steps s p (self key id base count : Z) ch staged :
  stage_attributes smode_range_ok self key s id base count = inr (ch, staged) -> p (ch_id ch) = None ->
  exists s' p', rtc mpxy_step (s, p) (s', p') /\ (forall i, p' i = p i) /\
    s' = (mpxy_write_attributes smode_range_ok self key s id base count).2.
Proof.
  intros E Hp. eexists _, _. split.
  { eapply rtc_l; [by eapply StepStage|].
    do 7 (eapply rtc_l; [eapply StepStore; [apply fn_lookup_insert|reflexivity]|]).
    apply rtc_once. eapply StepWritten. apply fn_lookup_insert. }
  split.
  - intros i. unfold insert, fn_insert. cbv beta. by repeat case_decide; subst.
  - unfold mpxy_write_attributes. rewrite E. cbn [snd]. by rewrite !update_update by done.
Qed.

(** Until its address is complete and the domain is there, the MSI is off. *)
Definition writing_ok (w : option writing) ch : Prop :=
  match w with
  | None => msi_ok ch
  | Some (Writing key staged n) =>
      (n <= 7)%nat /\ msi_target_ok smode_range_ok key staged = true /\ channel_visible key ch = true /\
      (n = 0%nat -> msi_ok ch) /\ ((1 <= n <= 5)%nat -> ch_msi_control ch = 0) /\
      ((2 <= n)%nat -> ch_msi_addr_low ch = ch_msi_addr_low staged) /\
      ((3 <= n)%nat -> ch_msi_addr_high ch = ch_msi_addr_high staged) /\
      ((5 <= n)%nat -> ch_msi_domain ch = key) /\ ((6 <= n)%nat -> ch_msi_control ch = ch_msi_control staged)
  end.
Record channels_ok (l : list mpxy_channel) (p : Z -> option writing) : Prop := {
  co_sorted : ids_sorted l;
  co_msi : Forall (fun ch => writing_ok (p (ch_id ch)) ch) l;
  co_known : forall id, p id <> None -> id ∈ ids l;
}.

Lemma writing_msi_ok (w : option writing) ch : writing_ok w ch -> msi_ok ch.
Proof.
  destruct w as [[key staged n]|]; cbn; [|done]. intros (_ & Ht & Hv & H0 & Hoff & Hl & Hh & Hd & Hc).
  destruct (decide (n = 0)%nat) as [->|]; [by apply H0|]. intros Hctl.
  destruct (decide (n <= 5)%nat); [by rewrite Hoff in Hctl by lia|].
  unfold msi_target_ok in Ht. rewrite <- Hc, (proj2 (truth_true _) Hctl) in Ht by lia. cbn [negb orb] in Ht.
  assert (msi_addr ch = msi_addr staged) as -> by (unfold msi_addr; by rewrite Hl, Hh by lia).
  rewrite Hd by lia. bool_prop. split_and!; [done|congruence|congruence|done].
Qed.

Lemma writing_due (w : option writing) ch (b : bool) : writing_ok w ch -> writing_ok w (ch <| ch_events_due := b |>).
Proof. by destruct w as [[key staged n]|]. Qed.

Lemma writing_store (key : Z) (staged : mpxy_channel) (n : nat) (f : mpxy_channel -> mpxy_channel) ch :
  commit_stores key staged !! n = Some f -> writing_ok (Some (Writing key staged n)) ch ->
  ch_id (f ch) = ch_id ch /\ writing_ok (Some (Writing key staged (S n))) (f ch).
Proof.
  intros Hf (_ & Ht & Hv & H0 & Hoff & Hl & Hh & Hd & Hc).
  do 7 (destruct n as [|n]; [injection Hf as <-; split; [done|]; cbn; split_and!; first [done|lia|intros ?; first [done|lia|by apply Hoff; lia
    |by apply Hl; lia|by apply Hh; lia|by apply Hd; lia|by apply Hc; lia]]|]). done.
Qed.

Lemma fmap_ok (f : mpxy_channel -> mpxy_channel) (l : list mpxy_channel) (p p' : Z -> option writing) :
  channels_ok l p -> (forall id, p' id <> None -> p id <> None) ->
  (forall c, c ∈ l -> writing_ok (p (ch_id c)) c -> ch_id (f c) = ch_id c /\ writing_ok (p' (ch_id c)) (f c)) ->
  channels_ok (f <$> l) p'.
Proof.
  intros [Hs Hm Hk] Hp Hf. rewrite Forall_forall in Hm.
  assert (ids (f <$> l) = ids l) as Ei.
  { unfold ids. rewrite <- list_fmap_compose. apply list_fmap_ext. intros i c Hc. apply list_elem_of_lookup_2 in Hc. by apply Hf, Hm. }
  constructor.
  - unfold ids_sorted. by rewrite Ei.
  - rewrite Forall_fmap, Forall_forall. intros c Hc. cbn. destruct (Hf c Hc (Hm c Hc)) as [-> ?]. done.
  - intros id Hid. rewrite Ei. by apply Hk, Hp.
Qed.

Lemma mark_ok (P : Z -> bool) (l : list mpxy_channel) (p : Z -> option writing) :
  channels_ok l p -> channels_ok (mark_due P <$> l) p.
Proof. intros Hok. apply (fmap_ok _ _ p); [done|done|]. intros c _ Hc. unfold mark_due. by destruct (P _); [split; [|apply writing_due]|]. Qed.

Lemma stage_ok (self key : Z) s (p : Z -> option writing) (id base count : Z) ch staged :
  channels_ok (mx_channels s) p -> stage_attributes smode_range_ok self key s id base count = inr (ch, staged) -> p (ch_id ch) = None ->
  channels_ok (mx_channels s) (<[ch_id ch := Some (Writing key staged 0)]> p).
Proof.
  intros [Hs Hm Hk] E Hp. destruct (stage_checked _ _ _ _ _ _ _ _ E) as [Hf Ht]. destruct (find_in _ _ _ _ Hf) as [Hin Hv].
  constructor; [done| |].
  - rewrite Forall_forall in *. intros c Hc. specialize (Hm c Hc). destruct (decide (ch_id c = ch_id ch)) as [Ei|Ei].
    + assert (c = ch) as -> by (by eapply sorted_unique). rewrite fn_lookup_insert. rewrite Hp in Hm.
      cbn. split_and!; first [done|lia|intros ?; first [done|lia]].
    + by rewrite fn_lookup_insert_ne by done.
  - intros i. destruct (decide (i = ch_id ch)) as [->|Hi]; [|by rewrite fn_lookup_insert_ne by done; apply Hk].
    intros _. apply list_elem_of_fmap. by exists ch.
Qed.

Lemma commit_store_ok s (p : Z -> option writing) (id key : Z) staged (n : nat) (f : mpxy_channel -> mpxy_channel) :
  channels_ok (mx_channels s) p -> p id = Some (Writing key staged n) -> commit_stores key staged !! n = Some f ->
  channels_ok (mx_channels (channel_update s id f)) (<[id := Some (Writing key staged (S n))]> p).
Proof.
  intros Hok Hp Hf. unfold channel_update. change (mx_channels (s <| mx_channels := ?l |>)) with l.
  apply (fmap_ok _ _ p); [done| |].
  - intros i. destruct (decide (i = id)) as [->|Hi]; [by rewrite Hp|by rewrite fn_lookup_insert_ne by done].
  - intros c Hc Hw. destruct (Z.eqb_spec (ch_id c) id) as [Ei|Ei].
    + rewrite Ei, fn_lookup_insert. rewrite Ei, Hp in Hw. rewrite <- Ei. by apply writing_store.
    + by rewrite fn_lookup_insert_ne by done.
Qed.

Lemma register_ok s (p : Z -> option writing) ch :
  channels_ok (mx_channels s) p -> ch_msi_control ch = 0 -> channels_ok (mx_channels (mpxy_channel_register s ch).2) p.
Proof.
  intros [Hs Hm Hk] Hc. unfold mpxy_channel_register.
  assert (ch_msi_control (channel_events ch (mx_nr_sse_events s)).1 = 0) as Hc' by (unfold channel_events; by repeat case_match).
  destruct (channel_events ch (mx_nr_sse_events s)) as [ch' nr]. cbn [fst] in Hc'.
  set (ch2 := ch' <| ch_msg_data_max_len := _ |>). destruct (channel_insert ch2 (mx_channels s)) as [l|] eqn:E; [|done].
  destruct (insert_ids _ _ _ E) as [Hp Hs']. pose proof (insert_new _ _ _ E Hs) as Hnew.
  assert (p (ch_id ch2) = None) as Hn by (destruct (p (ch_id ch2)) eqn:Ep; [exfalso; apply Hnew, Hk; by rewrite Ep|done]).
  change (channels_ok l p). constructor.
  - by apply Hs'.
  - rewrite Hp. constructor; [|done]. rewrite Hn. intros Hx. by destruct Hx.
  - intros id Hid. unfold ids. rewrite Hp. apply elem_of_cons. right. by apply Hk.
Qed.

Lemma mpxy_step_ok (a b : mpxy St * (Z -> option writing)) :
  channels_ok (mx_channels a.1) a.2 -> mpxy_step a b -> channels_ok (mx_channels b.1) b.2.
Proof.
  intros Hok Hst. destruct Hst as [s p self key c Hc|s p self key id base count rc s' E|s p self key id base count ch staged E Hp
    |s p id key staged n f Hp Hf|s p id key staged Hp|s p self key lo hi flags|s p ch Hc|s p ch|s p keys|s p self|s p m sh o]; cbn [fst snd] in *.
  - destruct (call_channels self key c s) as [_ [[P ->]|(id & base & count & ch & staged & Ec & _)]]; [by apply mark_ok|by destruct (Hc _ _ _ Ec)].
  - by destruct (stage_rest _ _ _ _ _ _ _ _ E) as [_ ->].
  - by eapply stage_ok.
  - by eapply commit_store_ok.
  - destruct Hok as [Hs Hm Hk]. constructor; [done| |].
    + eapply Forall_impl; [exact Hm|]. intros c Hw. destruct (decide (ch_id c = id)) as [Ei|Ei];
        [rewrite Ei, fn_lookup_insert; exact (writing_msi_ok _ _ Hw)|by rewrite fn_lookup_insert_ne by done].
    + intros i. destruct (decide (i = id)) as [->|Hi]; [by rewrite fn_lookup_insert|rewrite fn_lookup_insert_ne by done; apply Hk].
  - unfold mpxy_set_shmem. repeat case_match; done.
  - by apply register_ok.
  - unfold mpxy_channel_events_due. destruct (negb _); [done|]. by apply (mark_ok (fun i => i =? ch_id ch)).
  - unfold mpxy_indicate. destruct (negb _); [done|]. apply (fmap_ok _ _ p); [done|done|]. intros c _ Hw. by split; [|apply writing_due].
  - done.
  - done.
Qed.

(** C28: an MSI goes only where its domain could have written itself. Whatever
    the domains ask for, in whatever order, and whatever is in the shared
    memory: each word that [mpxy_indicate] writes with the monitor's rights
    is the enabled target of a channel, aligned, and was accepted by
    [smode_range_ok] for a domain that sees the channel; also when it runs
    between two stores of a write of that channel's attributes.  That is so as
    long as two such writes of one channel do not overlap, and no store of one
    falls between [mpxy_indicate]'s own loads of that channel. *)
Theorem mpxy_msi_checked s0 s (p : Z -> option writing) (keys : nat) (a v : Z) :
  mx_channels s0 = [] -> rtc mpxy_step (s0, fun _ => None) (s, p) -> Poke a v ∈ (mpxy_indicate s keys).1 ->
  exists ch, ch ∈ mx_channels s /\ a = msi_addr ch /\ v = ch_msi_data ch /\ Z.land a 3 = 0 /\
    channel_visible (ch_msi_domain ch) ch = true /\ smode_range_ok (ch_msi_domain ch) a 4 = true.
Proof.
  intros H0 Hs Hp.
  assert (channels_ok (mx_channels s) p) as [_ Hm _].
  { assert (channels_ok (mx_channels (s0, fun _ : Z => @None writing).1) (fun _ => None)) as Hok
      by (cbn; rewrite H0; constructor; [constructor|constructor|done]).
    clear H0 Hp. change (channels_ok (mx_channels (s, p).1) (s, p).2).
    change (fun _ : Z => @None writing) with (s0, fun _ : Z => @None writing).2 in Hok at 2. revert Hok.
    generalize (s0, fun _ : Z => @None writing), (s, p), Hs. clear. intros a b Hab.
    induction Hab as [|x y z Hxy _ IH]; [done|]. intros Hok. by eapply IH, mpxy_step_ok. }
  unfold mpxy_indicate in Hp. destruct (negb _); [by apply not_elem_of_nil in Hp|].
  apply list_elem_of_bind in Hp as (ch & Hp & Hin). exists ch. rewrite Forall_forall in Hm. specialize (Hm ch Hin).
  unfold channel_indications in Hp. destruct (negb _); [by apply not_elem_of_nil in Hp|].
  destruct (truth (ch_msi_control ch)) eqn:Ec.
  - apply list_elem_of_singleton in Hp as [= -> ->]. destruct (writing_msi_ok _ _ Hm (proj1 (truth_true _) Ec)) as (H1 & H2 & H3 & H4).
    rewrite H2. by split_and!.
  - destruct (truth (Z.land _ _)); [|by apply not_elem_of_nil in Hp]. by apply list_elem_of_fmap in Hp as (k & ? & _).
Qed.

(** ** Whose channels a domain sees *)

#[local] Abbreviation seen key := (fun c => channel_visible key c = true).
#[local] Abbreviation hidden key := (fun c => channel_visible key c = false).

(** The state without the channels the domain does not see *)
Definition restrict (key : Z) (s : mpxy St) : mpxy St := s <| mx_channels := filter (seen key) (mx_channels s) |>.

Lemma find_filter (key id : Z) (l : list mpxy_channel) :
  ids_sorted l ->
  List.find (fun c => ch_id c =? id) (filter (seen key) l) =
    match List.find (fun c => ch_id c =? id) l with Some c => if channel_visible key c then Some c else None | None => None end.
Proof.
  induction l as [|x l IH]; intros Hs; [done|]. inversion Hs as [|? ? Hs1 Hs2]; subst. specialize (IH Hs1).
  rewrite filter_cons. cbn [List.find]. case_decide as Hv; cbn [List.find].
  - destruct (ch_id x =? id); [by rewrite Hv|done].
  - apply not_true_is_false in Hv. destruct (Z.eqb_spec (ch_id x) id) as [E|]; [|done]. rewrite Hv.
    destruct (List.find _ (filter _ l)) as [c|] eqn:Ef; [|done]. exfalso.
    apply find_some in Ef as [Hin Hc]. apply Z.eqb_eq in Hc. apply list_elem_of_In, list_elem_of_filter in Hin as [_ Hin].
    rewrite Forall_forall in Hs2. specialize (Hs2 (ch_id c)). rewrite E, <- Hc in Hs2.
    enough (ch_id c < ch_id c) by lia. apply Hs2, list_elem_of_fmap. by exists c.
Qed.

Lemma find_restrict (key id : Z) s : ids_sorted (mx_channels s) -> channel_find key (restrict key s) id = channel_find key s id.
Proof.
  intros Hs. unfold channel_find. change (mx_channels (restrict key s)) with (filter (seen key) (mx_channels s)).
  rewrite find_filter by done. destruct (List.find _ _) as [c|]; [|done]. destruct (channel_visible key c) eqn:E; [by rewrite E|done].
Qed.

Lemma ids_loop_filter (key : Z) (l : list mpxy_channel) (mem start i n : Z) (m : bytes_mem) :
  ids_loop key (filter (seen key) l) mem start i n m = ids_loop key l mem start i n m.
Proof.
  revert i n m. induction l as [|x l IH]; intros i n m; [done|]. rewrite filter_cons. cbn [ids_loop].
  case_decide as Hv; cbn [ids_loop].
  - rewrite Hv. cbn [negb]. destruct (_ && _); apply IH.
  - apply not_true_is_false in Hv. rewrite Hv. apply IH.
Qed.

Definition restricted (key : Z) (r : Z * mpxy St) : Z * mpxy St := (r.1, restrict key r.2).

Lemma read_loop_restrict (key : Z) (n : nat) ch (prot : bool) (mem base i : Z) s :
  read_loop n ch prot mem base i (restrict key s) = restricted key (read_loop n ch prot mem base i s).
Proof.
  revert i s. induction n as [|n IH]; intros i s; cbn [read_loop]; [done|].
  destruct (negb prot).
  - match goal with |- _ = restricted key (read_loop n _ _ _ _ ?j ?t) => exact (IH j t) end.
  - destruct (op_read_attr ch) as [f|]; [|done]. change (mx_ops (restrict key s)) with (mx_ops s).
    destruct (f _ _) as [[rc val] o]. destruct (truth rc); [done|].
    match goal with |- _ = restricted key (read_loop n _ _ _ _ ?j ?t) => exact (IH j t) end.
Qed.

Lemma prot_write_restrict (key : Z) (n : nat) ch (mem base i : Z) s :
  prot_write_loop n ch mem base i (restrict key s) = restricted key (prot_write_loop n ch mem base i s).
Proof.
  revert i s. induction n as [|n IH]; intros i s; cbn [prot_write_loop]; [done|].
  destruct (op_write_attr ch) as [f|]; [|done]. change (mx_ops (restrict key s)) with (mx_ops s).
  change (mx_mem (restrict key s)) with (mx_mem s). destruct (f _ _ _) as [rc o]. destruct (truth rc); [done|].
  match goal with |- _ = restricted key (prot_write_loop n _ _ _ ?j ?t) => exact (IH j t) end.
Qed.

Lemma update_filter (P : mpxy_channel -> bool) (b : bool) (id : Z) (f : mpxy_channel -> mpxy_channel) (l : list mpxy_channel) :
  (forall c, P (f c) = P c) ->
  filter (fun c => P c = b) ((fun c => if ch_id c =? id then f c else c) <$> l) =
    (fun c => if ch_id c =? id then f c else c) <$> filter (fun c => P c = b) l.
Proof.
  intros Hf. induction l as [|x l IH]; [done|]. rewrite fmap_cons, !filter_cons.
  destruct (ch_id x =? id) eqn:E; [rewrite Hf|]; case_decide; rewrite ?fmap_cons, ?E, IH; done.
Qed.

Lemma update_hidden (key : Z) s ch (f : mpxy_channel -> mpxy_channel) :
  ids_sorted (mx_channels s) -> channel_find key s (ch_id ch) = Some ch -> (forall c, channel_visible key (f c) = channel_visible key c) ->
  filter (hidden key) (mx_channels (channel_update s (ch_id ch) f)) = filter (hidden key) (mx_channels s).
Proof.
  intros Hs Hf Hv. destruct (find_in _ _ _ _ Hf) as [Hin Hvis]. unfold channel_update.
  change (mx_channels (s <| mx_channels := ?l |>)) with l. rewrite update_filter by done.
  rewrite <- (list_fmap_id (filter (hidden key) (mx_channels s))) at 2. apply list_fmap_ext. intros i c Hc.
  apply list_elem_of_lookup_2, list_elem_of_filter in Hc as [Hh Hc].
  destruct (Z.eqb_spec (ch_id c) (ch_id ch)) as [E|]; [|done].
  by rewrite (sorted_unique _ c ch Hs Hc Hin E), Hvis in Hh.
Qed.

Lemma attr_range_restrict (key : Z) s (id base count : Z) :
  ids_sorted (mx_channels s) -> attr_range_check key (restrict key s) id base count = attr_range_check key s id base count.
Proof. intros Hs. unfold attr_range_check, channel_of. by rewrite find_restrict. Qed.

Lemma filter_seen_twice (key : Z) (l : list mpxy_channel) : filter (seen key) (filter (seen key) l) = filter (seen key) l.
Proof. rewrite list_filter_filter. apply list_filter_iff. intros c. tauto. Qed.

(** Up to whether an indication of some channel is due at all *)
Definition quiet (s : mpxy St) : mpxy St := s <| mx_indications_due := false |>.

Lemma quiet_eq s s' :
  quiet s = quiet s' ->
  mx_channels s = mx_channels s' /\ mx_mem s = mx_mem s' /\ mx_ops s = mx_ops s' /\ mx_shmem s = mx_shmem s' /\
  mx_nr_sse_events s = mx_nr_sse_events s'.
Proof. destruct s, s'. unfold quiet, field_update. cbn. by intros [= -> -> -> -> ->]. Qed.

Lemma update_seen (key : Z) s ch (f : mpxy_channel -> mpxy_channel) :
  ids_sorted (mx_channels s) -> ch ∈ mx_channels s -> channel_visible key ch = false -> (forall c, channel_visible key (f c) = channel_visible key c) ->
  filter (seen key) (mx_channels (channel_update s (ch_id ch) f)) = filter (seen key) (mx_channels s).
Proof.
  intros Hs Hin Hh Hv. unfold channel_update. change (mx_channels (s <| mx_channels := ?l |>)) with l.
  rewrite (update_filter (channel_visible key) true) by done.
  rewrite <- (list_fmap_id (filter (seen key) (mx_channels s))) at 2. apply list_fmap_ext. intros i c Hc.
  apply list_elem_of_lookup_2, list_elem_of_filter in Hc as [Hvis Hc].
  destruct (Z.eqb_spec (ch_id c) (ch_id ch)) as [E|]; [|done].
  by rewrite (sorted_unique _ c ch Hs Hc Hin E), Hh in Hvis.
Qed.

Lemma due_one_restrict (key : Z) (a s : mpxy St) (id : Z) :
  ids_sorted (mx_channels s) -> quiet a = quiet (restrict key s) -> quiet (due_one a id) = quiet (restrict key (due_one s id)).
Proof.
  intros Hs E. destruct (quiet_eq _ _ E) as (Ec & Em & Eo & Esh & En).
  change (mx_channels (restrict key s)) with (filter (seen key) (mx_channels s)) in Ec.
  unfold due_one. rewrite Ec, find_filter by done. destruct (List.find _ (mx_channels s)) as [ch|] eqn:Ef; [|done].
  apply find_some in Ef as [Hin _]. apply list_elem_of_In in Hin. unfold mpxy_channel_events_due.
  destruct (channel_visible key ch) eqn:Ev; destruct (negb _); try done.
  - destruct a as [la sha na ia ma oa], s as [l sh n i m o]. cbn in *. subst. unfold quiet, restrict, channel_update, field_update. cbn.
    f_equal. by rewrite (update_filter (channel_visible key) true).
  - pose proof (update_seen key s ch (fun c => c <| ch_events_due := true |>) Hs Hin Ev ltac:(done)) as Eu.
    destruct a as [la sha na ia ma oa], s as [l sh n i m o]. cbn in *. subst.
    unfold quiet, restrict, channel_update, field_update in *. cbn in *. f_equal. by rewrite Eu.
Qed.

Lemma ids_marked (P : Z -> bool) (l : list mpxy_channel) : ids (mark_due P <$> l) = ids l.
Proof. unfold ids. rewrite <- list_fmap_compose. apply list_fmap_ext. intros i c _. unfold compose, mark_due. by destruct (P _). Qed.

Lemma protocol_due_restrict (key : Z) (a s : mpxy St) (due : list Z) :
  ids_sorted (mx_channels s) -> quiet a = quiet (restrict key s) ->
  quiet (protocol_due a due) = quiet (restrict key (protocol_due s due)).
Proof.
  unfold protocol_due. revert a s. induction due as [|id due IH]; intros a s Hs E; [done|]. cbn [foldl]. apply IH.
  - destruct (due_one_spec s id) as (P & d & ->). change (ids_sorted (mark_due P <$> mx_channels s)). unfold ids_sorted. by rewrite ids_marked.
  - by apply due_one_restrict.
Qed.

Lemma quiet_mem (a b : mpxy St) (m : bytes_mem) : quiet a = quiet b -> quiet (a <| mx_mem := m |>) = quiet (b <| mx_mem := m |>).
Proof. destruct a, b. unfold quiet, field_update. cbn. by intros [= -> -> -> -> ->]. Qed.

Lemma call_restrict (self key : Z) (c : mpxy_call) s :
  ids_sorted (mx_channels s) ->
  (do_call self key c (restrict key s)).1 = (do_call self key c s).1 /\
  quiet (do_call self key c (restrict key s)).2 = quiet (restrict key (do_call self key c s).2).
Proof.
  intros Hs. assert (this_shmem self (restrict key s) = this_shmem self s) as Esh by done.
  assert (forall id, channel_of key (restrict key s) id = channel_of key s id) as Ech
    by (intros id; unfold channel_of; by rewrite find_restrict).
  destruct c as [start|id base count|id base count|id msg len want|id]; cbn [do_call].
  - unfold mpxy_get_channel_ids. rewrite Esh. destruct (this_shmem self s) as [mem|]; [|done].
    change (mx_channels (restrict key s)) with (filter (seen key) (mx_channels s)). rewrite filter_seen_twice, ids_loop_filter.
    change (mx_mem (restrict key s)) with (mx_mem s). destruct (_ || _); [done|]. by destruct (ids_loop _ _ _ _ _ _).
  - unfold mpxy_read_attributes. rewrite Esh, attr_range_restrict by done. destruct (this_shmem self s) as [mem|]; [|done].
    destruct (attr_range_check key s id base count) as [|[ch prot]]; [done|].
    rewrite read_loop_restrict. by destruct (read_loop _ _ _ _ _ _ _).
  - unfold mpxy_write_attributes, stage_attributes. rewrite Esh, attr_range_restrict by done. destruct (this_shmem self s) as [mem|]; [|done].
    destruct (attr_range_check key s id base count) as [|[ch prot]]; [done|].
    destruct prot; [rewrite prot_write_restrict; by destruct (prot_write_loop _ _ _ _ _ _)|].
    change (mx_mem (restrict key s)) with (mx_mem s). destruct (stage_loop _ _ _ _ _ _) as [rc staged].
    destruct (truth rc); [done|]. destruct (negb _); [done|]. cbn [fst snd]. split; [done|]. f_equal.
    unfold restrict, channel_update. change (mx_channels (s <| mx_channels := ?l |>)) with l.
    rewrite (update_filter (channel_visible key) true) by done. done.
  - unfold mpxy_send_message. rewrite Esh, Ech. destruct (this_shmem self s) as [mem|]; [|done].
    destruct (channel_of key s id) as [ch|]; [|done]. destruct (_ || _); [done|]. destruct (_ || _); [done|].
    change (mx_mem (restrict key s)) with (mx_mem s). change (mx_ops (restrict key s)) with (mx_ops s).
    destruct (op_send _ _ _ _ _ _) as [[[[rc buf] rl] due] o].
    assert (quiet (protocol_due ((restrict key s) <| mx_ops := o |>) due) = quiet (restrict key (protocol_due (s <| mx_ops := o |>) due))) as E
      by (by apply protocol_due_restrict).
    rewrite !protocol_due_mem. destruct (_ && _); [|done]. destruct (_ <? _); [done|]. split; [done|]. exact (quiet_mem _ _ _ E).
  - unfold mpxy_get_notifications. rewrite Esh, Ech. destruct (this_shmem self s) as [mem|]; [|done].
    destruct (channel_of key s id) as [ch|]; [|done]. destruct (negb _); [done|].
    change (mx_mem (restrict key s)) with (mx_mem s). change (mx_ops (restrict key s)) with (mx_ops s).
    destruct (op_get_events _ _ _) as [[[[rc buf] ev] due] o]. set (m := set_bytes _ _ _).
    assert (quiet (protocol_due ((restrict key s) <| mx_ops := o |> <| mx_mem := m |>) due) =
      quiet (restrict key (protocol_due (s <| mx_ops := o |> <| mx_mem := m |>) due))) as E by (by apply protocol_due_restrict).
    destruct (truth rc); [done|]. split; [done|]. exact (quiet_mem _ _ _ E).
Qed.

Lemma mark_hidden (P : Z -> bool) (key : Z) (l : list mpxy_channel) :
  filter (hidden key) (mark_due P <$> l) = mark_due P <$> filter (hidden key) l.
Proof.
  induction l as [|x l IH]; [done|]. rewrite fmap_cons, !filter_cons.
  assert (channel_visible key (mark_due P x) = channel_visible key x) as -> by (unfold mark_due; by destruct (P _)).
  case_decide; rewrite ?fmap_cons, IH; done.
Qed.

(** C29: a domain's calls are about its own channels. For the same state of
    the protocols, a call returns, writes to memory and leaves to the
    protocols what it would if the channels its domain does not see were not
    in the list, and does to the channels the domain sees what it would then.
    Of the others nothing changes but that events become due, where the
    protocol behind the channel of the call makes them so. *)
Theorem mpxy_isolated (self key : Z) (c : mpxy_call) s :
  ids_sorted (mx_channels s) ->
  let '(rc, v, s') := do_call self key c s in
  let '(rc1, v1, s1) := do_call self key c (restrict key s) in
  rc1 = rc /\ v1 = v /\ mx_mem s1 = mx_mem s' /\ mx_ops s1 = mx_ops s' /\ mx_shmem s1 = mx_shmem s' /\
  mx_channels s1 = filter (seen key) (mx_channels s') /\
  exists P, filter (hidden key) (mx_channels s') = mark_due P <$> filter (hidden key) (mx_channels s).
Proof.
  intros Hs. destruct (call_restrict self key c s Hs) as [E1 E2]. destruct (call_channels self key c s) as [_ Hc].
  destruct (do_call self key c s) as [[rc v] s']. destruct (do_call self key c (restrict key s)) as [[rc1 v1] s1]. cbn [fst snd] in *.
  injection E1 as -> ->. apply quiet_eq in E2 as (H1 & H2 & H3 & H4 & _). split_and!; try done.
  destruct Hc as [[P ->]|(id & base & count & ch & staged & _ & E & ->)]; [exists P; apply mark_hidden|].
  apply stage_checked in E as [Hf _]. exists (fun _ => false). rewrite update_hidden by done. symmetry. apply list_fmap_id.
Qed.

(** ** The list of ids, page by page *)

Fixpoint set_words (m : bytes_mem) (mem k : Z) (vs : list Z) : bytes_mem :=
  match vs with [] => m | v :: vs => set_words (set_word m mem k v) mem (k + 1) vs end.

Lemma set_words_out (m : bytes_mem) (mem k j : Z) (vs : list Z) :
  (j < k \/ k + Z.of_nat (length vs) <= j) -> word_at (set_words m mem k vs) mem j = word_at m mem j.
Proof.
  revert m k. induction vs as [|v vs IH]; intros m k Hj; cbn [set_words length] in *; [done|].
  rewrite IH by lia. apply word_set_ne. lia.
Qed.

Lemma set_words_at (m : bytes_mem) (mem k : Z) (vs : list Z) (i : nat) (v : Z) :
  vs !! i = Some v -> word_at (set_words m mem k vs) mem (k + Z.of_nat i) = low32 v.
Proof.
  revert m k i. induction vs as [|x vs IH]; intros m k [|i] H; cbn [set_words] in *; try done.
  - injection H as ->. rewrite Z.add_0_r, set_words_out by lia. apply word_set.
  - replace (k + Z.of_nat (S i)) with (k + 1 + Z.of_nat i) by lia. by apply IH.
Qed.

Lemma ids_loop_spec (key : Z) (l : list mpxy_channel) (mem start i n : Z) (m : bytes_mem) :
  Forall (seen key) l -> 0 <= n ->
  let out := take (Z.to_nat (ids_max - n)) (drop (Z.to_nat (start - i)) (ids l)) in
  ids_loop key l mem start i n m = (n + Z.of_nat (length out), set_words m mem (2 + n) out).
Proof.
  intros Hv. revert i n m. induction l as [|c l IH]; intros i n m Hn; cbn [ids_loop].
  { cbn [ids fmap list_fmap]. rewrite drop_nil, take_nil. cbn. by rewrite Z.add_0_r. }
  apply Forall_cons in Hv as [Hc Hl]. rewrite Hc. cbn [negb]. change (ids (c :: l)) with (ch_id c :: ids l). cbv zeta.
  destruct (Z.leb_spec start i); cbn [andb].
  - destruct (Z.ltb_spec n ids_max).
    + rewrite (IH Hl) by lia. cbv zeta. replace (Z.to_nat (start - i)) with 0%nat by lia. replace (Z.to_nat (start - (i + 1))) with 0%nat by lia.
      rewrite !drop_0. replace (Z.to_nat (ids_max - n)) with (S (Z.to_nat (ids_max - (n + 1)))) by lia.
      rewrite firstn_cons. cbn [length set_words]. f_equal; [lia|]. f_equal. lia.
    + rewrite (IH Hl) by lia. cbv zeta. replace (Z.to_nat (ids_max - n)) with 0%nat by lia. done.
  - rewrite (IH Hl) by lia. cbv zeta. replace (Z.to_nat (start - i)) with (S (Z.to_nat (start - (i + 1)))) by lia. done.
Qed.

(** The words of the answer: how many ids are left, how many there are here,
    and the ids *)
Definition page_remaining (m : bytes_mem) (mem : Z) : Z := word_at m mem 0.
Definition page_ids (m : bytes_mem) (mem : Z) : list Z :=
  (fun i => word_at m mem (2 + Z.of_nat i)) <$> seq 0 (Z.to_nat (word_at m mem 1)).

Lemma channel_ids_spec (self key : Z) s (mem start : Z) :
  this_shmem self s = Some mem -> Forall (fun c => 0 <= ch_id c < 2 ^ 32) (mx_channels s) ->
  let l := ids (filter (seen key) (mx_channels s)) in
  Z.of_nat (length l) < 2 ^ 32 -> 0 <= start -> start < Z.of_nat (length l) \/ start = 0 ->
  let '(rc, s') := mpxy_get_channel_ids self key s start in
  let page := take (Z.to_nat ids_max) (drop (Z.to_nat start) l) in
  rc = SBI_SUCCESS /\ page_ids (mx_mem s') mem = page /\
  page_remaining (mx_mem s') mem = Z.of_nat (length l) - start - Z.of_nat (length page) /\
  (exists m, s' = s <| mx_mem := m |>).
Proof.
  intros Em Hid l Hlen H0 Hst. unfold mpxy_get_channel_ids. rewrite Em.
  assert (length (filter (seen key) (mx_channels s)) = length l) as El by (unfold l, ids; by rewrite length_fmap). rewrite El.
  destruct ((_ <? start) || _) eqn:Eb.
  { exfalso. apply orb_prop in Eb as [Eb|Eb]; [apply Z.ltb_lt in Eb; lia|].
    apply andb_prop in Eb as [Et Eb]. apply truth_true in Et. apply Z.eqb_eq in Eb. lia. }
  rewrite <- ids_loop_filter, ids_loop_spec; [|apply Forall_forall; intros c Hc; by apply list_elem_of_filter in Hc as [? _]|lia].
  rewrite !Z.sub_0_r. fold l. set (page := take _ _). cbv zeta.
  assert (length page <= length l)%nat as Hpl by (unfold page; rewrite length_take, length_drop; lia).
  assert (length page <= 1022)%nat as Hpm by (unfold page; rewrite length_take; change ids_max with 1022; lia).
  set (m1 := set_words (mx_mem s) mem 2 page).
  assert (page_remaining (set_word (set_word m1 mem 0 (low32 (Z.of_nat (length l) - start - (0 + Z.of_nat (length page))))) mem 1
    (low32 (0 + Z.of_nat (length page)))) mem = Z.of_nat (length l) - start - Z.of_nat (length page)) as Hr.
  { unfold page_remaining. rewrite word_set_ne, word_set by done. unfold low32. rewrite Zmod_mod.
    assert (Z.of_nat (length page) <= Z.of_nat (length l) - start).
    { unfold page. rewrite length_take, length_drop. lia. }
    rewrite Z.mod_small by lia. lia. }
  split_and!; [done| |exact Hr|by eexists].
  cbn [snd]. change (mx_mem (s <| mx_mem := ?m |>)) with m. unfold page_ids. rewrite word_set.
  assert (low32 (low32 (0 + Z.of_nat (length page))) = Z.of_nat (length page)) as -> by (unfold low32; rewrite Zmod_mod; apply Z.mod_small; lia).
  rewrite Nat2Z.id.
  apply list_eq. intros i. rewrite list_lookup_fmap. destruct (decide (i < length page)%nat) as [Hi|Hi].
  - rewrite lookup_seq_lt by done. cbn [fmap option_fmap option_map]. rewrite !word_set_ne by lia.
    destruct (lookup_lt_is_Some_2 page i Hi) as [v Hv]. rewrite Hv. cbn [Nat.add]. unfold m1. rewrite (set_words_at _ _ _ _ _ _ Hv).
    f_equal. unfold low32. apply Z.mod_small. unfold page in Hv. apply lookup_take_Some in Hv as [Hv _]. rewrite lookup_drop in Hv.
    apply list_elem_of_lookup_2 in Hv. unfold l, ids in Hv. apply list_elem_of_fmap in Hv as (c & -> & Hc).
    apply list_elem_of_filter in Hc as [_ Hc]. rewrite Forall_forall in Hid. by apply Hid.
  - rewrite lookup_seq_ge, (lookup_ge_None_2 page i) by lia. done.
Qed.

(** S-mode's loop over the pages *)
Fixpoint read_pages (fuel : nat) (self key : Z) (mem : Z) s (start : Z) : list Z :=
  match fuel with
  | O => []
  | S fuel =>
      let '(rc, s') := mpxy_get_channel_ids self key s start in
      let page := page_ids (mx_mem s') mem in
      if page_remaining (mx_mem s') mem =? 0 then page
      else page ++ read_pages fuel self key mem s' (start + Z.of_nat (length page))
  end.

Lemma read_pages_spec (fuel : nat) (self key mem : Z) s (start : Z) :
  this_shmem self s = Some mem -> Forall (fun c => 0 <= ch_id c < 2 ^ 32) (mx_channels s) ->
  let l := ids (filter (seen key) (mx_channels s)) in
  Z.of_nat (length l) < 2 ^ 32 -> 0 <= start -> start < Z.of_nat (length l) \/ start = 0 ->
  (length l - Z.to_nat start < fuel)%nat -> read_pages fuel self key mem s start = drop (Z.to_nat start) l.
Proof.
  revert s start. induction fuel as [|fuel IH]; intros s start Em Hid l Hlen H0 Hst Hf; [lia|]. cbn [read_pages].
  pose proof (channel_ids_spec self key s mem start Em Hid Hlen H0 Hst) as H.
  destruct (mpxy_get_channel_ids self key s start) as [rc s']. fold l in H. cbv zeta in H. set (page := take _ _) in H.
  destruct H as (_ & Hp & Hr & (m & Es)). rewrite Hp, Hr.
  assert (length page = Nat.min 1022 (length l - Z.to_nat start)) as Hpl by (unfold page; by rewrite length_take, length_drop).
  destruct (Z.eqb_spec (Z.of_nat (length l) - start - Z.of_nat (length page)) 0) as [E|E].
  - unfold page. apply take_ge. rewrite length_drop. change (Z.to_nat ids_max) with 1022%nat. lia.
  - subst s'. change (mx_channels (s <| mx_mem := m |>)) with (mx_channels s) in *.
    rewrite IH; [|done|done|done|lia|change (ids (filter _ (mx_channels (s <| mx_mem := m |>)))) with l; lia|
      change (ids (filter _ (mx_channels (s <| mx_mem := m |>)))) with l; lia].
    change (ids (filter _ (mx_channels (s <| mx_mem := m |>)))) with l.
    replace (Z.to_nat (start + Z.of_nat (length page))) with (Z.to_nat start + length page)%nat by lia.
    rewrite <- drop_drop. assert (page = take (length page) (drop (Z.to_nat start) l)) as Ep.
    { unfold page. rewrite length_take. destruct (Nat.min_spec (Z.to_nat ids_max) (length (drop (Z.to_nat start) l))) as [[_ ->]|[? ->]];
        [done|]. by rewrite !take_ge by lia. }
    rewrite Ep at 1. apply take_drop.
Qed.

(** S-mode can list its channels. Asking for the ids page by page, each
    call starting after what the one before returned, until none remain, it
    gets every channel its domain sees once, in the order of their ids, and
    no other; the loop ends. *)
Theorem mpxy_ids_listed (fuel : nat) (self key mem : Z) s :
  this_shmem self s = Some mem -> ids_sorted (mx_channels s) -> Forall (fun c => 0 <= ch_id c < 2 ^ 32) (mx_channels s) ->
  Z.of_nat (length (mx_channels s)) < 2 ^ 32 -> (length (mx_channels s) < fuel)%nat ->
  read_pages fuel self key mem s 0 = ids (filter (seen key) (mx_channels s)) /\
  StronglySorted Z.lt (read_pages fuel self key mem s 0).
Proof.
  intros Em Hs Hid Hlen Hf. assert (length (ids (filter (seen key) (mx_channels s))) <= length (mx_channels s))%nat as Hl.
  { unfold ids. rewrite length_fmap. apply length_filter. }
  assert (read_pages fuel self key mem s 0 = ids (filter (seen key) (mx_channels s))) as E.
  { rewrite (read_pages_spec fuel self key mem s 0 Em Hid) by lia. done. }
  split; [exact E|]. rewrite E. clear -Hs. unfold ids_sorted, ids in Hs. revert Hs. generalize (mx_channels s). intros l Hs.
  induction l as [|c l IH]; [constructor|]. inversion Hs as [|? ? Hs1 Hs2]; subst. rewrite filter_cons. case_decide; [|by apply IH].
  constructor; [by apply IH|]. rewrite Forall_forall in *. intros x Hx. apply Hs2. apply list_elem_of_fmap in Hx as (c' & -> & Hc).
  apply list_elem_of_filter in Hc as [_ Hc]. apply list_elem_of_fmap. by exists c'.
Qed.

(** ** Attributes *)

(** What a write of [val] to a standard attribute leaves there *)
Definition attr_written ch (id val : Z) : Z :=
  if id =? MPXY_ATTR_EVENTS_STATE_CONTROL
  then if truth (Z.land (ch_capability ch) MPXY_CAP_EVENTS_STATE) then val else std_attr_read ch id
  else if truth (Z.land (ch_capability ch) MPXY_CAP_MSI) then val else 0.
Definition attr_writable (id : Z) : Prop := MPXY_ATTR_MSI_CONTROL <= id <= MPXY_ATTR_EVENTS_STATE_CONTROL.

Lemma std_write_spec ch ch' (id val : Z) :
  std_attr_write ch id val = (SBI_SUCCESS, ch') ->
  attr_writable id /\ ch_capability ch' = ch_capability ch /\ std_attr_read ch' id = attr_written ch id val /\
  (forall j, j <> id -> std_attr_read ch' j = std_attr_read ch j).
Proof.
  unfold std_attr_write, attr_writable, attr_written. intros H.
  repeat match type of H with (if ?b then _ else _) = _ => destruct b eqn:?; try discriminate end;
    injection H as <-; bool_prop; subst; (split_and!; [done|done|done| |]); try done;
    intros j Hj; unfold std_attr_read; cbn;
    repeat match goal with |- (if ?a =? ?b then _ else _) = _ => destruct (Z.eqb_spec a b); [done || congruence|] end; done.
Qed.

Lemma stage_loop_spec (n : nat) ch ch' (m : bytes_mem) (mem base i : Z) :
  0 <= base -> 0 <= i -> base + i + Z.of_nat n <= MPXY_ATTR_STD_COUNT ->
  stage_loop n ch m mem base i = (SBI_SUCCESS, ch') ->
  ch_capability ch' = ch_capability ch /\
  forall id, if decide (base + i <= id < base + i + Z.of_nat n)
    then attr_writable id /\ std_attr_read ch' id = attr_written ch id (word_at m mem (id - base))
    else std_attr_read ch' id = std_attr_read ch id.
Proof.
  unfold MPXY_ATTR_STD_COUNT. intros Hb. revert ch i. induction n as [|n IH]; intros ch i Hi Hle; cbn [stage_loop].
  { intros [= <-]. split; [done|]. intros id. by rewrite decide_False by lia. }
  assert (low32 (base + i) = base + i) as -> by (apply Z.mod_small; lia).
  destruct (std_attr_write ch (base + i) (word_at m mem i)) as [rc ch1] eqn:E.
  destruct (truth rc) eqn:Et; [intros [= -> _]; done|]. unfold truth in Et. apply negb_false_iff, Z.eqb_eq in Et. subst rc.
  destruct (std_write_spec _ _ _ _ E) as (Hw & Hcap & Hr & Ho). intros H.
  destruct (IH ch1 (i + 1) ltac:(lia) ltac:(lia) H) as [Hcap' Hids]. split; [congruence|]. intros id. specialize (Hids id).
  destruct (decide (id = base + i)) as [->|Hne].
  - rewrite decide_True by lia. rewrite decide_False in Hids by lia. rewrite Hids, Hr. split; [done|]. do 2 f_equal. lia.
  - case_decide.
    + rewrite decide_True by lia. destruct Hids as [? ->]. split; [done|]. unfold attr_written. by rewrite Hcap, Ho.
    + rewrite decide_False by lia. rewrite Hids. by apply Ho.
Qed.

Lemma commit_read (key : Z) (staged ch : mpxy_channel) (id : Z) :
  std_attr_read (stage_commit key staged ch) id = if decide (attr_writable id) then std_attr_read staged id else std_attr_read ch id.
Proof.
  unfold attr_writable. destruct (decide _) as [H|H]; unfold std_attr_read, MPXY_ATTR_MSG_PROT_ID, MPXY_ATTR_MSG_PROT_VERSION,
    MPXY_ATTR_MSG_DATA_MAX_LEN, MPXY_ATTR_MSG_SEND_TIMEOUT, MPXY_ATTR_MSG_COMPLETION_TIMEOUT, MPXY_ATTR_CHANNEL_CAPABILITY,
    MPXY_ATTR_EVENTS_STATE_CONTROL, MPXY_ATTR_SSE_EVENT_ID, MPXY_ATTR_MSI_CONTROL, MPXY_ATTR_MSI_ADDR_LOW, MPXY_ATTR_MSI_ADDR_HIGH,
    MPXY_ATTR_MSI_DATA in *;
    repeat (match goal with |- (if ?a =? ?b then _ else _) = _ => destruct (Z.eqb_spec a b); [done || lia|] end); done.
Qed.

Lemma update_lookup s (id : Z) (f : mpxy_channel -> mpxy_channel) (key : Z) ch :
  channel_find key s id = Some ch -> (forall c, ch_id (f c) = ch_id c) -> (forall c, channel_visible key (f c) = channel_visible key c) ->
  channel_find key (channel_update s id f) id = Some (f ch).
Proof.
  unfold channel_find, channel_update. change (mx_channels (s <| mx_channels := ?l |>)) with l. intros H Hid Hv. revert H.
  generalize (mx_channels s). intros l. induction l as [|c l IH]; [done|]. rewrite fmap_cons. cbn [List.find].
  destruct (ch_id c =? id) eqn:E; [rewrite Hid, E, Hv; destruct (channel_visible key c); [by intros [= ->]|done]|].
  rewrite E. exact IH.
Qed.

(** a write of standard attributes is all or nothing, and is read back. A
    call that succeeds has written each attribute of the range, as far as the
    channel can do what it stands for, and no other; a call that fails, for
    whatever reason, has changed nothing. *)
Theorem mpxy_attrs_write_read (self key : Z) s (id base count mem rc : Z) (s' : mpxy St) :
  is_ulong base -> is_ulong count -> base < MPXY_ATTR_MSG_PROT_START -> this_shmem self s = Some mem ->
  mpxy_write_attributes smode_range_ok self key s id base count = (rc, s') ->
  if rc =? SBI_SUCCESS
  then exists ch ch', channel_find key s id = Some ch /\ channel_find key s' id = Some ch' /\
    (forall j, if decide (base <= j < base + count)
       then std_attr_read ch' j = attr_written ch j (word_at (mx_mem s) mem (j - base))
       else std_attr_read ch' j = std_attr_read ch j)
  else s' = s.
Proof.
  intros Hb Hc Hbase Em. unfold mpxy_write_attributes, stage_attributes. rewrite Em.
  destruct (attr_range_check key s id base count) as [e|[ch prot]] eqn:Ec.
  { intros [= <- <-]. by destruct (e =? SBI_SUCCESS) eqn:Ee; [|done]; unfold attr_range_check in Ec; repeat case_match; simplify_eq. }
  unfold attr_range_check, channel_of in Ec. destruct (0xffffffff <? id); [done|].
  destruct (channel_find key s id) as [c|] eqn:Ef; [|done]. destruct (_ || _ || _) eqn:Eb; [done|].
  rewrite (proj2 (Z.leb_gt _ _) Hbase) in Ec. cbv zeta iota in Ec. destruct (Z.ltb_spec MPXY_ATTR_STD_COUNT (base +! count)); [done|].
  simplify_eq. bool_prop. unfold MPXY_SHMEM_SIZE, MPXY_ATTR_MSG_PROT_START, is_ulong in *. change (4096 / 4) with 1024 in *.
  assert (2 ^ 32 <= 2 ^ XLEN) as Hx by (apply pow2_le; pose proof XLEN_bounds; lia).
  assert (base +! count = base + count) as Eadd by (apply wrap_small; unfold is_ulong; lia). rewrite Eadd in *.
  destruct (stage_loop (Z.to_nat count) ch (mx_mem s) mem base 0) as [rc1 staged] eqn:Es.
  destruct (truth rc1) eqn:Et.
  { intros [= <- <-]. unfold truth in Et. apply negb_true_iff in Et. unfold SBI_SUCCESS. by rewrite Et. }
  unfold truth in Et. apply negb_false_iff, Z.eqb_eq in Et. subst rc1.
  destruct (stage_loop_spec (Z.to_nat count) ch staged (mx_mem s) mem base 0) as [Hcap Hids]; [lia|lia|lia|exact Es|].
  destruct (negb _); intros [= <- <-]; [done|]. cbn [Z.eqb SBI_SUCCESS]. exists ch, (stage_commit key staged ch).
  rewrite (find_id _ _ _ _ Ef). split_and!; [done|by apply update_lookup|]. intros j. specialize (Hids j). rewrite commit_read.
  rewrite Z.add_0_r, Z2Nat.id in Hids by lia. case_decide as Hj.
  - destruct Hids as [Hw <-]. by rewrite decide_True.
  - destruct (decide (attr_writable j)); [done|done].
Qed.

End Props.
