(* ===== verification/MpxyExample.v ===== *)
(** The MPXY core at work: two channels, one of them a single domain's; and
    an MSI target that is torn while it is replaced. *)

From stdpp Require Import functions relations.
From S2P Require Import Prelude Arch Mpxy MpxyProps.

#[local] Open Scope Z_scope.

Module TwoChannels.

#[local] Instance rv64 : Arch := RV64.
#[local] Instance config : Kconfig := qemu_virt.
#[local] Program Instance mpxy_config : MpxyConfig := {| CONFIG_MPXY_MSG_MAX_LEN := 1024 |}.
Next Obligation. lia. Qed.

(** A protocol without attributes of its own that echoes messages *)
#[local] Instance echo : MpxyOps unit := {|
  op_read_attr := fun _ => None;
  op_write_attr := fun _ => None;
  op_send := fun _ o _ msg _ _ => (SBI_SUCCESS, msg, Z.of_nat (length msg), [], o);
  op_get_events := fun _ o _ => (SBI_SUCCESS, [], MpxyEvents 0 0 0 0, [], o);
|}.

(** A gigabyte for each of two domains, above 4 GiB *)
Definition range_ok (key addr size : Z) : bool :=
  (0x100000000 + key * 0x40000000 <=? addr) && (addr + size <=? 0x140000000 + key * 0x40000000).

Definition channel (id owner : Z) : mpxy_channel :=
  MpxyChannel id 0 0x10000 4096 0 0 (Z.lor MPXY_CAP_SEND_WITH_RESP MPXY_CAP_GET_NOTIFICATIONS) 0 0 0 0 0 0 0 owner false.

Definition blank : mpxy unit := Mpxy [] (fun _ => shmem_none) 0 false (fun _ => 0) tt.
Definition page : Z := 0x100000000.
(** MSI_CONTROL to MSI_DATA: on, to 0x1_0000_2000, the value 5 *)
Definition attributes : bytes_mem := set_words (fun _ => 0) page 0 [1; 0x2000; 1; 5].
Definition one : mpxy unit := (mpxy_channel_register blank (channel 7 2)).2.
Definition two : mpxy unit := (mpxy_channel_register one (channel 3 0)).2.
Definition shared : mpxy unit := (mpxy_set_shmem range_ok 0 0 two page 0 0).2.
Definition filled : mpxy unit := shared <| mx_mem := attributes |> <| mx_shmem := mx_shmem shared |> <| mx_ops := tt |>.
Definition aimed : mpxy unit := (do_call range_ok 0 0 (CallWrite 3 MPXY_ATTR_MSI_CONTROL 4) filled).2.
Definition due : mpxy unit := mpxy_channel_events_due aimed (default (channel 0 0) (mx_channels aimed !! 0%nat)).

(** What is staged for it *)
Lemma filled_stages : exists ch staged, stage_attributes range_ok 0 0 filled 3 MPXY_ATTR_MSI_CONTROL 4 = inr (ch, staged).
Proof. vm_compute. eauto. Qed.

Lemma due_reached : exists p, rtc (mpxy_step range_ok) (blank, fun _ => None) (due, p).
Proof.
  destruct filled_stages as (ch & staged & E).
  destruct (write_steps range_ok filled (fun _ => None) 0 0 3 MPXY_ATTR_MSI_CONTROL 4 ch staged E eq_refl) as (s' & p & Hw & _ & Es).
  exists p. apply (rtc_l _ _ (one, fun _ => None)); [exact (StepRegister range_ok blank _ (channel 7 2) eq_refl)|].
  apply (rtc_l _ _ (two, fun _ => None)); [exact (StepRegister range_ok one _ (channel 3 0) eq_refl)|].
  apply (rtc_l _ _ (shared, fun _ => None)); [exact (StepShmem range_ok two _ 0 0 page 0 0)|].
  apply (rtc_l _ _ (filled, fun _ => None)); [exact (StepOthers range_ok shared _ attributes (mx_shmem shared) tt)|].
  assert (s' = aimed) as -> by (rewrite Es; unfold aimed, do_call; by destruct (mpxy_write_attributes _ _ _ _ _ _ _)).
  eapply rtc_r; [exact Hw|]. exact (StepDue range_ok aimed p (default (channel 0 0) (mx_channels aimed !! 0%nat))).
Qed.

Lemma due_pokes : (mpxy_indicate due 2).1 = [Poke 0x100002000 5].
Proof. vm_compute. reflexivity. Qed.

Lemma mpxy_msi_checked_witness :
  exists ch, ch ∈ mx_channels due /\ 0x100002000 = msi_addr ch /\ 5 = ch_msi_data ch /\ Z.land 0x100002000 3 = 0 /\
    channel_visible (ch_msi_domain ch) ch = true /\ range_ok (ch_msi_domain ch) 0x100002000 4 = true.
Proof.
  destruct due_reached as [p Hp].
  apply (mpxy_msi_checked range_ok blank due p 2 0x100002000 5); [reflexivity|exact Hp|].
  rewrite due_pokes. apply list_elem_of_singleton. reflexivity.
Defined.

Lemma two_sorted : ids_sorted (mx_channels filled).
Proof. vm_compute. repeat constructor. Qed.

(** Domain 0 asks for the channels: domain 1's is not there *)
Lemma mpxy_isolated_witness :
  let '(rc, v, s') := do_call range_ok 0 0 (CallIds 0) filled in
  let '(rc1, v1, s1) := do_call range_ok 0 0 (CallIds 0) (restrict 0 filled) in
  rc1 = rc /\ v1 = v /\ mx_mem s1 = mx_mem s' /\ mx_ops s1 = mx_ops s' /\ mx_shmem s1 = mx_shmem s' /\
  mx_channels s1 = filter (fun c => channel_visible 0 c = true) (mx_channels s') /\
  exists P, filter (fun c => channel_visible 0 c = false) (mx_channels s') =
    mark_due P <$> filter (fun c => channel_visible 0 c = false) (mx_channels filled).
Proof. apply (mpxy_isolated range_ok 0 0 (CallIds 0) filled). exact two_sorted. Defined.

Lemma filled_shmem : this_shmem 0 filled = Some page.
Proof. vm_compute. reflexivity. Qed.

Lemma filled_ids : ids (mx_channels filled) = [3; 7].
Proof. vm_compute. reflexivity. Qed.

Lemma filled_ids_bound : Forall (fun c => 0 <= ch_id c < 2 ^ 32) (mx_channels filled).
Proof.
  pose proof filled_ids as E. unfold ids in E. assert (Forall (fun id => 0 <= id < 2 ^ 32) (ch_id <$> mx_channels filled)) as H
    by (rewrite E; repeat (apply Forall_cons_2; [lia|]); apply Forall_nil_2).
  by apply Forall_fmap in H.
Qed.

Lemma filled_length : length (mx_channels filled) = 2%nat.
Proof. vm_compute. reflexivity. Qed.

Lemma mpxy_ids_listed_witness :
  read_pages 3 0 0 page filled 0 = ids (filter (fun c => channel_visible 0 c = true) (mx_channels filled)).
Proof.
  apply (mpxy_ids_listed 3 0 0 page filled filled_shmem two_sorted filled_ids_bound); rewrite filled_length; lia.
Defined.

Lemma mpxy_attrs_write_read_witness :
  exists ch ch', channel_find 0 filled 3 = Some ch /\ channel_find 0 (mpxy_write_attributes range_ok 0 0 filled 3 7 4).2 3 = Some ch' /\
    (forall j, if decide (7 <= j < 7 + 4)
       then std_attr_read ch' j = attr_written ch j (word_at (mx_mem filled) page (j - 7))
       else std_attr_read ch' j = std_attr_read ch j).
Proof.
  assert ((mpxy_write_attributes range_ok 0 0 filled 3 7 4).1 = SBI_SUCCESS) as E by (vm_compute; reflexivity).
  pose proof (mpxy_attrs_write_read range_ok 0 0 filled 3 7 4 page
    (mpxy_write_attributes range_ok 0 0 filled 3 7 4).1 (mpxy_write_attributes range_ok 0 0 filled 3 7 4).2
    ltac:(split; [lia|vm_compute; reflexivity]) ltac:(split; [lia|vm_compute; reflexivity]) ltac:(reflexivity) filled_shmem
    ltac:(destruct (mpxy_write_attributes range_ok 0 0 filled 3 7 4); reflexivity)) as H.
  rewrite E in H. exact H.
Defined.

(** ** A target that is replaced while it is used

    [mpxy_write_attributes] stores the parts of the target one after the
    other ([commit_stores]), with the MSI off in between; [mpxy_indicate], on
    another hart, loads whether it is on, and then the address. *)

(** The channel after the first [n] of them *)
Definition committed (n : nat) (key : Z) (staged ch : mpxy_channel) : mpxy_channel :=
  foldl (fun c f => f c) ch (take n (commit_stores key staged)).

Lemma committed_all (key : Z) (staged ch : mpxy_channel) : committed 7 key staged ch = stage_commit key staged ch.
Proof. destruct ch. reflexivity. Qed.

(** What [mpxy_indicate] writes to, when it loads [msi_control] before the
    store [n], and the address before the store [n'] *)
Definition indicated (n n' : nat) (key : Z) (staged ch : mpxy_channel) : option Z :=
  if truth (ch_msi_control (committed n key staged ch)) then Some (msi_addr (committed n' key staged ch)) else None.

Definition aim (addr : Z) : mpxy_channel :=
  (channel 3 0) <| ch_msi_control := 1 |> <| ch_msi_addr_low := low32 addr |> <| ch_msi_addr_high := high32_from_64 addr |>.

(** A domain's memory around 8 GiB; both targets are in it, and the monitor
    writes to an address that is neither, and not the domain's. *)
Definition around_8g (addr : Z) : bool := (0x1f0000000 <=? addr) && (addr + 4 <=? 0x210000000).

Lemma msi_target_torn :
  let old := aim 0x1f8000000 in let new := aim 0x208000000 in
  around_8g (msi_addr old) = true /\ around_8g (msi_addr new) = true /\
  indicated 0 2 0 new old = Some 0x108000000 /\ around_8g 0x108000000 = false.
Proof. vm_compute. split_and!; reflexivity. Qed.

(** Two writes that overlap, of two harts of the domain: the second starts
    when the first has stored the lower half, and the first finishes last but
    for that half.  What stays is a target that nobody checked. *)
Lemma msi_target_mixed :
  let a := aim 0x1f8000000 in let b := aim 0x208000000 in
  let c := foldl (fun c f => f c) (channel 3 0)
    (take 2 (commit_stores 0 a) ++ commit_stores 0 b ++ drop 2 (commit_stores 0 a)) in
  around_8g (msi_addr a) = true /\ around_8g (msi_addr b) = true /\ ch_msi_control c = 1 /\
  msi_addr c = 0x108000000 /\ around_8g (msi_addr c) = false.
Proof. vm_compute. split_and!; reflexivity. Qed.

End TwoChannels.
