(* ===== verification/MpxyRpmi.v ===== *)
(** RPMI service groups as MPXY channels, [services/mpxy/mpxy_rpmi.c] and
    [services/mpxy/mpxy_rpmi_groups.c], over the client of [Rpmi].

    A channel is an element of a pool that all harts share: what a hart
    reads after it has talked to the platform microcontroller (PuC) may have
    changed, so the pool is part of the client's state [W] and is read where
    the code reads it.  Message data is words; the lengths are in bytes. *)

From stdpp Require Import functions.
From S2P Require Import Prelude Arch Rpmi Mpxy.

#[local] Open Scope Z_scope.

Definition RPMI_ERR_DENIED : Z := -4.
Definition RPMI_ERR_INVALID_ADDR : Z := -5.

Definition RPMI_GROUP_SYSTEM_RESET : Z := 0x0003.
Definition RPMI_GROUP_SYSTEM_SUSPEND : Z := 0x0004.
Definition RPMI_GROUP_HSM : Z := 0x0005.
Definition RPMI_GROUP_CPPC : Z := 0x0006.
Definition RPMI_GROUP_VOLTAGE : Z := 0x0007.
Definition RPMI_GROUP_CLOCK : Z := 0x0008.
Definition RPMI_GROUP_DEVICE_POWER : Z := 0x0009.
Definition RPMI_GROUP_PERFORMANCE : Z := 0x000a.
Definition RPMI_GROUP_MANAGEMENT_MODE : Z := 0x000b.
Definition RPMI_GROUP_RAS_AGENT : Z := 0x000c.
Definition RPMI_GROUP_REQUEST_FORWARD : Z := 0x000d.

Definition RPMI_SERVICE_NOTIFICATION : Z := 0x00.
Definition RPMI_SERVICE_ENABLE_NOTIFICATION : Z := 0x01.
Definition RPMI_BASE_GET_IMPL_VERSION : Z := 0x02.
Definition RPMI_BASE_GET_IMPL_ID : Z := 0x03.
Definition RPMI_BASE_GET_SPEC_VERSION : Z := 0x04.
Definition RPMI_SYSMSI_GET_ATTRIBUTES : Z := 0x02.
Definition RPMI_SYSMSI_GET_MSI_ATTRIBUTES : Z := 0x03.
Definition RPMI_SYSMSI_GET_MSI_STATE : Z := 0x05.
Definition RPMI_SYSMSI_GET_MSI_TARGET : Z := 0x07.
Definition RPMI_SYSMSI_FLAGS0_PREF_MMODE : Z := 0x1.

Definition MPXY_MSG_PROT_RPMI : Z := 0.
Definition MPXY_RPMI_ATTR_SERVICEGROUP_ID : Z := 0x80000000.
Definition MPXY_RPMI_ATTR_SERVICEGROUP_VERSION : Z := 0x80000001.
Definition MPXY_RPMI_ATTR_IMPL_ID : Z := 0x80000002.
Definition MPXY_RPMI_ATTR_IMPL_VERSION : Z := 0x80000003.
Definition RPMI_RULE_ANY_LEN : Z := 0xffff.
Definition RPMI_VERSION (major minor : Z) : Z := Z.lor (Z.shiftl major 16) minor.

(** * The rules of the groups *)

(** [struct rpmi_service_rule] *)
Record rpmi_service_rule : Set := Rule { ru_service : Z; ru_req_min : Z; ru_req_max : Z }.

(** [setup] and [filter] of [struct rpmi_group_rules]: SYSTEM_MSI's, or none *)
Inductive group_hooks : Set := NoHooks | SysmsiHooks.

(** [struct rpmi_group_rules] *)
Record rpmi_group_rules : Set := GroupRules { gr_group : Z; gr_services : list rpmi_service_rule; gr_hooks : group_hooks }.

Definition NOTIFY : rpmi_service_rule := Rule RPMI_SERVICE_ENABLE_NOTIFICATION 8 8.

Definition sysmsi_services : list rpmi_service_rule :=
  [NOTIFY; Rule RPMI_SYSMSI_GET_ATTRIBUTES 0 0; Rule RPMI_SYSMSI_GET_MSI_ATTRIBUTES 4 4; Rule RPMI_SYSMSI_SET_MSI_STATE 8 8;
   Rule RPMI_SYSMSI_GET_MSI_STATE 4 4; Rule RPMI_SYSMSI_SET_MSI_TARGET 16 16; Rule RPMI_SYSMSI_GET_MSI_TARGET 4 4].
Definition voltage_services : list rpmi_service_rule :=
  [NOTIFY; Rule 0x02 0 0; Rule 0x03 4 4; Rule 0x04 8 8; Rule 0x05 8 8; Rule 0x06 4 4; Rule 0x07 8 8; Rule 0x08 4 4].
Definition clock_services : list rpmi_service_rule :=
  [NOTIFY; Rule 0x02 0 0; Rule 0x03 4 4; Rule 0x04 8 8; Rule 0x05 8 8; Rule 0x06 4 4; Rule 0x07 16 16; Rule 0x08 4 4].
Definition device_power_services : list rpmi_service_rule :=
  [NOTIFY; Rule 0x02 0 0; Rule 0x03 4 4; Rule 0x04 8 8; Rule 0x05 4 4].
Definition performance_services : list rpmi_service_rule :=
  [NOTIFY; Rule 0x02 0 0; Rule 0x03 4 4; Rule 0x04 8 8; Rule 0x05 4 4; Rule 0x06 8 8; Rule 0x07 4 4; Rule 0x08 12 12;
   Rule 0x09 0 0; Rule 0x0a 8 8].
Definition management_mode_services : list rpmi_service_rule := [NOTIFY; Rule 0x02 0 0; Rule 0x03 16 16].
Definition ras_agent_services : list rpmi_service_rule := [NOTIFY; Rule 0x02 0 0; Rule 0x03 4 4; Rule 0x04 8 8].
Definition request_forward_services : list rpmi_service_rule := [NOTIFY; Rule 0x02 4 4; Rule 0x03 0 RPMI_RULE_ANY_LEN].

Definition groups : list rpmi_group_rules :=
  [GroupRules RPMI_GROUP_SYSTEM_MSI sysmsi_services SysmsiHooks;
   GroupRules RPMI_GROUP_VOLTAGE voltage_services NoHooks;
   GroupRules RPMI_GROUP_CLOCK clock_services NoHooks;
   GroupRules RPMI_GROUP_DEVICE_POWER device_power_services NoHooks;
   GroupRules RPMI_GROUP_PERFORMANCE performance_services NoHooks;
   GroupRules RPMI_GROUP_MANAGEMENT_MODE management_mode_services NoHooks;
   GroupRules RPMI_GROUP_RAS_AGENT ras_agent_services NoHooks;
   GroupRules RPMI_GROUP_REQUEST_FORWARD request_forward_services NoHooks].

Definition rpmi_group_rules_find (group : Z) : option rpmi_group_rules := List.find (fun g => gr_group g =? group) groups.
Definition rpmi_service_rule_find (rules : rpmi_group_rules) (service : Z) : option rpmi_service_rule :=
  List.find (fun r => ru_service r =? service) (gr_services rules).

(** * The channels *)

(** [struct rpmi_group_state] *)
Record rpmi_group_state : Set := GroupState { gs_num_msi : Z; gs_msi_denied : list Z }.
#[export] Instance rpmi_group_state_eta : Settable rpmi_group_state := fun s => GroupState (gs_num_msi s) (gs_msi_denied s).

(** [struct mpxy_rpmi]: the channel [ch] is the one of the id [r_ch] in the
    core's list, a context is known by its phandle *)
Record mpxy_rpmi : Set := MpxyRpmi {
  r_ch : Z;
  r_puc : Z;
  r_group : Z;
  r_probed : bool;
  r_group_version : Z;
  r_impl_id : Z;
  r_impl_version : Z;
  r_rules : option rpmi_group_rules;
  r_state : rpmi_group_state;
  r_events : list Z;
  r_used : Z;
  r_count : Z;
  r_lost : Z;
}.
#[export] Instance mpxy_rpmi_eta : Settable mpxy_rpmi := fun r =>
  MpxyRpmi (r_ch r) (r_puc r) (r_group r) (r_probed r) (r_group_version r) (r_impl_id r) (r_impl_version r) (r_rules r)
    (r_state r) (r_events r) (r_used r) (r_count r) (r_lost r).

(** [pool], with the contexts and the core it works on *)
Record rpmi_pool : Type := RpmiPool {
  p_chans : list mpxy_rpmi;
  p_registered : list Z;              (* the contexts there are *)
  p_contexts : Z -> rpmi_context;
  p_mpxy : mpxy unit;
}.
#[export] Instance rpmi_pool_eta : Settable rpmi_pool := fun p =>
  RpmiPool (p_chans p) (p_registered p) (p_contexts p) (p_mpxy p).

(** The pool in the state that harts share *)
Class PoolAccess (W : Type) := {
  get_pool : W -> rpmi_pool;
  set_pool : rpmi_pool -> W -> W;
}.

Class MpxyRpmiConfig := {
  CONFIG_MPXY_RPMI_MAX_CHANNELS : Z;
  CONFIG_MPXY_RPMI_MAX_SYSMSI : Z;
  CONFIG_MPXY_RPMI_EVENT_BUF_SIZE : Z;
  CONFIG_RPMI_TIMEOUT_US : Z;
  (* "A multiple of 4." *)
  config_event_buf : 0 <= CONFIG_MPXY_RPMI_EVENT_BUF_SIZE /\ CONFIG_MPXY_RPMI_EVENT_BUF_SIZE mod 4 = 0;
  config_max_sysmsi : 0 <= CONFIG_MPXY_RPMI_MAX_SYSMSI < 2 ^ 32;
}.

(** [memcpy] into an array of words, and out of it *)
Definition put_words (a : list Z) (at_ : nat) (ws : list Z) : list Z := take at_ a ++ ws ++ drop (at_ + length ws) a.
Definition get_words (a : list Z) (at_ n : nat) : list Z := take n (drop at_ a).

Section Channels.
Context {AR : Arch} {MR : MpxyRpmiConfig}.

(** ** Events *)

Definition event_size (hdr : Z) : Z := RPMI_EVENT_HDR_SIZE + RPMI_EVENT_DATALEN hdr.

(** The loop of [mpxy_rpmi_event_sink], the lock held: [rpmi_poll] hands it
    events in whole words *)
Fixpoint sink_loop (fuel : nat) (ev : list Z) (len off : Z) (r : mpxy_rpmi) : mpxy_rpmi :=
  match fuel with
  | O => r
  | S fuel =>
      if off <? len then
        let sz := event_size (nth (Z.to_nat (off / 4)) ev 0) in
        let r :=
          if r_used r + sz <=? CONFIG_MPXY_RPMI_EVENT_BUF_SIZE
          then r <| r_events := put_words (r_events r) (Z.to_nat (r_used r / 4)) (get_words ev (Z.to_nat (off / 4)) (Z.to_nat (sz / 4))) |>
                 <| r_used := r_used r + sz |> <| r_count := low32 (r_count r + 1) |>
          else r <| r_lost := low32 (r_lost r + 1) |> in
        sink_loop fuel ev len (off + sz) r
      else r
  end.
Definition sink_events (ev : list Z) (len : Z) (r : mpxy_rpmi) : mpxy_rpmi := sink_loop (length ev) ev len 0 r.

(** The loop of [mpxy_rpmi_get_events]: how many, in how many bytes *)
Fixpoint fetch_loop (fuel : nat) (r : mpxy_rpmi) (max n bytes : Z) : Z * Z :=
  match fuel with
  | O => (n, bytes)
  | S fuel =>
      if n <? r_count r then
        let sz := event_size (nth (Z.to_nat (bytes / 4)) (r_events r) 0) in
        if max <? bytes + sz then (n, bytes) else fetch_loop fuel r max (n + 1) (bytes + sz)
      else (n, bytes)
  end.
(** What is done with the lock held *)
Definition fetch_events (r : mpxy_rpmi) (max : Z) : list Z * mpxy_events * mpxy_rpmi :=
  let '(n, bytes) := fetch_loop (Z.to_nat (r_count r)) r max 0 0 in
  let buf := get_words (r_events r) 0 (Z.to_nat (bytes / 4)) in
  let left := get_words (r_events r) (Z.to_nat (bytes / 4)) (Z.to_nat ((r_used r - bytes) / 4)) in
  let r' := r <| r_events := put_words (r_events r) 0 left |> <| r_used := r_used r - bytes |> <| r_count := r_count r - n |> in
  (buf, MpxyEvents n (r_count r') (r_lost r) bytes, r' <| r_lost := 0 |>).

(** ** SYSTEM_MSI: what is not S-mode's *)

(** The length of [msi_denied] *)
Definition denied_words : nat := Z.to_nat ((CONFIG_MPXY_RPMI_MAX_SYSMSI + XLEN - 1) / XLEN).

Definition msi_denied (state : rpmi_group_state) (index : Z) : bool :=
  if CONFIG_MPXY_RPMI_MAX_SYSMSI <=? index then true
  else truth (Z.land (Z.shiftr (nth (Z.to_nat (index / XLEN)) (gs_msi_denied state) 0) (index mod XLEN)) 1).
(** The load and the store of the [|=] are one step here; no lock is held over
    them, and what two set-ups at once can do is [deny_lost]. *)
Definition msi_deny (state : rpmi_group_state) (index : Z) : rpmi_group_state :=
  let i := Z.to_nat (index / XLEN) in
  state <| gs_msi_denied := <[i := Z.lor (nth i (gs_msi_denied state) 0) (BIT (index mod XLEN))]> (gs_msi_denied state) |>.

Definition sysmsi_filter (smode_range_ok : Z -> Z -> bool) (state : rpmi_group_state) (service : Z) (req : list Z) : Z :=
  if service <? RPMI_SYSMSI_GET_MSI_ATTRIBUTES then 0
  else if gs_num_msi state <=? nth 0 req 0 then RPMI_ERR_INVALID_PARAM
  else if msi_denied state (nth 0 req 0) then RPMI_ERR_DENIED
  else if service =? RPMI_SYSMSI_SET_MSI_TARGET then
    let addr := reg_pair_to_64 (nth 2 req 0) (nth 1 req 0) in
    if negb (addr =? wrap addr) || negb (smode_range_ok (wrap addr) 4) then RPMI_ERR_INVALID_ADDR else 0
  else 0.

Definition rpmi_to_sbi (rc : Z) : Z :=
  if rc =? RPMI_SUCCESS then SBI_SUCCESS
  else if rc =? RPMI_ERR_TIMEOUT then SBI_ERR_TIMEOUT
  else if rc =? RPMI_ERR_IO then SBI_ERR_IO
  else if rc =? RPMI_ERR_INVALID_PARAM then SBI_ERR_INVALID_PARAM
  else if rc =? RPMI_ERR_NOT_SUPPORTED then SBI_ERR_NOT_SUPPORTED
  else if rc =? RPMI_ERR_DENIED then SBI_ERR_DENIED
  else if rc =? RPMI_ERR_INVALID_ADDR then SBI_ERR_INVALID_ADDRESS
  else SBI_ERR_FAILED.

(** A message the rules of the channel's group let through, or the error *)
Definition rules_check (r : mpxy_rpmi) (msg_id len : Z) : Z :=
  if (msg_id =? RPMI_SERVICE_NOTIFICATION) || (0xff <? msg_id) then SBI_ERR_NOT_SUPPORTED
  else if negb (IS_ALIGNED len 4) then SBI_ERR_INVALID_PARAM
  else
    match r_rules r with
    | None => SBI_SUCCESS
    | Some rules =>
        match rpmi_service_rule_find rules msg_id with
        | None => SBI_ERR_NOT_SUPPORTED
        | Some rule =>
            if (len <? ru_req_min rule) || negb (ru_req_max rule =? RPMI_RULE_ANY_LEN) && (ru_req_max rule <? len)
            then SBI_ERR_INVALID_PARAM else SBI_SUCCESS
        end
    end.

Definition filter_check (smode_range_ok : Z -> Z -> bool) (r : mpxy_rpmi) (msg_id : Z) (req : list Z) : Z :=
  match r_rules r with
  | Some (GroupRules _ _ SysmsiHooks) => sysmsi_filter smode_range_ok (r_state r) msg_id req
  | _ => 0
  end.

Definition group_rules_setup (r : mpxy_rpmi) : bool :=
  match r_rules r with Some (GroupRules _ _ SysmsiHooks) => true | _ => false end.

(** ** The channel in the shared state *)

Section Shared.
Context {KC : Kconfig} {MX : MpxyConfig} {CF : RpmiConfig} {W : Type} {T : Transport W} {MC : Machine W} {PA : PoolAccess W}.

Definition null_rpmi : mpxy_rpmi := MpxyRpmi 0 0 0 false 0 0 0 None (GroupState 0 []) [] 0 0 0.
Definition chan (w : W) (i : nat) : mpxy_rpmi := default null_rpmi (p_chans (get_pool w) !! i).
Definition chan_update (i : nat) (f : mpxy_rpmi -> mpxy_rpmi) (w : W) : W :=
  set_pool ((get_pool w) <| p_chans := alter f i (p_chans (get_pool w)) |>) w.
Definition puc_of (w : W) (i : nat) : rpmi_context := p_contexts (get_pool w) (r_puc (chan w i)).

(** A change of [r->ch] *)
Definition core_update (f : mpxy unit -> mpxy unit) (w : W) : W :=
  set_pool ((get_pool w) <| p_mpxy := f (p_mpxy (get_pool w)) |>) w.

(** The loop of [sysmsi_setup] *)
Fixpoint setup_loop (n fuel : nat) (i : nat) (ctx : rpmi_context) (index : Z) (w : W) : option (Z * W) :=
  match n with
  | O => Some (0, w)
  | S n =>
      if (index <? gs_num_msi (r_state (chan w i))) && (index <? CONFIG_MPXY_RPMI_MAX_SYSMSI) then
        '(rc, resp, w) ← rpmi_call fuel ctx w RPMI_GROUP_SYSTEM_MSI RPMI_SYSMSI_GET_MSI_ATTRIBUTES [index] 7;
        if truth rc then Some (rc, w)
        else
          let w :=
            if truth (Z.land (nth 1 resp 0) RPMI_SYSMSI_FLAGS0_PREF_MMODE) || (index =? x_p2a_doorbell_sysmsi ctx)
            then chan_update i (fun r => r <| r_state := msi_deny (r_state r) index |>) w
            else w in
          setup_loop n fuel i ctx (index + 1) w
      else Some (0, w)
  end.
Definition sysmsi_setup (fuel : nat) (i : nat) (ctx : rpmi_context) (w : W) : option (Z * W) :=
  '(rc, resp, w) ← rpmi_call fuel ctx w RPMI_GROUP_SYSTEM_MSI RPMI_SYSMSI_GET_ATTRIBUTES [] 4;
  if truth rc then Some (rc, w)
  else
    let w := chan_update i (fun r => r <| r_state := (r_state r) <| gs_num_msi := nth 1 resp 0 |> |>) w in
    setup_loop (S (Z.to_nat CONFIG_MPXY_RPMI_MAX_SYSMSI)) fuel i ctx 0 w.

(** [if (!rc) rc = f()], with what [f] found so far *)
Definition unless {A} (x : Z * A * W) (f : A -> W -> option (Z * A * W)) : option (Z * A * W) :=
  let '(rc, a, w) := x in if truth rc then Some x else f a w.

(** The questions of [mpxy_rpmi_ask_puc]: the answers *)
Record answers : Set := Answers { an_spec : Z; an_version : Z; an_impl_id : Z; an_impl_version : Z }.
#[export] Instance answers_eta : Settable answers := fun a => Answers (an_spec a) (an_version a) (an_impl_id a) (an_impl_version a).
Definition ask_questions (fuel : nat) (i : nat) (w : W) : option (Z * answers * W) :=
  let ctx := puc_of w i in
  '(rc, v, w) ← rpmi_base_get fuel ctx w RPMI_BASE_GET_SPEC_VERSION;
  x ← unless (rc, Answers (default 0 v) 0 0 0, w) (fun a w =>
    '(rc, v, w) ← rpmi_probe_group fuel ctx w (r_group (chan w i)); Some (rc, a <| an_version := default 0 v |>, w));
  x ← unless x (fun a w => Some (if truth (an_version a) then 0 else RPMI_ERR_NOT_SUPPORTED, a, w));
  x ← unless x (fun a w =>
    '(rc, v, w) ← rpmi_base_get fuel ctx w RPMI_BASE_GET_IMPL_ID; Some (rc, a <| an_impl_id := default 0 v |>, w));
  x ← unless x (fun a w =>
    '(rc, v, w) ← rpmi_base_get fuel ctx w RPMI_BASE_GET_IMPL_VERSION; Some (rc, a <| an_impl_version := default 0 v |>, w));
  unless x (fun a w =>
    if group_rules_setup (chan w i) then '(rc, w) ← sysmsi_setup fuel i ctx w; Some (rc, a, w) else Some (0, a, w)).

Definition mpxy_rpmi_ask_puc (fuel : nat) (i : nat) (w : W) : option (Z * W) :=
  if r_probed (chan w i) then Some (SBI_SUCCESS, w)
  else
    '(rc, a, w) ← ask_questions fuel i w;
    if truth rc then Some (rpmi_to_sbi rc, w)
    else
      let w := core_update (fun s => channel_update s (r_ch (chan w i)) (fun c => c <| ch_msg_prot_version := an_spec a |>)) w in
      Some (SBI_SUCCESS,
            chan_update i (fun r => r <| r_group_version := an_version a |> <| r_impl_id := an_impl_id a |>
              <| r_impl_version := an_impl_version a |> <| r_probed := true |>) w).

(** ** The operations of the channel *)

(** The result, with the value *)
Definition mpxy_rpmi_read_attr (fuel : nat) (i : nat) (id : Z) (w : W) : option (Z * Z * W) :=
  if MPXY_RPMI_ATTR_IMPL_VERSION <? id then Some (SBI_ERR_BAD_RANGE, 0, w)
  else if id =? MPXY_RPMI_ATTR_SERVICEGROUP_ID then Some (SBI_SUCCESS, r_group (chan w i), w)
  else
    '(rc, w) ← mpxy_rpmi_ask_puc fuel i w;
    if truth rc then Some (rc, 0, w)
    else
      let r := chan w i in
      Some (SBI_SUCCESS,
            if id =? MPXY_RPMI_ATTR_SERVICEGROUP_VERSION then r_group_version r
            else if id =? MPXY_RPMI_ATTR_IMPL_ID then r_impl_id r else r_impl_version r, w).

(** The result, the response and its length; [want_resp]: [resp_len] is
    there *)
Definition mpxy_rpmi_send (smode_range_ok : Z -> Z -> bool) (fuel : nat) (i : nat) (msg_id : Z) (buf : list Z)
    (len resp_max : Z) (want_resp : bool) (w : W) : option (Z * list Z * Z * W) :=
  let rc := rules_check (chan w i) msg_id len in
  if truth rc then Some (rc, [], 0, w)
  else
    '(rc, w) ← mpxy_rpmi_ask_puc fuel i w;
    if truth rc then Some (rc, [], 0, w)
    else
      let rc := filter_check smode_range_ok (chan w i) msg_id buf in
      if truth rc then
        if negb want_resp || (resp_max <? 4) then Some (rpmi_to_sbi rc, [], 0, w)
        else Some (SBI_SUCCESS, [low32 rc], 4, w)
      else
        let req := take (Z.to_nat (len / 4)) buf in
        if negb want_resp then
          '(rc, w) ← rpmi_post fuel (puc_of w i) w (r_group (chan w i)) msg_id req len;
          Some (rpmi_to_sbi rc, [], 0, w)
        else
          '(rc, (resp, got), w) ← rpmi_request fuel (puc_of w i) w (r_group (chan w i)) msg_id req len resp_max;
          Some (rpmi_to_sbi rc, resp, got, w).

Definition mpxy_rpmi_event_sink (i : nat) (events : list Z) (len : Z) (w : W) : W :=
  let w := chan_update i (sink_events events len) w in
  core_update (fun s =>
    match List.find (fun c => ch_id c =? r_ch (chan w i)) (mx_channels s) with
    | Some ch => mpxy_channel_events_due s ch
    | None => s
    end) w.

Definition mpxy_rpmi_get_events (fuel : nat) (i : nat) (max : Z) (w : W) : option (Z * list Z * mpxy_events * W) :=
  w ← rpmi_poll fuel (puc_of w i) w;
  let '(buf, out, r) := fetch_events (chan w i) max in
  Some (SBI_SUCCESS, buf, out, chan_update i (fun _ => r) w).

(** ** Adding a channel *)

Definition monitors_own (group : Z) : bool :=
  (group =? RPMI_GROUP_BASE) || (group =? RPMI_GROUP_CPPC) || (group =? RPMI_GROUP_SYSTEM_RESET) ||
  (group =? RPMI_GROUP_SYSTEM_SUSPEND) || (group =? RPMI_GROUP_HSM).


Definition new_rpmi (puc channel_id group : Z) : mpxy_rpmi :=
  MpxyRpmi channel_id puc group false 0 0 0 (rpmi_group_rules_find group) (GroupState 0 (replicate denied_words 0))
    (replicate (Z.to_nat (CONFIG_MPXY_RPMI_EVENT_BUF_SIZE / 4)) 0) 0 0 0.
Definition new_channel (ctx : rpmi_context) (channel_id owner : Z) : mpxy_channel :=
  MpxyChannel channel_id MPXY_MSG_PROT_RPMI (RPMI_VERSION 1 0) (rpmi_max_data_len ctx) CONFIG_RPMI_TIMEOUT_US
    (low32 (2 * CONFIG_RPMI_TIMEOUT_US))
    (Z.lor (Z.lor (Z.lor MPXY_CAP_SEND_WITH_RESP MPXY_CAP_SEND_WITHOUT_RESP) MPXY_CAP_GET_NOTIFICATIONS) MPXY_CAP_EVENTS_STATE)
    0 0 0 0 0 0 0 owner false.
Definition no_events (ch : mpxy_channel) : mpxy_channel :=
  ch <| ch_capability := Z.ldiff (ch_capability ch)
    (Z.lor (Z.lor (Z.lor MPXY_CAP_GET_NOTIFICATIONS MPXY_CAP_EVENTS_STATE) MPXY_CAP_MSI) MPXY_CAP_SSE) |>.

Definition mpxy_rpmi_channel_add (p : rpmi_pool) (puc channel_id group owner : Z) : Z * rpmi_pool :=
  if monitors_own group then (SBI_ERR_DENIED, p)
  else if Z.of_nat (length (p_chans p)) =? CONFIG_MPXY_RPMI_MAX_CHANNELS then (SBI_ERR_FAILED, p)
  else
    let '(rc, core) := mpxy_channel_register (p_mpxy p) (new_channel (p_contexts p puc) channel_id owner) in
    if truth rc then (rc, p <| p_mpxy := core |>)
    else
      let '(rc, ctx) := rpmi_event_sink_register (p_contexts p puc) group (length (p_chans p)) in
      let core := if truth rc then channel_update core channel_id no_events else core in
      (SBI_SUCCESS,
       p <| p_mpxy := core |> <| p_contexts := <[puc := ctx]> (p_contexts p) |>
         <| p_chans := p_chans p ++ [new_rpmi puc channel_id group] |>).

(** [mpxy_rpmi_probe], the properties of the node read: the cells of
    "mboxes" and "riscv,sbi-mpxy-channel-id", the phandle of "riscv,domain" *)
Record channel_node : Set := ChannelNode { cn_mboxes : option (list Z); cn_id : option (list Z); cn_domain : Z }.
Definition mpxy_rpmi_probe (domain_by_phandle : Z -> option Z) (p : rpmi_pool) (node : option channel_node) : Z * rpmi_pool :=
  match node with
  | Some (ChannelNode (Some mboxes) id dom) =>
      match id, rpmi_client_from_fdt (p_contexts p <$> p_registered p) (Some mboxes),
            mpxy_channel_owner_from_fdt domain_by_phandle dom with
      | Some (id :: _), (_, Some (ctx, group)), Some owner => mpxy_rpmi_channel_add p (x_phandle ctx) id group owner
      | _, _, _ => (-1, p)
      end
  | _ => (0, p)
  end.

End Shared.
End Channels.
