(* ===== verification/RpmiPower.v ===== *)
(** Power through the platform microcontroller: hart power
    ([drivers/hsm/rpmi_hsm.c]), system suspend ([drivers/suspend]) and
    system reset ([drivers/reset/reset.c], [rpmi_reset.c]).  The answers of
    the PuC are the environment's; what it is asked is a log.

    The list of suspend types is the PuC's, fetched in as many messages as it
    takes; a hart suspends through the PuC only with a type of that list; a
    reset goes to the best backend that supports it. *)

From stdpp Require Import sorting.
From S2P Require Import Prelude Arch Hsm Rpmi MpxyRpmi.

#[local] Open Scope Z_scope.


(** [rpmi.h] *)
Definition RPMI_ERR_ALREADY : Z := -6.
Definition RPMI_SYSRST_GET_ATTRIBUTES : Z := 2.
Definition RPMI_SYSRST_RESET : Z := 3.
Definition RPMI_SYSSUSP_GET_ATTRIBUTES : Z := 2.
Definition RPMI_SYSSUSP_SUSPEND : Z := 3.
Definition RPMI_HSM_GET_SUSPEND_TYPES : Z := 4.
Definition RPMI_HSM_HART_START : Z := 6.
Definition RPMI_HSM_HART_STOP : Z := 7.
Definition RPMI_HSM_HART_SUSPEND : Z := 8.

(** [support] of [rpmi_reset.c] *)
Inductive support_state : Set := UNKNOWN | NO | YES.
#[export] Instance support_state_eq_dec : EqDecision support_state.
Proof. solve_decision. Defined.

(** A request: group, service, words *)
Abbreviation asked := (Z * Z * list Z)%type.

(** What the drivers keep, the world, and the requests made so far *)
Record power_state (W : Type) : Type := PowerState {
  ps_w : W;
  ps_types : list Z; (* suspend_types *)
  ps_nr : nat; (* nr_suspend_types *)
  ps_known : bool; (* suspend_types_known *)
  ps_support : Z -> support_state;
  ps_asked : list asked; (* the last one first *)
}.
Arguments PowerState {W}. Arguments ps_w {W}. Arguments ps_types {W}. Arguments ps_nr {W}.
Arguments ps_known {W}. Arguments ps_support {W}. Arguments ps_asked {W}.
#[export] Instance power_state_eta {W} : Settable (power_state W) := fun s =>
  PowerState (ps_w s) (ps_types s) (ps_nr s) (ps_known s) (ps_support s) (ps_asked s).

(** [rpmi_call], [rpmi_request] and [rpmi_post] on the PuC, and what the
    drivers take of the hart and the build. *)
Class PowerEnv (W : Type) := {
  pe_call : W -> Z -> Z -> list Z -> Z -> Z * list Z * W; (* words wanted; result, words *)
  pe_request : W -> Z -> Z -> list Z -> Z -> Z * (list Z * Z) * W; (* most bytes; result, words, length in bytes *)
  pe_post : W -> Z -> Z -> list Z -> W;
  pe_hartid : Z; (* this_hartid() *)
  pe_entry : Z; (* monitor_base() *)
  CONFIG_HSM_RPMI_MAX_SUSPEND_TYPES : nat;
}.

Section Power.
Context {AR : Arch} {W : Type} {PE : PowerEnv W}.
Abbreviation MAX_SUSPEND_TYPES := CONFIG_HSM_RPMI_MAX_SUSPEND_TYPES.

Definition word (resp : list Z) (i : nat) : Z := default 0 (resp !! i).
Definition note (s : power_state W) (w : W) (a : asked) : power_state W :=
  s <| ps_w := w |> <| ps_asked := a :: ps_asked s |>.

Definition ask (s : power_state W) (group service : Z) (req : list Z) (words : Z) : Z * list Z * power_state W :=
  let '(rc, resp, w) := pe_call (ps_w s) group service req words in (rc, resp, note s w (group, service, req)).

(** * Hart power *)

Definition silent (rc : Z) : bool := (rc =? RPMI_ERR_TIMEOUT) || (rc =? RPMI_ERR_IO) || (rc =? RPMI_ERR_NOT_SUPPORTED).

Definition rpmi_hsm_hart_start (s : power_state W) (hartid : Z) : Z * power_state W :=
  let '(rc, _, s) := ask s RPMI_GROUP_HSM RPMI_HSM_HART_START [low32 hartid; low32 pe_entry; high32_from_64 pe_entry] 1 in
  (if (rc =? 0) || (rc =? RPMI_ERR_ALREADY) || silent rc then SBI_SUCCESS else SBI_ERR_FAILED, s).

Definition rpmi_hsm_hart_stop (s : power_state W) (hartid : Z) : power_state W :=
  (ask s RPMI_GROUP_HSM RPMI_HSM_HART_STOP [low32 hartid] 1).2.

(** The words of an answer over what an earlier one left in the buffer. *)
Definition over (data resp : list Z) : list Z := data ++ drop (length data) resp.

(** [suspend_types[n++] = resp[3 + i]] *)
Fixpoint types_put (types : list Z) (n : nat) (words : list Z) : list Z :=
  match words with
  | [] => types
  | w :: words => types_put (<[n := w]> types) (S n) words
  end.

(** How many of [returned] are taken with [n] there. *)
Definition types_taken (returned : Z) (n : nat) : nat :=
  Z.to_nat (Z.min returned (Z.of_nat (MAX_SUSPEND_TYPES - n))).

(** An answer that makes no sense. *)
Definition types_malformed (resp : list Z) (len : Z) : bool :=
  (len <? 12) || (len <? 12 +! umul 4 (word resp 2)) || ((word resp 2 =? 0) && truth (word resp 1)).

(** [None]: the rounds were not enough. *)
Fixpoint types_loop (fuel : nat) (s : power_state W) (resp : list Z) (start : Z) (n : nat)
    : option (Z * power_state W) :=
  match fuel with
  | 0%nat => None
  | S fuel =>
      let '(rc, (data, len), w) :=
        pe_request (ps_w s) RPMI_GROUP_HSM RPMI_HSM_GET_SUSPEND_TYPES [start] (4 * Z.of_nat (3 + MAX_SUSPEND_TYPES)) in
      let s := note s w (RPMI_GROUP_HSM, RPMI_HSM_GET_SUSPEND_TYPES, [start]) in
      let resp := over data resp in
      if truth rc then Some (rc, s)
      else if (len <? 4) || truth (to_int32 (word resp 0))
      then Some (if len <? 4 then RPMI_ERR_IO else to_int32 (word resp 0), s)
      else if types_malformed resp len then Some (RPMI_ERR_IO, s)
      else
        let k := types_taken (word resp 2) n in
        let s := s <| ps_types := types_put (ps_types s) n (take k (drop 3 resp)) |> in
        if truth (word resp 1) && (n + k <? MAX_SUSPEND_TYPES)%nat
        then types_loop fuel s resp (low32 (start + word resp 2)) (n + k)
        else Some (0, s <| ps_nr := (n + k)%nat |> <| ps_known := true |>)
  end.

Definition suspend_types_fetch (fuel : nat) (s : power_state W) : option (Z * power_state W) :=
  types_loop fuel s (replicate (3 + MAX_SUSPEND_TYPES) 0) 0 0.

(** The search of the list. *)
Definition type_listed (s : power_state W) (type : Z) : bool := existsb (Z.eqb type) (take (ps_nr s) (ps_types s)).

Definition rpmi_hsm_hart_suspend (fuel : nat) (s : power_state W) (hartid type resume_addr : Z)
    : option (Z * power_state W) :=
  if negb (ps_known s) && ((type =? SBI_HSM_SUSPEND_RET_DEFAULT) || (type =? SBI_HSM_SUSPEND_NON_RET_DEFAULT))
  then Some (SBI_ERR_NOT_SUPPORTED, s)
  else
    '(rc, s) ← (if ps_known s then Some (0, s) else suspend_types_fetch fuel s);
    if truth rc then Some (if silent rc then SBI_ERR_NOT_SUPPORTED else SBI_ERR_FAILED, s)
    else if negb (type_listed s type) then Some (SBI_ERR_NOT_SUPPORTED, s)
    else
      let '(rc, _, s) := ask s RPMI_GROUP_HSM RPMI_HSM_HART_SUSPEND
        [low32 hartid; type; low32 resume_addr; low32 (Z.shiftr resume_addr 32)] 1 in
      Some (if rc =? 0 then SBI_SUCCESS
            else if rc =? RPMI_ERR_INVALID_PARAM then SBI_ERR_INVALID_PARAM else SBI_ERR_FAILED, s).

(** * System suspend *)

Definition rpmi_suspend_supported (s : power_state W) (sleep_type : Z) : bool * power_state W :=
  let '(rc, resp, s) := ask s RPMI_GROUP_SYSTEM_SUSPEND RPMI_SYSSUSP_GET_ATTRIBUTES [sleep_type] 2 in
  ((rc =? 0) && truth (Z.land (word resp 1) 1), s).

Definition rpmi_suspend_prepare (s : power_state W) (sleep_type resume_addr : Z) : Z * power_state W :=
  let '(rc, _, s) := ask s RPMI_GROUP_SYSTEM_SUSPEND RPMI_SYSSUSP_SUSPEND
    [low32 pe_hartid; sleep_type; low32 resume_addr; low32 (Z.shiftr resume_addr 32)] 1 in
  (if truth rc then SBI_ERR_FAILED else SBI_SUCCESS, s).

(** [registered]: a backend is there. *)
Definition suspend_supported (registered : bool) (s : power_state W) (sleep_type : Z) : bool * power_state W :=
  if registered then rpmi_suspend_supported s sleep_type else (false, s).

Definition suspend_prepare (registered : bool) (s : power_state W) (sleep_type resume_addr : Z) : Z * power_state W :=
  let '(ok, s) := suspend_supported registered s sleep_type in
  if negb ok then (SBI_ERR_NOT_SUPPORTED, s) else rpmi_suspend_prepare s sleep_type resume_addr.

(** * System reset *)

Definition NR_TYPES : Z := 3.

Definition rpmi_reset_supported (type : Z) (s : power_state W) : bool * power_state W :=
  if NR_TYPES <=? type then (false, s)
  else
    let s :=
      if bool_decide (ps_support s type = UNKNOWN) then
        let '(rc, resp, s) := ask s RPMI_GROUP_SYSTEM_RESET RPMI_SYSRST_GET_ATTRIBUTES [type] 2 in
        if truth rc then s
        else s <| ps_support := fun t => if t =? type then (if truth (Z.land (word resp 1) 1) then YES else NO) else ps_support s t |>
      else s in
    (bool_decide (ps_support s type = YES), s).

Definition rpmi_reset_request (type : Z) (s : power_state W) : power_state W :=
  note s (pe_post (ps_w s) RPMI_GROUP_SYSTEM_RESET RPMI_SYSRST_RESET [type]) (RPMI_GROUP_SYSTEM_RESET, RPMI_SYSRST_RESET, [type]).
End Power.

(** ** Probing

    The three drivers alike: [found] is whether the node leads to a PuC with
    the driver's group, [probed] whether one was probed before; the result
    and whether the driver's backend is there then. *)

Definition power_probe (found probed : bool) : Z * bool :=
  if probed then (0, probed) else if found then (0, true) else (-1, false).
Definition rpmi_hsm_probe := power_probe.
Definition rpmi_suspend_probe := power_probe.
Definition rpmi_reset_probe := power_probe.

(** ** The backends: [reset.c] *)

Definition MAX_BACKENDS : nat := 4.

Section Reset.
Context {W : Type}.

(** [struct reset_ops]; a backend may ask its device, in the state [W]. *)
Record reset_ops : Type := ResetOps {
  ro_rating : Z;
  ro_supported : Z -> W -> bool * W;
  ro_reset : Z -> W -> W;
}.

(** The loop of [reset_register], from the end of the table. *)
Fixpoint backend_insert (last_first : list reset_ops) (ops : reset_ops) : list reset_ops :=
  match last_first with
  | [] => [ops]
  | b :: rest => if ro_rating b <? ro_rating ops then b :: backend_insert rest ops else ops :: b :: rest
  end.

Definition reset_register (backends : list reset_ops) (ops : reset_ops) : list reset_ops :=
  if (length backends =? MAX_BACKENDS)%nat then backends else reverse (backend_insert (reverse backends) ops).

Fixpoint backend_for (backends : list reset_ops) (type : Z) (w : W) : option reset_ops * W :=
  match backends with
  | [] => (None, w)
  | b :: rest =>
      let '(yes, w) := ro_supported b type w in
      if (yes : bool) then (Some b, w) else backend_for rest type w
  end.

Definition reset_supported (backends : list reset_ops) (type : Z) (w : W) : bool * W :=
  let '(ops, w) := backend_for backends type w in (bool_decide (is_Some ops), w).

(** [system_reset]: the harts it tells to halt, where the backend returned
    and the wait for it is over. *)
Definition system_reset (backends : list reset_ops) (type self nr_harts : Z) (valid : Z -> bool) (w : W) : list Z * W :=
  let '(ops, w) := backend_for backends type w in
  let w := match ops with Some b => ro_reset b type w | None => w end in
  (filter (fun i => i <> self /\ valid i = true) (seqZ 0 nr_harts), w).
End Reset.
Arguments reset_ops : clear implicits.


Section Types.
Context {AR : Arch} {W : Type} {PE : PowerEnv W}.
Abbreviation MAX := CONFIG_HSM_RPMI_MAX_SUSPEND_TYPES.
Implicit Types (s : power_state W).

Ltac ps_simpl := cbn [field_update ps_w ps_types ps_nr ps_known ps_support ps_asked].

(** ** The list *)

Lemma types_put_length types n ws : length (types_put types n ws) = length types.
Proof. revert types n. induction ws as [|w ws IH]; intros; cbn; [done|]. by rewrite IH, length_insert. Qed.

Lemma types_put_take types n ws :
  (n + length ws <= length types)%nat -> take (n + length ws) (types_put types n ws) = take n types ++ ws.
Proof.
  revert types n. induction ws as [|w ws IH]; intros types n Hl; cbn in Hl |- *.
  - by rewrite Nat.add_0_r, app_nil_r.
  - replace (n + S (length ws))%nat with (S n + length ws)%nat by lia.
    rewrite IH by (rewrite length_insert; lia).
    rewrite (take_S_r _ _ w) by (apply list_lookup_insert_eq; lia).
    rewrite take_insert_ge by lia. by rewrite <- app_assoc.
Qed.

Lemma types_taken_le returned n : (n <= MAX)%nat -> (n + types_taken returned n <= MAX)%nat.
Proof. unfold types_taken. lia. Qed.

(** ** Any PuC: the words it sends are words *)

Section Ends.
Hypothesis words_unsigned : forall w group service req max,
  Forall (fun x => 0 <= x) (pe_request w group service req max).1.2.1.

Lemma over_unsigned data resp :
  Forall (fun x => 0 <= x) data -> Forall (fun x => 0 <= x) resp -> Forall (fun x => 0 <= x) (over data resp).
Proof. intros. apply Forall_app. split; [done|]. by apply Forall_drop. Qed.

Lemma word_unsigned resp i : Forall (fun x => 0 <= x) resp -> 0 <= word resp i.
Proof.
  intros Hr. unfold word. destruct (resp !! i) as [x|] eqn:E; cbn; [|done].
  by apply (Forall_lookup_1 _ _ _ _ Hr E).
Qed.

Lemma types_loop_ends fuel s resp start n :
  Forall (fun x => 0 <= x) resp -> (n <= MAX)%nat -> (MAX - n < fuel)%nat -> length (ps_types s) = MAX ->
  (ps_nr s <= MAX)%nat ->
  exists rc s', types_loop fuel s resp start n = Some (rc, s') /\
    length (ps_types s') = MAX /\ (ps_nr s' <= MAX)%nat.
Proof.
  revert s resp start n. induction fuel as [|fuel IH]; intros s resp start n Hr Hn Hf Hl Hnr; [lia|]. cbn [types_loop].
  pose proof (words_unsigned (ps_w s) RPMI_GROUP_HSM RPMI_HSM_GET_SUSPEND_TYPES [start] (4 * Z.of_nat (3 + MAX))) as Hd.
  destruct (pe_request _ _ _ _ _) as [[rc [data len]] w]. cbn [fst snd] in Hd.
  pose proof (over_unsigned _ _ Hd Hr) as Hr'. set (resp' := over data resp) in *.
  destruct (truth rc); [by eauto|]. destruct (_ || _); [by eauto|].
  destruct (types_malformed resp' len) eqn:Em; [by eauto|].
  pose proof (types_taken_le (word resp' 2) n Hn) as Hk.
  destruct (truth (word resp' 1) && _) eqn:Ec.
  - apply andb_true_iff in Ec as [E1 E2%Nat.ltb_lt]. apply IH; [done|lia| |ps_simpl; by rewrite types_put_length|done].
    apply orb_false_iff in Em as [_ Em]. rewrite E1, andb_true_r in Em. apply Z.eqb_neq in Em.
    pose proof (word_unsigned resp' 2 Hr'). unfold types_taken in *. lia.
  - do 2 eexists. split; [done|]. ps_simpl. rewrite types_put_length. auto.
Qed.

(** The list is fetched in at most a message per entry of the table and one
    more, and stays in the table, whatever the PuC claims is remaining. *)
Theorem suspend_types_fetch_ends s :
  length (ps_types s) = MAX -> (ps_nr s <= MAX)%nat ->
  exists rc s', suspend_types_fetch (S MAX) s = Some (rc, s') /\
    length (ps_types s') = MAX /\ (ps_nr s' <= MAX)%nat.
Proof.
  intros Hl Hn.
  destruct (types_loop_ends (S MAX) s (replicate (3 + MAX) 0) 0 0) as (rc & s' & E & ? & ?);
    [|lia..|done|done|by exists rc, s'].
  apply Forall_replicate. done.
Qed.
End Ends.

(** ** A PuC with the suspend types [types], [chunk i] of them per message
    from the [i]th on

    A message that does not fit the buffer it is received into is an error of
    [rpmi_request], with RPMI_ERR_BAD_RANGE. *)

Section Listed.
Context (types : list Z) (chunk : nat -> nat).
Hypothesis table_fits : 4 * Z.of_nat (3 + MAX) < 2 ^ 32.
Hypothesis chunk_some : forall i, (i < length types)%nat -> (0 < chunk i)%nat.
Hypothesis chunk_there : forall i, (i <= length types)%nat -> (i + chunk i <= length types)%nat.
Hypothesis too_long : forall w i, (i <= length types)%nat -> (MAX < chunk i)%nat ->
  (pe_request w RPMI_GROUP_HSM RPMI_HSM_GET_SUSPEND_TYPES [Z.of_nat i] (4 * Z.of_nat (3 + MAX))).1.1 = RPMI_ERR_BAD_RANGE.
Hypothesis answers : forall w i, (i <= length types)%nat -> (chunk i <= MAX)%nat ->
  (pe_request w RPMI_GROUP_HSM RPMI_HSM_GET_SUSPEND_TYPES [Z.of_nat i] (4 * Z.of_nat (3 + MAX))).1 =
  (RPMI_SUCCESS, (0 :: Z.of_nat (length types - i - chunk i) :: Z.of_nat (chunk i) :: take (chunk i) (drop i types),
                  12 + 4 * Z.of_nat (chunk i))).

(** Do the messages fit, from the [n]th type on until the table is full or
    the list ends? *)
Fixpoint messages_fit (fuel : nat) (n : nat) : bool :=
  match fuel with
  | 0%nat => true
  | S fuel => (chunk n <=? MAX)%nat &&
      if (n + chunk n <? Nat.min MAX (length types))%nat then messages_fit fuel (n + chunk n) else true
  end.

Lemma types_loop_exact fuel s resp n :
  (n <= length types)%nat -> (n <= MAX)%nat -> (MAX - n < fuel)%nat -> length (ps_types s) = MAX ->
  take n (ps_types s) = take n types ->
  exists s' l, ps_asked s' = l ++ ps_asked s /\ Forall (fun a => a.1.2 = RPMI_HSM_GET_SUSPEND_TYPES) l /\
    if messages_fit fuel n
    then types_loop fuel s resp (Z.of_nat n) n = Some (0, s') /\ ps_known s' = true /\
      take (ps_nr s') (ps_types s') = take MAX types
    else types_loop fuel s resp (Z.of_nat n) n = Some (RPMI_ERR_BAD_RANGE, s') /\ ps_known s' = ps_known s.
Proof.
  revert s resp n. induction fuel as [|fuel IH]; intros s resp n Hn Hm Hf Hl Ht; [lia|]. cbn [types_loop messages_fit].
  pose proof (chunk_some n). pose proof (chunk_there n Hn). destruct (Nat.leb_spec (chunk n) MAX) as [Hfit|Hlong]; cbn [andb]; cycle 1.
  { pose proof (too_long (ps_w s) n Hn Hlong) as Ha. destruct (pe_request _ _ _ _ _) as [[rc [data len]] w]. cbn [fst] in Ha. subst rc.
    change (truth RPMI_ERR_BAD_RANGE) with true. cbn iota. unfold note.
    eexists _, [(RPMI_GROUP_HSM, RPMI_HSM_GET_SUSPEND_TYPES, [Z.of_nat n])]. split; [|split; [by apply Forall_singleton|split; [done|]]]; ps_simpl; done. }
  pose proof (answers (ps_w s) n Hn Hfit) as Ha.
  destruct (pe_request _ _ _ _ _) as [[rc [data len]] w]. cbn [fst] in Ha. injection Ha as -> -> ->.
  set (c := chunk n) in *. unfold over. set (rest := drop _ resp). cbn [length app].
  change (word (0 :: ?a :: ?b :: ?l) 2) with b. change (word (0 :: ?a :: ?b :: ?l) 1) with a.
  change (truth RPMI_SUCCESS) with false. change (truth (to_int32 (word (0 :: _) 0))) with false. cbn iota.
  rewrite (proj2 (Z.ltb_ge _ 4)) by lia. cbn [orb].
  assert (types_malformed (0 :: Z.of_nat (length types - n - c) :: Z.of_nat c :: take c (drop n types) ++ rest) (12 + 4 * Z.of_nat c) = false) as ->.
  { unfold types_malformed. change (word (0 :: ?a :: ?b :: ?l) 2) with b. change (word (0 :: ?a :: ?b :: ?l) 1) with a.
    assert (2 ^ 32 <= 2 ^ XLEN) by (apply pow2_le; pose proof XLEN_bounds; lia).
    unfold uadd, umul. rewrite (wrap_small (4 * _)), (wrap_small (12 + _)) by (unfold is_ulong; lia).
    rewrite !(proj2 (Z.ltb_ge _ _)) by lia. cbn [orb].
    destruct (Z.eqb_spec (Z.of_nat c) 0); [|done]. apply negb_false_iff, Z.eqb_eq. lia. }
  set (k := types_taken (Z.of_nat c) n). assert (k = Nat.min c (MAX - n)) as Hk by (unfold k, types_taken; lia).
  change (drop 3 (0 :: ?a :: ?b :: ?l)) with l.
  assert (take k (take c (drop n types) ++ rest) = take k (drop n types)) as ->.
  { rewrite take_app_le by (rewrite length_take, length_drop; lia). rewrite take_take. f_equal. lia. }
  assert (length (take k (drop n types)) = k) as Hlen by (rewrite length_take, length_drop; lia).
  assert (take (n + k) (types_put (ps_types s) n (take k (drop n types))) = take (n + k) types) as Htk.
  { rewrite <- Hlen at 1. rewrite types_put_take by lia. rewrite Ht. by rewrite take_take_drop. }
  destruct (truth _ && _) eqn:Ec.
  - apply andb_true_iff in Ec as [E1%truth_true E2%Nat.ltb_lt]. assert (k = c) as Hkc by lia.
    rewrite (proj2 (Nat.ltb_lt (n + c) _)) by lia. rewrite <- Hkc in *.
    replace (low32 (Z.of_nat n + Z.of_nat k)) with (Z.of_nat (n + k)) by (unfold low32; rewrite Z.mod_small; lia).
    match goal with |- context [types_loop fuel ?s1 ?r1 _ _] =>
      destruct (IH s1 r1 (n + k)%nat) as (s' & l & Has & Hall & E) end; [lia..|ps_simpl; by rewrite types_put_length|ps_simpl; done|].
    exists s', (l ++ [(RPMI_GROUP_HSM, RPMI_HSM_GET_SUSPEND_TYPES, [Z.of_nat n])]). split; [|split].
    + rewrite Has. unfold note. ps_simpl. by rewrite <- app_assoc.
    + apply Forall_app. split; [done|]. by apply Forall_singleton.
    + exact E.
  - assert ((n + c <? Nat.min MAX (length types))%nat = false) as ->.
    { apply Nat.ltb_ge. apply andb_false_iff in Ec as [E1%negb_false_iff%Z.eqb_eq|E2%Nat.ltb_ge]; lia. }
    eexists _, [(RPMI_GROUP_HSM, RPMI_HSM_GET_SUSPEND_TYPES, [Z.of_nat n])]. unfold note.
    split; [|split; [by apply Forall_singleton|split; [done|]]]; ps_simpl; [done|]. split; [done|]. rewrite Htk.
    apply andb_false_iff in Ec as [E1%negb_false_iff%Z.eqb_eq|E2%Nat.ltb_ge].
    + destruct (Nat.le_gt_cases c (MAX - n)); [rewrite !take_ge by lia; done|f_equal; lia].
    + f_equal. lia.
Qed.

(** What the PuC is asked for a hart that suspends. *)
Definition suspend_request (hartid type resume_addr : Z) : asked :=
  (RPMI_GROUP_HSM, RPMI_HSM_HART_SUSPEND, [low32 hartid; type; low32 resume_addr; low32 (Z.shiftr resume_addr 32)]).

End Listed.

(** The SBI's own two suspend types do not need a PuC that is asked for its
    list: before the list is known it hears nothing of them. *)
Lemma default_suspend_silent fuel s hartid type resume_addr :
  ps_known s = false -> type = SBI_HSM_SUSPEND_RET_DEFAULT \/ type = SBI_HSM_SUSPEND_NON_RET_DEFAULT ->
  rpmi_hsm_hart_suspend fuel s hartid type resume_addr = Some (SBI_ERR_NOT_SUPPORTED, s).
Proof. intros Hk Ht. unfold rpmi_hsm_hart_suspend. rewrite Hk. by destruct Ht as [->| ->]. Qed.
End Types.

(** * Resets *)

Section Backends.
Context {W : Type}.
Abbreviation ops := (reset_ops W).

Definition better (a b : ops) : Prop := ro_rating b <= ro_rating a.

Lemma backend_insert_sorted (l : list ops) b :
  StronglySorted (flip better) l -> StronglySorted (flip better) (backend_insert l b) /\ backend_insert l b ≡ₚ b :: l.
Proof.
  induction 1 as [|x l Hl [IHs IHp] Hx]; cbn [backend_insert]; [by repeat constructor|].
  destruct (Z.ltb_spec (ro_rating x) (ro_rating b)).
  - split; [|rewrite IHp; constructor]. constructor; [done|]. rewrite IHp. constructor; [unfold flip, better; lia|done].
  - split; [|done]. constructor; [|constructor; [unfold flip, better; lia|]].
    + by constructor.
    + eapply Forall_impl; [exact Hx|]. intros y. unfold flip, better. lia.
Qed.

(** The backends of [backend_for] up to the one it takes say no. *)
Fixpoint refuse (bs : list ops) (type : Z) (w : W) : option W :=
  match bs with
  | [] => Some w
  | b :: bs => let '(yes, w) := ro_supported b type w in if (yes : bool) then None else refuse bs type w
  end.

Lemma backend_for_first (bs : list ops) type w b w' :
  backend_for bs type w = (Some b, w') ->
  exists pre post w1, bs = pre ++ b :: post /\ refuse pre type w = Some w1 /\ ro_supported b type w1 = (true, w').
Proof.
  revert w. induction bs as [|x bs IH]; cbn [backend_for]; intros w; [done|].
  destruct (ro_supported x type w) as [[] w1] eqn:Ex; [intros [= -> ->]; by exists [], bs, w|].
  intros (pre & post & w2 & -> & Er & Eb)%IH. exists (x :: pre), post, w2. cbn [refuse]. by rewrite Ex.
Qed.

Lemma reset_register_all (regs : list ops) :
  (length regs <= MAX_BACKENDS)%nat ->
  StronglySorted (flip better) (reverse (foldl reset_register [] regs)) /\ foldl reset_register [] regs ≡ₚ regs.
Proof.
  induction regs as [|b regs IH] using rev_ind; [split; [apply SSorted_nil|done]|]. rewrite length_app. cbn [length]. intros Hl.
  rewrite foldl_app. cbn [foldl]. unfold reset_register at 1 3.
  destruct IH as [IHs IHp]; [lia|].
  rewrite (Permutation_length IHp). rewrite (proj2 (Nat.eqb_neq _ _)) by lia. rewrite reverse_involutive.
  destruct (backend_insert_sorted _ b IHs) as [Hs Hp]. split; [done|].
  rewrite reverse_Permutation, Hp, reverse_Permutation, IHp. by rewrite Permutation_cons_append.
Qed.

(** Of the backends that were registered, in whatever order, the one that
    carries out a reset is the best that supports it: the better ones, and
    those as good that came before it, were asked and said no. *)
Theorem reset_best (regs : list ops) type w b w' :
  (length regs <= MAX_BACKENDS)%nat -> backend_for (foldl reset_register [] regs) type w = (Some b, w') ->
  exists pre post w1, pre ++ b :: post ≡ₚ regs /\ refuse pre type w = Some w1 /\ ro_supported b type w1 = (true, w') /\
    Forall (fun x => ro_rating b <= ro_rating x) pre /\ Forall (fun x => ro_rating x <= ro_rating b) post.
Proof.
  intros Hl Hb. destruct (reset_register_all regs Hl) as [Hs Hp].
  destruct (backend_for_first _ _ _ _ _ Hb) as (pre & post & w1 & E & Hr & Hy). rewrite E in Hs, Hp.
  exists pre, post, w1. split_and!; [done..| |].
  - apply Forall_forall. intros x Hx. apply (StronglySorted_app_1_elem_of (flip better) (reverse post ++ [b]) (reverse pre) b x); [|set_solver..].
    by rewrite reverse_app, reverse_cons in Hs.
  - apply Forall_forall. intros x Hx. apply (StronglySorted_app_1_elem_of (flip better) (reverse post) (b :: reverse pre) x b); [|set_solver..].
    by rewrite reverse_app, reverse_cons, <- app_assoc in Hs.
Qed.
End Backends.

(** * A PuC with suspend types *)

Module SuspendTypes.
#[local] Instance rv64 : Arch := RV64.

(** [types], at most [most] of them in one message, which has to fit the
    buffer it is received into; every request for a hart is granted. *)
Definition puc (types : list Z) (most : nat) : PowerEnv unit := {|
  pe_call w _ _ _ _ := (RPMI_SUCCESS, [0], w);
  pe_request w _ _ req max :=
    let i := Z.to_nat (hd 0 req) in
    let c := Nat.min most (length types - i) in
    if max <? 12 + 4 * Z.of_nat c then (RPMI_ERR_BAD_RANGE, ([], 0), w)
    else (RPMI_SUCCESS, (0 :: Z.of_nat (length types - i - c) :: Z.of_nat c :: take c (drop i types), 12 + 4 * Z.of_nat c), w);
  pe_post w _ _ _ := w;
  pe_hartid := 0;
  pe_entry := 0x80000000;
  CONFIG_HSM_RPMI_MAX_SUSPEND_TYPES := 8;
|}.
Definition fresh : power_state unit := PowerState tt (replicate 8 0) 0 false (fun _ => UNKNOWN) [].

Definition five : list Z := [0; 0x80000000; 0x10000001; 0x90000001; 0x10000002].
#[local] Instance by_two : PowerEnv unit := puc five 2.
Definition two (i : nat) : nat := Nat.min 2 (5 - i).

Lemma two_answers (w : unit) (i : nat) : (i <= 5)%nat -> (two i <= 8)%nat ->
  (pe_request w RPMI_GROUP_HSM RPMI_HSM_GET_SUSPEND_TYPES [Z.of_nat i] (4 * Z.of_nat (3 + CONFIG_HSM_RPMI_MAX_SUSPEND_TYPES))).1 =
  (RPMI_SUCCESS, (0 :: Z.of_nat (5 - i - two i) :: Z.of_nat (two i) :: take (two i) (drop i five), 12 + 4 * Z.of_nat (two i))).
Proof. intros Hi _. do 6 (destruct i as [|i]; [reflexivity|]). lia. Qed.

Lemma two_chunks :
  (forall i, (i < length five)%nat -> (0 < two i)%nat) /\
  (forall i, (i <= length five)%nat -> (i + two i <= length five)%nat).
Proof. change (length five) with 5%nat. unfold two. split; intros; lia. Qed.

Lemma two_fits (w : unit) (i : nat) : (i <= 5)%nat -> (8 < two i)%nat ->
  (pe_request w RPMI_GROUP_HSM RPMI_HSM_GET_SUSPEND_TYPES [Z.of_nat i] (4 * Z.of_nat (3 + CONFIG_HSM_RPMI_MAX_SUSPEND_TYPES))).1.1 =
  RPMI_ERR_BAD_RANGE.
Proof. unfold two. lia. Qed.


(** Three messages, and the request. *)
Example suspended :
  exists s', rpmi_hsm_hart_suspend 9 fresh 1 0x10000002 0x80200000 = Some (SBI_SUCCESS, s') /\
    ps_asked s' = [suspend_request 1 0x10000002 0x80200000;
                   (RPMI_GROUP_HSM, RPMI_HSM_GET_SUSPEND_TYPES, [4]);
                   (RPMI_GROUP_HSM, RPMI_HSM_GET_SUSPEND_TYPES, [2]);
                   (RPMI_GROUP_HSM, RPMI_HSM_GET_SUSPEND_TYPES, [0])].
Proof. eexists. split; [vm_compute; reflexivity|reflexivity]. Qed.

(** A PuC that has 9 types, and room for them in one message: the message
    does not fit the table's buffer, the fetch fails at every attempt, and
    no type of the list can be used, although the loop is written to take
    the first 8. *)
Theorem many_types_no_suspend :
  rpmi_hsm_hart_suspend (PE := puc (five ++ [0x10000003; 0x10000004; 0x10000005; 0x10000006]) 11) 9 fresh 1 0x10000002 0x80200000 =
  Some (SBI_ERR_FAILED, fresh <| ps_asked := [(RPMI_GROUP_HSM, RPMI_HSM_GET_SUSPEND_TYPES, [0])] |>).
Proof. vm_compute. reflexivity. Qed.

(** Two backends that support shutdown: the better one is taken, though it
    came later. *)
Definition backend (rating : Z) : reset_ops Z := ResetOps rating (fun type w => (type =? 0, w)) (fun _ _ => rating).

Lemma reset_best_witness :
  exists pre post w1, pre ++ backend 200 :: post ≡ₚ [backend 100; backend 200] /\ refuse pre 0 7 = Some w1 /\
    ro_supported (backend 200) 0 w1 = (true, 7) /\
    Forall (fun x => ro_rating (backend 200) <= ro_rating x) pre /\ Forall (fun x => ro_rating x <= ro_rating (backend 200)) post.
Proof. apply reset_best; [cbn; unfold MAX_BACKENDS; lia|]. reflexivity. Defined.
End SuspendTypes.
