(* ===== verification/Devices.v ===== *)
(** Drivers of single devices: the consoles and how one is found
    ([drivers/serial]), reset devices ([drivers/reset]), GPIO
    ([drivers/gpio]) and the PLIC of the software interrupts
    ([drivers/ipi/andes_plicsw.c]).

    The loads, stores and waits of a driver are a log; what a load shows is
    the device's, given all that came before ([IoEnv]).  What the drivers
    read of the device tree are records. *)

From S2P Require Import Prelude Arch Drivers RpmiPower.

#[local] Open Scope Z_scope.

(** * Devices: [io.h] *)

Inductive io_event : Set :=
| Load (width addr val : Z)
| Store (width addr val : Z)
| Delay (us : Z).
Abbreviation io_log := (list io_event).

#[export] Instance io_event_eq_dec : EqDecision io_event.
Proof. solve_decision. Defined.

Class IoEnv := io_answer : io_log -> Z -> Z -> Z.

Section Io.
Context {AR : Arch} {IE : IoEnv}.

Definition io_read (width : Z) (log : io_log) (addr : Z) : Z * io_log :=
  let val := io_answer log width addr mod 2 ^ (8 * width) in (val, log ++ [Load width addr val]).
Definition io_write (width : Z) (log : io_log) (addr val : Z) : io_log := log ++ [Store width addr (val mod 2 ^ (8 * width))].

Definition io_read8 := io_read 1.
Definition io_read16 := io_read 2.
Definition io_read32 := io_read 4.
Definition io_write8 := io_write 1.
Definition io_write16 := io_write 2.
Definition io_write32 := io_write 4.

Definition not32 (v : Z) : Z := Z.lnot v mod 2 ^ 32.
Definition io_mask32 (log : io_log) (addr val mask : Z) : io_log :=
  let '(v, log) := io_read32 log addr in io_write32 log addr (Z.lor (Z.land v (not32 mask)) (Z.land val mask)).
Definition io_setbits32 (log : io_log) (addr set_mask : Z) : io_log :=
  let '(v, log) := io_read32 log addr in io_write32 log addr (Z.lor v set_mask).
Definition io_clrbits32 (log : io_log) (addr clear_mask : Z) : io_log :=
  let '(v, log) := io_read32 log addr in io_write32 log addr (Z.land v (not32 clear_mask)).

(** [while (!go(read(addr)));]: [None] where [fuel] loads were not enough *)
Fixpoint io_wait (fuel : nat) (go : Z -> bool) (width addr : Z) (log : io_log) : option io_log :=
  match fuel with
  | 0%nat => None
  | S fuel =>
      let '(v, log) := io_read width log addr in
      if go v then Some log else io_wait fuel go width addr log
  end.

Definition has (mask v : Z) : bool := truth (Z.land v mask).
Definition lacks (mask v : Z) : bool := negb (has mask v).

(** * UARTs, polled: [drivers/serial] *)

(** [struct serial_params] *)
Record serial_params : Set := SerialParams {
  p_base : Z; p_size : Z; p_reg_shift : Z; p_reg_width : Z; p_clock : Z; p_baud : Z;
}.

(** The init of most: [None] is -1, else the base the driver keeps and what
    it stored. *)
Definition uart_init (program : serial_params -> io_log -> io_log) (p : option serial_params) (log : io_log) : option (Z * io_log) :=
  p ← p; if negb (truth (p_base p)) then None else Some (p_base p, program p log).

(** ** [litex_uart.c] *)
Section Litex.
Context (uart : Z).
Definition litex_uart_putc (fuel : nat) (c : Z) (log : io_log) : option io_log :=
  log ← io_wait fuel (fun v => negb (truth v)) 4 (uart +! 4) log;
  Some (io_write32 log uart (c mod 2 ^ 8)).
Definition litex_uart_getc (log : io_log) : Z * io_log :=
  let '(empty, log) := io_read32 log (uart +! 8) in
  if truth empty then (-1, log)
  else let '(c, log) := io_read32 log uart in (Z.land c 0xff, io_write32 log (uart +! 16) 0x2).
End Litex.
Definition litex_uart_init := uart_init (fun p log => io_write32 log (p_base p +! 20) 0).

(** ** [gaisler_uart.c] *)
Section Gaisler.
Context (uart : Z).
Definition gaisler_uart_putc (fuel : nat) (c : Z) (log : io_log) : option io_log :=
  log ← io_wait fuel (lacks 0x200) 4 (uart +! 4) log;
  Some (io_write32 log uart (c mod 2 ^ 8)).
Definition gaisler_uart_getc (log : io_log) : Z * io_log :=
  let '(status, log) := io_read32 log (uart +! 4) in
  if has 0x001 status then let '(c, log) := io_read32 log uart in (Z.land c 0xff, log) else (-1, log).
End Gaisler.

(** Quotients of 32 bit words.  A divisor of 0 is undefined in C; a hart
    has all ones then. *)
Definition udiv32 (a b : Z) : Z := if b mod 2 ^ 32 =? 0 then 2 ^ 32 - 1 else a / (b mod 2 ^ 32).

Definition gaisler_uart_init := uart_init (fun p log =>
  let log := if truth (p_clock p) && truth (p_baud p)
             then io_write32 log (p_base p +! 12) (udiv32 (p_clock p) (8 * p_baud p) - 1) else log in
  io_write32 log (p_base p +! 8) (Z.lor 0x001 0x002)).

(** ** [shakti_uart.c] *)
Section Shakti.
Context (uart : Z).
Definition shakti_uart_putc (fuel : nat) (c : Z) (log : io_log) : option io_log :=
  log ← io_wait fuel (lacks 0x2) 1 (uart +! 0xc) log;
  Some (io_write8 log (uart +! 0x04) (c mod 2 ^ 8)).
Definition shakti_uart_getc (log : io_log) : Z * io_log :=
  let '(status, log) := io_read8 log (uart +! 0xc) in
  if negb (has 0x4 status) then (-1, log) else io_read8 log (uart +! 0x08).
End Shakti.
Definition shakti_uart_init := uart_init (fun p log =>
  if truth (p_clock p) && truth (p_baud p) then io_write16 log (p_base p) (udiv32 (p_clock p) (16 * p_baud p)) else log).

(** ** [uartlite.c] *)
Section Uartlite.
Context (uart : Z).
Definition uartlite_putc (fuel : nat) (c : Z) (log : io_log) : option io_log :=
  log ← io_wait fuel (lacks 0x08) 4 (uart +! 8) log;
  Some (io_write32 log (uart +! 4) (c mod 2 ^ 8)).
Definition uartlite_getc (log : io_log) : Z * io_log :=
  let '(status, log) := io_read32 log (uart +! 8) in
  if has 0x01 status then let '(c, log) := io_read32 log uart in (Z.land c 0xff, log) else (-1, log).
End Uartlite.
Definition uartlite_init := uart_init (fun p log => io_write32 log (p_base p +! 12) 0x03).

(** ** [sifive_uart.c] *)
Section Sifive.
Context (uart : Z).
Definition sifive_uart_putc (fuel : nat) (c : Z) (log : io_log) : option io_log :=
  log ← io_wait fuel (lacks 0x80000000) 4 uart log;
  Some (io_write32 log uart (c mod 2 ^ 8)).
Definition sifive_uart_getc (log : io_log) : Z * io_log :=
  let '(val, log) := io_read32 log (uart +! 4) in
  (if has 0x80000000 val then -1 else Z.land val 0xff, log).
End Sifive.
Definition sifive_div (clock baud : Z) : Z := ((clock + baud - 1) mod 2 ^ 32 / baud - 1) mod 2 ^ 32.
Definition sifive_uart_init := uart_init (fun p log =>
  let log := if truth (p_clock p) && truth (p_baud p)
             then io_write32 log (p_base p +! 24) (sifive_div (p_clock p) (p_baud p)) else log in
  let log := io_write32 log (p_base p +! 16) 0 in
  let log := io_write32 log (p_base p +! 8) 0x1 in
  io_write32 log (p_base p +! 12) 0x1).

(** ** [cadence_uart.c] *)
Section Cadence.
Context (uart : Z).
Definition cadence_uart_putc (fuel : nat) (c : Z) (log : io_log) : option io_log :=
  log ← io_wait fuel (lacks 0x10) 4 (uart +! 0x2c) log;
  Some (io_write32 log (uart +! 0x30) (c mod 2 ^ 8)).
Definition cadence_uart_getc (log : io_log) : Z * io_log :=
  let '(status, log) := io_read32 log (uart +! 0x2c) in
  if has 0x02 status then (-1, log) else let '(c, log) := io_read32 log (uart +! 0x30) in (Z.land c 0xff, log).
End Cadence.
Definition cadence_uart_init := uart_init (fun p log =>
  let uart := p_base p in
  let log := io_write32 log (uart +! 0x0c) (2 ^ 32 - 1) in
  let log := io_write32 log (uart +! 0x04) 0x20 in
  let log := if truth (p_clock p) && truth (p_baud p)
             then
               let brgr := udiv32 (p_clock p) (16 * p_baud p) in
               let log := io_write32 log (uart +! 0x34) 15 in
               io_write32 log (uart +! 0x18) (if truth brgr then brgr else 1)
             else log in
  let log := io_write32 log uart (Z.lor 0x01 0x02) in
  io_write32 log uart (Z.lor 0x04 0x10)).

(** ** [renesas_scif.c] *)
Section Scif.
Context (scif : Z).
Definition fsr_clear (log : io_log) (flags : Z) : io_log :=
  let '(v, log) := io_read16 log (scif +! 0x08) in io_write16 log (scif +! 0x08) (Z.land v (Z.lnot flags)).
Definition scif_putc (fuel : nat) (c : Z) (log : io_log) : option io_log :=
  log ← io_wait fuel (has 0x20) 2 (scif +! 0x08) log;
  Some (fsr_clear (io_write8 log (scif +! 0x06) (c mod 2 ^ 8)) (Z.lor 0x20 0x40)).
Definition scif_getc (log : io_log) : Z * io_log :=
  let '(status, log) := io_read16 log (scif +! 0x08) in
  if negb (has (Z.lor 0x01 0x02) status) then (-1, log)
  else let '(c, log) := io_read8 log (scif +! 0x0a) in (c, fsr_clear log (Z.lor 0x01 0x02)).
End Scif.
Definition scif_init := uart_init (fun p log => io_write16 log (p_base p +! 0x04) (Z.lor 0x10 0x20)).

(** ** [uart8250.c] *)

Record uart8250 : Set := Uart8250 { u_base : Z; u_reg_shift : Z; u_reg_width : Z; u_clock : Z; u_baud : Z }.

Definition UART_RBR : Z := 0.
Definition UART_THR : Z := 0.
Definition UART_IER : Z := 1.
Definition UART_FCR : Z := 2.
Definition UART_LCR : Z := 3.
Definition UART_MCR : Z := 4.
Definition UART_LSR : Z := 5.
Definition UART_DLL : Z := 0.
Definition UART_DLM : Z := 1.
Definition UART_LCR_DLAB : Z := 0x80.
Definition UART_LCR_8N1 : Z := 0x03.

(** The width of an access, and where a register is. *)
Definition reg_width (u : uart8250) : Z := if u_reg_width u =? 4 then 4 else 1.
Definition reg_addr (u : uart8250) (reg : Z) : Z := u_base u +! ushl reg (u_reg_shift u).
Definition reg_read8250 (u : uart8250) (log : io_log) (reg : Z) : Z * io_log := io_read (reg_width u) log (reg_addr u reg).
Definition reg_write8250 (u : uart8250) (log : io_log) (reg val : Z) : io_log := io_write (reg_width u) log (reg_addr u reg) val.

Definition uart8250_putc (u : uart8250) (fuel : nat) (c : Z) (log : io_log) : option io_log :=
  log ← io_wait fuel (has 0x20) (reg_width u) (reg_addr u UART_LSR) log;
  Some (reg_write8250 u log UART_THR (c mod 2 ^ 8)).
Definition uart8250_getc (u : uart8250) (log : io_log) : Z * io_log :=
  let '(lsr, log) := reg_read8250 u log UART_LSR in
  if negb (has 0x01 lsr) then (-1, log) else reg_read8250 u log UART_RBR.

(** What the init writes, by register *)
Definition uart8250_program (u : uart8250) : list (Z * Z) :=
  let divisor := udiv32 (u_clock u) (16 * u_baud u) in
  [(UART_IER, 0)] ++
  (if truth divisor
   then [(UART_LCR, UART_LCR_DLAB); (UART_DLL, Z.land divisor 0xff); (UART_DLM, Z.land (Z.shiftr divisor 8) 0xff)] else []) ++
  [(UART_LCR, UART_LCR_8N1); (UART_FCR, 0x07); (UART_MCR, 0x03)].

(** [fallback]: the geometry of the build.  [None]: -1; else the UART, what
    was written, and the region that is declared *)
Definition uart8250_init (fallback : uart8250) (p : option serial_params) (log : io_log)
    : option (uart8250 * io_log * option (Z * Z)) :=
  let u := match p with
           | Some p => Uart8250 (p_base p) (p_reg_shift p) (if truth (p_reg_width p) then p_reg_width p else 1) (p_clock p)
                         (if truth (p_baud p) then p_baud p else u_baud fallback)
           | None => fallback
           end in
  if negb (truth (u_base u)) then None
  else Some (u, foldl (fun log '(reg, val) => reg_write8250 u log reg val) log (uart8250_program u),
             match p with Some _ => None | None => Some (u_base u, ushl 0x100 (u_reg_shift u)) end).

(** * Finding the console: [serial.c] *)

(** A node, with the properties the core reads, 0 without. *)
Record serial_node : Set := SerialNode {
  sn_node : dt_node;
  sn_reg : option (Z * Z);
  sn_reg_shift : Z; sn_reg_io_width : Z; sn_clock_frequency : Z; sn_current_speed : Z;
}.

Section Serial.
Context {W : Type}.

(** [struct serial_driver]; [sd_init] is true where the console is
    registered. *)
Record serial_driver : Type := SerialDriver {
  sd_compatible : option (list nat);
  sd_init : option serial_params -> W -> bool * W;
  sd_last_resort : bool;
}.

(** The drivers, and [memregion_add] for a region that is shared. *)
Context (drivers : list serial_driver) (shared_rw : Z -> Z -> W -> W).

Definition driver_of (n : serial_node) : option serial_driver :=
  List.find (fun d => match sd_compatible d with Some cs => node_compatible_any (sn_node n) cs | None => false end) drivers.

Definition node_params (n : serial_node) (baud : Z) : serial_params :=
  let '(base, size) := match sn_reg n with Some (base, size) => (wrap base, wrap size) | None => (0, 0) end in
  SerialParams base size (sn_reg_shift n) (sn_reg_io_width n) (sn_clock_frequency n) (if truth baud then baud else sn_current_speed n).

Definition init_from_node (n : serial_node) (baud : Z) (w : W) : bool * W :=
  match driver_of n with
  | Some d =>
      if negb (nd_enabled (sn_node n)) then (false, w)
      else
        let p := node_params n baud in
        let '(ok, w) := sd_init d (Some p) w in
        if negb ok then (false, w) else (true, if truth (p_size p) then shared_rw (p_base p) (p_size p) w else w)
  | None => (false, w)
  end.

Fixpoint decimal_loop (val : Z) (s : list Z) : Z :=
  match s with
  | c :: s => if (48 <=? c) && (c <=? 57) then decimal_loop ((10 * val + (c - 48)) mod 2 ^ 32) s else val
  | [] => val
  end.
Definition decimal (s : list Z) : Z := decimal_loop 0 s.

(** "/chosen/stdout-path", and the node of a path or an alias *)
Record serial_tree : Type := SerialTree {
  st_stdout_path : option (list Z);
  st_path : list Z -> option serial_node;
  st_nodes : list serial_node;
}.

(** [strchr(path, ':')]: what is before it, and what is after *)
Fixpoint split_colon (path : list Z) : list Z * option (list Z) :=
  match path with
  | [] => ([], None)
  | c :: rest => if c =? 58 then ([], Some rest) else let '(name, opts) := split_colon rest in (c :: name, opts)
  end.

Definition init_from_stdout_path (t : serial_tree) (w : W) : bool * W :=
  match st_stdout_path t with
  | None => (false, w)
  | Some path =>
      let '(name, opts) := split_colon path in
      match st_path t name with
      | None => (false, w)
      | Some n => init_from_node n (match opts with Some s => decimal s | None => 0 end) w
      end
  end.

Fixpoint init_from_nodes (nodes : list serial_node) (w : W) : bool * W :=
  match nodes with
  | [] => (false, w)
  | n :: nodes => let '(ok, w) := init_from_node n 0 w in if (ok : bool) then (true, w) else init_from_nodes nodes w
  end.
Fixpoint init_defaults (last : bool) (ds : list serial_driver) (w : W) : bool * W :=
  match ds with
  | [] => (false, w)
  | d :: ds =>
      if eqb (sd_last_resort d) last
      then let '(ok, w) := sd_init d None w in if (ok : bool) then (true, w) else init_defaults last ds w
      else init_defaults last ds w
  end.

(** The result is whether there is a console. *)
Definition serial_console_init (fdt : option serial_tree) (w : W) : bool * W :=
  let '(ok, w) := match fdt with Some t => init_from_stdout_path t w | None => (false, w) end in
  if (ok : bool) then (true, w)
  else
    let '(ok, w) := match fdt with Some t => init_from_nodes (st_nodes t) w | None => (false, w) end in
    if (ok : bool) then (true, w)
    else
      let '(ok, w) := init_defaults false drivers w in
      if (ok : bool) then (true, w) else init_defaults true drivers w.
End Serial.
#[global] Arguments serial_driver : clear implicits.

(** * GPIO: [gpio.c], [sifive_gpio.c] *)

Definition GPIO_ACTIVE_LOW : Z := 0x1.

(** [struct gpio_chip], with [priv] in the closure of [output] *)
Record gpio_chip : Type := GpioChip { gc_phandle : Z; gc_nr_lines : Z; gc_output : Z -> bool -> io_log -> io_log }.
Record gpio_line : Type := GpioLine { gl_chip : gpio_chip; gl_line : Z; gl_active_low : bool }.

Definition gpio_chip_register (chips : list gpio_chip) (chip : gpio_chip) : list gpio_chip := chip :: chips.

(** [cells]: the property.  [None]: -1 *)
Definition gpio_line_from_fdt (chips : list gpio_chip) (cells : option (list Z)) (index : nat) : option gpio_line :=
  cells ← cells;
  if (4 * length cells <? 12 * (index + 1))%nat then None
  else
    let cell k := default 0 (cells !! (3 * index + k)%nat) in
    chip ← List.find (fun chip => gc_phandle chip =? cell 0%nat) chips;
    if gc_nr_lines chip <=? cell 1%nat then None
    else Some (GpioLine chip (cell 1%nat) (has GPIO_ACTIVE_LOW (cell 2%nat))).

Definition gpio_line_output (l : gpio_line) (active : bool) (log : io_log) : io_log :=
  gc_output (gl_chip l) (gl_line l) (negb (eqb active (gl_active_low l))) log.

Definition MAX_CHIPS : nat := 2.
Definition REG_OUTPUT_EN : Z := 0x08.
Definition REG_OUTPUT_VAL : Z := 0x0c.
Definition sifive_gpio_output (regs line : Z) (high : bool) (log : io_log) : io_log :=
  let log := if high then io_setbits32 log (regs +! REG_OUTPUT_VAL) (BIT line mod 2 ^ 32)
             else io_clrbits32 log (regs +! REG_OUTPUT_VAL) (BIT line mod 2 ^ 32) in
  io_setbits32 log (regs +! REG_OUTPUT_EN) (BIT line mod 2 ^ 32).

(** A node: "reg", its phandle and "ngpios" (16 without).  The chips and how
    many of them are this driver's; the region that is shared, where it was
    probed *)
Definition sifive_gpio_probe (node : option (option (Z * Z) * Z * Z)) (chips : list gpio_chip) (nr_chips : nat)
    : Z * list gpio_chip * nat * option (Z * Z) :=
  match node with
  | None => (0, chips, nr_chips, None)
  | Some (reg, phandle, ngpios) =>
      match reg with
      | Some (base, size) =>
          if (nr_chips =? MAX_CHIPS)%nat then (-1, chips, nr_chips, None)
          else (0, gpio_chip_register chips (GpioChip phandle ngpios (sifive_gpio_output (wrap base))), S nr_chips, Some (wrap base, wrap size))
      | None => (-1, chips, nr_chips, None)
      end
  end.

(** * Reset devices: [drivers/reset] *)

Record syscon_action : Set := SysconAction { sa_reg : Z; sa_value : Z; sa_mask : Z }.
Record gpio_reset_line : Type := GpioReset { gr_line : gpio_line; gr_active_ms : Z; gr_inactive_ms : Z }.

(** What the drivers keep, and the log. *)
Record reset_devs : Type := ResetDevs {
  rd_finisher : Z;
  rd_poweroff : syscon_action; rd_reboot : syscon_action; (* [actions] *)
  rd_gpio_poweroff : option gpio_reset_line; rd_gpio_restart : option gpio_reset_line;
  rd_wdt : Z; rd_is_sunxi : bool;
  rd_log : io_log;
}.
#[local] Instance reset_devs_eta : Settable reset_devs := fun w =>
  ResetDevs (rd_finisher w) (rd_poweroff w) (rd_reboot w) (rd_gpio_poweroff w) (rd_gpio_restart w) (rd_wdt w) (rd_is_sunxi w) (rd_log w).
Definition reset_devs0 : reset_devs := ResetDevs 0 (SysconAction 0 0 0) (SysconAction 0 0 0) None None 0 false [].

Definition RESET_SHUTDOWN : Z := 0.
Definition is_shutdown (type : Z) : bool := type =? RESET_SHUTDOWN.

(** A probe: its result, what the drivers keep, the backends, and the region
    that is shared. *)
Definition probed : Type := Z * reset_devs * list (reset_ops reset_devs) * option (Z * Z).

(** ** [sifive_test.c] *)
Definition FINISHER_PASS : Z := 0x5555.
Definition FINISHER_RESET : Z := 0x7777.
Definition sifive_test_supported (type : Z) (w : reset_devs) : bool * reset_devs := (true, w).
Definition sifive_test_reset (type : Z) (w : reset_devs) : reset_devs :=
  w <| rd_log := io_write32 (rd_log w) (rd_finisher w) (if is_shutdown type then FINISHER_PASS else FINISHER_RESET) |>.
Definition sifive_test_ops : reset_ops reset_devs := ResetOps 100 sifive_test_supported sifive_test_reset.

(** [node]: its "reg".  [CONFIG_RESET_SIFIVE_TEST_ADDR] is where the device
    is without a node, 0 for nowhere. *)
Definition sifive_test_probe (CONFIG_RESET_SIFIVE_TEST_ADDR : Z) (node : option (option (Z * Z))) (w : reset_devs)
    (bs : list (reset_ops reset_devs)) : probed :=
  let there (base size : Z) : probed :=
    (0, w <| rd_finisher := wrap base |>, reset_register bs sifive_test_ops, Some (wrap base, wrap size)) in
  if truth (rd_finisher w) then (0, w, bs, None)
  else match node with
       | None => if truth CONFIG_RESET_SIFIVE_TEST_ADDR then there CONFIG_RESET_SIFIVE_TEST_ADDR 0x1000 else (0, w, bs, None)
       | Some (Some (base, size)) => there base size
       | Some None => (-1, w, bs, None)
       end.

(** ** [syscon_reset.c] *)
Definition action_for (type : Z) (w : reset_devs) : syscon_action := if is_shutdown type then rd_poweroff w else rd_reboot w.
Definition syscon_reset_supported (type : Z) (w : reset_devs) : bool * reset_devs := (truth (sa_reg (action_for type w)), w).
Definition syscon_reset_write (type : Z) (w : reset_devs) : reset_devs :=
  let a := action_for type w in w <| rd_log := io_mask32 (rd_log w) (sa_reg a) (sa_value a) (sa_mask a) |>.
Definition syscon_reset_ops : reset_ops reset_devs := ResetOps 50 syscon_reset_supported syscon_reset_write.

(** Is it a "syscon-poweroff", the "reg" of its "regmap", and its "offset",
    "value" (0 without) and "mask" (all ones without) *)
Record syscon_node : Set := SysconNode { sy_poweroff : bool; sy_regmap : option (Z * Z); sy_offset : Z; sy_value : Z; sy_mask : Z }.

Definition syscon_reset_probe (node : option syscon_node) (w : reset_devs) (bs : list (reset_ops reset_devs)) : probed :=
  match node with
  | None => (0, w, bs, None)
  | Some n =>
      let a := if sy_poweroff n then rd_poweroff w else rd_reboot w in
      if truth (sa_reg a) then (0, w, bs, None)
      else match sy_regmap n with
           | None => (-1, w, bs, None)
           | Some (base, size) =>
               let a := SysconAction (wrap base +! sy_offset n) (sy_value n) (sy_mask n) in
               let w := if sy_poweroff n then w <| rd_poweroff := a |> else w <| rd_reboot := a |> in
               (0, w, if eqb (truth (sa_reg (rd_poweroff w))) (truth (sa_reg (rd_reboot w))) then bs else reset_register bs syscon_reset_ops,
                Some (wrap base, wrap size))
           end
  end.

(** ** [gpio_reset.c] *)
Definition gpio_of (type : Z) (w : reset_devs) : option gpio_reset_line := if is_shutdown type then rd_gpio_poweroff w else rd_gpio_restart w.
Definition gpio_reset_supported (type : Z) (w : reset_devs) : bool * reset_devs := (bool_decide (is_Some (gpio_of type w)), w).
(** Called where it is supported. *)
Definition gpio_reset (type : Z) (w : reset_devs) : reset_devs :=
  match gpio_of type w with
  | None => w
  | Some r =>
      let log := gpio_line_output (gr_line r) true (rd_log w) in
      if is_shutdown type then w <| rd_log := log |>
      else
        let log := log ++ [Delay (1000 * gr_active_ms r)] in
        let log := gpio_line_output (gr_line r) false log in
        let log := log ++ [Delay (1000 * gr_inactive_ms r)] in
        w <| rd_log := gpio_line_output (gr_line r) true log |>
  end.
Definition gpio_reset_ops : reset_ops reset_devs := ResetOps 100 gpio_reset_supported gpio_reset.

(** Is it a "gpio-poweroff", its "gpios", and its delays (100 without) *)
Record gpio_reset_node : Set := GpioResetNode { gn_poweroff : bool; gn_gpios : option (list Z); gn_active_delay : Z; gn_inactive_delay : Z }.

Definition gpio_reset_probe (chips : list gpio_chip) (node : option gpio_reset_node) (w : reset_devs)
    (bs : list (reset_ops reset_devs)) : probed :=
  match node with
  | None => (0, w, bs, None)
  | Some n =>
      let r := if gn_poweroff n then rd_gpio_poweroff w else rd_gpio_restart w in
      let other := if gn_poweroff n then rd_gpio_restart w else rd_gpio_poweroff w in
      if bool_decide (is_Some r) then (0, w, bs, None)
      else match gpio_line_from_fdt chips (gn_gpios n) 0 with
           | None => (-1, w, bs, None)
           | Some line =>
               let r := Some (GpioReset line (gn_active_delay n) (gn_inactive_delay n)) in
               (0, if gn_poweroff n then w <| rd_gpio_poweroff := r |> else w <| rd_gpio_restart := r |>,
                if bool_decide (is_Some other) then bs else reset_register bs gpio_reset_ops, None)
           end
  end.

(** ** [wdt_reset.c] *)
Definition wdt_reset_supported (type : Z) (w : reset_devs) : bool * reset_devs := (negb (is_shutdown type), w).
Definition wdt_reset (type : Z) (w : reset_devs) : reset_devs :=
  w <| rd_log :=
    if rd_is_sunxi w then io_write32 (rd_log w) (rd_wdt w +! 0x08) (Z.lor 0x16aa0000 0x1)
    else io_write32 (io_write32 (rd_log w) (rd_wdt w +! 0x18) 0x5aa5) (rd_wdt w +! 0x10) (Z.lor (Z.lor 0x1 0x2) 0x8) |>.
Definition wdt_reset_ops : reset_ops reset_devs := ResetOps 50 wdt_reset_supported wdt_reset.
(** [node]: its "reg", and is it an Allwinner *)
Definition wdt_reset_probe (node : option (option (Z * Z) * bool)) (w : reset_devs) (bs : list (reset_ops reset_devs)) : probed :=
  match node with
  | None => (0, w, bs, None)
  | Some (reg, sunxi) =>
      if truth (rd_wdt w) then (0, w, bs, None)
      else match reg with
           | None => (-1, w, bs, None)
           | Some (base, size) =>
               (0, w <| rd_wdt := wrap base |> <| rd_is_sunxi := sunxi |>, reset_register bs wdt_reset_ops, Some (wrap base, wrap size))
           end
  end.

(** * Software interrupts: [andes_plicsw.c] *)

Section Plicsw.
Context (plicsw : Z) (position_of : Z -> Z) (CONFIG_PLATFORM_HART_COUNT : Z).

Definition plicsw_send (index : Z) (log : io_log) : io_log :=
  let pos := if index <? CONFIG_PLATFORM_HART_COUNT then position_of index else -1 in
  if 0 <=? pos then io_write32 log (plicsw +! (0x1000 +! 4 *! ((pos + 1) / 32))) (BIT ((pos + 1) mod 32)) else log.

Definition plicsw_clear (index : Z) (log : io_log) : io_log :=
  let pos := position_of index in
  if pos <? 0 then log
  else
    let claim := plicsw +! (0x200000 +! 0x4 +! 0x1000 *! pos) in
    let '(v, log) := io_read32 log claim in io_write32 log claim v.

(** The loop of [plicsw_probe] *)
Definition plicsw_set_up (log : io_log) : io_log :=
  foldl (fun log i =>
    if position_of i <? 0 then log
    else
      let id := position_of i + 1 in
      let log := io_write32 log (plicsw +! (0x4 *! id)) 1 in
      io_write32 log (plicsw +! (0x2000 +! 0x80 *! (id - 1) +! 4 *! (id / 32))) (BIT (id mod 32))) log (seqZ 0 CONFIG_PLATFORM_HART_COUNT).
End Plicsw.
(** [node]: its "reg" and the entries of its "interrupts-extended"; what is
    kept, the stores, and the region of the monitor *)
Definition IRQ_M_SOFT : Z := 3.
Definition plicsw_probe (slot_of : Z -> Z) (harts : Z) (node : option (option (Z * Z) * list (Z * Z))) (plicsw : Z) (log : io_log)
    : Z * option (Z * (Z -> Z)) * io_log * option (Z * Z) :=
  match node with
  | None => (0, None, log, None)
  | Some (reg, entries) =>
      if truth plicsw then (0, None, log, None)
      else match reg with
           | None => (-1, None, log, None)
           | Some (base, size) =>
               let '(position_of, found) := fdt_hart_positions entries IRQ_M_SOFT slot_of harts in
               if found =? 0 then (-1, None, log, None)
               else (0, Some (wrap base, position_of), plicsw_set_up (wrap base) position_of harts log, Some (wrap base, wrap size))
           end
  end.
End Io.

(** * What the drivers do *)

Section Correct.
Context {AR : Arch} {IE : IoEnv}.

(** ** A character is sent once, when the UART can take it *)

(** The log after [n] looks at a register. *)
Definition polled (n : nat) (width addr : Z) (log : io_log) : io_log := Nat.iter n (fun log => (io_read width log addr).2) log.

Lemma io_wait_some fuel go width addr log log' :
  io_wait fuel go width addr log = Some log' ->
  exists polls v, log' = log ++ polls ++ [Load width addr v] /\ go v = true /\
    Forall (fun e => exists v, e = Load width addr v /\ go v = false) polls.
Proof.
  revert log. induction fuel as [|fuel IH]; intros log; [done|]. cbn [io_wait]. unfold io_read.
  destruct (go _) eqn:E; [intros [= <-]; by exists [], (io_answer log width addr mod 2 ^ (8 * width))|].
  intros (polls & v & -> & Hv & Hp)%IH. eexists (_ :: polls), v. split_and!; [by rewrite <- app_assoc|done|constructor; [|done]].
  eauto.
Qed.
Lemma io_wait_ends fuel go width addr log n :
  (n < fuel)%nat -> go (io_read width (polled n width addr log) addr).1 = true -> is_Some (io_wait fuel go width addr log).
Proof.
  revert log fuel. induction n as [|n IH]; intros log [|fuel] Hn Hg; try lia; cbn [io_wait].
  - change (polled 0 width addr log) with log in Hg. destruct (io_read width log addr) as [v l]. cbn [fst] in Hg. by rewrite Hg.
  - unfold polled in Hg. rewrite Nat.iter_succ_r in Hg. destruct (io_read width log addr) as [v l] eqn:E. cbn [snd] in Hg.
    destruct (go v); [done|]. apply IH; [lia|exact Hg].
Qed.

(** What sending is for each UART: when to go on, what is looked at (width
    and address), where the character goes, and what follows. *)
Record uart_tx : Type := UartTx {
  tx_putc : nat -> Z -> io_log -> option io_log;
  tx_go : Z -> bool; tx_status : Z * Z; tx_data : Z * Z;
  tx_after : io_log -> io_log;
}.
Definition uarts (uart : Z) (u : uart8250) : list uart_tx :=
  [ UartTx (litex_uart_putc uart) (fun v => negb (truth v)) (4, uart +! 4) (4, uart) id;
    UartTx (gaisler_uart_putc uart) (lacks 0x200) (4, uart +! 4) (4, uart) id;
    UartTx (shakti_uart_putc uart) (lacks 0x2) (1, uart +! 0xc) (1, uart +! 0x04) id;
    UartTx (uartlite_putc uart) (lacks 0x08) (4, uart +! 8) (4, uart +! 4) id;
    UartTx (sifive_uart_putc uart) (lacks 0x80000000) (4, uart) (4, uart) id;
    UartTx (cadence_uart_putc uart) (lacks 0x10) (4, uart +! 0x2c) (4, uart +! 0x30) id;
    UartTx (scif_putc uart) (has 0x20) (2, uart +! 0x08) (1, uart +! 0x06) (fun log => fsr_clear uart log 0x60);
    UartTx (uart8250_putc u) (has 0x20) (reg_width u, reg_addr u UART_LSR) (reg_width u, reg_addr u UART_THR) id ].

Lemma uart_putc_polls uart u : Forall (fun t => forall fuel c log,
  tx_putc t fuel c log = (log ← io_wait fuel (tx_go t) (tx_status t).1 (tx_status t).2 log;
                          Some (tx_after t (io_write (tx_data t).1 log (tx_data t).2 (c mod 2 ^ 8))))) (uarts uart u).
Proof. repeat constructor. Qed.
Lemma uart_data_width uart u : Forall (fun t => 1 <= (tx_data t).1) (uarts uart u).
Proof. repeat (constructor; [cbn; try lia|]); [|constructor]. unfold reg_width. by destruct (u_reg_width u =? 4). Qed.

Lemma byte_fits width c : 1 <= width -> (c mod 2 ^ 8) mod 2 ^ (8 * width) = c mod 2 ^ 8.
Proof.
  intros H. apply Z.mod_small. pose proof (Z.mod_pos_bound c (2 ^ 8) ltac:(lia)).
  assert (2 ^ 8 <= 2 ^ (8 * width)) by (apply Z.pow_le_mono_r; lia). lia.
Qed.

(** Each UART's [putc] looks at the status until the UART can take a
    character, and then stores the byte once; it returns where the UART gets
    ready within the looks it is given. *)
Theorem putc_sends uart u t fuel c log :
  t ∈ uarts uart u ->
  (forall log', tx_putc t fuel c log = Some log' ->
     exists polls v,
       log' = tx_after t (log ++ polls ++ [Load (tx_status t).1 (tx_status t).2 v; Store (tx_data t).1 (tx_data t).2 (c mod 2 ^ 8)]) /\
       tx_go t v = true /\ Forall (fun e => exists v, e = Load (tx_status t).1 (tx_status t).2 v /\ tx_go t v = false) polls) /\
  (forall n, (n < fuel)%nat -> tx_go t (io_read (tx_status t).1 (polled n (tx_status t).1 (tx_status t).2 log) (tx_status t).2).1 = true ->
     is_Some (tx_putc t fuel c log)).
Proof.
  intros Ht. pose proof (proj1 (Forall_forall _ _) (uart_putc_polls uart u) t Ht) as Hp.
  pose proof (proj1 (Forall_forall _ _) (uart_data_width uart u) t Ht) as Hw. cbn beta in Hp, Hw. rewrite Hp. split.
  - intros log'. destruct (io_wait _ _ _ _ log) as [l|] eqn:E; [|done]. cbn [mbind option_bind]. intros [= <-].
    apply io_wait_some in E as (polls & v & -> & Hv & Hf). exists polls, v. split_and!; [|done|done].
    unfold io_write. rewrite byte_fits by done. by rewrite <- !app_assoc.
  - intros n Hn Hg. destruct (io_wait_ends fuel (tx_go t) (tx_status t).1 (tx_status t).2 log n Hn Hg) as [l ->]. by eexists.
Qed.

(** ** A 16550 that is set up *)

(** The device, as its stores by register see it: with the divisor latch
    open, the first two registers are the latch. *)
Record ns16550 : Set := Ns16550 { n_ier : Z; n_lcr : Z; n_dll : Z; n_dlm : Z; n_sent : list Z }.
#[local] Instance ns16550_eta : Settable ns16550 := fun n => Ns16550 (n_ier n) (n_lcr n) (n_dll n) (n_dlm n) (n_sent n).
Definition latch_open (n : ns16550) : bool := has UART_LCR_DLAB (n_lcr n).
Definition ns_store (n : ns16550) (w : Z * Z) : ns16550 :=
  if w.1 =? 0 then if latch_open n then n <| n_dll := w.2 |> else n <| n_sent := n_sent n ++ [w.2] |>
  else if w.1 =? UART_IER then if latch_open n then n <| n_dlm := w.2 |> else n <| n_ier := w.2 |>
  else if w.1 =? UART_LCR then n <| n_lcr := w.2 |>
  else n.

(** The init leaves a UART with its interrupts off and the latch shut, that
    has sent nothing, and runs at the clock divided, or as it did where there
    is nothing to divide. *)
Theorem uart8250_set_up u n :
  latch_open n = false ->
  let n' := foldl ns_store n (uart8250_program u) in
  let divisor := udiv32 (u_clock u) (16 * u_baud u) in
  n_ier n' = 0 /\ n_lcr n' = UART_LCR_8N1 /\ latch_open n' = false /\ n_sent n' = n_sent n /\
  n_dll n' + 256 * n_dlm n' = if divisor =? 0 then n_dll n + 256 * n_dlm n else divisor mod 2 ^ 16.
Proof.
  intros Hl. unfold uart8250_program. cbn zeta. set (d := udiv32 (u_clock u) (16 * u_baud u)). unfold truth.
  unfold ns_store. destruct (Z.eqb_spec d 0); cbn [negb app foldl fst snd Z.eqb UART_IER UART_LCR UART_DLL UART_DLM UART_FCR UART_MCR Pos.eqb].
  - rewrite Hl. by cbn [field_update n_ier n_lcr n_sent n_dll n_dlm].
  - rewrite Hl. unfold latch_open. cbn [field_update n_ier n_lcr n_sent n_dll n_dlm].
    do 2 (change (has UART_LCR_DLAB UART_LCR_DLAB) with true; cbn [field_update n_ier n_lcr n_sent n_dll n_dlm]).
    split_and!; [done..|]. change 255 with (Z.ones 8). rewrite !Z.land_ones, Z.shiftr_div_pow2 by lia.
    change (2 ^ 16) with (2 ^ 8 * 2 ^ 8). rewrite Z.rem_mul_r by lia. lia.
Qed.

(** ** Speeds *)

(** The divisor of a SiFive UART is the smallest that does not go faster
    than asked. *)
Theorem sifive_div_exact clock baud :
  0 < clock -> 0 < baud -> clock + baud <= 2 ^ 32 ->
  let div := sifive_div clock baud in
  clock <= baud * (div + 1) /\ forall d, 0 <= d -> clock <= baud * (d + 1) -> div <= d.
Proof.
  intros Hc Hb Hs div. unfold div, sifive_div. rewrite (Z.mod_small (clock + baud - 1)) by lia.
  set (q := (clock + baud - 1) / baud).
  assert (Hq : baud * q <= clock + baud - 1 < baud * q + baud) by (unfold q; split; [apply Z.mul_div_le; lia|pose proof (Z.mul_succ_div_gt (clock + baud - 1) baud); lia]).
  assert (1 <= q < 2 ^ 32) by nia. rewrite Z.mod_small by lia. split; [lia|]. intros d Hd Hle. nia.
Qed.

(** ** The console of "stdout-path" *)

Definition digits_value (ds : list Z) : Z := foldl (fun v d => 10 * v + d) 0 ds.

Lemma decimal_loop_digits val ds rest :
  Forall (fun d => 0 <= d <= 9) ds -> match rest with c :: _ => c < 48 \/ 57 < c | [] => True end ->
  decimal_loop (val mod 2 ^ 32) (((fun d => 48 + d) <$> ds) ++ rest) = foldl (fun v d => 10 * v + d) val ds mod 2 ^ 32.
Proof.
  intros Hd Hr. revert val. induction Hd as [|d ds Hd _ IH]; intros val; cbn [fmap list_fmap app decimal_loop foldl].
  - destruct rest as [|c rest]; [done|]. cbn [decimal_loop]. by destruct (Z.leb_spec 48 c), (Z.leb_spec c 57); try lia.
  - destruct (Z.leb_spec 48 (48 + d)), (Z.leb_spec (48 + d) 57); try lia. cbn [andb]. rewrite <- IH. f_equal.
    replace (48 + d - 48) with d by lia. by rewrite <- Z.add_mod_idemp_l, Z.mul_mod_idemp_r, Z.add_mod_idemp_l by lia.
Qed.

Lemma split_colon_name name opts : 58 ∉ name -> split_colon (name ++ 58 :: opts) = (name, Some opts).
Proof.
  induction name as [|c name IH]; intros Hn; [done|]. cbn [app split_colon]. destruct (Z.eqb_spec c 58) as [->|]; [set_solver|].
  rewrite IH by set_solver. done.
Qed.

(** "name:digits...": the node of the name, at the speed the digits say. *)
Theorem stdout_path_speed {W : Type} (drivers : list (serial_driver W)) shared_rw t name ds rest (w : W) :
  st_stdout_path t = Some (name ++ 58 :: ((fun d => 48 + d) <$> ds) ++ rest) -> 58 ∉ name ->
  Forall (fun d => 0 <= d <= 9) ds -> match rest with c :: _ => c < 48 \/ 57 < c | [] => True end ->
  digits_value ds < 2 ^ 32 ->
  init_from_stdout_path drivers shared_rw t w =
    match st_path t name with Some n => init_from_node drivers shared_rw n (digits_value ds) w | None => (false, w) end.
Proof.
  intros Hp Hn Hd Hr Hv. unfold init_from_stdout_path. rewrite Hp, split_colon_name by done.
  destruct (st_path t name) as [n|]; [|done]. f_equal. unfold decimal.
  change (decimal_loop 0) with (decimal_loop (0 mod 2 ^ 32)). rewrite decimal_loop_digits by done. apply Z.mod_small. split; [|done].
  enough (forall v, 0 <= v -> 0 <= foldl (fun v d => 10 * v + d) v ds) by (apply H; lia). clear -Hd.
  induction Hd as [|d ds Hd _ IH]; intros v Hv; [done|]. apply IH. lia.
Qed.
(** ** A line is driven, and no other *)

(** What a register shows, and a register that keeps what is stored in it. *)
Definition shows (log : io_log) (a : Z) : Z := io_answer log 4 a mod 2 ^ 32.
Definition keeps (a : Z) : Prop :=
  (forall log v, io_answer (log ++ [Store 4 a v]) 4 a = v) /\
  (forall log e, (forall v, e <> Store 4 a v) -> io_answer (log ++ [e]) 4 a = io_answer log 4 a).

Lemma keeps_update a a' f log : keeps a ->
  shows (let '(v, log) := io_read32 log a' in io_write32 log a' (f v)) a = if decide (a' = a) then f (shows log a) mod 2 ^ 32 else shows log a.
Proof.
  intros [Hk Ho]. unfold shows, io_read32, io_read, io_write32, io_write. case_decide as E.
  - subst a'. rewrite Hk. by rewrite Zmod_mod.
  - by rewrite !Ho by (intros v [= ]; congruence).
Qed.

Lemma bit32 line i : 0 <= line < 32 -> 0 <= i -> Z.testbit (BIT line mod 2 ^ 32) i = (line =? i).
Proof.
  intros Hl Hi. unfold BIT, ushl, wrap. rewrite !testbit_mod_pow2 by (unfold XLEN; destruct arch_xlen; lia).
  rewrite Z.shiftl_spec by lia. destruct (Z.eqb_spec line i) as [->|].
  - rewrite Z.sub_diag. unfold XLEN. destruct arch_xlen; destruct (Z.ltb_spec i 32), (Z.ltb_spec i 64); try lia; done.
  - replace (Z.testbit 1 (i - line)) with false; [by rewrite !andb_false_r|]. symmetry.
    destruct (Z.ltb_spec i line); [apply Z.testbit_neg_r; lia|]. apply (Z.bits_above_log2 1); cbn; lia.
Qed.

(** Setting or clearing the bit of a line of a register. *)
Lemma set_line v line i : 0 <= line < 32 -> 0 <= i < 32 ->
  Z.testbit (Z.lor v (BIT line mod 2 ^ 32) mod 2 ^ 32) i = (line =? i) || Z.testbit v i.
Proof.
  intros Hl Hi. rewrite testbit_mod_pow2, Z.lor_spec, bit32 by lia. destruct (Z.ltb_spec i 32); [|lia]. by rewrite orb_comm.
Qed.
Lemma clear_line v line i : 0 <= line < 32 -> 0 <= i < 32 ->
  Z.testbit (Z.land v (not32 (BIT line mod 2 ^ 32)) mod 2 ^ 32) i = negb (line =? i) && Z.testbit v i.
Proof.
  intros Hl Hi. unfold not32. rewrite !testbit_mod_pow2, Z.land_spec, testbit_mod_pow2, Z.lnot_spec, bit32 by lia.
  destruct (Z.ltb_spec i 32); [|lia]. cbn [andb]. by rewrite andb_comm.
Qed.

Lemma out_regs_differ regs : regs +! REG_OUTPUT_EN <> regs +! REG_OUTPUT_VAL.
Proof.
  unfold REG_OUTPUT_EN, REG_OUTPUT_VAL, uadd, wrap, XLEN. destruct arch_xlen; intros E;
    [pose proof (Z.mod_divide (regs + 12 - (regs + 8)) (2 ^ 32))|pose proof (Z.mod_divide (regs + 12 - (regs + 8)) (2 ^ 64))];
    Z.to_euclidean_division_equations; lia.
Qed.

(** A line of a SiFive controller that is driven has its level, as an
    output, and the other lines keep theirs; active is low for a line the
    tree says so of. *)
Theorem gpio_line_driven l regs active log :
  gc_output (gl_chip l) = sifive_gpio_output regs -> 0 <= gl_line l < 32 ->
  keeps (regs +! REG_OUTPUT_VAL) -> keeps (regs +! REG_OUTPUT_EN) ->
  let log' := gpio_line_output l active log in
  forall i, 0 <= i < 32 ->
    Z.testbit (shows log' (regs +! REG_OUTPUT_VAL)) i
      = (if i =? gl_line l then xorb active (gl_active_low l) else Z.testbit (shows log (regs +! REG_OUTPUT_VAL)) i) /\
    Z.testbit (shows log' (regs +! REG_OUTPUT_EN)) i
      = (if i =? gl_line l then true else Z.testbit (shows log (regs +! REG_OUTPUT_EN)) i).
Proof.
  intros Ho Hl Kv Ke log' i Hi. unfold log', gpio_line_output. rewrite Ho. unfold sifive_gpio_output, io_setbits32, io_clrbits32.
  pose proof (out_regs_differ regs) as Hne. rewrite (Z.eqb_sym i).
  rewrite (keeps_update _ (regs +! REG_OUTPUT_EN) (fun v => Z.lor v _)), (keeps_update _ (regs +! REG_OUTPUT_EN) (fun v => Z.lor v _)) by done.
  destruct (decide (regs +! REG_OUTPUT_EN = regs +! REG_OUTPUT_VAL)); [done|].
  destruct (decide (regs +! REG_OUTPUT_EN = regs +! REG_OUTPUT_EN)); [|done]. rewrite set_line by done.
  replace (negb (eqb active (gl_active_low l))) with (xorb active (gl_active_low l)) by (by destruct active, (gl_active_low l)).
  destruct (xorb active (gl_active_low l)).
  - rewrite (keeps_update _ (regs +! REG_OUTPUT_VAL) (fun v => Z.lor v _)), (keeps_update _ (regs +! REG_OUTPUT_VAL) (fun v => Z.lor v _)) by done.
    destruct (decide (regs +! REG_OUTPUT_VAL = regs +! REG_OUTPUT_VAL)); [|done].
    destruct (decide (regs +! REG_OUTPUT_VAL = regs +! REG_OUTPUT_EN)); [done|]. rewrite set_line by done. by destruct (gl_line l =? i).
  - rewrite (keeps_update _ (regs +! REG_OUTPUT_VAL) (fun v => Z.land v _)), (keeps_update _ (regs +! REG_OUTPUT_VAL) (fun v => Z.land v _)) by done.
    destruct (decide (regs +! REG_OUTPUT_VAL = regs +! REG_OUTPUT_VAL)); [|done].
    destruct (decide (regs +! REG_OUTPUT_VAL = regs +! REG_OUTPUT_EN)); [done|]. rewrite clear_line by done. by destruct (gl_line l =? i).
Qed.
(** ** A reset goes to a device that was found *)

Abbreviation table := (list (reset_ops reset_devs)).

Lemma backend_insert_elem (bs : table) b ops : b ∈ backend_insert bs ops -> b = ops \/ b ∈ bs.
Proof.
  induction bs as [|x bs IH]; cbn [backend_insert]; [set_solver|]. destruct (_ <? _); [|set_solver].
  intros [->|H]%elem_of_cons; [right; by left|]. destruct (IH H); [by left|right; by right].
Qed.
Lemma reset_register_elem (bs : table) b ops : b ∈ reset_register bs ops -> b = ops \/ b ∈ bs.
Proof.
  unfold reset_register. destruct (_ =? _)%nat; [by right|]. intros [->|H]%elem_of_reverse%backend_insert_elem; [by left|].
  right. by apply elem_of_reverse.
Qed.

(** Some of what a backend needs is there. *)
Definition present (w : reset_devs) (b : reset_ops reset_devs) : Prop :=
  (b = sifive_test_ops /\ rd_finisher w <> 0) \/ b = syscon_reset_ops \/ b = gpio_reset_ops \/ (b = wdt_reset_ops /\ rd_wdt w <> 0).
(** What it needs for a reset of the type is there. *)
Definition found (type : Z) (w : reset_devs) (b : reset_ops reset_devs) : Prop :=
  (b = sifive_test_ops /\ rd_finisher w <> 0) \/
  (b = syscon_reset_ops /\ sa_reg (action_for type w) <> 0) \/
  (b = gpio_reset_ops /\ is_Some (gpio_of type w)) \/
  (b = wdt_reset_ops /\ type <> RESET_SHUTDOWN /\ rd_wdt w <> 0).

(** The probes of the drivers, in any order; a "reg" is not at 0. *)
Inductive reset_probed : reset_devs -> table -> Prop :=
| probed_none : reset_probed reset_devs0 []
| probed_sifive w bs cfg node rc w' bs' region :
    reset_probed w bs -> is_ulong cfg -> (forall base size, node = Some (Some (base, size)) -> wrap base <> 0) ->
    sifive_test_probe cfg node w bs = (rc, w', bs', region) -> reset_probed w' bs'
| probed_syscon w bs node rc w' bs' region :
    reset_probed w bs -> syscon_reset_probe node w bs = (rc, w', bs', region) -> reset_probed w' bs'
| probed_gpio w bs chips node rc w' bs' region :
    reset_probed w bs -> gpio_reset_probe chips node w bs = (rc, w', bs', region) -> reset_probed w' bs'
| probed_wdt w bs node rc w' bs' region :
    reset_probed w bs -> (forall base size sunxi, node = Some (Some (base, size), sunxi) -> wrap base <> 0) ->
    wdt_reset_probe node w bs = (rc, w', bs', region) -> reset_probed w' bs'.

(** A probe that keeps what was found, and adds at most one backend. *)
Lemma present_kept w w' (bs bs' : table) ops :
  (rd_finisher w' = rd_finisher w \/ rd_finisher w' <> 0) -> (rd_wdt w' = rd_wdt w \/ rd_wdt w' <> 0) ->
  bs' = bs \/ (bs' = reset_register bs ops /\ present w' ops) ->
  Forall (present w) bs -> Forall (present w') bs'.
Proof.
  intros Hf Hw Hb Hp. assert (Hk : Forall (present w') bs).
  { eapply Forall_impl; [exact Hp|]. intros b. unfold present. cbn beta. intros [[-> H]|[->|[->|[-> H]]]]; [left|by right; left|by right; right; left|right; right; right].
    - split; [done|]. by destruct Hf as [->|].
    - split; [done|]. by destruct Hw as [->|]. }
  destruct Hb as [->|[-> Ho]]; [done|]. apply Forall_forall. intros b [->|H]%reset_register_elem; [done|].
  by apply (proj1 (Forall_forall _ _) Hk).
Qed.

Lemma reset_probed_present w bs : reset_probed w bs -> Forall (present w) bs.
Proof.
  induction 1 as [|w bs cfg node rc w' bs' region _ IH Hc Hn E|w bs node rc w' bs' region _ IH E|w bs chips node rc w' bs' region _ IH E|w bs node rc w' bs' region _ IH Hn E].
  - constructor.
  - unfold sifive_test_probe in E. destruct (truth (rd_finisher w)); [by simplify_eq|].
    destruct node as [[[base size]|]|]; [|by simplify_eq|destruct (truth cfg) eqn:T; [|by simplify_eq]]; simplify_eq.
    + pose proof (Hn base size eq_refl). eapply (present_kept w); [by right|by left|right; split; [done|by left]|done].
    + assert (wrap cfg <> 0) by (rewrite wrap_small by done; unfold truth in T; by destruct (Z.eqb_spec cfg 0)).
      eapply (present_kept w); [by right|by left|right; split; [done|by left]|done].
  - unfold syscon_reset_probe in E. destruct node as [n|]; [|by simplify_eq]. destruct (truth _); [by simplify_eq|].
    destruct (sy_regmap n) as [[base size]|]; [|by simplify_eq]. apply pair_equal_spec in E as [E _]. apply pair_equal_spec in E as [E Eb].
    apply pair_equal_spec in E as [_ Ew].
    eapply (present_kept w w' bs bs' syscon_reset_ops); [left; subst w'; by destruct (sy_poweroff n)|left; subst w'; by destruct (sy_poweroff n)| |done].
    revert Eb. destruct (eqb _ _); intros <-; [by left|right; split; [done|by right; left]].
  - unfold gpio_reset_probe in E. destruct node as [n|]; [|by simplify_eq]. destruct (bool_decide _); [by simplify_eq|].
    destruct (gpio_line_from_fdt _ _ _) as [line|]; [|by simplify_eq]. apply pair_equal_spec in E as [E _]. apply pair_equal_spec in E as [E Eb].
    apply pair_equal_spec in E as [_ Ew].
    eapply (present_kept w w' bs bs' gpio_reset_ops); [left; subst w'; by destruct (gn_poweroff n)|left; subst w'; by destruct (gn_poweroff n)| |done].
    revert Eb. destruct (bool_decide _); intros <-; [by left|right; split; [done|by right; right; left]].
  - unfold wdt_reset_probe in E. destruct node as [[reg sunxi]|]; [|by simplify_eq]. destruct (truth _); [by simplify_eq|].
    destruct reg as [[base size]|]; simplify_eq; [|done]. pose proof (Hn base size sunxi eq_refl).
    eapply (present_kept w); [by left|by right|right; split; [done|by right; right; right]|done].
Qed.

(** Whatever was probed and in whatever order, the backend a reset is asked
    of has found the device for a reset of that type. *)
Theorem reset_device_found w bs type b w' :
  reset_probed w bs -> backend_for bs type w = (Some b, w') -> w' = w /\ b ∈ bs /\ found type w b.
Proof.
  intros Hp%reset_probed_present. induction Hp as [|x bs Hx Hbs IH]; cbn [backend_for]; [done|].
  assert (Hs : exists yes, ro_supported x type w = (yes, w) /\ (yes = true -> found type w x)).
  { destruct Hx as [[-> Hf]|[->|[->|[-> Hf]]]]; eexists; (split; [reflexivity|]); unfold found; intros H.
    - by left.
    - right; left. split; [done|]. unfold truth in H. by destruct (Z.eqb_spec (sa_reg (action_for type w)) 0).
    - right; right; left. split; [done|]. by apply bool_decide_eq_true in H.
    - right; right; right. split_and!; [done| |done]. unfold is_shutdown in H. by destruct (Z.eqb_spec type RESET_SHUTDOWN). }
  destruct Hs as (yes & -> & Hy). destruct yes.
  - intros [= -> <-]. split_and!; [done|by left|by apply Hy].
  - intros E. destruct (IH E) as (? & ? & ?). split_and!; [done|by right|done].
Qed.
(** ** A software interrupt reaches one hart *)

Section Kick.
Context (plicsw : Z) (position_of : Z -> Z) (harts : Z).
Context (Hroom : 0 <= plicsw /\ plicsw + 0x400000 <= 2 ^ XLEN) (Hpos : forall i, 0 <= i < harts -> position_of i < 1023).

Lemma plicsw_offset off : 0 <= off < 0x400000 -> plicsw +! wrap off = plicsw + off.
Proof. intros H. unfold uadd. rewrite (wrap_small off), wrap_small by (split; lia). done. Qed.

Lemma plicsw_enable c word : 0 <= c < 1024 -> 0 <= word < 32 -> plicsw +! (0x2000 +! 0x80 *! c +! 4 *! word) = plicsw + (0x2000 + 0x80 * c + 4 * word).
Proof.
  intros Hc Hw. rewrite <- plicsw_offset by lia. unfold uadd, umul. rewrite !(wrap_small (_ * _)) by (split; lia).
  by rewrite (wrap_small (0x2000 + _)) by (split; lia).
Qed.
Lemma plicsw_pending word : 0 <= word < 32 -> plicsw +! (0x1000 +! 4 *! word) = plicsw + (0x1000 + 4 * word).
Proof. intros Hw. rewrite <- plicsw_offset by lia. unfold uadd, umul. by rewrite (wrap_small (_ * _)) by (split; lia). Qed.
Lemma plicsw_priority id : 0 <= id < 1024 -> plicsw +! (0x4 *! id) = plicsw + 4 * id.
Proof. intros Hw. rewrite <- plicsw_offset by lia. done. Qed.

(** The interrupt of a hart, and is it enabled for a context. *)
Definition source_of (i : Z) : Z := position_of i + 1.
Definition enabled_for (log : io_log) (ctx src : Z) : Prop :=
  exists v, Store 4 (plicsw + (0x2000 + 0x80 * ctx + 4 * (src / 32))) v ∈ log /\ Z.testbit v (src mod 32) = true.

Lemma plicsw_set_up_stores log is' e :
  e ∈ foldl (fun log i =>
    if position_of i <? 0 then log
    else
      let id := position_of i + 1 in
      let log := io_write32 log (plicsw +! (0x4 *! id)) 1 in
      io_write32 log (plicsw +! (0x2000 +! 0x80 *! (id - 1) +! 4 *! (id / 32))) (BIT (id mod 32))) log is' <->
  e ∈ log \/ exists i, i ∈ is' /\ 0 <= position_of i /\
    (e = Store 4 (plicsw +! (0x4 *! source_of i)) (1 mod 2 ^ 32) \/
     e = Store 4 (plicsw +! (0x2000 +! 0x80 *! (source_of i - 1) +! 4 *! (source_of i / 32))) (BIT (source_of i mod 32) mod 2 ^ 32)).
Proof.
  revert log. induction is' as [|i is' IH]; intros log; cbn [foldl].
  - split; [by left|]. intros [?|(i & Hi & _)]; [done|set_solver].
  - rewrite IH. clear IH. unfold source_of. destruct (Z.ltb_spec (position_of i) 0) as [H|H].
    + split; (intros [?|(j & Hj & H0 & He)]; [by left|right; exists j]); [split; [by right|done]|].
      apply elem_of_cons in Hj as [->|Hj]; [lia|done].
    + cbn zeta. unfold io_write32, io_write. rewrite !elem_of_app, !list_elem_of_singleton. split.
      * intros [[[?| ->]| ->]|(j & Hj & H0 & He)]; [by left|right; exists i; split; [by left|split; [done|by left]]|right; exists i; split; [by left|split; [done|by right]]|].
        right. exists j. split; [by right|done].
      * intros [?|(j & [->|Hj]%elem_of_cons & H0 & He)]; [by left; left; left| |right; by exists j].
        left. destruct He as [->| ->]; [left; by right|by right].
Qed.

(** The interrupt [plicsw_send] raises for a hart is enabled for its context,
    and for no other hart's. *)
Theorem plicsw_kicks_one i j log :
  0 <= i < harts -> 0 <= j < harts -> 0 <= position_of i -> 0 <= position_of j ->
  plicsw_send plicsw position_of harts i log
    = log ++ [Store 4 (plicsw + (0x1000 + 4 * (source_of i / 32))) (BIT (source_of i mod 32) mod 2 ^ 32)] /\
  (enabled_for (plicsw_set_up plicsw position_of harts []) (position_of j) (source_of i) <-> position_of j = position_of i).
Proof.
  intros Hi Hj Hpi Hpj. pose proof (Hpos i Hi) as Bi. pose proof (Hpos j Hj) as Bj. unfold source_of. split.
  { unfold plicsw_send. destruct (Z.ltb_spec i harts); [|lia]. destruct (Z.leb_spec 0 (position_of i)); [|lia].
    by rewrite plicsw_pending by (Z.to_euclidean_division_equations; lia). }
  unfold enabled_for, plicsw_set_up. split.
  - intros (v & Hv & Hb). apply plicsw_set_up_stores in Hv as [?%elem_of_nil|(k & Hk & Hpk & He)]; [done|].
    apply elem_of_seqZ in Hk. pose proof (Hpos k ltac:(lia)) as Bk. unfold source_of in He. destruct He as [[= Ha _]|[= Ha ->]].
    + rewrite plicsw_priority in Ha by lia. Z.to_euclidean_division_equations; lia.
    + rewrite plicsw_enable in Ha by (Z.to_euclidean_division_equations; lia).
      rewrite bit32 in Hb by (Z.to_euclidean_division_equations; lia). apply Z.eqb_eq in Hb.
      Z.to_euclidean_division_equations; lia.
  - intros E. exists (BIT (source_of i mod 32) mod 2 ^ 32). split.
    + apply plicsw_set_up_stores. right. exists i. split; [by apply elem_of_seqZ; lia|]. split; [done|right].
      rewrite plicsw_enable by (unfold source_of; Z.to_euclidean_division_equations; lia).
      unfold source_of. f_equal. rewrite E. lia.
    + unfold source_of. rewrite bit32 by (Z.to_euclidean_division_equations; lia). apply Z.eqb_refl.
Qed.
End Kick.
End Correct.

(** A speed that is asked for can be one the division is undefined for: 16
    times it is 0 in 32 bits. *)
Lemma uart8250_no_divisor {AR : Arch} : exists u, 0 < u_baud u < 2 ^ 32 /\ (16 * u_baud u) mod 2 ^ 32 = 0 /\ udiv32 (u_clock u) (16 * u_baud u) = 2 ^ 32 - 1.
Proof. by exists (Uart8250 0x10000000 0 1 1843200 (2 ^ 28)). Qed.

(** * A board *)

Module BoardDevices.
#[local] Instance rv64 : Arch := RV64.

(** Registers that keep what is stored, 0 before. *)
#[local] Instance memory : IoEnv := fun log width a =>
  foldl (fun v e => match e with Store w a' x => if (w =? width) && (a' =? a) then x else v | _ => v end) 0 log.

Lemma memory_keeps a : keeps a.
Proof.
  split; intros log; unfold io_answer, memory; [intros v|intros e He]; rewrite foldl_app; cbn [foldl].
  - by rewrite !Z.eqb_refl.
  - destruct e as [|w a' v|]; [done| |done]. destruct (Z.eqb_spec w 4), (Z.eqb_spec a' a); try done. subst. by destruct (He v).
Qed.

Definition chip : gpio_chip := GpioChip 7 16 (sifive_gpio_output 0x10060000).
Definition power_line : option gpio_line := gpio_line_from_fdt [chip] (Some [7; 10; 1]) 0.

Example power_line_found : gl_line <$> power_line = Some 10 /\ gl_active_low <$> power_line = Some true.
Proof. done. Qed.

(** A line that is active low goes low, as an output. *)
Example power_line_low :
  shows (gpio_line_output (GpioLine chip 10 true) true [Store 4 0x1006000c 0xffff]) 0x1006000c = 0xfbff.
Proof. vm_compute. done. Qed.

Lemma gpio_line_driven_witness :
  Z.testbit (shows (gpio_line_output (GpioLine chip 10 true) true []) (0x10060000 +! REG_OUTPUT_EN)) 10 = true.
Proof.
  destruct (gpio_line_driven (GpioLine chip 10 true) 0x10060000 true [] eq_refl ltac:(cbn; lia)
    (memory_keeps _) (memory_keeps _) 10 ltac:(lia)) as [_ H]. exact H.
Defined.

(** With a finisher and a watchdog, the finisher does both. *)
Definition two_devices : probed :=
  let '(_, w, bs, _) := wdt_reset_probe (Some (Some (0x6011000, 0x20), true)) reset_devs0 [] in
  sifive_test_probe 0 (Some (Some (0x100000, 0x1000))) w bs.
Example two_devices_reset :
  let '(_, w, bs, _) := two_devices in rd_log (system_reset bs 1 0 2 (fun _ => true) w).2 = [Store 4 0x100000 0x7777].
Proof. vm_compute. done. Qed.
End BoardDevices.
