(* ===== verification/MpxyRpmiEvents.v ===== *)
(** The events of an RPMI channel: the buffer is a queue of whole events.

    The abstract buffer is a list of events and a count of those that were
    lost; [buffers] relates it to the words and counters of the code. *)

From stdpp Require Import functions.
From S2P Require Import Prelude Arch Rpmi Mpxy MpxyRpmi.

#[local] Open Scope Z_scope.

Section Events.
Context {AR : Arch} {MR : MpxyRpmiConfig}.

(** ** Events, and the buffer as a queue of them *)

(** A header and the data it announces, in whole words *)
Definition event_wf (e : list Z) : Prop :=
  exists hdr data, e = hdr :: data /\ RPMI_EVENT_DATALEN hdr = 4 * Z.of_nat (length data).

Definition event_bytes (e : list Z) : Z := 4 * Z.of_nat (length e).
Definition events_bytes (l : list (list Z)) : Z := 4 * Z.of_nat (length (concat l)).

Record queue : Set := Queue { qu_events : list (list Z); qu_lost : Z }.

(** An event is kept if there is room for all of it, or counted *)
Definition queue_put (q : queue) (e : list Z) : queue :=
  if events_bytes (qu_events q) + event_bytes e <=? CONFIG_MPXY_RPMI_EVENT_BUF_SIZE
  then Queue (qu_events q ++ [e]) (qu_lost q) else Queue (qu_events q) (low32 (qu_lost q + 1)).

(** How many of the first events fit into [max] bytes *)
Fixpoint fitting (l : list (list Z)) (max : Z) : nat :=
  match l with
  | [] => 0
  | e :: l => if max <? event_bytes e then 0 else S (fitting l (max - event_bytes e))
  end.
Definition queue_take (q : queue) (max : Z) : list (list Z) * queue :=
  let n := fitting (qu_events q) max in (take n (qu_events q), Queue (drop n (qu_events q)) 0).

Definition buffers (r : mpxy_rpmi) (q : queue) : Prop :=
  Z.of_nat (length (r_events r)) = CONFIG_MPXY_RPMI_EVENT_BUF_SIZE / 4 /\
  take (length (concat (qu_events q))) (r_events r) = concat (qu_events q) /\
  r_used r = events_bytes (qu_events q) /\ r_used r <= CONFIG_MPXY_RPMI_EVENT_BUF_SIZE /\
  r_count r = Z.of_nat (length (qu_events q)) /\ r_lost r = qu_lost q /\
  Forall event_wf (qu_events q).

Lemma event_wf_size (e : list Z) (rest : list Z) (d : Z) : event_wf e -> event_size (nth 0 (e ++ rest) d) = event_bytes e.
Proof.
  intros (hdr & data & -> & H). unfold event_size, event_bytes, RPMI_EVENT_HDR_SIZE. cbn [app nth length]. rewrite H. lia.
Qed.

Lemma event_wf_length (e : list Z) : event_wf e -> (1 <= length e)%nat.
Proof. intros (hdr & data & -> & _). cbn. lia. Qed.

Lemma nth_at (before l : list Z) (d : Z) : nth (length before) (before ++ l) d = nth 0 l d.
Proof. rewrite app_nth2 by lia. by rewrite Nat.sub_diag. Qed.

Lemma words_of_bytes (n : nat) : Z.to_nat (4 * Z.of_nat n / 4) = n.
Proof. rewrite Z.mul_comm, Z.div_mul by lia. lia. Qed.

Lemma events_bytes_app (l1 l2 : list (list Z)) : events_bytes (l1 ++ l2) = events_bytes l1 + events_bytes l2.
Proof. unfold events_bytes. rewrite concat_app, length_app. lia. Qed.
Lemma events_bytes_one (e : list Z) : events_bytes [e] = event_bytes e.
Proof. unfold events_bytes, event_bytes. cbn [concat]. by rewrite app_nil_r. Qed.
Lemma events_bytes_cons (e : list Z) (l : list (list Z)) : events_bytes (e :: l) = event_bytes e + events_bytes l.
Proof. rewrite <- events_bytes_one, <- events_bytes_app. done. Qed.

Lemma events_count (l : list (list Z)) : Forall event_wf l -> (length l <= length (concat l))%nat.
Proof.
  induction 1 as [|e l He _ IH]; cbn [length concat]; [lia|]. rewrite length_app. pose proof (event_wf_length e He). lia.
Qed.

(** ** What the PuC sends *)

(** One event more, kept or lost *)
Definition sink_one (r : mpxy_rpmi) (e : list Z) : mpxy_rpmi :=
  if r_used r + event_bytes e <=? CONFIG_MPXY_RPMI_EVENT_BUF_SIZE
  then r <| r_events := put_words (r_events r) (Z.to_nat (r_used r / 4)) e |>
         <| r_used := r_used r + event_bytes e |> <| r_count := low32 (r_count r + 1) |>
  else r <| r_lost := low32 (r_lost r + 1) |>.

(** The loop over the events of a notification, one after the other *)
Lemma sink_loop_events (evs : list (list Z)) (before rest : list Z) (fuel : nat) (r : mpxy_rpmi) :
  Forall event_wf evs -> (length evs <= fuel)%nat ->
  sink_loop fuel (before ++ concat evs ++ rest) (4 * Z.of_nat (length (before ++ concat evs))) (4 * Z.of_nat (length before)) r =
  foldl sink_one r evs.
Proof.
  revert before fuel r. induction evs as [|e evs IH]; intros before fuel r Hwf Hf.
  - cbn [concat foldl]. rewrite app_nil_r. destruct fuel; cbn [sink_loop]; [done|]. by rewrite Z.ltb_irrefl.
  - apply Forall_cons in Hwf as [He Hwf]. pose proof (event_wf_length e He).
    destruct fuel as [|fuel]; cbn [length] in Hf; [lia|]. cbn [sink_loop foldl].
    rewrite (proj2 (Z.ltb_lt _ _)) by (rewrite !length_app; cbn [concat]; rewrite length_app; lia).
    rewrite words_of_bytes. cbn [concat]. rewrite <- app_assoc.
    rewrite nth_at, event_wf_size by done.
    replace (get_words (before ++ e ++ concat evs ++ rest) (length before) (Z.to_nat (event_bytes e / 4))) with e.
    2: { unfold get_words, event_bytes. by rewrite drop_app_length, words_of_bytes, take_app_length. }
    replace (4 * Z.of_nat (length before) + event_bytes e) with (4 * Z.of_nat (length (before ++ e)))
      by (rewrite length_app; unfold event_bytes; lia).
    change (before ++ e ++ concat evs ++ rest) with (before ++ (e ++ (concat evs ++ rest))). rewrite !(app_assoc before e).
    rewrite <- (IH (before ++ e) fuel (sink_one r e)) by (done || lia). unfold sink_one. done.
Qed.

Lemma put_words_length (a ws : list Z) (n : nat) : (n + length ws <= length a)%nat -> length (put_words a n ws) = length a.
Proof. intros H. unfold put_words. rewrite !length_app, length_take, length_drop. lia. Qed.

Lemma low32_small (z : Z) : 0 <= z < 2 ^ 32 -> low32 z = z.
Proof. apply Z.mod_small. Qed.

Lemma sink_one_queue (r : mpxy_rpmi) (q : queue) (e : list Z) :
  CONFIG_MPXY_RPMI_EVENT_BUF_SIZE < 2 ^ 32 -> event_wf e -> buffers r q -> buffers (sink_one r e) (queue_put q e).
Proof.
  intros Hsz He (Hlen & Htake & Hused & Hroom & Hcount & Hlost & Hwf). unfold sink_one, queue_put. rewrite <- Hused.
  pose proof (proj2 config_event_buf) as Hmod. pose proof (events_count _ Hwf) as Hc. pose proof (event_wf_length e He) as He1.
  destruct (Z.leb_spec (r_used r + event_bytes e) CONFIG_MPXY_RPMI_EVENT_BUF_SIZE) as [Hfit|Hfit].
  - assert (length (concat (qu_events q)) + length e <= length (r_events r))%nat as Hin.
    { apply Nat2Z.inj_le. rewrite Hlen, Nat2Z.inj_add. unfold events_bytes, event_bytes in *. Z.to_euclidean_division_equations. lia. }
    unfold buffers. cbn [qu_events qu_lost r_events r_used r_count r_lost field_update].
    set (a := put_words _ _ _). assert (a = put_words (r_events r) (length (concat (qu_events q))) e) as ->.
    { unfold a. by rewrite Hused; unfold events_bytes; rewrite words_of_bytes. }
    change (r_events (_ <| r_events := ?x |> <| r_used := _ |> <| r_count := _ |>)) with x.
    change (r_used (_ <| r_used := ?x |> <| r_count := _ |>)) with x.
    change (r_count (_ <| r_count := ?x |>)) with x.
    change (r_lost (_ <| r_events := _ |> <| r_used := _ |> <| r_count := _ |>)) with (r_lost r).
    rewrite put_words_length, concat_app, events_bytes_app, events_bytes_one, length_app by done. cbn [concat].
    rewrite app_nil_r, !length_app. split_and!; [done| |lia|lia| |done|apply Forall_app; by repeat constructor].
    + unfold put_words. rewrite Htake, app_assoc. rewrite <- length_app. by rewrite take_app_length.
    + rewrite low32_small; cbn [length]; [lia|]. unfold events_bytes, event_bytes in *. lia.
  - by split_and!; try done; cbn; rewrite ?Hlost.
Qed.

(** ** What S-mode fetches *)

Lemma fetch_loop_fitting (evs : list (list Z)) (r : mpxy_rpmi) (before rest : list Z) (fuel : nat) (max n : Z) :
  Forall event_wf evs -> (length evs <= fuel)%nat -> r_events r = before ++ concat evs ++ rest ->
  r_count r = n + Z.of_nat (length evs) ->
  let b := 4 * Z.of_nat (length before) in
  let k := fitting evs (max - b) in
  fetch_loop fuel r max n b = (n + Z.of_nat k, b + events_bytes (take k evs)).
Proof.
  revert before fuel n. induction evs as [|e evs IH]; intros before fuel n Hwf Hf Ebuf Hc; cbn [fitting]; cbv zeta.
  - rewrite take_nil. change (events_bytes []) with 0. cbn [length] in Hc. rewrite !Z.add_0_r.
    destruct fuel; cbn [fetch_loop]; [done|]. rewrite Hc. by rewrite (proj2 (Z.ltb_ge _ _)) by lia.
  - apply Forall_cons in Hwf as [He Hwf]. destruct fuel as [|fuel]; cbn [length] in Hf, Hc; [lia|]. cbn [fetch_loop].
    rewrite (proj2 (Z.ltb_lt _ _)) by lia. rewrite words_of_bytes, Ebuf. cbn [concat]. rewrite <- app_assoc.
    rewrite nth_at, event_wf_size by done.
    destruct (Z.ltb_spec (max - 4 * Z.of_nat (length before)) (event_bytes e)).
    + rewrite (proj2 (Z.ltb_lt _ _)) by lia. cbn [take]. change (events_bytes []) with 0. by rewrite !Z.add_0_r.
    + rewrite (proj2 (Z.ltb_ge _ _)) by lia.
      replace (4 * Z.of_nat (length before) + event_bytes e) with (4 * Z.of_nat (length (before ++ e)))
        by (rewrite length_app; unfold event_bytes; lia).
      rewrite (IH (before ++ e) fuel (n + 1)); [|done|lia|by rewrite Ebuf; cbn [concat]; rewrite <- !app_assoc|lia].
      replace (max - 4 * Z.of_nat (length (before ++ e))) with (max - 4 * Z.of_nat (length before) - event_bytes e)
        by (rewrite length_app; unfold event_bytes; lia).
      cbn [take]. rewrite events_bytes_cons, length_app. unfold event_bytes. f_equal; lia.
Qed.

Lemma fetch_queue (r : mpxy_rpmi) (q : queue) (max : Z) :
  buffers r q ->
  let '(buf, out, r') := fetch_events r max in
  let '(taken, q') := queue_take q max in
  buf = concat taken /\ out = MpxyEvents (Z.of_nat (length taken)) (Z.of_nat (length (qu_events q'))) (qu_lost q) (events_bytes taken) /\
  buffers r' q'.
Proof.
  intros (Hlen & Htake & Hused & Hroom & Hcount & Hlost & Hwf).
  set (evs := qu_events q) in *. set (rest := drop (length (concat evs)) (r_events r)).
  assert (r_events r = concat evs ++ rest) as Ebuf by (unfold rest; rewrite <- Htake at 1; by rewrite take_drop).
  unfold fetch_events, queue_take. fold evs.
  pose proof (fetch_loop_fitting evs r [] rest (Z.to_nat (r_count r)) max 0 Hwf ltac:(lia) Ebuf ltac:(lia)) as Eloop.
  cbv zeta in Eloop. cbn [length] in Eloop. change (4 * Z.of_nat 0) with 0 in Eloop.
  rewrite Z.sub_0_r, !Z.add_0_l in Eloop. rewrite Eloop. set (k := fitting evs max).
  assert (concat evs = concat (take k evs) ++ concat (drop k evs)) as Esplit by (by rewrite <- concat_app, take_drop).
  assert (r_used r = events_bytes (take k evs) + events_bytes (drop k evs)) as Eused
    by (by rewrite Hused, <- events_bytes_app, take_drop).
  assert (Z.of_nat (length evs) = Z.of_nat (length (take k evs)) + Z.of_nat (length (drop k evs))) as Ecount
    by (rewrite <- Nat2Z.inj_add, <- length_app, take_drop; done).
  assert (length (take k evs) = k) as Ek.
  { rewrite length_take. assert (forall l m, fitting l m <= length l)%nat as Hle; [|specialize (Hle evs max); fold k in Hle; lia].
    clear. induction l as [|e l IH]; intros m; cbn; [lia|]. destruct (m <? event_bytes e); [lia|]. specialize (IH (m - event_bytes e)). lia. }
  replace (Z.to_nat (events_bytes (take k evs) / 4)) with (length (concat (take k evs))) by (by unfold events_bytes; rewrite words_of_bytes).
  replace (Z.to_nat ((r_used r - events_bytes (take k evs)) / 4)) with (length (concat (drop k evs)))
    by (rewrite Eused, Z.add_simpl_l; by unfold events_bytes; rewrite words_of_bytes).
  assert (get_words (r_events r) 0 (length (concat (take k evs))) = concat (take k evs)) as ->.
  { unfold get_words. rewrite drop_0, Ebuf, Esplit, <- app_assoc. by rewrite take_app_length. }
  assert (get_words (r_events r) (length (concat (take k evs))) (length (concat (drop k evs))) = concat (drop k evs)) as ->.
  { unfold get_words. rewrite Ebuf, Esplit, <- app_assoc, drop_app_length. by rewrite take_app_length. }
  cbn [qu_events qu_lost]. change (r_count (_ <| r_count := ?x |>)) with x.
  split_and!; [done|rewrite Hlost, Hcount; f_equal; lia|]. unfold buffers. cbn [qu_events qu_lost].
  set (r' := _ <| r_lost := 0 |>).
  change (r_events r') with (put_words (r_events r) 0 (concat (drop k evs))).
  change (r_used r') with (r_used r - events_bytes (take k evs)). change (r_count r') with (r_count r - Z.of_nat k).
  change (r_lost r') with 0. rewrite put_words_length by (rewrite Ebuf, Esplit, !length_app; lia).
  split_and!; [done|unfold put_words; rewrite take_0; cbn [app]; by rewrite take_app_length|lia| |lia|done|by apply Forall_drop].
  assert (0 <= events_bytes (take k evs)) by (unfold events_bytes; lia). lia.
Qed.

(** ** The events of a notification *)

(** The whole events at the front of the data *)
Fixpoint parse_events (fuel : nat) (data : list Z) : list (list Z) :=
  match fuel, data with
  | S fuel, hdr :: rest =>
      let n := Z.to_nat (RPMI_EVENT_DATALEN hdr / 4) in
      if (RPMI_EVENT_DATALEN hdr mod 4 =? 0) && (n <=? length rest)%nat
      then (hdr :: take n rest) :: parse_events fuel (drop n rest) else []
  | _, _ => []
  end.

Lemma datalen_range (hdr : Z) : 0 <= RPMI_EVENT_DATALEN hdr.
Proof. unfold RPMI_EVENT_DATALEN. apply Z.land_nonneg. right. lia. Qed.

Lemma aligned_words (z : Z) : IS_ALIGNED z 4 = (z mod 4 =? 0).
Proof.
  pose proof XLEN_bounds. destruct (Z.eqb_spec (z mod 4) 0) as [E|E].
  - change 4 with (2 ^ 2). by apply IS_ALIGNED_spec; [lia|].
  - apply not_true_iff_false. change 4 with (2 ^ 2). rewrite IS_ALIGNED_spec by lia. done.
Qed.

Lemma parse_wf (fuel : nat) (data : list Z) : Forall event_wf (parse_events fuel data).
Proof.
  revert data. induction fuel as [|fuel IH]; intros [|hdr rest]; cbn [parse_events]; try done.
  destruct (_ && _) eqn:E; [|done]. apply andb_prop in E as [E1 E2]. apply Z.eqb_eq in E1. apply Nat.leb_le in E2.
  constructor; [|apply IH]. exists hdr, (take (Z.to_nat (RPMI_EVENT_DATALEN hdr / 4)) rest). split; [done|].
  rewrite length_take_le by done. pose proof (datalen_range hdr). Z.to_euclidean_division_equations. lia.
Qed.

Lemma parse_front (fuel : nat) (data : list Z) : exists rest, data = concat (parse_events fuel data) ++ rest.
Proof.
  revert data. induction fuel as [|fuel IH]; intros [|hdr rest]; cbn [parse_events]; try by eexists.
  destruct (_ && _); [|by eexists]. destruct (IH (drop (Z.to_nat (RPMI_EVENT_DATALEN hdr / 4)) rest)) as [l E]. exists l.
  cbn [concat]. rewrite <- !app_comm_cons, <- app_assoc, <- E. by rewrite take_drop.
Qed.

(** [deliver_events] measures exactly these *)
Lemma events_len_parse (fuel : nat) (before data : list Z) :
  (length data <= fuel)%nat ->
  events_len fuel (before ++ data) (4 * Z.of_nat (length (before ++ data))) (4 * Z.of_nat (length before)) =
  4 * Z.of_nat (length before) + events_bytes (parse_events fuel data).
Proof.
  revert before data. induction fuel as [|fuel IH]; intros before data Hf.
  { change (events_bytes (parse_events 0 data)) with 0. cbn [events_len]. lia. }
  cbn [events_len parse_events]. unfold RPMI_EVENT_HDR_SIZE.
  destruct data as [|hdr rest].
  - rewrite (proj2 (Z.leb_gt _ _)) by (rewrite app_nil_r; lia). change (events_bytes []) with 0. lia.
  - cbn [length] in Hf. rewrite (proj2 (Z.leb_le _ _)) by (rewrite length_app; cbn [length]; lia).
    rewrite words_of_bytes, nth_at. cbn [nth]. set (n := RPMI_EVENT_DATALEN hdr). pose proof (datalen_range hdr) as Hn. fold n in Hn.
    rewrite aligned_words. replace ((4 * Z.of_nat (length before) + 4 + n) mod 4) with (n mod 4)
      by (replace (4 * Z.of_nat (length before) + 4 + n) with (n + (Z.of_nat (length before) + 1) * 4) by lia; by rewrite Z_mod_plus_full).
    destruct (Z.eqb_spec (n mod 4) 0) as [E4|E4]; cbn [negb orb andb]; [|change (events_bytes []) with 0; lia].
    destruct (Nat.leb_spec (Z.to_nat (n / 4)) (length rest)) as [Hle|Hgt].
    + rewrite (proj2 (Z.ltb_ge _ _)) by (rewrite length_app; cbn [length]; Z.to_euclidean_division_equations; lia).
      set (k := Z.to_nat (n / 4)) in *.
      specialize (IH (before ++ hdr :: take k rest) (drop k rest)).
      rewrite <- app_assoc, <- app_comm_cons, take_drop in IH.
      replace (4 * Z.of_nat (length (before ++ hdr :: take k rest))) with (4 * Z.of_nat (length before) + 4 + n) in IH.
      2: { rewrite length_app. cbn [length]. rewrite length_take_le by done. unfold k. Z.to_euclidean_division_equations. lia. }
      rewrite IH by (rewrite length_drop; lia). rewrite events_bytes_cons. unfold event_bytes. cbn [length].
      rewrite length_take_le by done. unfold k. Z.to_euclidean_division_equations. lia.
    + rewrite (proj2 (Z.ltb_lt _ _)) by (rewrite length_app; cbn [length]; Z.to_euclidean_division_equations; lia).
      change (events_bytes []) with 0. lia.
Qed.

Lemma sink_queue (r : mpxy_rpmi) (q : queue) (data : list Z) :
  CONFIG_MPXY_RPMI_EVENT_BUF_SIZE < 2 ^ 32 -> buffers r q ->
  buffers (sink_events data (events_len (length data) data (4 * Z.of_nat (length data)) 0) r)
    (foldl queue_put q (parse_events (length data) data)).
Proof.
  intros Hsz Hb. pose proof (events_len_parse (length data) [] data (le_n _)) as El. cbn [app length] in El.
  change (4 * Z.of_nat 0) with 0 in El. rewrite El, Z.add_0_l. unfold sink_events.
  pose proof (parse_wf (length data) data) as Hwf. destruct (parse_front (length data) data) as [rest Ed].
  set (evs := parse_events (length data) data) in *.
  pose proof (sink_loop_events evs [] rest (length data) r Hwf) as Es. cbn [app length] in Es.
  change (4 * Z.of_nat 0) with 0 in Es. rewrite <- Ed in Es. unfold events_bytes. rewrite Es.
  - clear -Hsz Hb Hwf. revert r q Hb. induction Hwf as [|e evs He _ IH]; intros r q Hb; cbn [foldl]; [done|].
    apply IH. by apply sink_one_queue.
  - pose proof (events_count evs Hwf). rewrite Ed, length_app. lia.
Qed.

(** ** A history of notifications and fetches *)

Inductive event_op : Set := Notified (data : list Z) | Fetched (max : Z).

Definition code_op (r : mpxy_rpmi) (op : event_op) : list (list Z * mpxy_events) * mpxy_rpmi :=
  match op with
  | Notified data => ([], sink_events data (events_len (length data) data (4 * Z.of_nat (length data)) 0) r)
  | Fetched max => let '(buf, out, r) := fetch_events r max in ([(buf, out)], r)
  end.
Definition queue_op (q : queue) (op : event_op) : list (list (list Z) * Z * Z) * queue :=
  match op with
  | Notified data => ([], foldl queue_put q (parse_events (length data) data))
  | Fetched max => let '(taken, q') := queue_take q max in ([(taken, Z.of_nat (length (qu_events q')), qu_lost q)], q')
  end.

Fixpoint run {S O : Type} (step : S -> event_op -> list O * S) (s : S) (ops : list event_op) : list O * S :=
  match ops with
  | [] => ([], s)
  | op :: ops => let '(o1, s) := step s op in let '(o2, s) := run step s ops in (o1 ++ o2, s)
  end.

(** What the code returns for events taken from the queue *)
Definition fetched (x : list (list Z) * Z * Z) : list Z * mpxy_events :=
  let '(taken, remaining, lost) := x in
  (concat taken, MpxyEvents (Z.of_nat (length taken)) remaining lost (events_bytes taken)).

(** The events of a history *)
Definition sent (ops : list event_op) : list (list Z) :=
  ops ≫= (fun op => match op with Notified data => parse_events (length data) data | Fetched _ => [] end).

Lemma run_simulates (ops : list event_op) (r : mpxy_rpmi) (q : queue) :
  CONFIG_MPXY_RPMI_EVENT_BUF_SIZE < 2 ^ 32 -> buffers r q ->
  (run code_op r ops).1 = fetched <$> (run queue_op q ops).1 /\ buffers (run code_op r ops).2 (run queue_op q ops).2.
Proof.
  intros Hsz. revert r q. induction ops as [|op ops IH]; intros r q Hb; [done|]. cbn [run]. destruct op as [data|max].
  - cbn [code_op queue_op]. destruct (IH _ _ (sink_queue r q data Hsz Hb)) as [H1 H2].
    destruct (run code_op _ ops), (run queue_op _ ops). done.
  - cbn [code_op queue_op]. pose proof (fetch_queue r q max Hb) as H. destruct (fetch_events r max) as [[buf out] r'].
    destruct (queue_take q max) as [taken q']. destruct H as (-> & -> & Hb'). destruct (IH _ _ Hb') as [H1 H2].
    destruct (run code_op _ ops), (run queue_op _ ops). cbn [fst snd] in *. split; [|done]. by rewrite H1.
Qed.

(** In order, each at most once: what was fetched, then what is there *)
Lemma put_sublist (q : queue) (evs : list (list Z)) : exists kept, sublist kept evs /\ qu_events (foldl queue_put q evs) = qu_events q ++ kept.
Proof.
  revert q. induction evs as [|e evs IH]; intros q; cbn [foldl]; [exists []; by rewrite app_nil_r|].
  destruct (IH (queue_put q e)) as (kept & Hs & E). rewrite E. unfold queue_put. destruct (_ <=? _); cbn [qu_events].
  - exists (e :: kept). split; [by constructor|]. by rewrite <- app_assoc.
  - exists kept. split; [by constructor|done].
Qed.

Lemma queue_in_order (ops : list event_op) (q : queue) :
  sublist (((run queue_op q ops).1 ≫= (fun x => x.1.1)) ++ qu_events (run queue_op q ops).2) (qu_events q ++ sent ops).
Proof.
  revert q. induction ops as [|op ops IH]; intros q; cbn [run].
  { change (sent []) with (@nil (list Z)). rewrite app_nil_r. done. }
  destruct op as [data|max]; cbn [queue_op].
  - specialize (IH (foldl queue_put q (parse_events (length data) data))). destruct (run queue_op _ ops) as [o q']. cbn [fst snd app] in *.
    change (sent (Notified data :: ops)) with (parse_events (length data) data ++ sent ops).
    destruct (put_sublist q (parse_events (length data) data)) as (kept & Hk & E). etrans; [exact IH|]. rewrite E, <- app_assoc.
    apply sublist_app; [done|]. by apply sublist_app.
  - unfold queue_take. set (n := fitting _ _). specialize (IH (Queue (drop n (qu_events q)) 0)).
    destruct (run queue_op _ ops) as [o q']. cbn [fst snd app qu_events] in *. rewrite bind_cons. cbn [fst].
    change (sent (Fetched max :: ops)) with (sent ops). rewrite <- app_assoc.
    rewrite <- (take_drop n (qu_events q)) at 2. rewrite <- app_assoc. by apply sublist_app.
Qed.

(** An empty buffer *)
Definition empty_buffer (r : mpxy_rpmi) : Prop :=
  Z.of_nat (length (r_events r)) = CONFIG_MPXY_RPMI_EVENT_BUF_SIZE / 4 /\ r_used r = 0 /\ r_count r = 0 /\ r_lost r = 0.

Lemma empty_buffers (r : mpxy_rpmi) : empty_buffer r -> buffers r (Queue [] 0).
Proof. intros (H1 & H2 & H3 & H4). pose proof (proj1 config_event_buf). split_and!; try done. lia. Qed.

(** C16: The events of a channel are a queue. After any notifications
    and fetches from an empty buffer, the code has returned, for each fetch,
    what the queue of whole events returns: the longest run of the first
    events that fits, how many are left, and how many were lost since the
    fetch before. All that was fetched, followed by what is still there, is
    in the order the PuC sent it, each event whole and at most once. *)
Theorem rpmi_events_fifo (ops : list event_op) (r : mpxy_rpmi) :
  CONFIG_MPXY_RPMI_EVENT_BUF_SIZE < 2 ^ 32 -> empty_buffer r ->
  let '(outs, q) := run queue_op (Queue [] 0) ops in
  (run code_op r ops).1 = fetched <$> outs /\ buffers (run code_op r ops).2 q /\
  sublist ((outs ≫= (fun x => x.1.1)) ++ qu_events q) (sent ops).
Proof.
  intros Hsz Hr. destruct (run_simulates ops r _ Hsz (empty_buffers r Hr)) as [H1 H2]. pose proof (queue_in_order ops (Queue [] 0)) as H3.
  destruct (run queue_op _ ops). done.
Qed.

Lemma fitting_all (l : list (list Z)) (max : Z) : events_bytes l <= max -> fitting l max = length l.
Proof.
  revert max. induction l as [|e l IH]; intros max H; [done|]. cbn [fitting length]. rewrite events_bytes_cons in H.
  assert (0 <= events_bytes l) by (unfold events_bytes; lia). rewrite (proj2 (Z.ltb_ge _ _)) by lia. by rewrite IH by lia.
Qed.

(** A fetch with room for the whole buffer leaves nothing. *)
Lemma fetch_empties (r : mpxy_rpmi) (q : queue) (max : Z) :
  buffers r q -> CONFIG_MPXY_RPMI_EVENT_BUF_SIZE <= max ->
  let '(buf, out, r') := fetch_events r max in
  buf = concat (qu_events q) /\ ev_remaining out = 0 /\ ev_lost out = qu_lost q /\ empty_buffer r'.
Proof.
  intros Hb Hmax. pose proof (fetch_queue r q max Hb) as H. destruct (fetch_events r max) as [[buf out] r']. unfold queue_take in H.
  destruct Hb as (_ & _ & Hused & Hroom & _). rewrite fitting_all, take_ge, drop_ge in H by lia.
  destruct H as (-> & -> & H1 & _ & H3 & _ & H5 & H6 & _). done.
Qed.
End Events.
