(* ===== verification/MpxyRpmiProps.v ===== *)
(** What of S-mode's messages reaches the platform microcontroller.

    [own_log] is what this hart has put into the request queue.  The
    monitor's own requests are there too: its questions about the PuC, and
    those that set up the doorbell.  Other harts work on the same channels:
    what they and the rest of the machine do while this hart waits keeps the
    pool as [pool_stable] says, and so do the operations here. *)

From stdpp Require Import functions.
From S2P Require Import Prelude Arch Rpmi Mpxy MpxyRpmi MpxyRpmiEvents.

#[local] Open Scope Z_scope.

(** ** A postcondition of what may not return *)

Definition post {A : Type} (m : option A) (Q : A -> Prop) : Prop := forall a, m = Some a -> Q a.

Lemma post_ret {A} (a : A) (Q : A -> Prop) : Q a -> post (Some a) Q.
Proof. by intros H a' [= <-]. Qed.
Lemma post_none {A} (Q : A -> Prop) : post None Q.
Proof. by intros a. Qed.
Lemma post_bind {A B} (m : option A) (f : A -> option B) (P : A -> Prop) (Q : B -> Prop) :
  post m P -> (forall a, P a -> post (f a) Q) -> post (m ≫= f) Q.
Proof. intros Hm Hf b. destruct m as [a|]; cbn; [|done]. apply (Hf a). by apply Hm. Qed.
Lemma post_weaken {A} (m : option A) (P Q : A -> Prop) : post m P -> (forall a, P a -> Q a) -> post m Q.
Proof. intros Hm H a E. by apply H, Hm. Qed.

(** ** The monitor's own requests *)

Definition doorbell_request (sysmsi : Z) (m : message) : Prop :=
  h_group m.1 = RPMI_GROUP_SYSTEM_MSI /\
  ((h_service m.1 = RPMI_SYSMSI_SET_MSI_TARGET \/ h_service m.1 = RPMI_SYSMSI_SET_MSI_STATE) /\ nth 0 m.2 0 = sysmsi).
Definition question (m : message) : Prop :=
  h_group m.1 = RPMI_GROUP_BASE \/
  h_group m.1 = RPMI_GROUP_SYSTEM_MSI /\
    (h_service m.1 = RPMI_SYSMSI_GET_ATTRIBUTES \/ h_service m.1 = RPMI_SYSMSI_GET_MSI_ATTRIBUTES).
Definition monitors_request (sysmsi : Z) (m : message) : Prop := doorbell_request sysmsi m \/ question m.

(** A request of this group, service and data *)
Definition is_request (group service : Z) (req : list Z) (m : message) : Prop :=
  h_group m.1 = group /\ h_service m.1 = service /\ m.2 = req.

(** ** The pool, and what is done to it *)

(** What the PuC at a phandle always answers: how many system MSIs it has,
    and which of them M-mode should handle *)
Class Puc := {
  nr_msi : Z -> Z;
  mmode_msi : Z -> Z -> bool;
}.

Section Pool.
Context {AR : Arch} {MR : MpxyRpmiConfig} {PU : Puc}.

Definition doorbell_of (p : rpmi_pool) (puc : Z) : Z := x_p2a_doorbell_sysmsi (p_contexts p puc).

(** The system MSIs that are not S-mode's *)
Definition reserved (p : rpmi_pool) (puc k : Z) : Prop := k = doorbell_of p puc \/ mmode_msi puc k = true.

(** A channel that has been asked about knows the PuC's number of MSIs, and
    denies the reserved ones. *)
Definition chan_ok (p : rpmi_pool) (r : mpxy_rpmi) : Prop :=
  r_rules r = rpmi_group_rules_find (r_group r) /\ length (gs_msi_denied (r_state r)) = denied_words /\
  x_phandle (p_contexts p (r_puc r)) = r_puc r /\
  (r_probed r = true -> r_group r = RPMI_GROUP_SYSTEM_MSI ->
   gs_num_msi (r_state r) = nr_msi (r_puc r) /\
  forall k, 0 <= k < nr_msi (r_puc r) -> reserved p (r_puc r) k -> msi_denied (r_state r) k = true).
Definition pool_ok (p : rpmi_pool) : Prop := Forall (chan_ok p) (p_chans p).

(** What stays of a channel *)
Definition chan_stable (r r' : mpxy_rpmi) : Prop :=
  r_puc r' = r_puc r /\ r_group r' = r_group r /\ r_rules r' = r_rules r /\
  (forall k, 0 <= k -> msi_denied (r_state r) k = true -> msi_denied (r_state r') k = true) /\
  (gs_num_msi (r_state r) = nr_msi (r_puc r) -> gs_num_msi (r_state r') = nr_msi (r_puc r)).
Definition pool_stable (p p' : rpmi_pool) : Prop :=
  (pool_ok p -> pool_ok p') /\ Forall2 chan_stable (p_chans p) (p_chans p') /\ forall a, doorbell_of p' a = doorbell_of p a.

#[export] Instance chan_stable_preorder : PreOrder chan_stable.
Proof.
  split; [by intros r; split_and!; auto|].
  intros r1 r2 r3 (A1 & B1 & C1 & E1 & F1) (A2 & B2 & C2 & E2 & F2). split_and!; [congruence..|auto|].
  rewrite A1 in F2. auto.
Qed.
#[export] Instance pool_stable_preorder : PreOrder pool_stable.
Proof.
  split; [by intros p; split_and!|]. intros p1 p2 p3 (H1 & C1 & D1) (H2 & C2 & D2). split_and!; [auto|by etrans|congruence].
Qed.

(** ** Denying an MSI *)

Lemma msi_denied_bit (s : rpmi_group_state) (k : Z) :
  0 <= k < CONFIG_MPXY_RPMI_MAX_SYSMSI ->
  msi_denied s k = Z.testbit (nth (Z.to_nat (k / XLEN)) (gs_msi_denied s) 0) (k mod XLEN).
Proof.
  intros Hk. unfold msi_denied. rewrite (proj2 (Z.leb_gt _ _)) by lia. change 1 with (Z.ones 1). rewrite Z.land_ones by lia.
  rewrite <- Z.bit0_mod, Z.shiftr_spec by lia. rewrite Z.add_0_l. by destruct (Z.testbit _ _).
Qed.

Lemma msi_deny_spec (s : rpmi_group_state) (index k : Z) :
  length (gs_msi_denied s) = denied_words -> 0 <= index < CONFIG_MPXY_RPMI_MAX_SYSMSI -> 0 <= k ->
  msi_denied (msi_deny s index) k = msi_denied s k || (k =? index).
Proof.
  intros Hlen Hi Hk. pose proof XLEN_bounds as HX. destruct (Z.ltb_spec k CONFIG_MPXY_RPMI_MAX_SYSMSI) as [Hlt|Hge].
  2: { unfold msi_denied. by rewrite !(proj2 (Z.leb_le CONFIG_MPXY_RPMI_MAX_SYSMSI k)) by lia. }
  rewrite !msi_denied_bit by lia. unfold msi_deny. change (gs_msi_denied (_ <| gs_msi_denied := ?l |>)) with l.
  set (i := Z.to_nat (index / XLEN)). set (j := Z.to_nat (k / XLEN)).
  assert (i < length (gs_msi_denied s))%nat as Hin.
  { rewrite Hlen. unfold i, denied_words. assert (0 <= index / XLEN) by (apply Z.div_pos; lia).
    assert (index / XLEN + 1 <= (CONFIG_MPXY_RPMI_MAX_SYSMSI + XLEN - 1) / XLEN); [|lia].
    apply Z.div_le_lower_bound; [lia|]. assert (XLEN * (index / XLEN) <= index) by (apply Z.mul_div_le; lia). lia. }
  assert (forall x, 0 <= x mod XLEN < XLEN) as Hmod by (intros x; apply Z.mod_pos_bound; lia).
  pose proof (Hmod index). pose proof (Hmod k).
  destruct (decide (j = i)) as [Eji|Eji].
  - rewrite Eji. assert (forall l (x : Z) n, (n < length l)%nat -> nth n (<[n := x]> l) 0 = x) as Hnth.
    { intros l x n Hn. rewrite nth_lookup, list_lookup_insert_eq by done. done. }
    rewrite Hnth by done. rewrite Z.lor_spec, BIT_small, Z.pow2_bits_eqb by lia. f_equal.
    assert (index / XLEN = k / XLEN) as Ed.
    { unfold i, j in Eji. pose proof (Z.div_pos index XLEN). pose proof (Z.div_pos k XLEN). lia. }
    pose proof (Z.div_mod index XLEN). pose proof (Z.div_mod k XLEN).
    destruct (Z.eqb_spec (index mod XLEN) (k mod XLEN)), (Z.eqb_spec k index); subst; try done; nia.
  - rewrite !nth_lookup, list_lookup_insert_ne by done. destruct (Z.eqb_spec k index) as [->|]; [done|]. by rewrite orb_false_r.
Qed.

Lemma chan_denies (r : mpxy_rpmi) (index : Z) :
  length (gs_msi_denied (r_state r)) = denied_words -> 0 <= index < CONFIG_MPXY_RPMI_MAX_SYSMSI ->
  chan_stable r (r <| r_state := msi_deny (r_state r) index |>).
Proof.
  intros Hl Hi. split_and!; try done. intros k Hk H. change (msi_denied (msi_deny (r_state r) index) k = true).
  rewrite msi_deny_spec by done. by rewrite H.
Qed.

End Pool.

(** ** The machine around the hart *)

Section Moves.
Context {AR : Arch} {MR : MpxyRpmiConfig} {PU : Puc} {W : Type} {PA : PoolAccess W} (log : W -> list message).

(** From [w] to [w'] this hart has sent requests that are [P], if any *)
Definition moves (P : message -> Prop) (w w' : W) : Prop :=
  pool_stable (get_pool w) (get_pool w') /\ exists l, log w' = log w ++ l /\ Forall P l.

Lemma log_refl (P : message -> Prop) (w : W) : moves P w w.
Proof. split; [done|]. exists []. by rewrite app_nil_r. Qed.
Lemma log_trans (P : message -> Prop) (w1 w2 w3 : W) : moves P w1 w2 -> moves P w2 w3 -> moves P w1 w3.
Proof.
  intros (H1 & l1 & E1 & F1) (H2 & l2 & E2 & F2). split; [by etrans|]. exists (l1 ++ l2). rewrite E2, E1, app_assoc.
  by rewrite Forall_app.
Qed.
Lemma log_mono (P Q : message -> Prop) (w w' : W) : (forall m, P m -> Q m) -> moves P w w' -> moves Q w w'.
Proof. intros H (H1 & l & E & F). split; [done|]. exists l. split; [done|]. by eapply Forall_impl. Qed.
End Moves.

Definition nothing (m : message) : Prop := False.

(** What the rest of the machine does while the client works is quiet, and
    only [send] puts a request into the queue.  Quiet ([pool_stable]) is that
    what a channel denies stays denied, which holds as long as no other hart
    sets up the same channel meanwhile ([deny_lost]). *)
Class Env (W : Type) {AR : Arch} {MR : MpxyRpmiConfig} {PU : Puc} {T : Transport W} {MC : Machine W} {PA : PoolAccess W} := {
  own_log : W -> list message;
  env_pool (p : rpmi_pool) (w : W) : get_pool (set_pool p w) = p /\ own_log (set_pool p w) = own_log w;
  env_relax (w : W) : moves own_log nothing w (mc_relax w);
  env_lock (w : W) : moves own_log nothing w (mc_lock w);
  env_state (s : client_state) (w : W) : moves own_log nothing w (mc_set_state s w);
  env_rang (w : W) : moves own_log nothing w (mc_rang w).2;
  env_relock (w : W) : moves own_log nothing w (mc_relock w).2;
  env_sink (i : nat) (data : list Z) (len : Z) (w : W) : moves own_log nothing w (mc_sink i data len w);
  env_msi (w : W) : moves own_log nothing w (mc_msi_request w).2;
  env_recv (q : rpmi_queue) (max : Z) (w : W) : moves own_log nothing w (tp_recv w q max).2;
  env_send (q : rpmi_queue) (hdr : rpmi_hdr) (data : list Z) (w : W) :
    moves own_log (fun m => q = RPMI_QUEUE_A2P_REQ /\ m = (hdr, data)) w (tp_send w q hdr data).2;
}.

Section Requests.
Context {W : Type} {AR : Arch} {MR : MpxyRpmiConfig} {PU : Puc} {CF : RpmiConfig}.
Context {T : Transport W} {MC : Machine W} {PA : PoolAccess W} {EN : Env W}.

#[local] Abbreviation moves := (moves own_log).

Lemma log_quiet (P : message -> Prop) (w w' : W) : moves nothing w w' -> moves P w w'.
Proof. by apply log_mono. Qed.

(** One step of the machine, then the rest *)
Ltac step H := eapply log_trans; [apply log_quiet, H|].

Lemma send_locked_log (fuel : nat) (w : W) (q : rpmi_queue) (hdr : rpmi_hdr) (data : list Z) :
  post (send_locked fuel w q hdr data) (fun x => moves (fun m => q = RPMI_QUEUE_A2P_REQ /\ m = (hdr, data)) w x.2).
Proof.
  unfold send_locked. generalize (deadline w). intros u. revert w. induction fuel as [|fuel IH]; intros w; cbn [send_loop]; [apply post_none|].
  pose proof (env_send q hdr data w) as Hs. destruct (tp_send w q hdr data) as [rc w1]. cbn [snd] in Hs.
  destruct (rc =? RPMI_ERR_BUSY); [|by apply post_ret]. destruct (expired w1 u); [by apply post_ret|].
  eapply post_weaken; [apply IH|]. intros x Hx. eapply log_trans; [exact Hs|]. step (env_relax w1). done.
Qed.

Lemma wait_ack_log (fuel : nat) (w : W) (hdr : rpmi_hdr) (max : Z) : post (wait_ack fuel w hdr max) (fun x => moves nothing w x.2).
Proof.
  unfold wait_ack. generalize (deadline w). intros u. revert w. induction fuel as [|fuel IH]; intros w; cbn [wait_loop]; [apply post_none|].
  pose proof (env_recv RPMI_QUEUE_P2A_ACK max w) as Hr. destruct (tp_recv w RPMI_QUEUE_P2A_ACK max) as [[[rc ack] data] w1]. cbn [snd] in Hr.
  destruct (rc =? RPMI_ERR_NO_DATA).
  { destruct (expired w1 u); [by apply post_ret|]. eapply post_weaken; [apply IH|]. intros x Hx. step Hr. step (env_relax w1). done. }
  destruct (truth rc && negb _); [by apply post_ret|].
  destruct (negb (acks hdr ack)); [eapply post_weaken; [apply IH|]; intros x Hx; by step Hr|].
  destruct (truth rc || _); by apply post_ret.
Qed.

Lemma deliver_log (ctx : rpmi_context) (w : W) (hdr : rpmi_hdr) (data : list Z) : moves nothing w (deliver_events ctx w hdr data).
Proof.
  unfold deliver_events. set (len := events_len _ _ _ _). revert w. induction (x_sinks ctx) as [|s l IH]; intros w; cbn [foldl]; [apply log_refl|].
  destruct (truth len && _); [|apply IH]. step (env_sink s.2 data len w). apply IH.
Qed.

Lemma p2a_drain_log (fuel : nat) (ctx : rpmi_context) (w : W) : post (p2a_drain fuel ctx w) (fun w' => moves nothing w w').
Proof.
  revert w. induction fuel as [|fuel IH]; intros w; cbn [p2a_drain]; [apply post_none|].
  pose proof (env_recv RPMI_QUEUE_P2A_REQ (CONFIG_RPMI_MAX_DATA_LEN / 4 * 4) w) as Hr.
  destruct (tp_recv w RPMI_QUEUE_P2A_REQ _) as [[[rc hdr] data] w1]. cbn [snd] in Hr. destruct (truth rc); [by apply post_ret|].
  destruct (_ =? RPMI_MSG_NOTIFICATION); [|destruct (_ =? RPMI_MSG_NORMAL_REQUEST)].
  - eapply post_weaken; [apply IH|]. intros w' Hw'. step Hr. step (deliver_log ctx w1 hdr data). done.
  - eapply post_bind; [apply send_locked_log|]. intros x Hx. eapply post_weaken; [apply IH|]. intros w' Hw'. step Hr.
    eapply log_trans; [|exact Hw']. eapply log_mono; [|exact Hx]. by intros m [? _].
  - eapply post_weaken; [apply IH|]. intros w' Hw'. by step Hr.
Qed.

Lemma context_unlock_log (fuel : nat) (ctx : rpmi_context) (w : W) : post (context_unlock fuel ctx w) (fun w' => moves nothing w w').
Proof.
  revert w. induction fuel as [|fuel IH]; intros w; cbn [context_unlock]; [apply post_none|].
  pose proof (env_rang w) as Hr. destruct (mc_rang w) as [rang w1]. cbn [snd] in Hr.
  eapply (post_bind _ _ (fun w' => moves nothing w w')).
  { destruct rang; [|by apply post_ret]. eapply post_weaken; [apply p2a_drain_log|]. intros w' Hw'. by step Hr. }
  intros w2 H2. pose proof (env_relock w2) as Hl. destruct (mc_relock w2) as [again w3]. cbn [snd] in Hl.
  destruct again; [eapply post_weaken; [apply IH|]; intros w' Hw'; step H2; by step Hl|]. apply post_ret. step H2. done.
Qed.

Lemma rpmi_poll_log (fuel : nat) (ctx : rpmi_context) (w : W) : post (rpmi_poll fuel ctx w) (fun w' => moves nothing w w').
Proof.
  unfold rpmi_poll. destruct (negb (x_has_p2a ctx)); [apply post_ret, log_refl|]. eapply post_bind; [apply p2a_drain_log|].
  intros w1 H1. eapply post_weaken; [apply context_unlock_log|]. intros w2 H2. step (env_lock w). step H1. done.
Qed.

(** The requests of one call: the one it makes, and the doorbell's *)
Definition requested (ctx : rpmi_context) (group service : Z) (req : list Z) (m : message) : Prop :=
  is_request group service req m \/ doorbell_request (x_p2a_doorbell_sysmsi ctx) m.

Definition logs_request (ctx : rpmi_context) (request : W -> Z -> Z -> list Z -> Z -> Z -> option (Z * (list Z * Z) * W)) : Prop :=
  forall w group service req len max, post (request w group service req len max) (fun x => moves (requested ctx group service req) w x.2).

Lemma doorbell_log (fuel : nat) (ctx : rpmi_context) request (w : W) :
  logs_request ctx request -> post (doorbell_setup fuel request ctx w) (fun w' => moves (doorbell_request (x_p2a_doorbell_sysmsi ctx)) w w').
Proof.
  intros Hreq. unfold doorbell_setup. set (sysmsi := x_p2a_doorbell_sysmsi ctx). destruct (_ || _); [apply post_ret, log_refl|].
  set (w1 := mc_set_state _ w). assert (moves nothing w w1) as H1 by apply env_state.
  destruct (s_doorbell_tried _); [apply post_ret; by apply log_quiet|].
  pose proof (env_msi w1) as H2. destruct (mc_msi_request w1) as [[[addr data]|] w2]; cbn [snd] in H2;
    [|apply post_ret; step H1; by apply log_quiet].
  assert (forall service rest w' x, (service = RPMI_SYSMSI_SET_MSI_TARGET \/ service = RPMI_SYSMSI_SET_MSI_STATE) ->
    moves (requested ctx RPMI_GROUP_SYSTEM_MSI service (sysmsi :: rest)) w' x -> moves (doorbell_request sysmsi) w' x) as Hd.
  { intros service rest w' x Hs. apply log_mono. intros m [(Eg & Es & Ed)|H]; [|done]. split; [done|].
    rewrite Es, Ed. done. }
  eapply post_bind; [apply Hreq|]. intros [r3 w3] H3. apply Hd in H3; [|by left]. cbn [snd] in H3.
  assert (moves (doorbell_request sysmsi) w w3) as H3' by (step H1; step H2; done).
  destruct (truth (call_result r3 1)); [by apply post_ret|].
  eapply post_bind; [apply Hreq|]. intros [r4 w4] H4. apply Hd in H4; [|by right]. cbn [snd] in H4.
  destruct (truth (call_result r4 1)); [apply post_ret; by eapply log_trans|].
  eapply post_weaken; [apply rpmi_poll_log|]. intros w5 H5. eapply log_trans; [exact H3'|]. eapply log_trans; [exact H4|].
  step (env_state ((mc_state w4) <| s_doorbell := true |>) w4). by apply log_quiet.
Qed.

Lemma request_log (depth fuel : nat) (ctx : rpmi_context) : logs_request ctx (rpmi_request_at depth fuel ctx).
Proof.
  induction depth as [|depth IH]; intros w group service req len max; cbn [rpmi_request_at];
    (destruct (truth (request_check _ _)); [apply post_ret, log_refl|]); unfold take_token;
    set (w1 := mc_set_state _ _); set (hdr := request_hdr _ _ _ _ _);
    (assert (moves nothing w w1) as H1 by (step (env_lock w); apply env_state));
    (assert (post (request_locked fuel w1 hdr req max) (fun x => moves (requested ctx group service req) w x.2)) as Hreq;
     [eapply post_bind; [apply send_locked_log|]; intros [rc w2] H2; cbn [snd] in H2;
      (assert (moves (requested ctx group service req) w w2) as H2'
        by (step H1; eapply log_mono; [|exact H2]; intros m [_ ->]; by left));
      (destruct (truth rc); [by apply post_ret|]); eapply post_weaken; [apply wait_ack_log|]; intros x Hx;
      eapply log_trans; [exact H2'|]; by apply log_quiet|]);
    (eapply post_bind; [exact Hreq|]); intros [[rc resp] w3] H3; cbn [snd] in H3;
    (eapply post_bind; [apply context_unlock_log|]); intros w4 H4;
    (assert (moves (requested ctx group service req) w w4) as H4' by (eapply log_trans; [exact H3|]; by apply log_quiet));
    (destruct (truth rc); [by apply post_ret|]).
  - by intros a.
  - eapply post_bind; [by apply doorbell_log|]. intros w5 H5.
    assert (moves (requested ctx group service req) w w5) as H5'
      by (eapply log_trans; [exact H4'|]; eapply log_mono; [|exact H5]; intros m Hm; by right).
    destruct (_ && _); [|by apply post_ret]. eapply post_bind; [apply rpmi_poll_log|]. intros w6 H6. apply post_ret.
    eapply log_trans; [exact H5'|]. by apply log_quiet.
Qed.

Lemma post_log (fuel : nat) (ctx : rpmi_context) (w : W) (group service : Z) (req : list Z) (len : Z) :
  post (rpmi_post fuel ctx w group service req len) (fun x => moves (is_request group service req) w x.2).
Proof.
  unfold rpmi_post. destruct (truth (request_check _ _)); [apply post_ret, log_refl|]. unfold take_token. set (w1 := mc_set_state _ _).
  assert (moves nothing w w1) as H1 by (step (env_lock w); apply env_state).
  eapply post_bind; [apply send_locked_log|]. intros [rc w2] H2. cbn [snd] in H2.
  eapply post_bind; [apply context_unlock_log|]. intros w3 H3. apply post_ret. step H1. eapply log_trans; [|by apply log_quiet].
  eapply log_mono; [|exact H2]. by intros m [_ ->].
Qed.

Lemma call_log (fuel : nat) (ctx : rpmi_context) (w : W) (group service : Z) (req : list Z) (words : Z) :
  post (rpmi_call fuel ctx w group service req words) (fun x => moves (requested ctx group service req) w x.2).
Proof.
  unfold rpmi_call, rpmi_request. eapply post_bind; [apply request_log|]. intros [r w1] H1. by apply post_ret.
Qed.

End Requests.

(** ** What is asked of the PuC *)

(** The PuC answers the same question the same way *)
Class PucAnswers (W : Type) {AR : Arch} {PU : Puc} {CF : RpmiConfig} {T : Transport W} {MC : Machine W} := {
  answer_nr (fuel : nat) (ctx : rpmi_context) (w w' : W) (resp : list Z) :
    rpmi_call fuel ctx w RPMI_GROUP_SYSTEM_MSI RPMI_SYSMSI_GET_ATTRIBUTES [] 4 = Some (RPMI_SUCCESS, resp, w') ->
    nth 1 resp 0 = nr_msi (x_phandle ctx);
  answer_mmode (fuel : nat) (ctx : rpmi_context) (w w' : W) (index : Z) (resp : list Z) :
    rpmi_call fuel ctx w RPMI_GROUP_SYSTEM_MSI RPMI_SYSMSI_GET_MSI_ATTRIBUTES [index] 7 = Some (RPMI_SUCCESS, resp, w') ->
    truth (Z.land (nth 1 resp 0) RPMI_SYSMSI_FLAGS0_PREF_MMODE) = mmode_msi (x_phandle ctx) index;
}.

Section Vetted.
Context {W : Type} {AR : Arch} {KC : Kconfig} {MX : MpxyConfig} {MR : MpxyRpmiConfig} {PU : Puc} {CF : RpmiConfig}.
Context {T : Transport W} {MC : Machine W} {PA : PoolAccess W} {EN : Env W} {PW : PucAnswers W}.

#[local] Abbreviation moves := (moves own_log).

(** The channel [i], the pool in order, and what stays *)
Definition live (w : W) (i : nat) : Prop := (i < length (p_chans (get_pool w)))%nat /\ pool_ok (get_pool w).

Lemma chan_lookup (w : W) (i : nat) : live w i -> p_chans (get_pool w) !! i = Some (chan w i).
Proof. intros [Hi _]. unfold chan. destruct (lookup_lt_is_Some_2 _ _ Hi) as [r ->]. done. Qed.

Lemma chan_ok_live (w : W) (i : nat) : live w i -> chan_ok (get_pool w) (chan w i).
Proof. intros H. pose proof (chan_lookup w i H) as E. destruct H as [_ H]. by apply (Forall_lookup_1 _ _ _ _ H E). Qed.

Lemma moves_live (P : message -> Prop) (w w' : W) (i : nat) : live w i -> moves P w w' -> live w' i /\ chan_stable (chan w i) (chan w' i).
Proof.
  intros Hl [(Hok & HF & _) _]. pose proof (chan_lookup w i Hl) as E. destruct Hl as [Hi Hp].
  assert (live w' i) as Hl'. { split; [|auto]. by rewrite <- (Forall2_length _ _ _ HF). }
  split; [done|]. destruct (Forall2_lookup_l _ _ _ _ _ HF E) as (r & E' & H).
  pose proof (chan_lookup w' i Hl') as E2. by assert (r = chan w' i) as -> by congruence.
Qed.

Lemma moves_doorbell (P : message -> Prop) (w w' : W) (a : Z) : moves P w w' -> doorbell_of (get_pool w') a = doorbell_of (get_pool w) a.
Proof. by intros [(_ & _ & H) _]. Qed.

Lemma get_set_pool (p : rpmi_pool) (w : W) : get_pool (set_pool p w) = p.
Proof. apply env_pool. Qed.

(** A change of one channel that keeps it in order *)
Lemma chan_update_moves (w : W) (i : nat) (f : mpxy_rpmi -> mpxy_rpmi) :
  live w i -> chan_stable (chan w i) (f (chan w i)) -> chan_ok (get_pool w) (f (chan w i)) ->
  moves nothing w (chan_update i f w) /\ chan (chan_update i f w) i = f (chan w i).
Proof.
  intros Hl Hst Hok. pose proof (chan_lookup w i Hl) as E. unfold chan_update.
  set (p' := (get_pool w) <| p_chans := alter f i (p_chans (get_pool w)) |>).
  split; [split; [split_and!|]|].
  - rewrite get_set_pool. intros Hp. apply Forall_lookup_2. intros j r Hj. change (p_chans p') with (alter f i (p_chans (get_pool w))) in Hj.
    destruct (decide (i = j)) as [<-|Hne].
    + rewrite list_lookup_alter_eq, E in Hj. by injection Hj as <-.
    + rewrite list_lookup_alter_ne in Hj by done. exact (Forall_lookup_1 _ _ _ _ Hp Hj).
  - rewrite get_set_pool. apply Forall2_same_length_lookup_2; [by rewrite <- (length_alter f (p_chans (get_pool w)) i)|].
    intros j r r' Hj Hj'. change (p_chans p') with (alter f i (p_chans (get_pool w))) in Hj'. destruct (decide (i = j)) as [<-|Hne].
    + rewrite list_lookup_alter_eq, E in Hj'. injection Hj' as <-. assert (r = chan w i) as -> by congruence. done.
    + rewrite list_lookup_alter_ne in Hj' by done. by assert (r = r') as -> by congruence.
  - by rewrite get_set_pool.
  - exists []. rewrite app_nil_r. split; [apply env_pool|done].
  - unfold chan. rewrite get_set_pool. change (p_chans p') with (alter f i (p_chans (get_pool w))).
    by rewrite list_lookup_alter_eq, E.
Qed.

Lemma core_update_moves (w : W) (i : nat) (f : mpxy unit -> mpxy unit) :
  live w i -> moves nothing w (core_update f w) /\ chan (core_update f w) i = chan w i.
Proof.
  intros Hl. unfold core_update. set (p' := _ <| p_mpxy := _ |>). split; [split|].
  - rewrite get_set_pool. split_and!; [done|done|done].
  - exists []. rewrite app_nil_r. split; [apply env_pool|done].
  - unfold chan. by rewrite get_set_pool.
Qed.

(** The monitor's own requests about the PuC of the channel *)
Definition own (w : W) (i : nat) (m : message) : Prop := monitors_request (doorbell_of (get_pool w) (r_puc (chan w i))) m.

Lemma puc_doorbell (w : W) (i : nat) : x_p2a_doorbell_sysmsi (puc_of w i) = doorbell_of (get_pool w) (r_puc (chan w i)).
Proof. done. Qed.

(** One MSI more is denied *)
Lemma deny_moves (w : W) (i : nat) (index : Z) :
  live w i -> 0 <= index < CONFIG_MPXY_RPMI_MAX_SYSMSI ->
  let w' := chan_update i (fun r => r <| r_state := msi_deny (r_state r) index |>) w in
  moves nothing w w' /\ r_puc (chan w' i) = r_puc (chan w i) /\
  gs_num_msi (r_state (chan w' i)) = gs_num_msi (r_state (chan w i)) /\ msi_denied (r_state (chan w' i)) index = true.
Proof.
  intros Hl Hidx. pose proof (chan_ok_live w i Hl) as (Hr & Hlen & Hx & Hk).
  destruct (chan_update_moves w i (fun r => r <| r_state := msi_deny (r_state r) index |>) Hl) as [Hmv Echan].
  - by apply chan_denies.
  - split_and!; [done| |done|].
    + change (length (<[Z.to_nat (index / XLEN) := Z.lor (nth (Z.to_nat (index / XLEN)) (gs_msi_denied (r_state (chan w i))) 0) (BIT (index mod XLEN))]>
        (gs_msi_denied (r_state (chan w i)))) = denied_words). by rewrite length_insert.
    + intros Hp Hg. destruct (Hk Hp Hg) as [H3 H4]. split; [done|]. intros k Hkk Hres.
      change (msi_denied (msi_deny (r_state (chan w i)) index) k = true). rewrite msi_deny_spec by (done || lia).
      apply orb_true_iff. left. by apply H4.
  - cbv zeta. rewrite Echan. split_and!; [done|done|done|].
    change (msi_denied (msi_deny (r_state (chan w i)) index) index = true). rewrite msi_deny_spec by (done || lia).
    by rewrite Z.eqb_refl, orb_true_r.
Qed.

(** [setup] finds the reserved ones from [index] on *)
Lemma setup_loop_spec (n fuel : nat) (i : nat) (ctx : rpmi_context) (index : Z) (w : W) :
  live w i -> x_p2a_doorbell_sysmsi ctx = doorbell_of (get_pool w) (r_puc (chan w i)) -> x_phandle ctx = r_puc (chan w i) ->
  gs_num_msi (r_state (chan w i)) = nr_msi (r_puc (chan w i)) -> 0 <= index ->
  CONFIG_MPXY_RPMI_MAX_SYSMSI - index < Z.of_nat n ->
  post (setup_loop n fuel i ctx index w) (fun x =>
    moves (monitors_request (x_p2a_doorbell_sysmsi ctx)) w x.2 /\
    (x.1 = 0 -> forall k, index <= k < nr_msi (r_puc (chan w i)) -> reserved (get_pool w) (r_puc (chan w i)) k ->
     msi_denied (r_state (chan x.2 i)) k = true)).
Proof.
  revert index w. induction n as [|n IH]; intros index w Hl Hd Hph Hnum Hidx Hn; cbn [setup_loop].
  { apply post_ret. split; [apply log_refl|]. intros _ k Hk _. unfold msi_denied. by rewrite (proj2 (Z.leb_le _ _)) by lia. }
  rewrite Hnum. destruct (Z.ltb_spec index (nr_msi (r_puc (chan w i)))) as [Hlt|Hge]; cbn [andb].
  2: { apply post_ret. split; [apply log_refl|]. intros _ k Hk. lia. }
  destruct (Z.ltb_spec index CONFIG_MPXY_RPMI_MAX_SYSMSI) as [Hlt2|Hge2].
  2: { apply post_ret. split; [apply log_refl|]. intros _ k Hk _. unfold msi_denied. by rewrite (proj2 (Z.leb_le _ _)) by lia. }
  set (d := x_p2a_doorbell_sysmsi ctx) in *.
  eapply (post_bind _ _ (fun x => moves (monitors_request d) w x.2 /\
     (x.1.1 = 0 -> truth (Z.land (nth 1 x.1.2 0) RPMI_SYSMSI_FLAGS0_PREF_MMODE) = mmode_msi (r_puc (chan w i)) index))).
  { intros [[rc resp] w1] E. cbn [fst snd]. split.
    - pose proof (call_log fuel ctx w RPMI_GROUP_SYSTEM_MSI RPMI_SYSMSI_GET_MSI_ATTRIBUTES [index] 7 _ E) as H1. cbn [snd] in H1.
      eapply log_mono; [|exact H1]. intros m [(Eg & Es & _)|H]; [right; right; auto|by left].
    - intros ->. rewrite <- Hph. exact (answer_mmode _ _ _ _ _ _ E). }
  intros [[rc resp] w1] [H1 Hm]. cbn [fst snd] in *. destruct (truth rc) eqn:Erc.
  { apply post_ret. cbn [fst snd]. split; [done|]. intros ->. done. }
  assert (rc = 0) as -> by (unfold truth in Erc; by apply negb_false_iff, Z.eqb_eq in Erc). specialize (Hm eq_refl).
  rewrite Hm. destruct (moves_live _ _ _ i Hl H1) as [Hl1 (Ep1 & _ & _ & _ & Hn1)]. specialize (Hn1 Hnum).
  set (hit := mmode_msi _ _ || _). set (w2 := if hit then _ else w1).
  assert (moves nothing w1 w2 /\ r_puc (chan w2 i) = r_puc (chan w i) /\ gs_num_msi (r_state (chan w2 i)) = nr_msi (r_puc (chan w i)) /\
    (hit = true -> msi_denied (r_state (chan w2 i)) index = true)) as (H2 & Ep2 & Hn2 & Hhit).
  { unfold w2. destruct hit; [|split_and!; [apply log_refl|done|done|done]].
    destruct (deny_moves w1 i index Hl1 ltac:(lia)) as (Hmv & Ep & En & Hden). rewrite Ep, En. done. }
  destruct (moves_live _ _ _ i Hl1 H2) as [Hl2 _].
  assert (moves (monitors_request d) w w2) as H12 by (eapply log_trans; [exact H1|]; by apply log_quiet).
  pose proof (moves_doorbell _ _ _ (r_puc (chan w i)) H12) as Ed.
  eapply post_weaken; [apply (IH (index + 1) w2)|]; [done|by rewrite Ep2, Ed|by rewrite Ep2|by rewrite Ep2|lia|lia|].
  intros [rc w3] [H3 Hall]; cbn [fst snd] in *. split; [by eapply log_trans|]. intros -> k Hk Hres.
  rewrite Ep2 in Hall. destruct (Z.eq_dec k index) as [->|Hne].
  - destruct (moves_live _ _ _ i Hl2 H3) as [_ (_ & _ & _ & Hmono & _)]. apply Hmono; [lia|]. apply Hhit. unfold hit.
    destruct Hres as [Ek|Em]; [|by rewrite Em]. rewrite Ek, Hd, Z.eqb_refl. apply orb_true_r.
  - apply Hall; [done|lia|]. destruct Hres as [->|?]; [left; by rewrite Ed|by right].
Qed.

(** What a channel knows once the PuC has answered *)
Definition asked (w : W) (i : nat) : Prop :=
  r_group (chan w i) = RPMI_GROUP_SYSTEM_MSI ->
  gs_num_msi (r_state (chan w i)) = nr_msi (r_puc (chan w i)) /\
  forall k, 0 <= k < nr_msi (r_puc (chan w i)) -> reserved (get_pool w) (r_puc (chan w i)) k -> msi_denied (r_state (chan w i)) k = true.

(** The hooks are SYSTEM_MSI's *)
Lemma setup_group (w : W) (i : nat) : live w i -> group_rules_setup (chan w i) = (r_group (chan w i) =? RPMI_GROUP_SYSTEM_MSI).
Proof.
  intros Hl. destruct (chan_ok_live w i Hl) as (Hr & _). unfold group_rules_setup. rewrite Hr. unfold rpmi_group_rules_find, groups.
  cbn [List.find gr_group]. rewrite (Z.eqb_sym _ RPMI_GROUP_SYSTEM_MSI). destruct (RPMI_GROUP_SYSTEM_MSI =? _); [done|].
  by repeat (destruct (_ =? _); [done|]).
Qed.

Lemma sysmsi_setup_spec (fuel : nat) (i : nat) (ctx : rpmi_context) (w : W) :
  live w i -> x_p2a_doorbell_sysmsi ctx = doorbell_of (get_pool w) (r_puc (chan w i)) -> x_phandle ctx = r_puc (chan w i) ->
  post (sysmsi_setup fuel i ctx w) (fun x =>
    moves (monitors_request (x_p2a_doorbell_sysmsi ctx)) w x.2 /\ (x.1 = 0 -> asked x.2 i)).
Proof.
  intros Hl Hd Hph. unfold sysmsi_setup. set (d := x_p2a_doorbell_sysmsi ctx) in *.
  eapply (post_bind _ _ (fun x => moves (monitors_request d) w x.2 /\ (x.1.1 = 0 -> nth 1 x.1.2 0 = nr_msi (r_puc (chan w i))))).
  { intros [[rc resp] w1] E. cbn [fst snd]. split.
    - pose proof (call_log fuel ctx w RPMI_GROUP_SYSTEM_MSI RPMI_SYSMSI_GET_ATTRIBUTES [] 4 _ E) as H1. cbn [snd] in H1.
      eapply log_mono; [|exact H1]. intros m [(Eg & Es & _)|H]; [right; right; auto|by left].
    - intros ->. rewrite <- Hph. exact (answer_nr _ _ _ _ _ E). }
  intros [[rc resp] w1] [H1 Hm]. cbn [fst snd] in *. destruct (truth rc) eqn:Erc.
  { apply post_ret. cbn [fst snd]. split; [done|]. intros ->. done. }
  assert (rc = 0) as -> by (unfold truth in Erc; by apply negb_false_iff, Z.eqb_eq in Erc). rewrite (Hm eq_refl).
  destruct (moves_live _ _ _ i Hl H1) as [Hl1 (Ep1 & _)]. pose proof (chan_ok_live w1 i Hl1) as (Hr & Hlen & Hx & Hk).
  set (nr := nr_msi (r_puc (chan w i))).
  destruct (chan_update_moves w1 i (fun r => r <| r_state := (r_state r) <| gs_num_msi := nr |> |>) Hl1) as [Hmv Echan].
  - split_and!; try done. intros _. change (nr = nr_msi (r_puc (chan w1 i))). by rewrite Ep1.
  - split_and!; try done. intros Hp Hg. destruct (Hk Hp Hg) as [H3 H4]. split; [change (nr = nr_msi (r_puc (chan w1 i))); by rewrite Ep1|].
    exact H4.
  - set (w2 := chan_update _ _ w1) in *. destruct (moves_live _ _ _ i Hl1 Hmv) as [Hl2 _].
    assert (moves (monitors_request d) w w2) as H12 by (eapply log_trans; [exact H1|]; by apply log_quiet).
    pose proof (moves_doorbell _ _ _ (r_puc (chan w i)) H12) as Ed.
    assert (r_puc (chan w2 i) = r_puc (chan w i)) as Ep2 by (rewrite Echan; exact Ep1).
    assert (gs_num_msi (r_state (chan w2 i)) = nr) as En by (rewrite Echan; done).
    eapply post_weaken; [apply (setup_loop_spec _ fuel i ctx 0 w2)|]; [done|by rewrite Ep2, Ed|by rewrite Ep2|by rewrite En, Ep2|lia| |].
    { pose proof config_max_sysmsi. lia. }
    intros [rc w3] [H3 Hall]; cbn [fst snd] in *. split; [by eapply log_trans|]. intros -> Hg.
    destruct (moves_live _ _ _ i Hl2 H3) as [Hl3 (Ep3 & _ & _ & _ & Hn3)]. rewrite Ep3. split; [apply Hn3; by rewrite Ep2|].
    intros k Hk3 Hres. apply (Hall eq_refl k Hk3). destruct Hres as [Ek|Em]; [left|by right].
    rewrite Ek. apply (moves_doorbell _ _ _ _ H3).
Qed.

Lemma post_unless {A} (x : Z * A * W) (f : A -> W -> option (Z * A * W)) (Q : Z * A * W -> Prop) :
  (truth x.1.1 = true -> Q x) -> (x.1.1 = 0 -> post (f x.1.2 x.2) Q) -> post (unless x f) Q.
Proof.
  destruct x as [[rc a] w]. cbn [fst snd]. intros H1 H2. unfold unless. destruct (truth rc) eqn:E; [apply post_ret; auto|].
  apply H2. unfold truth in E. by apply negb_false_iff, Z.eqb_eq in E.
Qed.

Lemma base_log (fuel : nat) (ctx : rpmi_context) (w : W) (service : Z) :
  post (rpmi_base_get fuel ctx w service) (fun x => moves (monitors_request (x_p2a_doorbell_sysmsi ctx)) w x.2).
Proof.
  eapply post_bind; [apply call_log|]. intros [[rc resp] w1] H. apply post_ret. eapply log_mono; [|exact H].
  intros m [(Eg & _)|Hm]; [right; by left|by left].
Qed.
Lemma probe_log (fuel : nat) (ctx : rpmi_context) (w : W) (group : Z) :
  post (rpmi_probe_group fuel ctx w group) (fun x => moves (monitors_request (x_p2a_doorbell_sysmsi ctx)) w x.2).
Proof.
  eapply post_bind; [apply call_log|]. intros [[rc resp] w1] H. apply post_ret. eapply log_mono; [|exact H].
  intros m [(Eg & _)|Hm]; [right; by left|by left].
Qed.

Lemma ask_questions_spec (fuel : nat) (i : nat) (w : W) :
  live w i -> post (ask_questions fuel i w) (fun x => moves (own w i) w x.2 /\ (x.1.1 = 0 -> asked x.2 i)).
Proof.
  intros Hl. unfold ask_questions, own. rewrite <- puc_doorbell. set (ctx := puc_of w i). set (d := x_p2a_doorbell_sysmsi ctx).
  set (Q := fun x : Z * answers * W => moves (monitors_request d) w x.2).
  eapply post_bind; [apply base_log|]. intros [[rc v] w1] H1. cbn [snd] in H1.
  assert (forall (x : Z * answers * W) (f : answers -> W -> option (Z * answers * W)),
    Q x -> (forall a w0, post (f a w0) (fun y => moves (monitors_request d) w0 y.2)) -> post (unless x f) Q) as Hun.
  { intros x f Hx Hf. apply post_unless; [done|]. intros _. eapply post_weaken; [apply Hf|]. intros y Hy. by eapply log_trans. }
  eapply post_bind; [apply Hun; [exact H1|]; intros a w0; eapply post_bind; [apply probe_log|]; intros [[rc2 v2] w2] H2; by apply post_ret|].
  intros x2 H2. eapply post_bind; [apply Hun; [exact H2|]; intros a w0; apply post_ret, log_refl|].
  intros x3 H3. eapply post_bind; [apply Hun; [exact H3|]; intros a w0; eapply post_bind; [apply base_log|]; intros [[rc4 v4] w4] H4; by apply post_ret|].
  intros x4 H4. eapply post_bind; [apply Hun; [exact H4|]; intros a w0; eapply post_bind; [apply base_log|]; intros [[rc5 v5] w5] H5; by apply post_ret|].
  intros [[rc5 a5] w5] H5. apply post_unless; [cbn [fst snd]; intros E; split; [done|]; intros ->; done|].
  cbn [fst snd]. intros _. unfold Q in H5. cbn [snd] in H5. destruct (moves_live _ _ _ i Hl H5) as [Hl5 (Ep5 & _)].
  rewrite (setup_group w5 i Hl5). destruct (Z.eqb_spec (r_group (chan w5 i)) RPMI_GROUP_SYSTEM_MSI) as [Eg|Eg].
  - eapply post_bind; [apply (sysmsi_setup_spec fuel i ctx w5 Hl5)|].
    + rewrite Ep5, (moves_doorbell _ _ _ _ H5). done.
    + rewrite Ep5. apply (chan_ok_live w i Hl).
    + intros [rc6 w6] [H6 Ha]. apply post_ret. split; [by eapply log_trans|done].
  - apply post_ret. split; [done|]. intros _ E. done.
Qed.

Lemma rpmi_to_sbi_error (rc : Z) : truth rc = true -> truth (rpmi_to_sbi rc) = true.
Proof.
  intros H. apply truth_true in H. unfold rpmi_to_sbi. rewrite (proj2 (Z.eqb_neq rc RPMI_SUCCESS) H). by repeat (destruct (_ =? _); [done|]).
Qed.

Lemma ask_puc_spec (fuel : nat) (i : nat) (w : W) :
  live w i -> post (mpxy_rpmi_ask_puc fuel i w) (fun x => moves (own w i) w x.2 /\ (x.1 = 0 -> asked x.2 i)).
Proof.
  intros Hl. unfold mpxy_rpmi_ask_puc. destruct (r_probed (chan w i)) eqn:Ep.
  { apply post_ret. split; [apply log_refl|]. intros _ Hg. destruct (chan_ok_live w i Hl) as (_ & _ & _ & H). by apply H. }
  eapply post_bind; [by apply ask_questions_spec|]. intros [[rc a] w1] [H1 Ha]. cbn [fst snd] in *. destruct (truth rc) eqn:Erc.
  { apply post_ret. split; [done|]. cbn [fst]. intros E. apply rpmi_to_sbi_error in Erc. by rewrite E in Erc. }
  assert (rc = 0) as -> by (unfold truth in Erc; by apply negb_false_iff, Z.eqb_eq in Erc). specialize (Ha eq_refl).
  destruct (moves_live _ _ _ i Hl H1) as [Hl1 _].
  destruct (core_update_moves w1 i (fun s => channel_update s (r_ch (chan w1 i)) (fun c => c <| ch_msg_prot_version := an_spec a |>)) Hl1)
    as [H2 E2]. set (w2 := core_update _ w1) in *. destruct (moves_live _ _ _ i Hl1 H2) as [Hl2 _].
  assert (asked w2 i) as Ha2.
  { intros Hg. rewrite E2 in *. destruct (Ha Hg) as [Hn Hd]. split; [done|]. intros k Hk Hres. apply (Hd k Hk).
    destruct Hres as [Ek|Em]; [left|by right]. rewrite Ek. apply (moves_doorbell _ _ _ _ H2). }
  pose proof (chan_ok_live w2 i Hl2) as (Hr & Hlen & Hx & _).
  destruct (chan_update_moves w2 i (fun r => r <| r_group_version := an_version a |> <| r_impl_id := an_impl_id a |>
      <| r_impl_version := an_impl_version a |> <| r_probed := true |>) Hl2) as [H3 E3].
  - by split_and!.
  - split_and!; [done..|]. intros _ Hg. exact (Ha2 Hg).
  - apply post_ret. cbn [fst snd]. split; [eapply log_trans; [exact H1|]; eapply log_trans; [by apply log_quiet|by apply log_quiet]|].
    intros _ Hg. rewrite E3 in *. destruct (Ha2 Hg) as [Hn Hd]. split; [done|]. intros k Hk Hres. apply (Hd k Hk).
    destruct Hres as [Ek|Em]; [left|by right]. rewrite Ek. apply (moves_doorbell _ _ _ _ H3).
Qed.

(** ** What S-mode's messages have passed *)

(** The rules of the group, and for SYSTEM_MSI the filter: an MSI the PuC
    has that is S-mode's, a target S-mode could write itself *)
Definition vetted (smode_range_ok : Z -> Z -> bool) (w : W) (i : nat) (msg_id : Z) (req : list Z) (len : Z) : Prop :=
  let r := chan w i in
  0 < msg_id < 2 ^ 8 /\ len mod 4 = 0 /\
  (forall rules, rpmi_group_rules_find (r_group r) = Some rules ->
   exists rule, rule ∈ gr_services rules /\ ru_service rule = msg_id /\ ru_req_min rule <= len /\
     (ru_req_max rule <> RPMI_RULE_ANY_LEN -> len <= ru_req_max rule)) /\
  (r_group r = RPMI_GROUP_SYSTEM_MSI -> RPMI_SYSMSI_GET_MSI_ATTRIBUTES <= msg_id ->
   nth 0 req 0 < nr_msi (r_puc r) /\ ~ reserved (get_pool w) (r_puc r) (nth 0 req 0) /\
   (msg_id = RPMI_SYSMSI_SET_MSI_TARGET ->
    let addr := reg_pair_to_64 (nth 2 req 0) (nth 1 req 0) in is_ulong addr /\ smode_range_ok addr 4 = true)).

Lemma rules_check_ok (w : W) (i : nat) (msg_id len : Z) :
  live w i -> 0 <= msg_id -> truth (rules_check (chan w i) msg_id len) = false ->
  0 < msg_id < 2 ^ 8 /\ len mod 4 = 0 /\
  forall rules, rpmi_group_rules_find (r_group (chan w i)) = Some rules ->
   exists rule, rule ∈ gr_services rules /\ ru_service rule = msg_id /\ ru_req_min rule <= len /\
     (ru_req_max rule <> RPMI_RULE_ANY_LEN -> len <= ru_req_max rule).
Proof.
  intros Hl Hid. destruct (chan_ok_live w i Hl) as (Hr & _). unfold rules_check.
  destruct ((msg_id =? RPMI_SERVICE_NOTIFICATION) || (0xff <? msg_id)) eqn:E1; [done|].
  apply orb_false_elim in E1 as [E1 E2]. apply Z.eqb_neq in E1. apply Z.ltb_ge in E2.
  rewrite aligned_words. destruct (Z.eqb_spec (len mod 4) 0) as [E4|]; cbn [negb]; [|done]. intros H.
  split_and!; [unfold RPMI_SERVICE_NOTIFICATION in E1; lia|lia|done|]. intros rules Hrules. rewrite Hr, Hrules in H.
  destruct (rpmi_service_rule_find rules msg_id) as [rule|] eqn:Ef; [|done].
  apply find_some in Ef as [Hin Es]. apply Z.eqb_eq in Es. exists rule.
  destruct ((len <? ru_req_min rule) || _) eqn:E5; [done|]. apply orb_false_elim in E5 as [E5 E6]. apply Z.ltb_ge in E5.
  split_and!; [by apply list_elem_of_In|done|done|]. intros Hany. rewrite (proj2 (Z.eqb_neq _ _) Hany) in E6. cbn [negb andb] in E6.
  by apply Z.ltb_ge in E6.
Qed.

Lemma filter_ok (range_ok : Z -> Z -> bool) (w : W) (i : nat) (msg_id : Z) (buf : list Z) :
  live w i -> asked w i -> truth (filter_check range_ok (chan w i) msg_id buf) = false -> 0 <= nth 0 buf 0 ->
  r_group (chan w i) = RPMI_GROUP_SYSTEM_MSI -> RPMI_SYSMSI_GET_MSI_ATTRIBUTES <= msg_id ->
  nth 0 buf 0 < nr_msi (r_puc (chan w i)) /\ ~ reserved (get_pool w) (r_puc (chan w i)) (nth 0 buf 0) /\
  (msg_id = RPMI_SYSMSI_SET_MSI_TARGET ->
    let addr := reg_pair_to_64 (nth 2 buf 0) (nth 1 buf 0) in is_ulong addr /\ range_ok addr 4 = true).
Proof.
  intros Hl Ha Hf Hnn Hg Hid. destruct (Ha Hg) as [Hn Hd]. destruct (chan_ok_live w i Hl) as (Hr & _).
  unfold filter_check in Hf. rewrite Hr, Hg in Hf. cbn [rpmi_group_rules_find List.find groups gr_group Z.eqb RPMI_GROUP_SYSTEM_MSI Pos.eqb] in Hf.
  unfold sysmsi_filter in Hf. rewrite (proj2 (Z.ltb_ge _ _) Hid), Hn in Hf.
  destruct (Z.leb_spec (nr_msi (r_puc (chan w i))) (nth 0 buf 0)) as [|Hlt]; [done|]. split; [done|].
  destruct (msi_denied _ _) eqn:Eden; [done|]. split.
  - intros Hres. rewrite (Hd _ (conj Hnn Hlt) Hres) in Eden. done.
  - intros ->. rewrite Z.eqb_refl in Hf. cbv zeta. set (addr := reg_pair_to_64 _ _) in *.
    destruct (Z.eqb_spec addr (wrap addr)) as [Ew|]; [|done]. destruct (range_ok (wrap addr) 4) eqn:Eok; [|done].
    rewrite Ew. split; [apply wrap_range|]. exact Eok.
Qed.

(** C27: What S-mode sends through a channel reaches the PuC only
    vetted. Whatever message S-mode sends, and whatever other harts do with
    the channel meanwhile but setting it up at the same time (whose unlocked
    updates of what is denied can undo each other's), what this hart puts into the request queue are
    the monitor's own questions and doorbell set-up, and the message itself
    only if it is a service of the group with a length the service takes;
    and if it is about a system MSI, only if the PuC has the MSI, it is
    neither the monitor's doorbell nor one that M-mode should handle, and a
    target it sets is memory S-mode could write itself. *)
Theorem rpmi_send_vetted (range_ok : Z -> Z -> bool) (fuel : nat) (i : nat) (msg_id : Z) (buf resp : list Z)
    (len resp_max rc n : Z) (want_resp : bool) (w w' : W) :
  live w i -> 0 <= msg_id -> Forall (fun x => 0 <= x) buf ->
  mpxy_rpmi_send range_ok fuel i msg_id buf len resp_max want_resp w = Some (rc, resp, n, w') ->
  let req := take (Z.to_nat (len / 4)) buf in
  live w' i /\
  exists l, own_log w' = own_log w ++ l /\
    Forall (fun m => own w i m \/ is_request (r_group (chan w i)) msg_id req m /\ vetted range_ok w i msg_id buf len) l.
Proof.
  intros Hl Hid Hbuf Hsend req.
  assert (0 <= nth 0 buf 0) as Hnn by (destruct Hbuf; cbn; lia).
  enough (post (mpxy_rpmi_send range_ok fuel i msg_id buf len resp_max want_resp w)
    (fun x => moves (fun m => own w i m \/ is_request (r_group (chan w i)) msg_id req m /\ vetted range_ok w i msg_id buf len) w x.2)) as H.
  { specialize (H _ Hsend). split; [by apply (moves_live _ _ _ _ Hl H)|]. apply H. }
  clear Hsend rc resp n w'. set (P := fun m => _ \/ _). unfold mpxy_rpmi_send.
  destruct (truth (rules_check _ _ _)) eqn:Erules; [apply post_ret, log_refl|].
  destruct (rules_check_ok w i msg_id len Hl Hid Erules) as (Hm & Hlen & Hrule).
  eapply post_bind; [by apply (ask_puc_spec fuel i w)|]. intros [rc1 w1] [H1 Ha]. cbn [fst snd] in *.
  assert (moves P w w1) as HP by (eapply log_mono; [|exact H1]; intros m; by left).
  destruct (truth rc1) eqn:Erc; [by apply post_ret|].
  assert (rc1 = 0) as -> by (unfold truth in Erc; by apply negb_false_iff, Z.eqb_eq in Erc). specialize (Ha eq_refl).
  destruct (moves_live _ _ _ i Hl H1) as [Hl1 (Ep & Eg & _)].
  destruct (truth (filter_check _ _ _ _)) eqn:Ef; [destruct (_ || _); by apply post_ret|].
  assert (vetted range_ok w i msg_id buf len) as Hv.
  { split_and!; [lia|lia|done|done|]. intros Hg Hge. destruct (filter_ok range_ok w1 i msg_id buf Hl1 Ha Ef Hnn) as (H2 & H3 & H4); [congruence|done|].
    rewrite Ep in *. split_and!; [done| |done]. intros [Ek|Em]; apply H3; [left|by right].
    rewrite Ek. symmetry. apply (moves_doorbell _ _ _ _ H1). }
  assert (forall m, requested (puc_of w1 i) (r_group (chan w1 i)) msg_id req m -> P m) as Hreq.
  { intros m [H|H]; [right; by rewrite <- Eg|left; left]. by rewrite <- Ep, <- (moves_doorbell _ _ _ _ H1). }
  destruct (negb want_resp).
  - eapply post_bind; [apply post_log|]. intros [rc2 w2] H2. apply post_ret. eapply log_trans; [exact HP|].
    eapply log_mono; [|exact H2]. intros m H. apply Hreq. by left.
  - eapply post_bind; [apply (request_log 2 fuel)|]. intros [[rc2 [resp got]] w2] H2. apply post_ret. eapply log_trans; [exact HP|].
    eapply log_mono; [|exact H2]. exact Hreq.
Qed.

(** ** The other operations keep the pool *)

(** What concerns the events of a channel alone *)
Lemma events_update_moves (w : W) (i : nat) (f : mpxy_rpmi -> mpxy_rpmi) :
  (forall r, r_puc (f r) = r_puc r /\ r_group (f r) = r_group r /\ r_rules (f r) = r_rules r /\ r_state (f r) = r_state r /\
     r_probed (f r) = r_probed r) ->
  moves nothing w (chan_update i f w).
Proof.
  intros Hf. unfold chan_update. set (p' := (get_pool w) <| p_chans := alter f i (p_chans (get_pool w)) |>).
  assert (forall r, chan_stable r (f r)) as Hst.
  { intros r. destruct (Hf r) as (E1 & E2 & E3 & E4 & E5). unfold chan_stable. by rewrite E1, E2, E3, E4. }
  assert (forall r, chan_ok (get_pool w) r -> chan_ok p' (f r)) as Hok.
  { intros r H. destruct (Hf r) as (E1 & E2 & E3 & E4 & E5). unfold chan_ok in *. by rewrite E1, E2, E3, E4, E5. }
  split; [split_and!|].
  - rewrite get_set_pool. intros Hp. apply Forall_lookup_2. intros j r Hj. change (p_chans p') with (alter f i (p_chans (get_pool w))) in Hj.
    destruct (decide (i = j)) as [<-|Hne].
    + rewrite list_lookup_alter_eq in Hj. apply fmap_Some in Hj as (r0 & Hj & ->). apply Hok. exact (Forall_lookup_1 _ _ _ _ Hp Hj).
    + rewrite list_lookup_alter_ne in Hj by done. exact (Forall_lookup_1 _ _ _ _ Hp Hj).
  - rewrite get_set_pool. apply Forall2_same_length_lookup_2; [by rewrite <- (length_alter f (p_chans (get_pool w)) i)|].
    intros j r r' Hj Hj'. change (p_chans p') with (alter f i (p_chans (get_pool w))) in Hj'. destruct (decide (i = j)) as [<-|Hne].
    + rewrite list_lookup_alter_eq, Hj in Hj'. by injection Hj' as <-.
    + rewrite list_lookup_alter_ne in Hj' by done. by assert (r = r') as -> by congruence.
  - by rewrite get_set_pool.
  - exists []. rewrite app_nil_r. split; [apply env_pool|done].
Qed.

Lemma sink_loop_keeps (fuel : nat) (ev : list Z) (len off : Z) (r : mpxy_rpmi) :
  let r' := sink_loop fuel ev len off r in
  r_puc r' = r_puc r /\ r_group r' = r_group r /\ r_rules r' = r_rules r /\ r_state r' = r_state r /\ r_probed r' = r_probed r.
Proof.
  revert off r. induction fuel as [|fuel IH]; intros off r; cbn [sink_loop]; [done|]. destruct (off <? len); [|done].
  cbv zeta. match goal with |- context [sink_loop fuel ev len ?o ?x] => destruct (IH o x) as (-> & -> & -> & -> & ->) end.
  by destruct (_ <=? _).
Qed.

Lemma event_sink_moves (i : nat) (events : list Z) (len : Z) (w : W) : moves nothing w (mpxy_rpmi_event_sink i events len w).
Proof.
  unfold mpxy_rpmi_event_sink. eapply log_trans; [apply (events_update_moves w i (sink_events events len))|].
  { intros r. apply sink_loop_keeps. }
  set (w1 := chan_update _ _ _). unfold core_update. split; [|exists []; rewrite app_nil_r; split; [apply env_pool|done]].
  rewrite get_set_pool. by split_and!.
Qed.

Lemma get_events_moves (fuel : nat) (i : nat) (max : Z) (w : W) :
  live w i -> post (mpxy_rpmi_get_events fuel i max w) (fun x => moves nothing w x.2).
Proof.
  intros Hl. unfold mpxy_rpmi_get_events. eapply post_bind; [apply rpmi_poll_log|]. intros w1 H1.
  destruct (fetch_events (chan w1 i) max) as [[buf out] r] eqn:E. apply post_ret. cbn [snd].
  destruct (moves_live _ _ _ i Hl H1) as [Hl1 _]. eapply log_trans; [exact H1|].
  assert (r_puc r = r_puc (chan w1 i) /\ r_group r = r_group (chan w1 i) /\ r_rules r = r_rules (chan w1 i) /\ r_state r = r_state (chan w1 i) /\
     r_probed r = r_probed (chan w1 i)) as (E1 & E2 & E3 & E4 & E5).
  { unfold fetch_events in E. destruct (fetch_loop _ _ _ _ _). by injection E as <- <- <-. }
  apply chan_update_moves; [done| |].
  - unfold chan_stable. by rewrite E1, E2, E3, E4.
  - pose proof (chan_ok_live w1 i Hl1) as H. unfold chan_ok in *. by rewrite E1, E2, E3, E4, E5.
Qed.

Lemma read_attr_moves (fuel : nat) (i : nat) (id : Z) (w : W) :
  live w i -> post (mpxy_rpmi_read_attr fuel i id w) (fun x => moves (own w i) w x.2).
Proof.
  intros Hl. unfold mpxy_rpmi_read_attr. destruct (_ <? _); [apply post_ret, log_refl|]. destruct (_ =? _); [apply post_ret, log_refl|].
  eapply post_bind; [by apply ask_puc_spec|]. intros [rc w1] [H1 _]. destruct (truth rc); by apply post_ret.
Qed.

End Vetted.

(** ** The channels there are *)

Section Added.
Context {AR : Arch} {KC : Kconfig} {MX : MpxyConfig} {MR : MpxyRpmiConfig} {PU : Puc} {CF : RpmiConfig}.

(** The contexts are known by their phandles *)
Definition contexts_named (p : rpmi_pool) : Prop := forall a, x_phandle (p_contexts p a) = a.

Definition proxied (p : rpmi_pool) : Prop := Forall (fun r => monitors_own (r_group r) = false) (p_chans p).

Lemma sink_register_ctx (ctx : rpmi_context) (group : Z) (sink : nat) :
  x_phandle (rpmi_event_sink_register ctx group sink).2 = x_phandle ctx /\
  x_p2a_doorbell_sysmsi (rpmi_event_sink_register ctx group sink).2 = x_p2a_doorbell_sysmsi ctx.
Proof. unfold rpmi_event_sink_register. by destruct (_ =? _). Qed.

Lemma channel_add_ok (p : rpmi_pool) (puc id group owner : Z) :
  contexts_named p -> pool_ok p -> proxied p ->
  let p' := (mpxy_rpmi_channel_add p puc id group owner).2 in contexts_named p' /\ pool_ok p' /\ proxied p'.
Proof.
  intros Hn Hok Hpr. unfold mpxy_rpmi_channel_add. destruct (monitors_own group) eqn:Eg; [done|]. destruct (_ =? _); [done|].
  destruct (mpxy_channel_register _ _) as [rc core]. destruct (truth rc); [done|].
  destruct (sink_register_ctx (p_contexts p puc) group (length (p_chans p))) as [Ex Ed].
  destruct (rpmi_event_sink_register _ _ _) as [rc2 ctx]. cbn [snd] in Ex, Ed. cbv zeta. set (core' := if truth rc2 then _ else _).
  set (p' := _ <| p_chans := _ |>). cbn [snd].
  assert (forall a, x_phandle (p_contexts p' a) = a /\ doorbell_of p' a = doorbell_of p a) as Ectx.
  { intros a. unfold doorbell_of. change (p_contexts p' a) with (<[puc := ctx]> (p_contexts p) a). destruct (decide (puc = a)) as [<-|Hne].
    - rewrite fn_lookup_insert, Ex, Ed. by split.
    - rewrite fn_lookup_insert_ne by done. by split. }
  split_and!; [intros a; apply Ectx| |].
  - change (Forall (chan_ok p') (p_chans p ++ [new_rpmi puc id group])). apply Forall_app. split.
    + eapply Forall_impl; [exact Hok|]. intros r (H1 & H2 & H3 & H4). split_and!; [done|done|apply Ectx|]. intros Hp Hg.
      destruct (H4 Hp Hg) as [H5 H6]. split; [done|]. intros k Hk [Ek|Em]; apply H6; [done|left|done|by right]. rewrite Ek. apply Ectx.
    + constructor; [|done]. split_and!; [done|cbn; by rewrite length_replicate|apply Ectx|done].
  - change (Forall (fun r => monitors_own (r_group r) = false) (p_chans p ++ [new_rpmi puc id group])). apply Forall_app. by split; [|constructor].
Qed.

Lemma probes_ok (domain_by_phandle : Z -> option Z) (p : rpmi_pool) (nodes : list (option channel_node)) :
  contexts_named p -> pool_ok p -> proxied p ->
  let p' := foldl (fun p node => (mpxy_rpmi_probe domain_by_phandle p node).2) p nodes in contexts_named p' /\ pool_ok p' /\ proxied p'.
Proof.
  revert p. induction nodes as [|node nodes IH]; intros p Hn Hok Hpr; cbn [foldl]; [done|].
  assert (let p1 := (mpxy_rpmi_probe domain_by_phandle p node).2 in contexts_named p1 /\ pool_ok p1 /\ proxied p1) as (H1 & H2 & H3).
  { unfold mpxy_rpmi_probe. destruct node as [[[mboxes|] id dom]|]; [|done..]. destruct id as [[|id ids]|]; [done| |done].
    destruct (rpmi_client_from_fdt _ _) as [rc [[ctx group]|]]; [|done]. destruct (mpxy_channel_owner_from_fdt _ _); [|done].
    by apply channel_add_ok. }
  by apply IH.
Qed.

(** Whatever nodes the device tree has, the groups that are the
    monitor's own business (BASE, CPPC, SYSTEM_RESET, SYSTEM_SUSPEND, HSM)
    never become a channel, and every channel that there is is in order. *)
Theorem rpmi_groups_proxied (domain_by_phandle : Z -> option Z) (p : rpmi_pool) (nodes : list (option channel_node)) :
  contexts_named p -> p_chans p = [] ->
  let p' := foldl (fun p node => (mpxy_rpmi_probe domain_by_phandle p node).2) p nodes in
  pool_ok p' /\ forall r, r ∈ p_chans p' -> monitors_own (r_group r) = false.
Proof.
  intros Hn Hnil p'. assert (pool_ok p /\ proxied p) as [Hok Hpr] by (unfold pool_ok, proxied; by rewrite Hnil).
  destruct (probes_ok domain_by_phandle p nodes Hn Hok Hpr) as (_ & Hok' & Hpr'). split; [done|]. by apply Forall_forall.
Qed.

End Added.
