(* ===== verification/MpxyRpmiExample.v ===== *)
(** An RPMI channel at work: a platform microcontroller with four system
    MSIs, of which one is M-mode's and one the doorbell. *)

From stdpp Require Import functions.
From S2P Require Import Prelude Arch Rpmi Mpxy MpxyRpmi MpxyRpmiEvents MpxyRpmiProps.

#[local] Open Scope Z_scope.

Module FourMsis.

#[local] Instance rv64 : Arch := RV64.
#[local] Instance config : Kconfig := qemu_virt.
#[local] Program Instance mpxy_config : MpxyConfig := {| CONFIG_MPXY_MSG_MAX_LEN := 1024 |}.
Next Obligation. lia. Qed.
#[local] Instance rpmi_config : RpmiConfig := {| CONFIG_RPMI_MAX_DATA_LEN := 512; rpmi_timeout := 100 |}.
#[local] Program Instance channels_config : MpxyRpmiConfig := {|
  CONFIG_MPXY_RPMI_MAX_CHANNELS := 8; CONFIG_MPXY_RPMI_MAX_SYSMSI := 128; CONFIG_MPXY_RPMI_EVENT_BUF_SIZE := 16;
  CONFIG_RPMI_TIMEOUT_US := 1000 |}.
Next Obligation. done. Qed.
Next Obligation. done. Qed.

#[local] Instance puc : Puc := {| nr_msi := fun _ => 4; mmode_msi := fun _ k => k =? 2 |}.

(** The PuC: a request waits for its answer *)
Record world : Type := World { o_pool : rpmi_pool; o_pending : option message; o_log : list message }.

Definition answer (m : message) : list Z :=
  if h_group m.1 =? RPMI_GROUP_BASE then [0; 0x10000]
  else if h_service m.1 =? RPMI_SYSMSI_GET_ATTRIBUTES then [0; 4; 0; 0]
  else if h_service m.1 =? RPMI_SYSMSI_GET_MSI_ATTRIBUTES then [0; if nth 0 m.2 0 =? 2 then 1 else 0; 0; 0; 0; 0; 0]
  else [0].

#[local] Instance transport : Transport world := {|
  tp_send := fun w q hdr data =>
    match q with
    | RPMI_QUEUE_A2P_REQ => (RPMI_SUCCESS, World (o_pool w) (Some (hdr, data)) (o_log w ++ [(hdr, data)]))
    | _ => (RPMI_SUCCESS, w)
    end;
  tp_recv := fun w q max =>
    match q, o_pending w with
    | RPMI_QUEUE_P2A_ACK, Some m =>
        (RPMI_SUCCESS, RpmiHdr (h_group m.1) (h_service m.1) RPMI_MSG_ACKNOWLEDGEMENT (4 * Z.of_nat (length (answer m))) (h_token m.1),
         answer m, World (o_pool w) None (o_log w))
    | _, _ => (RPMI_ERR_NO_DATA, RpmiHdr 0 0 0 0 0, [], w)
    end;
|}.
#[local] Instance machine : Machine world := {|
  timer_available := false;
  timer_now := fun _ => 0;
  mc_relax := fun w => w;
  mc_state := fun _ => ClientState 5 true false;
  mc_set_state := fun _ w => w;
  mc_lock := fun w => w;
  mc_rang := fun w => (false, w);
  mc_relock := fun w => (false, w);
  mc_sink := fun _ _ _ w => w;
  mc_msi_request := fun w => (None, w);
|}.
#[local] Instance pool_access : PoolAccess world := {|
  get_pool := o_pool;
  set_pool := fun p w => World p (o_pending w) (o_log w);
|}.

#[local] Program Instance env : Env world := {| own_log := o_log |}.
Next Obligation. done. Qed.
Next Obligation. intros. apply log_refl. Qed.
Next Obligation. intros. apply log_refl. Qed.
Next Obligation. intros. apply log_refl. Qed.
Next Obligation. intros. apply log_refl. Qed.
Next Obligation. intros. apply log_refl. Qed.
Next Obligation. intros. apply log_refl. Qed.
Next Obligation. intros. apply log_refl. Qed.
Next Obligation.
  intros q max w. destruct q; cbn; try apply log_refl. destruct (o_pending w); [|apply log_refl]. split; [done|].
  exists []. cbn. by rewrite app_nil_r.
Qed.
Next Obligation.
  intros q hdr data w. destruct q; cbn; try apply log_refl. split; [done|]. exists [(hdr, data)]. split; [done|]. by repeat constructor.
Qed.

(** A call that succeeds returns what the PuC answers. *)
Lemma call_answers (fuel : nat) (ctx : rpmi_context) (w w' : world) (group service words : Z) (req resp : list Z) :
  rpmi_call fuel ctx w group service req words = Some (RPMI_SUCCESS, resp, w') ->
  exists hdr, h_group hdr = group /\ h_service hdr = service /\ resp = answer (hdr, req).
Proof.
  unfold rpmi_call, rpmi_request. cbn [rpmi_request_at]. set (len := 4 * Z.of_nat (length req)).
  destruct (truth (request_check (Some ctx) len)) eqn:Ec.
  { cbn [mbind option_bind call_result fst]. rewrite Ec. intros H. assert (request_check (Some ctx) len = RPMI_SUCCESS) as E by congruence.
    by rewrite E in Ec. }
  unfold take_token. cbn [mc_lock mc_state mc_set_state machine s_next_token]. set (hdr := request_hdr _ _ _ _ _).
  intros H. exists hdr. split_and!; [done|done|]. revert H. unfold request_locked, send_locked. destruct fuel as [|fuel]; [done|].
  cbn [send_loop tp_send transport Z.eqb RPMI_SUCCESS RPMI_ERR_BUSY mbind option_bind truth negb].
  unfold wait_ack. cbn [wait_loop tp_recv transport o_pending Z.eqb RPMI_SUCCESS RPMI_ERR_NO_DATA truth negb andb].
  unfold acks. cbn [h_token h_group h_service h_flags fst]. rewrite !Z.eqb_refl.
  change (Z.land RPMI_MSG_ACKNOWLEDGEMENT RPMI_FLAGS_TYPE_MASK =? RPMI_MSG_ACKNOWLEDGEMENT) with true. cbn [negb orb].
  destruct (h_datalen _ <? 4) eqn:E4; cbn [mbind option_bind]; (destruct (context_unlock _ _ _) as [w1|]; cbn [mbind option_bind]; [|done]).
  - change (truth RPMI_ERR_IO) with true. cbv iota. cbn [mbind option_bind]. intros H. simplify_eq.
  - change (truth RPMI_SUCCESS) with false. cbv iota. destruct (doorbell_setup _ _ _ _) as [w2|]; cbn [mbind option_bind]; [|done].
    destruct (_ && _); [destruct (rpmi_poll _ _ _) as [w3|]; cbn [mbind option_bind]; [|done]|]; cbn [mbind option_bind fst snd]; congruence.
Qed.

#[local] Program Instance answers_same : PucAnswers world.
Next Obligation.
  intros fuel ctx w w' resp H. destruct (call_answers _ _ _ _ _ _ _ _ _ H) as (hdr & Eg & Es & ->). unfold answer. cbn [fst].
  rewrite Eg, Es. done.
Qed.
Next Obligation.
  intros fuel ctx w w' index resp H. destruct (call_answers _ _ _ _ _ _ _ _ _ H) as (hdr & Eg & Es & ->). unfold answer. cbn [fst snd].
  rewrite Eg, Es. cbn [nth]. cbn. by destruct (index =? 2).
Qed.

(** A channel of the SYSTEM_MSI group, of a PuC whose doorbell is MSI 1 *)
Definition contexts (a : Z) : rpmi_context := RpmiContext a 128 false 1 [].
Definition blank : rpmi_pool := RpmiPool [] [9] contexts (Mpxy [] (fun _ => shmem_none) 0 false (fun _ => 0) tt).
Definition node (group id : Z) : option channel_node := Some (ChannelNode (Some [9; group]) (Some [id]) 0).
Definition nodes : list (option channel_node) := [node RPMI_GROUP_HSM 0x1000; node RPMI_GROUP_SYSTEM_MSI 0x1001; None].
Definition probed_pool : rpmi_pool := foldl (fun p node => (mpxy_rpmi_probe (fun _ => None) p node).2) blank nodes.
Definition start : world := World probed_pool None [].

Lemma rpmi_groups_proxied_witness :
  pool_ok probed_pool /\ forall r, r ∈ p_chans probed_pool -> monitors_own (r_group r) = false.
Proof. apply (rpmi_groups_proxied (fun _ => None) blank nodes); [intros a; reflexivity|reflexivity]. Defined.

Lemma start_live : live start 0.
Proof. split; [vm_compute; lia|]. apply (probes_ok (fun _ => None) blank nodes); [done|constructor..]. Qed.

(** S-mode's memory is the second gigabyte *)
Definition range_ok (addr size : Z) : bool := (0x40000000 <=? addr) && (addr + size <=? 0x80000000).
Definition set_target (index : Z) : list Z := [index; 0x40000000; 0; 7].
Definition result (index : Z) : option (Z * list Z * Z * world) :=
  mpxy_rpmi_send range_ok 20 0 RPMI_SYSMSI_SET_MSI_TARGET (set_target index) 16 1024 true start.

(** MSI 0 is S-mode's; the doorbell and M-mode's are not; there is no 4 *)
Lemma results :
  (fun x => (x.1.1.1, x.1.1.2)) <$> result 0 = Some (SBI_SUCCESS, [0]) /\
  (fun x => (x.1.1.1, x.1.1.2)) <$> result 1 = Some (SBI_SUCCESS, [low32 RPMI_ERR_DENIED]) /\
  (fun x => (x.1.1.1, x.1.1.2)) <$> result 2 = Some (SBI_SUCCESS, [low32 RPMI_ERR_DENIED]) /\
  (fun x => (x.1.1.1, x.1.1.2)) <$> result 4 = Some (SBI_SUCCESS, [low32 RPMI_ERR_INVALID_PARAM]).
Proof. vm_compute. by split_and!. Qed.

Definition finish : world := match result 0 with Some x => x.2 | None => start end.

Lemma finish_result :
  mpxy_rpmi_send range_ok 20 0 RPMI_SYSMSI_SET_MSI_TARGET (set_target 0) 16 1024 true start = Some (0, [0], 4, finish).
Proof. vm_compute. reflexivity. Qed.
Lemma target_words : Forall (fun x => 0 <= x) (set_target 0).
Proof. repeat constructor; vm_compute; discriminate. Qed.
Lemma target_service : 0 <= RPMI_SYSMSI_SET_MSI_TARGET.
Proof. vm_compute. discriminate. Qed.

Lemma rpmi_send_vetted_witness :
  let req := take (Z.to_nat (16 / 4)) (set_target 0) in
  live finish 0 /\
  exists l, own_log finish = own_log start ++ l /\
    Forall (fun m => own start 0 m \/ is_request (r_group (chan start 0)) RPMI_SYSMSI_SET_MSI_TARGET req m /\
      vetted range_ok start 0 RPMI_SYSMSI_SET_MSI_TARGET (set_target 0) 16) l.
Proof.
  exact (rpmi_send_vetted range_ok 20 0 RPMI_SYSMSI_SET_MSI_TARGET (set_target 0) [0] 16 1024 0 4 true start finish
    start_live target_service target_words finish_result).
Defined.

(** Sixteen bytes of buffer: the third event does not fit, the fourth does *)
Definition quiet_channel : mpxy_rpmi := new_rpmi 9 0x1001 RPMI_GROUP_CLOCK.
Definition history : list event_op :=
  [Notified [0x10000; 0x20004; 5]; Notified [0x30004; 6; 0x40000]; Fetched 8; Fetched 4080].

Lemma rpmi_events_fifo_witness :
  let '(outs, q) := run queue_op (Queue [] 0) history in
  ((run code_op quiet_channel history).1 = fetched <$> outs /\ buffers (run code_op quiet_channel history).2 q /\
   sublist ((outs ≫= (fun x => x.1.1)) ++ qu_events q) (sent history)) /\
  outs = [([[0x10000]], 2, 1); ([[0x20004; 5]; [0x40000]], 0, 0)].
Proof.
  assert (CONFIG_MPXY_RPMI_EVENT_BUF_SIZE < 2 ^ 32) as Hsize by reflexivity.
  assert (empty_buffer quiet_channel) as Hempty by (split_and!; reflexivity).
  pose proof (rpmi_events_fifo history quiet_channel Hsize Hempty) as H.
  destruct (run queue_op (Queue [] 0) history) as [outs q] eqn:E. split; [exact H|].
  assert ((run queue_op (Queue [] 0) history).1 = outs) as <- by (rewrite E; reflexivity). vm_compute. reflexivity.
Defined.

(** Two harts that set the channel up at once: one has loaded the word to deny
    MSI 1 in it, the other denies MSI 3, and the store of the first takes that
    back. *)
Theorem deny_lost :
  let loaded := GroupState 4 [0] in let other := msi_deny loaded 3 in
  let stored := other <| gs_msi_denied := gs_msi_denied (msi_deny loaded 1) |> in
  msi_denied other 3 = true /\ msi_denied stored 1 = true /\ msi_denied stored 3 = false.
Proof. vm_compute. split_and!; reflexivity. Qed.

End FourMsis.
