(* ===== verification/Reqfwd.v ===== *)
(** Requests forwarded between domains, [services/mpxy/reqfwd.c].

    A message lives on the stack of the hart that sends it: the queue links
    such frames, by pointers.  A frame is known by a number; a link is the
    head of the queue ([None]) or the [next] field of a frame ([Some]).  What
    is done with the lock held is one step, and so is each load of a state;
    but the stores of a completion are steps of their own
    ([complete_store]), since the sender looks without the lock. *)

From stdpp Require Import functions relations.
From S2P Require Import Prelude Arch Rpmi.

#[local] Open Scope Z_scope.

Inductive message_state : Set := QUEUED | RETRIEVED | COMPLETED | FAILED.
#[export] Instance message_state_eq_dec : EqDecision message_state.
Proof. solve_decision. Defined.

(** [state < COMPLETED] *)
Definition waiting (st : message_state) : bool := match st with QUEUED | RETRIEVED => true | _ => false end.

(** [struct reqfwd_message]; the lengths of the data are its lengths *)
Record reqfwd_message : Set := ReqfwdMessage {
  f_next : option nat;
  f_state : message_state;
  f_msg : list Z;
  f_rsp : list Z;
  f_rsp_max : Z;
}.
#[export] Instance reqfwd_message_eta : Settable reqfwd_message := fun m =>
  ReqfwdMessage (f_next m) (f_state m) (f_msg m) (f_rsp m) (f_rsp_max m).

(** [struct reqfwd_queue], with the frames; a server is a number *)
Record reqfwd_queue : Type := ReqfwdQueue {
  q_head : option nat;
  q_tail : option nat;
  q_count : Z;
  q_frames : nat -> reqfwd_message;
  q_served : bool;
  q_servers : list nat;
}.
#[export] Instance reqfwd_queue_eta : Settable reqfwd_queue := fun q =>
  ReqfwdQueue (q_head q) (q_tail q) (q_count q) (q_frames q) (q_served q) (q_servers q).

Definition frame_update (q : reqfwd_queue) (m : nat) (f : reqfwd_message -> reqfwd_message) : reqfwd_queue :=
  q <| q_frames := <[m := f (q_frames q m)]> (q_frames q) |>.

(** [*p] and [*p = v] *)
Definition deref (q : reqfwd_queue) (p : option nat) : option nat :=
  match p with None => q_head q | Some m => f_next (q_frames q m) end.
Definition set_link (q : reqfwd_queue) (p v : option nat) : reqfwd_queue :=
  match p with None => q <| q_head := v |> | Some m => frame_update q m (fun x => x <| f_next := v |>) end.

(** [reqfwd_serve]: at most two servers *)
Definition MAX_SERVERS : nat := 2.
Definition reqfwd_serve (q : reqfwd_queue) (server : nat) : option reqfwd_queue :=
  if (MAX_SERVERS <=? length (q_servers q))%nat then None
  else
    let q := if q_served q then q else q <| q_tail := None |> in
    Some (q <| q_servers := q_servers q ++ [server] |> <| q_served := true |>).

(** [reqfwd_queue_of] *)
Definition reqfwd_queue_of (queues : option (list reqfwd_queue)) (keys key : nat) : option reqfwd_queue :=
  match queues with
  | Some qs => if (key <? keys)%nat then q ← qs !! key; if q_served q then Some q else None else None
  | None => None
  end.

(** The walk of [unlink]: the link that points to [m], or the last *)
Fixpoint link_to (fuel : nat) (q : reqfwd_queue) (p : option nat) (m : nat) : option nat :=
  match fuel with
  | O => p
  | S fuel =>
      match deref q p with
      | None => p
      | Some x => if (x =? m)%nat then p else link_to fuel q (Some x) m
      end
  end.
Definition unlink (q : reqfwd_queue) (m : nat) : reqfwd_queue :=
  let p := link_to (S (Z.to_nat (q_count q))) q None m in
  match deref q p with
  | None => q
  | Some _ =>
      let q := set_link q p (f_next (q_frames q m)) in
      let q := if bool_decide (q_tail q = Some m) then q <| q_tail := p |> else q in
      q <| q_count := q_count q - 1 |>
  end.

(** [reqfwd_send], up to the unlock: the frame is set up and goes to the
    tail; is it the first? *)
Definition send_enqueue (q : reqfwd_queue) (m : nat) (msg : list Z) (rsp_max : Z) : bool * reqfwd_queue :=
  let q := q <| q_frames := <[m := ReqfwdMessage None QUEUED msg [] rsp_max]> (q_frames q) |> in
  let first := q_count q =? 0 in
  let q := q <| q_count := q_count q + 1 |> in
  let q := set_link q (q_tail q) (Some m) in
  (first, q <| q_tail := Some m |>).
(** The servers to notify *)
Definition send_notifies (q : reqfwd_queue) (first : bool) : list nat := if first then q_servers q else [].
(** The timeout, with the lock: the state it finds *)
Definition send_timeout (q : reqfwd_queue) (m : nat) : message_state * reqfwd_queue :=
  let st := f_state (q_frames q m) in
  (st, if waiting st then unlink q m else q).
(** What it returns, with the response *)
Definition send_result (q : reqfwd_queue) (m : nat) (st : message_state) : Z * list Z :=
  (if bool_decide (st = COMPLETED) then RPMI_SUCCESS else RPMI_ERR_BAD_RANGE, f_rsp (q_frames q m)).

(** [reqfwd_retrieve]: the data from [start] on and how much is left *)
Definition reqfwd_retrieve (q : reqfwd_queue) (start max : Z) : Z * list Z * Z * reqfwd_queue :=
  match q_head q with
  | None => (RPMI_ERR_NO_DATA, [], 0, q)
  | Some m =>
      let msg := f_msg (q_frames q m) in
      let len := Z.of_nat (length msg) in
      if len <=? start then (RPMI_ERR_INVALID_PARAM, [], 0, q)
      else
        let returned := Z.min (len - start) max in
        (RPMI_SUCCESS, take (Z.to_nat returned) (drop (Z.to_nat start) msg), len - start - returned,
         frame_update q m (fun x => x <| f_state := RETRIEVED |>))
  end.

(** The stores of [reqfwd_complete] to the queue and the frame, in order: the
    sender loads the state without the lock. *)
Inductive complete_store : Set :=
| SUnlink (m : nat)
| SResponse (m : nat) (rsp : list Z)
| SState (m : nat) (st : message_state).
Definition do_store (q : reqfwd_queue) (op : complete_store) : reqfwd_queue :=
  match op with
  | SUnlink m => unlink q m
  | SResponse m rsp => frame_update q m (fun x => x <| f_rsp := rsp |>)
  | SState m st => frame_update q m (fun x => x <| f_state := st |>)
  end.

(** [reqfwd_complete] up to its first store: the result and the stores *)
Definition complete_begin (q : reqfwd_queue) (rsp : list Z) : Z * list complete_store :=
  match q_head q with
  | Some m =>
      if bool_decide (f_state (q_frames q m) = RETRIEVED) then
        let fits := Z.of_nat (length rsp) <=? f_rsp_max (q_frames q m) in
        (if fits then RPMI_SUCCESS else RPMI_ERR_BAD_RANGE,
         [SUnlink m; SResponse m (if fits then rsp else []); SState m (if fits then COMPLETED else FAILED)])
      else (RPMI_ERR_NO_DATA, [])
  | None => (RPMI_ERR_NO_DATA, [])
  end.
(** [reqfwd_complete]: the result and what is left in the queue *)
Definition reqfwd_complete (q : reqfwd_queue) (rsp : list Z) : Z * Z * reqfwd_queue :=
  let '(rc, stores) := complete_begin q rsp in
  let q := foldl do_store q stores in
  (rc, q_count q, q).

Definition reqfwd_count (q : reqfwd_queue) : Z := q_count q.
Definition reqfwd_peek (q : reqfwd_queue) (max : Z) : list Z :=
  match q_head q with
  | Some m => take (Z.to_nat (Z.min (Z.of_nat (length (f_msg (q_frames q m)))) max)) (f_msg (q_frames q m))
  | None => []
  end.

(** ** The list the links make *)

(** From [p] over the frames [l] to [t] *)
Fixpoint path (q : reqfwd_queue) (p : option nat) (l : list nat) (t : option nat) : Prop :=
  match l with
  | [] => deref q p = t
  | x :: l => deref q p = Some x /\ path q (Some x) l t
  end.

Definition chain (q : reqfwd_queue) (l : list nat) : Prop :=
  path q None l None /\ q_tail q = last l /\ NoDup l /\ q_count q = Z.of_nat (length l).

(** The link after [l] *)
Definition end_link (p : option nat) (l : list nat) : option nat := match last l with Some x => Some x | None => p end.

Lemma path_app (q : reqfwd_queue) (p t : option nat) (l1 l2 : list nat) (x : nat) :
  path q p (l1 ++ x :: l2) t <-> path q p l1 (Some x) /\ path q (Some x) l2 t.
Proof. revert p. induction l1 as [|y l1 IH]; intros p; cbn; [done|]. rewrite IH. tauto. Qed.

Lemma deref_set (q : reqfwd_queue) (p p' v : option nat) : deref (set_link q p v) p' = if decide (p = p') then v else deref q p'.
Proof.
  destruct p as [m|], p' as [m'|]; cbn [deref set_link]; try done.
  unfold frame_update. change (q_frames (q <| q_frames := ?f |>)) with f. destruct (decide (m = m')) as [->|Hne].
  - rewrite decide_True by done. by rewrite fn_lookup_insert.
  - rewrite decide_False by congruence. by rewrite fn_lookup_insert_ne.
Qed.

Lemma path_other (q : reqfwd_queue) (loc v p t : option nat) (l : list nat) :
  loc <> p -> loc ∉ Some <$> l -> path (set_link q loc v) p l t <-> path q p l t.
Proof.
  revert p. induction l as [|x l IH]; intros p Hp Hl; cbn [path]; rewrite deref_set, decide_False by done; [done|].
  rewrite fmap_cons, elem_of_cons in Hl. rewrite IH by tauto. done.
Qed.

Lemma end_cons (p : option nat) (x : nat) (l : list nat) : end_link p (x :: l) = end_link (Some x) l.
Proof. unfold end_link. destruct l as [|y l]; [done|]. change (last (x :: y :: l)) with (last (y :: l)).
  destruct (last (y :: l)) eqn:E; [done|]. by apply last_None in E.
Qed.

Lemma end_in (p : option nat) (l : list nat) : end_link p l = p \/ end_link p l ∈ Some <$> l.
Proof.
  unfold end_link. destruct (last l) as [x|] eqn:E; [right|by left]. apply list_elem_of_fmap. exists x. split; [done|]. by apply last_Some_elem_of.
Qed.

(** The last link changed: the path ends elsewhere *)
Lemma path_end (q : reqfwd_queue) (v p t : option nat) (l : list nat) :
  NoDup (p :: (Some <$> l)) -> path q p l t -> path (set_link q (end_link p l) v) p l v.
Proof.
  revert p. induction l as [|x l IH]; intros p Hnd Hpath; cbn [path] in *.
  - unfold end_link. cbn [last]. by rewrite deref_set, decide_True by done.
  - rewrite fmap_cons in Hnd. apply NoDup_cons in Hnd as [Hp Hnd]. destruct Hpath as [E Hpath]. rewrite end_cons. split; [|by apply IH].
    rewrite deref_set, decide_False; [done|]. intros <-. destruct (end_in (Some x) l) as [E'|E']; apply Hp; rewrite ?E';
      [by apply elem_of_cons; left|by apply elem_of_cons; right].
Qed.

Lemma nodup_links (l : list nat) : NoDup l -> NoDup (None :: (Some <$> l)).
Proof.
  intros H. apply NoDup_cons. split; [|by apply NoDup_fmap_2; [intros ? ? [= ->]|]].
  intros E. by apply list_elem_of_fmap in E as (x & ? & _).
Qed.

Lemma set_link_rest (q : reqfwd_queue) (p v : option nat) :
  q_tail (set_link q p v) = q_tail q /\ q_count (set_link q p v) = q_count q.
Proof. by destruct p. Qed.

(** Fields that are no links do not matter to the path *)
Lemma path_ext (q q' : reqfwd_queue) (p t : option nat) (l : list nat) :
  (forall p', p' = p \/ p' ∈ Some <$> l -> deref q p' = deref q' p') -> path q p l t -> path q' p l t.
Proof.
  revert p. induction l as [|x l IH]; intros p E; cbn [path]; rewrite <- (E p) by (by left); [done|].
  intros [H1 H2]. split; [done|]. apply IH; [|done]. intros p' Hp'. apply E. rewrite fmap_cons, elem_of_cons. tauto.
Qed.

Lemma chain_ext (q q' : reqfwd_queue) (l : list nat) :
  (forall p, deref q p = deref q' p) -> q_tail q = q_tail q' -> q_count q = q_count q' -> chain q l -> chain q' l.
Proof.
  intros Hd Ht Hc (H1 & H2 & H3 & H4). split_and!; [|congruence|done|congruence]. by apply (path_ext q q'); [intros; apply Hd|].
Qed.

Lemma enqueue_chain (q : reqfwd_queue) (l : list nat) (m : nat) (msg : list Z) (rsp_max : Z) :
  chain q l -> m ∉ l ->
  let r := send_enqueue q m msg rsp_max in chain r.2 (l ++ [m]) /\ r.1 = bool_decide (l = []).
Proof.
  intros (Hp & Ht & Hnd & Hc) Hm. unfold send_enqueue. cbn [fst snd].
  set (q1 := q <| q_frames := _ |>). set (q2 := q1 <| q_count := _ |>).
  assert (path q2 None l None) as Hp2.
  { apply (path_ext q); [|done]. intros p' [->|Hin]; [done|]. apply list_elem_of_fmap in Hin as (x & -> & Hx). cbn [deref].
    change (q_frames q2) with (<[m := ReqfwdMessage None QUEUED msg [] rsp_max]> (q_frames q)).
    rewrite fn_lookup_insert_ne; [done|]. by intros ->. }
  assert (q_tail q2 = end_link None l) as Et.
  { change (q_tail q2) with (q_tail q). rewrite Ht. unfold end_link. by destruct (last l). }
  split; [|change (q_count q1) with (q_count q); rewrite Hc; destruct l; [done|]; rewrite bool_decide_eq_false_2 by done; apply Z.eqb_neq; cbn; lia].
  rewrite Et. set (q3 := set_link q2 (end_link None l) (Some m)).
  split_and!.
  - apply (path_ext q3); [done|]. apply path_app. split; [by apply path_end with None; [apply nodup_links|]|]. cbn [path].
    unfold q3. rewrite deref_set, decide_False.
    + cbn [deref]. change (q_frames q2) with (<[m := ReqfwdMessage None QUEUED msg [] rsp_max]> (q_frames q)).
      by rewrite fn_lookup_insert.
    + destruct (end_in None l) as [->|E]; [done|]. intros E'. rewrite E' in E. apply list_elem_of_fmap in E as (x & [= <-] & Hx). done.
  - change (Some m = last (l ++ [m])). by rewrite last_snoc.
  - apply NoDup_app. split_and!; [done| |apply NoDup_singleton]. intros x Hx ->%list_elem_of_singleton. done.
  - change (q_count q3 = Z.of_nat (length (l ++ [m]))). unfold q3. rewrite (proj2 (set_link_rest _ _ _)).
    change (q_count q2) with (q_count q + 1). rewrite Hc, length_app. cbn [length]. lia.
Qed.

(** The walk finds the link that points to [m] *)
Lemma link_to_spec (fuel : nat) (q : reqfwd_queue) (p : option nat) (l1 l2 : list nat) (m : nat) (t : option nat) :
  path q p (l1 ++ m :: l2) t -> m ∉ l1 -> (length l1 < fuel)%nat -> link_to fuel q p m = end_link p l1.
Proof.
  revert p fuel. induction l1 as [|x l1 IH]; intros p [|fuel] Hp Hm Hf; cbn [length] in Hf; try lia; cbn [app path] in Hp; cbn [link_to].
  - destruct Hp as [-> _]. by rewrite Nat.eqb_refl.
  - destruct Hp as [-> Hp]. apply not_elem_of_cons in Hm as [Hne Hm]. rewrite (proj2 (Nat.eqb_neq x m)) by congruence.
    rewrite end_cons. apply IH; [done|done|lia].
Qed.

(** Everything of a frame but its link stays. *)
Lemma frame_same (f : reqfwd_message) : f = f <| f_next := f_next f |>.
Proof. by destruct f. Qed.

Lemma set_link_frame (q : reqfwd_queue) (p v : option nat) (x : nat) :
  exists n, q_frames (set_link q p v) x = (q_frames q x) <| f_next := n |>.
Proof.
  destruct p as [m|]; [|exists (f_next (q_frames q x)); exact (frame_same (q_frames q x))].
  destruct (decide (m = x)) as [->|Hne].
  - exists v. exact (fn_lookup_insert (q_frames q) x _).
  - exists (f_next (q_frames q x)). etrans; [exact (fn_lookup_insert_ne (q_frames q) m x _ Hne)|]. apply frame_same.
Qed.

Lemma unlink_frame (q : reqfwd_queue) (m x : nat) : exists n, q_frames (unlink q m) x = (q_frames q x) <| f_next := n |>.
Proof.
  unfold unlink. destruct (deref q _); [|exists (f_next (q_frames q x)); exact (frame_same (q_frames q x))].
  destruct (set_link_frame q (link_to (S (Z.to_nat (q_count q))) q None m) (f_next (q_frames q m)) x) as [k E]. exists k.
  by destruct (bool_decide _).
Qed.

Lemma last_app_cons {A} (l1 l2 : list A) (x : A) : last (l1 ++ x :: l2) = last (x :: l2).
Proof. rewrite last_app. by destruct (last (x :: l2)) eqn:E; [|apply last_None in E]. Qed.

Lemma unlink_chain (q : reqfwd_queue) (l1 l2 : list nat) (m : nat) :
  chain q (l1 ++ m :: l2) -> chain (unlink q m) (l1 ++ l2).
Proof.
  intros (Hp & Ht & Hnd & Hc). apply NoDup_app in Hnd as (Hnd1 & Hd & Hnd2). apply NoDup_cons in Hnd2 as [Hm2 Hnd2].
  assert (m ∉ l1) as Hm1 by (intros H; by apply (Hd m H), elem_of_cons; left).
  unfold unlink. rewrite (link_to_spec _ _ _ _ _ _ _ Hp Hm1) by (rewrite Hc, length_app; cbn [length]; lia).
  apply path_app in Hp as [Hp1 Hp2]. set (p := end_link None l1).
  assert (deref q p = Some m) as Edp.
  { clear -Hp1. unfold p. revert Hp1. generalize (@None nat). induction l1 as [|x l1 IH]; intros p0 H; [done|].
    destruct H as [_ H]. rewrite end_cons. by apply IH. }
  rewrite Edp. set (q1 := set_link q p (f_next (q_frames q m))).
  assert (path q1 None (l1 ++ l2) None) as Hp'.
  { assert (path q1 None l1 (f_next (q_frames q m))) as H1 by (by apply path_end with (Some m); [apply nodup_links|]).
    destruct l2 as [|y l2]; [cbn [path deref] in Hp2; rewrite app_nil_r; by rewrite Hp2 in H1|].
    destruct Hp2 as [E2 Hp2]. cbn [deref] in E2. rewrite E2 in H1. apply path_app. split; [done|].
    apply path_other; [| |done].
    - unfold p. destruct (end_in None l1) as [->|E]; [done|]. intros E'. rewrite E' in E.
      apply list_elem_of_fmap in E as (x & [= <-] & Hx). apply (Hd y Hx). by rewrite !elem_of_cons; auto.
    - unfold p. destruct (end_in None l1) as [->|E]; [intros E'; by apply list_elem_of_fmap in E' as (x & ? & _)|].
      intros E'. apply list_elem_of_fmap in E as (x & Ex & Hx), E' as (x' & Ex' & Hx'). rewrite Ex in Ex'. injection Ex' as <-.
      apply (Hd x Hx). by rewrite !elem_of_cons; auto. }
  destruct (set_link_rest q p (f_next (q_frames q m))) as [Et1 Ec1]. fold q1 in Et1, Ec1.
  assert (q_count q1 - 1 = Z.of_nat (length (l1 ++ l2))) as Hc'.
  { rewrite Ec1, Hc, !length_app. cbn [length]. lia. }
  assert (NoDup (l1 ++ l2)) as Hnd'.
  { apply NoDup_app. split_and!; [done| |done]. intros x Hx Hx2. apply (Hd x Hx). by apply elem_of_cons; right. }
  rewrite last_app_cons in Ht. destruct l2 as [|y l2].
  - rewrite bool_decide_eq_true_2 by (by rewrite Et1, Ht). rewrite app_nil_r in *. split_and!; [by apply (path_ext q1)| |done|done].
    change (p = last l1). unfold p, end_link. by destruct (last l1).
  - rewrite bool_decide_eq_false_2; cycle 1.
    { rewrite Et1, Ht. change (last (m :: y :: l2)) with (last (y :: l2)). intros E. apply last_Some_elem_of in E. done. }
    split_and!; [by apply (path_ext q1)| |done|done]. change (q_tail q1 = last (l1 ++ y :: l2)).
    by rewrite last_app_cons, Et1, Ht.
Qed.
