(* ===== verification/ReqfwdProps.v ===== *)
(** Requests forwarded between domains: any number of senders, whatever the
    servers do, one critical section at a time, and a completion one store at
    a time.  The queue is a list of frames whose senders wait, and a response reaches the sender whose
    message was retrieved. *)

From stdpp Require Import functions relations.
From S2P Require Import Prelude Arch Rpmi Reqfwd.

#[local] Open Scope Z_scope.
#[local] Set Warnings "-clear-no-such-hyp".

(** Where a sender is: not in [reqfwd_send] (it has returned this), or in
    its loop *)
Inductive sender : Type := SReturned (rc : Z) (rsp : list Z) | SWait (msg : list Z).

(** [fw_last] is the frame of the last message that was retrieved; [fw_busy]
    are the stores of the completion that has the lock, [] with none. *)
Record forward : Type := Forward {
  fw_q : reqfwd_queue;
  fw_pc : nat -> sender;
  fw_last : option nat;
  fw_busy : list complete_store;
}.
#[export] Instance forward_eta : Settable forward := fun s => Forward (fw_q s) (fw_pc s) (fw_last s) (fw_busy s).

Definition is_waiting (s : forward) (m : nat) : bool := match fw_pc s m with SWait _ => true | _ => false end.

(** With the lock: a message goes in, a timeout, a retrieval, a completion
    begins; the stores of a completion; and without it, a sender's look at
    its state. *)
Inductive forward_step : forward -> forward -> Prop :=
  | FSend s m msg rsp_max : fw_busy s = [] -> is_waiting s m = false ->
      forward_step s (Forward (send_enqueue (fw_q s) m msg rsp_max).2 (<[m := SWait msg]> (fw_pc s)) (fw_last s) [])
  | FSeen s m r : is_waiting s m = true -> waiting (f_state (q_frames (fw_q s) m)) = false ->
      r = send_result (fw_q s) m (f_state (q_frames (fw_q s) m)) ->
      forward_step s (Forward (fw_q s) (<[m := SReturned r.1 r.2]> (fw_pc s)) (fw_last s) (fw_busy s))
  | FTimeout s m st q r : fw_busy s = [] -> is_waiting s m = true -> send_timeout (fw_q s) m = (st, q) ->
      r = (if waiting st then (RPMI_ERR_TIMEOUT, []) else send_result q m st) ->
      forward_step s (Forward q (<[m := SReturned r.1 r.2]> (fw_pc s)) (fw_last s) [])
  | FRetrieve s start max rc data remaining q : fw_busy s = [] -> reqfwd_retrieve (fw_q s) start max = (rc, data, remaining, q) ->
      forward_step s (Forward q (fw_pc s) (if rc =? RPMI_SUCCESS then q_head (fw_q s) else fw_last s) [])
  | FComplete s rsp : fw_busy s = [] -> forward_step s (s <| fw_busy := (complete_begin (fw_q s) rsp).2 |>)
  | FStore s op ops : fw_busy s = op :: ops -> forward_step s (s <| fw_q := do_store (fw_q s) op |> <| fw_busy := ops |>).

Definition forward_initial (s : forward) : Prop :=
  chain (fw_q s) [] /\ (forall m, is_waiting s m = false) /\ fw_busy s = [].

(** ** The invariant *)

(** The frame that is out of the queue and has no answer yet *)
Definition unlinked (s : forward) : option nat :=
  match fw_busy s with SResponse m _ :: _ | SState m _ :: _ => Some m | _ => None end.
(** What is left of a completion: all of it, of the first message of the
    queue; or all but the first store, of a frame whose sender waits. *)
Definition busy_ok (s : forward) (l : list nat) : Prop :=
  match fw_busy s with
  | [] => True
  | [SUnlink m; SResponse m1 _; SState m2 st] =>
      m1 = m /\ m2 = m /\ waiting st = false /\ head l = Some m /\ f_state (q_frames (fw_q s) m) = RETRIEVED
  | [SResponse m _; SState m2 st] =>
      m2 = m /\ waiting st = false /\ is_waiting s m = true /\ f_state (q_frames (fw_q s) m) = RETRIEVED
  | [SState m st] => waiting st = false /\ is_waiting s m = true /\ f_state (q_frames (fw_q s) m) = RETRIEVED
  | _ => False
  end.

Record forward_ok (s : forward) (l : list nat) : Prop := {
  fo_chain : chain (fw_q s) l;
  (* the frames of the queue are those of the senders that wait and have no answer *)
  fo_waits (m : nat) : m ∈ l <-> is_waiting s m = true /\ waiting (f_state (q_frames (fw_q s) m)) = true /\ unlinked s <> Some m;
  (* a sender's frame holds its message *)
  fo_msg (m : nat) (msg : list Z) : fw_pc s m = SWait msg -> f_msg (q_frames (fw_q s) m) = msg;
  (* the message that is out with a server is the first, and the last one retrieved *)
  fo_out (m : nat) : m ∈ l -> f_state (q_frames (fw_q s) m) = RETRIEVED -> fw_last s = Some m /\ q_head (fw_q s) = Some m;
  fo_busy : busy_ok s l;
}.

(** Frames that differ in their link at most *)
Definition same_frames (q q' : reqfwd_queue) : Prop := forall x, exists n, q_frames q' x = (q_frames q x) <| f_next := n |>.

Lemma same_fields (q q' : reqfwd_queue) (x : nat) : same_frames q q' ->
  f_state (q_frames q' x) = f_state (q_frames q x) /\ f_msg (q_frames q' x) = f_msg (q_frames q x) /\
  f_rsp (q_frames q' x) = f_rsp (q_frames q x) /\ f_rsp_max (q_frames q' x) = f_rsp_max (q_frames q x).
Proof. intros H. destruct (H x) as [n ->]. done. Qed.

Lemma chain_head (q : reqfwd_queue) (l : list nat) : chain q l -> q_head q = head l.
Proof. intros [Hp _]. destruct l as [|x l]; [done|]. by destruct Hp. Qed.

Lemma unlink_fields (q : reqfwd_queue) (m x : nat) :
  f_state (q_frames (unlink q m) x) = f_state (q_frames q x) /\ f_msg (q_frames (unlink q m) x) = f_msg (q_frames q x) /\
  f_rsp (q_frames (unlink q m) x) = f_rsp (q_frames q x) /\ f_rsp_max (q_frames (unlink q m) x) = f_rsp_max (q_frames q x).
Proof. apply same_fields. intros y. apply unlink_frame. Qed.

Lemma enqueue_fields (q : reqfwd_queue) (m : nat) (msg : list Z) (rsp_max : Z) (x : nat) :
  let f := q_frames (send_enqueue q m msg rsp_max).2 x in
  if decide (x = m) then f_state f = QUEUED /\ f_msg f = msg
  else f_state f = f_state (q_frames q x) /\ f_msg f = f_msg (q_frames q x).
Proof.
  unfold send_enqueue. cbn [snd]. set (q1 := q <| q_frames := _ |>). set (q2 := q1 <| q_count := _ |>).
  change (q_frames (?a <| q_tail := ?b |>)) with (q_frames a).
  destruct (set_link_frame q2 (q_tail q2) (Some m) x) as [n ->].
  change (q_frames q2) with (<[m := ReqfwdMessage None QUEUED msg [] rsp_max]> (q_frames q)). case_decide as E.
  - subst x. by rewrite fn_lookup_insert.
  - by rewrite fn_lookup_insert_ne by congruence.
Qed.

Lemma is_waiting_set (s : forward) (m x : nat) (c : sender) (q : reqfwd_queue) (o : option nat) (b : list complete_store) :
  is_waiting (Forward q (<[m := c]> (fw_pc s)) o b) x =
    if decide (x = m) then match c with SWait _ => true | _ => false end else is_waiting s x.
Proof.
  unfold is_waiting. cbn [fw_pc]. case_decide as E; [subst x; by rewrite fn_lookup_insert|by rewrite fn_lookup_insert_ne by congruence].
Qed.

Lemma forward_send_ok (s : forward) (l : list nat) (m : nat) (msg : list Z) (rsp_max : Z) :
  forward_ok s l -> fw_busy s = [] -> is_waiting s m = false ->
  forward_ok (Forward (send_enqueue (fw_q s) m msg rsp_max).2 (<[m := SWait msg]> (fw_pc s)) (fw_last s) []) (l ++ [m]).
Proof.
  intros [Hc Hw Hm Ho _] Hb Hn. unfold unlinked in Hw. rewrite Hb in Hw.
  assert (m ∉ l) as Hnl by (intros H; apply Hw in H as [H _]; congruence).
  pose proof (enqueue_fields (fw_q s) m msg rsp_max) as Hf. destruct (enqueue_chain _ l m msg rsp_max Hc Hnl) as [Hc' _].
  constructor; cbn [fw_q fw_pc fw_last]; [done|..|done].
  - intros x. rewrite is_waiting_set, elem_of_app, list_elem_of_singleton. specialize (Hf x). cbv zeta in Hf.
    case_decide as E; [subst x; destruct Hf as [-> _]; cbn; naive_solver|]. destruct Hf as [-> _]. rewrite Hw. naive_solver.
  - intros x msg'. specialize (Hf x). cbv zeta in Hf. case_decide as E.
    + subst x. rewrite fn_lookup_insert. intros [= <-]. apply Hf.
    + rewrite fn_lookup_insert_ne by congruence. destruct Hf as [_ ->]. apply Hm.
  - intros x Hx. specialize (Hf x). cbv zeta in Hf. case_decide as E; [destruct Hf as [-> _]; done|]. destruct Hf as [-> _].
    intros Hst. apply elem_of_app in Hx as [Hx|Hx%list_elem_of_singleton]; [|done]. destruct (Ho x Hx Hst) as [-> Hh]. split; [done|].
    rewrite (chain_head _ _ Hc'). rewrite (chain_head _ _ Hc) in Hh. destruct l; [done|]. exact Hh.
Qed.

(** A sender that returns with the lock free leaves the queue, or is not in it. *)
Lemma return_ok (s : forward) (l l' : list nat) (m : nat) (q : reqfwd_queue) (r : Z * list Z) :
  forward_ok s l -> fw_busy s = [] -> chain q l' -> (forall x, x ∈ l' <-> x ∈ l /\ x <> m) ->
  (forall x, f_state (q_frames q x) = f_state (q_frames (fw_q s) x) /\ f_msg (q_frames q x) = f_msg (q_frames (fw_q s) x)) ->
  (forall x, x ∈ l' -> q_head (fw_q s) = Some x -> q_head q = Some x) ->
  forward_ok (Forward q (<[m := SReturned r.1 r.2]> (fw_pc s)) (fw_last s) []) l'.
Proof.
  intros [Hc Hw Hm Ho _] Hb Hc' Hl Hf Hhead. unfold unlinked in Hw. rewrite Hb in Hw.
  constructor; cbn [fw_q fw_pc fw_last]; [done|..|done].
  - intros x. rewrite is_waiting_set, Hl, Hw, (proj1 (Hf x)). case_decide; [subst; naive_solver|naive_solver].
  - intros x msg. rewrite (proj2 (Hf x)). destruct (decide (m = x)) as [->|Hne]; [by rewrite fn_lookup_insert|].
    rewrite fn_lookup_insert_ne by done. apply Hm.
  - intros x Hx. rewrite (proj1 (Hf x)). intros Hst. apply Hl in Hx as [Hx Hne]. destruct (Ho x Hx Hst) as [H1 H2].
    split; [done|]. apply Hhead; [|done]. by apply Hl.
Qed.

(** A sender that sees its answer is not in the queue, nor the one that is
    being answered. *)
Lemma seen_ok (s : forward) (l : list nat) (m : nat) (r : Z * list Z) :
  forward_ok s l -> is_waiting s m = true -> waiting (f_state (q_frames (fw_q s) m)) = false ->
  forward_ok (Forward (fw_q s) (<[m := SReturned r.1 r.2]> (fw_pc s)) (fw_last s) (fw_busy s)) l.
Proof.
  intros [Hc Hw Hm Ho Hb] Hwm Hst.
  assert (Hne : forall x, f_state (q_frames (fw_q s) x) = RETRIEVED -> x <> m) by (intros x E ->; by rewrite E in Hst).
  constructor; cbn [fw_q fw_pc fw_last]; [done|..|].
  - intros x. change (unlinked (Forward _ _ _ (fw_busy s))) with (unlinked s). rewrite is_waiting_set, Hw.
    case_decide; [subst; naive_solver congruence|done].
  - intros x msg. destruct (decide (m = x)) as [->|Hx]; [by rewrite fn_lookup_insert|]. rewrite fn_lookup_insert_ne by done. apply Hm.
  - apply Ho.
  - unfold busy_ok in *. cbn [fw_busy fw_q]. destruct (fw_busy s) as [|[m1|m1 ?|m1 ?] [|[m2|m2 ?|m2 ?] [|[m3|m3 ?|m3 ?] [|? ?]]]]; try done;
      rewrite is_waiting_set.
    + destruct Hb as (-> & ? & ? & ?). rewrite decide_False by (by apply Hne). done.
    + destruct Hb as (? & ? & ?). rewrite decide_False by (by apply Hne). done.
Qed.

Lemma elem_split (l : list nat) (m : nat) : m ∈ l -> exists l1 l2, l = l1 ++ m :: l2.
Proof. intros H. by apply list_elem_of_split in H. Qed.

Lemma timeout_ok (s : forward) (l : list nat) (m : nat) (r : Z * list Z) :
  forward_ok s l -> fw_busy s = [] -> is_waiting s m = true ->
  exists l', forward_ok (Forward (send_timeout (fw_q s) m).2 (<[m := SReturned r.1 r.2]> (fw_pc s)) (fw_last s) []) l'.
Proof.
  intros Hok Hb Hwm. pose proof Hok as [Hc Hw Hm Ho _]. unfold unlinked in Hw. rewrite Hb in Hw. unfold send_timeout. cbn [snd].
  destruct (waiting (f_state (q_frames (fw_q s) m))) eqn:Est.
  - assert (m ∈ l) as Hin by (by apply Hw). destruct (elem_split l m Hin) as (l1 & l2 & ->).
    pose proof Hc as (_ & _ & Hnd & _). apply NoDup_app in Hnd as (_ & Hd & Hnd2). apply NoDup_cons in Hnd2 as [Hm2 _].
    assert (m ∉ l1) as Hm1 by (intros H; by apply (Hd m H), elem_of_cons; left).
    pose proof (unlink_chain _ _ _ _ Hc) as Hc'. exists (l1 ++ l2). apply (return_ok s (l1 ++ m :: l2)); try done.
    + intros x. rewrite !elem_of_app, elem_of_cons. naive_solver.
    + intros x. destruct (unlink_fields (fw_q s) m x) as (-> & -> & _). done.
    + intros x Hx. rewrite (chain_head _ _ Hc'), (chain_head _ _ Hc). destruct l1 as [|y l1]; [|done].
      cbn. intros [= ->]. done.
  - exists l. apply (return_ok s l); try done.
    intros x. split; [|tauto]. intros Hx. split; [done|]. intros ->. apply Hw in Hx as (_ & Hx & _). congruence.
Qed.

(** Fields that are no links change *)
Lemma update_deref (q : reqfwd_queue) (m : nat) (f : reqfwd_message -> reqfwd_message) :
  (forall x, f_next (f x) = f_next x) -> forall p, deref q p = deref (frame_update q m f) p.
Proof.
  intros Hf [x|]; [|done]. cbn [deref]. unfold frame_update. change (q_frames (q <| q_frames := ?g |>)) with g.
  destruct (decide (m = x)) as [->|Hne]; [by rewrite fn_lookup_insert, Hf|by rewrite fn_lookup_insert_ne].
Qed.

Lemma update_chain (q : reqfwd_queue) (m : nat) (f : reqfwd_message -> reqfwd_message) (l : list nat) :
  (forall x, f_next (f x) = f_next x) -> chain q l -> chain (frame_update q m f) l.
Proof. intros Hf. apply chain_ext; [by apply update_deref|done|done]. Qed.

Lemma update_frame (q : reqfwd_queue) (m x : nat) (f : reqfwd_message -> reqfwd_message) :
  q_frames (frame_update q m f) x = if decide (x = m) then f (q_frames q m) else q_frames q x.
Proof.
  unfold frame_update. change (q_frames (q <| q_frames := ?g |>)) with g.
  case_decide as E; [subst; by rewrite fn_lookup_insert|by rewrite fn_lookup_insert_ne by congruence].
Qed.

Lemma retrieve_ok (s : forward) (l : list nat) (start max rc remaining : Z) (data : list Z) (q : reqfwd_queue) :
  forward_ok s l -> fw_busy s = [] -> reqfwd_retrieve (fw_q s) start max = (rc, data, remaining, q) ->
  forward_ok (Forward q (fw_pc s) (if rc =? RPMI_SUCCESS then q_head (fw_q s) else fw_last s) []) l.
Proof.
  intros [Hc Hw Hm Ho _] Hb. unfold unlinked in Hw. rewrite Hb in Hw. unfold reqfwd_retrieve. pose proof (chain_head _ _ Hc) as Eh.
  destruct (q_head (fw_q s)) as [m|] eqn:Em; [|by intros [= <- <- <- <-]; constructor; cbn [fw_q fw_pc fw_last]; rewrite ?Em].
  destruct (_ <=? start); [by intros [= <- <- <- <-]; constructor; cbn [fw_q fw_pc fw_last]; rewrite ?Em|].
  intros H. injection H as <- _ _ <-. cbn [Z.eqb RPMI_SUCCESS].
  destruct l as [|m' l]; [done|]. injection Eh as <-.
  assert (is_waiting s m = true /\ waiting (f_state (q_frames (fw_q s) m)) = true /\ None <> Some m) as (Hwm & Hst & _) by (apply Hw, elem_of_cons; by left).
  constructor; cbn [fw_q fw_pc fw_last]; [|..|done].
  - by apply update_chain.
  - intros x. rewrite Hw, update_frame. case_decide as E; [subst x; cbn; naive_solver|done].
  - intros x msg Hx. rewrite update_frame. case_decide as E; [subst x|]; by apply Hm.
  - intros x Hx. rewrite update_frame. case_decide as E; [subst x; intros _; split; [done|exact Em]|]. intros Hr.
    destruct (Ho x Hx Hr) as [_ H2]. congruence.
Qed.

(** What a completion that finds a message does *)
Lemma complete_found (q : reqfwd_queue) (m : nat) (l : list nat) (rsp : list Z) :
  chain q (m :: l) -> f_state (q_frames q m) = RETRIEVED ->
  let '(rc, more, q') := reqfwd_complete q rsp in
  let fits := Z.of_nat (length rsp) <=? f_rsp_max (q_frames q m) in
  rc = (if fits then RPMI_SUCCESS else RPMI_ERR_BAD_RANGE) /\ more = Z.of_nat (length l) /\ chain q' l /\
  f_state (q_frames q' m) = (if fits then COMPLETED else FAILED) /\ f_rsp (q_frames q' m) = (if fits then rsp else []) /\
  f_msg (q_frames q' m) = f_msg (q_frames q m) /\
  (forall x, x <> m -> exists n, q_frames q' x = (q_frames q x) <| f_next := n |>).
Proof.
  intros Hc Hst. unfold reqfwd_complete, complete_begin. rewrite (chain_head _ _ Hc). cbn [head]. rewrite bool_decide_eq_true_2 by done.
  set (fits := _ <=? _). cbn [foldl do_store].
  set (q1 := unlink q m). set (q2 := frame_update q1 m _). set (q3 := frame_update q2 m _). cbv zeta.
  assert (chain q1 l) as Hc1 by (by apply (unlink_chain q [])).
  assert (chain q3 l) as Hc3 by (by apply update_chain, update_chain).
  destruct (unlink_fields q m m) as (_ & Emsg & _). split_and!; try done.
  - by destruct Hc3 as (_ & _ & _ & ->).
  - unfold q3. by rewrite update_frame, decide_True.
  - unfold q3. rewrite update_frame, decide_True by done. unfold q2. by rewrite update_frame, decide_True.
  - unfold q3. rewrite update_frame, decide_True by done. unfold q2. by rewrite update_frame, decide_True.
  - intros x Hx. unfold q3, q2. rewrite update_frame, decide_False, update_frame, decide_False by done. apply unlink_frame.
Qed.

Lemma begin_ok (s : forward) (l : list nat) (rsp : list Z) :
  forward_ok s l -> fw_busy s = [] -> forward_ok (s <| fw_busy := (complete_begin (fw_q s) rsp).2 |>) l.
Proof.
  intros [Hc Hw Hm Ho Hb] Eb. unfold unlinked in Hw. rewrite Eb in Hw. pose proof (chain_head _ _ Hc) as Eh.
  constructor; [done|..].
  - intros x. rewrite Hw. change (is_waiting (s <| fw_busy := _ |>) x) with (is_waiting s x).
    change (fw_q (s <| fw_busy := _ |>)) with (fw_q s). unfold unlinked, complete_begin.
    change (fw_busy (s <| fw_busy := ?a |>)) with a. destruct (q_head (fw_q s)); [|done]. by destruct (bool_decide _).
  - exact Hm.
  - exact Ho.
  - unfold busy_ok, complete_begin. change (fw_busy (s <| fw_busy := ?a |>)) with a. change (fw_q (s <| fw_busy := _ |>)) with (fw_q s).
    rewrite Eh. destruct (head l) as [m|]; [|done]. case_bool_decide as E; [|done]. cbn [snd]. split_and!; try done. by case_match.
Qed.

(** One store of a completion *)
Lemma store_ok (s : forward) (l : list nat) (op : complete_store) (ops : list complete_store) :
  forward_ok s l -> fw_busy s = op :: ops -> exists l', forward_ok (s <| fw_q := do_store (fw_q s) op |> <| fw_busy := ops |>) l'.
Proof.
  intros [Hc Hw Hm Ho Hb] Eb. unfold busy_ok in Hb. unfold unlinked in Hw. rewrite Eb in Hb, Hw.
  destruct op as [m|m rsp|m st].
  - destruct ops as [|[m1|m1 rsp|m1 ?] [|[m2|m2 ?|m2 st] [|? ?]]]; try done. destruct Hb as (-> & -> & Hst & Hh & Er).
    destruct l as [|x l]; [done|]. injection Hh as ->. pose proof Hc as (_ & _ & Hnd & _). apply NoDup_cons in Hnd as [Hml Hnd].
    pose proof (unlink_fields (fw_q s) m) as Hf. assert (is_waiting s m = true) as Hwm by (apply Hw, elem_of_cons; by left).
    exists l. constructor; cbn [do_store]; change (fw_q (s <| fw_q := ?a |> <| fw_busy := _ |>)) with a.
    + by apply (unlink_chain (fw_q s) []).
    + intros x. rewrite (proj1 (Hf x)). change (is_waiting (s <| fw_q := _ |> <| fw_busy := _ |>) x) with (is_waiting s x).
      change (unlinked (s <| fw_q := _ |> <| fw_busy := _ |>)) with (Some m). specialize (Hw x). rewrite elem_of_cons in Hw.
      split; [intros Hx; assert (x <> m) by (by intros ->); naive_solver|]. intros (H1 & H2 & H3). destruct (proj2 Hw) as [->|?]; naive_solver.
    + intros x msg Hx. rewrite (proj1 (proj2 (Hf x))). by apply Hm.
    + intros x Hx. rewrite (proj1 (Hf x)). intros Hr. destruct (Ho x) as [_ H2]; [by apply elem_of_cons; right|done|].
      rewrite (chain_head _ _ Hc) in H2. injection H2 as ->. done.
    + unfold busy_ok. change (fw_busy (s <| fw_q := _ |> <| fw_busy := ?a |>)) with a.
      split_and!; [done|done|done|exact (eq_trans (proj1 (Hf m)) Er)].
  - destruct ops as [|[?|?|m2 st] [|? ?]]; try done. destruct Hb as (-> & Hst & Hwm & Er).
    exists l. constructor; cbn [do_store]; change (fw_q (s <| fw_q := ?a |> <| fw_busy := _ |>)) with a.
    + by apply update_chain.
    + intros x. rewrite Hw, update_frame. change (is_waiting (s <| fw_q := _ |> <| fw_busy := _ |>) x) with (is_waiting s x).
      change (unlinked (s <| fw_q := _ |> <| fw_busy := _ |>)) with (Some m). case_decide; [by subst|done].
    + intros x msg Hx. rewrite update_frame. case_decide; [subst x|]; by apply Hm.
    + intros x Hx. rewrite update_frame. case_decide; [subst x|]; by apply Ho.
    + unfold busy_ok. change (fw_busy (s <| fw_q := _ |> <| fw_busy := ?a |>)) with a.
      split_and!; [done|done|]. etrans; [|exact Er]. change (fw_q (s <| fw_q := ?a |> <| fw_busy := _ |>)) with a.
      by rewrite update_frame, decide_True.
  - destruct ops as [|? ?]; try done. destruct Hb as (Hst & Hwm & Er).
    exists l. constructor; cbn [do_store]; change (fw_q (s <| fw_q := ?a |> <| fw_busy := _ |>)) with a.
    + by apply update_chain.
    + intros x. rewrite Hw, update_frame. change (is_waiting (s <| fw_q := _ |> <| fw_busy := _ |>) x) with (is_waiting s x).
      change (unlinked (s <| fw_q := _ |> <| fw_busy := _ |>)) with (@None nat). case_decide as E; [subst x|naive_solver].
      change (f_state (_ <| f_state := st |>)) with st. rewrite Hst. naive_solver.
    + intros x msg Hx. rewrite update_frame. case_decide; [subst x|]; by apply Hm.
    + intros x Hx. rewrite update_frame. case_decide; [subst x|by apply Ho]. change (f_state (_ <| f_state := st |>)) with st. by intros ->.
    + done.
Qed.

Lemma forward_step_ok (s s' : forward) (l : list nat) : forward_ok s l -> forward_step s s' -> exists l', forward_ok s' l'.
Proof.
  intros Hok Hst. destruct Hst as [s m msg rsp_max Hb Hn|s m r Hn Hd Er|s m st q r Hb Hn E Er|s start max rc data rem q Hb E|s rsp Hb|s op ops Hb].
  - exists (l ++ [m]). by apply forward_send_ok.
  - exists l. by apply seen_ok.
  - destruct (timeout_ok s l m r Hok Hb Hn) as [l' H]. rewrite E in H. by exists l'.
  - exists l. by eapply retrieve_ok.
  - exists l. by apply begin_ok.
  - by eapply store_ok.
Qed.

Lemma forward_steps_ok (s0 s : forward) : forward_initial s0 -> rtc forward_step s0 s -> exists l, forward_ok s l.
Proof.
  intros (Hc & Hn & Hb) Hs. assert (exists l, forward_ok s0 l) as H0.
  { exists []. constructor; [done|..].
    - intros m. rewrite Hn. split; [by intros ?%not_elem_of_nil|by intros [? _]].
    - intros m msg E. specialize (Hn m). unfold is_waiting in Hn. by rewrite E in Hn.
    - by intros m ?%not_elem_of_nil.
    - unfold busy_ok. by rewrite Hb. }
  clear Hc Hn Hb. induction Hs as [|x y z Hxy _ IH]; [done|]. apply IH. destruct H0 as [l H0]. by eapply forward_step_ok.
Qed.

(** The frames an enqueue and an unlink write to: the last one, and the one
    before; both are in the queue. *)
Lemma enqueue_frames (q : reqfwd_queue) (l : list nat) (x m : nat) (msg : list Z) (rsp_max : Z) :
  chain q l -> m ∉ l -> m <> x -> q_frames (send_enqueue q x msg rsp_max).2 m = q_frames q m.
Proof.
  intros (_ & Ht & _) Hm Hne. unfold send_enqueue. cbn [snd]. set (q2 := _ <| q_count := _ |>).
  change (q_frames (?a <| q_tail := ?b |>)) with (q_frames a).
  assert (q_frames q2 m = q_frames q m) as E2 by (exact (fn_lookup_insert_ne (q_frames q) x m _ (not_eq_sym Hne))).
  change (q_tail q2) with (q_tail q). rewrite Ht. destruct (last l) as [t|] eqn:El; [|exact E2]. cbn [set_link].
  rewrite update_frame, decide_False; [exact E2|]. intros ->. by apply Hm, last_Some_elem_of.
Qed.

Lemma unlink_frames (q : reqfwd_queue) (l1 l2 : list nat) (x m : nat) :
  chain q (l1 ++ x :: l2) -> m ∉ l1 ++ x :: l2 -> q_frames (unlink q x) m = q_frames q m.
Proof.
  intros (Hp & Ht & Hnd & Hc) Hm. apply NoDup_app in Hnd as (_ & Hd & _).
  assert (x ∉ l1) as Hx1 by (intros H; by apply (Hd x H), elem_of_cons; left).
  unfold unlink. rewrite (link_to_spec _ _ _ _ _ _ _ Hp Hx1) by (rewrite Hc, length_app; cbn [length]; lia).
  destruct (deref q _); [|done]. change (q_frames (?a <| q_count := ?b |>)) with (q_frames a).
  assert (q_frames (set_link q (end_link None l1) (f_next (q_frames q x))) m = q_frames q m) as E; [|by destruct (bool_decide _)].
  unfold end_link. destruct (last l1) as [y|] eqn:El; [|done]. cbn [set_link]. rewrite update_frame, decide_False; [done|].
  intros ->. apply Hm, elem_of_app. left. by apply last_Some_elem_of.
Qed.

(** C32: no frame is touched once its sender has returned. After any senders,
    timeouts, retrievals and completions in any order, a sender looking at its
    state between any two stores of a completion: the links of the queue lead
    over frames whose senders wait, each once; the count is their number; and
    a step changes no frame of a sender that is not in [reqfwd_send]. *)
Theorem reqfwd_frames_live (s0 s s' : forward) (m : nat) :
  forward_initial s0 -> rtc forward_step s0 s -> forward_step s s' ->
  (exists l, path (fw_q s) None l None /\ NoDup l /\ reqfwd_count (fw_q s) = Z.of_nat (length l) /\
     Forall (fun x => is_waiting s x = true) l) /\
  (is_waiting s m = false -> is_waiting s' m = false -> q_frames (fw_q s') m = q_frames (fw_q s) m).
Proof.
  intros H0 Hs Hst. destruct (forward_steps_ok _ _ H0 Hs) as [l Hok]. pose proof Hok as [Hc Hw Hm Ho Hbo]. split.
  - exists l. destruct Hc as (Hp & _ & Hnd & Hn). split_and!; try done. apply Forall_forall. intros x Hx. by apply Hw.
  - intros Hn Hn'. assert (m ∉ l) as Hml by (intros H; apply Hw in H as [H _]; congruence).
    destruct Hst as [s x msg rsp_max Hb Hx|s x r Hx Hd Er|s x st q r Hb Hx E Er|s start max rc data rem q Hb E|s rsp Hb|s op ops Hb]; cbn [fw_q].
    + apply (enqueue_frames _ l); [done|done|]. intros ->. by rewrite is_waiting_set, decide_True in Hn'.
    + done.
    + replace q with (send_timeout (fw_q s) x).2 by (by rewrite E). unfold send_timeout. cbn [snd].
      destruct (waiting (f_state (q_frames (fw_q s) x))) eqn:Est; [|done].
      assert (x ∈ l) as Hin by (apply Hw; unfold unlinked; by rewrite Hb). destruct (elem_split l x Hin) as (l1 & l2 & ->).
      by apply (unlink_frames _ l1 l2).
    + unfold reqfwd_retrieve in E. rewrite (chain_head _ _ Hc) in E. destruct l as [|x l]; [by injection E as _ _ _ <-|]. cbn [head] in E.
      destruct (_ <=? start); [by injection E as _ _ _ <-|]. injection E as _ _ _ <-. rewrite update_frame, decide_False; [done|].
      intros ->. apply Hml, elem_of_cons. by left.
    + done.
    + change (fw_q (s <| fw_q := ?a |> <| fw_busy := _ |>)) with a. unfold busy_ok in Hbo. rewrite Hb in Hbo. destruct op as [x|x rsp|x st]; cbn [do_store].
      * destruct ops as [|[m1|m1 rsp|m1 ?] [|[m2|m2 ?|m2 st] [|? ?]]]; try done. destruct Hbo as (_ & _ & _ & Hh & _).
        destruct l as [|y l]; [done|]. injection Hh as ->. by apply (unlink_frames _ [] l).
      * destruct ops as [|[?|?|m2 st] [|? ?]]; try done. destruct Hbo as (_ & _ & Hwx & _). rewrite update_frame, decide_False; [done|congruence].
      * destruct ops as [|? ?]; try done. destruct Hbo as (_ & Hwx & _). rewrite update_frame, decide_False; [done|congruence].
Qed.

(** C31: a response goes to the sender of the message it answers. When a
    completion succeeds, the message it completes is the one that was last
    retrieved; its sender is still waiting with it, and its next look finds
    the response, whole; no other sender's frame changes but for its link. *)
Theorem reqfwd_own_response (s0 s : forward) (rsp : list Z) (more : Z) (q' : reqfwd_queue) :
  forward_initial s0 -> rtc forward_step s0 s ->
  reqfwd_complete (fw_q s) rsp = (RPMI_SUCCESS, more, q') ->
  exists m msg, fw_last s = Some m /\ fw_pc s m = SWait msg /\ f_msg (q_frames (fw_q s) m) = msg /\
    send_result q' m (f_state (q_frames q' m)) = (RPMI_SUCCESS, rsp) /\
    (forall x, x <> m -> exists n, q_frames q' x = (q_frames (fw_q s) x) <| f_next := n |>) /\
    more = reqfwd_count (fw_q s) - 1.
Proof.
  intros H0 Hs E. destruct (forward_steps_ok _ _ H0 Hs) as [l [Hc Hw Hm Ho _]]. pose proof (chain_head _ _ Hc) as Eh.
  destruct l as [|m l]; [unfold reqfwd_complete, complete_begin in E; by rewrite Eh in E|].
  destruct (decide (f_state (q_frames (fw_q s) m) = RETRIEVED)) as [Hst|Hst].
  2: { unfold reqfwd_complete, complete_begin in E. rewrite Eh in E. cbn [head] in E. by rewrite bool_decide_eq_false_2 in E by done. }
  pose proof (complete_found _ _ _ rsp Hc Hst) as H. rewrite E in H. cbv zeta in H. set (fits := _ <=? _) in H.
  destruct H as (Hrc & Hmore & _ & Es & Er & _ & Hsame). destruct fits; [|done].
  destruct (Ho m) as [Hlast _]; [by apply elem_of_cons; left|done|].
  assert (is_waiting s m = true) as Hwm by (apply Hw, elem_of_cons; by left).
  unfold is_waiting in Hwm. destruct (fw_pc s m) as [|msg] eqn:Ep; [done|]. exists m, msg.
  split_and!; try done; [by apply Hm|unfold send_result; by rewrite Es, Er, bool_decide_eq_true_2|].
  unfold reqfwd_count. destruct Hc as (_ & _ & _ & ->). cbn [length]. lia.
Qed.

(** ** An example: two senders; the first gives up while its message is out *)

Module TwoSenders.

Definition empty : reqfwd_queue := ReqfwdQueue None None 0 (fun _ => ReqfwdMessage None QUEUED [] [] 0) true [0%nat].
Definition start : forward := Forward empty (fun _ => SReturned 0 []) None [].

Definition sends (s : forward) (m : nat) (msg : list Z) : forward :=
  Forward (send_enqueue (fw_q s) m msg 8).2 (<[m := SWait msg]> (fw_pc s)) (fw_last s) [].
Definition retrieves (s : forward) : forward :=
  Forward (reqfwd_retrieve (fw_q s) 0 64).2 (fw_pc s) (q_head (fw_q s)) [].
Definition gives_up (s : forward) (m : nat) : forward :=
  Forward (send_timeout (fw_q s) m).2 (<[m := SReturned RPMI_ERR_TIMEOUT []]> (fw_pc s)) (fw_last s) [].

Definition both : forward := sends (sends start 1 [10; 11]) 2 [20].
Definition out : forward := retrieves both.
Definition late : forward := gives_up out 1.
Definition second : forward := retrieves late.

(** The late answer finds nothing; the second message's answer is its own *)
Example late_answer : (reqfwd_complete (fw_q late) [99]).1 = (RPMI_ERR_NO_DATA, 1).
Proof. vm_compute. reflexivity. Qed.

Lemma start_initial : forward_initial start.
Proof. split_and!; try done. split_and!; try done. constructor. Qed.

Lemma retrieves_step (s : forward) :
  fw_busy s = [] -> (reqfwd_retrieve (fw_q s) 0 64).1.1.1 = RPMI_SUCCESS -> forward_step s (retrieves s).
Proof.
  intros Hb E. unfold retrieves.
  pose proof (FRetrieve s 0 64 (reqfwd_retrieve (fw_q s) 0 64).1.1.1 (reqfwd_retrieve (fw_q s) 0 64).1.1.2 (reqfwd_retrieve (fw_q s) 0 64).1.2
    (reqfwd_retrieve (fw_q s) 0 64).2 Hb ltac:(by destruct (reqfwd_retrieve (fw_q s) 0 64) as [[[? ?] ?] ?])) as H.
  by rewrite E in H.
Qed.

Lemma gives_up_step (s : forward) (m : nat) :
  fw_busy s = [] -> is_waiting s m = true -> waiting (send_timeout (fw_q s) m).1 = true -> forward_step s (gives_up s m).
Proof.
  intros Hb Hw Hst. apply (FTimeout s m (send_timeout (fw_q s) m).1 (send_timeout (fw_q s) m).2 (RPMI_ERR_TIMEOUT, [])); [done|done|done|].
  by rewrite Hst.
Qed.

Lemma late_reached : rtc forward_step start late.
Proof.
  apply (rtc_l _ start (sends start 1 [10; 11])); [by apply FSend|].
  apply (rtc_l _ (sends start 1 [10; 11]) both); [apply FSend; vm_compute; reflexivity|].
  apply (rtc_l _ both out); [apply retrieves_step; vm_compute; reflexivity|].
  apply rtc_once, gives_up_step; vm_compute; reflexivity.
Qed.

Lemma second_step : forward_step late second.
Proof. by apply retrieves_step. Qed.

Lemma second_completes : (reqfwd_complete (fw_q second) [7]).1 = (RPMI_SUCCESS, 0).
Proof. vm_compute. reflexivity. Qed.

Lemma reqfwd_own_response_witness :
  exists m msg, fw_last second = Some m /\ fw_pc second m = SWait msg /\ f_msg (q_frames (fw_q second) m) = msg /\
    send_result (reqfwd_complete (fw_q second) [7]).2 m (f_state (q_frames (reqfwd_complete (fw_q second) [7]).2 m)) = (RPMI_SUCCESS, [7]).
Proof.
  destruct (reqfwd_own_response start second [7] 0 (reqfwd_complete (fw_q second) [7]).2 start_initial
    (rtc_r _ _ _ late_reached second_step)) as (m & msg & H1 & H2 & H3 & H4 & _).
  - rewrite <- second_completes. apply surjective_pairing.
  - exists m, msg. exact (conj H1 (conj H2 (conj H3 H4))).
Defined.

Lemma reqfwd_frames_live_witness :
  exists l, path (fw_q late) None l None /\ NoDup l /\ reqfwd_count (fw_q late) = Z.of_nat (length l) /\
    Forall (fun x => is_waiting late x = true) l.
Proof. exact (proj1 (reqfwd_frames_live start late second 0 start_initial late_reached second_step)). Defined.

End TwoSenders.
