(* ===== verification/MpxyFw.v ===== *)
(** RPMI service groups the monitor serves itself,
    [services/mpxy/mpxy_rpmi_fw.c]: requests of one domain for another, by the
    queue of [Reqfwd] or, through a bridge, with the hart itself, which
    [DomainContext] moves.

    The state is what one hart works on; the slots and the switch requests
    are per hart.  A message is bytes.  [buf] is the buffer a message is
    handed over in, whole: what follows the message is left from before. *)

From stdpp Require Import functions.
From S2P Require Import Prelude Arch Csr Fields Bitstring Domain Hart Hsm DomainContext Rpmi Mpxy MpxyRpmi Reqfwd.

#[local] Open Scope Z_scope.

Definition RPMI_MM_GET_ATTRIBUTES : Z := 0x02.
Definition RPMI_MM_COMMUNICATE : Z := 0x03.
Definition RPMI_REQFWD_RETRIEVE_CURRENT_MESSAGE : Z := 0x02.
Definition RPMI_REQFWD_COMPLETE_CURRENT_MESSAGE : Z := 0x03.
Definition RPMI_REQFWD_EVENT_NEW_MESSAGE : Z := 0x01.

Definition MM_VERSION : Z := RPMI_VERSION 1 0.
Definition GROUP_VERSION : Z := RPMI_VERSION 1 0.
Definition DEFAULT_TIMEOUT_US : Z := 1000000.
Definition NEW_MESSAGE_BYTES : Z := 16.

(** ** Words in a buffer of bytes *)

Definition enc32 (v : Z) : list Z := [v mod 2 ^ 8; v / 2 ^ 8 mod 2 ^ 8; v / 2 ^ 16 mod 2 ^ 8; v / 2 ^ 24 mod 2 ^ 8].
Definition enc16 (v : Z) : list Z := [v mod 2 ^ 8; v / 2 ^ 8 mod 2 ^ 8].
Definition byte (b : list Z) (i : nat) : Z := nth i b 0.
Definition dec32 (b : list Z) (i : nat) : Z :=
  byte b (4 * i) + 2 ^ 8 * byte b (4 * i + 1) + 2 ^ 16 * byte b (4 * i + 2) + 2 ^ 24 * byte b (4 * i + 3).
(** [memcpy] of bytes into the buffer *)
Definition poke (b : list Z) (off : nat) (bs : list Z) : list Z := take off b ++ bs ++ drop (off + length bs) b.
Definition poke32 (b : list Z) (i : nat) (v : Z) : list Z := poke b (4 * i) (enc32 v).

(** ** Data *)

(** [struct fw_channel]: a channel of the pool is known by its place, its
    [ch] by the id in the core's list, a domain by its index *)
Record fw_channel : Set := FwChannel {
  fc_ch : Z;
  fc_group : Z;
  fc_queue : bool;                (* it has a queue: its owner's *)
  fc_owner : Z;
  fc_wakeup_ssip : bool;
  fc_notify_enabled : Z;
  fc_new_message : bool;
  fc_bridge : bool;
  fc_sources : list nat;
  fc_bridge_target : option nat;
  fc_target : Z;
  fc_shmem_base : Z;
  fc_shmem_size : Z;
  fc_token : Z;
}.
#[export] Instance fw_channel_eta : Settable fw_channel := fun c =>
  FwChannel (fc_ch c) (fc_group c) (fc_queue c) (fc_owner c) (fc_wakeup_ssip c) (fc_notify_enabled c) (fc_new_message c)
    (fc_bridge c) (fc_sources c) (fc_bridge_target c) (fc_target c) (fc_shmem_base c) (fc_shmem_size c) (fc_token c).

Inductive slot_state : Set := SLOT_FREE | SLOT_SENT | SLOT_RETRIEVED | SLOT_COMPLETED | SLOT_FAILED.
#[export] Instance slot_state_eq_dec : EqDecision slot_state.
Proof. solve_decision. Defined.

(** [struct bridge_slot]; [rsp] is what was copied into it, [rsp_len] what
    the response had *)
Record bridge_slot : Set := BridgeSlot {
  bs_state : slot_state;
  bs_error : Z;
  bs_to : option nat;
  bs_out_size : Z;
  bs_msg : list Z;
  bs_rsp_len : Z;
  bs_rsp : list Z;
}.
#[export] Instance bridge_slot_eta : Settable bridge_slot := fun s =>
  BridgeSlot (bs_state s) (bs_error s) (bs_to s) (bs_out_size s) (bs_msg s) (bs_rsp_len s) (bs_rsp s).

(** [struct switch_request] *)
Inductive switch_request : Set := SWITCH_NONE | SWITCH_TO (ch : nat) | SWITCH_BACK (ch : nat) | SWITCH_YIELD (ch : nat).

(** What a notification does elsewhere *)
Inductive fw_effect : Set :=
| EventsDue (ch : Z)       (* mpxy_channel_events_due() *)
| WakeupSsip (owner : Z).  (* ipi_send_mask() to the domain's harts that can be interrupted *)

Record fw_state : Type := FwState {
  fw_chans : list fw_channel;
  fw_queues : Z -> reqfwd_queue;              (* by the serving domain *)
  fw_slots : option (Z -> bridge_slot);       (* this hart's, by domain; there with the first bridge *)
  fw_request : switch_request;
  fw_dom : dstate;
  fw_mem : bytes_mem;
}.
#[export] Instance fw_state_eta : Settable fw_state := fun s =>
  FwState (fw_chans s) (fw_queues s) (fw_slots s) (fw_request s) (fw_dom s) (fw_mem s).

Class FwConfig := {
  CONFIG_MPXY_RPMI_FW_MAX_CHANNELS : Z;
  CONFIG_SBI_IMPL_ID : Z;
  CONFIG_SBI_IMPL_VERSION : Z;
}.

Definition null_fw : fw_channel := FwChannel 0 0 false 0 false 0 false false [] None 0 0 0 0.
Definition fw_chan (s : fw_state) (c : nat) : fw_channel := default null_fw (fw_chans s !! c).
Definition fw_update (s : fw_state) (c : nat) (f : fw_channel -> fw_channel) : fw_state :=
  s <| fw_chans := alter f c (fw_chans s) |>.
Definition slot_free : bridge_slot := BridgeSlot SLOT_FREE 0 None 0 [] 0 [].
Definition slot_of (s : fw_state) (key : Z) : bridge_slot := match fw_slots s with Some f => f key | None => slot_free end.
Definition slot_update (s : fw_state) (key : Z) (f : bridge_slot -> bridge_slot) : fw_state :=
  s <| fw_slots := (fun t => <[key := f (t key)]> t) <$> fw_slots s |>.
Definition queue_update (s : fw_state) (d : Z) (q : reqfwd_queue) : fw_state := s <| fw_queues := <[d := q]> (fw_queues s) |>.

Section Fw.
Context {AR : Arch} {KC : Kconfig} {F : Features} {HT : HartTable} {CE : CtxEnv} {FC : FwConfig}.

(** The answer to [mpxy_context_resumed] is not the context switch's: it
    follows it, here *)
#[local] Instance still : CtxEnv := {|
  ctx_self := ctx_self; ctx_misa := ctx_misa; ctx_vec_bytes := ctx_vec_bytes; ctx_timer := ctx_timer;
  ctx_memregions := ctx_memregions; ctx_mpxy_resumed := fun regs => regs;
|}.

Definition this_key (s : fw_state) : Z := this_domain (fw_dom s).

(** The message the hart came to the channel with: whose it is *)
Definition slot_for (s : fw_state) (c : nat) : option Z :=
  match fw_slots s with
  | None => None
  | Some f =>
      let key := domain_caller_key (fw_dom s) in
      if key <? 0 then None
      else if bool_decide (bs_to (f key) = Some c) &&
              (bool_decide (bs_state (f key) = SLOT_SENT) || bool_decide (bs_state (f key) = SLOT_RETRIEVED))
           then Some key else None
  end.

(** The result, with the value *)
Definition fw_read_attr (s : fw_state) (c : nat) (id : Z) : Z * Z :=
  if id =? MPXY_RPMI_ATTR_SERVICEGROUP_ID then (SBI_SUCCESS, fc_group (fw_chan s c))
  else if id =? MPXY_RPMI_ATTR_SERVICEGROUP_VERSION then (SBI_SUCCESS, GROUP_VERSION)
  else if id =? MPXY_RPMI_ATTR_IMPL_ID then (SBI_SUCCESS, CONFIG_SBI_IMPL_ID)
  else if id =? MPXY_RPMI_ATTR_IMPL_VERSION then (SBI_SUCCESS, CONFIG_SBI_IMPL_VERSION)
  else (SBI_ERR_BAD_RANGE, 0).

(** A service's answer: the result, the buffer, the length of the response,
    and the state *)
Definition answered : Type := Z * list Z * Z * fw_state.

Definition status_only (s : fw_state) (buf : list Z) (status : Z) : answered :=
  (SBI_SUCCESS, poke32 buf 0 (low32 status), 4, s).

Definition enable_notification (s : fw_state) (c : nat) (buf : list Z) (len event : Z) : answered :=
  if negb (len =? 8) || (2 <? dec32 buf 1) then status_only s buf RPMI_ERR_INVALID_PARAM
  else if negb (dec32 buf 0 =? event) || negb (truth event) then status_only s buf RPMI_ERR_NOT_SUPPORTED
  else
    let s := if dec32 buf 1 <? 2 then fw_update s c (fun ch => ch <| fc_notify_enabled := dec32 buf 1 |>) else s in
    (SBI_SUCCESS, poke32 (poke32 buf 0 RPMI_SUCCESS) 1 (fc_notify_enabled (fw_chan s c)), 8, s).

(** ** REQUEST_FORWARD *)

Definition reqfwd_notify (s : fw_state) (c : nat) : list fw_effect * fw_state :=
  let ch := fw_chan s c in
  ((if truth (fc_notify_enabled ch) then [EventsDue (fc_ch ch)] else []) ++
   (if fc_wakeup_ssip ch then [WakeupSsip (fc_owner ch)] else []),
   if truth (fc_notify_enabled ch) then fw_update s c (fun ch => ch <| fc_new_message := true |>) else s).

(** RETRIEVE: the message of the slot, or the queue's: the result, the data,
    what is left *)
Definition retrieve (s : fw_state) (c : nat) (start max : Z) : Z * list Z * Z * fw_state :=
  match slot_for s c with
  | Some key =>
      let msg := bs_msg (slot_of s key) in
      let len := Z.of_nat (length msg) in
      if len <=? start then (RPMI_ERR_INVALID_PARAM, [], 0, s)
      else
        let returned := Z.min (len - start) max in
        (RPMI_SUCCESS, take (Z.to_nat returned) (drop (Z.to_nat start) msg), len - start - returned,
         slot_update s key (fun sl => sl <| bs_state := SLOT_RETRIEVED |>))
  | None =>
      let d := fc_owner (fw_chan s c) in
      let '(rc, data, remaining, q) := reqfwd_retrieve (fw_queues s d) start max in
      (rc, data, remaining, queue_update s d q)
  end.

(** COMPLETE: the result and what is left in the queue *)
Definition complete (s : fw_state) (c : nat) (rsp : list Z) : Z * Z * fw_state :=
  let d := fc_owner (fw_chan s c) in
  let by_queue :=
    let '(rc, rest, q) := reqfwd_complete (fw_queues s d) rsp in (rc, rest, queue_update s d q) in
  match slot_for s c with
  | Some key =>
      if bool_decide (bs_state (slot_of s key) = SLOT_RETRIEVED) then
        let fits := Z.of_nat (length rsp) <=? 8 in
        let s := slot_update s key (fun sl =>
          sl <| bs_rsp := if fits then rsp else bs_rsp sl |> <| bs_rsp_len := Z.of_nat (length rsp) |>
             <| bs_state := if fits then SLOT_COMPLETED else SLOT_FAILED |> <| bs_error := RPMI_ERR_BAD_RANGE |>) in
        (if fits then RPMI_SUCCESS else RPMI_ERR_BAD_RANGE, reqfwd_count (fw_queues s d),
         s <| fw_request := SWITCH_BACK c |>)
      else by_queue
  | None => by_queue
  end.

Definition reqfwd_service (s : fw_state) (c : nat) (service : Z) (buf : list Z) (len max_len resp_max : Z) : answered :=
  if service =? RPMI_SERVICE_ENABLE_NOTIFICATION then enable_notification s c buf len RPMI_REQFWD_EVENT_NEW_MESSAGE
  else if service =? RPMI_REQFWD_RETRIEVE_CURRENT_MESSAGE then
    if negb (len =? 4) then status_only s buf RPMI_ERR_INVALID_PARAM
    else
      let max := ROUNDDOWN2 (Z.min max_len resp_max -! 12) 4 in
      let '(rc, data, remaining, s) := retrieve s c (dec32 buf 0) max in
      let buf := poke buf 12 data in
      if (rc =? RPMI_ERR_NO_DATA) && fc_bridge (fw_chan s c) then (SBI_SUCCESS, buf, 4, s <| fw_request := SWITCH_YIELD c |>)
      else if truth rc then status_only s buf rc
      else
        let returned := Z.of_nat (length data) in
        let buf := poke32 (poke32 (poke32 buf 0 RPMI_SUCCESS) 1 (low32 remaining)) 2 (low32 returned) in
        (SBI_SUCCESS, buf, 12 + ROUNDUP2 returned 4, s)
  else if service =? RPMI_REQFWD_COMPLETE_CURRENT_MESSAGE then
    if (len <? 4) || negb (IS_ALIGNED len 4) then status_only s buf RPMI_ERR_INVALID_PARAM
    else
      let '(rc, rest, s) := complete s c (take (Z.to_nat len) buf) in
      (SBI_SUCCESS, poke32 (poke32 buf 0 (low32 rc)) 1 (low32 rest), 8, s)
  else (SBI_ERR_NOT_SUPPORTED, buf, 0, s).

(** The result, the buffer, the events *)
Definition fw_get_events (s : fw_state) (c : nat) (buf : list Z) (max : Z) : Z * list Z * mpxy_events * fw_state :=
  let none := MpxyEvents 0 0 0 0 in
  let ch := fw_chan s c in
  if negb (fc_queue ch) || (max <? RPMI_EVENT_HDR_SIZE + NEW_MESSAGE_BYTES) then (SBI_SUCCESS, buf, none, s)
  else
    let s' := fw_update s c (fun ch => ch <| fc_new_message := false |>) in
    if negb (fc_new_message ch) then (SBI_SUCCESS, buf, none, s')
    else
      let head := reqfwd_peek (fw_queues s (fc_owner ch)) NEW_MESSAGE_BYTES in
      let buf := poke buf 4 head in
      let n := ROUNDDOWN2 (Z.of_nat (length head)) 4 in
      if negb (truth n) then (SBI_SUCCESS, buf, none, s')
      else
        (SBI_SUCCESS, poke32 buf 0 (Z.lor (Z.shiftl RPMI_REQFWD_EVENT_NEW_MESSAGE 16) n),
         MpxyEvents 1 0 0 (RPMI_EVENT_HDR_SIZE + n), s').

(** ** MANAGEMENT_MODE *)

Definition mm_range_ok (ch : fw_channel) (off size : Z) : bool :=
  (off <=? fc_shmem_size ch) && (size <=? fc_shmem_size ch - off).

(** The message a PuC would have been sent: the header and the data *)
Definition mm_message (token : Z) (data : list Z) : list Z :=
  enc16 RPMI_GROUP_MANAGEMENT_MODE ++ [RPMI_MM_COMMUNICATE; RPMI_MSG_NORMAL_REQUEST] ++ enc16 16 ++ enc16 token ++ data.

(** The answer of a failed MM_COMMUNICATE *)
Definition mm_fails (s : fw_state) (buf : list Z) (rc : Z) : answered :=
  (SBI_SUCCESS, poke32 (poke32 buf 0 (low32 rc)) 1 0, 8, s).

(** What the queue's answer gives: [out_size] bytes were asked for *)
Definition mm_answer (s : fw_state) (buf : list Z) (out_size rc : Z) (rsp : list Z) : answered :=
  let rc := if negb (truth rc) && (negb (Z.of_nat (length rsp) =? 8) || (out_size <? dec32 rsp 1)) then RPMI_ERR_IO else rc in
  if truth rc then mm_fails s buf rc
  else (SBI_SUCCESS, poke32 (poke32 buf 0 (dec32 rsp 0)) 1 (dec32 rsp 1), 8, s).

Section Send.
(** [reqfwd_send]: to the queue of a domain, with the room for the response
    and the timeout; the result, and the response *)
Context (reqfwd_send : fw_state -> Z -> list Z -> Z -> Z -> Z * list Z * fw_state).

Definition mm_service (s : fw_state) (c : nat) (service : Z) (buf : list Z) (len timeout_us : Z) : answered :=
  let ch := fw_chan s c in
  if service =? RPMI_SERVICE_ENABLE_NOTIFICATION then enable_notification s c buf len 0
  else if service =? RPMI_MM_GET_ATTRIBUTES then
    if truth len then status_only s buf RPMI_ERR_INVALID_PARAM
    else
      let buf := poke32 (poke32 buf 0 RPMI_SUCCESS) 1 MM_VERSION in
      let buf := poke32 (poke32 buf 2 (low32 (fc_shmem_base ch))) 3 (low32 (high32_from_64 (fc_shmem_base ch))) in
      (SBI_SUCCESS, poke32 buf 4 (low32 (fc_shmem_size ch)), 20, s)
  else if negb (service =? RPMI_MM_COMMUNICATE) then (SBI_ERR_NOT_SUPPORTED, buf, 0, s)
  else if negb (len =? 16) then status_only s buf RPMI_ERR_INVALID_PARAM
  else if negb (mm_range_ok ch (dec32 buf 0) (dec32 buf 1)) || negb (mm_range_ok ch (dec32 buf 2) (dec32 buf 3))
  then mm_fails s buf RPMI_ERR_INVALID_ADDR
  else
    let token := wrap (fc_token ch + 1) in
    let s := fw_update s c (fun ch => ch <| fc_token := token |>) in
    let fwd := mm_message (token mod 2 ^ 16) (take 16 buf) in
    let out_size := dec32 buf 3 in
    if match fc_bridge_target ch with Some _ => domain_enterable (fw_dom s) (fc_target ch) | None => false end then
      let s := slot_update s (this_key s) (fun _ => BridgeSlot SLOT_SENT 0 (fc_bridge_target ch) out_size fwd 0 (replicate 8 0)) in
      (SBI_SUCCESS, buf, 8, s <| fw_request := SWITCH_TO c |>)
    else if negb (q_served (fw_queues s (fc_target ch))) then mm_fails s buf RPMI_ERR_NOT_SUPPORTED
    else
      let '(rc, rsp, s) := reqfwd_send s (fc_target ch) fwd 8 timeout_us in
      mm_answer s buf out_size rc rsp.

(** [fw_send]: the longest message of the channel, and its timeout, are the
    core's *)
Definition fw_send (s : fw_state) (c : nat) (ch : mpxy_channel) (msg_id : Z) (buf : list Z) (len resp_max : Z)
    (want_resp : bool) : answered :=
  if negb (IS_ALIGNED len 4) || (0xff <? msg_id) then (SBI_ERR_INVALID_PARAM, buf, 0, s)
  else if negb want_resp || (resp_max <? 20) then (SBI_ERR_NOT_SUPPORTED, buf, 0, s)
  else if fc_group (fw_chan s c) =? RPMI_GROUP_REQUEST_FORWARD
  then reqfwd_service s c msg_id buf len (ch_msg_data_max_len ch) resp_max
  else mm_service s c msg_id buf len (ch_completion_timeout_us ch).
End Send.

(** ** Messages that travel with the hart *)

(** The status and the bytes written, of a slot *)
Definition slot_answer (sl : bridge_slot) : Z * Z :=
  match bs_state sl with
  | SLOT_FAILED => (low32 (bs_error sl), 0)
  | SLOT_COMPLETED =>
      if negb (bs_rsp_len sl =? 8) || (bs_out_size sl <? dec32 (bs_rsp sl) 1) then (low32 RPMI_ERR_IO, 0)
      else (dec32 (bs_rsp sl) 0, dec32 (bs_rsp sl) 1)
  | _ => (low32 RPMI_ERR_IO, 0)
  end.

(** [mem[i] = v] of the hart's shared memory, where there is one *)
Definition shmem_put (s : fw_state) (words : list (Z * Z)) : fw_state :=
  let mem := hw_shmem (ds_hw (fw_dom s)) in
  if mem =? MPXY_SHMEM_NONE then s
  else s <| fw_mem := foldl (fun m w => set_word m mem w.1 w.2) (fw_mem s) words |>.

Definition mpxy_context_resumed (s : fw_state) (regs : trap_regs) : fw_state * trap_regs :=
  match fw_slots s with
  | None => (s, regs)
  | Some f =>
      let key := this_key s in
      let sl := f key in
      if bool_decide (bs_state sl = SLOT_FREE) then (s, regs)
      else
        let '(status, written) := slot_answer sl in
        let s := slot_update s key (fun sl => sl <| bs_state := SLOT_FREE |>) in
        (shmem_put s [(0, status); (1, written)], trap_reg_set (trap_reg_set regs A0 SBI_SUCCESS) A1 8)
  end.

(** What [context_switch] leaves, then [mpxy_context_resumed] for a context
    that goes on; [None]: the hart stops *)
Definition after_switch (s : fw_state) (fresh : bool) (m : moved) : option (Z * fw_state * trap_regs) :=
  match m with
  | HartStopped _ => None
  | Moved rc d regs =>
      let s := s <| fw_dom := d |> in
      if truth rc || fresh then Some (rc, s, regs)
      else let '(s, regs) := mpxy_context_resumed s regs in Some (rc, s, regs)
  end.
Definition never_ran (s : fw_state) (d : Z) : bool := bool_decide (c_state (context_of (fw_dom s) d) = CONTEXT_NONE).

Definition switch_to (s : fw_state) (regs : trap_regs) (target : Z) : option (Z * fw_state * trap_regs) :=
  after_switch s (never_ran s target) (domain_switch_to (fw_dom s) regs target).
Definition switch_back (s : fw_state) (regs : trap_regs) (first : option Z) : option (Z * fw_state * trap_regs) :=
  let fresh := match leave_target (fw_dom s) true first with Some d => never_ran s d | None => false end in
  after_switch s fresh (domain_switch_back (fw_dom s) regs first).

(** The moves of S-mode's own: [domain_enter], [domain_exit] *)
Definition plain_enter (s : fw_state) (regs : trap_regs) (target arg : Z) : option (Z * fw_state * trap_regs) :=
  after_switch s (never_ran s target) (domain_enter (fw_dom s) regs target arg).
Definition plain_exit (s : fw_state) (regs : trap_regs) (value : Z) : option (Z * fw_state * trap_regs) :=
  let fresh := match leave_target (fw_dom s) false None with Some d => never_ran s d | None => false end in
  after_switch s fresh (domain_exit (fw_dom s) regs value).

(** The sources of a bridge, for one to boot *)
Fixpoint yield_loop (s : fw_state) (regs : trap_regs) (owners : list Z) : option (bool * fw_state * trap_regs) :=
  match owners with
  | [] => Some (false, s, regs)
  | d :: owners =>
      '(rc, s, regs) ← switch_back s regs (Some d);
      if negb (truth rc) then Some (true, s, regs) else yield_loop s regs owners
  end.

(** Are the registers another context's by now? *)
Definition mpxy_switch_pending (s : fw_state) (regs : trap_regs) (error value : Z) : option (bool * fw_state * trap_regs) :=
  match fw_slots s with
  | None => Some (false, s, regs)
  | Some _ =>
      let r := fw_request s in
      let s := s <| fw_request := SWITCH_NONE |> in
      match r with
      | SWITCH_TO c =>
          '(rc, s, regs) ← switch_to s regs (fc_target (fw_chan s c));
          if truth rc then
            let s := slot_update s (this_key s) (fun sl => sl <| bs_state := SLOT_FAILED |> <| bs_error := RPMI_ERR_BUSY |>) in
            let '(s, regs) := mpxy_context_resumed s regs in Some (true, s, regs)
          else Some (true, s, regs)
      | SWITCH_BACK _ =>
          let regs := trap_reg_set (trap_reg_set regs A0 (wrap error)) A1 (wrap value) in
          '(_, s, regs) ← switch_back s regs None;
          Some (true, s, regs)
      | SWITCH_YIELD c =>
          let back := regs <| tr_mepc := tr_mepc regs -! 4 |> in
          '(rc, s, back) ← switch_back s back None;
          if negb (truth rc) then Some (true, s, back)
          else
            '(away, s, back) ← yield_loop s back ((fun src => fc_owner (fw_chan s src)) <$> fc_sources (fw_chan s c));
            if away : bool then Some (true, s, back)
            else Some (false, shmem_put s [(0, low32 RPMI_ERR_NO_DATA)], back <| tr_mepc := tr_mepc back +! 4 |>)
      | SWITCH_NONE => Some (false, s, regs)
      end
  end.

(** ** The channels, from the device tree *)

(** A node's properties: the cells of its id, the phandle of its domain,
    numbers that have a default, the region and the target it names *)
Record fw_node : Set := FwNode {
  fn_mboxes : bool;
  fn_id : option (list Z);
  fn_domain : Z;
  fn_msg_max_len : option Z;
  fn_timeout_us : option Z;
  fn_wakeup_ssip : bool;
  fn_memregion : option (option (list Z) * option Z);   (* a region's "base" and "order" *)
  fn_target : Z;                                        (* the phandle of "riscv,reqfwd-target" *)
}.

Section Probe.
Context {MX : MpxyConfig} (domain_by_phandle : Z -> option Z).

(** [fw_channel_new]: the channel, and its [ch] *)
Definition fw_channel_new (s : fw_state) (node : fw_node) (group : Z) : option (fw_channel * mpxy_channel) :=
  if Z.of_nat (length (fw_chans s)) =? CONFIG_MPXY_RPMI_FW_MAX_CHANNELS then None
  else
    match fn_id node, mpxy_channel_owner_from_fdt domain_by_phandle (fn_domain node) with
    | Some (id :: _), Some owner_id =>
        let max_len := default 256 (fn_msg_max_len node) in
        if owner_id =? MPXY_OWNER_ANY then None
        else if (max_len <? 20) || (MPXY_SHMEM_SIZE <? max_len) || negb (IS_ALIGNED max_len 4) then None
        else Some (FwChannel id group false (owner_id - 1) false 0 false false [] None 0 0 0 0,
                   MpxyChannel id MPXY_MSG_PROT_RPMI (RPMI_VERSION 1 0) max_len 0 (default DEFAULT_TIMEOUT_US (fn_timeout_us node))
                     MPXY_CAP_SEND_WITH_RESP 0 0 0 0 0 0 0 owner_id false)
    | _, _ => None
    end.

(** The part [reqfwd_probe] and [bridge_probe] share: a channel with a
    queue *)
Definition serve_add (s : fw_state) (core : mpxy unit) (node : fw_node) (bridge : bool) : Z * fw_state * mpxy unit :=
  match fw_channel_new s node RPMI_GROUP_REQUEST_FORWARD with
  | None => (-1, s, core)
  | Some (c, ch) =>
      let c := c <| fc_bridge := bridge |> <| fc_wakeup_ssip := fn_wakeup_ssip node |> in
      let ch := ch <| ch_capability := Z.lor (ch_capability ch) MPXY_CAP_GET_NOTIFICATIONS |> in
      match reqfwd_serve (fw_queues s (fc_owner c)) (length (fw_chans s)) with
      | None => (-1, s, core)
      | Some q =>
          let s := queue_update s (fc_owner c) q in
          let '(rc, core) := mpxy_channel_register core ch in
          if truth rc then (-1, s, core)
          else (0, s <| fw_chans := fw_chans s ++ [c <| fc_queue := true |>] |>, core)
      end
  end.

Definition reqfwd_probe (s : fw_state) (core : mpxy unit) (node : option fw_node) : Z * fw_state * mpxy unit :=
  match node with
  | Some n => if fn_mboxes n then (0, s, core) else serve_add s core n false
  | None => (0, s, core)
  end.

Definition mm_channel_add (s : fw_state) (core : mpxy unit) (node : fw_node) (target : option Z) (bridge : option nat)
    : Z * fw_state * mpxy unit :=
  match fw_channel_new s node RPMI_GROUP_MANAGEMENT_MODE, target, fn_memregion node with
  | Some (c, ch), Some target, Some (Some (hi :: lo :: _), order) =>
      let order := default 0 order in
      if (target =? fc_owner c) || (order <? 3) || (31 <? order) then (-1, s, core)
      else
        let c := c <| fc_target := target |> <| fc_shmem_base := reg_pair_to_64 hi lo |> <| fc_shmem_size := 2 ^ order |> in
        let '(rc, core) := mpxy_channel_register core ch in
        if truth rc then (-1, s, core)
        else
          let self := length (fw_chans s) in
          let s := s <| fw_chans := fw_chans s ++ [c <| fc_bridge_target := bridge |>] |> in
          let s := match bridge with
                   | Some b => fw_update s b (fun ch => ch <| fc_sources := self :: fc_sources ch |>)
                   | None => s
                   end in
          (0, s, core)
  | _, _, _ => (-1, s, core)
  end.

Definition mm_probe (s : fw_state) (core : mpxy unit) (node : option fw_node) : Z * fw_state * mpxy unit :=
  match node with
  | Some n => mm_channel_add s core n (domain_by_phandle (fn_target n)) None
  | None => (0, s, core)
  end.

(** The subnodes of a bridge that are compatible, the others are skipped *)
Definition bridge_probe (s : fw_state) (core : mpxy unit) (node : option (fw_node * list (bool * fw_node)))
    : Z * fw_state * mpxy unit :=
  match node with
  | None => (0, s, core)
  | Some (n, children) =>
      let c := length (fw_chans s) in
      let '(rc, s, core) := serve_add s core n true in
      if truth rc then (rc, s, core)
      else
        let s := match fw_slots s with Some _ => s | None => s <| fw_slots := Some (fun _ => slot_free) |> end in
        foldl (fun x child =>
          let '(rc, s, core) := x in
          if child.1 : bool then let '(_, s, core) := mm_channel_add s core child.2 (Some (fc_owner (fw_chan s c))) (Some c) in (rc, s, core)
          else x) (0, s, core) children
  end.
End Probe.
End Fw.
