(* ===== verification/MpxyFwProps.v ===== *)
(** The messages that travel with the hart: a message in a slot is one its
    domain waits for, and its answer is bounded by what the domain asked. *)

From stdpp Require Import functions relations.
From S2P Require Import Prelude Arch Csr Fields Bitstring Domain Hart Hsm DomainContext DomainContextProps DomainMoves Rpmi Mpxy MpxyRpmi Reqfwd MpxyFw.

#[local] Open Scope Z_scope.
#[local] Set Warnings "-clear-no-such-hyp".

(** ** Where the contexts of a hart are after a move *)

Section States.
Context {AR : Arch} {KC : Kconfig} {F : Features} {HT : HartTable} {CE : CtxEnv}.

(** The state of the hart's context of a domain *)
Definition cst (s : dstate) (d : Z) : context_state := c_state (context_of s d).

Lemma cst_ctx (s : dstate) (d k : Z) (f : domain_context -> domain_context) :
  cst (ctx_update s d ctx_self f) k = if decide (k = d) then c_state (f (context_of s d)) else cst s k.
Proof.
  unfold cst, context_of. rewrite ctx_at_update. destruct (decide (k = d)) as [->|Hne]; [by rewrite decide_True|].
  by rewrite decide_False by naive_solver.
Qed.

Lemma cst_ctx_same (s : dstate) (d k : Z) (f : domain_context -> domain_context) :
  (forall c, c_state (f c) = c_state c) -> cst (ctx_update s d ctx_self f) k = cst s k.
Proof. intros H. rewrite cst_ctx. case_decide as E; [|done]. rewrite H, E. done. Qed.

Lemma cst_restore (s : dstate) (to k : Z) (fresh : bool) :
  cst (context_restore s to fresh) k = if decide (k = to) then CONTEXT_RUNNING else cst s k.
Proof.
  unfold context_restore. cbv zeta. match goal with |- cst (hw_update ?x _) k = _ => change (cst x k = if decide (k = to) then CONTEXT_RUNNING else cst s k) end.
  rewrite cst_ctx. case_decide; [done|]. match goal with |- cst (field_update ds_at _ (dom_update (dom_update (dom_update ?x _ _) _ _) _ _)) k = _ => change (cst x k = cst s k) end.
  rewrite cst_ctx_same by done. done.
Qed.

Lemma cst_park (s : dstate) (state : context_state) (regs : trap_regs) (quiet : bool) (d k : Z) :
  cst (context_park s d state regs quiet) k = if decide (k = d) then state else cst s k.
Proof.
  unfold context_park. destruct (context_save _ _ _) as [c h].
  match goal with |- cst (dom_update ?x _ _) k = _ => change (cst x k = if decide (k = d) then state else cst s k) end.
  rewrite cst_ctx. by case_decide.
Qed.

Lemma cst_switch (s s' : dstate) (to k : Z) (regs : option trap_regs) (error value rc : Z) (regs' : trap_regs) :
  context_switch s to regs error value = Moved rc s' regs' ->
  rc = SBI_SUCCESS /\ cst s' k = if decide (k = to) then CONTEXT_RUNNING else cst s k.
Proof.
  unfold context_switch. cbv zeta. case_bool_decide as Ef.
  - destruct (negb _); [done|]. intros H. injection H as <- <- <-. split; [done|]. rewrite cst_restore. case_decide as Ek; [done|].
    rewrite !cst_ctx. by rewrite !decide_False.
  - intros H. injection H as <- <- <-. split; [done|]. rewrite cst_ctx_same by done. rewrite cst_restore. case_decide as Ek; [done|].
    rewrite cst_ctx_same by done. destruct (negb _); [|done]. by rewrite cst_ctx_same.
Qed.

(** Into another domain: this one waits, and the other did not *)
Lemma enter_states (s s' : dstate) (regs regs' : trap_regs) (target arg rc : Z) (quiet : bool) :
  enter s regs target arg quiet = Moved rc s' regs' ->
  if truth rc then s' = s /\ regs' = regs
  else
    this_domain s' = target /\ target <> this_domain s /\ cst s target <> CONTEXT_CALLING /\
    forall k, cst s' k = if decide (k = target) then CONTEXT_RUNNING else if decide (k = this_domain s) then CONTEXT_CALLING else cst s k.
Proof.
  unfold enter. cbv zeta. set (why := if _ || _ then _ else _). destruct (truth why) eqn:Ew.
  { intros H. injection H as <- <- <-. by rewrite Ew. }
  intros H. assert (target <> this_domain s /\ cst s target <> CONTEXT_CALLING) as [Hne Hnc].
  { unfold why in Ew. destruct (Z.eqb_spec target (this_domain s)) as [|Hne]; [done|]. split; [done|]. intros E. unfold cst in E.
    rewrite E in Ew. cbn [orb] in Ew. destruct (negb (hartmask_test _ _)); [done|]. revert Ew. clear.
    destruct (negb quiet && _); [done|]. by destruct (truth _ || _). }
  set (s1 := context_park _ _ _ _ _) in *. set (s2 := ctx_update s1 _ _ _) in *.
  pose proof (switch_at s2 target (Some regs) SBI_SUCCESS arg) as Hat. rewrite H in Hat. cbn [moved_state] in Hat.
  destruct (cst_switch _ _ _ target _ _ _ _ _ H) as [-> _]. change (truth SBI_SUCCESS) with false. cbv iota. split_and!; try done.
  intros k. destruct (cst_switch _ _ _ k _ _ _ _ _ H) as [_ ->]. case_decide; [done|]. unfold s2. rewrite cst_ctx_same by done.
  unfold s1. by rewrite cst_park.
Qed.

(** Out of one: where the hart goes did not wait, or is the caller *)
Lemma leave_states (s s' : dstate) (regs regs' : trap_regs) (value rc : Z) (quiet : bool) (first : option Z) :
  leave s regs value quiet first = Moved rc s' regs' ->
  if truth rc then this_domain s' = this_domain s /\ regs' = regs /\ ds_hw s' = ds_hw s /\ forall k, cst s' k = cst s k
  else exists to, leave_target s quiet first = Some to /\ this_domain s' = to /\
    forall k, cst s' k = if decide (k = to) then CONTEXT_RUNNING else if decide (k = this_domain s) then CONTEXT_IDLE else cst s k.
Proof.
  unfold leave. cbv zeta. destruct (leave_target s quiet first) as [to|] eqn:Et; [|by intros H; injection H as <- <- <-].
  set (s1 := if (match caller_waits _ _ with Some _ => true | None => false end) then _ else _).
  assert (this_domain s1 = this_domain s /\ ds_hw s1 = ds_hw s /\ forall k, cst s1 k = cst s k) as (E1 & Eh & Ek).
  { unfold s1. destruct (caller_waits _ _); [done|]. split_and!; [done|done|]. intros k. by rewrite cst_ctx_same. }
  destruct (truth (d_stopping _)); [by intros H; injection H as <- <- <-|]. intros H.
  set (s2 := ctx_update s1 _ _ _) in *. set (s3 := context_park _ _ _ _ _) in *.
  pose proof (switch_at s3 to (Some regs) SBI_SUCCESS value) as Hat. rewrite H in Hat. cbn [moved_state] in Hat.
  destruct (cst_switch _ _ _ to _ _ _ _ _ H) as [-> _]. change (truth SBI_SUCCESS) with false. cbv iota. exists to. split_and!; try done.
  intros k. destruct (cst_switch _ _ _ k _ _ _ _ _ H) as [_ ->]. case_decide; [done|]. unfold s3. rewrite cst_park. case_decide; [done|].
  unfold s2. by rewrite cst_ctx_same.
Qed.

Lemma caller_calls (s : dstate) (d c : Z) : caller_waits s d = Some c -> cst s c = CONTEXT_CALLING.
Proof. unfold caller_waits. destruct (c_caller _) as [c'|]; [|done]. case_bool_decide; [|done]. by intros [= <-]. Qed.

(** A move out of a domain boots one that never ran, or goes back to the
    caller. *)
Lemma leave_target_cases (s : dstate) (quiet : bool) (first : option Z) (to : Z) :
  leave_target s quiet first = Some to -> caller_waits s (this_domain s) = Some to \/ cst s to = CONTEXT_NONE.
Proof.
  unfold leave_target. destruct (caller_waits _ _) as [c|]; [by left|]. destruct quiet; [destruct first as [d|]; [|done]|]; intros H; right.
  - destruct (_ && _) eqn:E in H; [|done]. injection H as <-. rewrite !andb_true_iff in E. destruct E as [[_ E] _]. by apply bool_decide_eq_true in E.
  - apply List.find_some in H as [_ E]. rewrite !andb_true_iff in E. destruct E as [_ E]. by apply bool_decide_eq_true in E.
Qed.
End States.

(** ** A hart and the messages that travel with it *)

(** The message a domain sent through a bridge last, and how much it is to
    get back *)
Abbreviation ghost := (Z -> option (list Z * Z)).

Section Bridge.
Context {AR : Arch} {KC : Kconfig} {F : Features} {HT : HartTable} {CE : CtxEnv} {FC : FwConfig}.
Context (reqfwd_send : fw_state -> Z -> list Z -> Z -> Z -> Z * list Z * fw_state).

(** The moves are those of [MpxyFw] *)
#[local] Abbreviation cst := (@cst (@still CE)).
#[local] Abbreviation this_domain := (@this_domain (@still CE)).
#[local] Abbreviation caller_waits := (@caller_waits (@still CE)).
#[local] Abbreviation leave_target := (@leave_target AR KC (@still CE)).
#[local] Abbreviation leave := (@leave AR KC F HT (@still CE)).
#[local] Abbreviation enter := (@enter AR KC F HT (@still CE)).

(** The queue's send works on the queues alone *)
Definition send_keeps : Prop :=
  forall s d msg max timeout, let s' := (reqfwd_send s d msg max timeout).2 in
    fw_slots s' = fw_slots s /\ fw_dom s' = fw_dom s /\ fw_request s' = fw_request s.

(** What MM_COMMUNICATE of the channel [c] forwards *)
Definition forwarded (s : fw_state) (c : nat) (buf : list Z) : list Z * Z :=
  (mm_message (wrap (fc_token (fw_chan s c) + 1) mod 2 ^ 16) (take 16 buf), dec32 buf 3).
Definition note (g : ghost) (s s1 : fw_state) (c : nat) (buf : list Z) : ghost :=
  match fw_request s1 with SWITCH_TO _ => <[this_key s := Some (forwarded s c buf)]> g | _ => g end.

(** What happens on the hart: an ecall that sends a message, with the switch
    it asks for; a fetch of events; a plain move of S-mode's; and what other
    harts do that leaves the contexts of this hart where they are *)
Inductive fw_step : fw_state * ghost -> fw_state * ghost -> Prop :=
| StepSend s g c ch msg_id buf len resp_max want regs rc buf' n s1 away s2 regs' :
    fw_send reqfwd_send s c ch msg_id buf len resp_max want = (rc, buf', n, s1) ->
    mpxy_switch_pending s1 regs rc n = Some (away, s2, regs') ->
    fw_step (s, g) (s2, note g s s1 c buf)
| StepEvents s g c buf max : fw_step (s, g) ((fw_get_events s c buf max).2, g)
| StepEnter s g regs target arg rc s' regs' :
    plain_enter s regs target arg = Some (rc, s', regs') ->
    fw_step (s, g) (s', g)
| StepExit s g regs value rc s' regs' :
    plain_exit s regs value = Some (rc, s', regs') ->
    fw_step (s, g) (s', g)
| StepOthers s g chans queues mem d :
    this_domain d = this_domain (fw_dom s) -> (forall k, cst d k = cst (fw_dom s) k) ->
    fw_step (s, g) (s <| fw_chans := chans |> <| fw_queues := queues |> <| fw_mem := mem |> <| fw_dom := d |>, g).

(** A message in a slot is one its domain waits for, and the last it sent. *)
Record slots_ok (s : fw_state) (g : ghost) : Prop := {
  so_there : is_Some (fw_slots s);
  so_none : fw_request s = SWITCH_NONE;
  so_running : cst (fw_dom s) (this_key s) = CONTEXT_RUNNING;
  so_slots k : bs_state (slot_of s k) <> SLOT_FREE ->
    cst (fw_dom s) k = CONTEXT_CALLING /\ g k = Some (bs_msg (slot_of s k), bs_out_size (slot_of s k));
}.

Lemma slot_update_at (s : fw_state) (key k : Z) (f : bridge_slot -> bridge_slot) :
  is_Some (fw_slots s) -> slot_of (slot_update s key f) k = if decide (k = key) then f (slot_of s key) else slot_of s k.
Proof.
  intros [t Et]. unfold slot_of, slot_update. change (fw_slots (_ <| fw_slots := ?x |>)) with x. rewrite Et. cbn [fmap option_fmap option_map].
  destruct (decide (k = key)) as [->|Hne]; [by rewrite fn_lookup_insert|by rewrite fn_lookup_insert_ne].
Qed.

Lemma slot_update_there (s : fw_state) (key : Z) (f : bridge_slot -> bridge_slot) :
  is_Some (fw_slots s) -> is_Some (fw_slots (slot_update s key f)).
Proof. intros [t Et]. unfold slot_update. change (fw_slots (_ <| fw_slots := ?x |>)) with x. by rewrite Et. Qed.

Lemma slot_for_caller (s : fw_state) (c : nat) (key : Z) :
  slot_for s c = Some key ->
  caller_waits (fw_dom s) (this_key s) = Some key /\ bs_to (slot_of s key) = Some c /\
  (bs_state (slot_of s key) = SLOT_SENT \/ bs_state (slot_of s key) = SLOT_RETRIEVED).
Proof.
  unfold slot_for, slot_of. destruct (fw_slots s) as [f|]; [|done]. unfold domain_caller_key. fold (this_key s).
  destruct (caller_waits (fw_dom s) (this_key s)) as [k|]; cbn [from_option id]; [|by change (-1 <? 0) with true].
  destruct (k <? 0); [done|].
  destruct (_ && _) eqn:E; [|done]. intros [= <-]. apply andb_prop in E as [E1%bool_decide_eq_true E2].
  apply orb_prop in E2 as [E2%bool_decide_eq_true|E2%bool_decide_eq_true]; auto.
Qed.

(** ** After a service, before the switch *)

Record served (s s1 : fw_state) (g1 : ghost) : Prop := {
  se_there : is_Some (fw_slots s1);
  se_dom : fw_dom s1 = fw_dom s;
  se_slots k : bs_state (slot_of s1 k) <> SLOT_FREE ->
    (cst (fw_dom s) k = CONTEXT_CALLING \/ k = this_key s /\ exists c, fw_request s1 = SWITCH_TO c) /\
    g1 k = Some (bs_msg (slot_of s1 k), bs_out_size (slot_of s1 k));
}.

(** Nothing about the slots *)
Definition aside (s s1 : fw_state) : Prop := fw_slots s1 = fw_slots s /\ fw_dom s1 = fw_dom s /\
  (fw_request s1 = fw_request s \/ exists c, fw_request s1 = SWITCH_YIELD c).

Lemma aside_served (s s1 : fw_state) (g : ghost) (c : nat) (buf : list Z) :
  slots_ok s g -> aside s s1 -> served s s1 (note g s s1 c buf).
Proof.
  intros [H1 H2 H3 H4] (Es & Ed & Er). assert (note g s s1 c buf = g) as ->.
  { unfold note. rewrite H2 in Er. by destruct Er as [->|[c' ->]]. }
  split; [by rewrite Es|done|]. intros k Hk. unfold slot_of in *. rewrite Es in *. destruct (H4 k Hk). auto.
Qed.

(** The slot of the caller goes on *)
Lemma caller_served (s s1 : fw_state) (g : ghost) (c : nat) (buf : list Z) (key : Z) (f : bridge_slot -> bridge_slot) (r : switch_request) :
  slots_ok s g -> caller_waits (fw_dom s) (this_key s) = Some key -> bs_state (slot_of s key) <> SLOT_FREE ->
  (forall sl, bs_msg (f sl) = bs_msg sl /\ bs_out_size (f sl) = bs_out_size sl) ->
  (r = SWITCH_NONE \/ r = SWITCH_BACK c) ->
  s1 = (slot_update s key f) <| fw_request := r |> -> served s s1 (note g s s1 c buf).
Proof.
  intros Hok Hc Hnf Hf Hr ->. destruct Hok as [H1 H2 H3 H4]. destruct (H4 key Hnf) as [Hck Hg].
  set (s1 := _ <| fw_request := r |>). assert (note g s s1 c buf = g) as -> by (unfold note; change (fw_request s1) with r; by destruct Hr as [->| ->]).
  split; [by apply slot_update_there|done|].
  intros k. change (slot_of s1 k) with (slot_of (slot_update s key f) k). rewrite slot_update_at by done. case_decide as E.
  - intros _. destruct (Hf (slot_of s key)) as [-> ->]. subst k. auto.
  - intros Hk. destruct (H4 k Hk). auto.
Qed.

Lemma retrieve_served (s : fw_state) (g : ghost) (c : nat) (buf : list Z) (start max rc rest : Z) (data : list Z) (s1 : fw_state) :
  slots_ok s g -> retrieve s c start max = (rc, data, rest, s1) -> aside s s1 \/ served s s1 (note g s s1 c buf) /\ rc = RPMI_SUCCESS.
Proof.
  intros Hok. unfold retrieve. destruct (slot_for s c) as [key|] eqn:Ef.
  - destruct (_ <=? _); [intros [= <- <- <- <-]; left; by split_and!; auto|]. intros [= <- <- <- <-]. right. split; [|done].
    destruct (slot_for_caller s c key Ef) as (Hc & _ & Hst).
    apply (caller_served s _ g c buf key (fun sl => sl <| bs_state := SLOT_RETRIEVED |>) SWITCH_NONE); [done|done| |done|by left|].
    + by destruct Hst as [->| ->].
    + pose proof (so_none _ _ Hok) as Hn. destruct s. cbn in Hn. subst. done.
  - destruct (reqfwd_retrieve _ _ _) as [[[rc' data'] rem'] q]. intros [= <- <- <- <-]. left. by split_and!; auto.
Qed.

Lemma complete_served (s : fw_state) (g : ghost) (c : nat) (buf rsp : list Z) (rc rest : Z) (s1 : fw_state) :
  slots_ok s g -> complete s c rsp = (rc, rest, s1) -> served s s1 (note g s s1 c buf).
Proof.
  intros Hok. unfold complete. cbv zeta. set (d := fc_owner (fw_chan s c)).
  assert (forall x, (let '(rc, rest, q) := reqfwd_complete (fw_queues s d) rsp in (rc, rest, queue_update s d q)) = x -> served s x.2 (note g s x.2 c buf)) as Hq.
  { intros x <-. destruct (reqfwd_complete _ _) as [[rc' rest'] q]. apply aside_served; [done|]. by split_and!; auto. }
  destruct (slot_for s c) as [key|] eqn:Ef; [|by intros H; apply Hq in H].
  destruct (slot_for_caller s c key Ef) as (Hc & _ & Hst). case_bool_decide as Er; [|by intros H; apply Hq in H].
  intros H. injection H as <- <- <-. eapply (caller_served s _ g c buf key _ (SWITCH_BACK c)); [done|done|by rewrite Er| |by right|reflexivity].
  done.
Qed.

Lemma enable_aside (s : fw_state) (c : nat) (buf : list Z) (len event : Z) : aside s (enable_notification s c buf len event).2.
Proof.
  unfold enable_notification, status_only. destruct (_ || _); [by split_and!; auto|]. destruct (_ || _); [by split_and!; auto|].
  destruct (_ <? 2); by split_and!; auto.
Qed.

Lemma reqfwd_service_served (s : fw_state) (g : ghost) (c : nat) (service : Z) (buf : list Z) (len max_len resp_max : Z) :
  slots_ok s g -> let s1 := (reqfwd_service s c service buf len max_len resp_max).2 in served s s1 (note g s s1 c buf).
Proof.
  intros Hok. unfold reqfwd_service. assert (served s s (note g s s c buf)) as Hs by (apply aside_served; [done|by split_and!; auto]).
  destruct (service =? RPMI_SERVICE_ENABLE_NOTIFICATION); [apply aside_served; [done|apply enable_aside]|].
  destruct (service =? RPMI_REQFWD_RETRIEVE_CURRENT_MESSAGE).
  { destruct (negb _); [done|]. destruct (retrieve _ _ _ _) as [[[rc data] rest] s1] eqn:Er.
    destruct (retrieve_served s g c buf _ _ _ _ _ _ Hok Er) as [Ha|[Hsv ->]].
    - assert (served s s1 (note g s s1 c buf)) by (by apply aside_served). destruct (_ && _); [|by destruct (truth rc)].
      apply aside_served; [done|]. destruct Ha as (? & ? & _). split_and!; [done|done|]. right. by exists c.
    - done. }
  destruct (service =? RPMI_REQFWD_COMPLETE_CURRENT_MESSAGE); [|done]. destruct (_ || _); [done|].
  destruct (complete _ _ _) as [[rc rest] s1] eqn:Ec. exact (complete_served s g c buf _ _ _ _ Hok Ec).
Qed.

Lemma mm_answer_state (s : fw_state) (buf rsp : list Z) (out_size rc : Z) : (mm_answer s buf out_size rc rsp).2 = s.
Proof. unfold mm_answer, mm_fails. cbv zeta. match goal with |- (if truth ?x then _ else _).2 = s => by destruct (truth x) end. Qed.

Lemma mm_service_served (s : fw_state) (g : ghost) (c : nat) (service : Z) (buf : list Z) (len timeout : Z) :
  send_keeps -> slots_ok s g -> let s1 := (mm_service reqfwd_send s c service buf len timeout).2 in served s s1 (note g s s1 c buf).
Proof.
  intros Hkeep Hok. unfold mm_service. cbv zeta. assert (forall s1, aside s s1 -> served s s1 (note g s s1 c buf)) as Ha by (intros; by apply aside_served).
  assert (aside s s) as Hr by (by split_and!; auto).
  destruct (service =? RPMI_SERVICE_ENABLE_NOTIFICATION); [apply Ha, enable_aside|].
  destruct (service =? RPMI_MM_GET_ATTRIBUTES); [destruct (truth len); by apply Ha|].
  destruct (negb (service =? _)); [by apply Ha|]. destruct (negb (len =? 16)); [by apply Ha|].
  destruct (negb (mm_range_ok _ _ _) || _); [by apply Ha|].
  set (token := wrap _). set (s2 := fw_update s c _). assert (aside s s2) as H2 by (by split_and!; auto).
  destruct (match fc_bridge_target _ with Some _ => _ | None => false end).
  - cbn [snd]. set (s3 := _ <| fw_request := SWITCH_TO c |>). assert (note g s s3 c buf = <[this_key s := Some (forwarded s c buf)]> g) as -> by done.
    destruct Hok as [H1 _ H3 H4]. split; [|done|].
    + destruct H1 as [t Et]. change (fw_slots s3) with ((fun t : Z -> bridge_slot => <[this_key s2 := BridgeSlot SLOT_SENT 0 (fc_bridge_target (fw_chan s c))
        (dec32 buf 3) (mm_message (token mod 2 ^ 16) (take 16 buf)) 0 (replicate 8 0)]> t) <$> fw_slots s). by rewrite Et.
    + intros k. change (slot_of s3 k) with (slot_of (slot_update s2 (this_key s2) (fun _ => BridgeSlot SLOT_SENT 0 (fc_bridge_target (fw_chan s c))
        (dec32 buf 3) (mm_message (token mod 2 ^ 16) (take 16 buf)) 0 (replicate 8 0))) k).
      rewrite slot_update_at by done. change (this_key s2) with (this_key s). case_decide as E.
      * intros _. subst k. rewrite fn_lookup_insert. split; [right; split; [done|by exists c]|done].
      * intros Hk. rewrite fn_lookup_insert_ne by congruence. destruct (H4 k Hk). auto.
  - destruct (negb (q_served _)); [by apply Ha|]. destruct (reqfwd_send s2 _ _ _ _) as [[rc rsp] s3] eqn:Es.
    destruct (Hkeep s2 (fc_target (fw_chan s c)) (mm_message (token mod 2 ^ 16) (take 16 buf)) 8 timeout) as (E1 & E2 & E3).
    rewrite Es in E1, E2, E3. cbn [snd] in E1, E2, E3. assert (aside s s3) as H3 by (split_and!; [done|done|by left]).
    rewrite mm_answer_state. by apply Ha.
Qed.

Lemma fw_send_served (s : fw_state) (g : ghost) (c : nat) (ch : mpxy_channel) (msg_id : Z) (buf : list Z) (len resp_max : Z) (want : bool) :
  send_keeps -> slots_ok s g -> let s1 := (fw_send reqfwd_send s c ch msg_id buf len resp_max want).2 in served s s1 (note g s s1 c buf).
Proof.
  intros Hkeep Hok. unfold fw_send. destruct (_ || _); [apply aside_served; [done|by split_and!; auto]|].
  destruct (_ || _); [apply aside_served; [done|by split_and!; auto]|].
  destruct (_ =? _); [by apply reqfwd_service_served|by apply mm_service_served].
Qed.

(** ** The switch *)

(** The slot of the running domain is free after it *)
Lemma resumed_slots (s : fw_state) (regs : trap_regs) :
  is_Some (fw_slots s) ->
  let s' := (mpxy_context_resumed s regs).1 in
  is_Some (fw_slots s') /\ fw_dom s' = fw_dom s /\ fw_request s' = fw_request s /\
  (bs_state (slot_of s' (this_key s)) = SLOT_FREE) /\ (forall k, k <> this_key s -> slot_of s' k = slot_of s k).
Proof.
  intros Hs. unfold mpxy_context_resumed. destruct Hs as [f Ef]. rewrite Ef. case_bool_decide as Es.
  { cbn [fst]. split_and!; try done; unfold slot_of; rewrite Ef; done. }
  destruct (slot_answer _) as [status written]. set (s1 := slot_update s (this_key s) _).
  assert (is_Some (fw_slots s)) as Hs by (by rewrite Ef). assert (is_Some (fw_slots s1)) as Hs1 by (by apply slot_update_there).
  assert (forall l, fw_slots (shmem_put s1 l) = fw_slots s1 /\ fw_dom (shmem_put s1 l) = fw_dom s1 /\ fw_request (shmem_put s1 l) = fw_request s1) as Hp.
  { intros l. unfold shmem_put. by destruct (_ =? _). }
  cbn [fst]. destruct (Hp [(0, status); (1, written)]) as (E1 & E2 & E3). rewrite E1, E2, E3. split_and!; try done.
  - unfold slot_of. rewrite E1. change (bs_state (slot_of s1 (this_key s)) = SLOT_FREE). unfold s1. rewrite slot_update_at by done. by rewrite decide_True.
  - intros k Hk. unfold slot_of at 1. rewrite E1. change (slot_of s1 k = slot_of s k). unfold s1. rewrite slot_update_at by done. by rewrite decide_False.
Qed.

(** What a switch leads to: [base] is the state before it *)
Definition arrived (s1 s2 : fw_state) (to : Z) (here : context_state) : Prop :=
  this_key s2 = to /\ (forall k, cst (fw_dom s2) k = if decide (k = to) then CONTEXT_RUNNING
    else if decide (k = this_key s1) then here else cst (fw_dom s1) k) /\
  is_Some (fw_slots s2) /\ fw_request s2 = fw_request s1 /\
  (forall k, k <> to -> slot_of s2 k = slot_of s1 k) /\
  (slot_of s2 to = slot_of s1 to /\ cst (fw_dom s1) to = CONTEXT_NONE \/ bs_state (slot_of s2 to) = SLOT_FREE).

Lemma after_switch_arrived (s1 s2 : fw_state) (m : moved) (to rc : Z) (here : context_state) (regs : trap_regs) :
  is_Some (fw_slots s1) -> after_switch s1 (never_ran s1 to) m = Some (rc, s2, regs) -> truth rc = false ->
  (forall d rc' r, m = Moved rc' d r -> this_domain d = to /\
     forall k, cst d k = if decide (k = to) then CONTEXT_RUNNING else if decide (k = this_key s1) then here else cst (fw_dom s1) k) ->
  arrived s1 s2 to here.
Proof.
  intros Hs H Hrc Hm. unfold after_switch in H. destruct m as [rc' d r|]; [|done]. destruct (Hm d rc' r eq_refl) as [Hto Hk].
  set (s := s1 <| fw_dom := d |>) in *. assert (rc' = rc) as ->.
  { destruct (truth rc' || _); [by injection H|]. destruct (mpxy_context_resumed s r). by injection H. }
  rewrite Hrc in H. cbn [orb] in H. unfold never_ran in H. case_bool_decide as Ef.
  - injection H as <- <-. split_and!; try done. by left.
  - destruct (mpxy_context_resumed s r) as [s' r'] eqn:Er. injection H as <- <-.
    destruct (resumed_slots s r Hs) as (A & B & C & D & E). rewrite Er in A, B, C, D, E. cbn [fst] in A, B, C, D, E.
    assert (this_key s = to) as Ek by done. rewrite Ek in D, E.
    split_and!; try done; [unfold this_key; by rewrite B|intros k; rewrite B; apply Hk|by right].
Qed.

(** The slots are in order after a switch, if they were but for this hart's
    own message *)
Lemma arrived_ok (s1 s2 : fw_state) (g : ghost) (to : Z) (here : context_state) :
  fw_request s1 = SWITCH_NONE -> arrived s1 s2 to here ->
  (forall k, bs_state (slot_of s1 k) <> SLOT_FREE ->
     (cst (fw_dom s1) k = CONTEXT_CALLING \/ k = this_key s1 /\ here = CONTEXT_CALLING) /\
     g k = Some (bs_msg (slot_of s1 k), bs_out_size (slot_of s1 k))) ->
  (here <> CONTEXT_CALLING -> bs_state (slot_of s1 (this_key s1)) = SLOT_FREE) -> to <> this_key s1 ->
  slots_ok s2 g.
Proof.
  intros Hreq (Hto & Hst & Hs & Hr & Hsl & Hslto) Hok Hown Hne. split; [done|congruence|rewrite Hst, Hto; by rewrite decide_True|].
  intros k Hk. destruct (decide (k = to)) as [->|Hkt].
  - destruct Hslto as [[E En]|E]; [|done]. rewrite E in Hk. destruct (Hok to Hk) as [[Hc|[? _]] _]; congruence.
  - rewrite Hsl in * by done. destruct (Hok k Hk) as [Hc Hg]. split; [|done]. rewrite Hst, decide_False by done.
    destruct (decide (k = this_key s1)) as [->|Hkt1].
    + destruct (decide (here = CONTEXT_CALLING)) as [|Hnc]; [done|]. by rewrite (Hown Hnc) in Hk.
    + by destruct Hc as [Hc|[? _]].
Qed.

Lemma running_slot_free (s : fw_state) (g : ghost) : slots_ok s g -> bs_state (slot_of s (this_key s)) = SLOT_FREE.
Proof.
  intros [_ _ Hr Hs]. destruct (decide (bs_state (slot_of s (this_key s)) = SLOT_FREE)) as [|Hn]; [done|].
  destruct (Hs _ Hn) as [Hc _]. congruence.
Qed.

(** The contexts are where they were *)
Lemma same_states_ok (s : fw_state) (g : ghost) (d : dstate) :
  slots_ok s g -> this_domain d = this_key s -> (forall k, cst d k = cst (fw_dom s) k) -> slots_ok (s <| fw_dom := d |>) g.
Proof.
  intros [H1 H2 H3 H4] Ht Hk. split; [done|done| |].
  - change (cst d (this_domain d) = CONTEXT_RUNNING). by rewrite Hk, Ht.
  - intros k. change (slot_of (s <| fw_dom := d |>) k) with (slot_of s k). change (fw_dom (s <| fw_dom := d |>)) with d. rewrite Hk. apply H4.
Qed.

Lemma enter_ok (s : fw_state) (g : ghost) (regs : trap_regs) (target arg rc : Z) (s' : fw_state) (regs' : trap_regs) :
  slots_ok s g -> plain_enter s regs target arg = Some (rc, s', regs') -> slots_ok s' g.
Proof.
  intros Hok H. unfold plain_enter, domain_enter in H. pose proof H as H'. unfold after_switch in H'.
  destruct (enter _ _ _ _ _) as [rc1 d r|] eqn:Em; [|done].
  pose proof (enter_states _ _ _ _ _ _ _ _ Em) as He. destruct (truth rc1) eqn:Et; cbn [orb] in H'.
  { destruct He as [-> ->]. injection H' as <- <- <-. by apply same_states_ok. }
  destruct He as (Hto & Hne & Hnc & Hst). assert (rc1 = rc) as ->.
  { destruct (never_ran s target); [by injection H'|]. destruct (mpxy_context_resumed _ _). by injection H'. }
  apply (arrived_ok s s' g target CONTEXT_CALLING); [apply Hok| | |done|done].
  - eapply after_switch_arrived; [apply Hok|exact H|done|]. by intros d' rc' r' [= _ <- _].
  - intros k Hk. destruct (so_slots _ _ Hok k Hk). auto.
Qed.

Lemma leave_ok (s : fw_state) (g : ghost) (regs : trap_regs) (value rc : Z) (quiet : bool) (first : option Z) (s' : fw_state) (regs' : trap_regs) :
  slots_ok s g ->
  after_switch s (match leave_target (fw_dom s) quiet first with Some d => never_ran s d | None => false end)
    (leave (fw_dom s) regs value quiet first) = Some (rc, s', regs') -> slots_ok s' g.
Proof.
  intros Hok H. pose proof H as H'. unfold after_switch in H'. destruct (leave _ _ _ _ _) as [rc1 d r|] eqn:Em; [|done].
  pose proof (leave_states _ _ _ _ _ _ _ _ Em) as He. destruct (truth rc1) eqn:Et; cbn [orb] in H'.
  { destruct He as (Ht & _ & _ & Hk). injection H' as <- <- <-. by apply same_states_ok. }
  destruct He as (to & Etg & Hto & Hst). rewrite Etg in H, H'. assert (rc1 = rc) as ->.
  { destruct (never_ran s to); [by injection H'|]. destruct (mpxy_context_resumed _ _). by injection H'. }
  pose proof (so_running _ _ Hok) as Hrun.
  apply (arrived_ok s s' g to CONTEXT_IDLE); [apply Hok| | | |].
  - eapply after_switch_arrived; [apply Hok|exact H|done|]. by intros d' rc' r' [= _ <- _].
  - intros k Hk. destruct (so_slots _ _ Hok k Hk). auto.
  - intros _. by apply (running_slot_free s g).
  - intros ->. destruct (leave_target_cases _ _ _ _ Etg) as [Hc|Hc]; [apply caller_calls in Hc|]; congruence.
Qed.

Lemma back_ok (s : fw_state) (g : ghost) (regs : trap_regs) (first : option Z) (rc : Z) (s' : fw_state) (regs' : trap_regs) :
  slots_ok s g -> switch_back s regs first = Some (rc, s', regs') -> slots_ok s' g.
Proof. apply leave_ok. Qed.

Lemma shmem_put_ok (s : fw_state) (g : ghost) (l : list (Z * Z)) : slots_ok s g -> slots_ok (shmem_put s l) g.
Proof. intros [H1 H2 H3 H4]. unfold shmem_put. destruct (_ =? _); by split. Qed.

Lemma yield_ok (owners : list Z) (s : fw_state) (g : ghost) (regs : trap_regs) (away : bool) (s' : fw_state) (regs' : trap_regs) :
  slots_ok s g -> yield_loop s regs owners = Some (away, s', regs') -> slots_ok s' g.
Proof.
  revert s regs. induction owners as [|d owners IH]; intros s regs Hok; cbn [yield_loop]; [by intros [= <- <- <-]|].
  destruct (switch_back s regs (Some d)) as [[[rc s1] r1]|] eqn:Es; cbn [mbind option_bind]; [|done].
  pose proof (back_ok _ _ _ _ _ _ _ Hok Es) as Hok1. destruct (negb (truth rc)); [by intros [= <- <- <-]|]. by apply IH.
Qed.

(** A switch that was refused: the sender goes on, with its slot free *)
Lemma refused_ok (s s0 : fw_state) (g g1 : ghost) (f : bridge_slot -> bridge_slot) (regs : trap_regs) :
  slots_ok s g -> is_Some (fw_slots s0) -> fw_dom s0 = fw_dom s -> fw_request s0 = SWITCH_NONE ->
  (forall k, k <> this_key s -> bs_state (slot_of s0 k) <> SLOT_FREE ->
     cst (fw_dom s) k = CONTEXT_CALLING /\ g1 k = Some (bs_msg (slot_of s0 k), bs_out_size (slot_of s0 k))) ->
  slots_ok (mpxy_context_resumed (slot_update s0 (this_key s0) f) regs).1 g1.
Proof.
  intros Hok Hs Hd Hr Hk. assert (this_key s0 = this_key s) as Ekey by (unfold this_key; by rewrite Hd).
  set (s4 := slot_update _ _ _). destruct (resumed_slots s4 regs) as (A & B & C & D & E); [by apply slot_update_there|].
  set (s5 := (mpxy_context_resumed s4 regs).1) in *. change (this_key s4) with (this_key s0) in D, E. rewrite Ekey in D, E.
  assert (fw_dom s5 = fw_dom s) as Ed5 by (rewrite B; exact Hd).
  assert (this_key s5 = this_key s) as Ek5 by (unfold this_key; by rewrite Ed5).
  split; [done|by rewrite C|rewrite Ek5, Ed5; apply Hok|].
  intros k Hkf. destruct (decide (k = this_key s)) as [->|Hne]; [by rewrite D in Hkf|].
  rewrite E in * by done. unfold s4 in *. rewrite slot_update_at in * by done. rewrite Ekey, decide_False in * by done. rewrite Ed5. by apply Hk.
Qed.

Lemma pending_ok (s s1 s2 : fw_state) (g g1 : ghost) (regs regs' : trap_regs) (error value : Z) (away : bool) :
  slots_ok s g -> served s s1 g1 -> mpxy_switch_pending s1 regs error value = Some (away, s2, regs') -> slots_ok s2 g1.
Proof.
  intros Hok [Hs Hd Hsl] H. unfold mpxy_switch_pending in H. destruct (fw_slots s1) as [f|] eqn:Ef; [|by destruct Hs].
  set (s0 := s1 <| fw_request := SWITCH_NONE |>) in *. assert (is_Some (fw_slots s0)) as Hs0 by (change (is_Some (fw_slots s1)); by rewrite Ef).
  assert (this_key s0 = this_key s) as Ekey by (unfold this_key; change (fw_dom s0) with (fw_dom s1); by rewrite Hd).
  assert ((forall c, fw_request s1 <> SWITCH_TO c) -> slots_ok s0 g1) as Hplain.
  { intros Hn. split; [done|done| |].
    - rewrite Ekey. change (fw_dom s0) with (fw_dom s1). rewrite Hd. apply Hok.
    - intros k Hk. change (slot_of s0 k) with (slot_of s1 k) in *. change (fw_dom s0) with (fw_dom s1). rewrite Hd.
      destruct (Hsl k Hk) as [[?|[_ [c Hc]]] ?]; [done|]. by destruct (Hn c). }
  destruct (fw_request s1) as [|c|c|c] eqn:Er.
  - injection H as <- <- <-. by apply Hplain.
  - clear Hplain. destruct (switch_to s0 regs _) as [[[rc s3] r3]|] eqn:Ew; cbn [mbind option_bind] in H; [|done].
    set (target := fc_target (fw_chan s0 c)) in *. unfold switch_to, domain_switch_to in Ew.
    destruct (truth rc) eqn:Et.
    + assert (s3 = s0 <| fw_dom := fw_dom s0 |>) as ->.
      { destruct (domain_enterable _ _); [|by injection Ew as <- <- <-]. unfold after_switch in Ew.
        destruct (enter _ _ _ _ _) as [rc1 d r|] eqn:Em; [|done]. pose proof (enter_states _ _ _ _ _ _ _ _ Em) as He.
        destruct (truth rc1) eqn:Et1; cbn [orb] in Ew; [destruct He as [-> ->]; by injection Ew|].
        destruct (never_ran s0 target); [injection Ew as <- _ _; congruence|]. destruct (mpxy_context_resumed _ _). injection Ew as <- _ _. congruence. }
      change (s0 <| fw_dom := fw_dom s0 |>) with s0 in H.
      match type of H with (let '(_, _) := mpxy_context_resumed (slot_update s0 (this_key s0) ?f) ?r in _) = _ =>
        pose proof (refused_ok s s0 g g1 f r Hok Hs0 Hd eq_refl) as Href; destruct (mpxy_context_resumed (slot_update s0 (this_key s0) f) r) end.
      injection H as <- <- <-. apply Href. intros k Hne Hk. change (slot_of s0 k) with (slot_of s1 k) in *.
      destruct (Hsl k Hk) as [[?|[? _]] ?]; [done|by subst].
    + injection H as <- <- <-. destruct (domain_enterable _ _); cbn [domain_enter] in Ew; [|unfold after_switch in Ew; by injection Ew as <- _ _].
      unfold after_switch in Ew. destruct (enter _ _ _ _ _) as [rc1 d r|] eqn:Em; [|done]. pose proof (enter_states _ _ _ _ _ _ _ _ Em) as He.
      assert (rc1 = rc) as ->.
      { destruct (truth rc1); cbn [orb] in Ew; [by injection Ew|]. destruct (never_ran s0 target); [by injection Ew|].
        destruct (mpxy_context_resumed _ _). by injection Ew. }
      rewrite Et in He. destruct He as (Hto & Hne & Hnc & Hst).
      apply (arrived_ok s0 s3 g1 target CONTEXT_CALLING); [done| | |done|done].
      * eapply (after_switch_arrived s0 s3 (Moved rc d r)); [done|exact Ew|done|]. by intros d' rc' r' [= _ <- _].
      * intros k Hk. change (slot_of s0 k) with (slot_of s1 k) in *. change (fw_dom s0) with (fw_dom s1). rewrite Hd, Ekey.
        destruct (Hsl k Hk) as [[?|[? _]] ?]; auto.
  - destruct (switch_back s0 _ None) as [[[rc s3] r3]|] eqn:Ew; cbn [mbind option_bind] in H; [|done]. injection H as <- <- <-.
    exact (back_ok _ _ _ _ _ _ _ (Hplain ltac:(done)) Ew).
  - destruct (switch_back s0 _ None) as [[[rc s3] r3]|] eqn:Ew; cbn [mbind option_bind] in H; [|done].
    pose proof (back_ok _ _ _ _ _ _ _ (Hplain ltac:(done)) Ew) as Hok3. destruct (negb (truth rc)); [by injection H as <- <- <-|].
    destruct (yield_loop s3 r3 _) as [[[aw s4] r4]|] eqn:Ey; cbn [mbind option_bind] in H; [|done].
    pose proof (yield_ok _ _ _ _ _ _ _ Hok3 Ey) as Hok4. destruct aw; injection H as <- <- <-; [done|by apply shmem_put_ok].
Qed.

Lemma fw_step_ok (x y : fw_state * ghost) : send_keeps -> slots_ok x.1 x.2 -> fw_step x y -> slots_ok y.1 y.2.
Proof.
  intros Hkeep Hok Hstep. destruct Hstep as
    [s g c ch msg_id buf len resp_max want regs rc buf' n s1 away s2 regs' Hsend Hsw|s g c buf max|s g regs target arg rc s' regs' H
    |s g regs value rc s' regs' H|s g chans queues mem d Ht Hk]; cbn [fst snd] in *.
  - pose proof (fw_send_served s g c ch msg_id buf len resp_max want Hkeep Hok) as Hsv. rewrite Hsend in Hsv. cbn [snd] in Hsv.
    exact (pending_ok s s1 s2 g _ regs regs' rc n away Hok Hsv Hsw).
  - destruct Hok as [H1 H2 H3 H4]. unfold fw_get_events. destruct (_ || _); [done|]. destruct (negb (fc_new_message _)); [done|].
    destruct (negb (truth _)); done.
  - by apply (enter_ok s g regs target arg rc s' regs').
  - by apply (leave_ok s g regs value rc false None s' regs').
  - destruct Hok as [H1 H2 H3 H4]. split; [done|done| |].
    + change (cst d (this_domain d) = CONTEXT_RUNNING). by rewrite Hk, Ht.
    + intros k. change (slot_of (_ <| fw_dom := d |>) k) with (slot_of s k). change (fw_dom (_ <| fw_dom := d |>)) with d. rewrite Hk. apply H4.
Qed.

Lemma fw_runs_ok (x y : fw_state * ghost) : send_keeps -> slots_ok x.1 x.2 -> rtc fw_step x y -> slots_ok y.1 y.2.
Proof. intros Hkeep Hok Hrun. induction Hrun as [x|x y z Hs _ IH]; [done|]. apply IH. by eapply fw_step_ok. Qed.

(** No message yet *)
Definition quiet_start (s : fw_state) : Prop :=
  fw_slots s = Some (fun _ => slot_free) /\ fw_request s = SWITCH_NONE /\ cst (fw_dom s) (this_key s) = CONTEXT_RUNNING.

(** What the sender is told of a response *)
Definition told (out : Z) (rsp : list Z) : Z * Z :=
  if 8 <? Z.of_nat (length rsp) then (low32 RPMI_ERR_BAD_RANGE, 0)
  else if (Z.of_nat (length rsp) =? 8) && (dec32 rsp 1 <=? out) then (dec32 rsp 0, dec32 rsp 1)
  else (low32 RPMI_ERR_IO, 0).

Lemma retrieve_slot (s : fw_state) (c : nat) (k start max : Z) :
  slot_for s c = Some k ->
  let msg := bs_msg (slot_of s k) in
  (retrieve s c start max).1 =
    if Z.of_nat (length msg) <=? start then (RPMI_ERR_INVALID_PARAM, [], 0)
    else (RPMI_SUCCESS, take (Z.to_nat (Z.min (Z.of_nat (length msg) - start) max)) (drop (Z.to_nat start) msg),
          Z.of_nat (length msg) - start - Z.min (Z.of_nat (length msg) - start) max).
Proof. intros H. unfold retrieve. rewrite H. by destruct (_ <=? _). Qed.

Lemma complete_slot (s : fw_state) (c : nat) (k : Z) (rsp : list Z) :
  is_Some (fw_slots s) -> slot_for s c = Some k -> bs_state (slot_of s k) = SLOT_RETRIEVED ->
  let s1 := (complete s c rsp).2 in
  slot_answer (slot_of s1 k) = told (bs_out_size (slot_of s k)) rsp /\ fw_request s1 = SWITCH_BACK c /\
  bs_state (slot_of s1 k) <> SLOT_FREE /\ fw_dom s1 = fw_dom s /\ fw_mem s1 = fw_mem s.
Proof.
  intros Hs Hf Hst. unfold complete. cbv zeta. rewrite Hf, bool_decide_eq_true_2 by done. cbn [snd].
  match goal with |- context [?x <| fw_request := _ |>] => set (s1 := x) end.
  change (slot_of (s1 <| fw_request := _ |>) k) with (slot_of s1 k). unfold s1. rewrite slot_update_at, decide_True by done.
  split_and!; [|done| |done|done].
  - unfold told, slot_answer. cbn [bs_state bs_error bs_rsp_len bs_out_size bs_rsp field_update].
    destruct (Z.leb_spec (Z.of_nat (length rsp)) 8) as [Hle|Hgt].
    + rewrite (proj2 (Z.ltb_ge 8 _)) by lia. cbn. rewrite Z.leb_antisym. destruct (_ =? 8); cbn [negb andb orb]; [|done]. by destruct (_ <? _).
    + by rewrite (proj2 (Z.ltb_lt 8 _)) by lia.
  - cbn [bs_state field_update]. by destruct (_ <=? 8).
Qed.

(** Out of a domain whose caller waits, while it is not being stopped: the
    hart is in the caller's context. *)
Lemma leave_to_caller (s : dstate) (regs : trap_regs) (value k : Z) (quiet : bool) (first : option Z) :
  caller_waits s (this_domain s) = Some k -> k <> this_domain s -> truth (d_stopping (dom_at s (this_domain s))) = false ->
  exists d r, leave s regs value quiet first = Moved SBI_SUCCESS d r /\ this_domain d = k.
Proof.
  intros Hc Hne Hst. assert (leave_target s quiet first = Some k) as Et by (unfold leave_target; by rewrite Hc).
  destruct (leave s regs value quiet first) as [rc d r|d] eqn:El.
  - pose proof (leave_states _ _ _ _ _ _ _ _ El) as H. unfold leave in El. cbv zeta in El. rewrite Et, Hc, Hst in El.
    destruct (cst_switch _ _ _ k _ _ _ _ _ El) as [-> _]. change (truth SBI_SUCCESS) with false in H. cbv iota in H.
    destruct H as (to & Et' & Hto & _). exists d, r. split; [done|]. congruence.
  - exfalso. unfold leave in El. cbv zeta in El. rewrite Et, Hc, Hst in El. unfold context_switch in El. cbv zeta in El.
    case_bool_decide as Ef; [|done]. pose proof (caller_calls _ _ _ Hc) as Hk.
    match type of Ef with c_state (context_of ?t k) = _ => assert (cst t k = CONTEXT_CALLING) as Hk' end.
    { rewrite cst_park, decide_False, cst_ctx_same by done. exact Hk. }
    unfold MpxyFwProps.cst in Hk'. congruence.
Qed.

(** Back in the caller's context, the answer of its slot is in its memory and
    its registers, and the slot is free. *)
Lemma back_told (s1 : fw_state) (c : nat) (k error value : Z) (regs : trap_regs) :
  fw_request s1 = SWITCH_BACK c -> is_Some (fw_slots s1) ->
  caller_waits (fw_dom s1) (this_key s1) = Some k -> k <> this_key s1 -> bs_state (slot_of s1 k) <> SLOT_FREE ->
  truth (d_stopping (dom_at (fw_dom s1) (this_key s1))) = false ->
  exists s2 r, mpxy_switch_pending s1 regs error value = Some (true, s2, trap_reg_set (trap_reg_set r A0 SBI_SUCCESS) A1 8) /\
    this_key s2 = k /\ bs_state (slot_of s2 k) = SLOT_FREE /\
    let mem := hw_shmem (ds_hw (fw_dom s2)) in
    let '(status, written) := slot_answer (slot_of s1 k) in
    fw_mem s2 = if mem =? MPXY_SHMEM_NONE then fw_mem s1 else set_word (set_word (fw_mem s1) mem 0 status) mem 1 written.
Proof.
  intros Hr [f Ef] Hc Hne Hnf Hst. unfold mpxy_switch_pending. rewrite Ef, Hr. cbv zeta.
  set (s0 := s1 <| fw_request := SWITCH_NONE |>). set (regs2 := trap_reg_set (trap_reg_set regs A0 _) A1 _).
  unfold switch_back, domain_switch_back. assert (leave_target (fw_dom s0) true None = Some k) as Et.
  { change (fw_dom s0) with (fw_dom s1). unfold leave_target. unfold this_key in Hc. by rewrite Hc. }
  rewrite Et. destruct (leave_to_caller (fw_dom s0) regs2 0 k true None Hc Hne Hst) as (d & r & -> & Hto).
  assert (never_ran s0 k = false) as ->.
  { unfold never_ran. apply bool_decide_eq_false_2. pose proof (caller_calls _ _ _ Hc) as Hk. unfold MpxyFwProps.cst in Hk.
    change (fw_dom s0) with (fw_dom s1). congruence. }
  unfold after_switch. change (truth SBI_SUCCESS) with false. cbn [orb].
  set (s3 := s0 <| fw_dom := d |>). unfold mpxy_context_resumed. change (fw_slots s3) with (fw_slots s1). rewrite Ef.
  assert (this_key s3 = k) as Ek by exact Hto. rewrite Ek. assert (f k = slot_of s1 k) as Efk by (unfold slot_of; by rewrite Ef). rewrite Efk.
  rewrite bool_decide_eq_false_2 by done. destruct (slot_answer (slot_of s1 k)) as [status written]. cbn [mbind option_bind].
  set (s4 := slot_update s3 k _). set (s5 := shmem_put s4 _).
  assert (fw_dom s5 = d /\ fw_slots s5 = fw_slots s4) as [Ed Es] by (unfold s5, shmem_put; by destruct (_ =? _)).
  exists s5, r. split_and!; [done|unfold this_key; by rewrite Ed| |].
  - unfold slot_of. rewrite Es. change (bs_state (slot_of s4 k) = SLOT_FREE). unfold s4. rewrite slot_update_at, decide_True by (done || by rewrite Ef). done.
  - rewrite Ed. unfold s5, shmem_put. change (fw_dom s4) with d. by destruct (_ =? _).
Qed.

(** C30: A message that travels with the hart is its sender's, and so
    is the answer. However the domains of a hart enter and leave each other,
    by calls of their own and by messages, as long as none is stopped: what
    a domain retrieves from a bridge is, byte for byte, the last message of
    the very domain whose call it serves, which still waits for it.  When it
    is completed, and the domain is not being stopped, the switch puts the
    hart back into the sender's context with a0 and a1 those of a call that
    succeeded with 8 bytes, and the words of the response in the sender's
    shared memory, if it has one; an error in their place where they are not
    8 bytes or say that more was written than the sender has room for. *)
Theorem bridge_message_own (s0 s : fw_state) (g0 g : ghost) (c : nat) (k : Z) :
  send_keeps -> quiet_start s0 -> rtc fw_step (s0, g0) (s, g) -> slot_for s c = Some k ->
  exists msg out, g k = Some (msg, out) /\ caller_waits (fw_dom s) (this_key s) = Some k /\
    (forall start max, 0 <= start < Z.of_nat (length msg) ->
      let n := Z.min (Z.of_nat (length msg) - start) max in
      (retrieve s c start max).1 = (RPMI_SUCCESS, take (Z.to_nat n) (drop (Z.to_nat start) msg), Z.of_nat (length msg) - start - n)) /\
    (forall rsp regs error value, bs_state (slot_of s k) = SLOT_RETRIEVED -> 0 <= out ->
      truth (d_stopping (dom_at (fw_dom s) (this_key s))) = false ->
      (told out rsp).2 <= out /\
      exists s2 r,
        mpxy_switch_pending (complete s c rsp).2 regs error value = Some (true, s2, trap_reg_set (trap_reg_set r A0 SBI_SUCCESS) A1 8) /\
        this_key s2 = k /\ bs_state (slot_of s2 k) = SLOT_FREE /\
        let mem := hw_shmem (ds_hw (fw_dom s2)) in
        fw_mem s2 = if mem =? MPXY_SHMEM_NONE then fw_mem s
                    else set_word (set_word (fw_mem s) mem 0 (told out rsp).1) mem 1 (told out rsp).2).
Proof.
  intros Hkeep (E1 & E2 & E3) Hrun Hf.
  assert (slots_ok s0 g0) as Hok0. { split; [by rewrite E1|done|done|]. intros k'. unfold slot_of. by rewrite E1. }
  pose proof (fw_runs_ok (s0, g0) (s, g) Hkeep Hok0 Hrun) as Hok. cbn [fst snd] in Hok. destruct (slot_for_caller s c k Hf) as (Hc & _ & Hst).
  destruct (so_slots _ _ Hok k) as [Hcall Hg]; [by destruct Hst as [->| ->]|].
  exists (bs_msg (slot_of s k)), (bs_out_size (slot_of s k)). split_and!; [done|done| |].
  - intros start max Hstart. cbv zeta. rewrite (retrieve_slot s c k) by done. by rewrite (proj2 (Z.leb_gt _ _)) by lia.
  - intros rsp regs error value Hret Hout Hnst. destruct (complete_slot s c k rsp (so_there _ _ Hok) Hf Hret) as (Ha & Hr & Hnf & Hd & Hm). split.
    { unfold told. destruct (8 <? _); [done|]. destruct (_ && _) eqn:E; [|done]. apply andb_prop in E as [_ E]. by apply Z.leb_le in E. }
    set (s1 := (complete s c rsp).2) in *. assert (this_key s1 = this_key s) as Ek by (unfold this_key; by rewrite Hd).
    assert (is_Some (fw_slots s1)) as Hs1.
    { unfold slot_of in Hnf. destruct (fw_slots s1); [done|]. by destruct Hnf. }
    assert (k <> this_key s) as Hne by (intros ->; pose proof (so_running _ _ Hok); congruence).
    destruct (back_told s1 c k error value regs Hr Hs1) as (s2 & r & H1 & H2 & H3 & H4); rewrite ?Hd, ?Ek; try done.
    exists s2, r. rewrite Ha in H4. rewrite <- Hm. by destruct (told _ rsp).
Qed.
End Bridge.
