(* ===== verification/MpxyFwExample.v ===== *)
(** A bridge between two domains that share hart 0: domain 1 sends, domain 2
    serves. *)

From stdpp Require Import functions relations.
From S2P Require Import Prelude Arch Csr Fields Memregion Bitstring Domain Hart Hsm DomainContext DomainContextProps DomainMoves Rpmi Mpxy MpxyRpmi Reqfwd MpxyFw MpxyFwProps.

#[local] Open Scope Z_scope.

Module SharedHart.
#[local] Instance rv64 : Arch := RV64.
#[local] Instance virt : Kconfig := qemu_virt.
#[local] Instance no_extension : Features := fun _ => false.
#[local] Instance two : HartTable := {| ht_ids := [0; 1]; ht_nodup := two_harts_nodup |}.
#[local] Instance hart0 : CtxEnv := {|
  ctx_self := 0; ctx_misa := 0; ctx_vec_bytes := 0; ctx_timer := true; ctx_memregions := []; ctx_mpxy_resumed := fun r => r;
|}.
#[local] Program Instance mpxy_config : MpxyConfig := {| CONFIG_MPXY_MSG_MAX_LEN := 1024 |}.
Next Obligation. lia. Qed.
#[local] Instance fw_config : FwConfig :=
  {| CONFIG_MPXY_RPMI_FW_MAX_CHANNELS := 8; CONFIG_SBI_IMPL_ID := 999; CONFIG_SBI_IMPL_VERSION := 1 |}.

Definition only0 : hartmask := hartmask_set hartmask_none 0.
Definition all_memory : domain_region := DomainRegion 0 XLEN DOMAIN_PERM_SU_RWX false.
Definition dom (index : Z) (assigned : hartmask) : domain :=
  domain_zero <| d_index := index |> <| d_possible := only0 |> <| d_assigned := assigned |> <| d_parked := hartmask_none |>
    <| d_regions := [all_memory] |> <| d_boot_hart := 0 |> <| d_next_addr := 0x84000000 |> <| d_next_mode := PRV_S |>
    <| d_entry_from := Some [Z.lor (BIT 1) (BIT 2)] |>.

Definition hw : hart_hw := {|
  hw_csrs := csr_write ∅ CSR_MIDELEG 0x222; hw_deadline := 5000; hw_shmem := 0x80500000; hw_fp := replicate 33 7;
  hw_vec := VecState 0 0 4 8 (replicate 32 9); hw_calls := [];
|}.
(** Hart 0 runs domain 1; domain 2 has not had it yet *)
Definition domains : dstate := {|
  ds_domains := [dom 0 hartmask_none; dom 1 only0; dom 2 hartmask_none];
  ds_ctx := fun d _ => if d =? 1 then context_zero <| c_state := CONTEXT_RUNNING |> else context_zero;
  ds_at := fun _ => 1;
  ds_hsm := fun h => if h =? 0 then SBI_HSM_STATE_STARTED else SBI_HSM_STATE_STOPPED;
  ds_hw := hw;
|}.
Definition regs : trap_regs := TrapRegs ((fun i => 100 + i) <$> seqZ 0 32) 0x80200004 0x0a00000822.

(** The bridge of domain 2 (phandle 12), with domain 1 (phandle 11) as its
    source *)
Definition by_phandle (ph : Z) : option Z := if ph =? 11 then Some 1 else if ph =? 12 then Some 2 else None.
Definition empty_queue : reqfwd_queue := ReqfwdQueue None None 0 (fun _ => ReqfwdMessage None QUEUED [] [] 0) false [].
Definition core : mpxy unit := Mpxy [] (fun _ => shmem_none) 0 false (fun _ => 0) tt.
Definition bare : fw_state := FwState [] (fun _ => empty_queue) None SWITCH_NONE domains (fun _ => 0).
Definition bridge_node : fw_node := FwNode false (Some [0x1000]) 12 None None false None 0.
Definition source_node : fw_node := FwNode false (Some [0x1001]) 11 None None false (Some (Some [0; 0x90000000], Some 12)) 0.
Definition probed : Z * fw_state * mpxy unit := bridge_probe by_phandle bare core (Some (bridge_node, [(true, source_node)])).
Definition start : fw_state := probed.1.2.
Definition ch (c : Z) : mpxy_channel :=
  default (MpxyChannel 0 0 0 0 0 0 0 0 0 0 0 0 0 0 0 false) (List.find (fun x => ch_id x =? c) (mx_channels probed.2)).

Lemma probed_channels : probed.1.1 = 0 /\ fc_sources (fw_chan start 0) = [1%nat] /\ fc_bridge_target (fw_chan start 1) = Some 0%nat.
Proof. vm_compute. auto. Qed.

Definition no_send (s : fw_state) (_ : Z) (_ : list Z) (_ _ : Z) : Z * list Z * fw_state := (RPMI_ERR_TIMEOUT, [], s).
Lemma no_send_keeps : send_keeps no_send.
Proof. intros s d msg max timeout. split_and!; reflexivity. Qed.

(** MM_COMMUNICATE: 16 bytes at 0 in, 8 bytes at 64 out *)
Definition buffer (words : list Z) (n : nat) : list Z := take n ((words ≫= enc32) ++ replicate n 0x5a).
Definition request : list Z := buffer [0; 16; 64; 8] 1024.
Definition served (s : fw_state) (c : nat) (service : Z) (buf : list Z) (len : Z) : answered :=
  fw_send no_send s c (ch (fc_ch (fw_chan s c))) service buf len 1024 true.
(** The ecall, with the switch *)
Definition ecall (s : fw_state) (c : nat) (service : Z) (buf : list Z) (len : Z) : option (bool * fw_state * trap_regs) :=
  let x := served s c service buf len in mpxy_switch_pending x.2 regs x.1.1.1 x.1.2.
Definition after (x : option (bool * fw_state * trap_regs)) : bool * fw_state * trap_regs := default (false, start, regs) x.

Definition sent_result : bool * fw_state * trap_regs := after (ecall start 1 RPMI_MM_COMMUNICATE request 16).
Definition sent : fw_state := sent_result.1.2.
Definition noted : Z -> option (list Z * Z) := <[1 := Some (forwarded start 1 request)]> (fun _ => None).

Lemma answered_eta (x : answered) : x = (x.1.1.1, x.1.1.2, x.1.2, x.2).
Proof. by destruct x as [[[? ?] ?] ?]. Qed.

(** An ecall is a step *)
Lemma ecall_step (s : fw_state) (g : Z -> option (list Z * Z)) (c : nat) (service : Z) (buf : list Z) (len : Z) :
  is_Some (ecall s c service buf len) ->
  fw_step no_send (s, g) ((after (ecall s c service buf len)).1.2, note g s (served s c service buf len).2 c buf).
Proof.
  intros [[[away s2] r] E]. rewrite E. unfold ecall in E.
  exact (StepSend no_send s g c (ch (fc_ch (fw_chan s c))) service buf len 1024 true regs _ _ _ _ away s2 r (answered_eta _) E).
Qed.

Lemma sent_there : is_Some (ecall start 1 RPMI_MM_COMMUNICATE request 16).
Proof. vm_compute. eexists. reflexivity. Qed.
Lemma sent_asks : fw_request (served start 1 RPMI_MM_COMMUNICATE request 16).2 = SWITCH_TO 1.
Proof. vm_compute. reflexivity. Qed.

Lemma sent_step : fw_step no_send (start, fun _ => None) (sent, noted).
Proof.
  pose proof (ecall_step start (fun _ => None) 1 RPMI_MM_COMMUNICATE request 16 sent_there) as H. unfold note in H. rewrite sent_asks in H.
  exact H.
Qed.

Lemma start_quiet : quiet_start start.
Proof. split_and!; vm_compute; reflexivity. Qed.

Definition message : list Z := mm_message 1 (take 16 request).

(** Domain 2 runs, and the message it finds is domain 1's *)
Lemma sent_slot : this_key sent = 2 /\ slot_for sent 0 = Some 1 /\ forwarded start 1 request = (message, 8).
Proof. vm_compute. auto. Qed.

Lemma sent_run : rtc (fw_step no_send) (start, fun _ => None) (sent, noted).
Proof. apply rtc_once. exact sent_step. Qed.

Lemma bridge_message_own_witness : (retrieve sent 0 0 100).1 = (RPMI_SUCCESS, message, 0).
Proof.
  destruct (bridge_message_own no_send start sent (fun _ => None) noted 0 1 no_send_keeps start_quiet sent_run (proj1 (proj2 sent_slot)))
    as (msg & out & Hg & _ & Hr & _).
  assert (msg = message) as -> by (vm_compute in Hg; injection Hg as <- _; reflexivity).
  rewrite (Hr 0 100); [reflexivity|]. split; [reflexivity|]. reflexivity.
Defined.

(** There and back: domain 2 retrieves the message and completes it, and
    domain 1 has the answer in its memory *)
Definition retrieved : fw_state := (after (ecall sent 0 RPMI_REQFWD_RETRIEVE_CURRENT_MESSAGE (buffer [0] 1024) 4)).1.2.
Definition completed : bool * fw_state * trap_regs :=
  after (ecall retrieved 0 RPMI_REQFWD_COMPLETE_CURRENT_MESSAGE (buffer [0; 5] 1024) 8).

Lemma answer_arrives :
  this_key completed.1.2 = 1 /\ word_at (fw_mem completed.1.2) 0x80500000 0 = 0 /\ word_at (fw_mem completed.1.2) 0x80500000 1 = 5 /\
  trap_reg completed.2 A0 = SBI_SUCCESS /\ trap_reg completed.2 A1 = 8.
Proof. vm_compute. auto. Qed.

(** ** A message outlives its sender *)

(** Domain 1 is stopped while its message is with domain 2, which gives the
    hart back; domain 1 boots again on it, and enters domain 2 by a call of
    its own. *)
Definition stopped : fw_state :=
  sent <| fw_dom := moved_state (domain_stop_end (domain_stop_begin (fw_dom sent) 1) regs 1) |>.
Definition rebooted : fw_state := (after (ecall stopped 0 RPMI_REQFWD_RETRIEVE_CURRENT_MESSAGE (buffer [0] 1024) 4)).1.2.
Definition called : fw_state := match plain_enter rebooted regs 2 0 with Some (_, s, _) => s | None => start end.

(** Domain 2 retrieves the message of the domain 1 that is no more: the slot
    is not cleared with it *)
Lemma stale_message :
  this_key rebooted = 1 /\ c_state (context_of (fw_dom stopped) 1) = CONTEXT_NONE /\ this_key called = 2 /\
  (retrieve called 0 0 100).1 = (RPMI_SUCCESS, message, 0).
Proof. vm_compute. auto. Qed.

(** And its answer goes to a call that did not ask: the result of
    [domain_enter] is overwritten *)
Definition mistaken : bool * fw_state * trap_regs :=
  after (ecall (after (ecall called 0 RPMI_REQFWD_RETRIEVE_CURRENT_MESSAGE (buffer [0] 1024) 4)).1.2 0
    RPMI_REQFWD_COMPLETE_CURRENT_MESSAGE (buffer [0; 5] 1024) 8).
Lemma stale_answer :
  this_key mistaken.1.2 = 1 /\ trap_reg mistaken.2 A0 = SBI_SUCCESS /\ trap_reg mistaken.2 A1 = 8.
Proof. vm_compute. auto. Qed.

(** ** Bytes that are nobody's *)

(** From an odd place the response ends in up to three bytes that were in
    the buffer before: the last of the 36 is 0x5a, whatever the message *)
Definition odd_piece : answered := served sent 0 RPMI_REQFWD_RETRIEVE_CURRENT_MESSAGE (buffer [1] 1024) 4.
Lemma response_padding : odd_piece.1.2 = 36 /\ dec32 odd_piece.1.1.2 2 = 23 /\ nth 35 odd_piece.1.1.2 0 = 0x5a.
Proof. vm_compute. auto. Qed.

End SharedHart.
