(* ===== verification/Ipi.v ===== *)
(** Inter-processor interrupts, [drivers/ipi/ipi.c] and its ACLINT backend
    [drivers/ipi/aclint_mswi.c]: events are bits of a word per hart
    ([ipi_pending]), over one interrupt per hart (its MSIP register).

    Senders and receivers run at once; a step is one access to a shared word
    or register. What is owed to a hart, posted and not acted on yet, is kept
    on the side ([ip_owed]): the theorems say that it is lost only by a hart
    that goes through [ipi_hart_init] again, which empties its word. *)

From stdpp Require Import functions.
From S2P Require Import Prelude Arch Csr Hart.

#[local] Open Scope Z_scope.

(** [enum ipi_event], with its numbers. *)
Inductive ipi_event : Set := IPI_EVENT_SMODE | IPI_EVENT_RFENCE | IPI_EVENT_HALT | IPI_EVENT_SSE.
#[export] Instance ipi_event_eq_dec : EqDecision ipi_event.
Proof. solve_decision. Defined.
Definition event_nr (e : ipi_event) : Z :=
  match e with IPI_EVENT_SMODE => 0 | IPI_EVENT_RFENCE => 1 | IPI_EVENT_HALT => 2 | IPI_EVENT_SSE => 3 end.

(** [struct ipi_ops], as far as it is chosen by. *)
Record ipi_ops : Set := IpiOps { io_rating : Z; io_irq : Z }.

Definition ipi_register (ipi : option ipi_ops) (ops : ipi_ops) : option ipi_ops :=
  match ipi with
  | None => Some ops
  | Some i => if io_rating i <? io_rating ops then Some ops else Some i
  end.
Definition ipi_irq (ipi : option ipi_ops) : Z := match ipi with Some i => io_irq i | None => 0 end.
Definition ipi_available (ipi : option ipi_ops) : bool := match ipi with Some _ => true | None => false end.

(** Where a hart is. *)
Inductive ipi_loc : Set :=
| IBoot | IBootStore (* ipi_hart_init(), at every stop and start *)
| IIdle
| IPost (todo : list Z) (e : ipi_event) (* the loop of ipi_send_mask() *)
| IRaise (t : Z) (todo : list Z) (e : ipi_event) (* ipi_send(), posted *)
| IClear | ISwap (* ipi_process() *)
| IHalt (pending : Z) | IFence (pending : Z) | ISmode (pending : Z)
| IHalted.

(** What is done on the way, the last first. *)
Inductive ipi_call : Set :=
| PmuIpiSent | PmuIpiReceived
| RfenceProcess
| SsipSet (* csr_set(mip, MIP_SSIP) *)
| TrapExit. (* back to where an SSE event is looked for *)

Record ipi : Type := Ipi {
  ip_pending : Z -> Z; (* by hart index *)
  ip_msip : Z -> Z; (* the registers, by address *)
  ip_mie : Z -> bool; (* the interrupt is enabled *)
  ip_at : Z -> ipi_loc;
  ip_calls : Z -> list ipi_call;
  ip_owed : Z -> ipi_event -> bool;
}.
#[export] Instance ipi_eta : Settable ipi := fun s =>
  Ipi (ip_pending s) (ip_msip s) (ip_mie s) (ip_at s) (ip_calls s) (ip_owed s).

(** The backend of the platform: [msip_base] and [msip_of]. *)
Class IpiEnv := {
  ie_backend : option ipi_ops;
  ie_msip_base : Z;
  ie_msip_of : Z -> Z; (* by hart index, negative: none *)
}.

(** [IRestart]: the hart is stopped, or started, and goes through
    [ipi_hart_init] again ([hsm_wait_loop], [hart_runtime_init]). *)
Inductive ipi_choice : Set := ISend (targets : list Z) (e : ipi_event) | IKick (t : Z) | IProcess | IRestart | IGo.

Section Ipi.
Context {AR : Arch} {KC : Kconfig} {HT : HartTable} {IE : IpiEnv}.

(** ** The backend *)

Definition msip (index : Z) : Z :=
  if (CONFIG_PLATFORM_HART_COUNT <=? index) || (ie_msip_of index <? 0) then 0
  else ie_msip_base +! 4 *! ie_msip_of index.

Definition io_write32 (s : ipi) (reg v : Z) : ipi := s <| ip_msip := <[reg := v]> (ip_msip s) |>.
Definition aclint_mswi_send (s : ipi) (index : Z) : ipi :=
  if truth (msip index) then io_write32 s (msip index) 1 else s.
Definition aclint_mswi_clear (s : ipi) (index : Z) : ipi :=
  if truth (msip index) then io_write32 s (msip index) 0 else s.

(** The interrupt of a hart is asserted. *)
Definition raised (s : ipi) (i : Z) : bool := truth (ip_msip s (msip i)).

(** ** The core *)

Definition igoto (s : ipi) (i : Z) (l : ipi_loc) : ipi := s <| ip_at := <[i := l]> (ip_at s) |>.
Definition icall (s : ipi) (i : Z) (c : ipi_call) : ipi := s <| ip_calls := <[i := c :: ip_calls s i]> (ip_calls s) |>.
Definition store_pending (s : ipi) (i v : Z) : ipi := s <| ip_pending := <[i := v]> (ip_pending s) |>.
Definition owe (s : ipi) (t : Z) (e : ipi_event) (b : bool) : ipi :=
  s <| ip_owed := <[t := <[e := b]> (ip_owed s t)]> (ip_owed s) |>.
Definition owe_none (s : ipi) (t : Z) : ipi := s <| ip_owed := <[t := fun _ => false]> (ip_owed s) |>.

Definition has_hart (t : Z) : bool := (0 <=? t) && (t <? hart_table_size ht_ids).

(** [ipi_kick] *)
Definition ipi_kick (s : ipi) (t : Z) : ipi :=
  if ipi_available ie_backend && has_hart t then aclint_mswi_send s t else s.

(** [ipi_send_mask] with [ipi_send], a step at a time. *)
Definition ipi_send (s : ipi) (i : Z) : option ipi :=
  match ip_at s i with
  | IPost [] _ => Some (igoto s i IIdle)
  | IPost (t :: todo) e =>
      if negb (ipi_available ie_backend) || negb (has_hart t) then Some (igoto s i (IPost todo e))
      else
        let s := match e with IPI_EVENT_SMODE => icall s i PmuIpiSent | _ => s end in
        let s := store_pending s t (Z.lor (ip_pending s t) (BIT (event_nr e))) in
        Some (igoto (owe s t e true) i (IRaise t todo e))
  | IRaise t todo e => Some (igoto (aclint_mswi_send s t) i (IPost todo e))
  | _ => None
  end.

(** [ipi_process], a step at a time. *)
Definition ipi_process (s : ipi) (i : Z) : option ipi :=
  let has w e := truth (Z.land w (BIT (event_nr e))) in
  match ip_at s i with
  | IClear =>
      if negb (ipi_available ie_backend) then Some (igoto s i IIdle)
      else Some (igoto (aclint_mswi_clear s i) i ISwap)
  | ISwap => Some (igoto (store_pending s i 0) i (IHalt (ip_pending s i)))
  | IHalt w =>
      if has w IPI_EVENT_HALT then Some (igoto (owe s i IPI_EVENT_HALT false) i IHalted)
      else Some (igoto s i (IFence w))
  | IFence w =>
      let s := if has w IPI_EVENT_RFENCE then owe (icall s i RfenceProcess) i IPI_EVENT_RFENCE false else s in
      Some (igoto s i (ISmode w))
  | ISmode w =>
      let s := if has w IPI_EVENT_SMODE
               then owe (icall (icall s i PmuIpiReceived) i SsipSet) i IPI_EVENT_SMODE false else s in
      (* nothing else to do for an SSE event *)
      let s := if has w IPI_EVENT_SSE then owe (icall s i TrapExit) i IPI_EVENT_SSE false else s in
      Some (igoto s i IIdle)
  | _ => None
  end.

(** [ipi_hart_init], a step at a time. *)
Definition ipi_hart_init (s : ipi) (i : Z) : option ipi :=
  match ip_at s i with
  | IBoot =>
      if negb (ipi_available ie_backend) then Some (igoto s i IIdle)
      else Some (igoto (aclint_mswi_clear s i) i IBootStore)
  | IBootStore =>
      let s := owe_none (store_pending s i 0) i in
      Some (igoto (s <| ip_mie := <[i := true]> (ip_mie s) |>) i IIdle)
  | _ => None
  end.

(** What hart [i] does next. *)
Definition ipi_step (s : ipi) (i : Z) (c : ipi_choice) : option ipi :=
  match ip_at s i, c with
  | IIdle, ISend targets e => Some (igoto s i (IPost targets e))
  | IIdle, IKick t => Some (ipi_kick s t)
  | IIdle, IProcess => Some (igoto s i IClear)
  | IIdle, IRestart => Some (igoto s i IBoot)
  | (IBoot | IBootStore), IGo => ipi_hart_init s i
  | (IPost _ _ | IRaise _ _ _), IGo => ipi_send s i
  | (IClear | ISwap | IHalt _ | IFence _ | ISmode _), IGo => ipi_process s i
  | _, _ => None
  end.

(** Before any hart is up. The word of a hart that is not may hold
    anything. *)
Definition ipi_start (s : ipi) : Prop :=
  (forall i, ip_at s i = IBoot) /\ (forall i e, ip_owed s i e = false).

Inductive ipi_reachable : ipi -> Prop :=
| IReachStart s : ipi_start s -> ipi_reachable s
| IReachStep s i c s' : ipi_reachable s -> has_hart i = true -> ipi_step s i c = Some s' -> ipi_reachable s'.

(** A run of all harts. *)
Fixpoint ipi_run (s : ipi) (steps : list (Z * ipi_choice)) : option ipi :=
  match steps with
  | [] => Some s
  | (i, c) :: steps => s ← ipi_step s i c; ipi_run s steps
  end.
End Ipi.
