(* ===== verification/IpiProps.v ===== *)
(** No inter-processor event is lost ([Ipi.v]), however senders and receiver
    interleave: between the post and the interrupt of a sender, and between
    the acknowledgement and the swap of the receiver. *)

From stdpp Require Import functions.
From Stdlib Require Import Btauto.
From S2P Require Import Prelude Arch Csr Hart Ipi.

#[local] Open Scope Z_scope.
#[local] Set Warnings "-clear-no-such-hyp".

Section Ipi.
Context {AR : Arch} {KC : Kconfig} {HT : HartTable} {IE : IpiEnv}.

(** There is a backend, and every hart has a register of its own. *)
Class IpiEnvOk : Prop := {
  ie_has_backend : ipi_available ie_backend = true;
  ie_msip_there : forall t, has_hart t = true -> msip t <> 0;
  ie_msip_own : forall t u, has_hart t = true -> has_hart u = true -> msip t = msip u -> t = u;
}.
Context {IO : IpiEnvOk}.

Definition has (w : Z) (e : ipi_event) : bool := truth (Z.land w (BIT (event_nr e))).

Lemma has_post (w : Z) (e e' : ipi_event) : has (Z.lor w (BIT (event_nr e))) e' = has w e' || bool_decide (e = e').
Proof.
  unfold has. rewrite truth_lor. f_equal. unfold BIT, ushl, wrap, XLEN.
  destruct e, e', arch_xlen; reflexivity.
Qed.

Lemma raised_send (s : ipi) (i t : Z) : has_hart i = true -> has_hart t = true ->
  raised (aclint_mswi_send s i) t = raised s t || bool_decide (i = t).
Proof.
  intros Hi Ht. unfold raised, aclint_mswi_send. rewrite (proj2 (truth_true (msip i))) by (by apply ie_msip_there).
  unfold io_write32. cbn. destruct (decide (i = t)) as [->|Hne].
  - rewrite fn_lookup_insert, bool_decide_true by done. by rewrite orb_true_r.
  - rewrite fn_lookup_insert_ne, bool_decide_false by (done || intros E; by apply ie_msip_own in E). by rewrite orb_false_r.
Qed.

Lemma raised_clear (s : ipi) (i t : Z) : has_hart i = true -> has_hart t = true -> i <> t ->
  raised (aclint_mswi_clear s i) t = raised s t.
Proof.
  intros Hi Ht Hne. unfold raised, aclint_mswi_clear. rewrite (proj2 (truth_true (msip i))) by (by apply ie_msip_there).
  unfold io_write32. cbn. rewrite fn_lookup_insert_ne; [done|]. intros E. by apply ie_msip_own in E.
Qed.

(** The backend touches the registers alone. *)
Lemma send_frame (s : ipi) (i : Z) :
  ip_pending (aclint_mswi_send s i) = ip_pending s /\ ip_at (aclint_mswi_send s i) = ip_at s /\
  ip_owed (aclint_mswi_send s i) = ip_owed s /\ ip_calls (aclint_mswi_send s i) = ip_calls s.
Proof. unfold aclint_mswi_send. by destruct (truth _). Qed.

Lemma clear_frame (s : ipi) (i : Z) :
  ip_pending (aclint_mswi_clear s i) = ip_pending s /\ ip_at (aclint_mswi_clear s i) = ip_at s /\
  ip_owed (aclint_mswi_clear s i) = ip_owed s /\ ip_calls (aclint_mswi_clear s i) = ip_calls s.
Proof. unfold aclint_mswi_clear. by destruct (truth _). Qed.

(** ** The invariant *)

(** Read from the word, and still to be looked at. *)
Definition in_hand (l : ipi_loc) (e : ipi_event) : bool :=
  match l, e with
  | IHalt w, _ => has w e
  | IFence w, (IPI_EVENT_RFENCE | IPI_EVENT_SMODE | IPI_EVENT_SSE) => has w e
  | ISmode w, (IPI_EVENT_SMODE | IPI_EVENT_SSE) => has w e
  | _, _ => false
  end.

Definition booted (l : ipi_loc) : Prop := l <> IBoot /\ l <> IBootStore.

(** The interrupt of [t] is there, or about to be, or [t] looks at its word
    next. *)
Definition signalled (s : ipi) (t : Z) : Prop :=
  raised s t = true \/ ip_at s t = ISwap \/ exists j todo e, ip_at s j = IRaise t todo e.

Definition deliverable (s : ipi) (t : Z) (e : ipi_event) : Prop :=
  in_hand (ip_at s t) e = true \/ has (ip_pending s t) e = true /\ signalled s t.

Definition ipi_inv (s : ipi) : Prop :=
  (forall j t todo e, ip_at s j = IRaise t todo e -> has_hart t = true) /\
  forall t e, has_hart t = true -> booted (ip_at s t) -> ip_at s t <> IHalted ->
    ip_owed s t e = true -> deliverable s t e.

(** What a step of another hart does to [t]. *)
Lemma deliverable_mono (s s' : ipi) (t : Z) (e : ipi_event) :
  ip_at s' t = ip_at s t -> (has (ip_pending s t) e = true -> has (ip_pending s' t) e = true) ->
  (signalled s t -> signalled s' t) -> deliverable s t e -> deliverable s' t e.
Proof. intros Ea Hp Hs [H|[H1 H2]]; [left; by rewrite Ea|right; auto]. Qed.

(** A hart that was not on its way to raise an interrupt goes elsewhere. *)
Lemma signalled_goto (s : ipi) (i t : Z) (l : ipi_loc) : i <> t ->
  (forall todo e, ip_at s i <> IRaise t todo e) -> signalled s t -> signalled (igoto s i l) t.
Proof.
  intros Hne Hnr [H|[H|(j & todo & e & H)]]; [by left|right; left|right; right].
  - cbn. by rewrite fn_lookup_insert_ne.
  - exists j, todo, e. cbn. rewrite fn_lookup_insert_ne; [done|]. intros ->. by apply Hnr in H.
Qed.

Lemma deliverable_goto (s : ipi) (i t : Z) (l : ipi_loc) (e : ipi_event) : i <> t ->
  (forall todo e, ip_at s i <> IRaise t todo e) -> deliverable s t e -> deliverable (igoto s i l) t e.
Proof.
  intros Hne Hnr. apply deliverable_mono; [cbn; by rewrite fn_lookup_insert_ne|done|by apply signalled_goto].
Qed.

Lemma signalled_send (s : ipi) (j t : Z) : has_hart j = true -> has_hart t = true ->
  signalled s t -> signalled (aclint_mswi_send s j) t.
Proof.
  intros Hj Ht [H|[H|H]].
  - left. by rewrite raised_send, H.
  - right; left. by rewrite (proj1 (proj2 (send_frame s j))).
  - right; right. by rewrite (proj1 (proj2 (send_frame s j))).
Qed.

(** A step of [t] itself that leaves the word alone. *)
Lemma signalled_self (s : ipi) (t : Z) (l : ipi_loc) :
  ip_at s t <> ISwap -> (forall todo e, ip_at s t <> IRaise t todo e) -> signalled s t -> signalled (igoto s t l) t.
Proof.
  intros Hns Hnr [H|[H|(j & todo & e & H)]]; [by left|done|right; right].
  exists j, todo, e. cbn. rewrite fn_lookup_insert_ne; [done|]. intros ->. by apply Hnr in H.
Qed.

(** What a hart owes itself in bookkeeping does not matter to the signal. *)
Lemma signalled_owe (s : ipi) (t u : Z) (e : ipi_event) (b : bool) : signalled (owe s u e b) t <-> signalled s t.
Proof. done. Qed.

Lemma owed_owe (s : ipi) (t u : Z) (e e' : ipi_event) (b : bool) :
  ip_owed (owe s u e b) t e' = if decide (u = t /\ e = e') then b else ip_owed s t e'.
Proof.
  cbn. destruct (decide (u = t)) as [->|Hne].
  - rewrite fn_lookup_insert. destruct (decide (e = e')) as [->|Hne].
    + by rewrite fn_lookup_insert, decide_True.
    + rewrite fn_lookup_insert_ne, decide_False by naive_solver. done.
  - rewrite fn_lookup_insert_ne, decide_False by naive_solver. done.
Qed.

(** The shapes of a step: how [t] sees a step of hart [i]. *)
Lemma step_other (s s' : ipi) (i t : Z) (c : ipi_choice) (e : ipi_event) :
  ipi_inv s -> has_hart i = true -> has_hart t = true -> i <> t -> ipi_step s i c = Some s' ->
  ip_at s' t = ip_at s t /\ (ip_owed s t e = true -> deliverable s t e) ->
  ip_owed s' t e = true -> deliverable s' t e.
Proof.
  intros [Hr _] Hi Ht Hne Hs [Hat Hd] Ho. unfold ipi_step in Hs.
  destruct (ip_at s i) as [| | |[|u todo] e0|u todo e0| | |w|w|w|] eqn:El; destruct c; try done;
    unfold ipi_hart_init, ipi_send, ipi_process in Hs; rewrite ?El in Hs; rewrite ?ie_has_backend in Hs; cbn [negb orb] in Hs.
  - (* IBoot *) apply (inj Some) in Hs; subst s'. apply (deliverable_goto (aclint_mswi_clear s i)); [done| |].
    { rewrite (proj1 (proj2 (clear_frame s i))), El. done. }
    destruct (clear_frame s i) as (Ep & Ea & Eo & _). eapply (deliverable_mono s); [by rewrite Ea|by rewrite Ep| |].
    + intros [H|[H|H]]; [left; by rewrite raised_clear|right; left; by rewrite Ea|right; right; by rewrite Ea].
    + apply Hd. cbn in Ho. by rewrite Eo in Ho.
  - (* IBootStore *) apply (inj Some) in Hs; subst s'. cbn in Ho. rewrite fn_lookup_insert_ne in Ho by done.
    eapply (deliverable_mono s); [done| | |by apply Hd].
    + cbn. by rewrite fn_lookup_insert_ne.
    + intros H. by apply (signalled_goto s i t IIdle) in H; [|done|rewrite El].
  - (* ISend *) apply (inj Some) in Hs; subst s'. apply deliverable_goto; [done|by rewrite El|by apply Hd].
  - (* IKick *) apply (inj Some) in Hs; subst s'. unfold ipi_kick in *. rewrite ie_has_backend in *. cbn [andb] in *.
    destruct (has_hart t0) eqn:E0; [|by apply Hd]. destruct (send_frame s t0) as (Ep & Ea & Eo & _). rewrite Eo in Ho.
    eapply (deliverable_mono s); [by rewrite Ea|by rewrite Ep|by apply signalled_send|by apply Hd].
  - (* IProcess *) apply (inj Some) in Hs; subst s'. apply deliverable_goto; [done|by rewrite El|by apply Hd].
  - (* IRestart *) apply (inj Some) in Hs; subst s'. apply deliverable_goto; [done|by rewrite El|by apply Hd].
  - (* IPost [] *) apply (inj Some) in Hs; subst s'. apply deliverable_goto; [done|by rewrite El|by apply Hd].
  - (* IPost *) destruct (has_hart u) eqn:Eu; cbn [negb] in Hs; apply (inj Some) in Hs; subst s'.
    2:{ apply deliverable_goto; [done|by rewrite El|by apply Hd]. }
    set (s1 := match e0 with IPI_EVENT_SMODE => icall s i PmuIpiSent | _ => s end) in *.
    assert (ip_at s1 = ip_at s /\ ip_pending s1 = ip_pending s /\ ip_owed s1 = ip_owed s /\ ip_msip s1 = ip_msip s)
      as (Ea & Ep & Eo & Em) by (unfold s1; by destruct e0).
    assert (signalled s t -> signalled (igoto s1 i (IRaise u todo e0)) t) as Hsig.
    { intros H. apply signalled_goto; [done|rewrite Ea, El; done|]. unfold signalled, raised in *. by rewrite Em, Ea. }
    change (ip_owed _) with (ip_owed (owe s1 u e0 true)) in Ho. rewrite owed_owe, Eo in Ho.
    destruct (decide (u = t /\ e0 = e)) as [[-> ->]|Hu].
    + right. split; [|right; right; exists i, todo, e; cbn; by rewrite fn_lookup_insert].
      cbn. by rewrite fn_lookup_insert, has_post, bool_decide_true, orb_true_r.
    + eapply (deliverable_mono s); [done| |done|by apply Hd]. cbn. rewrite Ep. destruct (decide (u = t)) as [->|Hut].
      * rewrite fn_lookup_insert, has_post. intros ->. done.
      * by rewrite fn_lookup_insert_ne.
  - (* IRaise *) apply (inj Some) in Hs; subst s'. pose proof (Hr _ _ _ _ El) as Hu.
    destruct (send_frame s u) as (Ep & Ea & Eo & _). cbn in Ho. rewrite Eo in Ho.
    eapply (deliverable_mono s); [done|cbn; by rewrite Ep| |by apply Hd]. intros H. destruct (decide (u = t)) as [->|Hut].
    + left. change (raised (aclint_mswi_send s t) t = true). by rewrite raised_send, bool_decide_true, orb_true_r.
    + apply signalled_goto; [done|rewrite Ea, El; congruence|by apply signalled_send].
  - (* IClear *) apply (inj Some) in Hs; subst s'. destruct (clear_frame s i) as (Ep & Ea & Eo & _). cbn in Ho. rewrite Eo in Ho.
    eapply (deliverable_mono s); [done|cbn; by rewrite Ep| |by apply Hd]. intros H.
    apply signalled_goto; [done|by rewrite Ea, El|].
    destruct H as [H|[H|H]]; [left; by rewrite raised_clear|right; left; by rewrite Ea|right; right; by rewrite Ea].
  - (* ISwap *) apply (inj Some) in Hs; subst s'. eapply (deliverable_mono s); [done| | |by apply Hd].
    + cbn. by rewrite fn_lookup_insert_ne.
    + intros H. by apply (signalled_goto s i t (IHalt (ip_pending s i))) in H; [|done|rewrite El].
  - (* IHalt *) change (truth (Z.land w (BIT (event_nr IPI_EVENT_HALT)))) with (has w IPI_EVENT_HALT) in Hs.
    destruct (has w IPI_EVENT_HALT); apply (inj Some) in Hs; subst s'; [|apply deliverable_goto; [done|by rewrite El|by apply Hd]].
    change (ip_owed _) with (ip_owed (owe s i IPI_EVENT_HALT false)) in Ho. rewrite owed_owe, decide_False in Ho by naive_solver.
    by apply (deliverable_goto (owe s i IPI_EVENT_HALT false)); [done|cbn; rewrite El|apply Hd].
  - (* IFence *) apply (inj Some) in Hs; subst s'. apply deliverable_goto; [done| |].
    + destruct (truth _); cbn; by rewrite El.
    + destruct (truth _); [|by apply Hd].
      change (ip_owed _) with (ip_owed (owe s i IPI_EVENT_RFENCE false)) in Ho. rewrite owed_owe, decide_False in Ho by naive_solver.
      by apply Hd.
  - (* ISmode *) apply (inj Some) in Hs; subst s'.
    assert (ip_owed s t e = true) as Ho'.
    { clear -Ho Hne. repeat destruct (truth _); cbn in Ho; rewrite ?fn_lookup_insert_ne in Ho by done; done. }
    apply deliverable_goto; [done| |].
    + repeat destruct (truth _); cbn; by rewrite El.
    + repeat destruct (truth _); by apply Hd.
Qed.

(** A hart's place is its own. *)
Lemma step_at (s s' : ipi) (i t : Z) (c : ipi_choice) : i <> t -> ipi_step s i c = Some s' -> ip_at s' t = ip_at s t.
Proof.
  intros Hne Hs. unfold ipi_step, ipi_hart_init, ipi_send, ipi_process in Hs.
  destruct (ip_at s i) as [| | |[|u todo] e0|u todo e0| | |w|w|w|]; destruct c; try done;
    repeat match type of Hs with context [if ?b then _ else _] => destruct b end;
    try (apply (inj Some) in Hs; subst s'; cbn; rewrite ?fn_lookup_insert_ne by done;
         try destruct e0; unfold ipi_kick, aclint_mswi_send, aclint_mswi_clear;
         repeat match goal with |- context [if ?b then _ else _] => destruct b end; done).
Qed.

(** The last step of [ipi_process]: what was in hand is done. *)
Definition smode_done (s : ipi) (t w : Z) : ipi :=
  let s := if has w IPI_EVENT_SMODE
           then owe (icall (icall s t PmuIpiReceived) t SsipSet) t IPI_EVENT_SMODE false else s in
  if has w IPI_EVENT_SSE then owe (icall s t TrapExit) t IPI_EVENT_SSE false else s.

Lemma smode_done_frame (s : ipi) (t w : Z) (e : ipi_event) :
  ip_at (smode_done s t w) = ip_at s /\ ip_pending (smode_done s t w) = ip_pending s /\
  ip_msip (smode_done s t w) = ip_msip s /\
  ip_owed (smode_done s t w) t e = ip_owed s t e && negb (in_hand (ISmode w) e).
Proof.
  unfold smode_done. split_and!; [by destruct (has w IPI_EVENT_SMODE), (has w IPI_EVENT_SSE)..|].
  assert (forall s c, ip_owed (icall s t c) = ip_owed s) as Ei by done.
  destruct (has w IPI_EVENT_SMODE) eqn:E1, (has w IPI_EVENT_SSE) eqn:E2; repeat (rewrite owed_owe || rewrite Ei);
    destruct e; cbn [in_hand]; repeat (destruct (decide _) as [[_ ?]|?]); try (by exfalso; naive_solver); rewrite ?E1, ?E2, ?andb_true_r, ?andb_false_r; done.
Qed.

(** The same for a step of [t] itself. *)
Lemma step_self (s s' : ipi) (t : Z) (c : ipi_choice) (e : ipi_event) :
  ipi_inv s -> has_hart t = true -> ipi_step s t c = Some s' -> booted (ip_at s' t) -> ip_at s' t <> IHalted ->
  ip_owed s' t e = true -> deliverable s' t e.
Proof.
  intros [Hr Hi] Ht Hs Hb Hh Ho. specialize (Hi t e Ht). unfold ipi_step in Hs.
  destruct (ip_at s t) as [| | |[|u todo] e0|u todo e0| | |w|w|w|] eqn:El; destruct c; try done;
    unfold ipi_hart_init, ipi_send, ipi_process in Hs; rewrite ?El in Hs; rewrite ?ie_has_backend in Hs; cbn [negb orb] in Hs;
    try (assert (ip_owed s t e = true -> deliverable s t e) as Hd by (intros H; by apply Hi); clear Hi).
  - (* IBoot *) apply (inj Some) in Hs; subst s'. cbn in Hb. rewrite fn_lookup_insert in Hb. by destruct Hb.
  - (* IBootStore *) apply (inj Some) in Hs; subst s'. cbn in Ho. by rewrite fn_lookup_insert in Ho.
  - (* ISend *) apply (inj Some) in Hs; subst s'. destruct (Hd Ho) as [H|[H1 H2]]; [by rewrite El in H|].
    right. split; [done|]. by apply signalled_self; [rewrite El..|].
  - (* IKick *) apply (inj Some) in Hs; subst s'. unfold ipi_kick in *. rewrite ie_has_backend in *. cbn [andb] in *.
    destruct (has_hart t0) eqn:E0; [|by apply Hd]. destruct (send_frame s t0) as (Ep & Ea & Eo & _). rewrite Eo in Ho.
    eapply (deliverable_mono s); [by rewrite Ea|by rewrite Ep|by apply signalled_send|by apply Hd].
  - (* IProcess *) apply (inj Some) in Hs; subst s'. destruct (Hd Ho) as [H|[H1 H2]]; [by rewrite El in H|].
    right. split; [done|]. by apply signalled_self; [rewrite El..|].
  - (* IRestart *) apply (inj Some) in Hs; subst s'. cbn in Hb. rewrite fn_lookup_insert in Hb. by destruct Hb.
  - (* IPost [] *) apply (inj Some) in Hs; subst s'. destruct (Hd Ho) as [H|[H1 H2]]; [by rewrite El in H|].
    right. split; [done|]. by apply signalled_self; [rewrite El..|].
  - (* IPost *) destruct (has_hart u) eqn:Eu; cbn [negb] in Hs; apply (inj Some) in Hs; subst s'.
    2:{ destruct (Hd Ho) as [H|[H1 H2]]; [by rewrite El in H|]. right. split; [done|]. by apply signalled_self; [rewrite El..|]. }
    set (s1 := match e0 with IPI_EVENT_SMODE => icall s t PmuIpiSent | _ => s end) in *.
    assert (ip_at s1 = ip_at s /\ ip_pending s1 = ip_pending s /\ ip_owed s1 = ip_owed s /\ ip_msip s1 = ip_msip s)
      as (Ea & Ep & Eo & Em) by (unfold s1; by destruct e0).
    change (ip_owed _) with (ip_owed (owe s1 u e0 true)) in Ho. rewrite owed_owe, Eo in Ho. right.
    destruct (decide (u = t)) as [->|Hut].
    + split; [|right; right; exists t, todo, e0; cbn; by rewrite fn_lookup_insert].
      cbn. rewrite fn_lookup_insert, has_post, Ep. destruct (decide (e0 = e)) as [->|Hee].
      * by rewrite bool_decide_true, orb_true_r.
      * rewrite decide_False in Ho by naive_solver. destruct (Hd Ho) as [H|[H1 H2]]; [by rewrite El in H|by rewrite H1].
    + rewrite decide_False in Ho by naive_solver. destruct (Hd Ho) as [H|[H1 H2]]; [by rewrite El in H|].
      split; [cbn; rewrite fn_lookup_insert_ne by done; by rewrite Ep|].
      assert (signalled s1 t) as H3 by (unfold signalled, raised in *; by rewrite Em, Ea).
      by apply (signalled_self s1 t (IRaise u todo e0)) in H3; [|rewrite Ea, El..].
  - (* IRaise *) apply (inj Some) in Hs; subst s'. pose proof (Hr _ _ _ _ El) as Hu.
    destruct (send_frame s u) as (Ep & Ea & Eo & _). cbn in Ho. rewrite Eo in Ho.
    destruct (Hd Ho) as [H|[H1 H2]]; [by rewrite El in H|]. right. split; [cbn; by rewrite Ep|].
    destruct (decide (u = t)) as [->|Hut].
    + left. change (raised (aclint_mswi_send s t) t = true). by rewrite raised_send, bool_decide_true, orb_true_r.
    + apply signalled_self; [by rewrite Ea, El|rewrite Ea, El; congruence|by apply signalled_send].
  - (* IClear *) apply (inj Some) in Hs; subst s'. destruct (clear_frame s t) as (Ep & Ea & Eo & _). cbn in Ho. rewrite Eo in Ho.
    destruct (Hd Ho) as [H|[H1 H2]]; [by rewrite El in H|]. right. split; [cbn; by rewrite Ep|].
    right; left. cbn. by rewrite fn_lookup_insert.
  - (* ISwap *) apply (inj Some) in Hs; subst s'. destruct (Hd Ho) as [H|[H1 H2]]; [by rewrite El in H|].
    left. cbn. by rewrite fn_lookup_insert.
  - (* IHalt *) change (truth (Z.land w (BIT (event_nr IPI_EVENT_HALT)))) with (has w IPI_EVENT_HALT) in Hs.
    destruct (has w IPI_EVENT_HALT) eqn:Ew; apply (inj Some) in Hs; subst s'.
    { cbn in Hh. by rewrite fn_lookup_insert in Hh. }
    destruct (Hd Ho) as [H|[H1 H2]]; [left|right; split; [done|by apply signalled_self; [rewrite El..|]]].
    rewrite El in H. cbn. rewrite fn_lookup_insert. destruct e; try done. cbn in H. congruence.
  - (* IFence *) change (truth (Z.land w (BIT (event_nr IPI_EVENT_RFENCE)))) with (has w IPI_EVENT_RFENCE) in Hs.
    destruct (has w IPI_EVENT_RFENCE) eqn:Ew; apply (inj Some) in Hs; subst s'.
    + change (ip_owed _) with (ip_owed (owe s t IPI_EVENT_RFENCE false)) in Ho. rewrite owed_owe in Ho.
      destruct (decide (t = t /\ IPI_EVENT_RFENCE = e)) as [|Hne]; [done|].
      destruct (Hd Ho) as [H|[H1 H2]]; [left|right; split; [done|by apply (signalled_self s); [rewrite El..|]]].
      rewrite El in H. cbn. rewrite fn_lookup_insert. destruct e; naive_solver.
    + destruct (Hd Ho) as [H|[H1 H2]]; [left|right; split; [done|by apply signalled_self; [rewrite El..|]]].
      rewrite El in H. cbn. rewrite fn_lookup_insert. destruct e; try done. cbn in H. congruence.
  - (* ISmode *) apply (inj Some) in Hs. change (igoto (smode_done s t w) t IIdle = s') in Hs. subst s'.
    destruct (smode_done_frame s t w e) as (Ea & Ep & Em & Eo).
    change (ip_owed _) with (ip_owed (smode_done s t w)) in Ho. rewrite Eo in Ho. bool_prop.
    destruct (Hd ltac:(done)) as [H'|[H1 H2]]; [rewrite El in H'; congruence|]. right.
    split; [cbn; by rewrite Ep|].
    assert (signalled (smode_done s t w) t) as H3 by (unfold signalled, raised in *; by rewrite Em, Ea).
    by apply (signalled_self (smode_done s t w) t IIdle) in H3; [|rewrite Ea, El..].
Qed.

Lemma ipi_inv_step (s s' : ipi) (i : Z) (c : ipi_choice) :
  ipi_inv s -> has_hart i = true -> ipi_step s i c = Some s' -> ipi_inv s'.
Proof.
  intros Hinv Hi Hs. split.
  - intros j t todo e Hj. destruct (decide (i = j)) as [->|Hne].
    2:{ rewrite (step_at s s' i j c) in Hj by done. by eapply (proj1 Hinv). }
    pose proof (proj1 Hinv j) as Hr. unfold ipi_step, ipi_hart_init, ipi_send, ipi_process in Hs.
    destruct (ip_at s j) as [| | |[|u todo'] e0|u todo' e0| | |w|w|w|] eqn:El; destruct c; try done;
      repeat match type of Hs with context [if ?b then _ else _] => destruct b eqn:?Eb end;
      apply (inj Some) in Hs; subst s'; cbn in Hj; rewrite ?fn_lookup_insert in Hj; try done.
    + unfold ipi_kick in Hj. destruct (_ && _); rewrite ?(proj1 (proj2 (send_frame _ _))), El in Hj; done.
    + injection Hj as <- <- <-. by bool_prop.
  - intros t e Ht Hb Hh Ho. destruct (decide (i = t)) as [->|Hne].
    + by eapply step_self.
    + pose proof (step_at s s' i t c Hne Hs) as Ea. rewrite Ea in Hb, Hh.
      eapply (step_other s s' i t c e); try done. split; [done|]. intros H. by apply (proj2 Hinv).
Qed.

Lemma ipi_inv_reachable (s : ipi) : ipi_reachable s -> ipi_inv s.
Proof.
  induction 1 as [s [Ha Ho]|s i c s' _ IH Hi Hs]; [|by eapply ipi_inv_step]. split.
  - intros j t todo e H. by rewrite Ha in H.
  - intros t e _ [H _]. by rewrite Ha in H.
Qed.

(** What a hart does about an event. *)
Definition action (e : ipi_event) : option ipi_call :=
  match e with
  | IPI_EVENT_SMODE => Some SsipSet
  | IPI_EVENT_RFENCE => Some RfenceProcess
  | IPI_EVENT_SSE => Some TrapExit
  | IPI_EVENT_HALT => None
  end.

(** What is owed to a hart stops being so when the hart has acted on it, or
    when it empties its word in [ipi_hart_init]. *)
Lemma owed_until (s s' : ipi) (i t : Z) (c : ipi_choice) (e : ipi_event) :
  ipi_step s i c = Some s' -> ip_owed s t e = true -> ip_owed s' t e = false ->
  i = t /\ (ip_at s t = IBootStore \/ e = IPI_EVENT_HALT /\ ip_at s' t = IHalted \/
            exists a l, action e = Some a /\ ip_calls s' t = l ++ ip_calls s t /\ a ∈ l).
Proof.
  intros Hs Ho Hn. unfold ipi_step, ipi_hart_init, ipi_send, ipi_process in Hs.
  destruct (ip_at s i) as [| | |[|u todo] e0|u todo e0| | |w|w|w|] eqn:El; destruct c; try done.
  - exfalso. destruct (negb _); apply (inj Some) in Hs; subst s'; cbn in Hn; rewrite ?(proj1 (proj2 (proj2 (clear_frame s i)))) in Hn; congruence.
  - apply (inj Some) in Hs; subst s'. cbn in Hn. destruct (decide (i = t)) as [->|Hne]; [by split; [|left]|].
    rewrite fn_lookup_insert_ne in Hn by done. congruence.
  - apply (inj Some) in Hs; subst s'. cbn in Hn. congruence.
  - apply (inj Some) in Hs; subst s'. unfold ipi_kick in Hn. destruct (_ && _); [|congruence].
    rewrite (proj1 (proj2 (proj2 (send_frame s t0)))) in Hn. congruence.
  - apply (inj Some) in Hs; subst s'. cbn in Hn. congruence.
  - apply (inj Some) in Hs; subst s'. cbn in Hn. congruence.
  - apply (inj Some) in Hs; subst s'. cbn in Hn. congruence.
  - exfalso. destruct (_ || _); apply (inj Some) in Hs; subst s'; [cbn in Hn; congruence|].
    set (s1 := match e0 with IPI_EVENT_SMODE => icall s i PmuIpiSent | _ => s end) in *.
    assert (ip_owed s1 = ip_owed s) as Eo by (unfold s1; by destruct e0).
    change (ip_owed _) with (ip_owed (owe s1 u e0 true)) in Hn. rewrite owed_owe, Eo in Hn. destruct (decide _); congruence.
  - apply (inj Some) in Hs; subst s'. cbn in Hn. rewrite (proj1 (proj2 (proj2 (send_frame s u)))) in Hn. congruence.
  - destruct (negb _); apply (inj Some) in Hs; subst s'; cbn in Hn; rewrite ?(proj1 (proj2 (proj2 (clear_frame s i)))) in Hn; congruence.
  - apply (inj Some) in Hs; subst s'. cbn in Hn. congruence.
  - destruct (truth _); apply (inj Some) in Hs; subst s'; [|cbn in Hn; congruence].
    change (ip_owed _) with (ip_owed (owe s i IPI_EVENT_HALT false)) in Hn. rewrite owed_owe in Hn.
    destruct (decide _) as [[-> <-]|]; [|congruence]. split; [done|]. right; left. split; [done|]. cbn. by rewrite fn_lookup_insert.
  - apply (inj Some) in Hs; subst s'. destruct (truth _); [|cbn in Hn; congruence].
    change (ip_owed _) with (ip_owed (owe s i IPI_EVENT_RFENCE false)) in Hn. rewrite owed_owe in Hn.
    destruct (decide _) as [[-> <-]|]; [|congruence]. split; [done|]. right; right. exists RfenceProcess, [RfenceProcess].
    cbn. rewrite fn_lookup_insert. split_and!; [done|done|by left].
  - apply (inj Some) in Hs. change (igoto (smode_done s i w) i IIdle = s') in Hs. subst s'.
    change (ip_owed _) with (ip_owed (smode_done s i w)) in Hn. change (ip_calls (igoto _ _ _)) with (ip_calls (smode_done s i w)).
    destruct (decide (i = t)) as [->|Hne].
    2:{ exfalso. unfold smode_done in Hn. destruct (has w _), (has w _); rewrite ?owed_owe in Hn; cbn in Hn;
          repeat (rewrite decide_False in Hn by naive_solver); rewrite ?fn_lookup_insert_ne in Hn by done; congruence. }
    split; [done|]. right; right. destruct (smode_done_frame s t w e) as (_ & _ & _ & Eo). rewrite Eo, Ho in Hn. cbn [andb] in Hn.
    apply negb_false_iff in Hn. unfold smode_done. destruct e; try done; cbn in Hn; rewrite Hn; [exists SsipSet|exists TrapExit].
    + destruct (has w IPI_EVENT_SSE); cbn; rewrite !fn_lookup_insert;
        [exists [TrapExit; SsipSet; PmuIpiReceived]|exists [SsipSet; PmuIpiReceived]]; (split_and!; [done|done|set_solver]).
    + destruct (has w IPI_EVENT_SMODE); cbn; rewrite !fn_lookup_insert;
        [exists [TrapExit; SsipSet; PmuIpiReceived]|exists [TrapExit]]; (split_and!; [done|done|set_solver]).
Qed.

(** C10: No inter-processor event is lost but by a hart that starts over. However
    the harts interleave, an event that was posted to a hart is owed to it
    until the hart has acted on it (it is halted; the fences are served; the
    S-mode interrupt is raised; the hart is on its way to a trap exit, where
    events are delivered) or has emptied its word in [ipi_hart_init], which it
    goes through when it is stopped or started. And while it is owed, and the
    hart is neither halted nor in [ipi_hart_init], the event is in the hart's
    hands, or is in its word with its interrupt asserted, about to be, or the
    word about to be read. *)
Theorem ipi_not_lost (s : ipi) (t : Z) (e : ipi_event) :
  ipi_reachable s -> has_hart t = true -> ip_owed s t e = true ->
  (booted (ip_at s t) -> ip_at s t <> IHalted ->
     in_hand (ip_at s t) e = true \/
     has (ip_pending s t) e = true /\
     (raised s t = true \/ ip_at s t = ISwap \/ exists j todo e', ip_at s j = IRaise t todo e')) /\
  (forall i c s', ipi_step s i c = Some s' -> ip_owed s' t e = false ->
     i = t /\ (ip_at s t = IBootStore \/ e = IPI_EVENT_HALT /\ ip_at s' t = IHalted \/
               exists a l, action e = Some a /\ ip_calls s' t = l ++ ip_calls s t /\ a ∈ l)).
Proof.
  intros Hr Ht Ho. split.
  - intros Hb Hh. by apply (ipi_inv_reachable s Hr).
  - intros i c s' Hs. by apply (owed_until s s' i t c e).
Qed.

(** ** Progress *)

(** The steps [ipi_process] has left. *)
Definition left_of (l : ipi_loc) : nat :=
  match l with IClear => 5 | ISwap => 4 | IHalt _ => 3 | IFence _ => 2 | ISmode _ => 1 | _ => 0 end.

(** Since [calls], hart [t] has acted on [e], or is halted, or will within
    the steps it has left of five. *)
Definition on_the_way (calls : list ipi_call) (t : Z) (e : ipi_event) (n : nat) (s : ipi) : Prop :=
  exists l, ip_calls s t = l ++ calls /\
  (ip_at s t = IHalted \/ (exists a, action e = Some a /\ a ∈ l) \/
   (left_of (ip_at s t) + n = 5)%nat /\
   ((ip_at s t = IClear \/ ip_at s t = ISwap) /\ has (ip_pending s t) e = true \/ in_hand (ip_at s t) e = true)).

Lemma step_frame_other (s s' : ipi) (i t : Z) (c : ipi_choice) (e : ipi_event) : i <> t -> ipi_step s i c = Some s' ->
  ip_calls s' t = ip_calls s t /\ (has (ip_pending s t) e = true -> has (ip_pending s' t) e = true).
Proof.
  intros Hne Hs. unfold ipi_step, ipi_hart_init, ipi_send, ipi_process in Hs.
  destruct (ip_at s i) as [| | |[|u todo] e0|u todo e0| | |w|w|w|]; destruct c; try done;
    repeat match type of Hs with context [if ?b then _ else _] => destruct b end;
    apply (inj Some) in Hs; subst s';
    try (split; [|intros H]; try destruct e0; unfold ipi_kick, aclint_mswi_send, aclint_mswi_clear;
         repeat match goal with |- context [if ?b then _ else _] => destruct b end;
         cbn; rewrite ?fn_lookup_insert_ne by done; done).
  assert (forall w, has (ip_pending s t) e = true ->
    has ((<[u := Z.lor (ip_pending s u) (BIT w)]> (ip_pending s)) t) e = true) as Hp.
  { intros w H. destruct (decide (u = t)) as [->|Hut]; [|by rewrite fn_lookup_insert_ne].
    rewrite fn_lookup_insert. unfold has in *. by rewrite truth_lor, H. }
  destruct e0; cbn; rewrite ?fn_lookup_insert_ne by done; auto.
Qed.

Lemma step_frame_self (s s' : ipi) (t : Z) (c : ipi_choice) : ipi_step s t c = Some s' ->
  exists l, ip_calls s' t = l ++ ip_calls s t.
Proof.
  intros Hs. unfold ipi_step, ipi_hart_init, ipi_send, ipi_process in Hs.
  destruct (ip_at s t) as [| | |[|u todo] e0|u todo e0| | |w|w|w|]; destruct c; try done;
    repeat match type of Hs with context [if ?b then _ else _] => destruct b end;
    apply (inj Some) in Hs; subst s'; try destruct e0; unfold ipi_kick, aclint_mswi_send, aclint_mswi_clear;
    repeat match goal with |- context [if ?b then _ else _] => destruct b end;
    cbn; rewrite ?fn_lookup_insert; (by exists []) || (by eexists [_]) || (by eexists [_; _]) || (by eexists [_; _; _]).
Qed.

Lemma on_the_way_self (calls : list ipi_call) (t : Z) (e : ipi_event) (n : nat) (s s' : ipi) (c : ipi_choice) :
  on_the_way calls t e n s -> ipi_step s t c = Some s' -> on_the_way calls t e (S n) s'.
Proof.
  intros (l & El & H) Hs. pose proof (step_frame_self s s' t c Hs) as [l' El']. rewrite El, app_assoc in El'.
  exists (l' ++ l). split; [done|]. destruct H as [H|[(a & Ha & Hin)|[Hn H]]].
  { unfold ipi_step in Hs. rewrite H in Hs. by destruct c. }
  { right; left. exists a. rewrite elem_of_app. auto. }
  unfold ipi_step in Hs. destruct (ip_at s t) as [| | |? ?|? ? ?| | |w|w|w|] eqn:Ea; destruct c; try done;
    try (by destruct H as [[[?|?] _]|?]).
  - unfold ipi_process in Hs. rewrite Ea, ie_has_backend in Hs. cbn [negb] in Hs. apply (inj Some) in Hs. subst s'.
    destruct H as [[_ H]|H]; [|done]. right; right. cbn. rewrite fn_lookup_insert. cbn in *. split; [lia|].
    left. split; [by right|]. by rewrite (proj1 (clear_frame s t)).
  - unfold ipi_process in Hs. rewrite Ea in Hs. apply (inj Some) in Hs. subst s'.
    destruct H as [[_ H]|H]; [|done]. right; right. cbn. rewrite fn_lookup_insert. cbn in *. split; [lia|]. by right.
  - unfold ipi_process in Hs. rewrite Ea in Hs. destruct H as [[[?|?] _]|H]; [done..|].
    fold (has w IPI_EVENT_HALT) in Hs. destruct (has w IPI_EVENT_HALT) eqn:Ew; apply (inj Some) in Hs; subst s'.
    + left. cbn. by rewrite fn_lookup_insert.
    + right; right. cbn. rewrite fn_lookup_insert. cbn in *. split; [lia|]. right. destruct e; try done. congruence.
  - unfold ipi_process in Hs. rewrite Ea in Hs. destruct H as [[[?|?] _]|H]; [done..|].
    fold (has w IPI_EVENT_RFENCE) in Hs. apply (inj Some) in Hs; subst s'. cbn in El'.
    destruct e; try done; try (right; right; cbn; rewrite fn_lookup_insert; cbn in *; split; [lia|by right]).
    right; left. exists RfenceProcess. split; [done|]. cbn in H. rewrite H in El'. cbn in El'. rewrite fn_lookup_insert, El in El'.
    apply (app_inv_tail calls (RfenceProcess :: l) (l' ++ l)) in El'. rewrite <- El'. by left.
  - unfold ipi_process in Hs. rewrite Ea in Hs. destruct H as [[[?|?] _]|H]; [done..|]. apply (inj Some) in Hs.
    change (igoto (smode_done s t w) t IIdle = s') in Hs. subst s'. right; left.
    change (ip_calls _ t) with (ip_calls (smode_done s t w) t) in El'. unfold smode_done in El'. cbn in H.
    assert (forall x, x ++ calls = (l' ++ l) ++ calls -> x = l' ++ l) as Hinj by (intros x; apply app_inv_tail).
    destruct e; try done; rewrite H in El'; [exists SsipSet|exists TrapExit]; (split; [done|]).
    + destruct (has w IPI_EVENT_SSE); cbn in El'; rewrite !fn_lookup_insert, ?El in El'.
      * specialize (Hinj (TrapExit :: SsipSet :: PmuIpiReceived :: l) El'). rewrite <- Hinj. set_solver.
      * specialize (Hinj (SsipSet :: PmuIpiReceived :: l) El'). rewrite <- Hinj. set_solver.
    + destruct (has w IPI_EVENT_SMODE); cbn in El'; rewrite !fn_lookup_insert, ?El in El'.
      * specialize (Hinj (TrapExit :: SsipSet :: PmuIpiReceived :: l) El'). rewrite <- Hinj. set_solver.
      * specialize (Hinj (TrapExit :: l) El'). rewrite <- Hinj. set_solver.
Qed.

(** The steps of hart [t] in a run. *)
Definition own_steps (t : Z) (steps : list (Z * ipi_choice)) : nat :=
  length (filter (fun x => x.1 = t) steps).

Lemma on_the_way_run (calls : list ipi_call) (t : Z) (e : ipi_event) (steps : list (Z * ipi_choice)) (n : nat) (s s' : ipi) :
  on_the_way calls t e n s -> ipi_run s steps = Some s' -> on_the_way calls t e (own_steps t steps + n) s'.
Proof.
  revert n s. induction steps as [|[i c] steps IH]; intros n s H Hr; cbn in Hr; [by injection Hr as <-|].
  destruct (ipi_step s i c) as [s1|] eqn:Hs; cbn in Hr; [|done]. unfold own_steps in *. rewrite filter_cons.
  destruct (decide _) as [Et|Hne]; cbn in Et || cbn in Hne.
  - subst i. cbn [length]. rewrite Nat.add_succ_comm. eapply IH; [|done]. by eapply on_the_way_self.
  - eapply IH; [|done]. destruct H as (l & El & H).
    destruct (step_frame_other s s1 i t c e) as [Ec Hp]; [done..|]. pose proof (step_at s s1 i t c Hne Hs) as Ea.
    exists l. rewrite Ec, Ea. split; [done|]. destruct H as [H|[H|[Hn H]]]; [by left|by right; left|right; right].
    split; [done|]. destruct H as [[H1 H2]|H]; [left; auto|by right].
Qed.

(** A hart that enters [ipi_process] has acted on every event that was
    posted to it before, or is halted, once it has made five steps, whatever
    the other harts do in between; and until then its next step is open. *)
Theorem ipi_process_delivers (s s' : ipi) (t : Z) (e : ipi_event) (steps : list (Z * ipi_choice)) :
  ipi_reachable s -> has_hart t = true -> ip_at s t = IClear -> ip_owed s t e = true ->
  ipi_run s steps = Some s' ->
  ip_at s' t = IHalted \/
  (exists l a, ip_calls s' t = l ++ ip_calls s t /\ action e = Some a /\ a ∈ l) \/
  (own_steps t steps < 5)%nat /\ is_Some (ipi_step s' t IGo).
Proof.
  intros Hr Ht Ea Ho Hs. assert (on_the_way (ip_calls s t) t e 0 s) as H.
  { exists []. split; [done|]. right; right. rewrite Ea. split; [done|]. left. split; [by left|].
    destruct (proj2 (ipi_inv_reachable s Hr) t e Ht) as [H|[H _]]; [by rewrite Ea..|done|by rewrite Ea in H|done]. }
  apply (on_the_way_run _ _ _ steps 0 s s') in H; [|done]. destruct H as (l & El & [H|[(a & Ha & Hin)|[Hn H]]]).
  - by left.
  - right; left. by exists l, a.
  - right; right. unfold ipi_step, ipi_process. destruct (ip_at s' t) eqn:El'; cbn in Hn; cbn in H;
      try (destruct H as [[[?|?] _]|?]; done); (split; [lia|]); rewrite ?ie_has_backend; cbn;
      repeat match goal with |- context [if ?b then Some _ else _] => destruct b end; by eexists.
Qed.
End Ipi.

(** ** Two harts *)

Module TwoHartsIpi.
#[local] Instance arch : Arch := RV64.
#[local] Instance config : Kconfig := qemu_virt.
#[local] Instance harts : HartTable := {| ht_ids := [0; 1]; ht_nodup := two_harts_nodup |}.
#[local] Instance env : IpiEnv := {| ie_backend := Some (IpiOps 100 8); ie_msip_base := 0x2000000; ie_msip_of := fun i => i |}.

Lemma hart_cases (t : Z) : has_hart t = true -> t = 0 \/ t = 1.
Proof. unfold has_hart. change (hart_table_size ht_ids) with 2. intros H. bool_prop. lia. Qed.

#[local] Instance env_ok : IpiEnvOk.
Proof.
  split; [done|intros t Ht|intros t u Ht Hu].
  - destruct (hart_cases t Ht) as [->| ->]; done.
  - destruct (hart_cases t Ht) as [->| ->], (hart_cases u Hu) as [->| ->]; done.
Qed.

Definition cold : ipi :=
  Ipi (fun _ => 0) (fun _ => 0) (fun _ => false) (fun _ => IBoot) (fun _ => []) (fun _ _ => false).

Fixpoint run_state (s : ipi) (steps : list (Z * ipi_choice)) : ipi :=
  match steps with
  | [] => s
  | (i, c) :: steps => run_state (default s (ipi_step s i c)) steps
  end.

(** Both come up; hart 1 posts to hart 0, which is inside [ipi_process] by
    then. *)
Definition up : list (Z * ipi_choice) := [(0, IGo); (0, IGo); (1, IGo); (1, IGo)].
Definition posted : list (Z * ipi_choice) := up ++ [(1, ISend [0] IPI_EVENT_SMODE); (1, IGo)].
Definition taken : list (Z * ipi_choice) := posted ++ [(0, IProcess)].

Lemma reach (steps : list (Z * ipi_choice)) (s : ipi) : ipi_reachable s ->
  Forall (fun x => has_hart x.1 = true) steps -> ipi_reachable (run_state s steps).
Proof.
  revert s. induction steps as [|[i c] steps IH]; intros s Hs Hf; [done|]. inversion_clear Hf as [|? ? Hi Hf'].
  apply IH; [|done]. destruct (ipi_step s i c) eqn:E; [|done]. by eapply IReachStep.
Defined.

Lemma cold_reach (steps : list (Z * ipi_choice)) :
  forallb (fun x => has_hart x.1) steps = true -> ipi_reachable (run_state cold steps).
Proof.
  intros H. apply reach; [by apply IReachStart|]. apply Forall_forall. intros x Hx%list_elem_of_In.
  rewrite forallb_forall in H. by apply H.
Qed.

Lemma ipi_not_lost_witness :
  ip_owed (run_state cold posted) 0 IPI_EVENT_SMODE = true /\ deliverable (run_state cold posted) 0 IPI_EVENT_SMODE.
Proof.
  assert (ip_owed (run_state cold posted) 0 IPI_EVENT_SMODE = true) as Ho by reflexivity.
  split; [exact Ho|]. refine (proj1 (ipi_not_lost (run_state cold posted) 0 IPI_EVENT_SMODE (cold_reach posted eq_refl) eq_refl Ho) _ _).
  - split; discriminate.
  - discriminate.
Defined.

(** A hart that starts over drops what was posted to it: hart 1 panics and
    posts HALT to hart 0, which is granted a start and goes through
    [hart_runtime_init]; its word is empty, its interrupt may come or not, and
    it goes on to S-mode. *)
Definition halt_posted : list (Z * ipi_choice) := up ++ [(0, IRestart); (1, ISend [0] IPI_EVENT_HALT); (1, IGo); (1, IGo); (0, IGo); (0, IGo)].
Lemma halt_dropped_at_start :
  let s := run_state cold halt_posted in
  ip_at s 0 = IIdle /\ ip_pending s 0 = 0 /\ raised s 0 = false /\ ip_calls s 0 = [].
Proof. vm_compute. done. Qed.

Definition rest : list (Z * ipi_choice) := [(0, IGo); (1, IGo); (0, IGo); (0, IGo); (0, IGo); (0, IGo)].
Definition final : ipi := run_state (run_state cold taken) rest.

Lemma ipi_process_delivers_witness :
  ip_at (run_state cold taken) 0 = IClear /\
  exists l a, ip_calls final 0 = l ++ ip_calls (run_state cold taken) 0 /\ action IPI_EVENT_SMODE = Some a /\ a ∈ l.
Proof.
  assert (ipi_run (run_state cold taken) rest = Some final) as E by (vm_compute; reflexivity).
  assert (ip_at (run_state cold taken) 0 = IClear) as Ea by (vm_compute; reflexivity).
  assert (ip_owed (run_state cold taken) 0 IPI_EVENT_SMODE = true) as Eo by (vm_compute; reflexivity).
  assert (ip_at final 0 <> IHalted) as Eh by (vm_compute; congruence).
  assert (~ (own_steps 0 rest < 5)%nat) as En by (vm_compute; lia).
  split; [exact Ea|].
  destruct (ipi_process_delivers (run_state cold taken) final 0 IPI_EVENT_SMODE rest
    (cold_reach taken eq_refl) eq_refl Ea Eo E) as [H|[H|[H _]]]; [contradiction|exact H|contradiction].
Defined.
End TwoHartsIpi.
