(* ===== verification/Timer.v ===== *)
(** The timer, [drivers/timer/timer.c], over its ACLINT backend
    [drivers/timer/aclint_mtimer.c]: S-mode's deadline of a hart without Sstc
    is put into the hart's MTIMECMP register; the M-mode interrupt it gives
    is turned into a pending S-mode one, and masked until the next deadline.

    [timer_smode_get] and [timer_smode_restore] are in [DomainContext.v]: the
    deadline goes with a context. *)

From S2P Require Import Prelude Arch Csr Fields Memregion DomainContext.

#[local] Open Scope Z_scope.

Definition U32_MAX : Z := 2 ^ 32 - 1.
Definition U64_MAX : Z := 2 ^ 64 - 1.

(** ** The device *)

(** A 64-bit register, as the two halves a 32-bit access writes. *)
Record reg64 : Set := Reg64 { r_lo : Z; r_hi : Z }.
#[export] Instance reg64_eta : Settable reg64 := fun r => Reg64 (r_lo r) (r_hi r).
Definition reg_value (r : reg64) : Z := reg_pair_to_64 (r_hi r) (r_lo r).

(** The values the register has one after the other, the last one to stay. *)
Definition aclint_mtimer_set_event (r : reg64) (when : Z) : list reg64 :=
  let r1 := r <| r_lo := U32_MAX |> in
  let r2 := r1 <| r_hi := high32_from_64 when |> in
  let r3 := r2 <| r_lo := low32 when |> in
  [r1; r2; r3].

(** [aclint_mtimer_now]: the clock at each of the accesses of a turn of its
    loop; [None] when the turns are up. *)
Fixpoint aclint_mtimer_now (turns : list (Z * Z * Z)) : option Z :=
  match turns with
  | [] => None
  | (t0, t1, t2) :: turns =>
      let hi := high32_from_64 t0 in
      let lo := low32 t1 in
      if negb (hi =? high32_from_64 t2) then aclint_mtimer_now turns
      else Some (reg_pair_to_64 hi lo)
  end.

(** ** A hart and its register *)

Class TimerEnv := { te_mtimecmp_of : Z; (* of the calling hart, negative: none *) }.

Record timer_sys : Type := TimerSys {
  ts_hw : hart_hw;
  ts_cmp : reg64;
  ts_now : Z;
  ts_pmu : Z; (* SBI_PMU_FW_SET_TIMER *)
}.
#[export] Instance timer_sys_eta : Settable timer_sys := fun s => TimerSys (ts_hw s) (ts_cmp s) (ts_now s) (ts_pmu s).

Section Timer.
Context {AR : Arch} {F : Features} {CE : CtxEnv} {TE : TimerEnv}.

(** The register after the calls of the backend that [h'] has and [h] had
    not, the oldest first. *)
Definition set_events (h h' : hart_hw) (r : reg64) : reg64 :=
  let new := take (length (hw_calls h') - length (hw_calls h)) (hw_calls h') in
  foldr (fun c r => match c with
                    | TimerSetEvent when =>
                        if te_mtimecmp_of <? 0 then r else List.last (aclint_mtimer_set_event r when) r
                    | _ => r
                    end) r new.
Definition on_hw (f : hart_hw -> hart_hw) (s : timer_sys) : timer_sys :=
  s <| ts_hw := f (ts_hw s) |> <| ts_cmp := set_events (ts_hw s) (f (ts_hw s)) (ts_cmp s) |>.

Definition timer_smode_set (s : timer_sys) (when : Z) : timer_sys :=
  on_hw (fun h => timer_smode_restore h when) (s <| ts_pmu ::= Z.succ |>).

Definition timer_process (s : timer_sys) : timer_sys :=
  on_hw (on_csrs (fun c => csr_set (csr_clear c CSR_MIE MIP_MTIP) CSR_MIP MIP_STIP)) s.

(** [timer->stop_event()] is [set_event] of all ones. *)
Definition timer_hart_init (s : timer_sys) : timer_sys :=
  on_hw (fun h =>
    let h := h <| hw_deadline := U64_MAX |> in
    let h := on_csrs (fun c => csr_clear c CSR_MIE MIP_MTIP) h in
    if ctx_timer then hw_call h (TimerSetEvent U64_MAX) else h) s.

(** The interrupt of the device. *)
Definition mtip (s : timer_sys) : bool := reg_value (ts_cmp s) <=? ts_now s.
Definition mtie (s : timer_sys) : bool := truth (Z.land (hw_read (ts_hw s) CSR_MIE) MIP_MTIP).
Definition stip (s : timer_sys) : bool := truth (Z.land (hw_read (ts_hw s) CSR_MIP) MIP_STIP).

(** What can happen: S-mode, or a switch of contexts, sets a deadline; time
    goes on; the interrupt is taken. *)
Inductive timer_step : timer_sys -> timer_sys -> Prop :=
| TSet s when : 0 <= when <= U64_MAX -> timer_step s (timer_smode_set s when)
| TRestore s when : 0 <= when <= U64_MAX -> timer_step s (on_hw (fun h => timer_smode_restore h when) s)
| TTick s now : ts_now s <= now <= U64_MAX -> timer_step s (s <| ts_now := now |>)
| TTrap s : mtip s = true -> mtie s = true -> timer_step s (timer_process s).

(** After [hart_runtime_init], which has cleared what was pending. *)
Inductive timer_reachable : timer_sys -> Prop :=
| TStart s : csr_wf (hw_csrs (ts_hw s)) -> 0 <= ts_now s <= U64_MAX -> stip s = false -> timer_reachable (timer_hart_init s)
| TStep s s' : timer_reachable s -> timer_step s s' -> timer_reachable s'.

(** ** The registers *)

Lemma pair_value (hi lo : Z) : 0 <= lo < 2 ^ 32 -> reg_pair_to_64 hi lo = hi * 2 ^ 32 + lo.
Proof.
  intros Hlo. unfold reg_pair_to_64. rewrite Z.shiftl_mul_pow2 by lia. rewrite lor_disjoint_add; [done|].
  rewrite <- Z.shiftl_mul_pow2 by lia. bitwise. destruct (Z.ltb_spec i 32).
  - by rewrite (Z.testbit_neg_r hi) by lia.
  - rewrite (testbit_high 32 lo i) by lia. apply andb_false_r.
Qed.

Lemma pair_split (v : Z) : high32_from_64 v * 2 ^ 32 + low32 v = v.
Proof. unfold high32_from_64, low32. rewrite Z.shiftr_div_pow2 by lia. pose proof (Z.div_mod v (2 ^ 32)). lia. Qed.

Lemma low32_range (v : Z) : 0 <= low32 v < 2 ^ 32.
Proof. apply Z.mod_pos_bound. lia. Qed.

Definition reg_ok (r : reg64) : Prop := 0 <= r_lo r < 2 ^ 32.

Lemma set_event_value (r : reg64) (when : Z) :
  reg_value (List.last (aclint_mtimer_set_event r when) r) = when.
Proof. cbn. unfold reg_value. cbn. rewrite pair_value by apply low32_range. apply pair_split. Qed.

(** While [aclint_mtimer_set_event] writes the compare register in
    halves, no value the register has in between fires before both the old
    and the new deadline: an interrupt that comes then is one of theirs; and
    the last value is the new deadline. *)
Theorem set_event_no_glitch (r : reg64) (when now : Z) :
  reg_ok r -> 0 <= when <= U64_MAX -> now < reg_value r -> now < when ->
  (forall r', r' ∈ aclint_mtimer_set_event r when -> now < reg_value r') /\
  reg_value (List.last (aclint_mtimer_set_event r when) r) = when.
Proof.
  intros Hr Hw H1 H2. split; [|apply set_event_value]. pose proof (pair_split when) as Hs. pose proof (low32_range when) as Hl.
  unfold reg_ok in Hr. unfold reg_value in *. rewrite pair_value in H1 by lia.
  intros r'. unfold aclint_mtimer_set_event. rewrite !elem_of_cons, elem_of_nil. intros [->|[->|[->|[]]]]; cbn;
    rewrite pair_value by (unfold U32_MAX; lia); unfold U32_MAX; lia.
Qed.

(** [aclint_mtimer_now] puts two halves read at different times together,
    and still returns a time the clock had: the one at the read of the lower
    half of the turn that ends it, whenever the clock only goes forward. *)
Theorem mtimer_now_exact (turns : list (Z * Z * Z)) (v : Z) :
  (forall t0 t1 t2, (t0, t1, t2) ∈ turns -> 0 <= t0 <= t1 /\ t1 <= t2) ->
  aclint_mtimer_now turns = Some v -> exists t0 t2, (t0, v, t2) ∈ turns.
Proof.
  induction turns as [|[[t0 t1] t2] turns IH]; intros Hm; [done|]. cbn [aclint_mtimer_now].
  destruct (Hm t0 t1 t2) as [H1 H2]; [by left|].
  destruct (Z.eqb_spec (high32_from_64 t0) (high32_from_64 t2)) as [E|E]; cbn [negb].
  - intros [= <-]. exists t0, t2. assert (reg_pair_to_64 (high32_from_64 t0) (low32 t1) = t1) as ->; [|by left].
    rewrite pair_value by apply low32_range. rewrite <- (pair_split t1) at 2. do 2 f_equal.
    unfold high32_from_64 in *. rewrite !Z.shiftr_div_pow2 in * by lia.
    pose proof (Z.div_le_mono t0 t1 (2 ^ 32)). pose proof (Z.div_le_mono t1 t2 (2 ^ 32)). lia.
  - intros Hv. destruct IH as (a & b & Hin); [|done|]; [intros; apply Hm; by right|]. exists a, b. by right.
Qed.

(** A turn in which the upper half stays the same ends the loop. *)
Lemma mtimer_now_stops (turns : list (Z * Z * Z)) (t0 t1 t2 : Z) :
  (t0, t1, t2) ∈ turns -> high32_from_64 t0 = high32_from_64 t2 -> is_Some (aclint_mtimer_now turns).
Proof.
  intros Hin E. induction turns as [|[[a b] c] turns IH]; [by apply elem_of_nil in Hin|]. cbn [aclint_mtimer_now].
  destruct (Z.eqb_spec (high32_from_64 a) (high32_from_64 c)) as [Eh|Eh]; cbn [negb]; [by eexists|].
  apply elem_of_cons in Hin as [[= -> -> ->]|Hin]; [done|by apply IH].
Qed.

(** ** Early, late, never *)

(** The bits of mie and mip the timer goes by. *)
Lemma bit_set_read (c : csr_file) (csr k n j : Z) : csr_wf c -> 0 <= k < 32 -> 0 <= j < 32 ->
  truth (Z.land (csr_read (csr_set c csr (2 ^ k)) n) (2 ^ j)) =
  (bool_decide (csr = n) && (j =? k)) || truth (Z.land (csr_read c n) (2 ^ j)).
Proof.
  intros Hwf Hk Hj. pose proof XLEN_bounds. unfold csr_set. rewrite csr_read_write, !truth_bit by lia.
  destruct (decide (csr = n)) as [->|Hne]; [|by rewrite bool_decide_false].
  rewrite bool_decide_true by done. rewrite wrap_small.
  - rewrite testbit_set by lia. done.
  - apply is_ulong_lor; [by apply csr_read_wf|]. split; [pose proof (pow2_pos k); lia|].
    apply Z.pow_lt_mono_r; lia.
Qed.

Lemma bit_clear_read (c : csr_file) (csr k n j : Z) : csr_wf c -> 0 <= k < 32 -> 0 <= j < 32 ->
  truth (Z.land (csr_read (csr_clear c csr (2 ^ k)) n) (2 ^ j)) =
  negb (bool_decide (csr = n) && (j =? k)) && truth (Z.land (csr_read c n) (2 ^ j)).
Proof.
  intros Hwf Hk Hj. pose proof XLEN_bounds. unfold csr_clear. rewrite csr_read_write, !truth_bit by lia.
  destruct (decide (csr = n)) as [->|Hne]; [|by rewrite bool_decide_false].
  rewrite bool_decide_true by done. rewrite land_unot by (by apply csr_read_wf).
  rewrite wrap_small; [by rewrite testbit_clear by lia|].
  split; [apply Z.ldiff_nonneg; pose proof (csr_read_wf c n Hwf) as []; lia|].
  pose proof (csr_read_wf c n Hwf) as Hr. rewrite <- land_unot by done.
  apply is_ulong_land; [done|apply wrap_range].
Qed.

(** Sstc is not there; there is a timer, and the hart has a register. *)
Class TimerOk : Prop := {
  timer_no_sstc : hart_has HART_FEAT_SSTC = false;
  timer_there : ctx_timer = true;
  timer_register : 0 <= te_mtimecmp_of;
}.
Context {TO : TimerOk}.

Lemma set_events_one (h h' : hart_hw) (r : reg64) (when : Z) :
  hw_calls h' = TimerSetEvent when :: hw_calls h -> set_events h h' r = List.last (aclint_mtimer_set_event r when) r.
Proof.
  intros E. unfold set_events. rewrite E. cbn [length].
  replace (S (length (hw_calls h)) - length (hw_calls h))%nat with 1%nat by lia. cbn [take foldr].
  pose proof timer_register. destruct (Z.ltb_spec te_mtimecmp_of 0); [lia|done].
Qed.

Lemma set_events_none (h h' : hart_hw) (r : reg64) : hw_calls h' = hw_calls h -> set_events h h' r = r.
Proof. intros E. unfold set_events. rewrite E, Nat.sub_diag. done. Qed.

Definition timer_inv (s : timer_sys) : Prop :=
  csr_wf (hw_csrs (ts_hw s)) /\ 0 <= ts_now s <= U64_MAX /\
  reg_value (ts_cmp s) = hw_deadline (ts_hw s) /\
  (stip s = true -> mtie s = false /\ hw_deadline (ts_hw s) <= ts_now s) /\
  (stip s = false -> mtie s = false -> hw_deadline (ts_hw s) = U64_MAX).

(** What a new deadline does. *)
Lemma timer_restore_inv (s : timer_sys) (when : Z) : timer_inv s ->
  let s' := on_hw (fun h => timer_smode_restore h when) s in
  timer_inv s' /\ hw_deadline (ts_hw s') = when /\ mtie s' = true /\ stip s' = false.
Proof.
  intros (Hwf & Hn & Hc & Hs & Hi) s'.
  set (h1 := on_csrs (fun c => csr_clear c CSR_MIP MIP_STIP) ((ts_hw s) <| hw_deadline := when |>)).
  assert (ts_hw s' = on_csrs (fun c => csr_set c CSR_MIE MIP_MTIP) (hw_call h1 (TimerSetEvent when))) as E.
  { unfold s', on_hw. cbn [ts_hw field_update]. unfold timer_smode_restore. by rewrite timer_no_sstc, timer_there. }
  assert (ts_cmp s' = List.last (aclint_mtimer_set_event (ts_cmp s) when) (ts_cmp s)) as Ec.
  { unfold s', on_hw. cbn [ts_cmp field_update]. apply set_events_one.
    change (timer_smode_restore (ts_hw s) when) with (ts_hw s'). by rewrite E. }
  assert (csr_wf (csr_clear (hw_csrs (ts_hw s)) CSR_MIP MIP_STIP)) as Hwf1 by auto with csr.
  assert (mtie s' = true) as Hm.
  { unfold mtie, hw_read. rewrite E. cbn [hw_csrs on_csrs field_update hw_call h1]. unfold MIP_MTIP.
    by rewrite bit_set_read by (done || lia). }
  assert (stip s' = false) as Ht.
  { unfold stip, hw_read. rewrite E. cbn [hw_csrs on_csrs field_update hw_call h1]. unfold MIP_MTIP, MIP_STIP in *.
    rewrite bit_set_read, bit_clear_read by (done || lia). rewrite bool_decide_false by done.
    rewrite bool_decide_true by done. done. }
  split_and!; [split_and!| |done|done].
  - rewrite E. apply csr_set_wf, Hwf1.
  - apply Hn.
  - apply Hn.
  - rewrite Ec, set_event_value, E. done.
  - congruence.
  - congruence.
  - rewrite E. done.
Qed.

Lemma timer_process_inv (s : timer_sys) : timer_inv s -> mtip s = true -> timer_inv (timer_process s) /\ stip (timer_process s) = true.
Proof.
  intros (Hwf & Hn & Hc & Hs & Hi) Hm. unfold mtip in Hm. bool_prop.
  assert (ts_cmp (timer_process s) = ts_cmp s) as Ec by (unfold timer_process, on_hw; cbn [ts_cmp field_update]; by apply set_events_none).
  assert (csr_wf (csr_clear (hw_csrs (ts_hw s)) CSR_MIE MIP_MTIP)) as Hwf1 by auto with csr.
  assert (stip (timer_process s) = true) as Ht.
  { unfold stip, hw_read. cbn [timer_process on_hw ts_hw hw_csrs on_csrs field_update]. unfold MIP_STIP.
    by rewrite bit_set_read by (done || lia). }
  assert (mtie (timer_process s) = false) as He.
  { unfold mtie, hw_read. cbn [timer_process on_hw ts_hw hw_csrs on_csrs field_update]. unfold MIP_STIP, MIP_MTIP in *.
    rewrite bit_set_read, bit_clear_read by (done || lia). rewrite bool_decide_false by done.
    rewrite bool_decide_true by done. done. }
  split; [|done]. split_and!; [apply csr_set_wf, Hwf1|apply Hn..|by rewrite Ec|intros _; split; [done|]|congruence].
  change (hw_deadline (ts_hw s) <= ts_now s). lia.
Qed.

Lemma timer_inv_reachable (s : timer_sys) : timer_reachable s -> timer_inv s.
Proof.
  induction 1 as [s Hwf Hn Hs|s s' _ IH Hst].
  - assert (csr_wf (csr_clear (hw_csrs (ts_hw s)) CSR_MIE MIP_MTIP)) as Hwf1 by auto with csr.
    assert (ts_hw (timer_hart_init s) = hw_call (on_csrs (fun c => csr_clear c CSR_MIE MIP_MTIP)
      ((ts_hw s) <| hw_deadline := U64_MAX |>)) (TimerSetEvent U64_MAX)) as E.
    { unfold timer_hart_init, on_hw. cbn [ts_hw field_update]. by rewrite timer_there. }
    split_and!.
    + rewrite E. done.
    + apply Hn.
    + apply Hn.
    + assert (ts_cmp (timer_hart_init s) = List.last (aclint_mtimer_set_event (ts_cmp s) U64_MAX) (ts_cmp s)) as ->.
      { unfold timer_hart_init, on_hw. cbn [ts_cmp field_update]. apply set_events_one. by rewrite timer_there. }
      rewrite set_event_value, E. done.
    + intros H. exfalso. revert H. unfold stip, hw_read. rewrite E. cbn [hw_csrs on_csrs field_update hw_call].
      unfold MIP_MTIP, MIP_STIP. rewrite bit_clear_read by (done || lia). rewrite bool_decide_false by done.
      unfold stip, hw_read, MIP_STIP in Hs. cbn. rewrite Hs. done.
    + intros _ _. by rewrite E.
  - destruct Hst as [s when Hw|s when Hw|s now Hn|s Hm He].
    + apply (timer_restore_inv (s <| ts_pmu ::= Z.succ |>) when IH).
    + apply (timer_restore_inv s when IH).
    + destruct IH as (Hwf & Hn0 & Hc & Hs & Hi). split_and!; [done|cbn; lia|cbn; lia|done| |done].
      intros H. destruct (Hs H) as [? ?]. split; [done|]. cbn. lia.
    + apply (timer_process_inv s IH Hm).
Qed.

End Timer.

(** ** A hart with a CLINT *)

Module Clint.
#[local] Instance arch : Arch := RV64.
#[local] Instance features : Features := fun _ => false.
#[local] Instance ctx_env : CtxEnv := {|
  ctx_self := 0; ctx_misa := 0; ctx_vec_bytes := 0; ctx_timer := true; ctx_memregions := []; ctx_mpxy_resumed := id |}.
#[local] Instance env : TimerEnv := {| te_mtimecmp_of := 0 |}.
#[local] Instance env_ok : TimerOk.
Proof. split; done. Qed.

Definition reset : timer_sys :=
  TimerSys (HartHw ∅ 0 0 [] (VecState 0 0 0 0 []) []) (Reg64 0 0) 5 0.
Definition passed : timer_sys := (timer_smode_set (timer_hart_init reset) 10) <| ts_now := 12 |>.

Lemma passed_reachable : timer_reachable passed.
Proof.
  eapply TStep; [eapply TStep; [apply (TStart reset)|]|].
  - apply csr_wf_empty.
  - cbn. unfold U64_MAX. lia.
  - reflexivity.
  - apply (TSet _ 10). unfold U64_MAX. lia.
  - apply (TTick _ 12). cbn. unfold U64_MAX. lia.
Qed.


Lemma set_event_no_glitch_witness : reg_value (Reg64 0xfffffff0 1) = 0x1fffffff0 /\
  forall r', r' ∈ aclint_mtimer_set_event (Reg64 0xfffffff0 1) 0x200000010 -> 0x1ffffff00 < reg_value r'.
Proof.
  split; [reflexivity|].
  refine (proj1 (set_event_no_glitch (Reg64 0xfffffff0 1) 0x200000010 0x1ffffff00 _ _ _ _)).
  - unfold reg_ok. cbn. lia.
  - unfold U64_MAX. lia.
  - vm_compute. reflexivity.
  - lia.
Defined.

Lemma mtimer_now_exact_witness :
  aclint_mtimer_now [(0x1ffffffff, 0x200000000, 0x200000001); (0x200000002, 0x200000003, 0x200000004)] = Some 0x200000003 /\
  exists t0 t2, (t0, 0x200000003, t2) ∈ [(0x1ffffffff, 0x200000000, 0x200000001); (0x200000002, 0x200000003, 0x200000004)].
Proof.
  split; [reflexivity|]. apply mtimer_now_exact; [|reflexivity].
  intros t0 t1 t2. rewrite !elem_of_cons, elem_of_nil. intros [[= -> -> ->]|[[= -> -> ->]|[]]]; lia.
Defined.
End Clint.
