(* ===== verification/Sbi.v ===== *)
(** The ecall dispatcher, [services/core/service.c] and [include/service.h],
    and what a service is made of.

    A service works by calls of the rest of the monitor ([call], with the
    type of the answer); its code is a tree of such calls ([prog]). A call
    that is answered goes on with the answer; one that is not (the hart was
    stopped, the system reset) does not come back. The theorems on services
    quantify over the answers, or take them from the component that gives
    them.

    The SBI extensions, [services/sbi/*.c]: what each call checks, and which
    component it goes to. [sbi_services] is the table of the services. *)

From S2P Require Import Prelude Arch Csr Fields Bitstring Domain Hart Rfence DomainContext Trap Ipi.

#[local] Open Scope Z_scope.


Inductive reset_type : Set := RESET_SHUTDOWN | RESET_COLD_REBOOT | RESET_WARM_REBOOT.
#[export] Instance reset_type_eq_dec : EqDecision reset_type.
Proof. solve_decision. Defined.

(** ** The calls *)

Inductive call : Set -> Type :=
(* the domain the hart runs, and the table of domains *)
| ThisDomain : call domain
| DomainCount : call Z
| DomainRunning (d : Z) : call bool
| DomainEnter (regs : trap_regs) (d arg : Z) : call (Z * trap_regs)
| DomainExit (regs : trap_regs) (value : Z) : call (Z * trap_regs)
| DomainStart (d : Z) : call Z
| DomainStop (regs : trap_regs) (d : Z) : call (Z * trap_regs)
| DomainIpiParked (hart : Z) : call unit
(* harts *)
| HartValid (hartid : Z) : call bool
| HsmInterruptibleMask : call hartmask
| HsmHartStart (hartid addr arg : Z) : call Z
| HsmHartStop : call Z
| HsmHartState (hartid : Z) : call Z
| HsmHartSuspend (type addr arg : Z) : call Z
| HsmSystemSuspend (type addr arg : Z) : call Z
| RfenceRequest (targets : hartmask) (req : rfence_req) : call Z
| IpiAvailable : call bool
| IpiSendMask (targets : hartmask) (e : ipi_event) : call unit
| TimerAvailable : call bool
| TimerSmodeSet (when : Z) : call unit
(* memory of S-mode *)
| SmodeRangeOk (addr size : Z) : call bool
| SmodeRangeReadable (addr size : Z) : call bool
| SmodeAccessBegin (addr size : Z) : call unit
| SmodeAccessEnd : call unit
| UnprivRead (regs : trap_regs) (addr len : Z) : call (Z + trap_info)
| TrapRedirect (regs : trap_regs) (info : trap_info) : call trap_regs
(* the console *)
| ConsoleWriteMem (addr len : Z) : call unit
| ConsoleReadMem (addr len : Z) : call Z
| ConsolePut (c : Z) : call unit
| ConsoleGetc : call Z
(* reset *)
| ResetSupported (t : reset_type) : call bool
| SystemReset (t : reset_type) : call Empty_set
(* registers *)
| CsrRead (csr : Z) : call Z
| CsrClear (csr bits : Z) : call unit
(* the other components *)
| SseReadAttrs (id base count addr : Z) : call Z
| SseWriteAttrs (id base count addr : Z) : call Z
| SseRegister (id entry arg : Z) : call Z
| SseUnregister (id : Z) : call Z
| SseEnable (id : Z) : call Z
| SseDisable (id : Z) : call Z
| SseComplete (regs : trap_regs) : call (bool * trap_regs)
| SseInject (id hartid : Z) : call Z
| SseHartUnmask : call Z
| SseHartMask : call Z
| FwftSet (feature value flags : Z) : call Z
| FwftGet (feature : Z) : call (Z * Z)
| CppcAvailable : call bool
| CppcProbe (reg : Z) : call (Z * Z)
| CppcRead (reg : Z) : call (Z * Z)
| CppcWrite (reg val : Z) : call Z
| DbtrNumTriggers (tdata1 : Z) : call Z
| DbtrSetShmem (lo hi flags : Z) : call Z
| DbtrRead (base count : Z) : call Z
| DbtrInstall (count : Z) : call (Z * Z)
| DbtrUpdate (count : Z) : call (Z * Z)
| DbtrUninstall (base mask : Z) : call Z
| DbtrEnable (base mask : Z) : call Z
| DbtrDisable (base mask : Z) : call Z
| PmuCounterInfo (idx : Z) : call (Z * Z)
| PmuCounterConfig (base mask flags event data : Z) : call (Z * Z)
| PmuCounterStart (base mask flags value : Z) : call Z
| PmuCounterStop (base mask flags : Z) : call Z
| PmuCounterFwRead (idx : Z) : call (Z * Z)
| PmuEventInfo (addr count : Z) : call Z
| PmuSnapshotSetShmem (lo hi flags : Z) : call Z
| MpxyChannelCount : call Z
| MpxySetShmem (lo hi flags : Z) : call Z
| MpxyShmemAccess (on : bool) : call unit
| MpxyGetChannelIds (start : Z) : call Z
| MpxyReadAttributes (channel base count : Z) : call Z
| MpxyWriteAttributes (channel base count : Z) : call Z
| MpxySendMessage (channel message len : Z) (resp : bool) : call (Z * Z)
| MpxyGetNotifications (channel : Z) : call (Z * Z)
| MpxySwitchPending (regs : trap_regs) (error value : Z) : call (bool * trap_regs)
| VendorRegistered : call bool
| VendorProbe : call Z (* 1 without a probe of its own *)
| VendorEcall (fid : Z) (regs : trap_regs) : call (Z * Z * bool * trap_regs).

(** ** Programs of calls *)

Inductive prog (A : Type) : Type :=
| Done (a : A)
| Vis (B : Set) (c : call B) (k : B -> prog A).
Arguments Done {A} a.
Arguments Vis {A B} c k.

Definition ask {B : Set} (c : call B) : prog B := Vis c Done.

#[export] Instance prog_ret : MRet prog := fun A a => Done a.
Fixpoint prog_bind_ {A B} (f : A -> prog B) (p : prog A) : prog B :=
  match p with
  | Done a => f a
  | Vis c k => Vis c (fun b => prog_bind_ f (k b))
  end.
#[export] Instance prog_bind : MBind prog := fun A B f p => prog_bind_ f p.

(** A call and its answer, if it came back. *)
Inductive event : Type :=
| Ev (B : Set) (c : call B) (b : option B).
Arguments Ev {B} c b.

(** What a component answers from its state. *)
Definition answers (S : Type) : Type := forall B : Set, call B -> S -> option B * S.

(** The run of a program with the answers of [h]: the calls, the result (if
    it came back) and the state. *)
Fixpoint run {S A} (h : answers S) (p : prog A) (s : S) : list event * option A * S :=
  match p with
  | Done a => ([], Some a, s)
  | Vis c k =>
      match h _ c s with
      | (Some b, s) => let '(l, r, s) := run h (k b) s in (Ev c (Some b) :: l, r, s)
      | (None, s) => ([Ev c None], None, s)
      end
  end.

(** Every call of [p] has [P], of the calls before it, and every result [Q],
    whatever the answers. *)
Fixpoint always {A} (P : forall B : Set, list event -> call B -> Prop) (Q : list event -> A -> Prop)
    (before : list event) (p : prog A) : Prop :=
  match p with
  | Done a => Q before a
  | Vis c k => P _ before c /\ forall b, always P Q (before ++ [Ev c (Some b)]) (k b)
  end.

Lemma always_bind {A B} (P : forall B : Set, list event -> call B -> Prop) (Q : list event -> A -> Prop) (R : list event -> B -> Prop)
    (before : list event) (p : prog A) (f : A -> prog B) :
  always P Q before p -> (forall after a, Q (before ++ after) a -> always P R (before ++ after) (f a)) ->
  always P R before (p ≫= f).
Proof.
  revert before. induction p as [a|C c k IH]; intros before Hp Hf; cbn in *.
  - specialize (Hf [] a). rewrite app_nil_r in Hf. by apply Hf.
  - destruct Hp as [Hc Hk]. split; [done|]. intros b. apply IH; [done|].
    intros after a. rewrite <- app_assoc. apply Hf.
Qed.

Lemma always_mono {A} (P P' : forall B : Set, list event -> call B -> Prop) (Q Q' : list event -> A -> Prop)
    (before : list event) (p : prog A) :
  (forall B l c, P B l c -> P' B l c) -> (forall l a, Q l a -> Q' l a) -> always P Q before p -> always P' Q' before p.
Proof.
  intros HP HQ. revert before. induction p as [a|C c k IH]; intros before H; cbn in *; [auto|].
  destruct H as [Hc Hk]. split; [auto|]. intros b. auto.
Qed.

(** What is always so is so in every run. *)
Lemma always_run {S A} (h : answers S) (P : forall B : Set, list event -> call B -> Prop) (Q : list event -> A -> Prop)
    (p : prog A) (before : list event) (s : S) : always P Q before p ->
  let '(l, r, _) := run h p s in
  (forall l1 B (c : call B) b l2, l = l1 ++ Ev c b :: l2 -> P _ (before ++ l1) c) /\
  (forall a, r = Some a -> Q (before ++ l) a).
Proof.
  revert before s. induction p as [a|B c k IH]; intros before s Hp; cbn in *.
  - split; [intros [|? ?] **; done|]. intros a' [= <-]. by rewrite app_nil_r.
  - destruct Hp as [Hc Hk]. destruct (h _ c s) as [[b|] s'].
    + specialize (IH b (before ++ [Ev c (Some b)]) s' (Hk b)). destruct (run h (k b) s') as [[l r] s''].
      destruct IH as [IH1 IH2]. rewrite <- app_assoc in IH2. split; [|done].
      intros [|x l1] B' c' b' l2 E; cbn in E.
      * apply (f_equal (@hd_error _)) in E. cbn in E. apply (inj Some) in E. clear -E Hc. rewrite app_nil_r.
        refine (match E in _ = e return match e with Ev c' _ => P _ before c' end with eq_refl => Hc end).
      * injection E as <- E. specialize (IH1 l1 B' c' b' l2 E). by rewrite <- app_assoc in IH1.
    + split; [|done]. intros [|x l1] B' c' b' l2 E; cbn in E; [|by destruct l1].
      apply (f_equal (@hd_error _)) in E. cbn in E. apply (inj Some) in E. clear -E Hc. rewrite app_nil_r.
      refine (match E in _ = e return match e with Ev c' _ => P _ before c' end with eq_refl => Hc end).
Qed.

(** ** Services ([include/service.h]) *)

Record service_ret : Set := ServiceRet { sr_error : Z; sr_value : Z; sr_keep_regs : bool }.

Definition sbi_ret (error value : Z) : service_ret := ServiceRet error value false.
Definition sbi_ok (value : Z) : service_ret := sbi_ret SBI_SUCCESS value.
Definition sbi_err (error : Z) : service_ret := sbi_ret error 0.
Definition keep_regs : service_ret := ServiceRet 0 0 true.

(** What a service is known by. *)
Record service_id : Type := ServiceId {
  sv_eid_min : Z;
  sv_eid_max : Z;
  sv_probe : option (Z -> prog Z);
}.
Record service : Type := Service {
  sv_id : service_id;
  sv_legacy : bool; (* SERVICE_LEGACY_RET *)
  sv_ecall : option (Z -> Z -> trap_regs -> prog (service_ret * trap_regs));
}.

Definition id_matches (eid : Z) (s : service_id) : bool := (sv_eid_min s <=? eid) && (eid <=? sv_eid_max s).

Definition service_lookup (services : list service) (eid : Z) : option service :=
  List.find (fun s => id_matches eid (sv_id s)) services.

Definition service_probe (ids : list service_id) (eid : Z) : prog Z :=
  match List.find (id_matches eid) ids with
  | None => Done 0
  | Some s => match sv_probe s with Some probe => probe eid | None => Done 1 end
  end.

Definition service_ecall {AR : Arch} (services : list service) (regs : trap_regs) : prog trap_regs :=
  let s := service_lookup services (trap_reg regs A7) in
  '(ret, regs) ← match s with
                 | Some s => match sv_ecall s with
                             | Some ecall => ecall (trap_reg regs A7) (trap_reg regs A6) regs
                             | None => Done (sbi_err SBI_ERR_NOT_SUPPORTED, regs)
                             end
                 | None => Done (sbi_err SBI_ERR_NOT_SUPPORTED, regs)
                 end;
  if sr_keep_regs ret then Done regs
  else
    let regs := trap_reg_set regs A0 (wrap (sr_error ret)) in
    Done (if match s with Some s => negb (sv_legacy s) | None => true end
          then trap_reg_set regs A1 (wrap (sr_value ret)) else regs).


(** ** Numbers ([include/sbi/sbi.h]) *)

Definition SBI_EXT_BASE : Z := 0x10.
Definition SBI_EXT_TIME : Z := 0x54494D45.
Definition SBI_EXT_IPI : Z := 0x735049.
Definition SBI_EXT_RFENCE : Z := 0x52464E43.
Definition SBI_EXT_HSM : Z := 0x48534D.
Definition SBI_EXT_SRST : Z := 0x53525354.
Definition SBI_EXT_PMU : Z := 0x504D55.
Definition SBI_EXT_DBCN : Z := 0x4442434E.
Definition SBI_EXT_SUSP : Z := 0x53555350.
Definition SBI_EXT_CPPC : Z := 0x43505043.
Definition SBI_EXT_SSE : Z := 0x535345.
Definition SBI_EXT_FWFT : Z := 0x46574654.
Definition SBI_EXT_DBTR : Z := 0x44425452.
Definition SBI_EXT_MPXY : Z := 0x4D505859.
Definition SBI_EXT_LEGACY_SET_TIMER : Z := 0x00.
Definition SBI_EXT_LEGACY_PUTCHAR : Z := 0x01.
Definition SBI_EXT_LEGACY_GETCHAR : Z := 0x02.
Definition SBI_EXT_LEGACY_CLEAR_IPI : Z := 0x03.
Definition SBI_EXT_LEGACY_SEND_IPI : Z := 0x04.
Definition SBI_EXT_LEGACY_RFENCE_I : Z := 0x05.
Definition SBI_EXT_LEGACY_SFENCE_VMA : Z := 0x06.
Definition SBI_EXT_LEGACY_SFENCE_VMA_ASID : Z := 0x07.
Definition SBI_EXT_LEGACY_SHUTDOWN : Z := 0x08.
Definition SBI_EXT_VENDOR_START : Z := 0x09000000.
Definition SBI_EXT_VENDOR_END : Z := 0x09ffffff.

Definition SBI_SPEC_VERSION_MAJOR : Z := 3.
Definition SBI_SPEC_VERSION_MINOR : Z := 0.
Definition SBI_SRST_REASON_SYSTEM_FAILURE : Z := 1.
Definition SBI_SUSP_SLEEP_TYPE_SUSPEND_TO_RAM : Z := 0.
Definition MPXY_SHMEM_SIZE : Z := 4096.
Definition PMU_COUNTERS : Z := 48.

Definition CSR_MVENDORID : Z := 0xf11.
Definition CSR_MARCHID : Z := 0xf12.
Definition CSR_MIMPID : Z := 0xf13.

Class SbiConfig := { CONFIG_SBI_IMPL_ID : Z; CONFIG_SBI_IMPL_VERSION : Z }.

(** A service call without a result of its own. *)
Abbreviation sbi_result := (prog (service_ret * trap_regs)).

Section Sbi.
Context {AR : Arch} {KC : Kconfig} {F : Features} {HT : HartTable} {SC : SbiConfig}.

Definition SBI_EXT_FW_DOMAIN : Z := 0x0A000000 + CONFIG_SBI_IMPL_ID.

Definition ulong_max : Z := unot 0.
Definition u32 (z : Z) : Z := z mod 2 ^ 32.
Abbreviation a0 regs := (trap_reg regs A0).
Abbreviation a1 regs := (trap_reg regs A1).
Abbreviation a2 regs := (trap_reg regs A2).
Abbreviation a3 regs := (trap_reg regs A3).
Abbreviation a4 regs := (trap_reg regs A4).
Abbreviation a5 regs := (trap_reg regs A5).

(** [(long)] of a word *)
Definition to_long (z : Z) : Z := if 2 ^ (XLEN - 1) <=? z then z - 2 ^ XLEN else z.

(** [return sbi_err(f())], [return sbi_ret(rc, value)] *)
Definition ret_err (regs : trap_regs) (p : prog Z) : sbi_result := rc ← p; Done (sbi_err rc, regs).
Definition ret_both (regs : trap_regs) (p : prog (Z * Z)) : sbi_result :=
  '(rc, v) ← p; Done (sbi_ret rc v, regs).

(** A 64-bit argument: two registers on RV32. *)
Definition arg64 (lo hi : Z) : Z :=
  match arch_xlen with RV32 => Z.lor (Z.shiftl hi 32) lo | RV64 => lo end.

(** ** Masks of harts ([hartmask.c]) *)

Fixpoint hartmask_loop (todo : list Z) (hmask hbase : Z) (running out : hartmask) : prog (Z * hartmask) :=
  match todo with
  | [] => Done (SBI_SUCCESS, out)
  | i :: todo =>
      let hartid := hbase +! i in
      if negb (truth (Z.land hmask (BIT i))) then hartmask_loop todo hmask hbase running out
      else if hartid <? hbase then Done (SBI_ERR_INVALID_PARAM, out)
      else
        valid ← ask (HartValid hartid);
        if negb valid then Done (SBI_ERR_INVALID_PARAM, out)
        else
          dom ← ask ThisDomain;
          if negb (domain_hart_member dom (hart_index ht_ids hartid)) then Done (SBI_ERR_INVALID_PARAM, out)
          else hartmask_loop todo hmask hbase running
                 (if hartmask_test running (hart_index ht_ids hartid)
                  then hartmask_set out (hart_index ht_ids hartid) else out)
  end.

(** The error, or zero, and the harts. *)
Definition sbi_hartmask (hmask hbase : Z) : prog (Z * hartmask) :=
  running ← ask HsmInterruptibleMask;
  if hbase =? ulong_max then Done (SBI_SUCCESS, running)
  else hartmask_loop (seqZ 0 XLEN) hmask hbase running hartmask_none.

(** ** The extensions *)

Definition sbi_base_ecall (ids : list service_id) (_ fid : Z) (regs : trap_regs) : sbi_result :=
  if fid =? 0 then Done (sbi_ok (Z.lor (Z.shiftl SBI_SPEC_VERSION_MAJOR 24) SBI_SPEC_VERSION_MINOR), regs)
  else if fid =? 1 then Done (sbi_ok CONFIG_SBI_IMPL_ID, regs)
  else if fid =? 2 then Done (sbi_ok CONFIG_SBI_IMPL_VERSION, regs)
  else if fid =? 3 then v ← service_probe ids (a0 regs); Done (sbi_ok v, regs)
  else if fid =? 4 then v ← ask (CsrRead CSR_MVENDORID); Done (sbi_ok v, regs)
  else if fid =? 5 then v ← ask (CsrRead CSR_MARCHID); Done (sbi_ok v, regs)
  else if fid =? 6 then v ← ask (CsrRead CSR_MIMPID); Done (sbi_ok v, regs)
  else Done (sbi_err SBI_ERR_NOT_SUPPORTED, regs).

Definition sbi_hsm_ecall (_ fid : Z) (regs : trap_regs) : sbi_result :=
  if fid =? 0 then ret_err regs (ask (HsmHartStart (a0 regs) (a1 regs) (a2 regs)))
  else if fid =? 1 then ret_err regs (ask HsmHartStop)
  else if fid =? 2 then
    state ← ask (HsmHartState (a0 regs));
    Done (if state <? 0 then sbi_err state else sbi_ok state, regs)
  else if fid =? 3 then
    if 0xffffffff <? a0 regs then Done (sbi_err SBI_ERR_INVALID_PARAM, regs)
    else ret_err regs (ask (HsmHartSuspend (a0 regs) (a1 regs) (a2 regs)))
  else Done (sbi_err SBI_ERR_NOT_SUPPORTED, regs).

(** [fid_to_type] *)
Definition fid_to_type : list rfence_type :=
  [RFENCE_FENCE_I; RFENCE_SFENCE_VMA; RFENCE_SFENCE_VMA_ASID; RFENCE_HFENCE_GVMA_VMID; RFENCE_HFENCE_GVMA;
   RFENCE_HFENCE_VVMA_ASID; RFENCE_HFENCE_VVMA].

Definition is_fence_i (t : rfence_type) : bool := match t with RFENCE_FENCE_I => true | _ => false end.

Definition sbi_rfence_probe (_ : Z) : prog Z := b ← ask IpiAvailable; Done (if b : bool then 1 else 0).
Definition sbi_rfence_ecall (_ fid : Z) (regs : trap_regs) : sbi_result :=
  match (if fid <? Z.of_nat (length fid_to_type) then fid_to_type !! Z.to_nat fid else None) with
  | None => Done (sbi_err SBI_ERR_NOT_SUPPORTED, regs)
  | Some type =>
      ipi ← ask IpiAvailable;
      if negb ipi then Done (sbi_err SBI_ERR_NOT_SUPPORTED, regs)
      else
        let req := RfenceReq type (a2 regs) (a3 regs) (a4 regs) in
        if negb (is_fence_i type) && negb (rq_size req =? ulong_max) && (rq_start req +! rq_size req <? rq_start req)
        then Done (sbi_err SBI_ERR_INVALID_ADDRESS, regs)
        else
          '(rc, targets) ← sbi_hartmask (a0 regs) (a1 regs);
          if truth rc then Done (sbi_err rc, regs)
          else ret_err regs (ask (RfenceRequest targets req))
  end.

(** The loop of [ipi_parked_harts] over the parked harts of the domain. *)
Fixpoint ipi_parked_loop (todo : list Z) (hmask hbase : Z) : prog unit :=
  match todo with
  | [] => Done tt
  | i :: todo =>
      let id := hart_id_of ht_ids i in
      if (hbase =? ulong_max) ||
         (hbase <=? id) && (id -! hbase <? XLEN) && truth (Z.land (Z.shiftr hmask (id -! hbase)) 1)
      then _ ← ask (DomainIpiParked i); ipi_parked_loop todo hmask hbase
      else ipi_parked_loop todo hmask hbase
  end.
Definition hartmask_harts (m : hartmask) : list Z :=
  filter (fun i => hartmask_test m i = true) (seqZ 0 CONFIG_PLATFORM_HART_COUNT).
Definition ipi_parked_harts (hmask hbase : Z) : prog unit :=
  dom ← ask ThisDomain;
  if negb (domain_has_parked dom) then Done tt
  else ipi_parked_loop (hartmask_harts (d_parked dom)) hmask hbase.

Definition sbi_ipi_ecall (_ fid : Z) (regs : trap_regs) : sbi_result :=
  if negb (fid =? 0) then Done (sbi_err SBI_ERR_NOT_SUPPORTED, regs)
  else
    ipi ← ask IpiAvailable;
    if negb ipi then Done (sbi_err SBI_ERR_NOT_SUPPORTED, regs)
    else
      '(rc, targets) ← sbi_hartmask (a0 regs) (a1 regs);
      if truth rc then Done (sbi_err rc, regs)
      else
        _ ← ask (IpiSendMask targets IPI_EVENT_SMODE);
        _ ← ipi_parked_harts (a0 regs) (a1 regs);
        Done (sbi_ok 0, regs).

Definition sbi_time_probe (_ : Z) : prog Z :=
  b ← ask TimerAvailable; Done (if b || hart_has HART_FEAT_SSTC then 1 else 0).
Definition sbi_time_ecall (_ fid : Z) (regs : trap_regs) : sbi_result :=
  if negb (fid =? 0) then Done (sbi_err SBI_ERR_NOT_SUPPORTED, regs)
  else _ ← ask (TimerSmodeSet (arg64 (a0 regs) (a1 regs))); Done (sbi_ok 0, regs).

Definition sbi_susp_ecall (_ fid : Z) (regs : trap_regs) : sbi_result :=
  if negb (fid =? 0) then Done (sbi_err SBI_ERR_NOT_SUPPORTED, regs)
  else if 0xffffffff <? a0 regs then Done (sbi_err SBI_ERR_INVALID_PARAM, regs)
  else if negb (a0 regs =? SBI_SUSP_SLEEP_TYPE_SUSPEND_TO_RAM)
  then Done (sbi_err (if 0x80000000 <=? a0 regs then SBI_ERR_NOT_SUPPORTED else SBI_ERR_INVALID_PARAM), regs)
  else ret_err regs (ask (HsmSystemSuspend (u32 (a0 regs)) (a1 regs) (a2 regs))).

(** [system_reset] does not return. *)
Definition reset_now (t : reset_type) : sbi_result := Vis (SystemReset t) (fun none => match none with end).

Definition sbi_srst_probe (_ : Z) : prog Z :=
  s ← ask (ResetSupported RESET_SHUTDOWN);
  if s : bool then Done 1
  else
    c ← ask (ResetSupported RESET_COLD_REBOOT);
    if c : bool then Done 1
    else w ← ask (ResetSupported RESET_WARM_REBOOT); Done (if w : bool then 1 else 0).

Definition srst_type (type : Z) : option reset_type :=
  if type =? 0 then Some RESET_SHUTDOWN
  else if type =? 1 then Some RESET_COLD_REBOOT
  else if type =? 2 then Some RESET_WARM_REBOOT
  else None.

Definition sbi_srst_ecall (_ fid : Z) (regs : trap_regs) : sbi_result :=
  let type := a0 regs in
  let reason := a1 regs in
  if negb (fid =? 0) then Done (sbi_err SBI_ERR_NOT_SUPPORTED, regs)
  else if (0xffffffff <? type) || (0xffffffff <? reason) then Done (sbi_err SBI_ERR_INVALID_PARAM, regs)
  else if (SBI_SRST_REASON_SYSTEM_FAILURE <? reason) && (reason <? 0xe0000000)
  then Done (sbi_err SBI_ERR_INVALID_PARAM, regs)
  else
    match srst_type type with
    | None => Done (sbi_err (if 0xf0000000 <=? type then SBI_ERR_NOT_SUPPORTED else SBI_ERR_INVALID_PARAM), regs)
    | Some rt =>
        ok ← ask (ResetSupported rt);
        if negb ok then Done (sbi_err SBI_ERR_NOT_SUPPORTED, regs)
        else
          dom ← ask ThisDomain;
          if negb (d_reset_allowed dom) then Done (sbi_err SBI_ERR_DENIED, regs)
          else reset_now rt
    end.

(** ** Domains ([domain.c]) *)

(** [switched]: the registers are the other context's. *)
Definition switched (p : prog (Z * trap_regs)) : sbi_result :=
  '(rc, regs) ← p; Done (if truth rc then sbi_err rc else keep_regs, regs).

Definition sbi_domain_ecall (_ fid : Z) (regs : trap_regs) : sbi_result :=
  let dom := u32 (a0 regs) in
  if fid =? 0 then n ← ask DomainCount; Done (sbi_ok n, regs)
  else if fid =? 1 then d ← ask ThisDomain; Done (sbi_ok (d_index d), regs)
  else if fid =? 3 then switched (ask (DomainExit regs (a0 regs)))
  else if 6 <? fid then Done (sbi_err SBI_ERR_NOT_SUPPORTED, regs)
  else
    n ← ask DomainCount;
    if n <=? a0 regs then Done (sbi_err SBI_ERR_INVALID_PARAM, regs)
    else if fid =? 2 then switched (ask (DomainEnter regs dom (a1 regs)))
    else if fid =? 6 then b ← ask (DomainRunning dom); Done (sbi_ok (if b : bool then 1 else 0), regs)
    else
      here ← ask ThisDomain;
      if negb (dom =? d_index here) && negb (d_reset_allowed here) then Done (sbi_err SBI_ERR_DENIED, regs)
      else if fid =? 4 then ret_err regs (ask (DomainStart dom))
      else '(rc, regs) ← ask (DomainStop regs dom); Done (sbi_err rc, regs).

(** ** The console ([dbcn.c]) *)

Definition sbi_dbcn_ecall (_ fid : Z) (regs : trap_regs) : sbi_result :=
  let len := a0 regs in
  if fid =? 0 then
    if truth (a2 regs) then Done (sbi_err SBI_ERR_INVALID_PARAM, regs)
    else
      ok ← ask (SmodeRangeReadable (a1 regs) len);
      if negb ok then Done (sbi_err SBI_ERR_INVALID_PARAM, regs)
      else
        _ ← ask (SmodeAccessBegin (a1 regs) len);
        _ ← ask (ConsoleWriteMem (a1 regs) len);
        _ ← ask SmodeAccessEnd;
        Done (sbi_ok len, regs)
  else if fid =? 1 then
    (* dbcn_buffer_ok() *)
    if negb (a2 regs =? 0) then Done (sbi_err SBI_ERR_INVALID_PARAM, regs)
    else
      ok ← ask (SmodeRangeOk (a1 regs) len);
      if negb ok then Done (sbi_err SBI_ERR_INVALID_PARAM, regs)
      else
        _ ← ask (SmodeAccessBegin (a1 regs) len);
        len ← ask (ConsoleReadMem (a1 regs) len);
        _ ← ask SmodeAccessEnd;
        Done (sbi_ok len, regs)
  else if fid =? 2 then _ ← ask (ConsolePut (a0 regs mod 256)); Done (sbi_ok 0, regs)
  else Done (sbi_err SBI_ERR_NOT_SUPPORTED, regs).

(** ** Events, features, triggers, counters, channels *)

Definition sbi_sse_ecall (_ fid : Z) (regs : trap_regs) : sbi_result :=
  if (fid =? 0) || (fid =? 1) then
    if truth (a4 regs) then Done (sbi_err SBI_ERR_INVALID_ADDRESS, regs)
    else ret_err regs (ask (if fid =? 0 then SseReadAttrs (a0 regs) (a1 regs) (a2 regs) (a3 regs)
                            else SseWriteAttrs (a0 regs) (a1 regs) (a2 regs) (a3 regs)))
  else if fid =? 2 then ret_err regs (ask (SseRegister (a0 regs) (a1 regs) (a2 regs)))
  else if fid =? 3 then ret_err regs (ask (SseUnregister (a0 regs)))
  else if fid =? 4 then ret_err regs (ask (SseEnable (a0 regs)))
  else if fid =? 5 then ret_err regs (ask (SseDisable (a0 regs)))
  else if fid =? 6 then
    '(back, regs) ← ask (SseComplete regs); Done (if back : bool then keep_regs else sbi_ok 0, regs)
  else if fid =? 7 then ret_err regs (ask (SseInject (a0 regs) (a1 regs)))
  else if fid =? 8 then ret_err regs (ask SseHartUnmask)
  else if fid =? 9 then ret_err regs (ask SseHartMask)
  else Done (sbi_err SBI_ERR_NOT_SUPPORTED, regs).

Definition sbi_fwft_ecall (_ fid : Z) (regs : trap_regs) : sbi_result :=
  if (fid =? 0) || (fid =? 1) then
    if 0xffffffff <? a0 regs then Done (sbi_err SBI_ERR_DENIED, regs)
    else if fid =? 0 then ret_err regs (ask (FwftSet (a0 regs) (a1 regs) (a2 regs)))
    else ret_both regs (ask (FwftGet (a0 regs)))
  else Done (sbi_err SBI_ERR_NOT_SUPPORTED, regs).

Definition sbi_cppc_probe_ext (_ : Z) : prog Z := b ← ask CppcAvailable; Done (if b : bool then 1 else 0).
Definition sbi_cppc_ecall (_ fid : Z) (regs : trap_regs) : sbi_result :=
  let reg := u32 (a0 regs) in
  if (fid <=? 3) && (0xffffffff <? a0 regs) then Done (sbi_err SBI_ERR_INVALID_PARAM, regs)
  else if fid =? 0 then ret_both regs (ask (CppcProbe reg))
  else if fid =? 1 then '(rc, v) ← ask (CppcRead reg); Done (sbi_ret rc (wrap v), regs)
  else if fid =? 2 then
    '(rc, v) ← ask (CppcRead reg); Done (sbi_ret rc (Z.shiftr (Z.shiftr v 32) (XLEN - 32)), regs)
  else if fid =? 3 then ret_err regs (ask (CppcWrite reg (arg64 (a1 regs) (a2 regs))))
  else Done (sbi_err SBI_ERR_NOT_SUPPORTED, regs).

Definition sbi_dbtr_probe (_ : Z) : prog Z := Done (if hart_has HART_FEAT_SDTRIG then 1 else 0).
Definition sbi_dbtr_ecall (_ fid : Z) (regs : trap_regs) : sbi_result :=
  if fid =? 0 then n ← ask (DbtrNumTriggers (a0 regs)); Done (sbi_ok n, regs)
  else if fid =? 1 then ret_err regs (ask (DbtrSetShmem (a0 regs) (a1 regs) (a2 regs)))
  else if fid =? 2 then ret_err regs (ask (DbtrRead (a0 regs) (a1 regs)))
  else if fid =? 3 then ret_both regs (ask (DbtrInstall (a0 regs)))
  else if fid =? 4 then ret_both regs (ask (DbtrUpdate (a0 regs)))
  else if fid =? 5 then ret_err regs (ask (DbtrUninstall (a0 regs) (a1 regs)))
  else if fid =? 6 then ret_err regs (ask (DbtrEnable (a0 regs) (a1 regs)))
  else if fid =? 7 then ret_err regs (ask (DbtrDisable (a0 regs) (a1 regs)))
  else Done (sbi_err SBI_ERR_NOT_SUPPORTED, regs).

Definition sbi_pmu_ecall (_ fid : Z) (regs : trap_regs) : sbi_result :=
  if fid =? 0 then Done (sbi_ok PMU_COUNTERS, regs)
  else if fid =? 1 then ret_both regs (ask (PmuCounterInfo (a0 regs)))
  else if fid =? 2 then
    ret_both regs (ask (PmuCounterConfig (a0 regs) (a1 regs) (a2 regs) (a3 regs) (arg64 (a4 regs) (a5 regs))))
  else if fid =? 3 then ret_err regs (ask (PmuCounterStart (a0 regs) (a1 regs) (a2 regs) (arg64 (a3 regs) (a4 regs))))
  else if fid =? 4 then ret_err regs (ask (PmuCounterStop (a0 regs) (a1 regs) (a2 regs)))
  else if fid =? 5 then '(rc, v) ← ask (PmuCounterFwRead (a0 regs)); Done (sbi_ret rc (wrap v), regs)
  else if fid =? 6 then
    '(rc, v) ← ask (PmuCounterFwRead (a0 regs)); Done (sbi_ret rc (Z.shiftr (Z.shiftr v 32) (XLEN - 32)), regs)
  else if fid =? 8 then
    if truth (a1 regs) || truth (a3 regs)
    then Done (sbi_err (if truth (a1 regs) then SBI_ERR_INVALID_ADDRESS else SBI_ERR_INVALID_PARAM), regs)
    else ret_err regs (ask (PmuEventInfo (a0 regs) (a2 regs)))
  else if fid =? 7 then ret_err regs (ask (PmuSnapshotSetShmem (a0 regs) (a1 regs) (a2 regs)))
  else Done (sbi_err SBI_ERR_NOT_SUPPORTED, regs).

Definition sbi_mpxy_shmem_call (fid : Z) (regs : trap_regs) : prog service_ret :=
  let err p := rc ← p; Done (sbi_err rc) in
  let both p := '(rc, v) ← p; Done (sbi_ret rc v) in
  if fid =? 2 then err (ask (MpxyGetChannelIds (a0 regs)))
  else if fid =? 3 then err (ask (MpxyReadAttributes (a0 regs) (a1 regs) (a2 regs)))
  else if fid =? 4 then err (ask (MpxyWriteAttributes (a0 regs) (a1 regs) (a2 regs)))
  else if fid =? 5 then both (ask (MpxySendMessage (a0 regs) (a1 regs) (a2 regs) true))
  else if fid =? 6 then '(rc, _) ← ask (MpxySendMessage (a0 regs) (a1 regs) (a2 regs) false); Done (sbi_err rc)
  else if fid =? 7 then both (ask (MpxyGetNotifications (a0 regs)))
  else Done (sbi_err SBI_ERR_NOT_SUPPORTED).

Definition sbi_mpxy_probe (_ : Z) : prog Z := n ← ask MpxyChannelCount; Done (if truth n then 1 else 0).
Definition sbi_mpxy_ecall (_ fid : Z) (regs : trap_regs) : sbi_result :=
  if fid =? 0 then Done (sbi_ok MPXY_SHMEM_SIZE, regs)
  else if fid =? 1 then ret_err regs (ask (MpxySetShmem (a0 regs) (a1 regs) (a2 regs)))
  else
    _ ← ask (MpxyShmemAccess true);
    ret ← sbi_mpxy_shmem_call fid regs;
    _ ← ask (MpxyShmemAccess false);
    '(switched, regs) ← ask (MpxySwitchPending regs (sr_error ret) (sr_value ret));
    Done (if switched : bool then keep_regs else ret, regs).

(** ** The legacy calls ([legacy.c]) *)

(** [None]: the mask could not be read, and the caller gets the fault. *)
Definition legacy_hartmask (regs : trap_regs) (va : Z) : prog (option hartmask * trap_regs) :=
  if negb (truth va) then m ← ask HsmInterruptibleMask; Done (Some m, regs)
  else
    r ← ask (UnprivRead regs va REGBYTES);
    match r with
    | inr fault =>
        regs ← ask (TrapRedirect (regs <| tr_mepc := tr_mepc regs -! 4 |>) fault);
        Done (None, regs)
    | inl hmask =>
        m ← ask HsmInterruptibleMask;
        Done (Some (for_upto (Z.to_nat CONFIG_PLATFORM_HART_COUNT)
                      (fun i m => let hartid := hart_id_of ht_ids i in
                                  if (XLEN <=? hartid) || negb (truth (Z.land hmask (BIT hartid)))
                                  then hartmask_clear m i else m) m), regs)
    end.

Definition legacy_faulted (regs : trap_regs) : service_ret * trap_regs := (sbi_err (to_long (a0 regs)), regs).

Definition sbi_legacy_ecall (eid _ : Z) (regs : trap_regs) : sbi_result :=
  if eid =? SBI_EXT_LEGACY_SET_TIMER then _ ← ask (TimerSmodeSet (arg64 (a0 regs) (a1 regs))); Done (sbi_ok 0, regs)
  else if eid =? SBI_EXT_LEGACY_PUTCHAR then _ ← ask (ConsolePut (a0 regs mod 256)); Done (sbi_ok 0, regs)
  else if eid =? SBI_EXT_LEGACY_GETCHAR then ret_err regs (ask ConsoleGetc)
  else if eid =? SBI_EXT_LEGACY_CLEAR_IPI then _ ← ask (CsrClear CSR_MIP MIP_SSIP); Done (sbi_ok 0, regs)
  else if eid =? SBI_EXT_LEGACY_SEND_IPI then
    '(m, regs) ← legacy_hartmask regs (a0 regs);
    match m with
    | None => Done (legacy_faulted regs)
    | Some targets => _ ← ask (IpiSendMask targets IPI_EVENT_SMODE); Done (sbi_ok 0, regs)
    end
  else if (eid =? SBI_EXT_LEGACY_RFENCE_I) || (eid =? SBI_EXT_LEGACY_SFENCE_VMA) || (eid =? SBI_EXT_LEGACY_SFENCE_VMA_ASID) then
    let type := if eid =? SBI_EXT_LEGACY_RFENCE_I then RFENCE_FENCE_I
                else if eid =? SBI_EXT_LEGACY_SFENCE_VMA then RFENCE_SFENCE_VMA else RFENCE_SFENCE_VMA_ASID in
    let req := RfenceReq type (a1 regs) (a2 regs) (a3 regs) in
    '(m, regs) ← legacy_hartmask regs (a0 regs);
    match m with
    | None => Done (legacy_faulted regs)
    | Some targets => ret_err regs (ask (RfenceRequest targets req))
    end
  else if eid =? SBI_EXT_LEGACY_SHUTDOWN then
    dom ← ask ThisDomain;
    if negb (d_reset_allowed dom) then Done (sbi_err SBI_ERR_DENIED, regs) else reset_now RESET_SHUTDOWN
  else Done (sbi_err SBI_ERR_NOT_SUPPORTED, regs).

(** ** Vendor calls ([vendor.c]) *)

Definition vendor_eid (mvendorid : Z) : Z := SBI_EXT_VENDOR_START +! Z.land mvendorid 0xffffff.
Definition sbi_vendor_probe (eid : Z) : prog Z :=
  there ← ask VendorRegistered;
  if negb there then Done 0
  else
    id ← ask (CsrRead CSR_MVENDORID);
    if negb (eid =? vendor_eid id) then Done 0 else ask VendorProbe.
Definition sbi_vendor_ecall (eid fid : Z) (regs : trap_regs) : sbi_result :=
  p ← sbi_vendor_probe eid;
  if negb (truth p) then Done (sbi_err SBI_ERR_NOT_SUPPORTED, regs)
  else '(e, v, keep, regs) ← ask (VendorEcall fid regs); Done (ServiceRet e v keep, regs).

(** ** The table

    In the order of the files; the linker may choose another. *)

Definition only (eid : Z) (probe : option (Z -> prog Z)) : service_id := ServiceId eid eid probe.

Definition id_base := only SBI_EXT_BASE None.
Definition id_cppc := only SBI_EXT_CPPC (Some sbi_cppc_probe_ext).
Definition id_dbcn := only SBI_EXT_DBCN None.
Definition id_dbtr := only SBI_EXT_DBTR (Some sbi_dbtr_probe).
Definition id_domain := only SBI_EXT_FW_DOMAIN None.
Definition id_fwft := only SBI_EXT_FWFT None.
Definition id_hsm := only SBI_EXT_HSM None.
Definition id_ipi := only SBI_EXT_IPI (Some sbi_rfence_probe). (* sbi_ipi_probe is the same *)
Definition id_legacy := ServiceId SBI_EXT_LEGACY_SET_TIMER SBI_EXT_LEGACY_SHUTDOWN None.
Definition id_mpxy := only SBI_EXT_MPXY (Some sbi_mpxy_probe).
Definition id_pmu := only SBI_EXT_PMU None.
Definition id_rfence := only SBI_EXT_RFENCE (Some sbi_rfence_probe).
Definition id_srst := only SBI_EXT_SRST (Some sbi_srst_probe).
Definition id_sse := only SBI_EXT_SSE None.
Definition id_susp := only SBI_EXT_SUSP None.
Definition id_time := only SBI_EXT_TIME (Some sbi_time_probe).
Definition id_vendor := ServiceId SBI_EXT_VENDOR_START SBI_EXT_VENDOR_END (Some sbi_vendor_probe).

Definition sbi_ids : list service_id :=
  [id_base; id_cppc; id_dbcn; id_dbtr; id_domain; id_fwft; id_hsm; id_ipi; id_legacy; id_mpxy; id_pmu; id_rfence;
   id_srst; id_sse; id_susp; id_time; id_vendor].

Definition sbi_services : list service :=
  [ Service id_base false (Some (sbi_base_ecall sbi_ids));
    Service id_cppc false (Some sbi_cppc_ecall);
    Service id_dbcn false (Some sbi_dbcn_ecall);
    Service id_dbtr false (Some sbi_dbtr_ecall);
    Service id_domain false (Some sbi_domain_ecall);
    Service id_fwft false (Some sbi_fwft_ecall);
    Service id_hsm false (Some sbi_hsm_ecall);
    Service id_ipi false (Some sbi_ipi_ecall);
    Service id_legacy true (Some sbi_legacy_ecall);
    Service id_mpxy false (Some sbi_mpxy_ecall);
    Service id_pmu false (Some sbi_pmu_ecall);
    Service id_rfence false (Some sbi_rfence_ecall);
    Service id_srst false (Some sbi_srst_ecall);
    Service id_sse false (Some sbi_sse_ecall);
    Service id_susp false (Some sbi_susp_ecall);
    Service id_time false (Some sbi_time_ecall);
    Service id_vendor false (Some sbi_vendor_ecall) ].
End Sbi.
