(* ===== verification/SbiProps.v ===== *)
(** What the SBI services promise ([Sbi.v]), whatever the rest of the monitor
    answers: what needs a right is done only with the right, memory is only
    touched where it was checked and only through a window that is closed
    again, and a call returns by its convention. *)

From S2P Require Import Prelude Arch Csr Fields Bitstring Domain Hart Rfence DomainContext Trap Ipi Sbi.

#[local] Open Scope Z_scope.
#[local] Set Warnings "-clear-no-such-hyp".

(** ** Permission *)

(** The range M-mode has a window on, and whether the shared memory of MPXY
    is open. *)
Definition window_step (w : option (Z * Z)) (e : event) : option (Z * Z) :=
  match e with
  | Ev (SmodeAccessBegin a l) _ => Some (a, l)
  | Ev SmodeAccessEnd _ => None
  | _ => w
  end.
Definition window (before : list event) : option (Z * Z) := foldl window_step None before.
Definition shmem_step (w : bool) (e : event) : bool :=
  match e with Ev (MpxyShmemAccess on) _ => on | _ => w end.
Definition shmem_open (before : list event) : bool := foldl shmem_step false before.

Definition said (before : list event) {B : Set} (c : call B) (b : B) : Prop := Ev c (Some b) ∈ before.

(** The domain that calls may reset the system. *)
Definition may_reset (before : list event) : Prop := exists dom, said before ThisDomain dom /\ d_reset_allowed dom = true.
Definition may_control (before : list event) (d : Z) : Prop :=
  exists dom, said before ThisDomain dom /\ (d_index dom = d \/ d_reset_allowed dom = true).

(** Nothing is left open. *)
Definition closed (before : list event) : Prop := window before = None /\ shmem_open before = false.

(** What a service needs for the calls it makes itself. The calls that hand
    an address on (of SSE, DBTR, PMU, HSM) or a whole ecall (of a vendor) need
    nothing here: what is checked for them is checked by the component. *)
Definition permitted {AR : Arch} {KC : Kconfig} (B : Set) (before : list event) (c : call B) : Prop :=
  match c with
  | SystemReset _ => may_reset before
  | DomainStart d | DomainStop _ d => may_control before d
  | DomainIpiParked i => exists dom, said before ThisDomain dom /\ hartmask_test (d_parked dom) i = true
  | SmodeAccessBegin a l =>
      closed before /\ (said before (SmodeRangeOk a l) true \/ said before (SmodeRangeReadable a l) true)
  | ConsoleWriteMem a l =>
      window before = Some (a, l) /\ (said before (SmodeRangeOk a l) true \/ said before (SmodeRangeReadable a l) true)
  | ConsoleReadMem a l => window before = Some (a, l) /\ said before (SmodeRangeOk a l) true
  | MpxyShmemAccess true => closed before
  | MpxyGetChannelIds _ | MpxyReadAttributes _ _ _ | MpxyWriteAttributes _ _ _ | MpxySendMessage _ _ _ _ | MpxyGetNotifications _ =>
      window before = None /\ shmem_open before = true
  | DomainEnter _ _ _ | DomainExit _ _ | MpxySwitchPending _ _ _ | VendorEcall _ _ => closed before
  | _ => True
  end.

Lemma window_snoc (l : list event) (e : event) : window (l ++ [e]) = window_step (window l) e.
Proof. unfold window. by rewrite foldl_app. Qed.
Lemma shmem_snoc (l : list event) (e : event) : shmem_open (l ++ [e]) = shmem_step (shmem_open l) e.
Proof. unfold shmem_open. by rewrite foldl_app. Qed.

Lemma said_here (l : list event) {B : Set} (c : call B) (b : B) : said (l ++ [Ev c (Some b)]) c b.
Proof. apply elem_of_app. right. by apply list_elem_of_singleton. Qed.
Lemma said_before (l : list event) (e : event) {B : Set} (c : call B) (b : B) : said l c b -> said (l ++ [e]) c b.
Proof. intros H. apply elem_of_app. by left. Qed.

Create HintDb sbi.
#[export] Hint Resolve said_here said_before : sbi.
#[export] Hint Extern 1 (_ = _) => done : sbi.

Lemma always_vis {A} {B : Set} P (Q : list event -> A -> Prop) (before : list event) (c : call B) (k : B -> prog A) :
  P B before c -> (forall b, always P Q (before ++ [Ev c (Some b)]) (k b)) -> always P Q before (Vis c k).
Proof. by split. Qed.
Lemma always_ask {A} {B : Set} P (Q : list event -> A -> Prop) (before : list event) (c : call B) (f : B -> prog A) :
  P B before c -> (forall b, always P Q (before ++ [Ev c (Some b)]) (f b)) -> always P Q before (ask c ≫= f).
Proof. by split. Qed.

(** A program of calls, one at a time. *)
Ltac walk1 :=
  match goal with
  | |- always _ _ _ (Done _) => cbn [always]
  | |- always _ _ _ (Vis _ _) => apply always_vis; [|intros ?; cbn beta]
  | |- always _ _ _ (mbind _ (ask (if ?b then _ else _))) => destruct b eqn:?
  | |- always _ _ _ (mbind _ (ask _)) => apply always_ask; [|intros ?; cbn beta]
  | |- always _ _ _ (ask _) => apply always_vis; [|intros ?]
  | |- always _ _ _ (ret_err _ _) => unfold ret_err
  | |- always _ _ _ (ret_both _ _) => unfold ret_both
  | |- always _ _ _ (switched _) => unfold switched
  | |- always _ _ _ (reset_now _) => apply always_vis; [|intros []]
  | |- always _ _ _ (if negb ?b then _ else _) => is_var b; destruct b; cbn [negb]
  | |- always _ _ _ (if ?b then _ else _) => destruct b eqn:?
  | |- always _ _ _ (match ?x with _ => _ end) => destruct x eqn:?
  | |- always _ _ _ (let _ := _ in _) => cbv zeta
  end.
Ltac walk := repeat walk1.

(** The state of the windows after the calls so far. *)
Ltac windows :=
  unfold closed in *; repeat match goal with H : _ /\ _ |- _ => destruct H end;
  rewrite ?window_snoc, ?shmem_snoc; cbn [window_step shmem_step];
  repeat match goal with H : window ?l = _ |- context [window ?l] => rewrite H | H : shmem_open ?l = _ |- context [shmem_open ?l] => rewrite H end.

Section Permitted.
Context {AR : Arch} {KC : Kconfig} {F : Features} {HT : HartTable} {SC : SbiConfig}.

Definition safe {A} (before : list event) (p : prog A) : Prop := always permitted (fun after _ => closed after) before p.

Ltac fin :=
  lazymatch goal with
  | |- always _ _ _ _ => idtac
  | _ => try exact I; try (cbn [permitted]; windows; split_and?; auto with sbi)
  end.

Lemma hartmask_loop_safe (todo : list Z) (hmask hbase : Z) (running out : hartmask) (before : list event) :
  closed before -> safe before (hartmask_loop todo hmask hbase running out).
Proof.
  unfold safe. revert out before. induction todo as [|i todo IH]; intros out before Hc; [done|].
  cbn [hartmask_loop]. cbv zeta. walk; fin. all: try (apply IH; fin).
Qed.

Lemma hartmask_safe (hmask hbase : Z) (before : list event) : closed before -> safe before (sbi_hartmask hmask hbase).
Proof. intros Hc. unfold safe, sbi_hartmask. walk; fin. apply hartmask_loop_safe. fin. Qed.

Lemma parked_loop_safe (todo : list Z) (hmask hbase : Z) (dom : domain) (before : list event) :
  closed before -> said before ThisDomain dom -> Forall (fun i => hartmask_test (d_parked dom) i = true) todo ->
  safe before (ipi_parked_loop todo hmask hbase).
Proof.
  unfold safe. revert before. induction todo as [|i todo IH]; intros before Hc Hd Hf; [done|].
  inversion_clear Hf as [|? ? Hi Hf']. cbn [ipi_parked_loop]. cbv zeta.
  walk; [by exists dom|apply IH; [fin|by apply said_before|done]|by apply IH].
Qed.

(** A part that is safe on its own, and what comes after it. *)
Lemma safe_bind {A B} (before : list event) (p : prog A) (f : A -> prog B) :
  safe before p -> (forall after a, closed after -> safe after (f a)) -> safe before (p ≫= f).
Proof. intros Hp Hf. eapply always_bind; [exact Hp|]. intros after a Hc. by apply Hf. Qed.

Lemma parked_safe (hmask hbase : Z) (before : list event) : closed before -> safe before (ipi_parked_harts hmask hbase).
Proof. intros Hc. unfold safe, ipi_parked_harts. walk; fin. eapply parked_loop_safe; [fin|apply said_here|].
  apply Forall_forall. intros i Hi. unfold hartmask_harts in Hi. by apply list_elem_of_filter in Hi as [? _].
Qed.

Lemma legacy_hartmask_safe (regs : trap_regs) (va : Z) (before : list event) :
  closed before -> safe before (legacy_hartmask regs va).
Proof. intros Hc. unfold safe, legacy_hartmask. walk; fin. Qed.

Lemma mpxy_shmem_safe (fid : Z) (regs : trap_regs) (before : list event) : window before = None -> shmem_open before = true ->
  always permitted (fun after _ => window after = None /\ shmem_open after = true) before (sbi_mpxy_shmem_call fid regs).
Proof. intros H1 H2. unfold sbi_mpxy_shmem_call. walk; fin. Qed.

Definition ecall_safe (ecall : Z -> Z -> trap_regs -> sbi_result) : Prop :=
  forall eid fid regs before, closed before -> safe before (ecall eid fid regs).

Lemma service_probe_safe (ids : list service_id) (eid : Z) (before : list event) : closed before ->
  Forall (fun i => forall p before, sv_probe i = Some p -> closed before -> safe before (p eid)) ids ->
  safe before (service_probe ids eid).
Proof.
  intros Hc Hi. unfold service_probe. destruct (List.find (id_matches eid) ids) as [i|] eqn:E; [|done].
  apply List.find_some in E as [Hin _]. rewrite Forall_forall in Hi. apply list_elem_of_In in Hin.
  destruct (sv_probe i) as [p|] eqn:Ep; [by apply (Hi i)|done].
Qed.

Lemma sbi_ids_safe (eid : Z) :
  Forall (fun i => forall p before, sv_probe i = Some p -> closed before -> safe before (p eid)) sbi_ids.
Proof.
  unfold sbi_ids. repeat apply Forall_cons_2; try apply Forall_nil_2; intros p before [= <-] Hc; unfold safe, sbi_cppc_probe_ext, sbi_dbtr_probe, sbi_rfence_probe, sbi_mpxy_probe, sbi_srst_probe, sbi_time_probe, sbi_vendor_probe;
    walk; fin.
Qed.

Lemma base_safe : ecall_safe (sbi_base_ecall sbi_ids).
Proof.
  intros eid fid regs before Hc. unfold safe, sbi_base_ecall. walk; fin.
  apply safe_bind; [apply service_probe_safe; [done|apply sbi_ids_safe]|]. intros after v Hc'. done.
Qed.
Lemma cppc_safe : ecall_safe sbi_cppc_ecall.
Proof. intros eid fid regs before Hc. unfold safe, sbi_cppc_ecall. walk; fin. Qed.
Lemma dbcn_safe : ecall_safe sbi_dbcn_ecall.
Proof. intros eid fid regs before Hc. unfold safe, sbi_dbcn_ecall. walk; fin. Qed.
Lemma dbtr_safe : ecall_safe sbi_dbtr_ecall.
Proof. intros eid fid regs before Hc. unfold safe, sbi_dbtr_ecall. walk; fin. Qed.
Lemma domain_safe : ecall_safe sbi_domain_ecall.
Proof.
  intros eid fid regs before Hc. unfold safe, sbi_domain_ecall. walk; fin.
  all: match goal with d : domain |- _ => exists d end; (split; [auto with sbi|]);
    match goal with H : _ && _ = false |- _ => apply andb_false_iff in H as [E|E] end; bool_prop; auto.
Qed.
Lemma fwft_safe : ecall_safe sbi_fwft_ecall.
Proof. intros eid fid regs before Hc. unfold safe, sbi_fwft_ecall. walk; fin. Qed.
Lemma hsm_safe : ecall_safe sbi_hsm_ecall.
Proof. intros eid fid regs before Hc. unfold safe, sbi_hsm_ecall. walk; fin. Qed.
Lemma pmu_safe : ecall_safe sbi_pmu_ecall.
Proof. intros eid fid regs before Hc. unfold safe, sbi_pmu_ecall. walk; fin. Qed.
Lemma srst_safe : ecall_safe sbi_srst_ecall.
Proof.
  intros eid fid regs before Hc. unfold safe, sbi_srst_ecall. walk; fin.
  match goal with d : domain |- _ => exists d end. bool_prop. auto with sbi.
Qed.
Lemma sse_safe : ecall_safe sbi_sse_ecall.
Proof. intros eid fid regs before Hc. unfold safe, sbi_sse_ecall. walk; fin. Qed.
Lemma susp_safe : ecall_safe sbi_susp_ecall.
Proof. intros eid fid regs before Hc. unfold safe, sbi_susp_ecall. walk; fin. Qed.
Lemma time_safe : ecall_safe sbi_time_ecall.
Proof. intros eid fid regs before Hc. unfold safe, sbi_time_ecall. walk; fin. Qed.

Lemma ipi_safe : ecall_safe sbi_ipi_ecall.
Proof.
  intros eid fid regs before Hc. unfold safe, sbi_ipi_ecall. walk; fin.
  apply safe_bind; [apply hartmask_safe; fin|]. intros after [rc targets] Hc'. unfold safe. walk; fin.
  apply safe_bind; [apply parked_safe; fin|]. intros after' [] Hc''. done.
Qed.
Lemma rfence_safe : ecall_safe sbi_rfence_ecall.
Proof.
  intros eid fid regs before Hc. unfold safe, sbi_rfence_ecall. walk; fin.
  all: apply safe_bind; [apply hartmask_safe; fin|]; intros after [rc targets] Hc'; unfold safe; walk; fin.
Qed.
Lemma mpxy_safe : ecall_safe sbi_mpxy_ecall.
Proof.
  intros eid fid regs before Hc. unfold safe, sbi_mpxy_ecall. walk; fin.
  eapply always_bind; [apply mpxy_shmem_safe; windows; done|]. cbv beta. intros after ret [H1 H2]. walk; fin.
Qed.
Lemma vendor_safe : ecall_safe sbi_vendor_ecall.
Proof.
  intros eid fid regs before Hc. unfold sbi_vendor_ecall. apply safe_bind.
  - unfold safe, sbi_vendor_probe. walk; fin.
  - intros after p Hc'. unfold safe. walk; fin.
Qed.
Lemma legacy_safe : ecall_safe sbi_legacy_ecall.
Proof.
  intros eid fid regs before Hc. unfold safe, sbi_legacy_ecall. walk; fin.
  1,2: apply safe_bind; [by apply legacy_hartmask_safe|]; intros after [m regs'] Hc'; unfold safe; walk; fin.
  match goal with d : domain |- _ => exists d end. bool_prop. auto with sbi.
Qed.

Lemma services_safe : Forall (fun s => forall ecall, sv_ecall s = Some ecall -> ecall_safe ecall) sbi_services.
Proof.
  unfold sbi_services. repeat apply Forall_cons_2; try apply Forall_nil_2; intros ecall [= <-].
  - apply base_safe.
  - apply cppc_safe.
  - apply dbcn_safe.
  - apply dbtr_safe.
  - apply domain_safe.
  - apply fwft_safe.
  - apply hsm_safe.
  - apply ipi_safe.
  - apply legacy_safe.
  - apply mpxy_safe.
  - apply pmu_safe.
  - apply rfence_safe.
  - apply srst_safe.
  - apply sse_safe.
  - apply susp_safe.
  - apply time_safe.
  - apply vendor_safe.
Qed.

End Permitted.

(** ** The table *)

(** The implementation id is one the firmware extension space has room for. *)
Class SbiConfigOk `{!SbiConfig} : Prop := config_impl_id : 0 <= CONFIG_SBI_IMPL_ID < 0x1000000.

Section Table.
Context {AR : Arch} {KC : Kconfig} {F : Features} {HT : HartTable} {SC : SbiConfig} {SO : SbiConfigOk}.

Ltac table :=
  unfold service_lookup, sbi_services, id_matches; cbn [List.find sv_id];
  cbn [sv_id sv_eid_min sv_eid_max only id_base id_cppc id_dbcn id_dbtr id_domain id_fwft id_hsm id_ipi id_legacy id_mpxy id_pmu
       id_rfence id_srst id_sse id_susp id_time id_vendor] in *;
  unfold SBI_EXT_BASE, SBI_EXT_CPPC, SBI_EXT_DBCN, SBI_EXT_DBTR, SBI_EXT_FW_DOMAIN, SBI_EXT_FWFT, SBI_EXT_HSM, SBI_EXT_IPI,
    SBI_EXT_LEGACY_SET_TIMER, SBI_EXT_LEGACY_SHUTDOWN, SBI_EXT_MPXY, SBI_EXT_PMU, SBI_EXT_RFENCE, SBI_EXT_SRST, SBI_EXT_SSE,
    SBI_EXT_SUSP, SBI_EXT_TIME, SBI_EXT_VENDOR_START, SBI_EXT_VENDOR_END in *;
  repeat match goal with
  | |- context [if (?a <=? ?e) && (?e <=? ?b) then _ else _] =>
      let E := fresh "E" in destruct ((a <=? e) && (e <=? b)) eqn:E; [bool_prop; try (exfalso; lia)|]
  end.

Lemma sbi_lookup_legacy (eid : Z) :
  match service_lookup sbi_services eid with Some v => negb (sv_legacy v) | None => true end =
  negb ((0 <=? eid) && (eid <=? SBI_EXT_LEGACY_SHUTDOWN)).
Proof.
  pose proof config_impl_id.
  destruct ((0 <=? eid) && (eid <=? SBI_EXT_LEGACY_SHUTDOWN)) eqn:El.
  - unfold SBI_EXT_LEGACY_SHUTDOWN in El. bool_prop. table; [done|]. apply andb_false_iff in E7 as [?|?]; bool_prop; lia.
  - table; done.
Qed.

(** Every id has one service at most. *)
Lemma sbi_lookup_own (eid : Z) :
  Forall (fun v => id_matches eid (sv_id v) = true -> service_lookup sbi_services eid = Some v) sbi_services.
Proof.
  pose proof config_impl_id. unfold sbi_services at 2. repeat apply Forall_cons_2; try apply Forall_nil_2.
  all: intros Hm; unfold id_matches in Hm; apply andb_prop in Hm as [H1 H2]; bool_prop.
  all: table; try reflexivity; exfalso; lia.
Qed.

Lemma find_perm {A} (f : A -> bool) (l l' : list A) (x : A) : l ≡ₚ l' ->
  Forall (fun y => f y = true -> y = x) l -> List.find f l = List.find f l'.
Proof.
  intros Hp Hall. assert (Forall (fun y => f y = true -> y = x) l') as Hall' by (by rewrite <- Hp).
  rewrite Forall_forall in Hall, Hall'.
  destruct (List.find f l) as [y|] eqn:E, (List.find f l') as [y'|] eqn:E'; [..|done].
  - apply List.find_some in E as [Hin E], E' as [Hin' E']. rewrite <- list_elem_of_In in Hin, Hin'.
    by rewrite (Hall y), (Hall' y').
  - apply List.find_some in E as [Hin E]. rewrite <- list_elem_of_In, Hp, list_elem_of_In in Hin.
    pose proof (List.find_none f l' E' y Hin). congruence.
  - apply List.find_some in E' as [Hin E']. rewrite <- list_elem_of_In, <- Hp, list_elem_of_In in Hin.
    pose proof (List.find_none f l E y' Hin). congruence.
Qed.

(** The order in which the linker collects the services does not matter:
    in any order of the table the same service answers an extension id. *)
Theorem service_lookup_order (services : list service) (eid : Z) : services ≡ₚ sbi_services ->
  service_lookup services eid = service_lookup sbi_services eid.
Proof.
  intros Hp. destruct (service_lookup sbi_services eid) as [v|] eqn:E.
  - rewrite <- E. unfold service_lookup. apply (find_perm _ _ _ v Hp). rewrite Hp.
    eapply Forall_impl; [apply (sbi_lookup_own eid)|]. cbv beta. intros y Hy Hm. specialize (Hy Hm). congruence.
  - unfold service_lookup. destruct (List.find _ services) as [v|] eqn:E'; [|done].
    apply List.find_some in E' as [Hin E']. rewrite <- list_elem_of_In, Hp, list_elem_of_In in Hin.
    pose proof (List.find_none _ _ E v Hin). cbn in *. congruence.
Qed.
End Table.

(** ** The calling convention *)

(** The call did not give the hart other registers to go on with. *)
Definition kept_regs (e : event) : Prop :=
  match e with
  | Ev c b =>
      match c in call B return option B -> Prop with
      | DomainEnter r _ _ | DomainExit r _ => fun b => match b with Some (rc, r') => rc <> 0 /\ r' = r | None => True end
      | DomainStop r _ => fun b => match b with Some (_, r') => r' = r | None => True end
      | SseComplete r | MpxySwitchPending r _ _ => fun b => match b with Some (back, r') => back = false /\ r' = r | None => True end
      | VendorEcall _ r => fun b => match b with Some (_, _, keep, r') => keep = false /\ r' = r | None => True end
      | TrapRedirect _ _ => fun _ => False
      | _ => fun _ => True
      end b
  end.

Section Convention.
Context {AR : Arch} {KC : Kconfig} {F : Features} {HT : HartTable} {SC : SbiConfig} {SO : SbiConfigOk}.

Definition any (B : Set) (_ : list event) (_ : call B) : Prop := True.

Lemma always_any {A} (before : list event) (p : prog A) : always any (fun _ _ => True) before p.
Proof. revert before. induction p as [a|B c k IH]; intros before; cbn; [done|]. by split. Qed.

(** A part that has no registers in its hands. *)
Lemma any_bind {A B} (Q : list event -> B -> Prop) (before : list event) (p : prog A) (f : A -> prog B) :
  (forall after a, always any Q after (f a)) -> always any Q before (p ≫= f).
Proof. intros Hf. eapply always_bind; [apply always_any|]. auto. Qed.

Definition plain_ret (regs : trap_regs) (log : list event) (x : service_ret * trap_regs) : Prop :=
  Forall kept_regs log -> x.2 = regs /\ sr_keep_regs x.1 = false.

Definition ecall_plain (ecall : Z -> Z -> trap_regs -> sbi_result) : Prop :=
  forall eid fid regs before, always any (plain_ret regs) before (ecall eid fid regs).

Ltac plain :=
  lazymatch goal with
  | |- any _ _ _ => exact I
  | |- plain_ret _ _ _ =>
      let H := fresh "Hk" in
      intros H; repeat (apply Forall_app in H as [H ?]);
      repeat match goal with K : Forall kept_regs [_] |- _ => apply (proj1 (Forall_singleton _ _)) in K; cbn [kept_regs] in K end;
      repeat match goal with K : _ /\ _ |- _ => destruct K | K : False |- _ => destruct K end;
      subst; cbn [fst snd];
      repeat match goal with |- context [if truth ?z then _ else _] => rewrite (proj2 (truth_true z)) by done end;
      repeat match goal with |- context [if ?b then _ else _] => destruct b end;
      done
  | |- _ => idtac
  end.

Ltac plain_walk :=
  repeat (walk1 || match goal with |- always any _ _ (mbind _ _) => apply any_bind; intros ? ?; cbn beta end); plain.

(** The legacy calls with a mask: it was read, or the registers are those of
    the fault. *)
Lemma legacy_plain (regs : trap_regs) (va : Z) (before : list event) (f : option hartmask * trap_regs -> sbi_result) :
  (forall after m regs', (Forall kept_regs after -> regs' = regs /\ is_Some m) -> always any (plain_ret regs) after (f (m, regs'))) ->
  always any (plain_ret regs) before (legacy_hartmask regs va ≫= f).
Proof.
  intros Hf. eapply (always_bind any (fun log x => Forall kept_regs log -> x.2 = regs /\ is_Some x.1)).
  - unfold legacy_hartmask. walk; try exact I; try (intros _; by split; [|eexists]).
    intros Hk. apply Forall_app in Hk as [_ Hk]. by apply (proj1 (Forall_singleton _ _)) in Hk.
  - cbv beta. intros after [m regs'] H. by apply Hf.
Qed.

Lemma mpxy_plain (fid : Z) (regs : trap_regs) (before : list event) (f : service_ret -> sbi_result) :
  (forall after ret, sr_keep_regs ret = false -> always any (plain_ret regs) after (f ret)) ->
  always any (plain_ret regs) before (sbi_mpxy_shmem_call fid regs ≫= f).
Proof.
  intros Hf. eapply (always_bind any (fun _ ret => sr_keep_regs ret = false)).
  - unfold sbi_mpxy_shmem_call. walk; try exact I; done.
  - cbv beta. intros after ret H. by apply Hf.
Qed.

Lemma services_plain : Forall (fun s => forall ecall, sv_ecall s = Some ecall -> ecall_plain ecall) sbi_services.
Proof.
  unfold sbi_services. repeat apply Forall_cons_2; try apply Forall_nil_2; intros ecall [= <-] eid fid regs before.
  - unfold sbi_base_ecall. plain_walk.
  - unfold sbi_cppc_ecall. plain_walk.
  - unfold sbi_dbcn_ecall. plain_walk.
  - unfold sbi_dbtr_ecall. plain_walk.
  - unfold sbi_domain_ecall. plain_walk.
  - unfold sbi_fwft_ecall. plain_walk.
  - unfold sbi_hsm_ecall. plain_walk.
  - unfold sbi_ipi_ecall. plain_walk.
  - unfold sbi_legacy_ecall.
    repeat (walk1 || (apply legacy_plain; intros after [targets|] regs' Hr)); try exact I; try (plain; fail).
    all: intros Hk; destruct Hr as [-> Hs]; [repeat (apply Forall_app in Hk as [Hk ?]); done|]; try done; by destruct Hs.
  - unfold sbi_mpxy_ecall. repeat (walk1 || (apply mpxy_plain; intros after ret Hret)); plain.
  - unfold sbi_pmu_ecall. plain_walk.
  - unfold sbi_rfence_ecall. plain_walk.
  - unfold sbi_srst_ecall. plain_walk.
  - unfold sbi_sse_ecall. plain_walk.
  - unfold sbi_susp_ecall. plain_walk.
  - unfold sbi_time_ecall. plain_walk.
  - unfold sbi_vendor_ecall. plain_walk.
Qed.

(** An ecall returns by its convention: unless a component gave the hart
    another context to go on with (a move to another domain, the end of an
    event handler, a fault of the caller), the registers the caller finds are
    its own, with the error in a0 and, for all but the legacy calls, the value
    in a1. *)
Theorem ecall_convention {S} (h : answers S) (regs regs' : trap_regs) (s s' : S) (log : list event) :
  run h (service_ecall sbi_services regs) s = (log, Some regs', s') -> Forall kept_regs log ->
  exists error value,
    regs' = if (0 <=? trap_reg regs A7) && (trap_reg regs A7 <=? SBI_EXT_LEGACY_SHUTDOWN)
            then trap_reg_set regs A0 (wrap error)
            else trap_reg_set (trap_reg_set regs A0 (wrap error)) A1 (wrap value).
Proof.
  intros Hrun Hk. set (eid := trap_reg regs A7).
  set (legacy := (0 <=? eid) && (eid <=? SBI_EXT_LEGACY_SHUTDOWN)).
  assert (match service_lookup sbi_services eid with Some v => negb (sv_legacy v) | None => true end = negb legacy) as El.
  { apply sbi_lookup_legacy. }
  set (Q := fun (log : list event) r => Forall kept_regs log -> exists error value,
    r = if legacy then trap_reg_set regs A0 (wrap error) else trap_reg_set (trap_reg_set regs A0 (wrap error)) A1 (wrap value)).
  assert (always any Q [] (service_ecall sbi_services regs)) as Ha.
  { unfold service_ecall. fold eid. rewrite El. eapply (always_bind any (plain_ret regs)).
    - destruct (service_lookup sbi_services eid) as [v|] eqn:E; [|by intros _].
      apply List.find_some in E as [Hin _]. apply list_elem_of_In in Hin.
      destruct (sv_ecall v) as [ecall|] eqn:Ec; [|by intros _].
      pose proof services_plain as Hall. rewrite Forall_forall in Hall. by apply (Hall v Hin ecall Ec).
    - intros after [ret r] Hp. unfold plain_ret in Hp. cbn [fst snd] in Hp. unfold Q.
      destruct (sr_keep_regs ret) eqn:Ek; cbn [always]; intros Hf; destruct (Hp Hf) as [-> Hk']; [congruence|].
      exists (sr_error ret), (sr_value ret). by destruct legacy. }
  pose proof (always_run h _ _ _ [] s Ha) as R. rewrite Hrun in R. destruct R as [_ R]. by apply (R regs' eq_refl).
Qed.
End Convention.

(** ** The harts a call is for *)

(** Of the components, what is asked about harts: the mask of those S-mode can
    interrupt, which ids are valid, and the domain. *)
Definition hart_answers {KC : Kconfig} (running : hartmask) (valid : Z -> bool) (dom : domain) : answers unit :=
  fun B c s =>
    match c in call B return option B * unit with
    | HsmInterruptibleMask => (Some running, s)
    | HartValid id => (Some (valid id), s)
    | ThisDomain => (Some dom, s)
    | IpiAvailable => (Some true, s)
    | IpiSendMask _ _ => (Some tt, s)
    | DomainIpiParked _ => (Some tt, s)
    | _ => (None, s)
    end.

Section Harts.
Context {AR : Arch} {KC : Kconfig} {KO : KconfigOk} {F : Features} {HT : HartTable} {SC : SbiConfig}.
Context (running : hartmask) (valid : Z -> bool) (dom : domain).
(** Valid ids are of harts of the table, and the table fits the masks. *)
Hypothesis valid_index : forall id, valid id = true -> 0 <= hart_index ht_ids id < CONFIG_PLATFORM_HART_COUNT.

Abbreviation runh p := (run (hart_answers running valid dom) p tt).

(** The ids a mask names, and those that may be named. *)
Definition named (hmask hbase id : Z) : Prop := exists i, 0 <= i < XLEN /\ Z.testbit hmask i = true /\ id = hbase + i.
Definition nameable (id : Z) : Prop :=
  id < 2 ^ XLEN /\ valid id = true /\ domain_hart_member dom (hart_index ht_ids id) = true.

(** The same for some of the bits. *)
Definition named_in (todo : list Z) (hmask hbase id : Z) : Prop :=
  exists i, i ∈ todo /\ Z.testbit hmask i = true /\ id = hbase + i.

Lemma run_ask {B : Set} {A} (c : call B) (f : B -> prog A) (b : B) :
  hart_answers running valid dom B c tt = (Some b, tt) ->
  runh (ask c ≫= f) = let '(l, r, s) := runh (f b) in (Ev c (Some b) :: l, r, s).
Proof. intros E. cbn. by rewrite E. Qed.

Lemma hartmask_loop_spec (todo : list Z) (hmask hbase : Z) (out : hartmask) :
  is_ulong hmask -> is_ulong hbase -> Forall (fun i => 0 <= i < XLEN) todo -> hartmask_wf out ->
  exists rc out', (runh (hartmask_loop todo hmask hbase running out)).1.2 = Some (rc, out') /\
  ((forall id, named_in todo hmask hbase id -> nameable id) ->
   rc = SBI_SUCCESS /\ hartmask_wf out' /\
   forall k, 0 <= k -> (hartmask_test out' k = true <->
     hartmask_test out k = true \/ hartmask_test running k = true /\ exists id, named_in todo hmask hbase id /\ hart_index ht_ids id = k)) /\
  ((exists id, named_in todo hmask hbase id /\ ~ nameable id) -> rc = SBI_ERR_INVALID_PARAM).
Proof using valid_index.
  intros Hm Hb. revert out. induction todo as [|i todo IH]; intros out Hf Hwf.
  { exists SBI_SUCCESS, out. split_and!; [done| |].
    - intros _. split_and!; [done..|]. intros k Hk. split; [by left|]. intros [?|[_ (id & (i & Hi & _) & _)]]; [done|].
      by apply elem_of_nil in Hi.
    - intros (id & (i & Hi & _) & _). by apply elem_of_nil in Hi. }
  inversion_clear Hf as [|? ? Hi Hf']. cbn [hartmask_loop]. cbv zeta.
  assert (truth (Z.land hmask (BIT i)) = Z.testbit hmask i) as Et by (rewrite BIT_small by lia; apply truth_bit; lia).
  rewrite Et. destruct (Z.testbit hmask i) eqn:Ei; cbn [negb].
  2:{ destruct (IH out Hf' Hwf) as (rc & out' & Er & H1 & H2). exists rc, out'.
      assert (forall id, named_in (i :: todo) hmask hbase id <-> named_in todo hmask hbase id) as En.
      { intros id. split; intros (j & Hj & Hb' & ->); exists j; (split_and!; [|done..]); [|by right].
        apply elem_of_cons in Hj as [->|Hj]; [congruence|done]. }
      split; [done|]. split.
      - intros Hall. destruct H1 as (Ha & Hb' & Hc); [intros id Hid; by apply Hall, En|]. split_and!; [done..|].
        intros k Hk. rewrite (Hc k Hk). by setoid_rewrite En.
      - intros (id & Hid & Hn). apply H2. exists id. by rewrite <- En. }
  set (id := hbase + i).
  assert (named_in (i :: todo) hmask hbase id) as Hid by (exists i; split_and!; [by left|done..]).
  assert (is_ulong i) as Hiu by (split; [lia|]; pose proof (Z.pow_gt_lin_r 2 XLEN); lia).
  destruct (hbase +! i <? hbase) eqn:Ec.
  { apply uadd_carry in Ec; [|done..]. exists SBI_ERR_INVALID_PARAM, out. split_and!; [done| |done].
    intros Hall. destruct (Hall id Hid) as [? _]. lia. }
  assert (hbase +! i = id) as Eid.
  { apply wrap_small. split; [unfold is_ulong in *; lia|].
    destruct (Z.lt_ge_cases id (2 ^ XLEN)) as [|Hge]; [done|].
    apply (uadd_carry hbase i Hb Hiu) in Hge. congruence. }
  rewrite Eid. erewrite run_ask by reflexivity.
  destruct (valid id) eqn:Ev; cbn [negb].
  2:{ exists SBI_ERR_INVALID_PARAM, out. split_and!; [done| |done]. intros Hall. destruct (Hall id Hid) as (_ & ? & _). congruence. }
  erewrite run_ask by reflexivity. destruct (domain_hart_member dom (hart_index ht_ids id)) eqn:Em; cbn [negb].
  2:{ exists SBI_ERR_INVALID_PARAM, out. split_and!; [done| |done]. intros Hall. destruct (Hall id Hid) as (_ & _ & ?). congruence. }
  set (out1 := if hartmask_test running (hart_index ht_ids id) then hartmask_set out (hart_index ht_ids id) else out).
  pose proof (valid_index id Ev) as Hx.
  assert (hartmask_wf out1) as Hwf1 by (unfold out1; destruct (hartmask_test running _); [by apply bit_set_wf|done]).
  destruct (IH out1 Hf' Hwf1) as (rc & out' & Er & H1 & H2). exists rc, out'.
  destruct (runh (hartmask_loop todo hmask hbase running out1)) as [[l r] u]. cbn in Er |- *. split; [done|].
  assert (nameable id) as Hnm.
  { split_and!; [|done..]. rewrite <- Eid. apply wrap_range. }
  split.
  - intros Hall. destruct H1 as (Ha & Hb' & Hc).
    { intros j (x & Hxx & Hy & ->). apply Hall. exists x. split_and!; [by right|done..]. }
    split_and!; [done..|]. intros k Hk. rewrite (Hc k Hk).
    assert (hartmask_test out1 k = true <-> hartmask_test out k = true \/
      hartmask_test running k = true /\ hart_index ht_ids id = k) as Eo.
    { unfold out1. destruct (hartmask_test running (hart_index ht_ids id)) eqn:Et'.
      - unfold hartmask_test, hartmask_set. rewrite (bit_test_set _ _ Hwf) by (done || lia).
        rewrite orb_true_iff, Z.eqb_eq. unfold hartmask_test in Et'. split; [intros [<-|?]; auto|intros [?|[? ?]]; auto].
      - split; [by left|]. intros [?|[? <-]]; [done|congruence]. }
    rewrite Eo. split.
    + intros [[?|[? ?]]|[? (j & (x & Hxx & Hy & ->) & ?)]]; [by left|right; split; [done|by exists id]|].
      right. split; [done|]. exists (hbase + x). split; [|done]. exists x. split_and!; [by right|done..].
    + intros [?|[? (j & (x & Hxx & Hy & ->) & ?)]]; [by left; left|].
      apply elem_of_cons in Hxx as [->|Hxx]; [by left; right|]. right. split; [done|]. exists (hbase + x). split; [|done]. by exists x.
  - intros (j & (x & Hxx & Hy & ->) & Hn). apply elem_of_cons in Hxx as [->|Hxx]; [done|].
    apply H2. exists (hbase + x). split; [|done]. by exists x.
Qed.

Lemma named_seq (hmask hbase id : Z) : named_in (seqZ 0 XLEN) hmask hbase id <-> named hmask hbase id.
Proof. split; intros (i & Hi & H); exists i; (split; [|done]); rewrite elem_of_seqZ in *; lia. Qed.

(** [sbi_hartmask], on every branch. *)
Definition hartmask_result (hmask hbase rc : Z) (out : hartmask) : Prop :=
  if hbase =? ulong_max then rc = SBI_SUCCESS /\ out = running
  else
    ((forall id, named hmask hbase id -> nameable id) ->
     rc = SBI_SUCCESS /\
     forall k, 0 <= k -> (hartmask_test out k = true <->
       hartmask_test running k = true /\ exists id, named hmask hbase id /\ hart_index ht_ids id = k)) /\
    ((exists id, named hmask hbase id /\ ~ nameable id) -> rc = SBI_ERR_INVALID_PARAM).

Lemma hartmask_run (hmask hbase : Z) : is_ulong hmask -> is_ulong hbase ->
  exists log rc out, runh (sbi_hartmask hmask hbase) = (log, Some (rc, out), tt) /\ hartmask_result hmask hbase rc out.
Proof using valid_index KO.
  intros Hm Hb. unfold sbi_hartmask, hartmask_result. erewrite run_ask by reflexivity.
  destruct (hbase =? ulong_max); [by eexists _, _, _|].
  assert (hartmask_wf hartmask_none) as Hwf by (apply hartmask_none_wf; pose proof config_hart_count; lia).
  assert (Forall (fun i => 0 <= i < XLEN) (seqZ 0 XLEN)) as Hs by (apply Forall_forall; intros i Hi; rewrite elem_of_seqZ in Hi; lia).
  destruct (hartmask_loop_spec (seqZ 0 XLEN) hmask hbase hartmask_none Hm Hb Hs Hwf) as (rc & out & Er & H1 & H2).
  destruct (runh (hartmask_loop (seqZ 0 XLEN) hmask hbase running hartmask_none)) as [[l r] []]. cbn in Er. subst r.
  eexists _, rc, out. split; [done|]. split.
  - intros Hall. destruct H1 as (-> & _ & Hk); [intros id Hid; by apply Hall, named_seq|]. split; [done|].
    intros k H0. rewrite (Hk k H0), hartmask_test_none. setoid_rewrite named_seq. naive_solver.
  - intros (id & Hid & Hn). apply H2. exists id. by rewrite named_seq.
Qed.

(** The harts an (hart_mask, hart_mask_base) pair stands for: with base -1
    every hart S-mode can interrupt; otherwise, when every named id is that of
    a hart of the calling domain, exactly the named ones it can interrupt; and
    an error when one is not, or is past the end of the id space. *)
Theorem sbi_hartmask_spec (hmask hbase : Z) : is_ulong hmask -> is_ulong hbase ->
  exists log rc out, runh (sbi_hartmask hmask hbase) = (log, Some (rc, out), tt) /\
  if hbase =? ulong_max then rc = SBI_SUCCESS /\ out = running
  else
    ((forall id, named hmask hbase id -> nameable id) ->
     rc = SBI_SUCCESS /\
     forall k, 0 <= k -> (hartmask_test out k = true <->
       hartmask_test running k = true /\ exists id, named hmask hbase id /\ hart_index ht_ids id = k)) /\
    ((exists id, named hmask hbase id /\ ~ nameable id) -> rc = SBI_ERR_INVALID_PARAM).
Proof using valid_index KO. apply hartmask_run. Qed.

(** ** The IPI call *)

(** The hart is one of those the call names. *)
Definition wanted (hmask hbase k : Z) : Prop := hbase = ulong_max \/ named hmask hbase (hart_id_of ht_ids k).

Lemma parked_loop_run (todo : list Z) (hmask hbase : Z) : is_ulong hmask -> is_ulong hbase ->
  exists log, runh (ipi_parked_loop todo hmask hbase) = (log, Some tt, tt) /\
  forall k, k ∈ todo -> is_ulong (hart_id_of ht_ids k) -> wanted hmask hbase k -> Ev (DomainIpiParked k) (Some tt) ∈ log.
Proof.
  intros Hm Hb. induction todo as [|i todo (log & Er & IH)].
  { exists []. split; [done|]. intros k Hk. by apply elem_of_nil in Hk. }
  cbn [ipi_parked_loop]. cbv zeta. set (id := hart_id_of ht_ids i).
  match goal with |- context [if ?b then _ else _] => destruct b eqn:Eb end.
  - erewrite run_ask by reflexivity. rewrite Er. eexists. split; [done|]. intros k Hk Hu Hw.
    apply elem_of_cons in Hk as [->|Hk]; [by left|right; by apply IH].
  - exists log. split; [done|]. intros k Hk Hu Hw. apply elem_of_cons in Hk as [->|Hk]; [|by apply IH]. exfalso.
    fold id in Hu. apply orb_false_iff in Eb as [E1 E2]. bool_prop. destruct Hw as [|(x & Hx & Ht & E)]; [done|].
    fold id in E. assert (id -! hbase = x) as Es.
    { unfold usub. rewrite E. replace (hbase + x - hbase) with x by lia. apply wrap_small.
      split; [lia|]. pose proof (Z.pow_gt_lin_r 2 XLEN). lia. }
    rewrite Es in E2. apply not_true_iff_false in E2. apply E2. rewrite !andb_true_iff. split_and!.
    + apply Z.leb_le. lia.
    + apply Z.ltb_lt. lia.
    + change 1 with (2 ^ 0). rewrite truth_bit by lia. rewrite Z.shiftr_spec by lia. done.
Qed.

Lemma run_bind {A B} (p : prog A) (f : A -> prog B) (l : list event) (a : A) : runh p = (l, Some a, tt) ->
  runh (p ≫= f) = let '(l', r, s) := runh (f a) in (l ++ l', r, s).
Proof.
  revert l. induction p as [x|C c k IH]; intros l; cbn.
  - intros [= <- ->]. by destruct (run _ (f a) tt) as [[? ?] ?].
  - destruct (hart_answers running valid dom C c tt) as [[b|] []] eqn:E; [|done].
    destruct (run (hart_answers running valid dom) (k b) tt) as [[l0 r] []] eqn:E0. intros [= <- ->].
    specialize (IH b l0 E0). cbn in IH. unfold mbind, prog_bind in IH. rewrite IH. by destruct (run _ (f a) tt) as [[? ?] ?].
Qed.

Lemma parked_run (hmask hbase : Z) : is_ulong hmask -> is_ulong hbase ->
  exists log, runh (ipi_parked_harts hmask hbase) = (log, Some tt, tt) /\
  forall k, 0 <= k < CONFIG_PLATFORM_HART_COUNT -> is_ulong (hart_id_of ht_ids k) ->
    hartmask_test (d_parked dom) k = true -> wanted hmask hbase k -> Ev (DomainIpiParked k) (Some tt) ∈ log.
Proof.
  intros Hm Hb. unfold ipi_parked_harts. erewrite run_ask by reflexivity. unfold domain_has_parked. rewrite negb_involutive.
  destruct (hartmask_empty_atomic (d_parked dom)) eqn:Ee.
  - eexists. split; [done|]. intros k Hk _ Ht. rewrite (hartmask_empty_test _ k Ee Hk) in Ht. done.
  - destruct (parked_loop_run (hartmask_harts (d_parked dom)) hmask hbase Hm Hb) as (l & E & Hl). rewrite E.
    eexists. split; [done|]. intros k Hk Hu Ht Hw. apply elem_of_cons; right. apply Hl; [|done..].
    unfold hartmask_harts. apply list_elem_of_filter. split; [done|]. rewrite elem_of_seqZ. lia.
Qed.

Definition no_send (B : Set) (_ : list event) (c : call B) : Prop := match c with IpiSendMask _ _ => False | _ => True end.

Lemma hartmask_loop_quiet (todo : list Z) (hmask hbase : Z) (r out : hartmask) (before : list event) :
  always no_send (fun _ _ => True) before (hartmask_loop todo hmask hbase r out).
Proof.
  revert before out. induction todo as [|i todo IH]; intros before out; [done|].
  cbn [hartmask_loop]. cbv zeta. walk; try exact I. all: apply IH.
Qed.

Lemma hartmask_quiet (hmask hbase : Z) : always no_send (fun _ _ => True) [] (sbi_hartmask hmask hbase).
Proof. unfold sbi_hartmask. walk; try exact I. apply hartmask_loop_quiet. Qed.

Lemma decide_nameable (hmask hbase : Z) :
  (forall id, named hmask hbase id -> nameable id) \/ exists id, named hmask hbase id /\ ~ nameable id.
Proof.
  set (bad i := Z.testbit hmask i && negb ((hbase + i <? 2 ^ XLEN) && valid (hbase + i) &&
    domain_hart_member dom (hart_index ht_ids (hbase + i)))).
  destruct (existsb bad (seqZ 0 XLEN)) eqn:E.
  - right. apply existsb_exists in E as (i & Hi & Hb). rewrite <- list_elem_of_In, elem_of_seqZ in Hi. unfold bad in Hb.
    bool_prop. exists (hbase + i). split; [exists i; split_and!; [lia..|done|done]|].
    intros (H1 & H2 & H3). rewrite H2, H3 in *. apply Z.ltb_lt in H1. rewrite H1 in *. done.
  - left. intros id (i & Hi & Ht & ->).
    assert (bad i = false) as Eb.
    { apply not_true_iff_false. intros Hb. apply not_true_iff_false in E. apply E. apply existsb_exists. exists i.
      split; [|done]. rewrite <- list_elem_of_In, elem_of_seqZ. lia. }
    unfold bad in Eb. rewrite Ht in Eb. cbn in Eb. bool_prop. split_and!; done.
Qed.

Lemma trap_reg_ulong (regs : trap_regs) (n : Z) : Forall is_ulong (tr_x regs) -> is_ulong (trap_reg regs n).
Proof.
  intros Hf. unfold trap_reg. destruct (tr_x regs !! Z.to_nat n) as [v|] eqn:E; cbn.
  - rewrite Forall_forall in Hf. apply Hf. by eapply list_elem_of_lookup_2.
  - split; [lia|apply pow_XLEN_pos].
Qed.

(** No IPI of the SBI call is lost on a hart that is away: when the call
    succeeds, the event is posted to exactly the named harts S-mode can
    interrupt, and every named hart of the domain that is parked in another
    one is noted to find it when it is back; when it names a hart the domain
    has not, nobody is interrupted. *)
Theorem sbi_ipi_spec (regs : trap_regs) : trap_regs_wf regs ->
  let hmask := trap_reg regs A0 in
  let hbase := trap_reg regs A1 in
  exists log ret, runh (sbi_ipi_ecall SBI_EXT_IPI 0 regs) = (log, Some (ret, regs), tt) /\
  (hbase = ulong_max \/ (forall id, named hmask hbase id -> nameable id) ->
   ret = sbi_ok 0 /\
   (exists targets, Ev (IpiSendMask targets IPI_EVENT_SMODE) (Some tt) ∈ log /\
    forall k, 0 <= k -> (hartmask_test targets k = true <->
      hartmask_test running k = true /\ (hbase = ulong_max \/ exists id, named hmask hbase id /\ hart_index ht_ids id = k))) /\
   forall k, 0 <= k < CONFIG_PLATFORM_HART_COUNT -> is_ulong (hart_id_of ht_ids k) ->
     hartmask_test (d_parked dom) k = true -> wanted hmask hbase k -> Ev (DomainIpiParked k) (Some tt) ∈ log) /\
  (hbase <> ulong_max -> (exists id, named hmask hbase id /\ ~ nameable id) ->
   ret = sbi_err SBI_ERR_INVALID_PARAM /\ forall targets e b, Ev (IpiSendMask targets e) b ∉ log).
Proof using valid_index KO.
  intros (Hlen & Hall & _) hmask hbase.
  assert (is_ulong hmask /\ is_ulong hbase) as [Hm Hb] by (split; by apply trap_reg_ulong).
  destruct (hartmask_run hmask hbase Hm Hb) as (l1 & rc & targets & E1 & R).
  assert (forall targets e b, Ev (IpiSendMask targets e) b ∉ l1) as Hq.
  { intros t e b (la & lb & ->)%list_elem_of_split. pose proof (hartmask_quiet hmask hbase) as Hal.
    pose proof (always_run (hart_answers running valid dom) _ _ _ [] tt Hal) as T. rewrite E1 in T.
    destruct T as [T _]. exact (T la _ _ b lb eq_refl). }
  unfold sbi_ipi_ecall. cbn [Z.eqb negb]. erewrite run_ask by reflexivity. cbn [negb].
  rewrite (run_bind _ _ _ _ E1). unfold hartmask_result in R.
  destruct (truth rc) eqn:Erc.
  - (* an error *) eexists _, _. split; [reflexivity|]. split.
    + intros Hok. exfalso. destruct (Z.eqb_spec hbase ulong_max) as [E|E]; [destruct R as [-> _]; done|].
      destruct R as [R _]. destruct Hok as [?|Hok]; [done|]. destruct (R Hok) as [-> _]. done.
    + intros Hne Hbad. destruct (Z.eqb_spec hbase ulong_max) as [E|E]; [done|]. destruct R as [_ R].
      rewrite (R Hbad). split; [done|]. intros t e b. rewrite app_nil_r. intros [H|H]%elem_of_cons; [|by eapply Hq].
      apply (f_equal (fun x => match x with Ev (IpiSendMask _ _) _ => true | _ => false end)) in H. done.
  - destruct (parked_run hmask hbase Hm Hb) as (l2 & E2 & Hp).
    erewrite run_ask by reflexivity. rewrite (run_bind _ _ _ _ E2). eexists _, _. split; [reflexivity|]. split.
    + intros _. split; [done|]. split.
      * exists targets. split.
        { apply elem_of_cons; right. apply elem_of_app; right. by apply elem_of_cons; left. }
        intros k Hk. destruct (Z.eqb_spec hbase ulong_max) as [E|E].
        { destruct R as [_ ->]. naive_solver. }
        destruct R as [R1 R2]. destruct (decide_nameable hmask hbase) as [Hok|Hbad].
        { destruct (R1 Hok) as [_ R]. rewrite (R k Hk). naive_solver. }
        rewrite (R2 Hbad) in Erc. done.
      * intros k Hk Hu Hpk Hw. apply elem_of_cons; right. apply elem_of_app; right. apply elem_of_cons; right.
        rewrite app_nil_r. by apply Hp.
    + intros Hne Hbad. exfalso. destruct (Z.eqb_spec hbase ulong_max) as [E|E]; [done|]. destruct R as [_ R].
      rewrite (R Hbad) in Erc. done.
Qed.
End Harts.

(** ** The legacy IPI call *)

Section Legacy.
Context {AR : Arch} {KC : Kconfig} {F : Features} {HT : HartTable} {SC : SbiConfig}.

Definition no_park (B : Set) (_ : list event) (c : call B) : Prop := match c with DomainIpiParked _ => False | _ => True end.

(** The legacy call to send IPIs notes none for a hart of the domain that is
    parked: what such a hart is sent is lost, unlike with the call of the IPI
    extension. *)
Lemma legacy_ipi_skips_parked {S} (h : answers S) (regs : trap_regs) (fid k : Z) (b : option unit) (s : S) :
  Ev (DomainIpiParked k) b ∉ (run h (sbi_legacy_ecall SBI_EXT_LEGACY_SEND_IPI fid regs) s).1.1.
Proof.
  assert (always no_park (fun _ _ => True) [] (sbi_legacy_ecall SBI_EXT_LEGACY_SEND_IPI fid regs)) as Ha.
  { unfold sbi_legacy_ecall, legacy_hartmask. cbn [Z.eqb SBI_EXT_LEGACY_SEND_IPI SBI_EXT_LEGACY_SET_TIMER
      SBI_EXT_LEGACY_PUTCHAR SBI_EXT_LEGACY_GETCHAR SBI_EXT_LEGACY_CLEAR_IPI Pos.eqb].
    destruct (negb (truth (trap_reg regs A0))); cbn; repeat (split; [exact I|]; intros ?); cbn; try exact I.
    match goal with x : (_ + _)%type |- _ => destruct x end; cbn; repeat (split; [exact I|]; intros ?); exact I. }
  pose proof (always_run h _ _ _ [] s Ha) as T.
  destruct (run h (sbi_legacy_ecall SBI_EXT_LEGACY_SEND_IPI fid regs) s) as [[l r] s']. cbn.
  intros (la & lb & ->)%list_elem_of_split. destruct T as [T _]. exact (T la _ _ b lb eq_refl).
Qed.
End Legacy.

(** ** A machine with two harts, of which hart 1 is away *)

Module TwoHartsSbi.
#[local] Instance arch : Arch := RV64.
#[local] Instance config : Kconfig := qemu_virt.
#[local] Instance config_ok : KconfigOk := qemu_virt_ok.
#[local] Instance features : Features := fun _ => false.
#[local] Instance harts : HartTable := {| ht_ids := [0; 1]; ht_nodup := two_harts_nodup |}.
#[local] Instance sbi : SbiConfig := {| CONFIG_SBI_IMPL_ID := 0x7f; CONFIG_SBI_IMPL_VERSION := 1 |}.
#[local] Instance sbi_ok_ : SbiConfigOk.
Proof. split; cbn; lia. Qed.

Definition valid (id : Z) : bool := (id =? 0) || (id =? 1).
Definition guest : domain := domain_zero <| d_index := 1 |> <| d_assigned := [1] |> <| d_parked := [2] |>.
(** Hart 0 can be interrupted. *)
Definition running : hartmask := [1].

Lemma valid_ok (id : Z) : valid id = true -> 0 <= hart_index ht_ids id < CONFIG_PLATFORM_HART_COUNT.
Proof. unfold valid. intros [->%Z.eqb_eq| ->%Z.eqb_eq]%orb_true_iff; vm_compute; split; congruence. Qed.

Definition frame (a0 a1 a6 a7 : Z) : trap_regs :=
  trap_reg_set (trap_reg_set (trap_reg_set (trap_reg_set regs_zero A0 a0) A1 a1) A6 a6) A7 a7.
Definition call_ipi : trap_regs := frame 3 0 0 SBI_EXT_IPI.

Lemma bits3 (i : Z) : Z.testbit 3 i = true -> i = 0 \/ i = 1.
Proof.
  intros H. destruct (decide (0 <= i < 2)) as [|Hn]; [lia|].
  destruct (Z.lt_ge_cases i 0); [by rewrite Z.testbit_neg_r in H by lia|].
  rewrite (testbit_high 2 3 i) in H by lia. done.
Qed.

Lemma both_nameable (id : Z) : named 3 0 id -> nameable valid guest id.
Proof.
  intros (i & _ & [->| ->]%bits3 & ->); (split_and!; [vm_compute; reflexivity|reflexivity|vm_compute; reflexivity]).
Qed.

Lemma sbi_hartmask_spec_witness :
  exists log out, run (hart_answers running valid guest) (sbi_hartmask 3 0) tt = (log, Some (SBI_SUCCESS, out), tt) /\
  hartmask_test out 1 = false.
Proof.
  assert (is_ulong 3 /\ is_ulong 0) as [H3 H0] by (split; split; vm_compute; congruence).
  destruct (sbi_hartmask_spec running valid guest valid_ok 3 0 H3 H0) as (log & rc & out & E & R & _).
  destruct (R both_nameable) as [-> Hk]. exists log, out. split; [exact E|].
  destruct (hartmask_test out 1) eqn:Et; [|reflexivity]. apply Hk in Et; [|lia]. destruct Et as [Et _]. vm_compute in Et. discriminate Et.
Defined.

Lemma call_ipi_wf : trap_regs_wf call_ipi.
Proof.
  split_and!; [reflexivity| |split; vm_compute; congruence..].
  assert (forallb (fun x => (0 <=? x) && (x <? 2 ^ 64)) (tr_x call_ipi) = true) as E by reflexivity.
  apply Forall_forall. intros x Hx%list_elem_of_In. rewrite forallb_forall in E. specialize (E x Hx). bool_prop. by split.
Qed.

Lemma sbi_ipi_spec_witness :
  exists log ret, run (hart_answers running valid guest) (sbi_ipi_ecall SBI_EXT_IPI 0 call_ipi) tt = (log, Some (ret, call_ipi), tt) /\
  Ev (DomainIpiParked 1) (Some tt) ∈ log.
Proof.
  destruct (sbi_ipi_spec running valid guest valid_ok call_ipi call_ipi_wf) as (log & ret & E & R & _).
  exists log, ret. split; [exact E|]. destruct R as (_ & _ & R); [right; exact both_nameable|]. apply R.
  - cbn. lia.
  - split; vm_compute; congruence.
  - vm_compute. reflexivity.
  - right. exists 1. split_and!; [lia|vm_compute; reflexivity..].
Defined.

Lemma service_lookup_order_witness :
  option_map sv_id (service_lookup (rev sbi_services) SBI_EXT_TIME) = Some id_time.
Proof.
  assert (rev sbi_services ≡ₚ sbi_services) as Hp by (symmetry; apply Permutation_rev).
  rewrite (service_lookup_order (rev sbi_services) SBI_EXT_TIME Hp). reflexivity.
Defined.

(** A reset the domain has no right to. *)
Definition call_reset : trap_regs := frame 0 0 0 SBI_EXT_SRST.
Definition guest_answers : answers unit := fun B c s =>
  match c in call B return option B * unit with
  | ThisDomain => (Some guest, s)
  | ResetSupported _ => (Some true, s)
  | _ => (None, s)
  end.

Lemma ecall_convention_witness :
  exists error value, (run guest_answers (service_ecall sbi_services call_reset) tt).1.2 =
    Some (trap_reg_set (trap_reg_set call_reset A0 (wrap error)) A1 (wrap value)).
Proof.
  destruct (run guest_answers (service_ecall sbi_services call_reset) tt) as [[log r] s'] eqn:E.
  assert (exists regs', r = Some regs' /\ Forall kept_regs log) as (regs' & -> & Hk).
  { vm_compute in E. injection E as <- <- _. eexists. split; [reflexivity|]. repeat constructor. }
  destruct (ecall_convention guest_answers call_reset regs' tt s' log E Hk) as (error & value & ->).
  exists error, value. reflexivity.
Defined.
(** A console write of 16 bytes: the window it is made through. *)
Definition call_write : trap_regs := frame 16 0x80200000 0 SBI_EXT_DBCN.
Definition console_answers : answers unit := fun B c s =>
  match c in call B return option B * unit with
  | SmodeRangeReadable _ _ => (Some true, s)
  | SmodeAccessBegin _ _ => (Some tt, s)
  | ConsoleWriteMem _ _ => (Some tt, s)
  | SmodeAccessEnd => (Some tt, s)
  | _ => (None, s)
  end.

End TwoHartsSbi.
